(* ===== verification/_CoqProject ===== *)
-Q . S2P
Prelude.v
Logic.v
Common.v
PhysicalMemory.v
MemoryBus.v
Tso.v
Paging.v
PageTable.v
Tlb.v
Cache.v
Perf.v
Mmu.v
Page.v
PageAlloc.v
BlockDevice.v
BufferCache.v
Instruction.v
CpuState.v
Trap.v
Decoder.v
Encoder.v
Executor.v
ExecutorInvariant.v
ExecutorFaults.v
ExecutorAlu.v
ExecutorStack.v
Thread.v
RoundRobin.v
WaitQueue.v
SleepQueue.v
Event.v
Futex.v
Smp.v
FsFormat.v
SimpleFs.v
FsDisk.v
FsData.v
FsSpec.v
FsRefinement.v
FsMount.v
Vfs.v
Terminal.v
Console.v
FileDescriptor.v
AddressSpace.v
PageFaultHandler.v
Apic.v
CopyOnWrite.v
UserProgram.v
Elf.v
UserLoader.v
Process.v
Kernel.v
Syscall.v
KernelProcesses.v
KernelBoot.v
UserTrap.v
SyscallContract.v
Shell.v
ShellCorrect.v
Launch.v
DemoProgram.v
DemoRun.v
DemoBoot.v
