(* ===== verification/Prelude.v ===== *)
(** * MNOS: a verification library for the x86-64 machine simulator and its teaching OS

    The program simulates an x86-64 core (decoder, executor, memory management, store buffers,
    caches, traps) and implements on the host side the services of a small operating system
    (page allocator, block device, buffer cache, file system, threads, schedulers, futexes, address
    spaces, program loading) and a kernel that composes them.  This library models those parts as executable functions and proves what makes each of them correct.

    ** How programs are modelled

    - A word of [w] bits is a [Z]; wrap-around is written out ([add64], [sub64], [mul64], [shl64],
      [Z.land] with a mask).  A byte vector is a [list Z] accessed by index.
    - A member function that mutates its object is a computation of the state monad [M S A] of this
      file: it returns the new state and either a value or the exception thrown ([res]).  The state
      reached when an exception is thrown is kept, as in C++.  Exceptions are named by their class
      ([exn]); message texts are erased.  Page faults are exceptions that carry their [PageFault].
    - A pointer to a shared object is a key into a store passed around explicitly (threads in
      Thread.v, open file descriptions in FileDescriptor.v); a reference to a process is its position
      in the deque of the kernel, which only grows.
    - A member function of a part runs in the state of the whole by [zoom] and its variants, which
      read the part, run the function and store the part back.
    - A loop that is not structural takes fuel, and the fuel is the loop's own measure (bytes
      remaining, bits to scan, entries of a table), so the definitions never stop early; where the
      bound is a machine limit (instructions of a run, scan of a bitmap) a theorem says that the
      loop ends within it.

    ** Files, bottom up

    Shared: Prelude.v (exceptions, monad, words, lists, bits, spans), Logic.v (two predicates on
    computations closed under sequencing: [preserves] for invariants, [fault_within] for bounds on
    what has happened when a page fault is raised).

    Machine:
    - Common.v (src/cpu/common): access widths.
    - PhysicalMemory.v, MemoryBus.v (src/cpu/memory): the byte store, the bus as a type class with
      its laws ([physical_memory_write_read]).
    - Tso.v (src/cpu/memory/memory_model.cpp): store buffers of several cores as a step relation; loads
      forward own stores, fences drain in program order, an invariant of every reachable state.
    - Paging.v, PageTable.v (src/cpu/memory/paging.cpp and page tables): walks, permissions, mapping;
      a mapped page translates, other pages are untouched, mapping succeeds with enough frames.
    - Tlb.v, Cache.v, Perf.v, Mmu.v (src/cpu/memory, src/cpu/perf): the TLB never changes a
      translation, the cache is LRU, performance modelling changes no result, a store that faults
      writes nothing.
    - Instruction.v, CpuState.v, Trap.v (src/cpu/instruction, register, flags, system): operands,
      registers, descriptor tables, trap entry and return, system calls.
    - Decoder.v, Encoder.v (src/cpu/decode): the whole decoder; an encoder of reference that it
      inverts; what it yields is well formed and depends only on the bytes consumed.
    - Executor.v (src/cpu/execution) and the theorem files ExecutorInvariant.v (machine typing, runs
      end within their limit), ExecutorFaults.v (page faults are precise, but for three opcodes),
      ExecutorAlu.v (flags, compare and jump), ExecutorStack.v (call and return).

    Operating system:
    - Page.v, PageAlloc.v (src/os/mm): frames, ranges, the physical page allocator.
    - BlockDevice.v, BufferCache.v (src/os/block): the class [BlockStore] is what a client of block
      storage relies on; the memory device and the write-back LRU cache over any store are
      instances, and the cache refines the device beneath it.
    - FsFormat.v, SimpleFs.v (src/os/fs/simple_fs.cpp): the on-disk format and the operations over
      any store.  FsDisk.v, FsData.v, FsSpec.v, FsRefinement.v, FsMount.v: a refinement of an
      abstract file system (numbered nodes, their bytes, free blocks) by the blocks on disk, from
      formatting on.  [layout_ok] excludes block sizes that are not multiples of an inode record;
      the code accepts them and then reads past the block (see the findings).
    - Thread.v, RoundRobin.v, WaitQueue.v, SleepQueue.v, Event.v, Futex.v, Smp.v (src/os/sched,
      src/os/proc/futex.cpp): threads as a store of contexts, queues of references to them; no
      starvation, wake-up order, one core per running thread, balance of the queues.

    - Vfs.v (src/os/fs/vfs.cpp): paths, descriptors and directories over the class of file systems;
      Terminal.v, Console.v (src/os/dev/terminal.cpp, src/os/tty/console.cpp): keyboard queue, display,
      line discipline and blocked readers; FileDescriptor.v (src/os/io/file_descriptor.cpp): tables
      of descriptors that share open file descriptions, a refinement of finite maps.
    - AddressSpace.v, PageFaultHandler.v (src/os/mm/address_space.cpp, page_fault_handler.cpp): an
      address space refines a finite map from pages to frames and permissions; a resolved fault
      maps a cleared page.  CopyOnWrite.v (src/os/proc/copy_on_write.cpp): sharing of pages between
      two address spaces, reference counts that balance, private copies on a write.
    - Apic.v (src/cpu/system/apic.cpp): local controllers, timers, routes, inter-processor interrupts.
    - UserProgram.v, Elf.v, UserLoader.v (src/os/proc/user_loader.cpp, elf_loader.cpp): program
      segments, the whole ELF reader with an encoder of reference, and loading: mapping, copying,
      the initial stack and the initial thread.
    - Process.v (src/os/proc/process.cpp), Kernel.v (src/os/kernel/kernel.cpp, boot_context.cpp): the
      process object and the kernel, whose state holds the state of every service.
      KernelProcesses.v: the process table refines a specification of creation, exit and wait, in
      which exit codes are handed out once.  KernelBoot.v: what booting leaves behind.
    - Syscall.v, UserTrap.v (src/os/kernel/syscall.cpp, user_trap.cpp): the handlers of the system
      calls, user page faults and the run of a program.  SyscallContract.v: a system call writes its
      result in one register and nothing else of any processor.
    - Shell.v (src/os/shell/shell.cpp, session.cpp): the parser of command lines, the builtin commands
      and the session that reads and executes lines.  ShellCorrect.v: the parser inverts a printer,
      the session loses no byte, and only [run] touches the process table.

    ** Fuel and bounds

    Chunked file reads and writes take the number of bytes remaining as fuel (each chunk moves at
    least one); directory parsing takes the number of records; walks have four levels; executor runs
    take the caller's instruction limit, which the code has too, and so does the kernel's run of a
    program ([max_steps]); decoding takes at most fifteen bytes.

    ** Not modelled

    The host front end (drawing, key translation, debugger text), the emulator's command line, and the
    accessors and operators that only read a field.  Host exceptions of allocation failure are erased
    and the texts of messages too; where the shell prints one it is the parameter [what].  Whether a blocked thread is placed in exactly one
    queue of the kernel is not proved, since it does not hold (see the findings on [wait_process]). *)

From stdpp Require Export prelude list list_numbers gmap sorting.
From Stdlib Require Export ZArith Lia Sorted.

#[export] Set Default Goal Selector "!".
#[global] Open Scope Z_scope.

(** ** Exceptions *)

(** The memory-access kinds and page-fault reasons are declared here because a
    page fault carries them as the payload of an exception. *)
Module AccessKind.
(* [include/mnos/cpu/memory/paging.hpp] [MemoryAccessKind] *)
Inductive MemoryAccessKind : Set := READ | WRITE | EXECUTE | COUNT.
End AccessKind.
Abbreviation MemoryAccessKind := AccessKind.MemoryAccessKind.

Module FaultReason.
(* [include/mnos/cpu/memory/paging.hpp] [PageFaultReason] *)
Inductive PageFaultReason : Set :=
  | NOT_PRESENT | WRITE_PROTECTION | USER_SUPERVISOR | EXECUTE_DISABLE | RESERVED_BIT | COUNT.
End FaultReason.
Abbreviation PageFaultReason := FaultReason.PageFaultReason.

(* [include/mnos/cpu/memory/paging.hpp] [PageFault] *)
Record PageFault : Set := mkPageFault {
  pf_linear_address : Z;
  pf_access_kind : MemoryAccessKind;
  pf_reason : PageFaultReason;
  pf_error_code : Z;
}.

(** The C++ exception classes the simulator throws; message texts are erased. *)
Inductive exn : Set :=
  | out_of_range
  | invalid_argument
  | logic_error
  | length_error
  | overflow_error
  | bad_alloc
  | runtime_error
  | decode_error
  | bad_optional_access
  | page_fault (f : PageFault).

#[export] Instance MemoryAccessKind_eq_dec : EqDecision MemoryAccessKind.
Proof. solve_decision. Defined.
#[export] Instance PageFaultReason_eq_dec : EqDecision PageFaultReason.
Proof. solve_decision. Defined.
#[export] Instance PageFault_eq_dec : EqDecision PageFault.
Proof. solve_decision. Defined.
#[export] Instance exn_eq_dec : EqDecision exn.
Proof. solve_decision. Defined.

(** What [catch (const std::logic_error&)] catches: the standard classes derived from it too. *)
Definition is_logic_error (e : exn) : bool :=
  match e with logic_error | invalid_argument | out_of_range | length_error => true | _ => false end.

(** ** Results and stateful computations *)

(** [res A] is the outcome of a [const] member function: a value or an exception. *)
Inductive res (A : Type) : Type :=
  | Ok (a : A)
  | Throw (e : exn).
Arguments Ok {A} a.
Arguments Throw {A} e.

#[export] Instance res_ret : MRet res := fun _ a => Ok a.
#[export] Instance res_bind : MBind res := fun _ _ k r =>
  match r with Ok a => k a | Throw e => Throw e end.
#[export] Instance res_fmap : FMap res := fun _ _ f r =>
  match r with Ok a => Ok (f a) | Throw e => Throw e end.

(** [M S A] is a member function that mutates an object of state [S].  The state
    reached when an exception is thrown is kept: C++ does not roll back. *)
Definition M (S A : Type) : Type := S -> S * res A.

#[export] Instance M_ret S : MRet (M S) := fun _ a s => (s, Ok a).
#[export] Instance M_bind S : MBind (M S) := fun _ _ k m s =>
  match m s with
  | (s', Ok a) => k a s'
  | (s', Throw e) => (s', Throw e)
  end.

Definition throw {S A} (e : exn) : M S A := fun s => (s, Throw e).
Definition get {S} : M S S := fun s => (s, Ok s).
Definition gets {S A} (f : S -> A) : M S A := fun s => (s, Ok (f s)).
Definition put {S} (s' : S) : M S unit := fun _ => (s', Ok tt).
Definition modify {S} (f : S -> S) : M S unit := fun s => (f s, Ok tt).
Definition lift {S A} (f : S -> res A) : M S A := fun s => (s, f s).
(** [throw_if b e] is the guard [if (b) { throw e; }]. *)
Definition throw_if {S} (b : bool) (e : exn) : M S unit :=
  fun s => (s, if b then Throw e else Ok tt).
Definition throw_when (b : bool) (e : exn) : res unit := if b then Throw e else Ok tt.
(** Runs a member function of a sub-object. *)
Definition zoom {S T A} (proj : S -> T) (set : T -> S -> S) (m : M T A) : M S A :=
  fun s => let '(t, r) := m (proj s) in (set t s, r).
(** A counted [for] loop over the values [xs] in order. *)
Fixpoint for_each {S X} (xs : list X) (body : X -> M S unit) : M S unit :=
  match xs with
  | [] => mret tt
  | x :: xs' => body x ≫= fun _ => for_each xs' body
  end.

(** Requests served one after the other, each reply or exception recorded. *)
Fixpoint serve_all {S Q R} (serve : Q -> M S R) (qs : list Q) (s : S) : S * list (res R) :=
  match qs with
  | [] => (s, [])
  | q :: qs' =>
      let '(s', r) := serve q s in
      let '(s'', rs) := serve_all serve qs' s' in (s'', r :: rs)
  end.

Definition is_Ok {A} (r : res A) : bool := match r with Ok _ => true | Throw _ => false end.

(** The final state of a run of known outcome. *)
Lemma run_result {S T A} (m : (S * T) * res A) (r : res A) : m.2 = r -> m = ((m.1.1, m.1.2), r).
Proof. intros <-. by destruct m as [[] ?]. Qed.

Lemma outcome_of {S A} (m : S * res A) (r : res A) : m.2 = r -> m = (m.1, r).
Proof. intros <-. apply surjective_pairing. Qed.

(** ** Automation *)

Create HintDb mnos.
Create Rewrite HintDb mnos_bits.

(** Splits a monadic run in a hypothesis [H : m s = (s', r)]. *)
Ltac munfold :=
  unfold mbind, mret, fmap, M_bind, M_ret, res_bind, res_ret, res_fmap, throw, get, gets, put,
    modify, lift, throw_if, throw_when, zoom in *; cbn beta iota in *.
Ltac munfold_goal :=
  unfold mbind, mret, fmap, M_bind, M_ret, res_bind, res_ret, res_fmap, throw, get, gets, put,
    modify, lift, throw_if, throw_when, zoom; cbn beta iota.
(** Case analysis on the first [if] or [match] scrutinee found in [H]. *)
Ltac dm_in H :=
  match type of H with
  | context [match ?x with _ => _ end] => destruct x eqn:?
  end.
Ltac dm :=
  match goal with
  | |- context [match ?x with _ => _ end] => destruct x eqn:?
  end.
Ltac conjuncts := repeat match goal with H : _ /\ _ |- _ => destruct H end.
Ltac invc H := inversion H; subst; clear H.
(** Turns boolean tests on integers into propositions. *)
Ltac zb :=
  repeat match goal with
  | H : (_ <=? _) = true |- _ => apply Z.leb_le in H
  | H : (_ <=? _) = false |- _ => apply Z.leb_gt in H
  | H : (_ <? _) = true |- _ => apply Z.ltb_lt in H
  | H : (_ <? _) = false |- _ => apply Z.ltb_ge in H
  | H : (_ =? _) = true |- _ => apply Z.eqb_eq in H
  | H : (_ =? _) = false |- _ => apply Z.eqb_neq in H
  | H : negb _ = true |- _ => apply negb_true_iff in H
  | H : negb _ = false |- _ => apply negb_false_iff in H
  | H : andb _ _ = true |- _ => apply andb_true_iff in H as [? ?]
  | H : orb _ _ = false |- _ => apply orb_false_iff in H as [? ?]
  end.

(** ** Machine words *)

Abbreviation W64 := 18446744073709551616.
Definition wrap64 (z : Z) : Z := z `mod` W64.
Definition u64 (z : Z) : Prop := 0 <= z < W64.
Definition add64 (a b : Z) : Z := wrap64 (a + b).
Definition sub64 (a b : Z) : Z := wrap64 (a - b).
Definition mul64 (a b : Z) : Z := wrap64 (a * b).
Definition not64 (a : Z) : Z := Z.lxor a (Z.ones 64).
Definition shl64 (a n : Z) : Z := wrap64 (Z.shiftl a n).

Lemma W64_pow : W64 = 2 ^ 64.
Proof. reflexivity. Qed.

Lemma wrap64_range z : u64 (wrap64 z).
Proof. apply Z.mod_pos_bound. lia. Qed.
Lemma wrap64_small z : u64 z -> wrap64 z = z.
Proof. apply Z.mod_small. Qed.
Lemma add64_range a b : u64 (add64 a b).
Proof. apply wrap64_range. Qed.
Lemma sub64_range a b : u64 (sub64 a b).
Proof. apply wrap64_range. Qed.
#[export] Hint Resolve wrap64_range add64_range sub64_range : mnos.

Lemma sub64_small a b : 0 <= b <= a -> a < W64 -> sub64 a b = a - b.
Proof. intros. apply wrap64_small. unfold u64. lia. Qed.
Lemma add64_small a b : 0 <= a -> 0 <= b -> a + b < W64 -> add64 a b = a + b.
Proof. intros. apply wrap64_small. unfold u64. lia. Qed.
Lemma add64_cases a b : u64 a -> u64 b ->
  (a + b < W64 /\ add64 a b = a + b) \/ (W64 <= a + b /\ add64 a b = a + b - W64).
Proof.
  unfold u64, add64, wrap64. intros. destruct (Z_lt_dec (a + b) W64) as [|].
  - left. split; [done|]. apply Z.mod_small. lia.
  - right. split; [lia|]. symmetry. apply (Z.mod_unique _ _ 1); lia.
Qed.
Lemma sub64_cases a b : u64 a -> u64 b ->
  (b <= a /\ sub64 a b = a - b) \/ (a < b /\ sub64 a b = a - b + W64).
Proof.
  unfold u64, sub64, wrap64. intros. destruct (Z_le_dec b a) as [|].
  - left. split; [done|]. apply Z.mod_small. lia.
  - right. split; [lia|]. symmetry. apply (Z.mod_unique _ _ (-1)); lia.
Qed.

(** ** Bits *)

Lemma testbit_u64_high z i : u64 z -> 64 <= i -> Z.testbit z i = false.
Proof.
  intros [Hl Hh] Hi. destruct (decide (z = 0)) as [->|]; [apply Z.bits_0|].
  apply Z.bits_above_log2; [lia|]. apply Z.log2_lt_pow2; [lia|].
  rewrite W64_pow in Hh. eapply Z.lt_le_trans; [exact Hh|]. apply Z.pow_le_mono_r; lia.
Qed.
Lemma testbit_range_high z n i : 0 <= z < 2 ^ n -> 0 <= n <= i -> Z.testbit z i = false.
Proof.
  intros [Hl Hh] Hi. destruct (decide (z = 0)) as [->|]; [apply Z.bits_0|].
  apply Z.bits_above_log2; [lia|]. apply Z.log2_lt_pow2; [lia|].
  eapply Z.lt_le_trans; [exact Hh|]. apply Z.pow_le_mono_r; lia.
Qed.
Lemma testbit_single k i : 0 <= k -> Z.testbit (Z.shiftl 1 k) i = bool_decide (i = k).
Proof.
  intros Hk. rewrite Z.shiftl_1_l. rewrite Z.pow2_bits_eqb by done.
  case_bool_decide; [subst; apply Z.eqb_refl|]. apply Z.eqb_neq. lia.
Qed.

(** [(x & (1 << k)) != 0] tests bit [k]. *)
Lemma land_single_nonzero x k : 0 <= k ->
  negb (Z.land x (Z.shiftl 1 k) =? 0) = Z.testbit x k.
Proof.
  intros Hk. destruct (Z.testbit x k) eqn:E.
  - apply negb_true_iff, Z.eqb_neq. intros H0.
    assert (Hb : Z.testbit (Z.land x (Z.shiftl 1 k)) k = true).
    { rewrite Z.land_spec, E, testbit_single by done. by rewrite bool_decide_true. }
    by rewrite H0, Z.bits_0 in Hb.
  - apply negb_false_iff, Z.eqb_eq. apply Z.bits_inj'. intros i Hi.
    rewrite Z.land_spec, testbit_single, Z.bits_0 by done.
    case_bool_decide; [subst; by rewrite E|]. apply andb_false_r.
Qed.

Lemma not64_spec a i : 0 <= i -> Z.testbit (not64 a) i = xorb (Z.testbit a i) (i <? 64).
Proof.
  intros Hi. unfold not64. rewrite Z.lxor_spec. f_equal.
  destruct (Z.ltb_spec i 64); [apply Z.ones_spec_low | apply Z.ones_spec_high]; lia.
Qed.
Lemma ones_testbit n i : 0 <= n -> 0 <= i -> Z.testbit (Z.ones n) i = (i <? n).
Proof.
  intros. destruct (Z.ltb_spec i n); [apply Z.ones_spec_low | apply Z.ones_spec_high]; lia.
Qed.
Lemma wrap64_testbit a i : 0 <= i -> Z.testbit (wrap64 a) i = (i <? 64) && Z.testbit a i.
Proof.
  intros Hi. unfold wrap64. rewrite W64_pow. destruct (Z.ltb_spec i 64); simpl.
  - apply Z.mod_pow2_bits_low. lia.
  - apply Z.mod_pow2_bits_high. lia.
Qed.

(** A number all of whose bits at or above [n] are clear is below [2^n]. *)
Lemma testbit_bound z n : 0 <= n -> 0 <= z ->
  (forall i, n <= i -> Z.testbit z i = false) -> z < 2 ^ n.
Proof.
  intros Hn Hz Hb. destruct (Z_lt_dec z (2 ^ n)) as [|Hge]; [done|].
  assert (0 < z) by (pose proof (Z.pow_pos_nonneg 2 n); lia).
  assert (n <= Z.log2 z) by (apply Z.log2_le_pow2; lia).
  pose proof (Hb (Z.log2 z)) as H1. rewrite Z.bit_log2 in H1 by done. by discriminate H1.
Qed.
Lemma land_range a b n : 0 <= n -> 0 <= a < 2 ^ n -> 0 <= b -> 0 <= Z.land a b < 2 ^ n.
Proof.
  intros Hn Ha Hb. assert (0 <= Z.land a b) by (apply Z.land_nonneg; lia).
  split; [done|]. apply testbit_bound; [done..|]. intros i Hi.
  rewrite Z.land_spec, (testbit_range_high a n) by lia. done.
Qed.
Lemma lor_range a b n : 0 <= n -> 0 <= a < 2 ^ n -> 0 <= b < 2 ^ n -> 0 <= Z.lor a b < 2 ^ n.
Proof.
  intros Hn Ha Hb. assert (0 <= Z.lor a b) by (apply Z.lor_nonneg; lia).
  split; [done|]. apply testbit_bound; [done..|]. intros i Hi.
  rewrite Z.lor_spec, (testbit_range_high a n), (testbit_range_high b n) by lia. done.
Qed.
Lemma u64_land a b : u64 a -> 0 <= b -> u64 (Z.land a b).
Proof. intros. unfold u64. rewrite W64_pow. apply land_range; [lia|done..]. Qed.
Lemma u64_lor a b : u64 a -> u64 b -> u64 (Z.lor a b).
Proof. intros. unfold u64. rewrite W64_pow. apply lor_range; [lia|done..]. Qed.
Lemma u64_lxor a b : u64 a -> u64 b -> u64 (Z.lxor a b).
Proof.
  intros Ha Hb. unfold u64. rewrite W64_pow. assert (0 <= Z.lxor a b) by (apply Z.lxor_nonneg; destruct Ha, Hb; lia).
  split; [done|]. apply testbit_bound; [lia|done|]. intros i Hi. by rewrite Z.lxor_spec, !testbit_u64_high.
Qed.
Lemma u64_not64 a : u64 a -> u64 (not64 a).
Proof.
  intros Ha. unfold u64, not64. rewrite W64_pow. split; [apply Z.lxor_nonneg; split; intros; [done|apply Ha]|].
  apply testbit_bound; [lia|apply Z.lxor_nonneg; split; intros; [done|apply Ha]|]. intros i Hi.
  rewrite Z.lxor_spec, (testbit_u64_high a) by done. by rewrite Z.ones_spec_high by lia.
Qed.

#[export] Hint Rewrite Z.land_spec Z.lor_spec Z.lxor_spec Z.ldiff_spec Z.bits_0
  andb_false_r andb_true_r orb_false_r orb_true_r andb_false_l andb_true_l
  orb_false_l orb_true_l : mnos_bits.
#[export] Hint Rewrite Z.shiftr_spec not64_spec wrap64_testbit ones_testbit
  testbit_single using lia : mnos_bits.

(** ** Lists *)

(** The value of index [i] of a byte vector ([bytes_[i]] within bounds). *)
Definition nthZ (l : list Z) (i : Z) : Z := nth (Z.to_nat i) l 0.
Definition lenZ {A} (l : list A) : Z := Z.of_nat (length l).

Lemma lookup_nth (l : list Z) (i : nat) :
  (i < length l)%nat -> l !! i = Some (nth i l 0).
Proof.
  intros Hi. destruct (l !! i) as [x|] eqn:E.
  - by rewrite (nth_lookup_Some l i 0 x E).
  - apply lookup_ge_None in E. lia.
Qed.
Lemma nth_insert_eq (l : list Z) (i : nat) x : (i < length l)%nat -> nth i (<[i:=x]> l) 0 = x.
Proof. intros. apply nth_lookup_Some. by apply list_lookup_insert_eq. Qed.
Lemma nth_insert_ne (l : list Z) (i j : nat) x : i <> j -> nth i (<[j:=x]> l) 0 = nth i l 0.
Proof. intros. rewrite !nth_lookup. by rewrite list_lookup_insert_ne by congruence. Qed.
Lemma elem_nthZ (l : list Z) x : x ∈ l -> exists i, 0 <= i < lenZ l /\ nthZ l i = x.
Proof.
  intros Hx. apply list_elem_of_lookup in Hx as [i Hi]. pose proof (lookup_lt_Some _ _ _ Hi).
  exists (Z.of_nat i). unfold lenZ, nthZ. split; [lia|]. rewrite Nat2Z.id. by apply nth_lookup_Some.
Qed.
Lemma nthZ_replicate n (x i : Z) : 0 <= i < n -> nthZ (replicate (Z.to_nat n) x) i = x.
Proof. intros Hi. unfold nthZ. apply nth_lookup_Some. apply lookup_replicate_2. lia. Qed.
Lemma nthZ_insert (l : list Z) i j x : 0 <= i < lenZ l -> 0 <= j ->
  nthZ (<[Z.to_nat i := x]> l) j = if decide (j = i) then x else nthZ l j.
Proof.
  unfold lenZ, nthZ. intros Hi Hj. case_decide; [subst; by rewrite nth_insert_eq by lia|].
  by rewrite nth_insert_ne by lia.
Qed.
Lemma nthZ_app (l k : list Z) i : 0 <= i ->
  nthZ (l ++ k) i = if decide (i < lenZ l) then nthZ l i else nthZ k (i - lenZ l).
Proof.
  unfold nthZ, lenZ. intros Hi. case_decide; [by rewrite app_nth1 by lia|].
  rewrite app_nth2 by lia. f_equal. lia.
Qed.

Lemma replicate_snoc {A} k (x : A) : 0 <= k -> replicate (Z.to_nat (k + 1)) x = replicate (Z.to_nat k) x ++ [x].
Proof. intros. replace (Z.to_nat (k + 1)) with (Z.to_nat k + 1)%nat by lia. by rewrite replicate_add. Qed.
Lemma lenZ_app {A} (l k : list A) : lenZ (l ++ k) = lenZ l + lenZ k.
Proof. unfold lenZ. rewrite length_app. lia. Qed.
Lemma lenZ_replicate {A} n (x : A) : 0 <= n -> lenZ (replicate (Z.to_nat n) x) = n.
Proof. unfold lenZ. rewrite length_replicate. lia. Qed.
Lemma lenZ_take {A} n (l : list A) : 0 <= n <= lenZ l -> lenZ (take (Z.to_nat n) l) = n.
Proof. unfold lenZ. rewrite length_take. lia. Qed.
Lemma lenZ_drop {A} n (l : list A) : 0 <= n <= lenZ l -> lenZ (drop (Z.to_nat n) l) = lenZ l - n.
Proof. unfold lenZ. rewrite length_drop. lia. Qed.

(** ** Bytes of a word *)

(** Byte [k] of [v], least significant first: [(v >> (k * 8)) & 0xFF]. *)
Definition byte_of (v k : Z) : Z := Z.land (Z.shiftr v (k * 8)) 255.

Lemma byte_of_testbit v k j : 0 <= k -> 0 <= j ->
  Z.testbit (byte_of v k) j = (j <? 8) && Z.testbit v (k * 8 + j).
Proof.
  intros Hk Hj. unfold byte_of. change 255 with (Z.ones 8). autorewrite with mnos_bits.
  rewrite andb_comm. f_equal. f_equal. lia.
Qed.
Lemma byte_of_range v k : 0 <= byte_of v k < 256.
Proof.
  unfold byte_of. change 255 with (Z.ones 8). rewrite Z.land_ones by lia.
  apply Z.mod_pos_bound. lia.
Qed.
Lemma testbit_byte_of v i : 0 <= i -> Z.testbit v i = Z.testbit (byte_of v (i / 8)) (i `mod` 8).
Proof.
  intros Hi. pose proof (Z.mod_pos_bound i 8). pose proof (Z.div_pos i 8).
  rewrite byte_of_testbit by lia. destruct (Z.ltb_spec (i `mod` 8) 8); [|lia]. simpl. f_equal.
  pose proof (Z.div_mod i 8). lia.
Qed.
(** A value of [n] bytes is determined by its bytes. *)
Lemma bytes_ext v w n : 0 <= n -> 0 <= v < 2 ^ (8 * n) -> 0 <= w < 2 ^ (8 * n) ->
  (forall k, 0 <= k < n -> byte_of v k = byte_of w k) -> v = w.
Proof.
  intros Hn Hv Hw Hb. apply Z.bits_inj'. intros i Hi.
  destruct (Z_lt_dec i (8 * n)) as [Hlt|Hge].
  - rewrite (testbit_byte_of v), (testbit_byte_of w) by done. rewrite Hb; [done|].
    split; [apply Z.div_pos; lia|]. apply Z.div_lt_upper_bound; lia.
  - by rewrite !(testbit_range_high _ (8 * n)) by lia.
Qed.
Lemma byte_of_mod v n k : 0 <= k < n -> byte_of (v `mod` 2 ^ (8 * n)) k = byte_of v k.
Proof.
  intros Hk. apply Z.bits_inj'. intros j Hj. rewrite !byte_of_testbit by lia.
  destruct (Z.ltb_spec j 8); simpl; [|done]. apply Z.mod_pow2_bits_low. lia.
Qed.
Lemma byte_of_small b : 0 <= b < 256 -> byte_of b 0 = b.
Proof.
  intros Hb. unfold byte_of. change (0 * 8) with 0. rewrite Z.shiftr_0_r.
  change 255 with (Z.ones 8). rewrite Z.land_ones by lia. by apply Z.mod_small.
Qed.
#[export] Hint Resolve byte_of_range : mnos.

(** [n] bytes of [v], least significant first. *)
Definition le (n : Z) (v : Z) : list Z := byte_of v <$> seqZ 0 n.
(** Bytes [k] and above of a word complete its low [k] bytes. *)
Lemma mod_lor_byte v k : 0 <= k ->
  Z.lor (v `mod` 2 ^ (8 * k)) (Z.shiftl (byte_of v k) (k * 8)) = v `mod` 2 ^ (8 * (k + 1)).
Proof.
  intros Hk. apply Z.bits_inj'. intros j Hj. rewrite Z.lor_spec, Z.shiftl_spec by done.
  destruct (Z.ltb_spec j (8 * k)).
  - rewrite !Z.mod_pow2_bits_low by lia. rewrite (Z.testbit_neg_r (byte_of v k)) by lia. by rewrite orb_false_r.
  - rewrite Z.mod_pow2_bits_high, byte_of_testbit by lia. cbn [orb]. replace (k * 8 + (j - k * 8)) with j by lia.
    destruct (Z.ltb_spec (j - k * 8) 8); cbn [andb].
    + by rewrite Z.mod_pow2_bits_low by lia.
    + by rewrite Z.mod_pow2_bits_high by lia.
Qed.

(** ** Loops with a measure *)

(** [while (step()) {}] run for at most [fuel] iterations. *)
Fixpoint while_M {S} (fuel : nat) (step : M S bool) : M S unit :=
  match fuel with
  | O => mret tt
  | S fuel' => step ≫= fun b => if b : bool then while_M fuel' step else mret tt
  end.

Lemma while_M_S {S} n (step : M S bool) s : while_M (Datatypes.S n) step s =
  match step s with
  | (s', Ok true) => while_M n step s'
  | (s', Ok false) => (s', Ok tt)
  | (s', Throw e) => (s', Throw e)
  end.
Proof. simpl. munfold_goal. by destruct (step s) as [s' [[]|e]]. Qed.
Arguments while_M : simpl never.

(** When every successful [true] iteration decreases [measure], [measure s] iterations and the final
    test are enough: a loop that ends normally ends because [step] answered [false]. *)
Lemma while_M_exits {S} (measure : S -> nat) (step : M S bool) :
  (forall s s', step s = (s', Ok true) -> (measure s' < measure s)%nat) ->
  forall fuel s s', (measure s < fuel)%nat -> while_M fuel step s = (s', Ok tt) ->
  exists s0, step s0 = (s', Ok false).
Proof.
  intros Hdec. induction fuel as [|fuel IH]; intros s s' Hlt Hw; [lia|].
  rewrite while_M_S in Hw. destruct (step s) as [s1 [[]|e]] eqn:E; [| |done].
  - apply Hdec in E. apply (IH s1); [lia|done].
  - simplify_eq. eauto.
Qed.

(** An invariant of every iteration, whether it ends normally or throws, holds after the loop. *)
Lemma while_M_invariant {S} (P : S -> Prop) (step : M S bool) :
  (forall s s' r, P s -> step s = (s', r) -> P s') ->
  forall fuel s s' r, P s -> while_M fuel step s = (s', r) -> P s'.
Proof.
  intros Hstep. induction fuel as [|fuel IH]; intros s s' r Hp Hw; [by injection Hw as <- _|].
  rewrite while_M_S in Hw. destruct (step s) as [s1 [[]|e]] eqn:E; simplify_eq; eauto.
Qed.

(** ** Counting *)

(** Elements of a list without repeated keys are known by their key. *)
Lemma NoDup_fmap_unique {A K} (f : A -> K) (l : list A) x y : NoDup (f <$> l) -> x ∈ l -> y ∈ l -> f x = f y -> x = y.
Proof.
  intros Hnd Hx Hy Hf. apply list_elem_of_lookup in Hx as [i Hi]. apply list_elem_of_lookup in Hy as [j Hj].
  assert (i = j) as -> by (apply (NoDup_lookup (f <$> l) i j (f x)); rewrite ?list_lookup_fmap, ?Hi, ?Hj; cbn; congruence). congruence.
Qed.
Lemma list_find_snoc {A} (p : A -> bool) l x :
  List.find p (l ++ [x]) = match List.find p l with Some y => Some y | None => if p x then Some x else None end.
Proof. induction l as [|y l IH]; cbn; [done|]. by destruct (p y). Qed.

Section count.
Context {A : Type} (P : A -> Prop) `{forall x, Decision (P x)}.

Definition count (l : list A) : Z := lenZ (filter P l).

Lemma count_cons x l : count (x :: l) = (if decide (P x) then 1 else 0) + count l.
Proof. unfold count, lenZ. rewrite filter_cons. case_decide; simpl; lia. Qed.
Lemma count_bound l : 0 <= count l <= lenZ l.
Proof. unfold count, lenZ. pose proof (length_filter P l). lia. Qed.
Lemma count_insert l i x y : l !! i = Some x ->
  count (<[i := y]> l) =
  count l - (if decide (P x) then 1 else 0) + (if decide (P y) then 1 else 0).
Proof.
  revert i. induction l as [|z l IH]; intros [|i] Hi; [done..| |].
  - injection Hi as ->. simpl. rewrite !count_cons. lia.
  - simpl in *. rewrite !count_cons, (IH i) by done. lia.
Qed.
Lemma count_app l k : count (l ++ k) = count l + count k.
Proof. unfold count, lenZ. rewrite filter_app, length_app. lia. Qed.
Lemma count_snoc l x : count (l ++ [x]) = count l + (if decide (P x) then 1 else 0).
Proof. rewrite count_app, count_cons. change (count []) with 0. lia. Qed.
Lemma count_zero l : (forall x, x ∈ l -> ~ P x) -> count l = 0.
Proof.
  intros Hn. induction l as [|x l IH]; [done|]. rewrite count_cons, IH by (intros; apply Hn; by right).
  rewrite decide_False; [done|]. apply Hn. by left.
Qed.
Lemma count_all l : (forall x, x ∈ l -> P x) -> count l = lenZ l.
Proof.
  intros Hp. induction l as [|x l IH]; [done|]. rewrite count_cons, IH by (intros; apply Hp; by right).
  rewrite decide_True by (apply Hp; by left). unfold lenZ. simpl. lia.
Qed.
End count.

Lemma count_ext {A} (P Q : A -> Prop) `{forall x, Decision (P x)} `{forall x, Decision (Q x)} l :
  (forall x, x ∈ l -> P x <-> Q x) -> count P l = count Q l.
Proof.
  intros Hpq. induction l as [|x l IH]; [done|]. rewrite !count_cons, IH by (intros; apply Hpq; by right).
  pose proof (Hpq x ltac:(by left)). repeat case_decide; tauto.
Qed.

Lemma for_each_ext {S X} (xs : list X) (f g : X -> M S unit) :
  (forall x s, x ∈ xs -> f x s = g x s) -> forall s, for_each xs f s = for_each xs g s.
Proof.
  induction xs as [|x xs IH]; intros Hfg s; [done|]. simpl. munfold_goal.
  rewrite Hfg by (by left). destruct (g x s) as [s1 [[]|]]; [|done].
  apply IH. intros y s' Hy. apply Hfg. by right.
Qed.

Lemma for_each_app {S X} (xs ys : list X) (f : X -> M S unit) s : for_each (xs ++ ys) f s = (for_each xs f ≫= fun _ => for_each ys f) s.
Proof.
  revert s. induction xs as [|x xs IH]; intros s; [done|]. cbn [for_each app]. munfold_goal. destruct (f x s) as [s' [[]|]]; [|done]. apply IH.
Qed.

(** A counted loop whose body moves [f k] to [f (k + 1)]. *)
Lemma for_each_steps {S} (f : Z -> S) (body : Z -> M S unit) a n s s' : f a = s -> f (a + n) = s' -> 0 <= n ->
  (forall k, a <= k < a + n -> body k (f k) = (f (k + 1), Ok tt)) -> for_each (seqZ a n) body s = (s', Ok tt).
Proof.
  intros <- <- Hn. apply Z_of_nat_complete in Hn as [m ->]. revert a. induction m as [|m IH]; intros a Hb.
  - change (seqZ a (Z.of_nat 0)) with (@nil Z). by rewrite Z.add_0_r.
  - rewrite seqZ_cons by lia. cbn [for_each]. munfold_goal. rewrite Hb by lia.
    replace (Z.pred (Z.of_nat (Datatypes.S m))) with (Z.of_nat m) by lia. change (Z.succ a) with (a + 1).
    rewrite IH by (intros; apply Hb; lia). do 2 f_equal. lia.
Qed.

(** ** Filters *)

Lemma filter_none {A} (P : A -> Prop) `{forall x, Decision (P x)} (l : list A) : (forall x, x ∈ l -> ~ P x) -> filter P l = [].
Proof.
  induction l as [|x l IH]; intros Hn; [done|]. rewrite filter_cons_False by (apply Hn; by left).
  apply IH. intros y Hy. apply Hn. by right.
Qed.
Lemma filter_every {A} (P : A -> Prop) `{forall x, Decision (P x)} (l : list A) : (forall x, x ∈ l -> P x) -> filter P l = l.
Proof.
  induction l as [|x l IH]; intros Hp; [done|]. rewrite filter_cons_True by (apply Hp; by left).
  f_equal. apply IH. intros y Hy. apply Hp. by right.
Qed.
Lemma filter_same {A} (P Q : A -> Prop) `{forall x, Decision (P x)} `{forall x, Decision (Q x)} (l : list A) :
  (forall x, x ∈ l -> P x <-> Q x) -> filter P l = filter Q l.
Proof.
  induction l as [|x l IH]; intros Hpq; [done|]. pose proof (Hpq x ltac:(by left)).
  rewrite !filter_cons, IH by (intros; apply Hpq; by right). repeat case_decide; tauto.
Qed.
Lemma filter_fmap {A B} (f : A -> B) (P : B -> Prop) (Q : A -> Prop) `{forall x, Decision (P x)} `{forall x, Decision (Q x)}
  (l : list A) : (forall x, x ∈ l -> P (f x) <-> Q x) -> filter P (f <$> l) = f <$> filter Q l.
Proof.
  induction l as [|x l IH]; intros Hpq; [done|]. pose proof (Hpq x ltac:(by left)).
  rewrite fmap_cons, !filter_cons, IH by (intros; apply Hpq; by right). repeat case_decide; [done|tauto|tauto|done].
Qed.
Lemma StronglySorted_filter {A} (R : A -> A -> Prop) (P : A -> Prop) `{forall x, Decision (P x)} (l : list A) :
  StronglySorted R l -> StronglySorted R (filter P l).
Proof.
  induction 1 as [|x l Hl IH Hx]; [constructor|]. rewrite filter_cons. case_decide; [|done]. constructor; [done|].
  apply Forall_forall. intros y Hy. apply list_elem_of_filter in Hy as [_ Hy]. rewrite Forall_forall in Hx. by apply Hx.
Qed.

(** ** Spans of a byte vector *)

(** The [n] elements from index [off], and their replacement by [src]. *)
Definition slice {A} (off n : Z) (l : list A) : list A := take (Z.to_nat n) (drop (Z.to_nat off) l).
Definition splice {A} (off : Z) (src l : list A) : list A :=
  take (Z.to_nat off) l ++ src ++ drop (Z.to_nat off + length src) l.

Lemma slice_length {A} off n (l : list A) : 0 <= off -> 0 <= n -> off + n <= lenZ l -> lenZ (slice off n l) = n.
Proof. unfold lenZ, slice. intros. rewrite length_take, length_drop. lia. Qed.
Lemma splice_length {A} off (src l : list A) : 0 <= off -> off + lenZ src <= lenZ l ->
  lenZ (splice off src l) = lenZ l.
Proof. unfold lenZ, splice. intros. rewrite !length_app, length_take, length_drop. lia. Qed.
Lemma slice_splice_same {A} off (src l : list A) : 0 <= off -> off + lenZ src <= lenZ l ->
  slice off (lenZ src) (splice off src l) = src.
Proof.
  unfold lenZ, slice, splice. intros. rewrite drop_app_ge by (rewrite length_take; lia).
  rewrite length_take, Nat.min_l, Nat.sub_diag by lia. rewrite Nat2Z.id, drop_0. by rewrite take_app_length.
Qed.
Lemma slice_splice_disjoint {A} off off' n (src l : list A) : 0 <= off -> 0 <= off' -> 0 <= n ->
  off + lenZ src <= lenZ l -> off' + n <= off \/ off + lenZ src <= off' ->
  slice off' n (splice off src l) = slice off' n l.
Proof.
  unfold lenZ, slice, splice. intros H0 H0' Hn Hle Hdis. apply list_eq. intros i.
  destruct (decide (i < Z.to_nat n)%nat) as [Hi|Hi]; [|by rewrite !lookup_take_ge by lia].
  rewrite !lookup_take_lt, !lookup_drop by lia. destruct Hdis as [Hdis|Hdis].
  - rewrite lookup_app_l by (rewrite length_take; lia). by rewrite lookup_take_lt by lia.
  - rewrite lookup_app_r by (rewrite length_take; lia). rewrite length_take, Nat.min_l by lia.
    rewrite lookup_app_r by lia. rewrite lookup_drop. f_equal. lia.
Qed.
Lemma slice_full {A} (l : list A) : slice 0 (lenZ l) l = l.
Proof. unfold slice, lenZ. rewrite Nat2Z.id. simpl. by rewrite drop_0, firstn_all. Qed.
Lemma slice_slice {A} off n off' n' (l : list A) : 0 <= off -> 0 <= off' -> 0 <= n' -> off' + n' <= n ->
  slice off' n' (slice off n l) = slice (off + off') n' l.
Proof.
  unfold slice. intros. rewrite skipn_firstn_comm, drop_drop, firstn_firstn. f_equal; [lia|]. f_equal. lia.
Qed.
Lemma slice_replicate {A} off n m (x : A) : 0 <= off -> 0 <= n -> off + n <= m ->
  slice off n (replicate (Z.to_nat m) x) = replicate (Z.to_nat n) x.
Proof. unfold slice. intros. rewrite drop_replicate, take_replicate. f_equal. lia. Qed.

Lemma slice_app_l {A} off n (l k : list A) : 0 <= off -> 0 <= n -> off + n <= lenZ l -> slice off n (l ++ k) = slice off n l.
Proof.
  unfold slice, lenZ. intros. rewrite drop_app_le by lia. by rewrite take_app_le by (rewrite length_drop; lia).
Qed.
Lemma slice_app_r {A} off n (l k : list A) : lenZ l <= off -> slice off n (l ++ k) = slice (off - lenZ l) n k.
Proof. unfold slice, lenZ. intros. rewrite drop_app_ge by lia. do 2 f_equal. lia. Qed.
Lemma splice_snoc (off : Z) (src l : list Z) x : 0 <= off -> off + lenZ src < lenZ l ->
  splice off (src ++ [x]) l = <[Z.to_nat (off + lenZ src) := x]> (splice off src l).
Proof.
  unfold splice, lenZ. intros Ho Hl. rewrite Z2Nat.inj_add, Nat2Z.id by lia.
  assert (Hn : (Z.to_nat off <= length l)%nat) by lia.
  rewrite insert_app_r_alt by (rewrite length_take; lia). rewrite length_take, Nat.min_l by lia. f_equal.
  rewrite insert_app_r_alt by lia. rewrite <- app_assoc. f_equal. replace (_ + length src - _ - _)%nat with 0%nat by lia.
  rewrite length_app. simpl. destruct (drop (Z.to_nat off + length src) l) as [|y rest] eqn:Ed.
  { apply (f_equal length) in Ed. rewrite length_drop in Ed. simpl in Ed. lia. }
  simpl. f_equal. replace (Z.to_nat off + (length src + 1))%nat with (Z.to_nat off + length src + 1)%nat by lia.
  rewrite <- drop_drop, Ed. by simpl.
Qed.

(** ** Numbers spelled by bytes *)

(** An element of a byte vector, which has eight bits. *)
Definition byte_at_index (bytes : list Z) (i : Z) : Z := Z.land (nthZ bytes i) 255.
Definition read_le (n : Z) (bytes : list Z) (offset : Z) : Z :=
  foldl (fun value k => Z.lor value (Z.shiftl (byte_at_index bytes (offset + k)) (k * 8))) 0 (seqZ 0 n).

Lemma byte_at_index_range bytes i : 0 <= byte_at_index bytes i < 256.
Proof. unfold byte_at_index. change 255 with (Z.ones 8). rewrite Z.land_ones by lia. apply Z.mod_pos_bound. lia. Qed.
Lemma byte_at_index_small bytes i : 0 <= nthZ bytes i < 256 -> byte_at_index bytes i = nthZ bytes i.
Proof. intros Hb. unfold byte_at_index. change 255 with (Z.ones 8). rewrite Z.land_ones by lia. by apply Z.mod_small. Qed.
Lemma le_length n v : 0 <= n -> lenZ (le n v) = n.
Proof. intros. unfold le, lenZ. rewrite length_fmap, length_seqZ. lia. Qed.
Lemma nthZ_slice (l : list Z) off n k : 0 <= off -> 0 <= k < n -> nthZ (slice off n l) k = nthZ l (off + k).
Proof.
  intros Ho Hk. unfold nthZ, slice. rewrite !nth_lookup. rewrite lookup_take_lt, lookup_drop by lia.
  by rewrite Z2Nat.inj_add by lia.
Qed.
Lemma nthZ_fmap_seqZ (f : Z -> Z) n k : 0 <= k < n -> nthZ (f <$> seqZ 0 n) k = f k.
Proof.
  intros Hk. unfold nthZ. rewrite nth_lookup, list_lookup_fmap, lookup_seqZ_lt by lia. simpl. f_equal. lia.
Qed.
(** The number its bytes spell. *)
Lemma read_le_slice n bytes off v : 0 <= n -> 0 <= off -> slice off n bytes = le n v -> 
  read_le n bytes off = v mod 2 ^ (8 * n).
Proof.
  intros Hn Ho Hs. assert (Hk : forall k, 0 <= k < n -> byte_at_index bytes (off + k) = byte_of v k).
  { intros k Hk. rewrite byte_at_index_small; rewrite <- (nthZ_slice bytes off n k) by done; rewrite Hs;
      unfold le; rewrite nthZ_fmap_seqZ by done; [done|apply byte_of_range]. }
  clear Hs. unfold read_le. apply Z_of_nat_complete in Hn as [m ->]. revert Hk. induction m as [|n IH]; intros Hk.
  - simpl. change (8 * 0) with 0. by rewrite Z.mod_1_r.
  - rewrite seqZ_S, foldl_snoc, IH by (intros; apply Hk; lia). rewrite Z.add_0_l, Hk by lia. rewrite mod_lor_byte by lia.
    f_equal. f_equal. lia.
Qed.
Lemma read_le_range n bytes off : 0 <= n -> 0 <= read_le n bytes off < 2 ^ (8 * n).
Proof.
  intros Hn. unfold read_le. apply Z_of_nat_complete in Hn as [k ->].
  induction k as [|n IH]; [simpl; lia|]. rewrite seqZ_S, foldl_snoc. pose proof (byte_at_index_range bytes (off + (0 + Z.of_nat n))).
  apply lor_range; [lia| |].
  - split; [lia|]. eapply Z.lt_le_trans; [apply IH|]. apply Z.pow_le_mono_r; lia.
  - rewrite Z.shiftl_mul_pow2 by lia. split; [nia|]. replace (8 * Z.of_nat (S n)) with (8 + Z.of_nat n * 8) by lia.
    rewrite Z.pow_add_r by lia. replace ((0 + Z.of_nat n) * 8) with (Z.of_nat n * 8) by lia.
    pose proof (Z.pow_pos_nonneg 2 (Z.of_nat n * 8)). nia.
Qed.
