(* ===== verification/Logic.v ===== *)
(** * Reasoning about stateful computations

    Two predicates on computations of the monad of Prelude, each closed under the ways the models
    compose them: [preserves], an invariant with a post-condition of the value returned, and
    [fault_within], a bound on
    how far the state has moved when a page fault is raised. *)

From S2P Require Import Prelude.

(** ** Invariants *)

(** Started where [I] holds, [c] ends where [I] holds, normally or not; a value returned has [Q]. *)
Definition preserves {S A} (I : S -> Prop) (c : M S A) (Q : A -> Prop) : Prop :=
  forall s, I s -> I (c s).1 /\ forall a, (c s).2 = Ok a -> Q a.
Definition any {A} (a : A) : Prop := True.

Section preserves.
Context {S : Type} (I : S -> Prop).

Lemma preserves_ret {A} (a : A) (Q : A -> Prop) : Q a -> preserves I (mret a) Q.
Proof. intros Ha s Hs. split; [done|]. by intros b [= <-]. Qed.
Lemma preserves_throw {A} e (Q : A -> Prop) : preserves I (throw e) Q.
Proof. intros s Hs. split; [done|]. by intros b. Qed.
Lemma preserves_throw_if b e : preserves I (throw_if b e) any.
Proof. intros s Hs. by split. Qed.
Lemma preserves_lift {A} (f : S -> res A) (Q : A -> Prop) :
  (forall s a, I s -> f s = Ok a -> Q a) -> preserves I (lift f) Q.
Proof. intros Hf s Hs. split; [done|]. intros a Ha. by apply (Hf s). Qed.
Lemma preserves_gets {A} (f : S -> A) (Q : A -> Prop) : (forall s, I s -> Q (f s)) -> preserves I (gets f) Q.
Proof. intros Hf s Hs. split; [done|]. intros a [= <-]. by apply Hf. Qed.
Lemma preserves_modify f : (forall s, I s -> I (f s)) -> preserves I (modify f) any.
Proof. intros Hf s Hs. split; [|done]. by apply Hf. Qed.
Lemma preserves_weaken {A} (c : M S A) (P Q : A -> Prop) :
  preserves I c P -> (forall a, P a -> Q a) -> preserves I c Q.
Proof. intros Hc Hpq s Hs. destruct (Hc s Hs) as [Hi Ha]. split; [done|]. auto. Qed.
Lemma preserves_any {A} (c : M S A) (P : A -> Prop) : preserves I c P -> preserves I c any.
Proof. intros Hc. by apply (preserves_weaken _ P). Qed.
Lemma preserves_bind {A B} (c : M S A) (k : A -> M S B) (P : A -> Prop) (Q : B -> Prop) :
  preserves I c P -> (forall a, P a -> preserves I (k a) Q) -> preserves I (c ≫= k) Q.
Proof.
  intros Hc Hk s Hs. destruct (Hc s Hs) as [Hi Ha]. munfold_goal.
  destruct (c s) as [s1 [a|e]]; cbn [fst snd] in *; [|by split]. apply Hk; auto.
Qed.
(** The first computation returns nothing of interest. *)
Lemma preserves_seq {A B} (c : M S A) (k : A -> M S B) (Q : B -> Prop) :
  preserves I c any -> (forall a, preserves I (k a) Q) -> preserves I (c ≫= k) Q.
Proof. intros Hc Hk. apply (preserves_bind c k any); auto. Qed.
Lemma preserves_if {A} (b : bool) (c d : M S A) (Q : A -> Prop) :
  preserves I c Q -> preserves I d Q -> preserves I (if b then c else d) Q.
Proof. by destruct b. Qed.
Lemma preserves_for_each {X} (xs : list X) f : (forall x, x ∈ xs -> preserves I (f x) any) ->
  preserves I (for_each xs f) any.
Proof.
  induction xs as [|x xs IH]; intros Hf; [by apply preserves_ret|].
  apply preserves_seq; [apply Hf; by left|]. intros _. apply IH. intros y Hy. apply Hf. by right.
Qed.
End preserves.

(** Walks down a sequence whose steps the hint database knows. *)
Ltac keeps := repeat first [solve [auto with mnos] | apply preserves_seq; [|intros ?]].

Lemma preserves_zoom {S T A} (I : S -> Prop) (J : T -> Prop) proj (set : T -> S -> S) (c : M T A) Q :
  (forall s, I s -> J (proj s)) -> (forall s t, I s -> J t -> I (set t s)) ->
  preserves J c Q -> preserves I (zoom proj set c) Q.
Proof.
  intros Hp Hset Hc s Hs. unfold zoom. destruct (Hc (proj s) (Hp s Hs)) as [Hj Ha].
  destruct (c (proj s)) as [t r]. cbn [fst snd] in *. split; [by apply Hset|done].
Qed.
(** ** Frames of a page fault *)

(** [within R c]: however [c] ends, the state has moved within [R]. *)
Definition within {S A} (R : relation S) (c : M S A) : Prop := forall s, R s (c s).1.
(** [faultless c]: [c] does not end in a page fault. *)
Definition faultless {S A} (c : M S A) : Prop := forall s f, (c s).2 <> Throw (page_fault f).
(** [fault_within R c]: if [c] ends in a page fault, the state has moved within [R] only. *)
Definition fault_within {S A} (R : relation S) (c : M S A) : Prop :=
  forall s f, (c s).2 = Throw (page_fault f) -> R s (c s).1.

Section frame.
Context {S : Type} (R : relation S) `{!PreOrder R}.

Lemma within_fault_within {A} (c : M S A) : within R c -> fault_within R c.
Proof. intros Hc s f _. apply Hc. Qed.
Lemma faultless_fault_within {A} (c : M S A) : faultless c -> fault_within R c.
Proof. intros Hc s f Hf. by apply Hc in Hf. Qed.

Lemma within_bind {A B} (c : M S A) (k : A -> M S B) :
  within R c -> (forall a, within R (k a)) -> within R (c ≫= k).
Proof.
  intros Hc Hk s. munfold_goal. specialize (Hc s). destruct (c s) as [s1 [a|e]]; cbn [fst] in *; [|done].
  etransitivity; [exact Hc|]. apply Hk.
Qed.
Lemma faultless_bind {A B} (c : M S A) (k : A -> M S B) :
  faultless c -> (forall a, faultless (k a)) -> faultless (c ≫= k).
Proof.
  intros Hc Hk s f. munfold_goal. specialize (Hc s f). destruct (c s) as [s1 [a|e]]; cbn [snd] in *; [|congruence].
  apply Hk.
Qed.
(** Nothing but [R] happens before the last computation that may fault. *)
Lemma fault_within_bind {A B} (c : M S A) (k : A -> M S B) :
  within R c -> (forall a, fault_within R (k a)) -> fault_within R (c ≫= k).
Proof.
  intros Hc Hk s f. munfold_goal. specialize (Hc s). destruct (c s) as [s1 [a|e]]; cbn [fst snd] in *; [|done].
  intros Hf. etransitivity; [exact Hc|]. by apply (Hk a s1 f).
Qed.
(** Nothing after it may fault. *)
Lemma fault_within_bind_last {A B} (c : M S A) (k : A -> M S B) :
  fault_within R c -> (forall a, faultless (k a)) -> fault_within R (c ≫= k).
Proof.
  intros Hc Hk s f. munfold_goal. specialize (Hc s f). destruct (c s) as [s1 [a|e]]; cbn [fst snd] in *.
  - intros Hf. by apply Hk in Hf.
  - intros [= ->]. by apply Hc.
Qed.
Lemma fault_within_if {A} (b : bool) (c d : M S A) :
  fault_within R c -> fault_within R d -> fault_within R (if b then c else d).
Proof. by destruct b. Qed.

Lemma within_ret {A} (a : A) : within R (mret a).
Proof. intros s. change (R s s). reflexivity. Qed.
Lemma within_throw {A} e : within R (throw (A := A) e).
Proof. intros s. change (R s s). reflexivity. Qed.
Lemma within_throw_if b e : within R (throw_if b e).
Proof. intros s. change (R s s). reflexivity. Qed.
Lemma within_lift {A} (f : S -> res A) : within R (lift f).
Proof. intros s. change (R s s). reflexivity. Qed.
Lemma within_gets {A} (f : S -> A) : within R (gets f).
Proof. intros s. change (R s s). reflexivity. Qed.
Lemma within_modify f : (forall s, R s (f s)) -> within R (modify f).
Proof. intros Hf s. apply Hf. Qed.
Lemma within_if {A} (b : bool) (c d : M S A) : within R c -> within R d -> within R (if b then c else d).
Proof. by destruct b. Qed.
End frame.

Section faultless.
Context {S : Type}.
Lemma faultless_ret {A} (a : A) : faultless (S := S) (mret a).
Proof. done. Qed.
Lemma faultless_throw {A} e : (forall f, e <> page_fault f) -> faultless (S := S) (throw (A := A) e).
Proof. intros He s f [= Hf]. by apply (He f). Qed.
Lemma faultless_throw_if b e : (forall f, e <> page_fault f) -> faultless (S := S) (throw_if b e).
Proof. intros He s f. unfold throw_if. destruct b; [|done]. intros [= Hf]. by apply (He f). Qed.
Lemma faultless_lift {A} (g : S -> res A) : (forall s f, g s <> Throw (page_fault f)) -> faultless (lift g).
Proof. intros Hg s f. apply Hg. Qed.
Lemma faultless_gets {A} (g : S -> A) : faultless (gets g).
Proof. done. Qed.
Lemma faultless_modify g : faultless (S := S) (modify g).
Proof. done. Qed.
Lemma faultless_if {A} (b : bool) (c d : M S A) : faultless c -> faultless d -> faultless (if b then c else d).
Proof. by destruct b. Qed.
Lemma faultless_zoom {T A} proj (set : T -> S -> S) (c : M T A) : faultless c -> faultless (zoom proj set c).
Proof.
  intros Hc s f. unfold zoom. specialize (Hc (proj s) f). by destruct (c (proj s)).
Qed.
End faultless.

#[export] Hint Resolve within_ret within_throw within_throw_if within_lift
  within_gets within_if faultless_ret faultless_gets faultless_modify faultless_if
  faultless_zoom fault_within_if : mnos.
