(* ===== verification/Common.v ===== *)
(** * Common CPU data: operand sizes, RFLAGS and the register file

    Models src/cpu/common/data_size.cpp, src/cpu/flags/, src/cpu/register/ and the core
    topology of src/cpu/system/core_topology.cpp.
    An enumeration keeps its COUNT sentinel, on which the catalogue look-ups throw. *)

From S2P Require Import Prelude.

(** ** DataSize *)

Module Size.
(* [include/mnos/cpu/common/data_size.hpp] [DataSize] *)
Inductive DataSize : Set := BYTE | WORD | DWORD | QWORD | COUNT.
End Size.
Abbreviation DataSize := Size.DataSize.

#[export] Instance DataSize_eq_dec : EqDecision DataSize.
Proof. solve_decision. Defined.

(* [src/cpu/common/data_size.cpp] [is_data_size_valid] *)
Definition is_data_size_valid (s : DataSize) : bool :=
  match s with Size.COUNT => false | _ => true end.

(** The catalogue tables DATA_SIZE_BIT_COUNTS and DATA_SIZE_BYTE_COUNTS, read with
    EnumMap::at, which throws std::out_of_range outside the table. *)
(* [src/cpu/common/data_size.cpp] [DataSizeCatalog] [12-52] *)
Definition data_size_to_bits (s : DataSize) : res Z :=
  match s with
  | Size.BYTE => Ok 8 | Size.WORD => Ok 16 | Size.DWORD => Ok 32 | Size.QWORD => Ok 64
  | Size.COUNT => Throw out_of_range
  end.
(* [src/cpu/common/data_size.cpp] [data_size_to_bytes] *)
Definition data_size_to_bytes (s : DataSize) : res Z :=
  match s with
  | Size.BYTE => Ok 1 | Size.WORD => Ok 2 | Size.DWORD => Ok 4 | Size.QWORD => Ok 8
  | Size.COUNT => Throw out_of_range
  end.

(** The byte count of a valid size. *)
Definition size_bytes (s : DataSize) : Z :=
  match s with
  | Size.BYTE => 1 | Size.WORD => 2 | Size.DWORD => 4 | Size.QWORD => 8 | Size.COUNT => 0
  end.

Lemma data_size_to_bytes_Ok s n :
  data_size_to_bytes s = Ok n -> n = size_bytes s /\ is_data_size_valid s = true.
Proof. by destruct s; intros [=]. Qed.
Lemma data_size_to_bytes_valid s :
  is_data_size_valid s = true -> data_size_to_bytes s = Ok (size_bytes s).
Proof. by destruct s. Qed.
Lemma size_bytes_range s : 0 <= size_bytes s <= 8.
Proof. destruct s; simpl; lia. Qed.
#[export] Hint Resolve size_bytes_range data_size_to_bytes_valid : mnos.

(** ** RFLAGS *)

Module Flag.
(* [include/mnos/cpu/flags/id.hpp] [FlagId] *)
Inductive FlagId : Set := CF | PF | ZF | SF | IF | OF | COUNT.
End Flag.
Abbreviation FlagId := Flag.FlagId.

#[export] Instance FlagId_eq_dec : EqDecision FlagId.
Proof. solve_decision. Defined.

(* [src/cpu/flags/id.cpp] [flag_id_to_bit_index] [12-51] *)
Definition flag_id_to_bit_index (id : FlagId) : res Z :=
  match id with
  | Flag.CF => Ok 0 | Flag.PF => Ok 2 | Flag.ZF => Ok 6 | Flag.SF => Ok 7
  | Flag.IF => Ok 9 | Flag.OF => Ok 11 | Flag.COUNT => Throw out_of_range
  end.

(* [include/mnos/cpu/flags/rflags.hpp] [Rflags] *)
Record Rflags : Set := mkRflags { raw_bits : Z }.

(* [src/cpu/flags/rflags.cpp] [make_flag_mask] *)
Definition make_flag_mask (id : FlagId) : res Z :=
  k ← flag_id_to_bit_index id; Ok (shl64 1 k).

(* [src/cpu/flags/rflags.cpp] [Rflags::read] *)
Definition Rflags_read (f : Rflags) (id : FlagId) : res bool :=
  mask ← make_flag_mask id; Ok (negb (Z.land (raw_bits f) mask =? 0)).

(* [src/cpu/flags/rflags.cpp] [Rflags::write] *)
Definition Rflags_write (f : Rflags) (id : FlagId) (value : bool) : res Rflags :=
  mask ← make_flag_mask id;
  Ok (mkRflags (if value then Z.lor (raw_bits f) mask else Z.land (raw_bits f) (not64 mask))).

(* [src/cpu/flags/rflags.cpp] [RFLAGS_STATUS_FLAG_MASK] [12-17] *)
Definition RFLAGS_STATUS_FLAG_MASK : Z :=
  Z.lor (Z.lor (Z.lor (Z.lor (Z.shiftl 1 0) (Z.shiftl 1 2)) (Z.shiftl 1 6)) (Z.shiftl 1 7))
        (Z.shiftl 1 11).

(* [src/cpu/flags/rflags.cpp] [Rflags::clear_status_flags] *)
Definition clear_status_flags (f : Rflags) : Rflags :=
  mkRflags (Z.land (raw_bits f) (not64 RFLAGS_STATUS_FLAG_MASK)).

(* [src/cpu/flags/rflags.cpp] [make_qword_sign_mask] *)
Definition make_qword_sign_mask : Z := shl64 1 63.

(** std::popcount on the low byte. *)
Definition popcount8 (v : Z) : Z :=
  foldr (fun k acc => Z.b2z (Z.testbit v k) + acc) 0 [0;1;2;3;4;5;6;7].
(* [src/cpu/flags/rflags.cpp] [has_even_low_byte_parity] *)
Definition has_even_low_byte_parity (v : Z) : bool :=
  popcount8 (Z.land v 255) `mod` 2 =? 0.

(** The callers below pass valid flag ids, for which [write] cannot throw. *)
Definition write_flag (f : Rflags) (id : FlagId) (value : bool) : Rflags :=
  match Rflags_write f id value with Ok f' => f' | Throw _ => f end.
Definition read_flag (f : Rflags) (id : FlagId) : bool :=
  match Rflags_read f id with Ok b => b | Throw _ => false end.

(* [src/cpu/flags/rflags.cpp] [Rflags::update_zero_sign_from_qword] *)
Definition update_zero_sign_from_qword (f : Rflags) (result : Z) : Rflags :=
  let f := write_flag f Flag.ZF (result =? 0) in
  write_flag f Flag.SF (negb (Z.land result make_qword_sign_mask =? 0)).

(* [src/cpu/flags/rflags.cpp] [Rflags::update_zero_sign_parity_from_qword] *)
Definition update_zero_sign_parity_from_qword (f : Rflags) (result : Z) : Rflags :=
  write_flag (update_zero_sign_from_qword f result) Flag.PF (has_even_low_byte_parity result).

(** Bit position of a valid flag. *)
Definition flag_bit (id : FlagId) : Z :=
  match flag_id_to_bit_index id with Ok k => k | Throw _ => 64 end.

Lemma flag_bit_inj id1 id2 : flag_bit id1 = flag_bit id2 -> id1 = id2.
Proof. by destruct id1, id2. Qed.
Lemma flag_bit_nonneg id : 0 <= flag_bit id.
Proof. by destruct id. Qed.

Lemma read_flag_testbit f id : id <> Flag.COUNT ->
  read_flag f id = Z.testbit (raw_bits f) (flag_bit id).
Proof.
  intros Hid. destruct id; try done; unfold read_flag, Rflags_read; cbn [mbind res_bind make_flag_mask
    flag_id_to_bit_index]; munfold_goal; unfold shl64, flag_bit; cbn [flag_id_to_bit_index];
  rewrite <- land_single_nonzero by lia; reflexivity.
Qed.

Lemma write_flag_testbit f id v i : id <> Flag.COUNT -> 0 <= i -> u64 (raw_bits f) ->
  Z.testbit (raw_bits (write_flag f id v)) i =
    if decide (i = flag_bit id) then v else Z.testbit (raw_bits f) i.
Proof.
  intros Hid Hi Hu.
  assert (Hm : exists k, flag_id_to_bit_index id = Ok k /\ flag_bit id = k /\ 0 <= k < 64 /\
      shl64 1 k = Z.shiftl 1 k).
  { destruct id; try done; eexists; repeat split; try reflexivity; by vm_compute. }
  destruct Hm as (k & Hk & Hb & Hr & Hs). rewrite Hb.
  unfold write_flag, Rflags_write, make_flag_mask. munfold_goal. rewrite Hk, Hs.
  clear Hb Hk Hs. destruct v; cbn [raw_bits]; autorewrite with mnos_bits;
    repeat first [case_decide | case_bool_decide]; try congruence; simpl;
    rewrite ?orb_true_r, ?orb_false_r, ?andb_true_r; try done.
  - subst i. destruct (Z.ltb_spec k 64); [|lia]. by rewrite andb_false_r.
  - destruct (Z.ltb_spec i 64); simpl; [by rewrite andb_true_r|].
    by rewrite (testbit_u64_high _ i Hu) by lia.
Qed.

(** A flag reads back as written, and the other flags are untouched. *)
Lemma read_write_flag f id id' v : id <> Flag.COUNT -> id' <> Flag.COUNT -> u64 (raw_bits f) ->
  read_flag (write_flag f id v) id' = if decide (id' = id) then v else read_flag f id'.
Proof.
  intros H1 H2 Hu. rewrite !read_flag_testbit by done.
  rewrite write_flag_testbit by auto using flag_bit_nonneg.
  repeat case_decide; subst; try done. by apply flag_bit_inj in H.
Qed.

Lemma write_flag_u64 f id v : u64 (raw_bits f) -> u64 (raw_bits (write_flag f id v)).
Proof.
  intros Hu. unfold write_flag, Rflags_write, make_flag_mask, shl64. munfold_goal.
  destruct (flag_id_to_bit_index id); cbn [raw_bits]; [|done].
  destruct v; cbn [raw_bits].
  - apply u64_lor; auto with mnos.
  - apply u64_land; [done|]. unfold not64. apply Z.lxor_nonneg.
    split; intros; [by vm_compute|]. apply wrap64_range.
Qed.
#[export] Hint Resolve write_flag_u64 : mnos.

Lemma sign_mask_testbit v : negb (Z.land v make_qword_sign_mask =? 0) = Z.testbit v 63.
Proof. by rewrite <- land_single_nonzero by lia. Qed.

(** ** Registers *)

Module Reg.
(* [include/mnos/cpu/register/id.hpp] [RegisterId] *)
Inductive RegisterId : Set :=
  | RAX | RBX | RCX | RDX | RSI | RDI | RBP | RSP
  | R8 | R9 | R10 | R11 | R12 | R13 | R14 | R15 | COUNT.
End Reg.
Abbreviation RegisterId := Reg.RegisterId.

#[export] Instance RegisterId_eq_dec : EqDecision RegisterId.
Proof. solve_decision. Defined.

(* [src/cpu/register/id.cpp] [is_register_id_valid] *)
Definition is_register_id_valid (id : RegisterId) : bool :=
  match id with Reg.COUNT => false | _ => true end.

(* [src/cpu/register/id.cpp] [register_id_to_index] [8-62] *)
Definition register_id_to_index (id : RegisterId) : nat :=
  match id with
  | Reg.RAX => 0 | Reg.RBX => 1 | Reg.RCX => 2 | Reg.RDX => 3
  | Reg.RSI => 4 | Reg.RDI => 5 | Reg.RBP => 6 | Reg.RSP => 7
  | Reg.R8 => 8 | Reg.R9 => 9 | Reg.R10 => 10 | Reg.R11 => 11
  | Reg.R12 => 12 | Reg.R13 => 13 | Reg.R14 => 14 | Reg.R15 => 15 | Reg.COUNT => 16
  end%nat.

(* [include/mnos/cpu/register/bank.hpp] [RegisterBank] *)
Record RegisterBank : Set := mkRegisterBank { registers : list Z }.

Definition initial_register_bank : RegisterBank := mkRegisterBank (replicate 16 0).
Definition register_bank_wf (b : RegisterBank) : Prop :=
  length (registers b) = 16%nat /\ Forall u64 (registers b).

(* [src/cpu/register/bank.cpp] [RegisterBank::read] *)
Definition RegisterBank_read (b : RegisterBank) (id : RegisterId) : res Z :=
  if negb (is_register_id_valid id) then Throw out_of_range
  else Ok (nth (register_id_to_index id) (registers b) 0).

(* [src/cpu/register/bank.cpp] [RegisterBank::write] *)
Definition RegisterBank_write (b : RegisterBank) (id : RegisterId) (v : Z) : res RegisterBank :=
  if negb (is_register_id_valid id) then Throw out_of_range
  else Ok (mkRegisterBank (<[register_id_to_index id := v]> (registers b))).

Lemma register_id_to_index_inj r1 r2 : register_id_to_index r1 = register_id_to_index r2 -> r1 = r2.
Proof. by destruct r1, r2. Qed.
Lemma register_index_bound r : is_register_id_valid r = true -> (register_id_to_index r < 16)%nat.
Proof. destruct r; simpl; intros; try lia; done. Qed.

Lemma RegisterBank_read_write b r r' v b' : register_bank_wf b ->
  RegisterBank_write b r v = Ok b' ->
  RegisterBank_read b' r' = if decide (r' = r) then Ok v else RegisterBank_read b r'.
Proof.
  intros [Hl _]. unfold RegisterBank_write, RegisterBank_read.
  destruct (is_register_id_valid r) eqn:Hv; simpl; [|done]. intros [= <-]. simpl.
  case_decide; [subst; rewrite Hv; simpl; f_equal; apply nth_insert_eq;
    rewrite Hl; by apply register_index_bound|].
  destruct (is_register_id_valid r'); simpl; [|done]. f_equal. apply nth_insert_ne.
  intros Heq. by apply register_id_to_index_inj in Heq.
Qed.

Lemma RegisterBank_write_wf b r v b' : register_bank_wf b -> u64 v ->
  RegisterBank_write b r v = Ok b' -> register_bank_wf b'.
Proof.
  intros [Hl Hf] Hu. unfold RegisterBank_write.
  destruct (is_register_id_valid r); simpl; [|done]. intros [= <-].
  split; simpl; [by rewrite length_insert|]. by apply Forall_insert.
Qed.

(** ** Core topology *)

(* [include/mnos/cpu/system/core_topology.hpp] [CoreTopology] *)
Record CoreTopology : Set := mkTopology { core_count : Z }.

(* [src/cpu/system/core_topology.cpp] [CoreTopology::CoreTopology #2] *)
Definition make_topology (count : Z) : res CoreTopology :=
  if count =? 0 then Throw invalid_argument else Ok (mkTopology count).

(* [src/cpu/system/core_topology.cpp] [CoreTopology::contains] *)
Definition topology_contains (t : CoreTopology) (core_id : Z) : bool := core_id <? core_count t.

(* [src/cpu/system/core_topology.cpp] [CoreTopology::core_at] *)
Definition core_at (t : CoreTopology) (index : Z) : res Z :=
  if core_count t <=? index then Throw out_of_range else Ok index.
