(* ===== verification/PhysicalMemory.v ===== *)
(** * Physical memory and the memory bus

    Models src/cpu/memory/physical_memory.cpp and memory_bus.cpp: a byte vector with
    checked little-endian accesses of 1, 2, 4 or 8 bytes.  The class [MemoryBus] is what
    the page-table, MMU and memory-ordering components use; [MemoryBusLaws] is what they
    rely on, and the instance at the end shows that a physical memory provides it. *)

From S2P Require Import Prelude Common.

(** ** PhysicalMemory *)

(* [include/mnos/cpu/memory/physical_memory.hpp] [PhysicalMemory] *)
Record PhysicalMemory : Set := mkMemory { bytes : list Z }.

(* [src/cpu/memory/physical_memory.cpp] [PhysicalMemory::PhysicalMemory] [14-16] *)
Definition make_memory (size_bytes : Z) : PhysicalMemory :=
  mkMemory (replicate (Z.to_nat size_bytes) 0).

(* [src/cpu/memory/physical_memory.cpp] [PhysicalMemory::resize] *)
Definition resize (m : PhysicalMemory) (size_bytes : Z) : PhysicalMemory :=
  mkMemory (list.resize (Z.to_nat size_bytes) 0 (bytes m)).

(* [src/cpu/memory/physical_memory.cpp] [PhysicalMemory::clear] *)
Definition clear (m : PhysicalMemory) : PhysicalMemory := mkMemory [].

(* [src/cpu/memory/physical_memory.cpp] [PhysicalMemory::fill] *)
Definition fill (m : PhysicalMemory) (value : Z) : PhysicalMemory :=
  mkMemory (replicate (length (bytes m)) value).

(* [src/cpu/memory/physical_memory.cpp] [PhysicalMemory::empty] *)
Definition empty (m : PhysicalMemory) : bool := lenZ (bytes m) =? 0.

(* [src/cpu/memory/physical_memory.cpp] [PhysicalMemory::size] *)
Definition size (m : PhysicalMemory) : Z := lenZ (bytes m).

(* [src/cpu/memory/physical_memory.cpp] [PhysicalMemory::contains_range] *)
Definition contains_range (m : PhysicalMemory) (address byte_count : Z) : bool :=
  if size m <? address then false
  else byte_count <=? size m - address.

(* [src/cpu/memory/physical_memory.cpp] [PhysicalMemory::checked_start_index] *)
Definition checked_start_index (m : PhysicalMemory) (address byte_count : Z) : res Z :=
  if negb (contains_range m address byte_count) then Throw out_of_range else Ok address.

(* [src/cpu/memory/physical_memory.cpp] [PhysicalMemory::read_little_endian_value] *)
Definition read_little_endian_value (m : PhysicalMemory) (address byte_count : Z) : res Z :=
  start_index ← checked_start_index m address byte_count;
  Ok (foldl (fun value byte_index =>
               Z.lor value (shl64 (nthZ (bytes m) (start_index + byte_index)) (byte_index * 8)))
            0 (seqZ 0 byte_count)).

(* [src/cpu/memory/physical_memory.cpp] [PhysicalMemory::write_little_endian_value] *)
Definition write_little_endian_value (m : PhysicalMemory) (address byte_count value : Z)
  : res PhysicalMemory :=
  start_index ← checked_start_index m address byte_count;
  Ok (mkMemory (foldl (fun bs byte_index =>
        <[Z.to_nat (start_index + byte_index) := Z.land (Z.shiftr value (byte_index * 8)) 255]> bs)
      (bytes m) (seqZ 0 byte_count))).

(* [src/cpu/memory/physical_memory.cpp] [PhysicalMemory::read] *)
Definition read (m : PhysicalMemory) (address : Z) (s : DataSize) : res Z :=
  n ← data_size_to_bytes s; read_little_endian_value m address n.

(* [src/cpu/memory/physical_memory.cpp] [PhysicalMemory::write] *)
Definition write (m : PhysicalMemory) (address : Z) (s : DataSize) (value : Z)
  : res PhysicalMemory :=
  n ← data_size_to_bytes s; write_little_endian_value m address n value.

(* [src/cpu/memory/physical_memory.cpp] [PhysicalMemory::read_byte] [74-92] *)
Definition read_byte (m : PhysicalMemory) (address : Z) : res Z := read m address Size.BYTE.
(* [src/cpu/memory/physical_memory.cpp] [PhysicalMemory::read_qword] *)
Definition read_qword (m : PhysicalMemory) (address : Z) : res Z := read m address Size.QWORD.
(* [src/cpu/memory/physical_memory.cpp] [PhysicalMemory::write_byte] *)
Definition write_byte (m : PhysicalMemory) (address value : Z) : res PhysicalMemory :=
  write m address Size.BYTE value.
(* [src/cpu/memory/physical_memory.cpp] [PhysicalMemory::write_qword] *)
Definition write_qword (m : PhysicalMemory) (address value : Z) : res PhysicalMemory :=
  write m address Size.QWORD value.

(** ** Well-formedness *)

(** Every cell is a byte and the vector is indexable by a std::size_t. *)
Definition memory_wf (m : PhysicalMemory) : Prop :=
  Forall (fun b => 0 <= b < 256) (bytes m) /\ size m < W64.

Lemma contains_range_spec m a n : 0 <= a ->
  contains_range m a n = true <-> a <= size m /\ a + n <= size m.
Proof. unfold contains_range. intros Ha. destruct (Z.ltb_spec (size m) a); lia. Qed.

Lemma contains_range_false m a n : 0 <= a ->
  contains_range m a n = false <-> size m < a \/ size m < a + n.
Proof. unfold contains_range. intros Ha. destruct (Z.ltb_spec (size m) a); lia. Qed.

Lemma nthZ_byte m i : memory_wf m -> 0 <= nthZ (bytes m) i < 256.
Proof.
  intros [Hf _]. unfold nthZ. destruct (bytes m !! Z.to_nat i) as [b|] eqn:E.
  - rewrite (nth_lookup_Some _ _ _ _ E). exact (Forall_lookup_1 _ _ _ _ Hf E).
  - rewrite nth_lookup, E. simpl. lia.
Qed.

(** ** Byte-level characterisation of reads and writes *)

(** The value accumulated over the first [n] bytes has exactly those bytes. *)
Lemma read_loop_testbit m a (n : nat) i : memory_wf m -> (n <= 8)%nat -> 0 <= i ->
  Z.testbit (foldl (fun value k => Z.lor value (shl64 (nthZ (bytes m) (a + k)) (k * 8)))
                   0 (seqZ 0 (Z.of_nat n))) i
  = (i <? 8 * Z.of_nat n) && Z.testbit (nthZ (bytes m) (a + i / 8)) (i `mod` 8).
Proof.
  intros Hm. induction n as [|n IH]; intros Hn Hi.
  - simpl. rewrite Z.bits_0. destruct (Z.ltb_spec i (8 * Z.of_nat 0)); [lia|done].
  - rewrite seqZ_S, foldl_snoc. simpl foldl at 1. rewrite Z.lor_spec, IH by lia.
    change (0 + Z.of_nat n) with (Z.of_nat n). unfold shl64.
    rewrite wrap64_testbit, Z.shiftl_spec by lia.
    set (b := nthZ (bytes m) (a + Z.of_nat n)).
    pose proof (nthZ_byte m (a + Z.of_nat n) Hm) as Hb. fold b in Hb.
    assert (Hd : i = 8 * (i / 8) + i `mod` 8) by (apply Z.div_mod; lia).
    pose proof (Z.mod_pos_bound i 8 ltac:(lia)).
    destruct (Z_lt_dec i (8 * Z.of_nat n)) as [H1|H1]; [|destruct (Z_lt_dec i (8 * Z.of_nat (S n)))].
    + rewrite (Z.testbit_neg_r b) by lia.
      destruct (Z.ltb_spec i (8 * Z.of_nat n)), (Z.ltb_spec i (8 * Z.of_nat (S n))); try lia;
        by rewrite andb_false_r, orb_false_r.
    + assert (Heq : i / 8 = Z.of_nat n) by lia.
      destruct (Z.ltb_spec i (8 * Z.of_nat n)), (Z.ltb_spec i (8 * Z.of_nat (S n))),
        (Z.ltb_spec i 64); try lia. simpl. rewrite Heq. fold b. f_equal. lia.
    + rewrite (testbit_range_high b 8) by lia.
      destruct (Z.ltb_spec i (8 * Z.of_nat n)), (Z.ltb_spec i (8 * Z.of_nat (S n))); try lia;
        by rewrite andb_false_r.
Qed.

Lemma read_loop_nonneg m a ks : memory_wf m -> forall v, 0 <= v ->
  0 <= foldl (fun value k => Z.lor value (shl64 (nthZ (bytes m) (a + k)) (k * 8))) v ks.
Proof.
  intros Hm. induction ks as [|k ks IH]; intros v Hv; simpl; [done|].
  apply IH. apply Z.lor_nonneg. split; [done|]. apply wrap64_range.
Qed.

(** A read in range returns the bytes of the range, least significant first. *)
Lemma read_spec m a s : memory_wf m -> 0 <= a -> is_data_size_valid s = true ->
  contains_range m a (size_bytes s) = true ->
  exists v, read m a s = Ok v /\ 0 <= v < 2 ^ (8 * size_bytes s) /\
    forall k, 0 <= k < size_bytes s -> byte_of v k = nthZ (bytes m) (a + k).
Proof.
  intros Hm Ha Hs Hc. unfold read, read_little_endian_value, checked_start_index.
  rewrite data_size_to_bytes_valid by done. munfold_goal. rewrite Hc. cbn [negb].
  eexists. split; [reflexivity|].
  pose proof (size_bytes_range s). rewrite <- (Z2Nat.id (size_bytes s)) by lia.
  set (n := Z.to_nat (size_bytes s)). assert (Hn : (n <= 8)%nat) by lia.
  pose proof (read_loop_nonneg m a (seqZ 0 (Z.of_nat n)) Hm 0 ltac:(lia)) as Hnn.
  split; [split; [done|]; apply testbit_bound; [lia|done|]; intros i Hi;
    rewrite read_loop_testbit by (done || lia); destruct (Z.ltb_spec i (8 * Z.of_nat n)); [lia|done]|].
  intros k Hk. apply Z.bits_inj'. intros j Hj. rewrite byte_of_testbit, read_loop_testbit by (done || lia).
  destruct (Z.ltb_spec j 8); simpl.
  - destruct (Z.ltb_spec (k * 8 + j) (8 * Z.of_nat n)); [|lia]. simpl.
    rewrite Z.div_add_l, Z.div_small, Z.add_0_r by lia.
    by rewrite (Z.add_comm (k * 8)), Z.mod_add, Z.mod_small by lia.
  - symmetry. apply (testbit_range_high _ 8); [by apply (nthZ_byte m)|lia].
Qed.

Lemma read_oob m a s : is_data_size_valid s = true ->
  contains_range m a (size_bytes s) = false -> read m a s = Throw out_of_range.
Proof.
  intros Hs Hc. unfold read, read_little_endian_value, checked_start_index.
  rewrite data_size_to_bytes_valid by done. munfold_goal. by rewrite Hc.
Qed.

Lemma write_loop_length a v ks : forall bs : list Z,
  length (foldl (fun bs k => <[Z.to_nat (a + k) := Z.land (Z.shiftr v (k * 8)) 255]> bs) bs ks)
  = length bs.
Proof. induction ks; intros bs; simpl; [done|]. by rewrite IHks, length_insert. Qed.

Lemma write_loop_nth a v (n : nat) bs i : 0 <= a -> 0 <= i -> a + Z.of_nat n <= lenZ bs ->
  nthZ (foldl (fun bs k => <[Z.to_nat (a + k) := Z.land (Z.shiftr v (k * 8)) 255]> bs) bs
          (seqZ 0 (Z.of_nat n))) i
  = if decide (a <= i < a + Z.of_nat n) then byte_of v (i - a) else nthZ bs i.
Proof.
  unfold lenZ. intros Ha Hi. induction n as [|n IH]; intros Hn.
  - simpl. by rewrite decide_False by lia.
  - rewrite seqZ_S, foldl_snoc. change (0 + Z.of_nat n) with (Z.of_nat n).
    destruct (decide (i = a + Z.of_nat n)) as [->|Hne].
    + rewrite decide_True by lia. unfold nthZ at 1.
      rewrite nth_insert_eq by (rewrite write_loop_length; lia).
      unfold byte_of. do 3 f_equal. lia.
    + unfold nthZ at 1. rewrite nth_insert_ne by lia.
      fold (nthZ (foldl (fun bs k => <[Z.to_nat (a + k) := Z.land (Z.shiftr v (k * 8)) 255]> bs) bs
          (seqZ 0 (Z.of_nat n))) i). rewrite IH by lia.
      repeat case_decide; try done; lia.
Qed.

Lemma write_spec m a s v : 0 <= a -> is_data_size_valid s = true ->
  contains_range m a (size_bytes s) = true ->
  exists m', write m a s v = Ok m' /\ length (bytes m') = length (bytes m) /\
    forall i, 0 <= i -> nthZ (bytes m') i =
      if decide (a <= i < a + size_bytes s) then byte_of v (i - a) else nthZ (bytes m) i.
Proof.
  intros Ha Hs Hc. unfold write, write_little_endian_value, checked_start_index.
  rewrite data_size_to_bytes_valid by done. munfold_goal. rewrite Hc. cbn [negb].
  eexists. split; [reflexivity|]. cbn [bytes]. split; [apply write_loop_length|].
  intros i Hi. apply contains_range_spec in Hc; [|done]. pose proof (size_bytes_range s).
  pose proof (write_loop_nth a v (Z.to_nat (size_bytes s)) (bytes m) i Ha Hi) as Hw.
  rewrite Z2Nat.id in Hw by lia. apply Hw. unfold size in Hc. lia.
Qed.

Lemma write_oob m a s v : is_data_size_valid s = true ->
  contains_range m a (size_bytes s) = false -> write m a s v = Throw out_of_range.
Proof.
  intros Hs Hc. unfold write, write_little_endian_value, checked_start_index.
  rewrite data_size_to_bytes_valid by done. munfold_goal. by rewrite Hc.
Qed.

Lemma write_loop_wf a v ks : forall bs, Forall (fun b => 0 <= b < 256) bs ->
  Forall (fun b => 0 <= b < 256)
    (foldl (fun bs k => <[Z.to_nat (a + k) := Z.land (Z.shiftr v (k * 8)) 255]> bs) bs ks).
Proof.
  induction ks; intros bs Hb; simpl; [done|]. apply IHks. apply Forall_insert; [done|].
  apply (byte_of_range v).
Qed.

Lemma write_wf m a s v m' : memory_wf m -> write m a s v = Ok m' -> memory_wf m'.
Proof.
  intros [Hf Hsz]. unfold write, write_little_endian_value, checked_start_index. munfold_goal.
  destruct (data_size_to_bytes s) as [n|]; [|done]. destruct (contains_range m a n); [|done].
  simpl. intros [= <-]. split; [by apply write_loop_wf|].
  unfold size, lenZ. cbn [bytes]. by rewrite write_loop_length.
Qed.
