(* ===== verification/MemoryBus.v ===== *)
(** * The memory bus interface

    [MemoryBus] is the interface of src/cpu/memory/memory_bus.cpp, which the page walker, the
    page-table builder, the MMU and the memory-ordering model use; [MemoryBusLaws] states what
    they rely on, byte by byte.  The instances at the end discharge it for a physical memory,
    to which the C++ class delegates every call. *)

From S2P Require Import Prelude Common PhysicalMemory.

(* [include/mnos/cpu/memory/memory_bus.hpp] [MemoryBus] *)
Class MemoryBus (B : Type) := {
  bus_contains_range : B -> Z -> Z -> bool;
  bus_read : B -> Z -> DataSize -> res Z;
  bus_write : B -> Z -> DataSize -> Z -> res B;
}.

Class MemoryBusLaws (B : Type) `{MemoryBus B} := {
  bus_ok : B -> Prop;
  bus_size : B -> Z;
  bus_byte : B -> Z -> Z;
  bus_size_range b : bus_ok b -> 0 <= bus_size b < W64;
  bus_contains_spec b a n : 0 <= a ->
    bus_contains_range b a n = true <-> a <= bus_size b /\ a + n <= bus_size b;
  bus_read_in b a s : bus_ok b -> 0 <= a -> is_data_size_valid s = true ->
    a + size_bytes s <= bus_size b ->
    exists v, bus_read b a s = Ok v /\ 0 <= v < 2 ^ (8 * size_bytes s) /\
      forall k, 0 <= k < size_bytes s -> byte_of v k = bus_byte b (a + k);
  bus_read_out b a s : 0 <= a -> is_data_size_valid s = false \/ bus_size b < a + size_bytes s ->
    bus_read b a s = Throw out_of_range;
  bus_write_in b a s v : bus_ok b -> 0 <= a -> is_data_size_valid s = true ->
    a + size_bytes s <= bus_size b ->
    exists b', bus_write b a s v = Ok b' /\ bus_ok b' /\ bus_size b' = bus_size b /\
      forall i, 0 <= i -> bus_byte b' i =
        if decide (a <= i < a + size_bytes s) then byte_of v (i - a) else bus_byte b i;
  bus_write_out b a s v : 0 <= a ->
    is_data_size_valid s = false \/ bus_size b < a + size_bytes s ->
    bus_write b a s v = Throw out_of_range;
}.

Section bus_facts.
Context {B : Type} `{MemoryBusLaws B}.
Implicit Types (b : B) (a v : Z) (s : DataSize).

Lemma bus_read_Ok_inv b a s v : bus_ok b -> 0 <= a -> bus_read b a s = Ok v ->
  is_data_size_valid s = true /\ a + size_bytes s <= bus_size b /\
  0 <= v < 2 ^ (8 * size_bytes s) /\
  forall k, 0 <= k < size_bytes s -> byte_of v k = bus_byte b (a + k).
Proof.
  intros Hok Ha Hr. destruct (is_data_size_valid s) eqn:Hs.
  2:{ by rewrite bus_read_out in Hr by auto. }
  destruct (Z_le_dec (a + size_bytes s) (bus_size b)).
  2:{ rewrite bus_read_out in Hr by (auto; right; lia). done. }
  destruct (bus_read_in b a s) as (v' & Hv & ? & ?); [done..|].
  rewrite Hv in Hr. injection Hr as <-. auto.
Qed.

Lemma bus_write_Ok_inv b a s v b' : bus_ok b -> 0 <= a -> bus_write b a s v = Ok b' ->
  is_data_size_valid s = true /\ a + size_bytes s <= bus_size b /\
  bus_ok b' /\ bus_size b' = bus_size b /\
  forall i, 0 <= i -> bus_byte b' i =
    if decide (a <= i < a + size_bytes s) then byte_of v (i - a) else bus_byte b i.
Proof.
  intros Hok Ha Hr. destruct (is_data_size_valid s) eqn:Hs.
  2:{ by rewrite bus_write_out in Hr by auto. }
  destruct (Z_le_dec (a + size_bytes s) (bus_size b)).
  2:{ rewrite bus_write_out in Hr by (auto; right; lia). done. }
  destruct (bus_write_in b a s v) as (b'' & Hv & ? & ? & ?); [done..|].
  rewrite Hv in Hr. injection Hr as <-. auto.
Qed.

Lemma bus_read_throw b a s e : bus_ok b -> 0 <= a -> bus_read b a s = Throw e -> e = out_of_range.
Proof.
  intros Hok Ha Hr. destruct (is_data_size_valid s) eqn:Hs.
  2:{ rewrite bus_read_out in Hr by auto. by injection Hr. }
  destruct (Z_le_dec (a + size_bytes s) (bus_size b)).
  2:{ rewrite bus_read_out in Hr by (auto; right; lia). by injection Hr. }
  destruct (bus_read_in b a s) as (v' & Hv & ? & ?); [done..|]. congruence.
Qed.

(** Two buses of one size that agree on a range read the same there. *)
Lemma bus_read_ext b b' a s : bus_ok b -> bus_ok b' -> 0 <= a -> bus_size b' = bus_size b ->
  (forall k, 0 <= k < size_bytes s -> bus_byte b' (a + k) = bus_byte b (a + k)) ->
  bus_read b' a s = bus_read b a s.
Proof.
  intros Hok Hok' Ha Hsz Hb. pose proof (size_bytes_range s).
  destruct (is_data_size_valid s) eqn:Hs; [|by rewrite !bus_read_out by auto].
  destruct (Z_le_dec (a + size_bytes s) (bus_size b)).
  2:{ by rewrite !bus_read_out by (auto; right; lia). }
  destruct (bus_read_in b a s) as (v & Hv & Hr & Hk); [done..|].
  destruct (bus_read_in b' a s) as (v' & Hv' & Hr' & Hk'); [done..|lia|].
  rewrite Hv, Hv'. f_equal. apply (bytes_ext _ _ (size_bytes s)); [lia|done..|].
  intros k Hk0. by rewrite Hk, Hk', Hb.
Qed.

Lemma bus_read_write_same b a s v b' : bus_ok b -> 0 <= a -> bus_write b a s v = Ok b' ->
  bus_read b' a s = Ok (v `mod` 2 ^ (8 * size_bytes s)).
Proof.
  intros Hok Ha Hw. apply bus_write_Ok_inv in Hw as (Hs & Hle & Hok' & Hsz & Hb); [|done..].
  pose proof (size_bytes_range s).
  destruct (bus_read_in b' a s) as (v' & Hv' & Hr' & Hk'); [done..|lia|].
  rewrite Hv'. f_equal. apply (bytes_ext _ _ (size_bytes s)); [lia|done| |].
  { apply Z.mod_pos_bound. apply Z.pow_pos_nonneg; lia. }
  intros k Hk. rewrite Hk', byte_of_mod, Hb, decide_True by lia. f_equal. lia.
Qed.

Lemma bus_read_write_disjoint b a s v b' a' s' : bus_ok b -> 0 <= a -> 0 <= a' ->
  bus_write b a s v = Ok b' -> a + size_bytes s <= a' \/ a' + size_bytes s' <= a ->
  bus_read b' a' s' = bus_read b a' s'.
Proof.
  intros Hok Ha Ha' Hw Hd. apply bus_write_Ok_inv in Hw as (Hs & Hle & Hok' & Hsz & Hb); [|done..].
  apply bus_read_ext; [done..|]. intros k Hk. rewrite Hb, decide_False by lia. done.
Qed.

Lemma bus_write_ok b a s v b' : bus_ok b -> 0 <= a -> bus_write b a s v = Ok b' -> bus_ok b'.
Proof. intros Hok Ha Hw. by apply bus_write_Ok_inv in Hw as (_ & _ & ? & _). Qed.
Lemma bus_write_size b a s v b' : bus_ok b -> 0 <= a -> bus_write b a s v = Ok b' ->
  bus_size b' = bus_size b.
Proof. intros Hok Ha Hw. by apply bus_write_Ok_inv in Hw as (_ & _ & _ & ? & _). Qed.

(** A read that succeeded once succeeds after any write. *)
Lemma bus_write_succeeds b a s v w : bus_ok b -> 0 <= a -> bus_read b a s = Ok w ->
  exists b', bus_write b a s v = Ok b'.
Proof.
  intros Hok Ha Hr. apply bus_read_Ok_inv in Hr as (? & ? & _); [|done..].
  destruct (bus_write_in b a s v) as (b' & Hw & _); eauto.
Qed.
End bus_facts.

#[export] Hint Resolve bus_write_ok : mnos.

(** ** A physical memory is a memory bus *)

(* [src/cpu/memory/memory_bus.cpp] [MemoryBus] [5-33] *)
Definition physical_memory_bus_ops : MemoryBus PhysicalMemory := {|
  bus_contains_range := contains_range;
  bus_read := read;
  bus_write := write;
|}.
#[export] Existing Instance physical_memory_bus_ops.

Lemma physical_memory_size_nonneg m : 0 <= size m.
Proof. unfold size, lenZ. lia. Qed.

#[export] Instance physical_memory_bus_laws : MemoryBusLaws PhysicalMemory.
Proof.
  refine {| bus_ok := memory_wf; bus_size := size; bus_byte m i := nthZ (bytes m) i |};
    cbn [bus_contains_range bus_read bus_write physical_memory_bus_ops].
  - intros m [_ ?]. pose proof (physical_memory_size_nonneg m). lia.
  - intros m a n. apply contains_range_spec.
  - intros m a s Hm Ha Hs Hle. apply read_spec; [done..|]. apply contains_range_spec; [done|].
    pose proof (size_bytes_range s). lia.
  - intros m a s Ha [Hs|Hlt].
    + by destruct s.
    + destruct (is_data_size_valid s) eqn:Hs; [|by destruct s].
      apply read_oob; [done|]. apply contains_range_false; [done|]. lia.
  - intros m a s v Hm Ha Hs Hle. assert (Hc : contains_range m a (size_bytes s) = true).
    { apply contains_range_spec; [done|]. pose proof (size_bytes_range s). lia. }
    destruct (write_spec m a s v) as (m' & Hw & Hl & Hb); [done..|].
    exists m'. split; [done|]. split; [by eapply write_wf|].
    split; [unfold size, lenZ; by rewrite Hl|done].
  - intros m a s v Ha [Hs|Hlt].
    + by destruct s.
    + destruct (is_data_size_valid s) eqn:Hs; [|by destruct s].
      apply write_oob; [done|]. apply contains_range_false; [done|]. lia.
Defined.

(** ** Properties *)

(** A store to physical memory that succeeds is read back truncated to its width, leaves every
    disjoint access of any width unchanged, and keeps the memory's size and well-formedness. *)
Theorem physical_memory_write_read m a s v m' a' s' :
  memory_wf m -> u64 a -> u64 a' -> write m a s v = Ok m' ->
  read m' a s = Ok (v `mod` 2 ^ (8 * size_bytes s)) /\
  (a + size_bytes s <= a' \/ a' + size_bytes s' <= a -> read m' a' s' = read m a' s') /\
  size m' = size m /\ memory_wf m'.
Proof.
  intros Hm [Ha _] [Ha' _] Hw. split; [|split; [|split]].
  - exact (bus_read_write_same m a s v m' Hm Ha Hw).
  - exact (bus_read_write_disjoint m a s v m' a' s' Hm Ha Ha' Hw).
  - exact (bus_write_size m a s v m' Hm Ha Hw).
  - exact (bus_write_ok m a s v m' Hm Ha Hw).
Qed.

Lemma physical_memory_write_read_witness :
  let m := make_memory 16 in
  exists m', write m 3 Size.DWORD 0x11223344556677 = Ok m' /\
  read m' 3 Size.DWORD = Ok 0x44556677 /\ read m' 7 Size.QWORD = Ok 0.
Proof.
  eexists. split; [reflexivity|].
  assert (Hm : memory_wf (make_memory 16)) by (split; [by repeat constructor|reflexivity]).
  destruct (physical_memory_write_read (make_memory 16) 3 Size.DWORD 0x11223344556677 _ 7 Size.QWORD
    Hm ltac:(split; lia) ltac:(split; lia) eq_refl) as (H1 & H2 & _).
  split; [exact H1|]. etransitivity; [apply H2; simpl; lia|reflexivity].
Defined.

(** An access of width [n] at a 64-bit address succeeds exactly when the whole range lies in
    the memory; there is no wrap-around at the top of the address space, and a failing access
    throws std::out_of_range and changes nothing. *)
Theorem physical_memory_access_bounds m a s v : memory_wf m -> u64 a ->
  is_data_size_valid s = true ->
  (is_Ok (read m a s) = true <-> a + size_bytes s <= size m) /\
  (is_Ok (write m a s v) = true <-> a + size_bytes s <= size m) /\
  (size m < a + size_bytes s ->
     read m a s = Throw out_of_range /\ write m a s v = Throw out_of_range).
Proof.
  intros Hm [Ha _] Hs.
  pose proof (bus_read_in (B := PhysicalMemory) m a s Hm Ha Hs) as Hri.
  pose proof (bus_read_out (B := PhysicalMemory) m a s Ha) as Hro.
  pose proof (bus_write_in (B := PhysicalMemory) m a s v Hm Ha Hs) as Hwi.
  pose proof (bus_write_out (B := PhysicalMemory) m a s v Ha) as Hwo.
  cbn [bus_read bus_write bus_size physical_memory_bus_ops physical_memory_bus_laws] in *.
  destruct (Z_le_dec (a + size_bytes s) (size m)) as [Hle|Hgt].
  - destruct (Hri Hle) as (? & -> & _). destruct (Hwi Hle) as (? & -> & _). simpl.
    repeat split; intros; lia || done.
  - rewrite Hro, Hwo by (right; lia). simpl. repeat split; intros; lia || done.
Qed.

Lemma physical_memory_access_bounds_witness :
  let m := make_memory 16 in
  is_Ok (read m 8 Size.QWORD) = true /\ read m (W64 - 1) Size.QWORD = Throw out_of_range.
Proof.
  assert (Hm : memory_wf (make_memory 16)) by (split; [by repeat constructor|reflexivity]).
  split.
  - apply (physical_memory_access_bounds (make_memory 16) 8 Size.QWORD 0 Hm); [split; lia|done|].
    by vm_compute.
  - apply (physical_memory_access_bounds (make_memory 16) (W64 - 1) Size.QWORD 0 Hm);
      [split; lia|done|]. by vm_compute.
Defined.
