(* ===== verification/Tso.v ===== *)
(** * The x86 total-store-order memory model

    Models src/cpu/memory/memory_model.cpp: a FIFO store buffer per core, store-to-load
    forwarding inside a core, fences, and the locked compare-exchange and fetch-add. *)

From S2P Require Import Prelude Common MemoryBus PhysicalMemory.

(** ** State *)

(* [include/mnos/cpu/memory/memory_model.hpp] [StoreBufferEntry] *)
Record StoreBufferEntry : Set := mkStore {
  se_core : Z;
  se_address : Z;
  se_size : DataSize;
  se_value : Z;
  se_sequence : Z;
}.

(* [include/mnos/cpu/memory/memory_model.hpp] [X86TsoMemoryModel] *)
Record X86TsoMemoryModel : Set := mkTso {
  topology : CoreTopology;
  store_buffers : list (list StoreBufferEntry);
  next_sequence : Z;
}.

(* [src/cpu/memory/memory_model.cpp] [X86TsoMemoryModel::X86TsoMemoryModel] *)
Definition make_tso (t : CoreTopology) : X86TsoMemoryModel :=
  mkTso t (replicate (Z.to_nat (core_count t)) []) 0.

Definition buffer (t : X86TsoMemoryModel) (core : Z) : list StoreBufferEntry :=
  default [] (store_buffers t !! Z.to_nat core).
Definition set_buffer (core : Z) (q : list StoreBufferEntry) (t : X86TsoMemoryModel)
  : X86TsoMemoryModel :=
  mkTso (topology t) (<[Z.to_nat core := q]> (store_buffers t)) (next_sequence t).

(** ** Operations *)

(* [src/cpu/memory/memory_model.cpp] [require_valid_data_size] *)
Definition require_valid_data_size (s : DataSize) : res unit :=
  throw_when (negb (is_data_size_valid s)) out_of_range.

(* [src/cpu/memory/memory_model.cpp] [byte_mask_for_offset] *)
Definition byte_mask_for_offset (byte_offset : Z) : Z := shl64 255 (byte_offset * 8).

(* [src/cpu/memory/memory_model.cpp] [X86TsoMemoryModel::core_index] *)
Definition core_index (t : X86TsoMemoryModel) (core : Z) : res Z :=
  if negb (topology_contains (topology t) core) then Throw out_of_range else Ok core.

(* [src/cpu/memory/memory_model.cpp] [X86TsoMemoryModel::pending_store_count] *)
Definition pending_store_count (t : X86TsoMemoryModel) : nat :=
  foldl (fun total q => total + length q)%nat 0%nat (store_buffers t).

(* [src/cpu/memory/memory_model.cpp] [X86TsoMemoryModel::has_pending_stores] *)
Definition has_pending_stores (t : X86TsoMemoryModel) (core : Z) : res bool :=
  i ← core_index t core; Ok (negb (Nat.eqb (length (buffer t i)) 0)).

(* [src/cpu/memory/memory_model.cpp] [X86TsoMemoryModel::store] *)
Definition store (core address : Z) (s : DataSize) (value : Z) : M X86TsoMemoryModel unit :=
  lift (fun _ => require_valid_data_size s) ≫= fun _ =>
  lift (fun t => core_index t core) ≫= fun i =>
  modify (fun t =>
    let t' := set_buffer i (buffer t i ++ [mkStore core address s value (next_sequence t)]) t in
    mkTso (topology t') (store_buffers t') (wrap64 (next_sequence t + 1))).

(* [src/cpu/memory/memory_model.cpp] [X86TsoMemoryModel::entry_contains_byte] *)
Definition entry_contains_byte (e : StoreBufferEntry) (address : Z) : bool :=
  (se_address e <=? address) && (sub64 address (se_address e) <? size_bytes (se_size e)).

(* [src/cpu/memory/memory_model.cpp] [X86TsoMemoryModel::entry_byte_at] *)
Definition entry_byte_at (e : StoreBufferEntry) (address : Z) : Z :=
  Z.land (Z.shiftr (se_value e) (sub64 address (se_address e) * 8)) 255.

(* [src/cpu/memory/memory_model.cpp] [X86TsoMemoryModel::forwarded_byte] *)
Definition forwarded_byte (t : X86TsoMemoryModel) (core address : Z) : option Z :=
  match List.find (fun e => entry_contains_byte e address) (rev (buffer t core)) with
  | None => None
  | Some e => Some (entry_byte_at e address)
  end.

Section tso.
Context {B : Type} `{MemoryBus B}.

(* [src/cpu/memory/memory_model.cpp] [X86TsoMemoryModel::load] *)
Definition load (t : X86TsoMemoryModel) (b : B) (core address : Z) (s : DataSize) : res Z :=
  _ ← require_valid_data_size s;
  i ← core_index t core;
  value ← bus_read b address s;
  byte_count ← data_size_to_bytes s;
  Ok (foldl (fun value byte_offset =>
        match forwarded_byte t i (add64 address byte_offset) with
        | Some forwarded =>
            Z.lor (Z.land value (not64 (byte_mask_for_offset byte_offset)))
                  (shl64 forwarded (byte_offset * 8))
        | None => value
        end) value (seqZ 0 byte_count)).

(* [src/cpu/memory/memory_model.cpp] [X86TsoMemoryModel::drain_entry] *)
Definition drain_entry (b : B) (e : StoreBufferEntry) : res B :=
  bus_write b (se_address e) (se_size e) (se_value e).

(** The body shared by [drain_one] and [drain_core]: write the front entry, then pop it.  When the
    write throws, the entry stays in the buffer. *)
Definition drain_front (i : Z) : M (X86TsoMemoryModel * B) bool := fun '(t, b) =>
  match buffer t i with
  | [] => ((t, b), Ok false)
  | e :: q =>
      match drain_entry b e with
      | Ok b' => ((set_buffer i q t, b'), Ok true)
      | Throw ex => ((t, b), Throw ex)
      end
  end.

(** The selection loop of [drain_one]: the core whose front entry has the least sequence number. *)
Fixpoint select_oldest (qs : list (list StoreBufferEntry)) (i : Z) (best : option Z) (seq : Z)
  : option Z :=
  match qs with
  | [] => best
  | [] :: qs' => select_oldest qs' (i + 1) best seq
  | (e :: _) :: qs' =>
      if se_sequence e <? seq then select_oldest qs' (i + 1) (Some i) (se_sequence e)
      else select_oldest qs' (i + 1) best seq
  end.

(* [src/cpu/memory/memory_model.cpp] [X86TsoMemoryModel::drain_one] *)
Definition drain_one : M (X86TsoMemoryModel * B) bool := fun '(t, b) =>
  match select_oldest (store_buffers t) 0 None (W64 - 1) with
  | None => ((t, b), Ok false)
  | Some i => drain_front i (t, b)
  end.

(* [src/cpu/memory/memory_model.cpp] [X86TsoMemoryModel::drain_core] *)
Definition drain_core (core : Z) : M (X86TsoMemoryModel * B) bool :=
  lift (fun '(t, _) => core_index t core) ≫= fun i => drain_front i.

(** The [while] loops run once per pending store and once more for the final test; the theorems
    below show that this is enough. *)
(* [src/cpu/memory/memory_model.cpp] [X86TsoMemoryModel::drain_all] *)
Definition drain_all : M (X86TsoMemoryModel * B) unit := fun s =>
  while_M (S (pending_store_count s.1)) drain_one s.

(* [src/cpu/memory/memory_model.cpp] [X86TsoMemoryModel::fence] *)
Definition fence (core : Z) : M (X86TsoMemoryModel * B) unit := fun s =>
  while_M (S (length (buffer s.1 core))) (drain_core core) s.

(* [src/cpu/memory/memory_model.cpp] [X86TsoMemoryModel::compare_exchange] *)
Definition compare_exchange (core address : Z) (s : DataSize) (expected desired : Z)
  : M (X86TsoMemoryModel * B) (Z * bool) :=
  lift (fun _ => require_valid_data_size s) ≫= fun _ =>
  fence core ≫= fun _ =>
  lift (fun '(_, b) => bus_read b address s) ≫= fun observed =>
  let exchanged := observed =? expected in
  (if exchanged then
     lift (fun '(_, b) => bus_write b address s desired) ≫= fun b' =>
     modify (fun '(t, _) => (t, b'))
   else mret tt) ≫= fun _ =>
  mret (observed, exchanged).

(* [src/cpu/memory/memory_model.cpp] [X86TsoMemoryModel::fetch_add] *)
Definition fetch_add (core address : Z) (s : DataSize) (addend : Z)
  : M (X86TsoMemoryModel * B) (Z * Z) :=
  lift (fun _ => require_valid_data_size s) ≫= fun _ =>
  fence core ≫= fun _ =>
  lift (fun '(_, b) => bus_read b address s) ≫= fun old_value =>
  let new_value := add64 old_value addend in
  lift (fun '(_, b) => bus_write b address s new_value) ≫= fun b' =>
  modify (fun '(t, _) => (t, b')) ≫= fun _ =>
  mret (old_value, new_value).
End tso.

(** ** Specification vocabulary *)

Definition entry_ok (e : StoreBufferEntry) : Prop :=
  u64 (se_address e) /\ is_data_size_valid (se_size e) = true.
Definition seq_lt (e1 e2 : StoreBufferEntry) : Prop := se_sequence e1 < se_sequence e2.

(** The invariant of a model that has issued fewer than [2^64 - 1] stores. *)
Record tso_wf (t : X86TsoMemoryModel) : Prop := {
  wf_buffers : lenZ (store_buffers t) = core_count (topology t);
  wf_entries : Forall entry_ok (concat (store_buffers t));
  wf_sorted : Forall (StronglySorted seq_lt) (store_buffers t);
  wf_distinct : NoDup (se_sequence <$> concat (store_buffers t));
  wf_bound : Forall (fun e => 0 <= se_sequence e < next_sequence t) (concat (store_buffers t));
  wf_next : 0 <= next_sequence t <= W64 - 1;
}.

Definition core_ok (t : X86TsoMemoryModel) (core : Z) : Prop :=
  0 <= core < core_count (topology t).

(** Writing a list of stores to memory in order. *)
Fixpoint apply_stores {B} `{MemoryBus B} (b : B) (q : list StoreBufferEntry) : res B :=
  match q with
  | [] => Ok b
  | e :: q' => b' ← drain_entry b e; apply_stores b' q'
  end.

(** The abstract effect of draining one FIFO queue: what is left in it, the memory, the outcome. *)
Fixpoint flush_queue {B} `{MemoryBus B} (q : list StoreBufferEntry) (b : B)
  : list StoreBufferEntry * B * res unit :=
  match q with
  | [] => ([], b, Ok tt)
  | e :: q' =>
      match drain_entry b e with
      | Ok b' => flush_queue q' b'
      | Throw ex => (q, b, Throw ex)
      end
  end.

(** ** Buffers *)

Lemma core_ok_lookup t core : tso_wf t -> core_ok t core ->
  (Z.to_nat core < length (store_buffers t))%nat /\
  store_buffers t !! Z.to_nat core = Some (buffer t core).
Proof.
  intros Hwf Hc. pose proof (wf_buffers _ Hwf) as Hl. unfold lenZ, core_ok in *.
  assert (Hlt : (Z.to_nat core < length (store_buffers t))%nat) by lia. split; [done|].
  unfold buffer. destruct (lookup_lt_is_Some_2 _ _ Hlt) as [q ->]. done.
Qed.

Lemma core_index_ok t core : core_ok t core -> core_index t core = Ok core.
Proof.
  intros [_ Hc]. unfold core_index, topology_contains. destruct (Z.ltb_spec core (core_count (topology t)));
    [done|lia].
Qed.

Lemma buffer_set_buffer_eq t core q : (Z.to_nat core < length (store_buffers t))%nat ->
  buffer (set_buffer core q t) core = q.
Proof. intros Hl. unfold buffer, set_buffer. simpl. by rewrite list_lookup_insert_eq. Qed.
Lemma buffer_set_buffer_ne t core core' q : 0 <= core -> 0 <= core' -> core <> core' ->
  buffer (set_buffer core q t) core' = buffer t core'.
Proof. intros ???. unfold buffer, set_buffer. simpl. rewrite list_lookup_insert_ne by lia. done. Qed.
Lemma set_buffer_twice t core q q' :
  set_buffer core q (set_buffer core q' t) = set_buffer core q t.
Proof. unfold set_buffer. simpl. by rewrite list_insert_insert_eq. Qed.
Lemma set_buffer_id t core : set_buffer core (buffer t core) t = t.
Proof.
  destruct t as [tp bs n]. unfold set_buffer, buffer. simpl. f_equal.
  destruct (bs !! Z.to_nat core) as [q|] eqn:E; simpl.
  - by apply list_insert_id.
  - apply list_insert_ge. by apply lookup_ge_None.
Qed.

(** Replacing one buffer permutes the pending stores accordingly. *)
Lemma concat_set_buffer t core q : tso_wf t -> core_ok t core ->
  exists rest, concat (store_buffers t) ≡ₚ buffer t core ++ rest /\
    concat (store_buffers (set_buffer core q t)) ≡ₚ q ++ rest.
Proof.
  intros Hwf Hc. destruct (core_ok_lookup t core Hwf Hc) as [Hlt Hl].
  exists (concat (take (Z.to_nat core) (store_buffers t)) ++
          concat (drop (S (Z.to_nat core)) (store_buffers t))).
  split.
  - rewrite <- (take_drop_middle _ _ _ Hl) at 1. rewrite concat_app. simpl. solve_Permutation.
  - unfold set_buffer. simpl. rewrite insert_take_drop by done. rewrite concat_app. simpl.
    solve_Permutation.
Qed.

(** Removing a prefix of one buffer keeps the invariant. *)
Lemma set_buffer_suffix_wf t core p q : tso_wf t -> core_ok t core ->
  buffer t core = p ++ q -> tso_wf (set_buffer core q t).
Proof.
  intros Hwf Hc Hb. destruct (concat_set_buffer t core q Hwf Hc) as (rest & Hp & Hp').
  destruct (core_ok_lookup t core Hwf Hc) as [Hlt Hl]. rewrite Hb in Hp, Hl. destruct Hwf as [H1 H2 H3 H4 H5 H6].
  rewrite <- app_assoc in Hp. split.
  - unfold lenZ in *. simpl. by rewrite length_insert.
  - rewrite Hp'. rewrite Hp in H2. by apply Forall_app in H2 as [_ H2].
  - simpl. apply Forall_insert; [done|]. pose proof (Forall_lookup_1 _ _ _ _ H3 Hl) as Hs.
    clear -Hs. induction p as [|e p IH]; [done|]. apply IH. by inversion Hs.
  - rewrite Hp'. rewrite Hp, fmap_app in H4. by apply NoDup_app in H4 as (_ & _ & H4).
  - simpl in *. rewrite Hp'. rewrite Hp in H5. by apply Forall_app in H5 as [_ H5].
  - done.
Qed.

Section tso_facts.
Context {B : Type} `{MemoryBusLaws B}.
Implicit Types (t : X86TsoMemoryModel) (b : B).

(** ** Fences *)

Lemma fence_queue t b core q : tso_wf t -> core_ok t core -> buffer t core = q ->
  while_M (S (length q)) (drain_core core) (t, b) =
  (let '(q', b', r) := flush_queue q b in ((set_buffer core q' t, b'), r)).
Proof.
  revert t b. induction q as [|e q IH]; intros t b Hwf Hc Hb; rewrite while_M_S;
    unfold drain_core at 1, drain_front; munfold_goal; rewrite core_index_ok, Hb by done; simpl.
  - by rewrite <- Hb, set_buffer_id.
  - destruct (drain_entry b e) as [b'|ex] eqn:Ed; [|by rewrite <- Hb, set_buffer_id].
    destruct (core_ok_lookup t core Hwf Hc) as [Hlt _].
    rewrite (IH (set_buffer core q t) b').
    + destruct (flush_queue q b') as [[q' b''] r]. by rewrite set_buffer_twice.
    + by apply (set_buffer_suffix_wf t core [e] q).
    + done.
    + by apply buffer_set_buffer_eq.
Qed.

Lemma fence_flush t b core : tso_wf t -> core_ok t core ->
  fence core (t, b) =
  (let '(q', b', r) := flush_queue (buffer t core) b in ((set_buffer core q' t, b'), r)).
Proof. intros. unfold fence. by apply fence_queue. Qed.

Lemma flush_queue_Ok q b q' b' :
  flush_queue q b = (q', b', Ok tt) <-> q' = [] /\ apply_stores b q = Ok b'.
Proof.
  revert b. induction q as [|e q IH]; intros b; simpl.
  - split; [intros [=]; by subst|]. intros [-> [=]]. by subst.
  - munfold_goal. destruct (drain_entry b e) as [b1|ex]; [apply IH|].
    split; [done|]. by intros [_ ?].
Qed.

(** When a store cannot be written, it and the ones behind it stay pending. *)
Lemma flush_queue_Throw q b q' b' ex : flush_queue q b = (q', b', Throw ex) ->
  exists p e q1, q = p ++ e :: q1 /\ q' = e :: q1 /\ apply_stores b p = Ok b' /\
    drain_entry b' e = Throw ex.
Proof.
  revert b. induction q as [|e q IH]; intros b; simpl; [done|].
  destruct (drain_entry b e) as [b1|ex1] eqn:Ed.
  - intros Hf. destruct (IH b1 Hf) as (p & e1 & q1 & -> & -> & Ha & Hd).
    exists (e :: p), e1, q1. repeat split; [|done]. simpl. munfold_goal. by rewrite Ed.
  - intros [=]; subst. exists [], e, q. done.
Qed.

(** ** Store-to-load forwarding *)

Lemma entry_contains_spec e i : entry_ok e -> u64 i ->
  entry_contains_byte e i = bool_decide (se_address e <= i < se_address e + size_bytes (se_size e)).
Proof.
  intros [[Ha Hu] _] Hi. unfold entry_contains_byte.
  destruct (Z.leb_spec (se_address e) i); simpl.
  - rewrite sub64_small by (unfold u64 in *; lia).
    destruct (Z.ltb_spec (i - se_address e) (size_bytes (se_size e)));
      case_bool_decide; done || lia.
  - case_bool_decide; done || lia.
Qed.

Lemma entry_byte_at_spec e i : entry_ok e -> u64 i -> se_address e <= i ->
  entry_byte_at e i = byte_of (se_value e) (i - se_address e).
Proof. intros [[Ha Hu] _] Hi Hle. unfold entry_byte_at. by rewrite sub64_small by (unfold u64 in *; lia). Qed.

(** The byte a core sees: its youngest pending store covering it, or memory. *)
Definition visible_byte (q : list StoreBufferEntry) (b : B) (i : Z) : Z :=
  match List.find (fun e => entry_contains_byte e i) (rev q) with
  | Some e => entry_byte_at e i
  | None => bus_byte b i
  end.

Lemma apply_stores_snoc b q e :
  apply_stores b (q ++ [e]) = (b' ← apply_stores b q; drain_entry b' e).
Proof.
  revert b. induction q as [|e' q IH]; intros b; simpl; munfold_goal.
  - by destruct (drain_entry b e).
  - destruct (drain_entry b e'); [apply IH|done].
Qed.

Lemma apply_stores_bytes q b b' : bus_ok b -> Forall entry_ok q -> apply_stores b q = Ok b' ->
  bus_ok b' /\ bus_size b' = bus_size b /\
  forall i, u64 i -> bus_byte b' i = visible_byte q b i.
Proof.
  intros Hok. revert b'. induction q as [|e q IH] using rev_ind; intros b' Hq Ha.
  - simpl in Ha. injection Ha as <-. done.
  - rewrite apply_stores_snoc in Ha. apply Forall_app in Hq as [Hq He]. apply Forall_cons in He as [He _].
    munfold. destruct (apply_stores b q) as [b1|] eqn:E1; [|done].
    destruct (IH b1 Hq eq_refl) as (Hok1 & Hsz1 & Hb1). unfold drain_entry in Ha.
    apply bus_write_Ok_inv in Ha as (Hs & Hle & Hok' & Hsz & Hb); [|done|apply He].
    split; [done|]. split; [by rewrite Hsz|]. intros i Hi. rewrite Hb by apply Hi.
    unfold visible_byte. rewrite rev_app_distr. simpl.
    rewrite entry_contains_spec by done. case_bool_decide.
    + rewrite decide_True by done. symmetry. apply entry_byte_at_spec; [done..|lia].
    + rewrite decide_False by done. by apply Hb1.
Qed.

(** One step of the load loop replaces one byte. *)
Lemma replace_byte_spec v f n k j : 0 <= n <= 8 -> 0 <= v < 2 ^ (8 * n) -> 0 <= f < 256 ->
  0 <= k < n -> 0 <= j ->
  let v' := Z.lor (Z.land v (not64 (byte_mask_for_offset k))) (shl64 f (k * 8)) in
  0 <= v' < 2 ^ (8 * n) /\ byte_of v' j = if decide (j = k) then f else byte_of v j.
Proof.
  intros Hn Hv Hf Hk Hj v'.
  assert (Hbit : forall i, 0 <= i -> Z.testbit v' i =
      if decide (k * 8 <= i < k * 8 + 8) then Z.testbit f (i - k * 8) else Z.testbit v i).
  { intros i Hi. unfold v', byte_mask_for_offset, shl64. change 255 with (Z.ones 8).
    rewrite Z.lor_spec, Z.land_spec, not64_spec, !wrap64_testbit, !Z.shiftl_spec by lia.
    destruct (decide (k * 8 <= i < k * 8 + 8)) as [Hin|Hout].
    - rewrite ones_testbit by lia. destruct (Z.ltb_spec i 64), (Z.ltb_spec (i - k * 8) 8); try lia.
      simpl. by rewrite andb_false_r.
    - destruct (Z_lt_dec i (k * 8)).
      + rewrite !(Z.testbit_neg_r _ (i - k * 8)) by lia.
        destruct (Z.ltb_spec i 64); [|lia]. simpl. by rewrite andb_true_r, orb_false_r.
      + rewrite ones_testbit, (testbit_range_high f 8) by lia.
        destruct (Z.ltb_spec (i - k * 8) 8); [lia|]. rewrite !andb_false_r. simpl.
        rewrite orb_false_r. destruct (Z.ltb_spec i 64); simpl; [by rewrite andb_true_r|].
        rewrite (testbit_range_high v (8 * n)) by lia. done. }
  assert (Hv0 : 0 <= v').
  { unfold v'. apply Z.lor_nonneg. split; [apply Z.land_nonneg; lia|apply wrap64_range]. }
  split.
  - split; [done|]. apply testbit_bound; [lia|done|]. intros i Hi. rewrite Hbit by lia.
    rewrite decide_False by lia. by apply (testbit_range_high v (8 * n)); lia.
  - apply Z.bits_inj'. intros i Hi. rewrite byte_of_testbit, Hbit by lia.
    destruct (Z.ltb_spec i 8); simpl.
    + destruct (decide (j = k)) as [->|]; [rewrite decide_True by lia; f_equal; lia|].
      rewrite decide_False by lia. rewrite byte_of_testbit by lia.
      destruct (Z.ltb_spec i 8); [done|lia].
    + destruct (decide (j = k)); symmetry.
      * by apply (testbit_range_high f 8); lia.
      * apply (testbit_range_high _ 8); [apply byte_of_range|lia].
Qed.

Lemma load_loop_bytes t i a n v (m : nat) : 0 <= n <= 8 -> 0 <= v < 2 ^ (8 * n) ->
  Z.of_nat m <= n -> Forall entry_ok (buffer t i) ->
  let w := foldl (fun value k =>
        match forwarded_byte t i (add64 a k) with
        | Some f => Z.lor (Z.land value (not64 (byte_mask_for_offset k))) (shl64 f (k * 8))
        | None => value
        end) v (seqZ 0 (Z.of_nat m)) in
  0 <= w < 2 ^ (8 * n) /\ forall j, 0 <= j -> byte_of w j =
    if decide (j < Z.of_nat m) then default (byte_of v j) (forwarded_byte t i (add64 a j))
    else byte_of v j.
Proof.
  intros Hn Hv Hm Hq. induction m as [|m IH]; cbn zeta.
  - simpl. split; [done|]. intros j Hj. by rewrite decide_False by lia.
  - rewrite seqZ_S, foldl_snoc. change (0 + Z.of_nat m) with (Z.of_nat m).
    specialize (IH ltac:(lia)). cbn zeta in IH.
    set (w := foldl _ v (seqZ 0 (Z.of_nat m))) in *. destruct IH as [Hw IH].
    destruct (forwarded_byte t i (add64 a (Z.of_nat m))) as [f|] eqn:Ef.
    + assert (Hf : 0 <= f < 256).
      { unfold forwarded_byte in Ef. destruct (List.find _ _) as [e|]; [|done].
        injection Ef as <-. apply (byte_of_range (se_value e)). }
      split; [apply (replace_byte_spec w f n (Z.of_nat m) 0); lia|].
      intros j Hj. destruct (replace_byte_spec w f n (Z.of_nat m) j) as [_ ->]; [lia..|].
      rewrite IH by done. destruct (decide (j = Z.of_nat m)) as [->|].
      * rewrite decide_True by lia. by rewrite Ef.
      * repeat case_decide; done || lia.
    + split; [done|]. intros j Hj. rewrite IH by done. repeat case_decide; try done; try lia.
      replace j with (Z.of_nat m) by lia. by rewrite Ef.
Qed.

(** A load is a read of the memory the core's own pending stores produce. *)
Lemma load_apply_stores t b b' core a s : bus_ok b -> core_ok t core -> u64 a ->
  Forall entry_ok (buffer t core) -> apply_stores b (buffer t core) = Ok b' ->
  load t b core a s = bus_read b' a s.
Proof.
  intros Hok Hc Ha Hq Happ. destruct (apply_stores_bytes _ _ _ Hok Hq Happ) as (Hok' & Hsz & Hb).
  unfold load, require_valid_data_size. munfold_goal. destruct (is_data_size_valid s) eqn:Hs; simpl.
  2:{ symmetry. apply bus_read_out; [apply Ha|auto]. }
  rewrite core_index_ok by done. pose proof (size_bytes_range s).
  destruct (Z_le_dec (a + size_bytes s) (bus_size b)) as [Hle|Hgt].
  2:{ destruct Ha as [Ha _]. rewrite !bus_read_out by (done || (right; lia)). done. }
  destruct (bus_read_in b a s) as (v & -> & Hv & Hk); [done|apply Ha|done..|].
  rewrite data_size_to_bytes_valid by done.
  destruct (bus_read_in b' a s) as (v' & -> & Hv' & Hk'); [done|apply Ha|done|lia|].
  f_equal. pose proof (bus_size_range b Hok).
  destruct (load_loop_bytes t core a (size_bytes s) v (Z.to_nat (size_bytes s))) as [Hw Hwb];
    [lia|done|lia|done|].
  rewrite Z2Nat.id in Hw, Hwb by lia. apply (bytes_ext _ _ (size_bytes s)); [lia|done..|].
  intros k Hkr. rewrite Hwb, decide_True, Hk' by lia. rewrite add64_small by (unfold u64 in *; lia).
  rewrite Hb by (unfold u64 in *; lia). unfold visible_byte, forwarded_byte.
  destruct (List.find _ _); [done|]. simpl. by apply Hk.
Qed.

(** ** Draining in global order *)

Lemma select_oldest_spec qs i best seq :
  match select_oldest qs i best seq with
  | r => (r = best /\ forall k e q, qs !! k = Some (e :: q) -> seq <= se_sequence e) \/
         (exists k e q, r = Some (i + Z.of_nat k) /\ qs !! k = Some (e :: q) /\
            se_sequence e < seq /\
            forall k' e' q', qs !! k' = Some (e' :: q') -> se_sequence e <= se_sequence e')
  end.
Proof.
  revert i best seq. induction qs as [|[|e q] qs IH]; intros i best seq; simpl.
  - left. done.
  - destruct (IH (i + 1) best seq) as [[-> Hm]|(k & e & q & -> & Hk & Hlt & Hm)].
    + left. split; [done|]. intros [|k] e q Hk; [done|]. by eapply Hm.
    + right. exists (S k), e, q. split; [f_equal; lia|]. split; [done|]. split; [done|].
      intros [|k'] e' q' Hk'; [done|]. by eapply Hm.
  - destruct (Z.ltb_spec (se_sequence e) seq) as [Hs|Hs].
    + right. destruct (IH (i + 1) (Some i) (se_sequence e)) as [[-> Hm]|(k & e1 & q1 & -> & Hk & Hlt & Hm)].
      * exists 0%nat, e, q. split; [f_equal; lia|]. split; [done|]. split; [done|].
        intros [|k'] e' q' Hk'; [by injection Hk' as -> _|]. by eapply Hm.
      * exists (S k), e1, q1. split; [f_equal; lia|]. split; [done|]. split; [lia|].
        intros [|k'] e' q' Hk'; [injection Hk' as -> _; lia|]. by eapply Hm.
    + destruct (IH (i + 1) best seq) as [[-> Hm]|(k & e1 & q1 & -> & Hk & Hlt & Hm)].
      * left. split; [done|]. intros [|k] e' q' Hk; [by injection Hk as <- _|]. by eapply Hm.
      * right. exists (S k), e1, q1. split; [f_equal; lia|]. split; [done|]. split; [done|].
        intros [|k'] e' q' Hk'; [injection Hk' as -> _; lia|]. by eapply Hm.
Qed.

Lemma concat_nil_heads (qs : list (list StoreBufferEntry)) :
  (forall k e q, qs !! k <> Some (e :: q)) -> concat qs = [].
Proof.
  induction qs as [|[|e q] qs IH]; intros Hq; [done| |].
  - apply IH. intros k e q. apply (Hq (S k)).
  - by destruct (Hq 0%nat e q).
Qed.

(** The oldest front entry is the oldest pending store of all. *)
Lemma oldest_front_minimal t core e q rest : tso_wf t -> core_ok t core ->
  buffer t core = e :: q ->
  (forall k e' q', store_buffers t !! k = Some (e' :: q') -> se_sequence e <= se_sequence e') ->
  concat (store_buffers t) ≡ₚ e :: rest -> Forall (seq_lt e) rest.
Proof.
  intros Hwf Hc Hb Hmin Hp. assert (Hle : Forall (fun e' => se_sequence e <= se_sequence e')
    (concat (store_buffers t))).
  { apply Forall_forall. intros e' He'. apply list_elem_of_In, in_concat in He' as (q1 & Hq1 & He').
    apply list_elem_of_In, list_elem_of_lookup in Hq1 as [k Hk].
    pose proof (Forall_lookup_1 _ _ _ _ (wf_sorted _ Hwf) Hk) as Hs. destruct q1 as [|e1 q1]; [done|].
    pose proof (Hmin _ _ _ Hk). destruct He' as [->|He']; [done|].
    apply StronglySorted_inv in Hs as [_ Hs]. rewrite Forall_forall in Hs.
    pose proof (Hs e' ltac:(by apply list_elem_of_In)) as Hl. unfold seq_lt in Hl. lia. }
  rewrite Hp in Hle. apply Forall_cons in Hle as [_ Hle]. pose proof (wf_distinct _ Hwf) as Hnd.
  rewrite Hp in Hnd. simpl in Hnd. apply NoDup_cons in Hnd as [Hni _].
  apply Forall_forall. intros e' He'. rewrite Forall_forall in Hle. pose proof (Hle e' He').
  unfold seq_lt. assert (se_sequence e <> se_sequence e'); [|lia].
  intros Heq. apply Hni. rewrite Heq. by apply list_elem_of_fmap_2.
Qed.

Lemma drain_one_spec t b : tso_wf t ->
  (concat (store_buffers t) = [] /\ drain_one (t, b) = ((t, b), Ok false)) \/
  (exists core e q rest, core_ok t core /\ buffer t core = e :: q /\
     concat (store_buffers t) ≡ₚ e :: rest /\
     concat (store_buffers (set_buffer core q t)) ≡ₚ rest /\ Forall (seq_lt e) rest /\
     drain_one (t, b) = match drain_entry b e with
                        | Ok b' => ((set_buffer core q t, b'), Ok true)
                        | Throw ex => ((t, b), Throw ex)
                        end).
Proof.
  intros Hwf. unfold drain_one.
  pose proof (select_oldest_spec (store_buffers t) 0 None (W64 - 1)) as Hs. cbv zeta in Hs.
  destruct Hs as [[-> Hm]|(k & e & q & -> & Hk & Hlt & Hm)].
  - left. split; [|done]. apply concat_nil_heads. intros k e q Hk. pose proof (Hm _ _ _ Hk).
    pose proof (wf_bound _ Hwf) as Hb. rewrite Forall_forall in Hb.
    assert (He : e ∈ concat (store_buffers t)).
    { apply list_elem_of_In, in_concat. exists (e :: q). split; [|by left].
      apply list_elem_of_In. by eapply list_elem_of_lookup_2. }
    apply Hb in He. pose proof (wf_next _ Hwf). lia.
  - right. rewrite Z.add_0_l. exists (Z.of_nat k), e, q.
    assert (Hc : core_ok t (Z.of_nat k)).
    { pose proof (wf_buffers _ Hwf). apply lookup_lt_Some in Hk. unfold core_ok, lenZ in *. lia. }
    assert (Hb : buffer t (Z.of_nat k) = e :: q) by (unfold buffer; by rewrite Nat2Z.id, Hk).
    destruct (concat_set_buffer t (Z.of_nat k) q Hwf Hc) as (rest & Hp & Hp').
    rewrite Hb in Hp. exists (q ++ rest). do 4 (split; [done|]). split.
    + by apply (oldest_front_minimal t (Z.of_nat k) e q).
    + unfold drain_front. by rewrite Hb.
Qed.

Lemma pending_store_count_concat t :
  pending_store_count t = length (concat (store_buffers t)).
Proof.
  unfold pending_store_count. rewrite <- (Nat.add_0_l (length (concat _))).
  generalize 0%nat. induction (store_buffers t) as [|q qs IH]; intros n; simpl; [lia|].
  rewrite IH, length_app. lia.
Qed.

(** What [drain_all] did when it stops, normally or on an exception. *)
Lemma drain_all_loop n t b t' b' r : tso_wf t -> (length (concat (store_buffers t)) < n)%nat ->
  while_M n drain_one (t, b) = ((t', b'), r) ->
  exists l, concat (store_buffers t) ≡ₚ l ++ concat (store_buffers t') /\
    StronglySorted seq_lt l /\ apply_stores b l = Ok b' /\ tso_wf t' /\
    match r with
    | Ok _ => concat (store_buffers t') = []
    | Throw ex => exists e rest, concat (store_buffers t') ≡ₚ e :: rest /\
        Forall (seq_lt e) rest /\ drain_entry b' e = Throw ex
    end.
Proof.
  revert t b. induction n as [|n IH]; intros t b Hwf Hlen Hw; [lia|]. rewrite while_M_S in Hw.
  destruct (drain_one_spec t b Hwf) as [[Hnil Hd]|(core & e & q & rest & Hc & Hb & Hp & Hp' & Hmin & Hd)];
    rewrite Hd in Hw.
  - injection Hw as <- <- <-. exists []. rewrite Hnil. split; [done|]. split; [constructor|]. done.
  - destruct (drain_entry b e) as [b1|ex] eqn:Ed.
    + assert (Hwf1 : tso_wf (set_buffer core q t)) by (by apply (set_buffer_suffix_wf t core [e] q)).
      apply IH in Hw as (l & Hl & Hs & Ha & Hwf' & Hr); [|done|].
      2:{ apply Permutation_length in Hp, Hp'. simpl in Hp. lia. }
      exists (e :: l). split; [simpl; by rewrite Hp, <- Hl, <- Hp'|]. split; [|split; [|done]].
      * constructor; [done|]. rewrite <- Hp' in Hmin. rewrite Hl in Hmin. by apply Forall_app in Hmin as [Hmin _].
      * simpl. munfold_goal. by rewrite Ed.
    + injection Hw as <- <- <-. exists []. split; [done|]. split; [constructor|]. split; [done|]. split; [done|].
      by exists e, rest.
Qed.

(** ** The invariant is established and kept *)

Lemma concat_replicate_nil n : concat (replicate n (@nil StoreBufferEntry)) = [].
Proof. by induction n. Qed.

Lemma make_tso_wf c : 0 <= core_count c -> tso_wf (make_tso c).
Proof.
  intros Hc. split; simpl; rewrite ?concat_replicate_nil.
  - unfold lenZ. rewrite length_replicate. lia.
  - constructor.
  - apply Forall_replicate. constructor.
  - constructor.
  - constructor.
  - lia.
Qed.

Lemma store_inv t t' core a s v r : store core a s v t = (t', r) ->
  (t' = t /\ r = Throw out_of_range) \/
  (is_data_size_valid s = true /\ topology_contains (topology t) core = true /\ r = Ok tt /\
   t' = mkTso (topology t)
     (<[Z.to_nat core := buffer t core ++ [mkStore core a s v (next_sequence t)]]> (store_buffers t))
     (wrap64 (next_sequence t + 1))).
Proof.
  unfold store, require_valid_data_size, core_index. munfold_goal.
  destruct (is_data_size_valid s); simpl; [|intros [=]; subst; auto].
  destruct (topology_contains (topology t) core); simpl; intros [=]; subst; auto.
Qed.

Lemma store_wf t t' core a s v r : tso_wf t -> u64 core -> u64 a -> next_sequence t < W64 - 1 ->
  store core a s v t = (t', r) -> tso_wf t' /\ topology t' = topology t /\
  next_sequence t <= next_sequence t' <= next_sequence t + 1.
Proof.
  intros Hwf [Hc0 _] Ha Hn Hst. apply store_inv in Hst as [[-> ->]|(Hs & Hc & -> & ->)].
  { split; [done|]. split; [done|]. lia. }
  assert (Hco : core_ok t core) by (split; [done|]; by apply Z.ltb_lt in Hc).
  pose proof (wf_next _ Hwf). assert (Hw : wrap64 (next_sequence t + 1) = next_sequence t + 1).
  { apply wrap64_small. unfold u64. lia. }
  rewrite Hw. split; [|split; [done|simpl; lia]].
  set (e := mkStore core a s v (next_sequence t)).
  destruct (core_ok_lookup t core Hwf Hco) as [Hlt Hl].
  destruct (concat_set_buffer t core (buffer t core ++ [e]) Hwf Hco) as (rest & Hp & Hp').
  unfold set_buffer in Hp'. simpl in Hp'.
  assert (Hpp : concat (<[Z.to_nat core := buffer t core ++ [e]]> (store_buffers t)) ≡ₚ
    e :: concat (store_buffers t)) by (rewrite Hp', Hp; solve_Permutation).
  destruct Hwf as [W1 W2 W3 W4 W5 W6]. pose proof W5 as Hb. rewrite Forall_forall in Hb.
  split; simpl; rewrite ?Hpp.
  - unfold lenZ in *. by rewrite length_insert.
  - constructor; [|done]. by split.
  - apply Forall_insert; [done|]. apply StronglySorted_app_2.
    + intros e1 e2 H1e H2e. apply list_elem_of_singleton in H2e as ->. unfold seq_lt. simpl.
      apply Hb. rewrite Hp. apply elem_of_app. by left.
    + by apply (Forall_lookup_1 _ _ _ _ W3 Hl).
    + repeat constructor.
  - simpl. apply NoDup_cons. split; [|done]. intros Hin.
    apply list_elem_of_fmap in Hin as (e1 & He1 & Hin). apply Hb in Hin. lia.
  - constructor; [simpl; lia|]. eapply Forall_impl; [exact W5|]. simpl. lia.
  - lia.
Qed.

Lemma drain_front_wf t b t' b' r core : tso_wf t -> core_ok t core ->
  drain_front core (t, b) = ((t', b'), r) ->
  tso_wf t' /\ topology t' = topology t /\ next_sequence t' = next_sequence t.
Proof.
  intros Hwf Hc. unfold drain_front. destruct (buffer t core) as [|e q] eqn:Hb.
  { by intros [=]; subst. }
  destruct (drain_entry b e); intros [=]; subst; [|done].
  split; [|done]. by apply (set_buffer_suffix_wf t core [e] q).
Qed.

Lemma drain_core_bad t b core : topology_contains (topology t) core = false ->
  drain_core core (t, b) = ((t, b), Throw out_of_range).
Proof. intros Hc. unfold drain_core, core_index. munfold_goal. by rewrite Hc. Qed.

(** What every operation but [store] does to the model itself. *)
Definition tso_kept (t t' : X86TsoMemoryModel) : Prop :=
  tso_wf t' /\ topology t' = topology t /\ next_sequence t' = next_sequence t.

Lemma drain_core_wf t b t' b' r core : tso_wf t -> 0 <= core ->
  drain_core core (t, b) = ((t', b'), r) -> tso_kept t t'.
Proof.
  intros Hwf Hc Hd. destruct (topology_contains (topology t) core) eqn:Ht.
  - assert (Hco : core_ok t core) by (split; [done|]; by apply Z.ltb_lt in Ht).
    unfold drain_core in Hd. munfold. rewrite core_index_ok in Hd by done.
    by eapply drain_front_wf.
  - rewrite drain_core_bad in Hd by done. by simplify_eq.
Qed.
Lemma drain_one_wf t b t' b' r : tso_wf t -> drain_one (t, b) = ((t', b'), r) -> tso_kept t t'.
Proof.
  intros Hwf Hd. destruct (drain_one_spec t b Hwf) as [[_ Hd']|(core & e & q & rest & Hc & Hb & _ & _ & _ & Hd')];
    rewrite Hd' in Hd; [by simplify_eq|]. destruct (drain_entry b e); simplify_eq; [|done].
  split; [|done]. by apply (set_buffer_suffix_wf t core [e] q).
Qed.
Lemma while_kept (step : M (X86TsoMemoryModel * B) bool) n t b t' b' r :
  (forall t b t' b' r, tso_wf t -> step (t, b) = ((t', b'), r) -> tso_kept t t') ->
  tso_wf t -> while_M n step (t, b) = ((t', b'), r) -> tso_kept t t'.
Proof.
  intros Hstep Hwf Hw. refine (while_M_invariant (fun s => tso_kept t s.1) step _ n (t, b) (t', b') r _ Hw).
  - intros [t1 b1] [t2 b2] r' (Hwf1 & Ht & Hn) Hs. simpl in *.
    destruct (Hstep _ _ _ _ _ Hwf1 Hs) as (? & ? & ?). split; [done|]. split; congruence.
  - done.
Qed.
Lemma fence_wf t b t' b' r core : tso_wf t -> 0 <= core ->
  fence core (t, b) = ((t', b'), r) -> tso_kept t t'.
Proof. intros Hwf Hc. apply while_kept; [|done]. intros. by eapply drain_core_wf. Qed.
Lemma drain_all_wf t b t' b' r : tso_wf t -> drain_all (t, b) = ((t', b'), r) -> tso_kept t t'.
Proof. intros Hwf. apply while_kept; [|done]. intros. by eapply drain_one_wf. Qed.
Lemma compare_exchange_wf t b t' b' r core a s x y : tso_wf t -> 0 <= core ->
  compare_exchange core a s x y (t, b) = ((t', b'), r) -> tso_kept t t'.
Proof.
  intros Hwf Hc. unfold compare_exchange, require_valid_data_size. munfold_goal.
  destruct (is_data_size_valid s); simpl; [|intros [=]; by subst].
  destruct (fence core (t, b)) as [[t1 b1] [|]] eqn:Ef; apply fence_wf in Ef; try done;
    [|intros [=]; by subst].
  destruct (bus_read b1 a s); [|intros [=]; by subst].
  destruct (_ =? _); [destruct (bus_write _ _ _ _)|]; intros [=]; by subst.
Qed.
Lemma fetch_add_wf t b t' b' r core a s x : tso_wf t -> 0 <= core ->
  fetch_add core a s x (t, b) = ((t', b'), r) -> tso_kept t t'.
Proof.
  intros Hwf Hc. unfold fetch_add, require_valid_data_size. munfold_goal.
  destruct (is_data_size_valid s); simpl; [|intros [=]; by subst].
  destruct (fence core (t, b)) as [[t1 b1] [|]] eqn:Ef; apply fence_wf in Ef; try done;
    [|intros [=]; by subst].
  destruct (bus_read b1 a s); [|intros [=]; by subst].
  destruct (bus_write _ _ _ _); intros [=]; by subst.
Qed.

(** The states of one model over one bus after any sequence of calls, [n] of them stores. *)
Inductive tso_reach (c : CoreTopology) : X86TsoMemoryModel -> B -> Z -> Prop :=
  | reach_new b : tso_reach c (make_tso c) b 0
  | reach_store t b n core a s v t' r : tso_reach c t b n -> u64 core -> u64 a ->
      store core a s v t = (t', r) -> tso_reach c t' b (n + 1)
  | reach_drain_one t b n t' b' r : tso_reach c t b n ->
      drain_one (t, b) = ((t', b'), r) -> tso_reach c t' b' n
  | reach_drain_core t b n core t' b' r : tso_reach c t b n -> u64 core ->
      drain_core core (t, b) = ((t', b'), r) -> tso_reach c t' b' n
  | reach_drain_all t b n t' b' r : tso_reach c t b n ->
      drain_all (t, b) = ((t', b'), r) -> tso_reach c t' b' n
  | reach_fence t b n core t' b' r : tso_reach c t b n -> u64 core ->
      fence core (t, b) = ((t', b'), r) -> tso_reach c t' b' n
  | reach_compare_exchange t b n core a s x y t' b' r : tso_reach c t b n -> u64 core -> u64 a ->
      compare_exchange core a s x y (t, b) = ((t', b'), r) -> tso_reach c t' b' n
  | reach_fetch_add t b n core a s x t' b' r : tso_reach c t b n -> u64 core -> u64 a ->
      fetch_add core a s x (t, b) = ((t', b'), r) -> tso_reach c t' b' n.

Lemma tso_kept_reach t t' c n : tso_kept t t' -> topology t = c -> next_sequence t <= n ->
  tso_wf t' /\ topology t' = c /\ next_sequence t' <= n.
Proof. intros (? & ? & ?) ??. split; [done|]. split; [congruence|lia]. Qed.

Lemma buffer_entries_ok t core : tso_wf t -> core_ok t core -> Forall entry_ok (buffer t core).
Proof.
  intros Hwf Hc. destruct (core_ok_lookup t core Hwf Hc) as [_ Hl]. apply Forall_forall. intros e He.
  pose proof (wf_entries _ Hwf) as He'. rewrite Forall_forall in He'. apply He'.
  apply list_elem_of_In, in_concat. exists (buffer t core). split; apply list_elem_of_In; [|done].
  by eapply list_elem_of_lookup_2.
Qed.

Lemma fence_Ok t b core t1 b1 : tso_wf t -> core_ok t core -> bus_ok b ->
  fence core (t, b) = ((t1, b1), Ok tt) ->
  buffer t1 core = [] /\ bus_ok b1 /\
  forall a s, u64 a -> load t b core a s = bus_read b1 a s.
Proof.
  intros Hwf Hc Hok Hf. rewrite fence_flush in Hf by done.
  destruct (flush_queue (buffer t core) b) as [[q' b2] r] eqn:E. simplify_eq.
  apply flush_queue_Ok in E as [-> Happ]. pose proof (buffer_entries_ok t core Hwf Hc) as He.
  destruct (core_ok_lookup t core Hwf Hc) as [Hlt _].
  split; [by apply buffer_set_buffer_eq|]. split.
  - by apply (apply_stores_bytes _ _ _ Hok He) in Happ as (? & _).
  - intros a s Ha. by apply load_apply_stores.
Qed.

(** The common shape of the locked read-modify-write operations after their fence. *)
Lemma locked_rmw_write b1 a s v b' : bus_ok b1 -> u64 a -> bus_write b1 a s v = Ok b' ->
  bus_read b' a s = Ok (v `mod` 2 ^ (8 * size_bytes s)) /\
  forall a' s', u64 a' -> a + size_bytes s <= a' \/ a' + size_bytes s' <= a ->
    bus_read b' a' s' = bus_read b1 a' s'.
Proof.
  intros Hok [Ha _] Hw. split; [by apply (bus_read_write_same b1)|].
  intros a' s' [Ha' _] Hd. by apply (bus_read_write_disjoint b1 a s v).
Qed.

(** ** Properties *)

(** x86-TSO: whatever a core has pending, its load returns what a load of the shared memory
    would return after its own pending stores, and only those, were written in program order. *)
Theorem tso_load_forwards_own_stores t b core a s t' b' :
  tso_wf t -> core_ok t core -> bus_ok b -> u64 a ->
  fence core (t, b) = ((t', b'), Ok tt) ->
  load t b core a s = bus_read b' a s.
Proof.
  intros Hwf Hc Hok Ha Hf. destruct (fence_Ok t b core t' b' Hwf Hc Hok Hf) as (_ & _ & Hl).
  by apply Hl.
Qed.

(** A fence writes the core's pending stores to memory in program order, leaves every other
    core's buffer as it was, and returns only once the buffer is empty; when a store cannot be
    written it throws, with that store and the ones after it still pending. *)
Theorem tso_fence_drains_in_program_order t b core t' b' r :
  tso_wf t -> core_ok t core -> fence core (t, b) = ((t', b'), r) ->
  (forall c, 0 <= c -> c <> core -> buffer t' c = buffer t c) /\
  exists written, buffer t core = written ++ buffer t' core /\ apply_stores b written = Ok b' /\
    match r with
    | Ok _ => buffer t' core = []
    | Throw ex => exists e q, buffer t' core = e :: q /\ drain_entry b' e = Throw ex
    end.
Proof.
  intros Hwf Hc Hf. rewrite fence_flush in Hf by done.
  destruct (flush_queue (buffer t core) b) as [[q' b1] r1] eqn:E. simplify_eq.
  destruct (core_ok_lookup t core Hwf Hc) as [Hlt _]. split.
  { intros c Hc0 Hne. apply buffer_set_buffer_ne; [apply Hc|done..]. }
  rewrite buffer_set_buffer_eq by done. destruct r as [[]|ex].
  - apply flush_queue_Ok in E as [-> Happ]. exists (buffer t core). by rewrite app_nil_r.
  - apply flush_queue_Throw in E as (p & e & q1 & Hq & -> & Happ & Hd). exists p. eauto 10.
Qed.

(** Draining everything writes the pending stores of all cores to memory in the global order
    in which they were issued and, unless one of them cannot be written, leaves nothing pending. *)
Theorem tso_drain_all_in_issue_order t b t' b' r :
  tso_wf t -> drain_all (t, b) = ((t', b'), r) ->
  exists l, concat (store_buffers t) ≡ₚ l ++ concat (store_buffers t') /\
    StronglySorted seq_lt l /\ apply_stores b l = Ok b' /\ tso_wf t' /\
    match r with
    | Ok _ => pending_store_count t' = 0%nat
    | Throw ex => exists e rest, concat (store_buffers t') ≡ₚ e :: rest /\
        Forall (seq_lt e) rest /\ drain_entry b' e = Throw ex
    end.
Proof.
  intros Hwf Hd. unfold drain_all in Hd. simpl in Hd.
  apply drain_all_loop in Hd as (l & Hp & Hs & Ha & Hwf' & Hr);
    [|done|rewrite pending_store_count_concat; lia].
  exists l. do 4 (split; [done|]). destruct r; [|done].
  by rewrite pending_store_count_concat, Hr.
Qed.


(** A store is seen at once by its own core, truncated to its width, and by no other core. *)
Theorem tso_store_visibility t b core a s v t' :
  tso_wf t -> core_ok t core -> bus_ok b -> u64 a -> a + size_bytes s <= bus_size b ->
  store core a s v t = (t', Ok tt) ->
  load t' b core a s = Ok (v `mod` 2 ^ (8 * size_bytes s)) /\
  forall core' a' s', 0 <= core' -> core' <> core -> load t' b core' a' s' = load t b core' a' s'.
Proof.
  intros Hwf Hc Hok Ha Hle Hst. apply store_inv in Hst as [[_ [=]]|(Hs & _ & _ & ->)].
  destruct (core_ok_lookup t core Hwf Hc) as [Hlt _].
  set (e := mkStore core a s v (next_sequence t)). pose proof (size_bytes_range s).
  pose proof (bus_size_range b Hok).
  set (t' := mkTso _ _ _). assert (Hbuf : buffer t' core = buffer t core ++ [e]).
  { apply (buffer_set_buffer_eq t core (buffer t core ++ [e]) Hlt). }
  split.
  - unfold load, require_valid_data_size. rewrite Hs. munfold_goal. rewrite core_index_ok by done.
    destruct (bus_read_in b a s) as (w & -> & Hw & _); [done|apply Ha|done..|].
    rewrite data_size_to_bytes_valid by done. f_equal.
    assert (Heo : entry_ok e) by done.
    destruct (load_loop_bytes t' core a (size_bytes s) w (Z.to_nat (size_bytes s))) as [Hr Hb];
      [lia|done|lia|rewrite Hbuf; apply Forall_app; split; [by apply buffer_entries_ok|by constructor]|].
    rewrite Z2Nat.id in Hr, Hb by lia. apply (bytes_ext _ _ (size_bytes s)); [lia|done| |].
    { apply Z.mod_pos_bound. apply Z.pow_pos_nonneg; lia. }
    intros k Hk. rewrite Hb, decide_True, byte_of_mod by lia.
    assert (Hak : u64 (a + k)) by (unfold u64 in *; lia).
    rewrite add64_small by (unfold u64 in *; lia). unfold forwarded_byte.
    rewrite Hbuf, rev_app_distr. simpl. rewrite entry_contains_spec by done.
    rewrite bool_decide_true by (simpl; lia). simpl. rewrite entry_byte_at_spec by (simpl; done || lia).
    simpl. f_equal. lia.
  - intros core' a' s' Hc' Hne. unfold load, core_index, forwarded_byte.
    change (topology t') with (topology t).
    assert (Hbuf' : buffer t' core' = buffer t core').
    { exact (buffer_set_buffer_ne t core core' _ (proj1 Hc) Hc' (not_eq_sym Hne)). }
    destruct (require_valid_data_size s'); [|done]. munfold_goal.
    destruct (topology_contains (topology t) core'); [|done]. simpl.
    destruct (bus_read b a' s'); [|done]. by rewrite Hbuf'.
Qed.

(** The locked compare-exchange drains the core's stores, observes the value the core's load
    would have returned, writes the desired value exactly when the two are equal, and changes
    no other byte. *)
Theorem tso_compare_exchange_atomic t b core a s expected desired t' b' observed exchanged :
  tso_wf t -> core_ok t core -> bus_ok b -> u64 a ->
  compare_exchange core a s expected desired (t, b) = ((t', b'), Ok (observed, exchanged)) ->
  buffer t' core = [] /\ load t b core a s = Ok observed /\ exchanged = (observed =? expected) /\
  bus_read b' a s = Ok (if exchanged then desired `mod` 2 ^ (8 * size_bytes s) else observed) /\
  forall a' s', u64 a' -> a + size_bytes s <= a' \/ a' + size_bytes s' <= a ->
    bus_read b' a' s' = load t b core a' s'.
Proof.
  intros Hwf Hc Hok Ha. unfold compare_exchange, require_valid_data_size. munfold_goal.
  destruct (is_data_size_valid s) eqn:Hs; simpl; [|done].
  destruct (fence core (t, b)) as [[t1 b1] [[]|]] eqn:Ef; [|done].
  apply fence_Ok in Ef as (Hb1 & Hok1 & Hl); [|done..].
  destruct (bus_read b1 a s) as [o|] eqn:Hr; [|done].
  destruct (o =? expected) eqn:Heq.
  - destruct (bus_write b1 a s desired) as [b2|] eqn:Hw; [|done]. intros [=]; subst.
    apply (locked_rmw_write b1) in Hw as [Hsame Hother]; [|done..].
    split; [done|]. split; [by rewrite Hl|]. split; [done|]. split; [done|].
    intros. by rewrite Hother, Hl.
  - intros [=]; subst. split; [done|]. split; [by rewrite Hl|]. split; [done|]. split; [done|].
    intros. by rewrite Hl.
Qed.

(** The locked fetch-and-add drains the core's stores, returns the value the core's load would
    have returned, and writes the sum truncated to the access width.  The returned new value is the
    sum modulo 2^64: it is what memory holds exactly when the sum fits the width. *)
Theorem tso_fetch_add_atomic t b core a s addend t' b' old new :
  tso_wf t -> core_ok t core -> bus_ok b -> u64 a ->
  fetch_add core a s addend (t, b) = ((t', b'), Ok (old, new)) ->
  buffer t' core = [] /\ load t b core a s = Ok old /\ new = add64 old addend /\
  bus_read b' a s = Ok ((old + addend) `mod` 2 ^ (8 * size_bytes s)) /\
  (bus_read b' a s = Ok new <-> new < 2 ^ (8 * size_bytes s)) /\
  forall a' s', u64 a' -> a + size_bytes s <= a' \/ a' + size_bytes s' <= a ->
    bus_read b' a' s' = load t b core a' s'.
Proof.
  intros Hwf Hc Hok Ha. unfold fetch_add, require_valid_data_size. munfold_goal.
  destruct (is_data_size_valid s) eqn:Hs; simpl; [|done].
  destruct (fence core (t, b)) as [[t1 b1] [[]|]] eqn:Ef; [|done].
  apply fence_Ok in Ef as (Hb1 & Hok1 & Hl); [|done..].
  destruct (bus_read b1 a s) as [o|] eqn:Hr; [|done].
  destruct (bus_write b1 a s (add64 o addend)) as [b2|] eqn:Hw; [|done]. intros [=]; subst.
  apply (locked_rmw_write b1) in Hw as [Hsame Hother]; [|done..].
  split; [done|]. split; [by rewrite Hl|]. split; [done|].
  assert (Hm : add64 old addend `mod` 2 ^ (8 * size_bytes s) =
    (old + addend) `mod` 2 ^ (8 * size_bytes s)).
  { unfold add64, wrap64. rewrite W64_pow. apply Z.mod_mod_divide.
    destruct s; try done; [exists (2^56)|exists (2^48)|exists (2^32)]; done. }
  split; [by rewrite Hsame, Hm|]. pose proof (size_bytes_range s).
  assert (0 < 2 ^ (8 * size_bytes s)) by (apply Z.pow_pos_nonneg; lia). split.
  - rewrite Hsame. split.
    + intros [= <-]. by apply Z.mod_pos_bound.
    + intros Hlt. f_equal. apply Z.mod_small. split; [apply add64_range|done].
  - intros. by rewrite Hother, Hl.
Qed.
End tso_facts.
(** ** Witnesses *)

(** Two cores with overlapping pending stores over sixteen zero bytes. *)
Definition demo : X86TsoMemoryModel :=
  mkTso (mkTopology 2)
    [[mkStore 0 4 Size.DWORD 0xAABBCCDD 0; mkStore 0 5 Size.BYTE 0x77 2];
     [mkStore 1 4 Size.BYTE 1 1]] 3.
Definition demo_memory : PhysicalMemory := make_memory 16.

Lemma demo_wf : tso_wf demo.
Proof.
  split.
  - reflexivity.
  - repeat constructor; done.
  - repeat constructor; done.
  - apply (bool_decide_unpack _). by vm_compute.
  - repeat constructor; simpl; lia.
  - simpl. lia.
Qed.
Lemma demo_memory_ok : bus_ok demo_memory.
Proof. split; [by repeat constructor|reflexivity]. Qed.
Lemma demo_core (core : Z) : 0 <= core < 2 -> core_ok demo core.
Proof. done. Qed.

Lemma tso_load_forwards_own_stores_witness :
  exists t' b', fence 0 (demo, demo_memory) = ((t', b'), Ok tt) /\
  load demo demo_memory 0 4 Size.WORD = Ok 0x77DD /\
  load demo demo_memory 0 4 Size.WORD = bus_read b' 4 Size.WORD.
Proof.
  do 2 eexists. split; [reflexivity|]. split; [reflexivity|].
  exact (tso_load_forwards_own_stores demo demo_memory 0 4 Size.WORD _ _ demo_wf
    (demo_core 0 ltac:(lia)) demo_memory_ok ltac:(split; lia) eq_refl).
Defined.

Lemma tso_fence_drains_in_program_order_witness :
  exists t' b', fence 0 (demo, demo_memory) = ((t', b'), Ok tt) /\
  buffer t' 1 = buffer demo 1 /\ buffer t' 0 = [].
Proof.
  do 2 eexists. split; [reflexivity|].
  edestruct (tso_fence_drains_in_program_order demo demo_memory 0) as (Hc & _);
    [exact demo_wf|by apply demo_core|reflexivity|]. split; [apply Hc; lia|reflexivity].
Defined.

Lemma tso_drain_all_in_issue_order_witness :
  exists t' b', drain_all (demo, demo_memory) = ((t', b'), Ok tt) /\
  (exists l, concat (store_buffers demo) ≡ₚ l ++ concat (store_buffers t') /\
    StronglySorted seq_lt l /\ apply_stores demo_memory l = Ok b') /\
  bus_read b' 4 Size.DWORD = Ok 0xAABB7701.
Proof.
  do 2 eexists. split; [reflexivity|]. split; [|reflexivity].
  edestruct (tso_drain_all_in_issue_order demo demo_memory) as (l & Hp & Hs & Ha & _);
    [exact demo_wf|reflexivity|]. by exists l.
Defined.


Lemma tso_store_visibility_witness :
  exists t', store 0 6 Size.WORD 0x12345 demo = (t', Ok tt) /\
  load t' demo_memory 0 6 Size.WORD = Ok 0x2345 /\
  load t' demo_memory 1 6 Size.WORD = Ok 0.
Proof.
  eexists. split; [cbv; reflexivity|].
  destruct (tso_store_visibility demo demo_memory 0 6 Size.WORD 0x12345 _ demo_wf
    (demo_core 0 ltac:(lia)) demo_memory_ok ltac:(split; lia) ltac:(by vm_compute) eq_refl)
    as [H1 H2].
  split; [exact H1|]. etransitivity; [apply H2; lia|reflexivity].
Defined.

Lemma tso_compare_exchange_atomic_witness :
  exists t' b', compare_exchange 0 4 Size.WORD 0x77DD 5 (demo, demo_memory) =
    ((t', b'), Ok (0x77DD, true)) /\
  load demo demo_memory 0 4 Size.WORD = Ok 0x77DD /\ bus_read b' 4 Size.WORD = Ok 5.
Proof.
  do 2 eexists. split; [cbv; reflexivity|].
  destruct (tso_compare_exchange_atomic demo demo_memory 0 4 Size.WORD 0x77DD 5 _ _ _ _ demo_wf
    (demo_core 0 ltac:(lia)) demo_memory_ok ltac:(split; lia) eq_refl) as (_ & H1 & _ & H2 & _).
  split; [exact H1|exact H2].
Defined.

(** The returned new value 0x14D does not fit the byte that was added to, which now holds 0x4D. *)
Lemma tso_fetch_add_atomic_witness :
  exists t' b', fetch_add 0 4 Size.BYTE 0x70 (demo, demo_memory) = ((t', b'), Ok (0xDD, 0x14D)) /\
  bus_read b' 4 Size.BYTE = Ok 0x4D.
Proof.
  do 2 eexists. split; [cbv; reflexivity|].
  destruct (tso_fetch_add_atomic demo demo_memory 0 4 Size.BYTE 0x70 _ _ _ _ demo_wf
    (demo_core 0 ltac:(lia)) demo_memory_ok ltac:(split; lia) eq_refl) as (_ & _ & _ & H2 & _).
  exact H2.
Defined.
