(* ===== verification/Paging.v ===== *)
(** * Paging data types

    Models src/cpu/memory/paging.cpp and src/cpu/system/privilege.cpp: table levels and page
    sizes, page-table entries and their bits, permissions, the paging registers, translations and
    page-fault error codes; then the arithmetic facts about them the walker and the builder use. *)

From S2P Require Import Prelude Common.

(** ** Privilege levels *)

Module Ring.
(* [include/mnos/cpu/system/privilege.hpp] [PrivilegeLevel] *)
Inductive PrivilegeLevel : Set := RING0 | RING1 | RING2 | RING3 | COUNT.
End Ring.
Abbreviation PrivilegeLevel := Ring.PrivilegeLevel.
#[export] Instance PrivilegeLevel_eq_dec : EqDecision PrivilegeLevel.
Proof. solve_decision. Defined.

(* [src/cpu/system/privilege.cpp] [privilege_level_to_index] *)
Definition privilege_level_to_index (p : PrivilegeLevel) : Z :=
  match p with
  | Ring.RING0 => 0 | Ring.RING1 => 1 | Ring.RING2 => 2 | Ring.RING3 => 3 | Ring.COUNT => 4
  end.
(* [src/cpu/system/privilege.cpp] [is_privilege_level_valid] *)
Definition is_privilege_level_valid (p : PrivilegeLevel) : bool :=
  privilege_level_to_index p <? 4.
(* [src/cpu/system/privilege.cpp] [privilege_level_to_ring] *)
Definition privilege_level_to_ring (p : PrivilegeLevel) : res Z :=
  match p with
  | Ring.RING0 => Ok 0 | Ring.RING1 => Ok 1 | Ring.RING2 => Ok 2 | Ring.RING3 => Ok 3
  | Ring.COUNT => Throw out_of_range
  end.
(* [src/cpu/system/privilege.cpp] [is_more_privileged] *)
Definition is_more_privileged (target current : PrivilegeLevel) : bool :=
  privilege_level_to_index target <? privilege_level_to_index current.

(** ** Constants *)

Definition PAGE_SIZE_4K_BYTES : Z := Z.shiftl 1 12.
Definition PAGE_SIZE_2M_BYTES : Z := Z.shiftl 1 21.
Definition PAGE_SIZE_1G_BYTES : Z := Z.shiftl 1 30.
Definition PAGE_TABLE_ENTRY_COUNT : Z := 512.
Definition PAGE_TABLE_ENTRY_BYTES : Z := 8.
Definition PAGE_TABLE_INDEX_MASK : Z := 0x1FF.
Definition PRESENT_BIT : Z := Z.shiftl 1 0.
Definition WRITABLE_BIT : Z := Z.shiftl 1 1.
Definition USER_BIT : Z := Z.shiftl 1 2.
Definition ACCESSED_BIT : Z := Z.shiftl 1 5.
Definition DIRTY_BIT : Z := Z.shiftl 1 6.
Definition HUGE_PAGE_BIT : Z := Z.shiftl 1 7.
Definition NO_EXECUTE_BIT : Z := Z.shiftl 1 63.
Definition ADDRESS_MASK_4K : Z := 0x000FFFFFFFFFF000.
Definition RESERVED_HIGH_MASK : Z := 0x7FF0000000000000.
Definition PROCESS_CONTEXT_ID_MAX_VALUE : Z := 4095.

Definition CANONICAL_SIGN_BIT : Z := Z.shiftl 1 47.
Definition CANONICAL_HIGH_MASK : Z := 0xFFFF000000000000.

(** ** Levels *)

Module Level.
(* [include/mnos/cpu/memory/paging.hpp] [PageTableLevel] *)
Inductive PageTableLevel : Set := PT | PD | PDPT | PML4 | COUNT.
End Level.
Abbreviation PageTableLevel := Level.PageTableLevel.
#[export] Instance PageTableLevel_eq_dec : EqDecision PageTableLevel.
Proof. solve_decision. Defined.

(* [src/cpu/memory/paging.cpp] [page_table_level_shift] *)
Definition page_table_level_shift (l : PageTableLevel) : res Z :=
  match l with
  | Level.PT => Ok 12 | Level.PD => Ok 21 | Level.PDPT => Ok 30 | Level.PML4 => Ok 39
  | Level.COUNT => Throw out_of_range
  end.

(* [src/cpu/memory/paging.cpp] [page_size_for_leaf_level] *)
Definition page_size_for_leaf_level (l : PageTableLevel) : res Z :=
  match l with
  | Level.PT => Ok PAGE_SIZE_4K_BYTES
  | Level.PD => Ok PAGE_SIZE_2M_BYTES
  | Level.PDPT => Ok PAGE_SIZE_1G_BYTES
  | Level.PML4 => Throw logic_error
  | Level.COUNT => Throw out_of_range
  end.

(* [src/cpu/memory/paging.cpp] [can_page_table_level_be_leaf] *)
Definition can_page_table_level_be_leaf (l : PageTableLevel) : bool :=
  match l with Level.PT | Level.PD | Level.PDPT => true | _ => false end.

(* [src/cpu/memory/paging.cpp] [is_canonical_linear_address] *)
Definition is_canonical_linear_address (address : Z) : bool :=
  let sign_bit_set := negb (Z.land address CANONICAL_SIGN_BIT =? 0) in
  let high_bits := Z.land address CANONICAL_HIGH_MASK in
  if sign_bit_set then high_bits =? CANONICAL_HIGH_MASK else high_bits =? 0.

(* [src/cpu/memory/paging.cpp] [is_aligned_to_page_size] *)
Definition is_aligned_to_page_size (address page_size_bytes : Z) : bool :=
  Z.land address (sub64 page_size_bytes 1) =? 0.

(* [src/cpu/memory/paging.cpp] [require_aligned_address] *)
Definition require_aligned_address (address page_size_bytes : Z) : res unit :=
  throw_when (negb (is_aligned_to_page_size address page_size_bytes)) out_of_range.

(* [src/cpu/memory/paging.cpp] [page_table_index] *)
Definition page_table_index (linear_address : Z) (l : PageTableLevel) : res Z :=
  shift ← page_table_level_shift l;
  Ok (Z.land (Z.shiftr linear_address shift) PAGE_TABLE_INDEX_MASK).

(* [src/cpu/memory/paging.cpp] [page_base] *)
Definition page_base (linear_address page_size_bytes : Z) : Z :=
  Z.land linear_address (not64 (sub64 page_size_bytes 1)).

(* [src/cpu/memory/paging.cpp] [is_process_context_id_valid] *)
Definition is_process_context_id_valid (context_id : Z) : bool :=
  context_id <=? PROCESS_CONTEXT_ID_MAX_VALUE.

(* [src/cpu/memory/paging.cpp] [make_page_fault_error_code] *)
Definition make_page_fault_error_code (kind : MemoryAccessKind) (p : PrivilegeLevel)
    (reason : PageFaultReason) : Z :=
  let e := 0 in
  let e := if decide (reason <> FaultReason.NOT_PRESENT) then Z.lor e (Z.shiftl 1 0) else e in
  let e := if decide (kind = AccessKind.WRITE) then Z.lor e (Z.shiftl 1 1) else e in
  let e := if decide (p = Ring.RING3) then Z.lor e (Z.shiftl 1 2) else e in
  let e := if decide (reason = FaultReason.RESERVED_BIT) then Z.lor e (Z.shiftl 1 3) else e in
  let e := if decide (kind = AccessKind.EXECUTE) then Z.lor e (Z.shiftl 1 4) else e in
  e.

(** ** Permissions and entries *)

(* [include/mnos/cpu/memory/paging.hpp] [PagePermissions] *)
Record PagePermissions : Set := mkPermissions {
  p_writable : bool;
  p_user_accessible : bool;
  p_executable : bool;
}.
#[export] Instance PagePermissions_eq_dec : EqDecision PagePermissions.
Proof. solve_decision. Defined.

(* [src/cpu/memory/paging.cpp] [PagePermissions::kernel_read_write_execute] *)
Definition kernel_read_write_execute : PagePermissions := mkPermissions true false true.
(* [src/cpu/memory/paging.cpp] [PagePermissions::user_read_only_execute] *)
Definition user_read_only_execute : PagePermissions := mkPermissions false true true.
(* [src/cpu/memory/paging.cpp] [PagePermissions::user_read_write_execute] *)
Definition user_read_write_execute : PagePermissions := mkPermissions true true true.
(* [src/cpu/memory/paging.cpp] [PagePermissions::user_read_write_no_execute] *)
Definition user_read_write_no_execute : PagePermissions := mkPermissions true true false.

(* [include/mnos/cpu/memory/paging.hpp] [PageTableEntry] *)
Record PageTableEntry : Set := Entry { raw_bits : Z }.

(* [src/cpu/memory/paging.cpp] [PageTableEntry::is_present] *)
Definition is_present (e : PageTableEntry) : bool := negb (Z.land (raw_bits e) PRESENT_BIT =? 0).
(* [src/cpu/memory/paging.cpp] [PageTableEntry::is_writable] *)
Definition is_writable (e : PageTableEntry) : bool := negb (Z.land (raw_bits e) WRITABLE_BIT =? 0).
(* [src/cpu/memory/paging.cpp] [PageTableEntry::is_user_accessible] *)
Definition is_user_accessible (e : PageTableEntry) : bool := negb (Z.land (raw_bits e) USER_BIT =? 0).
(* [src/cpu/memory/paging.cpp] [PageTableEntry::is_accessed] *)
Definition is_accessed (e : PageTableEntry) : bool := negb (Z.land (raw_bits e) ACCESSED_BIT =? 0).
(* [src/cpu/memory/paging.cpp] [PageTableEntry::is_dirty] *)
Definition is_dirty (e : PageTableEntry) : bool := negb (Z.land (raw_bits e) DIRTY_BIT =? 0).
(* [src/cpu/memory/paging.cpp] [PageTableEntry::is_huge_page] *)
Definition is_huge_page (e : PageTableEntry) : bool := negb (Z.land (raw_bits e) HUGE_PAGE_BIT =? 0).
(* [src/cpu/memory/paging.cpp] [PageTableEntry::is_no_execute] *)
Definition is_no_execute (e : PageTableEntry) : bool := negb (Z.land (raw_bits e) NO_EXECUTE_BIT =? 0).
(* [src/cpu/memory/paging.cpp] [PageTableEntry::has_reserved_high_bits] *)
Definition has_reserved_high_bits (e : PageTableEntry) : bool :=
  negb (Z.land (raw_bits e) RESERVED_HIGH_MASK =? 0).
(* [src/cpu/memory/paging.cpp] [PageTableEntry::table_address] *)
Definition table_address (e : PageTableEntry) : Z := Z.land (raw_bits e) ADDRESS_MASK_4K.
(* [src/cpu/memory/paging.cpp] [PageTableEntry::frame_address] *)
Definition frame_address (e : PageTableEntry) (page_size_bytes : Z) : Z :=
  let frame_mask := Z.land ADDRESS_MASK_4K (not64 (sub64 page_size_bytes 1)) in
  Z.land (raw_bits e) frame_mask.

(* [src/cpu/memory/paging.cpp] [PageTableEntry::with_accessed] *)
Definition with_accessed (e : PageTableEntry) : PageTableEntry :=
  Entry (Z.lor (raw_bits e) ACCESSED_BIT).
(* [src/cpu/memory/paging.cpp] [PageTableEntry::with_dirty] *)
Definition with_dirty (e : PageTableEntry) : PageTableEntry :=
  Entry (Z.lor (Z.lor (raw_bits e) ACCESSED_BIT) DIRTY_BIT).

(* [src/cpu/memory/paging.cpp] [PageTableEntry::with_permissions] *)
Definition with_permissions (e : PageTableEntry) (p : PagePermissions) : PageTableEntry :=
  let b := 0 in
  let b := if p_writable p then Z.lor b WRITABLE_BIT else b in
  let b := if p_user_accessible p then Z.lor b USER_BIT else b in
  let b := if negb (p_executable p) then Z.lor b NO_EXECUTE_BIT else b in
  Entry (Z.lor (Z.land (raw_bits e)
    (not64 (Z.lor (Z.lor WRITABLE_BIT USER_BIT) NO_EXECUTE_BIT))) b).

(* [src/cpu/memory/paging.cpp] [PageTableEntry::permission_bits] *)
Definition permission_bits (p : PagePermissions) : Z :=
  let b := PRESENT_BIT in
  let b := if p_writable p then Z.lor b WRITABLE_BIT else b in
  let b := if p_user_accessible p then Z.lor b USER_BIT else b in
  let b := if negb (p_executable p) then Z.lor b NO_EXECUTE_BIT else b in
  b.

(* [src/cpu/memory/paging.cpp] [PageTableEntry::present_entry] *)
Definition present_entry (address alignment : Z) (p : PagePermissions) : res PageTableEntry :=
  _ ← require_aligned_address address alignment;
  Ok (Entry (Z.lor (Z.land address ADDRESS_MASK_4K) (permission_bits p))).

(* [src/cpu/memory/paging.cpp] [PageTableEntry::table] *)
Definition table (table_address : Z) (p : PagePermissions) : res PageTableEntry :=
  present_entry table_address PAGE_SIZE_4K_BYTES p.
(* [src/cpu/memory/paging.cpp] [PageTableEntry::page_4k] *)
Definition page_4k (frame_address : Z) (p : PagePermissions) : res PageTableEntry :=
  present_entry frame_address PAGE_SIZE_4K_BYTES p.
(* [src/cpu/memory/paging.cpp] [PageTableEntry::page_2m] *)
Definition page_2m (frame_address : Z) (p : PagePermissions) : res PageTableEntry :=
  entry ← present_entry frame_address PAGE_SIZE_2M_BYTES p;
  Ok (Entry (Z.lor (raw_bits entry) HUGE_PAGE_BIT)).
(* [src/cpu/memory/paging.cpp] [PageTableEntry::page_1g] *)
Definition page_1g (frame_address : Z) (p : PagePermissions) : res PageTableEntry :=
  entry ← present_entry frame_address PAGE_SIZE_1G_BYTES p;
  Ok (Entry (Z.lor (raw_bits entry) HUGE_PAGE_BIT)).

(** ** Paging registers *)

Module FlushMode.
(* [include/mnos/cpu/memory/paging.hpp] [Cr3TlbFlushMode] *)
Inductive Cr3TlbFlushMode : Set := FLUSH_CURRENT_CONTEXT | PRESERVE_CONTEXT.
End FlushMode.
Abbreviation Cr3TlbFlushMode := FlushMode.Cr3TlbFlushMode.

(* [include/mnos/cpu/memory/paging.hpp] [PagingState] *)
Record PagingState : Set := mkPaging {
  cr3 : Z;
  page_fault_linear_address : Z;
  generation : Z;
  process_context_id : Z;
  paging_enabled : bool;
  process_context_id_enabled : bool;
  write_protect_enabled : bool;
  execute_disable_enabled : bool;
}.
Definition make_paging_state : PagingState := mkPaging 0 0 0 0 false false true true.

(* [src/cpu/memory/paging.cpp] [PagingState::bump_generation] *)
Definition bump_generation (p : PagingState) : PagingState :=
  mkPaging (cr3 p) (page_fault_linear_address p) (wrap64 (generation p + 1)) (process_context_id p)
    (paging_enabled p) (process_context_id_enabled p) (write_protect_enabled p)
    (execute_disable_enabled p).
Definition set_enabled (b : bool) (p : PagingState) : PagingState :=
  mkPaging (cr3 p) (page_fault_linear_address p) (generation p) (process_context_id p)
    b (process_context_id_enabled p) (write_protect_enabled p) (execute_disable_enabled p).
(* [src/cpu/memory/paging.cpp] [PagingState::enable] *)
Definition enable (p : PagingState) : PagingState := bump_generation (set_enabled true p).
(* [src/cpu/memory/paging.cpp] [PagingState::disable] *)
Definition disable (p : PagingState) : PagingState := bump_generation (set_enabled false p).

(** The flush-mode test of [load_cr3] rejects values outside the enumeration, which the type here
    does not have. *)
(* [src/cpu/memory/paging.cpp] [PagingState::load_cr3 #2] *)
Definition load_cr3 (root_table_address context_id : Z) (mode : Cr3TlbFlushMode)
    (p : PagingState) : res PagingState :=
  if negb (is_aligned_to_page_size root_table_address PAGE_SIZE_4K_BYTES) then Throw out_of_range else
  if negb (is_process_context_id_valid context_id) then Throw out_of_range else
  if negb (process_context_id_enabled p) && negb (context_id =? 0) then Throw logic_error else
  let p' := mkPaging root_table_address (page_fault_linear_address p) (generation p) context_id
    (paging_enabled p) (process_context_id_enabled p) (write_protect_enabled p)
    (execute_disable_enabled p) in
  Ok (match mode with
      | FlushMode.FLUSH_CURRENT_CONTEXT => bump_generation p'
      | FlushMode.PRESERVE_CONTEXT => p'
      end).

(* [src/cpu/memory/paging.cpp] [PagingState::set_process_context_id_enabled] *)
Definition set_process_context_id_enabled (enabled : bool) (p : PagingState) : PagingState :=
  if Bool.eqb (process_context_id_enabled p) enabled then p else
  bump_generation (mkPaging (cr3 p) (page_fault_linear_address p) (generation p)
    (if enabled then process_context_id p else 0) (paging_enabled p) enabled
    (write_protect_enabled p) (execute_disable_enabled p)).
(* [src/cpu/memory/paging.cpp] [PagingState::set_page_fault_linear_address] *)
Definition set_page_fault_linear_address (address : Z) (p : PagingState) : PagingState :=
  mkPaging (cr3 p) address (generation p) (process_context_id p) (paging_enabled p)
    (process_context_id_enabled p) (write_protect_enabled p) (execute_disable_enabled p).
(* [src/cpu/memory/paging.cpp] [PagingState::set_write_protect_enabled] *)
Definition set_write_protect_enabled (enabled : bool) (p : PagingState) : PagingState :=
  bump_generation (mkPaging (cr3 p) (page_fault_linear_address p) (generation p)
    (process_context_id p) (paging_enabled p) (process_context_id_enabled p) enabled
    (execute_disable_enabled p)).
(* [src/cpu/memory/paging.cpp] [PagingState::set_execute_disable_enabled] *)
Definition set_execute_disable_enabled (enabled : bool) (p : PagingState) : PagingState :=
  bump_generation (mkPaging (cr3 p) (page_fault_linear_address p) (generation p)
    (process_context_id p) (paging_enabled p) (process_context_id_enabled p)
    (write_protect_enabled p) enabled).

(** ** Translations *)

(* [include/mnos/cpu/memory/paging.hpp] [PageTranslation] *)
Record PageTranslation : Set := mkTranslation {
  virtual_page_base : Z;
  physical_frame_base : Z;
  page_size_bytes : Z;
  permissions : PagePermissions;
  leaf_entry_address : Z;
  dirty : bool;
}.
#[export] Instance PageTranslation_eq_dec : EqDecision PageTranslation.
Proof. solve_decision. Defined.

(* [src/cpu/memory/paging.cpp] [PageTranslation::set_dirty] *)
Definition set_dirty (d : bool) (t : PageTranslation) : PageTranslation :=
  mkTranslation (virtual_page_base t) (physical_frame_base t) (page_size_bytes t) (permissions t)
    (leaf_entry_address t) d.
(* [src/cpu/memory/paging.cpp] [PageTranslation::contains] *)
Definition translation_contains (t : PageTranslation) (linear_address : Z) : bool :=
  (virtual_page_base t <=? linear_address) &&
  (sub64 linear_address (virtual_page_base t) <? page_size_bytes t).
(* [src/cpu/memory/paging.cpp] [PageTranslation::translate] *)
Definition translation_translate (t : PageTranslation) (linear_address : Z) : Z :=
  add64 (physical_frame_base t) (sub64 linear_address (virtual_page_base t)).

(** ** Bits of an entry *)

Lemma is_present_bit e : is_present e = Z.testbit (raw_bits e) 0.
Proof. by apply land_single_nonzero. Qed.
Lemma is_writable_bit e : is_writable e = Z.testbit (raw_bits e) 1.
Proof. by apply land_single_nonzero. Qed.
Lemma is_user_accessible_bit e : is_user_accessible e = Z.testbit (raw_bits e) 2.
Proof. by apply land_single_nonzero. Qed.
Lemma is_accessed_bit e : is_accessed e = Z.testbit (raw_bits e) 5.
Proof. by apply land_single_nonzero. Qed.
Lemma is_dirty_bit e : is_dirty e = Z.testbit (raw_bits e) 6.
Proof. by apply land_single_nonzero. Qed.
Lemma is_huge_page_bit e : is_huge_page e = Z.testbit (raw_bits e) 7.
Proof. by apply land_single_nonzero. Qed.
Lemma is_no_execute_bit e : is_no_execute e = Z.testbit (raw_bits e) 63.
Proof. by apply land_single_nonzero. Qed.

(** A contiguous mask: ones at positions [lo <= i < lo + n]. *)
Lemma mask_testbit lo n i : 0 <= lo -> 0 <= n -> 0 <= i ->
  Z.testbit (Z.shiftl (Z.ones n) lo) i = bool_decide (lo <= i < lo + n).
Proof.
  intros Hlo Hn Hi. rewrite Z.shiftl_spec by done. destruct (Z_lt_dec i lo).
  - rewrite Z.testbit_neg_r by lia. by rewrite bool_decide_false by lia.
  - rewrite ones_testbit by lia. destruct (Z.ltb_spec (i - lo) n); symmetry;
      [apply bool_decide_true|apply bool_decide_false]; lia.
Qed.
Lemma address_mask_testbit i : 0 <= i ->
  Z.testbit ADDRESS_MASK_4K i = bool_decide (12 <= i < 52).
Proof. change ADDRESS_MASK_4K with (Z.shiftl (Z.ones 40) 12). apply mask_testbit; lia. Qed.
Lemma reserved_mask_testbit i : 0 <= i ->
  Z.testbit RESERVED_HIGH_MASK i = bool_decide (52 <= i < 63).
Proof. change RESERVED_HIGH_MASK with (Z.shiftl (Z.ones 11) 52). apply mask_testbit; lia. Qed.

Lemma has_reserved_high_bits_false e :
  has_reserved_high_bits e = false <-> forall i, 52 <= i < 63 -> Z.testbit (raw_bits e) i = false.
Proof.
  unfold has_reserved_high_bits. rewrite negb_false_iff, Z.eqb_eq. split.
  - intros H0 i Hi. assert (Hb : Z.testbit (Z.land (raw_bits e) RESERVED_HIGH_MASK) i = false)
      by (rewrite H0; apply Z.bits_0).
    rewrite Z.land_spec, reserved_mask_testbit, bool_decide_true, andb_true_r in Hb by lia. done.
  - intros Hb. apply Z.bits_inj'. intros i Hi.
    rewrite Z.land_spec, reserved_mask_testbit, Z.bits_0 by lia.
    case_bool_decide; [by rewrite Hb|by rewrite andb_false_r].
Qed.

Lemma table_address_testbit e i : 0 <= i ->
  Z.testbit (table_address e) i = bool_decide (12 <= i < 52) && Z.testbit (raw_bits e) i.
Proof. intros. unfold table_address. by rewrite Z.land_spec, address_mask_testbit, andb_comm. Qed.

(** ** Alignment and page bases *)

Lemma page_mask k : 0 <= k < 64 -> sub64 (Z.shiftl 1 k) 1 = Z.ones k.
Proof.
  intros Hk. rewrite Z.ones_equiv, Z.shiftl_1_l. pose proof (Z.pow_pos_nonneg 2 k).
  apply sub64_small; [lia|]. rewrite W64_pow. apply Z.pow_lt_mono_r; lia.
Qed.
Lemma is_aligned_spec a k : 0 <= k < 64 ->
  is_aligned_to_page_size a (Z.shiftl 1 k) = (a `mod` 2 ^ k =? 0).
Proof. intros Hk. unfold is_aligned_to_page_size. by rewrite page_mask, Z.land_ones by lia. Qed.

Lemma page_base_testbit a k i : 0 <= k < 64 -> u64 a -> 0 <= i ->
  Z.testbit (page_base a (Z.shiftl 1 k)) i = (k <=? i) && Z.testbit a i.
Proof.
  intros Hk Ha Hi. unfold page_base. rewrite page_mask by done.
  rewrite Z.land_spec, not64_spec, ones_testbit by lia.
  destruct (Z.ltb_spec i 64).
  - destruct (Z.leb_spec k i), (Z.ltb_spec i k); try lia; simpl; [apply andb_true_r|apply andb_false_r].
  - rewrite (testbit_u64_high a i) by done. by rewrite andb_false_r.
Qed.
Lemma page_base_spec a k : 0 <= k < 64 -> u64 a ->
  page_base a (Z.shiftl 1 k) = a - a `mod` 2 ^ k.
Proof.
  intros Hk Ha. transitivity (Z.shiftl (Z.shiftr a k) k).
  - apply Z.bits_inj'. intros i Hi. rewrite page_base_testbit by done.
    rewrite Z.shiftl_spec by done. destruct (Z.leb_spec k i); simpl.
    + rewrite Z.shiftr_spec by lia. f_equal. lia.
    + by rewrite Z.testbit_neg_r by lia.
  - rewrite Z.shiftl_mul_pow2, Z.shiftr_div_pow2 by lia.
    pose proof (Z.div_mod a (2 ^ k)). pose proof (Z.pow_pos_nonneg 2 k). lia.
Qed.

Definition level_shift (l : PageTableLevel) : Z :=
  match l with
  | Level.PT => 12 | Level.PD => 21 | Level.PDPT => 30 | Level.PML4 => 39 | Level.COUNT => 48
  end.
Definition level_index (a : Z) (l : PageTableLevel) : Z := (a / 2 ^ level_shift l) `mod` 512.
Lemma level_index_range a l : 0 <= level_index a l < 512.
Proof. apply Z.mod_pos_bound. lia. Qed.

Lemma page_table_index_spec a l : l <> Level.COUNT -> page_table_index a l = Ok (level_index a l).
Proof.
  intros Hl. unfold page_table_index, level_index, PAGE_TABLE_INDEX_MASK.
  change 0x1FF with (Z.ones 9). change 512 with (2 ^ 9).
  destruct l; try done; simpl; munfold_goal; by rewrite Z.shiftr_div_pow2, Z.land_ones by lia.
Qed.

(** Canonical addresses are the low and the high half of the 48-bit space, sign extended. *)
Lemma is_canonical_spec a : u64 a ->
  is_canonical_linear_address a = bool_decide (a < 2 ^ 47 \/ W64 - 2 ^ 47 <= a).
Proof.
  intros [Ha0 Ha]. unfold is_canonical_linear_address, CANONICAL_SIGN_BIT.
  rewrite land_single_nonzero by lia.
  assert (Hhigh : Z.land a CANONICAL_HIGH_MASK = a - a `mod` 2 ^ 48).
  { rewrite <- (page_base_spec a 48) by (unfold u64; lia). reflexivity. }
  rewrite Hhigh. rewrite (Z.testbit_eqb a 47) by lia.
  pose proof (Z.div_mod a (2 ^ 47)). pose proof (Z.mod_pos_bound a (2 ^ 47)).
  pose proof (Z.div_mod a (2 ^ 48)). pose proof (Z.mod_pos_bound a (2 ^ 48)).
  pose proof (Z.div_mod (a / 2 ^ 47) 2). pose proof (Z.mod_pos_bound (a / 2 ^ 47) 2).
  assert (a / 2 ^ 47 / 2 = a / 2 ^ 48) as Hdd by (rewrite Z.div_div by lia; done).
  unfold CANONICAL_HIGH_MASK. destruct (Z.eqb_spec ((a / 2 ^ 47) `mod` 2) 1).
  - destruct (Z.eqb_spec (a - a `mod` 2 ^ 48) 18446462598732840960); symmetry;
      [apply bool_decide_true|apply bool_decide_false]; lia.
  - destruct (Z.eqb_spec (a - a `mod` 2 ^ 48) 0); symmetry;
      [apply bool_decide_true|apply bool_decide_false]; lia.
Qed.

(** ** Entries made by the constructors *)

Lemma permission_bits_testbit p i : 0 <= i -> Z.testbit (permission_bits p) i =
  bool_decide (i = 0) || (p_writable p && bool_decide (i = 1)) ||
  (p_user_accessible p && bool_decide (i = 2)) || (negb (p_executable p) && bool_decide (i = 63)).
Proof.
  intros Hi. unfold permission_bits, PRESENT_BIT, WRITABLE_BIT, USER_BIT, NO_EXECUTE_BIT.
  destruct (p_writable p), (p_user_accessible p), (p_executable p); simpl negb; cbv iota;
    rewrite ?Z.lor_spec, !testbit_single by lia; simpl;
    by rewrite ?orb_false_r, ?orb_assoc.
Qed.

Lemma present_entry_inv a k p e : 0 <= k < 64 ->
  present_entry a (Z.shiftl 1 k) p = Ok e ->
  a `mod` 2 ^ k = 0 /\ raw_bits e = Z.lor (Z.land a ADDRESS_MASK_4K) (permission_bits p).
Proof.
  intros Hk. unfold present_entry, require_aligned_address. rewrite is_aligned_spec by done.
  munfold_goal. destruct (Z.eqb_spec (a `mod` 2 ^ k) 0); simpl; [|done]. intros [= <-]. done.
Qed.

Lemma present_bits a p i : 0 <= i ->
  Z.testbit (Z.lor (Z.land a ADDRESS_MASK_4K) (permission_bits p)) i =
  (bool_decide (12 <= i < 52) && Z.testbit a i) || Z.testbit (permission_bits p) i.
Proof. intros. by rewrite Z.lor_spec, Z.land_spec, address_mask_testbit, andb_comm. Qed.
