(* ===== verification/PageTable.v ===== *)
(** * Page-table walker and builder

    Models src/cpu/memory/page_table_walker.cpp and page_table_builder.cpp over any memory bus,
    and shows that the two agree: the walker finds exactly the mappings the builder made. *)

From S2P Require Import Prelude Common PhysicalMemory MemoryBus Paging.

(** ** Operations *)

(* [src/cpu/memory/page_table_walker.cpp] [EffectivePermissions] *)
Record EffectivePermissions : Set := mkEffective {
  e_writable : bool;
  e_user_accessible : bool;
  e_executable : bool;
}.
Definition all_permissions : EffectivePermissions := mkEffective true true true.
(* [src/cpu/memory/page_table_walker.cpp] [EffectivePermissions::apply] [17-22] *)
Definition apply_entry (p : EffectivePermissions) (e : PageTableEntry) : EffectivePermissions :=
  mkEffective (e_writable p && is_writable e) (e_user_accessible p && is_user_accessible e)
    (e_executable p && negb (is_no_execute e)).

(* [src/cpu/memory/page_table_walker.cpp] [make_page_fault] *)
Definition make_page_fault (linear_address : Z) (kind : MemoryAccessKind) (p : PrivilegeLevel)
    (reason : PageFaultReason) : exn :=
  page_fault (mkPageFault linear_address kind reason (make_page_fault_error_code kind p reason)).

(* [src/cpu/memory/page_table_walker.cpp] [is_user_access] *)
Definition is_user_access (p : PrivilegeLevel) : bool := bool_decide (p = Ring.RING3).
(* [src/cpu/memory/page_table_walker.cpp] [is_write_allowed_for_read_only_page] *)
Definition is_write_allowed_for_read_only_page (ps : PagingState) (p : PrivilegeLevel) : bool :=
  negb (bool_decide (p = Ring.RING3)) && negb (write_protect_enabled ps).

(* [src/cpu/memory/page_table_walker.cpp] [enforce_permissions] *)
Definition enforce_permissions (ps : PagingState) (perms : EffectivePermissions)
    (linear_address : Z) (kind : MemoryAccessKind) (p : PrivilegeLevel) : res unit :=
  if is_user_access p && negb (e_user_accessible perms) then
    Throw (make_page_fault linear_address kind p FaultReason.USER_SUPERVISOR)
  else if bool_decide (kind = AccessKind.WRITE) && negb (e_writable perms) &&
          negb (is_write_allowed_for_read_only_page ps p) then
    Throw (make_page_fault linear_address kind p FaultReason.WRITE_PROTECTION)
  else if bool_decide (kind = AccessKind.EXECUTE) && negb (e_executable perms) then
    Throw (make_page_fault linear_address kind p FaultReason.EXECUTE_DISABLE)
  else Ok tt.

(* [src/cpu/memory/page_table_walker.cpp] [is_large_leaf_entry] *)
Definition is_large_leaf_entry (e : PageTableEntry) (l : PageTableLevel) : bool :=
  (bool_decide (l = Level.PD) || bool_decide (l = Level.PDPT)) && is_huge_page e.
(* [src/cpu/memory/page_table_walker.cpp] [is_leaf_entry] *)
Definition is_leaf_entry (e : PageTableEntry) (l : PageTableLevel) : bool :=
  bool_decide (l = Level.PT) || is_large_leaf_entry e l.

(* [src/cpu/memory/page_table_walker.cpp] [validate_reserved_bits] *)
Definition validate_reserved_bits (ps : PagingState) (e : PageTableEntry) (l : PageTableLevel)
    (linear_address : Z) (kind : MemoryAccessKind) (p : PrivilegeLevel) : res unit :=
  let huge_bit_is_reserved := bool_decide (l = Level.PML4) in
  if has_reserved_high_bits e || (negb (execute_disable_enabled ps) && is_no_execute e) ||
     (huge_bit_is_reserved && is_huge_page e) then
    Throw (make_page_fault linear_address kind p FaultReason.RESERVED_BIT)
  else if is_large_leaf_entry e l then
    page_size ← page_size_for_leaf_level l;
    if negb (Z.land (table_address e) (sub64 page_size 1) =? 0) then
      Throw (make_page_fault linear_address kind p FaultReason.RESERVED_BIT)
    else Ok tt
  else Ok tt.

(* [src/cpu/memory/page_table_walker.cpp] [entry_address_for_index] *)
Definition entry_address_for_index (table_address entry_index : Z) : Z :=
  add64 table_address (mul64 entry_index PAGE_TABLE_ENTRY_BYTES).

Section page_table.
Context {B : Type} `{MemoryBus B}.

(* [src/cpu/memory/page_table_walker.cpp] [read_page_table_entry] *)
Definition read_entry (b : B) (entry_address : Z) : res PageTableEntry :=
  v ← bus_read b entry_address Size.QWORD; Ok (Entry v).

Definition bus_write_M (a : Z) (s : DataSize) (v : Z) : M B unit :=
  lift (fun b => bus_write b a s v) ≫= fun b' => put b'.

(* [src/cpu/memory/page_table_walker.cpp] [write_page_table_entry_if_changed] *)
Definition write_page_table_entry_if_changed (entry_address : Z)
    (original updated : PageTableEntry) : M B unit :=
  if negb (raw_bits updated =? raw_bits original) then
    bus_write_M entry_address Size.QWORD (raw_bits updated)
  else mret tt.

(* [src/cpu/memory/page_table_walker.cpp] [mark_accessed_dirty] *)
Definition mark_accessed_dirty (entry_address : Z) (entry : PageTableEntry) (leaf : bool)
    (kind : MemoryAccessKind) : M B PageTableEntry :=
  let updated := with_accessed entry in
  let updated := if leaf && bool_decide (kind = AccessKind.WRITE) then with_dirty updated
                 else updated in
  write_page_table_entry_if_changed entry_address entry updated ≫= fun _ =>
  mret updated.

Definition WALK_ORDER : list PageTableLevel := [Level.PML4; Level.PDPT; Level.PD; Level.PT].

(** The loop of [PageTableWalker::translate] over the levels still to visit. *)
(* [src/cpu/memory/page_table_walker.cpp] [PageTableWalker::translate] [208-250] *)
Fixpoint walk (ps : PagingState) (linear_address : Z) (kind : MemoryAccessKind)
    (p : PrivilegeLevel) (levels : list PageTableLevel) (table : Z)
    (perms : EffectivePermissions) : M B PageTranslation :=
  match levels with
  | [] => throw (make_page_fault linear_address kind p FaultReason.NOT_PRESENT)
  | l :: levels' =>
      lift (fun _ => page_table_index linear_address l) ≫= fun entry_index =>
      let entry_address := entry_address_for_index table entry_index in
      lift (fun b => read_entry b entry_address) ≫= fun entry =>
      throw_if (negb (is_present entry))
        (make_page_fault linear_address kind p FaultReason.NOT_PRESENT) ≫= fun _ =>
      lift (fun _ => validate_reserved_bits ps entry l linear_address kind p) ≫= fun _ =>
      let perms := apply_entry perms entry in
      let leaf := is_leaf_entry entry l in
      if leaf then
        lift (fun _ => enforce_permissions ps perms linear_address kind p) ≫= fun _ =>
        mark_accessed_dirty entry_address entry leaf kind ≫= fun updated =>
        lift (fun _ => page_size_for_leaf_level l) ≫= fun page_size =>
        mret (mkTranslation (page_base linear_address page_size)
          (frame_address updated page_size) page_size
          (mkPermissions (e_writable perms) (e_user_accessible perms) (e_executable perms))
          entry_address (is_dirty updated))
      else
        mark_accessed_dirty entry_address entry leaf kind ≫= fun _ =>
        walk ps linear_address kind p levels' (table_address entry) perms
  end.

(* [src/cpu/memory/page_table_walker.cpp] [PageTableWalker::translate] *)
Definition translate (ps : PagingState) (linear_address : Z) (kind : MemoryAccessKind)
    (p : PrivilegeLevel) : M B PageTranslation :=
  throw_if (negb (is_canonical_linear_address linear_address)) out_of_range ≫= fun _ =>
  walk ps linear_address kind p WALK_ORDER (cr3 ps) all_permissions.

(** ** The builder *)

(** The builder without its pointer to the bus, which is threaded separately. *)
(* [include/mnos/cpu/memory/page_table_builder.hpp] [PageTableBuilder] *)
Record PageTableBuilder : Set := mkBuilder {
  root_table_address : Z;
  next_free_table_address : Z;
  table_arena_end_address : Z;
}.
Abbreviation BM := (M (PageTableBuilder * B)).

(* [src/cpu/memory/page_table_builder.cpp] [PageTableBuilder::PageTableBuilder #2] *)
Definition make_builder (root next arena_end : Z) : res PageTableBuilder :=
  _ ← require_aligned_address root PAGE_SIZE_4K_BYTES;
  _ ← require_aligned_address next PAGE_SIZE_4K_BYTES;
  if negb (arena_end =? 0) then
    _ ← require_aligned_address arena_end PAGE_SIZE_4K_BYTES;
    if arena_end <? next then Throw out_of_range else Ok (mkBuilder root next arena_end)
  else Ok (mkBuilder root next arena_end).

Definition on_bus {A} (m : M B A) : BM A := zoom snd (fun b s => (s.1, b)) m.
Definition set_next (next : Z) : BM unit :=
  modify (fun '(t, b) => (mkBuilder (root_table_address t) next (table_arena_end_address t), b)).

(* [src/cpu/memory/page_table_builder.cpp] [PageTableBuilder::clear_table] *)
Definition clear_table (table : Z) : M B unit :=
  for_each (seqZ 0 PAGE_TABLE_ENTRY_COUNT) (fun entry_index =>
    bus_write_M (entry_address_for_index table entry_index) Size.QWORD 0).

(* [src/cpu/memory/page_table_builder.cpp] [PageTableBuilder::clear_root_table] *)
Definition clear_root_table : BM unit := fun s =>
  on_bus (clear_table (root_table_address s.1)) s.

(* [src/cpu/memory/page_table_builder.cpp] [PageTableBuilder::allocate_table] *)
Definition allocate_table : BM Z :=
  gets (fun s => s) ≫= fun '(t, b) =>
  throw_if (negb (bus_contains_range b (next_free_table_address t) PAGE_SIZE_4K_BYTES))
    out_of_range ≫= fun _ =>
  throw_if (negb (table_arena_end_address t =? 0) &&
            (sub64 (table_arena_end_address t) PAGE_SIZE_4K_BYTES <? next_free_table_address t))
    out_of_range ≫= fun _ =>
  let table_address := next_free_table_address t in
  set_next (add64 (next_free_table_address t) PAGE_SIZE_4K_BYTES) ≫= fun _ =>
  on_bus (clear_table table_address) ≫= fun _ =>
  mret table_address.

(* [src/cpu/memory/page_table_builder.cpp] [PageTableBuilder::ensure_child_table] *)
Definition ensure_child_table (table_addr : Z) (l : PageTableLevel) (entry_index : Z) : BM Z :=
  let entry_address := entry_address_for_index table_addr entry_index in
  lift (fun '(_, b) => read_entry b entry_address) ≫= fun existing =>
  if is_present existing then
    throw_if (is_large_leaf_entry existing l) logic_error ≫= fun _ =>
    mret (table_address existing)
  else
    allocate_table ≫= fun child =>
    lift (fun _ => table child user_read_write_execute) ≫= fun e =>
    on_bus (bus_write_M entry_address Size.QWORD (raw_bits e)) ≫= fun _ =>
    mret child.

(* [src/cpu/memory/page_table_builder.cpp] [PageTableBuilder::write_entry] *)
Definition write_entry (table_addr entry_index : Z) (e : PageTableEntry) : BM unit :=
  on_bus (bus_write_M (entry_address_for_index table_addr entry_index) Size.QWORD (raw_bits e)).

(* [src/cpu/memory/page_table_builder.cpp] [PageTableBuilder::write_leaf_entry] *)
Definition write_leaf_entry (table_addr : Z) (l : PageTableLevel) (entry_index : Z)
    (e : PageTableEntry) : BM unit :=
  let entry_address := entry_address_for_index table_addr entry_index in
  lift (fun '(_, b) => read_entry b entry_address) ≫= fun existing =>
  throw_if (is_present existing && negb (is_leaf_entry existing l)) logic_error ≫= fun _ =>
  write_entry table_addr entry_index e.

Definition ensure_child_at (linear_address table_addr : Z) (l : PageTableLevel) : BM Z :=
  lift (fun _ => page_table_index linear_address l) ≫= fun i => ensure_child_table table_addr l i.
Definition write_leaf_at (linear_address table_addr : Z) (l : PageTableLevel)
    (e : res PageTableEntry) : BM unit :=
  lift (fun _ => page_table_index linear_address l) ≫= fun i =>
  lift (fun _ => e) ≫= fun e => write_leaf_entry table_addr l i e.

(* [src/cpu/memory/page_table_builder.cpp] [PageTableBuilder::map_4k] *)
Definition map_4k (linear_address physical_address : Z) (perms : PagePermissions) : BM unit :=
  lift (fun _ => require_aligned_address linear_address PAGE_SIZE_4K_BYTES) ≫= fun _ =>
  lift (fun _ => require_aligned_address physical_address PAGE_SIZE_4K_BYTES) ≫= fun _ =>
  gets (fun s => root_table_address s.1) ≫= fun root =>
  ensure_child_at linear_address root Level.PML4 ≫= fun pdpt_table =>
  ensure_child_at linear_address pdpt_table Level.PDPT ≫= fun pd_table =>
  ensure_child_at linear_address pd_table Level.PD ≫= fun pt_table =>
  write_leaf_at linear_address pt_table Level.PT (page_4k physical_address perms).

(* [src/cpu/memory/page_table_builder.cpp] [PageTableBuilder::map_2m] *)
Definition map_2m (linear_address physical_address : Z) (perms : PagePermissions) : BM unit :=
  lift (fun _ => require_aligned_address linear_address PAGE_SIZE_2M_BYTES) ≫= fun _ =>
  lift (fun _ => require_aligned_address physical_address PAGE_SIZE_2M_BYTES) ≫= fun _ =>
  gets (fun s => root_table_address s.1) ≫= fun root =>
  ensure_child_at linear_address root Level.PML4 ≫= fun pdpt_table =>
  ensure_child_at linear_address pdpt_table Level.PDPT ≫= fun pd_table =>
  write_leaf_at linear_address pd_table Level.PD (page_2m physical_address perms).

(* [src/cpu/memory/page_table_builder.cpp] [PageTableBuilder::map_1g] *)
Definition map_1g (linear_address physical_address : Z) (perms : PagePermissions) : BM unit :=
  lift (fun _ => require_aligned_address linear_address PAGE_SIZE_1G_BYTES) ≫= fun _ =>
  lift (fun _ => require_aligned_address physical_address PAGE_SIZE_1G_BYTES) ≫= fun _ =>
  gets (fun s => root_table_address s.1) ≫= fun root =>
  ensure_child_at linear_address root Level.PML4 ≫= fun pdpt_table =>
  write_leaf_at linear_address pdpt_table Level.PDPT (page_1g physical_address perms).
End page_table.

(** ** Table slots *)

(** The levels below and the part of a linear address that a table or an entry covers. *)
Definition child_level (l : PageTableLevel) : PageTableLevel :=
  match l with
  | Level.PML4 => Level.PDPT | Level.PDPT => Level.PD | Level.PD => Level.PT
  | _ => Level.COUNT
  end.
(** The number of the entry of level [l], among all entries of that level, that covers [a]. *)
Definition entry_key (l : PageTableLevel) (a : Z) : Z := (a `mod` 2 ^ 48) / 2 ^ level_shift l.
(** The number of the table of level [l] that covers [a]. *)
Definition table_key (l : PageTableLevel) (a : Z) : Z := (a `mod` 2 ^ 48) / 2 ^ (level_shift l + 9).

Lemma level_shift_bounds l : 12 <= level_shift l <= 48.
Proof. destruct l; simpl; lia. Qed.
Lemma table_key_root a : table_key Level.PML4 a = 0.
Proof. unfold table_key. simpl. apply Z.div_small. apply Z.mod_pos_bound. lia. Qed.
Lemma table_key_child l a : l <> Level.PT -> l <> Level.COUNT ->
  table_key (child_level l) a = entry_key l a.
Proof. by destruct l. Qed.
Lemma entry_key_split l a : l <> Level.COUNT ->
  entry_key l a = table_key l a * 512 + level_index a l.
Proof.
  intros Hl. unfold entry_key, table_key, level_index.
  assert (Hs : 0 <= level_shift l <= 39) by (destruct l; simpl; (lia || done)).
  rewrite Z.pow_add_r by lia. change (2 ^ 9) with 512.
  assert (0 < 2 ^ level_shift l) by (apply Z.pow_pos_nonneg; lia).
  rewrite <- Z.div_div by lia.
  assert (Hm : (a / 2 ^ level_shift l) `mod` 512 =
    ((a `mod` 2 ^ 48) / 2 ^ level_shift l) `mod` 512).
  { change 512 with (2 ^ 9). apply Z.bits_inj'. intros i Hi.
    destruct (Z_lt_dec i 9).
    - rewrite !Z.mod_pow2_bits_low, !Z.div_pow2_bits by lia.
      rewrite Z.mod_pow2_bits_low by lia. done.
    - rewrite !Z.mod_pow2_bits_high by lia. done. }
  rewrite Hm. pose proof (Z.div_mod ((a `mod` 2 ^ 48) / 2 ^ level_shift l) 512). lia.
Qed.

Section tables.
Context {B : Type} `{MemoryBusLaws B}.
Implicit Types (b : B) (a ta : Z) (l : PageTableLevel) (e : PageTableEntry).

Record table_ok b ta : Prop := {
  tok_nonneg : 0 <= ta;
  tok_aligned : ta `mod` 4096 = 0;
  tok_inside : ta + 4096 <= bus_size b;
}.

(** Entry [i] of the table at [ta]. *)
Definition ent b ta (i : Z) : PageTableEntry :=
  match read_entry b (entry_address_for_index ta i) with Ok e => e | Throw _ => Entry 0 end.

Lemma slot_address b ta i : bus_ok b -> table_ok b ta -> 0 <= i < 512 ->
  entry_address_for_index ta i = ta + 8 * i.
Proof.
  intros Hok [Hn Ha Hi] Hr. pose proof (bus_size_range b Hok).
  unfold entry_address_for_index, mul64, PAGE_TABLE_ENTRY_BYTES.
  rewrite (wrap64_small (i * 8)) by (unfold u64; lia).
  rewrite add64_small by lia. lia.
Qed.
Lemma slot_inj ta i ta' i' : ta `mod` 4096 = 0 -> ta' `mod` 4096 = 0 -> 0 <= i < 512 ->
  0 <= i' < 512 -> ta + 8 * i = ta' + 8 * i' -> ta = ta' /\ i = i'.
Proof. intros Ha Ha' Hi Hi' He. apply Z.mod_divide in Ha as [x ->], Ha' as [y ->]; lia. Qed.

Lemma ent_read b ta i : bus_ok b -> table_ok b ta -> 0 <= i < 512 ->
  read_entry b (entry_address_for_index ta i) = Ok (ent b ta i) /\ u64 (raw_bits (ent b ta i)).
Proof.
  intros Hok Ht Hi. unfold ent. pose proof (slot_address b ta i Hok Ht Hi) as Hs.
  destruct Ht as [Hn Ha Hin]. unfold read_entry. rewrite Hs.
  destruct (bus_read_in b (ta + 8 * i) Size.QWORD) as (v & -> & Hv & _); [done|lia|done|simpl; lia|].
  munfold_goal. split; [done|]. exact Hv.
Qed.

(** Writing one slot changes that slot and nothing else. *)
Lemma ent_write b ta i v : bus_ok b -> table_ok b ta -> 0 <= i < 512 -> u64 v ->
  exists b', bus_write b (entry_address_for_index ta i) Size.QWORD v = Ok b' /\
    bus_ok b' /\ bus_size b' = bus_size b /\
    (forall ta' i', table_ok b ta' -> 0 <= i' < 512 ->
      ent b' ta' i' = if decide (ta' = ta /\ i' = i) then Entry v else ent b ta' i') /\
    (forall x, 0 <= x -> ~ (ta <= x < ta + 4096) -> bus_byte b' x = bus_byte b x).
Proof.
  intros Hok Ht Hi Hv. pose proof (slot_address b ta i Hok Ht Hi) as Hs. rewrite Hs.
  pose proof Ht as [Hn Ha Hin].
  destruct (bus_write_in b (ta + 8 * i) Size.QWORD v) as (b' & Hw & Hok' & Hsz & Hb);
    [done|lia|done|simpl; lia|].
  exists b'. split; [done|]. split; [done|]. split; [done|]. split.
  - intros ta' i' Ht' Hi'. pose proof (slot_address b ta' i' Hok Ht' Hi') as Hs'.
    unfold ent, read_entry. rewrite Hs'. destruct Ht' as [Hn' Ha' Hin'].
    case_decide as Hd.
    + destruct Hd as [-> ->]. rewrite (bus_read_write_same b _ _ v) by (done || lia).
      munfold_goal. f_equal. apply Z.mod_small. exact Hv.
    + rewrite (bus_read_write_disjoint b (ta + 8 * i) Size.QWORD v b'); [done|done|lia|lia|done|].
      simpl size_bytes. assert (ta' + 8 * i' <> ta + 8 * i).
      { intros Heq. apply Hd. by apply slot_inj in Heq. }
      apply Z.mod_divide in Ha as [x ->]; [|lia]. apply Z.mod_divide in Ha' as [y ->]; lia.
  - intros x Hx Hout. rewrite Hb by done. simpl size_bytes. rewrite decide_False by lia. done.
Qed.

Lemma table_ok_size b b' ta : bus_size b' = bus_size b -> table_ok b ta -> table_ok b' ta.
Proof. intros Hs []. split; [done..|lia]. Qed.

Lemma bus_write_M_Ok b a s v b' : bus_write b a s v = Ok b' -> bus_write_M a s v b = (b', Ok tt).
Proof. intros Hw. unfold bus_write_M. munfold_goal. by rewrite Hw. Qed.

Lemma clear_table_loop b ta k (m : nat) : bus_ok b -> table_ok b ta -> 0 <= k ->
  k + Z.of_nat m <= 512 ->
  exists b', for_each (seqZ k (Z.of_nat m)) (fun i =>
      bus_write_M (entry_address_for_index ta i) Size.QWORD 0) b = (b', Ok tt) /\
    bus_ok b' /\ bus_size b' = bus_size b /\
    (forall ta' i, table_ok b ta' -> 0 <= i < 512 ->
      ent b' ta' i = if decide (ta' = ta /\ k <= i < k + Z.of_nat m) then Entry 0 else ent b ta' i) /\
    (forall x, 0 <= x -> ~ (ta <= x < ta + 4096) -> bus_byte b' x = bus_byte b x).
Proof.
  revert b k. induction m as [|m IH]; intros b k Hok Ht Hk Hm.
  - exists b. simpl. split; [done|]. split; [done|]. split; [done|]. split; [|done].
    intros ta' i _ _. by rewrite decide_False by lia.
  - rewrite seqZ_cons by lia. replace (Z.pred (Z.of_nat (S m))) with (Z.of_nat m) by lia. simpl.
    destruct (ent_write b ta k 0) as (b1 & Hw & Hok1 & Hsz1 & He1 & Hb1); [done|done|lia|done|].
    destruct (IH b1 (Z.succ k)) as (b2 & Hf & Hok2 & Hsz2 & He2 & Hb2);
      [done|by apply (table_ok_size b)|lia|lia|].
    exists b2. munfold_goal. rewrite (bus_write_M_Ok _ _ _ _ _ Hw). split; [exact Hf|].
    split; [done|]. split; [congruence|]. split.
    + intros ta' i Ht' Hi. rewrite He2 by (done || by apply (table_ok_size b)).
      destruct (decide (ta' = ta /\ k <= i < k + Z.of_nat (S m))) as [[-> Hd]|Hd].
      * case_decide; [done|]. rewrite He1 by done. rewrite decide_True by (split; [done|lia]). done.
      * rewrite decide_False by (intros [-> ?]; apply Hd; split; [done|lia]).
        rewrite He1 by done. rewrite decide_False; [done|]. intros [-> ->]. apply Hd. split; [done|lia].
    + intros x Hx Hout. by rewrite Hb2, Hb1.
Qed.

Lemma clear_table_spec b ta : bus_ok b -> table_ok b ta ->
  exists b', clear_table ta b = (b', Ok tt) /\ bus_ok b' /\ bus_size b' = bus_size b /\
    (forall ta' i, table_ok b ta' -> 0 <= i < 512 ->
      ent b' ta' i = if decide (ta' = ta) then Entry 0 else ent b ta' i) /\
    (forall x, 0 <= x -> ~ (ta <= x < ta + 4096) -> bus_byte b' x = bus_byte b x).
Proof.
  intros Hok Ht. destruct (clear_table_loop b ta 0 512 Hok Ht) as (b' & Hf & Hok' & Hsz & He & Hb);
    [lia|lia|].
  exists b'. split; [exact Hf|]. split; [done|]. split; [done|]. split; [|done].
  intros ta' i Ht' Hi. rewrite He by done. destruct (decide (ta' = ta)) as [->|].
  - by rewrite decide_True by (split; [done|lia]).
  - rewrite decide_False; [done|]. by intros [? _].
Qed.

(** ** The table forest *)

(** [T] records, for every page table in use, its level and the part of the address space it
    covers. *)
Implicit Types (T : gmap Z (PageTableLevel * Z)).

(** Intermediate entries restrict nothing: the permissions of a mapping are those of its leaf. *)
Record directory_ok e : Prop := {
  dir_writable : is_writable e = true;
  dir_user : is_user_accessible e = true;
  dir_executable : is_no_execute e = false;
  dir_reserved : has_reserved_high_bits e = false;
  dir_huge : is_huge_page e = false;
}.

Record tables_wf T (root : Z) b : Prop := {
  twf_bus : bus_ok b;
  twf_root : T !! root = Some (Level.PML4, 0);
  twf_table ta l p : T !! ta = Some (l, p) -> table_ok b ta /\ l <> Level.COUNT;
  twf_entry ta l p i : T !! ta = Some (l, p) -> 0 <= i < 512 ->
    is_present (ent b ta i) = true -> is_leaf_entry (ent b ta i) l = false ->
    T !! table_address (ent b ta i) = Some (child_level l, p * 512 + i) /\
    directory_ok (ent b ta i);
}.

(** The end of the arena the builder may take tables from. *)
Definition arena_limit (t : PageTableBuilder) : Z :=
  if table_arena_end_address t =? 0 then W64 else table_arena_end_address t.

Record arena_wf T (t : PageTableBuilder) : Prop := {
  awf_next : 0 <= next_free_table_address t;
  awf_aligned : next_free_table_address t `mod` 4096 = 0;
  awf_end : u64 (table_arena_end_address t) /\ table_arena_end_address t `mod` 4096 = 0;
  awf_tables ta : is_Some (T !! ta) -> ta < next_free_table_address t \/ arena_limit t <= ta;
}.

(** What the tables from [ta] down say about [a]: the leaf entry, its level and its place. *)
Fixpoint resolve_levels b (levels : list PageTableLevel) ta a
  : option (PageTableLevel * Z * Z * PageTableEntry) :=
  match levels with
  | [] => None
  | l :: levels' =>
      let i := level_index a l in
      let e := ent b ta i in
      if negb (is_present e) then None
      else if is_leaf_entry e l then Some (l, ta, i, e)
      else resolve_levels b levels' (table_address e) a
  end.
Definition levels_from l : list PageTableLevel :=
  match l with
  | Level.PML4 => [Level.PML4; Level.PDPT; Level.PD; Level.PT]
  | Level.PDPT => [Level.PDPT; Level.PD; Level.PT]
  | Level.PD => [Level.PD; Level.PT]
  | Level.PT => [Level.PT]
  | Level.COUNT => []
  end.
Definition resolve b l ta a := resolve_levels b (levels_from l) ta a.

Lemma level_induction (P : PageTableLevel -> Prop) :
  (forall l, l <> Level.COUNT -> (l <> Level.PT -> P (child_level l)) -> P l) ->
  forall l, l <> Level.COUNT -> P l.
Proof.
  intros Hs. assert (Hpt : P Level.PT) by (by apply Hs).
  assert (Hpd : P Level.PD) by (by apply Hs). assert (Hpdpt : P Level.PDPT) by (by apply Hs).
  assert (Hpml4 : P Level.PML4) by (by apply Hs). by intros [].
Qed.

Lemma is_leaf_PT e : is_leaf_entry e Level.PT = true.
Proof. reflexivity. Qed.
Lemma not_leaf_not_PT e l : is_leaf_entry e l = false -> l <> Level.PT.
Proof. by intros Hl ->. Qed.

Lemma resolve_step b l ta a : l <> Level.COUNT -> resolve b l ta a =
  let e := ent b ta (level_index a l) in
  if negb (is_present e) then None
  else if is_leaf_entry e l then Some (l, ta, level_index a l, e)
  else resolve b (child_level l) (table_address e) a.
Proof. by destruct l. Qed.

(** Only the slots on an address's own path, from the starting level down, matter. *)
Lemma resolve_ext_below T root b b' a l0 : tables_wf T root b ->
  (forall ta l, T !! ta = Some (l, table_key l a) -> level_shift l <= level_shift l0 ->
     ent b' ta (level_index a l) = ent b ta (level_index a l)) ->
  forall l, l <> Level.COUNT -> level_shift l <= level_shift l0 ->
  forall ta, T !! ta = Some (l, table_key l a) -> resolve b' l ta a = resolve b l ta a.
Proof.
  intros Hwf He l Hl. revert l Hl. apply (level_induction (fun l => _ -> forall ta, _ -> _)).
  intros l Hl IH Hle0 ta Hta. rewrite !resolve_step, He by done. cbn zeta.
  destruct (is_present (ent b ta (level_index a l))) eqn:Hp; [|done]. simpl.
  destruct (is_leaf_entry (ent b ta (level_index a l)) l) eqn:Hle; [done|].
  pose proof (not_leaf_not_PT _ _ Hle) as Hpt. apply IH; [done|by destruct l; simpl in *; (lia || done)|].
  destruct (twf_entry _ _ _ Hwf ta l _ _ Hta (level_index_range a l) Hp Hle) as [Hc _].
  by rewrite Hc, table_key_child, entry_key_split.
Qed.
Lemma resolve_ext T root b b' a : tables_wf T root b ->
  (forall ta l, T !! ta = Some (l, table_key l a) ->
     ent b' ta (level_index a l) = ent b ta (level_index a l)) ->
  forall l, l <> Level.COUNT -> forall ta, T !! ta = Some (l, table_key l a) ->
  resolve b' l ta a = resolve b l ta a.
Proof.
  intros Hwf He l Hl ta Hta. apply (resolve_ext_below T root b b' a l); try done.
  intros ta' l' Ht' _. by apply He.
Qed.

(** Addresses with the same page number have the same path. *)
Lemma level_index_key l l' a a' : l <> Level.COUNT -> level_shift l <= level_shift l' ->
  l' <> Level.COUNT -> entry_key l a = entry_key l a' ->
  level_index a l' = level_index a' l' /\ table_key l' a = table_key l' a'.
Proof.
  intros Hl Hle Hl' Hk.
  assert (Hd : forall n, level_shift l <= n ->
    (a `mod` 2 ^ 48) / 2 ^ n = (a' `mod` 2 ^ 48) / 2 ^ n).
  { intros n Hn. replace n with (level_shift l + (n - level_shift l)) by lia.
    pose proof (level_shift_bounds l). rewrite Z.pow_add_r by lia.
    assert (0 < 2 ^ level_shift l) by (apply Z.pow_pos_nonneg; lia).
    assert (0 < 2 ^ (n - level_shift l)) by (apply Z.pow_pos_nonneg; lia).
    rewrite <- !Z.div_div by lia. unfold entry_key in Hk. by rewrite Hk. }
  assert (Ht : table_key l' a = table_key l' a') by (apply Hd; lia).
  split; [|done]. assert (He : entry_key l' a = entry_key l' a') by (apply Hd; lia).
  rewrite !entry_key_split in He by done. lia.
Qed.

(** ** Paths *)

(** The table of level [l] on the path of [a] from the root. *)
Inductive path b root a : PageTableLevel -> Z -> Prop :=
  | path_root : path b root a Level.PML4 root
  | path_step l ta : l <> Level.COUNT -> path b root a l ta ->
      is_present (ent b ta (level_index a l)) = true ->
      is_leaf_entry (ent b ta (level_index a l)) l = false ->
      path b root a (child_level l) (table_address (ent b ta (level_index a l))).

Lemma path_resolve b root a l ta : path b root a l ta ->
  resolve b Level.PML4 root a = resolve b l ta a.
Proof.
  induction 1 as [|l ta Hl Hp IH Hpr Hle]; [done|]. rewrite IH, resolve_step by done. cbn zeta.
  by rewrite Hpr, Hle.
Qed.

Lemma path_table T root b a l ta : tables_wf T root b -> path b root a l ta ->
  T !! ta = Some (l, table_key l a).
Proof.
  intros Hwf. induction 1 as [|l ta Hl Hp IH Hpr Hle].
  - rewrite table_key_root. apply (twf_root _ _ _ Hwf).
  - destruct (twf_entry _ _ _ Hwf ta l _ _ IH (level_index_range a l) Hpr Hle) as [-> _].
    rewrite table_key_child, entry_key_split by (done || by eapply not_leaf_not_PT). done.
Qed.

(** A path is kept when no entry above its table changes. *)
Lemma path_ext T root b b' a l ta : tables_wf T root b -> path b root a l ta ->
  (forall l' ta', T !! ta' = Some (l', table_key l' a) -> level_shift l < level_shift l' ->
     ent b' ta' (level_index a l') = ent b ta' (level_index a l')) ->
  path b' root a l ta.
Proof.
  intros Hwf. induction 1 as [|l ta Hl Hp IH Hpr Hle]; intros He; [constructor|].
  assert (Hs : level_shift (child_level l) < level_shift l).
  { pose proof (not_leaf_not_PT _ _ Hle). destruct l; simpl; (lia || done). }
  rewrite <- (He l ta); [|by apply (path_table T root b)|done].
  apply path_step; [done| |by rewrite (He l ta) by (done || by apply (path_table T root b))..].
  apply IH. intros l' ta' Ht' Hlt. apply He; [done|lia].
Qed.

Lemma entry_key_unique l a l' a' : l <> Level.COUNT -> (l, table_key l a) = (l', table_key l' a') ->
  level_index a l = level_index a' l' -> entry_key l a = entry_key l a'.
Proof. intros Hl [= <- Ht] Hi. rewrite !entry_key_split by done. lia. Qed.

(** ** Building *)

Lemma arena_next_fresh T t b : arena_wf T t -> bus_ok b ->
  bus_contains_range b (next_free_table_address t) PAGE_SIZE_4K_BYTES = true ->
  negb (table_arena_end_address t =? 0) &&
    (sub64 (table_arena_end_address t) PAGE_SIZE_4K_BYTES <? next_free_table_address t) = false ->
  let n := next_free_table_address t in
  T !! n = None /\ table_ok b n /\ add64 n PAGE_SIZE_4K_BYTES = n + 4096 /\
  forall p, arena_wf (<[n := p]> T)
    (mkBuilder (root_table_address t) (n + 4096) (table_arena_end_address t)).
Proof.
  intros [Hn Ha [He Hea] Ht] Hok Hc Hend n. fold n in Hn, Ha, Ht, Hc, Hend.
  pose proof (bus_size_range b Hok). apply bus_contains_spec in Hc as [_ Hc]; [|done].
  change PAGE_SIZE_4K_BYTES with 4096 in *.
  assert (Hadd : add64 n 4096 = n + 4096) by (apply add64_small; lia).
  assert (Hlim : n < arena_limit t).
  { unfold arena_limit. destruct (Z.eqb_spec (table_arena_end_address t) 0); [lia|]. simpl in Hend.
    zb. destruct He as [He0 He]. apply Z.mod_divide in Hea as [x Hx]; [|lia].
    rewrite sub64_small in Hend by lia. lia. }
  assert (Hfresh : T !! n = None).
  { apply eq_None_not_Some. intros Hs. apply Ht in Hs. lia. }
  split; [done|]. split; [done|]. split; [done|]. intros p. split; simpl.
  - lia.
  - rewrite Z.add_mod, Ha by lia. done.
  - done.
  - intros ta Hta. apply lookup_insert_is_Some in Hta as [<-|[_ Hta]]; [lia|].
    apply Ht in Hta as [?|?]; [lia|by right].
Qed.

(** The builder moves on within its arena. *)
Definition arena_step (t t' : PageTableBuilder) : Prop :=
  table_arena_end_address t' = table_arena_end_address t /\ next_free_table_address t <= next_free_table_address t' /\
  (0 < table_arena_end_address t -> next_free_table_address t <= table_arena_end_address t ->
   next_free_table_address t' <= table_arena_end_address t).
Lemma arena_step_refl t : arena_step t t.
Proof. unfold arena_step. lia. Qed.
Lemma arena_step_trans t t1 t2 : arena_step t t1 -> arena_step t1 t2 -> arena_step t t2.
Proof. unfold arena_step. intros (E1 & L1 & N1) (E2 & L2 & N2). rewrite E1 in *. split; [done|]. split; [lia|]. intros H3 H4. auto. Qed.

Lemma allocate_table_spec T t b t' b' n : arena_wf T t -> bus_ok b ->
  allocate_table (t, b) = ((t', b'), Ok n) ->
  T !! n = None /\ table_ok b n /\ (forall p, arena_wf (<[n := p]> T) t') /\
  root_table_address t' = root_table_address t /\ bus_ok b' /\ bus_size b' = bus_size b /\
  (forall ta i, table_ok b ta -> 0 <= i < 512 ->
     ent b' ta i = if decide (ta = n) then Entry 0 else ent b ta i) /\
  (forall x, 0 <= x -> ~ (n <= x < n + 4096) -> bus_byte b' x = bus_byte b x) /\
  n = next_free_table_address t /\ next_free_table_address t' = n + 4096 /\ arena_step t t'.
Proof.
  intros Ha Hok. unfold allocate_table, set_next, on_bus. munfold_goal. simpl.
  destruct (bus_contains_range b (next_free_table_address t) PAGE_SIZE_4K_BYTES) eqn:Hc; [|done].
  destruct (negb _ && _) eqn:Hend; [done|]. simpl.
  destruct (arena_next_fresh T t b) as (Hf & Hok1 & Hadd & Harena); [done..|].
  destruct (clear_table_spec b (next_free_table_address t)) as (b1 & Hcl & Hokb & Hsz & He & Hby);
    [done..|].
  rewrite Hcl, Hadd. intros [=]; subst. do 3 (split; [done|]). split; [done|]. split; [done|]. split; [done|].
  split; [done|]. split; [done|]. split; [done|]. split; [done|]. unfold arena_step. cbn [next_free_table_address table_arena_end_address].
  split; [done|]. split; [lia|]. intros Hpos Hle. apply andb_false_iff in Hend as [Hend|Hend]; zb; [lia|].
  destruct (awf_end _ _ Ha) as [[_ Hu] Hal]. apply Z.mod_divide in Hal as [x Hx]; [|lia]. pose proof (awf_next _ _ Ha).
  change PAGE_SIZE_4K_BYTES with 4096 in Hend. rewrite sub64_small in Hend by lia. lia.
Qed.

Lemma table_entry_bits n e : u64 n -> n < 2 ^ 52 -> table n user_read_write_execute = Ok e ->
  is_present e = true /\ directory_ok e /\ table_address e = n /\ u64 (raw_bits e).
Proof.
  intros Hn Hlt He. apply (present_entry_inv n 12) in He as [Ha He]; [|lia].
  assert (Hbit : forall i, 0 <= i -> Z.testbit (raw_bits e) i = (bool_decide (12 <= i < 52) && Z.testbit n i) || bool_decide (i = 0) || bool_decide (i = 1) || bool_decide (i = 2)).
  { intros i Hi. rewrite He, present_bits, permission_bits_testbit by done. simpl.
    by rewrite orb_false_r, !orb_assoc. }
  split; [by rewrite is_present_bit, Hbit|]. split; [split|split].
  - by rewrite is_writable_bit, Hbit.
  - by rewrite is_user_accessible_bit, Hbit.
  - by rewrite is_no_execute_bit, Hbit.
  - apply has_reserved_high_bits_false. intros i Hi. rewrite Hbit by lia.
    by rewrite !bool_decide_false by lia.
  - by rewrite is_huge_page_bit, Hbit.
  - apply Z.bits_inj'. intros i Hi. rewrite table_address_testbit, Hbit by done.
    destruct (decide (12 <= i < 52)).
    + rewrite bool_decide_true by done. simpl. rewrite !bool_decide_false by lia.
      by rewrite !orb_false_r.
    + rewrite bool_decide_false by done. simpl. destruct (Z_lt_dec i 12).
      * rewrite <- (Z.mod_pow2_bits_low n 12) by lia. by rewrite Ha, Z.bits_0.
      * symmetry. apply (testbit_range_high n 52); [destruct Hn; lia|lia].
  - rewrite He. apply u64_lor; [|by vm_compute]. apply u64_land; [done|by vm_compute].
Qed.

(** Building tables keeps the forest, keeps every translation, and only ever adds tables. *)
Record grown T (t : PageTableBuilder) b T' (t' : PageTableBuilder) b' : Prop := {
  gr_tables : tables_wf T' (root_table_address t) b';
  gr_arena : arena_wf T' t';
  gr_root : root_table_address t' = root_table_address t;
  gr_mono : T ⊆ T';
  gr_size : bus_size b' = bus_size b;
  gr_resolve a' : resolve b' Level.PML4 (root_table_address t) a' =
                  resolve b Level.PML4 (root_table_address t) a';
  gr_new ta : is_Some (T' !! ta) -> is_Some (T !! ta) \/
    next_free_table_address t <= ta /\ ta + 4096 <= next_free_table_address t';
  gr_step : arena_step t t';
  gr_bytes x : 0 <= x -> (forall ta, is_Some (T' !! ta) -> ~ (ta <= x < ta + 4096)) -> bus_byte b' x = bus_byte b x;
}.

(** Hanging a cleared table under a slot that was not present changes no translation. *)
Lemma resolve_new_child T root b b' a n c : tables_wf T root b ->
  (forall l ta, T !! ta = Some (l, table_key l a) ->
     ent b' ta (level_index a l) = ent b ta (level_index a l) \/
     (is_present (ent b ta (level_index a l)) = false /\ ent b' ta (level_index a l) = c /\
      is_leaf_entry c l = false)) ->
  table_address c = n -> (forall i, 0 <= i < 512 -> ent b' n i = Entry 0) ->
  forall l, l <> Level.COUNT -> forall ta, T !! ta = Some (l, table_key l a) ->
  resolve b' l ta a = resolve b l ta a.
Proof.
  intros Hwf He Hc Hz l Hl. revert l Hl. apply (level_induction (fun l => forall ta, _ -> _)).
  intros l Hl IH ta Hta. rewrite !resolve_step by done. cbn zeta.
  destruct (He l ta Hta) as [->|(Hp & -> & Hle)].
  - destruct (is_present (ent b ta (level_index a l))) eqn:Hp; [|done]. simpl.
    destruct (is_leaf_entry (ent b ta (level_index a l)) l) eqn:Hle; [done|].
    apply IH; [by eapply not_leaf_not_PT|].
    destruct (twf_entry _ _ _ Hwf ta l _ _ Hta (level_index_range a l) Hp Hle) as [Hc' _].
    rewrite Hc', table_key_child, entry_key_split by (done || by eapply not_leaf_not_PT). done.
  - rewrite Hp, Hle. simpl. destruct (is_present c) eqn:Hpc; [|done]. simpl.
    apply not_leaf_not_PT in Hle. rewrite resolve_step by (by destruct l).
    rewrite Hc, Hz by apply level_index_range. done.
Qed.

Lemma grown_refl T t b : tables_wf T (root_table_address t) b -> arena_wf T t ->
  grown T t b T t b.
Proof. intros. split; try done; (by left || apply arena_step_refl). Qed.

(** The new table's own entries are absent, so adding it keeps the forest well formed. *)
Lemma tables_wf_new_child T t b b1 b' l a ta n e :
  tables_wf T (root_table_address t) b -> l <> Level.COUNT -> l <> Level.PT ->
  T !! ta = Some (l, table_key l a) -> T !! n = None -> table_ok b n -> bus_size b <= 2 ^ 52 ->
  bus_ok b' -> bus_size b1 = bus_size b -> bus_size b' = bus_size b1 ->
  (forall ta' i, table_ok b ta' -> 0 <= i < 512 ->
     ent b1 ta' i = if decide (ta' = n) then Entry 0 else ent b ta' i) ->
  (forall ta' i, table_ok b1 ta' -> 0 <= i < 512 ->
     ent b' ta' i = if decide (ta' = ta /\ i = level_index a l) then e else ent b1 ta' i) ->
  directory_ok e -> table_address e = n ->
  tables_wf (<[n := (child_level l, entry_key l a)]> T) (root_table_address t) b'.
Proof.
  intros Hwf Hl Hpt Hta Hn Hnok Hsz52 Hok' Hs1 Hs' He1 He' Hdir Hadr.
  assert (Hne : ta <> n) by congruence. split.
  - done.
  - rewrite lookup_insert_ne; [apply (twf_root _ _ _ Hwf)|]. intros ->.
    pose proof (twf_root _ _ _ Hwf). congruence.
  - intros ta' l' p'. rewrite lookup_insert_Some. intros [[<- [= <- <-]]|[_ Ht']].
    + split; [by apply (table_ok_size b); [congruence|]|by destruct l].
    + destruct (twf_table _ _ _ Hwf _ _ _ Ht'). split; [by apply (table_ok_size b); [congruence|]|done].
  - intros ta' l' p' i Ht' Hi Hp Hle. assert (Htok : table_ok b ta').
    { apply lookup_insert_Some in Ht' as [[<- _]|[_ Ht']]; [done|by apply (twf_table _ _ _ Hwf _ _ _ Ht')]. }
    rewrite He' in Hp, Hle |- * by (done || by apply (table_ok_size b)).
    destruct (decide (ta' = ta /\ i = level_index a l)) as [[-> ->]|Hd].
    + rewrite lookup_insert_ne in Ht' by done. rewrite Hta in Ht'. injection Ht' as <- <-.
      rewrite Hadr, lookup_insert_eq, entry_key_split by done. done.
    + rewrite He1 in Hp, Hle |- * by done. destruct (decide (ta' = n)) as [|Hn']; [done|].
      rewrite lookup_insert_ne in Ht' by done.
      destruct (twf_entry _ _ _ Hwf _ _ _ _ Ht' Hi Hp Hle) as [Hc Hd']. split; [|done].
      rewrite lookup_insert_ne; [done|]. congruence.
Qed.

Lemma ensure_child_spec T t b l a ta t' b' c :
  tables_wf T (root_table_address t) b -> arena_wf T t -> bus_size b <= 2 ^ 52 ->
  l <> Level.COUNT -> l <> Level.PT ->
  path b (root_table_address t) a l ta ->
  ensure_child_at a ta l (t, b) = ((t', b'), Ok c) ->
  exists T', grown T t b T' t' b' /\ path b' (root_table_address t) a (child_level l) c.
Proof.
  intros Hwf Har H52 Hl Hpt Hpath. pose proof (path_table _ _ _ _ _ _ Hwf Hpath) as Hta.
  destruct (twf_table _ _ _ Hwf _ _ _ Hta) as [Htok _]. pose proof (twf_bus _ _ _ Hwf) as Hok.
  unfold ensure_child_at, ensure_child_table. munfold_goal.
  rewrite page_table_index_spec by done. set (i := level_index a l).
  pose proof (level_index_range a l) as Hi. fold i in Hi.
  destruct (ent_read b ta i Hok Htok Hi) as [-> Hu]. destruct (is_present (ent b ta i)) eqn:Hp.
  - destruct (is_large_leaf_entry (ent b ta i) l) eqn:Hlarge; [done|]. intros [=]; subst.
    exists T. split; [by apply grown_refl|]. apply path_step; [done..|].
    unfold is_leaf_entry. fold i. rewrite Hlarge, bool_decide_false by done. done.
  - destruct (allocate_table (t, b)) as [[t1 b1] [n|]] eqn:Hal; [|done].
    destruct (allocate_table_spec _ _ _ _ _ _ Har Hok Hal)
      as (Hn & Hnok & Har1 & Hroot & Hok1 & Hs1 & He1 & Hby1 & Hnn & Hnx & Hstep).
    pose proof (bus_size_range b Hok) as Hbs.
    destruct (table n user_read_write_execute) as [e|] eqn:He; [|done].
    destruct (table_entry_bits n e) as (Hep & Hed & Hea & Heu);
      [destruct Hnok; unfold u64; lia|destruct Hnok; lia|done|].
    destruct (ent_write b1 ta i (raw_bits e)) as (b2 & Hw & Hok2 & Hs2 & He2 & Hby2);
      [done|by apply (table_ok_size b)|done|done|].
    replace (Entry (raw_bits e)) with e in He2 by (by destruct e).
    unfold on_bus. munfold_goal. simpl. rewrite (bus_write_M_Ok _ _ _ _ _ Hw). intros [=]; subst t' b' c.
    assert (Helf : is_leaf_entry e l = false).
    { unfold is_leaf_entry, is_large_leaf_entry. rewrite (dir_huge _ Hed), andb_false_r.
      by rewrite bool_decide_false. }
    assert (Hslots : forall ta' l' p i', T !! ta' = Some (l', p) -> 0 <= i' < 512 ->
      ent b2 ta' i' = if decide (ta' = ta /\ i' = i) then e else ent b ta' i').
    { intros ta' l' p i' Ht' Hi'. destruct (twf_table _ _ _ Hwf _ _ _ Ht') as [Ht'ok _].
      rewrite He2 by (done || by apply (table_ok_size b)). case_decide; [done|].
      rewrite He1, decide_False by (done || congruence). done. }
    assert (Hei : ent b2 ta i = e) by (rewrite (Hslots ta l _ i Hta Hi); by rewrite decide_True).
    assert (Hkept : forall ta' l' p i', T !! ta' = Some (l', p) -> 0 <= i' < 512 ->
      (l', p * 512 + i') <> (l, entry_key l a) -> ent b2 ta' i' = ent b ta' i').
    { intros ta' l' p i' Ht' Hi' Hk. rewrite (Hslots _ _ _ _ Ht' Hi'), decide_False; [done|].
      intros [-> ->]. rewrite Hta in Ht'. injection Ht' as <- <-. by rewrite entry_key_split in Hk by done. }
    exists (<[n := (child_level l, entry_key l a)]> T). split; [split; try done|].
    + by apply (tables_wf_new_child T t b b1 b2 l a ta n e).
    + by apply insert_subseteq.
    + congruence.
    + intros a'. apply (resolve_new_child T (root_table_address t) b b2 a' n e); try done.
      * intros l' ta' Ht'. destruct (decide (ta' = ta /\ level_index a' l' = i)) as [[-> Hii]|Hd].
        -- right. rewrite Hii. rewrite Hta in Ht'. injection Ht' as <- Htk. done.
        -- left. rewrite (Hslots _ _ _ _ Ht' (level_index_range _ _)), decide_False; done.
      * intros i' Hi'. rewrite He2, decide_False by (done || (by apply (table_ok_size b)) || (intros [<- _]; congruence)).
        rewrite He1 by done. by rewrite decide_True.
      * rewrite table_key_root. apply (twf_root _ _ _ Hwf).
    + intros ta' Hta'. apply lookup_insert_is_Some in Hta' as [<-|[_ Hta']]; [right; lia|by left].
    + intros x Hx Ho. rewrite Hby2, Hby1; [done|done| |done|].
      * apply Ho. by rewrite lookup_insert_eq.
      * apply Ho. apply lookup_insert_is_Some'. right. by rewrite Hta.
    + rewrite <- Hea, <- Hei. apply path_step; [done| |by fold i; rewrite Hei..].
      apply (path_ext T (root_table_address t) b); [done..|]. intros l' ta' Ht' Hlt.
      apply (Hkept _ _ _ _ Ht' (level_index_range _ _)). intros [= -> _]. lia.
Qed.

Lemma grown_trans T t b T1 t1 b1 T2 t2 b2 :
  grown T t b T1 t1 b1 -> grown T1 t1 b1 T2 t2 b2 -> grown T t b T2 t2 b2.
Proof.
  intros [A1 A2 A3 A4 A5 A6 A7 A8 A9] [B1 B2 B3 B4 B5 B6 B7 B8 B9]. rewrite A3 in B1, B6. split; try (congruence || by transitivity T1).
  - intros ta Hta. destruct A8 as (_ & ? & _), B8 as (_ & ? & _). apply B7 in Hta as [Hta|?]; [|right; lia].
    apply A7 in Hta as [?|?]; [by left|right; lia].
  - by apply (arena_step_trans t t1).
  - intros x Hx Ho. rewrite B9, A9; [done|done| |done|done]. intros ta [v Hta]. apply Ho. exists v. by eapply lookup_weaken.
Qed.

Lemma path_key b root l a a' : l <> Level.COUNT -> entry_key l a = entry_key l a' ->
  forall l' ta, path b root a l' ta -> level_shift l <= level_shift l' -> path b root a' l' ta.
Proof.
  intros Hl Hk l' ta. induction 1 as [|l' ta Hl' Hp IH Hpr Hle]; intros Hs; [constructor|].
  assert (Hlt : level_shift (child_level l') < level_shift l').
  { pose proof (not_leaf_not_PT _ _ Hle). destruct l'; simpl; (lia || done). }
  destruct (level_index_key l l' a a') as [Hi _]; [done|lia|done..|]. rewrite Hi in *.
  apply path_step; [done|apply IH; lia|done..].
Qed.

Lemma write_leaf_spec T t b l a ta e t' b' :
  tables_wf T (root_table_address t) b -> l <> Level.COUNT ->
  path b (root_table_address t) a l ta ->
  is_present e = true -> is_leaf_entry e l = true -> u64 (raw_bits e) ->
  write_leaf_at a ta l (Ok e) (t, b) = ((t', b'), Ok tt) ->
  t' = t /\ tables_wf T (root_table_address t) b' /\ bus_size b' = bus_size b /\
  (forall x, 0 <= x -> (forall ta, is_Some (T !! ta) -> ~ (ta <= x < ta + 4096)) -> bus_byte b' x = bus_byte b x) /\
  forall a', resolve b' Level.PML4 (root_table_address t) a' =
    if decide (entry_key l a' = entry_key l a) then Some (l, ta, level_index a l, e)
    else resolve b Level.PML4 (root_table_address t) a'.
Proof.
  intros Hwf Hl Hpath Hep Hel Heu. pose proof (path_table _ _ _ _ _ _ Hwf Hpath) as Hta.
  destruct (twf_table _ _ _ Hwf _ _ _ Hta) as [Htok _]. pose proof (twf_bus _ _ _ Hwf) as Hok.
  unfold write_leaf_at, write_leaf_entry, write_entry, on_bus. munfold_goal.
  rewrite page_table_index_spec by done. pose proof (level_index_range a l) as Hi.
  destruct (ent_read b ta (level_index a l) Hok Htok Hi) as [-> _]. destruct (_ && _); [done|].
  destruct (ent_write b ta (level_index a l) (raw_bits e)) as (b1 & Hw & Hok1 & Hs1 & He1 & Hby1); [done..|].
  simpl. rewrite (bus_write_M_Ok _ _ _ _ _ Hw). intros [=]; subst t' b'.
  replace (Entry (raw_bits e)) with e in He1 by (by destruct e).
  assert (Hslots : forall l' ta' p i, T !! ta' = Some (l', p) -> 0 <= i < 512 ->
    ent b1 ta' i = if decide (ta' = ta /\ i = level_index a l) then e else ent b ta' i).
  { intros l' ta' p i Ht' Hi'. apply He1; [by apply (twf_table _ _ _ Hwf _ _ _ Ht')|done]. }
  split; [done|]. split; [|split; [done|split; [intros x Hx Ho; apply Hby1; [done|]; apply Ho; by rewrite Hta|]]].
  - split; [done|apply (twf_root _ _ _ Hwf)| |].
    + intros ta' l' p Ht'. destruct (twf_table _ _ _ Hwf _ _ _ Ht'). split; [by apply (table_ok_size b)|done].
    + intros ta' l' p i Ht' Hi'. rewrite (Hslots _ _ _ _ Ht' Hi'). case_decide as Hd.
      * destruct Hd as [-> ->]. rewrite Hta in Ht'. injection Ht' as <- _. by rewrite Hel.
      * by apply (twf_entry _ _ _ Hwf).
  - intros a'. case_decide as Hk.
    + assert (Hp1 : path b1 (root_table_address t) a l ta).
      { apply (path_ext T _ b); [done..|]. intros l' ta' Ht' Hlt.
        rewrite (Hslots _ _ _ _ Ht' (level_index_range _ _)), decide_False; [done|].
        intros [-> _]. rewrite Hta in Ht'. injection Ht' as -> _. lia. }
      rewrite (path_resolve b1 _ a' l ta) by (by apply (path_key b1 _ l a)).
      destruct (level_index_key l l a' a) as [Hii _]; [done|lia|done..|].
      rewrite resolve_step, Hii by done. cbn zeta. rewrite (Hslots _ _ _ _ Hta Hi), decide_True by done.
      by rewrite Hep, Hel.
    + apply (resolve_ext T (root_table_address t)); [done| |done|].
      * intros ta' l' Ht'. rewrite (Hslots _ _ _ _ Ht' (level_index_range _ _)), decide_False; [done|].
        intros [-> Hii]. rewrite Hta in Ht'. apply Hk. symmetry.
        apply (entry_key_unique l a l' a'); [done|by injection Ht' as <- <-|done].
      * rewrite table_key_root. apply (twf_root _ _ _ Hwf).
Qed.

(** The whole effect of mapping one page of level [l] with entry [e]. *)
Record mapped T (t : PageTableBuilder) b T' (t' : PageTableBuilder) b' l a e ta : Prop := {
  mp_tables : tables_wf T' (root_table_address t) b';
  mp_arena : arena_wf T' t';
  mp_root : root_table_address t' = root_table_address t;
  mp_mono : T ⊆ T';
  mp_size : bus_size b' = bus_size b;
  mp_resolve a' : resolve b' Level.PML4 (root_table_address t) a' =
    if decide (entry_key l a' = entry_key l a) then Some (l, ta, level_index a l, e)
    else resolve b Level.PML4 (root_table_address t) a';
  mp_new ta' : is_Some (T' !! ta') -> is_Some (T !! ta') \/
    next_free_table_address t <= ta' /\ ta' + 4096 <= next_free_table_address t';
  mp_step : arena_step t t';
  mp_bytes x : 0 <= x -> (forall ta', is_Some (T' !! ta') -> ~ (ta' <= x < ta' + 4096)) -> bus_byte b' x = bus_byte b x;
}.

Lemma mapped_intro T t b T1 t1 b1 l a e ta t2 b2 :
  grown T t b T1 t1 b1 -> l <> Level.COUNT ->
  path b1 (root_table_address t) a l ta ->
  is_present e = true -> is_leaf_entry e l = true -> u64 (raw_bits e) ->
  write_leaf_at a ta l (Ok e) (t1, b1) = ((t2, b2), Ok tt) ->
  mapped T t b T1 t2 b2 l a e ta.
Proof.
  intros [G1 G2 G3 G4 G5 G6 G7 G8 G9] Hl Hp Hpr Hle Hu Hw. rewrite <- G3 in *.
  destruct (write_leaf_spec T1 t1 b1 l a ta e t2 b2) as (-> & Hwf & Hs & Hby & Hr); [done..|].
  split; [by rewrite <- G3|done..|congruence| |done|done|].
  - intros a'. rewrite <- G3, Hr. case_decide; [done|]. apply G6.
  - intros x Hx Ho. by rewrite Hby, G9.
Qed.

(** A leaf entry of level [l] made from a frame address and permissions. *)
Record leaf_entry l (frame : Z) (p : PagePermissions) e : Prop := {
  le_present : is_present e = true;
  le_leaf : is_leaf_entry e l = true;
  le_range : u64 (raw_bits e);
  le_writable : is_writable e = p_writable p;
  le_user : is_user_accessible e = p_user_accessible p;
  le_no_execute : is_no_execute e = negb (p_executable p);
  le_reserved : has_reserved_high_bits e = false;
  le_clean : is_accessed e = false /\ is_dirty e = false;
  le_frame i : 0 <= i -> Z.testbit (raw_bits e) i && bool_decide (12 <= i < 52) = Z.testbit frame i;
}.

Definition huge_bit l : bool := bool_decide (l = Level.PD) || bool_decide (l = Level.PDPT).

Lemma leaf_entry_intro l k frame p h e : 12 <= k -> level_shift l = k -> l <> Level.PML4 ->
  l <> Level.COUNT -> u64 frame -> frame < 2 ^ 52 ->
  present_entry frame (Z.shiftl 1 k) p = Ok e -> h = (if huge_bit l then HUGE_PAGE_BIT else 0) ->
  leaf_entry l frame p (Entry (Z.lor (raw_bits e) h)).
Proof.
  intros Hk Hs Hl Hl' Hf H52 He ->. assert (Hk' : k <= 30) by (destruct l; simpl in *; (lia || done)).
  apply present_entry_inv in He as [Ha He]; [|lia].
  assert (Hlow : forall i, 0 <= i < 12 -> Z.testbit frame i = false).
  { intros i Hi. rewrite <- (Z.mod_pow2_bits_low frame k) by lia. by rewrite Ha, Z.bits_0. }
  assert (Hhigh : forall i, 52 <= i -> Z.testbit frame i = false).
  { intros i Hi. apply (testbit_range_high frame 52); destruct Hf; lia. }
  assert (Hbit : forall i, 0 <= i -> Z.testbit (Z.lor (raw_bits e) (if huge_bit l then HUGE_PAGE_BIT else 0)) i =
    (bool_decide (12 <= i < 52) && Z.testbit frame i) || Z.testbit (permission_bits p) i ||
    (huge_bit l && bool_decide (i = 7))).
  { intros i Hi. rewrite Z.lor_spec, He, present_bits by done. f_equal.
    destruct (huge_bit l); [by apply testbit_single|apply Z.bits_0]. }
  assert (Hnarrow : forall i, 0 <= i < 12 \/ 52 <= i -> i <> 7 ->
    Z.testbit (Z.lor (raw_bits e) (if huge_bit l then HUGE_PAGE_BIT else 0)) i =
    Z.testbit (permission_bits p) i).
  { intros i Hi H7. rewrite Hbit by lia. rewrite (bool_decide_false (12 <= i < 52)) by lia.
    rewrite (bool_decide_false (i = 7)) by done. by rewrite andb_false_r, orb_false_r. }
  split; cbn [raw_bits].
  - rewrite is_present_bit. cbn [raw_bits]. rewrite Hnarrow by lia. by rewrite permission_bits_testbit.
  - unfold is_leaf_entry, is_large_leaf_entry. rewrite is_huge_page_bit. cbn [raw_bits].
    rewrite Hbit, permission_bits_testbit by done.
    destruct l; done || by destruct p as [[] [] []].
  - apply u64_lor; [rewrite He; apply u64_lor|destruct (huge_bit l); by vm_compute].
    + apply u64_land; [done|by vm_compute].
    + destruct p as [[] [] []]; by vm_compute.
  - rewrite is_writable_bit. cbn [raw_bits]. rewrite Hnarrow, permission_bits_testbit by lia.
    by destruct p as [[] [] []].
  - rewrite is_user_accessible_bit. cbn [raw_bits]. rewrite Hnarrow, permission_bits_testbit by lia.
    by destruct p as [[] [] []].
  - rewrite is_no_execute_bit. cbn [raw_bits]. rewrite Hnarrow, permission_bits_testbit by lia.
    by destruct p as [[] [] []].
  - apply has_reserved_high_bits_false. cbn [raw_bits]. intros i Hi.
    rewrite Hnarrow, permission_bits_testbit by lia. rewrite !bool_decide_false by lia.
    by rewrite !andb_false_r.
  - rewrite is_accessed_bit, is_dirty_bit. cbn [raw_bits]. rewrite !Hnarrow, !permission_bits_testbit by lia.
    by destruct p as [[] [] []].
  - intros i Hi. case_bool_decide as Hr; [|rewrite andb_false_r; symmetry].
    + rewrite andb_true_r, Hbit, permission_bits_testbit by done.
      rewrite (bool_decide_true (12 <= i < 52)) by done. rewrite !bool_decide_false by lia.
      by rewrite !andb_false_r, !orb_false_r.
    + destruct (Z_lt_dec i 12); [apply Hlow|apply Hhigh]; lia.
Qed.

Lemma page_4k_spec frame p e : u64 frame -> frame < 2 ^ 52 -> page_4k frame p = Ok e ->
  leaf_entry Level.PT frame p e.
Proof.
  intros Hf H52 He. replace e with (Entry (Z.lor (raw_bits e) 0))
    by (rewrite Z.lor_0_r; by destruct e).
  by apply (leaf_entry_intro _ 12 _ _ 0).
Qed.
Lemma page_2m_spec frame p e : u64 frame -> frame < 2 ^ 52 -> page_2m frame p = Ok e ->
  leaf_entry Level.PD frame p e.
Proof.
  intros Hf H52. unfold page_2m. munfold_goal. destruct (present_entry _ _ _) as [e0|] eqn:He; [|done].
  intros [= <-]. by apply (leaf_entry_intro _ 21 _ _ HUGE_PAGE_BIT).
Qed.
Lemma page_1g_spec frame p e : u64 frame -> frame < 2 ^ 52 -> page_1g frame p = Ok e ->
  leaf_entry Level.PDPT frame p e.
Proof.
  intros Hf H52. unfold page_1g. munfold_goal. destruct (present_entry _ _ _) as [e0|] eqn:He; [|done].
  intros [= <-]. by apply (leaf_entry_intro _ 30 _ _ HUGE_PAGE_BIT).
Qed.

(** ** Mapping *)

Lemma ensure_child_step T t b T1 t1 b1 l a ta t2 b2 c :
  grown T t b T1 t1 b1 -> bus_size b <= 2 ^ 52 -> l <> Level.COUNT -> l <> Level.PT ->
  path b1 (root_table_address t) a l ta ->
  ensure_child_at a ta l (t1, b1) = ((t2, b2), Ok c) ->
  exists T2, grown T t b T2 t2 b2 /\ path b2 (root_table_address t) a (child_level l) c.
Proof.
  intros Hg H52 Hl Hpt Hp He. pose proof (gr_root _ _ _ _ _ _ Hg) as Hr. rewrite <- Hr in Hp |- *.
  destruct (ensure_child_spec T1 t1 b1 l a ta t2 b2 c) as (T2 & Hg2 & Hp2); try done.
  - rewrite Hr. apply (gr_tables _ _ _ _ _ _ Hg).
  - apply (gr_arena _ _ _ _ _ _ Hg).
  - by rewrite (gr_size _ _ _ _ _ _ Hg).
  - exists T2. split; [by eapply grown_trans|done].
Qed.

Lemma map_4k_spec T t b a pa p t' b' :
  tables_wf T (root_table_address t) b -> arena_wf T t -> bus_size b <= 2 ^ 52 ->
  u64 pa -> pa < 2 ^ 52 -> map_4k a pa p (t, b) = ((t', b'), Ok tt) ->
  exists T' e ta, mapped T t b T' t' b' Level.PT a e ta /\ leaf_entry Level.PT pa p e.
Proof.
  intros Hwf Har H52 Hpa Hpa52. unfold map_4k. munfold_goal.
  destruct (require_aligned_address a _); [|done]. destruct (require_aligned_address pa _); [|done].
  simpl fst. destruct (ensure_child_at a (root_table_address t) _ _) as [[t1 b1] [c1|]] eqn:E1; [|done].
  destruct (ensure_child_at a c1 _ _) as [[t2 b2] [c2|]] eqn:E2; [|done].
  destruct (ensure_child_at a c2 _ _) as [[t3 b3] [c3|]] eqn:E3; [|done]. intros Hw.
  destruct (ensure_child_step T t b T t b Level.PML4 a (root_table_address t) t1 b1 c1)
    as (T1 & G1 & P1); [by apply grown_refl|done|done|done|constructor|done|].
  destruct (ensure_child_step T t b T1 t1 b1 Level.PDPT a c1 t2 b2 c2) as (T2 & G2 & P2); [done..|].
  destruct (ensure_child_step T t b T2 t2 b2 Level.PD a c2 t3 b3 c3) as (T3 & G3 & P3); [done..|].
  destruct (page_4k pa p) as [e|] eqn:He.
  2:{ unfold write_leaf_at in Hw. munfold. rewrite page_table_index_spec in Hw by done. done. }
  pose proof (page_4k_spec pa p e Hpa Hpa52 He) as Hle.
  exists T3, e, c3. split; [|done]. by apply (mapped_intro T t b T3 t3 b3 Level.PT a e c3 t' b'); [..|apply Hle|apply Hle|apply Hle|].
Qed.

Lemma map_2m_spec T t b a pa p t' b' :
  tables_wf T (root_table_address t) b -> arena_wf T t -> bus_size b <= 2 ^ 52 ->
  u64 pa -> pa < 2 ^ 52 -> map_2m a pa p (t, b) = ((t', b'), Ok tt) ->
  exists T' e ta, mapped T t b T' t' b' Level.PD a e ta /\ leaf_entry Level.PD pa p e.
Proof.
  intros Hwf Har H52 Hpa Hpa52. unfold map_2m. munfold_goal.
  destruct (require_aligned_address a _); [|done]. destruct (require_aligned_address pa _); [|done].
  simpl fst. destruct (ensure_child_at a (root_table_address t) _ _) as [[t1 b1] [c1|]] eqn:E1; [|done].
  destruct (ensure_child_at a c1 _ _) as [[t2 b2] [c2|]] eqn:E2; [|done]. intros Hw.
  destruct (ensure_child_step T t b T t b Level.PML4 a (root_table_address t) t1 b1 c1)
    as (T1 & G1 & P1); [by apply grown_refl|done|done|done|constructor|done|].
  destruct (ensure_child_step T t b T1 t1 b1 Level.PDPT a c1 t2 b2 c2) as (T2 & G2 & P2); [done..|].
  destruct (page_2m pa p) as [e|] eqn:He.
  2:{ unfold write_leaf_at in Hw. munfold. rewrite page_table_index_spec in Hw by done. done. }
  pose proof (page_2m_spec pa p e Hpa Hpa52 He) as Hle.
  exists T2, e, c2. split; [|done]. by apply (mapped_intro T t b T2 t2 b2 Level.PD a e c2 t' b'); [..|apply Hle|apply Hle|apply Hle|].
Qed.

(** ** Walking *)

(** Equality of entries up to the accessed and dirty bits. *)
Definition eq_ad e e' : Prop :=
  forall i, 0 <= i -> i <> 5 -> i <> 6 -> Z.testbit (raw_bits e') i = Z.testbit (raw_bits e) i.

#[export] Instance eq_ad_equivalence : Equivalence eq_ad.
Proof.
  split.
  - by intros e i.
  - intros e e' He i ???. by rewrite He.
  - intros e1 e2 e3 H1 H2 i ???. by rewrite H2, H1.
Qed.

Lemma eq_ad_present e e' : eq_ad e e' -> is_present e' = is_present e.
Proof. intros He. rewrite !is_present_bit. by apply He. Qed.
Lemma eq_ad_leaf e e' l : eq_ad e e' -> is_leaf_entry e' l = is_leaf_entry e l.
Proof.
  intros He. unfold is_leaf_entry, is_large_leaf_entry. rewrite !is_huge_page_bit.
  by rewrite (He 7).
Qed.
Lemma eq_ad_table_address e e' : eq_ad e e' -> table_address e' = table_address e.
Proof.
  intros He. apply Z.bits_inj'. intros i Hi. rewrite !table_address_testbit by done.
  case_bool_decide; [|done]. simpl. apply He; lia.
Qed.
Lemma eq_ad_frame_address e e' n : eq_ad e e' -> frame_address e' n = frame_address e n.
Proof.
  intros He. apply Z.bits_inj'. intros i Hi. unfold frame_address.
  rewrite !Z.land_spec, address_mask_testbit by done.
  case_bool_decide; simpl; [|by rewrite !andb_false_r]. f_equal. apply He; lia.
Qed.
Lemma eq_ad_directory e e' : eq_ad e e' -> directory_ok e -> directory_ok e'.
Proof.
  intros He [D1 D2 D3 D4 D5]. split.
  - rewrite is_writable_bit in *. by rewrite (He 1).
  - rewrite is_user_accessible_bit in *. by rewrite (He 2).
  - rewrite is_no_execute_bit in *. by rewrite (He 63).
  - apply has_reserved_high_bits_false. intros i Hi. rewrite (He i) by lia.
    revert i Hi. by apply has_reserved_high_bits_false.
  - rewrite is_huge_page_bit in *. by rewrite (He 7).
Qed.

(** The entry a walk leaves behind. *)
Definition marked e (leaf : bool) (kind : MemoryAccessKind) : PageTableEntry :=
  let updated := with_accessed e in
  if leaf && bool_decide (kind = AccessKind.WRITE) then with_dirty updated else updated.

Lemma marked_testbit e leaf kind i : 0 <= i -> Z.testbit (raw_bits (marked e leaf kind)) i =
  Z.testbit (raw_bits e) i || bool_decide (i = 5) ||
  (leaf && bool_decide (kind = AccessKind.WRITE) && bool_decide (i = 6)).
Proof.
  intros Hi. unfold marked, with_dirty, with_accessed, ACCESSED_BIT, DIRTY_BIT.
  destruct (leaf && bool_decide (kind = AccessKind.WRITE)); cbn [raw_bits];
    rewrite ?Z.lor_spec, !testbit_single by lia; simpl; rewrite ?orb_false_r; [|done].
  destruct (Z.testbit (raw_bits e) i), (bool_decide (i = 5)); done.
Qed.
Lemma marked_eq_ad e leaf kind : eq_ad e (marked e leaf kind).
Proof.
  intros i Hi H5 H6. rewrite marked_testbit, !(bool_decide_false (i = _)) by done.
  by rewrite andb_false_r, !orb_false_r.
Qed.
Lemma marked_dirty e kind : is_dirty (marked e true kind) = is_dirty e || bool_decide (kind = AccessKind.WRITE).
Proof.
  rewrite !is_dirty_bit, marked_testbit by lia. simpl.
  by rewrite orb_false_r, andb_true_r.
Qed.
Lemma marked_range e leaf kind : u64 (raw_bits e) -> u64 (raw_bits (marked e leaf kind)).
Proof.
  intros Hu. unfold marked, with_dirty, with_accessed.
  destruct (leaf && _); cbn [raw_bits]; repeat apply u64_lor; done || by vm_compute.
Qed.

(** [e'] is [e] with possibly more of the accessed and dirty bits set. *)
Definition ad_extends e e' : Prop :=
  eq_ad e e' /\ forall i, 0 <= i -> Z.testbit (raw_bits e) i = true -> Z.testbit (raw_bits e') i = true.

#[export] Instance ad_extends_preorder : PreOrder ad_extends.
Proof.
  split.
  - by intros e.
  - intros e1 e2 e3 [E1 M1] [E2 M2]. split; [by etransitivity|auto].
Qed.
Lemma marked_extends e leaf kind : ad_extends e (marked e leaf kind).
Proof.
  split; [apply marked_eq_ad|]. intros i Hi Hb. by rewrite marked_testbit, Hb.
Qed.

(** A memory a walk may leave: accessed and dirty bits of table entries may be set, no byte outside
    the tables changes. *)
Record touched T b b' : Prop := {
  tch_bus : bus_ok b';
  tch_size : bus_size b' = bus_size b;
  tch_entry ta l p i : T !! ta = Some (l, p) -> 0 <= i < 512 ->
    ad_extends (ent b ta i) (ent b' ta i);
  tch_other x : 0 <= x -> (forall ta, is_Some (T !! ta) -> ~ (ta <= x < ta + 4096)) ->
    bus_byte b' x = bus_byte b x;
}.

Lemma touched_refl T b : bus_ok b -> touched T b b.
Proof. intros. by split. Qed.
Lemma touched_trans T b b1 b2 : touched T b b1 -> touched T b1 b2 -> touched T b b2.
Proof.
  intros [A1 A2 A3 A4] [B1 B2 B3 B4]. split; [done|congruence| |].
  - intros. etransitivity; [by eapply A3|by eapply B3].
  - intros x Hx Ho. by rewrite B4, A4.
Qed.
Lemma touched_wf T root b b' : tables_wf T root b -> touched T b b' -> tables_wf T root b'.
Proof.
  intros Hwf [A1 A2 A3 A4]. split; [done|apply (twf_root _ _ _ Hwf)| |].
  - intros ta l p Ht. destruct (twf_table _ _ _ Hwf _ _ _ Ht). split; [by apply (table_ok_size b)|done].
  - intros ta l p i Ht Hi. destruct (A3 _ _ _ _ Ht Hi) as [He _].
    rewrite (eq_ad_present _ _ He), (eq_ad_leaf _ _ _ He), (eq_ad_table_address _ _ He).
    intros Hp Hle. destruct (twf_entry _ _ _ Hwf _ _ _ _ Ht Hi Hp Hle). split; [done|].
    by apply (eq_ad_directory _ _ He).
Qed.

(** Updating one entry of the forest in a way that only sets accessed and dirty bits. *)
Lemma update_spec T root b ta l p i m : tables_wf T root b -> T !! ta = Some (l, p) ->
  0 <= i < 512 -> ad_extends (ent b ta i) m -> u64 (raw_bits m) ->
  exists b', write_page_table_entry_if_changed (entry_address_for_index ta i) (ent b ta i) m b =
    (b', Ok tt) /\ touched T b b' /\
    (forall ta' l' p' i', T !! ta' = Some (l', p') -> 0 <= i' < 512 ->
      ent b' ta' i' = if decide (ta' = ta /\ i' = i) then m else ent b ta' i').
Proof.
  intros Hwf Ht Hi Hext Hu. pose proof (twf_bus _ _ _ Hwf) as Hok.
  destruct (twf_table _ _ _ Hwf _ _ _ Ht) as [Htok _].
  unfold write_page_table_entry_if_changed.
  destruct (Z.eqb_spec (raw_bits m) (raw_bits (ent b ta i))) as [Heq|Hne]; simpl.
  - exists b. split; [done|]. split; [by apply touched_refl|]. intros ta' l' p' i' _ _.
    case_decide as Hd; [|done]. destruct Hd as [-> ->]. by destruct m, (ent b ta i); simpl in *; subst.
  - destruct (ent_write b ta i (raw_bits m)) as (b' & Hw & Hok' & Hs & He & Hb); [done..|].
    replace (Entry (raw_bits m)) with m in He by (by destruct m).
    assert (He' : forall ta' l' p' i', T !! ta' = Some (l', p') -> 0 <= i' < 512 ->
      ent b' ta' i' = if decide (ta' = ta /\ i' = i) then m else ent b ta' i').
    { intros ta' l' p' i' Ht' Hi'. apply He; [|done]. by destruct (twf_table _ _ _ Hwf _ _ _ Ht'). }
    exists b'. rewrite (bus_write_M_Ok _ _ _ _ _ Hw). split; [done|]. split; [|done]. split; [done|done| |].
    + intros ta' l' p' i' Ht' Hi'. rewrite (He' _ _ _ _ Ht' Hi'). case_decide as Hd; [|done].
      by destruct Hd as [-> ->].
    + intros x Hx Ho. apply Hb; [done|]. apply Ho. by eexists.
Qed.

Lemma mark_spec T root b ta l p i leaf kind : tables_wf T root b -> T !! ta = Some (l, p) ->
  0 <= i < 512 ->
  exists b', mark_accessed_dirty (entry_address_for_index ta i) (ent b ta i) leaf kind b =
    (b', Ok (marked (ent b ta i) leaf kind)) /\ touched T b b' /\
    (forall ta' l' p' i', T !! ta' = Some (l', p') -> 0 <= i' < 512 ->
      ent b' ta' i' = if decide (ta' = ta /\ i' = i) then marked (ent b ta i) leaf kind
                      else ent b ta' i').
Proof.
  intros Hwf Ht Hi. destruct (twf_table _ _ _ Hwf _ _ _ Ht) as [Htok _].
  destruct (ent_read b ta i (twf_bus _ _ _ Hwf) Htok Hi) as [_ Hu].
  destruct (update_spec T root b ta l p i (marked (ent b ta i) leaf kind)) as (b' & Hw & Hr);
    [done..|apply marked_extends|by apply marked_range|].
  exists b'. split; [|done]. unfold mark_accessed_dirty. munfold_goal.
  fold (marked (ent b ta i) leaf kind). by rewrite Hw.
Qed.

(** What a walk that reaches leaf [e] of level [l] answers. *)
Definition leaf_outcome (ps : PagingState) (perms : EffectivePermissions) e l a
    (kind : MemoryAccessKind) (p : PrivilegeLevel) (entry_address : Z) : res PageTranslation :=
  let perms := apply_entry perms e in
  _ ← validate_reserved_bits ps e l a kind p;
  _ ← enforce_permissions ps perms a kind p;
  page_size ← page_size_for_leaf_level l;
  Ok (mkTranslation (page_base a page_size) (frame_address e page_size) page_size
    (mkPermissions (e_writable perms) (e_user_accessible perms) (e_executable perms))
    entry_address (is_dirty e || bool_decide (kind = AccessKind.WRITE))).

Lemma directory_permissions e perms : directory_ok e -> apply_entry perms e = perms.
Proof.
  intros [D1 D2 D3 _ _]. unfold apply_entry. rewrite D1, D2, D3.
  destruct perms. simpl. by rewrite !andb_true_r.
Qed.
Lemma directory_reserved ps e l a kind p : directory_ok e ->
  validate_reserved_bits ps e l a kind p = Ok tt.
Proof.
  intros [_ _ D3 D4 D5]. unfold validate_reserved_bits, is_large_leaf_entry.
  by rewrite D3, D4, D5, !andb_false_r.
Qed.

Lemma levels_from_step l : l <> Level.COUNT -> levels_from l = l :: levels_from (child_level l).
Proof. by destruct l. Qed.

(** The slots a walk below level [l] resolves through are not changed by marking one at [l]. *)
Lemma resolve_after_mark T root b b1 l ta a i e : tables_wf T root b -> l <> Level.COUNT -> l <> Level.PT ->
  T !! ta = Some (l, table_key l a) ->
  (forall ta' l' p' i', T !! ta' = Some (l', p') -> 0 <= i' < 512 ->
      ent b1 ta' i' = if decide (ta' = ta /\ i' = i) then e else ent b ta' i') ->
  forall ta', T !! ta' = Some (child_level l, table_key (child_level l) a) ->
  resolve b1 (child_level l) ta' a = resolve b (child_level l) ta' a.
Proof.
  intros Hwf Hl Hpt Hta He ta' Ht'.
  apply (resolve_ext_below T root b b1 a (child_level l)); [done| |by destruct l|done|done].
  intros ta2 l2 Ht2 Hs. rewrite (He _ _ _ _ Ht2 (level_index_range _ _)), decide_False; [done|].
  intros [-> _]. rewrite Hta in Ht2. injection Ht2 as <- _. destruct l; simpl in Hs; done || lia.
Qed.

Lemma walk_spec ps a kind p T root : forall l, l <> Level.COUNT -> forall b ta perms,
  tables_wf T root b -> T !! ta = Some (l, table_key l a) ->
  exists b', touched T b b' /\
    match resolve b l ta a with
    | None => walk ps a kind p (levels_from l) ta perms b =
        (b', Throw (make_page_fault a kind p FaultReason.NOT_PRESENT))
    | Some (l', ta', i, e) =>
        let r := leaf_outcome ps perms e l' a kind p (entry_address_for_index ta' i) in
        walk ps a kind p (levels_from l) ta perms b = (b', r) /\
        (is_Ok r = true -> ent b' ta' i = marked e true kind)
    end.
Proof.
  apply (level_induction (fun l => forall b ta perms, _ -> _ -> _)).
  intros l Hl IH b ta perms Hwf Hta. pose proof (twf_bus _ _ _ Hwf) as Hok.
  destruct (twf_table _ _ _ Hwf _ _ _ Hta) as [Htok _]. pose proof (level_index_range a l) as Hi.
  destruct (ent_read b ta (level_index a l) Hok Htok Hi) as [Hr _].
  rewrite resolve_step, levels_from_step by done. cbn zeta. cbn [walk].
  set (i := level_index a l) in *. set (e := ent b ta i) in *.
  unfold throw_if, lift. munfold_goal. rewrite page_table_index_spec by done. fold i. rewrite Hr.
  destruct (is_present e) eqn:Hp; simpl negb; cbv iota; [|exists b; by split; [apply touched_refl|]].
  destruct (is_leaf_entry e l) eqn:Hle.
  - destruct (mark_spec T root b ta l _ i true kind Hwf Hta Hi) as (b' & Hm & Ht & He). fold e in Hm, He.
    cbn zeta. unfold leaf_outcome. munfold_goal.
    destruct (validate_reserved_bits _ _ _ _ _ _) as [[]|] eqn:Hv;
      [|exists b; split; [by apply touched_refl|]; by split].
    destruct (enforce_permissions _ _ _ _ _) as [[]|] eqn:Hen;
      [|exists b; split; [by apply touched_refl|]; by split].
    rewrite Hm. exists b'. split; [done|]. destruct (page_size_for_leaf_level l) as [n|] eqn:Hn.
    + rewrite marked_dirty, (eq_ad_frame_address _ _ n (marked_eq_ad e true kind)).
      split; [done|]. intros _. by rewrite (He _ _ _ _ Hta Hi), decide_True.
    + split; [done|]. by intros [=].
  - destruct (twf_entry _ _ _ Hwf ta l _ _ Hta Hi Hp Hle) as [Hc Hdir]. fold i e in Hc, Hdir.
    rewrite directory_reserved, directory_permissions by done.
    destruct (mark_spec T root b ta l _ i false kind Hwf Hta Hi) as (b1 & Hm & Ht & He).
    fold e in Hm, He. rewrite Hm. pose proof (not_leaf_not_PT _ _ Hle) as Hpt.
    unfold i in Hc. rewrite <- entry_key_split, <- table_key_child in Hc by done.
    destruct (IH Hpt b1 (table_address e) perms) as (b' & Ht' & Hw);
      [by apply (touched_wf T root b)|done|].
    rewrite (resolve_after_mark T root b b1 l ta a i _ Hwf Hl Hpt Hta He _ Hc) in Hw.
    exists b'. split; [by apply (touched_trans T b b1)|]. exact Hw.
Qed.

(** ** The walker against the builder *)

(** The reason an access to a page with permissions [p] faults, by the priority of the checks. *)
Definition access_fault (ps : PagingState) (p : PagePermissions) (kind : MemoryAccessKind)
    (priv : PrivilegeLevel) : option PageFaultReason :=
  if negb (execute_disable_enabled ps) && negb (p_executable p) then Some FaultReason.RESERVED_BIT
  else if bool_decide (priv = Ring.RING3) && negb (p_user_accessible p)
    then Some FaultReason.USER_SUPERVISOR
  else if bool_decide (kind = AccessKind.WRITE) && negb (p_writable p) &&
          (bool_decide (priv = Ring.RING3) || write_protect_enabled ps)
    then Some FaultReason.WRITE_PROTECTION
  else if bool_decide (kind = AccessKind.EXECUTE) && negb (p_executable p)
    then Some FaultReason.EXECUTE_DISABLE
  else None.

Lemma frame_bits pa e k : (forall i, 0 <= i -> Z.testbit (raw_bits e) i && bool_decide (12 <= i < 52) = Z.testbit pa i) ->
  12 <= k < 64 -> pa `mod` 2 ^ k = 0 -> table_address e = pa /\ frame_address e (Z.shiftl 1 k) = pa.
Proof.
  intros He Hk Ha. assert (Ht : table_address e = pa).
  { apply Z.bits_inj'. intros i Hi. rewrite table_address_testbit, andb_comm by done.
    by apply He. }
  split; [done|]. unfold frame_address. rewrite page_mask by lia.
  rewrite Z.land_assoc. fold (table_address e). rewrite Ht. apply Z.bits_inj'. intros i Hi.
  rewrite Z.land_spec, not64_spec, ones_testbit by lia. destruct (Z_lt_dec i k).
  - rewrite <- (Z.mod_pow2_bits_low pa k) by lia. by rewrite Ha, Z.bits_0.
  - destruct (Z_lt_dec i 52).
    + destruct (Z.ltb_spec i k), (Z.ltb_spec i 64); try lia. by rewrite andb_true_r.
    + assert (Hf : Z.testbit pa i = false); [|by rewrite Hf].
      rewrite <- He by done. by rewrite bool_decide_false, andb_false_r by lia.
Qed.
Lemma leaf_frame l pa p e k : leaf_entry l pa p e -> 12 <= k < 64 -> pa `mod` 2 ^ k = 0 ->
  table_address e = pa /\ frame_address e (Z.shiftl 1 k) = pa.
Proof. intros He. apply frame_bits, (le_frame _ _ _ _ He). Qed.

Lemma leaf_outcome_mapped ps l a pa p e kind priv ea : l <> Level.PML4 -> l <> Level.COUNT ->
  leaf_entry l pa p e -> pa `mod` 2 ^ level_shift l = 0 -> u64 a ->
  leaf_outcome ps all_permissions e l a kind priv ea =
  match access_fault ps p kind priv with
  | Some reason => Throw (make_page_fault a kind priv reason)
  | None => Ok (mkTranslation (a - a `mod` 2 ^ level_shift l) pa (2 ^ level_shift l) p ea
                  (bool_decide (kind = AccessKind.WRITE)))
  end.
Proof.
  intros Hl Hl' He Ha Hu. pose proof (level_shift_bounds l) as Hs.
  destruct (leaf_frame l pa p e (level_shift l) He) as [Hta Hfa]; [lia|done|].
  assert (Hn : page_size_for_leaf_level l = Ok (Z.shiftl 1 (level_shift l))) by (by destruct l).
  unfold leaf_outcome, validate_reserved_bits, enforce_permissions, is_user_access,
    is_write_allowed_for_read_only_page, access_fault, apply_entry. munfold_goal.
  rewrite (le_reserved _ _ _ _ He), (le_writable _ _ _ _ He), (le_user _ _ _ _ He),
    (le_no_execute _ _ _ _ He), Hn, Hta, (proj2 (le_clean _ _ _ _ He)), page_mask, Hfa by lia.
  rewrite (bool_decide_false (l = Level.PML4)) by done.
  rewrite Z.land_ones, Ha, page_base_spec, Z.shiftl_1_l by (done || lia).
  destruct p as [w u x]. simpl. destruct (execute_disable_enabled ps), (write_protect_enabled ps),
    (is_large_leaf_entry e l), kind, priv, w, u, x; reflexivity.
Qed.

Lemma entry_key_alt l a : entry_key l a = (a / 2 ^ level_shift l) `mod` 2 ^ (48 - level_shift l).
Proof.
  unfold entry_key. pose proof (level_shift_bounds l). apply Z.bits_inj'. intros i Hi.
  destruct (Z_lt_dec i (48 - level_shift l)).
  - rewrite Z.mod_pow2_bits_low, !Z.div_pow2_bits, Z.mod_pow2_bits_low by lia. done.
  - rewrite Z.mod_pow2_bits_high, Z.div_pow2_bits, Z.mod_pow2_bits_high by lia. done.
Qed.
Lemma entry_key_offset l a off : a `mod` 2 ^ level_shift l = 0 -> 0 <= off < 2 ^ level_shift l ->
  entry_key l (a + off) = entry_key l a.
Proof.
  intros Ha Ho. rewrite !entry_key_alt. f_equal. apply Z.mod_divide in Ha as [x ->]; [|lia].
  rewrite Z.div_add_l, Z.div_mul, (Z.div_small off) by lia. lia.
Qed.
Lemma canonical_mod a : u64 a -> is_canonical_linear_address a = true ->
  (a < 2 ^ 47 /\ a `mod` 2 ^ 48 = a) \/
  (W64 - 2 ^ 47 <= a /\ a `mod` 2 ^ 48 = a - (W64 - 2 ^ 48)).
Proof.
  intros Hu Hc. rewrite is_canonical_spec in Hc by done. apply bool_decide_eq_true in Hc. unfold u64 in *.
  destruct Hc; [left|right]; (split; [done|]).
  - apply Z.mod_small. lia.
  - symmetry. apply (Z.mod_unique _ _ (2 ^ 16 - 1)); lia.
Qed.
(** Two canonical addresses with the same page number are in the same page. *)
Lemma canonical_same_page l a a' : l <> Level.COUNT -> u64 a -> u64 a' -> is_canonical_linear_address a = true ->
  is_canonical_linear_address a' = true -> a `mod` 2 ^ level_shift l = 0 ->
  entry_key l a' = entry_key l a -> a <= a' < a + 2 ^ level_shift l.
Proof.
  intros Hl Hu Hu' Hc Hc' Ha. apply canonical_mod in Hc, Hc'; try done. unfold entry_key.
  set (n := 2 ^ level_shift l) in *. pose proof (level_shift_bounds l).
  assert (Hn : 0 < n) by (apply Z.pow_pos_nonneg; lia).
  pose proof (Z.div_mod (a `mod` 2 ^ 48) n). pose proof (Z.div_mod (a' `mod` 2 ^ 48) n).
  pose proof (Z.mod_pos_bound (a' `mod` 2 ^ 48) n Hn).
  assert (Ham : (a `mod` 2 ^ 48) `mod` n = 0).
  { apply Z.mod_divide; [lia|]. apply Z.mod_divide in Ha; [|lia].
    rewrite Z.mod_eq by lia. apply Z.divide_sub_r; [done|]. apply Z.divide_mul_l.
    exists (2 ^ (48 - level_shift l)). unfold n. rewrite <- Z.pow_add_r by lia. f_equal. lia. }
  intros He. rewrite He in *. unfold u64 in *.
  assert (a `mod` 2 ^ 48 <= a' `mod` 2 ^ 48 < a `mod` 2 ^ 48 + n) by lia.
  assert (Hna : n <= 2 ^ 48) by (apply Z.pow_le_mono_r; lia). clear He.
  assert (Hhalf : (2 ^ 48 - 2 ^ 47) `mod` n = 0) by (by destruct l).
  apply Z.mod_divide in Hhalf as [x Hx]; [|lia].
  apply Z.mod_divide in Ham as [y Hy]; [|lia]. destruct (Z_lt_dec y x).
  - assert ((y + 1) * n <= x * n) by (apply Z.mul_le_mono_nonneg_r; lia). lia.
  - assert (x * n <= y * n) by (apply Z.mul_le_mono_nonneg_r; lia). lia.
Qed.

Lemma translate_spec ps a kind p T b : tables_wf T (cr3 ps) b ->
  is_canonical_linear_address a = true ->
  exists b', touched T b b' /\
    match resolve b Level.PML4 (cr3 ps) a with
    | None => translate ps a kind p b = (b', Throw (make_page_fault a kind p FaultReason.NOT_PRESENT))
    | Some (l, ta, i, e) =>
        let r := leaf_outcome ps all_permissions e l a kind p (entry_address_for_index ta i) in
        translate ps a kind p b = (b', r) /\ (is_Ok r = true -> ent b' ta i = marked e true kind)
    end.
Proof.
  intros Hwf Hc. destruct (walk_spec ps a kind p T (cr3 ps) Level.PML4) with (b := b) (ta := cr3 ps)
    (perms := all_permissions) as (b' & Ht & Hw); [done|done| |].
  { rewrite table_key_root. apply (twf_root _ _ _ Hwf). }
  exists b'. split; [done|]. unfold translate. munfold_goal. by rewrite Hc.
Qed.

(** An access inside a page just mapped. *)
Lemma mapped_translate ps T t b T' t' b' l a pa p e ta a' kind priv :
  mapped T t b T' t' b' l a e ta -> leaf_entry l pa p e -> l <> Level.PML4 -> l <> Level.COUNT ->
  cr3 ps = root_table_address t -> a `mod` 2 ^ level_shift l = 0 -> pa `mod` 2 ^ level_shift l = 0 ->
  u64 a' -> a <= a' < a + 2 ^ level_shift l -> is_canonical_linear_address a' = true ->
  (translate ps a' kind priv b').2 =
  match access_fault ps p kind priv with
  | Some reason => Throw (make_page_fault a' kind priv reason)
  | None => Ok (mkTranslation a pa (2 ^ level_shift l) p
                  (entry_address_for_index ta (level_index a l))
                  (bool_decide (kind = AccessKind.WRITE)))
  end.
Proof.
  intros Hm Hle Hl Hl' Hcr Ha Hpa Hu Hr Hc. pose proof (mp_tables _ _ _ _ _ _ _ _ _ _ Hm) as Hwf.
  rewrite <- Hcr in Hwf. destruct (translate_spec ps a' kind priv T' b' Hwf Hc) as (b2 & _ & Ht).
  rewrite Hcr, (mp_resolve _ _ _ _ _ _ _ _ _ _ Hm), decide_True in Ht.
  2:{ replace a' with (a + (a' - a)) by lia. apply entry_key_offset; [done|lia]. }
  destruct Ht as [-> _]. simpl snd. rewrite (leaf_outcome_mapped ps l a' pa p) by done.
  assert (Hb : a' - a' `mod` 2 ^ level_shift l = a); [|by rewrite Hb].
  pose proof (level_shift_bounds l). assert (0 < 2 ^ level_shift l) by (apply Z.pow_pos_nonneg; lia).
  apply Z.mod_divide in Ha as [x ->]; [|lia].
  rewrite <- (Z.mod_unique a' (2 ^ level_shift l) x (a' - x * 2 ^ level_shift l)); lia.
Qed.

Lemma map_4k_aligned a pa p t b t' b' : map_4k a pa p (t, b) = ((t', b'), Ok tt) ->
  a `mod` 2 ^ 12 = 0 /\ pa `mod` 2 ^ 12 = 0.
Proof.
  unfold map_4k, require_aligned_address, PAGE_SIZE_4K_BYTES. munfold_goal.
  rewrite !is_aligned_spec by lia. destruct (Z.eqb_spec (a `mod` 2 ^ 12) 0); [|done]. simpl.
  by destruct (Z.eqb_spec (pa `mod` 2 ^ 12) 0).
Qed.
Lemma map_2m_aligned a pa p t b t' b' : map_2m a pa p (t, b) = ((t', b'), Ok tt) ->
  a `mod` 2 ^ 21 = 0 /\ pa `mod` 2 ^ 21 = 0.
Proof.
  unfold map_2m, require_aligned_address, PAGE_SIZE_2M_BYTES. munfold_goal.
  rewrite !is_aligned_spec by lia. destruct (Z.eqb_spec (a `mod` 2 ^ 21) 0); [|done]. simpl.
  by destruct (Z.eqb_spec (pa `mod` 2 ^ 21) 0).
Qed.

(** ** Resolutions *)

Lemma resolve_inv b root a : forall l0, l0 <> Level.COUNT -> forall ta0 l ta i e,
  path b root a l0 ta0 -> resolve b l0 ta0 a = Some (l, ta, i, e) ->
  l <> Level.COUNT /\ path b root a l ta /\ i = level_index a l /\ e = ent b ta i /\
  is_present e = true /\ is_leaf_entry e l = true.
Proof.
  apply (level_induction (fun l0 => forall ta0 l ta i e, _ -> _ -> _)).
  intros l0 Hl0 IH ta0 l ta i e Hp Hr. rewrite resolve_step in Hr by done. cbn zeta in Hr.
  destruct (is_present (ent b ta0 (level_index a l0))) eqn:Hpr; [|done]. simpl in Hr.
  destruct (is_leaf_entry (ent b ta0 (level_index a l0)) l0) eqn:Hle.
  - injection Hr as <- <- <- <-. done.
  - apply (IH (not_leaf_not_PT _ _ Hle) (table_address (ent b ta0 (level_index a l0)))); [|done].
    by apply path_step.
Qed.
Lemma leaf_level e l : l <> Level.COUNT -> is_leaf_entry e l = true ->
  l <> Level.PML4 /\ page_size_for_leaf_level l = Ok (Z.shiftl 1 (level_shift l)).
Proof. by destruct l. Qed.

(** Addresses covered by the same leaf entry resolve alike. *)
Lemma resolve_same_key b root a a' l ta i e :
  resolve b Level.PML4 root a = Some (l, ta, i, e) -> entry_key l a = entry_key l a' ->
  resolve b Level.PML4 root a' = Some (l, ta, i, e).
Proof.
  intros Hr Hk. destruct (resolve_inv b root a Level.PML4) with (ta0 := root) (l := l) (ta := ta)
    (i := i) (e := e) as (Hl & Hp & -> & -> & Hpr & Hle); [done|constructor|done|].
  rewrite (path_resolve b root a' l ta) by (by apply (path_key b root l a)).
  destruct (level_index_key l l a a') as [Hi _]; [done|lia|done..|]. rewrite resolve_step by done.
  cbn zeta. rewrite <- Hi. by rewrite Hpr, Hle.
Qed.

Lemma touched_path T root b b' a l ta : tables_wf T root b -> touched T b b' ->
  path b root a l ta -> path b' root a l ta.
Proof.
  intros Hwf Ht. induction 1 as [|l ta Hl Hp IH Hpr Hle]; [constructor|].
  pose proof (path_table T root b a l ta Hwf Hp) as Hta.
  destruct (tch_entry _ _ _ Ht ta l _ _ Hta (level_index_range a l)) as [He _].
  rewrite <- (eq_ad_table_address _ _ He). apply path_step; [done|done| |].
  - by rewrite (eq_ad_present _ _ He).
  - by rewrite (eq_ad_leaf _ _ _ He).
Qed.
(** Marking keeps every resolution, up to the marks. *)
Lemma touched_resolve T root b b' a l ta i e : tables_wf T root b -> touched T b b' ->
  resolve b Level.PML4 root a = Some (l, ta, i, e) ->
  resolve b' Level.PML4 root a = Some (l, ta, i, ent b' ta i) /\ ad_extends e (ent b' ta i) /\
  e = ent b ta i /\ 0 <= i < 512 /\ T !! ta = Some (l, table_key l a).
Proof.
  intros Hwf Ht Hr. destruct (resolve_inv b root a Level.PML4) with (ta0 := root) (l := l) (ta := ta)
    (i := i) (e := e) as (Hl & Hp & -> & -> & Hpr & Hle); [done|constructor|done|].
  pose proof (path_table T root b a l ta Hwf Hp) as Hta.
  pose proof (tch_entry _ _ _ Ht ta l _ _ Hta (level_index_range a l)) as Hext.
  pose proof Hext as [He _]. split; [|by pose proof (level_index_range a l)].
  rewrite (path_resolve b' root a l ta) by (by apply (touched_path T root b)).
  rewrite resolve_step by done. cbn zeta.
  by rewrite (eq_ad_present _ _ He), (eq_ad_leaf _ _ _ He), Hpr, Hle.
Qed.

Lemma touched_path_inv T root b b' a l ta : tables_wf T root b -> touched T b b' ->
  path b' root a l ta -> path b root a l ta.
Proof.
  intros Hwf Ht. induction 1 as [|l ta Hl Hp IH Hpr Hle]; [constructor|].
  pose proof (path_table T root b a l ta Hwf IH) as Hta.
  destruct (tch_entry _ _ _ Ht ta l _ _ Hta (level_index_range a l)) as [He _].
  rewrite (eq_ad_table_address _ _ He). apply path_step; [done|done| |].
  - by rewrite <- (eq_ad_present _ _ He).
  - by rewrite <- (eq_ad_leaf _ _ _ He).
Qed.
(** It makes no resolution either. *)
Lemma touched_resolve_None T root b b' a : tables_wf T root b -> touched T b b' ->
  resolve b Level.PML4 root a = None -> resolve b' Level.PML4 root a = None.
Proof.
  intros Hwf Ht Hn. destruct (resolve b' Level.PML4 root a) as [[[[l ta] i] e]|] eqn:Hr; [|done].
  destruct (resolve_inv b' root a Level.PML4) with (ta0 := root) (l := l) (ta := ta)
    (i := i) (e := e) as (Hl & Hp & -> & -> & Hpr & Hle); [done|constructor|done|].
  pose proof (touched_path_inv T root b b' a l ta Hwf Ht Hp) as Hp0.
  rewrite (path_resolve b root a l ta), resolve_step in Hn by done. cbn zeta in Hn.
  pose proof (path_table T root b a l ta Hwf Hp0) as Hta.
  destruct (tch_entry _ _ _ Ht ta l _ _ Hta (level_index_range a l)) as [He _].
  by rewrite <- (eq_ad_present _ _ He), <- (eq_ad_leaf _ _ _ He), Hpr, Hle in Hn.
Qed.

(** ** Success *)

(** The builder can still take [k] tables. *)
Definition room (k : Z) (t : PageTableBuilder) b : Prop :=
  next_free_table_address t + 4096 * k <= bus_size b /\
  next_free_table_address t + 4096 * k <= arena_limit t.

Lemma allocate_table_succeeds T t b k : arena_wf T t -> bus_ok b -> 0 <= k -> room (k + 1) t b ->
  exists t' b', allocate_table (t, b) = ((t', b'), Ok (next_free_table_address t)) /\ room k t' b'.
Proof.
  intros Har Hok Hk [Hb Hl]. pose proof (bus_size_range b Hok). pose proof (awf_next _ _ Har).
  assert (Hc : bus_contains_range b (next_free_table_address t) PAGE_SIZE_4K_BYTES = true).
  { apply bus_contains_spec; [done|]. change PAGE_SIZE_4K_BYTES with 4096. lia. }
  assert (He : negb (table_arena_end_address t =? 0) &&
    (sub64 (table_arena_end_address t) PAGE_SIZE_4K_BYTES <? next_free_table_address t) = false).
  { unfold arena_limit in Hl. destruct (Z.eqb_spec (table_arena_end_address t) 0); [done|]. simpl.
    destruct (awf_end _ _ Har) as [[? ?] _]. change PAGE_SIZE_4K_BYTES with 4096.
    rewrite sub64_small by lia. apply Z.ltb_ge. lia. }
  destruct (arena_next_fresh T t b Har Hok Hc He) as (_ & Htok & Hadd & _).
  destruct (clear_table_spec b (next_free_table_address t) Hok Htok) as (b' & Hcl & _ & Hs & _).
  unfold allocate_table, set_next, on_bus. munfold_goal. simpl. rewrite Hc, He. simpl. rewrite Hcl, Hadd.
  do 2 eexists. split; [done|]. unfold room, arena_limit in *. simpl. lia.
Qed.

Lemma ensure_child_succeeds T t b l a ta k :
  tables_wf T (root_table_address t) b -> arena_wf T t -> bus_size b <= 2 ^ 52 ->
  l <> Level.COUNT -> l <> Level.PT -> path b (root_table_address t) a l ta ->
  0 <= k -> room (k + 1) t b ->
  (forall ta' i e, resolve b Level.PML4 (root_table_address t) a <> Some (l, ta', i, e)) ->
  exists t' b' c, ensure_child_at a ta l (t, b) = ((t', b'), Ok c) /\ room k t' b'.
Proof.
  intros Hwf Har H52 Hl Hpt Hpath Hk Hroom Hnl.
  pose proof (path_table _ _ _ _ _ _ Hwf Hpath) as Hta.
  destruct (twf_table _ _ _ Hwf _ _ _ Hta) as [Htok _]. pose proof (twf_bus _ _ _ Hwf) as Hok.
  rewrite (path_resolve _ _ _ _ _ Hpath), resolve_step in Hnl by done. cbn zeta in Hnl.
  unfold ensure_child_at, ensure_child_table. munfold_goal. rewrite page_table_index_spec by done.
  pose proof (level_index_range a l) as Hi. set (i := level_index a l) in *.
  destruct (ent_read b ta i Hok Htok Hi) as [-> _]. destruct (is_present (ent b ta i)) eqn:Hp.
  - simpl in Hnl. destruct (is_leaf_entry (ent b ta i) l) eqn:Hle; [by edestruct Hnl|].
    unfold is_leaf_entry in Hle. apply orb_false_iff in Hle as [_ ->].
    do 3 eexists. split; [done|]. unfold room in *. lia.
  - destruct (allocate_table_succeeds T t b k) as (t1 & b1 & Hal & Hroom1); [done..|]. rewrite Hal.
    destruct (allocate_table_spec _ _ _ _ _ _ Har Hok Hal) as (_ & Hnok & _ & _ & Hok1 & Hs1 & _ & _).
    set (n := next_free_table_address t) in *.
    assert (He : exists e, table n user_read_write_execute = Ok e /\ u64 (raw_bits e)).
    { unfold table, present_entry, require_aligned_address, PAGE_SIZE_4K_BYTES. munfold_goal.
      rewrite is_aligned_spec by lia. change (2 ^ 12) with 4096.
      rewrite (tok_aligned _ _ Hnok). simpl. eexists. split; [done|].
      apply u64_lor; [|by vm_compute]. pose proof (bus_size_range b Hok).
      apply u64_land; [destruct Hnok; unfold u64; lia|by vm_compute]. }
    destruct He as (e & -> & Hu).
    destruct (ent_write b1 ta i (raw_bits e)) as (b2 & Hw & _ & Hs2 & _ & _);
      [done|by apply (table_ok_size b)|done|done|].
    unfold on_bus. munfold_goal. simpl. rewrite (bus_write_M_Ok _ _ _ _ _ Hw).
    do 3 eexists. split; [done|]. unfold room in *. simpl. lia.
Qed.

Lemma ensure_child_total T t b T1 t1 b1 l a ta k :
  grown T t b T1 t1 b1 -> bus_size b <= 2 ^ 52 -> l <> Level.COUNT -> l <> Level.PT ->
  path b1 (root_table_address t) a l ta -> 0 <= k -> room (k + 1) t1 b1 ->
  (forall ta' i e, resolve b Level.PML4 (root_table_address t) a <> Some (l, ta', i, e)) ->
  exists T2 t2 b2 c, ensure_child_at a ta l (t1, b1) = ((t2, b2), Ok c) /\
    grown T t b T2 t2 b2 /\ room k t2 b2 /\
    path b2 (root_table_address t) a (child_level l) c.
Proof.
  intros Hg H52 Hl Hpt Hp Hk Hr Hnl. pose proof Hg as [G1 G2 G3 G4 G5 G6 _ _ _].
  destruct (ensure_child_succeeds T1 t1 b1 l a ta k) as (t2 & b2 & c & He & Hr2);
    rewrite ?G3, ?G5, ?G6; try done.
  destruct (ensure_child_step T t b T1 t1 b1 l a ta t2 b2 c) as (T2 & Hg2 & Hp2); [done..|].
  by exists T2, t2, b2, c.
Qed.

Lemma require_aligned_ok a k : 0 <= k < 64 -> a `mod` 2 ^ k = 0 ->
  require_aligned_address a (Z.shiftl 1 k) = Ok tt.
Proof. intros Hk Ha. unfold require_aligned_address. by rewrite is_aligned_spec, Ha. Qed.

(** A fresh root: no page is mapped. *)
Lemma empty_root_wf root b : bus_ok b -> table_ok b root ->
  (forall i, 0 <= i < 512 -> ent b root i = Entry 0) ->
  tables_wf {[root := (Level.PML4, 0)]} root b.
Proof.
  intros Hok Ht He. split; [done|by rewrite lookup_singleton_eq| |].
  - intros ta l p. rewrite lookup_singleton_Some. by intros [<- [= <- <-]].
  - intros ta l p i. rewrite lookup_singleton_Some. intros [<- _] Hi. by rewrite He.
Qed.

(** ** Properties *)

(** C10. Mapping a 4 KiB page keeps the page-table forest well formed, and then every access to
    the page is decided by the permissions given, in the documented priority, and lands in the
    given frame at the same offset. *)
Theorem map_4k_then_translate ps T t b a pa p t' b' a' kind priv :
  tables_wf T (root_table_address t) b -> arena_wf T t -> bus_size b <= 2 ^ 52 ->
  u64 pa -> pa < 2 ^ 52 -> map_4k a pa p (t, b) = ((t', b'), Ok tt) ->
  cr3 ps = root_table_address t -> u64 a' -> a <= a' < a + 4096 ->
  is_canonical_linear_address a' = true ->
  exists T' leaf, T ⊆ T' /\ tables_wf T' (root_table_address t') b' /\ arena_wf T' t' /\
  (translate ps a' kind priv b').2 =
  match access_fault ps p kind priv with
  | Some reason => Throw (make_page_fault a' kind priv reason)
  | None => Ok (mkTranslation a pa 4096 p leaf (bool_decide (kind = AccessKind.WRITE)))
  end.
Proof.
  intros Hwf Har H52 Hpa Hpa52 Hmap Hcr Hu Hr Hc. destruct (map_4k_aligned _ _ _ _ _ _ _ Hmap) as [Ha Hpaa].
  destruct (map_4k_spec T t b a pa p t' b') as (T' & e & ta & Hm & Hle); [done..|].
  exists T', (entry_address_for_index ta (level_index a Level.PT)).
  split; [apply (mp_mono _ _ _ _ _ _ _ _ _ _ Hm)|].
  split; [rewrite (mp_root _ _ _ _ _ _ _ _ _ _ Hm); apply (mp_tables _ _ _ _ _ _ _ _ _ _ Hm)|].
  split; [apply (mp_arena _ _ _ _ _ _ _ _ _ _ Hm)|].
  by apply (mapped_translate ps T t b T' t' b' Level.PT a pa p e ta).
Qed.

(** The same for a 2 MiB page. *)
Theorem map_2m_then_translate ps T t b a pa p t' b' a' kind priv :
  tables_wf T (root_table_address t) b -> arena_wf T t -> bus_size b <= 2 ^ 52 ->
  u64 pa -> pa < 2 ^ 52 -> map_2m a pa p (t, b) = ((t', b'), Ok tt) ->
  cr3 ps = root_table_address t -> u64 a' -> a <= a' < a + 2 ^ 21 ->
  is_canonical_linear_address a' = true ->
  exists T' leaf, T ⊆ T' /\ tables_wf T' (root_table_address t') b' /\ arena_wf T' t' /\
  (translate ps a' kind priv b').2 =
  match access_fault ps p kind priv with
  | Some reason => Throw (make_page_fault a' kind priv reason)
  | None => Ok (mkTranslation a pa (2 ^ 21) p leaf (bool_decide (kind = AccessKind.WRITE)))
  end.
Proof.
  intros Hwf Har H52 Hpa Hpa52 Hmap Hcr Hu Hr Hc. destruct (map_2m_aligned _ _ _ _ _ _ _ Hmap) as [Ha Hpaa].
  destruct (map_2m_spec T t b a pa p t' b') as (T' & e & ta & Hm & Hle); [done..|].
  exists T', (entry_address_for_index ta (level_index a Level.PD)).
  split; [apply (mp_mono _ _ _ _ _ _ _ _ _ _ Hm)|].
  split; [rewrite (mp_root _ _ _ _ _ _ _ _ _ _ Hm); apply (mp_tables _ _ _ _ _ _ _ _ _ _ Hm)|].
  split; [apply (mp_arena _ _ _ _ _ _ _ _ _ _ Hm)|].
  by apply (mapped_translate ps T t b T' t' b' Level.PD a pa p e ta).
Qed.

(** Mapping a 4 KiB page changes no translation of any other page: every access there has
    exactly the outcome it had before. *)
Theorem map_4k_keeps_other_pages ps T t b a pa p t' b' a' kind priv :
  tables_wf T (root_table_address t) b -> arena_wf T t -> bus_size b <= 2 ^ 52 ->
  u64 pa -> pa < 2 ^ 52 -> map_4k a pa p (t, b) = ((t', b'), Ok tt) ->
  cr3 ps = root_table_address t -> u64 a -> u64 a' ->
  is_canonical_linear_address a = true -> a' < a \/ a + 4096 <= a' ->
  (translate ps a' kind priv b').2 = (translate ps a' kind priv b).2.
Proof.
  intros Hwf Har H52 Hpa Hpa52 Hmap Hcr Hu Hu' Hc Hout. destruct (map_4k_aligned _ _ _ _ _ _ _ Hmap) as [Ha _].
  destruct (map_4k_spec T t b a pa p t' b') as (T' & e & ta & Hm & _); [done..|].
  destruct (is_canonical_linear_address a') eqn:Hc'.
  2:{ unfold translate. munfold_goal. by rewrite Hc'. }
  pose proof (mp_tables _ _ _ _ _ _ _ _ _ _ Hm) as Hwf'. rewrite <- Hcr in Hwf, Hwf'.
  destruct (translate_spec ps a' kind priv T b Hwf Hc') as (b1 & _ & H1).
  destruct (translate_spec ps a' kind priv T' b' Hwf' Hc') as (b2 & _ & H2).
  rewrite Hcr, (mp_resolve _ _ _ _ _ _ _ _ _ _ Hm), decide_False in H2.
  2:{ intros Hk. apply (canonical_same_page Level.PT a a') in Hk; [simpl in Hk; lia|done..]. }
  rewrite <- Hcr in H2. destruct (resolve b Level.PML4 (cr3 ps) a') as [[[[l ta'] i] e']|].
  - destruct H1 as [-> _], H2 as [-> _]. done.
  - by rewrite H1, H2.
Qed.

(** A walk over a well-formed forest terminates with a definite outcome and only ever sets
    accessed and dirty bits: the forest stays well formed, no byte outside the tables changes, and
    the leaf of a successful access is marked accessed, and dirty when the access writes. *)
Theorem translate_only_marks ps T b a kind p b' r :
  tables_wf T (cr3 ps) b -> is_canonical_linear_address a = true ->
  translate ps a kind p b = (b', r) ->
  tables_wf T (cr3 ps) b' /\ touched T b b' /\
  match resolve b Level.PML4 (cr3 ps) a with
  | None => r = Throw (make_page_fault a kind p FaultReason.NOT_PRESENT)
  | Some (l, ta, i, e) =>
      r = leaf_outcome ps all_permissions e l a kind p (entry_address_for_index ta i) /\
      (is_Ok r = true -> is_accessed (ent b' ta i) = true /\
         is_dirty (ent b' ta i) = is_dirty e || bool_decide (kind = AccessKind.WRITE))
  end.
Proof.
  intros Hwf Hc Ht. destruct (translate_spec ps a kind p T b Hwf Hc) as (b1 & Hto & Hr).
  rewrite Ht in Hr.
  assert (Hb : b1 = b' /\ match resolve b Level.PML4 (cr3 ps) a with
    | None => r = Throw (make_page_fault a kind p FaultReason.NOT_PRESENT)
    | Some (l, ta, i, e) =>
        r = leaf_outcome ps all_permissions e l a kind p (entry_address_for_index ta i) /\
        (is_Ok r = true -> ent b' ta i = marked e true kind)
    end).
  { destruct (resolve b Level.PML4 (cr3 ps) a) as [[[[l ta] i] e]|]; [|by simplify_eq].
    destruct Hr as [[= -> ->] Hm]. done. }
  destruct Hb as [-> Hb]. split; [by apply (touched_wf T (cr3 ps) b)|]. split; [done|].
  destruct (resolve b Level.PML4 (cr3 ps) a) as [[[[l ta] i] e]|]; [|done].
  destruct Hb as [-> Hm]. split; [done|]. intros Hok. rewrite (Hm Hok), marked_dirty. split; [|done].
  rewrite is_accessed_bit, marked_testbit by lia. by rewrite orb_true_r.
Qed.

(** Clearing the root establishes the forest invariant with nothing mapped: every access to a
    canonical address is a not-present page fault, and mapping may start. *)
Theorem clear_root_table_establishes ps t b a kind p : bus_ok b ->
  table_ok b (root_table_address t) -> cr3 ps = root_table_address t ->
  is_canonical_linear_address a = true ->
  exists b', clear_root_table (t, b) = ((t, b'), Ok tt) /\
    tables_wf {[root_table_address t := (Level.PML4, 0)]} (root_table_address t) b' /\
    bus_size b' = bus_size b /\
    (translate ps a kind p b').2 = Throw (make_page_fault a kind p FaultReason.NOT_PRESENT).
Proof.
  intros Hok Ht Hcr Hc. destruct (clear_table_spec b (root_table_address t) Hok Ht)
    as (b' & Hcl & Hok' & Hs & He & _).
  assert (Hwf : tables_wf {[root_table_address t := (Level.PML4, 0)]} (root_table_address t) b').
  { apply empty_root_wf; [done|by apply (table_ok_size b)|]. intros i Hi.
    rewrite He by done. by rewrite decide_True. }
  exists b'. split; [|split; [done|split; [done|]]].
  - unfold clear_root_table, on_bus. munfold_goal. simpl. by rewrite Hcl.
  - rewrite <- Hcr in Hwf. destruct (translate_spec ps a kind p _ b' Hwf Hc) as (b2 & _ & Hr).
    rewrite resolve_step in Hr by done. cbn zeta in Hr.
    rewrite Hcr, He, decide_True in Hr by (done || apply level_index_range). simpl in Hr. by rewrite Hr.
Qed.

Lemma write_leaf_succeeds T t b a pa p ta : tables_wf T (root_table_address t) b -> path b (root_table_address t) a Level.PT ta ->
  pa `mod` 4096 = 0 -> u64 pa ->
  exists b', write_leaf_at a ta Level.PT (page_4k pa p) (t, b) = ((t, b'), Ok tt) /\ bus_size b' = bus_size b.
Proof.
  intros Hwf Hp Hpa Hu. unfold write_leaf_at, write_leaf_entry, write_entry, on_bus, page_4k, present_entry, PAGE_SIZE_4K_BYTES. munfold_goal.
  rewrite page_table_index_spec, require_aligned_ok by done. pose proof (twf_bus _ _ _ Hwf) as Hok.
  destruct (twf_table _ _ _ Hwf _ _ _ (path_table _ _ _ _ _ _ Hwf Hp)) as [Htok _].
  destruct (ent_read b ta (level_index a Level.PT) Hok Htok (level_index_range _ _)) as [-> _].
  rewrite is_leaf_PT, andb_false_r. simpl. set (v := Z.lor (Z.land pa ADDRESS_MASK_4K) (permission_bits p)).
  destruct (ent_write b ta (level_index a Level.PT) v) as (b' & Hw & _ & Hs & _);
    [done|done|apply level_index_range|apply u64_lor; [by apply u64_land|]; destruct p as [[] [] []]; by vm_compute|].
  rewrite (bus_write_M_Ok _ _ _ _ _ Hw). by exists b'.
Qed.
Lemma ensure_child_existing T t b a l ta : tables_wf T (root_table_address t) b -> l <> Level.COUNT ->
  path b (root_table_address t) a l ta -> is_present (ent b ta (level_index a l)) = true -> is_leaf_entry (ent b ta (level_index a l)) l = false ->
  ensure_child_at a ta l (t, b) = ((t, b), Ok (table_address (ent b ta (level_index a l)))).
Proof.
  intros Hwf Hl Hp Hpr Hle. unfold ensure_child_at, ensure_child_table. munfold_goal. rewrite page_table_index_spec by done.
  destruct (twf_table _ _ _ Hwf _ _ _ (path_table _ _ _ _ _ _ Hwf Hp)) as [Htok _].
  destruct (ent_read b ta (level_index a l) (twf_bus _ _ _ Hwf) Htok (level_index_range _ _)) as [-> _]. rewrite Hpr.
  unfold is_leaf_entry in Hle. by apply orb_false_iff in Hle as [_ ->].
Qed.
(** A page whose table exists is mapped without taking a table. *)
Lemma map_4k_existing T t b a pa p ta : tables_wf T (root_table_address t) b -> path b (root_table_address t) a Level.PT ta ->
  a `mod` 4096 = 0 -> pa `mod` 4096 = 0 -> u64 pa ->
  exists b', map_4k a pa p (t, b) = ((t, b'), Ok tt) /\ bus_size b' = bus_size b.
Proof.
  intros Hwf Hp Ha Hpa Hu. destruct (write_leaf_succeeds T t b a pa p ta Hwf Hp Hpa Hu) as (b' & E & Hs). exists b'. split; [|done].
  unfold map_4k, PAGE_SIZE_4K_BYTES. munfold_goal. rewrite !require_aligned_ok by done. simpl fst.
  inversion Hp as [|l3 t3 Hl3 Hp3 Hpr3 Hle3 E3]; subst. destruct l3; try discriminate.
  inversion Hp3 as [|l2 t2 Hl2 Hp2 Hpr2 Hle2 E2]; subst. destruct l2; try discriminate.
  inversion Hp2 as [|l1 t1 Hl1 Hp1 Hpr1 Hle1 E1]; subst. destruct l1; try discriminate.
  inversion Hp1 as [|l0 t0 Hl0 Hp0 Hpr0 Hle0 E0]; subst; [|by destruct l0].
  rewrite (ensure_child_existing T t b a Level.PML4), (ensure_child_existing T t b a Level.PDPT), (ensure_child_existing T t b a Level.PD) by done.
  exact E.
Qed.

(** Mapping a 4 KiB page succeeds whenever both addresses are aligned, the page is not inside
    a large page, and three more tables fit in the arena and in memory; what is left of the
    arena still fits what it did beyond three tables. *)
Theorem map_4k_succeeds T t b a pa p k :
  tables_wf T (root_table_address t) b -> arena_wf T t -> bus_size b <= 2 ^ 52 ->
  a `mod` 4096 = 0 -> pa `mod` 4096 = 0 -> u64 pa -> 0 <= k -> room (k + 3) t b ->
  (forall l ta i e, resolve b Level.PML4 (root_table_address t) a = Some (l, ta, i, e) -> l = Level.PT) ->
  exists t' b', map_4k a pa p (t, b) = ((t', b'), Ok tt) /\ room k t' b'.
Proof.
  intros Hwf Har H52 Ha Hpa Hu Hk Hroom Hnl. assert (Hk3 : room (k + 2 + 1) t b) by (by replace (k + 2 + 1) with (k + 3) by lia).
  assert (Hno : forall l, l <> Level.PT -> forall ta' i e,
    resolve b Level.PML4 (root_table_address t) a <> Some (l, ta', i, e)).
  { intros l Hl ta' i e Hr. by apply Hl, (Hnl l ta' i e). }
  destruct (ensure_child_total T t b T t b Level.PML4 a (root_table_address t) (k + 2))
    as (T1 & t1 & b1 & c1 & E1 & G1 & R1 & P1); [by apply grown_refl|done|done|done|constructor|lia|done|by apply Hno|].
  destruct (ensure_child_total T t b T1 t1 b1 Level.PDPT a c1 (k + 1))
    as (T2 & t2 & b2 & c2 & E2 & G2 & R2 & P2); [done..|lia|by replace (k + 1 + 1) with (k + 2) by lia|by apply Hno|].
  destruct (ensure_child_total T t b T2 t2 b2 Level.PD a c2 k)
    as (T3 & t3 & b3 & c3 & E3 & G3 & R3 & P3); [done..|by apply Hno|].
  destruct (write_leaf_succeeds T3 t3 b3 a pa p c3) as (b4 & E4 & Hs4);
    [rewrite (gr_root _ _ _ _ _ _ G3); apply (gr_tables _ _ _ _ _ _ G3)|by rewrite (gr_root _ _ _ _ _ _ G3)|done|done|].
  unfold map_4k, PAGE_SIZE_4K_BYTES. munfold_goal. rewrite !require_aligned_ok by done. simpl fst.
  rewrite E1, E2, E3, E4. do 2 eexists. split; [done|]. unfold room in *. by rewrite Hs4.
Qed.
End tables.

(** ** Witnesses *)

(** Sixteen kilobytes holding one table of each level, linked through their first entries. *)
Definition poke (m : PhysicalMemory) (a v : Z) : PhysicalMemory :=
  match bus_write m a Size.QWORD v with Ok m' => m' | Throw _ => m end.
Definition demo_builder : PageTableBuilder := mkBuilder 0 0x4000 0.
Definition demo_tables : gmap Z (PageTableLevel * Z) :=
  <[0x3000 := (Level.PT, 0)]> (<[0x2000 := (Level.PD, 0)]>
    (<[0x1000 := (Level.PDPT, 0)]> {[0 := (Level.PML4, 0)]})).
Definition demo_paging : PagingState := mkPaging 0 0 0 0 true false true true.

Lemma poke_spec (m : PhysicalMemory) ta i v : bus_ok m -> table_ok m ta -> 0 <= i < 512 -> u64 v ->
  bus_ok (poke m (entry_address_for_index ta i) v) /\
  bus_size (poke m (entry_address_for_index ta i) v) = bus_size m /\
  forall ta' i', table_ok m ta' -> 0 <= i' < 512 ->
    ent (poke m (entry_address_for_index ta i) v) ta' i' =
    if decide (ta' = ta /\ i' = i) then Entry v else ent m ta' i'.
Proof.
  intros Hok Ht Hi Hv. destruct (ent_write m ta i v Hok Ht Hi Hv) as (m' & Hw & Hok' & Hs & He & _).
  unfold poke. by rewrite Hw.
Qed.

Lemma zero_memory_ok n : 0 <= n < W64 -> bus_ok (make_memory n).
Proof.
  intros Hn. split; simpl; [by apply Forall_replicate|].
  unfold size, lenZ. simpl. rewrite length_replicate. lia.
Qed.
Lemma zero_memory_size n : 0 <= n -> bus_size (make_memory n) = n.
Proof. intros Hn. simpl. unfold size, lenZ. simpl. rewrite length_replicate. lia. Qed.
Lemma zero_memory_ent n ta i : 0 <= n < W64 -> table_ok (make_memory n) ta -> 0 <= i < 512 ->
  ent (make_memory n) ta i = Entry 0.
Proof.
  intros Hn Ht Hi. pose proof (zero_memory_ok n Hn) as Hok.
  unfold ent, read_entry. rewrite (slot_address (make_memory n)) by done.
  destruct Ht as [H1 H2 H3].
  destruct (bus_read_in (make_memory n) (ta + 8 * i) Size.QWORD) as (v & -> & Hv & Hb);
    [done|lia|done|simpl size_bytes; lia|].
  munfold_goal. f_equal. apply (bytes_ext _ _ 8); [lia|exact Hv|lia|].
  intros k Hk. rewrite Hb by done. cbn [bus_byte physical_memory_bus_laws]. unfold nthZ. simpl bytes.
  replace (byte_of 0 k) with 0 by (unfold byte_of; by rewrite Z.shiftr_0_l).
  rewrite nth_lookup. destruct (replicate _ _ !! _) as [x|] eqn:Hx; [|done].
  apply lookup_replicate in Hx as [-> _]. done.
Qed.

Lemma demo_table_ok (m : PhysicalMemory) k : bus_size m = 0x4000 -> 0 <= k < 4 ->
  table_ok m (k * 4096).
Proof. intros Hs Hk. split; [lia|by apply Z.mod_mul|lia]. Qed.

Definition link_tables (m : PhysicalMemory) : PhysicalMemory :=
  poke (poke (poke m (entry_address_for_index (0 * 4096) 0) 0x1007)
    (entry_address_for_index (1 * 4096) 0) 0x2007) (entry_address_for_index (2 * 4096) 0) 0x3007.
Definition demo_memory : PhysicalMemory := link_tables (make_memory 0x4000).

Lemma link_tables_spec m0 : bus_ok m0 -> bus_size m0 = 0x4000 ->
  (forall k i, 0 <= k < 4 -> 0 <= i < 512 -> ent m0 (k * 4096) i = Entry 0) ->
  bus_ok (link_tables m0) /\ bus_size (link_tables m0) = 0x4000 /\
  forall k i, 0 <= k < 4 -> 0 <= i < 512 -> ent (link_tables m0) (k * 4096) i =
    if decide (i = 0 /\ k < 3) then Entry ((k + 1) * 4096 + 7) else Entry 0.
Proof.
  intros Hok0 Hs0 Hz. unfold link_tables.
  destruct (poke_spec m0 (0 * 4096) 0 0x1007) as (Hok1 & Hs1 & He1);
    [done|by apply demo_table_ok|done..|].
  set (m1 := poke m0 _ _) in *. clearbody m1. rewrite Hs0 in Hs1.
  destruct (poke_spec m1 (1 * 4096) 0 0x2007) as (Hok2 & Hs2 & He2);
    [done|by apply demo_table_ok|done..|].
  set (m2 := poke m1 _ _) in *. clearbody m2. rewrite Hs1 in Hs2.
  destruct (poke_spec m2 (2 * 4096) 0 0x3007) as (Hok3 & Hs3 & He3);
    [done|by apply demo_table_ok|done..|].
  set (m3 := poke m2 _ _) in *. clearbody m3. rewrite Hs2 in Hs3.
  split; [done|]. split; [done|]. intros k i Hk Hi.
  rewrite He3, He2, He1, Hz by (done || by apply demo_table_ok).
  repeat case_decide; try lia; try done; f_equal; lia.
Qed.

Lemma demo_memory_spec : bus_ok demo_memory /\ bus_size demo_memory = 0x4000 /\
  forall k i, 0 <= k < 4 -> 0 <= i < 512 -> ent demo_memory (k * 4096) i =
    if decide (i = 0 /\ k < 3) then Entry ((k + 1) * 4096 + 7) else Entry 0.
Proof.
  assert (Hs : bus_size (make_memory 0x4000) = 0x4000) by (by apply zero_memory_size).
  apply link_tables_spec; [exact (zero_memory_ok 0x4000 ltac:(lia))|exact Hs|].
  intros k i Hk Hi. apply zero_memory_ent; [lia|by apply demo_table_ok|done].
Qed.

Lemma demo_tables_lookup ta l p : demo_tables !! ta = Some (l, p) ->
  exists k, 0 <= k < 4 /\ ta = k * 4096 /\ p = 0 /\
    l = match k with 0 => Level.PML4 | 1 => Level.PDPT | 2 => Level.PD | _ => Level.PT end.
Proof.
  unfold demo_tables. rewrite !lookup_insert_Some, lookup_singleton_Some.
  intros [[<- [= <- <-]]|[_ [[<- [= <- <-]]|[_ [[<- [= <- <-]]|[_ [<- [= <- <-]]]]]]]].
  - by exists 3.
  - by exists 2.
  - by exists 1.
  - by exists 0.
Qed.

Lemma demo_tables_wf : tables_wf demo_tables (root_table_address demo_builder) demo_memory.
Proof.
  destruct demo_memory_spec as (Hok & Hs & He). split; [done|done| |].
  - intros ta l p Ht. apply demo_tables_lookup in Ht as (k & Hk & -> & -> & ->).
    split; [by apply demo_table_ok|]. by destruct k as [|[[]|[]|]|].
  - intros ta l p i Ht Hi. apply demo_tables_lookup in Ht as (k & Hk & -> & -> & ->).
    rewrite He by done. case_decide as Hd; [|done]. destruct Hd as [-> Hk3].
    assert (Hcase : k = 0 \/ k = 1 \/ k = 2) by lia.
    destruct Hcase as [-> |[-> | ->]]; intros _ _; (split; [reflexivity|by split]).
Qed.
Lemma demo_arena_wf : arena_wf demo_tables demo_builder.
Proof.
  split; [done|done|done|]. intros ta [[l p] Ht].
  apply demo_tables_lookup in Ht as (k & Hk & -> & _). left. simpl. lia.
Qed.
Lemma demo_size : bus_size demo_memory <= 2 ^ 52.
Proof. destruct demo_memory_spec as (_ & -> & _). lia. Qed.

(** A supervisor read-write page is mapped; the kernel's write is translated, a user's is refused. *)
Lemma map_4k_then_translate_witness :
  let s := map_4k 0x5000 0x9000 kernel_read_write_execute (demo_builder, demo_memory) in
  s.2 = Ok tt /\
  (translate demo_paging 0x5123 AccessKind.WRITE Ring.RING3 s.1.2).2 =
    Throw (make_page_fault 0x5123 AccessKind.WRITE Ring.RING3 FaultReason.USER_SUPERVISOR).
Proof.
  intros s. assert (Hs : s.2 = Ok tt) by reflexivity. split; [done|].
  destruct (map_4k_then_translate demo_paging demo_tables demo_builder demo_memory 0x5000 0x9000
    kernel_read_write_execute s.1.1 s.1.2 0x5123 AccessKind.WRITE Ring.RING3 demo_tables_wf
    demo_arena_wf demo_size ltac:(split; lia) ltac:(lia) (run_result s _ Hs) eq_refl
    ltac:(split; lia) ltac:(lia) eq_refl) as (T' & leaf & _ & _ & _ & Hr).
  exact Hr.
Defined.

Lemma map_2m_then_translate_witness :
  let s := map_2m 0x200000 0x600000 user_read_only_execute (demo_builder, demo_memory) in
  s.2 = Ok tt /\ exists leaf,
  (translate demo_paging 0x212345 AccessKind.READ Ring.RING3 s.1.2).2 =
    Ok (mkTranslation 0x200000 0x600000 (2 ^ 21) user_read_only_execute leaf false).
Proof.
  intros s. assert (Hs : s.2 = Ok tt) by reflexivity. split; [done|].
  destruct (map_2m_then_translate demo_paging demo_tables demo_builder demo_memory 0x200000 0x600000
    user_read_only_execute s.1.1 s.1.2 0x212345 AccessKind.READ Ring.RING3 demo_tables_wf
    demo_arena_wf demo_size ltac:(split; lia) ltac:(lia) (run_result s _ Hs) eq_refl
    ltac:(split; lia) ltac:(lia) eq_refl) as (T' & leaf & _ & _ & _ & Hr).
  exists leaf. exact Hr.
Defined.

Lemma map_4k_keeps_other_pages_witness :
  let s := map_4k 0x5000 0x9000 kernel_read_write_execute (demo_builder, demo_memory) in
  s.2 = Ok tt /\
  (translate demo_paging 0x6000 AccessKind.READ Ring.RING0 s.1.2).2 =
  (translate demo_paging 0x6000 AccessKind.READ Ring.RING0 demo_memory).2.
Proof.
  intros s. assert (Hs : s.2 = Ok tt) by reflexivity. split; [done|].
  apply (map_4k_keeps_other_pages demo_paging demo_tables demo_builder demo_memory 0x5000 0x9000
    kernel_read_write_execute s.1.1 s.1.2 0x6000 AccessKind.READ Ring.RING0 demo_tables_wf
    demo_arena_wf demo_size ltac:(split; lia) ltac:(lia) (run_result s _ Hs) eq_refl
    ltac:(split; lia) ltac:(split; lia) eq_refl). right. lia.
Defined.

Lemma translate_only_marks_witness :
  let s := translate demo_paging 0x5000 AccessKind.READ Ring.RING0 demo_memory in
  s.2 = Throw (make_page_fault 0x5000 AccessKind.READ Ring.RING0 FaultReason.NOT_PRESENT) /\
  tables_wf demo_tables 0 s.1.
Proof.
  intros s. assert (Hs : s = (s.1, s.2)) by (by destruct s).
  destruct (translate_only_marks demo_paging demo_tables demo_memory 0x5000 AccessKind.READ Ring.RING0
    s.1 s.2 demo_tables_wf eq_refl Hs) as (Hwf & _ & _). split; [reflexivity|exact Hwf].
Defined.

Lemma clear_root_table_establishes_witness :
  exists b', clear_root_table (demo_builder, demo_memory) = ((demo_builder, b'), Ok tt) /\
  tables_wf {[0 := (Level.PML4, 0)]} 0 b'.
Proof.
  destruct demo_memory_spec as (Hok & Hs & _).
  destruct (clear_root_table_establishes demo_paging demo_builder demo_memory 0x1000 AccessKind.READ
    Ring.RING0 Hok (demo_table_ok demo_memory 0 Hs ltac:(lia)) eq_refl eq_refl) as (b' & H1 & H2 & _).
  exists b'. split; [exact H1|exact H2].
Defined.
