(* ===== verification/Tlb.v ===== *)
(** * Translation lookaside buffer and shootdown

    Models src/cpu/memory/tlb.cpp, a direct-mapped buffer of 64 translations tagged with the paging
    generation and the process-context id, and src/cpu/memory/tlb_shootdown.cpp, the queue of
    invalidation requests between cores. *)

From S2P Require Import Prelude Common Paging.

(** ** State *)

Definition TLB_ENTRY_COUNT : Z := 64.

(* [include/mnos/cpu/memory/tlb.hpp] [Entry] [38-44] *)
Record TlbEntry : Set := mkTlbEntry {
  te_translation : PageTranslation;
  te_generation : Z;
  te_context : Z;
  te_valid : bool;
}.
Definition empty_translation : PageTranslation :=
  mkTranslation 0 0 PAGE_SIZE_4K_BYTES (mkPermissions false false true) 0 false.
Definition empty_entry : TlbEntry := mkTlbEntry empty_translation 0 0 false.

(* [include/mnos/cpu/memory/tlb.hpp] [TranslationLookasideBuffer] *)
Record TranslationLookasideBuffer : Set := mkTlb {
  entries : list TlbEntry;
  tlb_size : Z;
}.
Definition make_tlb : TranslationLookasideBuffer :=
  mkTlb (replicate (Z.to_nat TLB_ENTRY_COUNT) empty_entry) 0.

(** ** Operations *)

(* [src/cpu/memory/tlb.cpp] [TranslationLookasideBuffer::slot_index] *)
Definition slot_index (linear_address : Z) : Z :=
  Z.shiftr linear_address 12 `mod` TLB_ENTRY_COUNT.

Definition invalidate_entry (e : TlbEntry) : TlbEntry :=
  mkTlbEntry (te_translation e) (te_generation e) (te_context e) false.

(* [src/cpu/memory/tlb.cpp] [TranslationLookasideBuffer::clear] *)
Definition clear (t : TranslationLookasideBuffer) : TranslationLookasideBuffer :=
  mkTlb (invalidate_entry <$> entries t) 0.

(** The loop shared by the three invalidations: entries that are valid and match are dropped and
    counted off. *)
Definition invalidate_where (matches : TlbEntry -> bool) (t : TranslationLookasideBuffer)
  : TranslationLookasideBuffer :=
  foldl (fun t' e =>
    if te_valid e && matches e then
      mkTlb (entries t' ++ [invalidate_entry e]) (sub64 (tlb_size t') 1)
    else mkTlb (entries t' ++ [e]) (tlb_size t')) (mkTlb [] (tlb_size t)) (entries t).

(* [src/cpu/memory/tlb.cpp] [TranslationLookasideBuffer::invalidate_page] *)
Definition invalidate_page (linear_address : Z) : TranslationLookasideBuffer -> TranslationLookasideBuffer :=
  invalidate_where (fun e => translation_contains (te_translation e) linear_address).
(* [src/cpu/memory/tlb.cpp] [TranslationLookasideBuffer::invalidate_page #2] *)
Definition invalidate_page_context (linear_address context_id : Z)
  : TranslationLookasideBuffer -> TranslationLookasideBuffer :=
  invalidate_where (fun e => (te_context e =? context_id) &&
                             translation_contains (te_translation e) linear_address).
(* [src/cpu/memory/tlb.cpp] [TranslationLookasideBuffer::invalidate_context] *)
Definition invalidate_context (context_id : Z)
  : TranslationLookasideBuffer -> TranslationLookasideBuffer :=
  invalidate_where (fun e => te_context e =? context_id).

Definition entry_at (t : TranslationLookasideBuffer) (i : Z) : TlbEntry :=
  nth (Z.to_nat i) (entries t) empty_entry.

(** The C++ returns a pointer into the entry; callers that write through it use [set_slot_dirty]. *)
(* [src/cpu/memory/tlb.cpp] [TranslationLookasideBuffer::lookup #2] *)
Definition lookup (t : TranslationLookasideBuffer) (linear_address paging_generation context_id : Z)
  : option PageTranslation :=
  let e := entry_at t (slot_index linear_address) in
  if negb (te_valid e) || negb (te_generation e =? paging_generation) ||
     negb (te_context e =? context_id) || negb (translation_contains (te_translation e) linear_address)
  then None else Some (te_translation e).

(* [src/cpu/memory/tlb.cpp] [TranslationLookasideBuffer::insert #2] *)
Definition insert (translation : PageTranslation) (paging_generation context_id : Z)
    (t : TranslationLookasideBuffer) : TranslationLookasideBuffer :=
  let i := slot_index (virtual_page_base translation) in
  let size := if te_valid (entry_at t i) then tlb_size t else wrap64 (tlb_size t + 1) in
  mkTlb (<[Z.to_nat i := mkTlbEntry translation paging_generation context_id true]> (entries t)) size.

Definition set_slot_dirty (linear_address : Z) (t : TranslationLookasideBuffer)
  : TranslationLookasideBuffer :=
  let i := slot_index linear_address in
  let e := entry_at t i in
  mkTlb (<[Z.to_nat i := mkTlbEntry (set_dirty true (te_translation e)) (te_generation e)
             (te_context e) (te_valid e)]> (entries t)) (tlb_size t).

(** ** Invariant *)

Definition valid_count (es : list TlbEntry) : Z := lenZ (filter (fun e => te_valid e = true) es).

(** Sixty-four slots, every valid translation in the slot of its page, and a correct size. *)
Record tlb_wf (t : TranslationLookasideBuffer) : Prop := {
  tlb_len : length (entries t) = 64%nat;
  tlb_placed i e : entries t !! i = Some e -> te_valid e = true ->
    slot_index (virtual_page_base (te_translation e)) = Z.of_nat i;
  tlb_count : tlb_size t = valid_count (entries t);
}.

Lemma slot_index_range a : 0 <= slot_index a < 64.
Proof. apply Z.mod_pos_bound. unfold TLB_ENTRY_COUNT. lia. Qed.
Lemma entry_at_lookup t a : tlb_wf t ->
  entries t !! Z.to_nat (slot_index a) = Some (entry_at t (slot_index a)).
Proof.
  intros Hwf. unfold entry_at. pose proof (slot_index_range a). pose proof (tlb_len _ Hwf).
  destruct (entries t !! Z.to_nat (slot_index a)) as [e|] eqn:E.
  - by rewrite (nth_lookup_Some _ _ empty_entry _ E).
  - apply lookup_ge_None in E. lia.
Qed.
Lemma valid_count_bound es : 0 <= valid_count es <= lenZ es.
Proof. unfold valid_count, lenZ. pose proof (length_filter (fun e => te_valid e = true) es). lia. Qed.

(** What invalidation does, without the accounting. *)
Definition drop_entry (matches : TlbEntry -> bool) (e : TlbEntry) : TlbEntry :=
  if te_valid e && matches e then invalidate_entry e else e.

Lemma valid_count_cons e l : valid_count (e :: l) = (if te_valid e then 1 else 0) + valid_count l.
Proof. unfold valid_count, lenZ. rewrite filter_cons. destruct (te_valid e); simpl; lia. Qed.
Lemma valid_count_snoc e l : valid_count (l ++ [e]) = valid_count l + (if te_valid e then 1 else 0).
Proof.
  unfold valid_count, lenZ. rewrite filter_app, length_app, filter_cons.
  destruct (te_valid e); simpl; lia.
Qed.

Lemma invalidate_loop matches es acc : valid_count acc + valid_count es <= 64 ->
  foldl (fun t' e => if te_valid e && matches e
      then mkTlb (entries t' ++ [invalidate_entry e]) (sub64 (tlb_size t') 1)
      else mkTlb (entries t' ++ [e]) (tlb_size t')) (mkTlb acc (valid_count acc + valid_count es)) es =
  mkTlb (acc ++ (drop_entry matches <$> es))
    (valid_count acc + valid_count ((drop_entry matches <$> es))).
Proof.
  revert acc. induction es as [|e es IH]; intros acc Hb; csimpl.
  { by rewrite app_nil_r. }
  pose proof (valid_count_bound acc). pose proof (valid_count_bound es).
  rewrite valid_count_cons in Hb |- *. rewrite valid_count_cons.
  replace (drop_entry matches e) with (if te_valid e && matches e then invalidate_entry e else e)
    by done.
  destruct (te_valid e && matches e) eqn:Ev; csimpl.
  - apply andb_true_iff in Ev as [Ev _]. rewrite Ev in *. rewrite sub64_small by lia.
    replace (valid_count acc + (1 + valid_count es) - 1)
      with (valid_count (acc ++ [invalidate_entry e]) + valid_count es)
      by (rewrite valid_count_snoc; csimpl; lia).
    rewrite IH by (rewrite valid_count_snoc; csimpl; lia).
    rewrite valid_count_snoc, <- app_assoc. csimpl. f_equal. lia.
  - replace (valid_count acc + ((if te_valid e then 1 else 0) + valid_count es))
      with (valid_count (acc ++ [e]) + valid_count es) by (rewrite valid_count_snoc; lia).
    rewrite IH by (rewrite valid_count_snoc; lia).
    rewrite valid_count_snoc, <- app_assoc. csimpl. f_equal. lia.
Qed.

Lemma invalidate_where_spec matches t : tlb_wf t ->
  entries (invalidate_where matches t) = (drop_entry matches <$> entries t) /\
  tlb_size (invalidate_where matches t) = valid_count ((drop_entry matches <$> entries t)).
Proof.
  intros Hwf. unfold invalidate_where. rewrite (tlb_count _ Hwf).
  pose proof (valid_count_bound (entries t)) as Hb. unfold lenZ in Hb.
  rewrite (tlb_len _ Hwf) in Hb.
  pose proof (invalidate_loop matches (entries t) [] ltac:(change (valid_count []) with 0; lia)) as Hl.
  change (valid_count []) with 0 in Hl. rewrite !Z.add_0_l in Hl. by rewrite Hl.
Qed.

Lemma invalidate_where_wf matches t : tlb_wf t -> tlb_wf (invalidate_where matches t).
Proof.
  intros Hwf. destruct (invalidate_where_spec matches t Hwf) as [He Hs]. split.
  - rewrite He, length_fmap. apply Hwf.
  - rewrite He. intros i e. rewrite list_lookup_fmap. intros (e0 & H0 & ->)%fmap_Some.
    unfold drop_entry. destruct (te_valid e0 && matches e0); [done|]. by apply Hwf.
  - by rewrite Hs, He.
Qed.

Lemma invalidate_where_entry_at matches t a : tlb_wf t ->
  entry_at (invalidate_where matches t) (slot_index a) = drop_entry matches (entry_at t (slot_index a)).
Proof.
  intros Hwf. destruct (invalidate_where_spec matches t Hwf) as [He _].
  pose proof (entry_at_lookup t a Hwf) as Hl. unfold entry_at at 1. rewrite He.
  apply nth_lookup_Some. by rewrite list_lookup_fmap, Hl.
Qed.

(** Exactly the matching translations stop being found. *)
Lemma lookup_invalidate_where matches t a g c : tlb_wf t ->
  lookup (invalidate_where matches t) a g c =
  if matches (entry_at t (slot_index a)) then None else lookup t a g c.
Proof.
  intros Hwf. unfold lookup. rewrite invalidate_where_entry_at by done. unfold drop_entry.
  destruct (te_valid (entry_at t (slot_index a))) eqn:Ev; simpl.
  - destruct (matches (entry_at t (slot_index a))) eqn:Em; simpl; [done|]. by rewrite Ev.
  - rewrite Ev. simpl. by destruct (matches _).
Qed.

Lemma make_tlb_wf : tlb_wf make_tlb.
Proof.
  split; [done| |done]. intros i e Hi Hv. apply lookup_replicate in Hi as [-> _]. done.
Qed.
Lemma tlb_clear_wf t : tlb_wf t -> tlb_wf (clear t).
Proof.
  intros Hwf. split; simpl.
  - rewrite length_fmap. apply Hwf.
  - intros i e. rewrite list_lookup_fmap. intros (e0 & _ & ->)%fmap_Some. done.
  - induction (entries t) as [|e es IH]; [done|]. csimpl. by rewrite valid_count_cons.
Qed.
Lemma lookup_clear t a g c : lookup (clear t) a g c = None.
Proof.
  unfold lookup. assert (Hv : te_valid (entry_at (clear t) (slot_index a)) = false); [|by rewrite Hv].
  unfold entry_at, clear. simpl. rewrite nth_lookup, list_lookup_fmap.
  by destruct (entries t !! Z.to_nat (slot_index a)).
Qed.

Lemma valid_count_insert es i e e' : es !! i = Some e ->
  valid_count (<[i := e']> es) =
  valid_count es - (if te_valid e then 1 else 0) + (if te_valid e' then 1 else 0).
Proof.
  revert i. induction es as [|e0 es IH]; intros [|i] Hi; [done..| |].
  - injection Hi as ->. simpl. rewrite !valid_count_cons. lia.
  - simpl in *. rewrite !valid_count_cons, (IH i) by done. lia.
Qed.

Lemma insert_wf tr g c t : tlb_wf t -> tlb_wf (insert tr g c t).
Proof.
  intros Hwf. set (a := virtual_page_base tr). pose proof (entry_at_lookup t a Hwf) as Hl.
  pose proof (slot_index_range a). split; cbn [insert entries tlb_size].
  - rewrite length_insert. apply Hwf.
  - intros i e. rewrite list_lookup_insert_Some. intros [(<- & <- & _)|[_ Hi]] Hv.
    + simpl. fold a. lia.
    + by apply (tlb_placed _ Hwf i e).
  - fold a. rewrite (valid_count_insert _ _ _ _ Hl), (tlb_count _ Hwf). simpl.
    pose proof (valid_count_bound (entries t)) as Hb. unfold lenZ in Hb. rewrite (tlb_len _ Hwf) in Hb.
    destruct (te_valid (entry_at t (slot_index a))); [lia|].
    rewrite wrap64_small by (unfold u64; lia). lia.
Qed.

Lemma entry_at_insert tr g c t a : tlb_wf t ->
  entry_at (insert tr g c t) (slot_index a) =
  if decide (slot_index a = slot_index (virtual_page_base tr)) then mkTlbEntry tr g c true
  else entry_at t (slot_index a).
Proof.
  intros Hwf. pose proof (slot_index_range a). pose proof (slot_index_range (virtual_page_base tr)).
  pose proof (entry_at_lookup t a Hwf) as Hl. unfold entry_at, insert. cbn [entries].
  apply nth_lookup_Some. case_decide as Hd.
  - rewrite Hd. apply list_lookup_insert_eq. rewrite (tlb_len _ Hwf). lia.
  - rewrite list_lookup_insert_ne by lia. exact Hl.
Qed.

Lemma set_slot_dirty_wf a t : tlb_wf t -> tlb_wf (set_slot_dirty a t).
Proof.
  intros Hwf. pose proof (entry_at_lookup t a Hwf) as Hl. split; cbn [set_slot_dirty entries tlb_size].
  - rewrite length_insert. apply Hwf.
  - intros i e. rewrite list_lookup_insert_Some. intros [(<- & <- & _)|[_ Hi]] Hv.
    + simpl in *. by apply (tlb_placed _ Hwf).
    + by apply (tlb_placed _ Hwf i e).
  - rewrite (valid_count_insert _ _ _ _ Hl), (tlb_count _ Hwf). simpl. lia.
Qed.
Lemma entry_at_set_slot_dirty a t a' : tlb_wf t ->
  entry_at (set_slot_dirty a t) (slot_index a') =
  let e := entry_at t (slot_index a') in
  if decide (slot_index a' = slot_index a)
  then mkTlbEntry (set_dirty true (te_translation e)) (te_generation e) (te_context e) (te_valid e)
  else e.
Proof.
  intros Hwf. pose proof (slot_index_range a). pose proof (slot_index_range a').
  pose proof (entry_at_lookup t a' Hwf) as Hl. unfold entry_at, set_slot_dirty. cbn [entries].
  apply nth_lookup_Some. cbn zeta. case_decide as Hd.
  - rewrite Hd. apply list_lookup_insert_eq. rewrite (tlb_len _ Hwf). lia.
  - rewrite list_lookup_insert_ne by lia. exact Hl.
Qed.

Lemma lookup_Some t a g c tr : lookup t a g c = Some tr <->
  entry_at t (slot_index a) = mkTlbEntry tr g c true /\ translation_contains tr a = true.
Proof.
  unfold lookup. destruct (entry_at t (slot_index a)) as [tr' g' c' v]; simpl.
  destruct v; simpl; [|by split; [|intros [[=] _]]].
  destruct (Z.eqb_spec g' g) as [->|]; simpl; [|split; [done|intros [[=] _]; congruence]].
  destruct (Z.eqb_spec c' c) as [->|]; simpl; [|split; [done|intros [[=] _]; congruence]].
  destruct (translation_contains tr' a) eqn:E; simpl.
  - split; [intros [= ->]; done|by intros [[= ->] _]].
  - split; [done|]. intros [[= ->] ?]. congruence.
Qed.

(** ** Shootdown requests *)

Module Scope.
(* [include/mnos/cpu/memory/tlb_shootdown.hpp] [TlbShootdownScope] *)
Inductive TlbShootdownScope : Set := PAGE | ALL.
End Scope.

(* [include/mnos/cpu/memory/tlb_shootdown.hpp] [TlbShootdownRequest] *)
Record TlbShootdownRequest : Set := mkRequest {
  rq_sequence : Z;
  rq_source_core : Z;
  rq_target_core : Z;
  rq_scope : Scope.TlbShootdownScope;
  rq_linear_address : option Z;
  rq_context_id : option Z;
}.

(* [src/cpu/memory/tlb_shootdown.cpp] [TlbShootdownRequest::page] *)
Definition page_request (sequence source target linear_address : Z) (context_id : option Z)
  : TlbShootdownRequest :=
  mkRequest sequence source target Scope.PAGE (Some linear_address) context_id.
(* [src/cpu/memory/tlb_shootdown.cpp] [TlbShootdownRequest::all] *)
Definition all_request (sequence source target : Z) (context_id : option Z) : TlbShootdownRequest :=
  mkRequest sequence source target Scope.ALL None context_id.

(* [src/cpu/memory/tlb_shootdown.cpp] [TlbShootdownRequest::linear_address] *)
Definition linear_address (r : TlbShootdownRequest) : res Z :=
  match rq_linear_address r with None => Throw logic_error | Some a => Ok a end.
(* [src/cpu/memory/tlb_shootdown.cpp] [TlbShootdownRequest::process_context_id] *)
Definition request_context_id (r : TlbShootdownRequest) : res Z :=
  match rq_context_id r with None => Throw logic_error | Some c => Ok c end.

(* [include/mnos/cpu/memory/tlb_shootdown.hpp] [TlbShootdownController] *)
Record TlbShootdownController : Set := mkController {
  ctl_next_sequence : Z;
  pending_requests : list TlbShootdownRequest;
  acknowledged_sequences : list Z;
  acknowledged_sequence_set : gset Z;
}.
Definition make_controller : TlbShootdownController := mkController 1 [] [] ∅.

(* [src/cpu/memory/tlb_shootdown.cpp] [TlbShootdownController::next_sequence] *)
Definition next_sequence : M TlbShootdownController Z := fun c =>
  (mkController (wrap64 (ctl_next_sequence c + 1)) (pending_requests c) (acknowledged_sequences c)
     (acknowledged_sequence_set c), Ok (ctl_next_sequence c)).
Definition push_request (r : TlbShootdownRequest) : M TlbShootdownController TlbShootdownRequest :=
  fun c => (mkController (ctl_next_sequence c) (pending_requests c ++ [r]) (acknowledged_sequences c)
     (acknowledged_sequence_set c), Ok r).

(* [src/cpu/memory/tlb_shootdown.cpp] [TlbShootdownController::request_page] *)
Definition request_page (source target linear_address : Z) (context_id : option Z)
  : M TlbShootdownController TlbShootdownRequest :=
  next_sequence ≫= fun sequence =>
  push_request (page_request sequence source target linear_address context_id).
(* [src/cpu/memory/tlb_shootdown.cpp] [TlbShootdownController::request_all] *)
Definition request_all (source target : Z) (context_id : option Z)
  : M TlbShootdownController TlbShootdownRequest :=
  next_sequence ≫= fun sequence => push_request (all_request sequence source target context_id).

(* [src/cpu/memory/tlb_shootdown.cpp] [TlbShootdownController::has_pending_for] *)
Definition has_pending_for (c : TlbShootdownController) (target : Z) : bool :=
  existsb (fun r => rq_target_core r =? target) (pending_requests c).

(** The loop of [take_next_for]: the first request for the target and the list without it. *)
Fixpoint take_first (target : Z) (rs : list TlbShootdownRequest)
  : option (TlbShootdownRequest * list TlbShootdownRequest) :=
  match rs with
  | [] => None
  | r :: rs' =>
      if rq_target_core r =? target then Some (r, rs')
      else match take_first target rs' with
           | None => None
           | Some (r', rs'') => Some (r', r :: rs'')
           end
  end.
(* [src/cpu/memory/tlb_shootdown.cpp] [TlbShootdownController::take_next_for] *)
Definition take_next_for (target : Z) : M TlbShootdownController (option TlbShootdownRequest) :=
  fun c => match take_first target (pending_requests c) with
           | None => (c, Ok None)
           | Some (r, rs) => (mkController (ctl_next_sequence c) rs (acknowledged_sequences c)
                                (acknowledged_sequence_set c), Ok (Some r))
           end.

(* [src/cpu/memory/tlb_shootdown.cpp] [TlbShootdownController::acknowledge] *)
Definition acknowledge (sequence : Z) (c : TlbShootdownController) : TlbShootdownController :=
  if bool_decide (sequence ∈ acknowledged_sequence_set c) then c
  else mkController (ctl_next_sequence c) (pending_requests c)
         (acknowledged_sequences c ++ [sequence]) ({[sequence]} ∪ acknowledged_sequence_set c).
(* [src/cpu/memory/tlb_shootdown.cpp] [TlbShootdownController::has_acknowledged] *)
Definition has_acknowledged (c : TlbShootdownController) (sequence : Z) : bool :=
  bool_decide (sequence ∈ acknowledged_sequence_set c).

(** The memory-management unit's invalidations delegate to its buffer. *)
(* [src/cpu/memory/tlb_shootdown.cpp] [TlbShootdownController::apply] *)
Definition apply_request (r : TlbShootdownRequest)
  : M (TlbShootdownController * TranslationLookasideBuffer) unit :=
  (match rq_scope r with
   | Scope.PAGE =>
       match rq_context_id r with
       | Some _ => lift (fun _ => linear_address r) ≫= fun a =>
           lift (fun _ => request_context_id r) ≫= fun c =>
           modify (fun '(ctl, t) => (ctl, invalidate_page_context a c t))
       | None => lift (fun _ => linear_address r) ≫= fun a =>
           modify (fun '(ctl, t) => (ctl, invalidate_page a t))
       end
   | Scope.ALL =>
       match rq_context_id r with
       | Some _ => lift (fun _ => request_context_id r) ≫= fun c =>
           modify (fun '(ctl, t) => (ctl, invalidate_context c t))
       | None => modify (fun '(ctl, t) => (ctl, clear t))
       end
   end) ≫= fun _ =>
  modify (fun '(ctl, t) => (acknowledge (rq_sequence r) ctl, t)).

(** ** Specification *)

(** The translations a request is about. *)
Definition covers (r : TlbShootdownRequest) (context_id : Z) (tr : PageTranslation) : bool :=
  match rq_context_id r with None => true | Some c => context_id =? c end &&
  match rq_linear_address r with None => true | Some a => translation_contains tr a end.
(** A page request carries an address and a whole-buffer request does not. *)
Definition request_ok (r : TlbShootdownRequest) : Prop :=
  match rq_scope r with
  | Scope.PAGE => is_Some (rq_linear_address r)
  | Scope.ALL => rq_linear_address r = None
  end.

(** The controller's invariant, while fewer than [2^64 - 1] requests were made. *)
Record controller_wf (c : TlbShootdownController) : Prop := {
  ctl_requests : Forall request_ok (pending_requests c);
  ctl_order : StronglySorted (fun r1 r2 => rq_sequence r1 < rq_sequence r2) (pending_requests c);
  ctl_below : Forall (fun r => 1 <= rq_sequence r < ctl_next_sequence c) (pending_requests c);
  ctl_next : 1 <= ctl_next_sequence c < W64;
  ctl_acks : NoDup (acknowledged_sequences c) /\
    forall s, s ∈ acknowledged_sequences c <-> s ∈ acknowledged_sequence_set c;
}.

Lemma lookup_covered matches t a g c tr :
  tlb_wf t ->
  lookup (invalidate_where matches t) a g c = Some tr <->
  lookup t a g c = Some tr /\ matches (mkTlbEntry tr g c true) = false.
Proof.
  intros Hwf. rewrite lookup_invalidate_where by done.
  destruct (matches (entry_at t (slot_index a))) eqn:Em; split.
  - done.
  - intros [Hl Hm]. apply lookup_Some in Hl as [He _]. congruence.
  - intros Hl. split; [done|]. apply lookup_Some in Hl as [He _]. congruence.
  - by intros [? _].
Qed.

Lemma take_first_Some target rs r rs' : take_first target rs = Some (r, rs') ->
  exists p q, rs = p ++ r :: q /\ rs' = p ++ q /\ rq_target_core r = target /\
    Forall (fun r0 => rq_target_core r0 <> target) p.
Proof.
  revert rs'. induction rs as [|r0 rs IH]; intros rs' Ht; simpl in Ht; [done|].
  destruct (Z.eqb_spec (rq_target_core r0) target).
  - injection Ht as <- <-. by exists [], rs.
  - destruct (take_first target rs) as [[r1 rs1]|]; [|done]. injection Ht as <- <-.
    destruct (IH rs1 eq_refl) as (p & q & -> & -> & Hr & Hp). exists (r0 :: p), q.
    repeat split; [done|]. by constructor.
Qed.
Lemma take_first_None target rs : take_first target rs = None ->
  Forall (fun r => rq_target_core r <> target) rs.
Proof.
  induction rs as [|r rs IH]; simpl; [constructor|]. destruct (Z.eqb_spec (rq_target_core r) target); [done|].
  destruct (take_first target rs) as [[]|]; [done|]. constructor; auto.
Qed.

(** ** Properties *)

(** Applying a shootdown request removes exactly the translations it covers from the target's
    buffer, for every paging generation; every other lookup is unchanged, the buffer's invariant
    is kept and the request is acknowledged once. *)
Theorem shootdown_apply_effect r ctl t : tlb_wf t -> request_ok r -> controller_wf ctl ->
  exists ctl' t', apply_request r (ctl, t) = ((ctl', t'), Ok tt) /\ tlb_wf t' /\
    (forall a g c tr, lookup t' a g c = Some tr <->
       lookup t a g c = Some tr /\ covers r c tr = false) /\
    has_acknowledged ctl' (rq_sequence r) = true /\ controller_wf ctl'.
Proof.
  intros Hwf Hr Hctl. unfold apply_request, linear_address, request_context_id. munfold_goal.
  assert (Hack : has_acknowledged (acknowledge (rq_sequence r) ctl) (rq_sequence r) = true /\
    controller_wf (acknowledge (rq_sequence r) ctl)).
  { unfold acknowledge, has_acknowledged. 
    destruct (bool_decide (rq_sequence r ∈ acknowledged_sequence_set ctl)) eqn:Hin; [done|].
    apply bool_decide_eq_false in Hin. simpl.
    split; [apply bool_decide_true; set_solver|]. destruct Hctl as [C1 C2 C3 C4 [C5 C6]].
    split; [done..|]. simpl. split.
    - apply NoDup_app. split; [done|]. split; [|apply NoDup_singleton].
      intros s Hs ->%list_elem_of_singleton. apply Hin. by apply C6.
    - intros s. rewrite elem_of_app, list_elem_of_singleton, C6. set_solver. }
  unfold request_ok in Hr. unfold covers.
  destruct (rq_scope r); [destruct Hr as [a Ha]; rewrite Ha|rewrite Hr];
    destruct (rq_context_id r) as [c0|];
    (eexists _, _; split; [reflexivity|split; [|split; [|done]]]);
    try (by apply invalidate_where_wf || by apply tlb_clear_wf).
  - intros a' g c tr. unfold invalidate_page_context. by rewrite lookup_covered.
  - intros a' g c tr. unfold invalidate_page. by rewrite lookup_covered.
  - intros a' g c tr. unfold invalidate_context. rewrite lookup_covered by done. by rewrite andb_true_r.
  - intros a' g c tr. rewrite lookup_clear. by split; [|intros [_ ?]].
Qed.

(** The queue serves each core's requests in the order they were made: the request taken is the
    oldest one pending for the target, all others stay pending in order, and [None] is returned
    only when nothing is pending for it. *)
Theorem shootdown_take_is_fifo ctl target ctl' o :
  controller_wf ctl -> take_next_for target ctl = (ctl', Ok o) ->
  controller_wf ctl' /\
  match o with
  | None => ctl' = ctl /\ has_pending_for ctl target = false
  | Some r => rq_target_core r = target /\ has_pending_for ctl target = true /\
      pending_requests ctl ≡ₚ r :: pending_requests ctl' /\
      forall r', r' ∈ pending_requests ctl' -> rq_target_core r' = target ->
        rq_sequence r < rq_sequence r'
  end.
Proof.
  intros Hwf. unfold take_next_for, has_pending_for.
  destruct (take_first target (pending_requests ctl)) as [[r rs]|] eqn:Ht; intros [=]; subst.
  - destruct (take_first_Some _ _ _ _ Ht) as (p & q & Hpq & -> & Hr & Hp).
    destruct Hwf as [C1 C2 C3 C4 C5]. rewrite Hpq in *. clear Ht.
    apply Forall_app in C1 as [C1p C1q], C3 as [C3p C3q]. apply StronglySorted_app in C2 as (C2 & C2p & C2q).
    apply Forall_cons in C1q as [_ C1q], C3q as [_ C3q].
    apply StronglySorted_inv in C2q as [C2q C2r]. split.
    + split; simpl; [by apply Forall_app| |by apply Forall_app|done|done].
      apply StronglySorted_app. split; [|done]. intros x1 x2 H1 H2. apply C2; [done|]. by right.
    + split; [done|]. split; [|split].
      * apply existsb_exists. exists r. split; [|by apply Z.eqb_eq].
        apply list_elem_of_In, elem_of_app. right. by left.
      * simpl. solve_Permutation.
      * simpl. intros r' [Hin|Hin]%elem_of_app Htgt.
        -- rewrite Forall_forall in Hp. by apply Hp in Hin.
        -- rewrite Forall_forall in C2r. by apply C2r.
  - split; [done|]. split; [done|]. apply take_first_None in Ht. apply not_true_is_false.
    intros Hex. apply existsb_exists in Hex as (r & Hin & Hr). apply list_elem_of_In in Hin.
    rewrite Forall_forall in Ht. apply (Ht _ Hin). by apply Z.eqb_eq.
Qed.

(** The buffer's invariant (every valid translation in the slot of its page, an exact size)
    holds initially and is kept by every operation, so an inserted translation is found for every
    address of its first page and a missing one is never invented. *)
Theorem tlb_insert_lookup t tr g c a g' c' : tlb_wf t ->
  slot_index a = slot_index (virtual_page_base tr) ->
  tlb_wf (insert tr g c t) /\
  lookup (insert tr g c t) a g' c' =
    (if decide (g' = g /\ c' = c /\ translation_contains tr a = true) then Some tr else None) /\
  forall a', slot_index a' <> slot_index (virtual_page_base tr) ->
    lookup (insert tr g c t) a' g' c' = lookup t a' g' c'.
Proof.
  intros Hwf Hs. split; [by apply insert_wf|]. split.
  - unfold lookup. rewrite entry_at_insert, decide_True by done. simpl.
    destruct (Z.eqb_spec g g'), (Z.eqb_spec c c'), (translation_contains tr a); simpl;
      case_decide as Hd; naive_solver.
  - intros a' Hne. unfold lookup. by rewrite entry_at_insert, decide_False.
Qed.

Definition demo_translation : PageTranslation :=
  mkTranslation 0x5000 0x9000 4096 user_read_write_execute 0x3028 true.

Lemma shootdown_apply_effect_witness :
  let t := insert demo_translation 3 1 make_tlb in
  lookup t 0x5010 3 1 = Some demo_translation /\
  exists ctl' t', apply_request (page_request 1 0 1 0x5000 (Some 1)) (make_controller, t) =
    ((ctl', t'), Ok tt) /\ lookup t' 0x5010 3 1 = None.
Proof.
  intros t. split; [reflexivity|].
  assert (Hctl : controller_wf make_controller)
    by (split; simpl; [constructor|constructor|constructor|lia|split; [constructor|set_solver]]).
  destruct (shootdown_apply_effect (page_request 1 0 1 0x5000 (Some 1)) make_controller t)
    as (ctl' & t' & Ha & _ & Hl & _);
    [apply insert_wf, make_tlb_wf|by eexists|done|].
  exists ctl', t'. split; [exact Ha|]. destruct (lookup t' 0x5010 3 1) as [tr|] eqn:E; [|done].
  apply Hl in E as [E1 E2]. vm_compute in E1. injection E1 as <-. vm_compute in E2. discriminate E2.
Defined.

Lemma shootdown_take_is_fifo_witness :
  let r1 := page_request 1 0 1 0x5000 None in let r2 := all_request 2 0 1 None in
  exists ctl', take_next_for 1 (mkController 3 [r1; r2] [] ∅) = (ctl', Ok (Some r1)) /\
  pending_requests ctl' = [r2] /\ controller_wf ctl'.
Proof.
  intros r1 r2. eexists. split; [reflexivity|]. split; [reflexivity|].
  apply (shootdown_take_is_fifo (mkController 3 [r1; r2] [] ∅) 1 _ (Some r1)); [|reflexivity].
  split; simpl; [|repeat constructor; simpl; lia|repeat constructor; simpl; lia|lia|split; [constructor|set_solver]].
  repeat constructor. by eexists.
Defined.

Lemma tlb_insert_lookup_witness :
  lookup (insert demo_translation 3 1 make_tlb) 0x5FFF 3 1 = Some demo_translation.
Proof.
  destruct (tlb_insert_lookup make_tlb demo_translation 3 1 0x5FFF 3 1 make_tlb_wf eq_refl)
    as (_ & Hl & _). exact Hl.
Defined.
