(* ===== verification/Cache.v ===== *)
(** * Set-associative cache model

    Models src/cpu/memory/cache.cpp: geometry, hit and victim search, fills, evictions and the
    line-by-line walk of an access.  The main theorem shows that the array of tick-stamped lines
    implements a least-recently-used list per set. *)

From S2P Require Import Prelude.

Module CacheKind.
(* [include/mnos/cpu/memory/cache.hpp] [CacheAccessKind] *)
Inductive CacheAccessKind : Set := READ | WRITE | EXECUTE.
End CacheKind.
Module WritePolicy.
(* [include/mnos/cpu/memory/cache.hpp] [CacheWritePolicy] *)
Inductive CacheWritePolicy : Set := WRITE_BACK | WRITE_THROUGH.
End WritePolicy.
Abbreviation CacheAccessKind := CacheKind.CacheAccessKind.
Abbreviation CacheWritePolicy := WritePolicy.CacheWritePolicy.

(** ** Geometry *)

(* [include/mnos/cpu/memory/cache.hpp] [CacheGeometry] *)
Record CacheGeometry : Set := mkGeometry {
  line_size_bytes : Z;
  set_count : Z;
  associativity : Z;
  line_size_shift : Z;
  set_count_shift : Z;
  set_index_mask : Z;
}.

(* [src/cpu/memory/cache.cpp] [is_power_of_two] *)
Definition is_power_of_two (value : Z) : bool :=
  negb (value =? 0) && (Z.land value (sub64 value 1) =? 0).
(** [std::countr_zero] on 64-bit words. *)
(* [src/cpu/memory/cache.cpp] [log2_power_of_two] *)
Definition log2_power_of_two (value : Z) : Z :=
  if value =? 0 then 64 else Z.log2 (Z.land value (- value)).

(* [src/cpu/memory/cache.cpp] [CacheGeometry::CacheGeometry] *)
Definition make_geometry (line_size set_cnt assoc : Z) : res CacheGeometry :=
  if negb (is_power_of_two line_size) || negb (is_power_of_two set_cnt) ||
     negb (is_power_of_two assoc) then Throw invalid_argument
  else Ok (mkGeometry line_size set_cnt assoc (log2_power_of_two line_size)
             (log2_power_of_two set_cnt) (sub64 set_cnt 1)).
(* [src/cpu/memory/cache.cpp] [CacheGeometry::line_count] *)
Definition line_count (g : CacheGeometry) : Z := mul64 (set_count g) (associativity g).
(* [src/cpu/memory/cache.cpp] [CacheGeometry::capacity_bytes] *)
Definition capacity_bytes (g : CacheGeometry) : Z := mul64 (line_count g) (line_size_bytes g).

(** ** Access results *)

(* [include/mnos/cpu/memory/cache.hpp] [CacheAccessResult] *)
Record CacheAccessResult : Set := mkResult {
  hit_count : Z;
  miss_count : Z;
  dirty_eviction_count : Z;
}.
Definition empty_result : CacheAccessResult := mkResult 0 0 0.

(* [src/cpu/memory/cache.cpp] [CacheAccessResult::touched_line_count] *)
Definition touched_line_count (r : CacheAccessResult) : Z := add64 (hit_count r) (miss_count r).
(* [src/cpu/memory/cache.cpp] [CacheAccessResult::all_hits] *)
Definition all_hits (r : CacheAccessResult) : bool :=
  (0 <? touched_line_count r) && (miss_count r =? 0).
(* [src/cpu/memory/cache.cpp] [CacheAccessResult::any_miss] *)
Definition any_miss (r : CacheAccessResult) : bool := negb (miss_count r =? 0).
(* [src/cpu/memory/cache.cpp] [CacheAccessResult::add_hit] *)
Definition add_hit (r : CacheAccessResult) : CacheAccessResult :=
  mkResult (wrap64 (hit_count r + 1)) (miss_count r) (dirty_eviction_count r).
(* [src/cpu/memory/cache.cpp] [CacheAccessResult::add_miss] *)
Definition add_miss (r : CacheAccessResult) : CacheAccessResult :=
  mkResult (hit_count r) (wrap64 (miss_count r + 1)) (dirty_eviction_count r).
(* [src/cpu/memory/cache.cpp] [CacheAccessResult::add_dirty_eviction] *)
Definition add_dirty_eviction (r : CacheAccessResult) : CacheAccessResult :=
  mkResult (hit_count r) (miss_count r) (wrap64 (dirty_eviction_count r + 1)).
(* [src/cpu/memory/cache.cpp] [CacheAccessResult::merge] *)
Definition merge (r other : CacheAccessResult) : CacheAccessResult :=
  mkResult (add64 (hit_count r) (hit_count other)) (add64 (miss_count r) (miss_count other))
    (add64 (dirty_eviction_count r) (dirty_eviction_count other)).

(** ** The cache *)

(* [include/mnos/cpu/memory/cache.hpp] [CacheLine] [98-104] *)
Record CacheLine : Set := mkLine {
  tag : Z;
  last_used_tick : Z;
  valid : bool;
  dirty : bool;
}.
Definition invalid_line : CacheLine := mkLine 0 0 false false.

(* [include/mnos/cpu/memory/cache.hpp] [SetAssociativeCache] *)
Record SetAssociativeCache : Set := mkCache {
  geometry : CacheGeometry;
  write_policy : CacheWritePolicy;
  lines : list CacheLine;
  access_tick : Z;
  valid_line_count : Z;
}.

(* [src/cpu/memory/cache.cpp] [SetAssociativeCache::SetAssociativeCache] *)
Definition make_cache (g : CacheGeometry) (p : CacheWritePolicy) : SetAssociativeCache :=
  mkCache g p (replicate (Z.to_nat (line_count g)) invalid_line) 0 0.

(* [src/cpu/memory/cache.cpp] [SetAssociativeCache::clear] *)
Definition clear (c : SetAssociativeCache) : SetAssociativeCache :=
  mkCache (geometry c) (write_policy c) (map (fun _ => invalid_line) (lines c)) 0 0.

Definition line_at (c : SetAssociativeCache) (i : Z) : CacheLine :=
  nth (Z.to_nat i) (lines c) invalid_line.
Definition set_line (i : Z) (l : CacheLine) (c : SetAssociativeCache) : SetAssociativeCache :=
  mkCache (geometry c) (write_policy c) (<[Z.to_nat i := l]> (lines c)) (access_tick c)
    (valid_line_count c).

(* [src/cpu/memory/cache.cpp] [SetAssociativeCache::set_index_for_line] *)
Definition set_index_for_line (g : CacheGeometry) (line_base_address : Z) : Z :=
  Z.land (Z.shiftr line_base_address (line_size_shift g)) (set_index_mask g).
(* [src/cpu/memory/cache.cpp] [SetAssociativeCache::tag_for_line] *)
Definition tag_for_line (g : CacheGeometry) (line_base_address : Z) : Z :=
  Z.shiftr (Z.shiftr line_base_address (line_size_shift g)) (set_count_shift g).
(* [src/cpu/memory/cache.cpp] [SetAssociativeCache::set_start_index] *)
Definition set_start_index (g : CacheGeometry) (set_index : Z) : Z :=
  mul64 set_index (associativity g).

(* [src/cpu/memory/cache.cpp] [SetAssociativeCache::victim_index] *)
Definition victim_index (c : SetAssociativeCache) (set_index : Z) : Z :=
  let start_index := set_start_index (geometry c) set_index in
  let n := associativity (geometry c) in
  match List.find (fun i => negb (valid (line_at c i))) (seqZ start_index n) with
  | Some i => i
  | None =>
      foldl (fun victim i =>
        if last_used_tick (line_at c i) <? last_used_tick (line_at c victim) then i else victim)
        start_index (seqZ (start_index + 1) (n - 1))
  end.

(* [src/cpu/memory/cache.cpp] [SetAssociativeCache::touch_line] *)
Definition touch_line (i : Z) (kind : CacheAccessKind) (c : SetAssociativeCache)
  : SetAssociativeCache :=
  let t := wrap64 (access_tick c + 1) in
  let l := line_at c i in
  let d := match kind, write_policy c with
           | CacheKind.WRITE, WritePolicy.WRITE_BACK => true
           | _, _ => dirty l
           end in
  let c := mkCache (geometry c) (write_policy c) (lines c) t (valid_line_count c) in
  set_line i (mkLine (tag l) t (valid l) d) c.

(* [src/cpu/memory/cache.cpp] [SetAssociativeCache::fill_line] *)
Definition fill_line (i line_tag : Z) (kind : CacheAccessKind) (r : CacheAccessResult)
    (c : SetAssociativeCache) : SetAssociativeCache * CacheAccessResult :=
  let l := line_at c i in
  let r := if valid l && dirty l then add_dirty_eviction r else r in
  let c := if negb (valid l) then
      mkCache (geometry c) (write_policy c) (lines c) (access_tick c) (wrap64 (valid_line_count c + 1))
    else c in
  let c := set_line i (mkLine line_tag (last_used_tick l) true false) c in
  (touch_line i kind c, r).

(* [src/cpu/memory/cache.cpp] [SetAssociativeCache::access_line] *)
Definition access_line (line_base_address : Z) (kind : CacheAccessKind) (c : SetAssociativeCache)
  : SetAssociativeCache * CacheAccessResult :=
  let set_index := set_index_for_line (geometry c) line_base_address in
  let line_tag := tag_for_line (geometry c) line_base_address in
  let start_index := set_start_index (geometry c) set_index in
  match List.find (fun i => valid (line_at c i) && (tag (line_at c i) =? line_tag))
          (seqZ start_index (associativity (geometry c))) with
  | Some i => (touch_line i kind c, add_hit empty_result)
  | None => fill_line (victim_index c set_index) line_tag kind (add_miss empty_result) c
  end.

(** One iteration of the loop of [access] per unit of fuel; every iteration consumes at least one
    byte, so [byte_count] iterations suffice (see [cache_access_counts_lines]). *)
(* [src/cpu/memory/cache.cpp] [SetAssociativeCache::access] [197-213] *)
Fixpoint access_loop (fuel : nat) (address remaining : Z) (kind : CacheAccessKind)
    (c : SetAssociativeCache) (r : CacheAccessResult) : SetAssociativeCache * CacheAccessResult :=
  match fuel with
  | O => (c, r)
  | S fuel' =>
      if 0 <? remaining then
        let line_offset := Z.land address (sub64 (line_size_bytes (geometry c)) 1) in
        let line_base_address := sub64 address line_offset in
        let '(c, r1) := access_line line_base_address kind c in
        let r := merge r r1 in
        let bytes_until_next_line := sub64 (line_size_bytes (geometry c)) line_offset in
        let step := Z.min remaining bytes_until_next_line in
        access_loop fuel' (add64 address step) (sub64 remaining step) kind c r
      else (c, r)
  end.

(* [src/cpu/memory/cache.cpp] [SetAssociativeCache::access] *)
Definition access (address byte_count : Z) (kind : CacheAccessKind) (c : SetAssociativeCache)
  : SetAssociativeCache * CacheAccessResult :=
  if byte_count =? 0 then (c, empty_result)
  else access_loop (S (Z.to_nat byte_count)) address byte_count kind c empty_result.

(** ** Well-formedness *)

(** A geometry of the constructor whose line count fits the word. *)
Record geometry_wf (g : CacheGeometry) : Prop := {
  g_line : exists k, 0 <= k < 64 /\ line_size_bytes g = 2 ^ k /\ line_size_shift g = k;
  g_sets : exists k, 0 <= k < 64 /\ set_count g = 2 ^ k /\ set_count_shift g = k /\
    set_index_mask g = Z.ones k;
  g_ways : 0 < associativity g;
  g_count : set_count g * associativity g < W64;
}.

(** The lines of one set. *)
Definition set_lines (c : SetAssociativeCache) (s : Z) : list CacheLine :=
  take (Z.to_nat (associativity (geometry c)))
    (drop (Z.to_nat (s * associativity (geometry c))) (lines c)).

Definition is_valid_line (l : CacheLine) : Prop := valid l = true.
#[export] Instance is_valid_line_dec l : Decision (is_valid_line l).
Proof. unfold is_valid_line. apply _. Defined.
Definition newer (x y : CacheLine) : Prop := last_used_tick y < last_used_tick x.
(** [vs] lists the valid lines of a set from the most to the least recently used. *)
Definition recency_list (ls vs : list CacheLine) : Prop :=
  vs ≡ₚ filter is_valid_line ls /\ StronglySorted newer vs /\ NoDup (tag <$> vs).

Record cache_wf (c : SetAssociativeCache) : Prop := {
  c_geometry : geometry_wf (geometry c);
  c_length : lenZ (lines c) = set_count (geometry c) * associativity (geometry c);
  c_ticks : Forall (fun l => 0 <= last_used_tick l <= access_tick c) (lines c);
  c_tick : u64 (access_tick c);
  c_recency s : 0 <= s < set_count (geometry c) -> exists vs, recency_list (set_lines c s) vs;
  c_valid : valid_line_count c = lenZ (filter is_valid_line (lines c));
}.

(** ** Set slices *)

Section slices.
Context (c : SetAssociativeCache) (Hwf : cache_wf c).
Abbreviation ways := (associativity (geometry c)).

Lemma ways_pos : 0 < ways.
Proof. apply (g_ways _ (c_geometry _ Hwf)). Qed.
Lemma set_start s : 0 <= s < set_count (geometry c) ->
  set_start_index (geometry c) s = s * ways /\ 0 <= s * ways /\ s * ways + ways <= lenZ (lines c).
Proof.
  intros Hs. rewrite (c_length _ Hwf). pose proof ways_pos.
  pose proof (g_count _ (c_geometry _ Hwf)).
  assert ((s + 1) * ways <= set_count (geometry c) * ways) by (apply Z.mul_le_mono_nonneg_r; lia).
  assert (0 <= s * ways) by (apply Z.mul_nonneg_nonneg; lia).
  split; [|lia]. apply wrap64_small. unfold u64. lia.
Qed.

Lemma set_lines_lookup s k : 0 <= s < set_count (geometry c) -> 0 <= k < ways ->
  set_lines c s !! Z.to_nat k = lines c !! Z.to_nat (s * ways + k) /\
  set_lines c s !! Z.to_nat k = Some (line_at c (s * ways + k)).
Proof.
  intros Hs Hk. destruct (set_start s Hs) as (_ & Hs0 & Hle). unfold lenZ in Hle.
  assert (He : set_lines c s !! Z.to_nat k = lines c !! Z.to_nat (s * ways + k)).
  { unfold set_lines. rewrite lookup_take_lt by lia. rewrite lookup_drop. f_equal. lia. }
  split; [done|]. rewrite He. unfold line_at.
  destruct (lines c !! Z.to_nat (s * ways + k)) as [l|] eqn:E.
  - by rewrite (nth_lookup_Some _ _ invalid_line _ E).
  - apply lookup_ge_None in E. lia.
Qed.
Lemma set_lines_length s : 0 <= s < set_count (geometry c) -> lenZ (set_lines c s) = ways.
Proof.
  intros Hs. destruct (set_start s Hs) as (_ & Hs0 & Hle). pose proof ways_pos.
  unfold set_lines, lenZ in *. rewrite length_take, length_drop. lia.
Qed.
Lemma set_lines_elem s l : 0 <= s < set_count (geometry c) -> l ∈ set_lines c s <->
  exists k, 0 <= k < ways /\ l = line_at c (s * ways + k).
Proof.
  intros Hs. rewrite list_elem_of_lookup. pose proof (set_lines_length s Hs) as Hl. unfold lenZ in Hl. split.
  - intros [i Hi]. pose proof (lookup_lt_Some _ _ _ Hi). exists (Z.of_nat i).
    assert (Hk : 0 <= Z.of_nat i < ways) by lia. split; [done|].
    destruct (set_lines_lookup s (Z.of_nat i) Hs Hk) as [_ He]. rewrite Nat2Z.id in He. congruence.
  - intros (k & Hk & ->). exists (Z.to_nat k). by apply set_lines_lookup.
Qed.

(** Both searches of the source are searches of the set's slice. *)
Lemma find_in_set (P : CacheLine -> bool) s : 0 <= s < set_count (geometry c) ->
  match List.find (fun i => P (line_at c i)) (seqZ (set_start_index (geometry c) s) ways) with
  | Some i => exists k, 0 <= k < ways /\ i = s * ways + k /\ P (line_at c i) = true
  | None => forall l, l ∈ set_lines c s -> P l = false
  end.
Proof.
  intros Hs. destruct (set_start s Hs) as (-> & _ & _).
  destruct (List.find _ _) as [i|] eqn:Ef.
  - apply find_some in Ef as [Hin Hp]. apply list_elem_of_In, elem_of_seqZ in Hin.
    exists (i - s * ways). split; [lia|]. split; [lia|done].
  - intros l (k & Hk & ->)%set_lines_elem; [|done].
    apply (find_none _ _ Ef). apply list_elem_of_In, elem_of_seqZ. lia.
Qed.

Lemma fold_least (f : Z -> Z) js v :
  let w := foldl (fun victim i => if f i <? f victim then i else victim) v js in
  (w = v \/ w ∈ js) /\ f w <= f v /\ forall i, i ∈ js -> f w <= f i.
Proof.
  revert v. induction js as [|i js IH]; intros v; simpl.
  - split; [by left|]. split; [lia|]. intros i Hi. by apply elem_of_nil in Hi.
  - destruct (Z.ltb_spec (f i) (f v)).
    + destruct (IH i) as (Hw & Hv & Ha). split; [|split].
      * right. destruct Hw as [->|]; [left|by right].
      * lia.
      * intros j [->|Hj]%elem_of_cons; [done|by apply Ha].
    + destruct (IH v) as (Hw & Hv & Ha). split; [|split].
      * destruct Hw as [->|]; [by left|by right; right].
      * lia.
      * intros j [->|Hj]%elem_of_cons; [lia|by apply Ha].
Qed.

(** The victim is an invalid line if there is one and otherwise the least recently used one. *)
Lemma victim_spec s : 0 <= s < set_count (geometry c) ->
  exists k, 0 <= k < ways /\ victim_index c s = s * ways + k /\
  let x := line_at c (s * ways + k) in
  (valid x = false \/
   (forall l, l ∈ set_lines c s -> valid l = true /\ last_used_tick x <= last_used_tick l)).
Proof.
  intros Hs. unfold victim_index. pose proof ways_pos.
  pose proof (find_in_set (fun l => negb (valid l)) s Hs) as Hf. cbv beta in Hf.
  destruct (List.find _ _) as [i|].
  - destruct Hf as (k & Hk & -> & Hv). exists k. split; [done|]. split; [done|]. left.
    by apply negb_true_iff.
  - destruct (set_start s Hs) as (-> & _ & _).
    destruct (fold_least (fun i => last_used_tick (line_at c i)) (seqZ (s * ways + 1) (ways - 1))
      (s * ways)) as (Hw & Hv & Ha). cbn zeta in *.
    set (w := foldl _ _ _) in *. exists (w - s * ways).
    assert (Hr : s * ways <= w < s * ways + ways).
    { destruct Hw as [->|Hw]; [lia|]. apply elem_of_seqZ in Hw. lia. }
    split; [lia|]. split; [lia|]. right. intros l Hl. split.
    { apply Hf in Hl. by apply negb_false_iff in Hl. }
    replace (s * ways + (w - s * ways)) with w by lia.
    apply set_lines_elem in Hl as (k & Hk & ->); [|done].
    destruct (decide (k = 0)) as [->|]; [by rewrite Z.add_0_r|]. apply Ha, elem_of_seqZ. lia.
Qed.
End slices.

(** ** Replacing one line *)

Lemma filter_valid_cons x ls : filter is_valid_line (x :: ls) =
  (if valid x then [x] else []) ++ filter is_valid_line ls.
Proof.
  rewrite filter_cons. case_decide as Hd; unfold is_valid_line in Hd; [by rewrite Hd|].
  by destruct (valid x).
Qed.
Lemma filter_valid_all (ls : list CacheLine) : (forall l, l ∈ ls -> valid l = true) -> filter is_valid_line ls = ls.
Proof.
  induction ls as [|l ls IH]; intros Hv; [done|]. rewrite filter_valid_cons, Hv by (by left).
  simpl. f_equal. apply IH. intros l' Hl'. apply Hv. by right.
Qed.
Lemma filter_replace (ls : list CacheLine) k x x' : ls !! k = Some x ->
  exists rest, filter is_valid_line ls ≡ₚ (if valid x then [x] else []) ++ rest /\
    filter is_valid_line (<[k := x']> ls) ≡ₚ (if valid x' then [x'] else []) ++ rest.
Proof.
  intros Hk. exists (filter is_valid_line (take k ls) ++ filter is_valid_line (drop (S k) ls)). split.
  - rewrite <- (take_drop_middle _ _ _ Hk) at 1. rewrite filter_app, filter_valid_cons. solve_Permutation.
  - rewrite insert_take_drop by (by eapply lookup_lt_Some).
    rewrite filter_app, filter_valid_cons. solve_Permutation.
Qed.

Lemma filter_replace_length (ls : list CacheLine) k x x' : ls !! k = Some x ->
  lenZ (filter is_valid_line (<[k := x']> ls)) =
  lenZ (filter is_valid_line ls) - (if valid x then 1 else 0) + (if valid x' then 1 else 0).
Proof.
  intros Hk. destruct (filter_replace ls k x x' Hk) as (rest & H1 & H2). unfold lenZ.
  rewrite H1, H2, !length_app. destruct (valid x), (valid x'); simpl; lia.
Qed.

Definition with_line (c : SetAssociativeCache) (i : Z) (x : CacheLine) : SetAssociativeCache :=
  mkCache (geometry c) (write_policy c) (<[Z.to_nat i := x]> (lines c)) (access_tick c + 1)
    (valid_line_count c + (if valid (line_at c i) then 0 else 1)).

Section replace.
Context (c : SetAssociativeCache) (Hwf : cache_wf c).
Abbreviation ways := (associativity (geometry c)).

Lemma with_line_set s k x : 0 <= s < set_count (geometry c) -> 0 <= k < ways ->
  set_lines (with_line c (s * ways + k) x) s = <[Z.to_nat k := x]> (set_lines c s) /\
  forall s', 0 <= s' < set_count (geometry c) -> s' <> s ->
    set_lines (with_line c (s * ways + k) x) s' = set_lines c s'.
Proof.
  intros Hs Hk. destruct (set_start c Hwf s Hs) as (_ & Hs0 & _). unfold set_lines, with_line. simpl.
  split.
  - rewrite drop_insert_ge by lia. rewrite take_insert_lt by lia. f_equal. lia.
  - intros s' Hs' Hne. destruct (set_start c Hwf s' Hs') as (_ & Hs0' & _).
    assert (Hcase : (s' + 1) * ways <= s * ways \/ (s + 1) * ways <= s' * ways).
    { destruct (Z_lt_dec s' s); [left|right]; apply Z.mul_le_mono_nonneg_r; lia. }
    destruct Hcase.
    + rewrite !take_drop_commute. f_equal. rewrite take_insert_ge by lia. done.
    + rewrite drop_insert_lt by lia. done.
Qed.

Lemma with_line_wf s k x vs vs0 :
  0 <= s < set_count (geometry c) -> 0 <= k < ways -> access_tick c < W64 - 1 ->
  valid x = true -> last_used_tick x = access_tick c + 1 ->
  recency_list (set_lines c s) vs ->
  vs ≡ₚ (if valid (line_at c (s * ways + k)) then [line_at c (s * ways + k)] else []) ++ vs0 ->
  StronglySorted newer vs0 -> NoDup (tag <$> x :: vs0) ->
  cache_wf (with_line c (s * ways + k) x) /\
  recency_list (set_lines (with_line c (s * ways + k) x) s) (x :: vs0).
Proof.
  intros Hs Hk Ht Hv Hl (Hp & Hsorted & Hnd) Hvs Hs0 Hnd0.
  destruct (with_line_set s k x Hs Hk) as [Hsame Hother].
  destruct (set_lines_lookup c Hwf s k Hs Hk) as [Hlk Hls].
  assert (Hlines : lines c !! Z.to_nat (s * ways + k) = Some (line_at c (s * ways + k))) by congruence.
  set (old := line_at c (s * ways + k)) in *.
  assert (Hticks : Forall (fun l => 0 <= last_used_tick l <= access_tick c) vs0).
  { apply Forall_forall. intros l Hin. assert (Hinf : l ∈ filter is_valid_line (set_lines c s)).
    { rewrite <- Hp, Hvs. apply elem_of_app. by right. }
    apply list_elem_of_filter in Hinf as [_ Hinf]. pose proof (c_ticks _ Hwf) as Hct.
    rewrite Forall_forall in Hct. apply Hct.
    apply (set_lines_elem c Hwf) in Hinf as (j & Hj & ->); [|done].
    destruct (set_lines_lookup c Hwf s j Hs Hj) as [E1 E2]. rewrite E2 in E1.
    by apply (list_elem_of_lookup_2 _ _ _ (eq_sym E1)). }
  assert (Hrec : recency_list (set_lines (with_line c (s * ways + k) x) s) (x :: vs0)).
  { rewrite Hsame. split; [|split; [|done]].
    - destruct (filter_replace _ _ _ x Hls) as (rest & F1 & F2). rewrite F2, Hv. simpl.
      constructor. fold old in F1. rewrite <- Hp, Hvs in F1. by apply Permutation_app_inv_l in F1.
    - constructor; [done|]. eapply Forall_impl; [exact Hticks|]. intros l Hll. simpl in Hll. unfold newer. lia. }
  split; [|done]. pose proof (c_tick _ Hwf) as Hct. unfold u64 in Hct. split.
  - apply Hwf.
  - unfold lenZ. simpl. rewrite length_insert. apply Hwf.
  - simpl. apply Forall_insert; [|lia]. eapply Forall_impl; [apply (c_ticks _ Hwf)|].
    intros l Hll. simpl in *. lia.
  - simpl. unfold u64. lia.
  - intros s' Hs'. destruct (decide (s' = s)) as [->|Hne]; [by eexists|].
    rewrite Hother by done. by apply (c_recency _ Hwf).
  - simpl. rewrite (filter_replace_length _ _ _ x Hlines), (c_valid _ Hwf), Hv. fold old.
    destruct (valid old); lia.
Qed.
End replace.

(** ** One line *)

Definition marks_dirty (c : SetAssociativeCache) (kind : CacheAccessKind) : bool :=
  match kind, write_policy c with CacheKind.WRITE, WritePolicy.WRITE_BACK => true | _, _ => false end.

Lemma line_at_set_line c i x : 0 <= i < lenZ (lines c) -> line_at (set_line i x c) i = x.
Proof.
  intros Hi. unfold line_at, set_line, lenZ in *. simpl. apply nth_lookup_Some.
  apply list_lookup_insert_eq. lia.
Qed.

Section one_line.
Context (c : SetAssociativeCache) (Hwf : cache_wf c) (Htick : access_tick c < W64 - 1).
Abbreviation ways := (associativity (geometry c)).

Lemma tick_next : wrap64 (access_tick c + 1) = access_tick c + 1.
Proof. apply wrap64_small. pose proof (c_tick _ Hwf). unfold u64 in *. lia. Qed.

Lemma touch_line_eq i kind : valid (line_at c i) = true ->
  touch_line i kind c =
  with_line c i (mkLine (tag (line_at c i)) (access_tick c + 1) true
    (marks_dirty c kind || dirty (line_at c i))).
Proof.
  intros Hv. unfold touch_line, with_line, set_line. cbv zeta. simpl. rewrite tick_next, Hv.
  f_equal; [|lia]. f_equal. f_equal. unfold marks_dirty. by destruct kind, (write_policy c).
Qed.

Lemma valid_count_room i : 0 <= i < lenZ (lines c) -> valid (line_at c i) = false ->
  wrap64 (valid_line_count c + 1) = valid_line_count c + 1.
Proof.
  intros Hi Hv. rewrite (c_valid _ Hwf). apply wrap64_small.
  pose proof (length_filter is_valid_line (lines c)). pose proof (c_length _ Hwf) as Hl.
  pose proof (g_count _ (c_geometry _ Hwf)). rewrite <- Hl in *.
  assert (Hlk : lines c !! Z.to_nat i = Some (line_at c i)).
  { unfold line_at. destruct (lines c !! Z.to_nat i) as [l|] eqn:E.
    - by rewrite (nth_lookup_Some _ _ invalid_line _ E).
    - apply lookup_ge_None in E. unfold lenZ in Hi. lia. }
  pose proof (filter_replace_length (lines c) _ _ (mkLine 0 0 true false) Hlk) as Hf. rewrite Hv in Hf.
  simpl in Hf. pose proof (length_filter is_valid_line (<[Z.to_nat i := mkLine 0 0 true false]> (lines c))) as Hb.
  rewrite length_insert in Hb. unfold lenZ, u64 in *. lia.
Qed.

Lemma fill_line_eq i t kind r : 0 <= i < lenZ (lines c) ->
  fill_line i t kind r c =
  (with_line c i (mkLine t (access_tick c + 1) true (marks_dirty c kind)),
   if valid (line_at c i) && dirty (line_at c i) then add_dirty_eviction r else r).
Proof.
  intros Hi. unfold fill_line. cbv zeta. f_equal. unfold with_line.
  destruct (valid (line_at c i)) eqn:Hv; simpl negb; cbv iota; unfold touch_line; cbv zeta;
    rewrite line_at_set_line by done; unfold set_line, marks_dirty; simpl; rewrite tick_next,
    list_insert_insert_eq; f_equal; try (f_equal; f_equal; by destruct kind, (write_policy c)).
  - lia.
  - by apply (valid_count_room i).
Qed.

Lemma set_index_range a : u64 a -> 0 <= set_index_for_line (geometry c) a < set_count (geometry c).
Proof.
  intros [Ha _]. destruct (g_sets _ (c_geometry _ Hwf)) as (k & Hk & -> & _ & Hm).
  unfold set_index_for_line. rewrite Hm, Z.land_ones by lia. apply Z.mod_pos_bound. lia.
Qed.

(** What an access to the line at [a] does to its set, in terms of recency lists. *)
Lemma access_line_cases a kind vs : u64 a ->
  let s := set_index_for_line (geometry c) a in
  let t := tag_for_line (geometry c) a in
  recency_list (set_lines c s) vs ->
  exists k x r rest, access_line a kind c = (with_line c (s * ways + k) x, r) /\
    0 <= k < ways /\ cache_wf (with_line c (s * ways + k) x) /\
    recency_list (set_lines (with_line c (s * ways + k) x) s) (x :: rest) /\
    tag x = t /\ last_used_tick x = access_tick c + 1 /\
    ((exists p y q, vs = p ++ y :: q /\ rest = p ++ q /\ tag y = t /\ r = mkResult 1 0 0 /\
        dirty x = marks_dirty c kind || dirty y) \/
     ((t ∉ tag <$> vs) /\ lenZ vs < ways /\ rest = vs /\ r = mkResult 0 1 0 /\
        dirty x = marks_dirty c kind) \/
     (exists y, (t ∉ tag <$> vs) /\ lenZ vs = ways /\ vs = rest ++ [y] /\
        r = mkResult 0 1 (if dirty y then 1 else 0) /\ dirty x = marks_dirty c kind)).
Proof.
  intros Ha s t Hrec. pose proof (set_index_range a Ha) as Hs. fold s in Hs.
  pose proof Hrec as (Hp & Hsort & Hnd). unfold access_line. fold s t.
  pose proof (find_in_set c Hwf (fun l => valid l && (tag l =? t)) s Hs) as Hf. cbv beta in Hf.
  destruct (List.find _ _) as [i|].
  - destruct Hf as (k & Hk & -> & Hv). apply andb_true_iff in Hv as [Hv Ht]. apply Z.eqb_eq in Ht.
    rewrite touch_line_eq by done. set (y := line_at c (s * ways + k)) in *.
    destruct (set_lines_lookup c Hwf s k Hs Hk) as [_ Hls]. fold y in Hls.
    assert (Hin : y ∈ vs).
    { rewrite Hp. apply list_elem_of_filter. split; [done|]. by eapply list_elem_of_lookup_2. }
    apply list_elem_of_split in Hin as (p & q & ->).
    set (x := mkLine _ _ _ _). exists k, x, (add_hit empty_result), (p ++ q).
    apply StronglySorted_app in Hsort as (S1 & S2 & S3). apply StronglySorted_inv in S3 as [S3 S4].
    destruct (with_line_wf c Hwf s k x (p ++ y :: q) (p ++ q)) as [Hwf' Hrec']; try done.
    + fold y. rewrite Hv. simpl. solve_Permutation.
    + apply StronglySorted_app. split; [|done]. intros x1 x2 H1 H2. apply S1; [done|by right].
    + rewrite fmap_cons. change (tag x) with (tag y). rewrite <- fmap_cons.
      assert (Hpm : tag <$> y :: p ++ q ≡ₚ tag <$> p ++ y :: q)
        by (apply fmap_Permutation; solve_Permutation). by rewrite Hpm.
    + do 3 (split; [done|]). split; [done|]. split; [exact Ht|]. split; [done|]. left.
      by exists p, y, q.
  - assert (Hnot : t ∉ tag <$> vs).
    { intros Hin. apply list_elem_of_fmap in Hin as (l & -> & Hl). rewrite Hp in Hl.
      apply list_elem_of_filter in Hl as [Hv Hl]. specialize (Hf l Hl). rewrite Hv, Z.eqb_refl in Hf. done. }
    destruct (victim_spec c Hwf s Hs) as (k & Hk & -> & Hvic). cbn zeta in Hvic.
    destruct (set_start c Hwf s Hs) as (_ & Hs0 & Hs1). rewrite fill_line_eq by lia.
    set (y := line_at c (s * ways + k)) in *. set (x := mkLine _ _ _ _).
    destruct (set_lines_lookup c Hwf s k Hs Hk) as [_ Hls]. fold y in Hls.
    pose proof (set_lines_length c Hwf s Hs) as Hlen.
    destruct Hvic as [Hv|Hvic].
    + exists k, x, (add_miss empty_result), vs. rewrite Hv. simpl andb. cbv iota.
      destruct (with_line_wf c Hwf s k x vs vs) as [Hwf' Hrec']; try done.
      * fold y. by rewrite Hv.
      * rewrite fmap_cons. by apply NoDup_cons.
      * do 6 (split; [done|]). right. left. split; [exact Hnot|]. split; [|done].
        pose proof (filter_replace_length (set_lines c s) _ _ x Hls) as Hfl. rewrite Hv in Hfl.
        simpl in Hfl. unfold lenZ in *. rewrite Hp.
        pose proof (length_filter is_valid_line (<[Z.to_nat k := x]> (set_lines c s))) as Hb.
        rewrite length_insert in Hb. lia.
    + assert (Hy : y ∈ set_lines c s) by (by eapply list_elem_of_lookup_2).
      destruct (Hvic y Hy) as [Hvy _].
      assert (Hall : vs ≡ₚ set_lines c s).
      { rewrite Hp, filter_valid_all; [done|]. intros l Hl. by apply Hvic. }
      assert (Hyv : y ∈ vs) by (by rewrite Hall).
      assert (Hlast : exists rest, vs = rest ++ [y]).
      { apply list_elem_of_split in Hyv as (p & q & Hvs). exists p. rewrite Hvs. f_equal. f_equal.
        destruct q as [|z q]; [done|]. exfalso. rewrite Hvs in Hsort.
        apply StronglySorted_app_1_r in Hsort. apply StronglySorted_inv in Hsort as [_ Hn].
        apply Forall_cons in Hn as [Hn _]. unfold newer in Hn.
        assert (Hz : z ∈ set_lines c s).
        { rewrite <- Hall, Hvs. apply elem_of_app. right. by right; left. }
        apply Hvic in Hz as [_ Hz]. lia. }
      destruct Hlast as (rest & Hvs).
      exists k, x, (if valid y && dirty y then add_dirty_eviction (add_miss empty_result)
                    else add_miss empty_result), rest.
      destruct (with_line_wf c Hwf s k x vs rest) as [Hwf' Hrec']; try done.
      * fold y. rewrite Hvy, Hvs. simpl. solve_Permutation.
      * rewrite Hvs in Hsort. by apply StronglySorted_app_1_l in Hsort.
      * rewrite fmap_cons. rewrite Hvs, fmap_app in Hnd, Hnot. apply NoDup_app in Hnd as (Hnd & _).
        apply NoDup_cons. split; [|done]. intros Hin. apply Hnot. apply elem_of_app. by left.
      * do 6 (split; [done|]). right. right. exists y. split; [done|].
        split; [unfold lenZ in *; by rewrite Hall|]. split; [done|]. rewrite Hvy. simpl.
        by destruct (dirty y).
Qed.
End one_line.

(** ** Constructors *)

Lemma is_power_of_two_spec v : u64 v -> is_power_of_two v = true ->
  exists k, 0 <= k < 64 /\ v = 2 ^ k.
Proof.
  intros [Hv0 Hv] Hp. apply andb_true_iff in Hp as [Hne Hl]. apply negb_true_iff, Z.eqb_neq in Hne.
  apply Z.eqb_eq in Hl. rewrite sub64_small in Hl by lia.
  assert (Hk : 0 <= Z.log2 v < 64).
  { split; [apply Z.log2_nonneg|]. apply Z.log2_lt_pow2; [lia|]. by rewrite <- W64_pow. }
  exists (Z.log2 v). split; [done|]. destruct (Z.log2_spec v) as [Hlo Hhi]; [lia|].
  destruct (Z.eq_dec v (2 ^ Z.log2 v)) as [|Hneq]; [done|]. exfalso.
  assert (Hb : Z.testbit (Z.land v (v - 1)) (Z.log2 v) = false) by (rewrite Hl; apply Z.bits_0).
  rewrite Z.land_spec, Z.bit_log2 in Hb by lia.
  assert (Hlog : Z.log2 (v - 1) = Z.log2 v) by (apply Z.log2_unique; lia).
  rewrite <- Hlog in Hb at 1. rewrite Z.bit_log2 in Hb by lia. done.
Qed.

Lemma log2_power_of_two_spec k : 0 <= k -> log2_power_of_two (2 ^ k) = k.
Proof.
  intros Hk. unfold log2_power_of_two. pose proof (Z.pow_pos_nonneg 2 k).
  destruct (Z.eqb_spec (2 ^ k) 0); [lia|].
  assert (Hl : Z.land (2 ^ k) (- 2 ^ k) = 2 ^ k); [|by rewrite Hl, Z.log2_pow2].
  apply Z.bits_inj'. intros i Hi. rewrite Z.land_spec, Z.bits_opp, Z.pow2_bits_eqb by done.
  destruct (Z.eqb_spec k i) as [->|]; [|done]. simpl.
  rewrite <- Z.ones_equiv.
  by rewrite Z.ones_spec_high by lia.
Qed.

Lemma make_geometry_wf ls sc aw g : u64 ls -> u64 sc -> u64 aw -> sc * aw < W64 ->
  make_geometry ls sc aw = Ok g ->
  geometry_wf g /\ line_size_bytes g = ls /\ set_count g = sc /\ associativity g = aw.
Proof.
  intros Hl Hs Ha Hc. unfold make_geometry.
  destruct (is_power_of_two ls) eqn:E1; [|done]. destruct (is_power_of_two sc) eqn:E2; [|done].
  destruct (is_power_of_two aw) eqn:E3; [|done]. intros [= <-]. simpl.
  apply is_power_of_two_spec in E1 as (k1 & Hk1 & ->), E2 as (k2 & Hk2 & ->), E3 as (k3 & Hk3 & ->);
    try done. split; [|done]. split; simpl.
  - exists k1. split; [done|]. split; [done|]. apply log2_power_of_two_spec; lia.
  - exists k2. split; [done|]. split; [done|]. split; [apply log2_power_of_two_spec; lia|].
    pose proof (Z.pow_pos_nonneg 2 k2). rewrite Z.ones_equiv. destruct Hs. apply sub64_small; lia.
  - apply Z.pow_pos_nonneg; lia.
  - done.
Qed.

Lemma recency_list_invalid ls : (forall l, l ∈ ls -> l = invalid_line) -> recency_list ls [].
Proof.
  intros Hi. split; [|split; constructor].
  induction ls as [|l ls IH]; [done|]. rewrite filter_valid_cons, (Hi l) by (by left). simpl.
  apply IH. intros l' Hl'. apply Hi. by right.
Qed.

Lemma invalid_cache_wf g p ls n : geometry_wf g -> lenZ ls = set_count g * associativity g ->
  (forall l, l ∈ ls -> l = invalid_line) -> n = 0 -> cache_wf (mkCache g p ls 0 n).
Proof.
  intros Hg Hl Hi ->. split; simpl; [done|done| |done| |].
  - apply Forall_forall. intros l Hin. rewrite (Hi l Hin). simpl. lia.
  - intros s Hs. exists []. apply recency_list_invalid. intros l Hin.
    unfold set_lines in Hin. simpl in Hin. apply Hi. apply list_elem_of_lookup in Hin as [i Hin].
    apply lookup_take_Some in Hin as [Hin _]. rewrite lookup_drop in Hin.
    by eapply list_elem_of_lookup_2.
  - destruct (recency_list_invalid ls Hi) as (Hp & _ & _). unfold lenZ. by rewrite <- Hp.
Qed.

Lemma make_cache_wf g p : geometry_wf g -> cache_wf (make_cache g p).
Proof.
  intros Hg. pose proof (g_count _ Hg). pose proof (g_ways _ Hg).
  destruct (g_sets _ Hg) as (k & Hk & Hsc & _). pose proof (Z.pow_pos_nonneg 2 k).
  apply invalid_cache_wf; [done| | |done].
  - unfold line_count, mul64, lenZ. rewrite wrap64_small by (unfold u64; lia).
    rewrite length_replicate. lia.
  - intros l Hin. by apply elem_of_replicate in Hin as [-> _].
Qed.
Lemma cache_clear_wf c : cache_wf c -> cache_wf (clear c).
Proof.
  intros Hwf. apply invalid_cache_wf; [apply Hwf| | |done].
  - unfold lenZ. rewrite length_map. apply (c_length _ Hwf).
  - intros l Hin. apply list_elem_of_In, in_map_iff in Hin as (? & <- & _). done.
Qed.

(** ** Whole accesses *)

(** The number of lines of size [L] that the bytes [a .. a+n-1] touch. *)
Definition lines_touched (L a n : Z) : Z := if n =? 0 then 0 else (a + n - 1) / L - a / L + 1.

Lemma lines_touched_step L a n : 0 < L -> 0 <= a -> 0 < n ->
  let step := Z.min n (L - a `mod` L) in
  lines_touched L a n = 1 + lines_touched L (a + step) (n - step) /\ 0 < step /\
  0 <= lines_touched L (a + step) (n - step).
Proof.
  intros HL Ha Hn step. pose proof (Z.mod_pos_bound a L HL). pose proof (Z.div_mod a L).
  unfold lines_touched. destruct (Z.eqb_spec n 0); [lia|].
  destruct (Z_le_dec n (L - a `mod` L)).
  - assert (Hst : step = n) by (unfold step; lia). rewrite Hst, Z.sub_diag. simpl.
    assert ((a + n - 1) / L = a / L); [|lia].
    symmetry. apply (Z.div_unique _ _ _ (a `mod` L + n - 1)); lia.
  - assert (Hst : step = L - a `mod` L) by (unfold step; lia). rewrite Hst.
    destruct (Z.eqb_spec (n - (L - a `mod` L)) 0); [lia|].
    assert (Hd : (a + (L - a `mod` L)) / L = a / L + 1).
    { symmetry. apply (Z.div_unique _ _ _ 0); lia. }
    rewrite Hd. replace (a + (L - a `mod` L) + (n - (L - a `mod` L)) - 1) with (a + n - 1) by lia.
    split; [lia|]. split; [lia|].
    assert ((a + (L - a `mod` L)) / L <= (a + n - 1) / L) by (apply Z.div_le_mono; lia). lia.
Qed.

Lemma access_line_kept c a kind : cache_wf c -> access_tick c < W64 - 1 -> u64 a ->
  exists c' h m d, access_line a kind c = (c', mkResult h m d) /\ cache_wf c' /\
    geometry c' = geometry c /\ write_policy c' = write_policy c /\
    access_tick c' = access_tick c + 1 /\
    h + m = 1 /\ 0 <= h /\ 0 <= d <= m.
Proof.
  intros Hwf Ht Ha. pose proof (set_index_range c Hwf a Ha) as Hs.
  destruct (c_recency _ Hwf _ Hs) as [vs Hrec].
  destruct (access_line_cases c Hwf Ht a kind vs Ha Hrec)
    as (k & x & r & rest & Hac & Hk & Hwf' & Hrec' & Htag & Htick & Hcase).
  rewrite Hac. destruct Hcase as [(p & y & q & _ & _ & _ & -> & _)|[(_ & _ & _ & -> & _)|(y & _ & _ & _ & -> & _)]].
  - do 4 eexists. repeat (split; [done|]). lia.
  - do 4 eexists. repeat (split; [done|]). lia.
  - do 4 eexists. repeat (split; [done|]). destruct (dirty y); lia.
Qed.

Lemma access_loop_spec fuel : forall c r a n kind, cache_wf c -> (Z.to_nat n < fuel)%nat ->
  0 <= a -> 0 <= n -> a + n <= W64 -> n < W64 -> access_tick c + n < W64 ->
  0 <= hit_count r -> 0 <= miss_count r -> 0 <= dirty_eviction_count r <= miss_count r ->
  hit_count r + miss_count r + n < W64 ->
  exists c' r', access_loop fuel a n kind c r = (c', r') /\ cache_wf c' /\
    geometry c' = geometry c /\ write_policy c' = write_policy c /\
    access_tick c' = access_tick c + lines_touched (line_size_bytes (geometry c)) a n /\
    hit_count r' + miss_count r' =
      hit_count r + miss_count r + lines_touched (line_size_bytes (geometry c)) a n /\
    0 <= hit_count r' /\ 0 <= dirty_eviction_count r' <= miss_count r'.
Proof.
  induction fuel as [|fuel IH]; intros c r a n kind Hwf Hf Ha Hn Han Hn64 Ht Hh Hm Hd Hc; [lia|].
  simpl. destruct (Z.ltb_spec 0 n) as [Hpos|].
  2:{ replace n with 0 by lia. exists c, r. unfold lines_touched. simpl. repeat (split; [done|lia||idtac]); lia. }
  destruct (g_line _ (c_geometry _ Hwf)) as (lk & Hlk & HL & _).
  set (L := line_size_bytes (geometry c)) in *.
  assert (HLp : 0 < L) by (rewrite HL; apply Z.pow_pos_nonneg; lia).
  assert (HLw : L < W64) by (rewrite HL, W64_pow; apply Z.pow_lt_mono_r; lia).
  assert (Hoff : Z.land a (sub64 L 1) = a `mod` L).
  { rewrite sub64_small by lia. rewrite HL, <- Z.land_ones by lia. f_equal. rewrite Z.ones_equiv. lia. }
  rewrite Hoff. pose proof (Z.mod_pos_bound a L HLp). pose proof (Z.mod_le a L Ha HLp).
  rewrite (sub64_small a) by lia.
  destruct (access_line_kept c (a - a `mod` L) kind Hwf ltac:(lia) ltac:(unfold u64; lia))
    as (c1 & h & m & d & Hac & Hwf1 & Hg1 & Hp1 & Ht1 & Hhm & Hh0 & Hd0).
  rewrite Hac, Hg1. fold L. rewrite (sub64_small L) by lia.
  destruct (lines_touched_step L a n HLp Ha Hpos) as (Hls & Hst & Hl0).
  cbn zeta in Hls, Hst, Hl0. set (step := Z.min n (L - a `mod` L)) in *.
  rewrite (sub64_small n step) by lia.
  assert (Hmerge : merge r (mkResult h m d) =
    mkResult (hit_count r + h) (miss_count r + m) (dirty_eviction_count r + d)).
  { unfold merge. simpl. by rewrite !add64_small by lia. }
  rewrite Hmerge. destruct (decide (n = step)) as [Heq|Hne].
  - (* the last line: the address may wrap to zero, but nothing remains *)
    rewrite <- Heq in *. rewrite Z.sub_diag in *. change (lines_touched L (a + n) 0) with 0 in *.
    destruct fuel as [|fuel']; [lia|]. exists c1. eexists. split; [done|].
    repeat (split; [done || lia|]). simpl. rewrite Hls. lia.
  - rewrite add64_small by lia.
    destruct (IH c1 (mkResult (hit_count r + h) (miss_count r + m) (dirty_eviction_count r + d))
      (a + step) (n - step) kind) as (c' & r' & Hal & Hwf' & Hg' & Hp' & Ht' & Hcnt & Hh' & Hd');
      simpl; try lia; [done|].
    exists c', r'. rewrite Hg1 in Hg', Ht', Hcnt. fold L in Ht', Hcnt. simpl in Hcnt.
    split; [done|]. split; [done|]. split; [done|]. split; [congruence|]. rewrite Hls. lia.
Qed.

(** ** Properties *)

(** C20. The tick-stamped lines of a set are a least-recently-used list: an access moves its line to
    the front; it hits exactly when the line is in the list; on a miss the line is added, dropping
    the last line exactly when the set is full, and the write-back of that line is counted exactly
    when it is dirty.  The other sets do not change and the invariant is kept. *)
Theorem cache_access_is_lru c a kind vs : cache_wf c -> access_tick c < W64 - 1 -> u64 a ->
  let s := set_index_for_line (geometry c) a in
  let t := tag_for_line (geometry c) a in
  recency_list (set_lines c s) vs ->
  exists c' r x rest, access_line a kind c = (c', r) /\ cache_wf c' /\
    recency_list (set_lines c' s) (x :: rest) /\ tag x = t /\
    (forall s', 0 <= s' < set_count (geometry c) -> s' <> s -> set_lines c' s' = set_lines c s') /\
    ((exists p y q, vs = p ++ y :: q /\ rest = p ++ q /\ tag y = t /\ r = mkResult 1 0 0 /\
        dirty x = marks_dirty c kind || dirty y) \/
     ((t ∉ tag <$> vs) /\ lenZ vs < associativity (geometry c) /\ rest = vs /\ r = mkResult 0 1 0 /\
        dirty x = marks_dirty c kind) \/
     (exists y, (t ∉ tag <$> vs) /\ lenZ vs = associativity (geometry c) /\ vs = rest ++ [y] /\
        r = mkResult 0 1 (if dirty y then 1 else 0) /\ dirty x = marks_dirty c kind)).
Proof.
  intros Hwf Ht Ha s t Hrec.
  destruct (access_line_cases c Hwf Ht a kind vs Ha Hrec)
    as (k & x & r & rest & Hac & Hk & Hwf' & Hrec' & Htag & _ & Hcase).
  eexists _, r, x, rest. split; [exact Hac|]. split; [done|]. split; [done|]. split; [done|].
  split; [|done]. by apply (with_line_set c Hwf _ k x (set_index_range c Hwf a Ha) Hk).
Qed.

(** An access of [n] bytes terminates after touching each line of its range exactly once: hits
    and misses add up to the number of lines between the first and the last byte, and no more
    lines are written back than were missed. *)
Theorem cache_access_counts_lines c a n kind : cache_wf c -> u64 a -> 0 <= n < W64 -> a + n <= W64 ->
  access_tick c + n < W64 ->
  exists c' r, access a n kind c = (c', r) /\ cache_wf c' /\
    touched_line_count r = lines_touched (line_size_bytes (geometry c)) a n /\
    0 <= dirty_eviction_count r <= miss_count r /\
    access_tick c' = access_tick c + lines_touched (line_size_bytes (geometry c)) a n.
Proof.
  intros Hwf [Ha _] Hn Han Ht. unfold access. destruct (Z.eqb_spec n 0) as [->|Hne].
  - exists c, empty_result. split; [done|]. split; [done|]. split; [done|]. split; [simpl; lia|].
    unfold lines_touched. simpl. lia.
  - destruct (access_loop_spec (S (Z.to_nat n)) c empty_result a n kind)
      as (c' & r & Hal & Hwf' & _ & _ & Ht' & Hc & Hh & Hd); simpl in *; try lia; [done|].
    exists c', r. do 2 (split; [done|]). split; [|done]. unfold touched_line_count.
    rewrite Z.add_0_l in Hc. rewrite <- Hc. apply add64_small; [done|lia|]. rewrite Hc.
    destruct (g_line _ (c_geometry _ Hwf)) as (lk & Hlk & HL & _).
    set (L := line_size_bytes (geometry c)) in *.
    assert (HLp : 0 < L) by (rewrite HL; apply Z.pow_pos_nonneg; lia).
    unfold lines_touched in *. destruct (Z.eqb_spec n 0); [done|].
    assert ((a + n - 1) / L - a / L <= n - 1); [|lia].
    assert ((a + n - 1) / L <= a / L + (n - 1)); [|lia].
    rewrite <- (Z.div_add a (n - 1) L) by lia. apply Z.div_le_mono; [done|]. nia.
Qed.

Definition demo_geometry : CacheGeometry := mkGeometry 16 2 2 4 1 1.
Definition demo_cache : SetAssociativeCache := make_cache demo_geometry WritePolicy.WRITE_BACK.
Lemma demo_geometry_wf : geometry_wf demo_geometry.
Proof. by apply (make_geometry_wf 16 2 2). Qed.

Lemma cache_access_is_lru_witness :
  exists c' r x, access_line 0x40 CacheKind.WRITE demo_cache = (c', r) /\ r = mkResult 0 1 0 /\
    recency_list (set_lines c' 0) [x] /\ tag x = 2.
Proof.
  destruct (cache_access_is_lru demo_cache 0x40 CacheKind.WRITE [] (make_cache_wf _ _ demo_geometry_wf)
    ltac:(simpl; lia) ltac:(split; lia)) as (c' & r & x & rest & Hac & _ & Hrec & Ht & _ & Hcase).
  { apply recency_list_invalid. intros l Hl. change (l ∈ [invalid_line; invalid_line]) in Hl.
    apply elem_of_cons in Hl as [->|Hl%list_elem_of_singleton]; done. }
  exists c', r, x. split; [exact Hac|].
  destruct Hcase as [(p & y & q & Hvs & _)|[(_ & _ & -> & -> & _)|(y & _ & _ & Hvs & _)]].
  - by destruct p.
  - split; [done|]. split; [exact Hrec|exact Ht].
  - by destruct rest.
Defined.

Lemma cache_access_counts_lines_witness :
  exists c' r, access 0x1E 8 CacheKind.READ demo_cache = (c', r) /\ touched_line_count r = 2.
Proof.
  destruct (cache_access_counts_lines demo_cache 0x1E 8 CacheKind.READ (make_cache_wf _ _ demo_geometry_wf)
    ltac:(split; lia) ltac:(lia) ltac:(lia) ltac:(simpl; lia)) as (c' & r & Hac & _ & Ht & _).
  exists c', r. split; [exact Hac|exact Ht].
Defined.
