(* ===== verification/Perf.v ===== *)
(** * Pipeline and performance model

    Models src/cpu/execution/pipeline.cpp, the in-order pipeline's cost of a retirement or a flush,
    and src/cpu/perf/performance_model.cpp, the counters fed by the caches, the translation buffer
    and the pipeline. *)

From S2P Require Import Prelude Cache.

(** ** Pipeline *)

(* [include/mnos/cpu/execution/pipeline.hpp] [PipelineConfig] *)
Record PipelineConfig : Set := mkPipelineConfig {
  retire_cycles : Z;
  branch_redirect_cycles : Z;
  exception_flush_cycles : Z;
}.
(* [include/mnos/cpu/execution/pipeline.hpp] [PipelineStepResult] *)
Record PipelineStepResult : Set := mkStep {
  base_cycles : Z;
  stall_cycles : Z;
  flushed : bool;
}.
(* [src/cpu/execution/pipeline.cpp] [PipelineStepResult::total_cycles] *)
Definition total_cycles (r : PipelineStepResult) : Z := add64 (base_cycles r) (stall_cycles r).

(* [include/mnos/cpu/execution/pipeline.hpp] [InOrderPipeline] *)
Record InOrderPipeline : Set := mkPipeline {
  pipeline_config : PipelineConfig;
  retired_instruction_count : Z;
  flush_count : Z;
}.
(* [src/cpu/execution/pipeline.cpp] [InOrderPipeline::reset] *)
Definition pipeline_reset (p : InOrderPipeline) : InOrderPipeline :=
  mkPipeline (pipeline_config p) 0 0.
(* [src/cpu/execution/pipeline.cpp] [InOrderPipeline::retire] *)
Definition retire (control_flow redirected : bool) (p : InOrderPipeline)
  : InOrderPipeline * PipelineStepResult :=
  let n := wrap64 (retired_instruction_count p + 1) in
  if control_flow && redirected then
    (mkPipeline (pipeline_config p) n (wrap64 (flush_count p + 1)),
     mkStep (retire_cycles (pipeline_config p)) (branch_redirect_cycles (pipeline_config p)) true)
  else (mkPipeline (pipeline_config p) n (flush_count p),
        mkStep (retire_cycles (pipeline_config p)) 0 false).
(* [src/cpu/execution/pipeline.cpp] [InOrderPipeline::flush_for_exception] *)
Definition flush_for_exception (p : InOrderPipeline) : InOrderPipeline * PipelineStepResult :=
  (mkPipeline (pipeline_config p) (retired_instruction_count p) (wrap64 (flush_count p + 1)),
   mkStep 0 (exception_flush_cycles (pipeline_config p)) true).

(** ** Counters *)

(* [include/mnos/cpu/perf/performance_model.hpp] [PerformanceCounters] *)
Record PerformanceCounters : Set := mkCounters {
  cycles : Z; instructions_retired : Z; pipeline_flushes : Z; pipeline_stall_cycles : Z;
  instruction_fetches : Z; data_reads : Z; data_writes : Z;
  l1i_hits : Z; l1i_misses : Z; l1d_hits : Z; l1d_misses : Z; dirty_evictions : Z;
  tlb_hits : Z; tlb_misses : Z; branch_instructions : Z; branch_redirects : Z;
}.
(* [src/cpu/perf/performance_model.cpp] [PerformanceCounters::reset] *)
Definition zero_counters : PerformanceCounters := mkCounters 0 0 0 0 0 0 0 0 0 0 0 0 0 0 0 0.

(* [src/cpu/perf/performance_model.cpp] [PerformanceCounters::add_cycles] *)
Definition add_cycles (n : Z) (c : PerformanceCounters) : PerformanceCounters :=
  let '(mkCounters cy ir pf ps fe dr dw ih im dh dm de th tm bi br) := c in
  mkCounters (add64 cy n) ir pf ps fe dr dw ih im dh dm de th tm bi br.
(* [src/cpu/perf/performance_model.cpp] [PerformanceCounters::retire_instruction] *)
Definition retire_instruction (c : PerformanceCounters) : PerformanceCounters :=
  let '(mkCounters cy ir pf ps fe dr dw ih im dh dm de th tm bi br) := c in
  mkCounters cy (wrap64 (ir + 1)) pf ps fe dr dw ih im dh dm de th tm bi br.
(* [src/cpu/perf/performance_model.cpp] [PerformanceCounters::record_pipeline_flush] *)
Definition record_pipeline_flush (c : PerformanceCounters) : PerformanceCounters :=
  let '(mkCounters cy ir pf ps fe dr dw ih im dh dm de th tm bi br) := c in
  mkCounters cy ir (wrap64 (pf + 1)) ps fe dr dw ih im dh dm de th tm bi br.
(* [src/cpu/perf/performance_model.cpp] [PerformanceCounters::add_pipeline_stall_cycles] *)
Definition add_pipeline_stall_cycles (n : Z) (c : PerformanceCounters) : PerformanceCounters :=
  let '(mkCounters cy ir pf ps fe dr dw ih im dh dm de th tm bi br) := c in
  mkCounters cy ir pf (add64 ps n) fe dr dw ih im dh dm de th tm bi br.
(* [src/cpu/perf/performance_model.cpp] [PerformanceCounters::record_instruction_fetch] *)
Definition count_instruction_fetch (r : CacheAccessResult) (c : PerformanceCounters)
  : PerformanceCounters :=
  let '(mkCounters cy ir pf ps fe dr dw ih im dh dm de th tm bi br) := c in
  mkCounters cy ir pf ps (wrap64 (fe + 1)) dr dw (add64 ih (hit_count r)) (add64 im (miss_count r))
    dh dm (add64 de (dirty_eviction_count r)) th tm bi br.
(* [src/cpu/perf/performance_model.cpp] [PerformanceCounters::record_data_read] *)
Definition count_data_read (r : CacheAccessResult) (c : PerformanceCounters) : PerformanceCounters :=
  let '(mkCounters cy ir pf ps fe dr dw ih im dh dm de th tm bi br) := c in
  mkCounters cy ir pf ps fe (wrap64 (dr + 1)) dw ih im (add64 dh (hit_count r))
    (add64 dm (miss_count r)) (add64 de (dirty_eviction_count r)) th tm bi br.
(* [src/cpu/perf/performance_model.cpp] [PerformanceCounters::record_data_write] *)
Definition count_data_write (r : CacheAccessResult) (c : PerformanceCounters) : PerformanceCounters :=
  let '(mkCounters cy ir pf ps fe dr dw ih im dh dm de th tm bi br) := c in
  mkCounters cy ir pf ps fe dr (wrap64 (dw + 1)) ih im (add64 dh (hit_count r))
    (add64 dm (miss_count r)) (add64 de (dirty_eviction_count r)) th tm bi br.
(* [src/cpu/perf/performance_model.cpp] [PerformanceCounters::record_tlb_hit] *)
Definition count_tlb_hit (c : PerformanceCounters) : PerformanceCounters :=
  let '(mkCounters cy ir pf ps fe dr dw ih im dh dm de th tm bi br) := c in
  mkCounters cy ir pf ps fe dr dw ih im dh dm de (wrap64 (th + 1)) tm bi br.
(* [src/cpu/perf/performance_model.cpp] [PerformanceCounters::record_tlb_miss] *)
Definition count_tlb_miss (c : PerformanceCounters) : PerformanceCounters :=
  let '(mkCounters cy ir pf ps fe dr dw ih im dh dm de th tm bi br) := c in
  mkCounters cy ir pf ps fe dr dw ih im dh dm de th (wrap64 (tm + 1)) bi br.
(* [src/cpu/perf/performance_model.cpp] [PerformanceCounters::record_branch] *)
Definition record_branch (redirected : bool) (c : PerformanceCounters) : PerformanceCounters :=
  let '(mkCounters cy ir pf ps fe dr dw ih im dh dm de th tm bi br) := c in
  mkCounters cy ir pf ps fe dr dw ih im dh dm de th tm (wrap64 (bi + 1))
    (if redirected then wrap64 (br + 1) else br).

(** ** The model *)

(* [include/mnos/cpu/perf/performance_model.hpp] [Stage8PerformanceConfig] *)
Record Stage8PerformanceConfig : Set := mkConfig {
  instruction_cache_geometry : CacheGeometry;
  data_cache_geometry : CacheGeometry;
  data_cache_write_policy : CacheWritePolicy;
  config_pipeline : PipelineConfig;
  cache_hit_cycles : Z;
  cache_miss_penalty_cycles : Z;
  cache_dirty_eviction_penalty_cycles : Z;
  tlb_miss_penalty_cycles : Z;
}.

(* [include/mnos/cpu/perf/performance_model.hpp] [Stage8PerformanceModel] *)
Record Stage8PerformanceModel : Set := mkModel {
  config : Stage8PerformanceConfig;
  counters : PerformanceCounters;
  instruction_cache : SetAssociativeCache;
  data_cache : SetAssociativeCache;
  pipeline : InOrderPipeline;
}.

(* [src/cpu/perf/performance_model.cpp] [Stage8PerformanceModel::Stage8PerformanceModel] *)
Definition make_model (cfg : Stage8PerformanceConfig) : Stage8PerformanceModel :=
  mkModel cfg zero_counters
    (make_cache (instruction_cache_geometry cfg) WritePolicy.WRITE_THROUGH)
    (make_cache (data_cache_geometry cfg) (data_cache_write_policy cfg))
    (mkPipeline (config_pipeline cfg) 0 0).

(* [src/cpu/perf/performance_model.cpp] [Stage8PerformanceModel::reset] *)
Definition reset (m : Stage8PerformanceModel) : Stage8PerformanceModel :=
  mkModel (config m) zero_counters (clear (instruction_cache m)) (clear (data_cache m))
    (pipeline_reset (pipeline m)).

Definition on_counters (f : PerformanceCounters -> PerformanceCounters) (m : Stage8PerformanceModel)
  : Stage8PerformanceModel :=
  mkModel (config m) (f (counters m)) (instruction_cache m) (data_cache m) (pipeline m).

(* [src/cpu/perf/performance_model.cpp] [Stage8PerformanceModel::add_cache_cycles] *)
Definition add_cache_cycles (r : CacheAccessResult) (m : Stage8PerformanceModel)
  : Stage8PerformanceModel :=
  let hit_cycles := mul64 (hit_count r) (cache_hit_cycles (config m)) in
  let miss_cycles := mul64 (miss_count r)
    (add64 (cache_hit_cycles (config m)) (cache_miss_penalty_cycles (config m))) in
  let dirty_eviction_cycles :=
    mul64 (dirty_eviction_count r) (cache_dirty_eviction_penalty_cycles (config m)) in
  let stall_cycles :=
    add64 (mul64 (miss_count r) (cache_miss_penalty_cycles (config m))) dirty_eviction_cycles in
  on_counters (fun c => add_pipeline_stall_cycles stall_cycles
    (add_cycles (add64 (add64 hit_cycles miss_cycles) dirty_eviction_cycles) c)) m.

(* [src/cpu/perf/performance_model.cpp] [Stage8PerformanceModel::record_instruction_fetch] *)
Definition record_instruction_fetch (rip byte_count : Z) (m : Stage8PerformanceModel)
  : Stage8PerformanceModel :=
  let '(ic, r) := access rip byte_count CacheKind.EXECUTE (instruction_cache m) in
  let m := mkModel (config m) (counters m) ic (data_cache m) (pipeline m) in
  add_cache_cycles r (on_counters (count_instruction_fetch r) m).
(* [src/cpu/perf/performance_model.cpp] [Stage8PerformanceModel::record_data_read] *)
Definition record_data_read (physical_address byte_count : Z) (m : Stage8PerformanceModel)
  : Stage8PerformanceModel :=
  let '(dc, r) := access physical_address byte_count CacheKind.READ (data_cache m) in
  let m := mkModel (config m) (counters m) (instruction_cache m) dc (pipeline m) in
  add_cache_cycles r (on_counters (count_data_read r) m).
(* [src/cpu/perf/performance_model.cpp] [Stage8PerformanceModel::record_data_write] *)
Definition record_data_write (physical_address byte_count : Z) (m : Stage8PerformanceModel)
  : Stage8PerformanceModel :=
  let '(dc, r) := access physical_address byte_count CacheKind.WRITE (data_cache m) in
  let m := mkModel (config m) (counters m) (instruction_cache m) dc (pipeline m) in
  add_cache_cycles r (on_counters (count_data_write r) m).
(* [src/cpu/perf/performance_model.cpp] [Stage8PerformanceModel::record_tlb_hit] *)
Definition record_tlb_hit : Stage8PerformanceModel -> Stage8PerformanceModel :=
  on_counters count_tlb_hit.
(* [src/cpu/perf/performance_model.cpp] [Stage8PerformanceModel::record_tlb_miss] *)
Definition record_tlb_miss (m : Stage8PerformanceModel) : Stage8PerformanceModel :=
  on_counters (fun c => add_cycles (tlb_miss_penalty_cycles (config m))
    (add_pipeline_stall_cycles (tlb_miss_penalty_cycles (config m)) (count_tlb_miss c))) m.

(* [src/cpu/perf/performance_model.cpp] [Stage8PerformanceModel::record_retired_instruction] *)
Definition record_retired_instruction (control_flow redirected : bool) (m : Stage8PerformanceModel)
  : Stage8PerformanceModel :=
  let '(p, r) := retire control_flow redirected (pipeline m) in
  let m := mkModel (config m) (counters m) (instruction_cache m) (data_cache m) p in
  on_counters (fun c =>
    let c := add_pipeline_stall_cycles (stall_cycles r)
               (add_cycles (total_cycles r) (retire_instruction c)) in
    let c := if flushed r then record_pipeline_flush c else c in
    if control_flow then record_branch redirected c else c) m.
(* [src/cpu/perf/performance_model.cpp] [Stage8PerformanceModel::record_exception_flush] *)
Definition record_exception_flush (m : Stage8PerformanceModel) : Stage8PerformanceModel :=
  let '(p, r) := flush_for_exception (pipeline m) in
  let m := mkModel (config m) (counters m) (instruction_cache m) (data_cache m) p in
  on_counters (fun c => record_pipeline_flush
    (add_pipeline_stall_cycles (stall_cycles r) (add_cycles (total_cycles r) c))) m.

(** ** Event sequences *)

Inductive event : Set :=
  | Fetch (rip byte_count : Z)
  | Read (address byte_count : Z)
  | Write (address byte_count : Z)
  | TlbHit
  | TlbMiss
  | Retired (control_flow redirected : bool)
  | ExceptionFlush
  | Reset.

Definition step (m : Stage8PerformanceModel) (e : event) : Stage8PerformanceModel :=
  match e with
  | Fetch a n => record_instruction_fetch a n m
  | Read a n => record_data_read a n m
  | Write a n => record_data_write a n m
  | TlbHit => record_tlb_hit m
  | TlbMiss => record_tlb_miss m
  | Retired c r => record_retired_instruction c r m
  | ExceptionFlush => record_exception_flush m
  | Reset => reset m
  end.

(** What the counters say about each other, whatever wrapped around. *)
Record perf_inv (m : Stage8PerformanceModel) : Prop := {
  pi_retired : instructions_retired (counters m) = retired_instruction_count (pipeline m);
  pi_flushes : pipeline_flushes (counters m) = flush_count (pipeline m);
  pi_config : pipeline_config (pipeline m) = config_pipeline (config m);
}.

(** The cycle cost of a cache access under a configuration. *)
Definition cache_cost (cfg : Stage8PerformanceConfig) (r : CacheAccessResult) : Z :=
  hit_count r * cache_hit_cycles cfg +
  miss_count r * (cache_hit_cycles cfg + cache_miss_penalty_cycles cfg) +
  dirty_eviction_count r * cache_dirty_eviction_penalty_cycles cfg.

Lemma wrap64_cost cy a b c d e f :
  add64 cy (add64 (add64 (mul64 a b) (mul64 c (add64 b d))) (mul64 e f)) =
  wrap64 (cy + (a * b + c * (b + d) + e * f)).
Proof.
  unfold add64, mul64, wrap64. rewrite Z.mul_mod_idemp_r by lia.
  rewrite <- (Z.add_mod (a * b)) by lia. rewrite <- Z.add_mod by lia. rewrite Z.add_mod_idemp_r by lia.
  done.
Qed.

Lemma step_inv m e : perf_inv m -> perf_inv (step m e).
Proof.
  intros [H1 H2 H3]. destruct m as [cfg c ic dc p]. destruct c. simpl in *.
  destruct e as [a n|a n|a n| | |cf rd| |]; simpl;
    unfold record_instruction_fetch, record_data_read, record_data_write, record_retired_instruction,
      retire; simpl; repeat (destruct (access _ _ _ _) as [dc' r]; simpl).
  1-5, 8: by split.
  - destruct cf, rd; simpl; split; simpl; congruence.
  - split; simpl; congruence.
Qed.

Lemma step_config m e : config (step m e) = config m.
Proof.
  destruct e; simpl; unfold record_instruction_fetch, record_data_read, record_data_write,
    record_retired_instruction; try destruct (access _ _ _ _); try destruct (retire _ _ _); done.
Qed.

(** ** Properties *)

(** For every sequence of events, even when counters wrap around, the retired-instruction and
    flush counters agree with the pipeline's own, and a further data access adds exactly the hit,
    miss and write-back costs of the lines it touched, modulo 2^64. *)
Theorem performance_accounting cfg es a n :
  let m := foldl step (make_model cfg) es in
  perf_inv m /\ config m = cfg /\
  forall m' r, access a n CacheKind.READ (data_cache m) = (data_cache m', r) ->
    m' = record_data_read a n m ->
    cycles (counters m') = wrap64 (cycles (counters m) + cache_cost cfg r) /\
    data_reads (counters m') = wrap64 (data_reads (counters m) + 1) /\
    l1d_hits (counters m') = wrap64 (l1d_hits (counters m) + hit_count r) /\
    l1d_misses (counters m') = wrap64 (l1d_misses (counters m) + miss_count r).
Proof.
  intros m. assert (Hm : perf_inv m /\ config m = cfg).
  { unfold m. clear m. induction es as [|e es [IH1 IH2]] using rev_ind; [done|].
    rewrite foldl_snoc. split; [by apply step_inv|]. by rewrite step_config. }
  destruct Hm as [Hi Hc]. split; [done|]. split; [done|]. intros m' r Ha ->.
  unfold record_data_read. rewrite Ha. destruct m as [cfg' c ic dc p]. destruct c. simpl in *. subst cfg'.
  split; [|done]. unfold cache_cost. by rewrite <- wrap64_cost.
Qed.

Lemma performance_accounting_witness :
  let cfg := mkConfig demo_geometry demo_geometry WritePolicy.WRITE_BACK (mkPipelineConfig 1 4 5) 1 12 8 7 in
  let m := foldl step (make_model cfg) [Write 0 4; TlbMiss; Retired true true] in
  cycles (counters (record_data_read 2 4 m)) = cycles (counters m) + 1.
Proof.
  intros cfg m. destruct (performance_accounting cfg [Write 0 4; TlbMiss; Retired true true] 2 4)
    as (_ & _ & H). destruct (H (record_data_read 2 4 m) (mkResult 1 0 0)) as [Hc _];
    [reflexivity|reflexivity|]. exact Hc.
Defined.
