(* ===== verification/Mmu.v ===== *)
(** * Memory-management unit

    Models src/cpu/memory/mmu.cpp over any memory bus: translation through the lookaside buffer
    with the page walker behind it, accesses that cross a page, the range check and the optional
    performance model.  The main theorems show that the buffer and the performance model are
    transparent. *)

From S2P Require Import Prelude Common PhysicalMemory MemoryBus Paging PageTable Tlb Perf.

(** ** State *)

(* [include/mnos/cpu/memory/mmu.hpp] [MemoryManagementUnit] *)
Record MemoryManagementUnit : Set := mkMmu {
  tlb : TranslationLookasideBuffer;
  performance_model : option Stage8PerformanceModel;
}.
Definition make_mmu : MemoryManagementUnit := mkMmu make_tlb None.

Definition on_tlb (f : TranslationLookasideBuffer -> TranslationLookasideBuffer)
    (m : MemoryManagementUnit) : MemoryManagementUnit :=
  mkMmu (f (tlb m)) (performance_model m).
Definition on_model (f : Stage8PerformanceModel -> Stage8PerformanceModel)
    (m : MemoryManagementUnit) : MemoryManagementUnit :=
  mkMmu (tlb m) (f <$> performance_model m).

(* [src/cpu/memory/mmu.cpp] [MemoryManagementUnit::attach_stage8_performance_model] *)
Definition attach_performance_model (p : Stage8PerformanceModel) (m : MemoryManagementUnit)
  : MemoryManagementUnit := mkMmu (tlb m) (Some p).
(* [src/cpu/memory/mmu.cpp] [MemoryManagementUnit::detach_stage8_performance_model] *)
Definition detach_performance_model (m : MemoryManagementUnit) : MemoryManagementUnit :=
  mkMmu (tlb m) None.
(* [src/cpu/memory/mmu.cpp] [MemoryManagementUnit::flush_tlb] *)
Definition flush_tlb : MemoryManagementUnit -> MemoryManagementUnit := on_tlb Tlb.clear.
(* [src/cpu/memory/mmu.cpp] [MemoryManagementUnit::flush_tlb_context] *)
Definition flush_tlb_context (context_id : Z) : MemoryManagementUnit -> MemoryManagementUnit :=
  on_tlb (invalidate_context context_id).
(* [src/cpu/memory/mmu.cpp] [MemoryManagementUnit::invalidate_page] *)
Definition mmu_invalidate_page (linear_address : Z) : MemoryManagementUnit -> MemoryManagementUnit :=
  on_tlb (invalidate_page linear_address).
(* [src/cpu/memory/mmu.cpp] [MemoryManagementUnit::invalidate_page #2] *)
Definition mmu_invalidate_page_context (linear_address context_id : Z)
  : MemoryManagementUnit -> MemoryManagementUnit :=
  on_tlb (invalidate_page_context linear_address context_id).

(** ** Operations *)

(* [src/cpu/memory/mmu.cpp] [is_access_within_4k_page] *)
Definition is_access_within_4k_page (linear_address byte_count : Z) : bool :=
  let offset := Z.land linear_address (PAGE_SIZE_4K_BYTES - 1) in
  add64 offset byte_count <=? PAGE_SIZE_4K_BYTES.

(* [src/cpu/memory/mmu.cpp] [MemoryManagementUnit::ensure_cached_access_allowed] *)
Definition ensure_cached_access_allowed (ps : PagingState) (t : PageTranslation)
    (p : PrivilegeLevel) (linear_address : Z) (kind : MemoryAccessKind) : res unit :=
  let perms := permissions t in
  if is_user_access p && negb (p_user_accessible perms) then
    Throw (make_page_fault linear_address kind p FaultReason.USER_SUPERVISOR)
  else if bool_decide (kind = AccessKind.WRITE) && negb (p_writable perms) &&
          negb (is_write_allowed_for_read_only_page ps p) then
    Throw (make_page_fault linear_address kind p FaultReason.WRITE_PROTECTION)
  else if bool_decide (kind = AccessKind.EXECUTE) && negb (p_executable perms) then
    Throw (make_page_fault linear_address kind p FaultReason.EXECUTE_DISABLE)
  else Ok tt.

Section mmu.
Context {B : Type} `{MemoryBus B}.
Abbreviation MM := (M (MemoryManagementUnit * B)).

Definition on_mmu (f : MemoryManagementUnit -> MemoryManagementUnit) : MM unit :=
  modify (fun '(m, b) => (f m, b)).
Definition on_memory {A} (c : M B A) : MM A := zoom snd (fun b s => (s.1, b)) c.

(* [src/cpu/memory/mmu.cpp] [MemoryManagementUnit::record_data_read] *)
Definition mmu_record_data_read (physical_address byte_count : Z) : MM unit :=
  on_mmu (on_model (record_data_read physical_address byte_count)).
(* [src/cpu/memory/mmu.cpp] [MemoryManagementUnit::record_data_write] *)
Definition mmu_record_data_write (physical_address byte_count : Z) : MM unit :=
  on_mmu (on_model (record_data_write physical_address byte_count)).
(* [src/cpu/memory/mmu.cpp] [MemoryManagementUnit::record_tlb_hit] *)
Definition mmu_record_tlb_hit : MM unit := on_mmu (on_model record_tlb_hit).
(* [src/cpu/memory/mmu.cpp] [MemoryManagementUnit::record_tlb_miss] *)
Definition mmu_record_tlb_miss : MM unit := on_mmu (on_model record_tlb_miss).

(** The cached translation is a reference into the buffer: the last step writes its slot. *)
(* [src/cpu/memory/mmu.cpp] [MemoryManagementUnit::mark_cached_translation_dirty] *)
Definition mark_cached_translation_dirty (linear_address : Z) (t : PageTranslation) : MM unit :=
  lift (fun '(_, b) => bus_read b (leaf_entry_address t) Size.QWORD) ≫= fun v =>
  let entry := Entry v in
  let updated_entry := with_dirty entry in
  (if negb (raw_bits updated_entry =? raw_bits entry) then
     on_memory (bus_write_M (leaf_entry_address t) Size.QWORD (raw_bits updated_entry))
   else mret tt) ≫= fun _ =>
  on_mmu (on_tlb (set_slot_dirty linear_address)).

(* [src/cpu/memory/mmu.cpp] [MemoryManagementUnit::translate_enabled] *)
Definition translate_enabled (ps : PagingState) (p : PrivilegeLevel) (linear_address : Z)
    (kind : MemoryAccessKind) : MM Z :=
  gets (fun s => lookup (tlb s.1) linear_address (generation ps) (process_context_id ps)) ≫= fun c =>
  match c with
  | Some cached =>
      mmu_record_tlb_hit ≫= fun _ =>
      lift (fun _ => ensure_cached_access_allowed ps cached p linear_address kind) ≫= fun _ =>
      (if bool_decide (kind = AccessKind.WRITE) && negb (dirty cached) then
         mark_cached_translation_dirty linear_address cached
       else mret tt) ≫= fun _ =>
      mret (translation_translate cached linear_address)
  | None =>
      mmu_record_tlb_miss ≫= fun _ =>
      on_memory (translate ps linear_address kind p) ≫= fun t =>
      let physical_address := translation_translate t linear_address in
      on_mmu (on_tlb (insert t (generation ps) (process_context_id ps))) ≫= fun _ =>
      mret physical_address
  end.

(* [src/cpu/memory/mmu.cpp] [MemoryManagementUnit::translate] *)
Definition mmu_translate (ps : PagingState) (p : PrivilegeLevel) (linear_address : Z)
    (kind : MemoryAccessKind) : MM Z :=
  if negb (paging_enabled ps) then mret linear_address
  else translate_enabled ps p linear_address kind.

(** The byte-by-byte loop of a read that crosses a page. *)
Fixpoint read_bytes (ps : PagingState) (p : PrivilegeLevel) (linear_address : Z)
    (byte_indices : list Z) (value : Z) : MM Z :=
  match byte_indices with
  | [] => mret value
  | byte_index :: rest =>
      let byte_linear_address := add64 linear_address byte_index in
      translate_enabled ps p byte_linear_address AccessKind.READ ≫= fun byte_physical_address =>
      mmu_record_data_read byte_physical_address 1 ≫= fun _ =>
      lift (fun '(_, b) => bus_read b byte_physical_address Size.BYTE) ≫= fun byte =>
      read_bytes ps p linear_address rest (Z.lor value (shl64 byte (byte_index * 8)))
  end.

(* [src/cpu/memory/mmu.cpp] [MemoryManagementUnit::read] *)
Definition mmu_read (ps : PagingState) (p : PrivilegeLevel) (linear_address : Z) (s : DataSize)
  : MM Z :=
  lift (fun _ => data_size_to_bytes s) ≫= fun byte_count =>
  if negb (paging_enabled ps) || is_access_within_4k_page linear_address byte_count then
    mmu_translate ps p linear_address AccessKind.READ ≫= fun physical_address =>
    mmu_record_data_read physical_address byte_count ≫= fun _ =>
    lift (fun '(_, b) => bus_read b physical_address s)
  else read_bytes ps p linear_address (seqZ 0 byte_count) 0.

(** The translation pass of a write that crosses a page: the physical address of every byte. *)
Fixpoint translate_bytes (ps : PagingState) (p : PrivilegeLevel) (linear_address : Z)
    (byte_indices : list Z) : MM (list Z) :=
  match byte_indices with
  | [] => mret []
  | i :: is' =>
      translate_enabled ps p (add64 linear_address i) AccessKind.WRITE ≫= fun pa =>
      translate_bytes ps p linear_address is' ≫= fun pas =>
      mret (pa :: pas)
  end.

(* [src/cpu/memory/mmu.cpp] [MemoryManagementUnit::write] *)
Definition mmu_write (ps : PagingState) (p : PrivilegeLevel) (linear_address : Z) (s : DataSize)
    (value : Z) : MM unit :=
  lift (fun _ => data_size_to_bytes s) ≫= fun byte_count =>
  if negb (paging_enabled ps) || is_access_within_4k_page linear_address byte_count then
    mmu_translate ps p linear_address AccessKind.WRITE ≫= fun physical_address =>
    mmu_record_data_write physical_address byte_count ≫= fun _ =>
    on_memory (bus_write_M physical_address s value)
  else
    translate_bytes ps p linear_address (seqZ 0 byte_count) ≫= fun physical_addresses =>
    for_each (seqZ 0 byte_count) (fun byte_index =>
      let byte_value := Z.land (Z.shiftr value (byte_index * 8)) 255 in
      let pa := nthZ physical_addresses byte_index in
      mmu_record_data_write pa 1 ≫= fun _ =>
      on_memory (bus_write_M pa Size.BYTE byte_value)).

(** One page per unit of fuel; every page consumes at least one byte of the range. *)
Fixpoint check_pages (fuel : nat) (ps : PagingState) (p : PrivilegeLevel) (linear_address byte_count : Z)
    (kind : MemoryAccessKind) : MM unit :=
  match fuel with
  | O => mret tt
  | S fuel' =>
      if 0 <? byte_count then
        translate_enabled ps p linear_address kind ≫= fun _ =>
        let offset := Z.land linear_address (PAGE_SIZE_4K_BYTES - 1) in
        let bytes_until_next_page := sub64 PAGE_SIZE_4K_BYTES offset in
        let step := Z.min byte_count bytes_until_next_page in
        check_pages fuel' ps p (add64 linear_address step) (sub64 byte_count step) kind
      else mret tt
  end.
(* [src/cpu/memory/mmu.cpp] [MemoryManagementUnit::check_access_range] *)
Definition check_access_range (ps : PagingState) (p : PrivilegeLevel) (linear_address byte_count : Z)
    (kind : MemoryAccessKind) : MM unit :=
  if negb (paging_enabled ps) || (byte_count =? 0) then mret tt
  else check_pages (S (Z.to_nat byte_count)) ps p linear_address byte_count kind.
End mmu.

(** ** Consistency of the buffer with the tables *)

Section consistency.
Context {B : Type} `{MemoryBusLaws B}.
Implicit Types (b : B) (t : TranslationLookasideBuffer) (m : MemoryManagementUnit).
Implicit Types (T : gmap Z (PageTableLevel * Z)).

(** The translation of leaf [e] of a page of [n] bytes around [a]. *)
Definition leaf_translation (a n : Z) (e : PageTableEntry) (entry_address : Z) (d : bool)
  : PageTranslation :=
  mkTranslation (page_base a n) (frame_address e n) n
    (mkPermissions (is_writable e) (is_user_accessible e) (negb (is_no_execute e))) entry_address d.

(** [tr] is what a walk for [a] would find in the tables now. *)
Definition agrees (ps : PagingState) b (a : Z) (tr : PageTranslation) : Prop :=
  is_canonical_linear_address a = true /\
  exists l ta i e d, resolve b Level.PML4 (cr3 ps) a = Some (l, ta, i, e) /\
    (forall kind p, validate_reserved_bits ps e l a kind p = Ok tt) /\
    is_accessed e = true /\ (d = true -> is_dirty e = true) /\
    tr = leaf_translation a (2 ^ level_shift l) e (entry_address_for_index ta i) d.

(** Every translation the buffer would answer with, under the current generation and context,
    agrees with the tables: the operating system has invalidated what it changed. *)
Record tlb_consistent (ps : PagingState) b t : Prop := {
  tc_tlb : tlb_wf t;
  tc_entry a tr : u64 a -> lookup t a (generation ps) (process_context_id ps) = Some tr ->
    agrees ps b a tr;
}.

Lemma eq_ad_validate ps e e' l a kind p : eq_ad e e' ->
  validate_reserved_bits ps e' l a kind p = validate_reserved_bits ps e l a kind p.
Proof.
  intros He. unfold validate_reserved_bits, is_large_leaf_entry. rewrite !is_huge_page_bit, !is_no_execute_bit.
  rewrite (He 7), (He 63), (eq_ad_table_address _ _ He) by lia.
  assert (Hr : has_reserved_high_bits e' = has_reserved_high_bits e); [|by rewrite Hr].
  apply eq_true_iff_eq. rewrite <- !not_false_iff_true, !has_reserved_high_bits_false.
  split; intros Hn Hb; apply Hn; intros i Hi; [rewrite (He i) by lia|rewrite <- (He i) by lia]; by apply Hb.
Qed.

(** The reserved-bit test does not depend on the access. *)
Lemma validate_any ps e l a kind p a' kind' p' :
  validate_reserved_bits ps e l a kind p = Ok tt -> validate_reserved_bits ps e l a' kind' p' = Ok tt.
Proof.
  unfold validate_reserved_bits. destruct (_ || _); [done|]. destruct (is_large_leaf_entry e l); [|done].
  munfold_goal. destruct (page_size_for_leaf_level l); [|done]. by destruct (negb _).
Qed.

Lemma eq_ad_translation e e' a n ea d : eq_ad e e' ->
  leaf_translation a n e' ea d = leaf_translation a n e ea d.
Proof.
  intros He. unfold leaf_translation.
  rewrite (eq_ad_frame_address _ _ n He), !is_writable_bit, !is_user_accessible_bit, !is_no_execute_bit.
  by rewrite (He 1), (He 2), (He 63).
Qed.

Lemma agrees_touched T ps b b' a tr : tables_wf T (cr3 ps) b -> touched T b b' ->
  agrees ps b a tr -> agrees ps b' a tr.
Proof.
  intros Hwf Ht (Hc & l & ta & i & e & d & Hr & Hv & Ha & Hd & ->). split; [done|].
  destruct (touched_resolve T (cr3 ps) b b' a l ta i e Hwf Ht Hr) as (Hr' & [He Hm] & _).
  exists l, ta, i, (ent b' ta i), d. split; [done|]. split.
  { intros kind p. by rewrite (eq_ad_validate ps _ _ _ _ _ _ He). }
  split; [|split; [|by rewrite (eq_ad_translation _ _ _ _ _ _ He)]].
  - rewrite is_accessed_bit in *. by apply Hm.
  - intros Hdt. specialize (Hd Hdt). rewrite is_dirty_bit in *. by apply Hm.
Qed.

(** ** Pages *)

Lemma page_of_contained l a a' : l <> Level.COUNT -> l <> Level.PML4 -> u64 a -> u64 a' ->
  is_canonical_linear_address a = true ->
  page_base a (2 ^ level_shift l) <= a' -> a' < page_base a (2 ^ level_shift l) + 2 ^ level_shift l ->
  is_canonical_linear_address a' = true /\ entry_key l a = entry_key l a' /\
  page_base a' (2 ^ level_shift l) = page_base a (2 ^ level_shift l).
Proof.
  intros Hl Hl' Ha Ha' Hc Hlo Hhi. pose proof (level_shift_bounds l) as Hs.
  assert (Hs' : level_shift l < 64) by lia.
  rewrite <- Z.shiftl_1_l in *. rewrite !page_base_spec in * by (lia || done). rewrite Z.shiftl_1_l in *.
  set (n := 2 ^ level_shift l) in *.
  assert (Hn : 0 < n) by (apply Z.pow_pos_nonneg; lia).
  pose proof (Z.div_mod a n). pose proof (Z.div_mod a' n). pose proof (Z.mod_pos_bound a n Hn).
  pose proof (Z.mod_pos_bound a' n Hn).
  assert (Hd : a' / n = a / n) by (symmetry; apply (Z.div_unique _ _ _ (a' - n * (a / n))); lia).
  split; [|split].
  - rewrite is_canonical_spec in * by done. apply bool_decide_eq_true in Hc. apply bool_decide_eq_true.
    assert (H47 : (2 ^ 47) `mod` n = 0) by (by destruct l). apply Z.mod_divide in H47 as [k Hk]; [|lia].
    assert (Htop : (W64 - 2 ^ 47) `mod` n = 0) by (by destruct l).
    apply Z.mod_divide in Htop as [k' Hk']; [|lia]. destruct Hc as [Hc|Hc]; [left|right].
    + assert ((a / n + 1) * n <= k * n); [|lia]. apply Z.mul_le_mono_nonneg_r; [lia|].
      assert (a / n < k); [|lia]. apply Z.div_lt_upper_bound; lia.
    + assert (k' * n <= (a / n) * n); [|lia]. apply Z.mul_le_mono_nonneg_r; [lia|].
      apply Z.div_le_lower_bound; lia.
  - rewrite !entry_key_alt. fold n. by rewrite Hd.
  - lia.
Qed.

Lemma leaf_translation_contains l a e ea d a' : u64 a -> u64 a' ->
  translation_contains (leaf_translation a (2 ^ level_shift l) e ea d) a' = true <->
  page_base a (2 ^ level_shift l) <= a' < page_base a (2 ^ level_shift l) + 2 ^ level_shift l.
Proof.
  intros Ha Ha'. unfold translation_contains, leaf_translation. cbn [virtual_page_base page_size_bytes].
  pose proof (level_shift_bounds l). assert (Hb : 0 <= page_base a (2 ^ level_shift l)).
  { rewrite <- Z.shiftl_1_l, page_base_spec by (lia || done). 
    pose proof (Z.mod_le a (2 ^ level_shift l)). assert (0 < 2 ^ level_shift l) by (apply Z.pow_pos_nonneg; lia).
    destruct Ha. lia. }
  rewrite andb_true_iff, Z.leb_le, Z.ltb_lt. destruct Ha'. split.
  - intros [Hle Hlt]. rewrite sub64_small in Hlt by lia. lia.
  - intros [Hle Hlt]. split; [done|]. rewrite sub64_small by lia. lia.
Qed.

Lemma agrees_same_page T ps b a a' tr : tables_wf T (cr3 ps) b -> u64 a -> u64 a' ->
  agrees ps b a tr -> translation_contains tr a' = true -> agrees ps b a' tr.
Proof.
  intros Hwf Ha Ha' (Hc & l & ta & i & e & d & Hr & Hv & Hac & Hd & ->) Hcont.
  destruct (resolve_inv b (cr3 ps) a Level.PML4) with (ta0 := cr3 ps) (l := l) (ta := ta)
    (i := i) (e := e) as (Hl & _ & _ & _ & _ & Hle); [done|constructor|done|].
  destruct (leaf_level e l Hl Hle) as [Hl' _].
  apply leaf_translation_contains in Hcont as [Hlo Hhi]; [|done..].
  destruct (page_of_contained l a a') as (Hc' & Hk & Hb); [done..|]. split; [done|].
  exists l, ta, i, e, d. split; [by apply (resolve_same_key b (cr3 ps) a)|]. split; [|split; [done|split; [done|]]].
  - intros kind p. exact (validate_any ps e l a kind p a' kind p (Hv kind p)).
  - unfold leaf_translation. by rewrite Hb.
Qed.

(** ** One translation *)

Lemma ensure_enforce ps a n e ea d p x kind :
  ensure_cached_access_allowed ps (leaf_translation a n e ea d) p x kind =
  enforce_permissions ps (apply_entry all_permissions e) x kind p.
Proof. reflexivity. Qed.

Lemma set_slot_dirty_consistent T ps b b' t a tr : tables_wf T (cr3 ps) b ->
  tlb_consistent ps b t -> u64 a -> touched T b b' ->
  lookup t a (generation ps) (process_context_id ps) = Some tr ->
  (forall l ta i e, resolve b Level.PML4 (cr3 ps) a = Some (l, ta, i, e) ->
     is_dirty (ent b' ta i) = true) ->
  tlb_consistent ps b' (set_slot_dirty a t).
Proof.
  intros Hwf [Htlb Hent] Ha Ht Hlk Hdirty. split; [by apply set_slot_dirty_wf|].
  intros a2 tr2 Ha2 Hl2. apply lookup_Some in Hl2 as [He2 Hc2].
  rewrite entry_at_set_slot_dirty in He2 by done. cbn zeta in He2.
  destruct (decide (slot_index a2 = slot_index a)) as [Hs|Hs].
  2:{ apply (agrees_touched T ps b); [done..|]. apply Hent; [done|]. by apply lookup_Some. }
  rewrite Hs in He2. apply lookup_Some in Hlk as [He Hc]. rewrite He in He2. simpl in He2.
  injection He2 as <-. pose proof (Hent a tr Ha) as Hag. rewrite lookup_Some in Hag.
  specialize (Hag (conj He Hc)). change (translation_contains tr a2 = true) in Hc2.
  pose proof Hag as (_ & l & ta & i & e & d & Hr & _ & _ & _ & _).
  apply (agrees_same_page T ps b a a2) in Hag; [|done..].
  apply (agrees_touched T ps b b') in Hag; [|done..].
  destruct Hag as (Hcan & l2 & ta2 & i2 & e2 & d2 & Hr2 & Hv2 & Hac2 & Hd2 & Htr2).
  split; [done|]. exists l2, ta2, i2, e2, true. split; [done|]. split; [done|]. split; [done|].
  split; [|by rewrite Htr2]. intros _.
  destruct (Hent a tr Ha) as (_ & l1 & ta1 & i1 & e1 & d1 & Hr1 & _ & _ & _ & Htr1);
    [by apply lookup_Some|].
  assert (Hea : entry_address_for_index ta2 i2 = entry_address_for_index ta1 i1).
  { apply (f_equal leaf_entry_address) in Htr1, Htr2. simpl in Htr1, Htr2. congruence. }
  destruct (touched_resolve T (cr3 ps) b b' a l1 ta1 i1 e1 Hwf Ht Hr1) as (Hr1' & _ & _ & Hi1 & Hta1).
  pose proof (touched_wf T (cr3 ps) b b' Hwf Ht) as Hwf'.
  destruct (touched_resolve T (cr3 ps) b' b' a2 l2 ta2 i2 e2 Hwf') as (_ & _ & -> & Hi2 & Hta2);
    [by apply touched_refl, (tch_bus _ _ _ Ht)|done|].
  destruct (twf_table _ _ _ Hwf' _ _ _ Hta1) as [Hok1 _], (twf_table _ _ _ Hwf' _ _ _ Hta2) as [Hok2 _].
  rewrite !(slot_address b') in Hea by (done || apply (tch_bus _ _ _ Ht)).
  apply slot_inj in Hea as [-> ->]; [|apply Hok2|apply Hok1|done..].
  by apply (Hdirty l1 ta1 i1 e1).
Qed.

Lemma insert_consistent T ps b b' t a tr : tables_wf T (cr3 ps) b -> touched T b b' ->
  tlb_consistent ps b t -> u64 a -> agrees ps b' a tr ->
  tlb_consistent ps b' (insert tr (generation ps) (process_context_id ps) t).
Proof.
  intros Hwf Ht [Htlb Hent] Ha Hag. split; [by apply insert_wf|]. intros a2 tr2 Ha2 Hl2.
  pose proof (touched_wf T (cr3 ps) b b' Hwf Ht) as Hwf'.
  unfold lookup in Hl2. rewrite entry_at_insert in Hl2 by done.
  destruct (decide (slot_index a2 = slot_index (virtual_page_base tr))) as [Hs|Hs].
  - simpl in Hl2. rewrite !Z.eqb_refl in Hl2. simpl in Hl2.
    destruct (translation_contains tr a2) eqn:Hc; [|done]. injection Hl2 as <-.
    by apply (agrees_same_page T ps b' a a2).
  - apply (agrees_touched T ps b b'); [done..|]. by apply Hent.
Qed.

(** What the walker's success says, in the terms of [agrees]. *)
Lemma walk_agrees T ps a kind p b b1 tr : tables_wf T (cr3 ps) b ->
  translate ps a kind p b = (b1, Ok tr) ->
  touched T b b1 /\ agrees ps b1 a tr /\ (kind = AccessKind.WRITE -> dirty tr = true).
Proof.
  intros Hwf Htr. destruct (is_canonical_linear_address a) eqn:Hc.
  2:{ unfold translate in Htr. munfold. by rewrite Hc in Htr. }
  destruct (translate_spec ps a kind p T b Hwf Hc) as (b2 & Ht & Hr).
  destruct (resolve b Level.PML4 (cr3 ps) a) as [[[[l ta] i] e]|] eqn:Hres; [|congruence].
  destruct Hr as [Hr Hm]. rewrite Htr in Hr. injection Hr as <- Hout. rewrite <- Hout in Hm.
  specialize (Hm eq_refl). split; [done|].
  destruct (touched_resolve T (cr3 ps) b b1 a l ta i e Hwf Ht Hres) as (Hres' & [He _] & _).
  rewrite Hm in Hres', He.
  destruct (resolve_inv b (cr3 ps) a Level.PML4) with (ta0 := cr3 ps) (l := l) (ta := ta)
    (i := i) (e := e) as (Hl & _ & _ & _ & _ & Hle); [done|constructor|done|].
  destruct (leaf_level e l Hl Hle) as [Hl' Hn].
  unfold leaf_outcome in Hout. munfold. rewrite Hn in Hout.
  destruct (validate_reserved_bits ps e l a kind p) as [[]|] eqn:Hv; [|done].
  destruct (enforce_permissions _ _ _ _ _) as [[]|] eqn:Hen; [|done]. injection Hout as ->.
  split; [|by intros ->; simpl; rewrite orb_true_r].
  split; [done|]. exists l, ta, i, (marked e true kind), (is_dirty (marked e true kind)).
  split; [done|]. split.
  { intros kind' p'. rewrite (eq_ad_validate ps e _ l a kind' p' He).
    exact (validate_any ps e l a kind p a kind' p' Hv). }
  split; [rewrite is_accessed_bit, marked_testbit by lia; by rewrite orb_true_r|]. split; [done|].
  rewrite (eq_ad_translation _ _ _ _ _ _ He), marked_dirty. unfold leaf_translation.
  by rewrite Z.shiftl_1_l.
Qed.

Lemma with_dirty_extends e : ad_extends e (with_dirty e).
Proof.
  assert (Hb : forall i, 0 <= i -> Z.testbit (raw_bits (with_dirty e)) i =
    Z.testbit (raw_bits e) i || bool_decide (i = 5) || bool_decide (i = 6)).
  { intros i Hi. unfold with_dirty, ACCESSED_BIT, DIRTY_BIT. cbn [raw_bits].
    by rewrite !Z.lor_spec, !testbit_single by lia. }
  split.
  - intros i Hi H5 H6. rewrite Hb, !bool_decide_false by done. by rewrite !orb_false_r.
  - intros i Hi He. by rewrite Hb, He.
Qed.
Lemma with_dirty_dirty e : is_dirty (with_dirty e) = true.
Proof.
  rewrite is_dirty_bit. unfold with_dirty, DIRTY_BIT. cbn [raw_bits].
  rewrite Z.lor_spec, testbit_single by lia. by rewrite orb_true_r.
Qed.

Lemma mark_cached_spec T ps m b a tr l ta i e : tables_wf T (cr3 ps) b ->
  resolve b Level.PML4 (cr3 ps) a = Some (l, ta, i, e) ->
  leaf_entry_address tr = entry_address_for_index ta i ->
  exists b', mark_cached_translation_dirty a tr (m, b) =
    ((on_tlb (set_slot_dirty a) m, b'), Ok tt) /\ touched T b b' /\
    is_dirty (ent b' ta i) = true.
Proof.
  intros Hwf Hr Hea. pose proof (twf_bus _ _ _ Hwf) as Hok.
  destruct (touched_resolve T (cr3 ps) b b a l ta i e Hwf (touched_refl T b Hok) Hr)
    as (_ & _ & -> & Hi & Hta).
  destruct (twf_table _ _ _ Hwf _ _ _ Hta) as [Htok _].
  destruct (ent_read b ta i Hok Htok Hi) as [Hread Hu].
  assert (Hu' : u64 (raw_bits (with_dirty (ent b ta i)))).
  { unfold with_dirty. cbn [raw_bits]. repeat apply u64_lor; done || by vm_compute. }
  destruct (update_spec T (cr3 ps) b ta l (table_key l a) i (with_dirty (ent b ta i))) as (b' & Hw & Ht & He);
    [done..|apply with_dirty_extends|done|].
  exists b'. split; [|split; [done|]].
  - unfold mark_cached_translation_dirty, on_mmu, on_memory. munfold_goal. rewrite Hea.
    unfold read_entry in Hread. munfold. destruct (bus_read b _ _) as [v|]; [|done]. injection Hread as Hv.
    unfold write_page_table_entry_if_changed in Hw. rewrite Hv. destruct (negb _); cbn [snd fst].
    + by rewrite Hw.
    + by injection Hw as ->.
  - rewrite (He _ _ _ _ Hta Hi), decide_True by done. apply with_dirty_dirty.
Qed.

(** The physical address of [a] by the walker alone, with no buffer in front of it. *)
Definition walk_address (ps : PagingState) (p : PrivilegeLevel) (a : Z) (kind : MemoryAccessKind) b
  : res Z := t ← (translate ps a kind p b).2; Ok (translation_translate t a).

Lemma walk_address_spec T ps p a kind b : tables_wf T (cr3 ps) b ->
  walk_address ps p a kind b =
  if negb (is_canonical_linear_address a) then Throw out_of_range else
  match resolve b Level.PML4 (cr3 ps) a with
  | None => Throw (make_page_fault a kind p FaultReason.NOT_PRESENT)
  | Some (l, ta, i, e) =>
      _ ← validate_reserved_bits ps e l a kind p;
      _ ← enforce_permissions ps (apply_entry all_permissions e) a kind p;
      Ok (add64 (frame_address e (2 ^ level_shift l)) (sub64 a (page_base a (2 ^ level_shift l))))
  end.
Proof.
  intros Hwf. unfold walk_address. destruct (is_canonical_linear_address a) eqn:Hc; simpl.
  2:{ unfold translate. munfold_goal. by rewrite Hc. }
  destruct (translate_spec ps a kind p T b Hwf Hc) as (b1 & _ & Hr).
  destruct (resolve b Level.PML4 (cr3 ps) a) as [[[[l ta] i] e]|] eqn:Hres; [|by rewrite Hr].
  destruct Hr as [-> _]. simpl.
  destruct (resolve_inv b (cr3 ps) a Level.PML4) with (ta0 := cr3 ps) (l := l) (ta := ta)
    (i := i) (e := e) as (Hl & _ & _ & _ & _ & Hle); [done|constructor|done|].
  destruct (leaf_level e l Hl Hle) as [Hl' Hn]. unfold leaf_outcome. munfold_goal.
  destruct (validate_reserved_bits ps e l a kind p); [|done].
  destruct (enforce_permissions _ _ _ _ _); [|done]. rewrite Hn. by rewrite Z.shiftl_1_l.
Qed.

Lemma enforce_eq_ad ps e e' a kind p : eq_ad e e' ->
  enforce_permissions ps (apply_entry all_permissions e') a kind p =
  enforce_permissions ps (apply_entry all_permissions e) a kind p.
Proof.
  intros He. unfold apply_entry. rewrite !is_writable_bit, !is_user_accessible_bit, !is_no_execute_bit.
  by rewrite (He 1), (He 2), (He 63).
Qed.

Lemma touched_resolve_iff T root b b' a : tables_wf T root b -> touched T b b' ->
  match resolve b Level.PML4 root a, resolve b' Level.PML4 root a with
  | None, None => True
  | Some (l, ta, i, e), Some (l', ta', i', e') => l' = l /\ ta' = ta /\ i' = i /\ eq_ad e e'
  | _, _ => False
  end.
Proof.
  intros Hwf Ht. assert (Hgen : forall l, l <> Level.COUNT -> forall ta, path b root a l ta ->
    match resolve b l ta a, resolve b' l ta a with
    | None, None => True
    | Some (l, ta, i, e), Some (l', ta', i', e') => l' = l /\ ta' = ta /\ i' = i /\ eq_ad e e'
    | _, _ => False
    end).
  { apply (level_induction (fun l => forall ta, _ -> _)). intros l Hl IH ta Hp.
    rewrite !resolve_step by done. cbn zeta. pose proof (path_table T root b a l ta Hwf Hp) as Hta.
    destruct (tch_entry _ _ _ Ht ta l _ _ Hta (level_index_range a l)) as [He _].
    rewrite (eq_ad_present _ _ He), (eq_ad_leaf _ _ _ He), (eq_ad_table_address _ _ He).
    destruct (is_present (ent b ta (level_index a l))) eqn:Hpr; simpl; [|done].
    destruct (is_leaf_entry (ent b ta (level_index a l)) l) eqn:Hle; [done|].
    apply IH; [by eapply not_leaf_not_PT|]. by apply path_step. }
  apply Hgen; [done|constructor].
Qed.

Lemma walk_address_touched T ps p a kind b b' : tables_wf T (cr3 ps) b -> touched T b b' ->
  walk_address ps p a kind b' = walk_address ps p a kind b.
Proof.
  intros Hwf Ht. pose proof (touched_wf T (cr3 ps) b b' Hwf Ht) as Hwf'.
  rewrite !(walk_address_spec T) by done. destruct (is_canonical_linear_address a); [|done]. simpl.
  pose proof (touched_resolve_iff T (cr3 ps) b b' a Hwf Ht) as Hr.
  destruct (resolve b Level.PML4 (cr3 ps) a) as [[[[l ta] i] e]|],
    (resolve b' Level.PML4 (cr3 ps) a) as [[[[l' ta'] i'] e']|]; try done.
  destruct Hr as (-> & -> & -> & He).
  by rewrite (eq_ad_validate ps _ _ _ _ _ _ He), (enforce_eq_ad ps _ _ _ _ _ He), (eq_ad_frame_address _ _ _ He).
Qed.

(** The invariant of a machine whose buffer agrees with its tables. *)
Record mmu_wf T (ps : PagingState) m b : Prop := {
  mw_tables : tables_wf T (cr3 ps) b;
  mw_tlb : tlb_consistent ps b (tlb m);
}.

Lemma translate_enabled_spec T ps p a kind m b m' b' r : mmu_wf T ps m b -> u64 a ->
  translate_enabled ps p a kind (m, b) = ((m', b'), r) ->
  r = walk_address ps p a kind b /\ touched T b b' /\ mmu_wf T ps m' b' /\
  (is_Ok r = true -> kind = AccessKind.WRITE ->
   exists l ta i e, resolve b' Level.PML4 (cr3 ps) a = Some (l, ta, i, e) /\ is_dirty e = true).
Proof.
  intros [Hwf Hcons] Ha. pose proof (twf_bus _ _ _ Hwf) as Hok.
  unfold translate_enabled, mmu_record_tlb_hit, mmu_record_tlb_miss, on_mmu, on_memory. munfold_goal. cbn [fst snd].
  destruct (lookup (tlb m) a (generation ps) (process_context_id ps)) as [tr|] eqn:Hlk.
  - pose proof (tc_entry _ _ _ Hcons a tr Ha Hlk) as (Hc & l & ta & i & e & d & Hr & Hv & Hac & Hd & ->).
    rewrite (walk_address_spec T), Hc, Hr by done. simpl. rewrite Hv. munfold_goal.
    rewrite ensure_enforce. destruct (enforce_permissions _ _ _ _ _) as [[]|ex] eqn:Hen.
    2:{ intros [=]; subst. split; [done|]. split; [by apply touched_refl|]. split; [by split|done]. }
    destruct (bool_decide (kind = AccessKind.WRITE) && negb d) eqn:Hmark; simpl.
    + set (m1 := on_model record_tlb_hit m).
      destruct (mark_cached_spec T ps m1 b a
        (leaf_translation a (2 ^ level_shift l) e (entry_address_for_index ta i) d) l ta i e)
        as (b1 & -> & Ht & Hdirty); [done..|]. intros [=]; subst. split; [done|]. split; [done|].
      destruct (touched_resolve T (cr3 ps) b b' a l ta i e Hwf Ht Hr) as (Hr' & _).
      split; [split; [by apply (touched_wf T (cr3 ps) b)|]|].
      * apply (set_slot_dirty_consistent T ps b b' (tlb m) a
          (leaf_translation a (2 ^ level_shift l) e (entry_address_for_index ta i) d)); try done.
        intros l2 ta2 i2 e2 Hr2. rewrite Hr in Hr2. by injection Hr2 as <- <- <- <-.
      * intros _ _. eauto 10.
    + intros [=]; subst. split; [done|]. split; [by apply touched_refl|]. split; [by split|].
      intros _ ->. simpl in Hmark. apply negb_false_iff in Hmark. subst d. eauto 10.
  - cbn [fst snd]. destruct (translate ps a kind p b) as [b1 [tr|ex]] eqn:Htr.
    + destruct (walk_agrees T ps a kind p b b1 tr Hwf Htr) as (Ht & Hag & Hd).
      unfold walk_address. rewrite Htr. cbn [fst snd]. intros [=]; subst. split; [done|]. split; [done|].
      split; [split; [by apply (touched_wf T (cr3 ps) b)|by apply (insert_consistent T ps b b' (tlb m) a)]|].
      intros _ Hk. destruct Hag as (_ & l & ta & i & e & d & Hr & _ & _ & Hdd & Htr').
      exists l, ta, i, e. split; [done|]. apply Hdd. apply Hd in Hk. rewrite Htr' in Hk. exact Hk.
    + assert (Ht : touched T b b1).
      { destruct (is_canonical_linear_address a) eqn:Hc.
        - destruct (translate_spec ps a kind p T b Hwf Hc) as (b2 & Ht & Hr). rewrite Htr in Hr.
          destruct (resolve b Level.PML4 (cr3 ps) a) as [[[[l ta] i] e]|]; [destruct Hr as [Hr _]|]; congruence.
        - unfold translate in Htr. munfold. rewrite Hc in Htr. injection Htr as <- _. by apply touched_refl. }
      unfold walk_address. rewrite Htr. cbn [fst snd]. intros [=]; subst. split; [done|]. split; [done|].
      split; [|done]. split; [by apply (touched_wf T (cr3 ps) b)|]. destruct Hcons as [C1 C2]. split; [done|].
      intros a2 tr2 Ha2 Hl2. apply (agrees_touched T ps b b'); [done..|]. by apply C2.
Qed.

(** ** The performance model is invisible *)

Definition erase (s : MemoryManagementUnit * B) : MemoryManagementUnit * B :=
  (detach_performance_model s.1, s.2).
(** A computation whose outcome and effect, the model aside, do not depend on the model. *)
Definition oblivious {A} (c : M (MemoryManagementUnit * B) A) : Prop :=
  forall s, c (erase s) = (erase (c s).1, (c s).2).

Lemma oblivious_ret {A} (x : A) : oblivious (mret x).
Proof. by intros s. Qed.
Lemma oblivious_bind {A C} (c : M _ A) (k : A -> M _ C) :
  oblivious c -> (forall x, oblivious (k x)) -> oblivious (c ≫= k).
Proof.
  intros Hc Hk s. munfold_goal. rewrite Hc. destruct (c s) as [s1 [x|e]]; cbn [fst snd]; [|done].
  apply Hk.
Qed.
Lemma oblivious_lift {A} (f : _ -> res A) : (forall s, f (erase s) = f s) -> oblivious (lift f).
Proof. intros Hf s. unfold lift. by rewrite Hf. Qed.
Lemma oblivious_gets {A} (f : _ -> A) : (forall s, f (erase s) = f s) -> oblivious (gets f).
Proof. intros Hf s. unfold gets. by rewrite Hf. Qed.
Lemma oblivious_on_memory {A} (c : M B A) : oblivious (on_memory c).
Proof. intros [m b]. unfold on_memory, zoom. simpl. by destruct (c b). Qed.
Lemma oblivious_on_model f : oblivious (on_mmu (on_model f)).
Proof. by intros [m b]. Qed.
Lemma oblivious_on_tlb f : oblivious (on_mmu (on_tlb f)).
Proof. by intros [m b]. Qed.
Lemma oblivious_if {A} (c : bool) (x y : M _ A) : oblivious x -> oblivious y ->
  oblivious (if c then x else y).
Proof. by destruct c. Qed.
Lemma oblivious_for_each {X} (xs : list X) f : (forall x, oblivious (f x)) -> oblivious (for_each xs f).
Proof.
  intros Hf. induction xs as [|x xs IH]; [apply oblivious_ret|]. by apply oblivious_bind.
Qed.
Lemma oblivious_record_read a n : oblivious (mmu_record_data_read a n).
Proof. apply oblivious_on_model. Qed.
Lemma oblivious_record_write a n : oblivious (mmu_record_data_write a n).
Proof. apply oblivious_on_model. Qed.
Lemma oblivious_record_hit : oblivious mmu_record_tlb_hit.
Proof. apply oblivious_on_model. Qed.
Lemma oblivious_record_miss : oblivious mmu_record_tlb_miss.
Proof. apply oblivious_on_model. Qed.
#[local] Hint Resolve oblivious_ret oblivious_bind oblivious_on_memory oblivious_on_model
  oblivious_on_tlb oblivious_if oblivious_for_each oblivious_record_read oblivious_record_write
  oblivious_record_hit oblivious_record_miss : mnos.

Lemma oblivious_translate_enabled ps p a kind : oblivious (translate_enabled ps p a kind).
Proof.
  unfold translate_enabled. apply oblivious_bind; [by apply oblivious_gets|].
  intros [tr|]; repeat (apply oblivious_bind; [|intros ?]); auto with mnos.
  - by apply oblivious_lift.
  - apply oblivious_if; [|apply oblivious_ret]. unfold mark_cached_translation_dirty.
    apply oblivious_bind; [by apply oblivious_lift; intros []|]. intros v. eauto with mnos.
Qed.
Lemma oblivious_mmu_translate ps p a kind : oblivious (mmu_translate ps p a kind).
Proof. apply oblivious_if; [apply oblivious_ret|apply oblivious_translate_enabled]. Qed.

Lemma oblivious_read_bytes ps p a ks v : oblivious (read_bytes ps p a ks v).
Proof.
  revert v. induction ks as [|k ks IH]; intros v; [apply oblivious_ret|]. cbn [read_bytes].
  apply oblivious_bind; [apply oblivious_translate_enabled|]. intros pa.
  apply oblivious_bind; [apply oblivious_record_read|]. intros _.
  apply oblivious_bind; [by apply oblivious_lift; intros []|]. intros byte. apply IH.
Qed.
Lemma oblivious_translate_bytes ps p a ks : oblivious (translate_bytes ps p a ks).
Proof.
  induction ks as [|k ks IH]; [apply oblivious_ret|]. simpl.
  apply oblivious_bind; [apply oblivious_translate_enabled|]. intros pa. eauto with mnos.
Qed.
Lemma oblivious_check_pages fuel ps p kind : forall a n, oblivious (check_pages fuel ps p a n kind).
Proof.
  induction fuel as [|fuel IH]; intros a n; [apply oblivious_ret|]. simpl.
  apply oblivious_if; [|apply oblivious_ret].
  apply oblivious_bind; [apply oblivious_translate_enabled|]. intros _. apply IH.
Qed.

Lemma oblivious_mmu_read ps p a s : oblivious (mmu_read ps p a s).
Proof.
  apply oblivious_bind; [by apply oblivious_lift|]. intros n. apply oblivious_if; [|apply oblivious_read_bytes].
  apply oblivious_bind; [apply oblivious_mmu_translate|]. intros pa.
  apply oblivious_bind; [apply oblivious_record_read|]. intros _. by apply oblivious_lift; intros [].
Qed.
Lemma oblivious_mmu_write ps p a s v : oblivious (mmu_write ps p a s v).
Proof.
  apply oblivious_bind; [by apply oblivious_lift|]. intros n. apply oblivious_if.
  - apply oblivious_bind; [apply oblivious_mmu_translate|]. intros pa. eauto with mnos.
  - apply oblivious_bind; [apply oblivious_translate_bytes|]. intros pas.
    apply oblivious_for_each. intros i. cbn zeta. eauto with mnos.
Qed.

(** ** Accesses that cross a page *)

Lemma translate_bytes_spec T ps p a : forall ks m b m' b' r, mmu_wf T ps m b ->
  translate_bytes ps p a ks (m, b) = ((m', b'), r) ->
  touched T b b' /\ mmu_wf T ps m' b' /\
  match r with
  | Ok pas => Forall2 (fun k pa => walk_address ps p (add64 a k) AccessKind.WRITE b = Ok pa) ks pas
  | Throw e => exists k, k ∈ ks /\ walk_address ps p (add64 a k) AccessKind.WRITE b = Throw e
  end.
Proof.
  induction ks as [|k ks IH]; intros m b m' b' r Hwf Ht; simpl in Ht.
  { injection Ht as <- <- <-. split; [apply touched_refl, (twf_bus _ _ _ (mw_tables _ _ _ _ Hwf))|].
    split; [done|]. constructor. }
  munfold. destruct (translate_enabled ps p (add64 a k) AccessKind.WRITE (m, b)) as [[m1 b1] r1] eqn:E1.
  apply (translate_enabled_spec T) in E1 as (Hr1 & Ht1 & Hwf1 & _); [|done|apply add64_range].
  destruct r1 as [pa|e].
  2:{ injection Ht as <- <- <-. split; [done|]. split; [done|]. exists k. split; [by left|done]. }
  destruct (translate_bytes ps p a ks (m1, b1)) as [[m2 b2] r2] eqn:E2.
  apply IH in E2 as (Ht2 & Hwf2 & Hr2); [|done].
  assert (Hw : forall x, walk_address ps p x AccessKind.WRITE b1 = walk_address ps p x AccessKind.WRITE b).
  { intros x. apply (walk_address_touched T); [apply (mw_tables _ _ _ _ Hwf)|done]. }
  assert (Ht12 : touched T b b2) by (by apply (touched_trans T b b1)).
  destruct r2 as [pas|e]; injection Ht as <- <- <-; (split; [done|]); (split; [done|]).
  - constructor; [done|]. eapply Forall2_impl; [exact Hr2|]. intros x y Hxy. by rewrite <- Hw.
  - destruct Hr2 as (k' & Hk' & He). exists k'. split; [by right|]. by rewrite <- Hw.
Qed.

Lemma bus_write_throw b a s v e : bus_ok b -> 0 <= a -> bus_write b a s v = Throw e -> e = out_of_range.
Proof.
  intros Hok Ha Hw. destruct (is_data_size_valid s) eqn:Hs.
  2:{ rewrite bus_write_out in Hw by auto. by injection Hw. }
  destruct (Z_le_dec (a + size_bytes s) (bus_size b)).
  - destruct (bus_write_in b a s v) as (b' & Hw' & _); [done..|]. congruence.
  - rewrite bus_write_out in Hw by (auto; right; lia). by injection Hw.
Qed.

Lemma write_bytes_throw pas v ks : Forall (fun pa => 0 <= pa) pas -> forall m b m' b' e, bus_ok b ->
  for_each ks (fun byte_index =>
      let byte_value := Z.land (Z.shiftr v (byte_index * 8)) 255 in
      let pa := nthZ pas byte_index in
      mmu_record_data_write pa 1 ≫= fun _ =>
      on_memory (bus_write_M pa Size.BYTE byte_value)) (m, b) = ((m', b'), Throw e) ->
  e = out_of_range.
Proof.
  intros Hpas. induction ks as [|k ks IH]; intros m b m' b' e Hok Hf; simpl in Hf; [done|].
  unfold mmu_record_data_write, on_mmu, on_memory, bus_write_M in Hf. munfold. cbn [fst snd] in Hf.
  assert (Hpa : 0 <= nthZ pas k).
  { unfold nthZ. destruct (nth_in_or_default (Z.to_nat k) pas 0) as [Hin| ->]; [|done].
    apply list_elem_of_In in Hin. rewrite Forall_forall in Hpas. by apply Hpas. }
  destruct (bus_write b (nthZ pas k) Size.BYTE _) as [b1|e1] eqn:Hw.
  - apply (IH _ _ _ _ _ (bus_write_ok _ _ _ _ _ Hok Hpa Hw) Hf).
  - injection Hf as <- <- <-. by apply bus_write_throw in Hw.
Qed.

Lemma append_byte v f k j : 0 <= k < 8 -> 0 <= v < 2 ^ (8 * k) -> 0 <= f < 256 -> 0 <= j ->
  0 <= Z.lor v (shl64 f (k * 8)) < 2 ^ (8 * (k + 1)) /\
  byte_of (Z.lor v (shl64 f (k * 8))) j = if decide (j = k) then f else byte_of v j.
Proof.
  intros Hk Hv Hf Hj.
  assert (Hbit : forall i, 0 <= i -> Z.testbit (Z.lor v (shl64 f (k * 8))) i =
    Z.testbit v i || ((i <? 64) && (k * 8 <=? i) && Z.testbit f (i - k * 8))).
  { intros i Hi. unfold shl64. rewrite Z.lor_spec, wrap64_testbit, Z.shiftl_spec by lia.
    destruct (Z.ltb_spec i 64), (Z.leb_spec (k * 8) i); simpl; try done.
    by rewrite (Z.testbit_neg_r f) by lia. }
  split.
  - assert (H0v : 0 <= Z.lor v (shl64 f (k * 8))) by (apply Z.lor_nonneg; split; [lia|apply wrap64_range]).
    split; [done|]. apply testbit_bound; [lia|done|]. intros i Hi. rewrite Hbit by lia.
    rewrite (testbit_range_high v (8 * k)), (testbit_range_high f 8) by lia. by rewrite andb_false_r.
  - apply Z.bits_inj'. intros i Hi. rewrite byte_of_testbit, Hbit by lia.
    case_decide as Hd.
    + subst j. destruct (Z.ltb_spec i 8); simpl.
      * rewrite (testbit_range_high v (8 * k)) by lia. simpl.
        destruct (Z.ltb_spec (k * 8 + i) 64), (Z.leb_spec (k * 8) (k * 8 + i)); try lia. simpl. f_equal. lia.
      * by rewrite (testbit_range_high f 8) by lia.
    + rewrite byte_of_testbit by lia. destruct (Z.ltb_spec i 8); simpl; [|done].
      destruct (Z.leb_spec (k * 8) (j * 8 + i)); [|by rewrite andb_false_r, orb_false_r].
      rewrite (testbit_range_high f 8) by lia. by rewrite andb_false_r, orb_false_r.
Qed.

Lemma walk_address_nonneg ps p a kind b pa : walk_address ps p a kind b = Ok pa -> 0 <= pa.
Proof.
  unfold walk_address. munfold_goal. destruct (translate _ _ _ _ b).2; [|done].
  intros [= <-]. apply add64_range.
Qed.

Definition outside T (x : Z) : Prop := forall ta, is_Some (T !! ta) -> ~ (ta <= x < ta + 4096).

Lemma read_bytes_spec T ps p a (n : nat) : forall k v m b m' b' v', mmu_wf T ps m b ->
  0 <= k -> k + Z.of_nat n <= 8 -> 0 <= v < 2 ^ (8 * k) ->
  read_bytes ps p a (seqZ k (Z.of_nat n)) v (m, b) = ((m', b'), Ok v') ->
  touched T b b' /\ mmu_wf T ps m' b' /\ 0 <= v' < 2 ^ (8 * (k + Z.of_nat n)) /\
  (forall j, 0 <= j < k -> byte_of v' j = byte_of v j) /\
  forall j, k <= j < k + Z.of_nat n -> exists pa,
    walk_address ps p (add64 a j) AccessKind.READ b = Ok pa /\
    (outside T pa -> byte_of v' j = bus_byte b pa).
Proof.
  induction n as [|n IH]; intros k v m b m' b' v' Hwf Hk Hn Hv Hr.
  - simpl in Hr. injection Hr as <- <- <-. split; [apply touched_refl, (twf_bus _ _ _ (mw_tables _ _ _ _ Hwf))|].
    split; [done|]. split; [by rewrite Z.add_0_r|]. split; [done|]. lia.
  - rewrite seqZ_cons in Hr by lia. replace (Z.pred (Z.of_nat (S n))) with (Z.of_nat n) in Hr by lia.
    cbn [read_bytes] in Hr. unfold mmu_record_data_read, on_mmu in Hr. munfold.
    destruct (translate_enabled ps p (add64 a k) AccessKind.READ (m, b)) as [[m1 b1] [pa|e]] eqn:E1; [|done].
    apply (translate_enabled_spec T) in E1 as (Hpa & Ht1 & Hwf1 & _); [|done|apply add64_range].
    destruct (bus_read b1 pa Size.BYTE) as [f|] eqn:Hf; [|done].
    assert (Hpa0 : 0 <= pa) by (symmetry in Hpa; by apply walk_address_nonneg in Hpa).
    apply bus_read_Ok_inv in Hf as (_ & _ & Hfr & Hfb); [|apply (tch_bus _ _ _ Ht1)|done].
    assert (Hfb0 : f = bus_byte b1 pa).
    { rewrite <- (byte_of_small f) by exact Hfr. rewrite Hfb by (simpl; lia). f_equal. lia. }
    destruct (append_byte v f k 0) as [Hrange _]; [lia|lia|exact Hfr|lia|].
    assert (Hbytes : forall j, 0 <= j -> byte_of (Z.lor v (shl64 f (k * 8))) j =
      if decide (j = k) then f else byte_of v j) by (intros j Hj; apply append_byte; exact Hfr || lia).
    replace (Z.succ k) with (k + 1) in Hr by lia.
    apply IH in Hr as (Ht2 & Hwf2 & Hv' & Hlow & Hhigh);
      [|by destruct Hwf1|lia|lia|exact Hrange].
    split; [by apply (touched_trans T b b1)|]. split; [done|].
    split; [by replace (k + Z.of_nat (S n)) with (k + 1 + Z.of_nat n) by lia|]. split.
    + intros j Hj. rewrite Hlow, Hbytes, decide_False by lia. done.
    + intros j Hj. destruct (decide (j = k)) as [->|].
      * exists pa. split; [done|]. intros Ho. rewrite Hlow, Hbytes, decide_True by lia.
        rewrite Hfb0. by apply (tch_other _ _ _ Ht1).
      * destruct (Hhigh j) as (pa' & Hpa' & Hb'); [lia|].
        assert (Hpa'' : walk_address ps p (add64 a j) AccessKind.READ b = Ok pa').
        { rewrite <- Hpa'. symmetry. apply (walk_address_touched T); [apply (mw_tables _ _ _ _ Hwf)|done]. }
        exists pa'. split; [done|]. intros Ho. rewrite (Hb' Ho). apply (tch_other _ _ _ Ht1); [|done].
        by apply walk_address_nonneg in Hpa''.
Qed.

Lemma within_4k_spec a n : u64 a -> 0 <= n <= 8 ->
  is_access_within_4k_page a n = bool_decide (a `mod` 4096 + n <= 4096).
Proof.
  intros Ha Hn. unfold is_access_within_4k_page. change (PAGE_SIZE_4K_BYTES - 1) with (Z.ones 12).
  change PAGE_SIZE_4K_BYTES with 4096. rewrite Z.land_ones by lia. change (2 ^ 12) with 4096.
  pose proof (Z.mod_pos_bound a 4096). rewrite add64_small by lia.
  destruct (Z.leb_spec (a `mod` 4096 + n) 4096); symmetry;
    [apply bool_decide_true|apply bool_decide_false]; lia.
Qed.

(** Inside one 4 KiB page physical addresses advance with linear ones. *)
Lemma walk_address_in_page T ps p a kind b pa j : tables_wf T (cr3 ps) b -> u64 a -> 0 <= j ->
  a `mod` 4096 + j < 4096 -> walk_address ps p a kind b = Ok pa ->
  walk_address ps p (a + j) kind b = Ok (add64 pa j).
Proof.
  intros Hwf Ha Hj Hin Hw. rewrite (walk_address_spec T) in Hw |- * by done.
  destruct (is_canonical_linear_address a) eqn:Hc; simpl in Hw; [|done].
  destruct (resolve b Level.PML4 (cr3 ps) a) as [[[[l ta] i] e]|] eqn:Hres; [|done].
  destruct (resolve_inv b (cr3 ps) a Level.PML4) with (ta0 := cr3 ps) (l := l) (ta := ta)
    (i := i) (e := e) as (Hl & _ & _ & _ & _ & Hle); [done|constructor|done|].
  destruct (leaf_level e l Hl Hle) as [Hl' _].
  destruct (validate_reserved_bits ps e l a kind p) as [[]|] eqn:Hv; [|done].
  destruct (enforce_permissions _ _ _ _ _) as [[]|] eqn:Hen; [|done]. munfold. injection Hw as <-.
  pose proof (level_shift_bounds l) as Hs. set (n := 2 ^ level_shift l) in *.
  assert (Hn : n = 4096 * 2 ^ (level_shift l - 12)).
  { unfold n. change 4096 with (2 ^ 12). rewrite <- Z.pow_add_r by lia. f_equal. lia. }
  assert (Hq : 0 < 2 ^ (level_shift l - 12)) by (apply Z.pow_pos_nonneg; lia).
  assert (Hdec : a `mod` n = a `mod` 4096 + 4096 * ((a / 4096) `mod` 2 ^ (level_shift l - 12)))
    by (rewrite Hn; apply Z.rem_mul_r; lia).
  pose proof (Z.mod_pos_bound (a / 4096) _ Hq) as Hb.
  assert (Hmn : a `mod` n + j < n) by (rewrite Hdec, Hn; lia).
  pose proof (Z.mod_pos_bound a 4096). assert (0 <= a `mod` n) by (apply Z.mod_pos_bound; lia).
  assert (Hpb : page_base a n = a - a `mod` n).
  { unfold n. rewrite <- Z.shiftl_1_l. rewrite page_base_spec by (lia || done). by rewrite Z.shiftl_1_l. }
  assert (Haj : u64 (a + j)).
  { destruct Ha. split; [lia|]. pose proof (Z.div_mod a 4096).
    assert (a / 4096 < 4503599627370496) by (apply Z.div_lt_upper_bound; lia). lia. }
  pose proof (Z.mod_le a n). destruct Ha as [Ha0 Ha1].
  destruct (page_of_contained l a (a + j)) as (Hc' & Hk & Hb'); [done..|fold n; lia|fold n; lia|].
  fold n in Hb'. rewrite Hc'. simpl. rewrite (resolve_same_key b (cr3 ps) a (a + j) l ta i e Hres Hk).
  rewrite (validate_any ps e l a kind p (a + j) kind p Hv). munfold_goal.
  assert (Hen' : enforce_permissions ps (apply_entry all_permissions e) (a + j) kind p = Ok tt).
  { unfold enforce_permissions in *. by repeat (destruct (_ && _); [done|]). }
  destruct Haj as [Haj0 Haj1]. rewrite Hen'. fold n. rewrite Hb', Hpb, !sub64_small by lia. f_equal.
  unfold add64, wrap64. rewrite Z.add_mod_idemp_l by lia. f_equal. lia.
Qed.

(** The range check visits the first byte of every page of the range; a page that translates
    does so for all its bytes. *)
Lemma check_pages_spec T ps p kind : forall fuel a n m b m' b' r, mmu_wf T ps m b -> u64 a ->
  u64 n -> a + n <= W64 -> n < Z.of_nat fuel ->
  check_pages fuel ps p a n kind (m, b) = ((m', b'), r) ->
  touched T b b' /\ mmu_wf T ps m' b' /\
  match r with
  | Ok _ => forall x, a <= x < a + n -> exists pa, walk_address ps p x kind b = Ok pa
  | Throw e => exists x, a <= x < a + n /\ walk_address ps p x kind b = Throw e
  end.
Proof.
  induction fuel as [|fuel IH]; intros a n m b m' b' r Hwf Ha [Hn Hn64] Han Hfuel; [lia|]. simpl.
  pose proof (mw_tables _ _ _ _ Hwf) as Htw. pose proof (twf_bus _ _ _ Htw) as Hok.
  destruct (Z.ltb_spec 0 n) as [Hpos|Hzero].
  2:{ intros [= <- <- <-]. split; [by apply touched_refl|]. split; [done|]. lia. }
  munfold_goal. destruct (translate_enabled ps p a kind (m, b)) as [[m1 b1] [pa|e]] eqn:E1;
    apply (translate_enabled_spec T) in E1 as (Hpa & Ht1 & Hwf1 & _); try done.
  2:{ intros [= <- <- <-]. split; [done|]. split; [done|]. exists a. split; [lia|done]. }
  change PAGE_SIZE_4K_BYTES with 4096. change (4096 - 1) with (Z.ones 12).
  rewrite Z.land_ones by lia. change (2 ^ 12) with 4096.
  pose proof (Z.mod_pos_bound a 4096). destruct Ha as [Ha0 Ha1].
  rewrite (sub64_small 4096) by lia. set (step := Z.min n (4096 - a `mod` 4096)).
  assert (Hstep : 1 <= step <= n /\ step <= 4096 - a `mod` 4096) by lia.
  rewrite (sub64_small n) by lia.
  assert (Hpage : forall x, a <= x < a + step -> exists px, walk_address ps p x kind b = Ok px).
  { intros x Hx. replace x with (a + (x - a)) by lia. exists (add64 pa (x - a)).
    apply (walk_address_in_page T); [done|done|lia|lia|done]. }
  assert (Hsame : forall x, walk_address ps p x kind b1 = walk_address ps p x kind b)
    by (intros x; by apply (walk_address_touched T)).
  intros Hc. destruct (decide (step = n)) as [->|].
  - rewrite Z.sub_diag in Hc. assert (Hdone : check_pages fuel ps p (add64 a n) 0 kind (m1, b1) =
      ((m1, b1), Ok tt)) by (by destruct fuel). rewrite Hdone in Hc. injection Hc as <- <- <-.
    split; [done|]. by split.
  - rewrite add64_small in Hc by lia.
    apply IH in Hc as (Ht2 & Hwf2 & Hr); [|done|split; lia|split; lia|lia|lia].
    split; [by apply (touched_trans T b b1)|]. split; [done|]. destruct r as [[]|e].
    + intros x Hx. destruct (Z_lt_dec x (a + step)); [apply Hpage; lia|]. rewrite <- Hsame. apply Hr. lia.
    + destruct Hr as (x & Hx & He). exists x. split; [lia|]. by rewrite <- Hsame.
Qed.

(** A load, of any width and outcome, changes nothing but accessed and dirty bits. *)
Lemma read_bytes_touched T ps p a ks : forall v m b m' b' r, mmu_wf T ps m b ->
  read_bytes ps p a ks v (m, b) = ((m', b'), r) -> touched T b b' /\ mmu_wf T ps m' b'.
Proof.
  induction ks as [|k ks IH]; intros v m b m' b' r Hwf Hr; pose proof (twf_bus _ _ _ (mw_tables _ _ _ _ Hwf)) as Hok.
  { injection Hr as <- <- <-. split; [by apply touched_refl|done]. }
  cbn [read_bytes] in Hr. unfold mmu_record_data_read, on_mmu in Hr. munfold.
  destruct (translate_enabled ps p (add64 a k) AccessKind.READ (m, b)) as [[m1 b1] [pa|e]] eqn:E1;
    apply (translate_enabled_spec T) in E1 as (_ & Ht1 & Hwf1 & _); try done; try apply add64_range.
  2:{ by injection Hr as <- <- <-. }
  assert (Hwf1' : mmu_wf T ps (on_model (record_data_read pa 1) m1) b1) by (by destruct Hwf1).
  destruct (bus_read b1 pa Size.BYTE) as [f|]; [|by injection Hr as <- <- <-].
  apply IH in Hr as [Ht2 Hwf2]; [|done]. split; [by apply (touched_trans T b b1)|done].
Qed.
Lemma mmu_read_touched T ps p a s m b m' b' r : mmu_wf T ps m b -> u64 a -> paging_enabled ps = true ->
  mmu_read ps p a s (m, b) = ((m', b'), r) -> touched T b b' /\ mmu_wf T ps m' b'.
Proof.
  intros Hwf Ha Hpg. pose proof (twf_bus _ _ _ (mw_tables _ _ _ _ Hwf)) as Hok.
  unfold mmu_read, mmu_translate, mmu_record_data_read, on_mmu. rewrite Hpg. cbn [negb orb]. munfold_goal.
  destruct (data_size_to_bytes s) as [n|e].
  2:{ intros [= <- <- <-]. split; [by apply touched_refl|done]. }
  destruct (is_access_within_4k_page a n); [|by apply read_bytes_touched].
  destruct (translate_enabled ps p a AccessKind.READ (m, b)) as [[m1 b1] [pa|e]] eqn:E1;
    apply (translate_enabled_spec T) in E1 as (_ & Ht1 & Hwf1 & _); try done.
  - intros [= <- <- <-]. split; [done|]. by destruct Hwf1.
  - by intros [= <- <- <-].
Qed.
Lemma check_pages_touched T ps p kind : forall fuel a n m b m' b' r, mmu_wf T ps m b -> u64 a ->
  check_pages fuel ps p a n kind (m, b) = ((m', b'), r) -> touched T b b' /\ mmu_wf T ps m' b'.
Proof.
  induction fuel as [|fuel IH]; intros a n m b m' b' r Hwf Ha;
    pose proof (twf_bus _ _ _ (mw_tables _ _ _ _ Hwf)) as Hok; cbn [check_pages]; munfold_goal.
  { intros [= <- <- <-]. split; [by apply touched_refl|done]. }
  destruct (0 <? n). 2:{ intros [= <- <- <-]. split; [by apply touched_refl|done]. }
  destruct (translate_enabled ps p a kind (m, b)) as [[m1 b1] [pa|e]] eqn:E1;
    apply (translate_enabled_spec T) in E1 as (_ & Ht1 & Hwf1 & _); try done.
  - intros Hc. apply IH in Hc as [Ht2 Hwf2]; [|done|apply add64_range]. split; [by apply (touched_trans T b b1)|done].
  - by intros [= <- <- <-].
Qed.

Lemma mmu_write_fault_spec T ps p m b a s v m' b' f : mmu_wf T ps m b -> u64 a ->
  mmu_write ps p a s v (m, b) = ((m', b'), Throw (page_fault f)) ->
  mmu_wf T ps m' b' /\ touched T b b' /\
  exists j, 0 <= j < size_bytes s /\
    walk_address ps p (add64 a j) AccessKind.WRITE b = Throw (page_fault f).
Proof.
  intros Hwf Ha. unfold mmu_write, mmu_translate, on_memory, bus_write_M, mmu_record_data_write, on_mmu.
  munfold_goal. pose proof (twf_bus _ _ _ (mw_tables _ _ _ _ Hwf)) as Hok.
  destruct (is_data_size_valid s) eqn:Hs; [|by destruct s]. rewrite data_size_to_bytes_valid by done.
  pose proof (size_bytes_range s) as Hsr.
  destruct (paging_enabled ps) eqn:Hpg; cbn [negb orb].
  2:{ cbn [fst snd]. destruct (bus_write b a s v) as [b1|e] eqn:Hw; [done|].
      apply bus_write_throw in Hw as ->; [done|done|apply Ha]. }
  destruct (is_access_within_4k_page a (size_bytes s)).
  - destruct (translate_enabled ps p a AccessKind.WRITE (m, b)) as [[m1 b1] [pa|e]] eqn:E1.
    + apply (translate_enabled_spec T) in E1 as (Hpa & Ht1 & Hwf1 & _); [|done..]. cbn [fst snd].
      assert (Hpa0 : 0 <= pa) by (symmetry in Hpa; by apply walk_address_nonneg in Hpa).
      destruct (bus_write b1 pa s v) as [b2|e] eqn:Hw; [done|].
      apply bus_write_throw in Hw as ->; [done|apply (tch_bus _ _ _ Ht1)|done].
    + apply (translate_enabled_spec T) in E1 as (Hpa & Ht1 & Hwf1 & _); [|done..].
      intros [=]; subst. split; [done|]. split; [done|]. exists 0. split; [by destruct s|].
      destruct Ha. by rewrite add64_small, Z.add_0_r by lia.
  - destruct (translate_bytes ps p a (seqZ 0 (size_bytes s)) (m, b)) as [[m1 b1] [pas|e]] eqn:E1.
    + apply (translate_bytes_spec T) in E1 as (Ht1 & Hwf1 & Hpas); [|done]. intros Hf. exfalso.
      assert (Hnn : Forall (fun pa => 0 <= pa) pas).
      { clear Hf. induction Hpas; constructor; [by eapply walk_address_nonneg|done]. }
      apply (write_bytes_throw pas v) in Hf; [done|done|apply (tch_bus _ _ _ Ht1)].
    + apply (translate_bytes_spec T) in E1 as (Ht1 & Hwf1 & k & Hk & He); [|done].
      intros [=]; subst. split; [done|]. split; [done|]. exists k. split; [|done].
      apply elem_of_seqZ in Hk. lia.
Qed.

(** ** Properties *)

(** C8. The lookaside buffer is transparent: while it agrees with the page tables, a translation
    through it has exactly the outcome of a walk of the tables as they are now, address or page
    fault; a successful write leaves the page's leaf entry dirty; nothing but accessed and dirty
    bits changes in memory, and the buffer still agrees with the tables afterwards. *)
Theorem mmu_tlb_is_transparent T ps p a kind m b m' b' r : mmu_wf T ps m b -> u64 a ->
  translate_enabled ps p a kind (m, b) = ((m', b'), r) ->
  r = walk_address ps p a kind b /\ touched T b b' /\ mmu_wf T ps m' b' /\
  (is_Ok r = true -> kind = AccessKind.WRITE ->
   exists l ta i e, resolve b' Level.PML4 (cr3 ps) a = Some (l, ta, i, e) /\ is_dirty e = true).
Proof. apply translate_enabled_spec. Qed.

(** With paging on, a load returns the bytes at the physical addresses the walker gives for
    each of its linear addresses, whether or not it crosses a page. *)
Theorem mmu_read_is_bytewise T ps p m b a s m' b' v : mmu_wf T ps m b -> u64 a ->
  paging_enabled ps = true -> mmu_read ps p a s (m, b) = ((m', b'), Ok v) ->
  mmu_wf T ps m' b' /\ touched T b b' /\ 0 <= v < 2 ^ (8 * size_bytes s) /\
  forall j, 0 <= j < size_bytes s -> exists pa,
    walk_address ps p (add64 a j) AccessKind.READ b = Ok pa /\
    (outside T pa -> byte_of v j = bus_byte b pa).
Proof.
  intros Hwf Ha Hpg. unfold mmu_read, mmu_translate. rewrite Hpg. cbn [negb orb]. munfold_goal.
  destruct (is_data_size_valid s) eqn:Hs; [|by destruct s]. rewrite data_size_to_bytes_valid by done.
  pose proof (size_bytes_range s) as Hsr. rewrite within_4k_spec by (done || lia). case_bool_decide as Hin.
  - destruct (translate_enabled ps p a AccessKind.READ (m, b)) as [[m1 b1] [pa|]] eqn:E1; [|done].
    apply (translate_enabled_spec T) in E1 as (Hpa & Ht1 & Hwf1 & _); [|done..].
    unfold mmu_record_data_read, on_mmu. munfold_goal. cbn [fst snd].
    destruct (bus_read b1 pa s) as [v1|] eqn:Hbr; [|done]. intros [= <- <- <-].
    assert (Hpa0 : 0 <= pa) by (symmetry in Hpa; by apply walk_address_nonneg in Hpa).
    apply bus_read_Ok_inv in Hbr as (_ & Hle & Hr & Hb); [|apply (tch_bus _ _ _ Ht1)|done].
    split; [by destruct Hwf1|]. split; [done|]. split; [done|]. intros j Hj. exists (pa + j).
    pose proof (bus_size_range b1 (tch_bus _ _ _ Ht1)). destruct Ha as [Ha0 Ha1].
    assert (Haj : a + j < W64).
    { pose proof (Z.div_mod a 4096). pose proof (Z.mod_pos_bound a 4096).
      assert (a / 4096 < 4503599627370496) by (apply Z.div_lt_upper_bound; lia). lia. }
    split.
    + rewrite add64_small by lia.
      rewrite (walk_address_in_page T ps p a AccessKind.READ b pa j);
        [by rewrite add64_small by lia|apply (mw_tables _ _ _ _ Hwf)|done|lia|lia|done].
    + intros Ho. rewrite Hb by done. apply (tch_other _ _ _ Ht1); [lia|done].
  - intros Hr. replace (size_bytes s) with (Z.of_nat (Z.to_nat (size_bytes s))) in Hr by lia.
    apply (read_bytes_spec T) in Hr as (Ht & Hwf' & Hv & _ & Hbytes); [|done|lia|lia|simpl; lia].
    rewrite Z2Nat.id, Z.add_0_l in * by lia. split; [done|]. split; [done|]. split; [done|].
    intros j Hj. by apply Hbytes.
Qed.

(** C21. A store that raises a page fault writes no byte of data, even when it crosses into a
    faulting page: only accessed and dirty bits of page-table entries change, so the
    instruction can be restarted after the fault is handled. *)
Theorem mmu_write_fault_is_atomic T ps p m b a s v m' b' f : mmu_wf T ps m b -> u64 a ->
  mmu_write ps p a s v (m, b) = ((m', b'), Throw (page_fault f)) ->
  mmu_wf T ps m' b' /\ touched T b b' /\
  exists j, 0 <= j < size_bytes s /\
    walk_address ps p (add64 a j) AccessKind.WRITE b = Throw (page_fault f).
Proof. apply mmu_write_fault_spec. Qed.

(** The optional performance model is only an observer: with or without it, and whatever it has
    recorded, every access has the same result and the same effect on the lookaside buffer and on
    memory. *)
Theorem mmu_performance_model_is_invisible ps p a s v n kind m b :
  let detached := detach_performance_model m in
  mmu_translate ps p a kind (detached, b) =
    (let '(st, r) := mmu_translate ps p a kind (m, b) in (erase st, r)) /\
  mmu_read ps p a s (detached, b) = (let '(st, r) := mmu_read ps p a s (m, b) in (erase st, r)) /\
  mmu_write ps p a s v (detached, b) =
    (let '(st, r) := mmu_write ps p a s v (m, b) in (erase st, r)) /\
  check_access_range ps p a n kind (detached, b) =
    (let '(st, r) := check_access_range ps p a n kind (m, b) in (erase st, r)).
Proof.
  assert (Hob : forall A (c : M _ A), oblivious c ->
    c (detach_performance_model m, b) = (let '(st, r) := c (m, b) in (erase st, r))).
  { intros A c Hc. specialize (Hc (m, b)). unfold erase at 1 in Hc. cbn [fst snd] in Hc. rewrite Hc. by destruct (c (m, b)). }
  cbn zeta. repeat split; apply Hob.
  - apply oblivious_mmu_translate.
  - apply oblivious_mmu_read.
  - apply oblivious_mmu_write.
  - apply oblivious_if; [apply oblivious_ret|apply oblivious_check_pages].
Qed.

(** The range check of a system call answers for every byte of the range: it succeeds only
    when each address of the range translates for that access, and it fails only with the page
    fault of some address of the range. *)
Theorem check_access_range_covers_every_byte T ps p a n kind m b m' b' r : mmu_wf T ps m b -> u64 a ->
  u64 n -> a + n <= W64 -> paging_enabled ps = true ->
  check_access_range ps p a n kind (m, b) = ((m', b'), r) ->
  touched T b b' /\ mmu_wf T ps m' b' /\
  match r with
  | Ok _ => forall x, a <= x < a + n -> exists pa, walk_address ps p x kind b = Ok pa
  | Throw e => exists x, a <= x < a + n /\ walk_address ps p x kind b = Throw e
  end.
Proof.
  intros Hwf Ha Hn Han Hpg. unfold check_access_range. rewrite Hpg. cbn [negb orb].
  destruct (Z.eqb_spec n 0) as [->|]; [|apply check_pages_spec; try done; destruct Hn; lia].
  intros [= <- <- <-]. split; [apply touched_refl, (twf_bus _ _ _ (mw_tables _ _ _ _ Hwf))|].
  split; [done|]. lia.
Qed.
End consistency.

(** ** Concrete instances *)

(** One user page at 0x5000, mapped by the builder, with the next page missing. *)
Definition demo_mapping : (PageTableBuilder * PhysicalMemory) * res unit :=
  map_4k 0x5000 0x3000 user_read_write_execute (demo_builder, demo_memory).
Abbreviation demo_mapped_memory := (demo_mapping.1.2).

Lemma demo_mapping_ok : demo_mapping.2 = Ok tt.
Proof. vm_compute. reflexivity. Qed.

Lemma make_tlb_consistent ps (b : PhysicalMemory) : tlb_consistent ps b make_tlb.
Proof.
  split; [apply make_tlb_wf|]. intros a tr _ Hl. exfalso. apply lookup_Some in Hl as [He _].
  pose proof (entry_at_lookup make_tlb a make_tlb_wf) as Hat. rewrite He in Hat.
  by apply lookup_replicate in Hat as [? _].
Qed.

Lemma mapping_wf run : run = map_4k 0x5000 0x3000 user_read_write_execute (demo_builder, demo_memory) ->
  run.2 = Ok tt -> exists T, mmu_wf T demo_paging make_mmu run.1.2.
Proof.
  intros Hrun Hok. destruct run as [[t b] r]. simpl in Hok. subst r. symmetry in Hrun.
  apply (map_4k_spec demo_tables) in Hrun as (T & e & ta & Hm & _);
    [|apply demo_tables_wf|apply demo_arena_wf|apply demo_size|split; lia|lia].
  exists T. split; [|apply make_tlb_consistent]. apply (mp_tables _ _ _ _ _ _ _ _ _ _ Hm).
Qed.
Lemma demo_mmu_wf : exists T, mmu_wf T demo_paging make_mmu demo_mapped_memory.
Proof. apply mapping_wf; [reflexivity|exact demo_mapping_ok]. Qed.

Lemma mmu_tlb_is_transparent_witness :
  let run := translate_enabled demo_paging Ring.RING3 0x5123 AccessKind.WRITE
    (make_mmu, demo_mapped_memory) in
  run.2 = Ok 0x3123 /\
  walk_address demo_paging Ring.RING3 0x5123 AccessKind.WRITE demo_mapped_memory = Ok 0x3123 /\
  exists T, mmu_wf T demo_paging run.1.1 run.1.2.
Proof.
  intros run. assert (Hr : run.2 = Ok 0x3123) by (vm_compute; reflexivity).
  destruct demo_mmu_wf as [T Hwf].
  destruct (mmu_tlb_is_transparent T demo_paging Ring.RING3 0x5123 AccessKind.WRITE make_mmu
    demo_mapped_memory run.1.1 run.1.2 (Ok 0x3123) Hwf ltac:(split; lia)) as (Hw & _ & Hwf' & _).
  { exact (run_result run _ Hr). }
  split; [exact Hr|]. split; [exact (eq_sym Hw)|]. exists T. exact Hwf'.
Defined.

Lemma mmu_read_is_bytewise_witness :
  let run := mmu_read demo_paging Ring.RING3 0x5000 Size.WORD (make_mmu, demo_mapped_memory) in
  exists v T, run.2 = Ok v /\ 0 <= v < 2 ^ 16 /\ mmu_wf T demo_paging run.1.1 run.1.2.
Proof.
  intros run. destruct demo_mmu_wf as [T Hwf].
  assert (Hr : exists v, run.2 = Ok v) by (eexists; vm_compute; reflexivity).
  destruct Hr as [v Hr]. exists v, T.
  destruct (mmu_read_is_bytewise T demo_paging Ring.RING3 make_mmu demo_mapped_memory 0x5000 Size.WORD
    run.1.1 run.1.2 v Hwf ltac:(split; lia) eq_refl (run_result run _ Hr)) as (Hwf' & _ & Hv & _).
  split; [exact Hr|]. split; [exact Hv|exact Hwf'].
Defined.

(** The first two bytes lie in the mapped page, the fault is that of the third. *)
Lemma mmu_write_fault_is_atomic_witness :
  let f := make_page_fault 0x6000 AccessKind.WRITE Ring.RING3 FaultReason.NOT_PRESENT in
  let run := mmu_write demo_paging Ring.RING3 0x5FFE Size.DWORD 0x11223344
    (make_mmu, demo_mapped_memory) in
  run.2 = Throw f /\ exists T, touched T demo_mapped_memory run.1.2.
Proof.
  intros f run. destruct demo_mmu_wf as [T Hwf].
  assert (Hr : run.2 = Throw f) by (vm_compute; reflexivity).
  edestruct (mmu_write_fault_is_atomic T demo_paging Ring.RING3 make_mmu demo_mapped_memory 0x5FFE
    Size.DWORD 0x11223344 run.1.1 run.1.2) as (_ & Ht & _);
    [exact Hwf|split; lia|exact (run_result run _ Hr)|].
  split; [exact Hr|]. exists T. exact Ht.
Defined.

Lemma check_access_range_covers_every_byte_witness :
  let run := check_access_range demo_paging Ring.RING3 0x5800 0x800 AccessKind.READ
    (make_mmu, demo_mapped_memory) in
  run.2 = Ok tt /\
  exists pa, walk_address demo_paging Ring.RING3 0x5FFF AccessKind.READ demo_mapped_memory = Ok pa.
Proof.
  intros run. destruct demo_mmu_wf as [T Hwf].
  assert (Hr : run.2 = Ok tt) by (vm_compute; reflexivity).
  edestruct (check_access_range_covers_every_byte T demo_paging Ring.RING3 0x5800 0x800 AccessKind.READ
    make_mmu demo_mapped_memory run.1.1 run.1.2 (Ok tt)) as (_ & _ & Hx);
    [exact Hwf|split; lia|split; lia|lia|reflexivity|exact (run_result run _ Hr)|].
  split; [exact Hr|]. apply (Hx 0x5FFF). lia.
Defined.
