(* ===== verification/Page.v ===== *)
(** * Pages and the address layout of the operating system

    Models src/os/mm/page.cpp and src/os/mm/address_layout.cpp: page rounding with its overflow
    checks, page numbers and the user and kernel halves of the address space.  Physical and virtual
    addresses are the 64-bit values they wrap. *)

From S2P Require Import Prelude Common PhysicalMemory MemoryBus Paging.

(** ** Pages *)

(* [include/mnos/os/mm/page.hpp] [MM_PAGE_OFFSET_BITS] [11-11] *)
Definition MM_PAGE_OFFSET_BITS : Z := 12.
(* [include/mnos/os/mm/page.hpp] [MM_PAGE_SIZE_BYTES] [12-12] *)
Definition MM_PAGE_SIZE_BYTES : Z := Z.shiftl 1 MM_PAGE_OFFSET_BITS.
(* [include/mnos/os/mm/page.hpp] [MM_PAGE_OFFSET_MASK] [13-13] *)
Definition MM_PAGE_OFFSET_MASK : Z := MM_PAGE_SIZE_BYTES - 1.
(* [include/mnos/os/mm/page.hpp] [MM_PAGE_FRAME_MASK] [14-14] *)
Definition MM_PAGE_FRAME_MASK : Z := not64 MM_PAGE_OFFSET_MASK.

(* [src/os/mm/page.cpp] [would_overflow_page_rounding] *)
Definition would_overflow_page_rounding (value : Z) : bool := (W64 - 1) - MM_PAGE_OFFSET_MASK <? value.
(* [src/os/mm/page.cpp] [is_page_aligned] [19-32] *)
Definition is_page_aligned (value : Z) : bool := Z.land value MM_PAGE_OFFSET_MASK =? 0.
(* [src/os/mm/page.cpp] [align_down_value] *)
Definition align_down (value : Z) : Z := Z.land value MM_PAGE_FRAME_MASK.
(* [src/os/mm/page.cpp] [align_up_value] *)
Definition align_up (value : Z) : res Z :=
  if is_page_aligned value then Ok value
  else if would_overflow_page_rounding value then Throw overflow_error
  else Ok (align_down (add64 value MM_PAGE_OFFSET_MASK)).
(* [src/os/mm/page.cpp] [page_number] *)
Definition page_number (value : Z) : Z := Z.shiftr value MM_PAGE_OFFSET_BITS.
(* [src/os/mm/page.cpp] [offset_in_page] *)
Definition offset_in_page (value : Z) : Z := Z.land value MM_PAGE_OFFSET_MASK.
(* [src/os/mm/page.cpp] [page_count_for_bytes] *)
Definition page_count_for_bytes (byte_count : Z) : res Z :=
  if byte_count =? 0 then Ok 0
  else if would_overflow_page_rounding byte_count then Throw overflow_error
  else Ok (page_number (add64 byte_count MM_PAGE_OFFSET_MASK)).

(** ** Address layout *)

(* [include/mnos/os/mm/address_layout.hpp] [ADDRESS_LAYOUT_USER_LOW_BASE] [8-8] *)
Definition ADDRESS_LAYOUT_USER_LOW_BASE : Z := 0x1000.
(* [include/mnos/os/mm/address_layout.hpp] [ADDRESS_LAYOUT_USER_TEXT_BASE] [9-9] *)
Definition ADDRESS_LAYOUT_USER_TEXT_BASE : Z := 0x400000.
(* [include/mnos/os/mm/address_layout.hpp] [ADDRESS_LAYOUT_USER_HEAP_BASE] [10-10] *)
Definition ADDRESS_LAYOUT_USER_HEAP_BASE : Z := 0x40000000.
(* [include/mnos/os/mm/address_layout.hpp] [ADDRESS_LAYOUT_USER_STACK_TOP] [11-11] *)
Definition ADDRESS_LAYOUT_USER_STACK_TOP : Z := 0x700000000000.
(* [include/mnos/os/mm/address_layout.hpp] [ADDRESS_LAYOUT_USER_STACK_DEFAULT_SIZE_BYTES] [12-12] *)
Definition ADDRESS_LAYOUT_USER_STACK_DEFAULT_SIZE_BYTES : Z := MM_PAGE_SIZE_BYTES * 16.
(* [include/mnos/os/mm/address_layout.hpp] [ADDRESS_LAYOUT_KERNEL_HIGH_BASE] [13-13] *)
Definition ADDRESS_LAYOUT_KERNEL_HIGH_BASE : Z := 0xFFFF800000000000.

(** The output parameter of the C++ is the payload of the option. *)
(* [src/os/mm/address_layout.cpp] [range_end_is_valid] *)
Definition range_end_is_valid (start_address byte_count : Z) : option Z :=
  if byte_count =? 0 then None
  else if (W64 - 1) - (byte_count - 1) <? start_address then None
  else Some (sub64 (add64 start_address byte_count) 1).
(* [src/os/mm/address_layout.cpp] [is_user_address] *)
Definition is_user_address (address : Z) : bool :=
  (ADDRESS_LAYOUT_USER_LOW_BASE <=? address) && (address <? ADDRESS_LAYOUT_USER_STACK_TOP) &&
  is_canonical_linear_address address.
(* [src/os/mm/address_layout.cpp] [is_user_range] *)
Definition is_user_range (start_address byte_count : Z) : bool :=
  match range_end_is_valid start_address byte_count with
  | Some last_address => is_user_address start_address && is_user_address last_address
  | None => false
  end.
(* [src/os/mm/address_layout.cpp] [is_kernel_address] *)
Definition is_kernel_address (address : Z) : bool :=
  (ADDRESS_LAYOUT_KERNEL_HIGH_BASE <=? address) && is_canonical_linear_address address.
(* [src/os/mm/address_layout.cpp] [is_kernel_range] *)
Definition is_kernel_range (start_address byte_count : Z) : bool :=
  match range_end_is_valid start_address byte_count with
  | Some last_address => is_kernel_address start_address && is_kernel_address last_address
  | None => false
  end.
(* [src/os/mm/address_layout.cpp] [user_stack_bottom] *)
Definition user_stack_bottom (stack_size_bytes : Z) : res Z :=
  if stack_size_bytes =? 0 then Throw invalid_argument
  else if negb (is_page_aligned stack_size_bytes) ||
          (sub64 ADDRESS_LAYOUT_USER_STACK_TOP ADDRESS_LAYOUT_USER_LOW_BASE <? stack_size_bytes)
  then Throw out_of_range
  else Ok (sub64 ADDRESS_LAYOUT_USER_STACK_TOP stack_size_bytes).

(** ** Arithmetic reading *)

Lemma page_size_bytes : MM_PAGE_SIZE_BYTES = 4096.
Proof. reflexivity. Qed.
Lemma offset_in_page_spec v : offset_in_page v = v `mod` 4096.
Proof. unfold offset_in_page. change MM_PAGE_OFFSET_MASK with (Z.ones 12). by rewrite Z.land_ones. Qed.
Lemma is_page_aligned_spec v : is_page_aligned v = bool_decide (v `mod` 4096 = 0).
Proof.
  unfold is_page_aligned. fold (offset_in_page v). rewrite offset_in_page_spec.
  destruct (Z.eqb_spec (v `mod` 4096) 0); [by rewrite bool_decide_true|by rewrite bool_decide_false].
Qed.
Lemma page_number_spec v : page_number v = v / 4096.
Proof. unfold page_number. by rewrite Z.shiftr_div_pow2. Qed.
Lemma align_down_spec v : u64 v -> align_down v = v / 4096 * 4096.
Proof.
  intros Hv. assert (Hd : align_down v = v - v `mod` 4096).
  { pose proof (page_base_spec v 12) as Hp. unfold page_base in Hp. apply Hp; done || lia. }
  rewrite Hd. pose proof (Z.div_mod v 4096). lia.
Qed.
Lemma would_overflow_spec v : would_overflow_page_rounding v = bool_decide (W64 - 4096 < v).
Proof.
  unfold would_overflow_page_rounding. change (W64 - 1 - MM_PAGE_OFFSET_MASK) with (W64 - 4096).
  destruct (Z.ltb_spec (W64 - 4096) v); [by rewrite bool_decide_true|rewrite bool_decide_false by lia; done].
Qed.
Lemma range_end_spec a n : u64 a -> u64 n ->
  range_end_is_valid a n = if bool_decide (0 < n /\ a + n <= W64) then Some (a + n - 1) else None.
Proof.
  intros [] []. unfold range_end_is_valid. case_bool_decide as Hb.
  - destruct (Z.eqb_spec n 0); [lia|]. destruct (Z.ltb_spec (W64 - 1 - (n - 1)) a); [lia|]. f_equal.
    unfold sub64, add64, wrap64. rewrite Zminus_mod_idemp_l. apply Z.mod_small. lia.
  - destruct (Z.eqb_spec n 0); [done|]. by destruct (Z.ltb_spec (W64 - 1 - (n - 1)) a); [|lia].
Qed.
Lemma is_user_address_spec a : u64 a ->
  is_user_address a = bool_decide (0x1000 <= a < 0x700000000000).
Proof.
  intros [Ha Ha']. unfold is_user_address. rewrite is_canonical_spec by done.
  unfold ADDRESS_LAYOUT_USER_LOW_BASE, ADDRESS_LAYOUT_USER_STACK_TOP.
  apply eq_true_iff_eq. rewrite !andb_true_iff, !bool_decide_eq_true, Z.leb_le, Z.ltb_lt. lia.
Qed.
Lemma is_kernel_address_spec a : u64 a ->
  is_kernel_address a = bool_decide (0xFFFF800000000000 <= a).
Proof.
  intros [Ha Ha']. unfold is_kernel_address. rewrite is_canonical_spec by done.
  unfold ADDRESS_LAYOUT_KERNEL_HIGH_BASE.
  apply eq_true_iff_eq. rewrite !andb_true_iff, !bool_decide_eq_true, Z.leb_le. lia.
Qed.

(** ** Properties *)

(** Page rounding is exact at every 64-bit value: rounding up gives the least page boundary at or
    above the value, rounding a byte count gives the least number of pages that hold it, and an
    overflow error is raised only when the boundary is not representable. *)
Theorem page_rounding_exact v : u64 v ->
  match align_up v with
  | Ok w => u64 w /\ w `mod` 4096 = 0 /\ v <= w < v + 4096
  | Throw e => e = overflow_error /\ v `mod` 4096 <> 0 /\ W64 <= (v / 4096 + 1) * 4096
  end /\
  match page_count_for_bytes v with
  | Ok n => v <= n * 4096 < v + 4096
  | Throw e => e = overflow_error /\ W64 - 4096 < v
  end.
Proof.
  intros [Hv Hv']. unfold align_up, page_count_for_bytes.
  rewrite is_page_aligned_spec, would_overflow_spec, page_number_spec.
  change MM_PAGE_OFFSET_MASK with 4095. pose proof (Z.div_mod v 4096). pose proof (Z.mod_pos_bound v 4096).
  split.
  - case_bool_decide; [split; [split|]; lia|]. case_bool_decide.
    + split; [done|]. split; [done|]. assert (4503599627370495 <= v / 4096); [|lia]. apply Z.div_le_lower_bound; lia.
    + rewrite align_down_spec by apply add64_range. rewrite add64_small by lia.
      pose proof (Z.div_mod (v + 4095) 4096). pose proof (Z.mod_pos_bound (v + 4095) 4096).
      split; [split; lia|]. split; [apply Z.mod_mul; lia|lia].
  - destruct (Z.eqb_spec v 0); [lia|]. case_bool_decide; [done|]. rewrite add64_small by lia.
    pose proof (Z.div_mod (v + 4095) 4096). pose proof (Z.mod_pos_bound (v + 4095) 4096). lia.
Qed.

(** The user-range and kernel-range tests are exact for whole ranges: a range is accepted
    exactly when it is not empty, does not wrap around and lies entirely inside the user (or
    kernel) part of the address space; no byte is in both. *)
Theorem user_and_kernel_ranges a n : u64 a -> u64 n ->
  (is_user_range a n = true <-> 0 < n /\ 0x1000 <= a /\ a + n <= 0x700000000000) /\
  (is_kernel_range a n = true <-> 0 < n /\ 0xFFFF800000000000 <= a /\ a + n <= W64) /\
  (is_user_range a n = true -> forall x, a <= x < a + n ->
     is_user_address x = true /\ is_kernel_address x = false).
Proof.
  intros Ha Hn. assert (Hu : is_user_range a n = true <-> 0 < n /\ 0x1000 <= a /\ a + n <= 0x700000000000).
  { destruct Ha, Hn. unfold is_user_range. rewrite range_end_spec by done. case_bool_decide; [|split; [done|lia]].
    rewrite !is_user_address_spec by (split; lia). rewrite andb_true_iff, !bool_decide_eq_true. lia. }
  split; [done|]. destruct Ha, Hn. split.
  - unfold is_kernel_range. rewrite range_end_spec by done. case_bool_decide; [|split; [done|lia]].
    rewrite !is_kernel_address_spec by (split; lia). rewrite andb_true_iff, !bool_decide_eq_true. lia.
  - rewrite Hu. intros ? x ?. rewrite is_user_address_spec, is_kernel_address_spec by (split; lia).
    split; [apply bool_decide_true|apply bool_decide_false]; lia.
Qed.

Lemma page_rounding_exact_witness :
  align_up 0x1001 = Ok 0x2000 /\ page_count_for_bytes 0x1001 = Ok 2 /\
  align_up 0xFFFFFFFFFFFFFFFF = Throw overflow_error /\ 0x2000 `mod` 4096 = 0.
Proof.
  destruct (page_rounding_exact 0x1001 ltac:(split; lia)) as [(_ & Hm & _) _].
  split; [reflexivity|]. split; [reflexivity|]. split; [reflexivity|exact Hm].
Defined.
Lemma user_and_kernel_ranges_witness :
  is_user_range 0x400000 0x1000 = true /\ is_user_range 0x400000 0x7FFFFFFFFFFF = false /\
  is_kernel_address 0x400FFF = false.
Proof.
  destruct (user_and_kernel_ranges 0x400000 0x1000 ltac:(split; lia) ltac:(split; lia)) as (_ & _ & Hk).
  split; [reflexivity|]. split; [reflexivity|]. apply (Hk eq_refl). lia.
Defined.
