(* ===== verification/PageAlloc.v ===== *)
(** * Physical page allocator

    Models src/os/mm/physical_page_allocator.cpp: a byte map of allocated pages with a free count and
    a first-fit search for contiguous runs.  The abstract view is the set of free page numbers. *)

From S2P Require Import Prelude Page.

(** ** State *)

(* [include/mnos/os/mm/physical_page_allocator.hpp] [PhysicalPageAllocator] *)
Record PhysicalPageAllocator : Set := mkAllocator {
  total_page_count : Z;
  first_allocatable_page : Z;
  free_page_count : Z;
  allocated_pages : list Z;
}.
Implicit Types a : PhysicalPageAllocator.

(* [src/os/mm/physical_page_allocator.cpp] [PhysicalPageAllocator::PhysicalPageAllocator] *)
Definition make_allocator (total first : Z) : res PhysicalPageAllocator :=
  if total =? 0 then Throw invalid_argument
  else if total <? first then Throw out_of_range
  else Ok (mkAllocator total first (if first <? total then total - first else 0)
    (foldl (fun pages page_index => <[Z.to_nat page_index := 0]> pages)
       (replicate (Z.to_nat total) 1) (seqZ first (total - first)))).

(** ** Operations *)

(* [src/os/mm/physical_page_allocator.cpp] [PhysicalPageAllocator::allocated_page_count] *)
Definition allocated_page_count a : Z := sub64 (total_page_count a) (free_page_count a).
(* [src/os/mm/physical_page_allocator.cpp] [PhysicalPageAllocator::empty] *)
Definition empty a : bool := free_page_count a =? 0.
(* [src/os/mm/physical_page_allocator.cpp] [PhysicalPageAllocator::contains] *)
Definition contains (address : Z) a : bool :=
  is_page_aligned address && (page_number address <? total_page_count a).

(* [src/os/mm/physical_page_allocator.cpp] [PhysicalPageAllocator::is_page_index_allocated] *)
Definition is_page_index_allocated a (page_index : Z) : bool :=
  negb (nthZ (allocated_pages a) page_index =? 0).

Definition set_page (page_index value count : Z) a : PhysicalPageAllocator :=
  mkAllocator (total_page_count a) (first_allocatable_page a) count
    (<[Z.to_nat page_index := value]> (allocated_pages a)).
(* [src/os/mm/physical_page_allocator.cpp] [PhysicalPageAllocator::mark_allocated] *)
Definition mark_allocated (page_index : Z) : M PhysicalPageAllocator unit := modify (fun a =>
  if negb (is_page_index_allocated a page_index)
  then set_page page_index 1 (sub64 (free_page_count a) 1) a else a).
(* [src/os/mm/physical_page_allocator.cpp] [PhysicalPageAllocator::mark_free] *)
Definition mark_free (page_index : Z) : M PhysicalPageAllocator unit := modify (fun a =>
  if is_page_index_allocated a page_index
  then set_page page_index 0 (add64 (free_page_count a) 1) a else a).

(* [src/os/mm/physical_page_allocator.cpp] [PhysicalPageAllocator::require_owned_page] *)
Definition require_owned_page (address : Z) a : res unit :=
  if negb (is_page_aligned address) then Throw invalid_argument
  else if total_page_count a <=? page_number address then Throw out_of_range
  else Ok tt.
(* [src/os/mm/physical_page_allocator.cpp] [PhysicalPageAllocator::page_index] *)
Definition page_index (address : Z) a : res Z :=
  _ ← require_owned_page address a; Ok (page_number address).
(* [src/os/mm/physical_page_allocator.cpp] [PhysicalPageAllocator::require_allocatable_page] *)
Definition require_allocatable_page (address : Z) a : res unit :=
  _ ← require_owned_page address a;
  index ← page_index address a;
  if index <? first_allocatable_page a then Throw logic_error else Ok tt.
(* [src/os/mm/physical_page_allocator.cpp] [PhysicalPageAllocator::require_page_count] *)
Definition require_page_count (page_count : Z) : res unit :=
  if page_count =? 0 then Throw invalid_argument else Ok tt.
(* [src/os/mm/physical_page_allocator.cpp] [PhysicalPageAllocator::is_allocated] *)
Definition is_allocated (address : Z) a : res bool :=
  _ ← require_owned_page address a;
  index ← page_index address a;
  Ok (is_page_index_allocated a index).

(** The search loop: it writes nothing until a run of the requested length is complete. *)
Fixpoint find_run a (page_count : Z) (page_indices : list Z) (current_run_start current_run_length : Z)
  : option Z :=
  match page_indices with
  | [] => None
  | page_index :: rest =>
      if is_page_index_allocated a page_index then find_run a page_count rest current_run_start 0
      else
        let run_start := if current_run_length =? 0 then page_index else current_run_start in
        let run_length := current_run_length + 1 in
        if run_length =? page_count then Some run_start
        else find_run a page_count rest run_start run_length
  end.
(* [src/os/mm/physical_page_allocator.cpp] [PhysicalPageAllocator::allocate_contiguous] *)
Definition allocate_contiguous (page_count : Z) : M PhysicalPageAllocator Z :=
  lift (fun _ => require_page_count page_count) ≫= fun _ =>
  get ≫= fun a =>
  throw_if (free_page_count a <? page_count) bad_alloc ≫= fun _ =>
  let first := first_allocatable_page a in
  match find_run a page_count (seqZ first (total_page_count a - first)) 0 0 with
  | Some current_run_start =>
      for_each (seqZ current_run_start page_count) mark_allocated ≫= fun _ =>
      mret (mul64 current_run_start MM_PAGE_SIZE_BYTES)
  | None => throw bad_alloc
  end.
(* [src/os/mm/physical_page_allocator.cpp] [PhysicalPageAllocator::allocate_page] *)
Definition allocate_page : M PhysicalPageAllocator Z := allocate_contiguous 1.
(* [src/os/mm/physical_page_allocator.cpp] [PhysicalPageAllocator::reserve_range] *)
Definition reserve_range (start_address page_count : Z) : M PhysicalPageAllocator unit :=
  lift (require_owned_page start_address) ≫= fun _ =>
  lift (fun _ => require_page_count page_count) ≫= fun _ =>
  lift (page_index start_address) ≫= fun start_index =>
  get ≫= fun a =>
  throw_if (sub64 (total_page_count a) start_index <? page_count) out_of_range ≫= fun _ =>
  for_each (seqZ start_index page_count) (fun page_index =>
    get ≫= fun a' =>
    if negb (is_page_index_allocated a' page_index) then mark_allocated page_index else mret tt).
(* [src/os/mm/physical_page_allocator.cpp] [PhysicalPageAllocator::free_page] *)
Definition free_page (address : Z) : M PhysicalPageAllocator unit :=
  lift (require_allocatable_page address) ≫= fun _ =>
  lift (page_index address) ≫= fun index =>
  get ≫= fun a =>
  throw_if (negb (is_page_index_allocated a index)) logic_error ≫= fun _ =>
  mark_free index.

(** ** Invariant and abstract view *)

Definition is_free a (i : Z) : Prop := 0 <= i < total_page_count a /\ is_page_index_allocated a i = false.
Definition free_run a (start n : Z) : Prop := forall i, start <= i < start + n -> is_free a i.
(** Some page of [[start, start + n)] is taken. *)
Definition blocked a (start n : Z) : Prop := exists i, start <= i < start + n /\ ~ is_free a i.

(** Every page has a number that fits a 64-bit address; reserved pages are never free; the count is
    the number of free pages. *)
Record alloc_wf a : Prop := {
  aw_total : 0 < total_page_count a <= 2 ^ 52;
  aw_first : 0 <= first_allocatable_page a <= total_page_count a;
  aw_length : lenZ (allocated_pages a) = total_page_count a;
  aw_flags x : x ∈ allocated_pages a -> x = 0 \/ x = 1;
  aw_reserved i : 0 <= i < first_allocatable_page a -> is_page_index_allocated a i = true;
  aw_count : free_page_count a = count (fun x => x = 0) (allocated_pages a);
}.

Definition same_shape a a' : Prop :=
  total_page_count a' = total_page_count a /\ first_allocatable_page a' = first_allocatable_page a.

Lemma is_free_first a i : alloc_wf a -> is_free a i -> first_allocatable_page a <= i.
Proof.
  intros Hwf [Hi Hf]. destruct (Z_le_dec (first_allocatable_page a) i); [done|].
  rewrite (aw_reserved a Hwf i) in Hf by lia. done.
Qed.
Lemma page_lookup a i : alloc_wf a -> 0 <= i < total_page_count a ->
  allocated_pages a !! Z.to_nat i = Some (nthZ (allocated_pages a) i).
Proof.
  intros Hwf Hi. apply lookup_nth. pose proof (aw_length a Hwf). unfold lenZ in *. lia.
Qed.
Lemma free_count_range a : alloc_wf a -> 0 <= free_page_count a <= total_page_count a.
Proof. intros Hwf. rewrite (aw_count a Hwf), <- (aw_length a Hwf). apply count_bound. Qed.

Lemma set_page_allocated a i v c j : alloc_wf a -> 0 <= i < total_page_count a -> 0 <= j ->
  is_page_index_allocated (set_page i v c a) j =
  if decide (j = i) then negb (v =? 0) else is_page_index_allocated a j.
Proof.
  intros Hwf Hi Hj. unfold is_page_index_allocated, set_page, nthZ. simpl.
  pose proof (aw_length a Hwf). unfold lenZ in *. case_decide as Hd.
  - subst j. by rewrite nth_insert_eq by lia.
  - by rewrite nth_insert_ne by lia.
Qed.
Lemma set_page_wf a i v : alloc_wf a -> 0 <= i < total_page_count a -> v = 0 \/ v = 1 ->
  (v = 0 -> first_allocatable_page a <= i) ->
  alloc_wf (set_page i v (free_page_count a - (if is_page_index_allocated a i then 0 else 1)
                                             + (if v =? 0 then 1 else 0)) a).
Proof.
  intros Hwf Hi Hv Hfirst. pose proof (page_lookup a i Hwf Hi) as Hl. split.
  - apply Hwf.
  - apply Hwf.
  - unfold set_page, lenZ. simpl. rewrite length_insert. apply Hwf.
  - intros x. unfold set_page. simpl. intros Hx. apply list_elem_of_lookup in Hx as [k Hk].
    apply list_lookup_insert_Some in Hk as [(_ & <- & _)|[_ Hk]]; [done|].
    apply (aw_flags a Hwf). by eapply list_elem_of_lookup_2.
  - intros j Hj. rewrite set_page_allocated by (apply Hj || done). simpl in Hj. case_decide as Hd.
    + subst j. destruct Hv as [->| ->]; [|done]. lia.
    + apply (aw_reserved a Hwf). apply Hj.
  - unfold set_page. simpl. rewrite (count_insert _ _ _ _ _ Hl), <- (aw_count a Hwf).
    unfold is_page_index_allocated. destruct (Z.eqb_spec (nthZ (allocated_pages a) i) 0);
      destruct (Z.eqb_spec v 0); simpl; repeat case_decide; lia.
Qed.

Lemma mark_allocated_spec a i : alloc_wf a -> 0 <= i < total_page_count a ->
  exists a', mark_allocated i a = (a', Ok tt) /\ alloc_wf a' /\ same_shape a a' /\
  (forall j, 0 <= j -> is_page_index_allocated a' j = is_page_index_allocated a j || bool_decide (j = i)) /\
  free_page_count a' = free_page_count a - (if is_page_index_allocated a i then 0 else 1).
Proof.
  intros Hwf Hi. unfold mark_allocated. munfold_goal. eexists; split; [done|].
  destruct (is_page_index_allocated a i) eqn:Ea; simpl.
  - split; [done|]. split; [done|]. split; [|lia]. intros j Hj.
    case_bool_decide; [subst; by rewrite Ea|by rewrite orb_false_r].
  - pose proof (free_count_range a Hwf) as Hc.
    assert (Hpos : 0 < free_page_count a).
    { pose proof (set_page_wf a i 1 Hwf Hi) as Hwf'. rewrite Ea in Hwf'.
      specialize (Hwf' (or_intror eq_refl) ltac:(done)). apply free_count_range in Hwf'. simpl in Hwf'. lia. }
    pose proof (aw_total a Hwf). rewrite sub64_small by lia.
    split; [|split; [done|split]].
    + pose proof (set_page_wf a i 1 Hwf Hi) as Hwf'. rewrite Ea in Hwf'. simpl in Hwf'.
      rewrite Z.add_0_r in Hwf'. by apply Hwf'; [right|].
    + intros j Hj. rewrite set_page_allocated by done. case_decide as Hd.
      * by rewrite bool_decide_true, orb_true_r.
      * by rewrite bool_decide_false, orb_false_r.
    + done.
Qed.
Lemma mark_free_spec a i : alloc_wf a -> first_allocatable_page a <= i < total_page_count a ->
  is_page_index_allocated a i = true ->
  exists a', mark_free i a = (a', Ok tt) /\ alloc_wf a' /\ same_shape a a' /\
  (forall j, 0 <= j -> is_page_index_allocated a' j = is_page_index_allocated a j && negb (bool_decide (j = i))) /\
  free_page_count a' = free_page_count a + 1.
Proof.
  intros Hwf Hi Ea. pose proof (aw_first a Hwf) as Hf. unfold mark_free. munfold_goal. rewrite Ea.
  eexists; split; [done|]. pose proof (free_count_range a Hwf) as Hc.
  pose proof (set_page_wf a i 0 Hwf ltac:(lia) ltac:(by left) ltac:(lia)) as Hwf'. rewrite Ea in Hwf'.
  simpl in Hwf'. rewrite Z.sub_0_r in Hwf'. pose proof (free_count_range _ Hwf') as Hc'. simpl in Hc'.
  pose proof (aw_total a Hwf). rewrite add64_small by lia.
  split; [done|]. split; [done|]. split; [|done].
  intros j Hj. rewrite set_page_allocated by (done || lia). case_decide as Hd.
  - by rewrite bool_decide_true, andb_false_r.
  - by rewrite bool_decide_false, andb_true_r.
Qed.

(** ** The two loops *)

Definition free_in a (start n : Z) : Z := count (fun i => is_page_index_allocated a i = false) (seqZ start n).

Lemma mark_run_spec (n : nat) : forall a start, alloc_wf a -> 0 <= start ->
  start + Z.of_nat n <= total_page_count a ->
  exists a', for_each (seqZ start (Z.of_nat n)) mark_allocated a = (a', Ok tt) /\ alloc_wf a' /\
  same_shape a a' /\
  (forall j, 0 <= j -> is_page_index_allocated a' j =
     is_page_index_allocated a j || bool_decide (start <= j < start + Z.of_nat n)) /\
  free_page_count a' = free_page_count a - free_in a start (Z.of_nat n).
Proof.
  induction n as [|n IH]; intros a start Hwf Hs Hn.
  { exists a. split; [done|]. split; [done|]. split; [done|]. split.
    2:{ change (free_in a start (Z.of_nat 0)) with 0. lia. }
    intros j Hj. rewrite bool_decide_false by lia. by rewrite orb_false_r. }
  destruct (mark_allocated_spec a start) as (a1 & H1 & Hwf1 & [Ht1 Hf1] & Ha1 & Hc1); [done|lia|].
  destruct (IH a1 (start + 1)) as (a2 & H2 & Hwf2 & [Ht2 Hf2] & Ha2 & Hc2); [done|lia|lia|].
  exists a2. unfold free_in in *. rewrite seqZ_cons by lia. simpl for_each. munfold_goal. rewrite H1.
  replace (Z.succ start) with (start + 1) by lia.
  replace (Z.pred (Z.of_nat (S n))) with (Z.of_nat n) by lia. split; [done|]. split; [done|].
  split; [by split; congruence|]. split.
  - intros j Hj. rewrite Ha2, Ha1 by done. rewrite <- orb_assoc. f_equal.
    apply eq_true_iff_eq. rewrite orb_true_iff, !bool_decide_eq_true. lia.
  - rewrite count_cons, Hc2, Hc1.
    assert (Hsame : count (fun i => is_page_index_allocated a1 i = false) (seqZ (start + 1) (Z.of_nat n)) =
      count (fun i => is_page_index_allocated a i = false) (seqZ (start + 1) (Z.of_nat n))).
    { apply count_ext. intros i Hi%elem_of_seqZ. rewrite Ha1, bool_decide_false, orb_false_r by lia. done. }
    destruct (is_page_index_allocated a start); simpl; lia.
Qed.

Lemma find_run_spec a n (k : nat) : forall p start len, 0 < n -> 0 <= len < n ->
  (len = 0 \/ start = p - len) -> first_allocatable_page a <= p - len -> 0 <= p - len ->
  p + Z.of_nat k = total_page_count a -> free_run a (p - len) len ->
  (forall s, first_allocatable_page a <= s < p - len -> blocked a s n) ->
  match find_run a n (seqZ p (Z.of_nat k)) start len with
  | Some st => first_allocatable_page a <= st /\ st + n <= total_page_count a /\ free_run a st n /\
      forall s, first_allocatable_page a <= s < st -> blocked a s n
  | None => forall s, first_allocatable_page a <= s -> s + n <= total_page_count a -> blocked a s n
  end.
Proof.
  induction k as [|k IH]; intros p start len Hn Hlen Hstart Hfirst H0 Hk Hfree Hblk.
  { simpl. intros s Hs Hsn. apply Hblk. lia. }
  rewrite seqZ_cons by lia. cbn [find_run].
  replace (Z.pred (Z.of_nat (S k))) with (Z.of_nat k) by lia. replace (Z.succ p) with (p + 1) by lia.
  destruct (is_page_index_allocated a p) eqn:Ep.
  - apply IH; try lia; [intros i; lia|]. intros s Hs.
    destruct (Z_lt_dec s (p - len)); [apply Hblk; lia|].
    exists p. split; [lia|]. intros [_ Hf]. congruence.
  - assert (Hrun : free_run a (p - len) (len + 1)).
    { intros i Hi. destruct (decide (i = p)) as [->|]; [split; [lia|done]|]. apply Hfree. lia. }
    assert (Hst : (if len =? 0 then p else start) = p - len) by (destruct (Z.eqb_spec len 0); lia).
    rewrite Hst. destruct (Z.eqb_spec (len + 1) n) as [<-|].
    + split; [done|]. split; [lia|]. split; [done|]. done.
    + apply IH; try lia; replace (p + 1 - (len + 1)) with (p - len) by lia; done.
Qed.

(** A run of [n] free pages exists as soon as a window is free; the fast path on the free count never
    refuses a request that a window could serve. *)
Lemma free_in_run a start n : 0 <= n -> free_run a start n -> free_in a start n = n.
Proof.
  intros Hn Hr. unfold free_in. rewrite count_all; [unfold lenZ; rewrite length_seqZ; lia|].
  intros i Hi%elem_of_seqZ. by apply Hr.
Qed.
Lemma free_run_count a start n : alloc_wf a -> 0 <= start -> 0 <= n -> start + n <= total_page_count a ->
  free_run a start n -> n <= free_page_count a.
Proof.
  intros Hwf Hs Hn Hle Hr. destruct (mark_run_spec (Z.to_nat n) a start) as (a' & _ & Hwf' & _ & _ & Hc);
    [done|done|lia|]. rewrite Z2Nat.id, free_in_run in Hc by done.
  pose proof (free_count_range a' Hwf'). lia.
Qed.

Lemma page_index_address i : 0 <= i < 2 ^ 52 ->
  mul64 i MM_PAGE_SIZE_BYTES = i * 4096 /\ is_page_aligned (i * 4096) = true /\ page_number (i * 4096) = i.
Proof.
  intros Hi. rewrite page_size_bytes. unfold mul64. rewrite wrap64_small by (unfold u64; lia).
  rewrite is_page_aligned_spec, page_number_spec. rewrite bool_decide_true by (apply Z.mod_mul; lia).
  rewrite Z.div_mul by lia. done.
Qed.
Lemma owned_page_index a addr : page_index addr a =
  if negb (is_page_aligned addr) then Throw invalid_argument
  else if total_page_count a <=? page_number addr then Throw out_of_range
  else Ok (page_number addr).
Proof.
  unfold page_index, require_owned_page. destruct (negb (is_page_aligned addr)); [done|].
  by destruct (total_page_count a <=? page_number addr).
Qed.

Lemma free_page_cases a addr : free_page addr a =
  if negb (is_page_aligned addr) then (a, Throw invalid_argument)
  else if total_page_count a <=? page_number addr then (a, Throw out_of_range)
  else if (page_number addr <? first_allocatable_page a) || negb (is_page_index_allocated a (page_number addr))
  then (a, Throw logic_error) else mark_free (page_number addr) a.
Proof.
  unfold free_page, require_allocatable_page, require_owned_page. munfold_goal. rewrite owned_page_index.
  destruct (negb (is_page_aligned addr)); [done|]. destruct (_ <=? _); [done|].
  destruct (_ <? _); [done|]. simpl. by destruct (negb (is_page_index_allocated _ _)).
Qed.

(** Two allocators of one shape with the same flags are the same. *)
Lemma alloc_ext a a' : alloc_wf a -> alloc_wf a' -> same_shape a a' ->
  (forall j, 0 <= j < total_page_count a -> is_page_index_allocated a' j = is_page_index_allocated a j) ->
  a' = a.
Proof.
  intros Hwf Hwf' [Ht Hf] Hj. assert (Hp : allocated_pages a' = allocated_pages a).
  { pose proof (aw_length a Hwf). pose proof (aw_length a' Hwf'). unfold lenZ in *.
    apply list_eq_same_length with (length (allocated_pages a)); [lia|lia|].
    intros i x y Hi Hx Hy. specialize (Hj (Z.of_nat i) ltac:(lia)).
    unfold is_page_index_allocated, nthZ in Hj. rewrite Nat2Z.id in Hj.
    rewrite (nth_lookup_Some _ _ _ _ Hx), (nth_lookup_Some _ _ _ _ Hy) in Hj.
    destruct (aw_flags a Hwf y) as [-> | ->]; [by eapply list_elem_of_lookup_2| |];
      (destruct (aw_flags a' Hwf' x) as [-> | ->]; [by eapply list_elem_of_lookup_2|done|done]). }
  pose proof (aw_count a Hwf). pose proof (aw_count a' Hwf'). destruct a, a'; simpl in *. congruence.
Qed.

(** The constructor's loop clears the flags of [[first, first + k)]. *)
Lemma clear_flags_loop first (k : nat) : forall l, 0 <= first -> first + Z.of_nat k <= lenZ l ->
  let l' := foldl (fun pages page_index => <[Z.to_nat page_index := 0]> pages) l (seqZ first (Z.of_nat k)) in
  lenZ l' = lenZ l /\
  forall i, 0 <= i -> nthZ l' i = if decide (first <= i < first + Z.of_nat k) then 0 else nthZ l i.
Proof.
  induction k as [|k IH]; intros l Hf Hk; [split; [done|]; intros; by rewrite decide_False by lia|].
  replace (Z.of_nat (S k)) with (Z.of_nat k + 1) in * by lia. rewrite seqZ_app, foldl_app by lia.
  destruct (IH l Hf ltac:(lia)) as [IHl IHn]. cbn zeta in *. set (l1 := foldl _ l _) in *.
  simpl. split; [unfold lenZ in *; rewrite length_insert; exact IHl|].
  intros i Hi. rewrite nthZ_insert, IHn by lia. repeat case_decide; done || lia.
Qed.

Lemma make_allocator_wf total first a : 0 <= total <= 2 ^ 52 -> 0 <= first ->
  make_allocator total first = Ok a ->
  alloc_wf a /\ total_page_count a = total /\ first_allocatable_page a = first /\
  forall i, is_free a i <-> first <= i < total.
Proof.
  intros Ht Hf. unfold make_allocator. destruct (Z.eqb_spec total 0); [done|].
  destruct (Z.ltb_spec total first); [done|].
  assert (Hrep : lenZ (replicate (Z.to_nat total) 1) = total) by (unfold lenZ; rewrite length_replicate; lia).
  destruct (clear_flags_loop first (Z.to_nat (total - first)) (replicate (Z.to_nat total) 1)) as [Hlen Hnth];
    [lia|lia|]. cbn zeta in *. rewrite Z2Nat.id in Hlen, Hnth by lia. rewrite Hrep in Hlen.
  set (pages := foldl _ _ _) in *. set (c := if first <? total then _ else _). intros [= <-].
  replace (first + (total - first)) with total in Hnth by lia.
  assert (Hval : forall i, 0 <= i < total -> nthZ pages i = if decide (first <= i) then 0 else 1).
  { intros i Hi. rewrite Hnth, nthZ_replicate by lia. repeat case_decide; done || lia. }
  assert (Halloc : forall i, 0 <= i < total ->
    is_page_index_allocated (mkAllocator total first c pages) i = negb (bool_decide (first <= i))).
  { intros i Hi. unfold is_page_index_allocated. simpl. rewrite Hval by done.
    by case_decide; [rewrite bool_decide_true|rewrite bool_decide_false]. }
  assert (Hcount : c = count (fun x => x = 0) pages).
  { rewrite <- (take_drop (Z.to_nat first) pages), count_app, (count_zero _ (take _ _)), (count_all _ (drop _ _)).
    - unfold c, lenZ in *. rewrite length_drop. destruct (Z.ltb_spec first total); lia.
    - intros x Hx. apply elem_nthZ in Hx as (i & Hi & <-). unfold lenZ, nthZ in *. rewrite length_drop in Hi.
      rewrite nth_lookup, lookup_drop, <- nth_lookup. specialize (Hval (first + i) ltac:(lia)).
      rewrite decide_True, Z2Nat.inj_add in Hval by lia. exact Hval.
    - intros x Hx. apply elem_nthZ in Hx as (i & Hi & <-). unfold lenZ, nthZ in *. rewrite length_take in Hi.
      rewrite nth_lookup, lookup_take_lt, <- nth_lookup by lia. specialize (Hval i ltac:(lia)).
      rewrite decide_False in Hval by lia. by rewrite Hval. }
  split; [|split; [done|split; [done|]]].
  - split; simpl; try done; [lia| |].
    + intros x Hx. apply elem_nthZ in Hx as (i & Hi & <-). rewrite Hval by lia. case_decide; auto.
    + intros i Hi. by rewrite Halloc, bool_decide_false by lia.
  - intros i. unfold is_free. cbn [total_page_count]. split.
    + intros [Hi Hz]. rewrite Halloc in Hz by done. case_bool_decide; [lia|done].
    + intros Hi. split; [lia|]. by rewrite Halloc, bool_decide_true by lia.
Qed.

(** Freeing the pages of an allocated run one by one. *)
Lemma free_run_spec (n : nat) : forall a start, alloc_wf a -> first_allocatable_page a <= start ->
  start + Z.of_nat n <= total_page_count a ->
  (forall i, start <= i < start + Z.of_nat n -> is_page_index_allocated a i = true) ->
  exists a', for_each (seqZ start (Z.of_nat n)) (fun i => free_page (i * 4096)) a = (a', Ok tt) /\
  alloc_wf a' /\ same_shape a a' /\
  forall j, 0 <= j -> is_page_index_allocated a' j =
    is_page_index_allocated a j && negb (bool_decide (start <= j < start + Z.of_nat n)).
Proof.
  induction n as [|n IH]; intros a start Hwf Hs Hn Hal.
  { exists a. split; [done|]. split; [done|]. split; [done|]. intros j Hj.
    rewrite bool_decide_false by lia. by rewrite andb_true_r. }
  pose proof (aw_first a Hwf). pose proof (aw_total a Hwf).
  destruct (mark_free_spec a start) as (a1 & H1 & Hwf1 & [Ht1 Hf1] & Ha1 & _); [done|lia|apply Hal; lia|].
  destruct (IH a1 (start + 1)) as (a2 & H2 & Hwf2 & [Ht2 Hf2] & Ha2); [done|lia|lia| |].
  { intros i Hi. rewrite Ha1, Hal, bool_decide_false by lia. done. }
  exists a2. rewrite seqZ_cons by lia. simpl for_each. munfold_goal.
  rewrite free_page_cases. destruct (page_index_address start) as (_ & -> & ->); [lia|].
  destruct (Z.leb_spec (total_page_count a) start); [lia|].
  destruct (Z.ltb_spec start (first_allocatable_page a)); [lia|]. rewrite Hal by lia. cbn [negb orb].
  rewrite H1. replace (Z.succ start) with (start + 1) by lia.
  replace (Z.pred (Z.of_nat (S n))) with (Z.of_nat n) by lia. split; [done|]. split; [done|].
  split; [by split; congruence|]. intros j Hj. rewrite Ha2, Ha1 by done. rewrite <- andb_assoc. f_equal.
  apply eq_true_iff_eq. rewrite andb_true_iff, !negb_true_iff, !bool_decide_eq_false. lia.
Qed.

(** ** Properties *)

(** Allocation is first fit and complete: it returns the lowest run of free pages of the length
    asked for, takes exactly those pages and keeps the free count right; it fails, changing nothing,
    only for a zero count or when no such run exists. *)
Theorem allocate_contiguous_first_fit a n a' r : alloc_wf a -> 0 <= n ->
  allocate_contiguous n a = (a', r) ->
  alloc_wf a' /\ same_shape a a' /\
  match r with
  | Ok addr => exists start, addr = start * 4096 /\ 0 < n /\ free_run a start n /\
      (forall s, first_allocatable_page a <= s < start -> blocked a s n) /\
      (forall i, is_free a' i <-> is_free a i /\ ~ (start <= i < start + n)) /\
      free_page_count a' = free_page_count a - n
  | Throw e => a' = a /\ (e = invalid_argument /\ n = 0 \/
      e = bad_alloc /\ forall s, first_allocatable_page a <= s -> s + n <= total_page_count a -> blocked a s n)
  end.
Proof.
  intros Hwf Hn. pose proof (aw_first a Hwf) as Hfirst. pose proof (aw_total a Hwf) as Htot.
  unfold allocate_contiguous, require_page_count. munfold_goal. destruct (Z.eqb_spec n 0) as [->|Hn0].
  { intros [= <- <-]. split; [done|]. split; [done|]. split; [done|]. by left. }
  destruct (Z.ltb_spec (free_page_count a) n) as [Hlow|Henough].
  { intros [= <- <-]. split; [done|]. split; [done|]. split; [done|]. right. split; [done|].
    intros s Hs Hsn. destruct (decide (Exists (fun i => is_page_index_allocated a i = true) (seqZ s n))) as [He|He].
    - apply Exists_exists in He as (i & Hi%elem_of_seqZ & Ha). exists i. split; [done|]. intros [_ Hf]. congruence.
    - exfalso. apply not_Exists_Forall in He; [|intros ?; apply _]. rewrite Forall_forall in He.
      pose proof (free_run_count a s n Hwf ltac:(lia) ltac:(lia) Hsn) as Hc. cut (n <= free_page_count a); [lia|].
      apply Hc. intros i Hi. split; [lia|]. apply not_true_iff_false, He, elem_of_seqZ. lia. }
  pose proof (find_run_spec a n (Z.to_nat (total_page_count a - first_allocatable_page a))
    (first_allocatable_page a) 0 0) as Hfind. rewrite Z2Nat.id in Hfind by lia.
  destruct (find_run a n _ 0 0) as [start|].
  - destruct Hfind as (Hs1 & Hs2 & Hrun & Hblk); try lia; [intros i; lia|].
    destruct (mark_run_spec (Z.to_nat n) a start) as (a1 & Hm & Hwf1 & Hsh & Ha1 & Hc1); [done|lia|lia|].
    rewrite Z2Nat.id in * by lia. rewrite Hm. intros [= <- <-]. split; [done|]. split; [done|].
    exists start. destruct (page_index_address start) as [-> _]; [lia|]. split; [done|]. split; [lia|].
    split; [done|]. split; [done|]. split; [|by rewrite Hc1, free_in_run by (done || lia)].
    intros i. unfold is_free. destruct Hsh as [-> _]. split.
    + intros [Hi Hf]. rewrite Ha1 in Hf by lia. apply orb_false_iff in Hf as [Hf Hb].
      apply bool_decide_eq_false in Hb. done.
    + intros [[Hi Hf] Hb]. split; [done|]. rewrite Ha1, Hf, bool_decide_false by (done || lia). done.
  - intros [= <- <-]. split; [done|]. split; [done|]. split; [done|]. right. split; [done|].
    apply Hfind; try lia. intros i; lia.
Qed.

(** Freeing is exact on every branch: only an aligned, owned, non-reserved page that is allocated
    can be freed, it becomes free and nothing else changes; a double free and every other misuse is
    refused with its own exception and no effect. *)
Theorem free_page_exact a addr a' r : alloc_wf a -> u64 addr -> free_page addr a = (a', r) ->
  alloc_wf a' /\ same_shape a a' /\
  match r with
  | Ok _ => exists i, addr = i * 4096 /\ first_allocatable_page a <= i < total_page_count a /\
      ~ is_free a i /\ (forall j, is_free a' j <-> is_free a j \/ j = i) /\
      free_page_count a' = free_page_count a + 1
  | Throw e => a' = a /\
      (e = invalid_argument /\ addr `mod` 4096 <> 0 \/
       e = out_of_range /\ total_page_count a * 4096 <= addr \/
       e = logic_error /\ (addr < first_allocatable_page a * 4096 \/ is_free a (addr / 4096)))
  end.
Proof.
  intros Hwf [Hu Hu']. rewrite free_page_cases, is_page_aligned_spec, page_number_spec.
  pose proof (Z.div_mod addr 4096) as Hdm. pose proof (aw_first a Hwf). assert (0 <= addr / 4096) by (apply Z.div_pos; lia).
  case_bool_decide as Hal; cbn [negb].
  2:{ intros [= <- <-]. do 3 (split; [done|]). by left. }
  destruct (Z.leb_spec (total_page_count a) (addr / 4096)).
  { intros [= <- <-]. do 3 (split; [done|]). right. left. split; [done|]. lia. }
  destruct (Z.ltb_spec (addr / 4096) (first_allocatable_page a)); cbn [orb].
  { intros [= <- <-]. do 3 (split; [done|]). right. right. split; [done|]. left. lia. }
  destruct (is_page_index_allocated a (addr / 4096)) eqn:Ea; cbn [negb].
  2:{ intros [= <- <-]. do 3 (split; [done|]). right. right. split; [done|]. right. split; [lia|done]. }
  destruct (mark_free_spec a (addr / 4096)) as (a1 & -> & Hwf1 & Hsh & Ha1 & Hc1); [done|lia|done|].
  intros [= <- <-]. split; [done|]. split; [done|]. exists (addr / 4096). split; [lia|]. split; [lia|].
  split; [intros [_ ?]; congruence|]. split; [|done]. intros j. unfold is_free. destruct Hsh as [-> _]. split.
  - intros [Hj Hf]. rewrite Ha1 in Hf by lia. case_bool_decide; [by right|left]. split; [done|].
    by rewrite andb_true_r in Hf.
  - intros [[Hj Hf]| ->]; (split; [lia|]); rewrite Ha1 by lia; [by rewrite Hf|].
    by rewrite bool_decide_true, andb_false_r.
Qed.

Lemma allocate_free_run a n a' addr : alloc_wf a -> 0 <= n ->
  allocate_contiguous n a = (a', Ok addr) ->
  for_each (seqZ (addr / 4096) n) (fun i => free_page (i * 4096)) a' = (a, Ok tt).
Proof.
  intros Hwf Hn. pose proof (aw_first a Hwf) as Hfirst. pose proof (aw_total a Hwf) as Htot.
  unfold allocate_contiguous, require_page_count. munfold_goal. destruct (Z.eqb_spec n 0) as [->|Hn0]; [done|].
  destruct (_ <? _); [done|].
  pose proof (find_run_spec a n (Z.to_nat (total_page_count a - first_allocatable_page a))
    (first_allocatable_page a) 0 0) as Hfind. rewrite Z2Nat.id in Hfind by lia.
  destruct (find_run a n _ 0 0) as [start|]; [|done].
  destruct Hfind as (Hs1 & Hs2 & Hrun & _); try lia; [intros i; lia|].
  destruct (mark_run_spec (Z.to_nat n) a start) as (a1 & Hm & Hwf1 & [Ht Hf] & Ha1 & _); [done|lia|lia|].
  rewrite Z2Nat.id in * by lia. rewrite Hm. intros [= <- <-].
  destruct (page_index_address start) as [-> _]; [lia|]. rewrite Z.div_mul by lia.
  destruct (free_run_spec (Z.to_nat n) a1 start) as (a2 & H2 & Hwf2 & [Ht2 Hf2] & Ha2); [done|lia|lia| |];
    rewrite ?Z2Nat.id in * by lia.
  { intros i Hi. rewrite Ha1, bool_decide_true by lia. by rewrite orb_true_r. }
  rewrite H2. f_equal. apply alloc_ext; [done|done|by split; congruence|]. intros j Hj.
  rewrite Ha2, Ha1 by lia. case_bool_decide as Hb; simpl; [|by rewrite orb_false_r, andb_true_r].
  rewrite andb_false_r. symmetry. by apply Hrun.
Qed.
Lemma allocate_page_free a a' addr : alloc_wf a -> allocate_page a = (a', Ok addr) -> free_page addr a' = (a, Ok tt).
Proof.
  intros Hwf E. destruct (allocate_contiguous_first_fit a 1 a' (Ok addr) Hwf ltac:(lia) E) as (_ & _ & start & -> & _).
  pose proof (allocate_free_run a 1 a' (start * 4096) Hwf ltac:(lia) E) as H. rewrite Z.div_mul in H by lia.
  rewrite seqZ_cons, seqZ_nil in H by lia. cbn [for_each] in H. munfold.
  destruct (free_page (start * 4096) a') as [a2 [[]|]]; congruence.
Qed.

(** Allocation and freeing are inverse: freeing every page of an allocated run gives back exactly
    the allocator before the allocation, so no page is lost or handed out twice. *)
Theorem allocate_then_free_restores a n a' addr : alloc_wf a -> 0 <= n ->
  allocate_contiguous n a = (a', Ok addr) ->
  for_each (seqZ (addr / 4096) n) (fun i => free_page (i * 4096)) a' = (a, Ok tt).
Proof. intros Hwf Hn E. by apply (allocate_free_run a n). Qed.

(** Reserving takes exactly the pages of the range that were free and leaves allocated ones
    alone; a range that leaves the memory is refused with no effect. *)
Theorem reserve_range_exact a addr n a' r : alloc_wf a -> u64 addr -> 0 <= n ->
  reserve_range addr n a = (a', r) ->
  alloc_wf a' /\ same_shape a a' /\
  match r with
  | Ok _ => exists start, addr = start * 4096 /\ 0 < n /\ start + n <= total_page_count a /\
      forall i, is_free a' i <-> is_free a i /\ ~ (start <= i < start + n)
  | Throw e => a' = a /\
      (e = invalid_argument /\ (addr `mod` 4096 <> 0 \/ n = 0) \/
       e = out_of_range /\ (total_page_count a * 4096 <= addr \/ total_page_count a * 4096 < addr + n * 4096))
  end.
Proof.
  intros Hwf [Hu Hu'] Hn. pose proof (Z.div_mod addr 4096). assert (0 <= addr / 4096) by (apply Z.div_pos; lia).
  pose proof (aw_total a Hwf). unfold reserve_range, require_owned_page, require_page_count. munfold_goal.
  rewrite owned_page_index, is_page_aligned_spec, page_number_spec.
  case_bool_decide; cbn [negb]; [|intros [= <- <-]; do 3 (split; [done|]); auto].
  destruct (Z.leb_spec (total_page_count a) (addr / 4096)) as [Hout|Hin].
  { intros [= <- <-]. do 3 (split; [done|]). right. split; [done|]. left. lia. }
  destruct (Z.eqb_spec n 0) as [->|]; [intros [= <- <-]; do 3 (split; [done|]); auto|].
  rewrite sub64_small by lia. destruct (Z.ltb_spec (total_page_count a - addr / 4096) n) as [Hlong|Hfit].
  { intros [= <- <-]. do 3 (split; [done|]). right. split; [done|]. right. lia. }
  destruct (mark_run_spec (Z.to_nat n) a (addr / 4096)) as (a1 & Hm & Hwf1 & Hsh & Ha1 & _); [done|lia|lia|].
  rewrite Z2Nat.id in Hm, Ha1 by lia. rewrite (for_each_ext _ _ mark_allocated).
  1: rewrite Hm.
  2:{ intros i s _. unfold mark_allocated. munfold_goal.
      destruct (is_page_index_allocated s i) eqn:E; simpl; by rewrite ?E. }
  intros [= <- <-]. split; [done|]. split; [done|]. exists (addr / 4096). do 3 (split; [lia|]).
  intros i. unfold is_free. destruct Hsh as [-> _]. split.
  - intros [Hi Hf]. rewrite Ha1 in Hf by lia. apply orb_false_iff in Hf as [Hf Hb].
    by apply bool_decide_eq_false in Hb.
  - intros [[Hi Hf] Hb]. split; [done|]. by rewrite Ha1, Hf, bool_decide_false by (done || lia).
Qed.

(** ** Concrete instances *)

(** Eight pages, the first two reserved, page 3 taken. *)
Definition demo_allocator : PhysicalPageAllocator := mkAllocator 8 2 5 [1; 1; 0; 1; 0; 0; 0; 0].

Lemma demo_allocator_wf : alloc_wf demo_allocator.
Proof.
  split; try done; try (simpl; lia).
  - intros x. revert x. apply Forall_forall.
    repeat (apply Forall_cons; split; [auto|]). by apply Forall_nil.
  - intros i Hi. simpl in Hi. assert (i = 0 \/ i = 1) as [-> | ->] by lia; done.
Qed.

Lemma allocate_contiguous_first_fit_witness :
  exists a', allocate_contiguous 2 demo_allocator = (a', Ok 0x4000) /\ free_page_count a' = 3 /\
  blocked demo_allocator 2 2.
Proof.
  eexists. split; [vm_compute; reflexivity|]. split; [reflexivity|].
  destruct (allocate_contiguous_first_fit demo_allocator 2 _ (Ok 0x4000) demo_allocator_wf ltac:(lia)
    ltac:(vm_compute; reflexivity)) as (_ & _ & start & Hs & _ & _ & Hb & _).
  apply Hb. simpl. lia.
Defined.
Lemma free_page_exact_witness :
  exists a', free_page 0x3000 demo_allocator = (a', Ok tt) /\ is_free a' 3 /\
  free_page 0x3000 a' = (a', Throw logic_error).
Proof.
  eexists. split; [vm_compute; reflexivity|]. split; [|reflexivity].
  destruct (free_page_exact demo_allocator 0x3000 _ (Ok tt) demo_allocator_wf ltac:(split; lia)
    ltac:(vm_compute; reflexivity)) as (_ & _ & i & Hi & _ & _ & Hf & _).
  apply Hf. right. lia.
Defined.
Lemma allocate_then_free_restores_witness :
  exists a', allocate_contiguous 3 demo_allocator = (a', Ok 0x4000) /\
  for_each [4; 5; 6] (fun i => free_page (i * 4096)) a' = (demo_allocator, Ok tt).
Proof.
  eexists. split; [vm_compute; reflexivity|].
  exact (allocate_then_free_restores demo_allocator 3 _ 0x4000 demo_allocator_wf ltac:(lia)
    ltac:(vm_compute; reflexivity)).
Defined.
Lemma reserve_range_exact_witness :
  exists a', reserve_range 0x2000 3 demo_allocator = (a', Ok tt) /\ ~ is_free a' 4 /\ is_free a' 5.
Proof.
  eexists. split; [vm_compute; reflexivity|].
  destruct (reserve_range_exact demo_allocator 0x2000 3 _ (Ok tt) demo_allocator_wf ltac:(split; lia)
    ltac:(lia) ltac:(vm_compute; reflexivity)) as (_ & _ & st & Hst & _ & _ & Hf).
  split; [rewrite Hf; lia|]. rewrite Hf. split; [by split|lia].
Defined.
