(* ===== verification/BlockDevice.v ===== *)
(** * Block device

    Models src/os/block/block_device.cpp: a geometry with a checked capacity and a memory-backed
    device of whole blocks.  The class [BlockStore] is what a client of block storage may rely on:
    whole-block reads and writes over an abstract content.  The device provides it here and the
    buffer cache provides it in BufferCache.v. *)

From S2P Require Import Prelude.

(** ** The interface *)

(** Bytes in a block, number of blocks and what each block holds. *)
Class BlockStore (D : Type) : Type := {
  bs_ok : D -> Prop;
  bs_block_size : D -> Z;
  bs_block_count : D -> Z;
  bs_content : D -> Z -> list Z;
  (** [read address n] fills a destination of [n] bytes. *)
  bs_read : Z -> Z -> M D (list Z);
  bs_write : Z -> list Z -> M D unit;
}.

(** The exception of an access that is not exactly one block of the device. *)
Definition block_access_error (block_size block_count address n : Z) : option exn :=
  if negb (n =? block_size) then Some invalid_argument
  else if negb (address <? block_count) then Some out_of_range
  else None.

Section same_geometry.
Context {D : Type} `{BlockStore D}.
Definition same_geometry (d d' : D) : Prop :=
  bs_block_size d' = bs_block_size d /\ bs_block_count d' = bs_block_count d.
End same_geometry.

Class BlockStoreLaws (D : Type) `{BlockStore D} : Prop := {
  bs_geometry (d : D) : bs_ok d -> 0 < bs_block_size d /\ 0 < bs_block_count d;
  bs_content_length (d : D) a : bs_ok d -> 0 <= a < bs_block_count d ->
    lenZ (bs_content d a) = bs_block_size d;
  bs_read_spec (d : D) a n : bs_ok d -> 0 <= a ->
    match block_access_error (bs_block_size d) (bs_block_count d) a n with
    | Some e => bs_read a n d = (d, Throw e)
    | None => exists d', bs_read a n d = (d', Ok (bs_content d a)) /\ bs_ok d' /\ same_geometry d d' /\
        forall a', 0 <= a' < bs_block_count d -> bs_content d' a' = bs_content d a'
    end;
  bs_write_spec (d : D) a src : bs_ok d -> 0 <= a ->
    match block_access_error (bs_block_size d) (bs_block_count d) a (lenZ src) with
    | Some e => bs_write a src d = (d, Throw e)
    | None => exists d', bs_write a src d = (d', Ok tt) /\ bs_ok d' /\ same_geometry d d' /\
        forall a', 0 <= a' < bs_block_count d ->
          bs_content d' a' = if decide (a' = a) then src else bs_content d a'
    end;
}.

(** A store that can be told to write what it holds back to its medium, which no client sees. *)
Class FlushStore (D : Type) `{BlockStore D} : Type := bs_flush : M D unit.
Class FlushStoreLaws (D : Type) `{FlushStore D} : Prop :=
  bs_flush_spec (d : D) : bs_ok d -> exists d', bs_flush d = (d', Ok tt) /\ bs_ok d' /\ same_geometry d d' /\
    forall a, 0 <= a < bs_block_count d -> bs_content d' a = bs_content d a.

(** ** Geometry *)

(* [src/os/block/block_device.cpp] [checked_capacity_bytes] *)
Definition checked_capacity_bytes (block_size_bytes block_count : Z) : res Z :=
  if (block_size_bytes =? 0) || (block_count =? 0) then Throw invalid_argument
  else if (W64 - 1) / block_size_bytes <? block_count then Throw overflow_error
  else Ok (mul64 block_size_bytes block_count).
(* [src/os/block/block_device.cpp] [storage_size_for_capacity] *)
Definition storage_size_for_capacity (capacity_bytes : Z) : res Z :=
  if W64 - 1 <? capacity_bytes then Throw length_error else Ok capacity_bytes.

(* [include/mnos/os/block/block_device.hpp] [BlockDeviceGeometry] *)
Record BlockDeviceGeometry : Set := mkGeometry {
  block_size_bytes : Z;
  block_count : Z;
  capacity_bytes : Z;
}.
(* [src/os/block/block_device.cpp] [BlockDeviceGeometry::BlockDeviceGeometry] *)
Definition make_block_geometry (block_size_bytes block_count : Z) : res BlockDeviceGeometry :=
  capacity ← checked_capacity_bytes block_size_bytes block_count;
  Ok (mkGeometry block_size_bytes block_count capacity).

(** ** The memory-backed device *)

(* [include/mnos/os/block/block_device.hpp] [MemoryBlockDevice] *)
Record MemoryBlockDevice : Set := mkDevice {
  geometry : BlockDeviceGeometry;
  storage : list Z;
}.
Implicit Types d : MemoryBlockDevice.

(* [src/os/block/block_device.cpp] [MemoryBlockDevice::MemoryBlockDevice] *)
Definition make_device (g : BlockDeviceGeometry) : res MemoryBlockDevice :=
  n ← storage_size_for_capacity (capacity_bytes g);
  Ok (mkDevice g (replicate (Z.to_nat n) 0)).

(* [src/os/block/block_device.cpp] [MemoryBlockDevice::contains] *)
Definition contains d (address : Z) : bool := address <? block_count (geometry d).
(* [src/os/block/block_device.cpp] [MemoryBlockDevice::byte_offset_for] *)
Definition byte_offset_for d (address : Z) : Z := mul64 address (block_size_bytes (geometry d)).
(* [src/os/block/block_device.cpp] [MemoryBlockDevice::span_block_count] *)
Definition span_block_count d (byte_count : Z) : res Z :=
  if negb (byte_count `mod` block_size_bytes (geometry d) =? 0) then Throw invalid_argument
  else Ok (byte_count / block_size_bytes (geometry d)).
(* [src/os/block/block_device.cpp] [MemoryBlockDevice::validate_block_span] *)
Definition validate_block_span d (byte_count : Z) : res unit :=
  if negb (byte_count =? block_size_bytes (geometry d)) then Throw invalid_argument else Ok tt.
(* [src/os/block/block_device.cpp] [MemoryBlockDevice::validate_block_range] *)
Definition validate_block_range d (first_address requested_block_count : Z) : res unit :=
  let n := block_count (geometry d) in
  if requested_block_count =? 0 then
    if n <? first_address then Throw out_of_range else Ok tt
  else if n <=? first_address then Throw out_of_range
  else
    let remaining_block_count := sub64 n first_address in
    if remaining_block_count <? requested_block_count then Throw out_of_range else Ok tt.

(** A read fills a destination of [n] bytes and returns what was copied into it. *)
(* [src/os/block/block_device.cpp] [MemoryBlockDevice::read_block] *)
Definition read_block (address n : Z) d : res (list Z) :=
  _ ← validate_block_span d n;
  _ ← validate_block_range d address 1;
  Ok (slice (byte_offset_for d address) n (storage d)).
(* [src/os/block/block_device.cpp] [MemoryBlockDevice::write_block] *)
Definition write_block (address : Z) (source : list Z) : M MemoryBlockDevice unit :=
  lift (fun d => validate_block_span d (lenZ source)) ≫= fun _ =>
  lift (fun d => validate_block_range d address 1) ≫= fun _ =>
  modify (fun d => mkDevice (geometry d) (splice (byte_offset_for d address) source (storage d))).
(* [src/os/block/block_device.cpp] [MemoryBlockDevice::read_blocks] *)
Definition read_blocks (first_address n : Z) d : res (list Z) :=
  requested_block_count ← span_block_count d n;
  _ ← validate_block_range d first_address requested_block_count;
  if requested_block_count =? 0 then Ok []
  else Ok (slice (byte_offset_for d first_address) n (storage d)).
(* [src/os/block/block_device.cpp] [MemoryBlockDevice::write_blocks] *)
Definition write_blocks (first_address : Z) (source : list Z) : M MemoryBlockDevice unit :=
  lift (fun d => span_block_count d (lenZ source)) ≫= fun requested_block_count =>
  lift (fun d => validate_block_range d first_address requested_block_count) ≫= fun _ =>
  if requested_block_count =? 0 then mret tt
  else modify (fun d => mkDevice (geometry d) (splice (byte_offset_for d first_address) source (storage d))).
(* [src/os/block/block_device.cpp] [MemoryBlockDevice::clear] *)
Definition clear (fill_value : Z) d : MemoryBlockDevice :=
  mkDevice (geometry d) (replicate (length (storage d)) fill_value).

(** ** Well-formedness *)

Record device_ok d : Prop := {
  dv_size : 0 < block_size_bytes (geometry d);
  dv_count : 0 < block_count (geometry d);
  dv_capacity : capacity_bytes (geometry d) = block_size_bytes (geometry d) * block_count (geometry d);
  dv_u64 : capacity_bytes (geometry d) < W64;
  dv_storage : lenZ (storage d) = capacity_bytes (geometry d);
}.

(** What block [a] of the device holds. *)
Definition device_content d (a : Z) : list Z :=
  slice (a * block_size_bytes (geometry d)) (block_size_bytes (geometry d)) (storage d).

Lemma block_in_range d a : device_ok d -> 0 <= a < block_count (geometry d) ->
  0 <= a * block_size_bytes (geometry d) /\
  a * block_size_bytes (geometry d) + block_size_bytes (geometry d) <= lenZ (storage d) /\
  byte_offset_for d a = a * block_size_bytes (geometry d).
Proof.
  intros Hok Ha. rewrite (dv_storage d Hok). pose proof (dv_size d Hok). pose proof (dv_u64 d Hok) as Hu.
  rewrite (dv_capacity d Hok) in *. unfold byte_offset_for, mul64.
  assert (a * block_size_bytes (geometry d) + block_size_bytes (geometry d) <=
    block_size_bytes (geometry d) * block_count (geometry d)) by nia.
  split; [nia|]. split; [done|]. apply wrap64_small. split; nia.
Qed.

Lemma device_content_length d a : device_ok d -> 0 <= a < block_count (geometry d) ->
  lenZ (device_content d a) = block_size_bytes (geometry d).
Proof.
  intros Hok Ha. destruct (block_in_range d a Hok Ha) as (H0 & Hle & _).
  apply slice_length; [done| |done]. pose proof (dv_size d Hok). lia.
Qed.

(** Writing [src] over whole blocks from [first]. *)
Lemma splice_blocks d first src n : device_ok d -> 0 <= first -> 0 < n ->
  lenZ src = n * block_size_bytes (geometry d) -> first + n <= block_count (geometry d) ->
  let d' := mkDevice (geometry d) (splice (byte_offset_for d first) src (storage d)) in
  device_ok d' /\ (forall a, 0 <= a < block_count (geometry d) -> device_content d' a =
    if decide (first <= a < first + n)
    then slice ((a - first) * block_size_bytes (geometry d)) (block_size_bytes (geometry d)) src
    else device_content d a) /\
  slice (byte_offset_for d first) (lenZ src) (storage d') = src.
Proof.
  intros Hok Hf Hn Hlen Hle d'. pose proof (dv_size d Hok) as Hs. set (bs := block_size_bytes (geometry d)) in *.
  destruct (block_in_range d first Hok ltac:(lia)) as (H0 & _ & Hoff). fold bs in H0, Hoff.
  assert (Hfit : first * bs + lenZ src <= lenZ (storage d)).
  { rewrite (dv_storage d Hok), (dv_capacity d Hok). fold bs. nia. }
  split; [|split].
  - destruct Hok. split; [done..|]. unfold d'. cbn [storage geometry]. rewrite splice_length; rewrite ?Hoff; done.
  - intros a Ha. unfold device_content, d'. cbn [storage geometry]. fold bs. rewrite Hoff.
    destruct (block_in_range d a Hok Ha) as (Ha0 & Hale & _). fold bs in Ha0, Hale. case_decide as Hd.
    + replace (a * bs) with (first * bs + (a - first) * bs) by lia.
      rewrite <- (slice_slice (first * bs) (lenZ src)) by nia. by rewrite slice_splice_same.
    + apply slice_splice_disjoint; try done; [lia|]. rewrite Hlen.
      destruct (Z_lt_dec a first); [left|right]; nia.
  - unfold d'. cbn [storage]. apply slice_splice_same; [|]; by rewrite Hoff.
Qed.

#[export] Instance device_store : BlockStore MemoryBlockDevice := {
  bs_ok := device_ok;
  bs_block_size d := block_size_bytes (geometry d);
  bs_block_count d := block_count (geometry d);
  bs_content := device_content;
  bs_read a n := lift (read_block a n);
  bs_write := write_block;
}.

Lemma validate_block d a n : device_ok d -> 0 <= a ->
  (_ ← validate_block_span d n; validate_block_range d a 1) =
  match block_access_error (block_size_bytes (geometry d)) (block_count (geometry d)) a n with
  | Some e => Throw e | None => Ok tt end.
Proof.
  intros Hok Ha. unfold validate_block_span, validate_block_range, block_access_error. munfold_goal.
  destruct (negb (n =? block_size_bytes (geometry d))); [done|].
  change (1 =? 0) with false. cbn iota. pose proof (dv_u64 d Hok). rewrite (dv_capacity d Hok) in *.
  pose proof (dv_size d Hok). assert (block_count (geometry d) < W64) by nia.
  destruct (Z.leb_spec (block_count (geometry d)) a); destruct (Z.ltb_spec a (block_count (geometry d)));
    try lia; [done|]. simpl. rewrite sub64_small by lia. by destruct (Z.ltb_spec (block_count (geometry d) - a) 1); [lia|].
Qed.
Lemma block_access_ok bs bc a n : block_access_error bs bc a n = None -> n = bs /\ a < bc.
Proof.
  unfold block_access_error. destruct (Z.eqb_spec n bs), (Z.ltb_spec a bc); simpl; done.
Qed.

#[export] Instance device_store_laws : BlockStoreLaws MemoryBlockDevice.
Proof.
  split.
  - intros d Hok. split; [apply (dv_size d Hok)|apply (dv_count d Hok)].
  - intros d a. apply device_content_length.
  - intros d a n Hok Ha. pose proof (validate_block d a n Hok Ha) as Hv. simpl.
    unfold lift, read_block. munfold. destruct (block_access_error _ _ a n) as [e|] eqn:He.
    + destruct (validate_block_span d n); [by rewrite Hv|congruence].
    + apply block_access_ok in He as [-> Hlt]. exists d.
      destruct (validate_block_span d _) as [[]|]; [|done]. rewrite Hv.
      destruct (block_in_range d a Hok ltac:(lia)) as (_ & _ & ->). done.
  - intros d a src Hok Ha. pose proof (validate_block d a (lenZ src) Hok Ha) as Hv. simpl.
    unfold write_block. munfold. destruct (block_access_error _ _ a (lenZ src)) as [e|] eqn:He.
    + destruct (validate_block_span d _); [by rewrite Hv|congruence].
    + apply block_access_ok in He as [Hlen Hlt]. destruct (validate_block_span d _) as [[]|]; [|done]. rewrite Hv.
      destruct (splice_blocks d a src 1 Hok Ha ltac:(lia) ltac:(lia) ltac:(lia)) as (Hok' & Hc & _).
      eexists. split; [done|]. split; [exact Hok'|]. split; [done|]. intros a' Ha'. rewrite Hc by done.
      destruct (decide (a' = a)) as [->|].
      * rewrite decide_True, Z.sub_diag by lia. rewrite Z.mul_0_l, <- Hlen. apply slice_full.
      * by rewrite decide_False by lia.
Qed.

(** ** Properties *)

(** C37. The capacity check is exact: a geometry is accepted exactly when both counts are non-zero and
    the capacity fits 64 bits, and the device built for it is well formed and zero filled. *)
Theorem make_device_checked bs bc : u64 bs -> u64 bc ->
  match make_block_geometry bs bc ≫= make_device with
  | Ok d => 0 < bs /\ 0 < bc /\ bs * bc < W64 /\ device_ok d /\ geometry d = mkGeometry bs bc (bs * bc) /\
      forall a, 0 <= a < bc -> device_content d a = replicate (Z.to_nat bs) 0
  | Throw e => (e = invalid_argument /\ (bs = 0 \/ bc = 0)) \/ (e = overflow_error /\ W64 <= bs * bc)
  end.
Proof.
  intros [Hb Hb'] [Hc Hc']. unfold make_block_geometry, checked_capacity_bytes, make_device, storage_size_for_capacity.
  munfold_goal. destruct (Z.eqb_spec bs 0); [left; auto|]. destruct (Z.eqb_spec bc 0); [left; auto|]. cbn [orb].
  pose proof (Z.div_mod (W64 - 1) bs). pose proof (Z.mod_pos_bound (W64 - 1) bs ltac:(lia)).
  destruct (Z.ltb_spec ((W64 - 1) / bs) bc); [right; split; [done|nia]|].
  assert (Hcap : bs * bc < W64) by nia. unfold mul64. rewrite wrap64_small by (split; nia).
  cbn [capacity_bytes]. destruct (Z.ltb_spec (W64 - 1) (bs * bc)); [lia|].
  split; [lia|]. split; [lia|]. split; [done|]. split; [|split; [done|]].
  - split; cbn [geometry block_size_bytes block_count capacity_bytes storage]; try lia.
    unfold lenZ. rewrite length_replicate. nia.
  - intros a Ha. unfold device_content. cbn [geometry block_size_bytes storage]. apply slice_replicate; nia.
Qed.

(** Multi-block transfers: whole blocks written from an address are read back as written, the
    content changes in exactly those blocks, and a span that is not whole blocks or leaves the
    device is refused with no effect. *)
Theorem write_blocks_then_read d first src d' r : device_ok d -> 0 <= first ->
  write_blocks first src d = (d', r) ->
  let bs := block_size_bytes (geometry d) in
  match r with
  | Ok _ => exists n, 0 <= n /\ lenZ src = n * bs /\ first + n <= block_count (geometry d) /\ device_ok d' /\
      geometry d' = geometry d /\ read_blocks first (lenZ src) d' = Ok src /\
      forall a, 0 <= a < block_count (geometry d) -> device_content d' a =
        if decide (first <= a < first + n) then slice ((a - first) * bs) bs src else device_content d a
  | Throw e => d' = d /\ (e = invalid_argument /\ lenZ src `mod` bs <> 0 \/
      e = out_of_range /\ block_count (geometry d) * bs < first * bs + lenZ src)
  end.
Proof.
  intros Hok Hf. pose proof (dv_size d Hok) as Hs. unfold write_blocks, read_blocks, span_block_count, validate_block_range.
  munfold_goal. set (bs := block_size_bytes (geometry d)) in *.
  pose proof (Z.div_mod (lenZ src) bs ltac:(lia)) as Hdm. assert (Hn : 0 <= lenZ src / bs) by (apply Z.div_pos; unfold lenZ; lia).
  destruct (Z.eqb_spec (lenZ src `mod` bs) 0) as [Hm|Hm]; cbn beta iota delta [negb]; [|intros [= <- <-]; auto].
  assert (Hlen : lenZ src = lenZ src / bs * bs) by lia. set (n := lenZ src / bs) in *.
  pose proof (dv_u64 d Hok) as Hu. pose proof (dv_count d Hok). rewrite (dv_capacity d Hok) in Hu. fold bs in Hu.
  assert (block_count (geometry d) < W64) by nia.
  destruct (Z.eqb_spec n 0) as [Hn0|Hn0].
  - assert (Hz : lenZ src = 0) by lia. destruct (Z.ltb_spec (block_count (geometry d)) first).
    { intros [= <- <-]. split; [done|]. right. split; [done|]. nia. }
    intros [= <- <-]. exists 0. fold bs. rewrite Hm. cbn beta iota delta [negb Z.eqb]. fold n.
    destruct (Z.eqb_spec n 0); [|done].
    destruct (Z.ltb_spec (block_count (geometry d)) first); [lia|]. do 5 (split; [done || lia|]).
    split; [by destruct src|]. intros a Ha. by rewrite decide_False by lia.
  - destruct (Z.leb_spec (block_count (geometry d)) first).
    { intros [= <- <-]. split; [done|]. right. split; [done|]. nia. }
    rewrite sub64_small by lia. destruct (Z.ltb_spec (block_count (geometry d) - first) n).
    { intros [= <- <-]. split; [done|]. right. split; [done|]. nia. }
    destruct (splice_blocks d first src n Hok Hf ltac:(lia) Hlen ltac:(lia)) as (Hok' & Hc & Hback).
    intros [= <- <-]. exists n. split; [lia|]. split; [done|]. split; [lia|]. split; [done|]. split; [done|].
    split; [|exact Hc]. cbn [geometry]. fold bs. rewrite Hm. cbn beta iota delta [negb Z.eqb]. fold n.
    destruct (Z.eqb_spec n 0); [done|]. destruct (Z.leb_spec (block_count (geometry d)) first); [lia|].
    rewrite sub64_small by lia. destruct (Z.ltb_spec (block_count (geometry d) - first) n); [lia|].
    f_equal. exact Hback.
Qed.

(** ** Concrete instances *)

Definition demo_device : MemoryBlockDevice := mkDevice (mkGeometry 2 4 8) [1; 2; 3; 4; 5; 6; 7; 8].
Lemma demo_device_ok : device_ok demo_device.
Proof. by split. Qed.

Lemma make_device_checked_witness :
  is_Ok (make_block_geometry 512 1024 ≫= make_device) = true /\
  make_block_geometry 0x100000000 0x100000000 ≫= make_device = Throw overflow_error /\
  W64 <= 0x100000000 * 0x100000000.
Proof.
  split; [vm_compute; reflexivity|]. split; [reflexivity|].
  pose proof (make_device_checked 0x100000000 0x100000000 ltac:(split; lia) ltac:(split; lia)) as Hx.
  change (make_block_geometry 0x100000000 0x100000000 ≫= make_device)
    with (@Throw MemoryBlockDevice overflow_error) in Hx. destruct Hx as [[Hx _]|[_ Hw]].
  - discriminate Hx.
  - exact Hw.
Defined.
Lemma write_blocks_then_read_witness :
  exists d', write_blocks 1 [9; 9; 8; 8] demo_device = (d', Ok tt) /\ read_blocks 1 4 d' = Ok [9; 9; 8; 8].
Proof.
  eexists. split; [vm_compute; reflexivity|].
  destruct (write_blocks_then_read demo_device 1 [9; 9; 8; 8] _ (Ok tt) demo_device_ok ltac:(lia)
    ltac:(vm_compute; reflexivity)) as (n & _ & _ & _ & _ & _ & Hr & _).
  exact Hr.
Defined.
