(* ===== verification/BufferCache.v ===== *)
(** * Buffer cache

    Models src/os/block/buffer_cache.cpp: a write-back cache of whole blocks with an index from block
    number to entry and least-recently-used replacement.  The cache holds a reference to its device,
    so a state is the pair of the cache and the device.  The device is any [BlockStore]; the theorems
    show that the pair is again a [BlockStore] with the same behaviour as the bare device. *)

From S2P Require Import Prelude BlockDevice.

(** ** State *)

(* [include/mnos/os/block/buffer_cache.hpp] [BufferCacheStats] *)
Record BufferCacheStats : Set := mkStats {
  hit_count : Z;
  miss_count : Z;
  device_read_count : Z;
  write_count : Z;
  device_writeback_count : Z;
  dirty_eviction_count : Z;
}.
(* [src/os/block/buffer_cache.cpp] [BufferCacheStats::record_hit] *)
Definition record_hit (s : BufferCacheStats) : BufferCacheStats :=
  mkStats (add64 (hit_count s) 1) (miss_count s) (device_read_count s) (write_count s)
    (device_writeback_count s) (dirty_eviction_count s).
(* [src/os/block/buffer_cache.cpp] [BufferCacheStats::record_miss] *)
Definition record_miss (s : BufferCacheStats) : BufferCacheStats :=
  mkStats (hit_count s) (add64 (miss_count s) 1) (device_read_count s) (write_count s)
    (device_writeback_count s) (dirty_eviction_count s).
(* [src/os/block/buffer_cache.cpp] [BufferCacheStats::record_device_read] *)
Definition record_device_read (s : BufferCacheStats) : BufferCacheStats :=
  mkStats (hit_count s) (miss_count s) (add64 (device_read_count s) 1) (write_count s)
    (device_writeback_count s) (dirty_eviction_count s).
(* [src/os/block/buffer_cache.cpp] [BufferCacheStats::record_write] *)
Definition record_write (s : BufferCacheStats) : BufferCacheStats :=
  mkStats (hit_count s) (miss_count s) (device_read_count s) (add64 (write_count s) 1)
    (device_writeback_count s) (dirty_eviction_count s).
(* [src/os/block/buffer_cache.cpp] [BufferCacheStats::record_device_writeback] *)
Definition record_device_writeback (s : BufferCacheStats) : BufferCacheStats :=
  mkStats (hit_count s) (miss_count s) (device_read_count s) (write_count s)
    (add64 (device_writeback_count s) 1) (dirty_eviction_count s).
(* [src/os/block/buffer_cache.cpp] [BufferCacheStats::record_dirty_eviction] *)
Definition record_dirty_eviction (s : BufferCacheStats) : BufferCacheStats :=
  mkStats (hit_count s) (miss_count s) (device_read_count s) (write_count s)
    (device_writeback_count s) (add64 (dirty_eviction_count s) 1).

(* [include/mnos/os/block/buffer_cache.hpp] [Entry] [65-71] *)
Record Entry : Set := mkEntry {
  address : Z;
  last_used_tick : Z;
  valid : bool;
  dirty : bool;
}.
Definition empty_entry : Entry := mkEntry 0 0 false false.

(* [include/mnos/os/block/buffer_cache.hpp] [BufferCache] [44-92] *)
Record BufferCache : Set := mkBufferCache {
  entries : list Entry;
  block_storage : list Z;
  index_by_block : gmap Z Z;
  stats : BufferCacheStats;
  access_tick : Z;
  valid_count : Z;
}.
Implicit Types c : BufferCache.

Definition set_entries (es : list Entry) c : BufferCache :=
  mkBufferCache es (block_storage c) (index_by_block c) (stats c) (access_tick c) (valid_count c).
Definition set_storage (s : list Z) c : BufferCache :=
  mkBufferCache (entries c) s (index_by_block c) (stats c) (access_tick c) (valid_count c).
Definition set_index (m : gmap Z Z) c : BufferCache :=
  mkBufferCache (entries c) (block_storage c) m (stats c) (access_tick c) (valid_count c).
Definition on_stats (f : BufferCacheStats -> BufferCacheStats) c : BufferCache :=
  mkBufferCache (entries c) (block_storage c) (index_by_block c) (f (stats c)) (access_tick c) (valid_count c).
Definition set_valid_count (n : Z) c : BufferCache :=
  mkBufferCache (entries c) (block_storage c) (index_by_block c) (stats c) (access_tick c) n.

Definition entry_at c (i : Z) : Entry := nth (Z.to_nat i) (entries c) empty_entry.
Definition put_entry (i : Z) (e : Entry) c : BufferCache := set_entries (<[Z.to_nat i := e]> (entries c)) c.

(* [src/os/block/buffer_cache.cpp] [checked_cache_storage_size] *)
Definition checked_cache_storage_size (capacity_blocks block_size_bytes : Z) : res Z :=
  if capacity_blocks =? 0 then Throw invalid_argument
  else if negb (block_size_bytes =? 0) && ((W64 - 1) / block_size_bytes <? capacity_blocks)
  then Throw overflow_error
  else Ok (mul64 capacity_blocks block_size_bytes).

(* [src/os/block/buffer_cache.cpp] [BufferCache::touch] *)
Definition touch (entry_index : Z) c : BufferCache :=
  let tick := add64 (access_tick c) 1 in
  let e := entry_at c entry_index in
  mkBufferCache
    (<[Z.to_nat entry_index := mkEntry (address e) tick (valid e) (dirty e)]> (entries c))
    (block_storage c) (index_by_block c) (stats c) tick (valid_count c).

(** The two loops of the search: the first invalid entry, else the least recently used one. *)
Fixpoint first_invalid (es : list Entry) (i : Z) : option Z :=
  match es with
  | [] => None
  | e :: es' => if negb (valid e) then Some i else first_invalid es' (i + 1)
  end.
(* [src/os/block/buffer_cache.cpp] [BufferCache::victim_index] *)
Definition victim_index c : Z :=
  match first_invalid (entries c) 0 with
  | Some i => i
  | None => foldl (fun victim i =>
      if last_used_tick (entry_at c i) <? last_used_tick (entry_at c victim) then i else victim)
      0 (seqZ 1 (lenZ (entries c) - 1))
  end.

(* [src/os/block/buffer_cache.cpp] [BufferCache::dirty_count] *)
Definition dirty_count c : Z := count (fun e => valid e && dirty e = true) (entries c).
(* [src/os/block/buffer_cache.cpp] [BufferCache::contains] *)
Definition contains c (a : Z) : bool := bool_decide (is_Some (index_by_block c !! a)).
(* [src/os/block/buffer_cache.cpp] [BufferCache::dirty] *)
Definition is_dirty c (a : Z) : bool :=
  match index_by_block c !! a with Some i => dirty (entry_at c i) | None => false end.

(** ** Operations *)

Section cache.
Context {D : Type} `{BlockStore D}.
Abbreviation CM := (M (BufferCache * D)).
Implicit Types d : D.

Definition on_cache (f : BufferCache -> BufferCache) : CM unit := modify (fun '(c, d) => (f c, d)).
Definition on_device {A} (m : M D A) : CM A := zoom snd (fun d s => (s.1, d)) m.

(* [src/os/block/buffer_cache.cpp] [BufferCache::BufferCache] *)
Definition make_buffer_cache d (capacity_blocks : Z) : res BufferCache :=
  n ← checked_cache_storage_size capacity_blocks (bs_block_size d);
  Ok (mkBufferCache (replicate (Z.to_nat capacity_blocks) empty_entry) (replicate (Z.to_nat n) 0) ∅
    (mkStats 0 0 0 0 0 0) 0 0).

Definition block_offset d (entry_index : Z) : Z := mul64 entry_index (bs_block_size d).
(* [src/os/block/buffer_cache.cpp] [BufferCache::block_span #2] *)
Definition block_span (entry_index : Z) (s : BufferCache * D) : list Z :=
  slice (block_offset s.2 entry_index) (bs_block_size s.2) (block_storage s.1).
(** A copy into the mutable span. *)
(* [src/os/block/buffer_cache.cpp] [BufferCache::block_span] *)
Definition fill_span (entry_index : Z) (source : list Z) : CM unit :=
  modify (fun '(c, d) => (set_storage (splice (block_offset d entry_index) source (block_storage c)) c, d)).

(* [src/os/block/buffer_cache.cpp] [BufferCache::validate_block_span] *)
Definition validate_block_span (byte_count : Z) (s : BufferCache * D) : res unit :=
  if negb (byte_count =? bs_block_size s.2) then Throw invalid_argument else Ok tt.
(* [src/os/block/buffer_cache.cpp] [BufferCache::validate_device_address] *)
Definition validate_device_address (a : Z) (s : BufferCache * D) : res unit :=
  if negb (a <? bs_block_count s.2) then Throw out_of_range else Ok tt.

(* [src/os/block/buffer_cache.cpp] [BufferCache::flush_entry] *)
Definition flush_entry (entry_index : Z) : CM unit :=
  gets (fun s => entry_at s.1 entry_index) ≫= fun e =>
  if negb (valid e) || negb (dirty e) then mret tt
  else
    gets (block_span entry_index) ≫= fun source =>
    on_device (bs_write (address e) source) ≫= fun _ =>
    on_cache (put_entry entry_index (mkEntry (address e) (last_used_tick e) (valid e) false)) ≫= fun _ =>
    on_cache (on_stats record_device_writeback).

(* [src/os/block/buffer_cache.cpp] [BufferCache::evict_if_needed] *)
Definition evict_if_needed (entry_index : Z) : CM unit :=
  gets (fun s => entry_at s.1 entry_index) ≫= fun e =>
  if negb (valid e) then mret tt
  else
    (if dirty e then
       on_cache (on_stats record_dirty_eviction) ≫= fun _ => flush_entry entry_index
     else mret tt) ≫= fun _ =>
    on_cache (fun c => set_index (delete (address e) (index_by_block c)) c).

(* [src/os/block/buffer_cache.cpp] [BufferCache::allocate_entry] *)
Definition allocate_entry (a : Z) : CM Z :=
  gets (fun s => victim_index s.1) ≫= fun entry_index =>
  evict_if_needed entry_index ≫= fun _ =>
  on_cache (fun c =>
    if negb (valid (entry_at c entry_index)) then set_valid_count (add64 (valid_count c) 1) c else c)
  ≫= fun _ =>
  on_cache (fun c =>
    put_entry entry_index (mkEntry a (last_used_tick (entry_at c entry_index)) true false) c) ≫= fun _ =>
  on_cache (fun c => set_index (<[a := entry_index]> (index_by_block c)) c) ≫= fun _ =>
  mret entry_index.

(* [src/os/block/buffer_cache.cpp] [BufferCache::find_or_allocate_for_read] *)
Definition find_or_allocate_for_read (a : Z) : CM Z :=
  gets (fun s => index_by_block s.1 !! a) ≫= fun found =>
  match found with
  | Some entry_index =>
      on_cache (on_stats record_hit) ≫= fun _ =>
      on_cache (touch entry_index) ≫= fun _ =>
      mret entry_index
  | None =>
      on_cache (on_stats record_miss) ≫= fun _ =>
      allocate_entry a ≫= fun entry_index =>
      gets (fun s => bs_block_size s.2) ≫= fun n =>
      on_device (bs_read a n) ≫= fun block =>
      fill_span entry_index block ≫= fun _ =>
      on_cache (on_stats record_device_read) ≫= fun _ =>
      on_cache (touch entry_index) ≫= fun _ =>
      mret entry_index
  end.
(* [src/os/block/buffer_cache.cpp] [BufferCache::find_or_allocate_for_write] *)
Definition find_or_allocate_for_write (a : Z) : CM Z :=
  gets (fun s => index_by_block s.1 !! a) ≫= fun found =>
  match found with
  | Some entry_index =>
      on_cache (on_stats record_hit) ≫= fun _ =>
      on_cache (touch entry_index) ≫= fun _ =>
      mret entry_index
  | None =>
      on_cache (on_stats record_miss) ≫= fun _ =>
      allocate_entry a ≫= fun entry_index =>
      on_cache (touch entry_index) ≫= fun _ =>
      mret entry_index
  end.

(* [src/os/block/buffer_cache.cpp] [BufferCache::read_block] *)
Definition read_block (a n : Z) : CM (list Z) :=
  lift (validate_block_span n) ≫= fun _ =>
  lift (validate_device_address a) ≫= fun _ =>
  find_or_allocate_for_read a ≫= fun entry_index =>
  gets (block_span entry_index).
(* [src/os/block/buffer_cache.cpp] [BufferCache::write_block] *)
Definition write_block (a : Z) (source : list Z) : CM unit :=
  lift (validate_block_span (lenZ source)) ≫= fun _ =>
  lift (validate_device_address a) ≫= fun _ =>
  on_cache (on_stats record_write) ≫= fun _ =>
  find_or_allocate_for_write a ≫= fun entry_index =>
  fill_span entry_index source ≫= fun _ =>
  on_cache (fun c =>
    let e := entry_at c entry_index in
    put_entry entry_index (mkEntry (address e) (last_used_tick e) (valid e) true) c).
(* [src/os/block/buffer_cache.cpp] [BufferCache::flush_block] *)
Definition flush_block (a : Z) : CM unit :=
  lift (validate_device_address a) ≫= fun _ =>
  gets (fun s => index_by_block s.1 !! a) ≫= fun found =>
  match found with
  | None => mret tt
  | Some entry_index => flush_entry entry_index
  end.
(* [src/os/block/buffer_cache.cpp] [BufferCache::flush_all] *)
Definition flush_all : CM unit :=
  gets (fun s => lenZ (entries s.1)) ≫= fun n => for_each (seqZ 0 n) flush_entry.
(* [src/os/block/buffer_cache.cpp] [BufferCache::clear] *)
Definition clear : CM unit :=
  flush_all ≫= fun _ =>
  on_cache (fun c => mkBufferCache ((fun _ => empty_entry) <$> entries c) (block_storage c) ∅ (stats c) 0 0).
End cache.

(** ** Invariant *)

Section invariant.
Context {D : Type} `{BlockStoreLaws D}.
Implicit Types (d : D) (s : BufferCache * D) (o : option Z).

Definition capacity c : Z := lenZ (entries c).

(** The entry exempted by [o], if any, may disagree with the device: it is being filled. *)
Record bc_wf o s : Prop := {
  bw_device : bs_ok s.2;
  bw_capacity : 0 < capacity s.1;
  bw_size : capacity s.1 * bs_block_size s.2 < W64;
  bw_storage : lenZ (block_storage s.1) = capacity s.1 * bs_block_size s.2;
  bw_index a i : index_by_block s.1 !! a = Some i ->
    0 <= i < capacity s.1 /\ valid (entry_at s.1 i) = true /\ address (entry_at s.1 i) = a /\
    0 <= a < bs_block_count s.2;
  bw_indexed i : 0 <= i < capacity s.1 -> valid (entry_at s.1 i) = true ->
    index_by_block s.1 !! address (entry_at s.1 i) = Some i;
  bw_clean i : 0 <= i < capacity s.1 -> Some i <> o -> valid (entry_at s.1 i) = true ->
    dirty (entry_at s.1 i) = false -> block_span i s = bs_content s.2 (address (entry_at s.1 i));
  bw_count : valid_count s.1 = count (fun e => valid e = true) (entries s.1);
}.

(** What a client of the cache sees in block [a]. *)
Definition cached_content s (a : Z) : list Z :=
  match index_by_block s.1 !! a with
  | Some i => block_span i s
  | None => bs_content s.2 a
  end.

Definition same_content s s' : Prop := same_geometry s.2 s'.2 /\
  forall a, 0 <= a < bs_block_count s.2 -> cached_content s' a = cached_content s a.

Lemma same_content_refl s : same_content s s.
Proof. by split. Qed.
Lemma same_content_trans s1 s2 s3 : same_content s1 s2 -> same_content s2 s3 -> same_content s1 s3.
Proof.
  intros [[Hb Hc] H1] [[Hb' Hc'] H2]. split; [by split; congruence|]. intros a Ha.
  rewrite H2, H1 by (rewrite ?Hc; done). done.
Qed.

Lemma entry_at_put c i e j : 0 <= i < capacity c -> 0 <= j ->
  entry_at (put_entry i e c) j = if decide (j = i) then e else entry_at c j.
Proof.
  intros Hi Hj. unfold entry_at, put_entry, capacity, lenZ in *. simpl. rewrite !nth_lookup.
  case_decide as Hd; [subst; by rewrite list_lookup_insert_eq by lia|].
  by rewrite list_lookup_insert_ne by lia.
Qed.
Lemma capacity_put c i e : capacity (put_entry i e c) = capacity c.
Proof. unfold capacity, lenZ. simpl. by rewrite length_insert. Qed.
Lemma entry_lookup c i : 0 <= i < capacity c -> entries c !! Z.to_nat i = Some (entry_at c i).
Proof.
  intros Hi. unfold entry_at, capacity, lenZ in *.
  destruct (entries c !! Z.to_nat i) as [e|] eqn:E; [by rewrite (nth_lookup_Some _ _ _ _ E)|].
  apply lookup_ge_None in E. lia.
Qed.
Lemma count_put c i e : 0 <= i < capacity c ->
  count (fun e => valid e = true) (entries (put_entry i e c)) =
  count (fun e => valid e = true) (entries c) -
  (if valid (entry_at c i) then 1 else 0) + (if valid e then 1 else 0).
Proof.
  intros Hi. simpl. rewrite (count_insert _ _ _ (entry_at c i) _ (entry_lookup c i Hi)).
  destruct (valid (entry_at c i)), (valid e); simpl; lia.
Qed.

(** Two caches that differ in ticks and statistics only. *)
Definition core (e : Entry) : Z * bool * bool := (address e, valid e, dirty e).
Record alike c c' : Prop := {
  al_entries : core <$> entries c' = core <$> entries c;
  al_storage : block_storage c' = block_storage c;
  al_index : index_by_block c' = index_by_block c;
  al_count : valid_count c' = valid_count c;
}.
Lemma alike_capacity c c' : alike c c' -> capacity c' = capacity c.
Proof. intros Ha. apply al_entries, (f_equal length) in Ha. rewrite !length_fmap in Ha. unfold capacity, lenZ. by rewrite Ha. Qed.
Lemma alike_entry c c' i : alike c c' ->
  address (entry_at c' i) = address (entry_at c i) /\ valid (entry_at c' i) = valid (entry_at c i) /\
  dirty (entry_at c' i) = dirty (entry_at c i).
Proof.
  intros Ha. assert (Hc : core (entry_at c' i) = core (entry_at c i)); [|unfold core in Hc; by injection Hc].
  unfold entry_at. rewrite <- !(map_nth core). change (map core) with (fmap (M:=list) core). by rewrite (al_entries _ _ Ha).
Qed.
Lemma alike_wf o c c' d : alike c c' -> bc_wf o (c, d) -> bc_wf o (c', d) /\ same_content (c, d) (c', d).
Proof.
  intros Ha Hwf. pose proof (alike_capacity c c' Ha) as Hcap. pose proof (fun i => alike_entry c c' i Ha) as He.
  destruct Ha as [Hes Hst Hix Hvc].
  assert (Hspan : forall i, block_span i (c', d) = block_span i (c, d)).
  { intros i. unfold block_span. simpl. by rewrite Hst. }
  split.
  - destruct Hwf as [W1 W2 W3 W4 W5 W6 W7 W8]; cbn [fst snd] in *.
    split; cbn [fst snd]; rewrite ?Hcap, ?Hst, ?Hix, ?Hvc; try done.
    + intros a i. destruct (He i) as (-> & -> & _). apply W5.
    + intros i. destruct (He i) as (-> & -> & _). apply W6.
    + intros i. destruct (He i) as (-> & -> & ->). rewrite Hspan. apply W7.
    + rewrite W8. assert (Hcount : forall l, count (fun e => valid e = true) l = count (fun x => x.1.2 = true) (core <$> l)).
      { induction l as [|e l IH]; [done|]. csimpl. by rewrite !count_cons, IH. }
      by rewrite !Hcount, Hes.
  - split; [done|]. intros a _. unfold cached_content. cbn [fst snd]. rewrite Hix.
    by destruct (index_by_block c !! a).
Qed.

Lemma alike_stats f c : alike c (on_stats f c).
Proof. by split. Qed.
Lemma alike_touch i c : alike c (touch i c).
Proof.
  split; try done. unfold touch. simpl. destruct (decide (Z.to_nat i < length (entries c))%nat) as [Hi|Hi].
  - rewrite list_fmap_insert. apply list_insert_id. rewrite list_lookup_fmap.
    unfold entry_at. destruct (entries c !! Z.to_nat i) as [e|] eqn:E; [|apply lookup_ge_None in E; lia].
    by rewrite (nth_lookup_Some _ _ _ _ E).
  - by rewrite list_insert_ge by lia.
Qed.

(** ** Spans *)

Lemma span_bounds s o i : bc_wf o s -> 0 <= i < capacity s.1 ->
  block_offset s.2 i = i * bs_block_size s.2 /\ 0 <= block_offset s.2 i /\
  block_offset s.2 i + bs_block_size s.2 <= lenZ (block_storage s.1).
Proof.
  intros Hwf Hi. destruct (bs_geometry s.2 (bw_device _ _ Hwf)) as [Hb _]. rewrite (bw_storage _ _ Hwf).
  pose proof (bw_size _ _ Hwf). unfold block_offset, mul64. rewrite wrap64_small by (split; nia).
  split; [done|]. split; nia.
Qed.
Lemma span_length s o i : bc_wf o s -> 0 <= i < capacity s.1 -> lenZ (block_span i s) = bs_block_size s.2.
Proof.
  intros Hwf Hi. destruct (span_bounds s o i Hwf Hi) as (_ & Hlo & Hle).
  destruct (bs_geometry s.2 (bw_device _ _ Hwf)) as [Hb _]. apply slice_length; [done|lia|done].
Qed.
Lemma cached_content_length s a : bc_wf None s -> 0 <= a < bs_block_count s.2 ->
  lenZ (cached_content s a) = bs_block_size s.2.
Proof.
  intros Hwf Ha. unfold cached_content. destruct (index_by_block s.1 !! a) as [i|] eqn:E.
  - apply (bw_index _ _ Hwf) in E as [Hi _]. by apply (span_length s None).
  - apply bs_content_length; [apply (bw_device _ _ Hwf)|done].
Qed.

(** ** Writing back *)

(** The effect of a write-back of entry [i]: its dirty bit is cleared and the device holds what the
    cache held. *)
Record flushed i s s' : Prop := {
  fl_storage : block_storage s'.1 = block_storage s.1;
  fl_index : index_by_block s'.1 = index_by_block s.1;
  fl_count : valid_count s'.1 = valid_count s.1;
  fl_capacity : capacity s'.1 = capacity s.1;
  fl_entry j : 0 <= j -> entry_at s'.1 j =
    if decide (j = i) then let e := entry_at s.1 i in mkEntry (address e) (last_used_tick e) (valid e)
      (negb (valid e) && dirty e)
    else entry_at s.1 j;
}.

Lemma flush_entry_spec s i : bc_wf None s -> 0 <= i < capacity s.1 ->
  exists s', flush_entry i s = (s', Ok tt) /\ bc_wf None s' /\ same_content s s' /\ flushed i s s' /\
  forall a, 0 <= a < bs_block_count s.2 -> a <> address (entry_at s.1 i) ->
    bs_content s'.2 a = bs_content s.2 a.
Proof.
  intros Hwf Hi. unfold flush_entry. munfold_goal. set (e := entry_at s.1 i).
  destruct (valid e) eqn:Hv; cbn [negb orb].
  2:{ exists s. split; [done|]. split; [done|]. split; [apply same_content_refl|]. split; [|done].
      split; try done. intros j Hj. case_decide; [subst j|done]. fold e. cbn zeta. rewrite Hv. simpl.
      by destruct e; simpl in Hv |- *; subst. }
  destruct (dirty e) eqn:Hd; cbn [negb orb].
  2:{ exists s. split; [done|]. split; [done|]. split; [apply same_content_refl|]. split; [|done].
      split; try done. intros j Hj. case_decide; [subst j|done]. fold e. cbn zeta. rewrite Hv, Hd. simpl.
      by destruct e; simpl in Hv, Hd |- *; subst. }
  pose proof (bw_indexed _ _ Hwf i Hi Hv) as Hix. fold e in Hix.
  pose proof (bw_index _ _ Hwf _ _ Hix) as (_ & _ & _ & Ha).
  pose proof (bs_write_spec s.2 (address e) (block_span i s) (bw_device _ _ Hwf) ltac:(lia)) as Hw.
  rewrite (span_length s None i Hwf Hi) in Hw. unfold block_access_error in Hw.
  rewrite Z.eqb_refl, (proj2 (Z.ltb_lt _ _)) in Hw by lia. cbn [negb] in Hw.
  destruct Hw as (d1 & Hw & Hok1 & [Hg1 Hg2] & Hc1). destruct s as [c d]. cbn [fst snd] in *.
  unfold on_device, on_cache. munfold_goal. cbn [fst snd]. rewrite Hw. cbn [fst snd].
  set (e1 := mkEntry (address e) (last_used_tick e) true false).
  set (c1 := on_stats record_device_writeback (put_entry i e1 c)).
  assert (He1 : forall j, 0 <= j -> entry_at c1 j = if decide (j = i) then e1 else entry_at c j).
  { intros j Hj. change (entry_at c1 j) with (entry_at (put_entry i e1 c) j). by apply entry_at_put. }
  assert (Hcap : capacity c1 = capacity c) by (apply capacity_put).
  assert (Hspan : forall j, block_span j (c1, d1) = block_span j (c, d)).
  { intros j. unfold block_span, block_offset. cbn [fst snd]. by rewrite Hg1. }
  exists (c1, d1). split; [done|]. split; [|split; [|split]].
  - destruct Hwf as [W1 W2 W3 W4 W5 W6 W7 W8]; cbn [fst snd] in *.
    split; cbn [fst snd]; rewrite ?Hcap, ?Hg1, ?Hg2; try done.
    + intros a j Hj. apply W5 in Hj. rewrite He1 by lia. case_decide; [subst j|done]. unfold e1. simpl. fold e in Hj.
      by destruct Hj as (? & _ & ?).
    + intros j Hj. rewrite He1 by lia. case_decide; [subst j; intros _|by apply W6]. by apply W6.
    + intros j Hj _. rewrite He1, Hspan by lia. case_decide as Hji.
      * subst j. intros _ _. simpl. rewrite Hc1 by done. by rewrite decide_True.
      * intros Hvj Hdj. rewrite (W7 j) by done. pose proof (W6 j Hj Hvj) as Hxj.
        pose proof (W5 _ _ Hxj) as (_ & _ & _ & Haj). rewrite Hc1 by done. rewrite decide_False; [done|].
        intros Heq. rewrite Heq in Hxj. congruence.
    + change (valid_count c1) with (valid_count c). change (entries c1) with (entries (put_entry i e1 c)).
      rewrite count_put by done. fold e. rewrite Hv. unfold e1. simpl. rewrite W8. lia.
  - split; [done|]. intros a Haa. unfold cached_content. cbn [fst snd].
    change (index_by_block c1) with (index_by_block c). destruct (index_by_block c !! a) as [j|] eqn:Ej; [apply Hspan|].
    cbn [snd] in Haa. rewrite Hc1 by done. rewrite decide_False; [done|]. intros ->. congruence.
  - split; try done. intros j Hj. cbn [fst]. rewrite He1 by done. case_decide; [|done]. fold e. unfold e1.
    cbn zeta. by rewrite Hv, Hd.
  - intros a Haa Hne. cbn [fst snd] in *. fold e in Hne. rewrite Hc1 by done. by rewrite decide_False.
Qed.

(** ** Replacement *)

Lemma first_invalid_spec es : forall k, match first_invalid es k with
  | Some i => k <= i < k + lenZ es /\ exists e, es !! Z.to_nat (i - k) = Some e /\ valid e = false
  | None => forall e, e ∈ es -> valid e = true
  end.
Proof.
  induction es as [|e es IH]; intros k; [intros e He; by apply elem_of_nil in He|]. cbn [first_invalid].
  destruct (valid e) eqn:Hv; cbn [negb].
  - specialize (IH (k + 1)). destruct (first_invalid es (k + 1)) as [i|].
    + destruct IH as [Hi (x & Hx & Hxv)]. unfold lenZ in *. simpl length. split; [lia|]. exists x. split; [|done].
      replace (Z.to_nat (i - k)) with (S (Z.to_nat (i - (k + 1)))) by lia. done.
    + intros x Hx. apply elem_of_cons in Hx as [->|Hx]; [done|]. by apply IH.
  - unfold lenZ. simpl length. split; [lia|]. exists e. by rewrite Z.sub_diag.
Qed.

(** The second loop finds the lowest index among the entries used least recently. *)
Lemma least_recent_spec c (n : nat) : let victim := foldl (fun victim i =>
    if last_used_tick (entry_at c i) <? last_used_tick (entry_at c victim) then i else victim)
    0 (seqZ 1 (Z.of_nat n)) in
  0 <= victim <= Z.of_nat n /\
  (forall i, 0 <= i <= Z.of_nat n -> last_used_tick (entry_at c victim) <= last_used_tick (entry_at c i)) /\
  (forall i, 0 <= i < victim -> last_used_tick (entry_at c victim) < last_used_tick (entry_at c i)).
Proof.
  induction n as [|n IH].
  { change (seqZ 1 (Z.of_nat 0)) with (@nil Z). cbn zeta. cbn [foldl]. split; [lia|].
    split; intros i Hi; [|lia]. by replace i with 0 by lia. }
  replace (Z.of_nat (S n)) with (Z.of_nat n + 1) by lia. rewrite seqZ_app, foldl_app by lia.
  cbn zeta in *. set (v := foldl _ 0 (seqZ 1 (Z.of_nat n))) in *. destruct IH as (Hv & Hle & Hlt).
  replace (1 + Z.of_nat n) with (Z.of_nat n + 1) by lia. 
  replace (seqZ (Z.of_nat n + 1) 1) with [Z.of_nat n + 1] by (unfold seqZ; simpl; f_equal; lia). cbn [foldl].
  destruct (Z.ltb_spec (last_used_tick (entry_at c (Z.of_nat n + 1))) (last_used_tick (entry_at c v))) as [Hnew|Hold].
  - split; [lia|]. split; intros i Hi.
    + destruct (decide (i = Z.of_nat n + 1)) as [->|]; [lia|]. specialize (Hle i ltac:(lia)). lia.
    + specialize (Hle i ltac:(lia)). lia.
  - split; [lia|]. split; [|done]. intros i Hi.
    destruct (decide (i = Z.of_nat n + 1)) as [->|]; [lia|]. apply Hle. lia.
Qed.

(** The victim is the first unused entry, or the least recently used one when all are in use. *)
Lemma victim_index_spec c : 0 < capacity c -> 0 <= victim_index c < capacity c /\
  (valid (entry_at c (victim_index c)) = true -> forall i, 0 <= i < capacity c ->
     valid (entry_at c i) = true /\
     last_used_tick (entry_at c (victim_index c)) <= last_used_tick (entry_at c i)).
Proof.
  intros Hc. unfold victim_index. pose proof (first_invalid_spec (entries c) 0) as Hf.
  destruct (first_invalid (entries c) 0) as [i|].
  - destruct Hf as (Hi & e & He & Hv). fold (capacity c) in Hi. split; [lia|]. intros Hval.
    rewrite Z.sub_0_r in He. rewrite entry_lookup in He by lia. injection He as <-. congruence.
  - destruct (least_recent_spec c (Z.to_nat (capacity c - 1))) as (Hv & Hle & _).
    rewrite Z2Nat.id in Hv, Hle by lia. fold (capacity c). split; [lia|]. intros _ i Hi. split.
    + apply Hf. eapply list_elem_of_lookup_2. by apply entry_lookup.
    + apply Hle. lia.
Qed.

(** ** Allocation *)

(** Eviction writes a dirty victim back and drops it from the index; the entry itself is left valid
    for [allocate_entry] to overwrite. *)
Lemma evict_spec s i : bc_wf None s -> 0 <= i < capacity s.1 ->
  exists c1 d1, evict_if_needed i s =
    ((if valid (entry_at s.1 i) then set_index (delete (address (entry_at s.1 i)) (index_by_block c1)) c1 else c1, d1),
     Ok tt) /\
  bc_wf None (c1, d1) /\ same_content s (c1, d1) /\ capacity c1 = capacity s.1 /\
  index_by_block c1 = index_by_block s.1 /\
  valid (entry_at c1 i) = valid (entry_at s.1 i) /\ address (entry_at c1 i) = address (entry_at s.1 i) /\
  (valid (entry_at c1 i) = true -> dirty (entry_at c1 i) = false).
Proof.
  intros Hwf Hi. unfold evict_if_needed, on_cache. munfold_goal. set (e := entry_at s.1 i).
  destruct (valid e) eqn:Hv; cbn [negb].
  2:{ exists s.1, s.2. destruct s as [c d]. split; [done|]. split; [done|]. split; [apply same_content_refl|].
      split; [done|]. split; [done|]. split; [done|]. split; [done|]. cbn [fst] in *. fold e. congruence. }
  destruct (dirty e) eqn:Hd.
  - destruct s as [c d]. cbn [fst] in *.
    set (c0 := on_stats record_dirty_eviction c).
    destruct (alike_wf None c c0 d (alike_stats _ c) Hwf) as [Hwf0 Hsame0].
    destruct (flush_entry_spec (c0, d) i Hwf0 Hi) as ([c1 d1] & Hf & Hwf1 & Hsame1 & Hfl & _). rewrite Hf.
    exists c1, d1. split; [done|]. split; [done|].
    split; [by apply (same_content_trans (c, d) (c0, d))|].
    split; [apply (fl_capacity _ _ _ Hfl)|]. split; [apply (fl_index _ _ _ Hfl)|].
    pose proof (fl_entry _ _ _ Hfl i ltac:(lia)) as He. cbn [fst] in He. rewrite decide_True in He by done.
    cbn zeta in He. change (entry_at c0 i) with e in He. rewrite He. cbn. by rewrite Hv, Hd.
  - exists s.1, s.2. destruct s as [c d]. split; [done|]. split; [done|]. split; [apply same_content_refl|].
    split; [done|]. split; [done|]. cbn [fst] in *. by fold e; rewrite Hv.
Qed.

(** The final steps of [allocate_entry]: entry [i], free of unsaved data, now stands for block [a]. *)
Lemma install_entry_spec c d a i t : bc_wf None (c, d) -> 0 <= i < capacity c -> 0 <= a < bs_block_count d ->
  index_by_block c !! a = None -> (valid (entry_at c i) = true -> dirty (entry_at c i) = false) ->
  let e := entry_at c i in
  let index := if valid e then delete (address e) (index_by_block c) else index_by_block c in
  let n := if valid e then valid_count c else add64 (valid_count c) 1 in
  let c' := mkBufferCache (<[Z.to_nat i := mkEntry a t true false]> (entries c)) (block_storage c)
    (<[a := i]> index) (stats c) (access_tick c) n in
  bc_wf (Some i) (c', d) /\
  forall a', 0 <= a' < bs_block_count d -> a' <> a -> cached_content (c', d) a' = cached_content (c, d) a'.
Proof.
  intros Hwf Hi Ha Hnone Hclean e index n c'.
  pose proof Hwf as [W1 W2 W3 W4 W5 W6 W7 W8]; cbn [fst snd] in *.
  assert (He : forall j, 0 <= j -> entry_at c' j = if decide (j = i) then mkEntry a t true false else entry_at c j).
  { intros j Hj. exact (entry_at_put c i _ j Hi Hj). }
  assert (Hcap : capacity c' = capacity c) by (exact (capacity_put c i _)).
  assert (Hindex : forall a' j, index !! a' = Some j <-> index_by_block c !! a' = Some j /\ j <> i).
  { intros a' j. unfold index. destruct (valid e) eqn:Hv.
    - rewrite lookup_delete_Some. pose proof (W6 i Hi Hv) as Hx. fold e in Hx. split.
      + intros [Hne Hl]. split; [done|]. intros ->. apply W5 in Hl as (_ & _ & Hl & _). by fold e in Hl.
      + intros [Hl Hne]. split; [|done]. intros <-. congruence.
    - split; [|by intros []]. intros Hl. split; [done|]. intros ->. apply W5 in Hl as (_ & Hl & _).
      fold e in Hl. congruence. }
  split.
  - split; cbn [fst snd]; rewrite ?Hcap; try done.
    + intros a' j. cbn [index_by_block c']. rewrite lookup_insert_Some. intros [[<- <-]|[Hne Hl]].
      * rewrite He, decide_True by lia. done.
      * apply Hindex in Hl as [Hl Hji]. apply W5 in Hl. rewrite He, decide_False by lia. done.
    + intros j Hj. rewrite He by lia. case_decide as Hji; [subst j; intros _; apply lookup_insert_eq|].
      intros Hv. apply W6 in Hv; [|done]. cbn [index_by_block c']. rewrite lookup_insert_ne; [by apply Hindex|].
      intros Heq. rewrite <- Heq in Hv. congruence.
    + intros j Hj Hne. rewrite He by lia. rewrite decide_False by congruence. by apply W7.
    + assert (Hcount := count_put c i (mkEntry a t true false) Hi). cbn [valid] in Hcount.
      change (entries c') with (entries (put_entry i (mkEntry a t true false) c)). rewrite Hcount.
      cbn [valid_count c']. unfold n. fold e. rewrite <- W8.
      destruct (valid e) eqn:Hv; [lia|]. pose proof (count_bound (fun e => valid e = true)
        (entries (put_entry i (mkEntry a t true false) c))) as Hb. rewrite Hcount in Hb. fold e in Hb.
      rewrite Hv, <- W8 in Hb. fold (capacity (put_entry i (mkEntry a t true false) c)) in Hb.
      rewrite capacity_put in Hb. destruct (bs_geometry d W1) as [Hbs _].
      pose proof (count_bound (fun e => valid e = true) (entries c)) as Hb0. rewrite <- W8 in Hb0.
      rewrite add64_small; nia.
  - intros a' Ha' Hne. unfold cached_content. cbn [fst snd index_by_block c']. rewrite lookup_insert_ne by done.
    destruct (index_by_block c !! a') as [j|] eqn:Ej.
    + destruct (decide (j = i)) as [->|Hji].
      * destruct (index !! a') as [j|] eqn:E; [apply Hindex in E as [E Hn]; congruence|].
        destruct (W5 _ _ Ej) as (_ & Hv & <- & _). symmetry. apply W7; auto.
      * by rewrite (proj2 (Hindex a' j)).
    + destruct (index !! a') as [j|] eqn:E; [apply Hindex in E as [E Hn]; congruence|done].
Qed.

Lemma allocate_entry_spec s a : bc_wf None s -> 0 <= a < bs_block_count s.2 -> index_by_block s.1 !! a = None ->
  let i := victim_index s.1 in
  let e := entry_at s.1 i in
  exists s', allocate_entry a s = (s', Ok i) /\ bc_wf (Some i) s' /\ 0 <= i < capacity s'.1 /\
  capacity s'.1 = capacity s.1 /\ same_geometry s.2 s'.2 /\
  index_by_block s'.1 =
    <[a := i]> (if valid e then delete (address e) (index_by_block s.1) else index_by_block s.1) /\
  bs_content s'.2 a = cached_content s a /\
  forall a', 0 <= a' < bs_block_count s.2 -> a' <> a -> cached_content s' a' = cached_content s a'.
Proof.
  intros Hwf Ha Hnone i e. destruct (victim_index_spec s.1 (bw_capacity _ _ Hwf)) as [Hi _]. fold i in Hi.
  destruct (evict_spec s i Hwf Hi) as (c1 & d1 & Hev & Hwf1 & [Hg Hsame] & Hcap & Hix & Hv & Had & Hclean).
  cbn [snd] in Hg. destruct (install_entry_spec c1 d1 a i (last_used_tick (entry_at c1 i)) Hwf1) as [Hwf2 Hc2];
    [by rewrite Hcap|by rewrite (proj2 Hg)|by rewrite Hix|done|]. cbn zeta in Hwf2, Hc2.
  rewrite Hv, Had, Hix in Hwf2, Hc2. fold e in Hwf2, Hc2, Hv. set (c' := mkBufferCache _ _ _ _ _ _) in *.
  exists (c', d1). split; [|split; [done|split; [|split; [|split; [done|split; [done|split]]]]]].
  - unfold allocate_entry, on_cache. munfold_goal. fold i. rewrite Hev. fold e. unfold c'.
    destruct (valid e) eqn:Hve.
    + change (entry_at (set_index _ c1) i) with (entry_at c1 i). rewrite Hv. cbn [negb].
      unfold set_index, put_entry, set_entries; cbn. by rewrite Hix.
    + rewrite Hv. cbn [negb]. unfold set_index, put_entry, set_entries, set_valid_count; cbn. by rewrite Hix.
  - cbn [fst]. assert (Hcap' : capacity c' = capacity c1) by exact (capacity_put c1 i _). lia.
  - cbn [fst]. etransitivity; [exact (capacity_put c1 i _)|exact Hcap].
  - cbn [snd]. rewrite <- (Hsame a Ha). unfold cached_content. cbn [fst snd]. by rewrite Hix, Hnone.
  - intros a' Ha' Hne. rewrite Hc2 by (rewrite ?(proj2 Hg); done). by apply Hsame.
Qed.

(** ** Filling an entry *)

Lemma wf_weaken i s : bc_wf None s -> bc_wf (Some i) s.
Proof. intros []. split; try done. intros j Hj _. by apply bw_clean0. Qed.
Lemma wf_settle i s : bc_wf (Some i) s ->
  (dirty (entry_at s.1 i) = false -> block_span i s = bs_content s.2 (address (entry_at s.1 i))) -> bc_wf None s.
Proof.
  intros [] Hset. split; try done. intros j Hj _ Hv Hd. destruct (decide (j = i)) as [->|]; [by apply Hset|].
  apply bw_clean0; congruence.
Qed.

Lemma fill_span_spec i a src s : bc_wf (Some i) s -> index_by_block s.1 !! a = Some i ->
  lenZ src = bs_block_size s.2 ->
  let s' := (set_storage (splice (block_offset s.2 i) src (block_storage s.1)) s.1, s.2) in
  fill_span i src s = (s', Ok tt) /\ bc_wf (Some i) s' /\ block_span i s' = src /\
  forall a', cached_content s' a' = if decide (a' = a) then src else cached_content s a'.
Proof.
  intros Hwf Hix Hlen s'. pose proof (bw_index _ _ Hwf a i Hix) as (Hi & Hv & Ha & Har).
  destruct (span_bounds s _ i Hwf Hi) as (Hoff & Hlo & Hle).
  destruct (bs_geometry s.2 (bw_device _ _ Hwf)) as [Hb _].
  assert (Hspan : forall j, 0 <= j < capacity s.1 -> block_span j s' = if decide (j = i) then src else block_span j s).
  { intros j Hj. destruct (span_bounds s _ j Hwf Hj) as (Hoffj & Hloj & Hlej).
    unfold block_span, s'. cbn [fst snd block_storage set_storage]. case_decide as Hd.
    - subst j. rewrite <- Hlen. apply slice_splice_same; [done|by rewrite Hlen].
    - apply slice_splice_disjoint; rewrite ?Hlen; try done; [lia|].
      rewrite Hoff, Hoffj. destruct (Z_lt_dec j i); [left|right]; nia. }
  split; [by destruct s|]. split; [|split].
  - destruct Hwf. split; try done.
    + unfold s'. cbn [fst snd block_storage set_storage]. rewrite splice_length; rewrite ?Hlen; done.
    + intros j Hj Hne. rewrite Hspan by done. rewrite decide_False by congruence. by apply bw_clean0.
  - rewrite Hspan by done. by rewrite decide_True.
  - intros a'. unfold cached_content. cbn [fst snd index_by_block set_storage s'].
    destruct (index_by_block s.1 !! a') as [j|] eqn:Ej.
    + pose proof (bw_index _ _ Hwf _ _ Ej) as (Hj & _ & Haj & _). fold s'. rewrite Hspan by done.
      destruct (decide (j = i)) as [->|].
      * rewrite decide_True; [done|congruence].
      * rewrite decide_False; [done|]. intros ->. congruence.
    + rewrite decide_False; [done|]. congruence.
Qed.

Definition mark_dirty (i : Z) c : BufferCache :=
  let e := entry_at c i in put_entry i (mkEntry (address e) (last_used_tick e) (valid e) true) c.
Lemma mark_dirty_spec i s : bc_wf (Some i) s -> 0 <= i < capacity s.1 ->
  bc_wf None (mark_dirty i s.1, s.2) /\ forall a, cached_content (mark_dirty i s.1, s.2) a = cached_content s a.
Proof.
  intros Hwf Hi. destruct s as [c d]. cbn [fst snd] in *. set (c' := mark_dirty i c).
  assert (He : forall j, 0 <= j -> address (entry_at c' j) = address (entry_at c j) /\
    valid (entry_at c' j) = valid (entry_at c j) /\
    dirty (entry_at c' j) = if decide (j = i) then true else dirty (entry_at c j)).
  { intros j Hj. unfold c', mark_dirty. rewrite entry_at_put by done. by case_decide; [subst j|]. }
  assert (Hcap : capacity c' = capacity c) by (exact (capacity_put c i _)).
  split; [|done]. destruct Hwf as [W1 W2 W3 W4 W5 W6 W7 W8]; cbn [fst snd] in *.
  split; cbn [fst snd]; rewrite ?Hcap; try done.
  - intros a j Hj. apply W5 in Hj. destruct (He j) as (-> & -> & _); [lia|done].
  - intros j Hj. destruct (He j) as (-> & -> & _); [lia|]. by apply W6.
  - intros j Hj _. destruct (He j) as (-> & -> & ->); [lia|]. case_decide; [done|]. apply W7; [done|congruence].
  - change (valid_count c') with (valid_count c). unfold c', mark_dirty. rewrite count_put by done. cbn [valid]. lia.
Qed.

(** ** Lookup with allocation *)

(** A hit counts, touches the entry and returns it. *)
Lemma hit_spec c d a i : bc_wf None (c, d) -> index_by_block c !! a = Some i ->
  let c' := touch i (on_stats record_hit c) in
  bc_wf None (c', d) /\ same_content (c, d) (c', d) /\ index_by_block c' !! a = Some i.
Proof.
  intros Hwf Hix c'. destruct (alike_wf None c (on_stats record_hit c) d (alike_stats _ c) Hwf) as [Hwf1 Hs1].
  destruct (alike_wf None _ c' d (alike_touch i _) Hwf1) as [Hwf2 Hs2].
  split; [done|]. split; [by apply (same_content_trans _ (on_stats record_hit c, d))|done].
Qed.

(** A device that was only read. *)
Lemma device_read_wf o c d d' : bc_wf o (c, d) -> bs_ok d' -> same_geometry d d' ->
  (forall a, 0 <= a < bs_block_count d -> bs_content d' a = bs_content d a) ->
  bc_wf o (c, d') /\ same_content (c, d) (c, d').
Proof.
  intros Hwf Hok [Hb Hn] Hc. assert (Hspan : forall i, block_span i (c, d') = block_span i (c, d)).
  { intros i. unfold block_span, block_offset. cbn [fst snd]. by rewrite Hb. }
  split.
  - destruct Hwf as [W1 W2 W3 W4 W5 W6 W7 W8]; cbn [fst snd] in *. split; cbn [fst snd]; rewrite ?Hb, ?Hn; try done.
    intros i Hi Ho Hv Hd. rewrite Hspan, W7 by done. symmetry. apply Hc. by apply (W5 _ i), W6.
  - split; [done|]. intros a Ha. unfold cached_content. cbn [fst snd] in *.
    destruct (index_by_block c !! a); [apply Hspan|by apply Hc].
Qed.

Lemma find_for_read_spec s a : bc_wf None s -> 0 <= a < bs_block_count s.2 ->
  exists s' i, find_or_allocate_for_read a s = (s', Ok i) /\ bc_wf None s' /\ same_content s s' /\
  index_by_block s'.1 !! a = Some i /\
  index_by_block s'.1 = match index_by_block s.1 !! a with
    | Some _ => index_by_block s.1
    | None => let e := entry_at s.1 (victim_index s.1) in
        <[a := victim_index s.1]> (if valid e then delete (address e) (index_by_block s.1) else index_by_block s.1)
    end.
Proof.
  intros Hwf Ha. unfold find_or_allocate_for_read, on_cache, on_device. munfold_goal. destruct s as [c d]. cbn [fst snd] in *.
  destruct (index_by_block c !! a) as [i|] eqn:Hix.
  { destruct (hit_spec c d a i Hwf Hix) as (Hwf' & Hs & Hix'). by eexists _, i. }
  set (c0 := on_stats record_miss c). destruct (alike_wf None c c0 d (alike_stats _ c) Hwf) as [Hwf0 Hs0].
  destruct (allocate_entry_spec (c0, d) a Hwf0 Ha Hix) as ([c1 d1] & Hal & Hwf1 & Hi & _ & Hg & Hix1 & Hca & Hco).
  rewrite Hal. cbn [fst snd] in *. set (i := victim_index c0) in *.
  assert (Hia : index_by_block c1 !! a = Some i) by (rewrite Hix1; apply lookup_insert_eq).
  pose proof (bs_read_spec d1 a (bs_block_size d1) (bw_device _ _ Hwf1) ltac:(lia)) as Hr.
  unfold block_access_error in Hr. rewrite Z.eqb_refl, (proj2 (Z.ltb_lt _ _)) in Hr by (rewrite (proj2 Hg); lia).
  cbn [negb snd] in Hr. destruct Hr as (d2 & Hr & Hok2 & Hg2 & Hc2). rewrite Hr. cbn [fst snd].
  destruct (device_read_wf _ c1 d1 d2 Hwf1 Hok2 Hg2 Hc2) as [Hwf2 [_ Hs2]].
  assert (Ha1 : 0 <= a < bs_block_count d1) by (by rewrite (proj2 Hg)).
  destruct (fill_span_spec i a (bs_content d1 a) (c1, d2) Hwf2 Hia) as (Hfill & Hwf3 & Hspan & Hcont).
  { cbn [snd]. rewrite (proj1 Hg2). by apply bs_content_length; [apply (bw_device _ _ Hwf1)|]. }
  rewrite Hfill. cbn [fst snd] in *. set (c3 := set_storage _ c1) in *.
  assert (Hwf4 : bc_wf None (c3, d2)).
  { apply (wf_settle i); [done|]. intros _. cbn [fst snd]. rewrite Hspan.
    destruct (bw_index _ _ Hwf3 a i Hia) as (_ & _ & Had & _). cbn [fst] in Had. rewrite Had. symmetry. by apply Hc2. }
  set (c4 := touch i (on_stats record_device_read c3)).
  destruct (alike_wf None c3 (on_stats record_device_read c3) d2 (alike_stats _ c3) Hwf4) as [Hwf5 Hs5].
  destruct (alike_wf None _ c4 d2 (alike_touch i _) Hwf5) as [Hwf6 Hs6].
  exists (c4, d2), i. split; [done|]. split; [done|]. split; [|by split].
  apply (same_content_trans _ (c3, d2)); [|by eapply same_content_trans].
  split; [destruct Hg, Hg2; split; cbn [snd]; congruence|]. intros a' Ha'. rewrite Hcont. cbn [snd] in Ha'.
  case_decide as Hd; [subst a'; rewrite Hca; apply Hs0; done|].
  rewrite Hs2 by (cbn [snd]; rewrite (proj2 Hg); done). rewrite Hco by done. by apply Hs0.
Qed.

Lemma find_for_write_spec s a : bc_wf None s -> 0 <= a < bs_block_count s.2 ->
  exists s' i, find_or_allocate_for_write a s = (s', Ok i) /\ bc_wf (Some i) s' /\ same_geometry s.2 s'.2 /\
  index_by_block s'.1 !! a = Some i /\
  forall a', 0 <= a' < bs_block_count s.2 -> a' <> a -> cached_content s' a' = cached_content s a'.
Proof.
  intros Hwf Ha. unfold find_or_allocate_for_write, on_cache. munfold_goal. destruct s as [c d]. cbn [fst snd] in *.
  destruct (index_by_block c !! a) as [i|] eqn:Hix.
  { destruct (hit_spec c d a i Hwf Hix) as (Hwf' & [Hg Hs] & Hix'). eexists _, i. split; [done|].
    split; [by apply wf_weaken|]. split; [done|]. split; [done|]. intros a' Ha' _. by apply Hs. }
  set (c0 := on_stats record_miss c). destruct (alike_wf None c c0 d (alike_stats _ c) Hwf) as [Hwf0 Hs0].
  destruct (allocate_entry_spec (c0, d) a Hwf0 Ha Hix) as ([c1 d1] & Hal & Hwf1 & Hi & _ & Hg & Hix1 & _ & Hco).
  rewrite Hal. cbn [fst snd] in *. set (i := victim_index c0) in *.
  destruct (alike_wf (Some i) c1 (touch i c1) d1 (alike_touch i _) Hwf1) as [Hwf2 [_ Hs2]].
  exists (touch i c1, d1), i. split; [done|]. split; [done|]. split; [done|].
  split; [change (index_by_block c1 !! a = Some i); rewrite Hix1; apply lookup_insert_eq|].
  intros a' Ha' Hne. rewrite Hs2 by (cbn [snd]; rewrite (proj2 Hg); done). rewrite Hco by done. by apply Hs0.
Qed.

(** ** The operations *)

Lemma read_block_spec s a n : bc_wf None s -> 0 <= a ->
  match block_access_error (bs_block_size s.2) (bs_block_count s.2) a n with
  | Some e => read_block a n s = (s, Throw e)
  | None => exists s', read_block a n s = (s', Ok (cached_content s a)) /\ bc_wf None s' /\ same_content s s'
  end.
Proof.
  intros Hwf Ha. unfold read_block, validate_block_span, validate_device_address, block_access_error. munfold_goal.
  destruct (Z.eqb_spec n (bs_block_size s.2)); cbn [negb]; [|done].
  destruct (Z.ltb_spec a (bs_block_count s.2)) as [Hlt|]; cbn [negb]; [|done].
  destruct (find_for_read_spec s a Hwf ltac:(lia)) as (s' & i & -> & Hwf' & Hs & Hix & _).
  exists s'. split; [|done]. do 2 f_equal. rewrite <- (proj2 Hs) by lia. unfold cached_content. by rewrite Hix.
Qed.

Lemma write_block_spec s a src : bc_wf None s -> 0 <= a ->
  match block_access_error (bs_block_size s.2) (bs_block_count s.2) a (lenZ src) with
  | Some e => write_block a src s = (s, Throw e)
  | None => exists s', write_block a src s = (s', Ok tt) /\ bc_wf None s' /\ same_geometry s.2 s'.2 /\
      forall a', 0 <= a' < bs_block_count s.2 ->
        cached_content s' a' = if decide (a' = a) then src else cached_content s a'
  end.
Proof.
  intros Hwf Ha. unfold write_block, validate_block_span, validate_device_address, block_access_error, on_cache. munfold_goal.
  destruct (Z.eqb_spec (lenZ src) (bs_block_size s.2)) as [Hlen|]; cbn [negb]; [|done].
  destruct (Z.ltb_spec a (bs_block_count s.2)) as [Hlt|]; cbn [negb]; [|done].
  destruct s as [c d]. cbn [fst snd] in *. set (c0 := on_stats record_write c).
  destruct (alike_wf None c c0 d (alike_stats _ c) Hwf) as [Hwf0 [_ Hs0]].
  destruct (find_for_write_spec (c0, d) a Hwf0) as ([c1 d1] & i & -> & Hwf1 & Hg & Hix & Hc1); [cbn [snd]; lia|].
  destruct (fill_span_spec i a src (c1, d1) Hwf1 Hix) as (-> & Hwf2 & _ & Hc2); [by rewrite Hlen, (proj1 Hg)|].
  cbn [fst snd] in *. set (c2 := set_storage _ c1) in *. pose proof (bw_index _ _ Hwf1 _ _ Hix) as [Hi _].
  destruct (mark_dirty_spec i (c2, d1) Hwf2 Hi) as [Hwf3 Hc3].
  exists (mark_dirty i c2, d1). split; [done|]. split; [done|]. split; [done|]. intros a' Ha'.
  rewrite Hc3, Hc2. case_decide; [done|]. rewrite Hc1 by done. by apply Hs0.
Qed.

(** ** Write-back of the whole cache *)

Definition is_clean (e : Entry) : Prop := valid e && dirty e = false.

Lemma flush_loop (k : nat) s : bc_wf None s -> Z.of_nat k <= capacity s.1 ->
  exists s', for_each (seqZ 0 (Z.of_nat k)) flush_entry s = (s', Ok tt) /\ bc_wf None s' /\ same_content s s' /\
  capacity s'.1 = capacity s.1 /\ index_by_block s'.1 = index_by_block s.1 /\
  forall j, 0 <= j < Z.of_nat k -> is_clean (entry_at s'.1 j).
Proof.
  intros Hwf. assert (Hgen : forall m t, bc_wf None t -> capacity t.1 = capacity s.1 ->
    (forall j, 0 <= j < m -> is_clean (entry_at t.1 j)) -> forall n, 0 <= m -> m + Z.of_nat n <= capacity s.1 ->
    exists t', for_each (seqZ m (Z.of_nat n)) flush_entry t = (t', Ok tt) /\ bc_wf None t' /\ same_content t t' /\
      capacity t'.1 = capacity s.1 /\ index_by_block t'.1 = index_by_block t.1 /\
      forall j, 0 <= j < m + Z.of_nat n -> is_clean (entry_at t'.1 j)).
  { intros m t Ht Hcap Hcl n. revert m t Ht Hcap Hcl. induction n as [|n IH]; intros m t Ht Hcap Hcl Hm Hmn.
    { exists t. split; [done|]. split; [done|]. split; [apply same_content_refl|]. split; [done|]. split; [done|].
      intros j Hj. apply Hcl. lia. }
    rewrite seqZ_cons by lia. simpl for_each. munfold_goal.
    destruct (flush_entry_spec t m Ht ltac:(lia)) as (t1 & -> & Ht1 & Hs1 & Hfl & _).
    destruct (IH (m + 1) t1) as (t2 & Hr & Ht2 & Hs2 & Hc2 & Hi2 & Hcl2); [done| | |lia|lia|].
    { by rewrite (fl_capacity _ _ _ Hfl). }
    { intros j Hj. rewrite (fl_entry _ _ _ Hfl) by lia. case_decide; [|apply Hcl; lia]. cbn zeta. unfold is_clean. simpl.
      by destruct (valid (entry_at t.1 m)). }
    exists t2. replace (Z.succ m) with (m + 1) by lia. replace (Z.pred (Z.of_nat (S n))) with (Z.of_nat n) by lia.
    split; [done|]. split; [done|]. split; [by eapply same_content_trans|]. split; [done|].
    split; [by rewrite Hi2, (fl_index _ _ _ Hfl)|]. intros j Hj. apply Hcl2. lia. }
  intros Hk. apply (Hgen 0 s); [done|done|lia|lia|lia].
Qed.

Lemma clean_content s : bc_wf None s -> (forall j, 0 <= j < capacity s.1 -> is_clean (entry_at s.1 j)) ->
  forall a, cached_content s a = bs_content s.2 a.
Proof.
  intros Hwf Hcl a. unfold cached_content. destruct (index_by_block s.1 !! a) as [i|] eqn:Hix; [|done].
  destruct (bw_index _ _ Hwf _ _ Hix) as (Hi & Hv & <- & _). apply (bw_clean _ _ Hwf); [done..|].
  specialize (Hcl i Hi). unfold is_clean in Hcl. by rewrite Hv in Hcl.
Qed.

Lemma flush_all_spec s : bc_wf None s ->
  exists s', flush_all s = (s', Ok tt) /\ bc_wf None s' /\ same_content s s' /\ dirty_count s'.1 = 0 /\
  capacity s'.1 = capacity s.1 /\
  forall a, 0 <= a < bs_block_count s.2 -> bs_content s'.2 a = cached_content s a.
Proof.
  intros Hwf. unfold flush_all. munfold_goal. pose proof (bw_capacity _ _ Hwf).
  destruct (flush_loop (Z.to_nat (capacity s.1)) s Hwf ltac:(lia)) as (s' & Hf & Hwf' & Hs & Hcap & _ & Hcl).
  rewrite Z2Nat.id in * by lia. fold (capacity s.1). exists s'. split; [done|]. split; [done|]. split; [done|].
  rewrite <- Hcap in Hcl. split; [|split; [done|]].
  - apply count_zero. intros e He. apply list_elem_of_lookup in He as [i Hi].
    pose proof (lookup_lt_Some _ _ _ Hi). specialize (Hcl (Z.of_nat i) ltac:(unfold capacity, lenZ; lia)).
    unfold entry_at in Hcl. rewrite Nat2Z.id, (nth_lookup_Some _ _ _ _ Hi) in Hcl. unfold is_clean in Hcl. congruence.
  - intros a Ha. rewrite <- (proj2 Hs a Ha). symmetry. by apply clean_content.
Qed.

Lemma clear_spec s : bc_wf None s ->
  exists s', clear s = (s', Ok tt) /\ bc_wf None s' /\ same_content s s' /\ index_by_block s'.1 = ∅ /\
  forall a, 0 <= a < bs_block_count s.2 -> bs_content s'.2 a = cached_content s a.
Proof.
  intros Hwf. unfold clear, on_cache. munfold_goal.
  destruct (flush_all_spec s Hwf) as ([c d] & -> & Hwf' & [Hg Hs] & _ & Hcap & Hc).
  cbn [fst snd] in *. set (c' := mkBufferCache _ _ _ _ _ _). exists (c', d). split; [done|].
  assert (He : forall i, entry_at c' i = empty_entry).
  { intros i. unfold entry_at, c'. cbn [entries]. rewrite nth_lookup, list_lookup_fmap.
    by destruct (entries c !! Z.to_nat i). }
  assert (Hcap' : capacity c' = capacity c) by (unfold capacity, lenZ, c'; cbn [entries]; by rewrite length_fmap).
  split; [|split; [|done]].
  - destruct Hwf' as [W1 W2 W3 W4 W5 W6 W7 W8]; cbn [fst snd] in *. split; cbn [fst snd]; rewrite ?Hcap'; try done.
    + intros i _. by rewrite He.
    + intros i _ _. by rewrite He.
    + cbn [valid_count entries c']. symmetry. apply count_zero. intros e (e0 & -> & _)%list_elem_of_fmap. done.
  - split; [done|]. intros a Ha. unfold cached_content. cbn [fst snd index_by_block c']. rewrite lookup_empty. by apply Hc.
Qed.
End invariant.

(** ** The cache is a block store *)

#[export] Instance cached_store {D} `{BlockStore D} : BlockStore (BufferCache * D) := {
  bs_ok := bc_wf None;
  bs_block_size s := bs_block_size s.2;
  bs_block_count s := bs_block_count s.2;
  bs_content := cached_content;
  bs_read := read_block;
  bs_write := write_block;
}.

#[export] Instance cached_store_laws {D} `{BlockStoreLaws D} : BlockStoreLaws (BufferCache * D).
Proof.
  split.
  - intros s Hwf. exact (bs_geometry s.2 (bw_device _ _ Hwf)).
  - intros s a. apply cached_content_length.
  - intros s a n Hwf Ha. pose proof (read_block_spec s a n Hwf Ha) as Hr. simpl.
    destruct (block_access_error _ _ a n); [done|]. destruct Hr as (s' & Hr & Hwf' & Hg & Hs). by exists s'.
  - intros s a src Hwf Ha. pose proof (write_block_spec s a src Hwf Ha) as Hw. simpl.
    destruct (block_access_error _ _ a (lenZ src)); [done|]. destruct Hw as (s' & Hw & Hwf' & Hg & Hs). by exists s'.
Qed.

#[export] Instance cached_flush {D} `{BlockStore D} : FlushStore (BufferCache * D) := flush_all.
#[export] Instance cached_flush_laws {D} `{BlockStoreLaws D} : FlushStoreLaws (BufferCache * D).
Proof.
  intros s Hwf. destruct (flush_all_spec s Hwf) as (s' & Hf & Hwf' & [Hg Hc] & _). by exists s'.
Qed.

(** ** Sequences of operations *)

Inductive operation : Set :=
  | ReadBlock (a n : Z)
  | WriteBlock (a : Z) (source : list Z)
  | FlushBlock (a : Z)
  | FlushAll
  | Clear.

Definition operation_address (o : operation) : Z :=
  match o with ReadBlock a _ | WriteBlock a _ | FlushBlock a => a | FlushAll | Clear => 0 end.

Section sequences.
Context {D : Type} `{BlockStore D}.

(** One operation on the cache; operations that return nothing give the empty list. *)
Definition cache_step (o : operation) : M (BufferCache * D) (list Z) :=
  match o with
  | ReadBlock a n => read_block a n
  | WriteBlock a source => write_block a source ≫= fun _ => mret []
  | FlushBlock a => flush_block a ≫= fun _ => mret []
  | FlushAll => flush_all ≫= fun _ => mret []
  | Clear => clear ≫= fun _ => mret []
  end.
(** The same operation on a bare device, which needs no flushing. *)
Definition device_step (o : operation) : M D (list Z) :=
  match o with
  | ReadBlock a n => bs_read a n
  | WriteBlock a source => bs_write a source ≫= fun _ => mret []
  | FlushBlock a => lift (fun d => if negb (a <? bs_block_count d) then Throw out_of_range else Ok [])
  | FlushAll | Clear => mret []
  end.
(** The caller sees the outcome of every operation and goes on after an exception. *)
Fixpoint run_all {S} (step : operation -> M S (list Z)) (os : list operation) (s : S)
  : S * list (res (list Z)) :=
  match os with
  | [] => (s, [])
  | o :: os' => let '(s1, r) := step o s in let '(s2, rs) := run_all step os' s1 in (s2, r :: rs)
  end.
End sequences.

Section refinement.
Context {D : Type} `{BlockStoreLaws D}.

(** The cache [s] and the bare device [d] look the same to a client. *)
Record same_view (s : BufferCache * D) (d : D) : Prop := {
  sv_cache : bc_wf None s;
  sv_device : bs_ok d;
  sv_geometry : same_geometry s.2 d;
  sv_content a : 0 <= a < bs_block_count s.2 -> bs_content d a = cached_content s a;
}.

(** The cache moved on without changing what its client sees. *)
Lemma same_view_cache s s' d : same_view s d -> bc_wf None s' -> same_content s s' -> same_view s' d.
Proof.
  intros [V1 V2 [V3 V4] V5] Hwf' [[Hg1 Hg2] Hs]. split; [done|done|by split; congruence|].
  intros a Ha. rewrite Hg2 in Ha. by rewrite Hs, V5.
Qed.

Lemma step_simulation o s d : 0 <= operation_address o -> same_view s d ->
  (device_step o d).2 = (cache_step o s).2 /\ same_view (cache_step o s).1 (device_step o d).1.
Proof.
  intros Ha Hv. pose proof Hv as [V1 V2 [V3 V4] V5]. destruct o as [a n|a src|a| |]; cbn [operation_address] in Ha; simpl.
  - pose proof (read_block_spec s a n V1 Ha) as Hc. pose proof (bs_read_spec d a n V2 Ha) as Hd.
    rewrite V3, V4 in Hd. destruct (block_access_error _ _ a n) as [e|] eqn:He; [by rewrite Hc, Hd|].
    apply block_access_ok in He as [_ Hlt].
    destruct Hc as (s' & -> & Hwf' & Hs), Hd as (d' & -> & Hok' & [Hg1 Hg2] & Hc'). split; [cbn; by rewrite V5 by lia|].
    cbn [fst]. apply (same_view_cache s); [|done..]. split; [done|done|by split; congruence|].
    intros a' Ha'. by rewrite Hc', V5 by (rewrite ?V4; done).
  - munfold_goal. pose proof (write_block_spec s a src V1 Ha) as Hc. pose proof (bs_write_spec d a src V2 Ha) as Hd.
    rewrite V3, V4 in Hd. destruct (block_access_error _ _ a (lenZ src)) as [e|] eqn:He; [by rewrite Hc, Hd|].
    destruct Hc as (s' & -> & Hwf' & [Hg1 Hg2] & Hs), Hd as (d' & -> & Hok' & [Hg3 Hg4] & Hc'). split; [done|].
    cbn [fst]. split; [done|done|by split; congruence|]. intros a' Ha'. rewrite Hg2 in Ha'.
    rewrite Hs, Hc' by (rewrite ?V4; done). case_decide; [done|by apply V5].
  - unfold flush_block, validate_device_address. munfold_goal. rewrite V4.
    destruct (a <? bs_block_count s.2); cbn [negb]; [|done].
    destruct (index_by_block s.1 !! a) as [i|] eqn:Hix; [|done].
    destruct (flush_entry_spec s i V1) as (s' & -> & Hwf' & Hs & _); [by apply (bw_index _ _ V1 a)|].
    split; [done|]. by apply (same_view_cache s).
  - munfold_goal. destruct (flush_all_spec s V1) as (s' & -> & Hwf' & Hs & _). split; [done|]. by apply (same_view_cache s).
  - munfold_goal. destruct (clear_spec s V1) as (s' & -> & Hwf' & Hs & _). split; [done|]. by apply (same_view_cache s).
Qed.

Lemma run_simulation s d os : same_view s d -> Forall (fun o => 0 <= operation_address o) os ->
  (run_all cache_step os s).2 = (run_all device_step os d).2 /\
  same_view (run_all cache_step os s).1 (run_all device_step os d).1.
Proof.
  intros Hv Hos. revert s d Hv. induction Hos as [|o os Ho _ IH]; intros s d Hv; [done|]. simpl.
  destruct (step_simulation o s d Ho Hv) as [Hr Hv1].
  destruct (cache_step o s) as [s1 r], (device_step o d) as [d1 r']. cbn [fst snd] in *. subst r'.
  destruct (IH s1 d1 Hv1) as [Hrs Hv2].
  destruct (run_all cache_step os s1), (run_all device_step os d1). cbn [fst snd] in *. by subst.
Qed.

(** ** Properties *)

(** C9. The cache is transparent: for every sequence of reads, writes, flushes and clears, the
    caller of the cache sees exactly the results, data and exceptions, that a bare device with the
    same content would give, whatever was evicted or written back in between. *)
Theorem buffer_cache_refines_device s d os : same_view s d ->
  Forall (fun o => 0 <= operation_address o) os ->
  (run_all cache_step os s).2 = (run_all device_step os d).2 /\
  same_view (run_all cache_step os s).1 (run_all device_step os d).1.
Proof. intros Hv Hos. by apply run_simulation. Qed.

(** Flushing the cache loses nothing: afterwards no entry is dirty and the device itself holds in
    every block what the cache showed before, which is also what it still shows. *)
Theorem flush_all_synchronises s s' r : bc_wf None s -> flush_all s = (s', r) ->
  r = Ok tt /\ bc_wf None s' /\ dirty_count s'.1 = 0 /\
  forall a, 0 <= a < bs_block_count s.2 ->
    bs_content s'.2 a = cached_content s a /\ cached_content s' a = cached_content s a.
Proof.
  intros Hwf Hf. destruct (flush_all_spec s Hwf) as (s1 & Hf1 & Hwf1 & [_ Hs] & Hd & _ & Hc).
  rewrite Hf in Hf1. injection Hf1 as -> ->. split; [done|]. split; [done|]. split; [done|]. auto.
Qed.

(** Replacement: a read that misses in a full cache drops exactly one block, the one whose entry
    was used least recently, and brings in the block that was read. *)
Theorem buffer_cache_evicts_least_recent s a s' r : bc_wf None s -> 0 <= a < bs_block_count s.2 ->
  contains s.1 a = false -> (forall i, 0 <= i < capacity s.1 -> valid (entry_at s.1 i) = true) ->
  read_block a (bs_block_size s.2) s = (s', r) ->
  let victim := entry_at s.1 (victim_index s.1) in
  (forall i, 0 <= i < capacity s.1 -> last_used_tick victim <= last_used_tick (entry_at s.1 i)) /\
  contains s.1 (address victim) = true /\
  forall a', contains s'.1 a' = bool_decide (a' = a) || contains s.1 a' && bool_decide (a' <> address victim).
Proof.
  intros Hwf Ha Hmiss Hfull Hr victim. destruct (victim_index_spec s.1 (bw_capacity _ _ Hwf)) as [Hi Hlru].
  pose proof (Hfull _ Hi) as Hv. pose proof (bw_indexed _ _ Hwf _ Hi Hv) as Hix.
  split; [intros i Hir; by apply Hlru|]. split; [by apply bool_decide_true; eexists|].
  unfold read_block, validate_block_span, validate_device_address in Hr. munfold. rewrite Z.eqb_refl in Hr.
  rewrite (proj2 (Z.ltb_lt _ _)) in Hr by lia. cbn [negb] in Hr.
  destruct (find_for_read_spec s a Hwf Ha) as (s1 & i & Hf & _ & _ & _ & Hix1). rewrite Hf in Hr.
  injection Hr as <- _. apply bool_decide_eq_false, eq_None_not_Some in Hmiss. rewrite Hmiss in Hix1. cbn zeta in Hix1.
  rewrite Hv in Hix1. intros a'. unfold contains. rewrite Hix1. fold victim.
  apply eq_true_iff_eq. rewrite orb_true_iff, andb_true_iff, !bool_decide_eq_true.
  destruct (decide (a' = a)) as [->|Hne]; [rewrite lookup_insert_eq; naive_solver|].
  rewrite lookup_insert_ne by done. destruct (decide (a' = address victim)) as [->|].
  - rewrite lookup_delete_eq. split; [by intros []|]. naive_solver.
  - rewrite lookup_delete_ne by done. naive_solver.
Qed.

Lemma make_buffer_cache_wf d capacity_blocks c : bs_ok d -> 0 <= capacity_blocks ->
  make_buffer_cache d capacity_blocks = Ok c -> same_view (c, d) d.
Proof.
  intros Hok Hcap. unfold make_buffer_cache, checked_cache_storage_size. munfold_goal.
  destruct (bs_geometry d Hok) as [Hb Hn]. destruct (Z.eqb_spec capacity_blocks 0); [done|].
  destruct (Z.eqb_spec (bs_block_size d) 0); [lia|]. cbn [negb andb].
  destruct (Z.ltb_spec ((W64 - 1) / bs_block_size d) capacity_blocks) as [|Hfit]; [done|].
  pose proof (Z.mul_div_le (W64 - 1) (bs_block_size d) Hb).
  assert (Hs : capacity_blocks * bs_block_size d < W64) by nia.
  unfold mul64. rewrite wrap64_small by (split; nia). intros [= <-].
  set (c := mkBufferCache _ _ _ _ _ _).
  assert (He : forall i, entry_at c i = empty_entry).
  { intros i. unfold entry_at, c. cbn [entries]. rewrite nth_lookup.
    destruct (replicate _ _ !! Z.to_nat i) as [e|] eqn:E; [|done]. by apply lookup_replicate in E as [-> _]. }
  assert (Hcap' : capacity c = capacity_blocks).
  { unfold capacity, lenZ, c. cbn [entries]. rewrite length_replicate. lia. }
  split; [|done|done|].
  - split; cbn [fst snd]; rewrite ?Hcap'; try done; [lia| |intros i _; by rewrite He|intros i _ _; by rewrite He|].
    + unfold c, lenZ. cbn [block_storage]. rewrite length_replicate. nia.
    + cbn [valid_count entries c]. symmetry. apply count_zero. intros e Hin.
      apply list_elem_of_lookup in Hin as [i Hi]. by apply lookup_replicate in Hi as [-> _].
  - intros a _. done.
Qed.
End refinement.

(** ** Concrete instances *)

(** A cache of two entries over the four-block device of BlockDevice.v. *)
Definition demo_cache : BufferCache :=
  mkBufferCache [empty_entry; empty_entry] [0; 0; 0; 0] ∅ (mkStats 0 0 0 0 0 0) 0 0.
Lemma demo_view : same_view (demo_cache, demo_device) demo_device.
Proof. apply (make_buffer_cache_wf demo_device 2); [apply demo_device_ok|lia|reflexivity]. Qed.

Definition demo_operations : list operation :=
  [WriteBlock 0 [9; 9]; ReadBlock 1 2; ReadBlock 2 2; WriteBlock 3 [7; 7]; ReadBlock 0 2; ReadBlock 4 2; FlushAll].
Lemma buffer_cache_refines_device_witness :
  (run_all cache_step demo_operations (demo_cache, demo_device)).2 =
  [Ok []; Ok [3; 4]; Ok [5; 6]; Ok []; Ok [9; 9]; Throw out_of_range; Ok []].
Proof.
  destruct (buffer_cache_refines_device (demo_cache, demo_device) demo_device demo_operations demo_view) as [Hr _].
  - repeat (apply Forall_cons; split; [cbn; lia|]). by apply Forall_nil.
  - rewrite Hr. vm_compute. reflexivity.
Defined.

(** Two operations later both entries are in use and one is dirty. *)
Definition demo_full : BufferCache * MemoryBlockDevice :=
  (run_all cache_step [WriteBlock 0 [9; 9]; ReadBlock 1 2] (demo_cache, demo_device)).1.
Lemma demo_full_wf : bc_wf None demo_full.
Proof.
  apply (sv_cache _ _ (proj2 (run_simulation _ demo_device [WriteBlock 0 [9; 9]; ReadBlock 1 2] demo_view
    ltac:(repeat (apply Forall_cons; split; [cbn; lia|]); by apply Forall_nil)))).
Qed.

Lemma flush_all_synchronises_witness :
  let run := flush_all demo_full in
  run.2 = Ok tt /\ dirty_count demo_full.1 = 1 /\ dirty_count run.1.1 = 0 /\ bs_content run.1.2 0 = [9; 9].
Proof.
  intros run. destruct (flush_all_synchronises demo_full run.1 run.2 demo_full_wf) as (Hok & _ & Hd & Hc).
  { exact (surjective_pairing run). }
  split; [exact Hok|]. split; [vm_compute; reflexivity|]. split; [exact Hd|].
  destruct (Hc 0) as [Hc0 _]; [vm_compute; split; congruence|]. rewrite Hc0. vm_compute. reflexivity.
Defined.
Lemma buffer_cache_evicts_least_recent_witness :
  let run := read_block 2 2 demo_full in
  run.2 = Ok [5; 6] /\ contains run.1.1 0 = false /\ contains run.1.1 1 = true.
Proof.
  intros run. destruct (buffer_cache_evicts_least_recent demo_full 2 run.1 run.2 demo_full_wf) as (_ & _ & Hc).
  - vm_compute. split; congruence.
  - vm_compute. reflexivity.
  - intros i Hi. vm_compute capacity in Hi. assert (i = 0 \/ i = 1) as [-> | ->] by lia; vm_compute; reflexivity.
  - exact (surjective_pairing run).
  - split; [vm_compute; reflexivity|]. rewrite !Hc. split; vm_compute; reflexivity.
Defined.
