(* ===== verification/Instruction.v ===== *)
(** * Instructions, programs and images

    Models src/cpu/instruction (operands, opcodes, condition codes, instructions),
    src/cpu/execution/program.cpp and trace.cpp and src/cpu/decode/executable_image.cpp. *)

From S2P Require Import Prelude Common.

(** ** Operands *)

Module OperandKind.
(* [include/mnos/cpu/instruction/operand.hpp] [OperandKind] *)
Inductive OperandKind : Set := NONE | REGISTER | IMMEDIATE | MEMORY | COUNT.
End OperandKind.

(* [include/mnos/cpu/instruction/operand.hpp] [MemoryAddress] *)
Record MemoryAddress : Set := mkMemoryAddress {
  ma_base_register : option RegisterId;
  ma_index_register : option RegisterId;
  ma_scale : Z;
  ma_displacement : Z;
  ma_absolute_address : option Z;
}.

(* [src/cpu/instruction/operand.cpp] [require_register_id] [52-58] *)
Definition require_register_id (id : RegisterId) : res unit :=
  if negb (is_register_id_valid id) then Throw out_of_range else Ok tt.
(* [src/cpu/instruction/operand.cpp] [require_memory_data_size] [60-66] *)
Definition require_memory_data_size (s : DataSize) : res unit :=
  if negb (is_data_size_valid s) then Throw out_of_range else Ok tt.
(* [src/cpu/instruction/operand.cpp] [require_memory_scale] [68-75] *)
Definition require_memory_scale (scale : Z) : res unit :=
  if negb (scale =? 1) && negb (scale =? 2) && negb (scale =? 4) && negb (scale =? 8)
  then Throw out_of_range else Ok tt.

(* [src/cpu/instruction/operand.cpp] [MemoryAddress::base_displacement] *)
Definition base_displacement (base_register : RegisterId) (displacement : Z) : res MemoryAddress :=
  _ ← require_register_id base_register;
  Ok (mkMemoryAddress (Some base_register) None 1 displacement None).
(* [src/cpu/instruction/operand.cpp] [MemoryAddress::base_index_displacement] *)
Definition base_index_displacement (base_register index_register : RegisterId) (scale displacement : Z)
  : res MemoryAddress :=
  _ ← require_register_id base_register;
  _ ← require_register_id index_register;
  _ ← require_memory_scale scale;
  Ok (mkMemoryAddress (Some base_register) (Some index_register) scale displacement None).
(* [src/cpu/instruction/operand.cpp] [MemoryAddress::index_displacement] *)
Definition index_displacement (index_register : RegisterId) (scale displacement : Z) : res MemoryAddress :=
  _ ← require_register_id index_register;
  _ ← require_memory_scale scale;
  Ok (mkMemoryAddress None (Some index_register) scale displacement None).
(* [src/cpu/instruction/operand.cpp] [MemoryAddress::absolute] *)
Definition absolute (address : Z) : MemoryAddress := mkMemoryAddress None None 1 0 (Some address).
(* [src/cpu/instruction/operand.cpp] [MemoryAddress::base_register] *)
Definition base_register (a : MemoryAddress) : res RegisterId :=
  match ma_base_register a with Some r => Ok r | None => Throw logic_error end.
(* [src/cpu/instruction/operand.cpp] [MemoryAddress::index_register] *)
Definition index_register (a : MemoryAddress) : res RegisterId :=
  match ma_index_register a with Some r => Ok r | None => Throw logic_error end.
(* [src/cpu/instruction/operand.cpp] [MemoryAddress::absolute_address] *)
Definition absolute_address (a : MemoryAddress) : res Z :=
  match ma_absolute_address a with Some x => Ok x | None => Throw logic_error end.

(* [include/mnos/cpu/instruction/operand.hpp] [Operand] *)
Inductive Operand : Set :=
  | OpNone
  | OpRegister (id : RegisterId) (data_size : DataSize)
  | OpImmediate (value : Z)
  | OpMemory (address : MemoryAddress) (data_size : DataSize).

(* [src/cpu/instruction/operand.cpp] [Operand::reg #2] *)
Definition reg (id : RegisterId) (data_size : DataSize) : res Operand :=
  _ ← require_register_id id;
  if negb (is_data_size_valid data_size) then Throw out_of_range else Ok (OpRegister id data_size).
(* [src/cpu/instruction/operand.cpp] [Operand::reg] *)
Definition reg_qword (id : RegisterId) : res Operand := reg id Size.QWORD.
(* [src/cpu/instruction/operand.cpp] [Operand::imm] *)
Definition imm (value : Z) : Operand := OpImmediate value.
(* [src/cpu/instruction/operand.cpp] [Operand::mem] *)
Definition mem (address : MemoryAddress) (data_size : DataSize) : res Operand :=
  _ ← require_memory_data_size data_size; Ok (OpMemory address data_size).
(* [src/cpu/instruction/operand.cpp] [Operand::mem #2] *)
Definition mem_base (base_register : RegisterId) (displacement : Z) (data_size : DataSize) : res Operand :=
  address ← base_displacement base_register displacement; mem address data_size.
(* [src/cpu/instruction/operand.cpp] [Operand::indexed_mem] *)
Definition indexed_mem (base_register index_register : RegisterId) (scale displacement : Z)
    (data_size : DataSize) : res Operand :=
  address ← base_index_displacement base_register index_register scale displacement; mem address data_size.
(* [src/cpu/instruction/operand.cpp] [Operand::absolute_mem] *)
Definition absolute_mem (address : Z) (data_size : DataSize) : res Operand := mem (absolute address) data_size.

(* [src/cpu/instruction/operand.cpp] [Operand::kind] *)
Definition kind (o : Operand) : OperandKind.OperandKind :=
  match o with
  | OpNone => OperandKind.NONE
  | OpRegister _ _ => OperandKind.REGISTER
  | OpImmediate _ => OperandKind.IMMEDIATE
  | OpMemory _ _ => OperandKind.MEMORY
  end.
(* [src/cpu/instruction/operand.cpp] [Operand::is_register] *)
Definition is_register (o : Operand) : bool := match o with OpRegister _ _ => true | _ => false end.
(* [src/cpu/instruction/operand.cpp] [Operand::is_immediate] *)
Definition is_immediate (o : Operand) : bool := match o with OpImmediate _ => true | _ => false end.
(* [src/cpu/instruction/operand.cpp] [Operand::is_memory] *)
Definition is_memory (o : Operand) : bool := match o with OpMemory _ _ => true | _ => false end.
(* [src/cpu/instruction/operand.cpp] [Operand::register_id] *)
Definition register_id (o : Operand) : res RegisterId :=
  match o with OpRegister id _ => Ok id | _ => Throw logic_error end.
(* [src/cpu/instruction/operand.cpp] [Operand::register_data_size] *)
Definition register_data_size (o : Operand) : res DataSize :=
  match o with OpRegister _ s => Ok s | _ => Throw logic_error end.
(* [src/cpu/instruction/operand.cpp] [Operand::immediate_value] *)
Definition immediate_value (o : Operand) : res Z :=
  match o with OpImmediate v => Ok v | _ => Throw logic_error end.
(* [src/cpu/instruction/operand.cpp] [Operand::memory_address] *)
Definition memory_address (o : Operand) : res MemoryAddress :=
  match o with OpMemory a _ => Ok a | _ => Throw logic_error end.
(* [src/cpu/instruction/operand.cpp] [Operand::memory_data_size] *)
Definition memory_data_size (o : Operand) : res DataSize :=
  match o with OpMemory _ s => Ok s | _ => Throw logic_error end.

(** ** Opcodes and condition codes *)

Module Op.
(* [include/mnos/cpu/instruction/opcode.hpp] [Opcode] *)
Inductive Opcode : Set :=
  | MOV | MOVSX | MOVZX | LEA | ADD | SUB | CMP | INC | DEC | AND | OR | XOR | TEST | CMPXCHG | XADD
  | MFENCE | INVLPG | PUSH | POP | CALL | RET | JMP | JE | JNE | JCC | SETCC | CMOVCC
  | INT | SYSCALL | SYSRET | IRET | HLT | COUNT.
End Op.
Abbreviation Opcode := Op.Opcode.
#[export] Instance Opcode_eq_dec : EqDecision Opcode.
Proof. solve_decision. Defined.

Module Cond.
(* [include/mnos/cpu/instruction/condition_code.hpp] [ConditionCode] *)
Inductive ConditionCode : Set :=
  | O | NO | B | AE | E | NE | BE | A | S | NS | P | NP | L | GE | LE | G | COUNT.
End Cond.
Abbreviation ConditionCode := Cond.ConditionCode.
#[export] Instance ConditionCode_eq_dec : EqDecision ConditionCode.
Proof. solve_decision. Defined.

(* [src/cpu/instruction/condition_code.cpp] [is_condition_code_valid] *)
Definition is_condition_code_valid (c : ConditionCode) : bool :=
  match c with Cond.COUNT => false | _ => true end.

(** ** Instructions *)

(* [include/mnos/cpu/instruction/instruction.hpp] [Instruction] *)
Record Instruction : Set := mkInstruction {
  opcode : Opcode;
  condition_code : ConditionCode;
  first_operand : Operand;
  second_operand : Operand;
  is_locked : bool;
}.

(** The two private constructors, without and with a condition. *)
Definition instr (o : Opcode) (first second : Operand) (locked : bool) : Instruction :=
  mkInstruction o Cond.COUNT first second locked.
(* [src/cpu/instruction/instruction.cpp] [require_condition_code] *)
Definition require_condition_code (c : ConditionCode) : res unit :=
  if negb (is_condition_code_valid c) then Throw out_of_range else Ok tt.

(* [src/cpu/instruction/instruction.cpp] [Instruction::make_hlt] *)
Definition make_hlt : Instruction := instr Op.HLT OpNone OpNone false.
(* [src/cpu/instruction/instruction.cpp] [Instruction::make_mov] *)
Definition make_mov (destination source : Operand) : Instruction := instr Op.MOV destination source false.
(* [src/cpu/instruction/instruction.cpp] [Instruction::make_movsx] *)
Definition make_movsx (destination source : Operand) : Instruction := instr Op.MOVSX destination source false.
(* [src/cpu/instruction/instruction.cpp] [Instruction::make_movzx] *)
Definition make_movzx (destination source : Operand) : Instruction := instr Op.MOVZX destination source false.
(* [src/cpu/instruction/instruction.cpp] [Instruction::make_lea] *)
Definition make_lea (destination source : Operand) : Instruction := instr Op.LEA destination source false.
(* [src/cpu/instruction/instruction.cpp] [Instruction::make_add] *)
Definition make_add (destination source : Operand) : Instruction := instr Op.ADD destination source false.
(* [src/cpu/instruction/instruction.cpp] [Instruction::make_sub] *)
Definition make_sub (destination source : Operand) : Instruction := instr Op.SUB destination source false.
(* [src/cpu/instruction/instruction.cpp] [Instruction::make_cmp] *)
Definition make_cmp (destination source : Operand) : Instruction := instr Op.CMP destination source false.
(* [src/cpu/instruction/instruction.cpp] [Instruction::make_inc] *)
Definition make_inc (destination : Operand) : Instruction := instr Op.INC destination OpNone false.
(* [src/cpu/instruction/instruction.cpp] [Instruction::make_dec] *)
Definition make_dec (destination : Operand) : Instruction := instr Op.DEC destination OpNone false.
(* [src/cpu/instruction/instruction.cpp] [Instruction::make_and] *)
Definition make_and (destination source : Operand) : Instruction := instr Op.AND destination source false.
(* [src/cpu/instruction/instruction.cpp] [Instruction::make_or] *)
Definition make_or (destination source : Operand) : Instruction := instr Op.OR destination source false.
(* [src/cpu/instruction/instruction.cpp] [Instruction::make_xor] *)
Definition make_xor (destination source : Operand) : Instruction := instr Op.XOR destination source false.
(* [src/cpu/instruction/instruction.cpp] [Instruction::make_test] *)
Definition make_test (destination source : Operand) : Instruction := instr Op.TEST destination source false.
(* [src/cpu/instruction/instruction.cpp] [Instruction::make_mfence] *)
Definition make_mfence : Instruction := instr Op.MFENCE OpNone OpNone false.
(* [src/cpu/instruction/instruction.cpp] [Instruction::make_invlpg] *)
Definition make_invlpg (destination : Operand) : Instruction := instr Op.INVLPG destination OpNone false.
(* [src/cpu/instruction/instruction.cpp] [Instruction::make_push] *)
Definition make_push (destination : Operand) : Instruction := instr Op.PUSH destination OpNone false.
(* [src/cpu/instruction/instruction.cpp] [Instruction::make_pop] *)
Definition make_pop (destination : Operand) : Instruction := instr Op.POP destination OpNone false.
(* [src/cpu/instruction/instruction.cpp] [Instruction::make_call] *)
Definition make_call (destination : Operand) : Instruction := instr Op.CALL destination OpNone false.
(* [src/cpu/instruction/instruction.cpp] [Instruction::make_ret] *)
Definition make_ret : Instruction := instr Op.RET OpNone OpNone false.
(* [src/cpu/instruction/instruction.cpp] [Instruction::make_jmp] *)
Definition make_jmp (destination : Operand) : Instruction := instr Op.JMP destination OpNone false.
(* [src/cpu/instruction/instruction.cpp] [Instruction::make_syscall] *)
Definition make_syscall : Instruction := instr Op.SYSCALL OpNone OpNone false.
(* [src/cpu/instruction/instruction.cpp] [Instruction::make_sysret] *)
Definition make_sysret : Instruction := instr Op.SYSRET OpNone OpNone false.
(* [src/cpu/instruction/instruction.cpp] [Instruction::make_iret] *)
Definition make_iret : Instruction := instr Op.IRET OpNone OpNone false.
(* [src/cpu/instruction/instruction.cpp] [Instruction::make_cmpxchg] *)
Definition make_cmpxchg (destination source : Operand) (locked : bool) : Instruction :=
  instr Op.CMPXCHG destination source locked.
(* [src/cpu/instruction/instruction.cpp] [Instruction::make_xadd] *)
Definition make_xadd (destination source : Operand) (locked : bool) : Instruction :=
  instr Op.XADD destination source locked.
(* [src/cpu/instruction/instruction.cpp] [Instruction::make_je] *)
Definition make_je (target : Operand) : Instruction := mkInstruction Op.JE Cond.E target OpNone false.
(* [src/cpu/instruction/instruction.cpp] [Instruction::make_jne] *)
Definition make_jne (target : Operand) : Instruction := mkInstruction Op.JNE Cond.NE target OpNone false.
(* [src/cpu/instruction/instruction.cpp] [Instruction::make_jcc] *)
Definition make_jcc (c : ConditionCode) (target : Operand) : res Instruction :=
  _ ← require_condition_code c; Ok (mkInstruction Op.JCC c target OpNone false).
(* [src/cpu/instruction/instruction.cpp] [Instruction::make_setcc] *)
Definition make_setcc (c : ConditionCode) (destination : Operand) : res Instruction :=
  _ ← require_condition_code c; Ok (mkInstruction Op.SETCC c destination OpNone false).
(* [src/cpu/instruction/instruction.cpp] [Instruction::make_cmovcc] *)
Definition make_cmovcc (c : ConditionCode) (destination source : Operand) : res Instruction :=
  _ ← require_condition_code c; Ok (mkInstruction Op.CMOVCC c destination source false).
(* [src/cpu/instruction/instruction.cpp] [Instruction::make_int] *)
Definition make_int (vector : Z) : Instruction := instr Op.INT (OpImmediate vector) OpNone false.

(** ** Programs, images and traces *)

(** A vector of instructions; an instruction pointer is an index into it. *)
(* [include/mnos/cpu/execution/program.hpp] [Program] *)
Record Program : Set := mkProgram { instructions : list Instruction }.
(* [src/cpu/execution/program.cpp] [Program::contains_rip] *)
Definition program_contains_rip (p : Program) (rip : Z) : bool := rip <? lenZ (instructions p).
(* [src/cpu/execution/program.cpp] [Program::instruction_at] *)
Definition instruction_at (p : Program) (rip : Z) : res Instruction :=
  if negb (program_contains_rip p rip) then Throw out_of_range
  else Ok (nth (Z.to_nat rip) (instructions p) make_hlt).

(* [include/mnos/cpu/decode/executable_image.hpp] [ExecutableImage] *)
Record ExecutableImage : Set := mkImage { image_bytes : list Z; base_rip : Z }.
(* [src/cpu/decode/executable_image.cpp] [ExecutableImage::end_rip] *)
Definition end_rip (i : ExecutableImage) : Z := add64 (base_rip i) (lenZ (image_bytes i)).
(* [src/cpu/decode/executable_image.cpp] [ExecutableImage::contains_rip] *)
Definition image_contains_rip (i : ExecutableImage) (rip : Z) : bool :=
  (base_rip i <=? rip) && (sub64 rip (base_rip i) <? lenZ (image_bytes i)).
(* [src/cpu/decode/executable_image.cpp] [ExecutableImage::offset_of] *)
Definition offset_of (i : ExecutableImage) (rip : Z) : res Z :=
  if negb (image_contains_rip i rip) then Throw out_of_range else Ok (sub64 rip (base_rip i)).
(* [src/cpu/decode/executable_image.cpp] [ExecutableImage::byte_at] *)
Definition byte_at (i : ExecutableImage) (rip : Z) : res Z :=
  offset ← offset_of i rip; Ok (nthZ (image_bytes i) offset).

(* [include/mnos/cpu/execution/trace.hpp] [ExecutionTraceEntry] *)
Record ExecutionTraceEntry : Set := mkTraceEntry {
  te_cycle_count : Z;
  te_rip_before : Z;
  te_rip_after : Z;
  te_opcode : Opcode;
  te_halted_after : bool;
  te_trap_pending_after : bool;
}.
(** Entries are only appended. *)
(* [src/cpu/execution/trace.cpp] [ExecutionTrace::push_back] *)
Definition trace_push_back (e : ExecutionTraceEntry) (t : list ExecutionTraceEntry) : list ExecutionTraceEntry :=
  t ++ [e].
