(* ===== verification/CpuState.v ===== *)
(** * Processor state and trap frames

    Models src/cpu/execution/cpu_state.cpp and src/cpu/system/trap_frame.cpp: the registers, flags,
    paging state, privilege level and pending trap of one core. *)

From S2P Require Import Prelude Common PhysicalMemory MemoryBus Paging.

(** ** Trap frames *)

Module Trap.
(* [include/mnos/cpu/system/trap_frame.hpp] [TrapKind] *)
Inductive TrapKind : Set := EXCEPTION | INTERRUPT | SOFTWARE_INTERRUPT | SYSCALL | COUNT.
End Trap.
Abbreviation TrapKind := Trap.TrapKind.
#[export] Instance TrapKind_eq_dec : EqDecision TrapKind.
Proof. solve_decision. Defined.

(* [src/cpu/system/trap_frame.cpp] [is_trap_kind_valid] *)
Definition is_trap_kind_valid (k : TrapKind) : bool := match k with Trap.COUNT => false | _ => true end.

(* [include/mnos/cpu/system/trap_frame.hpp] [TrapFrame] *)
Record TrapFrame : Set := mkTrapFrame {
  tf_kind : TrapKind;
  tf_vector : Z;
  tf_interrupted_rip : Z;
  tf_return_rip : Z;
  tf_rflags : Z;
  tf_stack_pointer : Z;
  tf_privilege_level : PrivilegeLevel;
  tf_error_code : option Z;
}.
(* [src/cpu/system/trap_frame.cpp] [require_trap_kind] *)
Definition require_trap_kind (k : TrapKind) : res unit :=
  if negb (is_trap_kind_valid k) then Throw out_of_range else Ok tt.
(* [src/cpu/system/trap_frame.cpp] [require_privilege_level] *)
Definition require_privilege_level (p : PrivilegeLevel) : res unit :=
  if negb (is_privilege_level_valid p) then Throw out_of_range else Ok tt.
(* [src/cpu/system/trap_frame.cpp] [TrapFrame::TrapFrame] *)
Definition make_trap_frame (kind : TrapKind) (vector interrupted_rip return_rip rflags stack_pointer : Z)
    (privilege_level : PrivilegeLevel) (error_code : option Z) : res TrapFrame :=
  _ ← require_trap_kind kind;
  _ ← require_privilege_level privilege_level;
  Ok (mkTrapFrame kind vector interrupted_rip return_rip rflags stack_pointer privilege_level error_code).
(* [src/cpu/system/trap_frame.cpp] [TrapFrame::error_code] *)
Definition error_code (f : TrapFrame) : res Z :=
  match tf_error_code f with Some c => Ok c | None => Throw logic_error end.

(** ** The state of a core *)

Definition CPU_STATE_NEXT_INSTRUCTION_OFFSET : Z := 1.

(* [include/mnos/cpu/execution/cpu_state.hpp] [CpuState] *)
Record CpuState : Set := mkCpuState {
  cpu_registers : RegisterBank;
  cpu_flags : Rflags;
  cpu_paging : PagingState;
  core_id : Z;
  rip : Z;
  privilege_level : PrivilegeLevel;
  pending_trap : option TrapFrame;
  is_halted : bool;
}.
Definition make_rflags : Rflags := mkRflags 0.
Definition make_cpu_state : CpuState :=
  mkCpuState initial_register_bank make_rflags make_paging_state 0 0 Ring.RING0 None false.
(* [src/cpu/execution/cpu_state.cpp] [CpuState::reset] *)
Definition cpu_reset (s : CpuState) : CpuState := make_cpu_state.

Definition set_registers (r : RegisterBank) (s : CpuState) : CpuState :=
  mkCpuState r (cpu_flags s) (cpu_paging s) (core_id s) (rip s) (privilege_level s) (pending_trap s) (is_halted s).
Definition set_flags (f : Rflags) (s : CpuState) : CpuState :=
  mkCpuState (cpu_registers s) f (cpu_paging s) (core_id s) (rip s) (privilege_level s) (pending_trap s) (is_halted s).
Definition set_paging (p : PagingState) (s : CpuState) : CpuState :=
  mkCpuState (cpu_registers s) (cpu_flags s) p (core_id s) (rip s) (privilege_level s) (pending_trap s) (is_halted s).
(* [src/cpu/execution/cpu_state.cpp] [CpuState::set_core_id] *)
Definition set_core_id (c : Z) (s : CpuState) : CpuState :=
  mkCpuState (cpu_registers s) (cpu_flags s) (cpu_paging s) c (rip s) (privilege_level s) (pending_trap s) (is_halted s).
(* [src/cpu/execution/cpu_state.cpp] [CpuState::set_rip] *)
Definition set_rip (v : Z) (s : CpuState) : CpuState :=
  mkCpuState (cpu_registers s) (cpu_flags s) (cpu_paging s) (core_id s) v (privilege_level s) (pending_trap s) (is_halted s).
(* [src/cpu/execution/cpu_state.cpp] [CpuState::advance_rip] *)
Definition advance_rip (s : CpuState) : CpuState := set_rip (add64 (rip s) CPU_STATE_NEXT_INSTRUCTION_OFFSET) s.
Definition set_halted (h : bool) (s : CpuState) : CpuState :=
  mkCpuState (cpu_registers s) (cpu_flags s) (cpu_paging s) (core_id s) (rip s) (privilege_level s) (pending_trap s) h.
(* [src/cpu/execution/cpu_state.cpp] [CpuState::halt] *)
Definition halt : CpuState -> CpuState := set_halted true.
(* [src/cpu/execution/cpu_state.cpp] [CpuState::resume] *)
Definition resume : CpuState -> CpuState := set_halted false.
Definition set_level (p : PrivilegeLevel) (s : CpuState) : CpuState :=
  mkCpuState (cpu_registers s) (cpu_flags s) (cpu_paging s) (core_id s) (rip s) p (pending_trap s) (is_halted s).
(* [src/cpu/execution/cpu_state.cpp] [CpuState::set_privilege_level] *)
Definition set_privilege_level (p : PrivilegeLevel) : M CpuState unit :=
  throw_if (negb (is_privilege_level_valid p)) out_of_range ≫= fun _ => modify (set_level p).
Definition set_pending (t : option TrapFrame) (s : CpuState) : CpuState :=
  mkCpuState (cpu_registers s) (cpu_flags s) (cpu_paging s) (core_id s) (rip s) (privilege_level s) t (is_halted s).
(* [src/cpu/execution/cpu_state.cpp] [CpuState::set_pending_trap] *)
Definition set_pending_trap (f : TrapFrame) : CpuState -> CpuState := set_pending (Some f).
(* [src/cpu/execution/cpu_state.cpp] [CpuState::clear_pending_trap] *)
Definition clear_pending_trap : CpuState -> CpuState := set_pending None.
(* [src/cpu/execution/cpu_state.cpp] [CpuState::has_pending_trap] *)
Definition has_pending_trap (s : CpuState) : bool := bool_decide (is_Some (pending_trap s)).
(* [src/cpu/execution/cpu_state.cpp] [CpuState::pending_trap] *)
Definition get_pending_trap (s : CpuState) : res TrapFrame :=
  match pending_trap s with Some f => Ok f | None => Throw logic_error end.

(** Register and flag access through the state. *)
Definition read_register (id : RegisterId) : M CpuState Z :=
  lift (fun s => RegisterBank_read (cpu_registers s) id).
Definition write_register (id : RegisterId) (v : Z) : M CpuState unit := fun s =>
  match RegisterBank_write (cpu_registers s) id v with
  | Ok r => (set_registers r s, Ok tt)
  | Throw e => (s, Throw e)
  end.
Definition on_flags (f : Rflags -> Rflags) : M CpuState unit := modify (fun s => set_flags (f (cpu_flags s)) s).

(** ** Well-formedness *)

Record cpu_wf (s : CpuState) : Prop := {
  cw_registers : register_bank_wf (cpu_registers s);
  cw_flags : u64 (Common.raw_bits (cpu_flags s));
  cw_rip : u64 (rip s);
  cw_level : is_privilege_level_valid (privilege_level s) = true;
}.

(** ** Registers *)

Definition reg_of (r : RegisterId) (s : CpuState) : Z :=
  nth (register_id_to_index r) (registers (cpu_registers s)) 0.
Definition put_reg (r : RegisterId) (v : Z) (s : CpuState) : CpuState :=
  set_registers (mkRegisterBank (<[register_id_to_index r := v]> (registers (cpu_registers s)))) s.

Lemma read_register_eq r s : is_register_id_valid r = true -> read_register r s = (s, Ok (reg_of r s)).
Proof. intros Hr. unfold read_register, RegisterBank_read. munfold_goal. by rewrite Hr. Qed.
Lemma write_register_eq r v s : is_register_id_valid r = true -> write_register r v s = (put_reg r v s, Ok tt).
Proof. intros Hr. unfold write_register, RegisterBank_write. by rewrite Hr. Qed.
Lemma read_register_invalid r s : is_register_id_valid r = false -> read_register r s = (s, Throw out_of_range).
Proof. intros Hr. unfold read_register, RegisterBank_read. munfold_goal. by rewrite Hr. Qed.

Lemma reg_of_put r r' v s : register_bank_wf (cpu_registers s) -> is_register_id_valid r = true ->
  reg_of r' (put_reg r v s) = if decide (r' = r) then v else reg_of r' s.
Proof.
  intros [Hl _] Hr. unfold reg_of, put_reg. simpl. apply register_index_bound in Hr. case_decide as Hd.
  - subst. apply nth_insert_eq. lia.
  - apply nth_insert_ne. intros Heq. by apply register_id_to_index_inj in Heq.
Qed.
(** A concrete register bank is checked by evaluation. *)
Lemma register_bank_check b :
  (length (registers b) =? 16)%nat && forallb (fun v => (0 <=? v) && (v <? W64)) (registers b) = true ->
  register_bank_wf b.
Proof.
  rewrite andb_true_iff, Nat.eqb_eq, forallb_forall. intros [Hl Hf]. split; [done|].
  apply Forall_forall. intros v Hv. specialize (Hf v (proj1 (list_elem_of_In _ _) Hv)). unfold u64. lia.
Qed.
Lemma reg_of_put_ne r r' v s : r' <> r -> reg_of r' (put_reg r v s) = reg_of r' s.
Proof. intros Hne. apply nth_insert_ne. intros Heq. by apply register_id_to_index_inj in Heq. Qed.
Lemma reg_of_u64 r s : register_bank_wf (cpu_registers s) -> u64 (reg_of r s).
Proof.
  intros [Hl Hf]. unfold reg_of. rewrite nth_lookup.
  destruct (registers (cpu_registers s) !! register_id_to_index r) as [v|] eqn:E; [|by split].
  rewrite Forall_forall in Hf. apply Hf. by eapply list_elem_of_lookup_2.
Qed.
Lemma put_reg_wf r v s : u64 v -> register_bank_wf (cpu_registers s) ->
  register_bank_wf (cpu_registers (put_reg r v s)).
Proof.
  intros Hv [Hl Hf]. split; simpl; [by rewrite length_insert|]. by apply Forall_insert.
Qed.
Lemma put_reg_cpu_wf r v s : u64 v -> cpu_wf s -> cpu_wf (put_reg r v s).
Proof. intros Hv []. split; try done. by apply put_reg_wf. Qed.
Lemma put_reg_same r s : put_reg r (reg_of r s) s = s.
Proof.
  destruct s as [[l] ? ? ? ? ? ? ?]. unfold put_reg, reg_of, set_registers. simpl. do 2 f_equal.
  destruct (l !! register_id_to_index r) as [v|] eqn:E.
  - rewrite (nth_lookup_Some _ _ _ _ E). by apply list_insert_id.
  - apply list_insert_ge. by apply lookup_ge_None in E.
Qed.
