(* ===== verification/Trap.v ===== *)
(** * Descriptor tables and the trap controller

    Models src/cpu/system/descriptor_tables.cpp and trap_controller.cpp: interrupt gates, segment
    descriptors, the privilege stacks of the TSS, and the entry and return of traps and system
    calls. *)

From S2P Require Import Prelude Common PhysicalMemory MemoryBus Paging CpuState.

(** ** Interrupt vectors *)

Definition INTERRUPT_VECTOR_COUNT : Z := 256.
(* [include/mnos/cpu/system/interrupt_vector.hpp] [InterruptVector::general_protection] [45-48] *)
Definition general_protection : Z := 13.
(* [include/mnos/cpu/system/interrupt_vector.hpp] [InterruptVector::page_fault] [50-53] *)
Definition page_fault_vector : Z := 14.
(* [include/mnos/cpu/system/interrupt_vector.hpp] [InterruptVector::syscall_compat] [60-63] *)
Definition syscall_compat : Z := 0x80.

(** ** Interrupt descriptor table *)

Module Gate.
(* [include/mnos/cpu/system/descriptor_tables.hpp] [GateType] *)
Inductive GateType : Set := INTERRUPT_GATE | TRAP_GATE | COUNT.
End Gate.
Abbreviation GateType := Gate.GateType.
#[export] Instance GateType_eq_dec : EqDecision GateType.
Proof. solve_decision. Defined.

(* [src/cpu/system/descriptor_tables.cpp] [is_gate_type_valid] *)
Definition is_gate_type_valid (t : GateType) : bool := match t with Gate.COUNT => false | _ => true end.
(* [src/cpu/system/descriptor_tables.cpp] [require_gate_type] *)
Definition require_gate_type (t : GateType) : res unit :=
  if negb (is_gate_type_valid t) then Throw out_of_range else Ok tt.

(* [include/mnos/cpu/system/descriptor_tables.hpp] [InterruptGate] *)
Record InterruptGate : Set := mkGate {
  gate_present : bool;
  gate_type : GateType;
  handler_rip : Z;
  target_privilege_level : PrivilegeLevel;
}.
(* [src/cpu/system/descriptor_tables.cpp] [InterruptGate::InterruptGate] *)
Definition make_gate (present : bool) (type : GateType) (handler : Z) (level : PrivilegeLevel)
  : res InterruptGate :=
  _ ← require_gate_type type; _ ← require_privilege_level level; Ok (mkGate present type handler level).
(* [src/cpu/system/descriptor_tables.cpp] [InterruptGate::absent] *)
Definition absent_gate : InterruptGate := mkGate false Gate.INTERRUPT_GATE 0 Ring.RING0.
(* [src/cpu/system/descriptor_tables.cpp] [InterruptGate::interrupt_gate] *)
Definition interrupt_gate (handler : Z) (level : PrivilegeLevel) : res InterruptGate :=
  make_gate true Gate.INTERRUPT_GATE handler level.
(* [src/cpu/system/descriptor_tables.cpp] [InterruptGate::trap_gate] *)
Definition trap_gate (handler : Z) (level : PrivilegeLevel) : res InterruptGate :=
  make_gate true Gate.TRAP_GATE handler level.

(** A fixed array of 256 gates; a vector is a byte, so every index is in range. *)
(* [include/mnos/cpu/system/descriptor_tables.hpp] [InterruptDescriptorTable] *)
Record InterruptDescriptorTable : Set := mkIdt { gates : list InterruptGate }.
Definition make_idt : InterruptDescriptorTable := mkIdt (replicate (Z.to_nat INTERRUPT_VECTOR_COUNT) absent_gate).
Definition gate_slot (vector : Z) (t : InterruptDescriptorTable) : InterruptGate :=
  nth (Z.to_nat vector) (gates t) absent_gate.
(* [src/cpu/system/descriptor_tables.cpp] [InterruptDescriptorTable::set_gate] *)
Definition set_gate (vector : Z) (g : InterruptGate) (t : InterruptDescriptorTable) : InterruptDescriptorTable :=
  mkIdt (<[Z.to_nat vector := g]> (gates t)).
(* [src/cpu/system/descriptor_tables.cpp] [InterruptDescriptorTable::clear_gate] *)
Definition clear_gate (vector : Z) : InterruptDescriptorTable -> InterruptDescriptorTable :=
  set_gate vector absent_gate.
(* [src/cpu/system/descriptor_tables.cpp] [InterruptDescriptorTable::has_gate] *)
Definition has_gate (vector : Z) (t : InterruptDescriptorTable) : bool := gate_present (gate_slot vector t).
(* [src/cpu/system/descriptor_tables.cpp] [InterruptDescriptorTable::gate_at] *)
Definition gate_at (vector : Z) (t : InterruptDescriptorTable) : res InterruptGate :=
  let gate := gate_slot vector t in
  if negb (gate_present gate) then Throw out_of_range else Ok gate.

(** ** Global descriptor table *)

Module Segment.
(* [include/mnos/cpu/system/descriptor_tables.hpp] [SegmentDescriptorKind] *)
Inductive SegmentDescriptorKind : Set := CODE | DATA | TSS | COUNT.
End Segment.
Abbreviation SegmentDescriptorKind := Segment.SegmentDescriptorKind.

Definition GDT_DESCRIPTOR_COUNT : Z := 16.
Definition GDT_SELECTOR_INDEX_SHIFT : Z := 3.
Definition GDT_SELECTOR_RPL_MASK : Z := 3.

(* [src/cpu/system/descriptor_tables.cpp] [is_segment_descriptor_kind_valid] *)
Definition is_segment_descriptor_kind_valid (k : SegmentDescriptorKind) : bool :=
  match k with Segment.COUNT => false | _ => true end.
(* [src/cpu/system/descriptor_tables.cpp] [require_gdt_index] *)
Definition require_gdt_index (index : Z) : res unit :=
  if GDT_DESCRIPTOR_COUNT <=? index then Throw out_of_range else Ok tt.

(** A selector is a 16-bit value. *)
(* [include/mnos/cpu/system/descriptor_tables.hpp] [SegmentSelector] *)
Record SegmentSelector : Set := mkSelector { selector_value : Z }.
(* [src/cpu/system/descriptor_tables.cpp] [SegmentSelector::from_index] *)
Definition from_index (index : Z) (rpl : PrivilegeLevel) : res SegmentSelector :=
  _ ← require_gdt_index index;
  _ ← require_privilege_level rpl;
  ring ← privilege_level_to_ring rpl;
  Ok (mkSelector (Z.lor (Z.shiftl index GDT_SELECTOR_INDEX_SHIFT) ring `mod` 65536)).
(* [src/cpu/system/descriptor_tables.cpp] [SegmentSelector::index] *)
Definition selector_index (s : SegmentSelector) : Z := Z.shiftr (selector_value s) GDT_SELECTOR_INDEX_SHIFT.
(* [src/cpu/system/descriptor_tables.cpp] [SegmentSelector::requested_privilege_level] *)
Definition requested_privilege_level (s : SegmentSelector) : Z := Z.land (selector_value s) GDT_SELECTOR_RPL_MASK.
(* [src/cpu/system/descriptor_tables.cpp] [SegmentSelector::is_null] *)
Definition is_null (s : SegmentSelector) : bool := selector_index s =? 0.

(* [include/mnos/cpu/system/descriptor_tables.hpp] [SegmentDescriptor] *)
Record SegmentDescriptor : Set := mkDescriptor {
  sd_present : bool;
  sd_kind : SegmentDescriptorKind;
  sd_privilege_level : PrivilegeLevel;
  sd_base_address : Z;
  sd_limit_bytes : Z;
}.
(* [src/cpu/system/descriptor_tables.cpp] [SegmentDescriptor::SegmentDescriptor] *)
Definition make_descriptor (present : bool) (kind : SegmentDescriptorKind) (level : PrivilegeLevel)
    (base limit : Z) : res SegmentDescriptor :=
  if negb (is_segment_descriptor_kind_valid kind) then Throw out_of_range
  else _ ← require_privilege_level level; Ok (mkDescriptor present kind level base limit).
(* [src/cpu/system/descriptor_tables.cpp] [SegmentDescriptor::absent] *)
Definition absent_descriptor : SegmentDescriptor := mkDescriptor false Segment.DATA Ring.RING0 0 0.
(* [src/cpu/system/descriptor_tables.cpp] [SegmentDescriptor::code] *)
Definition code_descriptor (level : PrivilegeLevel) : res SegmentDescriptor :=
  make_descriptor true Segment.CODE level 0 0.
(* [src/cpu/system/descriptor_tables.cpp] [SegmentDescriptor::data] *)
Definition data_descriptor (level : PrivilegeLevel) : res SegmentDescriptor :=
  make_descriptor true Segment.DATA level 0 0.
(* [src/cpu/system/descriptor_tables.cpp] [SegmentDescriptor::tss] *)
Definition tss_descriptor (base limit : Z) : res SegmentDescriptor :=
  make_descriptor true Segment.TSS Ring.RING0 base limit.

(* [include/mnos/cpu/system/descriptor_tables.hpp] [GlobalDescriptorTable] *)
Record GlobalDescriptorTable : Set := mkGdt { descriptors : list SegmentDescriptor }.
Definition make_gdt : GlobalDescriptorTable :=
  mkGdt (replicate (Z.to_nat GDT_DESCRIPTOR_COUNT) absent_descriptor).
Definition descriptor_slot (s : SegmentSelector) (t : GlobalDescriptorTable) : SegmentDescriptor :=
  nth (Z.to_nat (selector_index s)) (descriptors t) absent_descriptor.
(* [src/cpu/system/descriptor_tables.cpp] [GlobalDescriptorTable::set_descriptor] *)
Definition set_descriptor (s : SegmentSelector) (d : SegmentDescriptor) : M GlobalDescriptorTable unit :=
  lift (fun _ => require_gdt_index (selector_index s)) ≫= fun _ =>
  modify (fun t => mkGdt (<[Z.to_nat (selector_index s) := d]> (descriptors t))).
(* [src/cpu/system/descriptor_tables.cpp] [GlobalDescriptorTable::clear_descriptor] *)
Definition clear_descriptor (s : SegmentSelector) (t : GlobalDescriptorTable) : GlobalDescriptorTable :=
  mkGdt (<[Z.to_nat (selector_index s) := absent_descriptor]> (descriptors t)).
(* [src/cpu/system/descriptor_tables.cpp] [GlobalDescriptorTable::has_descriptor] *)
Definition has_descriptor (s : SegmentSelector) (t : GlobalDescriptorTable) : bool :=
  (selector_index s <? lenZ (descriptors t)) && sd_present (descriptor_slot s t).
(* [src/cpu/system/descriptor_tables.cpp] [GlobalDescriptorTable::descriptor_at] *)
Definition descriptor_at (s : SegmentSelector) (t : GlobalDescriptorTable) : res SegmentDescriptor :=
  _ ← require_gdt_index (selector_index s);
  let descriptor := descriptor_slot s t in
  if negb (sd_present descriptor) then Throw out_of_range else Ok descriptor.

(** ** Task state segment *)

(* [include/mnos/cpu/system/descriptor_tables.hpp] [TaskStateSegment] *)
Record TaskStateSegment : Set := mkTss {
  privilege_stacks : list Z;
  privilege_stack_present : list bool;
}.
Definition make_tss : TaskStateSegment := mkTss [0; 0; 0] [false; false; false].
(* [src/cpu/system/descriptor_tables.cpp] [TaskStateSegment::privilege_stack_index] *)
Definition privilege_stack_index (level : PrivilegeLevel) : res Z :=
  _ ← require_privilege_level level;
  if bool_decide (level = Ring.RING3) then Throw out_of_range else Ok (privilege_level_to_index level).
Definition put_stack (level : PrivilegeLevel) (v : Z) (present : bool) : M TaskStateSegment unit :=
  lift (fun _ => privilege_stack_index level) ≫= fun index =>
  modify (fun t => mkTss (<[Z.to_nat index := v]> (privilege_stacks t))
                         (<[Z.to_nat index := present]> (privilege_stack_present t))).
(* [src/cpu/system/descriptor_tables.cpp] [TaskStateSegment::set_privilege_stack] *)
Definition set_privilege_stack (level : PrivilegeLevel) (stack_pointer : Z) : M TaskStateSegment unit :=
  put_stack level stack_pointer true.
(* [src/cpu/system/descriptor_tables.cpp] [TaskStateSegment::clear_privilege_stack] *)
Definition clear_privilege_stack (level : PrivilegeLevel) : M TaskStateSegment unit := put_stack level 0 false.
(* [src/cpu/system/descriptor_tables.cpp] [TaskStateSegment::has_privilege_stack] *)
Definition has_privilege_stack (level : PrivilegeLevel) (t : TaskStateSegment) : res bool :=
  index ← privilege_stack_index level; Ok (nth (Z.to_nat index) (privilege_stack_present t) false).
(* [src/cpu/system/descriptor_tables.cpp] [TaskStateSegment::privilege_stack] *)
Definition privilege_stack (level : PrivilegeLevel) (t : TaskStateSegment) : res Z :=
  index ← privilege_stack_index level;
  if negb (nth (Z.to_nat index) (privilege_stack_present t) false) then Throw out_of_range
  else Ok (nthZ (privilege_stacks t) index).

(** ** Trap controller *)

(* [include/mnos/cpu/system/trap_controller.hpp] [SyscallDescriptor] *)
Record SyscallDescriptor : Set := mkSyscall {
  syscall_enabled : bool;
  entry_rip : Z;
  rflags_mask : Z;
}.
(* [src/cpu/system/trap_controller.cpp] [SyscallDescriptor::disabled] *)
Definition syscall_disabled : SyscallDescriptor := mkSyscall false 0 0.
(* [src/cpu/system/trap_controller.cpp] [SyscallDescriptor::enabled] *)
Definition make_syscall_descriptor (entry mask : Z) : SyscallDescriptor := mkSyscall true entry mask.

(* [include/mnos/cpu/system/trap_controller.hpp] [TrapController] *)
Record TrapController : Set := mkTrapController {
  gdt : GlobalDescriptorTable;
  tss : TaskStateSegment;
  idt : InterruptDescriptorTable;
  syscall_descriptor : SyscallDescriptor;
}.
Definition make_trap_controller : TrapController := mkTrapController make_gdt make_tss make_idt syscall_disabled.
(* [src/cpu/system/trap_controller.cpp] [TrapController::load_gdt] *)
Definition load_gdt (t : GlobalDescriptorTable) (c : TrapController) : TrapController :=
  mkTrapController t (tss c) (idt c) (syscall_descriptor c).
(* [src/cpu/system/trap_controller.cpp] [TrapController::load_task_state_segment] *)
Definition load_task_state_segment (t : TaskStateSegment) (c : TrapController) : TrapController :=
  mkTrapController (gdt c) t (idt c) (syscall_descriptor c).
(* [src/cpu/system/trap_controller.cpp] [TrapController::load_idt] *)
Definition load_idt (t : InterruptDescriptorTable) (c : TrapController) : TrapController :=
  mkTrapController (gdt c) (tss c) t (syscall_descriptor c).
(* [src/cpu/system/trap_controller.cpp] [TrapController::configure_syscall] *)
Definition configure_syscall (d : SyscallDescriptor) (c : TrapController) : TrapController :=
  mkTrapController (gdt c) (tss c) (idt c) d.

Section controller.
Context (tc : TrapController).

(* [src/cpu/system/trap_controller.cpp] [TrapController::switch_to_gate_privilege] *)
Definition switch_to_gate_privilege (gate : InterruptGate) : M CpuState unit :=
  let target_level := target_privilege_level gate in
  gets privilege_level ≫= fun level =>
  if bool_decide (level = target_level) then mret tt
  else
    (if is_more_privileged target_level level then
       lift (fun _ => has_privilege_stack target_level (tss tc)) ≫= fun present =>
       throw_if (negb present) logic_error ≫= fun _ =>
       lift (fun _ => privilege_stack target_level (tss tc)) ≫= fun stack =>
       write_register Reg.RSP stack
     else mret tt) ≫= fun _ =>
    set_privilege_level target_level.

(* [src/cpu/system/trap_controller.cpp] [TrapController::dispatch_gate_trap] *)
Definition dispatch_gate_trap (kind : TrapKind) (vector return_rip : Z) (error : option Z)
  : M CpuState TrapFrame :=
  lift (fun _ => gate_at vector (idt tc)) ≫= fun gate =>
  read_register Reg.RSP ≫= fun rsp =>
  lift (fun s => make_trap_frame kind vector (rip s) return_rip (Common.raw_bits (cpu_flags s)) rsp
                   (privilege_level s) error) ≫= fun frame =>
  switch_to_gate_privilege gate ≫= fun _ =>
  modify (set_pending_trap frame) ≫= fun _ =>
  (if bool_decide (gate_type gate = Gate.INTERRUPT_GATE)
   then on_flags (fun f => write_flag f Flag.IF false) else mret tt) ≫= fun _ =>
  modify (set_rip (handler_rip gate)) ≫= fun _ =>
  mret frame.

(* [src/cpu/system/trap_controller.cpp] [TrapController::raise_exception] *)
Definition raise_exception (vector : Z) (error : option Z) : M CpuState TrapFrame :=
  gets rip ≫= fun return_rip => dispatch_gate_trap Trap.EXCEPTION vector return_rip error.
(* [src/cpu/system/trap_controller.cpp] [TrapController::raise_interrupt] *)
Definition raise_interrupt (vector : Z) : M CpuState TrapFrame :=
  gets rip ≫= fun return_rip => dispatch_gate_trap Trap.INTERRUPT vector return_rip None.
(* [src/cpu/system/trap_controller.cpp] [TrapController::raise_software_interrupt] *)
Definition raise_software_interrupt (vector return_rip : Z) : M CpuState TrapFrame :=
  dispatch_gate_trap Trap.SOFTWARE_INTERRUPT vector return_rip None.

(* [src/cpu/system/trap_controller.cpp] [TrapController::enter_syscall] *)
Definition enter_syscall (return_rip : Z) : M CpuState TrapFrame :=
  throw_if (negb (syscall_enabled (syscall_descriptor tc))) logic_error ≫= fun _ =>
  gets (fun s => Common.raw_bits (cpu_flags s)) ≫= fun original_rflags =>
  read_register Reg.RSP ≫= fun original_stack_pointer =>
  lift (fun s => make_trap_frame Trap.SYSCALL syscall_compat (rip s) return_rip original_rflags
                   original_stack_pointer (privilege_level s) None) ≫= fun frame =>
  write_register Reg.RCX return_rip ≫= fun _ =>
  write_register Reg.R11 original_rflags ≫= fun _ =>
  modify (set_pending_trap frame) ≫= fun _ =>
  lift (fun _ => has_privilege_stack Ring.RING0 (tss tc)) ≫= fun present =>
  (if present : bool then
     lift (fun _ => privilege_stack Ring.RING0 (tss tc)) ≫= fun stack => write_register Reg.RSP stack
   else mret tt) ≫= fun _ =>
  set_privilege_level Ring.RING0 ≫= fun _ =>
  on_flags (fun _ => mkRflags (Z.land original_rflags (not64 (rflags_mask (syscall_descriptor tc))))) ≫= fun _ =>
  modify (set_rip (entry_rip (syscall_descriptor tc))) ≫= fun _ =>
  mret frame.

(* [src/cpu/system/trap_controller.cpp] [TrapController::restore_from_frame] *)
Definition restore_from_frame (frame : TrapFrame) : M CpuState unit :=
  modify (set_rip (tf_return_rip frame)) ≫= fun _ =>
  on_flags (fun _ => mkRflags (tf_rflags frame)) ≫= fun _ =>
  write_register Reg.RSP (tf_stack_pointer frame) ≫= fun _ =>
  set_privilege_level (tf_privilege_level frame).
(* [src/cpu/system/trap_controller.cpp] [TrapController::restore_trap_frame] *)
Definition restore_trap_frame (frame : TrapFrame) : M CpuState unit :=
  restore_from_frame frame ≫= fun _ => modify clear_pending_trap.
(* [src/cpu/system/trap_controller.cpp] [TrapController::return_from_trap] *)
Definition return_from_trap : M CpuState unit :=
  lift get_pending_trap ≫= fun frame => restore_trap_frame frame.

(* [src/cpu/system/trap_controller.cpp] [require_canonical_syscall_return_address] *)
Definition require_canonical_syscall_return_address (address : Z) : res unit :=
  if negb (is_canonical_linear_address address) then Throw out_of_range else Ok tt.
(* [src/cpu/system/trap_controller.cpp] [TrapController::return_from_syscall] *)
Definition return_from_syscall : M CpuState unit :=
  gets pending_trap ≫= fun pending =>
  match pending with
  | Some frame =>
      if negb (bool_decide (tf_kind frame = Trap.SYSCALL)) then throw logic_error
      else
        read_register Reg.RCX ≫= fun rcx =>
        lift (fun _ => require_canonical_syscall_return_address rcx) ≫= fun _ =>
        lift (fun _ => require_canonical_syscall_return_address (tf_stack_pointer frame)) ≫= fun _ =>
        modify (set_rip rcx) ≫= fun _ =>
        read_register Reg.R11 ≫= fun r11 =>
        on_flags (fun _ => mkRflags r11) ≫= fun _ =>
        write_register Reg.RSP (tf_stack_pointer frame) ≫= fun _ =>
        set_privilege_level (tf_privilege_level frame) ≫= fun _ =>
        modify clear_pending_trap
  | None => throw logic_error
  end.
End controller.

(** ** What entry and return do to the state *)

Section lemmas.
Context (tc : TrapController).
Implicit Types s : CpuState.

(** The gate a vector selects and the stack an inward switch loads. *)
Definition new_stack (level : PrivilegeLevel) s : res Z :=
  if bool_decide (privilege_level s = level) then Ok (reg_of Reg.RSP s)
  else if is_more_privileged level (privilege_level s) then
    match has_privilege_stack level (tss tc) with
    | Ok true => privilege_stack level (tss tc)
    | Ok false => Throw logic_error
    | Throw e => Throw e
    end
  else Ok (reg_of Reg.RSP s).

Definition frame_of (kind : TrapKind) (vector return_rip : Z) (error : option Z) s : TrapFrame :=
  mkTrapFrame kind vector (rip s) return_rip (Common.raw_bits (cpu_flags s)) (reg_of Reg.RSP s)
    (privilege_level s) error.

(** The state in which a handler starts. *)
Definition entered (gate : InterruptGate) (stack : Z) (frame : TrapFrame) s : CpuState :=
  let flags := if bool_decide (gate_type gate = Gate.INTERRUPT_GATE)
    then write_flag (cpu_flags s) Flag.IF false else cpu_flags s in
  set_rip (handler_rip gate) (set_flags flags (set_pending_trap frame
    (set_level (target_privilege_level gate) (put_reg Reg.RSP stack s)))).

Lemma switch_spec gate s : is_privilege_level_valid (target_privilege_level gate) = true ->
  switch_to_gate_privilege tc gate s =
  match new_stack (target_privilege_level gate) s with
  | Ok stack => (set_level (target_privilege_level gate) (put_reg Reg.RSP stack s), Ok tt)
  | Throw e => (s, Throw e)
  end.
Proof.
  intros Hv. unfold switch_to_gate_privilege, new_stack, set_privilege_level. munfold_goal.
  case_bool_decide as Hd.
  { rewrite put_reg_same. by destruct s; simpl in *; subst. }
  destruct (is_more_privileged _ _); [|by rewrite Hv, put_reg_same].
  destruct (has_privilege_stack _ _) as [[]|]; [|done..]. cbn [negb].
  destruct (privilege_stack _ _) as [v|]; [|done]. rewrite write_register_eq by done. by rewrite Hv.
Qed.

Lemma dispatch_spec kind vector return_rip error s : cpu_wf s -> is_trap_kind_valid kind = true ->
  (forall gate, gate_at vector (idt tc) = Ok gate -> is_privilege_level_valid (target_privilege_level gate) = true) ->
  dispatch_gate_trap tc kind vector return_rip error s =
  match gate_at vector (idt tc) with
  | Throw e => (s, Throw e)
  | Ok gate =>
      let frame := frame_of kind vector return_rip error s in
      match new_stack (target_privilege_level gate) s with
      | Ok stack => (entered gate stack frame s, Ok frame)
      | Throw e => (s, Throw e)
      end
  end.
Proof.
  intros Hwf Hk Hgates. unfold dispatch_gate_trap. munfold_goal.
  destruct (gate_at vector (idt tc)) as [gate|] eqn:Hg; [|done]. specialize (Hgates gate eq_refl).
  rewrite read_register_eq by done. unfold make_trap_frame, require_trap_kind, require_privilege_level. munfold_goal.
  rewrite Hk, (cw_level s Hwf). cbn [negb]. fold (frame_of kind vector return_rip error s).
  rewrite switch_spec by done. cbn zeta. destruct (new_stack _ s) as [stack|]; [|done].
  unfold on_flags, entered. munfold_goal. by case_bool_decide.
Qed.

Definition restored (frame : TrapFrame) s : CpuState :=
  clear_pending_trap (set_level (tf_privilege_level frame) (put_reg Reg.RSP (tf_stack_pointer frame)
    (set_flags (mkRflags (tf_rflags frame)) (set_rip (tf_return_rip frame) s)))).

Lemma return_from_trap_spec frame s : pending_trap s = Some frame ->
  is_privilege_level_valid (tf_privilege_level frame) = true ->
  return_from_trap s = (restored frame s, Ok tt).
Proof.
  intros Hp Hv. unfold return_from_trap, get_pending_trap, restore_trap_frame, restore_from_frame,
    set_privilege_level, on_flags. munfold_goal. rewrite Hp. rewrite write_register_eq by done. by rewrite Hv.
Qed.

(** The state in which a system-call handler starts. *)
Definition syscall_entered (d : SyscallDescriptor) (stack : Z) (frame : TrapFrame) s : CpuState :=
  set_rip (entry_rip d) (set_flags (mkRflags (Z.land (tf_rflags frame) (not64 (rflags_mask d))))
    (set_level Ring.RING0 (put_reg Reg.RSP stack (set_pending_trap frame
      (put_reg Reg.R11 (tf_rflags frame) (put_reg Reg.RCX (tf_return_rip frame) s)))))).

Lemma syscall_entered_reg d stack frame r s : register_bank_wf (cpu_registers s) ->
  u64 (tf_return_rip frame) -> u64 (tf_rflags frame) ->
  reg_of r (syscall_entered d stack frame s) =
    if decide (r = Reg.RSP) then stack else if decide (r = Reg.R11) then tf_rflags frame
    else if decide (r = Reg.RCX) then tf_return_rip frame else reg_of r s.
Proof.
  intros Hr Hc Hf. set (s1 := put_reg Reg.RCX (tf_return_rip frame) s).
  set (s2 := put_reg Reg.R11 (tf_rflags frame) s1).
  assert (Hr1 : register_bank_wf (cpu_registers s1)) by by apply put_reg_wf.
  assert (Hr2 : register_bank_wf (cpu_registers s2)) by by apply put_reg_wf.
  transitivity (reg_of r (put_reg Reg.RSP stack s2)); [done|]. rewrite (reg_of_put Reg.RSP) by done.
  case_decide; [done|]. unfold s2. rewrite (reg_of_put Reg.R11) by done. case_decide; [done|].
  unfold s1. by rewrite (reg_of_put Reg.RCX) by done.
Qed.

Lemma ring0_stack t : (exists stack, has_privilege_stack Ring.RING0 t = Ok true /\
    privilege_stack Ring.RING0 t = Ok stack) \/
  has_privilege_stack Ring.RING0 t = Ok false /\ privilege_stack Ring.RING0 t = Throw out_of_range.
Proof.
  assert (has_privilege_stack Ring.RING0 t = Ok (nth 0 (privilege_stack_present t) false)) as -> by done.
  assert (privilege_stack Ring.RING0 t = if negb (nth 0 (privilege_stack_present t) false)
    then Throw out_of_range else Ok (nthZ (privilege_stacks t) 0)) as -> by done.
  destruct (nth 0 _ _); [|by right]. left. by eexists.
Qed.

Lemma enter_syscall_spec return_rip s s1 frame : cpu_wf s ->
  enter_syscall tc return_rip s = (s1, Ok frame) ->
  syscall_enabled (syscall_descriptor tc) = true /\
  frame = frame_of Trap.SYSCALL syscall_compat return_rip None s /\
  exists stack, s1 = syscall_entered (syscall_descriptor tc) stack frame s /\
    (privilege_stack Ring.RING0 (tss tc) = Ok stack \/
     has_privilege_stack Ring.RING0 (tss tc) = Ok false /\ stack = reg_of Reg.RSP s).
Proof.
  intros Hwf. unfold enter_syscall. munfold_goal.
  destruct (syscall_enabled _); [|done]. cbn [negb]. rewrite read_register_eq by done.
  unfold make_trap_frame, require_trap_kind, require_privilege_level. munfold_goal. rewrite (cw_level s Hwf).
  cbn [negb is_trap_kind_valid]. fold (frame_of Trap.SYSCALL syscall_compat return_rip None s).
  set (frame' := frame_of _ _ _ _ _) in *. rewrite !write_register_eq by done. cbn beta iota.
  destruct (ring0_stack (tss tc)) as [[stack [-> Hs]]|[-> Hs]]; cbn beta iota.
  - rewrite Hs, write_register_eq by done. intros [= <- <-]. do 2 (split; [done|]). exists stack.
    split; [done|]. by left.
  - intros [= <- <-]. do 2 (split; [done|]). exists (reg_of Reg.RSP s).
    split; [|by right]. unfold syscall_entered.
    set (s0 := set_pending_trap frame' _). rewrite <- (put_reg_same Reg.RSP s0) at 1.
    replace (reg_of Reg.RSP s0) with (reg_of Reg.RSP s); [done|]. symmetry.
    change (reg_of Reg.RSP s0) with (reg_of Reg.RSP (put_reg Reg.R11 (Common.raw_bits (cpu_flags s))
      (put_reg Reg.RCX return_rip s))). by rewrite !reg_of_put_ne.
Qed.
End lemmas.

(** ** Properties *)

(** Every gate of a table names a valid privilege level, as the gate constructors ensure. *)
Definition idt_wf (t : InterruptDescriptorTable) : Prop :=
  length (gates t) = 256%nat /\
  forall gate, gate ∈ gates t -> is_privilege_level_valid (target_privilege_level gate) = true.

Lemma gate_at_wf t vector gate : idt_wf t -> gate_at vector t = Ok gate ->
  is_privilege_level_valid (target_privilege_level gate) = true.
Proof.
  intros [Hl Hg]. unfold gate_at, gate_slot. destruct (negb _); [done|]. intros [= <-].
  destruct (nth_in_or_default (Z.to_nat vector) (gates t) absent_gate) as [Hin| ->]; [|done].
  by apply Hg, list_elem_of_In.
Qed.

(** C22. A trap entered through a gate is precise and returns exactly: the handler starts at the gate's
    address and privilege level, on the TSS stack when it is more privileged, with interrupts masked
    for an interrupt gate only; whatever the handler does, as long as the frame is still pending the
    return resumes at the return address with the interrupted flags, stack pointer and privilege
    level and leaves every other register as the handler left it. *)
Theorem trap_entry_and_return tc kind vector return_rip error s s1 frame : cpu_wf s ->
  is_trap_kind_valid kind = true -> idt_wf (idt tc) ->
  dispatch_gate_trap tc kind vector return_rip error s = (s1, Ok frame) ->
  (exists gate, gate_at vector (idt tc) = Ok gate /\
    rip s1 = handler_rip gate /\ privilege_level s1 = target_privilege_level gate /\
    pending_trap s1 = Some frame /\ cpu_paging s1 = cpu_paging s /\
    (forall r, r <> Reg.RSP -> reg_of r s1 = reg_of r s) /\
    (is_more_privileged (target_privilege_level gate) (privilege_level s) = true ->
       privilege_stack (target_privilege_level gate) (tss tc) = Ok (reg_of Reg.RSP s1)) /\
    (forall id, id <> Flag.COUNT -> read_flag (cpu_flags s1) id =
       read_flag (cpu_flags s) id && negb (bool_decide (id = Flag.IF /\ gate_type gate = Gate.INTERRUPT_GATE)))) /\
  forall s2, pending_trap s2 = Some frame -> register_bank_wf (cpu_registers s2) ->
    exists s3, return_from_trap s2 = (s3, Ok tt) /\ rip s3 = return_rip /\
      cpu_flags s3 = cpu_flags s /\ privilege_level s3 = privilege_level s /\ pending_trap s3 = None /\
      cpu_paging s3 = cpu_paging s2 /\
      forall r, reg_of r s3 = if decide (r = Reg.RSP) then reg_of Reg.RSP s else reg_of r s2.
Proof.
  intros Hwf Hk Hidt Hd. rewrite dispatch_spec in Hd; [|done..|intros gate; by apply gate_at_wf].
  destruct (gate_at vector (idt tc)) as [gate|] eqn:Hg; [|done]. cbn zeta in Hd.
  destruct (new_stack tc (target_privilege_level gate) s) as [stack|] eqn:Hst; [|done]. injection Hd as <- <-.
  pose proof (cw_registers s Hwf) as Hr. split.
  - exists gate. split; [done|]. do 4 (split; [done|]). split; [|split].
    + intros r Hne. etransitivity; [exact (reg_of_put Reg.RSP r stack s Hr eq_refl)|]. by rewrite decide_False.
    + intros Hm. unfold new_stack in Hst. case_bool_decide as Heq.
      { unfold is_more_privileged in Hm. rewrite Heq, Z.ltb_irrefl in Hm. done. }
      rewrite Hm in Hst. destruct (has_privilege_stack _ _) as [[]|]; [|done..]. rewrite Hst. f_equal.
      symmetry. exact (reg_of_put Reg.RSP Reg.RSP stack s Hr eq_refl).
    + intros id Hid. unfold entered. cbn [cpu_flags set_rip set_flags]. case_bool_decide as Hgt.
      * rewrite read_write_flag by (done || apply (cw_flags s Hwf)). case_decide as Hi.
        -- rewrite bool_decide_true by done. by rewrite andb_false_r.
        -- rewrite bool_decide_false by naive_solver. by rewrite andb_true_r.
      * rewrite bool_decide_false by naive_solver. by rewrite andb_true_r.
  - intros s2 Hp Hr2. exists (restored (frame_of kind vector return_rip error s) s2).
    split; [apply return_from_trap_spec; [done|apply (cw_level s Hwf)]|].
    split; [done|]. split; [by destruct (cpu_flags s) eqn:E; unfold restored; simpl; rewrite E|].
    do 3 (split; [done|]). intros r.
    etransitivity; [exact (reg_of_put Reg.RSP r (reg_of Reg.RSP s)
      (set_flags (mkRflags (Common.raw_bits (cpu_flags s))) (set_rip return_rip s2)) Hr2 eq_refl)|].
    by case_decide.
Qed.

(** A trap that cannot be delivered changes nothing: the only failures are an absent gate and an
    inward privilege switch for which the TSS has no stack, and both leave the whole processor state
    as it was. *)
Theorem failed_trap_is_harmless tc kind vector return_rip error s s1 e : cpu_wf s ->
  is_trap_kind_valid kind = true -> idt_wf (idt tc) ->
  dispatch_gate_trap tc kind vector return_rip error s = (s1, Throw e) ->
  s1 = s /\ (e = out_of_range /\ has_gate vector (idt tc) = false \/
    e = logic_error /\ exists gate, gate_at vector (idt tc) = Ok gate /\
      is_more_privileged (target_privilege_level gate) (privilege_level s) = true /\
      has_privilege_stack (target_privilege_level gate) (tss tc) = Ok false).
Proof.
  intros Hwf Hk Hidt Hd. rewrite dispatch_spec in Hd; [|done..|intros gate; by apply gate_at_wf].
  destruct (gate_at vector (idt tc)) as [gate|] eqn:Hg; cbn zeta in Hd.
  2:{ injection Hd as <- <-. split; [done|]. left. unfold gate_at in Hg. unfold has_gate.
      destruct (gate_present _); [done|]. by injection Hg as <-. }
  destruct (new_stack tc (target_privilege_level gate) s) as [stack|] eqn:Hst; [done|]. injection Hd as <- <-.
  split; [done|]. right. unfold new_stack in Hst. case_bool_decide as Heq; [done|].
  destruct (is_more_privileged (target_privilege_level gate) (privilege_level s)) eqn:Hm; [|done].
  pose proof (gate_at_wf _ _ _ Hidt Hg) as Hv. pose proof (cw_level s Hwf) as Hl.
  destruct (has_privilege_stack (target_privilege_level gate) (tss tc)) as [[]|] eqn:Hh.
  - exfalso. unfold has_privilege_stack, privilege_stack in *. munfold.
    destruct (privilege_stack_index _); [|done]. injection Hh as Hp. by rewrite Hp in Hst.
  - injection Hst as <-. split; [done|]. by exists gate.
  - exfalso. unfold has_privilege_stack, privilege_stack_index, require_privilege_level in Hh. munfold.
    rewrite Hv in Hh. cbn [negb] in Hh. case_bool_decide as H3; [|done]. rewrite H3 in Hm.
    unfold is_more_privileged, is_privilege_level_valid in *. apply Z.ltb_lt in Hm, Hl. simpl in Hm. lia.
Qed.

(** A system call saves what its return needs and nothing else is lost: entry loads the return
    address into RCX and the flags into R11, masks the flags and enters ring 0 at the configured
    address, changing only RCX, R11 and the stack pointer; the return resumes at RCX with the flags
    of R11 and the caller's stack and privilege level, and a return to a non-canonical address or
    stack is refused with the processor state unchanged. *)
Theorem syscall_round_trip tc return_rip s s1 frame : cpu_wf s -> u64 return_rip ->
  enter_syscall tc return_rip s = (s1, Ok frame) ->
  (rip s1 = entry_rip (syscall_descriptor tc) /\ privilege_level s1 = Ring.RING0 /\
   pending_trap s1 = Some frame /\ cpu_paging s1 = cpu_paging s /\
   reg_of Reg.RCX s1 = return_rip /\ reg_of Reg.R11 s1 = Common.raw_bits (cpu_flags s) /\
   (forall r, r <> Reg.RCX -> r <> Reg.R11 -> r <> Reg.RSP -> reg_of r s1 = reg_of r s) /\
   (forall i, 0 <= i < 64 -> Z.testbit (Common.raw_bits (cpu_flags s1)) i =
      Z.testbit (Common.raw_bits (cpu_flags s)) i && negb (Z.testbit (rflags_mask (syscall_descriptor tc)) i))) /\
  forall s2, pending_trap s2 = Some frame -> register_bank_wf (cpu_registers s2) ->
    if is_canonical_linear_address (reg_of Reg.RCX s2) && is_canonical_linear_address (reg_of Reg.RSP s)
    then exists s3, return_from_syscall s2 = (s3, Ok tt) /\
      rip s3 = reg_of Reg.RCX s2 /\ Common.raw_bits (cpu_flags s3) = reg_of Reg.R11 s2 /\
      privilege_level s3 = privilege_level s /\ pending_trap s3 = None /\ cpu_paging s3 = cpu_paging s2 /\
      forall r, reg_of r s3 = if decide (r = Reg.RSP) then reg_of Reg.RSP s else reg_of r s2
    else return_from_syscall s2 = (s2, Throw out_of_range).
Proof.
  intros Hwf Hret He. apply enter_syscall_spec in He as (_ & -> & stack & -> & _); [|done].
  set (frame := frame_of _ _ _ _ _). pose proof (cw_registers s Hwf) as Hr.
  assert (Hregs := fun r => syscall_entered_reg (syscall_descriptor tc) stack frame r s Hr Hret (cw_flags s Hwf)).
  split.
  - do 4 (split; [done|]). split; [by rewrite Hregs|]. split; [by rewrite Hregs|]. split.
    + intros r H1 H2 H3. by rewrite Hregs, !decide_False.
    + intros i Hi. unfold syscall_entered. cbn [cpu_flags set_rip set_flags Common.raw_bits tf_rflags frame frame_of].
      rewrite Z.land_spec, not64_spec by lia. destruct (Z.ltb_spec i 64); [|lia]. by destruct (Z.testbit (rflags_mask _) i).
  - intros s2 Hp Hr2. unfold return_from_syscall, require_canonical_syscall_return_address, on_flags,
      set_privilege_level. munfold_goal. rewrite Hp. cbn [tf_kind tf_stack_pointer tf_privilege_level frame frame_of].
    rewrite bool_decide_true by done. cbn [negb]. rewrite read_register_eq by done. cbn beta iota.
    destruct (is_canonical_linear_address (reg_of Reg.RCX s2)); [|done]. cbn [negb andb].
    destruct (is_canonical_linear_address (reg_of Reg.RSP s)); [|done]. cbn [negb].
    rewrite read_register_eq by done. cbn beta iota. rewrite write_register_eq by done. cbn beta iota.
    rewrite (cw_level s Hwf). cbn [negb]. eexists. split; [reflexivity|]. do 5 (split; [done|]). intros r.
    etransitivity; [|exact (reg_of_put Reg.RSP r (reg_of Reg.RSP s) s2 Hr2 eq_refl)]. done.
Qed.

(** ** Witnesses *)

(** A kernel with a page-fault gate, a breakpoint gate open to ring 1 and a system-call entry, and a
    user program interrupted in ring 3 with interrupts enabled. *)
Definition sample_controller : TrapController :=
  mkTrapController make_gdt (mkTss [0x9000; 0; 0] [true; false; false])
    (set_gate 3 (mkGate true Gate.TRAP_GATE 0x8100 Ring.RING1)
      (set_gate 14 (mkGate true Gate.INTERRUPT_GATE 0x8000 Ring.RING0) make_idt))
    (make_syscall_descriptor 0x7000 0x200).
Definition sample_user : CpuState :=
  mkCpuState (mkRegisterBank (<[7%nat := 0x5000]> (replicate 16 1))) (mkRflags 0x202) make_paging_state 0
    0x4000 Ring.RING3 None false.

Lemma sample_user_wf : cpu_wf sample_user.
Proof.
  split; [by apply register_bank_check|by split..|done].
Qed.
Lemma sample_idt_wf : idt_wf (idt sample_controller).
Proof.
  split; [done|]. intros gate Hg. unfold sample_controller, set_gate in Hg. cbn [idt gates] in Hg.
  apply list_elem_of_lookup in Hg as [i Hi]. apply list_lookup_insert_Some in Hi as [(_ & <- & _)|[_ Hi]]; [done|].
  apply list_lookup_insert_Some in Hi as [(_ & <- & _)|[_ Hi]]; [done|].
  unfold make_idt in Hi. cbn [gates] in Hi. by apply lookup_replicate in Hi as [-> _].
Qed.

Lemma trap_entry_and_return_witness :
  let run := raise_exception sample_controller page_fault_vector (Some 6) sample_user in
  exists s1 frame, run = (s1, Ok frame) /\ rip s1 = 0x8000 /\ reg_of Reg.RSP s1 = 0x9000 /\
    exists s3, return_from_trap s1 = (s3, Ok tt) /\ rip s3 = 0x4000 /\ privilege_level s3 = Ring.RING3.
Proof.
  intros run. eexists _, _. split; [reflexivity|]. split; [reflexivity|]. split; [reflexivity|].
  pose proof (trap_entry_and_return sample_controller Trap.EXCEPTION page_fault_vector 0x4000 (Some 6)
    sample_user _ _ sample_user_wf eq_refl sample_idt_wf eq_refl) as [_ Hret].
  assert (Hw : register_bank_wf (cpu_registers run.1)) by (apply register_bank_check; reflexivity).
  destruct (Hret run.1 eq_refl Hw) as (s3 & Hr & Hrip & _ & Hl & _). by exists s3.
Defined.

Lemma failed_trap_is_harmless_witness :
  let run := raise_exception sample_controller 3 None sample_user in
  run = (sample_user, Throw logic_error) /\
  (logic_error = out_of_range /\ has_gate 3 (idt sample_controller) = false \/
   logic_error = logic_error /\ exists gate, gate_at 3 (idt sample_controller) = Ok gate /\
     is_more_privileged (target_privilege_level gate) (privilege_level sample_user) = true /\
     has_privilege_stack (target_privilege_level gate) (tss sample_controller) = Ok false).
Proof.
  intros run. split; [reflexivity|].
  exact (proj2 (failed_trap_is_harmless sample_controller Trap.EXCEPTION 3 0x4000 None sample_user sample_user
    logic_error sample_user_wf eq_refl sample_idt_wf eq_refl)).
Defined.

Lemma syscall_round_trip_witness :
  exists s1 frame, enter_syscall sample_controller 0x4002 sample_user = (s1, Ok frame) /\
    reg_of Reg.RCX s1 = 0x4002 /\ reg_of Reg.R11 s1 = 0x202 /\
    exists s3, return_from_syscall s1 = (s3, Ok tt) /\ rip s3 = 0x4002 /\ privilege_level s3 = Ring.RING3.
Proof.
  set (run := enter_syscall sample_controller 0x4002 sample_user).
  eexists _, _. split; [reflexivity|].
  pose proof (syscall_round_trip sample_controller 0x4002 sample_user _ _ sample_user_wf
    ltac:(by split) eq_refl) as [(_ & _ & _ & _ & Hc & Hf & _) Hret].
  split; [exact Hc|]. split; [exact Hf|].
  assert (Hw : register_bank_wf (cpu_registers run.1)) by (apply register_bank_check; reflexivity).
  destruct (Hret run.1 eq_refl Hw) as (s3 & Hr & Hrip & _ & Hl & _). by exists s3.
Defined.
