(* ===== verification/Decoder.v ===== *)
(** * Instruction decoder

    Models src/cpu/decode/decoder.cpp: the decode cursor over an executable image, prefixes, ModRM
    and SIB operands, and the opcode dispatch of [Decoder::decode], branch by branch. *)

From S2P Require Import Prelude Logic Common Instruction Trap.

(** ** Signed integers *)

(** The two's complement reading of the low [bits] bits of an unsigned value below [2^bits]. *)
Definition signed_of (bits v : Z) : Z := if v <? 2 ^ (bits - 1) then v else v - 2 ^ bits.

Lemma signed_of_range bits v : 0 < bits -> 0 <= v < 2 ^ bits ->
  - 2 ^ (bits - 1) <= signed_of bits v < 2 ^ (bits - 1).
Proof.
  intros Hb Hv. unfold signed_of. assert (2 ^ bits = 2 * 2 ^ (bits - 1)).
  { rewrite <- Z.pow_succ_r by lia. f_equal. lia. }
  destruct (Z.ltb_spec v (2 ^ (bits - 1))); lia.
Qed.

(** ** Decoded pieces *)

(* [src/cpu/decode/decoder.cpp] [RexPrefix] *)
Record RexPrefix : Set := mkRex { rex_w : bool; rex_r : bool; rex_x : bool; rex_b : bool }.
(* [src/cpu/decode/decoder.cpp] [InstructionPrefixes] *)
Record InstructionPrefixes : Set := mkPrefixes { prefix_rex : RexPrefix; prefix_locked : bool }.
(* [src/cpu/decode/decoder.cpp] [ModRmByte] *)
Record ModRmByte : Set := mkModRm { modrm_mod : Z; modrm_reg : Z; modrm_rm : Z }.
(* [src/cpu/decode/decoder.cpp] [SibByte] *)
Record SibByte : Set := mkSib { sib_scale : Z; sib_index : Z; sib_base : Z }.

Module Binary.
(* [src/cpu/decode/decoder.cpp] [BinaryInstructionKind] *)
Inductive BinaryInstructionKind : Set := MOV | ADD | SUB | CMP | AND | OR | XOR | TEST.
End Binary.
Abbreviation BinaryInstructionKind := Binary.BinaryInstructionKind.
Module Unary.
(* [src/cpu/decode/decoder.cpp] [UnaryInstructionKind] *)
Inductive UnaryInstructionKind : Set := INC | DEC | PUSH | POP | CALL.
End Unary.
Abbreviation UnaryInstructionKind := Unary.UnaryInstructionKind.

(* [include/mnos/cpu/decode/decoder.hpp] [DecodedInstruction] *)
Record DecodedInstruction : Set := mkDecoded {
  instruction : Instruction;
  start_rip : Z;
  decoded_next_rip : Z;
}.

(** ** The cursor

    A cursor is a reference to an image, an argument here, and the instruction pointer it has
    reached, the state.  [++rip_] wraps at 64 bits. *)

Definition Cursor (A : Type) : Type := ExecutableImage -> M Z A.
#[export] Instance Cursor_ret : MRet Cursor := fun _ a _ => mret a.
#[export] Instance Cursor_bind : MBind Cursor := fun _ _ k c image => c image ≫= fun a => k a image.
Definition cursor_rip : Cursor Z := fun _ => get.
Definition cursor_throw {A} : Cursor A := fun _ => throw decode_error.
Definition decode_error_if (b : bool) : Cursor unit := fun _ => throw_if b decode_error.
(** A call of a function that may throw and does not use the cursor. *)
Definition checked {A} (r : res A) : Cursor A := fun _ => lift (fun _ => r).

(* [src/cpu/decode/decoder.cpp] [DecodeCursor::peek_u8] [184-191] *)
Definition peek_u8 : Cursor Z := fun image rip =>
  if negb (image_contains_rip image rip) then (rip, Throw decode_error)
  else (rip, byte_at image rip).
(* [src/cpu/decode/decoder.cpp] [DecodeCursor::read_u8] [193-203] *)
Definition read_u8 : Cursor Z := fun image rip =>
  if negb (image_contains_rip image rip) then (rip, Throw decode_error)
  else match byte_at image rip with
       | Ok value => (add64 rip 1, Ok value)
       | Throw e => (rip, Throw e)
       end.
(* [src/cpu/decode/decoder.cpp] [DecodeCursor::read_i8] [205-208] *)
Definition read_i8 : Cursor Z := read_u8 ≫= fun v => mret (signed_of 8 v).
(** The loops [value |= read_u8() << (byte_index * 8)] over the byte indices. *)
Fixpoint read_bytes_le (indices : list Z) (value : Z) : Cursor Z :=
  match indices with
  | [] => mret value
  | byte_index :: rest =>
      read_u8 ≫= fun b => read_bytes_le rest (Z.lor value (Z.shiftl b (byte_index * 8)))
  end.
(* [src/cpu/decode/decoder.cpp] [DecodeCursor::read_u32] [210-218] *)
Definition read_u32 : Cursor Z := read_bytes_le [0; 1; 2; 3] 0.
(* [src/cpu/decode/decoder.cpp] [DecodeCursor::read_i32] [220-223] *)
Definition read_i32 : Cursor Z := read_u32 ≫= fun v => mret (signed_of 32 v).
(* [src/cpu/decode/decoder.cpp] [DecodeCursor::read_u64] [225-233] *)
Definition read_u64 : Cursor Z := read_bytes_le [0; 1; 2; 3; 4; 5; 6; 7] 0.

(** ** Prefixes *)

(* [src/cpu/decode/decoder.cpp] [is_rex_prefix] *)
Definition is_rex_prefix (value : Z) : bool := (0x40 <=? value) && (value <=? 0x4F).
Definition no_prefixes : InstructionPrefixes := mkPrefixes (mkRex false false false false) false.
(** The loop body on the byte peeked: the prefixes it updates, or nothing when the loop stops. *)
Definition apply_prefix (value : Z) (p : InstructionPrefixes) : option InstructionPrefixes :=
  if value =? 0xF0 then Some (mkPrefixes (prefix_rex p) true)
  else if is_rex_prefix value then
    Some (mkPrefixes (mkRex (negb (Z.land value 8 =? 0)) (negb (Z.land value 4 =? 0))
      (negb (Z.land value 2 =? 0)) (negb (Z.land value 1 =? 0))) (prefix_locked p))
  else None.
Fixpoint prefix_loop (fuel : nat) (p : InstructionPrefixes) : Cursor InstructionPrefixes :=
  match fuel with
  | O => mret p
  | S fuel' =>
      peek_u8 ≫= fun value =>
      match apply_prefix value p with
      | Some p' => read_u8 ≫= fun _ => prefix_loop fuel' p'
      | None => mret p
      end
  end.
(** Every iteration but the last reads a byte of the image. *)
(* [src/cpu/decode/decoder.cpp] [read_instruction_prefixes] *)
Definition read_instruction_prefixes : Cursor InstructionPrefixes := fun image =>
  prefix_loop (S (length (image_bytes image))) no_prefixes image.

(* [src/cpu/decode/decoder.cpp] [require_rex_w] *)
Definition require_rex_w (rex : RexPrefix) : Cursor unit := decode_error_if (negb (rex_w rex)).
(* [src/cpu/decode/decoder.cpp] [require_unlocked] *)
Definition require_unlocked (locked : bool) : Cursor unit := decode_error_if locked.
(* [src/cpu/decode/decoder.cpp] [require_lockable_memory_destination] *)
Definition require_lockable_memory_destination (destination : Operand) (locked : bool) : Cursor unit :=
  decode_error_if (locked && negb (is_memory destination)).

(** ** ModRM and SIB operands *)

(* [src/cpu/decode/decoder.cpp] [read_modrm] *)
Definition read_modrm : Cursor ModRmByte :=
  read_u8 ≫= fun value =>
  mret (mkModRm (Z.land (Z.shiftr value 6) 3) (Z.land (Z.shiftr value 3) 7) (Z.land value 7)).
(* [src/cpu/decode/decoder.cpp] [read_sib] *)
Definition read_sib : Cursor SibByte :=
  read_u8 ≫= fun value =>
  mret (mkSib (Z.land (Z.shiftr value 6) 3) (Z.land (Z.shiftr value 3) 7) (Z.land value 7)).
(* [src/cpu/decode/decoder.cpp] [sib_scale_to_multiplier] *)
Definition sib_scale_to_multiplier (scale_bits : Z) : Z := Z.land (Z.shiftl 1 scale_bits) 255.
(** An index outside the table is undefined in C++; here it gives the sentinel, which every operand
    constructor refuses. *)
(* [src/cpu/decode/decoder.cpp] [register_from_index] *)
Definition register_from_index (index : Z) : RegisterId :=
  nth (Z.to_nat index)
    [Reg.RAX; Reg.RCX; Reg.RDX; Reg.RBX; Reg.RSP; Reg.RBP; Reg.RSI; Reg.RDI;
     Reg.R8; Reg.R9; Reg.R10; Reg.R11; Reg.R12; Reg.R13; Reg.R14; Reg.R15] Reg.COUNT.
(* [src/cpu/decode/decoder.cpp] [decode_register] *)
Definition decode_register (encoded : Z) (high_bit : bool) : RegisterId :=
  register_from_index (Z.land (encoded + (if high_bit then 8 else 0)) 255).
(* [src/cpu/decode/decoder.cpp] [qword_to_signed_immediate] *)
Definition qword_to_signed_immediate (value : Z) : Z := signed_of 64 value.

(* [src/cpu/decode/decoder.cpp] [read_modrm_displacement] *)
Definition read_modrm_displacement (m : ModRmByte) : Cursor Z :=
  if modrm_mod m =? 1 then read_i8
  else if modrm_mod m =? 2 then read_i32
  else mret 0.
(* [src/cpu/decode/decoder.cpp] [make_memory_operand_from_sib] *)
Definition make_memory_operand_from_sib (m : ModRmByte) (rex : RexPrefix) (data_size : DataSize)
  : Cursor Operand :=
  read_sib ≫= fun sib =>
  let has_index := negb (sib_index sib =? 4) || rex_x rex in
  let has_base := negb ((modrm_mod m =? 0) && (sib_base sib =? 5)) in
  read_modrm_displacement m ≫= fun modrm_displacement =>
  (if negb has_base then read_i32 else mret modrm_displacement) ≫= fun displacement =>
  checked (
    if has_base && has_index then
      indexed_mem (decode_register (sib_base sib) (rex_b rex)) (decode_register (sib_index sib) (rex_x rex))
        (sib_scale_to_multiplier (sib_scale sib)) displacement data_size
    else if has_base then mem_base (decode_register (sib_base sib) (rex_b rex)) displacement data_size
    else if has_index then
      address ← index_displacement (decode_register (sib_index sib) (rex_x rex))
        (sib_scale_to_multiplier (sib_scale sib)) displacement;
      mem address data_size
    else absolute_mem (wrap64 displacement) data_size).
(* [src/cpu/decode/decoder.cpp] [decode_rm_operand] *)
Definition decode_rm_operand (m : ModRmByte) (rex : RexPrefix) (data_size : DataSize) : Cursor Operand :=
  if modrm_mod m =? 3 then checked (reg (decode_register (modrm_rm m) (rex_b rex)) data_size)
  else if modrm_rm m =? 4 then make_memory_operand_from_sib m rex data_size
  else if (modrm_mod m =? 0) && (modrm_rm m =? 5) then
    read_i32 ≫= fun displacement =>
    cursor_rip ≫= fun rip =>
    checked (absolute_mem (add64 rip (wrap64 displacement)) data_size)
  else
    read_modrm_displacement m ≫= fun displacement =>
    checked (mem_base (decode_register (modrm_rm m) (rex_b rex)) displacement data_size).
(* [src/cpu/decode/decoder.cpp] [decode_reg_operand] *)
Definition decode_reg_operand (encoded : Z) (rex : RexPrefix) (data_size : DataSize) : Cursor Operand :=
  checked (reg (decode_register encoded (rex_r rex)) data_size).

(* [src/cpu/decode/decoder.cpp] [relative_target] *)
Definition relative_target (next_rip displacement : Z) : Z := add64 next_rip (wrap64 displacement).

(** ** Instruction builders *)

(* [src/cpu/decode/decoder.cpp] [make_binary_instruction] *)
Definition make_binary_instruction (kind : BinaryInstructionKind) (destination source : Operand) : Instruction :=
  match kind with
  | Binary.MOV => make_mov destination source
  | Binary.ADD => make_add destination source
  | Binary.SUB => make_sub destination source
  | Binary.CMP => make_cmp destination source
  | Binary.AND => make_and destination source
  | Binary.OR => make_or destination source
  | Binary.XOR => make_xor destination source
  | Binary.TEST => make_test destination source
  end.
(* [src/cpu/decode/decoder.cpp] [make_unary_instruction] *)
Definition make_unary_instruction (kind : UnaryInstructionKind) (operand : Operand) : Instruction :=
  match kind with
  | Unary.INC => make_inc operand
  | Unary.DEC => make_dec operand
  | Unary.PUSH => make_push operand
  | Unary.POP => make_pop operand
  | Unary.CALL => make_call operand
  end.
(** [static_cast<ConditionCode>] of a nibble: the enumeration lists the sixteen codes in order. *)
(* [src/cpu/decode/decoder.cpp] [condition_from_opcode] *)
Definition condition_from_opcode (opcode : Z) : ConditionCode :=
  nth (Z.to_nat (Z.land opcode 15))
    [Cond.O; Cond.NO; Cond.B; Cond.AE; Cond.E; Cond.NE; Cond.BE; Cond.A;
     Cond.S; Cond.NS; Cond.P; Cond.NP; Cond.L; Cond.GE; Cond.LE; Cond.G] Cond.COUNT.
(* [src/cpu/decode/decoder.cpp] [make_conditional_jump_instruction] *)
Definition make_conditional_jump_instruction (condition : ConditionCode) (target : Z) : Cursor Instruction :=
  let immediate := signed_of 64 target in
  if decide (condition = Cond.E) then mret (make_je (imm immediate))
  else if decide (condition = Cond.NE) then mret (make_jne (imm immediate))
  else checked (make_jcc condition (imm immediate)).
(* [src/cpu/decode/decoder.cpp] [make_unconditional_jump_instruction] *)
Definition make_unconditional_jump_instruction (target : Z) : Instruction := make_jmp (imm (signed_of 64 target)).
(* [src/cpu/decode/decoder.cpp] [rm_operand_is_destination_opcode] *)
Definition rm_operand_is_destination_opcode (opcode : Z) : bool :=
  (opcode =? 0x89) || (opcode =? 0x01) || (opcode =? 0x09) || (opcode =? 0x21) ||
  (opcode =? 0x29) || (opcode =? 0x31) || (opcode =? 0x39) || (opcode =? 0x85).
(* [src/cpu/decode/decoder.cpp] [binary_kind_from_opcode] *)
Definition binary_kind_from_opcode (opcode : Z) : option BinaryInstructionKind :=
  match opcode with
  | 0x89 | 0x8B => Some Binary.MOV
  | 0x01 | 0x03 => Some Binary.ADD
  | 0x09 | 0x0B => Some Binary.OR
  | 0x21 | 0x23 => Some Binary.AND
  | 0x29 | 0x2B => Some Binary.SUB
  | 0x31 | 0x33 => Some Binary.XOR
  | 0x39 | 0x3B => Some Binary.CMP
  | 0x85 => Some Binary.TEST
  | _ => None
  end.
(* [src/cpu/decode/decoder.cpp] [make_group1_instruction] *)
Definition make_group1_instruction (extension : Z) (destination immediate : Operand) : Cursor Instruction :=
  if extension =? 0 then mret (make_add destination immediate)
  else if extension =? 1 then mret (make_or destination immediate)
  else if extension =? 4 then mret (make_and destination immediate)
  else if extension =? 5 then mret (make_sub destination immediate)
  else if extension =? 6 then mret (make_xor destination immediate)
  else if extension =? 7 then mret (make_cmp destination immediate)
  else cursor_throw.
(* [src/cpu/decode/decoder.cpp] [make_group5_instruction] *)
Definition make_group5_instruction (extension : Z) (operand : Operand) : Cursor Instruction :=
  if extension =? 0 then mret (make_unary_instruction Unary.INC operand)
  else if extension =? 1 then mret (make_unary_instruction Unary.DEC operand)
  else if extension =? 2 then mret (make_unary_instruction Unary.CALL operand)
  else if extension =? 6 then mret (make_unary_instruction Unary.PUSH operand)
  else cursor_throw.

(* [include/mnos/cpu/system/interrupt_vector.hpp] [InterruptVector::breakpoint] [35-38] *)
Definition breakpoint_vector : Z := 3.

(** ** The dispatch

    [Decoder::decode] is one chain of tests; it is split where the opcodes divide into groups: those
    that take no ModRM byte, those that do, the relative jumps, and the 0x0F escape. *)

Section dispatch.
Variable rex : RexPrefix.
Variable locked : bool.

(** The rest of the chain, run when none of a group's tests holds. *)
Let Otherwise := Cursor Instruction.

Definition in_range (lo opcode hi : Z) : bool := (lo <=? opcode) && (opcode <=? hi).

(* [src/cpu/decode/decoder.cpp] [Decoder::decode] [659-710] *)
Definition decode_plain (opcode : Z) (otherwise : Otherwise) : Cursor Instruction :=
  if opcode =? 0xF4 then mret make_hlt
  else if opcode =? 0xCC then mret (make_int breakpoint_vector)
  else if opcode =? 0xCD then read_u8 ≫= fun vector => mret (make_int vector)
  else if opcode =? 0xC3 then mret make_ret
  else if opcode =? 0xCF then mret make_iret
  else if in_range 0x50 opcode 0x57 then
    checked (reg_qword (decode_register (opcode - 0x50) (rex_b rex))) ≫= fun source =>
    mret (make_push source)
  else if in_range 0x58 opcode 0x5F then
    checked (reg_qword (decode_register (opcode - 0x58) (rex_b rex))) ≫= fun destination =>
    mret (make_pop destination)
  else if opcode =? 0x6A then read_i8 ≫= fun v => mret (make_push (imm v))
  else if opcode =? 0x68 then read_i32 ≫= fun v => mret (make_push (imm v))
  else if opcode =? 0xE8 then
    read_i32 ≫= fun displacement =>
    cursor_rip ≫= fun rip =>
    mret (make_call (imm (signed_of 64 (relative_target rip displacement))))
  else if in_range 0xB8 opcode 0xBF then
    require_rex_w rex ≫= fun _ =>
    checked (reg_qword (decode_register (opcode - 0xB8) (rex_b rex))) ≫= fun destination =>
    read_u64 ≫= fun v =>
    mret (make_mov destination (imm (qword_to_signed_immediate v)))
  else otherwise.

(** The arguments of [make_movsx] are decoded in an order C++ leaves open; only one of them reads. *)
(* [src/cpu/decode/decoder.cpp] [Decoder::decode] [711-785] *)
Definition decode_modrm_group (opcode : Z) (otherwise : Otherwise) : Cursor Instruction :=
  if opcode =? 0x63 then
    require_rex_w rex ≫= fun _ =>
    read_modrm ≫= fun m =>
    decode_reg_operand (modrm_reg m) rex Size.QWORD ≫= fun destination =>
    decode_rm_operand m rex Size.DWORD ≫= fun source =>
    mret (make_movsx destination source)
  else if opcode =? 0x8D then
    require_rex_w rex ≫= fun _ =>
    read_modrm ≫= fun m =>
    decode_rm_operand m rex Size.QWORD ≫= fun source =>
    decode_error_if (negb (is_memory source)) ≫= fun _ =>
    decode_reg_operand (modrm_reg m) rex Size.QWORD ≫= fun destination =>
    mret (make_lea destination source)
  else match binary_kind_from_opcode opcode with
  | Some decoded_kind =>
    require_rex_w rex ≫= fun _ =>
    read_modrm ≫= fun m =>
    decode_rm_operand m rex Size.QWORD ≫= fun rm_operand =>
    decode_reg_operand (modrm_reg m) rex Size.QWORD ≫= fun reg_operand =>
    mret (if rm_operand_is_destination_opcode opcode
          then make_binary_instruction decoded_kind rm_operand reg_operand
          else make_binary_instruction decoded_kind reg_operand rm_operand)
  | None =>
  if opcode =? 0x81 then
    require_rex_w rex ≫= fun _ =>
    read_modrm ≫= fun m =>
    decode_rm_operand m rex Size.QWORD ≫= fun destination =>
    read_i32 ≫= fun immediate =>
    make_group1_instruction (modrm_reg m) destination (imm immediate)
  else if opcode =? 0xF7 then
    require_rex_w rex ≫= fun _ =>
    read_modrm ≫= fun m =>
    decode_error_if (negb (modrm_reg m =? 0)) ≫= fun _ =>
    decode_rm_operand m rex Size.QWORD ≫= fun left =>
    read_i32 ≫= fun immediate =>
    mret (make_test left (imm immediate))
  else if opcode =? 0xFF then
    require_rex_w rex ≫= fun _ =>
    read_modrm ≫= fun m =>
    decode_rm_operand m rex Size.QWORD ≫= fun operand =>
    make_group5_instruction (modrm_reg m) operand
  else if opcode =? 0x8F then
    require_rex_w rex ≫= fun _ =>
    read_modrm ≫= fun m =>
    decode_error_if (negb (modrm_reg m =? 0)) ≫= fun _ =>
    decode_rm_operand m rex Size.QWORD ≫= fun destination =>
    mret (make_pop destination)
  else otherwise
  end.

(* [src/cpu/decode/decoder.cpp] [Decoder::decode] [786-802] *)
Definition decode_jump (opcode : Z) (otherwise : Otherwise) : Cursor Instruction :=
  if in_range 0x70 opcode 0x7F then
    read_i8 ≫= fun displacement =>
    cursor_rip ≫= fun rip =>
    make_conditional_jump_instruction (condition_from_opcode opcode) (relative_target rip displacement)
  else if opcode =? 0xE9 then
    read_i32 ≫= fun displacement =>
    cursor_rip ≫= fun rip =>
    mret (make_unconditional_jump_instruction (relative_target rip displacement))
  else if opcode =? 0xEB then
    read_i8 ≫= fun displacement =>
    cursor_rip ≫= fun rip =>
    mret (make_unconditional_jump_instruction (relative_target rip displacement))
  else otherwise.

(* [src/cpu/decode/decoder.cpp] [Decoder::decode] [803-906] *)
Definition decode_escaped (escaped_opcode : Z) : Cursor Instruction :=
  if escaped_opcode =? 0x05 then require_unlocked locked ≫= fun _ => mret make_syscall
  else if escaped_opcode =? 0x07 then
    require_unlocked locked ≫= fun _ => require_rex_w rex ≫= fun _ => mret make_sysret
  else if escaped_opcode =? 0x01 then
    require_unlocked locked ≫= fun _ =>
    read_modrm ≫= fun m =>
    decode_error_if ((modrm_mod m =? 3) || negb (modrm_reg m =? 7)) ≫= fun _ =>
    decode_rm_operand m rex Size.BYTE ≫= fun o => mret (make_invlpg o)
  else if in_range 0x80 escaped_opcode 0x8F then
    require_unlocked locked ≫= fun _ =>
    read_i32 ≫= fun displacement =>
    cursor_rip ≫= fun rip =>
    make_conditional_jump_instruction (condition_from_opcode escaped_opcode)
      (relative_target rip displacement)
  else if in_range 0x40 escaped_opcode 0x4F then
    require_unlocked locked ≫= fun _ =>
    require_rex_w rex ≫= fun _ =>
    read_modrm ≫= fun m =>
    decode_reg_operand (modrm_reg m) rex Size.QWORD ≫= fun destination =>
    decode_rm_operand m rex Size.QWORD ≫= fun source =>
    checked (make_cmovcc (condition_from_opcode escaped_opcode) destination source)
  else if in_range 0x90 escaped_opcode 0x9F then
    require_unlocked locked ≫= fun _ =>
    read_modrm ≫= fun m =>
    decode_rm_operand m rex Size.BYTE ≫= fun destination =>
    checked (make_setcc (condition_from_opcode escaped_opcode) destination)
  else if (escaped_opcode =? 0xB1) || (escaped_opcode =? 0xC1) then
    require_rex_w rex ≫= fun _ =>
    read_modrm ≫= fun m =>
    decode_rm_operand m rex Size.QWORD ≫= fun destination =>
    require_lockable_memory_destination destination locked ≫= fun _ =>
    decode_reg_operand (modrm_reg m) rex Size.QWORD ≫= fun source =>
    mret (if escaped_opcode =? 0xB1 then make_cmpxchg destination source locked
          else make_xadd destination source locked)
  else if escaped_opcode =? 0xAE then
    require_unlocked locked ≫= fun _ =>
    read_modrm ≫= fun m =>
    decode_error_if (negb (modrm_mod m =? 3) || negb (modrm_reg m =? 6) || negb (modrm_rm m =? 0)) ≫= fun _ =>
    mret make_mfence
  else if (escaped_opcode =? 0xB6) || (escaped_opcode =? 0xB7) || (escaped_opcode =? 0xBE) ||
          (escaped_opcode =? 0xBF) then
    require_unlocked locked ≫= fun _ =>
    require_rex_w rex ≫= fun _ =>
    let source_size :=
      if (escaped_opcode =? 0xB6) || (escaped_opcode =? 0xBE) then Size.BYTE else Size.WORD in
    read_modrm ≫= fun m =>
    decode_reg_operand (modrm_reg m) rex Size.QWORD ≫= fun destination =>
    decode_rm_operand m rex source_size ≫= fun source =>
    mret (if (escaped_opcode =? 0xB6) || (escaped_opcode =? 0xB7) then make_movzx destination source
          else make_movsx destination source)
  else cursor_throw.

Definition decode_opcode (opcode : Z) : Cursor Instruction :=
  decode_plain opcode
    (decode_modrm_group opcode
      (decode_jump opcode
        (if opcode =? 0x0F then read_u8 ≫= decode_escaped else cursor_throw))).
End dispatch.

(** The body of [decode], with the cursor at the instruction. *)
Definition decode_body : Cursor Instruction :=
  (fun image => throw_if (bool_decide (image_bytes image = [])) decode_error) ≫= fun _ =>
  read_instruction_prefixes ≫= fun prefixes =>
  read_u8 ≫= fun opcode =>
  decode_error_if (prefix_locked prefixes && negb (opcode =? 0x0F)) ≫= fun _ =>
  decode_opcode (prefix_rex prefixes) (prefix_locked prefixes) opcode.
(* [src/cpu/decode/decoder.cpp] [Decoder::decode] [646-658] *)
Definition decode (image : ExecutableImage) (rip : Z) : res DecodedInstruction :=
  match decode_body image rip with
  | (next, Ok i) => Ok (mkDecoded i rip next)
  | (_, Throw e) => Throw e
  end.

(** ** What a cursor computation reads

    [spells image rip bytes]: [bytes] stand in [image] from [rip] on. *)

Definition byte_valued (b : Z) : Prop := 0 <= b < 256.
Definition image_typed (image : ExecutableImage) : Prop :=
  Forall byte_valued (image_bytes image) /\ u64 (base_rip image) /\ lenZ (image_bytes image) < W64.

Fixpoint spells (image : ExecutableImage) (rip : Z) (bytes : list Z) : Prop :=
  match bytes with
  | [] => True
  | b :: rest => byte_at image rip = Ok b /\ spells image (add64 rip 1) rest
  end.
Fixpoint after (rip : Z) (bytes : list Z) : Z :=
  match bytes with [] => rip | _ :: rest => after (add64 rip 1) rest end.

Lemma spells_app image rip bs cs : spells image rip (bs ++ cs) <-> spells image rip bs /\ spells image (after rip bs) cs.
Proof. revert rip. induction bs as [|b bs IH]; intros rip; simpl; [tauto|]. rewrite IH. tauto. Qed.
Lemma after_app rip bs cs : after rip (bs ++ cs) = after (after rip bs) cs.
Proof. revert rip. induction bs as [|b bs IH]; intros rip; simpl; [done|]. apply IH. Qed.
Lemma after_range rip bs : u64 rip -> u64 (after rip bs).
Proof. revert rip. induction bs as [|b bs IH]; intros rip Hr; simpl; [done|]. apply IH, add64_range. Qed.
Lemma after_add64 rip bs : u64 rip -> after rip bs = add64 rip (lenZ bs).
Proof.
  revert rip. induction bs as [|b bs IH]; intros rip Hr.
  - simpl. unfold add64, lenZ. simpl. rewrite Z.add_0_r. symmetry. by apply wrap64_small.
  - simpl. rewrite IH by apply add64_range. unfold add64, wrap64, lenZ. simpl length.
    rewrite Zplus_mod_idemp_l. f_equal. lia.
Qed.
Lemma byte_at_contains image rip b : byte_at image rip = Ok b -> image_contains_rip image rip = true.
Proof. unfold byte_at, offset_of. munfold_goal. by destruct (image_contains_rip image rip). Qed.
Lemma byte_at_total image rip : image_contains_rip image rip = true ->
  exists b, byte_at image rip = Ok b /\ (image_typed image -> byte_valued b).
Proof.
  intros Hc. unfold byte_at, offset_of. rewrite Hc. munfold_goal. eexists. split; [reflexivity|].
  intros (Hb & _ & _). unfold image_contains_rip in Hc. apply andb_true_iff in Hc as [_ Hc]. zb.
  assert (Hr : 0 <= sub64 rip (base_rip image)) by apply sub64_range.
  eapply Forall_lookup_1; [exact Hb|]. apply lookup_nth. unfold lenZ in Hc. lia.
Qed.

(** The bytes left in the image from [rip] on. *)
Definition remaining (image : ExecutableImage) (rip : Z) : Z :=
  if image_contains_rip image rip then lenZ (image_bytes image) - sub64 rip (base_rip image) else 0.
Lemma remaining_bounds image rip : 0 <= remaining image rip <= lenZ (image_bytes image).
Proof.
  unfold remaining, image_contains_rip. pose proof (sub64_range rip (base_rip image)) as Hs. unfold u64 in Hs.
  destruct (base_rip image <=? rip); simpl; [|unfold lenZ; lia].
  destruct (Z.ltb_spec (sub64 rip (base_rip image)) (lenZ (image_bytes image))); unfold lenZ in *; lia.
Qed.
Lemma remaining_step image rip : image_typed image -> u64 rip -> image_contains_rip image rip = true ->
  remaining image (add64 rip 1) < remaining image rip.
Proof.
  intros (_ & Hb & Hl) Hr Hc. unfold remaining. rewrite Hc. unfold image_contains_rip in *.
  apply andb_true_iff in Hc as [Hc1 Hc2]. zb.
  assert (H1 : u64 1) by by split. destruct (sub64_cases rip (base_rip image) Hr Hb) as [[_ Hs]|[? _]]; [|lia].
  rewrite Hs in *. destruct (add64_cases rip 1 Hr H1) as [[_ Ha]|[_ Ha]].
  - destruct (sub64_cases (add64 rip 1) (base_rip image) (add64_range _ _) Hb) as [[_ Hs']|[? _]]; [|lia].
    rewrite Hs', Ha. destruct ((base_rip image <=? rip + 1) && (rip + 1 - base_rip image <? lenZ (image_bytes image)));
    unfold u64 in *; lia.
  - rewrite Ha in *. destruct (Z.leb_spec (base_rip image) (rip + 1 - W64)); simpl; unfold u64 in *; lia.
Qed.
Lemma spells_remaining image rip bs : image_typed image -> u64 rip -> spells image rip bs ->
  lenZ bs <= remaining image rip.
Proof.
  intros Hi. revert rip. induction bs as [|b bs IH]; intros rip Hr Hs.
  - apply remaining_bounds.
  - destruct Hs as [Hb Hs]. apply byte_at_contains in Hb. pose proof (remaining_step image rip Hi Hr Hb).
    specialize (IH (add64 rip 1) (add64_range _ _) Hs). unfold lenZ in *. simpl length. lia.
Qed.

(** [parses n c Q]: [c] fails with a decoding error or reads at least [n] bytes, which alone
    determine its outcome, and returns a value that has [Q]. *)
Definition parses (n : nat) {A} (c : Cursor A) (Q : A -> Prop) : Prop :=
  forall image rip, image_typed image -> u64 rip ->
  match c image rip with
  | (rip', Ok a) =>
      Q a /\ exists bytes, (n <= length bytes)%nat /\ spells image rip bytes /\ rip' = after rip bytes /\
      forall other, image_typed other -> spells other rip bytes -> c other rip = (rip', Ok a)
  | (_, Throw e) => e = decode_error
  end.

Lemma cursor_bind_eq {A B} (c : Cursor A) (k : A -> Cursor B) image rip :
  (c ≫= k) image rip = match c image rip with
    | (rip', Ok a) => k a image rip'
    | (rip', Throw e) => (rip', Throw e)
    end.
Proof. done. Qed.
Lemma parses_ret {A} (a : A) (Q : A -> Prop) : Q a -> parses 0 (mret a) Q.
Proof. intros Ha image rip Hi Hr. split; [done|]. by exists []. Qed.
Lemma parses_throw {A} n (Q : A -> Prop) : parses n cursor_throw Q.
Proof. intros image rip Hi Hr. done. Qed.
Lemma parses_error_if b : parses 0 (decode_error_if b) (fun _ => b = false).
Proof. intros image rip Hi Hr. destruct b; [done|]. split; [done|]. by exists []. Qed.
Lemma parses_rip : parses 0 cursor_rip u64.
Proof. intros image rip Hi Hr. split; [done|]. by exists []. Qed.
Lemma parses_checked {A} (r : res A) (Q : A -> Prop) a : r = Ok a -> Q a -> parses 0 (checked r) Q.
Proof. intros -> Ha image rip Hi Hr. split; [done|]. by exists []. Qed.
Lemma parses_weaken {A} n m (c : Cursor A) (P Q : A -> Prop) :
  parses n c P -> (m <= n)%nat -> (forall a, P a -> Q a) -> parses m c Q.
Proof.
  intros Hc Hm Hpq image rip Hi Hr. specialize (Hc image rip Hi Hr). destruct (c image rip) as [rip' [a|e]]; [|done].
  destruct Hc as [Ha (bs & Hn & Hrest)]. split; [auto|]. exists bs. split; [lia|done].
Qed.
Lemma parses_bind {A B} n m (c : Cursor A) (k : A -> Cursor B) (P : A -> Prop) (Q : B -> Prop) :
  parses n c P -> (forall a, P a -> parses m (k a) Q) -> parses (n + m) (c ≫= k) Q.
Proof.
  intros Hc Hk image rip Hi Hr. specialize (Hc image rip Hi Hr).
  rewrite cursor_bind_eq. destruct (c image rip) as [rip1 [a|e]]; [|done].
  destruct Hc as [Ha (bs & Hn & Hs & -> & Ho)]. specialize (Hk a Ha image (after rip bs) Hi (after_range _ _ Hr)).
  destruct (k a image (after rip bs)) as [rip2 [b|e]]; [|done].
  destruct Hk as [Hb (cs & Hm & Hs' & -> & Ho')]. split; [done|]. exists (bs ++ cs).
  rewrite length_app, spells_app, after_app. split_and!; [lia|done|done|done|].
  intros other Hot [Hs1 Hs2]%spells_app. rewrite cursor_bind_eq, Ho by done. by rewrite Ho'.
Qed.
(** The common case, where the number of bytes read does not matter. *)
Lemma parses_then {A B} (c : Cursor A) (k : A -> Cursor B) (P : A -> Prop) (Q : B -> Prop) :
  parses 0 c P -> (forall a, P a -> parses 0 (k a) Q) -> parses 0 (c ≫= k) Q.
Proof. intros Hc Hk. by apply (parses_bind 0 0 c k P Q). Qed.

Lemma parses_read_u8 : parses 1 read_u8 byte_valued.
Proof.
  intros image rip Hi Hr. unfold read_u8. destruct (image_contains_rip image rip) eqn:E; [|done]. simpl.
  destruct (byte_at_total image rip E) as (b & Hb & Hv). rewrite Hb. split; [by apply Hv|].
  exists [b]. split_and!; [done|done|done|]. intros other _ [Hob _].
  by rewrite (byte_at_contains _ _ _ Hob), Hob.
Qed.
Lemma parses_byte : parses 0 read_u8 byte_valued.
Proof. eapply parses_weaken; [apply parses_read_u8|lia|done]. Qed.
#[export] Hint Resolve parses_ret parses_throw parses_error_if parses_rip parses_byte : mnos.

(** ** The values read *)

Definition signed32 (v : Z) : Prop := - 2 ^ 31 <= v < 2 ^ 31.
Definition signed_64 (v : Z) : Prop := - 2 ^ 63 <= v < 2 ^ 63.

Lemma signed32_64 v : signed32 v -> signed_64 v.
Proof. unfold signed32, signed_64. lia. Qed.
Lemma parses_read_i8 : parses 0 read_i8 signed32.
Proof.
  eapply parses_then; [apply parses_byte|]. intros b Hb. apply parses_ret.
  pose proof (signed_of_range 8 b ltac:(lia) Hb). unfold signed32. lia.
Qed.
Lemma parses_bytes_le n indices v : 0 <= n -> 0 <= v < 2 ^ (8 * n) -> Forall (fun i => 0 <= i < n) indices ->
  parses 0 (read_bytes_le indices v) (fun w => 0 <= w < 2 ^ (8 * n)).
Proof.
  intros Hn. revert v. induction indices as [|i rest IH]; intros v Hv Hf; [by apply parses_ret|].
  apply Forall_cons in Hf as [Hi Hf]. eapply parses_then; [apply parses_byte|]. intros b Hb. apply IH; [|done].
  apply lor_range; [lia|done|]. rewrite Z.shiftl_mul_pow2 by lia. split; [unfold byte_valued in Hb; lia|].
  apply Z.lt_le_trans with (2 ^ 8 * 2 ^ (i * 8)).
  - apply Z.mul_lt_mono_pos_r; [lia|]. unfold byte_valued in Hb. lia.
  - rewrite <- Z.pow_add_r by lia. apply Z.pow_le_mono_r; lia.
Qed.
Lemma parses_read_i32 : parses 0 read_i32 signed32.
Proof.
  eapply parses_then; [apply (parses_bytes_le 4); [lia|lia|repeat constructor; lia]|].
  intros w Hw. apply parses_ret. by apply (signed_of_range 32).
Qed.
Lemma parses_read_u64 : parses 0 read_u64 u64.
Proof.
  eapply parses_weaken; [apply (parses_bytes_le 8); [lia|lia|repeat constructor; lia]|lia|done].
Qed.
#[export] Hint Resolve parses_read_i8 parses_read_i32 parses_read_u64 signed32_64 : mnos.

Lemma land_mask_range v n : 0 <= n -> 0 <= Z.land v (Z.ones n) < 2 ^ n.
Proof. intros Hn. rewrite Z.land_ones by done. apply Z.mod_pos_bound, Z.pow_pos_nonneg; lia. Qed.
Definition field (n v : Z) : Prop := 0 <= v < 2 ^ n.
Definition modrm_typed (m : ModRmByte) : Prop :=
  field 2 (modrm_mod m) /\ field 3 (modrm_reg m) /\ field 3 (modrm_rm m).
Definition sib_typed (s : SibByte) : Prop :=
  field 2 (sib_scale s) /\ field 3 (sib_index s) /\ field 3 (sib_base s).
Lemma parses_read_modrm : parses 0 read_modrm modrm_typed.
Proof.
  eapply parses_then; [apply parses_byte|]. intros b _. apply parses_ret.
  split_and!; [apply (land_mask_range _ 2)|apply (land_mask_range _ 3)|apply (land_mask_range _ 3)]; lia.
Qed.
Lemma parses_read_sib : parses 0 read_sib sib_typed.
Proof.
  eapply parses_then; [apply parses_byte|]. intros b _. apply parses_ret.
  split_and!; [apply (land_mask_range _ 2)|apply (land_mask_range _ 3)|apply (land_mask_range _ 3)]; lia.
Qed.

(** A three-bit field and an extension bit always name one of the sixteen registers. *)
Lemma decode_register_valid encoded high : field 3 encoded ->
  is_register_id_valid (decode_register encoded high) = true.
Proof.
  unfold field. intros He.
  assert (encoded = 0 \/ encoded = 1 \/ encoded = 2 \/ encoded = 3 \/ encoded = 4 \/ encoded = 5 \/
    encoded = 6 \/ encoded = 7) as Hin by lia.
  destruct high; repeat destruct Hin as [->|Hin]; rewrite ?Hin; reflexivity.
Qed.
Lemma sib_scale_valid scale : field 2 scale -> require_memory_scale (sib_scale_to_multiplier scale) = Ok tt.
Proof.
  unfold field. intros He. assert (scale = 0 \/ scale = 1 \/ scale = 2 \/ scale = 3) as Hin by lia.
  by destruct Hin as [->|[->|[->| ->]]].
Qed.
Lemma condition_from_opcode_valid opcode : is_condition_code_valid (condition_from_opcode opcode) = true.
Proof.
  unfold condition_from_opcode. pose proof (land_mask_range opcode 4 ltac:(lia)) as Hr.
  change (Z.ones 4) with 15 in Hr. match goal with |- context [nth _ ?l _] => set (codes := l) end.
  destruct (nth_lookup_or_length codes (Z.to_nat (Z.land opcode 15)) Cond.COUNT) as [Hl|Hl]; [|simpl in Hl; lia].
  assert (Hall : Forall (fun c => is_condition_code_valid c = true) codes) by (repeat constructor).
  by apply (Forall_lookup_1 _ _ _ _ Hall Hl).
Qed.

(** ** Well-formed operands and instructions *)

Definition memory_ok (a : MemoryAddress) : Prop :=
  (forall r, ma_base_register a = Some r -> is_register_id_valid r = true) /\
  (forall r, ma_index_register a = Some r -> is_register_id_valid r = true) /\
  require_memory_scale (ma_scale a) = Ok tt /\ signed32 (ma_displacement a) /\
  (forall x, ma_absolute_address a = Some x -> u64 x).
Definition operand_ok (o : Operand) : Prop :=
  match o with
  | OpNone => True
  | OpRegister r s => is_register_id_valid r = true /\ is_data_size_valid s = true
  | OpImmediate v => signed_64 v
  | OpMemory a s => memory_ok a /\ is_data_size_valid s = true
  end.
(** A register or memory operand of size [s]. *)
Definition is_rm (s : DataSize) (o : Operand) : bool :=
  match o with OpRegister _ s' | OpMemory _ s' => bool_decide (s' = s) | _ => false end.
Definition is_reg64 (o : Operand) : bool :=
  match o with OpRegister _ s => bool_decide (s = Size.QWORD) | _ => false end.
Definition is_none (o : Operand) : bool := match o with OpNone => true | _ => false end.
(** The operands each opcode is decoded with. *)
Definition operands_fit (i : Instruction) : bool :=
  let a := first_operand i in
  let b := second_operand i in
  match opcode i with
  | Op.MOV | Op.ADD | Op.SUB | Op.CMP | Op.AND | Op.OR | Op.XOR | Op.TEST =>
      is_rm Size.QWORD a && (is_immediate b || is_rm Size.QWORD b) && negb (is_memory a && is_memory b)
  | Op.MOVSX => is_reg64 a && (is_rm Size.BYTE b || is_rm Size.WORD b || is_rm Size.DWORD b)
  | Op.MOVZX => is_reg64 a && (is_rm Size.BYTE b || is_rm Size.WORD b)
  | Op.CMOVCC => is_reg64 a && is_rm Size.QWORD b && is_condition_code_valid (condition_code i)
  | Op.LEA => is_reg64 a && is_memory b
  | Op.CMPXCHG | Op.XADD => is_rm Size.QWORD a && is_reg64 b
  | Op.INC | Op.DEC | Op.POP => is_rm Size.QWORD a && is_none b
  | Op.PUSH | Op.CALL => (is_immediate a || is_rm Size.QWORD a) && is_none b
  | Op.JMP | Op.JE | Op.JNE => is_immediate a && is_none b
  | Op.JCC => is_immediate a && is_none b && is_condition_code_valid (condition_code i)
  | Op.SETCC => is_rm Size.BYTE a && is_none b && is_condition_code_valid (condition_code i)
  | Op.INVLPG => is_memory a && is_rm Size.BYTE a && is_none b
  | Op.INT => match a with OpImmediate v => (0 <=? v) && (v <? 256) | _ => false end && is_none b
  | Op.MFENCE | Op.RET | Op.SYSCALL | Op.SYSRET | Op.IRET | Op.HLT => is_none a && is_none b
  | Op.COUNT => false
  end.
(** Only compare-exchange and exchange-add on memory are locked. *)
Definition lock_fits (i : Instruction) : bool :=
  negb (is_locked i) ||
  (match opcode i with Op.CMPXCHG | Op.XADD => true | _ => false end && is_memory (first_operand i)).
Definition instruction_ok (i : Instruction) : Prop :=
  operand_ok (first_operand i) /\ operand_ok (second_operand i) /\ operands_fit i = true /\ lock_fits i = true.

Lemma reg_ok r s : is_register_id_valid r = true -> is_data_size_valid s = true -> reg r s = Ok (OpRegister r s).
Proof. intros Hr Hs. unfold reg, require_register_id. munfold_goal. by rewrite Hr, Hs. Qed.
Lemma mem_ok a s : is_data_size_valid s = true -> mem a s = Ok (OpMemory a s).
Proof. intros Hs. unfold mem, require_memory_data_size. munfold_goal. by rewrite Hs. Qed.

Lemma parses_mem_base r d s : is_register_id_valid r = true -> signed32 d -> is_data_size_valid s = true ->
  parses 0 (checked (mem_base r d s)) (fun o => operand_ok o /\ is_rm s o = true /\ is_memory o = true).
Proof.
  intros Hr Hd Hs. eapply parses_checked.
  - unfold mem_base, base_displacement, require_register_id. munfold_goal. rewrite Hr. cbn [negb].
    by apply mem_ok.
  - simpl. rewrite bool_decide_true by done. split_and!; try done.
    split_and!; try done; by intros ? [= <-].
Qed.
Lemma parses_absolute_mem x s : u64 x -> is_data_size_valid s = true ->
  parses 0 (checked (absolute_mem x s)) (fun o => operand_ok o /\ is_rm s o = true /\ is_memory o = true).
Proof.
  intros Hx Hs. eapply parses_checked; [by apply mem_ok|]. simpl. rewrite bool_decide_true by done.
  split_and!; try done. split_and!; try done. by intros ? [= <-].
Qed.
Lemma parses_reg r s : is_register_id_valid r = true -> is_data_size_valid s = true ->
  parses 0 (checked (reg r s)) (fun o => operand_ok o /\ is_rm s o = true /\ is_register o = true).
Proof.
  intros Hr Hs. eapply parses_checked; [by apply reg_ok|]. simpl. by rewrite bool_decide_true by done.
Qed.
Lemma parses_modrm_displacement m : parses 0 (read_modrm_displacement m) signed32.
Proof.
  unfold read_modrm_displacement. destruct (modrm_mod m =? 1); [apply parses_read_i8|].
  destruct (modrm_mod m =? 2); [apply parses_read_i32|]. by apply parses_ret.
Qed.

Lemma parses_sib m rex s : is_data_size_valid s = true ->
  parses 0 (make_memory_operand_from_sib m rex s)
    (fun o => operand_ok o /\ is_rm s o = true /\ is_memory o = true).
Proof.
  intros Hs. eapply parses_then; [apply parses_read_sib|]. intros sib (Hsc & Hix & Hba).
  eapply parses_then; [apply parses_modrm_displacement|]. intros d0 Hd0.
  eapply parses_then with (P := signed32).
  { destruct (negb _); [apply parses_read_i32|by apply parses_ret]. }
  intros d Hd. pose proof (decode_register_valid _ (rex_b rex) Hba) as Hb.
  pose proof (decode_register_valid _ (rex_x rex) Hix) as Hi. pose proof (sib_scale_valid _ Hsc) as Hm.
  destruct (negb (_ && _)); destruct (_ || _); cbn [andb].
  - eapply parses_checked.
    + unfold indexed_mem, base_index_displacement, require_register_id. munfold_goal. rewrite Hb, Hi, Hm.
      by apply mem_ok.
    + simpl. rewrite bool_decide_true by done. split_and!; try done. split_and!; try done; by intros ? [= <-].
  - by apply parses_mem_base.
  - eapply parses_checked.
    + unfold index_displacement, require_register_id. munfold_goal. rewrite Hi, Hm. by apply mem_ok.
    + simpl. rewrite bool_decide_true by done. split_and!; try done. split_and!; try done; by intros ? [= <-].
  - apply parses_absolute_mem; [apply wrap64_range|done].
Qed.
Lemma parses_rm_operand m rex s : modrm_typed m -> is_data_size_valid s = true ->
  parses 0 (decode_rm_operand m rex s)
    (fun o => operand_ok o /\ is_rm s o = true /\ is_memory o = negb (modrm_mod m =? 3)).
Proof.
  intros (Hmod & Hreg & Hrm) Hs. unfold decode_rm_operand.
  pose proof (decode_register_valid _ (rex_b rex) Hrm) as Hv.
  destruct (modrm_mod m =? 3).
  { eapply parses_weaken; [by apply parses_reg|done|]. intros o (Ho & Hr & Hk). split_and!; try done. by destruct o. }
  destruct (modrm_rm m =? 4); [by apply parses_sib|]. destruct (_ && _).
  - eapply parses_then; [apply parses_read_i32|]. intros d Hd.
    eapply parses_then; [apply parses_rip|]. intros rip Hr. apply parses_absolute_mem; [apply add64_range|done].
  - eapply parses_then; [apply parses_modrm_displacement|]. intros d Hd. by apply parses_mem_base.
Qed.
Lemma parses_reg_operand n rex : field 3 n ->
  parses 0 (decode_reg_operand n rex Size.QWORD) (fun o => operand_ok o /\ is_reg64 o = true).
Proof.
  intros Hn. eapply parses_weaken; [apply parses_reg; [by apply decode_register_valid|done]|done|].
  intros o (Ho & Hr & Hk). split; [done|]. by destruct o.
Qed.
Lemma parses_opcode_register o rex_bit : 0 <= o < 8 ->
  parses 0 (checked (reg_qword (decode_register o rex_bit)))
    (fun o => operand_ok o /\ is_rm Size.QWORD o = true /\ is_register o = true).
Proof. intros Ho. apply parses_reg; [by apply decode_register_valid|done]. Qed.

Lemma signed_of_64 v : u64 v -> signed_64 (signed_of 64 v).
Proof. intros Hv. by apply (signed_of_range 64). Qed.
Lemma relative_target_range rip d : u64 (relative_target rip d).
Proof. apply add64_range. Qed.
#[export] Hint Resolve signed_of_64 relative_target_range parses_read_modrm parses_rm_operand
  parses_reg_operand parses_opcode_register : mnos.

(** Concludes that an instruction built from operands known to fit is well formed. *)
Ltac fits :=
  conjuncts;
  repeat match goal with
  | o : Operand |- _ => destruct o; try done
  end;
  cbn [is_rm is_reg64 is_register is_memory is_immediate is_none operand_ok] in *; conjuncts;
  repeat match goal with H : bool_decide _ = true |- _ => apply bool_decide_eq_true in H; subst end;
  unfold instruction_ok; cbn; split_and!; auto with mnos; try done.
Ltac parse_step :=
  first [ apply parses_throw
        | eapply parses_then; [solve [eauto with mnos]|intros]
        | apply parses_ret ].

Lemma parses_conditional_jump c t : is_condition_code_valid c = true -> u64 t ->
  parses 0 (make_conditional_jump_instruction c t) instruction_ok.
Proof.
  intros Hc Ht. unfold make_conditional_jump_instruction.
  case_decide; [apply parses_ret; fits|]. case_decide; [apply parses_ret; fits|].
  eapply parses_checked.
  - unfold make_jcc, require_condition_code. munfold_goal. by rewrite Hc.
  - fits.
Qed.
Lemma in_range_true lo v hi : in_range lo v hi = true -> lo <= v <= hi.
Proof. unfold in_range. intros. zb. lia. Qed.

Section dispatch_parses.
Variable rex : RexPrefix.
Variable locked : bool.

Lemma parses_plain opcode k : byte_valued opcode -> parses 0 k instruction_ok ->
  parses 0 (decode_plain rex opcode k) instruction_ok.
Proof.
  intros Hop Hk. unfold decode_plain.
  destruct (opcode =? 0xF4); [parse_step; fits|].
  destruct (opcode =? 0xCC); [parse_step; fits|].
  destruct (opcode =? 0xCD).
  { eapply parses_then; [apply parses_byte|]. intros v [Hl Hh]. parse_step. fits; [unfold signed_64; lia|].
    apply andb_true_iff; split; [apply andb_true_iff; split; lia|done]. }
  destruct (opcode =? 0xC3); [parse_step; fits|].
  destruct (opcode =? 0xCF); [parse_step; fits|].
  destruct (in_range 0x50 opcode 0x57) eqn:E1.
  { apply in_range_true in E1. eapply parses_then; [apply parses_opcode_register; lia|]. intros o Ho. parse_step. fits. }
  destruct (in_range 0x58 opcode 0x5F) eqn:E2.
  { apply in_range_true in E2. eapply parses_then; [apply parses_opcode_register; lia|]. intros o Ho. parse_step. fits. }
  destruct (opcode =? 0x6A); [parse_step; parse_step; fits|].
  destruct (opcode =? 0x68); [parse_step; parse_step; fits|].
  destruct (opcode =? 0xE8); [parse_step; parse_step; parse_step; fits|].
  destruct (in_range 0xB8 opcode 0xBF) eqn:E3; [|done].
  apply in_range_true in E3. unfold require_rex_w. parse_step.
  eapply parses_then; [apply parses_opcode_register; lia|]. intros o Ho.
  eapply parses_then; [apply parses_read_u64|]. intros v Hv. parse_step. fits.
Qed.
Lemma parses_jump opcode k : parses 0 k instruction_ok -> parses 0 (decode_jump opcode k) instruction_ok.
Proof.
  intros Hk. unfold decode_jump.
  destruct (in_range _ _ _).
  { parse_step. parse_step. apply parses_conditional_jump; [apply condition_from_opcode_valid|auto with mnos]. }
  destruct (opcode =? 0xE9); [parse_step; parse_step; parse_step; fits|].
  destruct (opcode =? 0xEB); [parse_step; parse_step; parse_step; fits|]. done.
Qed.
Lemma parses_modrm_group opcode k : parses 0 k instruction_ok ->
  parses 0 (decode_modrm_group rex opcode k) instruction_ok.
Proof.
  intros Hk. unfold decode_modrm_group, require_rex_w.
  destruct (opcode =? 0x63).
  { parse_step. eapply parses_then; [apply parses_read_modrm|]. intros m Hm. pose proof Hm as (_ & Hreg & _).
    do 3 parse_step. fits. }
  destruct (opcode =? 0x8D).
  { parse_step. eapply parses_then; [apply parses_read_modrm|]. intros m Hm. pose proof Hm as (_ & Hreg & _).
    do 4 parse_step. fits. }
  destruct (binary_kind_from_opcode opcode) as [kd|].
  { parse_step. eapply parses_then; [apply parses_read_modrm|]. intros m Hm. pose proof Hm as (_ & Hreg & _).
    do 3 parse_step. destruct (rm_operand_is_destination_opcode opcode), kd; fits. }
  destruct (opcode =? 0x81).
  { parse_step. eapply parses_then; [apply parses_read_modrm|]. intros m Hm. do 2 parse_step.
    unfold make_group1_instruction. repeat (case_match; [parse_step; fits|]). parse_step. }
  destruct (opcode =? 0xF7).
  { parse_step. eapply parses_then; [apply parses_read_modrm|]. intros m Hm. do 4 parse_step. fits. }
  destruct (opcode =? 0xFF).
  { parse_step. eapply parses_then; [apply parses_read_modrm|]. intros m Hm. do 1 parse_step.
    unfold make_group5_instruction. repeat (case_match; [parse_step; fits|]). parse_step. }
  destruct (opcode =? 0x8F); [|done].
  parse_step. eapply parses_then; [apply parses_read_modrm|]. intros m Hm. do 3 parse_step. fits.
Qed.
Lemma parses_escaped opcode : parses 0 (decode_escaped rex locked opcode) instruction_ok.
Proof.
  unfold decode_escaped, require_rex_w, require_unlocked, require_lockable_memory_destination.
  destruct (opcode =? 0x05); [do 2 parse_step; fits|].
  destruct (opcode =? 0x07); [do 3 parse_step; fits|].
  destruct (opcode =? 0x01).
  { parse_step. eapply parses_then; [apply parses_read_modrm|]. intros m Hm.
    eapply parses_then; [apply parses_error_if|]. intros _ [Hmod _]%orb_false_iff. parse_step. parse_step.
    rewrite Hmod in *. fits. }
  destruct (in_range 0x80 _ _).
  { do 3 parse_step. apply parses_conditional_jump; [apply condition_from_opcode_valid|auto with mnos]. }
  destruct (in_range 0x40 _ _).
  { do 2 parse_step. eapply parses_then; [apply parses_read_modrm|]. intros m Hm. pose proof Hm as (_ & Hreg & _).
    do 2 parse_step. pose proof (condition_from_opcode_valid opcode) as Hc. eapply parses_checked.
    - unfold make_cmovcc, require_condition_code. munfold_goal. by rewrite Hc.
    - fits. }
  destruct (in_range 0x90 _ _).
  { parse_step. eapply parses_then; [apply parses_read_modrm|]. intros m Hm. pose proof Hm as (_ & Hreg & _).
    do 1 parse_step. pose proof (condition_from_opcode_valid opcode) as Hc. eapply parses_checked.
    - unfold make_setcc, require_condition_code. munfold_goal. by rewrite Hc.
    - fits. }
  destruct (_ || _).
  { parse_step. eapply parses_then; [apply parses_read_modrm|]. intros m Hm. pose proof Hm as (_ & Hreg & _).
    do 4 parse_step. destruct (opcode =? 0xB1), locked; fits. }
  destruct (opcode =? 0xAE).
  { parse_step. eapply parses_then; [apply parses_read_modrm|]. intros m Hm. do 2 parse_step. fits. }
  destruct (_ || _ || _ || _); [|parse_step].
  parse_step. parse_step. eapply parses_then; [apply parses_read_modrm|]. intros m Hm. pose proof Hm as (_ & Hreg & _).
  do 1 parse_step. eapply parses_then; [apply parses_rm_operand; [done|by destruct (_ || _)]|]. intros o Ho.
  parse_step. destruct (opcode =? 0xB6), (opcode =? 0xBE), (opcode =? 0xB7); fits.
Qed.
Lemma parses_opcode opcode : byte_valued opcode -> parses 0 (decode_opcode rex locked opcode) instruction_ok.
Proof.
  intros Hop. apply parses_plain; [done|]. apply parses_modrm_group, parses_jump.
  destruct (opcode =? 0x0F); [|parse_step]. eapply parses_then; [apply parses_byte|]. intros b _.
  apply parses_escaped.
Qed.
End dispatch_parses.

(** ** Prefixes terminate *)

(** With more fuel than bytes left, the loop fails or consumes prefixes up to a byte that is none of
    them, and any image with the same bytes gives the same result at any larger fuel. *)
Lemma prefix_loop_spec image : image_typed image -> forall fuel p rip, u64 rip ->
  remaining image rip < Z.of_nat fuel ->
  match prefix_loop fuel p image rip with
  | (rip', Ok q) => exists bytes stop,
      spells image rip (bytes ++ [stop]) /\ rip' = after rip bytes /\ apply_prefix stop q = None /\
      forall other fuel', (length bytes < fuel')%nat -> spells other rip (bytes ++ [stop]) ->
        prefix_loop fuel' p other rip = (rip', Ok q)
  | (_, Throw e) => e = decode_error
  end.
Proof.
  intros Hi. induction fuel as [|fuel IH]; intros p rip Hr Hf.
  { pose proof (remaining_bounds image rip). lia. }
  cbn [prefix_loop]. rewrite cursor_bind_eq. unfold peek_u8 at 1.
  destruct (image_contains_rip image rip) eqn:Ec; [|done]. cbn [negb].
  destruct (byte_at_total image rip Ec) as (b & Hb & _). rewrite Hb.
  destruct (apply_prefix b p) as [p'|] eqn:Ep.
  - rewrite cursor_bind_eq. unfold read_u8 at 1. rewrite Ec, Hb. cbn [negb].
    pose proof (remaining_step image rip Hi Hr Ec).
    specialize (IH p' (add64 rip 1) (add64_range _ _) ltac:(lia)).
    destruct (prefix_loop fuel p' image (add64 rip 1)) as [rip' [q|e]]; [|done].
    destruct IH as (bs & stop & Hs & -> & Hstop & Ho). exists (b :: bs), stop.
    split; [by split|]. split; [done|]. split; [done|].
    intros other fuel' Hlt [Hob Hs']. destruct fuel' as [|fuel']; [simpl in Hlt; lia|].
    cbn [prefix_loop]. rewrite cursor_bind_eq. unfold peek_u8 at 1. rewrite (byte_at_contains _ _ _ Hob), Hob.
    cbn [negb]. rewrite Ep, cursor_bind_eq. unfold read_u8 at 1. rewrite (byte_at_contains _ _ _ Hob), Hob.
    cbn [negb]. apply Ho; [simpl in Hlt; lia|done].
  - exists [], b. split; [by split|]. split; [done|]. split; [done|]. intros other fuel' Hlt [Hob _].
    destruct fuel' as [|fuel']; [lia|]. cbn [prefix_loop]. rewrite cursor_bind_eq. unfold peek_u8 at 1.
    rewrite (byte_at_contains _ _ _ Hob), Hob. cbn [negb]. by rewrite Ep.
Qed.

(** The prefixes and the opcode that follows them. *)
Definition prefixes_and_opcode : Cursor (InstructionPrefixes * Z) :=
  read_instruction_prefixes ≫= fun p => read_u8 ≫= fun opcode => mret (p, opcode).
Lemma parses_prefixes_and_opcode : parses 1 prefixes_and_opcode (fun q => byte_valued q.2).
Proof.
  intros image rip Hi Hr. unfold prefixes_and_opcode. rewrite cursor_bind_eq. unfold read_instruction_prefixes at 1.
  pose proof (remaining_bounds image rip) as Hrem. unfold lenZ in Hrem.
  pose proof (prefix_loop_spec image Hi (S (length (image_bytes image))) no_prefixes rip Hr ltac:(lia)) as Hl.
  destruct (prefix_loop _ _ image rip) as [rip1 [p|e]]; [|done].
  destruct Hl as (bs & stop & Hs & -> & _ & Ho). apply spells_app in Hs as [Hs [Hb _]].
  assert (Hread : forall other, byte_at other (after rip bs) = Ok stop ->
    read_u8 other (after rip bs) = (add64 (after rip bs) 1, Ok stop)).
  { intros other Hb'. unfold read_u8. by rewrite (byte_at_contains _ _ _ Hb'), Hb'. }
  rewrite cursor_bind_eq, (Hread _ Hb). split.
  - destruct (byte_at_total image _ (byte_at_contains _ _ _ Hb)) as (b & Hb' & Hv). simpl.
    assert (b = stop) as -> by congruence. by apply Hv.
  - exists (bs ++ [stop]). rewrite length_app, after_app. simpl. split_and!; [lia| |done|].
    { apply spells_app. by split. }
    intros other Hot Hso. pose proof (spells_remaining other rip _ Hot Hr Hso) as Hlen.
    pose proof (remaining_bounds other rip). unfold lenZ in *. rewrite length_app in Hlen. simpl in Hlen.
    rewrite cursor_bind_eq. unfold read_instruction_prefixes.
    rewrite Ho; [|lia|done]. rewrite cursor_bind_eq, Hread; [done|]. by apply spells_app in Hso as [_ [? _]].
Qed.

(** The test for an empty image adds nothing: the first byte read would fail the same way. *)
Lemma decode_body_eq image rip :
  decode_body image rip =
  (prefixes_and_opcode ≫= fun q =>
   decode_error_if (prefix_locked q.1 && negb (q.2 =? 0x0F)) ≫= fun _ =>
   decode_opcode (prefix_rex q.1) (prefix_locked q.1) q.2) image rip.
Proof.
  unfold decode_body. rewrite cursor_bind_eq. unfold throw_if. case_bool_decide as He.
  - rewrite cursor_bind_eq. unfold prefixes_and_opcode. rewrite cursor_bind_eq. unfold read_instruction_prefixes.
    cbn [prefix_loop]. rewrite cursor_bind_eq. unfold peek_u8 at 1.
    assert (Hc : image_contains_rip image rip = false).
    { unfold image_contains_rip. rewrite He. change (lenZ []) with 0.
      pose proof (sub64_range rip (base_rip image)) as [Hs _]. apply andb_false_iff. right. by apply Z.ltb_ge. }
    by rewrite Hc.
  - unfold prefixes_and_opcode. rewrite !cursor_bind_eq.
    destruct (read_instruction_prefixes image rip) as [rip1 [p|e]]; [|done].
    rewrite !cursor_bind_eq. by destruct (read_u8 image rip1) as [rip2 [o|e]].
Qed.
Lemma parses_body : parses 1 decode_body instruction_ok.
Proof.
  assert (Hp : parses 1 (prefixes_and_opcode ≫= fun q =>
    decode_error_if (prefix_locked q.1 && negb (q.2 =? 0x0F)) ≫= fun _ =>
    decode_opcode (prefix_rex q.1) (prefix_locked q.1) q.2) instruction_ok).
  { apply (parses_bind 1 0 _ _ _ _ parses_prefixes_and_opcode). intros q Hq.
    eapply parses_then; [apply parses_error_if|]. intros _ _. by apply parses_opcode. }
  intros image rip Hi Hr. specialize (Hp image rip Hi Hr). rewrite decode_body_eq.
  match type of Hp with match ?c image rip with _ => _ end => destruct (c image rip) as [rip' [i|e]] end; [|done].
  destruct Hp as [Hok (bs & Hn & Hs & Ha & Ho)].
  split; [done|]. exists bs. split_and!; try done. intros other Hot Hso. rewrite decode_body_eq. by apply Ho.
Qed.

(** ** Properties *)

(** What the executor needs to know of the result. *)
Lemma decode_result image rip d : image_typed image -> u64 rip -> decode image rip = Ok d ->
  instruction_ok (instruction d) /\ start_rip d = rip /\ u64 (decoded_next_rip d).
Proof.
  intros Hi Hr Hd. pose proof (parses_body image rip Hi Hr) as Hp. unfold decode in Hd.
  destruct (decode_body image rip) as [rip' [i|e]]; [|done]. injection Hd as <-.
  destruct Hp as [Hok (bs & _ & _ & -> & _)]. split_and!; [done|done|]. by apply after_range.
Qed.

(** C25. Decoding at any address of any image of bytes ends in an instruction or in a decoding error
    and in no other exception; an instruction it returns is well formed: its registers, sizes,
    scales and conditions are valid, displacements fit 32 bits, its operands are those its opcode
    takes, a locked instruction is a compare-exchange or exchange-add on memory. *)
Theorem decode_yields_well_formed_instruction image rip :
  image_typed image -> u64 rip ->
  match decode image rip with
  | Ok d => instruction_ok (instruction d)
  | Throw e => e = decode_error
  end.
Proof.
  intros Hi Hr. pose proof (parses_body image rip Hi Hr) as Hp. unfold decode.
  destruct (decode_body image rip) as [rip' [i|e]]; [|done]. by destruct Hp as [Hok _].
Qed.

(** A decoded instruction occupies a non-empty run of bytes inside the image, [next_rip] is the
    address after the run, and the run alone determines the outcome: any image with the same bytes
    at that address decodes to the same instruction, whatever surrounds them. *)
Theorem decode_depends_on_bytes_consumed image rip d :
  image_typed image -> u64 rip -> decode image rip = Ok d ->
  exists bytes, 1 <= lenZ bytes <= remaining image rip /\ spells image rip bytes /\
    start_rip d = rip /\ decoded_next_rip d = add64 rip (lenZ bytes) /\
    forall other, image_typed other -> spells other rip bytes -> decode other rip = Ok d.
Proof.
  intros Hi Hr Hd. pose proof (parses_body image rip Hi Hr) as Hp. unfold decode in *.
  destruct (decode_body image rip) as [rip' [i|e]]; [|done]. injection Hd as <-. cbn [start_rip decoded_next_rip].
  destruct Hp as [_ (bs & Hn & Hs & -> & Ho)]. exists bs. split_and!; try done.
  - unfold lenZ. lia.
  - by apply spells_remaining.
  - by rewrite after_add64.
  - intros other Hot Hso. by rewrite Ho.
Qed.

(** ** Examples *)

Lemma byte_valued_check l : forallb (fun b => (0 <=? b) && (b <? 256)) l = true -> Forall byte_valued l.
Proof.
  intros Hl. apply Forall_forall. intros b Hb. rewrite forallb_forall in Hl.
  specialize (Hl b (proj1 (list_elem_of_In _ _) Hb)). unfold byte_valued. zb. lia.
Qed.

(** [lock cmpxchg [r12 + rsi*4 - 16], rcx], loaded at 0x1000 and followed by a halt. *)
Definition sample_image : ExecutableImage :=
  mkImage [0xF0; 0x49; 0x0F; 0xB1; 0x4C; 0xB4; 0xF0; 0xF4] 0x1000.
Lemma sample_image_typed : image_typed sample_image.
Proof. split; [by apply byte_valued_check|]. by vm_compute. Qed.
Lemma u64_0x1000 : u64 0x1000.
Proof. by split. Qed.

Lemma decode_yields_well_formed_instruction_witness :
  exists d, decode sample_image 0x1000 = Ok d /\ instruction_ok (instruction d).
Proof.
  pose proof (decode_yields_well_formed_instruction sample_image 0x1000 sample_image_typed u64_0x1000) as Hd.
  eexists. split; [vm_compute; reflexivity|]. exact Hd.
Defined.

Lemma decode_depends_on_bytes_consumed_witness :
  exists d bytes, decode sample_image 0x1000 = Ok d /\ 1 <= lenZ bytes <= remaining sample_image 0x1000 /\
    decoded_next_rip d = 0x1007 /\ spells sample_image 0x1000 bytes.
Proof.
  assert (Hd : exists d, decode sample_image 0x1000 = Ok d /\ decoded_next_rip d = 0x1007)
    by (eexists; split; [vm_compute; reflexivity|done]).
  destruct Hd as (d & Hd & Hn).
  destruct (decode_depends_on_bytes_consumed sample_image 0x1000 d sample_image_typed u64_0x1000 Hd)
    as (bs & Hl & Hs & _). exists d, bs. split_and!; [exact Hd|exact (proj1 Hl)|exact (proj2 Hl)|exact Hn|exact Hs].
Defined.

(** [add qword [rip], 1]: the operand's address is computed from the position before the immediate,
    four bytes short of the instruction's end, which is what the format refers to. *)
Example rip_relative_operand_ignores_immediate :
  decode (mkImage [0x48; 0x81; 0x05; 0; 0; 0; 0; 1; 0; 0; 0] 0) 0 =
  Ok (mkDecoded (make_add (OpMemory (absolute 7) Size.QWORD) (imm 1)) 0 11).
Proof. reflexivity. Qed.
