(* ===== verification/Encoder.v ===== *)
(** * A reference encoder for the decoder

    The repository has no assembler for byte images, so the encoding the decoder inverts is written
    here from the x86-64 format: REX.W, opcode, ModRM with a SIB byte for every memory operand, a
    32-bit displacement, then the immediate.  Nothing of this file models code; its theorem says that
    Decoder.v reads this format back. *)

From S2P Require Import Prelude Common Instruction Decoder.

(** ** Fields *)

Definition register_number (r : RegisterId) : Z :=
  match r with
  | Reg.RAX => 0 | Reg.RCX => 1 | Reg.RDX => 2 | Reg.RBX => 3 | Reg.RSP => 4 | Reg.RBP => 5
  | Reg.RSI => 6 | Reg.RDI => 7 | Reg.R8 => 8 | Reg.R9 => 9 | Reg.R10 => 10 | Reg.R11 => 11
  | Reg.R12 => 12 | Reg.R13 => 13 | Reg.R14 => 14 | Reg.R15 => 15 | Reg.COUNT => 16
  end.
Definition low3 (r : RegisterId) : Z := register_number r `mod` 8.
Definition high (r : RegisterId) : bool := 8 <=? register_number r.

Lemma decode_register_number r : is_register_id_valid r = true -> decode_register (low3 r) (high r) = r.
Proof. by destruct r. Qed.
Lemma low3_field r : field 3 (low3 r).
Proof. apply Z.mod_pos_bound. lia. Qed.

(** The packing shared by ModRM (mod, reg, rm) and SIB (scale, index, base). *)
Definition pack (a b c : Z) : Z := a * 64 + b * 8 + c.
Lemma field2_cases a : field 2 a -> a = 0 \/ a = 1 \/ a = 2 \/ a = 3.
Proof. unfold field. lia. Qed.
Lemma field3_cases a : field 3 a -> a = 0 \/ a = 1 \/ a = 2 \/ a = 3 \/ a = 4 \/ a = 5 \/ a = 6 \/ a = 7.
Proof. unfold field. lia. Qed.
Lemma unpack a b c : field 2 a -> field 3 b -> field 3 c ->
  Z.land (Z.shiftr (pack a b c) 6) 3 = a /\ Z.land (Z.shiftr (pack a b c) 3) 7 = b /\ Z.land (pack a b c) 7 = c.
Proof.
  intros Ha Hb Hc. apply field2_cases in Ha. apply field3_cases in Hb, Hc.
  repeat (destruct Ha as [->|Ha] || subst a); repeat (destruct Hb as [->|Hb] || subst b);
    repeat (destruct Hc as [->|Hc] || subst c); by vm_compute.
Qed.

(** REX.W with the register extension bits. *)
Definition rex_byte (r x b : bool) : Z := 0x48 + (if r then 4 else 0) + (if x then 2 else 0) + (if b then 1 else 0).

(** ** Operands *)

(** An encoded register-or-memory operand: the X and B bits, [mod], [rm] and the bytes after ModRM. *)
Record RmEncoding : Set := mkRm { rm_x : bool; rm_b : bool; rm_mod : Z; rm_rm : Z; rm_tail : list Z }.

Definition scale_bits (scale : Z) : Z :=
  if scale =? 1 then 0 else if scale =? 2 then 1 else if scale =? 4 then 2 else 3.

Definition encode_memory (a : MemoryAddress) : option RmEncoding :=
  match ma_base_register a, ma_index_register a, ma_absolute_address a with
  | Some b, None, None =>
      Some (mkRm false (high b) 2 4 (pack 0 4 (low3 b) :: le 4 (ma_displacement a)))
  | Some b, Some i, None =>
      if decide (i = Reg.RSP) then None
      else Some (mkRm (high i) (high b) 2 4 (pack (scale_bits (ma_scale a)) (low3 i) (low3 b) :: le 4 (ma_displacement a)))
  | None, Some i, None =>
      if decide (i = Reg.RSP) then None
      else Some (mkRm (high i) false 0 4 (pack (scale_bits (ma_scale a)) (low3 i) 5 :: le 4 (ma_displacement a)))
  | None, None, Some x =>
      if (signed_of 64 x <? - 2 ^ 31) || (2 ^ 31 <=? signed_of 64 x) then None
      else Some (mkRm false false 0 4 (pack 0 4 5 :: le 4 x))
  | _, _, _ => None
  end.
Definition encode_rm (s : DataSize) (o : Operand) : option RmEncoding :=
  match o with
  | OpRegister r s' => if decide (s = s') then Some (mkRm false (high r) 3 (low3 r) []) else None
  | OpMemory a s' => if decide (s = s') then encode_memory a else None
  | _ => None
  end.

(** The scale, displacement and absolute address a memory operand has when it has no use for them. *)
Definition memory_canonical (a : MemoryAddress) : Prop :=
  (ma_index_register a = None -> ma_scale a = 1) /\
  (forall x, ma_absolute_address a = Some x -> ma_displacement a = 0).

(** ** Instructions *)

Definition with_modrm (opcode : list Z) (r : RegisterId) (rm : RmEncoding) (tail : list Z) : list Z :=
  [rex_byte (high r) (rm_x rm) (rm_b rm)] ++ opcode ++
  [pack (rm_mod rm) (low3 r) (rm_rm rm)] ++ rm_tail rm ++ tail.

Definition store_opcode (k : BinaryInstructionKind) : Z :=
  match k with
  | Binary.MOV => 0x89 | Binary.ADD => 0x01 | Binary.SUB => 0x29 | Binary.CMP => 0x39
  | Binary.AND => 0x21 | Binary.OR => 0x09 | Binary.XOR => 0x31 | Binary.TEST => 0x85
  end.
(** TEST has no register-from-memory form. *)
Definition load_opcode (k : BinaryInstructionKind) : option Z :=
  match k with
  | Binary.MOV => Some 0x8B | Binary.ADD => Some 0x03 | Binary.SUB => Some 0x2B | Binary.CMP => Some 0x3B
  | Binary.AND => Some 0x23 | Binary.OR => Some 0x0B | Binary.XOR => Some 0x33 | Binary.TEST => None
  end.

(** The encodable instructions as data. *)
Inductive Encodable : Set :=
  | Store (k : BinaryInstructionKind) (destination : Operand) (source : RegisterId)
  | Load (k : BinaryInstructionKind) (destination : RegisterId) (source : Operand)
  | Lea (destination : RegisterId) (source : MemoryAddress)
  | MovImmediate (destination : RegisterId) (value : Z)
  | Push (source : RegisterId)
  | Pop (destination : RegisterId)
  | Jump (displacement : Z)
  | JumpIf (nibble displacement : Z)
  | CompareExchange (destination : Operand) (source : RegisterId) (locked : bool).

Definition reg64 (r : RegisterId) : Operand := OpRegister r Size.QWORD.

Definition encode (e : Encodable) : option (list Z) :=
  match e with
  | Store k d r => rm ← encode_rm Size.QWORD d; Some (with_modrm [store_opcode k] r rm [])
  | Load k r s => opcode ← load_opcode k; rm ← encode_rm Size.QWORD s; Some (with_modrm [opcode] r rm [])
  | Lea r a => rm ← encode_memory a; Some (with_modrm [0x8D] r rm [])
  | MovImmediate r v => Some ([rex_byte false false (high r); 0xB8 + low3 r] ++ le 8 v)
  | Push r => Some [rex_byte false false (high r); 0x50 + low3 r]
  | Pop r => Some [rex_byte false false (high r); 0x58 + low3 r]
  | Jump d => Some (0xE9 :: le 4 d)
  | JumpIf n d => Some ([0x0F; 0x80 + n] ++ le 4 d)
  | CompareExchange d r locked =>
      rm ← encode_rm Size.QWORD d;
      Some ((if locked : bool then [0xF0] else []) ++ with_modrm [0x0F; 0xB1] r rm [])
  end.

(** What the bytes mean at an address from which [next] is the address after them. *)
Definition meaning (e : Encodable) (next : Z) : Instruction :=
  match e with
  | Store k d r => make_binary_instruction k d (reg64 r)
  | Load k r s => make_binary_instruction k (reg64 r) s
  | Lea r a => make_lea (reg64 r) (OpMemory a Size.QWORD)
  | MovImmediate r v => make_mov (reg64 r) (imm v)
  | Push r => make_push (reg64 r)
  | Pop r => make_pop (reg64 r)
  | Jump d => make_jmp (imm (signed_of 64 (add64 next (wrap64 d))))
  | JumpIf n d =>
      let target := imm (signed_of 64 (add64 next (wrap64 d))) in
      if n =? 4 then make_je target
      else if n =? 5 then make_jne target
      else mkInstruction Op.JCC (condition_from_opcode n) target OpNone false
  | CompareExchange d r locked => make_cmpxchg d (reg64 r) locked
  end.

(** The operands the format can carry. *)
Definition encodable_memory (a : MemoryAddress) : Prop := memory_ok a /\ memory_canonical a.
Definition encodable_rm (o : Operand) : Prop :=
  match o with OpMemory a _ => encodable_memory a | OpRegister r _ => is_register_id_valid r = true | _ => True end.
Definition encodable (e : Encodable) : Prop :=
  match e with
  | Store _ o r | Load _ r o => encodable_rm o /\ is_register_id_valid r = true
  | Lea r a => encodable_memory a /\ is_register_id_valid r = true
  | MovImmediate r v => signed_64 v /\ is_register_id_valid r = true
  | Push r | Pop r => is_register_id_valid r = true
  | Jump d => signed32 d
  | JumpIf n d => 0 <= n < 16 /\ signed32 d
  | CompareExchange o r locked =>
      encodable_rm o /\ is_register_id_valid r = true /\ (locked = true -> is_memory o = true)
  end.

(** ** Reading back *)

(** [reads c bytes a]: on [bytes], wherever they stand, [c] consumes them all and returns [a]. *)
Definition reads {A} (c : Cursor A) (bytes : list Z) (a : A) : Prop :=
  forall image rip, image_typed image -> u64 rip -> spells image rip bytes ->
  c image rip = (after rip bytes, Ok a).

Lemma reads_ret {A} (a : A) : reads (mret a) [] a.
Proof. done. Qed.
Lemma reads_bind {A B} (c : Cursor A) (k : A -> Cursor B) bs cs a b :
  reads c bs a -> reads (k a) cs b -> reads (c ≫= k) (bs ++ cs) b.
Proof.
  intros Hc Hk image rip Hi Hr [Hs1 Hs2]%spells_app. rewrite cursor_bind_eq, Hc, after_app by done.
  apply Hk; [done|by apply after_range|done].
Qed.
Lemma reads_bind_pure {A B} (c : Cursor A) (k : A -> Cursor B) cs a b :
  reads c [] a -> reads (k a) cs b -> reads (c ≫= k) cs b.
Proof. intros Hc Hk. by apply (reads_bind c k [] cs a b). Qed.
Lemma reads_bind_last {A B} (c : Cursor A) (k : A -> Cursor B) bs a b :
  reads c bs a -> reads (k a) [] b -> reads (c ≫= k) bs b.
Proof. intros Hc Hk. rewrite <- (app_nil_r bs). by apply (reads_bind c k bs [] a b). Qed.
Lemma reads_byte b : reads read_u8 [b] b.
Proof. intros image rip _ _ [Hb _]. unfold read_u8. by rewrite (byte_at_contains _ _ _ Hb), Hb. Qed.
Lemma reads_checked {A} (r : res A) a : r = Ok a -> reads (checked r) [] a.
Proof. by intros ->. Qed.
Lemma reads_error_if b : b = false -> reads (decode_error_if b) [] tt.
Proof. by intros ->. Qed.

Lemma reads_bytes_le v (n : nat) k : 0 <= k ->
  reads (read_bytes_le (seqZ k (Z.of_nat n)) (v `mod` 2 ^ (8 * k))) (byte_of v <$> seqZ k (Z.of_nat n))
    (v `mod` 2 ^ (8 * (k + Z.of_nat n))).
Proof.
  revert k. induction n as [|n IH]; intros k Hk.
  { rewrite Z.add_0_r. apply reads_ret. }
  rewrite seqZ_cons by lia. rewrite fmap_cons. replace (Z.pred (Z.of_nat (S n))) with (Z.of_nat n) by lia.
  cbn [read_bytes_le]. apply (reads_bind _ _ [byte_of v k] _ _ _ (reads_byte _)).
  rewrite mod_lor_byte by done. specialize (IH (Z.succ k) ltac:(lia)).
  replace (k + 1) with (Z.succ k) by lia. by replace (k + Z.of_nat (S n)) with (Z.succ k + Z.of_nat n) by lia.
Qed.
Lemma reads_le (n : nat) v : reads (read_bytes_le (seqZ 0 (Z.of_nat n)) 0) (le (Z.of_nat n) v) (v `mod` 2 ^ (8 * Z.of_nat n)).
Proof.
  pose proof (reads_bytes_le v n 0 ltac:(lia)) as Hl. change (8 * 0) with 0 in Hl.
  change (2 ^ 0) with 1 in Hl. by rewrite Z.mod_1_r in Hl.
Qed.
Lemma signed_of_mod bits v : 0 < bits -> - 2 ^ (bits - 1) <= v < 2 ^ (bits - 1) ->
  signed_of bits (v `mod` 2 ^ bits) = v.
Proof.
  intros Hb Hv. assert (H2 : 2 ^ bits = 2 * 2 ^ (bits - 1)).
  { rewrite <- Z.pow_succ_r by lia. f_equal. lia. }
  unfold signed_of. destruct (Z.ltb_spec v 0).
  - replace (v `mod` 2 ^ bits) with (v + 2 ^ bits).
    + destruct (Z.ltb_spec (v + 2 ^ bits) (2 ^ (bits - 1))); lia.
    + apply (Z.mod_unique _ _ (-1)); lia.
  - rewrite Z.mod_small by lia. destruct (Z.ltb_spec v (2 ^ (bits - 1))); lia.
Qed.
Lemma reads_i32 v : signed32 v -> reads read_i32 (le 4 v) v.
Proof.
  intros Hv. eapply reads_bind_last; [apply (reads_le 4)|]. rewrite (signed_of_mod 32) by done. apply reads_ret.
Qed.
Lemma reads_i32_of_word x : reads read_i32 (le 4 x) (signed_of 32 (x `mod` 2 ^ 32)).
Proof. eapply reads_bind_last; [apply (reads_le 4)|]. apply reads_ret. Qed.
Lemma reads_u64_signed v : signed_64 v -> reads (read_u64 ≫= fun w => mret (qword_to_signed_immediate w)) (le 8 v) v.
Proof.
  intros Hv. eapply reads_bind_last; [apply (reads_le 8)|]. unfold qword_to_signed_immediate.
  rewrite (signed_of_mod 64) by done. apply reads_ret.
Qed.

(** *** Operands *)

Lemma reads_modrm a b c : field 2 a -> field 3 b -> field 3 c -> reads read_modrm [pack a b c] (mkModRm a b c).
Proof.
  intros Ha Hb Hc. eapply reads_bind_last; [apply reads_byte|].
  destruct (unpack a b c Ha Hb Hc) as (-> & -> & ->). apply reads_ret.
Qed.
Lemma reads_sib a b c : field 2 a -> field 3 b -> field 3 c -> reads read_sib [pack a b c] (mkSib a b c).
Proof.
  intros Ha Hb Hc. eapply reads_bind_last; [apply reads_byte|].
  destruct (unpack a b c Ha Hb Hc) as (-> & -> & ->). apply reads_ret.
Qed.
Lemma scale_bits_field s : field 2 (scale_bits s).
Proof. unfold scale_bits, field. repeat case_match; lia. Qed.
Lemma scale_bits_inverse s : require_memory_scale s = Ok tt -> sib_scale_to_multiplier (scale_bits s) = s.
Proof.
  unfold require_memory_scale, scale_bits. intros Hs.
  destruct (Z.eqb_spec s 1); [by subst|]. destruct (Z.eqb_spec s 2); [by subst|].
  destruct (Z.eqb_spec s 4); [by subst|]. destruct (Z.eqb_spec s 8); [by subst|]. done.
Qed.

Section operand.
Variable (r : Z) (w rr : bool) (s : DataSize).
Hypothesis Hsize : is_data_size_valid s = true.

Definition rex_of (e : RmEncoding) : RexPrefix := mkRex w rr (rm_x e) (rm_b e).
Definition modrm_of (e : RmEncoding) : ModRmByte := mkModRm (rm_mod e) r (rm_rm e).

(** The common shape of the four SIB forms: SIB byte, displacement, address. *)
Lemma reads_sib_operand x b m sc ix ba d tail o :
  field 2 sc -> field 3 ix -> field 3 ba -> (m = 0 /\ ba = 5 \/ m = 2) -> reads read_i32 tail d ->
  (if negb ((m =? 0) && (ba =? 5)) && (negb (ix =? 4) || x) then
     indexed_mem (decode_register ba b) (decode_register ix x) (sib_scale_to_multiplier sc) d s
   else if negb ((m =? 0) && (ba =? 5)) then mem_base (decode_register ba b) d s
   else if negb (ix =? 4) || x then
     address ← index_displacement (decode_register ix x) (sib_scale_to_multiplier sc) d; mem address s
   else absolute_mem (wrap64 d) s) = Ok o ->
  reads (make_memory_operand_from_sib (mkModRm m r 4) (mkRex w rr x b) s) (pack sc ix ba :: tail) o.
Proof.
  intros Hsc Hix Hba Hm Hd Ho. apply (reads_bind _ _ [_] tail _ _ (reads_sib sc ix ba Hsc Hix Hba)).
  cbn [modrm_mod sib_scale sib_index sib_base rex_x rex_b].
  destruct Hm as [[-> ->]| ->]; cbn [Z.eqb Pos.eqb andb negb] in *.
  - eapply reads_bind_pure; [apply reads_ret|]. eapply reads_bind_last; [exact Hd|]. by apply reads_checked.
  - eapply reads_bind_last; [exact Hd|]. eapply reads_bind_pure; [apply reads_ret|]. by apply reads_checked.
Qed.

Lemma index_present i : is_register_id_valid i = true -> i <> Reg.RSP -> negb (low3 i =? 4) || high i = true.
Proof. by destruct i. Qed.
Lemma absolute_from_word x : u64 x -> (signed_of 64 x <? - 2 ^ 31) || (2 ^ 31 <=? signed_of 64 x) = false ->
  wrap64 (signed_of 32 (x `mod` 2 ^ 32)) = x.
Proof.
  intros Hx Hs. zb. assert (Hsm : signed_of 64 x `mod` 2 ^ 64 = x).
  { unfold signed_of. change (2 ^ 64) with W64. destruct (Z.ltb_spec x (2 ^ (64 - 1))); [by apply Z.mod_small|].
    symmetry. apply (Z.mod_unique _ _ (-1)); unfold u64 in Hx; lia. }
  assert (Hm : x `mod` 2 ^ 32 = signed_of 64 x `mod` 2 ^ 32).
  { rewrite <- Hsm at 1. change (2 ^ 64) with (2 ^ 32 * 2 ^ 32). symmetry. apply Znumtheory.Zmod_div_mod; [lia..|].
    by exists (2 ^ 32). }
  rewrite Hm, (signed_of_mod 32) by lia. exact Hsm.
Qed.
Lemma reads_encode_memory a e : encodable_memory a -> encode_memory a = Some e ->
  field 2 (rm_mod e) /\ field 3 (rm_rm e) /\ reads (decode_rm_operand (modrm_of e) (rex_of e) s) (rm_tail e) (OpMemory a s).
Proof.
  intros [(Hb & Hi & Hsc & Hd & Hx) [Hsc1 Hd0]] He. unfold encode_memory in He.
  destruct a as [ba ix sc d ab]; cbn [ma_base_register ma_index_register ma_scale ma_displacement ma_absolute_address] in *.
  assert (Hf2 : field 2 2) by (unfold field; lia). assert (Hf0 : field 2 0) by (unfold field; lia).
  assert (Hf4 : field 3 4) by (unfold field; lia). assert (Hf5 : field 3 5) by (unfold field; lia).
  pose proof (scale_bits_field sc) as Hfs. pose proof (reads_i32 d Hd) as Hrd.
  destruct ba as [b|], ix as [i|], ab as [x|]; try done.
  - destruct (decide (i = Reg.RSP)) as [|Hne]; [done|]. injection He as <-. cbn [rm_mod rm_rm rm_tail].
    split; [done|]. split; [done|]. specialize (Hb _ eq_refl). specialize (Hi _ eq_refl).
    eapply (reads_sib_operand _ _ 2); [done|apply low3_field|apply low3_field|by right|done|].
    cbn [Z.eqb Pos.eqb andb negb]. rewrite index_present, !decode_register_number, scale_bits_inverse by done.
    unfold indexed_mem, base_index_displacement, require_register_id. munfold_goal. rewrite Hb, Hi, Hsc. by apply mem_ok.
  - injection He as <-. cbn [rm_mod rm_rm rm_tail]. split; [done|]. split; [done|]. specialize (Hb _ eq_refl).
    eapply (reads_sib_operand _ _ 2); [done|done|apply low3_field|by right|done|].
    cbn [Z.eqb Pos.eqb andb negb orb]. rewrite decode_register_number by done.
    unfold mem_base, base_displacement, require_register_id. munfold_goal. rewrite Hb. rewrite Hsc1 by done.
    by apply mem_ok.
  - destruct (decide (i = Reg.RSP)) as [|Hne]; [done|]. injection He as <-. cbn [rm_mod rm_rm rm_tail].
    split; [done|]. split; [done|]. specialize (Hi _ eq_refl).
    eapply (reads_sib_operand _ _ 0); [done|apply low3_field|done|by left|done|].
    cbn [Z.eqb Pos.eqb andb negb]. rewrite index_present, decode_register_number, scale_bits_inverse by done.
    unfold index_displacement, require_register_id. munfold_goal. rewrite Hi, Hsc. by apply mem_ok.
  - destruct (_ || _) eqn:Hr in He; [done|]. injection He as <-. cbn [rm_mod rm_rm rm_tail]. split; [done|]. split; [done|].
    specialize (Hx _ eq_refl).
    eapply (reads_sib_operand _ _ 0); [done|done|done|by left|apply reads_i32_of_word|].
    cbn [Z.eqb Pos.eqb andb negb orb]. rewrite absolute_from_word by done. rewrite Hsc1, (Hd0 x) by done. by apply mem_ok.
Qed.
Lemma reads_encode_rm o e : encodable_rm o -> encode_rm s o = Some e ->
  field 2 (rm_mod e) /\ field 3 (rm_rm e) /\ reads (decode_rm_operand (modrm_of e) (rex_of e) s) (rm_tail e) o.
Proof.
  intros Ho He. destruct o as [|q s'| |a s']; try done; cbn [encode_rm] in He; case_decide; try done; subst s'.
  - injection He as <-. cbn [rm_mod rm_rm rm_tail]. split; [unfold field; lia|]. split; [apply low3_field|].
    apply reads_checked. cbn [rm_mod rm_rm rm_b modrm_of rex_of modrm_rm rex_b].
    rewrite decode_register_number by done. by apply reg_ok.
  - by apply reads_encode_memory.
Qed.
End operand.

Lemma reads_reg_operand r w x b : is_register_id_valid r = true ->
  reads (decode_reg_operand (low3 r) (mkRex w (high r) x b) Size.QWORD) [] (reg64 r).
Proof. intros Hr. apply reads_checked. cbn [rex_r]. rewrite decode_register_number by done. by apply reg_ok. Qed.

(** *** Prefixes *)

Lemma prefix_loop_reads image ps : forall fuel p q stop rip, (length ps < fuel)%nat ->
  foldl (fun acc b => acc ≫= apply_prefix b) (Some p) ps = Some q -> apply_prefix stop q = None ->
  spells image rip (ps ++ [stop]) -> prefix_loop fuel p image rip = (after rip ps, Ok q).
Proof.
  induction ps as [|b ps IH]; intros [|fuel] p q stop rip Hf Hq Hstop Hs; simpl in Hf; try lia.
  - injection Hq as <-. destruct Hs as [Hb _]. cbn [prefix_loop]. rewrite cursor_bind_eq. unfold peek_u8.
    rewrite (byte_at_contains _ _ _ Hb), Hb. cbn [negb]. by rewrite Hstop.
  - destruct Hs as [Hb Hs]. cbn [prefix_loop]. rewrite cursor_bind_eq. unfold peek_u8 at 1.
    rewrite (byte_at_contains _ _ _ Hb), Hb. cbn [negb]. simpl in Hq. destruct (apply_prefix b p) as [p'|].
    + rewrite cursor_bind_eq. unfold read_u8 at 1. rewrite (byte_at_contains _ _ _ Hb), Hb. cbn [negb].
      apply (IH _ _ q stop); [lia|done|done|done].
    + assert (Hn : foldl (fun acc b0 => acc ≫= apply_prefix b0) None ps = None) by (clear; by induction ps).
      congruence.
Qed.
Lemma reads_prefixes ps q opcode :
  foldl (fun acc b => acc ≫= apply_prefix b) (Some no_prefixes) ps = Some q -> apply_prefix opcode q = None ->
  reads prefixes_and_opcode (ps ++ [opcode]) (q, opcode).
Proof.
  intros Hq Hstop image rip Hi Hr Hs. pose proof (spells_remaining _ _ _ Hi Hr Hs) as Hl.
  pose proof (remaining_bounds image rip). unfold lenZ in *. rewrite length_app in Hl. simpl in Hl.
  unfold prefixes_and_opcode. rewrite cursor_bind_eq. unfold read_instruction_prefixes.
  rewrite (prefix_loop_reads _ ps _ _ q opcode) by (done || lia).
  apply spells_app in Hs as [_ Hs]. rewrite cursor_bind_eq, (reads_byte opcode) by (done || by apply after_range).
  by rewrite after_app.
Qed.
Lemma rex_prefix r x b : foldl (fun acc v => acc ≫= apply_prefix v) (Some no_prefixes) [rex_byte r x b] =
  Some (mkPrefixes (mkRex true r x b) false).
Proof. by destruct r, x, b. Qed.
Lemma lock_rex_prefix r x b : foldl (fun acc v => acc ≫= apply_prefix v) (Some no_prefixes) [0xF0; rex_byte r x b] =
  Some (mkPrefixes (mkRex true r x b) true).
Proof. by destruct r, x, b. Qed.

(** *** Instructions *)

Lemma decode_from image rip ps q opcode tail i :
  image_typed image -> u64 rip ->
  foldl (fun acc b => acc ≫= apply_prefix b) (Some no_prefixes) ps = Some q -> apply_prefix opcode q = None ->
  prefix_locked q && negb (opcode =? 0x0F) = false -> spells image rip (ps ++ opcode :: tail) ->
  decode_opcode (prefix_rex q) (prefix_locked q) opcode image (after rip (ps ++ [opcode])) =
    (after (after rip (ps ++ [opcode])) tail, Ok i) ->
  decode image rip = Ok (mkDecoded i rip (add64 rip (lenZ (ps ++ opcode :: tail)))).
Proof.
  intros Hi Hr Hq Hstop Hl Hs Hd. rewrite <- after_add64 by done. replace (ps ++ opcode :: tail) with ((ps ++ [opcode]) ++ tail) in *
    by by rewrite <- app_assoc.
  apply spells_app in Hs as [Hs _]. unfold decode. rewrite decode_body_eq, cursor_bind_eq.
  rewrite (reads_prefixes ps q opcode) by done. cbn [fst snd]. rewrite cursor_bind_eq. unfold decode_error_if, throw_if.
  rewrite Hl. cbn beta iota. by rewrite Hd, !after_app.
Qed.
(** The same for an instruction whose remaining bytes are read alike wherever they stand. *)
Lemma decode_reads image rip ps q opcode tail i :
  image_typed image -> u64 rip ->
  foldl (fun acc b => acc ≫= apply_prefix b) (Some no_prefixes) ps = Some q -> apply_prefix opcode q = None ->
  prefix_locked q && negb (opcode =? 0x0F) = false -> spells image rip (ps ++ opcode :: tail) ->
  reads (decode_opcode (prefix_rex q) (prefix_locked q) opcode) tail i ->
  decode image rip = Ok (mkDecoded i rip (add64 rip (lenZ (ps ++ opcode :: tail)))).
Proof.
  intros Hi Hr Hq Hstop Hl Hs Hd. eapply decode_from; eauto. apply Hd; [done|by apply after_range|].
  replace (ps ++ opcode :: tail) with ((ps ++ [opcode]) ++ tail) in Hs by by rewrite <- app_assoc.
  by apply spells_app in Hs as [_ Hs].
Qed.

Section modrm_forms.
Variables (r : RegisterId) (e : RmEncoding) (locked : bool).
Hypothesis Hr : is_register_id_valid r = true.
Hypothesis Hmod : field 2 (rm_mod e).
Hypothesis Hrm : field 3 (rm_rm e).
Let rex := mkRex true (high r) (rm_x e) (rm_b e).

Lemma reads_rm_reg (s : DataSize) (o : Operand) {A} (k : Operand -> Operand -> A) :
  reads (decode_rm_operand (modrm_of (low3 r) e) rex s) (rm_tail e) o ->
  reads (read_modrm ≫= fun m => decode_rm_operand m rex s ≫= fun rm =>
         decode_reg_operand (modrm_reg m) rex Size.QWORD ≫= fun q => mret (k rm q))
    ([pack (rm_mod e) (low3 r) (rm_rm e)] ++ rm_tail e) (k o (reg64 r)).
Proof.
  intros Ho. eapply reads_bind; [apply reads_modrm; [done|apply low3_field|done]|].
  eapply reads_bind_last; [exact Ho|]. eapply reads_bind_pure; [by apply reads_reg_operand|]. apply reads_ret.
Qed.
Lemma reads_binary opcode k o : binary_kind_from_opcode opcode = Some k ->
  reads (decode_rm_operand (modrm_of (low3 r) e) rex Size.QWORD) (rm_tail e) o ->
  reads (decode_opcode rex locked opcode) ([pack (rm_mod e) (low3 r) (rm_rm e)] ++ rm_tail e)
    (if rm_operand_is_destination_opcode opcode then make_binary_instruction k o (reg64 r)
     else make_binary_instruction k (reg64 r) o).
Proof.
  intros Hk Ho. assert (Hd : decode_opcode rex locked opcode =
    require_rex_w rex ≫= fun _ => read_modrm ≫= fun m => decode_rm_operand m rex Size.QWORD ≫= fun rm_operand =>
    decode_reg_operand (modrm_reg m) rex Size.QWORD ≫= fun reg_operand =>
    mret (if rm_operand_is_destination_opcode opcode
          then make_binary_instruction k rm_operand reg_operand
          else make_binary_instruction k reg_operand rm_operand)).
  { clear Ho. unfold binary_kind_from_opcode in Hk.
    repeat (case_match; try done); injection Hk as <-; reflexivity. }
  rewrite Hd. eapply reads_bind_pure; [by apply reads_error_if|].
  exact (reads_rm_reg Size.QWORD o (fun rm q => if rm_operand_is_destination_opcode opcode
          then make_binary_instruction k rm q else make_binary_instruction k q rm) Ho).
Qed.
Lemma reads_lea a : reads (decode_rm_operand (modrm_of (low3 r) e) rex Size.QWORD) (rm_tail e) (OpMemory a Size.QWORD) ->
  reads (decode_opcode rex locked 0x8D) ([pack (rm_mod e) (low3 r) (rm_rm e)] ++ rm_tail e)
    (make_lea (reg64 r) (OpMemory a Size.QWORD)).
Proof.
  intros Ho. eapply reads_bind_pure; [by apply reads_error_if|].
  eapply reads_bind; [apply reads_modrm; [done|apply low3_field|done]|].
  eapply reads_bind_last; [exact Ho|]. eapply reads_bind_pure; [by apply reads_error_if|].
  eapply reads_bind_pure; [by apply reads_reg_operand|]. apply reads_ret.
Qed.
Lemma reads_compare_exchange o : (locked = true -> is_memory o = true) ->
  reads (decode_rm_operand (modrm_of (low3 r) e) rex Size.QWORD) (rm_tail e) o ->
  reads (decode_opcode rex locked 0x0F) (0xB1 :: pack (rm_mod e) (low3 r) (rm_rm e) :: rm_tail e)
    (make_cmpxchg o (reg64 r) locked).
Proof.
  intros Hl Ho. apply (reads_bind _ _ [0xB1] _ _ _ (reads_byte _)).
  eapply reads_bind_pure; [by apply reads_error_if|].
  eapply (reads_bind _ _ [_]); [apply reads_modrm; [done|apply low3_field|done]|].
  eapply reads_bind_last; [exact Ho|].
  eapply reads_bind_pure; [apply reads_error_if; destruct locked; [by rewrite Hl|done]|].
  eapply reads_bind_pure; [by apply reads_reg_operand|]. apply reads_ret.
Qed.
End modrm_forms.

Lemma reads_register_forms r locked : is_register_id_valid r = true ->
  let rex := mkRex true false false (high r) in
  reads (decode_opcode rex locked (0x50 + low3 r)) [] (make_push (reg64 r)) /\
  reads (decode_opcode rex locked (0x58 + low3 r)) [] (make_pop (reg64 r)) /\
  forall v, signed_64 v -> reads (decode_opcode rex locked (0xB8 + low3 r)) (le 8 v) (make_mov (reg64 r) (imm v)).
Proof.
  intros Hr rex. split; [|split].
  - destruct r; done.
  - destruct r; done.
  - intros v Hv.
    assert (Hd : decode_opcode rex locked (0xB8 + low3 r) =
      require_rex_w rex ≫= fun _ => checked (reg_qword (decode_register (low3 r) (high r))) ≫= fun d =>
      read_u64 ≫= fun w => mret (make_mov d (imm (qword_to_signed_immediate w)))) by by destruct r.
    rewrite Hd. eapply reads_bind_pure; [by apply reads_error_if|].
    eapply reads_bind_pure; [apply reads_checked; rewrite decode_register_number by done; by apply reg_ok|].
    eapply reads_bind_last; [apply (reads_le 8)|]. unfold qword_to_signed_immediate.
    rewrite (signed_of_mod 64) by done. apply reads_ret.
Qed.

(** A 32-bit displacement is relative to the address after it. *)
Lemma relative_i32 image rip {A} (k : Z -> Cursor A) d : image_typed image -> u64 rip -> signed32 d ->
  spells image rip (le 4 d) ->
  (read_i32 ≫= fun d => cursor_rip ≫= fun next => k (relative_target next d)) image rip =
  k (add64 (after rip (le 4 d)) (wrap64 d)) image (after rip (le 4 d)).
Proof. intros Hi Hr Hd Hs. rewrite cursor_bind_eq, (reads_i32 d) by done. reflexivity. Qed.

Lemma load_store_kinds k :
  binary_kind_from_opcode (store_opcode k) = Some k /\ rm_operand_is_destination_opcode (store_opcode k) = true /\
  forall opcode, load_opcode k = Some opcode ->
    binary_kind_from_opcode opcode = Some k /\ rm_operand_is_destination_opcode opcode = false.
Proof. destruct k; (split; [done|]; split; [done|]); intros ? [= <-]; done. Qed.
Lemma opcode_not_prefix k q :
  apply_prefix (store_opcode k) q = None /\ forall opcode, load_opcode k = Some opcode -> apply_prefix opcode q = None.
Proof. destruct k; (split; [done|]); intros ? [= <-]; done. Qed.
(** The bytes of the encoding of a REX.W instruction with a ModRM byte. *)
Lemma decode_with_modrm image rip opcode r e i :
  image_typed image -> u64 rip -> apply_prefix opcode (mkPrefixes (mkRex true (high r) (rm_x e) (rm_b e)) false) = None ->
  spells image rip (with_modrm [opcode] r e []) ->
  reads (decode_opcode (mkRex true (high r) (rm_x e) (rm_b e)) false opcode)
    ([pack (rm_mod e) (low3 r) (rm_rm e)] ++ rm_tail e) i ->
  decode image rip = Ok (mkDecoded i rip (add64 rip (lenZ (with_modrm [opcode] r e [])))).
Proof.
  intros Hi Hr Hp Hs Hd. unfold with_modrm in *. rewrite app_nil_r in *.
  exact (decode_reads image rip [rex_byte (high r) (rm_x e) (rm_b e)] _ opcode _ i Hi Hr
    (rex_prefix _ _ _) Hp eq_refl Hs Hd).
Qed.

(** An encoding of the form REX.W, opcode, tail. *)
Lemma decode_rex image rip b opcode tail i :
  image_typed image -> u64 rip -> apply_prefix opcode (mkPrefixes (mkRex true false false b) false) = None ->
  spells image rip ([rex_byte false false b; opcode] ++ tail) ->
  reads (decode_opcode (mkRex true false false b) false opcode) tail i ->
  decode image rip = Ok (mkDecoded i rip (add64 rip (lenZ ([rex_byte false false b; opcode] ++ tail)))).
Proof.
  intros Hi Hr Hp Hs Hd. exact (decode_reads image rip [rex_byte false false b] _ opcode tail i Hi Hr
    (rex_prefix _ _ _) Hp eq_refl Hs Hd).
Qed.
Lemma decode_jumps image rip : image_typed image -> u64 rip ->
  (forall d, signed32 d -> spells image rip (0xE9 :: le 4 d) ->
    decode image rip = Ok (mkDecoded (meaning (Jump d) (after rip (0xE9 :: le 4 d))) rip (after rip (0xE9 :: le 4 d)))) /\
  (forall n d, 0 <= n < 16 -> signed32 d -> spells image rip (0x0F :: 0x80 + n :: le 4 d) ->
    decode image rip = Ok (mkDecoded (meaning (JumpIf n d) (after rip (0x0F :: 0x80 + n :: le 4 d))) rip
      (after rip (0x0F :: 0x80 + n :: le 4 d)))).
Proof.
  intros Hi Hr. split.
  - intros d Hd Hs. pose proof (decode_from image rip [] no_prefixes 0xE9 (le 4 d)) as Hf.
    rewrite <- after_add64 in Hf by done. apply Hf; try done.
    exact (relative_i32 image (add64 rip 1) (fun t => mret (make_jmp (imm (signed_of 64 t)))) d Hi
      (add64_range _ _) Hd (proj2 Hs)).
  - intros n d Hn Hd Hs. pose proof (decode_from image rip [] no_prefixes 0x0F (0x80 + n :: le 4 d)) as Hf.
    rewrite <- after_add64 in Hf by done. apply Hf; try done. destruct Hs as [_ [Hs1 Hs2]].
    set (next := after rip _) in *. set (i := meaning _ _).
    change ((read_u8 ≫= decode_escaped (mkRex false false false false) false) image (add64 rip 1) =
      (after (add64 (add64 rip 1) 1) (le 4 d), Ok i)).
    rewrite cursor_bind_eq, (reads_byte (0x80 + n)) by (done || apply add64_range). cbn [after].
    assert (Hj : decode_escaped (mkRex false false false false) false (0x80 + n) image (add64 (add64 rip 1) 1) =
      (read_i32 ≫= fun d => cursor_rip ≫= fun next =>
       make_conditional_jump_instruction (condition_from_opcode n) (relative_target next d)) image (add64 (add64 rip 1) 1)).
    { assert (Hc : Forall (fun n => decode_escaped (mkRex false false false false) false (0x80 + n) =
        (require_unlocked false ≫= fun _ => read_i32 ≫= fun d => cursor_rip ≫= fun next =>
         make_conditional_jump_instruction (condition_from_opcode n) (relative_target next d))) (seqZ 0 16)).
      { repeat (constructor; [reflexivity|]). constructor. }
      eapply Forall_forall in Hc; [|by apply elem_of_seqZ]. by rewrite Hc. }
    rewrite Hj, (relative_i32 image _ (make_conditional_jump_instruction (condition_from_opcode n)) d)
      by (done || apply add64_range).
    assert (Hm : forall t image rip, u64 t -> make_conditional_jump_instruction (condition_from_opcode n) t image rip =
      (rip, Ok (if n =? 4 then make_je (imm (signed_of 64 t)) else if n =? 5 then make_jne (imm (signed_of 64 t))
                else mkInstruction Op.JCC (condition_from_opcode n) (imm (signed_of 64 t)) OpNone false))).
    { clear - Hn. assert (Hc : Forall (fun n => forall t image rip, u64 t ->
        make_conditional_jump_instruction (condition_from_opcode n) t image rip =
        (rip, Ok (if n =? 4 then make_je (imm (signed_of 64 t)) else if n =? 5 then make_jne (imm (signed_of 64 t))
                else mkInstruction Op.JCC (condition_from_opcode n) (imm (signed_of 64 t)) OpNone false))) (seqZ 0 16)).
      { repeat (constructor; [reflexivity|]). constructor. }
      eapply Forall_forall in Hc; [|by apply elem_of_seqZ]. exact Hc. }
    by rewrite Hm by apply add64_range.
Qed.

(** C12. Round trip with the x86-64 format: every instruction the reference encoder writes (moves,
    arithmetic and logic between a register and any register or memory operand, address
    computation, 64-bit immediates, push, pop, jumps, conditional jumps, compare-exchange with and
    without LOCK) is decoded back to what it means, with the address after its last byte. *)
Theorem decode_encode image rip e bytes :
  image_typed image -> u64 rip -> encodable e -> encode e = Some bytes -> spells image rip bytes ->
  decode image rip = Ok (mkDecoded (meaning e (add64 rip (lenZ bytes))) rip (add64 rip (lenZ bytes))).
Proof.
  intros Hi Hr He Hb Hs.
  destruct e as [k o r|k r o|r a|r v|r|r|d|n d|o r locked]; cbn [encode encodable] in *.
  - destruct He as [Ho Hv]. apply bind_Some in Hb as (e & Ee & [= <-]).
    destruct (load_store_kinds k) as (Hk & Hdst & _).
    destruct (reads_encode_rm (low3 r) true (high r) Size.QWORD eq_refl _ _ Ho Ee) as (Hm & Hrm & Hrd).
    apply decode_with_modrm; [done|done|apply opcode_not_prefix|done|].
    pose proof (reads_binary r e false Hv Hm Hrm (store_opcode k) k o Hk Hrd) as Hd. by rewrite Hdst in Hd.
  - destruct He as [Ho Hv]. apply bind_Some in Hb as (opcode & Eo & Hb). apply bind_Some in Hb as (e & Ee & [= <-]).
    destruct (load_store_kinds k) as (_ & _ & Hk). destruct (Hk _ Eo) as [Hk' Hdst].
    destruct (reads_encode_rm (low3 r) true (high r) Size.QWORD eq_refl _ _ Ho Ee) as (Hm & Hrm & Hrd).
    apply decode_with_modrm; [done|done|by apply (opcode_not_prefix k)|done|].
    pose proof (reads_binary r e false Hv Hm Hrm opcode k o Hk' Hrd) as Hd. by rewrite Hdst in Hd.
  - destruct He as [Ho Hv]. apply bind_Some in Hb as (e & Ee & [= <-]).
    destruct (reads_encode_memory (low3 r) true (high r) Size.QWORD eq_refl _ _ Ho Ee) as (Hm & Hrm & Hrd).
    apply decode_with_modrm; [done|done|done|done|]. by apply reads_lea.
  - destruct He as [Hv Hv']. injection Hb as <-. destruct (reads_register_forms r false Hv') as (_ & _ & Hd).
    apply (decode_rex image rip (high r) (0xB8 + low3 r) (le 8 v)); [done|done|by destruct r|done|by apply Hd].
  - injection Hb as <-. destruct (reads_register_forms r false He) as (Hd & _ & _).
    apply (decode_rex image rip (high r) (0x50 + low3 r) []); [done|done|by destruct r|done|done].
  - injection Hb as <-. destruct (reads_register_forms r false He) as (_ & Hd & _).
    apply (decode_rex image rip (high r) (0x58 + low3 r) []); [done|done|by destruct r|done|done].
  - injection Hb as <-. rewrite <- after_add64 by done. by apply (proj1 (decode_jumps image rip Hi Hr)).
  - destruct He as [Hn Hd]. injection Hb as <-. rewrite <- after_add64 by done.
    by apply (proj2 (decode_jumps image rip Hi Hr)).
  - destruct He as (Ho & Hv & Hl). apply bind_Some in Hb as (e & Ee & [= <-]).
    destruct (reads_encode_rm (low3 r) true (high r) Size.QWORD eq_refl _ _ Ho Ee) as (Hm & Hrm & Hrd).
    pose proof (reads_compare_exchange r e locked Hv Hm Hrm o Hl Hrd) as Hd.
    unfold with_modrm in *. rewrite app_nil_r in *. destruct locked.
    + exact (decode_reads image rip [0xF0; rex_byte (high r) (rm_x e) (rm_b e)] _ 0x0F _ _ Hi Hr
        (lock_rex_prefix _ _ _) eq_refl eq_refl Hs Hd).
    + exact (decode_reads image rip [rex_byte (high r) (rm_x e) (rm_b e)] _ 0x0F _ _ Hi Hr
        (rex_prefix _ _ _) eq_refl eq_refl Hs Hd).
Qed.

(** [lock cmpxchg [r12 + rsi*4 - 16], rcx] again, through the encoder. *)
Definition sample_encodable : Encodable :=
  CompareExchange (OpMemory (mkMemoryAddress (Some Reg.R12) (Some Reg.RSI) 4 (-16) None) Size.QWORD) Reg.RCX true.
Definition sample_bytes : list Z := [0xF0; 0x49; 0x0F; 0xB1; 0x8C; 0xB4; 0xF0; 0xFF; 0xFF; 0xFF].
Lemma decode_encode_witness :
  encode sample_encodable = Some sample_bytes /\
  decode (mkImage (sample_bytes ++ [0xF4]) 0x1000) 0x1000 =
    Ok (mkDecoded (meaning sample_encodable 0x100A) 0x1000 0x100A).
Proof.
  split; [reflexivity|].
  apply (decode_encode (mkImage (sample_bytes ++ [0xF4]) 0x1000) 0x1000 sample_encodable sample_bytes).
  - split; [by apply byte_valued_check|]. by vm_compute.
  - by split.
  - split; [|by split]. split; [|split; [done|by intros x [=]]]. split; [by intros r [= <-]|].
    split; [by intros r [= <-]|]. split; [done|]. split; [by vm_compute|by intros x [=]].
  - reflexivity.
  - simpl. split_and!; reflexivity.
Defined.
