(* ===== verification/Executor.v ===== *)
(** * Executor

    Models src/cpu/execution/executor.cpp: the operand accessors, one definition per opcode, the
    fetch check and page-fault handling of a step, and the run loop, over any memory bus. *)

From S2P Require Import Prelude Common PhysicalMemory MemoryBus Paging PageTable Tlb Perf Mmu Instruction CpuState Trap Decoder.

(** ** Widths *)

Definition EXECUTOR_STACK_SLOT_BYTES : Z := 8.
Definition EXECUTOR_GENERAL_PROTECTION_ERROR_CODE : Z := 0.

(* [src/cpu/execution/executor.cpp] [has_qword_sign_bit] *)
Definition has_qword_sign_bit (v : Z) : bool := negb (Z.land v (shl64 1 63) =? 0).
(* [src/cpu/execution/executor.cpp] [mask_for_data_size] *)
Definition mask_for_data_size (s : DataSize) : res Z :=
  match s with
  | Size.BYTE => Ok 0xFF
  | Size.WORD => Ok 0xFFFF
  | Size.DWORD => Ok 0xFFFFFFFF
  | Size.QWORD => Ok (not64 0)
  | Size.COUNT => Throw logic_error
  end.
(* [src/cpu/execution/executor.cpp] [sign_bit_index_for_data_size] *)
Definition sign_bit_index_for_data_size (s : DataSize) : res Z :=
  bits ← data_size_to_bits s; Ok (sub64 bits 1).
(* [src/cpu/execution/executor.cpp] [sign_extend_value] *)
Definition sign_extend_value (value : Z) (source_size : DataSize) : res Z :=
  value_mask ← mask_for_data_size source_size;
  let masked_value := Z.land value value_mask in
  sign_bit_index ← sign_bit_index_for_data_size source_size;
  let sign_mask := shl64 1 sign_bit_index in
  if Z.land masked_value sign_mask =? 0 then Ok masked_value
  else Ok (Z.lor masked_value (not64 value_mask)).

(** ** Flags *)

(* [src/cpu/execution/executor.cpp] [ArithmeticFlagUpdater::update_add] [95-107] *)
Definition update_add (left right result : Z) (flags : Rflags) : Rflags :=
  let flags := update_zero_sign_parity_from_qword flags result in
  let flags := write_flag flags Flag.CF (result <? left) in
  write_flag flags Flag.OF
    (eqb (has_qword_sign_bit left) (has_qword_sign_bit right) &&
     negb (eqb (has_qword_sign_bit result) (has_qword_sign_bit left))).
(* [src/cpu/execution/executor.cpp] [ArithmeticFlagUpdater::update_sub] [109-121] *)
Definition update_sub (left right result : Z) (flags : Rflags) : Rflags :=
  let flags := update_zero_sign_parity_from_qword flags result in
  let flags := write_flag flags Flag.CF (left <? right) in
  write_flag flags Flag.OF
    (negb (eqb (has_qword_sign_bit left) (has_qword_sign_bit right)) &&
     negb (eqb (has_qword_sign_bit result) (has_qword_sign_bit left))).
(* [src/cpu/execution/executor.cpp] [ArithmeticFlagUpdater::update_inc] [123-130] *)
Definition update_inc (left result : Z) (flags : Rflags) : Rflags :=
  let flags := update_zero_sign_parity_from_qword flags result in
  write_flag flags Flag.OF (negb (has_qword_sign_bit left) && has_qword_sign_bit result).
(* [src/cpu/execution/executor.cpp] [ArithmeticFlagUpdater::update_dec] [132-139] *)
Definition update_dec (left result : Z) (flags : Rflags) : Rflags :=
  let flags := update_zero_sign_parity_from_qword flags result in
  write_flag flags Flag.OF (has_qword_sign_bit left && negb (has_qword_sign_bit result)).
(* [src/cpu/execution/executor.cpp] [LogicalFlagUpdater::update] [145-150] *)
Definition update_logical (result : Z) (flags : Rflags) : Rflags :=
  let flags := update_zero_sign_parity_from_qword flags result in
  let flags := write_flag flags Flag.CF false in
  write_flag flags Flag.OF false.

(** ** State *)

(* [include/mnos/cpu/execution/executor.hpp] [StepResult] *)
Inductive StepResult : Set := EXECUTED | HALTED | STEP_RESULT_COUNT.

(** The executor owns the performance model and attaches it to its memory-management unit, so the
    model is kept where the unit keeps it.  The trap controller is a pointer to an object that no
    instruction changes. *)
(* [include/mnos/cpu/execution/executor.hpp] [Executor] [280-284] *)
Record Executor : Set := mkExecutor {
  mmu : MemoryManagementUnit;
  trap_controller : option TrapController;
  cycle_count : Z;
}.
Definition make_executor : Executor := mkExecutor make_mmu None 0.

Definition on_executor_mmu (f : MemoryManagementUnit -> MemoryManagementUnit) (e : Executor) : Executor :=
  mkExecutor (f (mmu e)) (trap_controller e) (cycle_count e).
(* [src/cpu/execution/executor.cpp] [Executor::reset] *)
Definition executor_reset (e : Executor) : Executor :=
  mkExecutor (on_model reset (mmu e)) (trap_controller e) 0.
(* [src/cpu/execution/executor.cpp] [Executor::attach_trap_controller] *)
Definition attach_trap_controller (tc : TrapController) (e : Executor) : Executor :=
  mkExecutor (mmu e) (Some tc) (cycle_count e).
(* [src/cpu/execution/executor.cpp] [Executor::detach_trap_controller] *)
Definition detach_trap_controller (e : Executor) : Executor := mkExecutor (mmu e) None (cycle_count e).
(* [src/cpu/execution/executor.cpp] [Executor::enable_stage8_performance_model] *)
Definition enable_stage8_performance_model (config : Stage8PerformanceConfig) : Executor -> Executor :=
  on_executor_mmu (attach_performance_model (make_model config)).
(* [src/cpu/execution/executor.cpp] [Executor::disable_stage8_performance_model] *)
Definition disable_stage8_performance_model : Executor -> Executor := on_executor_mmu detach_performance_model.

(* [include/mnos/cpu/execution/executor.hpp] [ExecutionContext] [82-87] *)
Record ExecutionContext : Set := mkContext {
  program : option Program;
  image : option ExecutableImage;
  next_rip : Z;
}.

(** What a step works on: the core, the executor, and the bus and trace that may be absent. *)
Record Machine (B : Type) : Type := mkMachine {
  cpu : CpuState;
  executor : Executor;
  memory_bus : option B;
  trace : option (list ExecutionTraceEntry);
}.
Arguments mkMachine {B}.
Arguments cpu {B}.
Arguments executor {B}.
Arguments memory_bus {B}.
Arguments trace {B}.

Definition set_cpu {B} (c : CpuState) (m : Machine B) : Machine B :=
  mkMachine c (executor m) (memory_bus m) (trace m).
Definition set_executor {B} (e : Executor) (m : Machine B) : Machine B :=
  mkMachine (cpu m) e (memory_bus m) (trace m).
Definition set_bus {B} (b : option B) (m : Machine B) : Machine B :=
  mkMachine (cpu m) (executor m) b (trace m).
Definition set_trace {B} (t : option (list ExecutionTraceEntry)) (m : Machine B) : Machine B :=
  mkMachine (cpu m) (executor m) (memory_bus m) t.

(** ** Conditions and control flow *)

(* [src/cpu/execution/executor.cpp] [Executor::evaluate_condition] *)
Definition evaluate_condition (c : ConditionCode) (s : CpuState) : res bool :=
  let carry := read_flag (cpu_flags s) Flag.CF in
  let parity := read_flag (cpu_flags s) Flag.PF in
  let zero := read_flag (cpu_flags s) Flag.ZF in
  let sign := read_flag (cpu_flags s) Flag.SF in
  let overflow := read_flag (cpu_flags s) Flag.OF in
  match c with
  | Cond.O => Ok overflow
  | Cond.NO => Ok (negb overflow)
  | Cond.B => Ok carry
  | Cond.AE => Ok (negb carry)
  | Cond.E => Ok zero
  | Cond.NE => Ok (negb zero)
  | Cond.BE => Ok (carry || zero)
  | Cond.A => Ok (negb carry && negb zero)
  | Cond.S => Ok sign
  | Cond.NS => Ok (negb sign)
  | Cond.P => Ok parity
  | Cond.NP => Ok (negb parity)
  | Cond.L => Ok (negb (eqb sign overflow))
  | Cond.GE => Ok (eqb sign overflow)
  | Cond.LE => Ok (zero || negb (eqb sign overflow))
  | Cond.G => Ok (negb zero && eqb sign overflow)
  | Cond.COUNT => Throw logic_error
  end.

(* [src/cpu/execution/executor.cpp] [Executor::is_control_flow_opcode] *)
Definition is_control_flow_opcode (o : Opcode) : bool :=
  match o with
  | Op.CALL | Op.RET | Op.JMP | Op.JE | Op.JNE | Op.JCC | Op.INT | Op.SYSCALL | Op.SYSRET | Op.IRET => true
  | _ => false
  end.

(* [src/cpu/execution/executor.cpp] [Executor::calculate_effective_address] *)
Definition calculate_effective_address (o : Operand) (s : CpuState) : res Z :=
  a ← memory_address o;
  match ma_absolute_address a with
  | Some address => Ok address
  | None =>
      base ← (match ma_base_register a with
              | Some r => RegisterBank_read (cpu_registers s) r
              | None => Ok 0
              end);
      index ← (match ma_index_register a with
               | Some r => v ← RegisterBank_read (cpu_registers s) r; Ok (mul64 v (ma_scale a))
               | None => Ok 0
               end);
      let displacement := wrap64 (ma_displacement a) in
      Ok (add64 (add64 (add64 0 base) index) displacement)
  end.

Section executor.
Context {B : Type} `{MemoryBus B}.
Abbreviation X := (M (Machine B)).

Definition on_cpu {A} (c : M CpuState A) : X A := zoom cpu set_cpu c.

(** [require_memory_bus] followed by a call of the memory-management unit. *)
(* [src/cpu/execution/executor.cpp] [Executor::require_memory_bus] *)
Definition with_memory_bus {A} (c : M (MemoryManagementUnit * B) A) : X A := fun m =>
  match memory_bus m with
  | None => (m, Throw logic_error)
  | Some b =>
      let '((u, b'), r) := c (mmu (executor m), b) in
      (set_bus (Some b') (set_executor (on_executor_mmu (fun _ => u) (executor m)) m), r)
  end.

(* [src/cpu/execution/executor.cpp] [Executor::require_trap_controller] *)
Definition require_trap_controller : X TrapController :=
  lift (fun m => match trap_controller (executor m) with Some tc => Ok tc | None => Throw logic_error end).
(* [src/cpu/execution/executor.cpp] [Executor::require_register_operand] *)
Definition require_register_operand (o : Operand) : X unit := throw_if (negb (is_register o)) logic_error.
(* [src/cpu/execution/executor.cpp] [Executor::require_memory_operand] *)
Definition require_memory_operand (o : Operand) : X unit := throw_if (negb (is_memory o)) logic_error.
(* [src/cpu/execution/executor.cpp] [Executor::require_at_most_one_memory_operand] *)
Definition require_at_most_one_memory_operand (i : Instruction) : X unit :=
  throw_if (is_memory (first_operand i) && is_memory (second_operand i)) logic_error.
(* [src/cpu/execution/executor.cpp] [Executor::require_locked_memory_destination] *)
Definition require_locked_memory_destination (i : Instruction) : X unit :=
  throw_if (is_locked i && negb (is_memory (first_operand i))) logic_error.

(** ** Operands *)

(* [src/cpu/execution/executor.cpp] [Executor::read_register_operand] *)
Definition read_register_operand (o : Operand) : X Z :=
  lift (fun _ => register_id o) ≫= fun id =>
  on_cpu (read_register id) ≫= fun v =>
  lift (fun _ => s ← register_data_size o; mask_for_data_size s) ≫= fun mask =>
  mret (Z.land v mask).
(* [src/cpu/execution/executor.cpp] [Executor::write_register_operand] *)
Definition write_register_operand (o : Operand) (value : Z) : X unit :=
  lift (fun _ => register_data_size o) ≫= fun data_size =>
  lift (fun _ => mask_for_data_size data_size) ≫= fun value_mask =>
  lift (fun _ => register_id o) ≫= fun id =>
  if bool_decide (data_size = Size.QWORD) || bool_decide (data_size = Size.DWORD) then
    on_cpu (write_register id (Z.land value value_mask))
  else
    on_cpu (read_register id) ≫= fun v =>
    let preserved_bits := Z.land v (not64 value_mask) in
    on_cpu (write_register id (Z.lor preserved_bits (Z.land value value_mask))).

(* [src/cpu/execution/executor.cpp] [Executor::read_memory_operand] *)
Definition read_memory_operand (o : Operand) : X Z :=
  gets cpu ≫= fun s =>
  lift (fun _ => calculate_effective_address o s) ≫= fun address =>
  lift (fun _ => memory_data_size o) ≫= fun data_size =>
  with_memory_bus (mmu_read (cpu_paging s) (privilege_level s) address data_size).
(* [src/cpu/execution/executor.cpp] [Executor::write_memory_operand] *)
Definition write_memory_operand (o : Operand) (value : Z) : X unit :=
  gets cpu ≫= fun s =>
  lift (fun _ => calculate_effective_address o s) ≫= fun address =>
  lift (fun _ => memory_data_size o) ≫= fun data_size =>
  with_memory_bus (mmu_write (cpu_paging s) (privilege_level s) address data_size value).

(** An immediate is a signed 64-bit value, read as its two's complement. *)
(* [src/cpu/execution/executor.cpp] [Executor::read_operand] *)
Definition read_operand (o : Operand) : X Z :=
  match o with
  | OpRegister _ _ => read_register_operand o
  | OpImmediate v => mret (wrap64 v)
  | OpMemory _ _ => read_memory_operand o
  | OpNone => throw logic_error
  end.
(* [src/cpu/execution/executor.cpp] [Executor::write_operand] *)
Definition write_operand (o : Operand) (value : Z) : X unit :=
  match o with
  | OpRegister _ _ => write_register_operand o value
  | OpMemory _ _ => write_memory_operand o value
  | _ => throw logic_error
  end.

(** ** Stack and jumps *)

(* [src/cpu/execution/executor.cpp] [Executor::push_qword] *)
Definition push_qword (value : Z) : X unit :=
  on_cpu (read_register Reg.RSP) ≫= fun rsp =>
  let stack_pointer := sub64 rsp EXECUTOR_STACK_SLOT_BYTES in
  gets cpu ≫= fun s =>
  with_memory_bus (mmu_write (cpu_paging s) (privilege_level s) stack_pointer Size.QWORD value) ≫= fun _ =>
  on_cpu (write_register Reg.RSP stack_pointer).
(* [src/cpu/execution/executor.cpp] [Executor::pop_qword] *)
Definition pop_qword : X Z :=
  on_cpu (read_register Reg.RSP) ≫= fun stack_pointer =>
  gets cpu ≫= fun s =>
  with_memory_bus (mmu_read (cpu_paging s) (privilege_level s) stack_pointer Size.QWORD) ≫= fun value =>
  on_cpu (write_register Reg.RSP (add64 stack_pointer EXECUTOR_STACK_SLOT_BYTES)) ≫= fun _ =>
  mret value.

Section instruction.
Context (context : ExecutionContext).

(* [src/cpu/execution/executor.cpp] [Executor::set_next_rip] *)
Definition set_next_rip : X unit := on_cpu (modify (set_rip (next_rip context))).
(* [src/cpu/execution/executor.cpp] [Executor::jump_to] *)
Definition jump_to (target : Z) : X unit :=
  throw_if (match program context with Some p => negb (program_contains_rip p target) | None => false end)
    out_of_range ≫= fun _ =>
  throw_if (match image context with Some i => negb (image_contains_rip i target) | None => false end)
    out_of_range ≫= fun _ =>
  on_cpu (modify (set_rip target)).

(** ** One definition per opcode *)

Section operands.
Context (i : Instruction).

(* [src/cpu/execution/executor.cpp] [Executor::execute_mov] *)
Definition execute_mov : X unit :=
  require_at_most_one_memory_operand i ≫= fun _ =>
  read_operand (second_operand i) ≫= fun v =>
  write_operand (first_operand i) v ≫= fun _ =>
  set_next_rip.
(* [src/cpu/execution/executor.cpp] [Executor::execute_movsx] *)
Definition execute_movsx : X unit :=
  require_register_operand (first_operand i) ≫= fun _ =>
  read_operand (second_operand i) ≫= fun source =>
  lift (fun _ => if is_register (second_operand i) then register_data_size (second_operand i)
                 else memory_data_size (second_operand i)) ≫= fun source_size =>
  lift (fun _ => sign_extend_value source source_size) ≫= fun v =>
  write_register_operand (first_operand i) v ≫= fun _ =>
  set_next_rip.
(* [src/cpu/execution/executor.cpp] [Executor::execute_movzx] *)
Definition execute_movzx : X unit :=
  require_register_operand (first_operand i) ≫= fun _ =>
  read_operand (second_operand i) ≫= fun v =>
  write_register_operand (first_operand i) v ≫= fun _ =>
  set_next_rip.
(* [src/cpu/execution/executor.cpp] [Executor::execute_lea] *)
Definition execute_lea : X unit :=
  require_register_operand (first_operand i) ≫= fun _ =>
  require_memory_operand (second_operand i) ≫= fun _ =>
  lift (fun m => calculate_effective_address (second_operand i) (cpu m)) ≫= fun v =>
  write_register_operand (first_operand i) v ≫= fun _ =>
  set_next_rip.
(* [src/cpu/execution/executor.cpp] [Executor::execute_add] *)
Definition execute_add : X unit :=
  require_at_most_one_memory_operand i ≫= fun _ =>
  read_operand (first_operand i) ≫= fun left =>
  read_operand (second_operand i) ≫= fun right =>
  let result := add64 left right in
  write_operand (first_operand i) result ≫= fun _ =>
  on_cpu (on_flags (update_add left right result)) ≫= fun _ =>
  set_next_rip.
(* [src/cpu/execution/executor.cpp] [Executor::execute_sub] *)
Definition execute_sub : X unit :=
  require_at_most_one_memory_operand i ≫= fun _ =>
  read_operand (first_operand i) ≫= fun left =>
  read_operand (second_operand i) ≫= fun right =>
  let result := sub64 left right in
  write_operand (first_operand i) result ≫= fun _ =>
  on_cpu (on_flags (update_sub left right result)) ≫= fun _ =>
  set_next_rip.
(* [src/cpu/execution/executor.cpp] [Executor::execute_cmp] *)
Definition execute_cmp : X unit :=
  require_at_most_one_memory_operand i ≫= fun _ =>
  read_operand (first_operand i) ≫= fun left =>
  read_operand (second_operand i) ≫= fun right =>
  let result := sub64 left right in
  on_cpu (on_flags (update_sub left right result)) ≫= fun _ =>
  set_next_rip.
(* [src/cpu/execution/executor.cpp] [Executor::execute_inc] *)
Definition execute_inc : X unit :=
  read_operand (first_operand i) ≫= fun left =>
  let result := add64 left 1 in
  write_operand (first_operand i) result ≫= fun _ =>
  on_cpu (on_flags (update_inc left result)) ≫= fun _ =>
  set_next_rip.
(* [src/cpu/execution/executor.cpp] [Executor::execute_dec] *)
Definition execute_dec : X unit :=
  read_operand (first_operand i) ≫= fun left =>
  let result := sub64 left 1 in
  write_operand (first_operand i) result ≫= fun _ =>
  on_cpu (on_flags (update_dec left result)) ≫= fun _ =>
  set_next_rip.
(** The three bitwise opcodes have one body each with its own operator. *)
Definition execute_bitwise (f : Z -> Z -> Z) : X unit :=
  require_at_most_one_memory_operand i ≫= fun _ =>
  read_operand (first_operand i) ≫= fun left =>
  read_operand (second_operand i) ≫= fun right =>
  let result := f left right in
  write_operand (first_operand i) result ≫= fun _ =>
  on_cpu (on_flags (update_logical result)) ≫= fun _ =>
  set_next_rip.
(* [src/cpu/execution/executor.cpp] [Executor::execute_and] *)
Definition execute_and : X unit := execute_bitwise Z.land.
(* [src/cpu/execution/executor.cpp] [Executor::execute_or] *)
Definition execute_or : X unit := execute_bitwise Z.lor.
(* [src/cpu/execution/executor.cpp] [Executor::execute_xor] *)
Definition execute_xor : X unit := execute_bitwise Z.lxor.
(* [src/cpu/execution/executor.cpp] [Executor::execute_test] *)
Definition execute_test : X unit :=
  require_at_most_one_memory_operand i ≫= fun _ =>
  read_operand (first_operand i) ≫= fun left =>
  read_operand (second_operand i) ≫= fun right =>
  let result := Z.land left right in
  on_cpu (on_flags (update_logical result)) ≫= fun _ =>
  set_next_rip.
(* [src/cpu/execution/executor.cpp] [Executor::execute_cmpxchg] *)
Definition execute_cmpxchg : X unit :=
  require_at_most_one_memory_operand i ≫= fun _ =>
  require_register_operand (second_operand i) ≫= fun _ =>
  require_locked_memory_destination i ≫= fun _ =>
  on_cpu (read_register Reg.RAX) ≫= fun accumulator =>
  read_operand (first_operand i) ≫= fun destination =>
  let comparison := sub64 accumulator destination in
  on_cpu (on_flags (update_sub accumulator destination comparison)) ≫= fun _ =>
  (if accumulator =? destination then
     read_register_operand (second_operand i) ≫= fun v => write_operand (first_operand i) v
   else on_cpu (write_register Reg.RAX destination)) ≫= fun _ =>
  set_next_rip.
(* [src/cpu/execution/executor.cpp] [Executor::execute_xadd] *)
Definition execute_xadd : X unit :=
  require_at_most_one_memory_operand i ≫= fun _ =>
  require_register_operand (second_operand i) ≫= fun _ =>
  require_locked_memory_destination i ≫= fun _ =>
  read_operand (first_operand i) ≫= fun destination =>
  read_register_operand (second_operand i) ≫= fun source =>
  let result := add64 destination source in
  write_register_operand (second_operand i) destination ≫= fun _ =>
  write_operand (first_operand i) result ≫= fun _ =>
  on_cpu (on_flags (update_add destination source result)) ≫= fun _ =>
  set_next_rip.
(* [src/cpu/execution/executor.cpp] [Executor::execute_mfence] *)
Definition execute_mfence : X unit := set_next_rip.
(* [src/cpu/execution/executor.cpp] [Executor::execute_invlpg] *)
Definition execute_invlpg : X unit :=
  require_memory_operand (first_operand i) ≫= fun _ =>
  gets cpu ≫= fun s =>
  if negb (bool_decide (privilege_level s = Ring.RING0)) then
    require_trap_controller ≫= fun tc =>
    on_cpu (raise_exception tc general_protection (Some EXECUTOR_GENERAL_PROTECTION_ERROR_CODE)) ≫= fun _ =>
    mret tt
  else
    lift (fun _ => calculate_effective_address (first_operand i) s) ≫= fun address =>
    modify (fun m => set_executor
      (on_executor_mmu (mmu_invalidate_page_context address (process_context_id (cpu_paging s))) (executor m)) m)
      ≫= fun _ =>
    set_next_rip.
(* [src/cpu/execution/executor.cpp] [Executor::execute_push] *)
Definition execute_push : X unit :=
  read_operand (first_operand i) ≫= fun v => push_qword v ≫= fun _ => set_next_rip.
(* [src/cpu/execution/executor.cpp] [Executor::execute_pop] *)
Definition execute_pop : X unit :=
  pop_qword ≫= fun v => write_operand (first_operand i) v ≫= fun _ => set_next_rip.
(* [src/cpu/execution/executor.cpp] [Executor::execute_call] *)
Definition execute_call : X unit :=
  read_operand (first_operand i) ≫= fun target =>
  push_qword (next_rip context) ≫= fun _ =>
  jump_to target.
(* [src/cpu/execution/executor.cpp] [Executor::execute_ret] *)
Definition execute_ret : X unit := pop_qword ≫= fun target => jump_to target.
(* [src/cpu/execution/executor.cpp] [Executor::execute_jmp] *)
Definition execute_jmp : X unit := read_operand (first_operand i) ≫= fun target => jump_to target.
Definition jump_if (taken : bool) : X unit := if taken then execute_jmp else set_next_rip.
(* [src/cpu/execution/executor.cpp] [Executor::execute_je] *)
Definition execute_je : X unit :=
  gets (fun m => read_flag (cpu_flags (cpu m)) Flag.ZF) ≫= fun zero => jump_if zero.
(* [src/cpu/execution/executor.cpp] [Executor::execute_jne] *)
Definition execute_jne : X unit :=
  gets (fun m => read_flag (cpu_flags (cpu m)) Flag.ZF) ≫= fun zero => jump_if (negb zero).
(* [src/cpu/execution/executor.cpp] [Executor::execute_jcc] *)
Definition execute_jcc : X unit :=
  lift (fun m => evaluate_condition (condition_code i) (cpu m)) ≫= fun taken => jump_if taken.
(* [src/cpu/execution/executor.cpp] [Executor::execute_setcc] *)
Definition execute_setcc : X unit :=
  lift (fun m => evaluate_condition (condition_code i) (cpu m)) ≫= fun taken =>
  write_operand (first_operand i) (if taken : bool then 1 else 0) ≫= fun _ =>
  set_next_rip.
(* [src/cpu/execution/executor.cpp] [Executor::execute_cmovcc] *)
Definition execute_cmovcc : X unit :=
  require_register_operand (first_operand i) ≫= fun _ =>
  require_at_most_one_memory_operand i ≫= fun _ =>
  lift (fun m => evaluate_condition (condition_code i) (cpu m)) ≫= fun taken =>
  (if taken : bool then
     read_operand (second_operand i) ≫= fun v => write_register_operand (first_operand i) v
   else mret tt) ≫= fun _ =>
  set_next_rip.
(* [src/cpu/execution/executor.cpp] [Executor::execute_int] *)
Definition execute_int : X unit :=
  throw_if (negb (is_immediate (first_operand i))) logic_error ≫= fun _ =>
  lift (fun _ => immediate_value (first_operand i)) ≫= fun vector_value =>
  throw_if ((vector_value <? 0) || (INTERRUPT_VECTOR_COUNT - 1 <? vector_value)) logic_error ≫= fun _ =>
  require_trap_controller ≫= fun tc =>
  on_cpu (raise_software_interrupt tc vector_value (next_rip context)) ≫= fun _ =>
  mret tt.
(* [src/cpu/execution/executor.cpp] [Executor::execute_syscall] *)
Definition execute_syscall : X unit :=
  require_trap_controller ≫= fun tc => on_cpu (enter_syscall tc (next_rip context)) ≫= fun _ => mret tt.
(* [src/cpu/execution/executor.cpp] [Executor::execute_sysret] *)
Definition execute_sysret : X unit := require_trap_controller ≫= fun _ => on_cpu return_from_syscall.
(* [src/cpu/execution/executor.cpp] [Executor::execute_iret] *)
Definition execute_iret : X unit := require_trap_controller ≫= fun _ => on_cpu return_from_trap.
(* [src/cpu/execution/executor.cpp] [Executor::execute_hlt] *)
Definition execute_hlt : X unit := set_next_rip ≫= fun _ => on_cpu (modify halt).

(* [src/cpu/execution/executor.cpp] [Executor::execute_instruction] *)
Definition execute_instruction : X unit :=
  match opcode i with
  | Op.MOV => execute_mov
  | Op.MOVSX => execute_movsx
  | Op.MOVZX => execute_movzx
  | Op.LEA => execute_lea
  | Op.ADD => execute_add
  | Op.SUB => execute_sub
  | Op.CMP => execute_cmp
  | Op.INC => execute_inc
  | Op.DEC => execute_dec
  | Op.AND => execute_and
  | Op.OR => execute_or
  | Op.XOR => execute_xor
  | Op.TEST => execute_test
  | Op.CMPXCHG => execute_cmpxchg
  | Op.XADD => execute_xadd
  | Op.MFENCE => execute_mfence
  | Op.INVLPG => execute_invlpg
  | Op.PUSH => execute_push
  | Op.POP => execute_pop
  | Op.CALL => execute_call
  | Op.RET => execute_ret
  | Op.JMP => execute_jmp
  | Op.JE => execute_je
  | Op.JNE => execute_jne
  | Op.JCC => execute_jcc
  | Op.SETCC => execute_setcc
  | Op.CMOVCC => execute_cmovcc
  | Op.INT => execute_int
  | Op.SYSCALL => execute_syscall
  | Op.SYSRET => execute_sysret
  | Op.IRET => execute_iret
  | Op.HLT => execute_hlt
  | Op.COUNT => throw logic_error
  end.
End operands.
End instruction.

(** ** One step *)

(* [src/cpu/execution/executor.cpp] [Executor::check_instruction_fetch] *)
Definition check_instruction_fetch (start_rip next_rip : Z) : X unit :=
  gets cpu ≫= fun s =>
  if negb (paging_enabled (cpu_paging s)) then mret tt
  else
    let instruction_byte_count := sub64 next_rip start_rip in
    with_memory_bus (check_access_range (cpu_paging s) (privilege_level s) start_rip instruction_byte_count
      AccessKind.EXECUTE).

Definition on_model_M (f : Stage8PerformanceModel -> Stage8PerformanceModel) : X unit :=
  modify (fun m => set_executor (on_executor_mmu (on_model f) (executor m)) m).
(* [src/cpu/execution/executor.cpp] [Executor::record_stage8_instruction_fetch] *)
Definition record_stage8_instruction_fetch (start_rip next_rip : Z) : X unit :=
  on_model_M (record_instruction_fetch start_rip (sub64 next_rip start_rip)).
(* [src/cpu/execution/executor.cpp] [Executor::record_stage8_retired_instruction] *)
Definition record_stage8_retired_instruction (i : Instruction) (fallthrough_rip actual_rip : Z) : X unit :=
  let control_flow_instruction := is_control_flow_opcode (opcode i) in
  let redirected := control_flow_instruction && negb (actual_rip =? fallthrough_rip) in
  on_model_M (record_retired_instruction control_flow_instruction redirected).
(* [src/cpu/execution/executor.cpp] [Executor::record_stage8_exception_flush] *)
Definition record_stage8_exception_flush : X unit := on_model_M record_exception_flush.

(* [src/cpu/execution/executor.cpp] [Executor::handle_page_fault] *)
Definition handle_page_fault (fault : PageFault) : X unit :=
  gets (fun m => trap_controller (executor m)) ≫= fun controller =>
  match controller with
  | None => throw (page_fault fault)
  | Some tc =>
      on_cpu (modify (fun s => set_paging
        (set_page_fault_linear_address (pf_linear_address fault) (cpu_paging s)) s)) ≫= fun _ =>
      on_cpu (raise_exception tc page_fault_vector (Some (pf_error_code fault))) ≫= fun _ =>
      mret tt
  end.

(** [try { c } catch (const PageFault& fault) { handler(fault) }]. *)
Definition catch_page_fault (c : X unit) (handler : PageFault -> X unit) : X unit := fun m =>
  match c m with
  | (m', Throw (page_fault fault)) => handler fault m'
  | outcome => outcome
  end.

(** The body of the [try] block, and the part of a step that follows the fetch, common to programs
    and byte images. *)
Definition attempt (context : ExecutionContext) (start_rip : Z) (i : Instruction) : X unit :=
  check_instruction_fetch start_rip (next_rip context) ≫= fun _ =>
  record_stage8_instruction_fetch start_rip (next_rip context) ≫= fun _ =>
  execute_instruction context i ≫= fun _ =>
  gets (fun m => rip (cpu m)) ≫= fun actual_rip =>
  record_stage8_retired_instruction i (next_rip context) actual_rip.
Definition execute_fetched (context : ExecutionContext) (start_rip : Z) (i : Instruction) : X StepResult :=
  catch_page_fault (attempt context start_rip i)
    (fun fault => record_stage8_exception_flush ≫= fun _ => handle_page_fault fault) ≫= fun _ =>
  modify (fun m => set_executor
    (mkExecutor (mmu (executor m)) (trap_controller (executor m)) (wrap64 (cycle_count (executor m) + 1))) m)
    ≫= fun _ =>
  modify (fun m => set_trace (trace_push_back
    (mkTraceEntry (cycle_count (executor m)) start_rip (rip (cpu m)) (opcode i) (is_halted (cpu m))
      (has_pending_trap (cpu m))) <$> trace m) m) ≫= fun _ =>
  gets (fun m => if is_halted (cpu m) then HALTED else EXECUTED).

(* [src/cpu/execution/executor.cpp] [Executor::step_with_memory] *)
Definition step_with_memory (p : Program) : X StepResult :=
  gets cpu ≫= fun s =>
  if is_halted s then mret HALTED
  else
    let rip_before := rip s in
    lift (fun _ => instruction_at p rip_before) ≫= fun i =>
    let context := mkContext (Some p) None (add64 rip_before CPU_STATE_NEXT_INSTRUCTION_OFFSET) in
    execute_fetched context rip_before i.

(* [src/cpu/execution/executor.cpp] [Executor::step_image_with_memory] *)
Definition step_image_with_memory (image : ExecutableImage) : X StepResult :=
  gets cpu ≫= fun s =>
  if is_halted s then mret HALTED
  else
    let rip_before := rip s in
    lift (fun _ => decode image rip_before) ≫= fun decoded =>
    let context := mkContext None (Some image) (decoded_next_rip decoded) in
    execute_fetched context (start_rip decoded) (instruction decoded).

(** The loop condition bounds the number of iterations by [max_steps], which is the fuel. *)
Fixpoint run_loop (step : X StepResult) (executed_steps : Z) (remaining : nat) : X Z :=
  gets cpu ≫= fun s =>
  if is_halted s then mret executed_steps
  else
    match remaining with
    | O => throw runtime_error
    | S remaining' => step ≫= fun _ => run_loop step (executed_steps + 1) remaining'
    end.
(* [src/cpu/execution/executor.cpp] [Executor::run_with_memory] *)
Definition run_with_memory (p : Program) (max_steps : nat) : X Z := run_loop (step_with_memory p) 0 max_steps.
(* [src/cpu/execution/executor.cpp] [Executor::run_image_with_memory] *)
Definition run_image_with_memory (image : ExecutableImage) (max_steps : nat) : X Z :=
  run_loop (step_image_with_memory image) 0 max_steps.
End executor.

(** ** Addresses of operands *)

(** An operand that names an absolute address names a 64-bit one. *)
Definition operand_typed (o : Operand) : Prop :=
  match o with
  | OpMemory a _ => forall x, ma_absolute_address a = Some x -> u64 x
  | _ => True
  end.
Definition instruction_typed (i : Instruction) : Prop :=
  operand_typed (first_operand i) /\ operand_typed (second_operand i).

Lemma effective_address_typed o s v : operand_typed o -> calculate_effective_address o s = Ok v -> u64 v.
Proof.
  intros Ho. unfold calculate_effective_address. munfold_goal. destruct o as [| | |a d]; try done. simpl in *.
  destruct (ma_absolute_address a) as [x|]; [intros [= <-]; by apply Ho|].
  destruct (match ma_base_register a with Some _ => _ | _ => _ end); [|done].
  destruct (match ma_index_register a with Some _ => _ | _ => _ end); [|done].
  intros [= <-]. apply add64_range.
Qed.
