(* ===== verification/ExecutorInvariant.v ===== *)
(** * The executor keeps the machine well formed

    Every register, flag word, instruction pointer and saved trap frame is a 64-bit word, the
    privilege level exists and the memory stays well formed, through every instruction, fault and
    run; and the run loop ends. *)

From S2P Require Import Prelude Logic Common PhysicalMemory MemoryBus Paging PageTable Tlb Perf Mmu Instruction CpuState Trap Decoder Executor.

(** ** The memory-management unit *)

(** A cached translation remembers an address its leaf entry can be read at. *)
Definition tlb_typed (t : TranslationLookasideBuffer) : Prop :=
  Forall (fun e => 0 <= leaf_entry_address (te_translation e)) (entries t).

Lemma make_tlb_typed : tlb_typed make_tlb.
Proof. by apply Forall_replicate. Qed.
Lemma entry_at_typed t i : tlb_typed t -> 0 <= leaf_entry_address (te_translation (entry_at t i)).
Proof.
  intros Ht. unfold entry_at. destruct (nth_in_or_default (Z.to_nat i) (entries t) empty_entry) as [Hin| ->]; [|done].
  apply list_elem_of_In in Hin. unfold tlb_typed in Ht. rewrite Forall_forall in Ht. by apply Ht.
Qed.
Lemma lookup_typed t a g c tr : tlb_typed t -> lookup t a g c = Some tr -> 0 <= leaf_entry_address tr.
Proof.
  intros Ht. unfold lookup. destruct (_ || _); [done|]. intros [= <-]. by apply entry_at_typed.
Qed.
Lemma insert_typed t tr g c : tlb_typed t -> 0 <= leaf_entry_address tr -> tlb_typed (insert tr g c t).
Proof. intros Ht Htr. by apply Forall_insert. Qed.
Lemma set_slot_dirty_typed t a : tlb_typed t -> tlb_typed (set_slot_dirty a t).
Proof. intros Ht. apply Forall_insert; [done|]. by apply entry_at_typed. Qed.
Lemma invalidate_where_typed f t : tlb_typed t -> tlb_typed (invalidate_where f t).
Proof.
  intros Ht. unfold tlb_typed, invalidate_where in *.
  assert (Hacc : forall acc, Forall (fun e => 0 <= leaf_entry_address (te_translation e)) (entries acc) ->
    Forall (fun e => 0 <= leaf_entry_address (te_translation e))
      (entries (foldl (fun t' e => if te_valid e && f e
        then mkTlb (entries t' ++ [invalidate_entry e]) (sub64 (tlb_size t') 1)
        else mkTlb (entries t' ++ [e]) (tlb_size t')) acc (entries t)))); [|by apply Hacc].
  induction Ht as [|e es He Hes IH]; intros acc Ha; [done|]. simpl. apply IH.
  destruct (_ && _); apply Forall_app; (split; [done|]); by repeat constructor.
Qed.
#[local] Hint Resolve insert_typed set_slot_dirty_typed invalidate_where_typed : mnos.

Section unit.
Context {B : Type} `{MemoryBusLaws B}.
Implicit Types (b : B).

Definition unit_typed (s : MemoryManagementUnit * B) : Prop := bus_ok s.2 /\ tlb_typed (tlb s.1).

Lemma bus_write_M_typed a s v : 0 <= a -> preserves bus_ok (bus_write_M a s v) any.
Proof.
  intros Ha b Hb. unfold bus_write_M. munfold_goal. destruct (bus_write b a s v) as [b'|] eqn:Hw; [|done].
  split; [|done]. by apply (bus_write_ok b a s v b').
Qed.
Lemma mark_accessed_dirty_typed a e leaf kind : 0 <= a -> preserves bus_ok (mark_accessed_dirty a e leaf kind) any.
Proof.
  intros Ha. apply preserves_seq; [|intros _; by apply preserves_ret].
  apply preserves_if; [by apply bus_write_M_typed|by apply preserves_ret].
Qed.
Lemma entry_address_nonneg t i : 0 <= entry_address_for_index t i.
Proof. apply add64_range. Qed.
#[local] Hint Resolve entry_address_nonneg bus_write_M_typed mark_accessed_dirty_typed : mnos.

Lemma walk_typed ps a kind p ls : forall t perms,
  preserves bus_ok (walk ps a kind p ls t perms) (fun tr => 0 <= leaf_entry_address tr).
Proof.
  induction ls as [|l ls IH]; intros t perms; [apply preserves_throw|]. cbn [walk].
  apply preserves_seq; [by apply preserves_lift|]. intros i.
  apply preserves_seq; [by apply preserves_lift|]. intros e.
  apply preserves_seq; [apply preserves_throw_if|]. intros _.
  apply preserves_seq; [by apply preserves_lift|]. intros _. cbn zeta. apply preserves_if.
  - apply preserves_seq; [by apply preserves_lift|]. intros _.
    apply preserves_seq; [auto with mnos|]. intros e'.
    apply preserves_seq; [by apply preserves_lift|]. intros n. apply preserves_ret. apply entry_address_nonneg.
  - apply preserves_seq; [auto with mnos|]. intros _. apply IH.
Qed.

Lemma on_memory_typed {A} (c : M B A) Q : preserves bus_ok c Q -> preserves unit_typed (on_memory c) Q.
Proof. apply preserves_zoom; [by intros s []|by intros s t [] ?; split]. Qed.
Lemma on_model_typed f : preserves unit_typed (on_mmu (on_model f)) any.
Proof. apply preserves_modify. by intros [m b] []. Qed.
Lemma on_tlb_typed f : (forall t, tlb_typed t -> tlb_typed (f t)) -> preserves unit_typed (on_mmu (on_tlb f)) any.
Proof. intros Hf. apply preserves_modify. intros [m b] [Hb Ht]. split; [done|]. by apply Hf. Qed.

Lemma mark_cached_typed a tr : 0 <= leaf_entry_address tr ->
  preserves unit_typed (mark_cached_translation_dirty a tr) any.
Proof.
  intros Htr. apply preserves_seq; [by apply preserves_lift|]. intros v. cbn zeta.
  apply preserves_seq; [|intros _; apply on_tlb_typed; auto with mnos].
  apply preserves_if; [apply on_memory_typed; auto with mnos|by apply preserves_ret].
Qed.
Lemma translate_enabled_typed ps p a kind : preserves unit_typed (translate_enabled ps p a kind) u64.
Proof.
  apply (preserves_bind _ _ _ (fun c => forall tr, c = Some tr -> 0 <= leaf_entry_address tr)).
  { apply preserves_gets. intros s [_ Ht] tr. by apply lookup_typed. }
  intros [tr|] Htr; apply preserves_seq; try apply on_model_typed; intros _.
  - apply preserves_seq; [by apply preserves_lift|]. intros _.
    apply preserves_seq; [|intros _; apply preserves_ret, add64_range].
    apply preserves_if; [by apply mark_cached_typed, Htr|by apply preserves_ret].
  - apply (preserves_bind _ _ _ (fun tr => 0 <= leaf_entry_address tr)).
    { apply on_memory_typed, preserves_seq; [apply preserves_throw_if|intros _; apply walk_typed]. }
    intros tr Hle. cbn zeta. apply preserves_seq; [apply on_tlb_typed; auto with mnos|].
    intros _. apply preserves_ret, add64_range.
Qed.
Lemma mmu_translate_typed ps p a kind : u64 a -> preserves unit_typed (mmu_translate ps p a kind) u64.
Proof. intros Ha. apply preserves_if; [by apply preserves_ret|apply translate_enabled_typed]. Qed.

Lemma bus_read_u64 b a s v : bus_ok b -> 0 <= a -> bus_read b a s = Ok v -> u64 v.
Proof.
  intros Hb Ha Hr. apply bus_read_Ok_inv in Hr as (_ & _ & [Hv0 Hv] & _); [|done..].
  split; [done|]. eapply Z.lt_le_trans; [exact Hv|]. rewrite W64_pow. pose proof (size_bytes_range s).
  apply Z.pow_le_mono_r; lia.
Qed.
Lemma unit_read_typed a s : u64 a -> preserves unit_typed (lift (fun '(_, b) => bus_read b a s)) u64.
Proof. intros [Ha _]. apply preserves_lift. intros [m b] v [Hb _]. by apply bus_read_u64. Qed.

Lemma read_bytes_typed ps p a ks : forall v, u64 v -> preserves unit_typed (read_bytes ps p a ks v) u64.
Proof.
  induction ks as [|k ks IH]; intros v Hv; [by apply preserves_ret|]. cbn [read_bytes].
  apply (preserves_bind _ _ _ u64); [apply translate_enabled_typed|]. intros pa Hpa.
  apply preserves_seq; [apply on_model_typed|]. intros _.
  apply (preserves_bind _ _ _ u64); [by apply unit_read_typed|]. intros w Hw.
  apply IH. apply u64_lor; [done|apply wrap64_range].
Qed.
Lemma mmu_read_typed ps p a s : u64 a -> preserves unit_typed (mmu_read ps p a s) u64.
Proof.
  intros Ha. apply preserves_seq; [by apply preserves_lift|]. intros n.
  apply preserves_if; [|by apply read_bytes_typed].
  apply (preserves_bind _ _ _ u64); [by apply mmu_translate_typed|]. intros pa Hpa.
  apply preserves_seq; [apply on_model_typed|]. intros _. by apply unit_read_typed.
Qed.
Lemma translate_bytes_typed ps p a ks : preserves unit_typed (translate_bytes ps p a ks) (Forall u64).
Proof.
  induction ks as [|k ks IH]; [by apply preserves_ret|]. cbn [translate_bytes].
  apply (preserves_bind _ _ _ u64); [apply translate_enabled_typed|]. intros pa Hpa.
  apply (preserves_bind _ _ _ (Forall u64)); [done|]. intros pas Hpas. apply preserves_ret. by constructor.
Qed.
Lemma mmu_write_typed ps p a s v : u64 a -> preserves unit_typed (mmu_write ps p a s v) any.
Proof.
  intros Ha. apply preserves_seq; [by apply preserves_lift|]. intros n. apply preserves_if.
  - apply (preserves_bind _ _ _ u64); [by apply mmu_translate_typed|]. intros pa [Hpa _].
    apply preserves_seq; [apply on_model_typed|]. intros _. apply on_memory_typed; auto with mnos.
  - apply (preserves_bind _ _ _ (Forall u64)); [apply translate_bytes_typed|]. intros pas Hpas.
    apply preserves_for_each. intros k _. cbn zeta. apply preserves_seq; [apply on_model_typed|]. intros _.
    apply on_memory_typed, bus_write_M_typed. unfold nthZ.
    destruct (nth_in_or_default (Z.to_nat k) pas 0) as [Hin| ->]; [|done].
    apply list_elem_of_In in Hin. rewrite Forall_forall in Hpas. by apply Hpas.
Qed.
Lemma check_pages_typed fuel ps p kind : forall a n, preserves unit_typed (check_pages fuel ps p a n kind) any.
Proof.
  induction fuel as [|fuel IH]; intros a n; [by apply preserves_ret|]. cbn [check_pages].
  apply preserves_if; [|by apply preserves_ret].
  apply (preserves_bind _ _ _ u64); [apply translate_enabled_typed|]. intros _ _. apply IH.
Qed.
Lemma check_access_range_typed ps p a n kind : preserves unit_typed (check_access_range ps p a n kind) any.
Proof. apply preserves_if; [by apply preserves_ret|apply check_pages_typed]. Qed.
End unit.

(** ** Processor state, traps and instructions *)

Record frame_typed (f : TrapFrame) : Prop := {
  ft_return : u64 (tf_return_rip f);
  ft_flags : u64 (tf_rflags f);
  ft_stack : u64 (tf_stack_pointer f);
  ft_level : is_privilege_level_valid (tf_privilege_level f) = true;
}.
Record cpu_typed (s : CpuState) : Prop := {
  ct_wf : cpu_wf s;
  ct_pending f : pending_trap s = Some f -> frame_typed f;
}.
Record controller_typed (tc : TrapController) : Prop := {
  tt_idt : idt_wf (idt tc);
  tt_handlers gate : gate ∈ gates (idt tc) -> u64 (handler_rip gate);
  tt_stacks : Forall u64 (privilege_stacks (tss tc));
  tt_entry : u64 (entry_rip (syscall_descriptor tc));
  tt_mask : u64 (rflags_mask (syscall_descriptor tc));
}.

Lemma set_rip_typed v s : u64 v -> cpu_typed s -> cpu_typed (set_rip v s).
Proof. intros Hv [[] ?]. split; [by split|done]. Qed.
Lemma set_flags_typed f s : u64 (Common.raw_bits f) -> cpu_typed s -> cpu_typed (set_flags f s).
Proof. intros Hf [[] ?]. split; [by split|done]. Qed.
Lemma set_level_typed l s : is_privilege_level_valid l = true -> cpu_typed s -> cpu_typed (set_level l s).
Proof. intros Hl [[] ?]. split; [by split|done]. Qed.
Lemma set_pending_typed t s : (forall f, t = Some f -> frame_typed f) -> cpu_typed s -> cpu_typed (set_pending t s).
Proof. intros Ht [[] ?]. split; [by split|done]. Qed.
Lemma set_paging_typed p s : cpu_typed s -> cpu_typed (set_paging p s).
Proof. intros [[] ?]. split; [by split|done]. Qed.
Lemma halt_typed s : cpu_typed s -> cpu_typed (halt s).
Proof. intros [[] ?]. split; [by split|done]. Qed.
Lemma put_reg_typed r v s : u64 v -> cpu_typed s -> cpu_typed (put_reg r v s).
Proof. intros Hv [Hwf Hp]. split; [by apply put_reg_cpu_wf|done]. Qed.

Lemma update_zsp_u64 f v : u64 (Common.raw_bits f) -> u64 (Common.raw_bits (update_zero_sign_parity_from_qword f v)).
Proof. intros Hf. unfold update_zero_sign_parity_from_qword, update_zero_sign_from_qword. auto with mnos. Qed.
#[local] Hint Resolve update_zsp_u64 set_rip_typed set_flags_typed set_level_typed set_pending_typed set_paging_typed
  halt_typed put_reg_typed : mnos.

Lemma read_register_typed r : preserves cpu_typed (read_register r) u64.
Proof.
  apply preserves_lift. intros s v [Hwf _]. unfold RegisterBank_read. destruct (negb _); [done|].
  intros [= <-]. apply reg_of_u64, (cw_registers s Hwf).
Qed.
Lemma write_register_typed r v : u64 v -> preserves cpu_typed (write_register r v) any.
Proof.
  intros Hv s Hs. destruct (is_register_id_valid r) eqn:Hr.
  - rewrite write_register_eq by done. split; [by apply put_reg_typed|done].
  - unfold write_register, RegisterBank_write. by rewrite Hr.
Qed.
Lemma on_flags_typed f : (forall fl, u64 (Common.raw_bits fl) -> u64 (Common.raw_bits (f fl))) ->
  preserves cpu_typed (on_flags f) any.
Proof.
  intros Hf. apply preserves_modify. intros s Hs. apply set_flags_typed; [|done].
  apply Hf, (cw_flags s (ct_wf s Hs)).
Qed.
Lemma set_privilege_level_typed l : preserves cpu_typed (set_privilege_level l) any.
Proof.
  intros s Hs. unfold set_privilege_level. munfold_goal.
  destruct (is_privilege_level_valid l) eqn:Hl; cbn [negb]; (split; [|done]); [by apply set_level_typed|done].
Qed.
Lemma modify_rip_typed v : u64 v -> preserves cpu_typed (modify (set_rip v)) any.
Proof. intros Hv. apply preserves_modify. auto with mnos. Qed.
#[local] Hint Resolve read_register_typed write_register_typed set_privilege_level_typed modify_rip_typed : mnos.

Lemma make_trap_frame_typed kind vector irip ret flags sp level error f : u64 ret -> u64 flags -> u64 sp ->
  make_trap_frame kind vector irip ret flags sp level error = Ok f -> frame_typed f.
Proof.
  intros Hr Hf Hs. unfold make_trap_frame, require_trap_kind, require_privilege_level. munfold_goal.
  destruct (negb (is_trap_kind_valid kind)); [done|]. destruct (is_privilege_level_valid level) eqn:Hl; [|done].
  by intros [= <-].
Qed.

Section controller.
Context (tc : TrapController) (Htc : controller_typed tc).

Lemma privilege_stack_typed level v : privilege_stack level (tss tc) = Ok v -> u64 v.
Proof.
  unfold privilege_stack. munfold_goal. destruct (privilege_stack_index level) as [i|]; [|done].
  destruct (negb _); [done|]. intros [= <-]. unfold nthZ.
  destruct (nth_in_or_default (Z.to_nat i) (privilege_stacks (tss tc)) 0) as [Hin| ->]; [|done].
  apply list_elem_of_In in Hin. pose proof (tt_stacks tc Htc) as Hs. rewrite Forall_forall in Hs. by apply Hs.
Qed.
Lemma gate_at_typed vector gate : gate_at vector (idt tc) = Ok gate -> u64 (handler_rip gate).
Proof.
  unfold gate_at, gate_slot. destruct (negb _); [done|]. intros [= <-].
  destruct (nth_in_or_default (Z.to_nat vector) (gates (idt tc)) absent_gate) as [Hin| ->]; [|done].
  by apply (tt_handlers tc Htc), list_elem_of_In.
Qed.

(** Both entries take the stack the TSS holds for the target level. *)
Lemma load_stack_typed level : preserves cpu_typed
  (lift (fun _ => privilege_stack level (tss tc)) ≫= fun stack => write_register Reg.RSP stack) any.
Proof.
  apply (preserves_bind _ _ _ u64); [|auto with mnos]. apply preserves_lift. intros s v _. apply privilege_stack_typed.
Qed.
Lemma switch_typed gate : preserves cpu_typed (switch_to_gate_privilege tc gate) any.
Proof.
  apply preserves_seq; [by apply preserves_gets|]. intros level.
  apply preserves_if; [by apply preserves_ret|]. apply preserves_seq; [|auto with mnos].
  apply preserves_if; [|by apply preserves_ret].
  apply preserves_seq; [by apply preserves_lift|]. intros present.
  apply preserves_seq; [apply preserves_throw_if|]. intros _. apply load_stack_typed.
Qed.

Lemma frame_from_state_typed kind vector ret error rsp : u64 ret -> u64 rsp ->
  preserves cpu_typed (lift (fun s => make_trap_frame kind vector (rip s) ret (Common.raw_bits (cpu_flags s)) rsp
    (privilege_level s) error)) frame_typed.
Proof.
  intros Hr Hs. apply preserves_lift. intros s f Ht. apply make_trap_frame_typed; try done.
  apply (cw_flags s (ct_wf s Ht)).
Qed.

Lemma dispatch_typed kind vector ret error : u64 ret ->
  preserves cpu_typed (dispatch_gate_trap tc kind vector ret error) any.
Proof.
  intros Hr. apply (preserves_bind _ _ _ (fun gate => u64 (handler_rip gate))).
  { apply preserves_lift. intros s gate _. apply gate_at_typed. }
  intros gate Hg. apply (preserves_bind _ _ _ u64); [auto with mnos|]. intros rsp Hs.
  apply (preserves_bind _ _ _ frame_typed); [by apply frame_from_state_typed|]. intros f Hf.
  apply preserves_seq; [apply switch_typed|]. intros _.
  apply preserves_seq; [|intros _].
  { apply preserves_modify. intros s Ht. apply set_pending_typed; [by intros ? [= <-]|done]. }
  apply preserves_seq; [|intros _].
  { apply preserves_if; [apply on_flags_typed; auto with mnos|by apply preserves_ret]. }
  apply preserves_seq; [auto with mnos|]. intros _. by apply preserves_ret.
Qed.
Lemma raise_exception_typed vector error : preserves cpu_typed (raise_exception tc vector error) any.
Proof.
  apply (preserves_bind _ _ _ u64); [|intros ret; apply dispatch_typed].
  apply preserves_gets. intros s Ht. apply (cw_rip s (ct_wf s Ht)).
Qed.
Lemma enter_syscall_typed ret : u64 ret -> preserves cpu_typed (enter_syscall tc ret) any.
Proof.
  intros Hr. apply preserves_seq; [apply preserves_throw_if|]. intros _.
  apply (preserves_bind _ _ _ u64). { apply preserves_gets. intros s Ht. apply (cw_flags s (ct_wf s Ht)). }
  intros flags Hf. apply (preserves_bind _ _ _ u64); [auto with mnos|]. intros rsp Hs.
  apply (preserves_bind _ _ _ frame_typed).
  { apply preserves_lift. intros s f _. by apply make_trap_frame_typed. }
  intros f Hft. apply preserves_seq; [auto with mnos|]. intros _. apply preserves_seq; [auto with mnos|]. intros _.
  apply preserves_seq; [|intros _].
  { apply preserves_modify. intros s Ht. apply set_pending_typed; [by intros ? [= <-]|done]. }
  apply preserves_seq; [by apply preserves_lift|]. intros present.
  apply preserves_seq; [|intros _]. { apply preserves_if; [apply load_stack_typed|by apply preserves_ret]. }
  apply preserves_seq; [auto with mnos|]. intros _. apply preserves_seq; [|intros _].
  { apply on_flags_typed. intros _ _. simpl. apply u64_land; [done|]. unfold not64. apply Z.lxor_nonneg.
    by split; intros; [|apply (tt_mask tc Htc)]. }
  apply preserves_seq; [|intros _; by apply preserves_ret]. apply modify_rip_typed, (tt_entry tc Htc).
Qed.
End controller.

Lemma pending_frame_typed : preserves cpu_typed (lift get_pending_trap) frame_typed.
Proof.
  apply preserves_lift. intros s f Ht. unfold get_pending_trap.
  destruct (pending_trap s) as [f'|] eqn:Hp; [|done]. intros [= <-]. by apply (ct_pending s Ht).
Qed.
Lemma clear_pending_typed : preserves cpu_typed (modify clear_pending_trap) any.
Proof. apply preserves_modify. intros s Ht. by apply set_pending_typed. Qed.
Lemma set_raw_flags_typed v : u64 v -> preserves cpu_typed (on_flags (fun _ => mkRflags v)) any.
Proof. intros Hv. by apply on_flags_typed. Qed.
#[local] Hint Resolve clear_pending_typed set_raw_flags_typed : mnos.

Lemma return_from_trap_typed : preserves cpu_typed return_from_trap any.
Proof.
  apply (preserves_bind _ _ _ frame_typed); [apply pending_frame_typed|]. intros f [].
  unfold restore_trap_frame, restore_from_frame.
  apply preserves_seq; [|auto with mnos]. by keeps.
Qed.
Lemma return_from_syscall_typed : preserves cpu_typed return_from_syscall any.
Proof.
  apply (preserves_bind _ _ _ (fun p => forall f, p = Some f -> frame_typed f)).
  { apply preserves_gets. intros s Ht. apply (ct_pending s Ht). }
  intros [f|] Hf; [|apply preserves_throw]. destruct (Hf f eq_refl) as [].
  apply preserves_if; [apply preserves_throw|].
  apply (preserves_bind _ _ _ u64); [auto with mnos|]. intros rcx Hc.
  apply preserves_seq; [by apply preserves_lift|]. intros _. apply preserves_seq; [by apply preserves_lift|]. intros _.
  apply preserves_seq; [auto with mnos|]. intros _.
  apply (preserves_bind _ _ _ u64); [auto with mnos|]. intros r11 Hr.
  by keeps.
Qed.

(** ** The machine *)

Lemma mask_nonneg s v : mask_for_data_size s = Ok v -> u64 v.
Proof. by destruct s; intros [= <-]. Qed.
Lemma sign_extend_u64 v s w : u64 v -> sign_extend_value v s = Ok w -> u64 w.
Proof.
  intros Hv. unfold sign_extend_value. munfold_goal. destruct (mask_for_data_size s) as [m|] eqn:Hm; [|done].
  apply mask_nonneg in Hm as [Hm0 Hm]. destruct (sign_bit_index_for_data_size s); [|done].
  destruct (_ =? 0); intros [= <-]; [by apply u64_land|].
  apply u64_lor; [by apply u64_land|]. apply u64_not64. by split.
Qed.

Section machine.
Context {B : Type} `{MemoryBusLaws B}.
Implicit Types (m : Machine B).

Record machine_typed m : Prop := {
  mt_cpu : cpu_typed (cpu m);
  mt_bus b : memory_bus m = Some b -> bus_ok b;
  mt_tlb : tlb_typed (tlb (mmu (executor m)));
  mt_controller tc : trap_controller (executor m) = Some tc -> controller_typed tc;
}.

Lemma on_cpu_typed {A} (c : M CpuState A) Q : preserves cpu_typed c Q -> preserves machine_typed (on_cpu c) Q.
Proof. apply preserves_zoom; [by intros m []|by intros m s [] ?; split]. Qed.
Lemma with_memory_bus_typed {A} (c : M (MemoryManagementUnit * B) A) Q :
  preserves unit_typed c Q -> preserves machine_typed (with_memory_bus c) Q.
Proof.
  intros Hc m Hm. unfold with_memory_bus. destruct (memory_bus m) as [b|] eqn:Hb; [|by split].
  destruct (Hc (mmu (executor m), b)) as [[Hb' Ht] Hq]; [split; [by apply (mt_bus m Hm)|by apply (mt_tlb m Hm)]|].
  destruct Hm.
  destruct (c (mmu (executor m), b)) as [[u b'] r]. cbn [fst snd] in *. split; [|done].
  split; try done. by intros ? [= <-].
Qed.
Lemma require_trap_controller_typed : preserves machine_typed require_trap_controller controller_typed.
Proof.
  apply preserves_lift. intros m tc []. destruct (trap_controller (executor m)); [|done]. intros [= <-]. auto.
Qed.
Lemma modify_unit_typed f : (forall u, tlb_typed (tlb u) -> tlb_typed (tlb (f u))) ->
  preserves machine_typed (modify (fun m => set_executor (on_executor_mmu f (executor m)) m)) any.
Proof. intros Hf. apply preserves_modify. intros m []. split; try done. by apply Hf. Qed.

Lemma address_typed o : operand_typed o ->
  preserves machine_typed (lift (fun m => calculate_effective_address o (cpu m))) u64.
Proof. intros Ho. apply preserves_lift. intros m v _. by apply effective_address_typed. Qed.

Lemma read_register_operand_typed o : preserves machine_typed (read_register_operand o) u64.
Proof.
  apply preserves_seq; [by apply preserves_lift|]. intros r.
  apply (preserves_bind _ _ _ u64); [apply on_cpu_typed, read_register_typed|]. intros v Hv.
  apply (preserves_bind _ _ _ u64).
  { apply preserves_lift. intros m k _. munfold_goal. destruct (register_data_size o); [|done]. apply mask_nonneg. }
  intros k [Hk _]. apply preserves_ret. by apply u64_land.
Qed.
Lemma write_register_operand_typed o v : u64 v -> preserves machine_typed (write_register_operand o v) any.
Proof.
  intros Hv. apply preserves_seq; [by apply preserves_lift|]. intros d.
  apply (preserves_bind _ _ _ u64). { apply preserves_lift. intros m k _. apply mask_nonneg. }
  intros k Hk. apply preserves_seq; [by apply preserves_lift|]. intros r.
  assert (u64 (Z.land v k)) by (apply u64_land; [done|apply Hk]).
  apply preserves_if; [by apply on_cpu_typed, write_register_typed|].
  apply (preserves_bind _ _ _ u64); [apply on_cpu_typed, read_register_typed|]. intros w Hw.
  apply on_cpu_typed, write_register_typed, u64_lor; [|done]. apply u64_land; [done|]. by apply u64_not64.
Qed.
Lemma read_memory_operand_typed o : operand_typed o -> preserves machine_typed (read_memory_operand o) u64.
Proof.
  intros Ho. apply preserves_seq; [by apply preserves_gets|]. intros s.
  apply (preserves_bind _ _ _ u64). { apply preserves_lift. intros m v _. by apply effective_address_typed. }
  intros a Ha. apply preserves_seq; [by apply preserves_lift|]. intros d.
  by apply with_memory_bus_typed, mmu_read_typed.
Qed.
Lemma write_memory_operand_typed o v : operand_typed o -> preserves machine_typed (write_memory_operand o v) any.
Proof.
  intros Ho. apply preserves_seq; [by apply preserves_gets|]. intros s.
  apply (preserves_bind _ _ _ u64). { apply preserves_lift. intros m x _. by apply effective_address_typed. }
  intros a Ha. apply preserves_seq; [by apply preserves_lift|]. intros d.
  by apply with_memory_bus_typed, mmu_write_typed.
Qed.
Lemma read_operand_typed o : operand_typed o -> preserves machine_typed (read_operand o) u64.
Proof.
  destruct o; intros Ho; simpl; [apply preserves_throw|apply read_register_operand_typed| |by apply read_memory_operand_typed].
  apply preserves_ret, wrap64_range.
Qed.
Lemma write_operand_typed o v : operand_typed o -> u64 v -> preserves machine_typed (write_operand o v) any.
Proof.
  destruct o; intros Ho Hv; simpl;
    [apply preserves_throw|by apply write_register_operand_typed|apply preserves_throw|by apply write_memory_operand_typed].
Qed.
Lemma push_qword_typed v : preserves machine_typed (push_qword v) any.
Proof.
  apply (preserves_bind _ _ _ u64); [apply on_cpu_typed, read_register_typed|]. intros sp Hsp. cbn zeta.
  apply preserves_seq; [by apply preserves_gets|]. intros s.
  apply preserves_seq; [apply with_memory_bus_typed, mmu_write_typed, sub64_range|]. intros _.
  apply on_cpu_typed, write_register_typed, sub64_range.
Qed.
Lemma pop_qword_typed : preserves machine_typed pop_qword u64.
Proof.
  apply (preserves_bind _ _ _ u64); [apply on_cpu_typed, read_register_typed|]. intros sp Hsp.
  apply preserves_seq; [by apply preserves_gets|]. intros s.
  apply (preserves_bind _ _ _ u64); [by apply with_memory_bus_typed, mmu_read_typed|]. intros v Hv.
  apply preserves_seq; [apply on_cpu_typed, write_register_typed, add64_range|]. intros _. by apply preserves_ret.
Qed.

Lemma update_add_u64 l r v f : u64 (Common.raw_bits f) -> u64 (Common.raw_bits (update_add l r v f)).
Proof. intros Hf. unfold update_add. auto with mnos. Qed.
Lemma update_sub_u64 l r v f : u64 (Common.raw_bits f) -> u64 (Common.raw_bits (update_sub l r v f)).
Proof. intros Hf. unfold update_sub. auto with mnos. Qed.
Lemma update_inc_u64 l v f : u64 (Common.raw_bits f) -> u64 (Common.raw_bits (update_inc l v f)).
Proof. intros Hf. unfold update_inc. auto with mnos. Qed.
Lemma update_dec_u64 l v f : u64 (Common.raw_bits f) -> u64 (Common.raw_bits (update_dec l v f)).
Proof. intros Hf. unfold update_dec. auto with mnos. Qed.
Lemma update_logical_u64 v f : u64 (Common.raw_bits f) -> u64 (Common.raw_bits (update_logical v f)).
Proof. intros Hf. unfold update_logical. auto with mnos. Qed.

Section instruction.
Context (context : ExecutionContext) (Hcontext : u64 (next_rip context)).

Lemma set_next_rip_typed : preserves machine_typed (set_next_rip context) any.
Proof. by apply on_cpu_typed, modify_rip_typed. Qed.
Lemma jump_to_typed target : u64 target -> preserves machine_typed (jump_to context target) any.
Proof.
  intros Ht. do 2 (apply preserves_seq; [apply preserves_throw_if|]; intros _). by apply on_cpu_typed, modify_rip_typed.
Qed.
Lemma require_controller_then_typed {A} (k : TrapController -> M CpuState A) Q :
  (forall tc, controller_typed tc -> preserves cpu_typed (k tc) Q) ->
  preserves machine_typed (require_trap_controller ≫= fun tc => on_cpu (k tc)) Q.
Proof.
  intros Hk. apply (preserves_bind _ _ _ controller_typed); [apply require_trap_controller_typed|].
  intros tc Htc. by apply on_cpu_typed, Hk.
Qed.

(** One step of the walk down an instruction: a known operation whose value is a word, or a step
    whose value is of no interest. *)
Ltac typed_step := first
  [ assumption | done
  | apply set_next_rip_typed | apply jump_to_typed; by auto
  | apply write_operand_typed; by auto with mnos
  | apply write_register_operand_typed; by auto with mnos
  | apply push_qword_typed
  | apply on_cpu_typed, write_register_typed; by auto with mnos
  | apply on_cpu_typed, on_flags_typed; intros; by auto using update_add_u64, update_sub_u64, update_inc_u64,
      update_dec_u64, update_logical_u64
  | apply preserves_throw_if | apply preserves_throw | apply preserves_ret; done
  | apply (preserves_bind _ _ _ u64); [by apply read_operand_typed|intros ? ?]
  | apply (preserves_bind _ _ _ u64); [apply read_register_operand_typed|intros ? ?]
  | apply (preserves_bind _ _ _ u64); [apply on_cpu_typed, read_register_typed|intros ? ?]
  | apply (preserves_bind _ _ _ u64); [apply pop_qword_typed|intros ? ?]
  | apply (preserves_bind _ _ _ u64); [by apply address_typed|intros ? ?]
  | apply preserves_if
  | apply preserves_seq; [|intros ?]
  | by apply preserves_lift | by apply preserves_gets ].
Ltac typed := cbn zeta; repeat (typed_step; cbn zeta).

Section operands.
Context (i : Instruction) (Hi : instruction_typed i).
Let H1 : operand_typed (first_operand i) := proj1 Hi.
Let H2 : operand_typed (second_operand i) := proj2 Hi.

Lemma execute_mov_typed : preserves machine_typed (execute_mov context i) any.
Proof. unfold execute_mov. typed. Qed.
Lemma execute_movsx_typed : preserves machine_typed (execute_movsx context i) any.
Proof.
  unfold execute_movsx. apply preserves_seq; [apply preserves_throw_if|intros _].
  apply (preserves_bind _ _ _ u64); [by apply read_operand_typed|]. intros v Hv.
  apply preserves_seq; [by apply preserves_lift|]. intros d.
  apply (preserves_bind _ _ _ u64); [|typed]. { apply preserves_lift. intros m w _. by apply sign_extend_u64. }
  intros w Hw. typed.
Qed.
Lemma execute_movzx_typed : preserves machine_typed (execute_movzx context i) any.
Proof. unfold execute_movzx. typed. Qed.
Lemma execute_lea_typed : preserves machine_typed (execute_lea context i) any.
Proof. unfold execute_lea. typed. Qed.
Lemma execute_add_typed : preserves machine_typed (execute_add context i) any.
Proof. unfold execute_add. typed. Qed.
Lemma execute_sub_typed : preserves machine_typed (execute_sub context i) any.
Proof. unfold execute_sub. typed. Qed.
Lemma execute_cmp_typed : preserves machine_typed (execute_cmp context i) any.
Proof. unfold execute_cmp. typed. Qed.
Lemma execute_inc_typed : preserves machine_typed (execute_inc context i) any.
Proof. unfold execute_inc. typed. Qed.
Lemma execute_dec_typed : preserves machine_typed (execute_dec context i) any.
Proof. unfold execute_dec. typed. Qed.
Lemma execute_test_typed : preserves machine_typed (execute_test context i) any.
Proof. unfold execute_test. typed. Qed.
Lemma execute_xadd_typed : preserves machine_typed (execute_xadd context i) any.
Proof. unfold execute_xadd. typed. Qed.
Lemma execute_push_typed : preserves machine_typed (execute_push context i) any.
Proof. unfold execute_push. typed. Qed.
Lemma execute_pop_typed : preserves machine_typed (execute_pop context i) any.
Proof. unfold execute_pop. typed. Qed.
Lemma execute_call_typed : preserves machine_typed (execute_call context i) any.
Proof. unfold execute_call. typed. Qed.
Lemma execute_jmp_typed : preserves machine_typed (execute_jmp context i) any.
Proof. unfold execute_jmp. typed. Qed.
Lemma execute_setcc_typed : preserves machine_typed (execute_setcc context i) any.
Proof.
  apply preserves_seq; [by apply preserves_lift|]. intros taken.
  apply preserves_seq; [|intros _; apply set_next_rip_typed]. apply write_operand_typed; [done|]. by destruct taken.
Qed.
Lemma execute_cmovcc_typed : preserves machine_typed (execute_cmovcc context i) any.
Proof. unfold execute_cmovcc. typed. Qed.
Lemma execute_cmpxchg_typed : preserves machine_typed (execute_cmpxchg context i) any.
Proof. unfold execute_cmpxchg. typed. Qed.
Lemma execute_ret_typed : preserves machine_typed (execute_ret context) any.
Proof. unfold execute_ret. typed. Qed.
Lemma execute_hlt_typed : preserves machine_typed (execute_hlt context) any.
Proof. unfold execute_hlt. typed. apply on_cpu_typed, preserves_modify. auto with mnos. Qed.
Lemma execute_bitwise_typed f : (forall x y, u64 x -> u64 y -> u64 (f x y)) ->
  preserves machine_typed (execute_bitwise context i f) any.
Proof. intros Hf. unfold execute_bitwise. typed. Qed.
Lemma jump_if_typed taken : preserves machine_typed (jump_if context i taken) any.
Proof. apply preserves_if; [apply execute_jmp_typed|typed]. Qed.
Lemma execute_je_typed : preserves machine_typed (execute_je context i) any.
Proof. apply preserves_seq; [by apply preserves_gets|]. intros zero. apply jump_if_typed. Qed.
Lemma execute_jne_typed : preserves machine_typed (execute_jne context i) any.
Proof. apply preserves_seq; [by apply preserves_gets|]. intros zero. apply jump_if_typed. Qed.
Lemma execute_jcc_typed : preserves machine_typed (execute_jcc context i) any.
Proof. apply preserves_seq; [by apply preserves_lift|]. intros taken. apply jump_if_typed. Qed.

(** A trap ends the instruction. *)
Lemma trap_then_ret {A} (k : TrapController -> M CpuState A) :
  (forall tc, controller_typed tc -> preserves cpu_typed (k tc) any) ->
  preserves machine_typed (require_trap_controller ≫= fun tc => on_cpu (k tc) ≫= fun _ => mret tt) any.
Proof.
  intros Hk. apply (preserves_bind _ _ _ controller_typed); [apply require_trap_controller_typed|].
  intros tc Htc. apply preserves_seq; [by apply on_cpu_typed, Hk|]. intros _. by apply preserves_ret.
Qed.
Lemma execute_invlpg_typed : preserves machine_typed (execute_invlpg context i) any.
Proof.
  apply preserves_seq; [apply preserves_throw_if|]. intros _. apply preserves_seq; [by apply preserves_gets|].
  intros s. apply preserves_if; [apply trap_then_ret; intros tc Htc; by apply raise_exception_typed|].
  apply (preserves_bind _ _ _ u64). { apply preserves_lift. intros m v _. by apply effective_address_typed. }
  intros a Ha. apply preserves_seq; [|intros _; apply set_next_rip_typed]. apply modify_unit_typed. intros u. apply invalidate_where_typed.
Qed.
Lemma execute_int_typed : preserves machine_typed (execute_int context i) any.
Proof.
  apply preserves_seq; [apply preserves_throw_if|intros _]. apply preserves_seq; [by apply preserves_lift|].
  intros v. apply preserves_seq; [apply preserves_throw_if|intros _]. apply trap_then_ret. intros tc Htc. by apply dispatch_typed.
Qed.
Lemma execute_syscall_typed : preserves machine_typed (execute_syscall context) any.
Proof. apply trap_then_ret. intros tc Htc. by apply enter_syscall_typed. Qed.
Lemma execute_sysret_typed : preserves machine_typed execute_sysret any.
Proof. apply require_controller_then_typed. intros _ _. apply return_from_syscall_typed. Qed.
Lemma execute_iret_typed : preserves machine_typed execute_iret any.
Proof. apply require_controller_then_typed. intros _ _. apply return_from_trap_typed. Qed.

Lemma execute_instruction_typed : preserves machine_typed (execute_instruction context i) any.
Proof.
  unfold execute_instruction. destruct (opcode i);
    auto using execute_mov_typed, execute_movsx_typed, execute_movzx_typed, execute_lea_typed, execute_add_typed,
      execute_sub_typed, execute_cmp_typed, execute_inc_typed, execute_dec_typed, execute_test_typed,
      execute_cmpxchg_typed, execute_xadd_typed, execute_push_typed, execute_pop_typed, execute_call_typed,
      execute_ret_typed, execute_jmp_typed, execute_setcc_typed, execute_cmovcc_typed, execute_hlt_typed,
      execute_je_typed, execute_jne_typed, execute_jcc_typed, execute_invlpg_typed, execute_int_typed,
      execute_syscall_typed, execute_sysret_typed, execute_iret_typed, set_next_rip_typed, preserves_throw.
  - apply execute_bitwise_typed. intros x y Hx [Hy _]. by apply u64_land.
  - apply execute_bitwise_typed. intros x y. apply u64_lor.
  - apply execute_bitwise_typed. intros x y. apply u64_lxor.
Qed.
End operands.
End instruction.

Lemma catch_typed c h : preserves machine_typed c any -> (forall f, preserves machine_typed (h f) any) ->
  preserves machine_typed (catch_page_fault c h) any.
Proof.
  intros Hc Hh m Hm. unfold catch_page_fault. destruct (Hc m Hm) as [Hm' _].
  destruct (c m) as [m' [u|e]]; [by split|]. destruct e; try (by split). by apply Hh.
Qed.
Lemma on_model_M_typed f : preserves machine_typed (on_model_M f) any.
Proof. by apply modify_unit_typed. Qed.
Lemma handle_page_fault_typed f : preserves machine_typed (handle_page_fault f) any.
Proof.
  apply (preserves_bind _ _ _ (fun c => forall tc, c = Some tc -> controller_typed tc)).
  { apply preserves_gets. intros m []. auto. }
  intros [tc|] Htc; [|apply preserves_throw]. specialize (Htc tc eq_refl).
  apply preserves_seq; [|intros _].
  { apply on_cpu_typed, preserves_modify. intros s. apply set_paging_typed. }
  apply preserves_seq; [by apply on_cpu_typed, raise_exception_typed|]. intros _. by apply preserves_ret.
Qed.

Lemma execute_fetched_typed context start i : u64 (next_rip context) -> instruction_typed i ->
  preserves machine_typed (execute_fetched context start i) any.
Proof.
  intros Hc Hi. apply preserves_seq; [apply catch_typed|intros _].
  - apply preserves_seq; [|intros _].
    { apply preserves_seq; [by apply preserves_gets|]. intros s. apply preserves_if; [by apply preserves_ret|].
      apply with_memory_bus_typed, check_access_range_typed. }
    apply preserves_seq; [apply on_model_M_typed|intros _].
    apply preserves_seq; [by apply execute_instruction_typed|intros _].
    apply preserves_seq; [by apply preserves_gets|]. intros rip. apply on_model_M_typed.
  - intros f. apply preserves_seq; [apply on_model_M_typed|]. intros _. apply handle_page_fault_typed.
  - apply preserves_seq; [|intros _]. { apply preserves_modify. by intros m []. }
    apply preserves_seq; [|intros _; by apply preserves_gets]. apply preserves_modify. by intros m [].
Qed.

Definition program_typed (p : Program) : Prop := Forall instruction_typed (instructions p).
Lemma instruction_at_typed p r i : program_typed p -> instruction_at p r = Ok i -> instruction_typed i.
Proof.
  intros Hp. unfold instruction_at. destruct (negb _); [done|]. intros [= <-].
  destruct (nth_in_or_default (Z.to_nat r) (instructions p) make_hlt) as [Hin| ->]; [|done].
  apply list_elem_of_In in Hin. unfold program_typed in Hp. rewrite Forall_forall in Hp. by apply Hp.
Qed.
Lemma step_typed p : program_typed p -> preserves machine_typed (step_with_memory p) any.
Proof.
  intros Hp. apply preserves_seq; [by apply preserves_gets|]. intros s.
  apply preserves_if; [by apply preserves_ret|]. cbn zeta.
  apply (preserves_bind _ _ _ instruction_typed). { apply preserves_lift. intros m i _. by apply instruction_at_typed. }
  intros i Hi. apply execute_fetched_typed; [apply add64_range|done].
Qed.
Lemma run_loop_typed step : preserves machine_typed step any ->
  forall n k, preserves machine_typed (run_loop step k n) any.
Proof.
  intros Hs. induction n as [|n IH]; intros k; cbn [run_loop];
    (apply preserves_seq; [by apply preserves_gets|]); intros s; apply preserves_if; try by apply preserves_ret.
  - apply preserves_throw.
  - apply preserves_seq; [done|]. intros _. apply IH.
Qed.

Lemma operand_ok_typed o : operand_ok o -> operand_typed o.
Proof. destruct o as [| | |a s]; try done. by intros [(_ & _ & _ & _ & Ha) _]. Qed.
Lemma step_image_typed image : image_typed image -> preserves machine_typed (step_image_with_memory image) any.
Proof.
  intros Hi. apply (preserves_bind _ _ _ (fun s => u64 (rip s))).
  { apply preserves_gets. intros m Hm. apply Hm. }
  intros s Hr. apply preserves_if; [by apply preserves_ret|]. cbn zeta.
  apply (preserves_bind _ _ _ (fun d => instruction_ok (instruction d) /\ u64 (decoded_next_rip d))).
  { apply preserves_lift. intros m d _ Hd. by apply decode_result in Hd as (? & _ & ?). }
  intros d [(Ha & Hb & _) Hn]. apply execute_fetched_typed; [done|]. split; by apply operand_ok_typed.
Qed.

End machine.

(** ** The run loop *)

Section run.
Context {B : Type} `{MemoryBus B}.
Implicit Types (m : Machine B).

(** [n] steps that each find the machine running. *)
Inductive steps (step : M (Machine B) StepResult) : nat -> Machine B -> Machine B -> Prop :=
  | steps_none m : steps step 0 m m
  | steps_one n m r m1 m2 : is_halted (cpu m) = false -> step m = (m1, Ok r) -> steps step n m1 m2 ->
      steps step (S n) m m2.

(** How a run of at most [n] steps ends. *)
Lemma run_loop_outcome step n : forall k m m' r, run_loop step k n m = (m', r) ->
  exists j, (j <= n)%nat /\ ((exists m1, steps step j m m1 /\ match r with
      | Ok c => m' = m1 /\ is_halted (cpu m') = true /\ c = k + Z.of_nat j
      | Throw e => is_halted (cpu m1) = false /\ (j = n /\ m' = m1 /\ e = runtime_error \/ (j < n)%nat /\ step m1 = (m', Throw e))
      end)).
Proof.
  induction n as [|n IH]; intros k m m' r; cbn [run_loop]; munfold_goal;
    destruct (is_halted (cpu m)) eqn:Hh.
  - intros [= <- <-]. exists 0%nat. split; [lia|]. exists m. split; [constructor|].
    split; [done|]. split; [done|]. lia.
  - intros [= <- <-]. exists 0%nat. split; [lia|]. exists m. split; [constructor|]. split; [done|]. by left.
  - intros [= <- <-]. exists 0%nat. split; [lia|]. exists m. split; [constructor|].
    split; [done|]. split; [done|]. lia.
  - destruct (step m) as [m1 [x|e]] eqn:Hs.
    + intros Hr. apply IH in Hr as (j & Hj & m2 & Hsteps & Hout). exists (S j). split; [lia|]. exists m2.
      split; [by eapply steps_one|]. destruct r as [c|e].
      * destruct Hout as (-> & ? & ->). split; [done|]. split; [done|]. lia.
      * destruct Hout as (? & [(-> & -> & ->)|[? ?]]); (split; [done|]); [left|right]; (split; [lia|done]).
    + intros [= <- <-]. exists 0%nat. split; [lia|]. exists m. split; [constructor|]. split; [done|]. right.
      split; [lia|done].
Qed.

Definition run_outcome (step : M (Machine B) StepResult) (max_steps : nat) m m' (r : res Z) : Prop :=
  exists j m1, (j <= max_steps)%nat /\ steps step j m m1 /\ match r with
    | Ok n => n = Z.of_nat j /\ m' = m1 /\ is_halted (cpu m') = true
    | Throw e => is_halted (cpu m1) = false /\ (j = max_steps /\ m' = m1 /\ e = runtime_error \/
         (j < max_steps)%nat /\ step m1 = (m', Throw e))
    end.

(** C23. A run of a program or of an image always ends, within its step limit: it returns the exact
    number of steps taken when the processor halted, throws std::runtime_error when the limit was
    reached with the processor still running, and otherwise rethrows what the offending step threw. *)
Theorem run_ends_within_limit max_steps m m' r :
  (forall p, run_with_memory p max_steps m = (m', r) -> run_outcome (step_with_memory p) max_steps m m' r) /\
  (forall image, run_image_with_memory image max_steps m = (m', r) ->
     run_outcome (step_image_with_memory image) max_steps m m' r).
Proof.
  split; intros c Hr; apply run_loop_outcome in Hr as (j & Hj & m1 & Hs & Hout); exists j, m1;
    (split; [done|]); (split; [done|]); destruct r as [n|e]; [|done| |done];
    by destruct Hout as (-> & ? & ->).
Qed.
End run.

(** ** Witnesses *)

Definition rcx : Operand := OpRegister Reg.RCX Size.QWORD.
(** [mov rcx, 3; l: dec rcx; jne l; hlt]. *)
Definition countdown : Program :=
  mkProgram [make_mov rcx (imm 3); make_dec rcx; make_jne (imm 1); make_hlt].
Definition start : Machine PhysicalMemory := mkMachine make_cpu_state make_executor None (Some []).

Lemma make_cpu_state_typed : cpu_typed make_cpu_state.
Proof. split; [|done]. split; [by apply register_bank_check|by split..|done]. Qed.
Lemma start_typed : machine_typed start.
Proof. split; [apply make_cpu_state_typed|done|apply make_tlb_typed|done]. Qed.

(** [push rax; hlt] as bytes: without a memory bus the push throws. *)
Definition push_image : ExecutableImage := mkImage [0x50; 0xF4] 0.
Lemma push_image_typed : image_typed push_image.
Proof. split; [by apply byte_valued_check|]. by vm_compute. Qed.

Lemma run_ends_within_limit_witness :
  let run := run_with_memory countdown 5 start in
  exists j m1, (j <= 5)%nat /\ steps (step_with_memory countdown) j start m1 /\ is_halted (cpu m1) = false.
Proof.
  intros run.
  assert (Hr : run.2 = Throw runtime_error) by (vm_compute; reflexivity).
  pose proof (run_ends_within_limit (B := PhysicalMemory) 5 start run.1 (Throw runtime_error)) as [Hlim _].
  destruct (Hlim countdown (outcome_of run _ Hr)) as (j & m1 & Hj & Hs & Hh & _).
  exists j, m1. split; [exact Hj|]. split; [exact Hs|exact Hh].
Defined.
