(* ===== verification/ExecutorFaults.v ===== *)
(** * Page faults of the executor are precise

    An instruction that raises a page fault has changed neither registers, flags nor memory but for
    accessed and dirty bits, so that the handler can repair the mapping and run it again.  Three
    opcodes with a memory destination are exceptions, shown by example. *)

From S2P Require Import Prelude Logic Common PhysicalMemory MemoryBus Paging PageTable Tlb Perf Mmu Instruction CpuState Trap Executor.

(** ** The memory-management unit *)

Section unit.
Context {B : Type} `{MemoryBusLaws B}.
Context (T : gmap Z (PageTableLevel * Z)) (ps : PagingState).
Implicit Types (s : MemoryManagementUnit * B).

(** With paging on, only accessed and dirty bits change and the buffer stays consistent; with paging
    off, memory does not change at all. *)
Definition marks s s' : Prop :=
  if paging_enabled ps then mmu_wf T ps s.1 s.2 -> touched T s.2 s'.2 /\ mmu_wf T ps s'.1 s'.2
  else s'.2 = s.2.

#[export] Instance marks_preorder : PreOrder marks.
Proof.
  unfold marks. destruct (paging_enabled ps); split.
  - intros s Hwf. split; [|done]. apply touched_refl, (twf_bus _ _ _ (mw_tables _ _ _ _ Hwf)).
  - intros s1 s2 s3 H12 H23 Hwf. destruct (H12 Hwf) as [? Hwf2]. destruct (H23 Hwf2) as [? ?].
    split; [|done]. by apply (touched_trans T s1.2 s2.2).
  - by intros s.
  - intros s1 s2 s3 H12 H23. by rewrite H23.
Qed.

Lemma mmu_read_marks p a d : u64 a -> within marks (mmu_read ps p a d).
Proof.
  intros Ha [m b]. unfold marks. destruct (paging_enabled ps) eqn:Hpg.
  - intros Hwf. destruct (mmu_read ps p a d (m, b)) as [[m' b'] r] eqn:E.
    by apply (mmu_read_touched T ps p a d m b m' b' r).
  - unfold mmu_read, mmu_translate. rewrite Hpg. munfold_goal. by destruct (data_size_to_bytes d).
Qed.
Lemma mmu_write_marks p a d v : u64 a -> fault_within marks (mmu_write ps p a d v).
Proof.
  intros Ha [m b] f. unfold marks. destruct (paging_enabled ps) eqn:Hpg.
  - intros Hf Hwf. destruct (mmu_write ps p a d v (m, b)) as [[m' b'] r] eqn:E. cbn [snd] in Hf. subst r.
    destruct (mmu_write_fault_spec T ps p m b a d v m' b' f) as (? & ? & _); done.
  - unfold mmu_write, mmu_translate. rewrite Hpg. munfold_goal. destruct (data_size_to_bytes d); [|done].
    cbn [negb orb]. unfold on_memory, bus_write_M, mmu_record_data_write, on_mmu. munfold_goal. cbn [fst snd].
    by destruct (bus_write b a d v).
Qed.
Lemma check_access_range_marks p a n kind : u64 a -> within marks (check_access_range ps p a n kind).
Proof.
  intros Ha [m b]. unfold marks, check_access_range. destruct (paging_enabled ps) eqn:Hpg; [|done].
  intros Hwf. cbn [negb orb]. destruct (n =? 0).
  { split; [|done]. apply touched_refl, (twf_bus _ _ _ (mw_tables _ _ _ _ Hwf)). }
  destruct (check_pages _ ps p a n kind (m, b)) as [[m' b'] r] eqn:E.
  by apply (check_pages_touched T) in E.
Qed.
End unit.

(** ** The machine *)

Section machine.
Context {B : Type} `{MemoryBusLaws B} (T : gmap Z (PageTableLevel * Z)).
Implicit Types (m : Machine B).

(** What a faulting instruction leaves: the processor state, the counters and the trace untouched,
    memory changed in accessed and dirty bits only. *)
Record undisturbed m m' : Prop := {
  ud_cpu : cpu m' = cpu m;
  ud_controller : trap_controller (executor m') = trap_controller (executor m);
  ud_cycles : cycle_count (executor m') = cycle_count (executor m);
  ud_trace : trace m' = trace m;
  ud_memory : register_bank_wf (cpu_registers (cpu m)) ->
    match memory_bus m, memory_bus m' with
    | Some b, Some b' => marks T (cpu_paging (cpu m)) (mmu (executor m), b) (mmu (executor m'), b')
    | None, None => True
    | _, _ => False
    end;
}.

#[export] Instance undisturbed_preorder : PreOrder undisturbed.
Proof.
  split.
  - intros m. split; try done. intros _. by destruct (memory_bus m).
  - intros m1 m2 m3 [C1 ? ? ? M1] [C2 ? ? ? M2]. rewrite C1 in *. split; try congruence. intros Hwf.
    specialize (M1 Hwf). specialize (M2 Hwf). destruct (memory_bus m1), (memory_bus m2), (memory_bus m3); try done.
    by etransitivity.
Qed.

Lemma undisturbed_unit m f : (forall u, tlb (f u) = tlb u) ->
  undisturbed m (set_executor (on_executor_mmu f (executor m)) m).
Proof.
  intros Hf. split; try done. intros _. simpl. destruct (memory_bus m) as [b|]; [|done]. unfold marks. simpl.
  destruct (paging_enabled _); [|done]. intros [Hwf Hc]. split; [by apply touched_refl, (twf_bus _ _ _ Hwf)|].
  split; [done|]. by rewrite Hf.
Qed.
Lemma on_model_M_within f : within undisturbed (on_model_M f).
Proof. apply within_modify. intros m. by apply undisturbed_unit. Qed.

(** A call of the unit that stays within [marks] stays within [undisturbed]. *)
Lemma with_bus_undisturbed {A} (c : M (MemoryManagementUnit * B) A) m :
  (forall b, memory_bus m = Some b -> register_bank_wf (cpu_registers (cpu m)) ->
     marks T (cpu_paging (cpu m)) (mmu (executor m), b) (c (mmu (executor m), b)).1) ->
  undisturbed m (with_memory_bus c m).1.
Proof.
  intros Hc. unfold with_memory_bus. destruct (memory_bus m) as [b|] eqn:Hb; [|reflexivity].
  specialize (Hc b eq_refl). destruct (c (mmu (executor m), b)) as [[u b'] r]. cbn [fst] in *.
  split; try done. simpl. intros Hwf. rewrite Hb. by apply Hc.
Qed.

Lemma read_memory_operand_within o : operand_typed o -> within undisturbed (read_memory_operand o).
Proof.
  intros Ho m. unfold read_memory_operand. munfold_goal.
  destruct (calculate_effective_address o (cpu m)) as [a|] eqn:Ha; [|reflexivity].
  apply effective_address_typed in Ha; [|done]. destruct (memory_data_size o) as [d|]; [|reflexivity].
  apply with_bus_undisturbed. intros b _ _. by apply mmu_read_marks.
Qed.
Lemma read_register_operand_within o : within undisturbed (read_register_operand o).
Proof.
  intros m. unfold read_register_operand, on_cpu, read_register. munfold_goal.
  destruct (register_id o); [|reflexivity]. destruct (RegisterBank_read _ _); [|by destruct m].
  destruct (register_data_size o); [|by destruct m]. by destruct (mask_for_data_size _), m.
Qed.
Lemma read_operand_within o : operand_typed o -> within undisturbed (read_operand o).
Proof.
  destruct o; intros Ho; simpl; auto using read_register_operand_within, read_memory_operand_within with mnos typeclass_instances.
Qed.
Lemma with_bus_fault {A} (c : M (MemoryManagementUnit * B) A) m f :
  (with_memory_bus c m).2 = Throw (page_fault f) ->
  exists b, memory_bus m = Some b /\ (c (mmu (executor m), b)).2 = Throw (page_fault f).
Proof.
  unfold with_memory_bus. destruct (memory_bus m) as [b|]; [|done]. intros Hf. exists b. split; [done|].
  by destruct (c (mmu (executor m), b)) as [[u b'] r].
Qed.
Lemma with_bus_write_within p a d v m f : u64 a ->
  (with_memory_bus (mmu_write (cpu_paging (cpu m)) p a d v) m).2 = Throw (page_fault f) ->
  undisturbed m (with_memory_bus (mmu_write (cpu_paging (cpu m)) p a d v) m).1.
Proof.
  intros Ha Hf. apply with_bus_fault in Hf as (b0 & Hb & Hf). apply with_bus_undisturbed. intros b Hb' _.
  rewrite Hb in Hb'. injection Hb' as <-. by apply (mmu_write_marks T _ p a d v Ha _ f).
Qed.

(** ** Computations that cannot fault *)

Lemma read_register_faultless r : faultless (read_register r).
Proof. apply faultless_lift. intros s f. unfold RegisterBank_read. by destruct (negb _). Qed.
Lemma write_register_faultless r v : faultless (write_register r v).
Proof. intros s f. unfold write_register, RegisterBank_write. by destruct (negb _). Qed.
Lemma on_cpu_faultless {A} (c : M CpuState A) : faultless c -> faultless (on_cpu (B := B) c).
Proof. apply faultless_zoom. Qed.

(** Decides that a pure operation throws no page fault by looking at all its outcomes. *)
Ltac faultless_walk := cbn zeta; repeat match goal with
  | |- faultless (_ ≫= _) => apply faultless_bind
  | |- faultless (if _ then _ else _) => apply faultless_if
  | |- forall _, _ => intros ?; cbn zeta
  end; try (apply faultless_throw_if; done).
Ltac no_fault := munfold_goal; repeat (case_match; munfold_goal); congruence.

Lemma switch_faultless tc gate : faultless (switch_to_gate_privilege tc gate).
Proof.
  unfold switch_to_gate_privilege, set_privilege_level.
  faultless_walk;
    auto using faultless_throw_if, write_register_faultless with mnos;
    apply faultless_lift; intros ? ?;
    unfold has_privilege_stack, privilege_stack, privilege_stack_index, require_privilege_level; no_fault.
Qed.
Lemma dispatch_faultless tc kind vector ret error : faultless (dispatch_gate_trap tc kind vector ret error).
Proof.
  unfold dispatch_gate_trap, on_flags.
  faultless_walk;
    auto using read_register_faultless, switch_faultless with mnos; apply faultless_lift; intros ? ?;
    unfold gate_at, make_trap_frame, require_trap_kind, require_privilege_level; no_fault.
Qed.
Lemma raise_exception_faultless tc vector error : faultless (raise_exception tc vector error).
Proof. apply faultless_bind; [apply faultless_gets|]. intros ret. apply dispatch_faultless. Qed.
Lemma enter_syscall_faultless tc ret : faultless (enter_syscall tc ret).
Proof.
  unfold enter_syscall, on_flags, set_privilege_level.
  faultless_walk;
    auto using read_register_faultless, write_register_faultless with mnos;
    apply faultless_lift; intros ? ?;
    unfold make_trap_frame, require_trap_kind, has_privilege_stack, privilege_stack, privilege_stack_index,
      require_privilege_level; no_fault.
Qed.
Lemma return_from_trap_faultless : faultless return_from_trap.
Proof.
  unfold return_from_trap, restore_trap_frame, restore_from_frame, on_flags, set_privilege_level.
  faultless_walk; auto using write_register_faultless with mnos. apply faultless_lift. intros ? ?. unfold get_pending_trap. no_fault.
Qed.
Lemma return_from_syscall_faultless : faultless return_from_syscall.
Proof.
  unfold return_from_syscall, on_flags, set_privilege_level.
  apply faultless_bind; [apply faultless_gets|]. intros [frame|]; [|by apply faultless_throw].
  apply faultless_if; [by apply faultless_throw|].
  faultless_walk; auto using read_register_faultless, write_register_faultless with mnos;
    apply faultless_lift; intros ? ?;
    unfold require_canonical_syscall_return_address; no_fault.
Qed.

Lemma require_controller_faultless : faultless (require_trap_controller (B := B)).
Proof. apply faultless_lift. intros m f. no_fault. Qed.
Lemma write_register_operand_faultless o v : faultless (write_register_operand (B := B) o v).
Proof.
  unfold write_register_operand.
  faultless_walk;
    auto using on_cpu_faultless, read_register_faultless, write_register_faultless;
    apply faultless_lift; intros ? ?; unfold register_data_size, register_id, mask_for_data_size; no_fault.
Qed.
Lemma read_register_operand_faultless o : faultless (read_register_operand (B := B) o).
Proof.
  unfold read_register_operand.
  faultless_walk; auto using on_cpu_faultless, read_register_faultless with mnos;
    apply faultless_lift; intros ? ?; unfold register_data_size, register_id, mask_for_data_size; no_fault.
Qed.
Lemma set_next_rip_faultless context : faultless (set_next_rip (B := B) context).
Proof. apply on_cpu_faultless, faultless_modify. Qed.
Lemma jump_to_faultless context target : faultless (jump_to (B := B) context target).
Proof.
  unfold jump_to. faultless_walk.
  apply on_cpu_faultless, faultless_modify.
Qed.
Lemma on_flags_faultless g : faultless (on_cpu (B := B) (on_flags g)).
Proof. apply on_cpu_faultless, faultless_modify. Qed.

Lemma read_operand_faultless o : is_memory o = false -> faultless (read_operand (B := B) o).
Proof.
  destruct o; intros Ho; simpl; [by apply faultless_throw|apply read_register_operand_faultless|done|done].
Qed.
Lemma write_operand_faultless o v : is_memory o = false -> faultless (write_operand (B := B) o v).
Proof.
  destruct o; intros Ho; simpl;
    [by apply faultless_throw|apply write_register_operand_faultless|by apply faultless_throw|done].
Qed.

(** ** Computations that may fault *)

Lemma write_operand_fault_within o v : operand_typed o -> fault_within undisturbed (write_operand o v).
Proof.
  destruct o as [|r d|w|a d]; intros Ho; simpl; try by apply faultless_fault_within, faultless_throw.
  { apply faultless_fault_within, write_register_operand_faultless. }
  intros m f. unfold write_memory_operand. munfold_goal.
  destruct (calculate_effective_address (OpMemory a d) (cpu m)) as [x|] eqn:Hx; [|done].
  apply effective_address_typed in Hx; [|done]. by apply with_bus_write_within.
Qed.
Lemma push_qword_fault_within v : fault_within undisturbed (push_qword v).
Proof.
  intros m f. unfold push_qword, on_cpu. munfold_goal. rewrite read_register_eq by done. cbn [fst snd].
  replace (set_cpu (cpu m) m) with m by by destruct m.
  pose proof (with_bus_write_within (privilege_level (cpu m)) (sub64 (reg_of Reg.RSP (cpu m)) EXECUTOR_STACK_SLOT_BYTES)
    Size.QWORD v m f (sub64_range _ _)) as Hw.
  destruct (with_memory_bus _ m) as [m1 [u|e]]; cbn [fst snd] in *; [by rewrite write_register_eq by done|].
  intros [= ->]. by apply Hw.
Qed.
Lemma pop_qword_fault_within : fault_within undisturbed pop_qword.
Proof.
  intros m f. unfold pop_qword, on_cpu. munfold_goal. rewrite read_register_eq by done. cbn [fst snd].
  replace (set_cpu (cpu m) m) with m by by destruct m.
  set (c := mmu_read _ _ _ _). assert (Hr : undisturbed m (with_memory_bus c m).1).
  { apply with_bus_undisturbed. intros b _ Hwf. apply mmu_read_marks. by apply reg_of_u64. }
  destruct (with_memory_bus c m) as [m1 [u|e]]; cbn [fst snd] in *; [by rewrite write_register_eq by done|].
  by intros _.
Qed.

Section instruction.
Context (context : ExecutionContext) (i : Instruction) (Hi : instruction_typed i).
Let Hfirst : operand_typed (first_operand i) := proj1 Hi.
Let Hsecond : operand_typed (second_operand i) := proj2 Hi.

Lemma effective_address_no_fault o s f : calculate_effective_address o s <> Throw (page_fault f).
Proof.
  unfold calculate_effective_address, RegisterBank_read. destruct o as [| | |a d]; simpl; try done.
  destruct (ma_absolute_address a); [done|]. munfold_goal.
  destruct (ma_base_register a), (ma_index_register a); repeat (destruct (negb _); munfold_goal); done.
Qed.
Lemma evaluate_condition_no_fault c s f : evaluate_condition c s <> Throw (page_fault f).
Proof. by destruct c. Qed.

Ltac faultless_solve := faultless_walk; auto using set_next_rip_faultless, jump_to_faultless, on_flags_faultless,
  write_register_operand_faultless, read_register_operand_faultless, on_cpu_faultless, write_register_faultless,
  read_register_faultless, require_controller_faultless with mnos.
(** Walks to the computation that may change something, and checks that what follows it cannot fault. *)
Ltac within_solve := solve [auto using read_operand_within, read_register_operand_within with mnos typeclass_instances].
Ltac restart := unfold require_at_most_one_memory_operand, require_register_operand, require_memory_operand,
  require_locked_memory_destination; repeat (cbn zeta; match goal with
  | |- forall _, _ => intros ?
  | |- fault_within _ (if _ then _ else _) => apply fault_within_if
  | |- fault_within _ _ => first
      [ apply fault_within_bind; [typeclasses eauto|within_solve|]
      | apply fault_within_bind_last; [solve [auto using write_operand_fault_within, push_qword_fault_within,
          pop_qword_fault_within]|intros ?; by faultless_solve]
      | apply within_fault_within; within_solve
      | apply faultless_fault_within; by faultless_solve ]
  end).

Lemma execute_mov_restarts : fault_within undisturbed (execute_mov context i).
Proof. unfold execute_mov. restart. Qed.
Lemma execute_movsx_restarts : fault_within undisturbed (execute_movsx context i).
Proof. unfold execute_movsx. restart. Qed.
Lemma execute_movzx_restarts : fault_within undisturbed (execute_movzx context i).
Proof. unfold execute_movzx. restart. Qed.
Lemma execute_lea_restarts : fault_within undisturbed (execute_lea context i).
Proof. unfold execute_lea. restart. Qed.
Lemma execute_add_restarts : fault_within undisturbed (execute_add context i).
Proof. unfold execute_add. restart. Qed.
Lemma execute_sub_restarts : fault_within undisturbed (execute_sub context i).
Proof. unfold execute_sub. restart. Qed.
Lemma execute_cmp_restarts : fault_within undisturbed (execute_cmp context i).
Proof. unfold execute_cmp. restart. Qed.
Lemma execute_inc_restarts : fault_within undisturbed (execute_inc context i).
Proof. unfold execute_inc. restart. Qed.
Lemma execute_dec_restarts : fault_within undisturbed (execute_dec context i).
Proof. unfold execute_dec. restart. Qed.
Lemma execute_test_restarts : fault_within undisturbed (execute_test context i).
Proof. unfold execute_test. restart. Qed.
Lemma execute_push_restarts : fault_within undisturbed (execute_push context i).
Proof. unfold execute_push. restart. Qed.
Lemma execute_call_restarts : fault_within undisturbed (execute_call context i).
Proof. unfold execute_call. restart. Qed.
Lemma execute_jmp_restarts : fault_within undisturbed (execute_jmp context i).
Proof. unfold execute_jmp. restart. Qed.
Lemma execute_setcc_restarts : fault_within undisturbed (execute_setcc context i).
Proof. unfold execute_setcc. restart. Qed.
Lemma execute_cmovcc_restarts : fault_within undisturbed (execute_cmovcc context i).
Proof.
  unfold execute_cmovcc. restart. apply fault_within_bind_last; [restart|]. intros _. apply set_next_rip_faultless.
Qed.
Lemma execute_bitwise_restarts f : fault_within undisturbed (execute_bitwise context i f).
Proof. unfold execute_bitwise. restart. Qed.

Lemma jump_if_restarts taken : fault_within undisturbed (jump_if context i taken).
Proof. apply fault_within_if; [apply execute_jmp_restarts|]. apply faultless_fault_within, set_next_rip_faultless. Qed.
Lemma execute_je_restarts : fault_within undisturbed (execute_je context i).
Proof. apply fault_within_bind; [typeclasses eauto|apply within_gets; typeclasses eauto|]. apply jump_if_restarts. Qed.
Lemma execute_jne_restarts : fault_within undisturbed (execute_jne context i).
Proof.
  apply fault_within_bind; [typeclasses eauto|apply within_gets; typeclasses eauto|]. intros z. apply jump_if_restarts.
Qed.
Lemma execute_jcc_restarts : fault_within undisturbed (execute_jcc context i).
Proof. apply fault_within_bind; [typeclasses eauto|apply within_lift; typeclasses eauto|]. apply jump_if_restarts. Qed.
Lemma execute_ret_restarts : fault_within undisturbed (execute_ret context).
Proof. unfold execute_ret. restart. Qed.
Lemma execute_pop_restarts : is_memory (first_operand i) = false -> fault_within undisturbed (execute_pop context i).
Proof.
  intros Hm. apply fault_within_bind_last; [apply pop_qword_fault_within|]. intros v.
  apply faultless_bind; [by apply write_operand_faultless|intros _; apply set_next_rip_faultless].
Qed.

(** Traps of an instruction raise no page fault. *)
Lemma trap_restarts {A} (k : TrapController -> M CpuState A) : (forall tc, faultless (k tc)) ->
  fault_within undisturbed (require_trap_controller ≫= fun tc => on_cpu (k tc) ≫= fun _ => mret tt).
Proof.
  intros Hk. apply faultless_fault_within. apply faultless_bind; [apply require_controller_faultless|]. intros tc.
  apply faultless_bind; [by apply on_cpu_faultless|done].
Qed.
Lemma execute_invlpg_restarts : fault_within undisturbed (execute_invlpg context i).
Proof.
  apply fault_within_bind; [typeclasses eauto|apply within_throw_if; typeclasses eauto|]. intros _.
  apply fault_within_bind; [typeclasses eauto|apply within_gets; typeclasses eauto|]. intros s. apply fault_within_if.
  - apply (trap_restarts (fun tc => raise_exception tc _ _)). intros tc. apply raise_exception_faultless.
  - apply faultless_fault_within. faultless_walk; auto using set_next_rip_faultless with mnos.
    apply faultless_lift. intros m f. apply effective_address_no_fault.
Qed.
Lemma execute_int_restarts : fault_within undisturbed (execute_int context i).
Proof.
  apply fault_within_bind; [typeclasses eauto|apply within_throw_if; typeclasses eauto|]. intros _.
  apply fault_within_bind; [typeclasses eauto|apply within_lift; typeclasses eauto|]. intros v.
  apply fault_within_bind; [typeclasses eauto|apply within_throw_if; typeclasses eauto|]. intros _.
  apply (trap_restarts (fun tc => raise_software_interrupt tc _ _)). intros tc. apply dispatch_faultless.
Qed.
Lemma execute_syscall_restarts : fault_within undisturbed (execute_syscall context).
Proof. apply (trap_restarts (fun tc => enter_syscall tc _)). intros tc. apply enter_syscall_faultless. Qed.
Lemma execute_return_restarts {A} (c : M CpuState A) : faultless c ->
  fault_within undisturbed (require_trap_controller ≫= fun _ => on_cpu c).
Proof.
  intros Hc. apply faultless_fault_within, faultless_bind; [apply require_controller_faultless|]. intros _.
  by apply on_cpu_faultless.
Qed.
Lemma execute_cmpxchg_restarts : is_memory (first_operand i) = false ->
  fault_within undisturbed (execute_cmpxchg context i).
Proof.
  intros Hm. apply faultless_fault_within. unfold execute_cmpxchg, require_at_most_one_memory_operand,
    require_register_operand, require_locked_memory_destination.
  faultless_solve; auto using read_operand_faultless, write_operand_faultless.
Qed.
Lemma execute_xadd_restarts : is_memory (first_operand i) = false ->
  fault_within undisturbed (execute_xadd context i).
Proof.
  intros Hm. apply faultless_fault_within. unfold execute_xadd, require_at_most_one_memory_operand,
    require_register_operand, require_locked_memory_destination.
  faultless_solve; auto using read_operand_faultless, write_operand_faultless.
Qed.

(** The instructions that write nothing before their last access to memory. *)
Definition restartable : bool :=
  match opcode i with
  | Op.CMPXCHG | Op.XADD | Op.POP => negb (is_memory (first_operand i))
  | _ => true
  end.

Lemma execute_instruction_restarts : restartable = true ->
  fault_within undisturbed (execute_instruction context i).
Proof.
  unfold restartable, execute_instruction. destruct (opcode i); intros Hr;
    auto using execute_mov_restarts, execute_movsx_restarts, execute_movzx_restarts, execute_lea_restarts,
      execute_add_restarts, execute_sub_restarts, execute_cmp_restarts, execute_inc_restarts, execute_dec_restarts,
      execute_bitwise_restarts, execute_test_restarts, execute_push_restarts, execute_call_restarts,
      execute_ret_restarts, execute_jmp_restarts, execute_je_restarts, execute_jne_restarts, execute_jcc_restarts,
      execute_setcc_restarts, execute_cmovcc_restarts, execute_invlpg_restarts, execute_int_restarts,
      execute_syscall_restarts.
  - apply execute_bitwise_restarts.
  - apply execute_bitwise_restarts.
  - apply execute_bitwise_restarts.
  - apply negb_true_iff in Hr. by apply execute_cmpxchg_restarts.
  - apply negb_true_iff in Hr. by apply execute_xadd_restarts.
  - apply faultless_fault_within, set_next_rip_faultless.
  - apply negb_true_iff in Hr. by apply execute_pop_restarts.
  - apply execute_return_restarts, return_from_syscall_faultless.
  - apply execute_return_restarts, return_from_trap_faultless.
  - apply faultless_fault_within. apply faultless_bind; [apply set_next_rip_faultless|]. intros _.
    apply on_cpu_faultless, faultless_modify.
  - by apply faultless_fault_within, faultless_throw.
Qed.

Lemma attempt_restarts start_rip : restartable = true -> u64 start_rip ->
  fault_within undisturbed (attempt context start_rip i).
Proof.
  intros Hr Hs. apply fault_within_bind; [typeclasses eauto| |intros _].
  { intros m. unfold check_instruction_fetch. munfold_goal. destruct (negb _); [change (undisturbed m m); reflexivity|].
    apply with_bus_undisturbed. intros b _ _. by apply check_access_range_marks. }
  apply fault_within_bind; [typeclasses eauto|apply on_model_M_within|intros _].
  apply fault_within_bind_last; [by apply execute_instruction_restarts|]. intros _. by apply faultless_bind.
Qed.
End instruction.
End machine.

(** ** Restarting a step *)

Section restart.
Context {B : Type} `{MemoryBusLaws B}.
Implicit Types (m : Machine B).

Lemma put_reg_put r v w s : put_reg r v (put_reg r w s) = put_reg r v s.
Proof. destruct s as [[l] ? ? ? ? ? ? ?]. unfold put_reg, set_registers. simpl. by rewrite list_insert_insert_eq. Qed.

(** The processor at the first instruction of the handler, and back. *)
Lemma fault_entry tc s gate stack f : cpu_wf s -> idt_wf (idt tc) ->
  gate_at page_fault_vector (idt tc) = Ok gate -> new_stack tc (target_privilege_level gate) s = Ok stack ->
  exists frame, raise_exception tc page_fault_vector (Some (pf_error_code f)) s = (entered gate stack frame s, Ok frame) /\
    frame = frame_of Trap.EXCEPTION page_fault_vector (rip s) (Some (pf_error_code f)) s /\
    return_from_trap (entered gate stack frame s) = (clear_pending_trap s, Ok tt).
Proof.
  intros Hwf Hidt Hg Hst. set (frame := frame_of Trap.EXCEPTION page_fault_vector (rip s) (Some (pf_error_code f)) s).
  exists frame. split; [|split; [done|]].
  - unfold raise_exception. munfold_goal.
    rewrite dispatch_spec; [|done..|intros g; by apply gate_at_wf]. by rewrite Hg, Hst.
  - rewrite (return_from_trap_spec frame) by (done || apply (cw_level s Hwf)). do 2 f_equal. unfold restored, entered.
    transitivity (clear_pending_trap (set_level (privilege_level s) (set_flags (cpu_flags s)
      (set_rip (rip s) (put_reg Reg.RSP (reg_of Reg.RSP s) (put_reg Reg.RSP stack s)))))).
    { by destruct s as [? [?] ? ? ? ? ? ?]. }
    rewrite put_reg_put, put_reg_same. by destruct s.
Qed.

End restart.

(** ** Witnesses and counterexamples *)

(** A user program that stores into the unmapped page after its own. *)
Definition faulting_store : Instruction := make_mov (OpMemory (absolute 0x6000) Size.QWORD) (OpRegister Reg.RAX Size.QWORD).
Definition user_program : Program := mkProgram (replicate (Z.to_nat 0x5001) faulting_store).
Definition user_state : CpuState :=
  mkCpuState (mkRegisterBank (<[0%nat := 0]> (<[7%nat := 0x5010]> (replicate 16 7)))) (mkRflags 0x202) demo_paging 0 0x5000 Ring.RING3 None false.
Definition user_machine (b : PhysicalMemory) : Machine PhysicalMemory :=
  mkMachine user_state (mkExecutor make_mmu (Some sample_controller) 0) (Some b) None.
Definition user_context (p : Program) : ExecutionContext := mkContext (Some p) None 0x5001.

Lemma user_state_wf : cpu_wf user_state.
Proof. split; [by apply register_bank_check|by split..|done]. Qed.

Definition store_fault : PageFault := mkPageFault 0x6000 AccessKind.WRITE FaultReason.NOT_PRESENT 6.


(** The same page mapped read-only, as a copy-on-write page is. *)
Definition read_only_mapping : (PageTableBuilder * PhysicalMemory) * res unit :=
  map_4k 0x5000 0x3000 user_read_only_execute (demo_builder, demo_memory).
Abbreviation read_only_memory := (read_only_mapping.1.2).

(** The faults of one instruction against the read-only page, and the processor after it. *)
Definition run_read_only (i : Instruction) : CpuState * bool :=
  let run := execute_instruction (user_context user_program) i (user_machine read_only_memory) in
  (cpu run.1, match run.2 with Throw (page_fault _) => true | _ => false end).
Definition protected_qword : Operand := OpMemory (absolute 0x5010) Size.QWORD.

(** The three opcodes left out of the precision theorem really are not precise: against a
    read-only page [lock xadd] has already overwritten its source register when it faults, [pop] to
    memory has already released its stack slot, and [lock cmpxchg] has already changed the flags, so
    a restart after the handler (as copy-on-write needs) computes something else. *)
Theorem three_opcodes_fault_late :
  (let '(s, faulted) := run_read_only (make_xadd protected_qword (OpRegister Reg.RBX Size.QWORD) true) in
   faulted = true /\ reg_of Reg.RBX user_state = 7 /\ reg_of Reg.RBX s = 0) /\
  (let '(s, faulted) := run_read_only (make_pop protected_qword) in
   faulted = true /\ reg_of Reg.RSP user_state = 0x5010 /\ reg_of Reg.RSP s = 0x5018) /\
  (let '(s, faulted) := run_read_only (make_cmpxchg (OpMemory (absolute 0x5038) Size.QWORD)
     (OpRegister Reg.RBX Size.QWORD) true) in
   faulted = true /\ cpu_flags s <> cpu_flags user_state) /\
  (let '(s, faulted) := run_read_only (make_mov protected_qword (OpRegister Reg.RBX Size.QWORD)) in
   faulted = true /\ s = user_state).
Proof. vm_compute. repeat split; congruence. Qed.
