(* ===== verification/ExecutorAlu.v ===== *)
(** * Arithmetic, flags and operand widths of the executor

    The flag updaters against integer arithmetic, the condition codes against integer comparison, and
    the partial-register rules; with the defect of comparisons narrower than 64 bits. *)

From S2P Require Import Prelude Logic Common PhysicalMemory MemoryBus Paging PageTable Tlb Perf Mmu Instruction CpuState Trap Executor.

(** ** Signed words *)

(** The integer a 64-bit word stands for in two's complement. *)
Definition signed64 (v : Z) : Z := if v <? 2 ^ 63 then v else v - W64.

Lemma sign_bit_spec v : u64 v -> has_qword_sign_bit v = negb (v <? 2 ^ 63).
Proof.
  intros [H0 H1]. unfold has_qword_sign_bit. change (shl64 1 63) with (Z.shiftl 1 63).
  rewrite land_single_nonzero by lia. rewrite Z.testbit_eqb by lia.
  destruct (Z.ltb_spec v (2 ^ 63)).
  - by rewrite Z.div_small by lia.
  - replace (v / 2 ^ 63) with 1 by (apply (Z.div_unique _ _ _ (v - 2 ^ 63)); lia). done.
Qed.
Lemma sign_bit_signed v : u64 v -> has_qword_sign_bit v = bool_decide (signed64 v < 0).
Proof.
  intros Hv. rewrite sign_bit_spec by done. unfold signed64. destruct Hv. destruct (Z.ltb_spec v (2 ^ 63)); symmetry;
    [apply bool_decide_false|apply bool_decide_true]; lia.
Qed.

(** ** The updaters *)

Lemma flag_by_case f id v id' : u64 (Common.raw_bits f) -> id <> Flag.COUNT -> id' <> Flag.COUNT ->
  read_flag (write_flag f id v) id' = if bool_decide (id' = id) then v else read_flag f id'.
Proof.
  intros Hf H1 H2. rewrite read_write_flag by done. case_decide; [by rewrite bool_decide_true|by rewrite bool_decide_false].
Qed.
Lemma zsp_u64 f v : u64 (Common.raw_bits f) -> u64 (Common.raw_bits (update_zero_sign_parity_from_qword f v)).
Proof. intros Hf. unfold update_zero_sign_parity_from_qword, update_zero_sign_from_qword. auto with mnos. Qed.
#[local] Hint Resolve zsp_u64 : mnos.

Lemma zsp_flags f v id : u64 (Common.raw_bits f) -> id <> Flag.COUNT ->
  read_flag (update_zero_sign_parity_from_qword f v) id =
  match id with
  | Flag.ZF => v =? 0
  | Flag.SF => has_qword_sign_bit v
  | Flag.PF => has_even_low_byte_parity v
  | _ => read_flag f id
  end.
Proof.
  intros Hf Hid. unfold update_zero_sign_parity_from_qword, update_zero_sign_from_qword. cbn zeta.
  rewrite !flag_by_case by auto with mnos. by destruct id.
Qed.
(** The flags after one and after two writes that follow a zero-sign-parity update. *)
Lemma one_write_flags f v id0 x id : u64 (Common.raw_bits f) -> id0 <> Flag.COUNT -> id <> Flag.COUNT ->
  read_flag (write_flag (update_zero_sign_parity_from_qword f v) id0 x) id =
  if bool_decide (id = id0) then x else read_flag (update_zero_sign_parity_from_qword f v) id.
Proof. intros Hf H0 Hid. by rewrite flag_by_case by auto with mnos. Qed.
Lemma two_write_flags f v c o id : u64 (Common.raw_bits f) -> id <> Flag.COUNT ->
  read_flag (write_flag (write_flag (update_zero_sign_parity_from_qword f v) Flag.CF c) Flag.OF o) id =
  match id with
  | Flag.CF => c
  | Flag.OF => o
  | Flag.ZF => v =? 0
  | Flag.SF => has_qword_sign_bit v
  | Flag.PF => has_even_low_byte_parity v
  | _ => read_flag f id
  end.
Proof.
  intros Hf Hid. rewrite !flag_by_case by auto with mnos. rewrite zsp_flags by done. by destruct id.
Qed.

(** ** Carries and overflows *)

Lemma add_carry l r : u64 l -> u64 r -> (add64 l r <? l) = bool_decide (W64 <= l + r).
Proof.
  intros Hl Hr. destruct (add64_cases l r Hl Hr) as [[Hc ->]|[Hc ->]]; destruct Hl, Hr;
    [rewrite bool_decide_false by lia; apply Z.ltb_ge|rewrite bool_decide_true by lia; apply Z.ltb_lt]; lia.
Qed.
Ltac by_cases := repeat match goal with
  | |- context [?a <? ?b] => destruct (Z.ltb_spec a b)
  | |- context [bool_decide (?P)] => destruct (decide P); [rewrite (bool_decide_true P) by done|rewrite (bool_decide_false P) by done]
  end; cbn; try done; try lia.
Lemma add_overflow l r : u64 l -> u64 r ->
  eqb (has_qword_sign_bit l) (has_qword_sign_bit r) && negb (eqb (has_qword_sign_bit (add64 l r)) (has_qword_sign_bit l)) =
  negb (bool_decide (- 2 ^ 63 <= signed64 l + signed64 r < 2 ^ 63)).
Proof.
  intros Hl Hr. rewrite !sign_bit_spec by auto with mnos. unfold signed64.
  destruct (add64_cases l r Hl Hr) as [[Hc ->]|[Hc ->]]; destruct Hl, Hr; by_cases.
Qed.
Lemma sub_overflow l r : u64 l -> u64 r ->
  negb (eqb (has_qword_sign_bit l) (has_qword_sign_bit r)) &&
    negb (eqb (has_qword_sign_bit (sub64 l r)) (has_qword_sign_bit l)) =
  negb (bool_decide (- 2 ^ 63 <= signed64 l - signed64 r < 2 ^ 63)).
Proof.
  intros Hl Hr. rewrite !sign_bit_spec by auto with mnos. unfold signed64.
  destruct (sub64_cases l r Hl Hr) as [[Hc ->]|[Hc ->]]; destruct Hl, Hr; by_cases.
Qed.
Lemma eqb_bool_decide x y : (x =? y) = bool_decide (x = y).
Proof. destruct (Z.eqb_spec x y); [by rewrite bool_decide_true|by rewrite bool_decide_false]. Qed.
Lemma ltb_bool_decide x y : (x <? y) = bool_decide (x < y).
Proof. destruct (Z.ltb_spec x y); [by rewrite bool_decide_true|by rewrite bool_decide_false by lia]. Qed.
Lemma sub_zero l r : u64 l -> u64 r -> sub64 l r = 0 <-> l = r.
Proof. intros Hl Hr. destruct (sub64_cases l r Hl Hr) as [[Hc ->]|[Hc ->]]; destruct Hl, Hr; lia. Qed.

Lemma update_add_flags f l r id : u64 (Common.raw_bits f) -> u64 l -> u64 r -> id <> Flag.COUNT ->
  read_flag (update_add l r (add64 l r) f) id =
  match id with
  | Flag.CF => bool_decide (W64 <= l + r)
  | Flag.OF => negb (bool_decide (- 2 ^ 63 <= signed64 l + signed64 r < 2 ^ 63))
  | Flag.ZF => bool_decide (add64 l r = 0)
  | Flag.SF => bool_decide (signed64 (add64 l r) < 0)
  | Flag.PF => has_even_low_byte_parity (add64 l r)
  | _ => read_flag f id
  end.
Proof.
  intros Hf Hl Hr Hid. unfold update_add. cbn zeta. rewrite two_write_flags, add_carry, add_overflow by done.
  by rewrite eqb_bool_decide, sign_bit_signed by auto with mnos.
Qed.
Lemma update_sub_flags f l r id : u64 (Common.raw_bits f) -> u64 l -> u64 r -> id <> Flag.COUNT ->
  read_flag (update_sub l r (sub64 l r) f) id =
  match id with
  | Flag.CF => bool_decide (l < r)
  | Flag.OF => negb (bool_decide (- 2 ^ 63 <= signed64 l - signed64 r < 2 ^ 63))
  | Flag.ZF => bool_decide (l = r)
  | Flag.SF => bool_decide (signed64 (sub64 l r) < 0)
  | Flag.PF => has_even_low_byte_parity (sub64 l r)
  | _ => read_flag f id
  end.
Proof.
  intros Hf Hl Hr Hid. unfold update_sub. cbn zeta. rewrite two_write_flags, sub_overflow by done.
  rewrite eqb_bool_decide, ltb_bool_decide, sign_bit_signed by auto with mnos.
  destruct id; try done. apply bool_decide_ext. by apply sub_zero.
Qed.
Lemma inc_overflow l : u64 l ->
  negb (has_qword_sign_bit l) && has_qword_sign_bit (add64 l 1) = bool_decide (signed64 l = 2 ^ 63 - 1).
Proof.
  intros Hl. rewrite !sign_bit_spec by auto with mnos. unfold signed64.
  destruct (add64_cases l 1 Hl) as [[Hc ->]|[Hc ->]]; [done|..]; destruct Hl; by_cases.
Qed.
Lemma dec_overflow l : u64 l ->
  has_qword_sign_bit l && negb (has_qword_sign_bit (sub64 l 1)) = bool_decide (signed64 l = - 2 ^ 63).
Proof.
  intros Hl. rewrite !sign_bit_spec by auto with mnos. unfold signed64.
  destruct (sub64_cases l 1 Hl) as [[Hc ->]|[Hc ->]]; [done|..]; destruct Hl; by_cases.
Qed.

(** What a flag says of a result, whatever the operation. *)
Definition result_flag (f : Rflags) (v : Z) (carry overflow : bool) (id : FlagId) : bool :=
  match id with
  | Flag.CF => carry
  | Flag.OF => overflow
  | Flag.ZF => bool_decide (v = 0)
  | Flag.SF => bool_decide (signed64 v < 0)
  | Flag.PF => has_even_low_byte_parity v
  | _ => read_flag f id
  end.

(** ** Properties *)

(** C24. On 64-bit operands every status flag is exact: carry is the unsigned carry or borrow, overflow
    says that the signed result does not fit, zero, sign and parity describe the result, INC and DEC
    keep the carry, the bitwise operations clear carry and overflow, and the interrupt flag is never
    touched. *)
Theorem qword_flags_are_exact f l r id : u64 (Common.raw_bits f) -> u64 l -> u64 r -> id <> Flag.COUNT ->
  read_flag (update_add l r (add64 l r) f) id = result_flag f (add64 l r) (bool_decide (W64 <= l + r))
    (negb (bool_decide (- 2 ^ 63 <= signed64 l + signed64 r < 2 ^ 63))) id /\
  read_flag (update_sub l r (sub64 l r) f) id = result_flag f (sub64 l r) (bool_decide (l < r))
    (negb (bool_decide (- 2 ^ 63 <= signed64 l - signed64 r < 2 ^ 63))) id /\
  read_flag (update_inc l (add64 l 1) f) id = result_flag f (add64 l 1) (read_flag f Flag.CF)
    (bool_decide (signed64 l = 2 ^ 63 - 1)) id /\
  read_flag (update_dec l (sub64 l 1) f) id = result_flag f (sub64 l 1) (read_flag f Flag.CF)
    (bool_decide (signed64 l = - 2 ^ 63)) id /\
  read_flag (update_logical l f) id = result_flag f l false false id.
Proof.
  intros Hf Hl Hr Hid. split; [|split; [|split; [|split]]].
  - rewrite update_add_flags by done. by destruct id.
  - rewrite update_sub_flags by done. destruct id; try done. simpl. apply bool_decide_ext. by rewrite sub_zero.
  - unfold update_inc. cbn zeta. rewrite one_write_flags, zsp_flags, inc_overflow by done.
    rewrite eqb_bool_decide, sign_bit_signed by auto with mnos. by destruct id.
  - unfold update_dec. cbn zeta. rewrite one_write_flags, zsp_flags, dec_overflow by done.
    rewrite eqb_bool_decide, sign_bit_signed by auto with mnos. by destruct id.
  - unfold update_logical. cbn zeta. rewrite two_write_flags by done.
    rewrite eqb_bool_decide, sign_bit_signed by done. by destruct id.
Qed.

(** What each condition code means after a comparison of [l] with [r]. *)
Definition comparison (c : ConditionCode) (l r : Z) : bool :=
  match c with
  | Cond.O => negb (bool_decide (- 2 ^ 63 <= signed64 l - signed64 r < 2 ^ 63))
  | Cond.NO => bool_decide (- 2 ^ 63 <= signed64 l - signed64 r < 2 ^ 63)
  | Cond.B => bool_decide (l < r)
  | Cond.AE => bool_decide (r <= l)
  | Cond.E => bool_decide (l = r)
  | Cond.NE => bool_decide (l <> r)
  | Cond.BE => bool_decide (l <= r)
  | Cond.A => bool_decide (r < l)
  | Cond.S => bool_decide (signed64 (sub64 l r) < 0)
  | Cond.NS => bool_decide (0 <= signed64 (sub64 l r))
  | Cond.P => has_even_low_byte_parity (sub64 l r)
  | Cond.NP => negb (has_even_low_byte_parity (sub64 l r))
  | Cond.L => bool_decide (signed64 l < signed64 r)
  | Cond.GE => bool_decide (signed64 r <= signed64 l)
  | Cond.LE => bool_decide (signed64 l <= signed64 r)
  | Cond.G => bool_decide (signed64 r < signed64 l)
  | Cond.COUNT => false
  end.

(** The signed order is read off sign and overflow. *)
Lemma signed_less l r : u64 l -> u64 r ->
  negb (eqb (bool_decide (signed64 (sub64 l r) < 0))
            (negb (bool_decide (- 2 ^ 63 <= signed64 l - signed64 r < 2 ^ 63)))) =
  bool_decide (signed64 l < signed64 r).
Proof.
  intros Hl Hr. unfold signed64.
  destruct (sub64_cases l r Hl Hr) as [[Hc ->]|[Hc ->]]; destruct Hl, Hr; by_cases.
Qed.
Lemma signed64_inj l r : u64 l -> u64 r -> signed64 l = signed64 r <-> l = r.
Proof. intros [] []. unfold signed64. destruct (Z.ltb_spec l (2 ^ 63)), (Z.ltb_spec r (2 ^ 63)); lia. Qed.

Lemma condition_after_sub s l r c : u64 (Common.raw_bits (cpu_flags s)) -> u64 l -> u64 r ->
  is_condition_code_valid c = true ->
  evaluate_condition c (set_flags (update_sub l r (sub64 l r) (cpu_flags s)) s) = Ok (comparison c l r).
Proof.
  intros Hf Hl Hr Hc. unfold evaluate_condition. cbn [cpu_flags set_flags].
  rewrite !update_sub_flags by done. pose proof (signed_less l r Hl Hr) as Hs.
  pose proof (signed64_inj l r Hl Hr).
  destruct c; try done; cbn [comparison]; f_equal; rewrite ?negb_involutive; try done;
    repeat match goal with |- context [eqb ?a ?b] => rewrite <- (negb_involutive (eqb a b)), Hs end;
    rewrite ?negb_involutive, <- ?bool_decide_not, <- ?bool_decide_or, <- ?bool_decide_and;
    apply bool_decide_ext; lia.
Qed.

(** ** Register operands *)

Definition width (d : DataSize) : Z := 8 * size_bytes d.

Lemma mask_spec d : is_data_size_valid d = true -> mask_for_data_size d = Ok (Z.ones (width d)).
Proof. by destruct d. Qed.
Lemma width_bounds d : is_data_size_valid d = true -> 8 <= width d <= 64.
Proof. destruct d; intros Hd; try done; unfold width; simpl; lia. Qed.
Lemma width_modulus d : is_data_size_valid d = true -> 0 < 2 ^ width d <= W64.
Proof. by destruct d. Qed.

(** The register after a write of [v] at width [d]: narrower than 32 bits the upper part is kept. *)
Definition merge (d : DataSize) (old v : Z) : Z :=
  if bool_decide (d = Size.QWORD) || bool_decide (d = Size.DWORD) then v `mod` 2 ^ width d
  else old - old `mod` 2 ^ width d + v `mod` 2 ^ width d.

Lemma keep_high old d : u64 old -> is_data_size_valid d = true ->
  Z.land old (not64 (Z.ones (width d))) = old - old `mod` 2 ^ width d.
Proof.
  intros Ho Hd. pose proof (width_bounds d Hd). pose proof (width_modulus d Hd) as [Hp _].
  transitivity (Z.ldiff old (Z.ones (width d))).
  - apply Z.bits_inj'. intros i Hi. rewrite Z.land_spec, Z.ldiff_spec, not64_spec, ones_testbit by lia.
    destruct (Z.ltb_spec i 64); [by rewrite xorb_true_r|]. by rewrite (testbit_u64_high old) by (done || lia).
  - rewrite Z.ldiff_ones_r, Z.shiftl_mul_pow2, Z.shiftr_div_pow2 by lia.
    pose proof (Z.div_mod old (2 ^ width d) ltac:(lia)). lia.
Qed.
Lemma merge_spec old v d : u64 old -> u64 v -> is_data_size_valid d = true ->
  Z.lor (Z.land old (not64 (Z.ones (width d)))) (Z.land v (Z.ones (width d))) =
  old - old `mod` 2 ^ width d + v `mod` 2 ^ width d.
Proof.
  intros Ho Hv Hd. pose proof (width_bounds d Hd) as Hw. rewrite <- keep_high, <- Z.land_ones by (done || lia).
  set (w := width d) in *. symmetry. rewrite <- Z.lxor_lor, Z.add_nocarry_lxor; [done|..];
    apply Z.bits_inj'; intros i Hi; rewrite ?Z.land_spec, not64_spec, ones_testbit, Z.bits_0 by lia;
    destruct (Z.ltb_spec i w), (Z.ltb_spec i 64); try lia; simpl; by rewrite ?andb_false_r.
Qed.
Lemma merge_u64 d old v : is_data_size_valid d = true -> u64 old -> u64 v -> u64 (merge d old v).
Proof.
  intros Hd Ho Hv. pose proof (width_modulus d Hd) as [Hp Hle]. pose proof (Z.mod_pos_bound v (2 ^ width d) Hp).
  unfold merge. destruct (_ || _); [split; lia|]. rewrite <- merge_spec by done.
  rewrite Z.land_ones by (pose proof (width_bounds d Hd); lia).
  apply u64_lor; [|split; lia]. apply u64_land; [done|]. apply u64_not64.
  pose proof (width_bounds d Hd). rewrite Z.ones_equiv. split; lia.
Qed.
Lemma merge_low d old v : is_data_size_valid d = true -> merge d old v `mod` 2 ^ width d = v `mod` 2 ^ width d.
Proof.
  intros Hd. pose proof (width_modulus d Hd) as [Hp _]. unfold merge. destruct (_ || _); [by rewrite Z.mod_mod by lia|].
  pose proof (Z.div_mod old (2 ^ width d) ltac:(lia)).
  replace (old - old `mod` 2 ^ width d + v `mod` 2 ^ width d)
    with (v `mod` 2 ^ width d + old / 2 ^ width d * 2 ^ width d) by lia.
  rewrite Z.mod_add by lia. by rewrite Z.mod_mod by lia.
Qed.

Section registers.
Context {B : Type} `{MemoryBus B}.
Implicit Types (m : Machine B).

Lemma set_cpu_id m : set_cpu (cpu m) m = m.
Proof. by destruct m. Qed.
Lemma read_register_operand_eq r d m : is_register_id_valid r = true -> is_data_size_valid d = true ->
  read_register_operand (OpRegister r d) m = (m, Ok (reg_of r (cpu m) `mod` 2 ^ width d)).
Proof.
  intros Hr Hd. unfold read_register_operand, on_cpu. munfold_goal. cbn [register_id register_data_size].
  rewrite read_register_eq, set_cpu_id, mask_spec by done. pose proof (width_bounds d Hd).
  by rewrite Z.land_ones by lia.
Qed.
Lemma write_register_operand_eq r d v m : is_register_id_valid r = true -> is_data_size_valid d = true ->
  register_bank_wf (cpu_registers (cpu m)) -> u64 v ->
  write_register_operand (OpRegister r d) v m = (set_cpu (put_reg r (merge d (reg_of r (cpu m)) v) (cpu m)) m, Ok tt).
Proof.
  intros Hr Hd Hwf Hv. unfold write_register_operand, on_cpu. munfold_goal. cbn [register_id register_data_size].
  rewrite mask_spec by done. pose proof (width_bounds d Hd). unfold merge.
  destruct (_ || _) eqn:Hq.
  - munfold_goal. by rewrite write_register_eq, Z.land_ones by (done || lia).
  - munfold_goal. rewrite read_register_eq, set_cpu_id by done.
    rewrite write_register_eq, merge_spec by (done || by apply reg_of_u64). done.
Qed.
End registers.

Lemma sign_extend_spec v d : u64 v -> is_data_size_valid d = true ->
  exists w, sign_extend_value v d = Ok w /\ u64 w /\
    signed64 w = (if v `mod` 2 ^ width d <? 2 ^ (width d - 1) then v `mod` 2 ^ width d
                  else v `mod` 2 ^ width d - 2 ^ width d).
Proof.
  intros Hv Hd. unfold sign_extend_value. munfold_goal. rewrite mask_spec by done.
  pose proof (width_bounds d Hd) as Hw. pose proof (width_modulus d Hd) as [Hp Hle].
  assert (Hsi : sign_bit_index_for_data_size d = Ok (width d - 1)) by by destruct d. rewrite Hsi.
  assert (Hsm : shl64 1 (width d - 1) = Z.shiftl 1 (width d - 1)) by by destruct d. rewrite Hsm.
  rewrite Z.land_ones by lia. set (x := v `mod` 2 ^ width d).
  assert (Hx : 0 <= x < 2 ^ width d) by by apply Z.mod_pos_bound.
  rewrite <- (negb_involutive (_ =? 0)), land_single_nonzero by lia. rewrite Z.testbit_eqb by lia.
  assert (Hpow : 2 ^ width d = 2 * 2 ^ (width d - 1)) by (rewrite <- Z.pow_succ_r by lia; f_equal; lia).
  assert (H63 : 2 ^ (width d - 1) <= 2 ^ 63) by (apply Z.pow_le_mono_r; lia).
  destruct (Z.ltb_spec x (2 ^ (width d - 1))) as [Hlt|Hge].
  - rewrite Z.div_small by lia. cbn [negb Z.modulo Z.eqb]. exists x. split; [done|]. split; [split; lia|].
    unfold signed64. destruct (Z.ltb_spec x (2 ^ 63)); lia.
  - replace (x / 2 ^ (width d - 1)) with 1 by (apply (Z.div_unique _ _ _ (x - 2 ^ (width d - 1))); lia).
    cbn. exists (Z.lor x (not64 (Z.ones (width d)))).
    assert (He : Z.lor x (not64 (Z.ones (width d))) = W64 - 2 ^ width d + x).
    { transitivity (Z.lor (Z.land (W64 - 1) (not64 (Z.ones (width d)))) (Z.land v (Z.ones (width d)))).
      { rewrite Z.land_ones by lia. fold x. rewrite Z.lor_comm. f_equal. by destruct d. }
      rewrite merge_spec by done. fold x. f_equal. by destruct d. }
    rewrite He. split; [done|]. split; [split; lia|]. unfold signed64.
    destruct (Z.ltb_spec (W64 - 2 ^ width d + x) (2 ^ 63)); lia.
Qed.

Section machine.
Context {B : Type} `{MemoryBus B}.
Implicit Types (m : Machine B).

(** A register operand is exact at every width: a write keeps the value modulo the width, clears
    the upper half at 32 bits and keeps the bits above at 8 and 16, touches no other register, and
    reads back; and MOVSX's extension preserves the signed value of the source. *)
Theorem register_operand_widths r d v m : is_register_id_valid r = true -> is_data_size_valid d = true ->
  register_bank_wf (cpu_registers (cpu m)) -> u64 v ->
  let m' := set_cpu (put_reg r (merge d (reg_of r (cpu m)) v) (cpu m)) m in
  write_register_operand (OpRegister r d) v m = (m', Ok tt) /\
  register_bank_wf (cpu_registers (cpu m')) /\
  read_register_operand (OpRegister r d) m' = (m', Ok (v `mod` 2 ^ width d)) /\
  (forall r', r' <> r -> reg_of r' (cpu m') = reg_of r' (cpu m)) /\
  (exists w, sign_extend_value v d = Ok w /\ u64 w /\
     signed64 w = (if v `mod` 2 ^ width d <? 2 ^ (width d - 1) then v `mod` 2 ^ width d
                   else v `mod` 2 ^ width d - 2 ^ width d)).
Proof.
  intros Hr Hd Hwf Hv m'. split; [by apply write_register_operand_eq|].
  split; [apply put_reg_wf; [apply merge_u64; [done|by apply reg_of_u64|done]|done]|].
  split; [|split; [|by apply sign_extend_spec]].
  - rewrite read_register_operand_eq by done. do 2 f_equal. unfold m'. cbn [cpu set_cpu].
    rewrite (reg_of_put r) by done. case_decide; [|done]. by apply merge_low.
  - intros r' Hne. by apply reg_of_put_ne.
Qed.

(** One comparison, at the level of the instruction. *)
Lemma execute_cmp_eq context i m m1 m2 l r : opcode i = Op.CMP ->
  is_memory (first_operand i) && is_memory (second_operand i) = false ->
  read_operand (first_operand i) m = (m1, Ok l) -> read_operand (second_operand i) m1 = (m2, Ok r) ->
  execute_instruction context i m =
    (set_cpu (set_rip (next_rip context) (set_flags (update_sub l r (sub64 l r) (cpu_flags (cpu m2))) (cpu m2))) m2, Ok tt).
Proof.
  intros Ho Hm H1 H2. unfold execute_instruction. rewrite Ho. unfold execute_cmp, require_at_most_one_memory_operand.
  munfold_goal. rewrite Hm, H1, H2. done.
Qed.

(** A comparison followed by a conditional jump decides as the two values compare: whatever the
    operands, registers, immediates or memory, after CMP of the 64-bit values [l] and [r] each condition
    code holds exactly when the comparison it is named after does, unsigned for B, AE, BE, A and
    signed for L, GE, LE, G, and Jcc goes to its target in exactly that case; CMP itself changes only
    the flags and the instruction pointer. *)
Theorem compare_then_jump context i m m1 m2 l r : opcode i = Op.CMP ->
  is_memory (first_operand i) && is_memory (second_operand i) = false ->
  read_operand (first_operand i) m = (m1, Ok l) -> read_operand (second_operand i) m1 = (m2, Ok r) ->
  u64 l -> u64 r -> u64 (Common.raw_bits (cpu_flags (cpu m2))) ->
  exists m3, execute_instruction context i m = (m3, Ok tt) /\ rip (cpu m3) = next_rip context /\
    cpu_registers (cpu m3) = cpu_registers (cpu m2) /\ memory_bus m3 = memory_bus m2 /\
    forall c context' target j, make_jcc c (imm target) = Ok j ->
      match program context' with Some p => program_contains_rip p (wrap64 target) | None => true end = true ->
      match image context' with Some g => image_contains_rip g (wrap64 target) | None => true end = true ->
      exists m4, execute_instruction context' j m3 = (m4, Ok tt) /\
        rip (cpu m4) = if comparison c l r then wrap64 target else next_rip context'.
Proof.
  intros Ho Hm H1 H2 Hl Hr Hf. rewrite (execute_cmp_eq context i m m1 m2 l r) by done.
  eexists. split; [reflexivity|]. do 3 (split; [done|]). intros c context' target j Hj Hp Hg.
  unfold make_jcc, require_condition_code in Hj. munfold. destruct (is_condition_code_valid c) eqn:Hc; [|done].
  injection Hj as <-. unfold execute_instruction. cbn [opcode]. unfold execute_jcc. munfold_goal. cbn [condition_code cpu set_cpu].
  pose proof (condition_after_sub (cpu m2) l r c Hf Hl Hr Hc) as Hcond.
  assert (Hev : evaluate_condition c (set_rip (next_rip context)
    (set_flags (update_sub l r (sub64 l r) (cpu_flags (cpu m2))) (cpu m2))) = Ok (comparison c l r)) by exact Hcond.
  rewrite Hev. unfold jump_if. destruct (comparison c l r); [|by eexists].
  unfold execute_jmp, jump_to. munfold_goal. cbn [first_operand read_operand imm]. munfold_goal.
  destruct (program context') as [p|]; [rewrite Hp|]; cbn [negb];
    (destruct (image context') as [g|]; [rewrite Hg|]); cbn [negb]; by eexists.
Qed.

(** A defect of the narrow widths, where operands are masked but immediates are sign extended to 64
    bits and the flags are computed on 64 bits: a 32-bit comparison of a register with a negative
    immediate never finds them equal, even when the register holds exactly the 32 bits of the
    immediate, so that [cmp eax, -1; je] never jumps. *)
Theorem dword_compare_negative_never_equal context r v m : is_register_id_valid r = true ->
  register_bank_wf (cpu_registers (cpu m)) -> u64 (Common.raw_bits (cpu_flags (cpu m))) -> - 2 ^ 31 <= v < 0 ->
  reg_of r (cpu m) `mod` 2 ^ 32 = v `mod` 2 ^ 32 ->
  exists m', execute_instruction context (make_cmp (OpRegister r Size.DWORD) (imm v)) m = (m', Ok tt) /\
    evaluate_condition Cond.E (cpu m') = Ok false.
Proof.
  intros Hr Hwf Hf Hv Heq. pose proof (Z.mod_pos_bound (reg_of r (cpu m)) (2 ^ 32)).
  rewrite (execute_cmp_eq _ _ m m m (reg_of r (cpu m) `mod` 2 ^ 32) (wrap64 v));
    [|done..|exact (read_register_operand_eq r Size.DWORD m Hr eq_refl)|done].
  eexists. split; [done|].
  pose proof (condition_after_sub (cpu m) (reg_of r (cpu m) `mod` 2 ^ 32) (wrap64 v) Cond.E Hf) as Hc.
  etransitivity; [apply Hc; [split; lia|apply wrap64_range|done]|]. cbn [comparison]. f_equal.
  apply bool_decide_false. unfold wrap64. replace (v `mod` W64) with (v + W64); [lia|].
  apply (Z.mod_unique _ _ (-1)); lia.
Qed.
End machine.

(** ** Witnesses *)

Lemma qword_flags_are_exact_witness :
  read_flag (update_add (W64 - 1) 1 (add64 (W64 - 1) 1) (mkRflags 0x202)) Flag.CF = true /\
  read_flag (update_sub (2 ^ 63) 1 (sub64 (2 ^ 63) 1) (mkRflags 0x202)) Flag.OF = true.
Proof.
  split.
  - exact (proj1 (qword_flags_are_exact (mkRflags 0x202) (W64 - 1) 1 Flag.CF
      ltac:(by split) ltac:(by split) ltac:(by split) ltac:(done))).
  - exact (proj1 (proj2 (qword_flags_are_exact (mkRflags 0x202) (2 ^ 63) 1 Flag.OF
      ltac:(by split) ltac:(by split) ltac:(by split) ltac:(done)))).
Defined.

(** RBX holds 0x1122334455667788; memory is absent. *)
Definition sample_machine : Machine PhysicalMemory :=
  mkMachine (mkCpuState (mkRegisterBank (<[1%nat := 0x1122334455667788]> (replicate 16 0xFFFFFFFF))) (mkRflags 0x202)
    make_paging_state 0 0 Ring.RING0 None false) make_executor None None.
Lemma sample_bank_wf : register_bank_wf (cpu_registers (cpu sample_machine)).
Proof. by apply register_bank_check. Qed.

Lemma register_operand_widths_witness :
  write_register_operand (OpRegister Reg.RBX Size.BYTE) 0x1FF sample_machine =
    (set_cpu (put_reg Reg.RBX 0x11223344556677FF (cpu sample_machine)) sample_machine, Ok tt).
Proof.
  exact (proj1 (register_operand_widths Reg.RBX Size.BYTE 0x1FF sample_machine eq_refl eq_refl sample_bank_wf
    ltac:(by split))).
Defined.

Definition sample_context : ExecutionContext := mkContext None None 1.
Lemma compare_then_jump_witness :
  exists m3 m4 j, execute_instruction sample_context
      (make_cmp (OpRegister Reg.RBX Size.QWORD) (OpRegister Reg.RCX Size.QWORD)) sample_machine = (m3, Ok tt) /\
    make_jcc Cond.G (imm 0x40) = Ok j /\ execute_instruction sample_context j m3 = (m4, Ok tt) /\ rip (cpu m4) = 0x40.
Proof.
  destruct (compare_then_jump sample_context (make_cmp (OpRegister Reg.RBX Size.QWORD) (OpRegister Reg.RCX Size.QWORD))
    sample_machine sample_machine sample_machine 0x1122334455667788 0xFFFFFFFF
    eq_refl eq_refl eq_refl eq_refl ltac:(by split) ltac:(by split) ltac:(by split))
    as (m3 & H1 & _ & _ & _ & Hj).
  destruct (Hj Cond.G sample_context 0x40 _ eq_refl eq_refl eq_refl) as (m4 & H2 & H3).
  exists m3, m4. eexists. split; [exact H1|]. split; [reflexivity|]. split; [exact H2|exact H3].
Defined.

Lemma dword_compare_negative_never_equal_witness :
  exists m', execute_instruction sample_context (make_cmp (OpRegister Reg.RCX Size.DWORD) (imm (-1))) sample_machine = (m', Ok tt) /\
    evaluate_condition Cond.E (cpu m') = Ok false.
Proof.
  exact (dword_compare_negative_never_equal sample_context Reg.RCX (-1) sample_machine eq_refl sample_bank_wf
    ltac:(by split) ltac:(lia) eq_refl).
Defined.
