(* ===== verification/ExecutorStack.v ===== *)
(** * The stack of the executor

    PUSH, POP, CALL and RET with paging off, over any memory bus. *)

From S2P Require Import Prelude Logic Common PhysicalMemory MemoryBus Paging PageTable Tlb Perf Mmu Instruction CpuState Trap Executor.

Section stack.
Context {B : Type} `{MemoryBusLaws B}.
Implicit Types (m : Machine B) (b : B).

(** The machine after the performance model has seen an access. *)
Definition observed (f : Stage8PerformanceModel -> Stage8PerformanceModel) m : Machine B :=
  set_executor (on_executor_mmu (on_model f) (executor m)) m.

Lemma unpaged_write m b b' p a d v : paging_enabled (cpu_paging (cpu m)) = false -> is_data_size_valid d = true ->
  memory_bus m = Some b -> bus_write b a d v = Ok b' ->
  with_memory_bus (mmu_write (cpu_paging (cpu m)) p a d v) m =
    (set_bus (Some b') (observed (record_data_write a (size_bytes d)) m), Ok tt).
Proof.
  intros Hpg Hd Hb Hw. unfold with_memory_bus, mmu_write, mmu_translate, mmu_record_data_write, on_mmu, on_memory,
    bus_write_M. rewrite Hb, Hpg, data_size_to_bytes_valid by done. cbn [negb orb]. munfold_goal. cbn [fst snd].
  by rewrite Hw.
Qed.
Lemma unpaged_read m b p a d v : paging_enabled (cpu_paging (cpu m)) = false -> is_data_size_valid d = true ->
  memory_bus m = Some b -> bus_read b a d = Ok v ->
  with_memory_bus (mmu_read (cpu_paging (cpu m)) p a d) m =
    (set_bus (Some b) (observed (record_data_read a (size_bytes d)) m), Ok v).
Proof.
  intros Hpg Hd Hb Hw. unfold with_memory_bus, mmu_read, mmu_translate, mmu_record_data_read, on_mmu.
  rewrite Hb, Hpg, data_size_to_bytes_valid by done. cbn [negb orb]. munfold_goal. by rewrite Hw.
Qed.

Lemma set_cpu_same m : set_cpu (cpu m) m = m.
Proof. by destruct m. Qed.

(** One slot pushed and one popped. *)
Lemma push_qword_eq m b b' v : paging_enabled (cpu_paging (cpu m)) = false -> memory_bus m = Some b ->
  bus_write b (sub64 (reg_of Reg.RSP (cpu m)) 8) Size.QWORD v = Ok b' ->
  exists m', push_qword v m = (m', Ok tt) /\ memory_bus m' = Some b' /\ trace m' = trace m /\
    cpu m' = put_reg Reg.RSP (sub64 (reg_of Reg.RSP (cpu m)) 8) (cpu m).
Proof.
  intros Hpg Hb Hw. unfold push_qword, on_cpu, EXECUTOR_STACK_SLOT_BYTES. munfold_goal.
  rewrite read_register_eq, set_cpu_same by done.
  rewrite (unpaged_write m b b') by done. cbn [cpu set_bus observed set_executor].
  rewrite write_register_eq by done. by eexists.
Qed.
Lemma pop_qword_eq m b v : paging_enabled (cpu_paging (cpu m)) = false -> memory_bus m = Some b ->
  bus_read b (reg_of Reg.RSP (cpu m)) Size.QWORD = Ok v ->
  exists m', pop_qword m = (m', Ok v) /\ memory_bus m' = Some b /\ trace m' = trace m /\
    cpu m' = put_reg Reg.RSP (add64 (reg_of Reg.RSP (cpu m)) 8) (cpu m).
Proof.
  intros Hpg Hb Hw. unfold pop_qword, on_cpu, EXECUTOR_STACK_SLOT_BYTES. munfold_goal.
  rewrite read_register_eq, set_cpu_same by done.
  rewrite (unpaged_read m b _ _ _ v) by done. cbn [cpu set_bus observed set_executor].
  rewrite write_register_eq by done. by eexists.
Qed.
Lemma sub_add_slot v : u64 v -> add64 (sub64 v 8) 8 = v.
Proof.
  intros Hv. unfold add64, sub64, wrap64. rewrite Zplus_mod_idemp_l. replace (v - 8 + 8) with v by lia.
  by apply Z.mod_small.
Qed.

(** CALL and RET nest.  With paging off and the slot below the stack pointer inside memory, CALL
    jumps to its target with the return address in that slot, eight bytes lower, and changes no other
    byte, register or flag; and whatever the callee does, if it leaves the stack pointer and the slot
    as they were, its RET resumes exactly after the call with the stack pointer as before the call. *)
Theorem call_then_return context i m m1 target b : opcode i = Op.CALL ->
  read_operand (first_operand i) m = (m1, Ok target) -> memory_bus m1 = Some b -> bus_ok b ->
  paging_enabled (cpu_paging (cpu m1)) = false -> register_bank_wf (cpu_registers (cpu m1)) ->
  u64 (next_rip context) ->
  let slot := sub64 (reg_of Reg.RSP (cpu m1)) 8 in
  slot + 8 <= bus_size b ->
  match program context with Some p => program_contains_rip p target | None => true end = true ->
  match image context with Some g => image_contains_rip g target | None => true end = true ->
  exists m2 b2, execute_instruction context i m = (m2, Ok tt) /\ memory_bus m2 = Some b2 /\
    cpu m2 = set_rip target (put_reg Reg.RSP slot (cpu m1)) /\
    (forall x, 0 <= x -> x < slot \/ slot + 8 <= x -> bus_byte b2 x = bus_byte b x) /\
    forall context' m3 b3, memory_bus m3 = Some b3 -> paging_enabled (cpu_paging (cpu m3)) = false ->
      reg_of Reg.RSP (cpu m3) = slot -> bus_read b3 slot Size.QWORD = bus_read b2 slot Size.QWORD ->
      match program context' with Some p => program_contains_rip p (next_rip context) | None => true end = true ->
      match image context' with Some g => image_contains_rip g (next_rip context) | None => true end = true ->
      exists m4, execute_instruction context' make_ret m3 = (m4, Ok tt) /\ memory_bus m4 = Some b3 /\
        cpu m4 = set_rip (next_rip context) (put_reg Reg.RSP (reg_of Reg.RSP (cpu m1)) (cpu m3)).
Proof.
  intros Ho Hread Hb Hok Hpg Hregs Hnext slot Hslot Hp Hg.
  assert (Hs0 : 0 <= slot) by apply sub64_range.
  destruct (bus_write_in b slot Size.QWORD (next_rip context)) as (b2 & Hw & Hok2 & Hsz & Hbytes); [done..|].
  destruct (push_qword_eq m1 b b2 (next_rip context)) as (m2 & Hpush & Hb2 & _ & Hc2); [done..|].
  exists (set_cpu (set_rip target (cpu m2)) m2), b2. split; [|split; [done|split; [|split]]].
  - unfold execute_instruction. rewrite Ho. unfold execute_call, jump_to, on_cpu. munfold_goal. rewrite Hread, Hpush.
    destruct (program context) as [p|]; [rewrite Hp|]; cbn [negb]; (destruct (image context) as [g|]; [rewrite Hg|]); done.
  - cbn [cpu set_cpu]. by rewrite Hc2.
  - intros x Hx Hout. rewrite Hbytes by done. rewrite decide_False; [done|]. simpl. lia.
  - intros context' m3 b3 Hb3 Hpg3 Hrsp Hsame Hp' Hg'.
    assert (Hr3 : bus_read b3 (reg_of Reg.RSP (cpu m3)) Size.QWORD = Ok (next_rip context)).
    { rewrite Hrsp, Hsame, (bus_read_write_same b slot Size.QWORD (next_rip context) b2) by done.
      f_equal. by apply Z.mod_small. }
    destruct (pop_qword_eq m3 b3 (next_rip context)) as (m4 & Hpop & Hb4 & _ & Hc4); [done..|].
    exists (set_cpu (set_rip (next_rip context) (cpu m4)) m4). split; [|split; [done|]].
    + unfold execute_instruction. cbn [opcode make_ret instr]. unfold execute_ret, jump_to, on_cpu. munfold_goal.
      rewrite Hpop. destruct (program context') as [p|]; [rewrite Hp'|]; cbn [negb];
        (destruct (image context') as [g|]; [rewrite Hg'|]); done.
    + cbn [cpu set_cpu]. rewrite Hc4, Hrsp. unfold slot. rewrite sub_add_slot by by apply reg_of_u64. done.
Qed.
End stack.

(** ** Witness *)

Definition call_machine : Machine PhysicalMemory :=
  mkMachine (mkCpuState (mkRegisterBank (<[7%nat := 0x20]> (replicate 16 0))) (mkRflags 0) make_paging_state 0 4
    Ring.RING0 None false) make_executor (Some (make_memory 0x40)) None.
Lemma call_memory_ok : bus_ok (make_memory 0x40).
Proof. split; [by apply Forall_replicate|done]. Qed.
Definition call_context : ExecutionContext := mkContext None None 5.
Lemma call_then_return_witness :
  exists m2 m4, execute_instruction call_context (make_call (imm 0x30)) call_machine = (m2, Ok tt) /\
    rip (cpu m2) = 0x30 /\ execute_instruction call_context make_ret m2 = (m4, Ok tt) /\ rip (cpu m4) = 5 /\
    reg_of Reg.RSP (cpu m4) = 0x20.
Proof.
  destruct (call_then_return (B := PhysicalMemory) call_context (make_call (imm 0x30)) call_machine call_machine 0x30 (make_memory 0x40)
    eq_refl eq_refl eq_refl call_memory_ok eq_refl ltac:(by apply register_bank_check) ltac:(by split)
    ltac:(by vm_compute) eq_refl eq_refl) as (m2 & b2 & H1 & Hb & Hc & _ & Hret).
  destruct (Hret call_context m2 b2 Hb ltac:(by rewrite Hc) ltac:(by rewrite Hc) eq_refl eq_refl eq_refl)
    as (m4 & H4 & _ & Hc4).
  exists m2, m4. split; [exact H1|]. split; [by rewrite Hc|]. split; [exact H4|]. by rewrite Hc4, Hc.
Defined.
