(* ===== verification/Thread.v ===== *)
(** * Threads

    Models src/os/sched/thread_context.cpp.  Queues hold pointers to thread contexts that other
    objects own and change, so the contexts live in a store, [Threads], indexed by reference; an
    operation of a queue works on the store and the queue together. *)

From S2P Require Import Prelude Logic Common Page CpuState.

Module TState.
(* [include/mnos/os/sched/thread_state.hpp] [ThreadState] *)
Inductive ThreadState : Set := READY | RUNNING | BLOCKED | DEAD | COUNT.
End TState.
Abbreviation ThreadState := TState.ThreadState.
#[export] Instance ThreadState_eq_dec : EqDecision ThreadState.
Proof. solve_decision. Defined.

(* [src/os/sched/thread_state.cpp] [is_thread_state_valid] *)
Definition is_thread_state_valid (s : ThreadState) : bool := match s with TState.COUNT => false | _ => true end.

Definition THREAD_ID_INVALID_VALUE : Z := 0.
(* [include/mnos/os/sched/thread_id.hpp] [ThreadId::is_valid] [37-40] *)
Definition thread_id_is_valid (id : Z) : bool := negb (id =? THREAD_ID_INVALID_VALUE).

(* [include/mnos/os/sched/thread_context.hpp] [ThreadContext] *)
Record ThreadContext : Set := mkThread {
  thread_id : Z;
  thread_state : ThreadState;
  thread_cpu_state : CpuState;
  kernel_stack_bottom : Z;
  kernel_stack_top : Z;
  kernel_stack_size_bytes : Z;
  last_trap_frame : option TrapFrame;
}.
Definition set_thread_state (s : ThreadState) (t : ThreadContext) : ThreadContext :=
  mkThread (thread_id t) s (thread_cpu_state t) (kernel_stack_bottom t) (kernel_stack_top t)
    (kernel_stack_size_bytes t) (last_trap_frame t).
Definition set_thread_cpu (c : CpuState) (t : ThreadContext) : ThreadContext :=
  mkThread (thread_id t) (thread_state t) c (kernel_stack_bottom t) (kernel_stack_top t)
    (kernel_stack_size_bytes t) (last_trap_frame t).
Definition set_last_trap_frame (f : option TrapFrame) (t : ThreadContext) : ThreadContext :=
  mkThread (thread_id t) (thread_state t) (thread_cpu_state t) (kernel_stack_bottom t) (kernel_stack_top t)
    (kernel_stack_size_bytes t) f.

(* [src/os/sched/thread_context.cpp] [is_valid_stack_size] *)
Definition is_valid_stack_size (stack_size_bytes : Z) : bool :=
  negb (stack_size_bytes =? 0) && is_page_aligned stack_size_bytes.
(* [src/os/sched/thread_context.cpp] [checked_stack_top] *)
Definition checked_stack_top (stack_bottom stack_size_bytes : Z) : res Z :=
  if negb (is_page_aligned stack_bottom) then Throw invalid_argument
  else if negb (is_valid_stack_size stack_size_bytes) then Throw invalid_argument
  else if sub64 (W64 - 1) stack_size_bytes <? stack_bottom then Throw overflow_error
  else Ok (add64 stack_bottom stack_size_bytes).
(* [src/os/sched/thread_context.cpp] [ThreadContext::initialize_cpu_stack_pointer] *)
Definition initialize_cpu_stack_pointer (t : ThreadContext) : ThreadContext :=
  set_thread_cpu (put_reg Reg.RSP (kernel_stack_top t) (thread_cpu_state t)) t.
(* [src/os/sched/thread_context.cpp] [ThreadContext::ThreadContext #2] *)
Definition make_thread (id kernel_stack_bottom kernel_stack_size_bytes : Z) : res ThreadContext :=
  top ← checked_stack_top kernel_stack_bottom kernel_stack_size_bytes;
  if negb (thread_id_is_valid id) then Throw invalid_argument
  else Ok (initialize_cpu_stack_pointer
    (mkThread id TState.READY make_cpu_state kernel_stack_bottom top kernel_stack_size_bytes None)).
(* [src/os/sched/thread_context.cpp] [ThreadContext::set_state] *)
Definition set_state (s : ThreadState) : M ThreadContext unit := fun t =>
  if negb (is_thread_state_valid s) then (t, Throw invalid_argument) else (set_thread_state s t, Ok tt).
(* [src/os/sched/thread_context.cpp] [ThreadContext::is_runnable] *)
Definition is_runnable (t : ThreadContext) : bool := bool_decide (thread_state t = TState.READY).
(* [src/os/sched/thread_context.cpp] [ThreadContext::is_alive] *)
Definition is_alive (t : ThreadContext) : bool := negb (bool_decide (thread_state t = TState.DEAD)).
(* [src/os/sched/thread_context.cpp] [ThreadContext::contains_kernel_stack_address] *)
Definition contains_kernel_stack_address (t : ThreadContext) (address : Z) : bool :=
  (kernel_stack_bottom t <=? address) && (address <? kernel_stack_top t).
(* [src/os/sched/thread_context.cpp] [ThreadContext::last_trap_frame] *)
Definition get_last_trap_frame (t : ThreadContext) : res TrapFrame :=
  match last_trap_frame t with Some f => Ok f | None => Throw logic_error end.
(* [src/os/sched/thread_context.cpp] [ThreadContext::snapshot_pending_trap_frame] *)
Definition snapshot_pending_trap_frame : M ThreadContext bool := fun t =>
  if negb (has_pending_trap (thread_cpu_state t)) then (t, Ok false)
  else match get_pending_trap (thread_cpu_state t) with
       | Ok f => (set_last_trap_frame (Some f) t, Ok true)
       | Throw e => (t, Throw e)
       end.
(* [src/os/sched/thread_context.cpp] [ThreadContext::clear_last_trap_frame] *)
Definition clear_last_trap_frame : ThreadContext -> ThreadContext := set_last_trap_frame None.
(* [src/os/sched/thread_context.cpp] [ThreadContext::reset_cpu_state] *)
Definition reset_cpu_state (t : ThreadContext) : ThreadContext :=
  initialize_cpu_stack_pointer (set_last_trap_frame None (set_thread_cpu (cpu_reset (thread_cpu_state t)) t)).

(** A constructed thread has a page-aligned, non-empty stack below its top, and starts with RSP
    there. *)
Lemma make_thread_stack id bottom size t : u64 bottom -> u64 size -> make_thread id bottom size = Ok t ->
  kernel_stack_top t = bottom + size /\ bottom < kernel_stack_top t < W64 /\
  reg_of Reg.RSP (thread_cpu_state t) = kernel_stack_top t /\ thread_state t = TState.READY.
Proof.
  intros Hb Hz. unfold make_thread, checked_stack_top, is_valid_stack_size. munfold_goal.
  destruct (negb (is_page_aligned bottom)); [done|].
  destruct (Z.eqb_spec size 0) as [|Hn]; [done|]. cbn [negb andb]. destruct (is_page_aligned size); [|done]. cbn [negb].
  destruct (Z.ltb_spec (sub64 (W64 - 1) size) bottom) as [|Hle]; [done|]. destruct (negb _); [done|].
  intros [= <-]. unfold u64 in *. rewrite sub64_small in Hle by lia.
  cbn [kernel_stack_top thread_cpu_state thread_state initialize_cpu_stack_pointer set_thread_cpu].
  rewrite add64_small by lia. split_and!; try lia; done.
Qed.

(** ** The store *)

Abbreviation ThreadRef := Z (only parsing).
Abbreviation Threads := (gmap Z ThreadContext) (only parsing).

(** The state read through a pointer; a dangling pointer, which the code never follows, reads as a
    dead thread. *)
Definition state_of (ts : Threads) (p : ThreadRef) : ThreadState :=
  match ts !! p with Some t => thread_state t | None => TState.DEAD end.
Definition runnable (ts : Threads) (p : ThreadRef) : bool := bool_decide (state_of ts p = TState.READY).
Definition alive (ts : Threads) (p : ThreadRef) : bool := negb (bool_decide (state_of ts p = TState.DEAD)).
(** [thread->set_state(s)] for a valid [s]. *)
Definition store_state (p : ThreadRef) (s : ThreadState) (ts : Threads) : Threads := alter (set_thread_state s) p ts.
(** [thread->cpu_state().set_core_id(c)]. *)
Definition store_core (p : ThreadRef) (c : Z) (ts : Threads) : Threads :=
  alter (fun t => set_thread_cpu (set_core_id c (thread_cpu_state t)) t) p ts.

Lemma state_of_store p q s ts : state_of (store_state p s ts) q =
  if decide (p = q /\ is_Some (ts !! q)) then s else state_of ts q.
Proof.
  unfold state_of, store_state. destruct (decide (p = q)) as [->|Hne].
  - rewrite lookup_alter_eq. destruct (ts !! q) as [t|]; simpl.
    + by rewrite decide_True.
    + rewrite decide_False; [done|]. by intros [_ [? ?]].
  - rewrite lookup_alter_ne by done. rewrite decide_False; [done|]. tauto.
Qed.
Lemma state_of_store_eq p s ts : is_Some (ts !! p) -> state_of (store_state p s ts) p = s.
Proof. intros Hp. rewrite state_of_store. by rewrite decide_True. Qed.
Lemma state_of_store_ne p q s ts : p <> q -> state_of (store_state p s ts) q = state_of ts q.
Proof. intros Hne. rewrite state_of_store. rewrite decide_False; [done|]. tauto. Qed.
Lemma state_of_store_same p q s ts : state_of ts q = s -> state_of (store_state p s ts) q = s.
Proof. intros Hs. rewrite state_of_store. by destruct (decide _). Qed.
Lemma state_of_store_core p c q ts : state_of (store_core p c ts) q = state_of ts q.
Proof.
  unfold state_of, store_core. destruct (decide (p = q)) as [->|Hne].
  - rewrite lookup_alter_eq. by destruct (ts !! q).
  - by rewrite lookup_alter_ne by done.
Qed.
Lemma known_store p s ts q : is_Some (store_state p s ts !! q) <-> is_Some (ts !! q).
Proof. unfold store_state. rewrite lookup_alter_is_Some. done. Qed.
Lemma known_store_core p c ts q : is_Some (store_core p c ts !! q) <-> is_Some (ts !! q).
Proof. unfold store_core. rewrite lookup_alter_is_Some. done. Qed.
Lemma alive_known ts p : alive ts p = true -> is_Some (ts !! p).
Proof. unfold alive, state_of. destruct (ts !! p); [by eexists|done]. Qed.
Lemma runnable_alive ts p : runnable ts p = true -> alive ts p = true.
Proof. unfold runnable, alive. destruct (state_of ts p); done. Qed.

(** An operation of a queue of type [Q]. *)
Definition QueueM (Q A : Type) : Type := M (Threads * Q) A.
Definition on_queue {Q} (f : Q -> Q) : QueueM Q unit := modify (fun s => (s.1, f s.2)).
Definition on_threads {Q} (f : Threads -> Threads) : QueueM Q unit := modify (fun s => (f s.1, s.2)).

(** ** Queues of pointers *)

(** [while (!queue.empty()) { p = front; pop_front; if (good p) return p; } return nullptr]. *)
Fixpoint take_first (good : ThreadRef -> bool) (queue : list ThreadRef) : option ThreadRef * list ThreadRef :=
  match queue with
  | [] => (None, [])
  | p :: rest => if good p then (Some p, rest) else take_first good rest
  end.

Lemma take_first_spec good queue :
  match take_first good queue with
  | (Some p, rest) => exists skipped, queue = skipped ++ p :: rest /\ good p = true /\
      Forall (fun q => good q = false) skipped
  | (None, rest) => rest = [] /\ Forall (fun q => good q = false) queue
  end.
Proof.
  induction queue as [|p queue IH]; cbn [take_first]; [by split|]. destruct (good p) eqn:E.
  - by exists [].
  - destruct (take_first good queue) as [[q|] rest].
    + destruct IH as (sk & -> & Hq & Hsk). exists (p :: sk). split_and!; [done|done|]. by constructor.
    + destruct IH as [-> Hf]. split; [done|]. by constructor.
Qed.
Lemma take_first_good good queue : Forall (fun q => good q = true) queue ->
  take_first good queue = (head queue, tail queue).
Proof. destruct 1 as [|p rest Hp Hr]; [done|]. simpl. by rewrite Hp. Qed.
Lemma take_first_elem good queue p rest : take_first good queue = (Some p, rest) ->
  p ∈ queue /\ good p = true /\ forall q, q ∈ rest -> q ∈ queue.
Proof.
  intros Ht. pose proof (take_first_spec good queue) as Hs. rewrite Ht in Hs.
  destruct Hs as (sk & -> & Hp & _). set_solver.
Qed.
