(* ===== verification/RoundRobin.v ===== *)
(** * Round-robin scheduler

    Models src/os/sched/round_robin_scheduler.cpp over the store of threads. *)

From S2P Require Import Prelude Logic CpuState Thread.

(** ** Round robin *)

(* [include/mnos/os/sched/round_robin_scheduler.hpp] [RoundRobinScheduler] *)
Record RoundRobinScheduler : Type := mkRoundRobin {
  ready_queue : list ThreadRef;
  current_thread : option ThreadRef;
}.

Module RoundRobin.
Abbreviation RR A := (QueueM RoundRobinScheduler A).

(* [src/os/sched/round_robin_scheduler.cpp] [RoundRobinScheduler::current] *)
Definition current (q : RoundRobinScheduler) : res ThreadRef :=
  match current_thread q with Some p => Ok p | None => Throw logic_error end.
(* [src/os/sched/round_robin_scheduler.cpp] [RoundRobinScheduler::empty] *)
Definition empty (q : RoundRobinScheduler) : bool :=
  bool_decide (current_thread q = None) && bool_decide (ready_queue q = []).
(* [src/os/sched/round_robin_scheduler.cpp] [RoundRobinScheduler::contains] *)
Definition contains (p : ThreadRef) (q : RoundRobinScheduler) : bool := bool_decide (p ∈ ready_queue q).
(* [src/os/sched/round_robin_scheduler.cpp] [RoundRobinScheduler::enqueue_ready] *)
Definition enqueue_ready (p : ThreadRef) : RR unit :=
  on_threads (store_state p TState.READY) ≫= fun _ =>
  on_queue (fun q => mkRoundRobin (ready_queue q ++ [p]) (current_thread q)).
(* [src/os/sched/round_robin_scheduler.cpp] [RoundRobinScheduler::enqueue] *)
Definition enqueue (p : ThreadRef) : RR unit :=
  get ≫= fun s =>
  throw_if (negb (alive s.1 p)) logic_error ≫= fun _ =>
  throw_if (bool_decide (current_thread s.2 = Some p) || contains p s.2) logic_error ≫= fun _ =>
  enqueue_ready p.
(* [src/os/sched/round_robin_scheduler.cpp] [RoundRobinScheduler::wake] *)
Definition wake (p : ThreadRef) : RR unit :=
  get ≫= fun s =>
  throw_if (negb (alive s.1 p)) logic_error ≫= fun _ =>
  throw_if (bool_decide (current_thread s.2 = Some p) || contains p s.2) logic_error ≫= fun _ =>
  enqueue_ready p.
Definition set_current (c : option ThreadRef) (q : RoundRobinScheduler) : RoundRobinScheduler :=
  mkRoundRobin (ready_queue q) c.
(* [src/os/sched/round_robin_scheduler.cpp] [RoundRobinScheduler::schedule_next] *)
Definition schedule_next : RR (option ThreadRef) :=
  get ≫= fun s =>
  (match current_thread s.2 with
   | Some p => if bool_decide (state_of s.1 p = TState.RUNNING) then enqueue_ready p else mret tt
   | None => mret tt
   end) ≫= fun _ =>
  on_queue (set_current None) ≫= fun _ =>
  get ≫= fun s =>
  let '(candidate, rest) := take_first (runnable s.1) (ready_queue s.2) in
  on_queue (fun q => mkRoundRobin rest (current_thread q)) ≫= fun _ =>
  match candidate with
  | Some p =>
      on_threads (store_state p TState.RUNNING) ≫= fun _ =>
      on_queue (set_current (Some p)) ≫= fun _ =>
      mret (Some p)
  | None => mret None
  end.
(* [src/os/sched/round_robin_scheduler.cpp] [RoundRobinScheduler::yield_current] *)
Definition yield_current : RR (option ThreadRef) := schedule_next.
(** The common body of [block_current] and [exit_current]. *)
Definition leave_current (st : ThreadState) : RR (option ThreadRef) :=
  get ≫= fun s =>
  match current_thread s.2 with
  | None => mret None
  | Some p =>
      on_threads (store_state p st) ≫= fun _ =>
      on_queue (set_current None) ≫= fun _ =>
      schedule_next
  end.
(* [src/os/sched/round_robin_scheduler.cpp] [RoundRobinScheduler::block_current] *)
Definition block_current : RR (option ThreadRef) := leave_current TState.BLOCKED.
(* [src/os/sched/round_robin_scheduler.cpp] [RoundRobinScheduler::exit_current] *)
Definition exit_current : RR (option ThreadRef) := leave_current TState.DEAD.

(** ** Equations *)

(** The threads and the queue once a running current thread has been put back. *)
Definition requeued (ts : Threads) (q : RoundRobinScheduler) : Threads * list ThreadRef :=
  match current_thread q with
  | Some p =>
      if bool_decide (state_of ts p = TState.RUNNING)
      then (store_state p TState.READY ts, ready_queue q ++ [p]) else (ts, ready_queue q)
  | None => (ts, ready_queue q)
  end.
Lemma schedule_next_eq ts q :
  schedule_next (ts, q) =
  match take_first (runnable (requeued ts q).1) (requeued ts q).2 with
  | (Some p, rest) => ((store_state p TState.RUNNING (requeued ts q).1, mkRoundRobin rest (Some p)), Ok (Some p))
  | (None, rest) => (((requeued ts q).1, mkRoundRobin rest None), Ok None)
  end.
Proof.
  unfold schedule_next, requeued, enqueue_ready. unfold on_threads, on_queue. munfold_goal.
  destruct q as [l [p|]]; cbn [current_thread ready_queue fst snd set_current]; [case_bool_decide|];
    cbn [current_thread ready_queue fst snd set_current]; by destruct (take_first _ _) as [[c|] rest].
Qed.
Lemma enqueue_eq p ts q :
  enqueue p (ts, q) =
  if negb (alive ts p) || (bool_decide (current_thread q = Some p) || contains p q) then ((ts, q), Throw logic_error)
  else ((store_state p TState.READY ts, mkRoundRobin (ready_queue q ++ [p]) (current_thread q)), Ok tt).
Proof.
  unfold enqueue, enqueue_ready. munfold_goal. cbn [fst snd].
  destruct (alive ts p); [|done]. cbn [negb orb]. by destruct (_ || _).
Qed.
Lemma wake_eq p s : wake p s = enqueue p s.
Proof. done. Qed.

(** ** Commands

    Everything a client can ask of the scheduler, and what other code does to a thread behind its
    back. *)

Inductive Command : Type :=
  | Enqueue (p : ThreadRef)
  | Wake (p : ThreadRef)
  | Schedule
  | Yield
  | Block
  | Exit
  | SetState (p : ThreadRef) (st : ThreadState).
Definition perform (c : Command) (s : Threads * RoundRobinScheduler) : Threads * RoundRobinScheduler :=
  match c with
  | Enqueue p => (enqueue p s).1
  | Wake p => (wake p s).1
  | Schedule => (schedule_next s).1
  | Yield => (yield_current s).1
  | Block => (block_current s).1
  | Exit => (exit_current s).1
  | SetState p st => (store_state p st s.1, s.2)
  end.
Definition perform_all (cs : list Command) (s : Threads * RoundRobinScheduler) : Threads * RoundRobinScheduler :=
  foldl (fun s c => perform c s) s cs.

(** ** The invariant of a scheduler nobody interferes with *)

Record consistent (s : Threads * RoundRobinScheduler) : Prop := {
  c_distinct : NoDup (option_list (current_thread s.2) ++ ready_queue s.2);
  c_running p : current_thread s.2 = Some p -> state_of s.1 p = TState.RUNNING;
  c_ready p : p ∈ ready_queue s.2 -> state_of s.1 p = TState.READY;
}.
Definition closed_command (c : Command) : Prop := match c with SetState _ _ => False | _ => True end.

Lemma running_known ts p : state_of ts p = TState.RUNNING -> is_Some (ts !! p).
Proof. unfold state_of. destruct (ts !! p); [by eexists|done]. Qed.
Lemma ready_known ts p : state_of ts p = TState.READY -> is_Some (ts !! p).
Proof. unfold state_of. destruct (ts !! p); [by eexists|done]. Qed.

(** A scheduler whose current thread, if any, has just been put back at the end of the queue. *)
Lemma requeued_consistent ts q : consistent (ts, q) ->
  NoDup (requeued ts q).2 /\ (forall p, p ∈ (requeued ts q).2 -> state_of (requeued ts q).1 p = TState.READY).
Proof.
  intros [Hd Hrun Hready]. cbn [fst snd] in *. unfold requeued. destruct (current_thread q) as [c|] eqn:Ec.
  - specialize (Hrun c eq_refl). rewrite bool_decide_true by done. cbn [fst snd].
    apply NoDup_app in Hd as (_ & Hnot & Hd). split.
    + apply NoDup_app. split; [done|]. split; [|apply NoDup_singleton].
      intros x Hx Hc. apply list_elem_of_singleton in Hc as ->. apply (Hnot c); [by left|done].
    + intros p Hp. rewrite state_of_store. case_decide as Hpc; [done|]. apply Hready. apply elem_of_app in Hp as [Hp|Hp]; [done|].
      apply list_elem_of_singleton in Hp as ->. exfalso. apply Hpc. split; [done|]. by apply running_known.
  - done.
Qed.
Lemma schedule_next_consistent ts q : consistent (ts, q) -> consistent (schedule_next (ts, q)).1.
Proof.
  intros Hc. rewrite schedule_next_eq. destruct (requeued_consistent ts q Hc) as [Hd Hr].
  rewrite take_first_good.
  2:{ apply Forall_forall. intros p Hp. unfold runnable. by rewrite bool_decide_true by by apply Hr. }
  destruct (requeued ts q) as [ts1 l]. cbn [fst snd] in *. destruct l as [|p rest]; cbn [head tail fst].
  - split; cbn; [constructor|done|set_solver].
  - split; cbn [fst snd current_thread ready_queue option_list].
    + exact Hd.
    + intros x [= <-]. apply state_of_store_eq, ready_known, Hr. by left.
    + intros x Hx. rewrite state_of_store_ne; [apply Hr; by right|]. intros ->. by apply NoDup_cons in Hd as [? _].
Qed.
Lemma enqueue_consistent p ts q : consistent (ts, q) -> consistent (enqueue p (ts, q)).1.
Proof.
  intros [Hd Hrun Hready]. rewrite enqueue_eq. destruct (negb (alive ts p) || _) eqn:E; [done|].
  apply orb_false_iff in E as [Hal%negb_false_iff [Hcur Hin]%orb_false_iff].
  apply bool_decide_eq_false in Hcur. unfold contains in Hin. apply bool_decide_eq_false in Hin.
  cbn [fst snd] in *. split; cbn [fst snd current_thread ready_queue].
  - rewrite app_assoc. apply NoDup_app. split; [done|]. split; [|apply NoDup_singleton].
    intros x Hx Hp. apply list_elem_of_singleton in Hp as ->. apply elem_of_app in Hx as [Hx|Hx]; [|done].
    destruct (current_thread q); cbn in Hx; set_solver.
  - intros x Hx. rewrite state_of_store_ne by congruence. by apply Hrun.
  - intros x Hx. rewrite state_of_store. case_decide; [done|]. apply elem_of_app in Hx as [Hx|Hx]; [by apply Hready|].
    apply list_elem_of_singleton in Hx as ->. exfalso. apply H. split; [done|]. by apply alive_known.
Qed.
Lemma leave_current_consistent st ts q : consistent (ts, q) -> consistent (leave_current st (ts, q)).1.
Proof.
  intros Hc. unfold leave_current. munfold_goal. cbn [fst snd]. destruct (current_thread q) as [p|] eqn:Ec; [|done].
  unfold on_threads, on_queue. munfold_goal. cbn [fst snd]. apply schedule_next_consistent.
  destruct Hc as [Hd Hrun Hready]. cbn [fst snd] in *. rewrite Ec in Hd. apply NoDup_app in Hd as (_ & Hnot & Hd).
  split; cbn [fst snd current_thread ready_queue set_current option_list]; [done|done|].
  intros x Hx. rewrite state_of_store_ne; [by apply Hready|]. intros ->. apply (Hnot x); [by left|done].
Qed.
Lemma perform_consistent c s : closed_command c -> consistent s -> consistent (perform c s).
Proof.
  destruct s as [ts q], c; intros Hcl Hs; cbn [perform]; try done.
  - by apply enqueue_consistent.
  - rewrite wake_eq. by apply enqueue_consistent.
  - by apply schedule_next_consistent.
  - by apply schedule_next_consistent.
  - by apply leave_current_consistent.
  - by apply leave_current_consistent.
Qed.

(** ** No starvation *)

(** The commands that reach [schedule_next]: blocking and leaving do nothing without a current
    thread. *)
Definition schedules (c : Command) (s : Threads * RoundRobinScheduler) : bool :=
  match c with
  | Schedule | Yield => true
  | Block | Exit => bool_decide (is_Some (current_thread s.2))
  | _ => false
  end.
Fixpoint decisions (cs : list Command) (s : Threads * RoundRobinScheduler) : nat :=
  match cs with
  | [] => 0
  | c :: cs' => (if schedules c s then 1 else 0) + decisions cs' (perform c s)
  end.
(** [p] waits, ready, behind [k] threads. *)
Definition waits_at (k : nat) (p : ThreadRef) (s : Threads * RoundRobinScheduler) : Prop :=
  ready_queue s.2 !! k = Some p /\ state_of s.1 p = TState.READY.

Lemma take_first_progress good l k p : l !! k = Some p -> good p = true ->
  exists c rest, take_first good l = (Some c, rest) /\ (c = p \/ exists j, (j < k)%nat /\ rest !! j = Some p).
Proof.
  revert k. induction l as [|x l IH]; intros k Hk Hp; [done|]. cbn [take_first]. destruct (good x) eqn:Ex.
  - exists x, l. split; [done|]. destruct k as [|k]; [left; by injection Hk|]. right. exists k. split; [lia|done].
  - destruct k as [|k]; [injection Hk as ->; congruence|]. destruct (IH k Hk Hp) as (c & rest & Ht & Hc).
    exists c, rest. split; [done|]. destruct Hc as [|(j & ? & ?)]; [by left|]. right. exists j. split; [lia|done].
Qed.
Lemma schedule_next_progress s k p : waits_at k p s ->
  current_thread (schedule_next s).1.2 = Some p \/ exists j, (j < k)%nat /\ waits_at j p (schedule_next s).1.
Proof.
  destruct s as [ts q]. intros [Hk Hp]. cbn [fst snd] in *. rewrite schedule_next_eq.
  assert (Hq : (requeued ts q).2 !! k = Some p /\ state_of (requeued ts q).1 p = TState.READY).
  { unfold requeued. destruct (current_thread q) as [c|]; [|done]. case_bool_decide as Hc; [|done]. cbn [fst snd]. split.
    - by apply lookup_app_l_Some.
    - by apply state_of_store_same. }
  destruct Hq as [Hk' Hp']. destruct (take_first_progress (runnable (requeued ts q).1) _ k p Hk') as (c & rest & Ht & Hc).
  { unfold runnable. by apply bool_decide_eq_true. }
  rewrite Ht. cbn [fst snd current_thread]. destruct Hc as [-> |(j & Hj & Hr)]; [by left|].
  destruct (decide (c = p)) as [->|Hne]; [by left|]. right. exists j. split; [done|]. split; [done|]. cbn [fst].
  by rewrite state_of_store_ne.
Qed.
(** A command that does not touch [p] itself leaves it current, or waiting no further back, and a
    scheduling decision brings it forward. *)
Lemma perform_progress c s k p : (forall st, c <> SetState p st) -> waits_at k p s ->
  current_thread s.2 <> Some p ->
  current_thread (perform c s).2 = Some p \/
  exists j, ((if schedules c s then 1 else 0) + j <= k)%nat /\ waits_at j p (perform c s).
Proof.
  intros Hno Hw Hcur. assert (Hsched : forall s', waits_at k p s' ->
    current_thread (schedule_next s').1.2 = Some p \/ exists j, (1 + j <= k)%nat /\ waits_at j p (schedule_next s').1).
  { intros s' Hs'. destruct (schedule_next_progress s' k p Hs') as [|(j & ? & ?)]; [by left|]. right. exists j. split; [lia|done]. }
  assert (Henq : forall x, exists j, (0 + j <= k)%nat /\ waits_at j p (enqueue x s).1).
  { intros x. exists k. split; [lia|]. destruct s as [ts q]. rewrite enqueue_eq. destruct (negb (alive ts x) || _) eqn:E; [done|].
    destruct Hw as [Hk Hp]. split; cbn [fst snd ready_queue] in *; [by apply lookup_app_l_Some|].
    by apply state_of_store_same. }
  assert (Hleave : forall st, current_thread (leave_current st s).1.2 = Some p \/
    exists j, ((if bool_decide (is_Some (current_thread s.2)) then 1 else 0) + j <= k)%nat /\ waits_at j p (leave_current st s).1).
  { intros st. unfold leave_current. munfold_goal. destruct s as [ts q]. cbn [fst snd] in *.
    destruct (current_thread q) as [c0|] eqn:Ec.
    - rewrite bool_decide_true by by eexists. apply Hsched. destruct Hw as [Hk Hp]. split; [done|]. cbn [fst snd] in *.
      rewrite state_of_store_ne by congruence. done.
    - right. exists k. split; [|done]. rewrite bool_decide_false; [lia|]. by intros [? ?]. }
  destruct c as [x|x| | | | |x st]; cbn [perform schedules]; [right; apply Henq|right; apply Henq|by apply Hsched|by apply Hsched|apply Hleave|apply Hleave|].
  right. exists k. split; [lia|]. destruct Hw as [Hk Hp]. split; [done|]. cbn [fst snd].
  rewrite state_of_store_ne; [done|]. intros ->. by apply (Hno st).
Qed.

(** C15. No ready thread starves: a thread queued behind [k] others becomes the current thread before
    the scheduler has made [k + 2] decisions, whatever clients enqueue, wake, yield, block or exit
    meanwhile, and however other code changes the states of the other threads. *)
Theorem round_robin_no_starvation cs s k p :
  waits_at k p s -> current_thread s.2 <> Some p -> (forall st, SetState p st ∉ cs) ->
  (k < decisions cs s)%nat ->
  exists before after, cs = before ++ after /\ current_thread (perform_all before s).2 = Some p /\
    (decisions before s <= k + 1)%nat.
Proof.
  revert s k. induction cs as [|c cs IH]; intros s k Hw Hcur Hno Hd; [simpl in Hd; lia|]. cbn [decisions] in Hd.
  destruct (decide (current_thread (perform c s).2 = Some p)) as [Hp|Hp].
  - exists [c], cs. split; [done|]. split; [done|]. cbn [decisions]. destruct (schedules c s); lia.
  - destruct (perform_progress c s k p) as [|(j & Hj & Hw')]; [|done|done|done|].
    { intros st ->. apply (Hno st). by left. }
    destruct (IH (perform c s) j Hw' Hp) as (before & after & -> & Hb & Hn).
    { intros st Hst. apply (Hno st). by right. }
    { lia. }
    exists (c :: before), after. split; [done|]. split; [done|]. cbn [decisions]. lia.
Qed.

(** Used on its own, the scheduler keeps its threads in order: at every moment the current thread
    is the one thread of the scheduler that is running, every queued thread is ready, and no thread
    is queued twice or queued while it runs. *)
Theorem round_robin_consistent cs s : Forall closed_command cs -> consistent s -> consistent (perform_all cs s).
Proof.
  unfold perform_all. revert s. induction cs as [|c cs IH]; intros s Hcl Hs; [done|].
  apply Forall_cons in Hcl as [Hc Hcl]. apply IH; [done|]. by apply perform_consistent.
Qed.

(** *** Examples *)

Definition sample_thread (id : Z) : ThreadContext := mkThread id TState.READY CpuState.make_cpu_state 0x1000 0x2000 0x1000 None.
Definition sample_threads : Threads := <[10 := sample_thread 1]> (<[20 := sample_thread 2]> (<[30 := sample_thread 3]> ∅)).
Definition sample : Threads * RoundRobinScheduler := (sample_threads, mkRoundRobin [10; 20; 30] None).
Lemma round_robin_no_starvation_witness :
  exists before after, [Schedule; Yield; SetState 10 TState.BLOCKED; Block; Exit] = before ++ after /\
    current_thread (perform_all before sample).2 = Some 30.
Proof.
  destruct (round_robin_no_starvation [Schedule; Yield; SetState 10 TState.BLOCKED; Block; Exit] sample 2 30)
    as (b & a & Hab & Hc & _).
  - by split.
  - done.
  - intros st Hst. repeat (apply elem_of_cons in Hst as [[=]|Hst]). by apply elem_of_nil in Hst.
  - vm_compute. lia.
  - by exists b, a.
Defined.
Lemma sample_consistent : consistent sample.
Proof.
  split; cbn.
  - repeat (constructor; [set_solver|]). constructor.
  - done.
  - intros p Hp. repeat (apply elem_of_cons in Hp as [->|Hp]; [done|]). by apply elem_of_nil in Hp.
Qed.
Lemma round_robin_consistent_witness : consistent (perform_all [Schedule; Block; Wake 10; Exit; Yield] sample).
Proof.
  apply (round_robin_consistent [Schedule; Block; Wake 10; Exit; Yield] sample); [by repeat constructor|exact sample_consistent].
Defined.
End RoundRobin.

