(* ===== verification/WaitQueue.v ===== *)
(** * Wait queue

    Models src/os/sched/wait_queue.cpp over the store of threads. *)

From S2P Require Import Prelude Logic Thread.

(** ** Wait queue *)

(* [include/mnos/os/sched/wait_queue.hpp] [WaitQueue] *)
Record WaitQueue : Type := mkWaitQueue { waiters : list ThreadRef }.

Module Wait.
Abbreviation WQ A := (QueueM WaitQueue A).
(* [src/os/sched/wait_queue.cpp] [WaitQueue::contains] *)
Definition contains (p : ThreadRef) (q : WaitQueue) : bool := bool_decide (p ∈ waiters q).
(* [src/os/sched/wait_queue.cpp] [WaitQueue::wait] *)
Definition wait (p : ThreadRef) : WQ unit :=
  get ≫= fun s =>
  throw_if (negb (alive s.1 p)) logic_error ≫= fun _ =>
  throw_if (contains p s.2) logic_error ≫= fun _ =>
  on_threads (store_state p TState.BLOCKED) ≫= fun _ =>
  on_queue (fun q => mkWaitQueue (waiters q ++ [p])).
(* [src/os/sched/wait_queue.cpp] [WaitQueue::wake_one] *)
Definition wake_one : WQ (option ThreadRef) := fun s =>
  let '(thread, rest) := take_first (alive s.1) (waiters s.2) in
  ((s.1, mkWaitQueue rest), Ok thread).
(** [while (thread = wake_one()) ready.push_back(thread)]; every call that returns a thread shortens
    the queue. *)
Fixpoint wake_loop (fuel : nat) (ready : list ThreadRef) : WQ (list ThreadRef) :=
  match fuel with
  | O => mret ready
  | S fuel' =>
      wake_one ≫= fun thread =>
      match thread with Some p => wake_loop fuel' (ready ++ [p]) | None => mret ready end
  end.
(* [src/os/sched/wait_queue.cpp] [WaitQueue::wake_all] *)
Definition wake_all : WQ (list ThreadRef) := fun s => wake_loop (S (length (waiters s.2))) [] s.

(** ** Behaviour *)

(** The threads a waker can find, in the order they came. *)
Definition live (ts : Threads) (q : WaitQueue) : list ThreadRef := filter (fun p => alive ts p = true) (waiters q).

Lemma take_first_filter good l :
  (take_first good l).1 = head (filter (fun p => good p = true) l) /\
  filter (fun p => good p = true) (take_first good l).2 = tail (filter (fun p => good p = true) l).
Proof.
  induction l as [|p l IH]; [done|]. cbn [take_first]. rewrite filter_cons.
  destruct (good p) eqn:E; case_decide; try congruence; done.
Qed.
(** Waking one thread takes the first waiter still alive and forgets the dead ones before it. *)
Lemma wake_one_live ts q : exists q', wake_one (ts, q) = ((ts, q'), Ok (head (live ts q))) /\
  live ts q' = tail (live ts q) /\ (length (waiters q') <= length (waiters q))%nat /\
  (forall p, head (live ts q) = Some p -> (length (waiters q') < length (waiters q))%nat) /\
  (head (live ts q) = None -> waiters q' = []) /\
  (forall p, p ∈ waiters q' -> p ∈ waiters q).
Proof.
  unfold wake_one. cbn [fst snd]. destruct (take_first_filter (alive ts) (waiters q)) as [Hh Ht].
  pose proof (take_first_spec (alive ts) (waiters q)) as Hs.
  destruct (take_first (alive ts) (waiters q)) as [c rest]. cbn [fst snd] in *. exists (mkWaitQueue rest).
  split; [by rewrite Hh|]. split; [exact Ht|]. cbn [waiters]. unfold live. rewrite <- Hh. destruct c as [c|].
  - destruct Hs as (sk & -> & _). rewrite length_app. simpl. split_and!; [lia|intros; lia|done|]. set_solver.
  - destruct Hs as [-> _]. simpl. split_and!; [lia|done|done|set_solver].
Qed.
Lemma wake_loop_live ts : forall fuel q ready, (length (waiters q) < fuel)%nat ->
  wake_loop fuel ready (ts, q) = ((ts, mkWaitQueue []), Ok (ready ++ live ts q)).
Proof.
  induction fuel as [|fuel IH]; intros q ready Hf; [lia|]. cbn [wake_loop]. munfold_goal.
  destruct (wake_one_live ts q) as (q' & -> & Hl & _ & Hlt & Hnone & _).
  destruct (live ts q) as [|p l] eqn:El; cbn [head] in *.
  - specialize (Hnone eq_refl). rewrite app_nil_r. destruct q' as [w]. cbn in Hnone. by subst.
  - rewrite IH by (specialize (Hlt p eq_refl); lia). rewrite Hl. cbn [tail]. by rewrite <- app_assoc.
Qed.
(** Waking all of them empties the queue and returns the live waiters in order; the loop ends. *)
Lemma wake_all_live ts q : wake_all (ts, q) = ((ts, mkWaitQueue []), Ok (live ts q)).
Proof. unfold wake_all. cbn [snd]. by rewrite wake_loop_live by lia. Qed.
Lemma wait_eq p ts q : wait p (ts, q) =
  if negb (alive ts p) || contains p q then ((ts, q), Throw logic_error)
  else ((store_state p TState.BLOCKED ts, mkWaitQueue (waiters q ++ [p])), Ok tt).
Proof. unfold wait. munfold_goal. cbn [fst snd]. destruct (alive ts p); [|done]. cbn [negb orb]. by destruct (contains p q). Qed.
End Wait.

