(* ===== verification/SleepQueue.v ===== *)
(** * Sleep queue

    Models src/os/sched/sleep_queue.cpp over the store of threads. *)

From S2P Require Import Prelude Logic CpuState Thread.

(** ** Sleep queue *)

(* [include/mnos/os/sched/sleep_queue.hpp] [SleepEntry] [27-31] *)
Record SleepEntry : Type := mkSleepEntry { sleeper : ThreadRef; wake_tick : Z }.
(* [include/mnos/os/sched/sleep_queue.hpp] [SleepQueue] *)
Record SleepQueue : Type := mkSleepQueue { sleepers : list SleepEntry }.

Module Sleep.
Abbreviation SQ A := (QueueM SleepQueue A).
(* [src/os/sched/sleep_queue.cpp] [SleepQueue::contains] *)
Definition contains (p : ThreadRef) (q : SleepQueue) : bool := bool_decide (p ∈ sleeper <$> sleepers q).
(* [src/os/sched/sleep_queue.cpp] [SleepQueue::next_wake_tick] *)
Definition next_wake_tick (q : SleepQueue) : option Z := wake_tick <$> head (sleepers q).
(** Inserts behind every entry that wakes no later. *)
Fixpoint insert_sleeper (e : SleepEntry) (l : list SleepEntry) : list SleepEntry :=
  match l with
  | [] => [e]
  | x :: rest => if wake_tick x <=? wake_tick e then x :: insert_sleeper e rest else e :: l
  end.
(* [src/os/sched/sleep_queue.cpp] [SleepQueue::sleep_until] *)
Definition sleep_until (p : ThreadRef) (tick : Z) : SQ unit :=
  get ≫= fun s =>
  throw_if (negb (alive s.1 p)) logic_error ≫= fun _ =>
  throw_if (contains p s.2) logic_error ≫= fun _ =>
  on_threads (store_state p TState.BLOCKED) ≫= fun _ =>
  on_queue (fun q => mkSleepQueue (insert_sleeper (mkSleepEntry p tick) (sleepers q))).
Fixpoint take_due (is_alive : ThreadRef -> bool) (now : Z) (l : list SleepEntry) (ready : list ThreadRef)
  : list ThreadRef * list SleepEntry :=
  match l with
  | [] => (ready, [])
  | x :: rest =>
      if wake_tick x <=? now then
        take_due is_alive now rest (if is_alive (sleeper x) then ready ++ [sleeper x] else ready)
      else (ready, l)
  end.
(* [src/os/sched/sleep_queue.cpp] [SleepQueue::take_ready] *)
Definition take_ready (now : Z) : SQ (list ThreadRef) := fun s =>
  let '(ready, rest) := take_due (alive s.1) now (sleepers s.2) [] in
  ((s.1, mkSleepQueue rest), Ok ready).

(** ** Behaviour *)

(** Earliest wake-up first. *)
Definition ordered (l : list SleepEntry) : Prop := StronglySorted (fun x y => wake_tick x <= wake_tick y) l.
Definition sleep_wf (q : SleepQueue) : Prop := ordered (sleepers q) /\ NoDup (sleeper <$> sleepers q).

Lemma insert_sleeper_elem e l x : x ∈ insert_sleeper e l <-> x = e \/ x ∈ l.
Proof.
  induction l as [|y l IH]; cbn [insert_sleeper]; [set_solver|]. destruct (wake_tick y <=? wake_tick e); [|set_solver].
  rewrite !elem_of_cons, IH. tauto.
Qed.
Lemma insert_sleeper_perm e l : insert_sleeper e l ≡ₚ e :: l.
Proof.
  induction l as [|y l IH]; cbn [insert_sleeper]; [done|]. destruct (wake_tick y <=? wake_tick e); [|done].
  rewrite IH. constructor.
Qed.
Lemma insert_sleeper_ordered e l : ordered l -> ordered (insert_sleeper e l).
Proof.
  unfold ordered. induction 1 as [|y l Hl IH Hy]; cbn [insert_sleeper]; [repeat constructor|].
  destruct (Z.leb_spec (wake_tick y) (wake_tick e)).
  - constructor; [done|]. apply Forall_forall. intros x Hx. apply insert_sleeper_elem in Hx as [->|Hx]; [done|].
    rewrite Forall_forall in Hy. by apply Hy.
  - constructor; [by constructor|]. constructor; [lia|]. eapply Forall_impl; [exact Hy|]. simpl. lia.
Qed.
(** Entries that wake together keep the order in which they went to sleep. *)
Lemma insert_sleeper_stable e l tick : ordered l ->
  filter (fun x => wake_tick x = tick) (insert_sleeper e l) =
  filter (fun x => wake_tick x = tick) l ++ (if decide (wake_tick e = tick) then [e] else []).
Proof.
  induction 1 as [|y l Hl IH Hy]; cbn [insert_sleeper].
  - rewrite filter_cons. by case_decide.
  - destruct (Z.leb_spec (wake_tick y) (wake_tick e)) as [Hle|Hlt].
    + rewrite !filter_cons, IH. by destruct (decide (wake_tick y = tick)).
    + rewrite (filter_cons _ e). case_decide as He; [|by rewrite app_nil_r].
      assert (Hnone : filter (fun x => wake_tick x = tick) (y :: l) = []).
      { apply filter_none. intros x Hx Ht. apply elem_of_cons in Hx as [->|Hx]; [lia|].
        rewrite Forall_forall in Hy. specialize (Hy x Hx). simpl in Hy. lia. }
      by rewrite Hnone.
Qed.

Lemma take_due_spec good now l : ordered l -> forall ready,
  take_due good now l ready =
  (ready ++ (sleeper <$> filter (fun x => wake_tick x <= now /\ good (sleeper x) = true) l),
   filter (fun x => now < wake_tick x) l).
Proof.
  induction 1 as [|y l Hl IH Hy]; intros ready; cbn [take_due]; [by rewrite app_nil_r|].
  rewrite !filter_cons. destruct (Z.leb_spec (wake_tick y) now).
  - rewrite IH. rewrite (decide_False (P := now < wake_tick y)) by lia. f_equal.
    destruct (good (sleeper y)) eqn:E.
    + rewrite decide_True by done. by rewrite fmap_cons, <- app_assoc.
    + rewrite decide_False; [done|]. intros [_ ?]. congruence.
  - rewrite decide_False by (intros [? _]; lia). rewrite decide_True by lia.
    assert (Hlater : forall x, x ∈ l -> now < wake_tick x).
    { intros x Hx. rewrite Forall_forall in Hy. specialize (Hy x Hx). simpl in Hy. lia. }
    f_equal.
    + rewrite filter_none; [by rewrite app_nil_r|]. intros x Hx [? _]. specialize (Hlater x Hx). lia.
    + f_equal. symmetry. apply filter_every. intros x Hx. by apply Hlater.
Qed.

(** C27. The sleep queue keeps its sleepers by wake-up time, first come first served among equals, each
    thread once; at a tick it hands over the sleepers that are due and alive, in that order, drops
    the due dead ones and keeps exactly the later ones, and its next wake-up time is their least. *)
Theorem sleep_queue_ordered_wakeup ts q : sleep_wf q ->
  (forall p tick, alive ts p = true -> p ∉ sleeper <$> sleepers q ->
     exists q', sleep_until p tick (ts, q) = ((store_state p TState.BLOCKED ts, q'), Ok tt) /\ sleep_wf q' /\
       sleepers q' ≡ₚ mkSleepEntry p tick :: sleepers q /\
       forall t, filter (fun x => wake_tick x = t) (sleepers q') =
         filter (fun x => wake_tick x = t) (sleepers q) ++ (if decide (tick = t) then [mkSleepEntry p tick] else [])) /\
  (forall now, exists q',
     take_ready now (ts, q) = ((ts, q'),
       Ok (sleeper <$> filter (fun x => wake_tick x <= now /\ alive ts (sleeper x) = true) (sleepers q))) /\
     sleep_wf q' /\ sleepers q' = filter (fun x => now < wake_tick x) (sleepers q)) /\
  (forall t, next_wake_tick q = Some t -> forall x, x ∈ sleepers q -> t <= wake_tick x).
Proof.
  intros [Ho Hd]. split_and!.
  - intros p tick Hal Hp. unfold sleep_until. munfold_goal. cbn [fst snd]. rewrite Hal. cbn [negb].
    unfold contains. rewrite bool_decide_false by done. unfold on_threads, on_queue. munfold_goal. cbn [fst snd].
    eexists. split; [reflexivity|]. cbn [sleepers]. split; [split|split].
    + by apply insert_sleeper_ordered.
    + cbn [sleepers]. rewrite insert_sleeper_perm, fmap_cons. by constructor.
    + apply insert_sleeper_perm.
    + intros t. by apply insert_sleeper_stable.
  - intros now. unfold take_ready. cbn [fst snd]. rewrite take_due_spec by done. eexists. split; [reflexivity|].
    cbn [sleepers]. split; [|done]. split.
    + unfold ordered. apply StronglySorted_filter. exact Ho.
    + eapply sublist_NoDup; [exact Hd|]. apply fmap_sublist, sublist_filter.
  - intros t Ht x Hx. unfold next_wake_tick in Ht. destruct (sleepers q) as [|y l] eqn:E; [done|]. injection Ht as <-.
    apply elem_of_cons in Hx as [->|Hx]; [lia|]. apply StronglySorted_inv in Ho as [_ Hf]. rewrite Forall_forall in Hf.
    by apply Hf.
Qed.

Definition sample_threads : Threads :=
  <[10 := mkThread 1 TState.READY make_cpu_state 0x1000 0x2000 0x1000 None]>
  (<[20 := mkThread 2 TState.DEAD make_cpu_state 0x1000 0x2000 0x1000 None]> ∅).
Lemma sleep_queue_ordered_wakeup_witness :
  exists q, take_ready 7 (sample_threads, mkSleepQueue [mkSleepEntry 20 3; mkSleepEntry 10 5; mkSleepEntry 30 8]) =
    ((sample_threads, q), Ok [10]) /\ sleepers q = [mkSleepEntry 30 8].
Proof.
  destruct (sleep_queue_ordered_wakeup sample_threads (mkSleepQueue [mkSleepEntry 20 3; mkSleepEntry 10 5; mkSleepEntry 30 8]))
    as (_ & Htake & _).
  - split; [|by vm_compute; repeat (constructor; [set_solver|]); constructor].
    repeat constructor; simpl; lia.
  - destruct (Htake 7) as (q & Hq & _ & Hr). exists q. split; [exact Hq|exact Hr].
Defined.
End Sleep.

