(* ===== verification/Event.v ===== *)
(** * Event

    Models src/os/sched/event.cpp: a signal flag with a wait queue. *)

From S2P Require Import Prelude Logic Thread WaitQueue.

(** ** Event *)

(* [include/mnos/os/sched/event.hpp] [Event] *)
Record Event : Type := mkEvent { signaled : bool; wait_queue : WaitQueue }.

Module Ev.
Abbreviation E A := (QueueM Event A).
(** A call on the event's wait queue. *)
Definition on_wait_queue {A} : QueueM WaitQueue A -> E A :=
  zoom (fun s => (s.1, wait_queue s.2)) (fun t s => (t.1, mkEvent (signaled s.2) t.2)).
(* [src/os/sched/event.cpp] [Event::wait] *)
Definition wait (p : ThreadRef) : E bool :=
  gets (fun s => signaled s.2) ≫= fun signaled =>
  if signaled : bool then mret false
  else on_wait_queue (Wait.wait p) ≫= fun _ => mret true.
(* [src/os/sched/event.cpp] [Event::signal_one] *)
Definition signal_one : E (option ThreadRef) :=
  on_queue (fun e => mkEvent true (wait_queue e)) ≫= fun _ => on_wait_queue Wait.wake_one.
(* [src/os/sched/event.cpp] [Event::signal_all] *)
Definition signal_all : E (list ThreadRef) :=
  on_queue (fun e => mkEvent true (wait_queue e)) ≫= fun _ => on_wait_queue Wait.wake_all.
(* [src/os/sched/event.cpp] [Event::reset] *)
Definition reset : E unit := on_queue (fun e => mkEvent false (wait_queue e)).
End Ev.
