(* ===== verification/Futex.v ===== *)
(** * Futexes

    Models src/os/proc/futex.cpp: keys, and a vector of buckets each holding a wait queue. *)

From S2P Require Import Prelude Logic Page CpuState Thread WaitQueue.

(* [include/mnos/os/proc/futex.hpp] [FutexKey] *)
Record FutexKey : Set := mkFutexKey { futex_process : Z; futex_address : Z }.
#[export] Instance FutexKey_eq_dec : EqDecision FutexKey.
Proof. solve_decision. Defined.

Definition PROCESS_ID_INVALID_VALUE : Z := 0.
Definition FUTEX_WORD_ALIGNMENT_BYTES : Z := 4.

(* [include/mnos/os/proc/futex.hpp] [FutexBucket] [42-55] *)
Record FutexBucket : Type := mkBucket { bucket_key : FutexKey; bucket_queue : WaitQueue }.
(* [include/mnos/os/proc/futex.hpp] [FutexTable] *)
Record FutexTable : Type := mkFutexTable { buckets : list FutexBucket }.

Module Futex.
Abbreviation FT A := (QueueM FutexTable A).

(* [src/os/proc/futex.cpp] [FutexKey::FutexKey] *)
Definition make_key (process_id address : Z) : res FutexKey :=
  if process_id =? PROCESS_ID_INVALID_VALUE then Throw invalid_argument
  else if negb (is_user_address address) then Throw out_of_range
  else if negb (address `mod` FUTEX_WORD_ALIGNMENT_BYTES =? 0) then Throw invalid_argument
  else Ok (mkFutexKey process_id address).

(** The position of the first bucket of [key], standing for the pointer to it. *)
(* [src/os/proc/futex.cpp] [FutexTable::find_bucket] *)
Fixpoint find_bucket (key : FutexKey) (bs : list FutexBucket) : option nat :=
  match bs with
  | [] => None
  | b :: rest => if decide (bucket_key b = key) then Some 0%nat else S <$> find_bucket key rest
  end.
(* [src/os/proc/futex.cpp] [FutexTable::bucket_for] *)
Definition bucket_for (key : FutexKey) : FT nat := fun s =>
  match find_bucket key (buckets s.2) with
  | Some i => (s, Ok i)
  | None => ((s.1, mkFutexTable (buckets s.2 ++ [mkBucket key (mkWaitQueue [])])), Ok (length (buckets s.2)))
  end.
(** A call on the wait queue of the bucket at [i]. *)
Definition on_bucket {A} (i : nat) (c : QueueM WaitQueue A) : FT A := fun s =>
  match buckets s.2 !! i with
  | Some b =>
      let '((ts, q), r) := c (s.1, bucket_queue b) in
      ((ts, mkFutexTable (<[i := mkBucket (bucket_key b) q]> (buckets s.2))), r)
  | None => (s, Throw logic_error)
  end.
(** Erases the first bucket of [key] whose queue is empty. *)
Fixpoint erase_first_empty (key : FutexKey) (bs : list FutexBucket) : list FutexBucket :=
  match bs with
  | [] => []
  | b :: rest =>
      if bool_decide (bucket_key b = key) && bool_decide (waiters (bucket_queue b) = []) then rest
      else b :: erase_first_empty key rest
  end.
(* [src/os/proc/futex.cpp] [FutexTable::erase_empty_bucket] *)
Definition erase_empty_bucket (key : FutexKey) : FT unit :=
  on_queue (fun t => mkFutexTable (erase_first_empty key (buckets t))).

(* [src/os/proc/futex.cpp] [FutexTable::waiter_count] *)
Definition waiter_count (key : FutexKey) (t : FutexTable) : Z :=
  match find_bucket key (buckets t) ≫= fun i => buckets t !! i with
  | Some b => lenZ (waiters (bucket_queue b))
  | None => 0
  end.
(* [src/os/proc/futex.cpp] [FutexTable::contains] *)
Definition contains (key : FutexKey) (p : ThreadRef) (t : FutexTable) : bool :=
  match find_bucket key (buckets t) ≫= fun i => buckets t !! i with
  | Some b => Wait.contains p (bucket_queue b)
  | None => false
  end.
(* [src/os/proc/futex.cpp] [FutexTable::wait] *)
Definition wait (key : FutexKey) (p : ThreadRef) : FT unit :=
  bucket_for key ≫= fun i => on_bucket i (Wait.wait p).
(* [src/os/proc/futex.cpp] [FutexTable::wake_one] *)
Definition wake_one (key : FutexKey) : FT (option ThreadRef) :=
  gets (fun s => find_bucket key (buckets s.2)) ≫= fun bucket =>
  match bucket with
  | None => mret None
  | Some i =>
      on_bucket i Wait.wake_one ≫= fun thread =>
      erase_empty_bucket key ≫= fun _ =>
      mret thread
  end.
(* [src/os/proc/futex.cpp] [FutexTable::wake_all] *)
Definition wake_all (key : FutexKey) : FT (list ThreadRef) :=
  gets (fun s => find_bucket key (buckets s.2)) ≫= fun bucket =>
  match bucket with
  | None => mret []
  | Some i =>
      on_bucket i Wait.wake_all ≫= fun threads =>
      erase_empty_bucket key ≫= fun _ =>
      mret threads
  end.

(** ** The table as a map from keys to queues *)

Definition queue_of (key : FutexKey) (t : FutexTable) : list ThreadRef :=
  match find_bucket key (buckets t) ≫= fun i => buckets t !! i with
  | Some b => waiters (bucket_queue b)
  | None => []
  end.
(** Every key has one bucket. *)
Definition table_wf (t : FutexTable) : Prop := NoDup (bucket_key <$> buckets t).

(** The same by recursion on the buckets. *)
Fixpoint queue_in (key : FutexKey) (bs : list FutexBucket) : list ThreadRef :=
  match bs with
  | [] => []
  | b :: rest => if decide (bucket_key b = key) then waiters (bucket_queue b) else queue_in key rest
  end.
Lemma queue_of_in key t : queue_of key t = queue_in key (buckets t).
Proof.
  unfold queue_of. induction (buckets t) as [|b bs IH]; [done|]. simpl. case_decide; [done|]. rewrite <- IH.
  by destruct (find_bucket key bs).
Qed.
Lemma find_bucket_spec key bs :
  match find_bucket key bs with
  | Some i => exists b, bs !! i = Some b /\ bucket_key b = key
  | None => key ∉ bucket_key <$> bs
  end.
Proof.
  induction bs as [|b bs IH]; cbn [find_bucket]; [set_solver|]. case_decide; [by exists b|].
  destruct (find_bucket key bs) as [i|]; cbn; [done|]. intros [?|?]%elem_of_cons; congruence.
Qed.
Lemma queue_in_none key bs : key ∉ bucket_key <$> bs -> queue_in key bs = [].
Proof.
  induction bs as [|b bs IH]; [done|]. rewrite fmap_cons, not_elem_of_cons. intros [Hne Hn]. simpl.
  rewrite decide_False by congruence. by apply IH.
Qed.
Lemma queue_in_lookup key bs i b : NoDup (bucket_key <$> bs) -> bs !! i = Some b -> bucket_key b = key ->
  queue_in key bs = waiters (bucket_queue b).
Proof.
  revert i. induction bs as [|x bs IH]; intros i Hd Hi Hk; [done|]. apply NoDup_cons in Hd as [Hx Hd].
  destruct i as [|i]; cbn [queue_in].
  - injection Hi as ->. by rewrite decide_True.
  - simpl in Hi. rewrite decide_False; [by eapply IH|]. intros Hxk. apply Hx. rewrite Hxk, <- Hk.
    apply list_elem_of_fmap_2, list_elem_of_lookup. by exists i.
Qed.
Lemma queue_in_insert key bs i b q : NoDup (bucket_key <$> bs) -> bs !! i = Some b ->
  queue_in key (<[i := mkBucket (bucket_key b) q]> bs) =
  if decide (bucket_key b = key) then waiters q else queue_in key bs.
Proof.
  revert i. induction bs as [|x bs IH]; intros i Hd Hi; [done|]. apply NoDup_cons in Hd as [Hx Hd].
  destruct i as [|i]; simpl in *.
  - injection Hi as ->. by case_decide.
  - rewrite (IH i) by done. destruct (decide (bucket_key x = key)) as [Hxk|]; [|done].
    rewrite decide_False; [done|]. intros Hbk. apply Hx. rewrite Hxk, <- Hbk.
    apply list_elem_of_fmap_2, list_elem_of_lookup. by exists i.
Qed.
Lemma insert_keys (bs : list FutexBucket) (i : nat) b q : bs !! i = Some b ->
  bucket_key <$> <[i := mkBucket (bucket_key b) q]> bs = bucket_key <$> bs.
Proof. intros Hi. rewrite list_fmap_insert. apply list_insert_id. by rewrite list_lookup_fmap, Hi. Qed.
Lemma erase_keys key bs : sublist (bucket_key <$> erase_first_empty key bs) (bucket_key <$> bs).
Proof.
  induction bs as [|b bs IH]; cbn [erase_first_empty]; [done|]. destruct (_ && _); rewrite !fmap_cons.
  - apply sublist_cons. done.
  - by apply sublist_skip.
Qed.
Lemma erase_queue key bs : NoDup (bucket_key <$> bs) -> forall k, queue_in k (erase_first_empty key bs) = queue_in k bs.
Proof.
  induction bs as [|b bs IH]; intros Hd k; [done|]. apply NoDup_cons in Hd as [Hb Hd]. cbn [erase_first_empty].
  destruct (bool_decide (bucket_key b = key) && _) eqn:E; cbn [queue_in].
  - apply andb_true_iff in E as [_ E]. apply bool_decide_eq_true in E. case_decide as Hk; [|done].
    rewrite E. apply queue_in_none. by rewrite <- Hk.
  - destruct (decide (bucket_key b = k)); [done|]. by apply IH.
Qed.
Lemma queue_in_snoc_empty k key bs : queue_in k (bs ++ [mkBucket key (mkWaitQueue [])]) = queue_in k bs.
Proof.
  induction bs as [|b bs IH]; simpl; [by case_decide|]. case_decide; [done|]. exact IH.
Qed.

(** A call on the bucket of [key], which exists. *)
Lemma on_bucket_spec {A} key i b (c : QueueM WaitQueue A) ts t : table_wf t ->
  buckets t !! i = Some b -> bucket_key b = key ->
  exists t', on_bucket i c (ts, t) =
      (((c (ts, mkWaitQueue (queue_of key t))).1.1, t'), (c (ts, mkWaitQueue (queue_of key t))).2) /\
    table_wf t' /\ bucket_key <$> buckets t' = bucket_key <$> buckets t /\
    forall k, queue_of k t' = if decide (k = key) then waiters (c (ts, mkWaitQueue (queue_of key t))).1.2 else queue_of k t.
Proof.
  intros Hd Hi Hk. assert (Hq : mkWaitQueue (queue_of key t) = bucket_queue b).
  { rewrite queue_of_in, (queue_in_lookup key _ i b) by done. by destruct (bucket_queue b). }
  rewrite Hq. unfold on_bucket. cbn [fst snd]. rewrite Hi. destruct (c (ts, bucket_queue b)) as [[ts' q] r]. cbn [fst snd].
  eexists. split; [reflexivity|]. unfold table_wf. cbn [buckets]. rewrite insert_keys by done. split; [done|]. split; [done|].
  intros k. rewrite !queue_of_in. cbn [buckets]. rewrite queue_in_insert by done. rewrite Hk.
  destruct (decide (key = k)) as [->|]; [by rewrite decide_True|]. by rewrite decide_False.
Qed.
Lemma erase_spec key ts t : table_wf t ->
  exists t', erase_empty_bucket key (ts, t) = ((ts, t'), Ok tt) /\ table_wf t' /\ forall k, queue_of k t' = queue_of k t.
Proof.
  intros Hd. eexists. split; [reflexivity|]. cbn [snd buckets]. split.
  - eapply sublist_NoDup; [exact Hd|]. apply erase_keys.
  - intros k. rewrite !queue_of_in. by apply erase_queue.
Qed.
Lemma bucket_for_spec key ts t : table_wf t ->
  exists i t' b, bucket_for key (ts, t) = ((ts, t'), Ok i) /\ table_wf t' /\ buckets t' !! i = Some b /\
    bucket_key b = key /\ forall k, queue_of k t' = queue_of k t.
Proof.
  intros Hd. unfold bucket_for. cbn [fst snd]. pose proof (find_bucket_spec key (buckets t)) as Hf.
  destruct (find_bucket key (buckets t)) as [i|].
  - destruct Hf as (b & Hi & Hk). exists i, t, b. done.
  - eexists _, _, _. split; [reflexivity|]. cbn [buckets]. split; [|split; [|split]].
    + unfold table_wf. cbn [buckets]. rewrite fmap_app. apply NoDup_app. split; [done|]. split; [|apply NoDup_singleton].
      intros x Hx Hk. apply list_elem_of_singleton in Hk as ->. by apply Hf.
    + rewrite lookup_app_r, Nat.sub_diag by done. reflexivity.
    + done.
    + intros k. rewrite !queue_of_in. apply queue_in_snoc_empty.
Qed.

(** C28. The futex table implements a map from keys to first-come-first-served queues: waiting blocks
    the thread at the end of its key's queue, or throws and changes no queue when the thread is dead
    or already there; waking one returns the first live waiter of the key, waking all returns every
    live waiter in order and leaves none; no operation touches the queue of another key. *)
Theorem futex_table_is_map_of_queues ts t key : table_wf t ->
  (forall p, exists t' ts' r, wait key p (ts, t) = ((ts', t'), r) /\ table_wf t' /\
     (forall k, k <> key -> queue_of k t' = queue_of k t) /\
     if alive ts p && negb (bool_decide (p ∈ queue_of key t))
     then r = Ok tt /\ ts' = store_state p TState.BLOCKED ts /\ queue_of key t' = queue_of key t ++ [p]
     else r = Throw logic_error /\ ts' = ts /\ queue_of key t' = queue_of key t) /\
  (exists t', wake_one key (ts, t) = ((ts, t'), Ok (head (Wait.live ts (mkWaitQueue (queue_of key t))))) /\
     table_wf t' /\ (forall k, k <> key -> queue_of k t' = queue_of k t) /\
     Wait.live ts (mkWaitQueue (queue_of key t')) = tail (Wait.live ts (mkWaitQueue (queue_of key t)))) /\
  (exists t', wake_all key (ts, t) = ((ts, t'), Ok (Wait.live ts (mkWaitQueue (queue_of key t)))) /\
     table_wf t' /\ (forall k, k <> key -> queue_of k t' = queue_of k t) /\ queue_of key t' = []).
Proof.
  intros Hd. split; [|split].
  - intros p. unfold wait. munfold_goal. destruct (bucket_for_spec key ts t Hd) as (i & t1 & b & -> & Hd1 & Hi & Hk & Hq1).
    destruct (on_bucket_spec key i b (Wait.wait p) ts t1 Hd1 Hi Hk) as (t2 & -> & Hd2 & _ & Hq2).
    rewrite !Hq1 in *. rewrite Wait.wait_eq in *. unfold Wait.contains in *. cbn [waiters] in *.
    destruct (alive ts p), (bool_decide (p ∈ queue_of key t)); cbn [negb orb andb fst snd waiters] in *;
      (eexists _, _, _; split; [reflexivity|]; split; [done|]; split;
       [intros k Hne; by rewrite Hq2, decide_False, Hq1 by done|rewrite Hq2, decide_True by done; done]).
  - unfold wake_one. munfold_goal. cbn [snd]. pose proof (find_bucket_spec key (buckets t)) as Hf.
    destruct (find_bucket key (buckets t)) as [i|] eqn:Ei.
    + destruct Hf as (b & Hi & Hk). destruct (on_bucket_spec key i b Wait.wake_one ts t Hd Hi Hk) as (t1 & -> & Hd1 & _ & Hq1).
      destruct (Wait.wake_one_live ts (mkWaitQueue (queue_of key t))) as (q' & Hw & Hl & _). rewrite Hw in *. cbn [fst snd] in *.
      destruct (erase_spec key ts t1 Hd1) as (t2 & -> & Hd2 & Hq2). exists t2. split; [done|]. split; [done|]. split.
      * intros k Hne. by rewrite Hq2, Hq1, decide_False.
      * rewrite Hq2, Hq1, decide_True by done. by destruct q'.
    + exists t. rewrite queue_of_in, queue_in_none by done. done.
  - unfold wake_all. munfold_goal. cbn [snd]. pose proof (find_bucket_spec key (buckets t)) as Hf.
    destruct (find_bucket key (buckets t)) as [i|] eqn:Ei.
    + destruct Hf as (b & Hi & Hk). destruct (on_bucket_spec key i b Wait.wake_all ts t Hd Hi Hk) as (t1 & -> & Hd1 & _ & Hq1).
      rewrite Wait.wake_all_live in *. cbn [fst snd] in *.
      destruct (erase_spec key ts t1 Hd1) as (t2 & -> & Hd2 & Hq2). exists t2. split; [done|]. split; [done|]. split.
      * intros k Hne. by rewrite Hq2, Hq1, decide_False.
      * by rewrite Hq2, Hq1, decide_True.
    + exists t. rewrite queue_of_in, queue_in_none by done. done.
Qed.

(** A wait that is refused still creates the bucket: the table is then not [empty()], although no
    thread waits on anything. *)
Lemma refused_wait_leaves_bucket key ts p : alive ts p = false ->
  wait key p (ts, mkFutexTable []) = ((ts, mkFutexTable [mkBucket key (mkWaitQueue [])]), Throw logic_error).
Proof. intros Hal. unfold wait. munfold_goal. unfold bucket_for, on_bucket. cbn. rewrite Wait.wait_eq, Hal. done. Qed.

Definition sample_key : FutexKey := mkFutexKey 1 0x400000.
Definition other_key : FutexKey := mkFutexKey 1 0x400004.
Definition sample_threads : Threads :=
  <[10 := mkThread 1 TState.BLOCKED make_cpu_state 0x1000 0x2000 0x1000 None]>
  (<[20 := mkThread 2 TState.DEAD make_cpu_state 0x1000 0x2000 0x1000 None]> ∅).
Definition sample_table : FutexTable :=
  mkFutexTable [mkBucket other_key (mkWaitQueue [20]); mkBucket sample_key (mkWaitQueue [20; 10])].
Lemma futex_table_is_map_of_queues_witness :
  exists t, wake_one sample_key (sample_threads, sample_table) = ((sample_threads, t), Ok (Some 10)) /\
    queue_of other_key t = [20].
Proof.
  destruct (futex_table_is_map_of_queues sample_threads sample_table sample_key) as (_ & (t & Hw & _ & Ho & _) & _).
  - unfold table_wf. cbn. apply NoDup_cons. split; [set_solver|]. apply NoDup_singleton.
  - exists t. split; [exact Hw|]. exact (Ho other_key ltac:(done)).
Defined.
End Futex.
