(* ===== verification/Smp.v ===== *)
(** * Multi-core scheduler

    Models src/os/sched/smp_scheduler.cpp: one run queue per core, migration, stealing and
    rebalancing, over the store of threads. *)

From S2P Require Import Prelude Logic Common CpuState Thread.

(* [include/mnos/os/sched/smp_scheduler.hpp] [ThreadMigration] *)
Record ThreadMigration : Set := mkMigration { source_core : Z; target_core : Z; migrated_thread_id : Z }.

(* [include/mnos/os/sched/smp_scheduler.hpp] [CoreRunQueue] [66-103] *)
Record CoreRunQueue : Type := mkCoreQueue {
  queue_core_id : Z;
  ready_threads : list ThreadRef;
  core_current : option ThreadRef;
  timer_tick_count : Z;
  preemption_count : Z;
}.
(* [include/mnos/os/sched/smp_scheduler.hpp] [SmpScheduler] *)
Record SmpScheduler : Type := mkSmp { topology : CoreTopology; core_queues : list CoreRunQueue }.

Module Smp.

(** ** One core *)

Abbreviation CQ A := (QueueM CoreRunQueue A).

Definition set_ready (l : list ThreadRef) (q : CoreRunQueue) : CoreRunQueue :=
  mkCoreQueue (queue_core_id q) l (core_current q) (timer_tick_count q) (preemption_count q).
Definition set_current (c : option ThreadRef) (q : CoreRunQueue) : CoreRunQueue :=
  mkCoreQueue (queue_core_id q) (ready_threads q) c (timer_tick_count q) (preemption_count q).

(* [src/os/sched/smp_scheduler.cpp] [SmpScheduler::CoreRunQueue::empty] *)
Definition queue_empty (q : CoreRunQueue) : bool :=
  bool_decide (core_current q = None) && bool_decide (ready_threads q = []).
(* [src/os/sched/smp_scheduler.cpp] [SmpScheduler::CoreRunQueue::contains_ready] *)
Definition contains_ready (p : ThreadRef) (q : CoreRunQueue) : bool := bool_decide (p ∈ ready_threads q).
(* [src/os/sched/smp_scheduler.cpp] [SmpScheduler::CoreRunQueue::contains] *)
Definition queue_contains (p : ThreadRef) (q : CoreRunQueue) : bool :=
  bool_decide (core_current q = Some p) || contains_ready p q.
(* [src/os/sched/smp_scheduler.cpp] [SmpScheduler::CoreRunQueue::has_work] *)
Definition has_work (q : CoreRunQueue) : bool :=
  bool_decide (is_Some (core_current q)) || negb (bool_decide (ready_threads q = [])).
(* [src/os/sched/smp_scheduler.cpp] [SmpScheduler::CoreRunQueue::ready_count] *)
Definition ready_count (q : CoreRunQueue) : Z := lenZ (ready_threads q).
(* [src/os/sched/smp_scheduler.cpp] [SmpScheduler::CoreRunQueue::load] *)
Definition load (q : CoreRunQueue) : Z :=
  lenZ (ready_threads q) + (if bool_decide (is_Some (core_current q)) then 1 else 0).
(* [src/os/sched/smp_scheduler.cpp] [SmpScheduler::CoreRunQueue::current] *)
Definition queue_current (q : CoreRunQueue) : res ThreadRef :=
  match core_current q with Some p => Ok p | None => Throw logic_error end.
(* [src/os/sched/smp_scheduler.cpp] [SmpScheduler::CoreRunQueue::bind_thread_to_core] *)
Definition bind_thread_to_core (p : ThreadRef) : CQ unit := modify (fun s => (store_core p (queue_core_id s.2) s.1, s.2)).
(* [src/os/sched/smp_scheduler.cpp] [SmpScheduler::CoreRunQueue::enqueue_ready] *)
Definition queue_enqueue_ready (p : ThreadRef) : CQ unit :=
  bind_thread_to_core p ≫= fun _ =>
  on_threads (store_state p TState.READY) ≫= fun _ =>
  on_queue (fun q => set_ready (ready_threads q ++ [p]) q).
(* [src/os/sched/smp_scheduler.cpp] [SmpScheduler::CoreRunQueue::take_next_runnable] *)
Definition take_next_runnable : CQ (option ThreadRef) := fun s =>
  let '(candidate, rest) := take_first (runnable s.1) (ready_threads s.2) in
  ((s.1, set_ready rest s.2), Ok candidate).
(* [src/os/sched/smp_scheduler.cpp] [SmpScheduler::CoreRunQueue::schedule_next] *)
Definition queue_schedule_next : CQ (option ThreadRef) :=
  get ≫= fun s =>
  (match core_current s.2 with
   | Some p =>
       if bool_decide (state_of s.1 p = TState.RUNNING) then
         on_threads (store_state p TState.READY) ≫= fun _ =>
         on_queue (fun q => set_ready (ready_threads q ++ [p]) q)
       else mret tt
   | None => mret tt
   end) ≫= fun _ =>
  on_queue (set_current None) ≫= fun _ =>
  take_next_runnable ≫= fun next_thread =>
  match next_thread with
  | None => mret None
  | Some p =>
      bind_thread_to_core p ≫= fun _ =>
      on_threads (store_state p TState.RUNNING) ≫= fun _ =>
      on_queue (set_current (Some p)) ≫= fun _ =>
      mret (Some p)
  end.
Definition queue_leave_current (st : ThreadState) : CQ (option ThreadRef) :=
  get ≫= fun s =>
  match core_current s.2 with
  | None => mret None
  | Some p =>
      on_threads (store_state p st) ≫= fun _ =>
      on_queue (set_current None) ≫= fun _ =>
      queue_schedule_next
  end.
(* [src/os/sched/smp_scheduler.cpp] [SmpScheduler::CoreRunQueue::block_current] *)
Definition queue_block_current : CQ (option ThreadRef) := queue_leave_current TState.BLOCKED.
(* [src/os/sched/smp_scheduler.cpp] [SmpScheduler::CoreRunQueue::exit_current] *)
Definition queue_exit_current : CQ (option ThreadRef) := queue_leave_current TState.DEAD.
Fixpoint remove_first (p : ThreadRef) (l : list ThreadRef) : list ThreadRef :=
  match l with
  | [] => []
  | x :: rest => if decide (x = p) then rest else x :: remove_first p rest
  end.
(* [src/os/sched/smp_scheduler.cpp] [SmpScheduler::CoreRunQueue::remove_ready] *)
Definition remove_ready (p : ThreadRef) : CQ unit :=
  on_queue (fun q => set_ready (remove_first p (ready_threads q)) q).
(** The loop pops from the back: the first runnable thread of the reversed queue. *)
(* [src/os/sched/smp_scheduler.cpp] [SmpScheduler::CoreRunQueue::take_migratable_back] *)
Definition take_migratable_back : CQ (option ThreadRef) := fun s =>
  let '(candidate, rest) := take_first (runnable s.1) (reverse (ready_threads s.2)) in
  ((s.1, set_ready (reverse rest) s.2), Ok candidate).
(* [src/os/sched/smp_scheduler.cpp] [SmpScheduler::CoreRunQueue::record_timer_tick] *)
Definition queue_record_timer_tick (preempted : bool) (q : CoreRunQueue) : CoreRunQueue :=
  mkCoreQueue (queue_core_id q) (ready_threads q) (core_current q) (add64 (timer_tick_count q) 1)
    (if preempted then add64 (preemption_count q) 1 else preemption_count q).

(** ** All cores *)

Abbreviation SM A := (QueueM SmpScheduler A).

Definition make_core_queue (core_id : Z) : CoreRunQueue := mkCoreQueue core_id [] None 0 0.
(* [src/os/sched/smp_scheduler.cpp] [SmpScheduler::SmpScheduler] *)
Definition make_scheduler (t : CoreTopology) : SmpScheduler := mkSmp t (make_core_queue <$> seqZ 0 (core_count t)).

(** A call on the queue of index [i]; an index outside the vector is undefined in C++. *)
Definition on_core {A} (i : nat) (c : CQ A) : SM A := fun s =>
  match core_queues s.2 !! i with
  | Some q =>
      let '((ts, q'), r) := c (s.1, q) in
      ((ts, mkSmp (topology s.2) (<[i := q']> (core_queues s.2))), r)
  | None => (s, Throw logic_error)
  end.
(* [src/os/sched/smp_scheduler.cpp] [SmpScheduler::queue_index] *)
Definition queue_index (core_id : Z) (s : SmpScheduler) : res nat :=
  if negb (topology_contains (topology s) core_id) then Throw out_of_range else Ok (Z.to_nat core_id).
(** The reference [queue_for_core] returns, as its index. *)
(* [src/os/sched/smp_scheduler.cpp] [SmpScheduler::queue_for_core] *)
Definition queue_for_core (core_id : Z) : SM nat := lift (fun s => queue_index core_id s.2).

(* [src/os/sched/smp_scheduler.cpp] [SmpScheduler::empty] *)
Definition empty (s : SmpScheduler) : bool := forallb queue_empty (core_queues s).
(* [src/os/sched/smp_scheduler.cpp] [SmpScheduler::contains] *)
Definition contains (p : ThreadRef) (s : SmpScheduler) : bool := existsb (queue_contains p) (core_queues s).
(* [src/os/sched/smp_scheduler.cpp] [SmpScheduler::total_ready_count] *)
Definition total_ready_count (s : SmpScheduler) : Z := foldl (fun n q => n + ready_count q) 0 (core_queues s).
(* [src/os/sched/smp_scheduler.cpp] [SmpScheduler::total_running_count] *)
Definition total_running_count (s : SmpScheduler) : Z :=
  foldl (fun n q => if bool_decide (is_Some (core_current q)) then n + 1 else n) 0 (core_queues s).
(* [src/os/sched/smp_scheduler.cpp] [SmpScheduler::current_core_of] *)
Definition current_core_of (p : ThreadRef) (s : SmpScheduler) : option Z :=
  queue_core_id <$> head (filter (fun q => queue_contains p q = true) (core_queues s)).

(** The index of the first queue that beats all the ones before it. *)
Fixpoint best_index (better : CoreRunQueue -> CoreRunQueue -> bool) (best : nat) (bq : CoreRunQueue)
    (index : nat) (rest : list CoreRunQueue) : nat :=
  match rest with
  | [] => best
  | q :: rest' =>
      if better q bq then best_index better index q (S index) rest' else best_index better best bq (S index) rest'
  end.
Definition choose (better : CoreRunQueue -> CoreRunQueue -> bool) (qs : list CoreRunQueue) : nat :=
  match qs with [] => 0%nat | q :: rest => best_index better 0 q 1 rest end.
(* [src/os/sched/smp_scheduler.cpp] [SmpScheduler::least_loaded_queue] *)
Definition least_loaded_queue (s : SmpScheduler) : nat := choose (fun a b => load a <? load b) (core_queues s).
(* [src/os/sched/smp_scheduler.cpp] [SmpScheduler::busiest_ready_queue] *)
Definition busiest_ready_queue (s : SmpScheduler) : nat :=
  choose (fun a b => ready_count b <? ready_count a) (core_queues s).
Fixpoint find_queue (good : CoreRunQueue -> bool) (i : nat) (qs : list CoreRunQueue) : option nat :=
  match qs with [] => None | q :: rest => if good q then Some i else find_queue good (S i) rest end.
(* [src/os/sched/smp_scheduler.cpp] [SmpScheduler::queue_containing_ready] *)
Definition queue_containing_ready (p : ThreadRef) (s : SmpScheduler) : option nat :=
  find_queue (contains_ready p) 0 (core_queues s).
(* [src/os/sched/smp_scheduler.cpp] [SmpScheduler::ensure_can_enqueue] *)
Definition ensure_can_enqueue (p : ThreadRef) : SM unit :=
  get ≫= fun s =>
  throw_if (negb (alive s.1 p)) logic_error ≫= fun _ =>
  throw_if (bool_decide (state_of s.1 p = TState.RUNNING)) logic_error ≫= fun _ =>
  throw_if (contains p s.2) logic_error.
(** The id of the queue at an index. *)
Definition core_id_at (i : nat) : SM Z :=
  gets (fun s => match core_queues s.2 !! i with Some q => queue_core_id q | None => 0 end).

(* [src/os/sched/smp_scheduler.cpp] [SmpScheduler::enqueue] *)
Definition enqueue (p : ThreadRef) : SM Z :=
  ensure_can_enqueue p ≫= fun _ =>
  gets (fun s => least_loaded_queue s.2) ≫= fun i =>
  on_core i (queue_enqueue_ready p) ≫= fun _ =>
  core_id_at i.
(* [src/os/sched/smp_scheduler.cpp] [SmpScheduler::enqueue #2] *)
Definition enqueue_on (p : ThreadRef) (target : Z) : SM unit :=
  ensure_can_enqueue p ≫= fun _ =>
  queue_for_core target ≫= fun i => on_core i (queue_enqueue_ready p).
(* [src/os/sched/smp_scheduler.cpp] [SmpScheduler::wake] *)
Definition wake (p : ThreadRef) : SM Z :=
  ensure_can_enqueue p ≫= fun _ =>
  gets (fun s => least_loaded_queue s.2) ≫= fun i =>
  on_core i (queue_enqueue_ready p) ≫= fun _ =>
  core_id_at i.
(* [src/os/sched/smp_scheduler.cpp] [SmpScheduler::wake #2] *)
Definition wake_on (p : ThreadRef) (target : Z) : SM unit :=
  ensure_can_enqueue p ≫= fun _ =>
  queue_for_core target ≫= fun i => on_core i (queue_enqueue_ready p).
(* [src/os/sched/smp_scheduler.cpp] [SmpScheduler::schedule_next] *)
Definition schedule_next (core : Z) : SM (option ThreadRef) := queue_for_core core ≫= fun i => on_core i queue_schedule_next.
(* [src/os/sched/smp_scheduler.cpp] [SmpScheduler::yield_current] *)
Definition yield_current (core : Z) : SM (option ThreadRef) := queue_for_core core ≫= fun i => on_core i queue_schedule_next.
(* [src/os/sched/smp_scheduler.cpp] [SmpScheduler::block_current] *)
Definition block_current (core : Z) : SM (option ThreadRef) := queue_for_core core ≫= fun i => on_core i queue_block_current.
(* [src/os/sched/smp_scheduler.cpp] [SmpScheduler::exit_current] *)
Definition exit_current (core : Z) : SM (option ThreadRef) := queue_for_core core ≫= fun i => on_core i queue_exit_current.
(** The id read through a thread pointer. *)
Definition id_of (ts : Threads) (p : ThreadRef) : Z := match ts !! p with Some t => thread_id t | None => 0 end.
(* [src/os/sched/smp_scheduler.cpp] [SmpScheduler::migrate_ready] *)
Definition migrate_ready (p : ThreadRef) (target : Z) : SM ThreadMigration :=
  get ≫= fun s =>
  match queue_containing_ready p s.2 with
  | None => throw logic_error
  | Some source =>
      throw_if (negb (bool_decide (state_of s.1 p = TState.READY))) logic_error ≫= fun _ =>
      queue_for_core target ≫= fun i =>
      core_id_at source ≫= fun source_id =>
      core_id_at i ≫= fun target_id =>
      gets (fun s => id_of s.1 p) ≫= fun id =>
      let migration := mkMigration source_id target_id id in
      if decide (source = i) then mret migration
      else
        on_core source (remove_ready p) ≫= fun _ =>
        on_core i (queue_enqueue_ready p) ≫= fun _ =>
        mret migration
  end.
(* [src/os/sched/smp_scheduler.cpp] [SmpScheduler::steal_one] *)
Definition steal_one (source target : Z) : SM (option ThreadMigration) :=
  queue_for_core source ≫= fun i =>
  queue_for_core target ≫= fun j =>
  on_core i take_migratable_back ≫= fun thread =>
  match thread with
  | None => mret None
  | Some p =>
      on_core j (queue_enqueue_ready p) ≫= fun _ =>
      core_id_at i ≫= fun source_id =>
      core_id_at j ≫= fun target_id =>
      gets (fun s => id_of s.1 p) ≫= fun id =>
      mret (Some (mkMigration source_id target_id id))
  end.
(* [src/os/sched/smp_scheduler.cpp] [SmpScheduler::rebalance_once] *)
Definition rebalance_once : SM (option ThreadMigration) :=
  gets snd ≫= fun s =>
  let source := busiest_ready_queue s in
  let target := least_loaded_queue s in
  core_id_at source ≫= fun source_id =>
  core_id_at target ≫= fun target_id =>
  let at_index i := nth i (core_queues s) (make_core_queue 0) in
  if (source_id =? target_id) || (ready_count (at_index source) <=? load (at_index target) + 1) then mret None
  else steal_one source_id target_id.
(* [src/os/sched/smp_scheduler.cpp] [SmpScheduler::record_timer_tick] *)
Definition record_timer_tick (core : Z) (preempted : bool) : SM unit :=
  queue_for_core core ≫= fun i => on_core i (on_queue (queue_record_timer_tick preempted)).

(** ** Consistency *)

Definition owned (q : CoreRunQueue) : list ThreadRef := option_list (core_current q) ++ ready_threads q.
(** Every thread some core holds, with its repetitions. *)
Definition all_threads (qs : list CoreRunQueue) : list ThreadRef := concat (owned <$> qs).
Definition core_of (ts : Threads) (p : ThreadRef) : option Z := (fun t => core_id (thread_cpu_state t)) <$> ts !! p.

(** What a core knows about the threads it holds. *)
Record local_ok (ts : Threads) (q : CoreRunQueue) : Prop := {
  l_current p : core_current q = Some p -> state_of ts p = TState.RUNNING;
  l_ready p : p ∈ ready_threads q -> state_of ts p = TState.READY;
  l_bound p : p ∈ owned q -> core_of ts p = Some (queue_core_id q);
}.
Record consistent (s : Threads * SmpScheduler) : Prop := {
  s_cores : lenZ (core_queues s.2) = core_count (topology s.2);
  s_ids i q : core_queues s.2 !! i = Some q -> queue_core_id q = Z.of_nat i;
  s_distinct : NoDup (all_threads (core_queues s.2));
  s_local q : q ∈ core_queues s.2 -> local_ok s.1 q;
  s_running p : state_of s.1 p = TState.RUNNING -> exists q, q ∈ core_queues s.2 /\ core_current q = Some p;
}.

Lemma core_of_store_state p st x ts : core_of (store_state p st ts) x = core_of ts x.
Proof.
  unfold core_of, store_state. destruct (decide (p = x)) as [->|]; [rewrite lookup_alter_eq|by rewrite lookup_alter_ne].
  by destruct (ts !! x).
Qed.
Lemma core_of_store_core p c x ts : core_of (store_core p c ts) x =
  if decide (p = x /\ is_Some (ts !! x)) then Some c else core_of ts x.
Proof.
  unfold core_of, store_core. destruct (decide (p = x)) as [->|Hne].
  - rewrite lookup_alter_eq. destruct (ts !! x); simpl; [by rewrite decide_True|]. rewrite decide_False; [done|]. by intros [_ [? ?]].
  - rewrite lookup_alter_ne by done. rewrite decide_False; [done|]. tauto.
Qed.

(** The threads of all cores, seen from one of them. *)
Lemma all_threads_split qs i q : qs !! i = Some q ->
  exists others, all_threads qs ≡ₚ owned q ++ others /\
    (forall q', all_threads (<[i := q']> qs) ≡ₚ owned q' ++ others) /\
    (forall j x, j <> i -> qs !! j = Some x -> forall p, p ∈ owned x -> p ∈ others).
Proof.
  intros Hi. exists (all_threads (take i qs) ++ all_threads (drop (S i) qs)). unfold all_threads. split_and!.
  - rewrite <- (take_drop_middle qs i q Hi) at 1. rewrite fmap_app, fmap_cons, concat_app. simpl. solve_Permutation.
  - intros q'. assert (Hlt : (i < length qs)%nat) by by eapply lookup_lt_Some.
    rewrite insert_take_drop by done. rewrite fmap_app, fmap_cons, concat_app. simpl. solve_Permutation.
  - intros j x Hj Hx p Hp. apply elem_of_app. destruct (decide (j < i)%nat) as [Hlt|Hge].
    + left. apply list_elem_of_In, in_concat. exists (owned x). split; [|by apply list_elem_of_In].
      apply list_elem_of_In, list_elem_of_fmap_2, list_elem_of_lookup. exists j. by rewrite lookup_take_lt.
    + right. apply list_elem_of_In, in_concat. exists (owned x). split; [|by apply list_elem_of_In].
      apply list_elem_of_In, list_elem_of_fmap_2, list_elem_of_lookup. exists (j - S i)%nat. rewrite lookup_drop.
      by replace (S i + (j - S i))%nat with j by lia.
Qed.
Lemma owned_all qs q p : q ∈ qs -> p ∈ owned q -> p ∈ all_threads qs.
Proof.
  intros Hq Hp. apply list_elem_of_In, in_concat. exists (owned q). split; [|by apply list_elem_of_In].
  by apply list_elem_of_In, list_elem_of_fmap_2.
Qed.

Lemma submseteq_NoDup (l k : list ThreadRef) : l ⊆+ k -> NoDup k -> NoDup l.
Proof. intros [m Hm]%submseteq_Permutation Hk. rewrite Hm in Hk. by apply NoDup_app in Hk as (? & _). Qed.
(** A change of one core and of the threads it holds, together with [extra] threads it acquires. *)
Record local_step (extra : list ThreadRef) (ts : Threads) (q : CoreRunQueue) (ts' : Threads) (q' : CoreRunQueue) : Prop := {
  ls_owned : owned q' ⊆+ extra ++ owned q;
  ls_id : queue_core_id q' = queue_core_id q;
  ls_ok : local_ok ts' q';
  ls_frame p : p ∉ extra ++ owned q -> state_of ts' p = state_of ts p /\ core_of ts' p = core_of ts p;
  ls_running p : p ∈ extra ++ owned q -> state_of ts' p = TState.RUNNING -> core_current q' = Some p;
}.

Lemma consistent_step extra ts s i q ts' q' :
  consistent (ts, s) -> core_queues s !! i = Some q -> NoDup extra ->
  (forall p, p ∈ extra -> p ∉ all_threads (core_queues s)) ->
  local_step extra ts q ts' q' -> consistent (ts', mkSmp (topology s) (<[i := q']> (core_queues s))).
Proof.
  intros [Hc Hid Hd Hl Hr] Hi Hx Hfresh [Ho Hqid Hok Hframe Hrun]. cbn [fst snd] in *.
  destruct (all_threads_split _ _ _ Hi) as (others & Hall & Hall' & Hoth).
  assert (Hd' : NoDup ((extra ++ owned q) ++ others)).
  { rewrite <- app_assoc. apply NoDup_app. split; [done|]. split; [|by rewrite <- Hall].
    intros p Hp Hin. apply (Hfresh p Hp). by rewrite Hall. }
  assert (Hout : forall j x p, j <> i -> core_queues s !! j = Some x -> p ∈ owned x -> p ∉ extra ++ owned q).
  { intros j x p Hj Hjx Hp Hin. apply NoDup_app in Hd' as (_ & Hdis & _). apply (Hdis p Hin). by eapply Hoth. }
  split; cbn [fst snd core_queues topology].
  - unfold lenZ in *. by rewrite length_insert.
  - intros j x Hj. destruct (decide (i = j)) as [<-|Hne].
    + rewrite list_lookup_insert_eq in Hj by by eapply lookup_lt_Some. injection Hj as <-. rewrite Hqid. by apply Hid.
    + rewrite list_lookup_insert_ne in Hj by done. by apply Hid.
  - rewrite Hall'. apply NoDup_app in Hd' as (Hd1 & Hdis & Hd2). apply NoDup_app. split; [|split; [|done]].
    + by eapply submseteq_NoDup.
    + intros p Hp. apply Hdis. by eapply elem_of_submseteq.
  - intros x Hxin. apply list_elem_of_lookup in Hxin as [j Hj]. destruct (decide (i = j)) as [<-|Hne].
    + rewrite list_lookup_insert_eq in Hj by by eapply lookup_lt_Some. by injection Hj as <-.
    + rewrite list_lookup_insert_ne in Hj by done. destruct (Hl x) as [H1 H2 H3]; [by eapply list_elem_of_lookup_2|].
      assert (Hown : forall p, p ∈ owned x -> state_of ts' p = state_of ts p /\ core_of ts' p = core_of ts p).
      { intros p Hp. apply Hframe. eapply (Hout j x); [congruence|done|done]. }
      split; intros p Hp.
      * rewrite (proj1 (Hown p ltac:(apply elem_of_app; left; rewrite Hp; by left))). by apply H1.
      * rewrite (proj1 (Hown p ltac:(apply elem_of_app; by right))). by apply H2.
      * rewrite (proj2 (Hown p Hp)). by apply H3.
  - intros p Hp. destruct (decide (p ∈ extra ++ owned q)) as [Hin|Hnin].
    + exists q'. split; [|by apply Hrun]. eapply (list_elem_of_lookup_2 _ i), list_lookup_insert_eq.
      by eapply lookup_lt_Some.
    + rewrite (proj1 (Hframe p Hnin)) in Hp. destruct (Hr p Hp) as (x & Hx' & Hcx). exists x. split; [|done].
      apply list_elem_of_lookup in Hx' as [j Hj]. eapply (list_elem_of_lookup_2 _ j).
      rewrite list_lookup_insert_ne; [done|]. intros ->. apply Hnin. assert (x = q) as -> by congruence.
      apply elem_of_app. right. unfold owned. rewrite Hcx. by left.
Qed.

(** Reduces the fields of an updated queue. *)
Ltac qsimpl :=
  unfold owned, set_current, set_ready;
  cbn [core_current ready_threads queue_core_id timer_tick_count preemption_count option_list app].
Lemma local_step_refl ts q : local_ok ts q ->
  (forall p, p ∈ owned q -> state_of ts p = TState.RUNNING -> core_current q = Some p) -> local_step [] ts q ts q.
Proof. intros Hok Hr. split; done. Qed.
Lemma local_running ts q : local_ok ts q -> forall p, p ∈ owned q -> state_of ts p = TState.RUNNING -> core_current q = Some p.
Proof.
  intros [_ Hready _] p Hp Hst. apply elem_of_app in Hp as [Hp|Hp].
  - destruct (core_current q) as [c|]; cbn in Hp; [|by apply elem_of_nil in Hp].
    by apply list_elem_of_singleton in Hp as ->.
  - by rewrite Hready in Hst.
Qed.
Lemma local_step_trans ts q ts1 q1 ts2 q2 :
  local_step [] ts q ts1 q1 -> local_step [] ts1 q1 ts2 q2 -> local_step [] ts q ts2 q2.
Proof.
  intros [Ho1 Hi1 Hk1 Hf1 Hr1] [Ho2 Hi2 Hk2 Hf2 Hr2]. cbn [app] in *. split; cbn [app].
  - by etransitivity.
  - congruence.
  - done.
  - intros p Hp. assert (Hp1 : p ∉ owned q1) by (intros H; apply Hp; by eapply elem_of_submseteq).
    destruct (Hf1 p Hp), (Hf2 p Hp1). split; congruence.
  - intros p Hp Hst. destruct (decide (p ∈ owned q1)) as [Hin|Hnin]; [by apply Hr2|].
    exfalso. apply Hnin. rewrite (proj1 (Hf2 p Hnin)) in Hst. specialize (Hr1 p Hp Hst).
    apply elem_of_app. left. rewrite Hr1. by left.
Qed.

(** Stores to [p] seen at [x]. *)
Lemma state_after_bind p c st ts x : is_Some (ts !! p) ->
  state_of (store_state p st (store_core p c ts)) x = (if decide (p = x) then st else state_of ts x) /\
  core_of (store_state p st (store_core p c ts)) x = (if decide (p = x) then Some c else core_of ts x).
Proof.
  intros Hk. rewrite state_of_store, state_of_store_core, core_of_store_state, core_of_store_core.
  destruct (decide (p = x)) as [<-|Hne].
  - rewrite !decide_True; [done|done|split; [done|by apply known_store_core]].
  - rewrite !decide_False by tauto. done.
Qed.

Lemma enqueue_ready_step p ts q : local_ok ts q -> is_Some (ts !! p) -> p ∉ owned q ->
  exists ts' q', queue_enqueue_ready p (ts, q) = ((ts', q'), Ok tt) /\ local_step [p] ts q ts' q' /\
    ready_threads q' = ready_threads q ++ [p] /\ core_current q' = core_current q.
Proof.
  intros [H1 H2 H3] Hk Hp. eexists _, _. split; [reflexivity|]. cbn [fst snd].
  assert (Hne : forall x, x ∈ owned q -> p <> x) by (intros x Hx ->; done).
  split; [|done]. split; qsimpl.
  - rewrite app_assoc. by rewrite (Permutation_app_comm _ [p]).
  - done.
  - split; qsimpl.
    + intros x Hx. assert (Ho : x ∈ owned q) by (apply elem_of_app; left; rewrite Hx; by left).
      rewrite (proj1 (state_after_bind p _ _ ts x Hk)), decide_False by by apply Hne. by apply H1.
    + intros x Hx. rewrite (proj1 (state_after_bind p _ _ ts x Hk)). case_decide; [done|].
      apply elem_of_app in Hx as [Hx|Hx]; [by apply H2|]. apply list_elem_of_singleton in Hx. congruence.
    + intros x Hx. rewrite (proj2 (state_after_bind p _ _ ts x Hk)). case_decide; [done|]. apply H3.
      unfold owned in Hx. cbn [core_current ready_threads] in Hx. rewrite app_assoc in Hx.
      apply elem_of_app in Hx as [Hx|Hx]; [done|]. apply list_elem_of_singleton in Hx. congruence.
  - intros x Hx. apply not_elem_of_cons in Hx as [Hx _]. destruct (state_after_bind p (queue_core_id q) TState.READY ts x Hk) as [-> ->].
    by rewrite !decide_False.
  - intros x Hx Hst. destruct (decide (p = x)) as [<-|Hpx].
    { rewrite (proj1 (state_after_bind p _ _ ts p Hk)), decide_True in Hst by done. done. }
    rewrite (proj1 (state_after_bind p _ _ ts x Hk)), decide_False in Hst by done.
    apply elem_of_cons in Hx as [->|Hx]; [done|]. by apply (local_running ts q).
Qed.

(** Putting back the current thread. *)
Lemma requeue_step ts q p : local_ok ts q -> NoDup (owned q) -> core_current q = Some p ->
  local_step [] ts q (store_state p TState.READY ts) (set_current None (set_ready (ready_threads q ++ [p]) q)).
Proof.
  intros [H1 H2 H3] Hd Hc. pose proof (H1 p Hc) as Hrun.
  assert (Hk : is_Some (ts !! p)) by (unfold state_of in Hrun; destruct (ts !! p); [by eexists|done]).
  split; qsimpl.
  - rewrite Hc. qsimpl. by rewrite (Permutation_app_comm (ready_threads q)).
  - done.
  - split; qsimpl; [done| |].
    + intros x Hx. rewrite state_of_store. destruct (decide _) as [|Hn]; [done|].
      apply elem_of_app in Hx as [Hx|Hx]; [by apply H2|]. apply list_elem_of_singleton in Hx as ->. exfalso. by apply Hn.
    + intros x Hx. rewrite core_of_store_state. apply H3. unfold owned in *. cbn in Hx. rewrite Hc.
      apply elem_of_app in Hx as [Hx|Hx]; apply elem_of_app; [by right|by left].
  - intros x Hx. rewrite core_of_store_state. rewrite state_of_store_ne; [done|]. intros ->. apply Hx.
    unfold owned. rewrite Hc. by left.
  - intros x Hx Hst. rewrite state_of_store in Hst. destruct (decide _) as [|Hn]; [done|].
    unfold owned in Hx. rewrite Hc in Hx. apply elem_of_app in Hx as [Hx|Hx].
    + apply list_elem_of_singleton in Hx as ->. exfalso. by apply Hn.
    + by rewrite H2 in Hst.
Qed.
(** Letting the current thread go in a state other than running. *)
Lemma release_step ts q p st : local_ok ts q -> NoDup (owned q) -> core_current q = Some p -> st <> TState.RUNNING ->
  local_step [] ts q (store_state p st ts) (set_current None q).
Proof.
  intros [H1 H2 H3] Hd Hc Hst0. pose proof (H1 p Hc) as Hrun. unfold owned in Hd. rewrite Hc in Hd. apply NoDup_cons in Hd as [Hpn Hd].
  assert (Hk : is_Some (ts !! p)) by (unfold state_of in Hrun; destruct (ts !! p); [by eexists|done]).
  split; qsimpl.
  - rewrite Hc. qsimpl. by apply submseteq_cons.
  - done.
  - split; qsimpl; [done| |].
    + intros x Hx. rewrite state_of_store_ne; [by apply H2|]. by intros ->.
    + intros x Hx. rewrite core_of_store_state. apply H3. unfold owned. apply elem_of_app. by right.
  - intros x Hx. rewrite core_of_store_state. rewrite state_of_store_ne; [done|]. intros ->. apply Hx.
    unfold owned. rewrite Hc. by left.
  - intros x Hx Hst. rewrite state_of_store in Hst. destruct (decide _) as [|Hn]; [done|].
    unfold owned in Hx. rewrite Hc in Hx. apply elem_of_app in Hx as [Hx|Hx].
    + apply list_elem_of_singleton in Hx as ->. exfalso. by apply Hn.
    + by rewrite H2 in Hst.
Qed.
(** Running the first ready thread of an idle core. *)
Lemma dispatch_step ts q p rest : local_ok ts q -> NoDup (owned q) -> core_current q = None -> ready_threads q = p :: rest ->
  local_step [] ts q (store_state p TState.RUNNING (store_core p (queue_core_id q) ts)) (set_current (Some p) (set_ready rest q)).
Proof.
  intros [H1 H2 H3] Hd Hc Hr. unfold owned in *. rewrite Hc, Hr in *. cbn [option_list app] in *.
  apply NoDup_cons in Hd as [Hpn Hd]. pose proof (H2 p ltac:(by left)) as Hp.
  assert (Hk : is_Some (ts !! p)) by (unfold state_of in Hp; destruct (ts !! p); [by eexists|done]).
  split; qsimpl.
  - by rewrite Hc, Hr.
  - done.
  - split; qsimpl.
    + intros x [= <-]. by rewrite (proj1 (state_after_bind p _ _ ts p Hk)), decide_True.
    + intros x Hx. rewrite (proj1 (state_after_bind p _ _ ts x Hk)), decide_False; [apply H2; by right|]. by intros ->.
    + intros x Hx. rewrite (proj2 (state_after_bind p _ _ ts x Hk)). case_decide; [done|]. by apply H3.
  - rewrite Hc, Hr. qsimpl. intros x Hx. apply not_elem_of_cons in Hx as [Hx _].
    destruct (state_after_bind p (queue_core_id q) TState.RUNNING ts x Hk) as [-> ->]. by rewrite !decide_False.
  - rewrite Hc, Hr. qsimpl. intros x Hx Hst. apply elem_of_cons in Hx as [->|Hx]; [done|].
    destruct (decide (p = x)) as [->|Hne]; [done|].
    rewrite (proj1 (state_after_bind p _ _ ts x Hk)), decide_False in Hst by done. rewrite H2 in Hst by by right. done.
Qed.

(** [c] changes one core in a local step and returns [r]. *)
Definition steps_to {A} (c : CQ A) (ts : Threads) (q : CoreRunQueue) (post : Threads -> CoreRunQueue -> A -> Prop) : Prop :=
  exists ts' q' r, c (ts, q) = ((ts', q'), Ok r) /\ local_step [] ts q ts' q' /\ post ts' q' r.

Lemma local_step_distinct ts q ts' q' : local_step [] ts q ts' q' -> NoDup (owned q) -> NoDup (owned q').
Proof. intros Hs Hd. eapply submseteq_NoDup; [apply (ls_owned _ _ _ _ _ Hs)|done]. Qed.

Lemma dispatch_core_spec ts q : local_ok ts q -> NoDup (owned q) -> core_current q = None ->
  exists ts' q', (take_next_runnable ≫= fun next_thread =>
    match next_thread with
    | None => mret None
    | Some p =>
        bind_thread_to_core p ≫= fun _ =>
        on_threads (store_state p TState.RUNNING) ≫= fun _ =>
        on_queue (set_current (Some p)) ≫= fun _ =>
        mret (Some p)
    end) (ts, q) = ((ts', q'), Ok (head (ready_threads q))) /\ local_step [] ts q ts' q' /\
    core_current q' = head (ready_threads q) /\ ready_threads q' = tail (ready_threads q).
Proof.
  intros Hok Hd Hc. unfold take_next_runnable, bind_thread_to_core, on_threads, on_queue. munfold_goal. cbn [fst snd].
  rewrite take_first_good.
  2:{ apply Forall_forall. intros p Hp. apply bool_decide_eq_true. by apply (l_ready _ _ Hok). }
  destruct (ready_threads q) as [|p rest] eqn:Er; cbn [head tail fst snd].
  - eexists _, _. split; [reflexivity|]. split; [|done].
    replace (set_ready [] q) with q by (destruct q; cbn in *; by subst).
    apply local_step_refl; [done|]. by apply local_running.
  - eexists _, _. split; [reflexivity|]. split; [|done]. exact (dispatch_step ts q p rest Hok Hd Hc Er).
Qed.
Lemma schedule_next_steps ts q : local_ok ts q -> NoDup (owned q) ->
  steps_to queue_schedule_next ts q (fun _ q' r =>
    r = head (ready_threads q ++ option_list (core_current q)) /\ core_current q' = r).
Proof.
  intros Hok Hd. unfold steps_to, queue_schedule_next. set (k := fun _ : option ThreadRef => _).
  destruct (core_current q) as [p|] eqn:Hc.
  - pose proof (requeue_step ts q p Hok Hd Hc) as Hs. pose proof (local_step_distinct _ _ _ _ Hs Hd) as Hd1.
    destruct (dispatch_core_spec _ _ (ls_ok _ _ _ _ _ Hs) Hd1 eq_refl) as (ts' & q' & Heq & Hs' & Hcur & _).
    exists ts', q', (head (ready_threads q ++ [p])). split.
    + munfold_goal. cbn [fst snd]. rewrite Hc, (l_current _ _ Hok p Hc), bool_decide_true by done. exact Heq.
    + split; [by eapply local_step_trans|]. by split.
  - destruct (dispatch_core_spec ts q Hok Hd Hc) as (ts' & q' & Heq & Hs' & Hcur & _).
    exists ts', q', (head (ready_threads q)). split.
    + munfold_goal. cbn [fst snd]. rewrite Hc. unfold on_queue. munfold_goal. cbn [fst snd].
      replace (set_current None q) with q by (destruct q; cbn in *; by subst). exact Heq.
    + split; [done|]. by rewrite app_nil_r.
Qed.
Lemma leave_current_steps st ts q : local_ok ts q -> NoDup (owned q) -> st <> TState.RUNNING ->
  steps_to (queue_leave_current st) ts q (fun _ q' r =>
    r = (match core_current q with Some _ => head (ready_threads q) | None => None end) /\ core_current q' = r).
Proof.
  intros Hok Hd Hst. unfold steps_to, queue_leave_current. munfold_goal. cbn [fst snd].
  destruct (core_current q) as [p|] eqn:Hc.
  - pose proof (release_step ts q p st Hok Hd Hc Hst) as Hs. pose proof (local_step_distinct _ _ _ _ Hs Hd) as Hd1.
    destruct (schedule_next_steps _ _ (ls_ok _ _ _ _ _ Hs) Hd1) as (ts' & q' & r & Heq & Hs' & Hr & Hcur).
    exists ts', q', r. split; [exact Heq|]. split; [by eapply local_step_trans|]. split; [|done]. rewrite Hr. cbn. by rewrite app_nil_r.
  - exists ts, q, None. split; [done|]. split; [|done]. apply local_step_refl; [done|]. by apply local_running.
Qed.

(** Taking threads off the ready queue changes no thread. *)
Lemma drop_ready_step ts q l : local_ok ts q -> l ⊆+ ready_threads q -> local_step [] ts q ts (set_ready l q).
Proof.
  intros Hok Hl. assert (Hsub : owned (set_ready l q) ⊆+ owned q) by (qsimpl; by apply submseteq_app).
  pose proof Hok as [H1 H2 H3]. split; qsimpl.
  - exact Hsub.
  - done.
  - split; qsimpl; [done| |].
    + intros x Hx. apply H2. by eapply elem_of_submseteq.
    + intros x Hx. apply H3. by eapply elem_of_submseteq.
  - done.
  - intros x Hx Hst. by apply (local_running ts q Hok x Hx).
Qed.
Lemma take_back_steps ts q : local_ok ts q -> NoDup (owned q) ->
  steps_to take_migratable_back ts q (fun ts' q' r =>
    ts' = ts /\ core_current q' = core_current q /\
    match r with
    | Some p => ready_threads q = ready_threads q' ++ [p] /\ p ∈ owned q /\ p ∉ owned q' /\ is_Some (ts !! p)
    | None => ready_threads q = [] /\ ready_threads q' = []
    end).
Proof.
  intros Hok Hd. unfold steps_to, take_migratable_back. cbn [fst snd]. rewrite take_first_good.
  2:{ apply Forall_forall. intros p Hp. rewrite elem_of_reverse in Hp. apply bool_decide_eq_true. by apply (l_ready _ _ Hok). }
  destruct (reverse (ready_threads q)) as [|p rest] eqn:Er; cbn [head tail].
  - assert (Hnil : ready_threads q = []) by (by apply (f_equal reverse) in Er; rewrite reverse_involutive in Er).
    eexists _, _, _. split; [reflexivity|]. split; [|done]. apply drop_ready_step; [done|]. rewrite Hnil. done.
  - assert (Hrd : ready_threads q = reverse rest ++ [p]).
    { apply (f_equal reverse) in Er. rewrite reverse_involutive, reverse_cons in Er. done. }
    eexists _, _, _. split; [reflexivity|]. split.
    + apply drop_ready_step; [done|]. rewrite Hrd. by apply submseteq_inserts_r.
    + split; [done|]. split; [done|]. cbn [ready_threads set_ready]. split; [done|].
      assert (Hst : state_of ts p = TState.READY) by (apply (l_ready _ _ Hok); rewrite Hrd; set_solver).
      split; [unfold owned; rewrite Hrd; set_solver|]. split.
      * qsimpl. unfold owned in Hd. rewrite Hrd, app_assoc in Hd. apply NoDup_app in Hd as (_ & Hdis & _).
        intros Hin. apply (Hdis p Hin). by left.
      * unfold state_of in Hst. destruct (ts !! p); [by eexists|done].
Qed.
Lemma remove_first_perm p l : p ∈ l -> l ≡ₚ p :: remove_first p l.
Proof.
  induction l as [|x l IH]; intros Hp; [by apply elem_of_nil in Hp|]. cbn [remove_first].
  destruct (decide (x = p)) as [->|Hne]; [done|]. apply elem_of_cons in Hp as [->|Hp]; [done|].
  rewrite (IH Hp) at 1. constructor.
Qed.
Lemma remove_ready_steps ts q p : local_ok ts q -> NoDup (owned q) -> p ∈ ready_threads q ->
  steps_to (remove_ready p) ts q (fun ts' q' _ => ts' = ts /\ p ∈ owned q /\ p ∉ owned q' /\ is_Some (ts !! p)).
Proof.
  intros Hok Hd Hp. pose proof (remove_first_perm p _ Hp) as Hperm.
  eexists _, _, _. split; [reflexivity|]. cbn [fst snd]. split.
  - apply drop_ready_step; [done|]. rewrite Hperm at 2. by apply submseteq_cons.
  - split; [done|]. assert (Hst : state_of ts p = TState.READY) by by apply (l_ready _ _ Hok).
    split; [unfold owned; set_solver|]. split.
    + qsimpl. unfold owned in Hd. rewrite Hperm in Hd. rewrite <- Permutation_middle in Hd.
      by apply NoDup_cons in Hd as [? _].
    + unfold state_of in Hst. destruct (ts !! p); [by eexists|done].
Qed.

(** ** All cores *)

Lemma owned_distinct qs i q : NoDup (all_threads qs) -> qs !! i = Some q -> NoDup (owned q).
Proof.
  intros Hd Hi. destruct (all_threads_split qs i q Hi) as (others & Hall & _). rewrite Hall in Hd.
  by apply NoDup_app in Hd as (? & _).
Qed.
Lemma in_owned p q : p ∈ owned q <-> core_current q = Some p \/ p ∈ ready_threads q.
Proof.
  unfold owned. rewrite elem_of_app. destruct (core_current q) as [c|].
  - change (option_list (Some c)) with [c]. rewrite list_elem_of_singleton. assert (Some c = Some p <-> p = c) as -> by (split; congruence). done.
  - change (option_list None) with (@nil ThreadRef). rewrite elem_of_nil. assert (@None Z = Some p <-> False) as -> by done. done.
Qed.
Lemma contains_all p s : contains p s = false <-> p ∉ all_threads (core_queues s).
Proof.
  unfold contains, all_threads. induction (core_queues s) as [|q qs IH]; cbn [existsb fmap list_fmap concat].
  { split; [|done]. intros _ Hp. by apply elem_of_nil in Hp. }
  rewrite orb_false_iff, IH, elem_of_app, in_owned. unfold queue_contains, contains_ready.
  rewrite orb_false_iff, !bool_decide_eq_false. tauto.
Qed.

Lemma on_core_steps {A} (c : CQ A) i q ts s post : consistent (ts, s) -> core_queues s !! i = Some q ->
  (local_ok ts q -> NoDup (owned q) -> steps_to c ts q post) ->
  exists ts' q' r, on_core i c (ts, s) = ((ts', mkSmp (topology s) (<[i := q']> (core_queues s))), Ok r) /\
    consistent (ts', mkSmp (topology s) (<[i := q']> (core_queues s))) /\ local_step [] ts q ts' q' /\ post ts' q' r.
Proof.
  intros Hc Hi Hstep. destruct Hstep as (ts' & q' & r & Heq & Hs & Hp).
  - apply (s_local _ Hc). by eapply list_elem_of_lookup_2.
  - eapply owned_distinct; [apply (s_distinct _ Hc)|done].
  - exists ts', q', r. unfold on_core. cbn [fst snd]. rewrite Hi, Heq. split; [done|]. split; [|done].
    eapply (consistent_step []); [exact Hc|done|constructor|by intros p ?%elem_of_nil|done].
Qed.
Lemma on_core_enqueue i q p ts s : consistent (ts, s) -> core_queues s !! i = Some q -> is_Some (ts !! p) ->
  p ∉ all_threads (core_queues s) ->
  exists ts' q', on_core i (queue_enqueue_ready p) (ts, s) = ((ts', mkSmp (topology s) (<[i := q']> (core_queues s))), Ok tt) /\
    consistent (ts', mkSmp (topology s) (<[i := q']> (core_queues s))) /\
    ready_threads q' = ready_threads q ++ [p] /\ core_current q' = core_current q.
Proof.
  intros Hc Hi Hk Hp. assert (Hq : q ∈ core_queues s) by by eapply list_elem_of_lookup_2.
  destruct (enqueue_ready_step p ts q) as (ts' & q' & Heq & Hs & Hr & Hcur).
  - by apply (s_local _ Hc).
  - done.
  - intros Hin. apply Hp. by eapply owned_all.
  - exists ts', q'. unfold on_core. cbn [fst snd]. rewrite Hi, Heq. split; [done|]. split; [|done].
    eapply (consistent_step [p]); [exact Hc|done|apply NoDup_singleton| |done]. intros x Hx. by apply list_elem_of_singleton in Hx as ->.
Qed.
(** Core ids are unsigned. *)
Lemma queue_for_core_spec core ts s : consistent (ts, s) -> 0 <= core ->
  queue_for_core core (ts, s) = ((ts, s), Throw out_of_range) \/
  exists q, queue_for_core core (ts, s) = ((ts, s), Ok (Z.to_nat core)) /\ core_queues s !! Z.to_nat core = Some q /\
    queue_core_id q = core.
Proof.
  intros Hc Hcore. unfold queue_for_core, queue_index, topology_contains. munfold_goal. cbn [snd].
  destruct (Z.ltb_spec core (core_count (topology s))) as [Hlt|]; [|by left]. right. cbn [negb].
  pose proof (s_cores _ Hc) as Hl. cbn [snd] in Hl. unfold lenZ in Hl.
  destruct (lookup_lt_is_Some_2 (core_queues s) (Z.to_nat core)) as [q Hq]; [lia|]. exists q. split; [done|]. split; [done|].
  pose proof (s_ids _ Hc _ _ Hq) as Hid. lia.
Qed.
Lemma ensure_can_enqueue_spec p ts s : 
  (exists e, ensure_can_enqueue p (ts, s) = ((ts, s), Throw e)) \/
  ensure_can_enqueue p (ts, s) = ((ts, s), Ok tt) /\ is_Some (ts !! p) /\ p ∉ all_threads (core_queues s).
Proof.
  unfold ensure_can_enqueue. munfold_goal. cbn [fst snd]. destruct (alive ts p) eqn:Ha; [|left; by eexists]. cbn [negb].
  case_bool_decide; [left; by eexists|]. destruct (contains p s) eqn:Ec; [left; by eexists|]. right.
  split; [done|]. split; [by apply alive_known|by apply contains_all].
Qed.
(** Choosing the best queue: it exists, and no other is better. *)
Lemma best_index_spec (key : CoreRunQueue -> Z) better : (forall a b, better a b = (key a <? key b)) ->
  forall rest (all : list CoreRunQueue) best bq index, all !! best = Some bq -> (forall j q, (j < index)%nat -> all !! j = Some q -> key bq <= key q) ->
  (forall j, rest !! j = all !! (index + j)%nat) ->
  exists q, all !! best_index better best bq index rest = Some q /\ forall (j : nat) x, all !! j = Some x -> key q <= key x.
Proof.
  intros Hb. induction rest as [|q rest IH]; intros all best bq index Hbest Hmin Hrest; cbn [best_index].
  - exists bq. split; [done|]. intros j x Hj. destruct (decide (j < index)%nat) as [|Hge]; [by eapply Hmin|].
    specialize (Hrest (j - index)%nat). replace (index + (j - index))%nat with j in Hrest by lia. rewrite Hj in Hrest. done.
  - assert (Hq : all !! index = Some q) by (specialize (Hrest 0%nat); by rewrite Nat.add_0_r in Hrest).
    assert (Hrest' : forall j, rest !! j = all !! (S index + j)%nat).
    { intros j. specialize (Hrest (S j)). change ((q :: rest) !! S j) with (rest !! j) in Hrest. rewrite Hrest. f_equal. lia. }
    rewrite Hb. destruct (Z.ltb_spec (key q) (key bq)).
    + apply IH; [done| |done]. intros j x Hj Hx. destruct (decide (j = index)) as [->|]; [by simplify_eq|].
      specialize (Hmin j x ltac:(lia) Hx). lia.
    + apply IH; [done| |done]. intros j x Hj Hx. destruct (decide (j = index)) as [->|]; [by simplify_eq|].
      apply (Hmin j x ltac:(lia) Hx).
Qed.
Lemma choose_spec (key : CoreRunQueue -> Z) better qs : (forall a b, better a b = (key a <? key b)) -> qs <> [] ->
  exists q, qs !! choose better qs = Some q /\ forall x, x ∈ qs -> key q <= key x.
Proof.
  intros Hb Hne. destruct qs as [|q qs]; [done|]. cbn [choose].
  destruct (best_index_spec key better Hb qs (q :: qs) 0 q 1) as (b & Hbi & Hmin); [done| |done|].
  - intros j x Hj Hx. assert (j = 0%nat) as -> by lia. by injection Hx as ->.
  - exists b. split; [done|]. intros x Hx. apply list_elem_of_lookup in Hx as [j Hj]. by eapply Hmin.
Qed.
Lemma least_loaded_spec s : core_queues s <> [] ->
  exists q, core_queues s !! least_loaded_queue s = Some q /\ forall x, x ∈ core_queues s -> load q <= load x.
Proof. by apply choose_spec. Qed.
Lemma busiest_spec s : core_queues s <> [] ->
  exists q, core_queues s !! busiest_ready_queue s = Some q /\ forall x, x ∈ core_queues s -> ready_count x <= ready_count q.
Proof.
  intros Hne. destruct (choose_spec (fun q => - ready_count q) (fun a b => ready_count b <? ready_count a) (core_queues s))
    as (q & Hq & Hmin); [|done|].
  - intros a b. destruct (Z.ltb_spec (ready_count b) (ready_count a)), (Z.ltb_spec (- ready_count a) (- ready_count b)); lia.
  - exists q. split; [done|]. intros x Hx. specialize (Hmin x Hx). simpl in Hmin. lia.
Qed.

(** *** Commands *)

Inductive Command : Type :=
  | Enqueue (p : ThreadRef)
  | EnqueueOn (p : ThreadRef) (core : Z)
  | Wake (p : ThreadRef)
  | WakeOn (p : ThreadRef) (core : Z)
  | Schedule (core : Z)
  | Yield (core : Z)
  | Block (core : Z)
  | Exit (core : Z)
  | Migrate (p : ThreadRef) (core : Z)
  | Steal (source target : Z)
  | Rebalance
  | Tick (core : Z) (preempted : bool).
Definition command_typed (c : Command) : Prop :=
  match c with
  | EnqueueOn _ c | WakeOn _ c | Schedule c | Yield c | Block c | Exit c | Migrate _ c | Tick c _ => 0 <= c
  | Steal a b => 0 <= a /\ 0 <= b
  | _ => True
  end.
Definition perform (c : Command) (s : Threads * SmpScheduler) : Threads * SmpScheduler :=
  match c with
  | Enqueue p => (enqueue p s).1
  | EnqueueOn p core => (enqueue_on p core s).1
  | Wake p => (wake p s).1
  | WakeOn p core => (wake_on p core s).1
  | Schedule core => (schedule_next core s).1
  | Yield core => (yield_current core s).1
  | Block core => (block_current core s).1
  | Exit core => (exit_current core s).1
  | Migrate p core => (migrate_ready p core s).1
  | Steal a b => (steal_one a b s).1
  | Rebalance => (rebalance_once s).1
  | Tick core b => (record_timer_tick core b s).1
  end.

Lemma on_named_core {A} (c : CQ A) core ts s : consistent (ts, s) -> 0 <= core ->
  (forall q, local_ok ts q -> NoDup (owned q) -> exists post, steps_to c ts q post) ->
  consistent ((queue_for_core core ≫= fun i => on_core i c) (ts, s)).1.
Proof.
  intros Hc Hcore Hstep. munfold_goal. destruct (queue_for_core_spec core ts s Hc Hcore) as [->|(q & -> & Hi & _)]; [done|].
  assert (Hq : exists post, steps_to c ts q post).
  { apply Hstep; [apply (s_local _ Hc); by eapply list_elem_of_lookup_2|].
    eapply owned_distinct; [apply (s_distinct _ Hc)|done]. }
  destruct Hq as [post Hq]. destruct (on_core_steps c _ q ts s post Hc Hi (fun _ _ => Hq)) as (ts' & q' & r & -> & Hc' & _). done.
Qed.
Lemma enqueue_somewhere p ts s (pick : SM nat) : consistent (ts, s) ->
  (exists e, pick (ts, s) = ((ts, s), Throw e)) \/ (exists i, pick (ts, s) = ((ts, s), Ok i)) ->
  consistent ((ensure_can_enqueue p ≫= fun _ => pick ≫= fun i => on_core i (queue_enqueue_ready p)) (ts, s)).1.
Proof.
  intros Hc Hpick. munfold_goal. destruct (ensure_can_enqueue_spec p ts s) as [[e ->]|(-> & Hk & Hp)]; [done|].
  destruct Hpick as [[e ->]|[i ->]]; [done|]. destruct (core_queues s !! i) as [q|] eqn:Hi.
  - destruct (on_core_enqueue i q p ts s Hc Hi Hk Hp) as (ts' & q' & -> & Hc' & _). done.
  - unfold on_core. cbn [snd]. by rewrite Hi.
Qed.
Lemma enqueue_core_consistent p ts s : consistent (ts, s) -> consistent (enqueue p (ts, s)).1.
Proof.
  intros Hc. pose proof (enqueue_somewhere p ts s (gets (fun s => least_loaded_queue s.2)) Hc) as He.
  unfold enqueue. munfold. specialize (He ltac:(right; by eexists)).
  destruct (ensure_can_enqueue p (ts, s)) as [s1 [[]|e]]; [|done].
  by destruct (on_core _ _ s1) as [s2 [[]|e]].
Qed.
Lemma enqueue_on_consistent p core ts s : consistent (ts, s) -> 0 <= core -> consistent (enqueue_on p core (ts, s)).1.
Proof.
  intros Hc Hcore. apply enqueue_somewhere; [done|].
  destruct (queue_for_core_spec core ts s Hc Hcore) as [->|(q & -> & _)]; [left|right]; by eexists.
Qed.
Lemma tick_steps b ts q : local_ok ts q -> NoDup (owned q) ->
  steps_to (on_queue (queue_record_timer_tick b)) ts q (fun _ _ _ => True).
Proof.
  intros Hok Hd. eexists _, _, _. split; [reflexivity|]. split; [|done]. pose proof Hok as [H1 H2 H3]. cbn [fst snd].
  split; try done. intros x Hx Hst. by apply (local_running ts q).
Qed.

Lemma find_queue_spec good qs : forall k i, find_queue good k qs = Some i ->
  exists q, (k <= i)%nat /\ qs !! (i - k)%nat = Some q /\ good q = true.
Proof.
  induction qs as [|q qs IH]; intros k i Hf; [done|]. cbn [find_queue] in Hf. destruct (good q) eqn:E.
  - injection Hf as <-. exists q. split; [done|]. by rewrite Nat.sub_diag.
  - destruct (IH _ _ Hf) as (x & Hle & Hx & Hg). exists x. split; [lia|]. split; [|done].
    by replace (i - k)%nat with (S (i - S k)) by lia.
Qed.
(** A thread taken off one core and queued on another, or the same. *)
Lemma move_spec {A} (c : CQ A) i j q ts s (post : A -> CoreRunQueue -> ThreadRef -> Prop) p :
  consistent (ts, s) -> core_queues s !! i = Some q -> (j < length (core_queues s))%nat ->
  (local_ok ts q -> NoDup (owned q) -> steps_to c ts q (fun ts' q' r =>
     ts' = ts /\ p ∈ owned q /\ p ∉ owned q' /\ is_Some (ts !! p) /\ post r q' p)) ->
  exists q1 r qj ts2 qj', on_core i c (ts, s) = ((ts, mkSmp (topology s) (<[i := q1]> (core_queues s))), Ok r) /\
    post r q1 p /\ <[i := q1]> (core_queues s) !! j = Some qj /\
    on_core j (queue_enqueue_ready p) (ts, mkSmp (topology s) (<[i := q1]> (core_queues s))) =
      ((ts2, mkSmp (topology s) (<[j := qj']> (<[i := q1]> (core_queues s)))), Ok tt) /\
    consistent (ts2, mkSmp (topology s) (<[j := qj']> (<[i := q1]> (core_queues s)))) /\
    ready_threads qj' = ready_threads qj ++ [p] /\ core_current qj' = core_current qj.
Proof.
  intros Hc Hi Hj Hstep. destruct (on_core_steps c i q ts s _ Hc Hi Hstep) as (ts' & q1 & r & Heq & Hc1 & Hs & -> & Hp & Hp1 & Hk & Hpost).
  destruct (lookup_lt_is_Some_2 (<[i := q1]> (core_queues s)) j) as [qj Hqj]; [by rewrite length_insert|].
  assert (Hfresh : p ∉ all_threads (<[i := q1]> (core_queues s))).
  { destruct (all_threads_split _ _ _ Hi) as (others & Hall & Hall' & _). rewrite Hall'.
    pose proof (s_distinct _ Hc) as Hd. cbn [snd] in Hd. rewrite Hall in Hd. apply NoDup_app in Hd as (_ & Hdis & _).
    intros [Hin|Hin]%elem_of_app; [done|]. by apply (Hdis p). }
  destruct (on_core_enqueue j qj p ts _ Hc1 Hqj Hk Hfresh) as (ts2 & qj' & Heq2 & Hc2 & Hr & Hcur).
  exists q1, r, qj, ts2, qj'. done.
Qed.
Lemma migrate_consistent p core ts s : consistent (ts, s) -> 0 <= core -> consistent (migrate_ready p core (ts, s)).1.
Proof.
  intros Hc Hcore. unfold migrate_ready. munfold_goal. cbn [fst snd].
  destruct (queue_containing_ready p s) as [i|] eqn:Hf; [|done]. apply find_queue_spec in Hf as (q & _ & Hi & Hin).
  rewrite Nat.sub_0_r in Hi. apply bool_decide_eq_true in Hin. destruct (negb _); [done|].
  destruct (queue_for_core_spec core ts s Hc Hcore) as [->|(x & -> & Hx & _)]; [done|].
  unfold core_id_at. munfold_goal. destruct (decide (i = Z.to_nat core)); [done|].
  destruct (move_spec (remove_ready p) i (Z.to_nat core) q ts s (fun _ _ _ => True) p Hc Hi) as (q1 & r & qj & ts2 & qj' & Heq & _ & _ & Heq2 & Hc2 & _).
  - by eapply lookup_lt_Some.
  - intros Hok Hd. destruct (remove_ready_steps ts q p Hok Hd Hin) as (ts' & q' & r & Hr & Hs & Ht & H1 & H2 & H3).
    exists ts', q', r. done.
  - by rewrite Heq, Heq2.
Qed.

(** Stealing: nothing to steal, or the last ready thread of the source moves to the end of the
    target's queue. *)
Lemma steal_spec a b i j ts s q : consistent (ts, s) ->
  queue_for_core a (ts, s) = ((ts, s), Ok i) -> queue_for_core b (ts, s) = ((ts, s), Ok j) ->
  core_queues s !! i = Some q -> (j < length (core_queues s))%nat ->
  exists ts' s', consistent (ts', s') /\ topology s' = topology s /\
   ((ready_threads q = [] /\ steal_one a b (ts, s) = ((ts', s'), Ok None)) \/
    exists m p q1 qj qj', steal_one a b (ts, s) = ((ts', s'), Ok (Some m)) /\
      ready_threads q = ready_threads q1 ++ [p] /\ core_current q1 = core_current q /\
      <[i := q1]> (core_queues s) !! j = Some qj /\ core_queues s' = <[j := qj']> (<[i := q1]> (core_queues s)) /\
      ready_threads qj' = ready_threads qj ++ [p] /\ core_current qj' = core_current qj).
Proof.
  intros Hc Ha Hb Hi Hj. destruct (decide (ready_threads q = [])) as [He|Hne].
  - destruct (on_core_steps take_migratable_back i q ts s _ Hc Hi (take_back_steps ts q)) as (ts' & q1 & r & Heq & Hc1 & _ & -> & _ & Hr).
    exists ts, (mkSmp (topology s) (<[i := q1]> (core_queues s))). split; [done|]. split; [done|]. left. split; [done|].
    unfold steal_one. munfold_goal. rewrite Ha, Hb, Heq. destruct r as [p|]; [|done]. destruct Hr as (Hr & _). rewrite He in Hr.
    by destruct (ready_threads q1).
  - destruct (exists_last Hne) as (l & p & Hl).
    destruct (move_spec take_migratable_back i j q ts s
      (fun r q' p => r = Some p /\ ready_threads q = ready_threads q' ++ [p] /\ core_current q' = core_current q) p Hc Hi Hj)
      as (q1 & r & qj & ts2 & qj' & Heq & (-> & Hr & Hcur) & Hqj & Heq2 & Hc2 & Hrj & Hcj).
    + intros Hok Hd. destruct (take_back_steps ts q Hok Hd) as (ts' & q' & r & Hq & Hs & -> & Hcur & Hr).
      destruct r as [x|]; [|by destruct Hr]. destruct Hr as (Hr & H1 & H2 & H3). rewrite Hl in Hr.
      apply app_inj_tail in Hr as [-> ->]. exists ts, q', (Some x). rewrite Hl. done.
    + exists ts2, (mkSmp (topology s) (<[j := qj']> (<[i := q1]> (core_queues s)))). split; [done|]. split; [done|]. right.
      eexists _, p, q1, qj, qj'. split.
      * unfold steal_one. munfold_goal. rewrite Ha, Hb, Heq, Heq2. unfold core_id_at. munfold_goal. reflexivity.
      * done.
Qed.
Lemma steal_consistent a b ts s : consistent (ts, s) -> 0 <= a -> 0 <= b -> consistent (steal_one a b (ts, s)).1.
Proof.
  intros Hc Ha Hb. pose proof (queue_for_core_spec a ts s Hc Ha) as Hqa. pose proof (queue_for_core_spec b ts s Hc Hb) as Hqb.
  destruct Hqa as [Hqa|(q & Hqa & Hi & _)]; [unfold steal_one; munfold_goal; by rewrite Hqa|].
  destruct Hqb as [Hqb|(x & Hqb & Hj & _)]; [unfold steal_one; munfold_goal; by rewrite Hqa, Hqb|].
  destruct (steal_spec a b _ _ ts s q Hc Hqa Hqb Hi) as (ts' & s' & Hc' & _ & [[_ Heq]|(m & p & q1 & qj & qj' & Heq & _)]);
    [by eapply lookup_lt_Some|by rewrite Heq|by rewrite Heq].
Qed.

(** *** Rebalancing *)

(** How unevenly the work is spread. *)
Definition imbalance (s : SmpScheduler) : Z := foldr (fun q n => load q * load q + n) 0 (core_queues s).
Definition total_load (s : SmpScheduler) : Z := foldr (fun q n => load q + n) 0 (core_queues s).

Lemma fold_insert (f : CoreRunQueue -> Z) qs i q q' : qs !! i = Some q ->
  foldr (fun q n => f q + n) 0 (<[i := q']> qs) = foldr (fun q n => f q + n) 0 qs - f q + f q'.
Proof.
  revert i. induction qs as [|x qs IH]; intros [|i] Hi; [done..| |]; simpl in *.
  - injection Hi as ->. lia.
  - rewrite (IH i Hi). lia.
Qed.
Lemma rebalance_cases ts s : consistent (ts, s) -> core_queues s <> [] ->
  exists source target qs qt, core_queues s !! source = Some qs /\ core_queues s !! target = Some qt /\
    (forall x, x ∈ core_queues s -> ready_count x <= ready_count qs) /\
    (forall x, x ∈ core_queues s -> load qt <= load x) /\
    (((source = target \/ ready_count qs <= load qt + 1) /\ rebalance_once (ts, s) = ((ts, s), Ok None)) \/
     (source <> target /\ load qt + 1 < ready_count qs /\
      rebalance_once (ts, s) = steal_one (Z.of_nat source) (Z.of_nat target) (ts, s))).
Proof.
  intros Hc Hne. destruct (busiest_spec s Hne) as (qs & Hqs & Hmax). destruct (least_loaded_spec s Hne) as (qt & Hqt & Hmin).
  exists (busiest_ready_queue s), (least_loaded_queue s), qs, qt. split_and!; [done..|].
  unfold rebalance_once, core_id_at. munfold_goal. cbn [snd]. rewrite Hqs, Hqt.
  rewrite (nth_lookup_Some _ _ (make_core_queue 0) _ Hqs), (nth_lookup_Some _ _ (make_core_queue 0) _ Hqt).
  rewrite (s_ids _ Hc _ _ Hqs), (s_ids _ Hc _ _ Hqt).
  destruct (Z.eqb_spec (Z.of_nat (busiest_ready_queue s)) (Z.of_nat (least_loaded_queue s))) as [Heq|Hneq]; cbn [orb].
  { left. split; [left; lia|done]. }
  destruct (Z.leb_spec (ready_count qs) (load qt + 1)); [left; split; [by right|done]|].
  right. split; [|done]. intros He. by rewrite He in Hneq.
Qed.

Lemma rebalance_consistent ts s : consistent (ts, s) -> consistent (rebalance_once (ts, s)).1.
Proof.
  intros Hc. destruct (decide (core_queues s = [])) as [He|Hne].
  - unfold rebalance_once. munfold_goal. cbn [snd]. unfold busiest_ready_queue, least_loaded_queue. rewrite He. cbn. by rewrite He.
  - destruct (rebalance_cases ts s Hc Hne) as (i & j & qs & qt & _ & _ & _ & _ & [[_ ->]|(_ & _ & ->)]); [done|].
    apply steal_consistent; [done|lia|lia].
Qed.
Lemma perform_core_consistent c s : command_typed c -> consistent s -> consistent (perform c s).
Proof.
  destruct s as [ts s]. destruct c; cbn [perform command_typed]; intros Ht Hc.
  - by apply enqueue_core_consistent.
  - by apply enqueue_on_consistent.
  - by apply enqueue_core_consistent.
  - by apply enqueue_on_consistent.
  - apply on_named_core; [done|done|]. intros q Hok Hd. eexists. by apply schedule_next_steps.
  - apply on_named_core; [done|done|]. intros q Hok Hd. eexists. by apply schedule_next_steps.
  - apply on_named_core; [done|done|]. intros q Hok Hd. eexists. by apply leave_current_steps.
  - apply on_named_core; [done|done|]. intros q Hok Hd. eexists. by apply leave_current_steps.
  - by apply migrate_consistent.
  - destruct Ht. by apply steal_consistent.
  - by apply rebalance_consistent.
  - apply on_named_core; [done|done|]. intros q Hok Hd. eexists. by apply tick_steps.
Qed.

(** C14. Whatever sequence of enqueues, wake-ups, scheduling decisions, migrations, steals, rebalances
    and timer ticks the cores make, every thread is held by at most one core and at most once, a
    thread is running exactly when it is the current thread of a core (so no two cores run the same
    thread), queued threads are ready, and the CPU state of every held thread names its core. *)
Theorem smp_threads_run_on_one_core cs s : Forall command_typed cs -> consistent s ->
  let s' := foldl (fun s c => perform c s) s cs in
  consistent s' /\
  forall p, state_of s'.1 p = TState.RUNNING <-> exists q, q ∈ core_queues s'.2 /\ core_current q = Some p.
Proof.
  revert s. induction cs as [|c cs IH]; intros s Hty Hs; cbn [foldl]; cbn zeta.
  - split; [done|]. intros p. split; [apply (s_running _ Hs)|]. intros (q & Hq & Hc). by apply (l_current _ _ (s_local _ Hs q Hq)).
  - apply Forall_cons in Hty as [Ht Hty]. apply IH; [done|]. by apply perform_core_consistent.
Qed.

Lemma load_change q q' : core_current q' = core_current q -> load q' = load q + (lenZ (ready_threads q') - lenZ (ready_threads q)).
Proof. intros Hc. unfold load. rewrite Hc. lia. Qed.


(** *** Examples *)

Definition sample_threads : Threads :=
  list_to_map ((fun i => (i * 10, mkThread i TState.READY make_cpu_state 0x1000 0x2000 0x1000 None)) <$> [1; 2; 3]).
Definition sample : Threads * SmpScheduler := (sample_threads, make_scheduler (mkTopology 2)).
Lemma sample_cores_consistent : consistent sample.
Proof.
  split; cbn [fst snd sample].
  - done.
  - intros i q Hi. destruct i as [|[|i]]; [by injection Hi as <-|by injection Hi as <-|done].
  - constructor.
  - intros q Hq. vm_compute in Hq. repeat (apply elem_of_cons in Hq as [->|Hq]; [split; [done|intros p Hp; by apply elem_of_nil in Hp|intros p Hp; by apply elem_of_nil in Hp]|]).
    by apply elem_of_nil in Hq.
  - intros p Hp. exfalso. unfold state_of in Hp. destruct (sample_threads !! p) as [t|] eqn:Et; [|done].
    apply elem_of_list_to_map_2 in Et. cbn in Et.
    repeat (apply elem_of_cons in Et as [[= -> ->]|Et]; [done|]). by apply elem_of_nil in Et.
Qed.
Definition sample_commands : list Command :=
  [EnqueueOn 10 0; EnqueueOn 20 0; EnqueueOn 30 0; Rebalance; Schedule 1; Yield 0; Block 1].
Lemma smp_threads_run_on_one_core_witness :
  let s := foldl (fun s c => perform c s) sample sample_commands in
  consistent s /\ core_current <$> core_queues s.2 = [Some 10; None].
Proof.
  intros s. destruct (smp_threads_run_on_one_core sample_commands sample) as [Hc _].
  - repeat constructor; done.
  - exact sample_cores_consistent.
  - split; [exact Hc|]. vm_compute. reflexivity.
Defined.
End Smp.
