(* ===== verification/FsFormat.v ===== *)
(** * On-disk format of the simple file system

    Models the pure half of src/os/fs/simple_fs.cpp: layouts, little-endian fields, the superblock,
    inode records, bitmap bits and directory entries.  A block is the list of its bytes; a name is
    the list of its characters' codes. *)

From S2P Require Import Prelude.

(** ** Kinds and records *)

Module Node.
(* [include/mnos/os/fs/simple_fs.hpp] [SimpleFsNodeKind] *)
Inductive SimpleFsNodeKind : Set := FILE | DIRECTORY | COUNT.
End Node.
Abbreviation SimpleFsNodeKind := Node.SimpleFsNodeKind.
#[export] Instance SimpleFsNodeKind_eq_dec : EqDecision SimpleFsNodeKind.
Proof. solve_decision. Defined.

Definition SIMPLE_FS_ROOT_INODE_VALUE : Z := 1.
Definition SIMPLE_FS_INVALID_INODE_VALUE : Z := 0.
Definition SIMPLE_FS_MAX_NAME_LENGTH : Z := 56.
Definition SIMPLE_FS_DIRECT_BLOCK_COUNT : Z := 6.
Definition SIMPLE_FS_MAGIC : Z := 0x53464E4D.
Definition SIMPLE_FS_VERSION : Z := 1.
Definition SIMPLE_FS_MIN_BLOCK_SIZE_BYTES : Z := 128.
Definition SIMPLE_FS_INODE_RECORD_SIZE_BYTES : Z := 64.
Definition SIMPLE_FS_DIRECTORY_ENTRY_SIZE_BYTES : Z := 64.
Definition SIMPLE_FS_EMPTY_BLOCK : Z := 0.
Definition UINT32_MAX : Z := 2 ^ 32 - 1.

(* [include/mnos/os/fs/simple_fs.hpp] [SimpleFsDirectoryEntry] *)
Record SimpleFsDirectoryEntry : Set := mkDirent {
  entry_name : list Z;
  entry_inode : Z;
  entry_kind : SimpleFsNodeKind;
}.
(* [include/mnos/os/fs/simple_fs.hpp] [SimpleFsInodeMetadata] *)
Record SimpleFsInodeMetadata : Set := mkMetadata {
  meta_number : Z;
  meta_kind : SimpleFsNodeKind;
  meta_size_bytes : Z;
}.
(* [src/os/fs/simple_fs.cpp] [SimpleFileSystem::InodeRecord] [428-435] *)
Record InodeRecord : Set := mkInode {
  number : Z;
  kind : SimpleFsNodeKind;
  size_bytes : Z;
  direct_blocks : list Z;
  allocated : bool;
}.
(** The fields of a mounted [SimpleFileSystem] are a layout too. *)
(* [src/os/fs/simple_fs.cpp] [SimpleFsLayout] *)
Record SimpleFsLayout : Set := mkLayout {
  block_size_bytes : Z;
  block_count : Z;
  inode_table_start : Z;
  inode_table_block_count : Z;
  inode_count : Z;
  data_bitmap_start : Z;
  data_bitmap_block_count : Z;
  data_start : Z;
  data_block_count : Z;
  root_inode : Z;
}.

(** ** Layout *)

(* [src/os/fs/simple_fs.cpp] [ceil_div_u64] *)
Definition ceil_div_u64 (value divisor : Z) : res Z :=
  if divisor =? 0 then Throw invalid_argument
  else if value =? 0 then Ok 0
  else Ok (add64 ((value - 1) / divisor) 1).
(* [src/os/fs/simple_fs.cpp] [SimpleFsFormatOptions::SimpleFsFormatOptions] *)
Definition make_format_options (inode_count : Z) : res Z :=
  if inode_count <? SIMPLE_FS_ROOT_INODE_VALUE then Throw invalid_argument else Ok inode_count.
(* [src/os/fs/simple_fs.cpp] [checked_inode_table_block_count] *)
Definition checked_inode_table_block_count (inode_count block_size_bytes : Z) : res Z :=
  let inode_table_bytes := mul64 inode_count SIMPLE_FS_INODE_RECORD_SIZE_BYTES in
  block_count ← ceil_div_u64 inode_table_bytes block_size_bytes;
  if UINT32_MAX <? block_count then Throw length_error else Ok block_count.
(* [src/os/fs/simple_fs.cpp] [bitmap_bits_per_block] *)
Definition bitmap_bits_per_block (block_size_bytes : Z) : Z := mul64 block_size_bytes 8.
(* [src/os/fs/simple_fs.cpp] [checked_bitmap_block_count] *)
Definition checked_bitmap_block_count (data_candidate_block_count block_size_bytes : Z) : res Z :=
  let bits_per_block := mul64 block_size_bytes 8 in
  block_count ← ceil_div_u64 data_candidate_block_count bits_per_block;
  if UINT32_MAX <? block_count then Throw length_error else Ok block_count.
(** The geometry is the block size and the number of blocks of the device. *)
(* [src/os/fs/simple_fs.cpp] [make_layout] *)
Definition make_layout (geometry_block_size geometry_block_count option_inode_count : Z) : res SimpleFsLayout :=
  if geometry_block_size <? SIMPLE_FS_MIN_BLOCK_SIZE_BYTES then Throw invalid_argument
  else if UINT32_MAX <? geometry_block_size then Throw invalid_argument
  else
    inode_table_block_count ← checked_inode_table_block_count option_inode_count geometry_block_size;
    let metadata_without_bitmap := add64 1 inode_table_block_count in
    if geometry_block_count <=? metadata_without_bitmap then Throw length_error
    else
      let candidate_data_blocks := sub64 geometry_block_count metadata_without_bitmap in
      data_bitmap_block_count ← checked_bitmap_block_count candidate_data_blocks geometry_block_size;
      let data_start := add64 metadata_without_bitmap data_bitmap_block_count in
      if geometry_block_count <=? data_start then Throw length_error
      else Ok (mkLayout geometry_block_size geometry_block_count 1 inode_table_block_count option_inode_count
        metadata_without_bitmap data_bitmap_block_count data_start (sub64 geometry_block_count data_start)
        SIMPLE_FS_ROOT_INODE_VALUE).
(* [src/os/fs/simple_fs.cpp] [validate_layout] *)
Definition validate_layout (l : SimpleFsLayout) (geometry_block_size geometry_block_count : Z) : res unit :=
  if negb (block_size_bytes l =? geometry_block_size) || negb (block_count l =? geometry_block_count) ||
     (block_size_bytes l <? SIMPLE_FS_MIN_BLOCK_SIZE_BYTES) || (inode_count l <? SIMPLE_FS_ROOT_INODE_VALUE) ||
     (root_inode l =? SIMPLE_FS_INVALID_INODE_VALUE) || (inode_count l <? root_inode l) ||
     (inode_table_start l =? 0) || (inode_table_block_count l =? 0) || (data_bitmap_block_count l =? 0) ||
     (data_block_count l =? 0)
  then Throw runtime_error
  else
    let inode_table_end := add64 (inode_table_start l) (inode_table_block_count l) in
    let bitmap_end := add64 (data_bitmap_start l) (data_bitmap_block_count l) in
    let data_end := add64 (data_start l) (data_block_count l) in
    let bitmap_capacity := mul64 (mul64 (data_bitmap_block_count l) (block_size_bytes l)) 8 in
    if (data_bitmap_start l <? inode_table_end) || (data_start l <? bitmap_end) || (block_count l <? data_end)
    then Throw runtime_error
    else if bitmap_capacity <? data_block_count l then Throw runtime_error
    else Ok tt.

(** ** Fields

    [bytes[offset + k] = (value >> 8k) & 0xFF] for each byte, and back. *)

(* [src/os/fs/simple_fs.cpp] [make_zero_block] *)
Definition make_zero_block (n : Z) : list Z := replicate (Z.to_nat n) 0.
Definition write_le (n : Z) (offset value : Z) (bytes : list Z) : list Z :=
  foldl (fun bytes k => <[Z.to_nat (offset + k) := byte_of value k]> bytes) bytes (seqZ 0 n).
(* [src/os/fs/simple_fs.cpp] [write_u8] *)
Definition write_u8 (offset value : Z) (bytes : list Z) : list Z := <[Z.to_nat offset := value]> bytes.
(* [src/os/fs/simple_fs.cpp] [read_u8] *)
Definition read_u8 (bytes : list Z) (offset : Z) : Z := byte_at_index bytes offset.
(* [src/os/fs/simple_fs.cpp] [write_u16_le] *)
Definition write_u16_le : Z -> Z -> list Z -> list Z := write_le 2.
(* [src/os/fs/simple_fs.cpp] [read_u16_le] *)
Definition read_u16_le : list Z -> Z -> Z := read_le 2.
(* [src/os/fs/simple_fs.cpp] [write_u32_le] *)
Definition write_u32_le : Z -> Z -> list Z -> list Z := write_le 4.
(* [src/os/fs/simple_fs.cpp] [read_u32_le] *)
Definition read_u32_le : list Z -> Z -> Z := read_le 4.
(* [src/os/fs/simple_fs.cpp] [write_u64_le] *)
Definition write_u64_le : Z -> Z -> list Z -> list Z := write_le 8.
(* [src/os/fs/simple_fs.cpp] [read_u64_le] *)
Definition read_u64_le : list Z -> Z -> Z := read_le 8.

(* [src/os/fs/simple_fs.cpp] [node_kind_to_disk] *)
Definition node_kind_to_disk (k : SimpleFsNodeKind) : res Z :=
  match k with Node.FILE => Ok 1 | Node.DIRECTORY => Ok 2 | Node.COUNT => Throw invalid_argument end.
(* [src/os/fs/simple_fs.cpp] [node_kind_from_disk] *)
Definition node_kind_from_disk (v : Z) : SimpleFsNodeKind :=
  if v =? 1 then Node.FILE else if v =? 2 then Node.DIRECTORY else Node.COUNT.

(** ** Superblock *)

(** The block [write_superblock] builds. *)
Definition superblock_bytes (l : SimpleFsLayout) : list Z :=
  write_u32_le 72 (root_inode l)
  (write_u64_le 64 (data_block_count l)
  (write_u64_le 56 (data_start l)
  (write_u32_le 48 (data_bitmap_block_count l)
  (write_u64_le 40 (data_bitmap_start l)
  (write_u32_le 36 (inode_count l)
  (write_u32_le 32 (inode_table_block_count l)
  (write_u64_le 24 (inode_table_start l)
  (write_u64_le 16 (block_count l)
  (write_u32_le 8 (block_size_bytes l mod 2 ^ 32)
  (write_u16_le 4 SIMPLE_FS_VERSION
  (write_u32_le 0 SIMPLE_FS_MAGIC (make_zero_block (block_size_bytes l))))))))))))).
(** What [read_superblock] reads from the block, before the layout is validated. *)
Definition parse_superblock (block : list Z) : res SimpleFsLayout :=
  if negb (read_u32_le block 0 =? SIMPLE_FS_MAGIC) then Throw runtime_error
  else if negb (read_u16_le block 4 =? SIMPLE_FS_VERSION) then Throw runtime_error
  else Ok (mkLayout (read_u32_le block 8) (read_u64_le block 16) (read_u64_le block 24) (read_u32_le block 32)
    (read_u32_le block 36) (read_u64_le block 40) (read_u32_le block 48) (read_u64_le block 56)
    (read_u64_le block 64) (read_u32_le block 72)).

(** ** Inode records *)

(* [src/os/fs/simple_fs.cpp] [SimpleFileSystem::max_file_size_bytes] *)
Definition max_file_size_bytes (l : SimpleFsLayout) : Z := mul64 SIMPLE_FS_DIRECT_BLOCK_COUNT (block_size_bytes l).
(** The rejection of a direct block outside the data region. *)
Definition direct_block_is_invalid (l : SimpleFsLayout) (b : Z) : bool :=
  negb (b =? SIMPLE_FS_EMPTY_BLOCK) && ((b <? data_start l) || (add64 (data_start l) (data_block_count l) <=? b)).
(** The 64 bytes of a record, as [read_inode] interprets them. *)
Definition parse_inode (l : SimpleFsLayout) (inode : Z) (record : list Z) : res InodeRecord :=
  if negb (read_u8 record 0 =? 1) then Ok (mkInode inode Node.COUNT 0 [0; 0; 0; 0; 0; 0] false)
  else
    let kind := node_kind_from_disk (read_u8 record 1) in
    if decide (kind = Node.COUNT) then Throw runtime_error
    else
      let size := read_u64_le record 8 in
      if max_file_size_bytes l <? size then Throw runtime_error
      else
        let blocks := (fun i => read_u64_le record (16 + i * 8)) <$> [0; 1; 2; 3; 4; 5] in
        if existsb (direct_block_is_invalid l) blocks then Throw runtime_error
        else Ok (mkInode inode kind size blocks true).
(** The 64 bytes [write_inode] stores. *)
Definition inode_bytes (r : InodeRecord) : res (list Z) :=
  let record := write_u8 0 (if allocated r then 1 else 0) (make_zero_block SIMPLE_FS_INODE_RECORD_SIZE_BYTES) in
  if allocated r then
    disk_kind ← node_kind_to_disk (kind r);
    Ok (foldl (fun record i => write_u64_le (16 + i * 8) (nthZ (direct_blocks r) i) record)
      (write_u64_le 8 (size_bytes r) (write_u16_le 2 1 (write_u8 1 disk_kind record)))
      [0; 1; 2; 3; 4; 5])
  else Ok record.

(** ** Bitmap bits *)

(* [src/os/fs/simple_fs.cpp] [test_bitmap_bit] *)
Definition test_bitmap_bit (block : list Z) (bit_index : Z) : bool :=
  negb (Z.land (byte_at_index block (bit_index / 8)) (Z.shiftl 1 (bit_index mod 8)) =? 0).
(* [src/os/fs/simple_fs.cpp] [set_bitmap_bit] *)
Definition set_bitmap_bit (block : list Z) (bit_index : Z) : list Z :=
  <[Z.to_nat (bit_index / 8) := Z.lor (byte_at_index block (bit_index / 8)) (Z.shiftl 1 (bit_index mod 8))]> block.

(** ** Directory entries *)

(* [src/os/fs/simple_fs.cpp] [serialize_directory_entry] *)
Definition serialize_directory_entry (e : SimpleFsDirectoryEntry) : res (list Z) :=
  if bool_decide (entry_name e = []) || (SIMPLE_FS_MAX_NAME_LENGTH <? lenZ (entry_name e)) then Throw invalid_argument
  else
    disk_kind ← node_kind_to_disk (entry_kind e);
    let record :=
      write_u32_le 4 (entry_inode e)
      (write_u16_le 2 (lenZ (entry_name e))
      (write_u8 1 disk_kind
      (write_u8 0 1 (make_zero_block SIMPLE_FS_DIRECTORY_ENTRY_SIZE_BYTES)))) in
    Ok (foldl (fun record i => <[Z.to_nat (8 + i) := nthZ (entry_name e) i]> record) record
      (seqZ 0 (lenZ (entry_name e)))).
(* [src/os/fs/simple_fs.cpp] [parse_directory_entry] *)
Definition parse_directory_entry (record : list Z) : res (option SimpleFsDirectoryEntry) :=
  if read_u8 record 0 =? 0 then Ok None
  else
    let name_length := read_u16_le record 2 in
    if (name_length =? 0) || (SIMPLE_FS_MAX_NAME_LENGTH <? name_length) then Throw runtime_error
    else
      let name := (fun i => nthZ record (8 + i)) <$> seqZ 0 name_length in
      let kind := node_kind_from_disk (read_u8 record 1) in
      if decide (kind = Node.COUNT) then Throw runtime_error
      else Ok (Some (mkDirent name (read_u32_le record 4) kind)).
(* [src/os/fs/simple_fs.cpp] [SimpleFileSystem::validate_directory_name] *)
Definition validate_directory_name (name : list Z) : res unit :=
  if bool_decide (name = []) || (SIMPLE_FS_MAX_NAME_LENGTH <? lenZ name) || bool_decide (47 ∈ name) ||
     bool_decide (name = [46]) || bool_decide (name = [46; 46])
  then Throw invalid_argument else Ok tt.

(** ** Fields read back *)

Lemma write_le_splice n off v bytes : 0 <= n -> 0 <= off -> off + n <= lenZ bytes ->
  write_le n off v bytes = splice off (le n v) bytes.
Proof.
  intros Hn Ho. apply Z_of_nat_complete in Hn as [k ->].
  unfold write_le, le. induction k as [|n IH]; intros Hl.
  - simpl. unfold splice. simpl. by rewrite Nat.add_0_r, take_drop.
  - rewrite seqZ_S, foldl_snoc, fmap_app, IH by lia. cbn [fmap list_fmap].
    unfold lenZ in Hl. rewrite splice_snoc; unfold lenZ; rewrite ?length_fmap, ?length_seqZ; [|lia|lia]. do 2 f_equal; lia.
Qed.
Lemma write_le_length n off v bytes : 0 <= n -> 0 <= off -> off + n <= lenZ bytes ->
  lenZ (write_le n off v bytes) = lenZ bytes.
Proof. intros. rewrite write_le_splice, splice_length by (rewrite ?le_length; lia). done. Qed.

Lemma read_write_same n off v bytes : 0 <= n -> 0 <= off -> off + n <= lenZ bytes -> 0 <= v < 2 ^ (8 * n) ->
  read_le n (write_le n off v bytes) off = v.
Proof.
  intros Hn Ho Hl Hv. rewrite (read_le_slice n _ off v); [by apply Z.mod_small|done|done|].
  rewrite write_le_splice by done. rewrite <- (le_length n v) at 1 by done. apply slice_splice_same; rewrite ?le_length; lia.
Qed.
Lemma nthZ_splice_other off (src l : list Z) k : 0 <= off -> 0 <= k -> off + lenZ src <= lenZ l ->
  k < off \/ off + lenZ src <= k -> nthZ (splice off src l) k = nthZ l k.
Proof.
  intros Ho Hk Hl Hd. pose proof (slice_splice_disjoint off k 1 src l Ho Hk ltac:(lia) Hl ltac:(lia)) as Hs.
  pose proof (nthZ_slice (splice off src l) k 1 0 Hk ltac:(lia)) as H1. rewrite Z.add_0_r in H1. rewrite <- H1, Hs.
  rewrite nthZ_slice by lia. by rewrite Z.add_0_r.
Qed.
Lemma nthZ_splice_same off (src l : list Z) k : 0 <= off -> 0 <= k < lenZ src -> off + lenZ src <= lenZ l ->
  nthZ (splice off src l) (off + k) = nthZ src k.
Proof.
  intros Ho Hk Hl. rewrite <- (nthZ_slice _ off (lenZ src)) by lia. by rewrite slice_splice_same.
Qed.
Lemma read_write_other n m off off' v bytes : 0 <= n -> 0 <= m -> 0 <= off -> 0 <= off' -> off' + m <= lenZ bytes ->
  off + n <= off' \/ off' + m <= off -> read_le n (write_le m off' v bytes) off = read_le n bytes off.
Proof.
  intros Hn Hm Ho Ho' Hl Hd. rewrite write_le_splice by done. unfold read_le. apply Z_of_nat_complete in Hn as [k ->].
  revert Hd. induction k as [|n IH]; intros Hd; [done|].
  rewrite seqZ_S, !foldl_snoc, IH by lia. do 2 f_equal. unfold byte_at_index.
  by rewrite nthZ_splice_other by (rewrite ?le_length; lia).
Qed.
Lemma write_u8_le off v bytes : 0 <= off -> off < lenZ bytes -> 0 <= v < 256 -> write_u8 off v bytes = write_le 1 off v bytes.
Proof.
  intros Ho Hl Hv. unfold write_u8, write_le. simpl. by rewrite Z.add_0_r, byte_of_small.
Qed.
Lemma read_u8_le bytes off : read_u8 bytes off = read_le 1 bytes off.
Proof. unfold read_u8, read_le. simpl. by rewrite Z.add_0_r, Z.shiftl_0_r. Qed.
Lemma zero_block_length n : 0 <= n -> lenZ (make_zero_block n) = n.
Proof. intros. unfold lenZ, make_zero_block. rewrite length_replicate. lia. Qed.
Lemma write_le_same_length n off v bytes : lenZ (write_le n off v bytes) = lenZ bytes.
Proof.
  unfold write_le, lenZ. generalize (seqZ 0 n). intros ks. revert bytes. induction ks as [|k ks IH]; intros bytes; [done|].
  cbn [foldl]. by rewrite IH, length_insert.
Qed.
Lemma write_u8_length off v bytes : lenZ (write_u8 off v bytes) = lenZ bytes.
Proof. unfold write_u8, lenZ. by rewrite length_insert. Qed.
(** Reads a field through the writes around it. *)
Ltac field_side :=
  unfold write_u16_le, write_u32_le, write_u64_le;
  rewrite ?write_u8_length, ?write_le_same_length, ?zero_block_length by lia; lia.
Ltac fields :=
  rewrite ?read_u8_le; unfold read_u16_le, read_u32_le, read_u64_le, write_u16_le, write_u32_le, write_u64_le;
  repeat first [ rewrite read_write_same by field_side | rewrite read_write_other by field_side ].

(** ** Round trips *)

Lemma node_kind_roundtrip k v : node_kind_to_disk k = Ok v -> node_kind_from_disk v = k /\ (v = 1 \/ v = 2) /\ k <> Node.COUNT.
Proof. destruct k; intros [= <-]; (split; [done|]); (split; [lia|done]). Qed.

Definition layout_fields_fit (l : SimpleFsLayout) : Prop :=
  128 <= block_size_bytes l < 2 ^ 32 /\ u64 (block_count l) /\ u64 (inode_table_start l) /\
  0 <= inode_table_block_count l < 2 ^ 32 /\ 0 <= inode_count l < 2 ^ 32 /\ u64 (data_bitmap_start l) /\
  0 <= data_bitmap_block_count l < 2 ^ 32 /\ u64 (data_start l) /\ u64 (data_block_count l) /\
  0 <= root_inode l < 2 ^ 32.
(** The superblock read back is the layout written. *)
Lemma superblock_roundtrip l : layout_fields_fit l -> parse_superblock (superblock_bytes l) = Ok l.
Proof.
  unfold layout_fields_fit, u64. intros H. conjuncts. unfold parse_superblock, superblock_bytes.
  rewrite (Z.mod_small (block_size_bytes l)) by lia. unfold SIMPLE_FS_MAGIC, SIMPLE_FS_VERSION in *.
  fields. cbn [Z.eqb Pos.eqb negb]. by destruct l.
Qed.
Lemma superblock_length l : 0 <= block_size_bytes l -> lenZ (superblock_bytes l) = block_size_bytes l.
Proof.
  intros Hl. unfold superblock_bytes, write_u16_le, write_u32_le, write_u64_le.
  by rewrite !write_le_same_length, zero_block_length.
Qed.

(** The records that a disk can hold. *)
Record record_fits (l : SimpleFsLayout) (r : InodeRecord) : Prop := {
  rf_allocated : allocated r = true;
  rf_kind : kind r <> Node.COUNT;
  rf_size : 0 <= size_bytes r <= max_file_size_bytes l;
  rf_blocks : length (direct_blocks r) = 6%nat;
  rf_valid : Forall (fun b => 0 <= b < W64 /\ direct_block_is_invalid l b = false) (direct_blocks r);
}.
Lemma inode_roundtrip l r : record_fits l r ->
  exists record, inode_bytes r = Ok record /\ lenZ record = 64 /\ parse_inode l (number r) record = Ok r.
Proof.
  intros [Ha Hk Hs Hb Hv]. unfold inode_bytes. rewrite Ha.
  assert (Hkd : exists v, node_kind_to_disk (kind r) = Ok v) by (destruct (kind r); [by eexists..|done]).
  destruct Hkd as [v Hkd]. destruct (node_kind_roundtrip _ _ Hkd) as (Hfrom & Hvr & _).
  rewrite Hkd. munfold_goal. eexists. split; [reflexivity|].
  destruct r as [n k size blocks al]; cbn [allocated kind size_bytes direct_blocks number] in *. subst al.
  destruct blocks as [|b0 [|b1 [|b2 [|b3 [|b4 [|b5 [|]]]]]]]; try done.
  repeat (apply Forall_cons in Hv as [[? ?] Hv]). unfold SIMPLE_FS_INODE_RECORD_SIZE_BYTES, nthZ in *.
  cbn [foldl]. change (Z.to_nat 0) with 0%nat. change (Z.to_nat 1) with 1%nat. change (Z.to_nat 2) with 2%nat.
  change (Z.to_nat 3) with 3%nat. change (Z.to_nat 4) with 4%nat. change (Z.to_nat 5) with 5%nat. cbn [nth].
  rewrite !write_u8_le by field_side. split.
  { unfold write_u16_le, write_u64_le. by rewrite !write_le_same_length, zero_block_length. }
  assert (Hsz : size < 2 ^ 64) by (unfold max_file_size_bytes, mul64 in Hs; pose proof (wrap64_range (SIMPLE_FS_DIRECT_BLOCK_COUNT * block_size_bytes l)); unfold u64 in *; lia).
  unfold parse_inode. cbn [fmap list_fmap]. fields. cbn [Z.eqb Pos.eqb negb]. rewrite Hfrom.
  destruct (decide (k = Node.COUNT)); [done|]. rewrite (proj2 (Z.ltb_ge _ _)) by lia.
  cbn [existsb]. by repeat match goal with H : direct_block_is_invalid _ _ = false |- _ => rewrite H; clear H end.
Qed.
(** A record parsed as allocated fits. *)
Lemma parse_inode_fits l n record r : parse_inode l n record = Ok r -> number r = n /\
  (allocated r = true -> record_fits l r) /\ Forall (fun b => 0 <= b) (direct_blocks r).
Proof.
  unfold parse_inode. destruct (negb _); [intros [= <-]; split; [done|]; split; [done|repeat constructor; lia]|].
  destruct (decide _); [done|].
  destruct (Z.ltb_spec (max_file_size_bytes l) (read_u64_le record 8)); [done|].
  assert (Hr : forall off, 0 <= read_u64_le record off < W64) by (intros; apply (read_le_range 8); lia).
  set (blocks := (fun i => read_u64_le record (16 + i * 8)) <$> [0; 1; 2; 3; 4; 5]).
  assert (Hb : Forall (fun b => 0 <= b < W64) blocks) by (repeat constructor; apply Hr).
  assert (Hl : length blocks = 6%nat) by done. clearbody blocks.
  destruct (existsb _ blocks) eqn:He; [done|]. intros [= <-]. cbn [number direct_blocks].
  split; [done|]. split.
  - intros _. split; cbn [allocated kind size_bytes direct_blocks]; [done|done| |done|].
    + split; [apply Hr|lia].
    + rewrite Forall_forall in Hb |- *. intros b Hin. split; [by apply Hb|].
      destruct (direct_block_is_invalid l b) eqn:Hi; [|done]. exfalso.
      assert (existsb (direct_block_is_invalid l) blocks = true); [|congruence].
      apply existsb_exists. exists b. split; [by apply list_elem_of_In|done].
  - eapply Forall_impl; [exact Hb|]. cbv beta. lia.
Qed.
Lemma zero_record_free l n : parse_inode l n (make_zero_block 64) = Ok (mkInode n Node.COUNT 0 [0; 0; 0; 0; 0; 0] false).
Proof. reflexivity. Qed.

(** ** Bits *)

Lemma shiftl_1_byte i : 0 <= i < 8 -> 0 <= Z.shiftl 1 i < 2 ^ 8.
Proof.
  intros Hi. rewrite Z.shiftl_1_l. pose proof (Z.pow_pos_nonneg 2 i ltac:(lia) ltac:(lia)).
  pose proof (Z.pow_lt_mono_r 2 i 8). lia.
Qed.
Lemma test_bit_spec block j : 0 <= j -> test_bitmap_bit block j = Z.testbit (byte_at_index block (j / 8)) (j mod 8).
Proof. intros Hj. unfold test_bitmap_bit. apply land_single_nonzero. apply Z.mod_pos_bound. lia. Qed.
Lemma test_set_bit block j k : 0 <= j < 8 * lenZ block -> 0 <= k < 8 * lenZ block ->
  test_bitmap_bit (set_bitmap_bit block k) j = (j =? k) || test_bitmap_bit block j.
Proof.
  intros Hj Hk. rewrite !test_bit_spec by lia. unfold set_bitmap_bit.
  pose proof (Z.div_mod j 8 ltac:(lia)). pose proof (Z.div_mod k 8 ltac:(lia)).
  pose proof (Z.mod_pos_bound j 8 ltac:(lia)). pose proof (Z.mod_pos_bound k 8 ltac:(lia)).
  pose proof (byte_at_index_range block (k / 8)). pose proof (shiftl_1_byte (k mod 8) ltac:(lia)).
  assert (Hkb : 0 <= k / 8 < lenZ block) by (split; [apply Z.div_pos; lia|apply Z.div_lt_upper_bound; lia]).
  assert (Hjb : 0 <= j / 8) by (apply Z.div_pos; lia).
  unfold byte_at_index at 1. rewrite nthZ_insert by lia. case_decide as He.
  - rewrite Z.land_spec, Z.lor_spec, testbit_single by lia. change 255 with (Z.ones 8).
    rewrite (ones_testbit 8) by lia. rewrite (proj2 (Z.ltb_lt _ _)), andb_true_r by lia.
    rewrite He. rewrite orb_comm. f_equal. destruct (Z.eqb_spec j k) as [->|Hne]; [by rewrite bool_decide_true|].
    apply bool_decide_eq_false. lia.
  - destruct (Z.eqb_spec j k) as [->|Hne]; [done|]. done.
Qed.
Lemma set_bit_length block k : lenZ (set_bitmap_bit block k) = lenZ block.
Proof. unfold set_bitmap_bit, lenZ. by rewrite length_insert. Qed.
Lemma zero_block_bit n j : 0 <= j -> test_bitmap_bit (make_zero_block n) j = false.
Proof.
  intros Hj. rewrite test_bit_spec by done. unfold byte_at_index, nthZ, make_zero_block.
  destruct (nth_in_or_default (Z.to_nat (j / 8)) (replicate (Z.to_nat n) 0) 0) as [Hin| ->]; [|apply Z.bits_0].
  apply list_elem_of_In, elem_of_replicate in Hin as [-> _]. apply Z.bits_0.
Qed.

(** ** Directory entries *)

Definition entry_fits (e : SimpleFsDirectoryEntry) : Prop :=
  entry_name e <> [] /\ lenZ (entry_name e) <= SIMPLE_FS_MAX_NAME_LENGTH /\ Forall (fun c => 0 <= c < 256) (entry_name e) /\
  0 <= entry_inode e < 2 ^ 32 /\ entry_kind e <> Node.COUNT.

Lemma name_write_splice name : forall record, 8 + lenZ name <= lenZ record ->
  foldl (fun (record : list Z) i => <[Z.to_nat (8 + i) := nthZ name i]> record) record (seqZ 0 (lenZ name)) = splice 8 name record.
Proof.
  unfold lenZ. induction name as [|c name IH] using rev_ind; intros record Hl.
  - symmetry. apply (take_drop 8).
  - rewrite length_app in *. simpl in *. rewrite Nat2Z.inj_add in *. change (Z.of_nat 1) with 1 in *.
    replace (Z.of_nat (length name) + 1) with (Z.of_nat (S (length name))) by lia. rewrite seqZ_S, foldl_snoc, Z.add_0_l.
    rewrite splice_snoc by (unfold lenZ; lia). rewrite <- IH by lia. unfold lenZ.
    assert (Hn : nthZ (name ++ [c]) (Z.of_nat (length name)) = c).
    { unfold nthZ. rewrite Nat2Z.id, app_nth2, Nat.sub_diag by lia. done. }
    rewrite Hn. f_equal.
    assert (Hext : forall (ks rec : list Z), Forall (fun k => 0 <= k < Z.of_nat (length name)) ks ->
      foldl (fun (record : list Z) i => <[Z.to_nat (8 + i) := nthZ (name ++ [c]) i]> record) rec ks =
      foldl (fun (record : list Z) i => <[Z.to_nat (8 + i) := nthZ name i]> record) rec ks).
    { induction ks as [|k ks IHk]; intros rec Hf; [done|]. apply Forall_cons in Hf as [Hk Hf]. cbn [foldl].
      rewrite IHk by done. do 2 f_equal. unfold nthZ. apply app_nth1. lia. }
    apply Hext. apply Forall_forall. intros k Hk. apply elem_of_seqZ in Hk. lia.
Qed.
Lemma dirent_roundtrip e : entry_fits e ->
  exists record, serialize_directory_entry e = Ok record /\ lenZ record = 64 /\ parse_directory_entry record = Ok (Some e).
Proof.
  intros (Hne & Hlen & Hbytes & Hino & Hk). unfold serialize_directory_entry, SIMPLE_FS_MAX_NAME_LENGTH in *.
  rewrite bool_decide_false, (proj2 (Z.ltb_ge _ _)) by done. cbn [orb].
  assert (Hkd : exists v, node_kind_to_disk (entry_kind e) = Ok v) by (destruct (entry_kind e); [by eexists..|done]).
  destruct Hkd as [v Hkd]. destruct (node_kind_roundtrip _ _ Hkd) as (Hfrom & Hvr & _). rewrite Hkd. munfold_goal.
  assert (Hpos : 0 < lenZ (entry_name e)) by (destruct (entry_name e); [done|unfold lenZ; simpl; lia]).
  unfold SIMPLE_FS_DIRECTORY_ENTRY_SIZE_BYTES.
  rewrite !write_u8_le by field_side.
  set (head := write_u32_le 4 _ _). assert (Hhl : lenZ head = 64).
  { unfold head, write_u32_le, write_u16_le. by rewrite !write_le_same_length, zero_block_length. }
  rewrite name_write_splice by lia. eexists. split; [reflexivity|]. split; [by rewrite splice_length by lia|].
  assert (Hfield : forall n off, 0 <= n -> 0 <= off -> off + n <= 8 -> read_le n (splice 8 (entry_name e) head) off = read_le n head off).
  { intros n off Hn Ho Hle. unfold read_le. apply Z_of_nat_complete in Hn as [m ->]. induction m as [|m IH]; [done|].
    rewrite seqZ_S, !foldl_snoc, IH by lia. do 2 f_equal. unfold byte_at_index. by rewrite nthZ_splice_other by lia. }
  assert (Hh : read_le 1 head 0 = 1 /\ read_le 1 head 1 = v /\ read_le 2 head 2 = lenZ (entry_name e) /\
    read_le 4 head 4 = entry_inode e) by (unfold head; fields; done).
  destruct Hh as (H0 & H1 & H2 & H4). clearbody head.
  unfold parse_directory_entry. rewrite !read_u8_le. unfold read_u16_le, read_u32_le. rewrite !Hfield by lia.
  rewrite H0, H1, H2, H4. cbn [Z.eqb]. rewrite (proj2 (Z.eqb_neq _ _)), (proj2 (Z.ltb_ge _ _)) by (unfold SIMPLE_FS_MAX_NAME_LENGTH; lia).
  cbn [orb]. rewrite Hfrom. destruct (decide _); [done|].
  assert (Hname : (fun i => nthZ (splice 8 (entry_name e) head) (8 + i)) <$> seqZ 0 (lenZ (entry_name e)) = entry_name e).
  { apply list_eq. intros i. rewrite list_lookup_fmap. destruct (decide (i < length (entry_name e))%nat) as [Hi|Hi].
    - rewrite lookup_seqZ_lt by (unfold lenZ; lia). cbn [fmap option_fmap option_map]. rewrite Z.add_0_l.
      rewrite nthZ_splice_same by (unfold lenZ in *; lia). unfold nthZ. rewrite Nat2Z.id. by rewrite lookup_nth.
    - rewrite lookup_seqZ_ge by (unfold lenZ; lia). rewrite lookup_ge_None_2 by lia. done. }
  rewrite Hname. by destruct e.
Qed.
