(* ===== verification/SimpleFs.v ===== *)
(** * Simple file system

    Models the operations of src/os/fs/simple_fs.cpp on a block store: formatting and mounting, inode
    and data-block allocation, file reads and writes, directories.  The fields of the mounted object
    never change after construction; they are the argument [l]. *)

From S2P Require Import Prelude Logic BlockDevice FsFormat.

Section fs.
Context {D : Type} `{FlushStore D}.
Abbreviation F A := (M D A).

(* [src/os/fs/simple_fs.cpp] [write_superblock] *)
Definition write_superblock (l : SimpleFsLayout) : F unit := bs_write 0 (superblock_bytes l).
(* [src/os/fs/simple_fs.cpp] [read_superblock] *)
Definition read_superblock : F SimpleFsLayout :=
  gets bs_block_size ≫= fun n =>
  bs_read 0 n ≫= fun block =>
  lift (fun _ => parse_superblock block) ≫= fun l =>
  lift (fun d => validate_layout l (bs_block_size d) (bs_block_count d)) ≫= fun _ =>
  mret l.

(* [src/os/fs/simple_fs.cpp] [SimpleFileSystem::format] *)
Definition format (option_inode_count : Z) : F unit :=
  lift (fun d => make_layout (bs_block_size d) (bs_block_count d) option_inode_count) ≫= fun l =>
  let zero_block := make_zero_block (block_size_bytes l) in
  for_each (seqZ 0 (block_count l)) (fun block_index => bs_write block_index zero_block) ≫= fun _ =>
  write_superblock l ≫= fun _ =>
  lift (fun _ => node_kind_to_disk Node.DIRECTORY) ≫= fun disk_kind =>
  let inode_block :=
    write_u64_le 8 0 (write_u16_le 2 1 (write_u8 1 disk_kind (write_u8 0 1 (make_zero_block (block_size_bytes l))))) in
  bs_write (inode_table_start l) inode_block ≫= fun _ =>
  bs_flush.

Section mounted.
Variable l : SimpleFsLayout.

(* [src/os/fs/simple_fs.cpp] [SimpleFileSystem::validate_inode_number] *)
Definition validate_inode_number (inode : Z) : F unit :=
  throw_if ((inode =? SIMPLE_FS_INVALID_INODE_VALUE) || (inode_count l <? inode)) out_of_range.
(* [src/os/fs/simple_fs.cpp] [SimpleFileSystem::validate_directory_inode] *)
Definition validate_directory_inode (r : InodeRecord) : F unit :=
  throw_if (negb (allocated r)) out_of_range ≫= fun _ =>
  throw_if (negb (bool_decide (kind r = Node.DIRECTORY))) invalid_argument.
(* [src/os/fs/simple_fs.cpp] [SimpleFileSystem::validate_file_inode] *)
Definition validate_file_inode (r : InodeRecord) : F unit :=
  throw_if (negb (allocated r)) out_of_range ≫= fun _ =>
  throw_if (negb (bool_decide (kind r = Node.FILE))) invalid_argument.

(** Where the record of an inode lies: its block, relative to the table, and its offset there. *)
Definition inode_position (inode : Z) : Z * Z :=
  let byte_offset := mul64 (inode - SIMPLE_FS_ROOT_INODE_VALUE) SIMPLE_FS_INODE_RECORD_SIZE_BYTES in
  (byte_offset / block_size_bytes l, byte_offset mod block_size_bytes l).
(* [src/os/fs/simple_fs.cpp] [SimpleFileSystem::read_inode] *)
Definition read_inode (inode : Z) : F InodeRecord :=
  validate_inode_number inode ≫= fun _ =>
  let '(block_offset, offset_in_block) := inode_position inode in
  bs_read (add64 (inode_table_start l) block_offset) (block_size_bytes l) ≫= fun block =>
  lift (fun _ => parse_inode l inode (slice offset_in_block SIMPLE_FS_INODE_RECORD_SIZE_BYTES block)).
(* [src/os/fs/simple_fs.cpp] [SimpleFileSystem::write_inode] *)
Definition write_inode (r : InodeRecord) : F unit :=
  validate_inode_number (number r) ≫= fun _ =>
  let '(block_offset, offset_in_block) := inode_position (number r) in
  bs_read (add64 (inode_table_start l) block_offset) (block_size_bytes l) ≫= fun block =>
  lift (fun _ => inode_bytes r) ≫= fun record =>
  bs_write (add64 (inode_table_start l) block_offset) (splice offset_in_block record block).

(* [src/os/fs/simple_fs.cpp] [SimpleFileSystem::SimpleFileSystem] *)
Definition check_root : F unit :=
  read_inode (root_inode l) ≫= fun root =>
  throw_if (negb (allocated root) || negb (bool_decide (kind root = Node.DIRECTORY))) runtime_error.

(* [src/os/fs/simple_fs.cpp] [SimpleFileSystem::metadata] *)
Definition metadata (inode : Z) : F SimpleFsInodeMetadata :=
  read_inode inode ≫= fun r =>
  throw_if (negb (allocated r)) out_of_range ≫= fun _ =>
  mret (mkMetadata (number r) (kind r) (size_bytes r)).

(** *** Reading *)

(** The loop of [read_inode_bytes]; an iteration copies at least one byte, so [remaining] iterations
    are enough. *)
Fixpoint read_loop (fuel : nat) (r : InodeRecord) (current_offset remaining : Z) (destination : list Z) : F (list Z) :=
  match fuel with
  | O => mret destination
  | S fuel' =>
      if remaining =? 0 then mret destination
      else
        let logical_block_index := current_offset / block_size_bytes l in
        let offset_in_block := current_offset mod block_size_bytes l in
        let chunk_size := Z.min remaining (block_size_bytes l - offset_in_block) in
        let data_block := nthZ (direct_blocks r) logical_block_index in
        (if data_block =? SIMPLE_FS_EMPTY_BLOCK then mret (make_zero_block chunk_size)
         else
           bs_read data_block (block_size_bytes l) ≫= fun block_bytes =>
           mret (slice offset_in_block chunk_size block_bytes)) ≫= fun chunk =>
        read_loop fuel' r (add64 current_offset chunk_size) (sub64 remaining chunk_size) (destination ++ chunk)
  end.
(** The bytes copied to a destination of [n] bytes; their number is the count returned. *)
(* [src/os/fs/simple_fs.cpp] [SimpleFileSystem::read_inode_bytes] *)
Definition read_inode_bytes (r : InodeRecord) (offset n : Z) : F (list Z) :=
  if (size_bytes r <=? offset) || (n =? 0) then mret []
  else
    let remaining := Z.min n (sub64 (size_bytes r) offset) in
    read_loop (Z.to_nat remaining) r offset remaining [].

Fixpoint parse_entries (fuel : nat) (bytes : list Z) : res (list SimpleFsDirectoryEntry) :=
  match fuel with
  | O => Ok []
  | S fuel' =>
      entry ← parse_directory_entry (take 64 bytes);
      rest ← parse_entries fuel' (drop 64 bytes);
      Ok (match entry with Some e => e :: rest | None => rest end)
  end.
(** The destination vector is zero-initialised and as long as the directory. *)
(* [src/os/fs/simple_fs.cpp] [SimpleFileSystem::read_directory] *)
Definition read_directory (directory : Z) : F (list SimpleFsDirectoryEntry) :=
  read_inode directory ≫= fun r =>
  validate_directory_inode r ≫= fun _ =>
  throw_if (negb (size_bytes r mod SIMPLE_FS_DIRECTORY_ENTRY_SIZE_BYTES =? 0)) runtime_error ≫= fun _ =>
  read_inode_bytes r 0 (size_bytes r) ≫= fun read =>
  let bytes := read ++ make_zero_block (size_bytes r - lenZ read) in
  lift (fun _ => parse_entries (Z.to_nat (lenZ bytes / SIMPLE_FS_DIRECTORY_ENTRY_SIZE_BYTES)) bytes).
(* [src/os/fs/simple_fs.cpp] [SimpleFileSystem::lookup] *)
Definition lookup (directory : Z) (name : list Z) : F (option SimpleFsDirectoryEntry) :=
  lift (fun _ => validate_directory_name name) ≫= fun _ =>
  read_directory directory ≫= fun entries =>
  mret (find (fun e => bool_decide (entry_name e = name)) entries).
(* [src/os/fs/simple_fs.cpp] [SimpleFileSystem::read_file] *)
Definition read_file (file offset n : Z) : F (list Z) :=
  read_inode file ≫= fun r =>
  validate_file_inode r ≫= fun _ =>
  read_inode_bytes r offset n.

(** *** Allocation *)

Fixpoint allocate_inode_loop (kind : SimpleFsNodeKind) (candidates : list Z) : F Z :=
  match candidates with
  | [] => throw length_error
  | inode_value :: rest =>
      read_inode inode_value ≫= fun r =>
      if negb (allocated r) then
        write_inode (mkInode (number r) kind 0 (replicate 6 SIMPLE_FS_EMPTY_BLOCK) true) ≫= fun _ =>
        mret (number r)
      else allocate_inode_loop kind rest
  end.
(* [src/os/fs/simple_fs.cpp] [SimpleFileSystem::allocate_inode] *)
Definition allocate_inode (kind : SimpleFsNodeKind) : F Z :=
  allocate_inode_loop kind (seqZ SIMPLE_FS_ROOT_INODE_VALUE (inode_count l)).

(** The clear bits among the first [n] of a bitmap block, in the order the loops meet them. *)
Definition clear_bits (bitmap : list Z) (n : Z) : list Z :=
  filter (fun k => test_bitmap_bit bitmap k = false) (seqZ 0 n).
Fixpoint allocate_data_block_loop (bitmap_indices : list Z) : F Z :=
  match bitmap_indices with
  | [] => throw length_error
  | bitmap_block_index :: rest =>
      let bits_per_block := bitmap_bits_per_block (block_size_bytes l) in
      let bitmap_block := add64 (data_bitmap_start l) bitmap_block_index in
      bs_read bitmap_block (block_size_bytes l) ≫= fun bitmap =>
      let data_base := mul64 bitmap_block_index bits_per_block in
      if data_block_count l <=? data_base then throw length_error
      else
        let bits_to_scan := Z.min bits_per_block (sub64 (data_block_count l) data_base) in
        match head (clear_bits bitmap bits_to_scan) with
        | Some bit_index =>
            bs_write bitmap_block (set_bitmap_bit bitmap bit_index) ≫= fun _ =>
            let data_block := add64 (add64 (data_start l) data_base) bit_index in
            bs_write data_block (make_zero_block (block_size_bytes l)) ≫= fun _ =>
            mret data_block
        | None => allocate_data_block_loop rest
        end
  end.
(* [src/os/fs/simple_fs.cpp] [SimpleFileSystem::allocate_data_block] *)
Definition allocate_data_block : F Z := allocate_data_block_loop (seqZ 0 (data_bitmap_block_count l)).

Fixpoint free_count_loop (bitmap_indices : list Z) (free_count : Z) : F Z :=
  match bitmap_indices with
  | [] => mret free_count
  | bitmap_block_index :: rest =>
      let bits_per_block := bitmap_bits_per_block (block_size_bytes l) in
      bs_read (add64 (data_bitmap_start l) bitmap_block_index) (block_size_bytes l) ≫= fun bitmap =>
      let data_base := mul64 bitmap_block_index bits_per_block in
      if data_block_count l <=? data_base then mret free_count
      else
        let bits_to_scan := Z.min bits_per_block (sub64 (data_block_count l) data_base) in
        free_count_loop rest (free_count + lenZ (clear_bits bitmap bits_to_scan))
  end.
(* [src/os/fs/simple_fs.cpp] [SimpleFileSystem::free_data_block_count] *)
Definition free_data_block_count : F Z := free_count_loop (seqZ 0 (data_bitmap_block_count l)) 0.
(* [src/os/fs/simple_fs.cpp] [SimpleFileSystem::additional_blocks_needed] *)
Definition additional_blocks_needed (r : InodeRecord) (end_size : Z) : res Z :=
  if max_file_size_bytes l <? end_size then Throw length_error
  else
    needed_blocks ← ceil_div_u64 end_size (block_size_bytes l);
    let current_blocks := count (fun b => b <> SIMPLE_FS_EMPTY_BLOCK) (direct_blocks r) in
    Ok (if current_blocks <? needed_blocks then needed_blocks - current_blocks else 0).

(** *** Writing *)

Definition set_direct_block (i b : Z) (r : InodeRecord) : InodeRecord :=
  mkInode (number r) (kind r) (size_bytes r) (<[Z.to_nat i := b]> (direct_blocks r)) (allocated r).
Definition set_size (n : Z) (r : InodeRecord) : InodeRecord :=
  mkInode (number r) (kind r) n (direct_blocks r) (allocated r).
(** The loop of [write_inode_bytes], returning the record it updates; as for reading, [remaining]
    iterations are enough. *)
Fixpoint write_loop (fuel : nat) (r : InodeRecord) (current_offset remaining : Z) (source : list Z) : F InodeRecord :=
  match fuel with
  | O => mret r
  | S fuel' =>
      if remaining =? 0 then mret r
      else
        let direct_block_index := current_offset / block_size_bytes l in
        let offset_in_block := current_offset mod block_size_bytes l in
        let chunk_size := Z.min remaining (block_size_bytes l - offset_in_block) in
        let data_block := nthZ (direct_blocks r) direct_block_index in
        (if data_block =? SIMPLE_FS_EMPTY_BLOCK then
           allocate_data_block ≫= fun data_block =>
           mret (data_block, set_direct_block direct_block_index data_block r, make_zero_block (block_size_bytes l))
         else
           bs_read data_block (block_size_bytes l) ≫= fun block_bytes =>
           mret (data_block, r, block_bytes)) ≫= fun '(data_block, r, block_bytes) =>
        bs_write data_block (splice offset_in_block (take (Z.to_nat chunk_size) source) block_bytes) ≫= fun _ =>
        write_loop fuel' r (add64 current_offset chunk_size) (sub64 remaining chunk_size)
          (drop (Z.to_nat chunk_size) source)
  end.
(** Returns the record the C++ function updates through its reference, with the count. *)
(* [src/os/fs/simple_fs.cpp] [SimpleFileSystem::write_inode_bytes] *)
Definition write_inode_bytes (r : InodeRecord) (offset : Z) (source : list Z) : F (InodeRecord * Z) :=
  throw_if (size_bytes r <? offset) invalid_argument ≫= fun _ =>
  if bool_decide (source = []) then mret (r, 0)
  else
    throw_if (sub64 (W64 - 1) offset <? lenZ source) length_error ≫= fun _ =>
    let end_offset := add64 offset (lenZ source) in
    lift (fun _ => additional_blocks_needed r end_offset) ≫= fun new_blocks =>
    free_data_block_count ≫= fun free =>
    throw_if (free <? new_blocks) length_error ≫= fun _ =>
    write_loop (length source) r offset (lenZ source) source ≫= fun r =>
    mret (set_size (Z.max (size_bytes r) end_offset) r, lenZ source).
(* [src/os/fs/simple_fs.cpp] [SimpleFileSystem::append_directory_entry] *)
Definition append_directory_entry (directory : InodeRecord) (e : SimpleFsDirectoryEntry) : F unit :=
  validate_directory_inode directory ≫= fun _ =>
  lift (fun _ => serialize_directory_entry e) ≫= fun record =>
  write_inode_bytes directory (size_bytes directory) record ≫= fun '(directory, _) =>
  write_inode directory.
(** The two creation functions differ in the kind only. *)
Definition create_node (node_kind : SimpleFsNodeKind) (parent_directory : Z) (name : list Z) : F Z :=
  lift (fun _ => validate_directory_name name) ≫= fun _ =>
  lookup parent_directory name ≫= fun existing =>
  throw_if (bool_decide (is_Some existing)) invalid_argument ≫= fun _ =>
  read_inode parent_directory ≫= fun parent =>
  validate_directory_inode parent ≫= fun _ =>
  lift (fun _ => additional_blocks_needed parent (add64 (size_bytes parent) SIMPLE_FS_DIRECTORY_ENTRY_SIZE_BYTES))
    ≫= fun needed =>
  free_data_block_count ≫= fun free =>
  throw_if (free <? needed) length_error ≫= fun _ =>
  allocate_inode node_kind ≫= fun inode =>
  append_directory_entry parent (mkDirent name inode node_kind) ≫= fun _ =>
  mret inode.
(* [src/os/fs/simple_fs.cpp] [SimpleFileSystem::create_file] *)
Definition create_file : Z -> list Z -> F Z := create_node Node.FILE.
(* [src/os/fs/simple_fs.cpp] [SimpleFileSystem::create_directory] *)
Definition create_directory : Z -> list Z -> F Z := create_node Node.DIRECTORY.
(* [src/os/fs/simple_fs.cpp] [SimpleFileSystem::write_file] *)
Definition write_file (file offset : Z) (source : list Z) : F Z :=
  read_inode file ≫= fun r =>
  validate_file_inode r ≫= fun _ =>
  write_inode_bytes r offset source ≫= fun '(r, byte_count) =>
  write_inode r ≫= fun _ =>
  mret byte_count.
(* [src/os/fs/simple_fs.cpp] [SimpleFileSystem::flush] *)
Definition flush : F unit := bs_flush.
End mounted.

(** Mounting: the constructor. *)
Definition mount : F SimpleFsLayout := read_superblock ≫= fun l => check_root l ≫= fun _ => mret l.
End fs.
