(* ===== verification/FsDisk.v ===== *)
(** * The file system on its disk

    The lemmas under the refinement theorem of FsRefinement.v: what the operations of SimpleFs.v do
    to the blocks of a store.  [does c k r k'] says that on a store whose blocks are [k] the
    computation [c] ends with result [r] and blocks [k']; it is closed under sequencing, so that a
    run is described step by step.  On top of it: inode records, the data bitmap and allocation. *)

From S2P Require Import Prelude BlockDevice FsFormat SimpleFs.

(** ** Runs over the blocks of a store *)

Section runs.
Context {D : Type} `{FlushStoreLaws D} `{!BlockStoreLaws D}.
Context (bs bc : Z).
Implicit Types k : Z -> list Z.

(** The store [d] holds the blocks [k]. *)
Record holds (d : D) k : Prop := {
  ho_ok : bs_ok d;
  ho_size : bs_block_size d = bs;
  ho_count : bs_block_count d = bc;
  ho_content : forall a, 0 <= a < bc -> bs_content d a = k a;
}.
Definition upd (a : Z) (block : list Z) k : Z -> list Z := fun a' => if decide (a' = a) then block else k a'.
Definition does {A} (c : M D A) k (r : res A) k' : Prop :=
  forall d, holds d k -> exists d', c d = (d', r) /\ holds d' k'.

Lemma upd_same a b k : upd a b k a = b.
Proof. unfold upd. by rewrite decide_True. Qed.
Lemma upd_other a a' b k : a' <> a -> upd a b k a' = k a'.
Proof. intros. unfold upd. by rewrite decide_False. Qed.

Lemma does_ret {A} (a : A) k : does (mret a) k (Ok a) k.
Proof. intros d Hd. by exists d. Qed.
Lemma does_throw {A} e k : does (throw (A := A) e) k (Throw e) k.
Proof. intros d Hd. by exists d. Qed.
Lemma does_bind {A B} (c : M D A) (f : A -> M D B) k a k1 r k2 :
  does c k (Ok a) k1 -> does (f a) k1 r k2 -> does (c ≫= f) k r k2.
Proof.
  intros Hc Hf d Hd. destruct (Hc d Hd) as (d1 & E & Hd1). munfold_goal. rewrite E. by apply Hf.
Qed.
Lemma does_bind_throw {A B} (c : M D A) (f : A -> M D B) k e k1 :
  does c k (Throw e) k1 -> does (c ≫= f) k (Throw e) k1.
Proof. intros Hc d Hd. destruct (Hc d Hd) as (d1 & E & Hd1). munfold_goal. rewrite E. by exists d1. Qed.
Lemma does_throw_if (b : bool) e k : does (throw_if b e) k (if b then Throw e else Ok tt) k.
Proof. intros d Hd. by exists d. Qed.
Lemma does_pass (b : bool) e k : b = false -> does (throw_if b e) k (Ok tt) k.
Proof. intros ->. apply does_throw_if. Qed.
Lemma does_refuse (b : bool) e k : b = true -> does (throw_if b e) k (Throw e) k.
Proof. intros ->. apply does_throw_if. Qed.
Lemma does_lift {A} (f : D -> res A) r k : (forall d, holds d k -> f d = r) -> does (lift f) k r k.
Proof. intros Hf d Hd. exists d. unfold lift. by rewrite (Hf d Hd). Qed.
Lemma does_res {A} (r : res A) k : does (lift (fun _ => r)) k r k.
Proof. by apply does_lift. Qed.
Lemma does_res_eq {A} (r r' : res A) k : r = r' -> does (lift (fun _ => r)) k r' k.
Proof. intros <-. apply does_res. Qed.
Lemma does_read a k : 0 <= a < bc -> does (bs_read a bs) k (Ok (k a)) k.
Proof.
  intros Ha d [Hok Hs Hc Hk]. pose proof (bs_read_spec d a bs Hok ltac:(lia)) as Hr.
  rewrite Hs, Hc in Hr. unfold block_access_error in Hr. rewrite Z.eqb_refl, (proj2 (Z.ltb_lt a bc)) in Hr by lia.
  cbn [negb] in Hr. destruct Hr as (d' & E & Hok' & [Hs' Hc'] & Hk'). exists d'.
  rewrite E, Hk by done. split; [done|]. split; [done|congruence..|]. intros a' Ha'. rewrite Hk' by done.
  by apply Hk.
Qed.
Lemma does_write a b k : 0 <= a < bc -> lenZ b = bs -> does (bs_write a b) k (Ok tt) (upd a b k).
Proof.
  intros Ha Hb d [Hok Hs Hc Hk]. pose proof (bs_write_spec d a b Hok ltac:(lia)) as Hr.
  rewrite Hs, Hc, Hb in Hr. unfold block_access_error in Hr. rewrite Z.eqb_refl, (proj2 (Z.ltb_lt a bc)) in Hr by lia.
  cbn [negb] in Hr. destruct Hr as (d' & E & Hok' & [Hs' Hc'] & Hk'). exists d'.
  split; [done|]. split; [done|congruence..|]. intros a' Ha'. rewrite Hk' by done. unfold upd.
  destruct (decide (a' = a)); [done|]. by apply Hk.
Qed.
Lemma does_flush k : does bs_flush k (Ok tt) k.
Proof.
  intros d [Hok Hs Hc Hk]. destruct (bs_flush_spec d Hok) as (d' & E & Hok' & [Hs' Hc'] & Hk'). exists d'.
  split; [done|]. split; [done|congruence..|]. intros a Ha. rewrite Hk' by (by rewrite Hc). by apply Hk.
Qed.
Lemma holds_length d k a : holds d k -> 0 <= a < bc -> lenZ (k a) = bs.
Proof. intros [Hok Hs Hc Hk] Ha. rewrite <- Hk by done. rewrite bs_content_length; by rewrite ?Hc. Qed.
(** A run need only be described on blocks of the right size. *)
Lemma does_sized {A} (c : M D A) k r k' :
  ((forall a, 0 <= a < bc -> lenZ (k a) = bs) -> does c k r k') -> does c k r k'.
Proof. intros Hc d Hd. apply Hc; [|done]. intros a. by apply holds_length with d. Qed.
Lemma does_if {A} (b : bool) (c1 c2 : M D A) k r k' :
  (b = true -> does c1 k r k') -> (b = false -> does c2 k r k') -> does (if b then c1 else c2) k r k'.
Proof. destruct b; auto. Qed.
End runs.

(** ** A sound layout *)

(** The regions lie one after the other, hold what they are for, and no inode record straddles a
    block. *)
Record layout_ok (l : SimpleFsLayout) : Prop := {
  lo_size : 128 <= block_size_bytes l < 2 ^ 32;
  lo_multiple : block_size_bytes l mod 64 = 0;
  lo_inodes : 1 <= inode_count l < 2 ^ 32;
  lo_root : 1 <= root_inode l <= inode_count l;
  lo_table : inode_count l * 64 <= inode_table_block_count l * block_size_bytes l;
  lo_table_start : 1 <= inode_table_start l;
  lo_bitmap : inode_table_start l + inode_table_block_count l <= data_bitmap_start l;
  lo_bitmap_count : 1 <= data_bitmap_block_count l;
  lo_data : data_bitmap_start l + data_bitmap_block_count l <= data_start l;
  lo_data_count : 1 <= data_block_count l;
  lo_end : data_start l + data_block_count l <= block_count l;
  lo_capacity : data_block_count l <= data_bitmap_block_count l * (block_size_bytes l * 8);
  lo_small : block_count l * (block_size_bytes l * 8) < W64;
}.

Section layout.
Context (l : SimpleFsLayout) (Hl : layout_ok l).
Implicit Types k : Z -> list Z.
Abbreviation bs := (block_size_bytes l).
Definition sized k : Prop := forall a, 0 <= a < block_count l -> lenZ (k a) = bs.
Definition valid_inode (n : Z) : Prop := 1 <= n <= inode_count l.
Definition bits_per_block : Z := bs * 8.
Definition data_region (a : Z) : Prop := data_start l <= a < data_start l + data_block_count l.
Definition bitmap_region (a : Z) : Prop := data_bitmap_start l <= a < data_bitmap_start l + data_bitmap_block_count l.
Definition table_region (a : Z) : Prop := inode_table_start l <= a < inode_table_start l + inode_table_block_count l.

Lemma layout_bounds : 0 < bs /\ block_count l < W64 /\ bs * 8 < W64 /\ 0 < block_count l.
Proof using Hl.
  destruct Hl. assert (1 <= inode_table_block_count l) by nia. assert (Hc : 2 <= block_count l) by lia.
  pose proof (Z.mul_le_mono_nonneg_r 2 (block_count l) (bs * 8) ltac:(lia) Hc).
  pose proof (Z.mul_le_mono_nonneg_l 1 (bs * 8) (block_count l) ltac:(lia) ltac:(lia)). lia.
Qed.
Lemma table_not_empty : 1 <= inode_table_block_count l.
Proof using Hl. destruct Hl. nia. Qed.
Lemma upd_sized k a b : sized k -> lenZ b = bs -> sized (upd a b k).
Proof. intros Hk Hb a' Ha'. unfold upd. destruct (decide (a' = a)); [done|]. by apply Hk. Qed.

(** *** Inode records *)

Definition inode_block (n : Z) : Z := inode_table_start l + (n - 1) * 64 / bs.
Definition inode_offset (n : Z) : Z := (n - 1) * 64 mod bs.
Definition inode_of k n : res InodeRecord := parse_inode l n (slice (inode_offset n) 64 (k (inode_block n))).

Lemma inode_slot n : valid_inode n ->
  table_region (inode_block n) /\ 0 <= inode_offset n /\ inode_offset n + 64 <= bs /\
  (n - 1) * 64 = (inode_block n - inode_table_start l) * bs + inode_offset n.
Proof using Hl.
  intros Hn. destruct layout_bounds as (Hb & _). pose proof (lo_multiple l Hl) as Hm. pose proof (lo_table l Hl).
  unfold valid_inode, table_region, inode_block, inode_offset in *.
  pose proof (Z.div_mod ((n - 1) * 64) bs ltac:(lia)). pose proof (Z.mod_pos_bound ((n - 1) * 64) bs Hb).
  apply Z.div_exact in Hm; [|lia]. set (q := bs / 64) in *.
  assert (Hq : (n - 1) * 64 mod bs = (n - 1) mod q * 64).
  { rewrite Hm at 1. rewrite (Z.mul_comm 64 q). apply Z.mul_mod_distr_r; lia. }
  pose proof (Z.mod_pos_bound (n - 1) q ltac:(lia)).
  assert (0 <= (n - 1) * 64 / bs) by (apply Z.div_pos; lia).
  assert ((n - 1) * 64 / bs < inode_table_block_count l) by (apply Z.div_lt_upper_bound; nia).
  repeat split; lia.
Qed.
Lemma inode_slots_disjoint n n' : valid_inode n -> valid_inode n' -> n <> n' -> inode_block n = inode_block n' ->
  inode_offset n + 64 <= inode_offset n' \/ inode_offset n' + 64 <= inode_offset n.
Proof using Hl.
  intros Hn Hn' Hne Hb. destruct (inode_slot n Hn) as (_ & _ & _ & H1). destruct (inode_slot n' Hn') as (_ & _ & _ & H2).
  rewrite Hb in H1. lia.
Qed.
Lemma table_in_range a : table_region a -> 0 <= a < block_count l.
Proof using Hl. pose proof table_not_empty. unfold table_region. destruct Hl. lia. Qed.
Lemma bitmap_in_range a : bitmap_region a -> 0 <= a < block_count l.
Proof using Hl. pose proof table_not_empty. unfold bitmap_region. destruct Hl. lia. Qed.
Lemma data_in_range a : data_region a -> 0 <= a < block_count l.
Proof using Hl. pose proof table_not_empty. unfold data_region. destruct Hl. lia. Qed.
Lemma regions_disjoint a : (table_region a -> bitmap_region a -> False) /\ (table_region a -> data_region a -> False) /\
  (bitmap_region a -> data_region a -> False).
Proof using Hl. unfold table_region, bitmap_region, data_region. destruct Hl. lia. Qed.
Lemma inode_position_spec n : valid_inode n ->
  inode_position l n = (inode_block n - inode_table_start l, inode_offset n) /\
  add64 (inode_table_start l) (inode_block n - inode_table_start l) = inode_block n.
Proof using Hl.
  intros Hn. destruct (inode_slot n Hn) as (Ht & _). pose proof (table_in_range _ Ht). destruct layout_bounds as (_ & ? & _).
  unfold inode_position. change SIMPLE_FS_ROOT_INODE_VALUE with 1. change SIMPLE_FS_INODE_RECORD_SIZE_BYTES with 64.
  pose proof (lo_inodes l Hl). pose proof (lo_table_start l Hl). unfold valid_inode, mul64 in *. rewrite wrap64_small by (unfold u64; lia).
  split.
  - unfold inode_block, inode_offset. f_equal. lia.
  - unfold table_region in *. rewrite add64_small; lia.
Qed.

(** *** Bitmap bits *)

Definition bit k (j : Z) : bool := test_bitmap_bit (k (data_bitmap_start l + j / bits_per_block)) (j mod bits_per_block).
Definition is_free k (j : Z) : Prop := bit k j = false.
#[export] Instance is_free_dec k j : Decision (is_free k j).
Proof. unfold is_free. apply _. Defined.
(** The clear bits from index [base] on, and their number. *)
Definition free_from k (base : Z) : list Z := filter (is_free k) (seqZ base (data_block_count l - base)).
Definition free_total k : Z := lenZ (free_from k 0).
(** The disk after bit [j] is set and its block cleared. *)
Definition alloc (j : Z) k : Z -> list Z :=
  let a := data_bitmap_start l + j / bits_per_block in
  upd (data_start l + j) (make_zero_block bs) (upd a (set_bitmap_bit (k a) (j mod bits_per_block)) k).

Lemma bits_positive : 0 < bits_per_block.
Proof using Hl. destruct layout_bounds. unfold bits_per_block. lia. Qed.
Lemma bit_position j : 0 <= j < data_block_count l ->
  bitmap_region (data_bitmap_start l + j / bits_per_block) /\ 0 <= j mod bits_per_block < bits_per_block.
Proof using Hl.
  intros Hj. pose proof bits_positive. pose proof (lo_capacity l Hl). fold bits_per_block in *. unfold bitmap_region.
  split; [|by apply Z.mod_pos_bound]. assert (0 <= j / bits_per_block) by (apply Z.div_pos; lia).
  assert (j / bits_per_block < data_bitmap_block_count l) by (apply Z.div_lt_upper_bound; lia). lia.
Qed.
Lemma alloc_sized j k : sized k -> 0 <= j < data_block_count l -> sized (alloc j k).
Proof using Hl.
  intros Hk Hj. destruct (bit_position j Hj) as [Hb _]. destruct layout_bounds. unfold alloc.
  apply upd_sized; [|by rewrite zero_block_length by lia]. apply upd_sized; [done|]. rewrite set_bit_length.
  apply Hk. by apply bitmap_in_range.
Qed.
Lemma alloc_data j k : alloc j k (data_start l + j) = make_zero_block bs.
Proof. apply upd_same. Qed.
Lemma alloc_other j k a : ~ bitmap_region a -> a <> data_start l + j -> 0 <= j < data_block_count l -> alloc j k a = k a.
Proof using Hl.
  intros Ha Hne Hj. destruct (bit_position j Hj) as [Hb _]. unfold alloc. rewrite !upd_other; [done| |done].
  intros ->. done.
Qed.
Lemma alloc_bit j k i : sized k -> 0 <= j < data_block_count l -> 0 <= i < data_block_count l ->
  bit (alloc j k) i = (i =? j) || bit k i.
Proof using Hl.
  intros Hk Hj Hi. destruct (bit_position j Hj) as [Hb Hbj]. destruct (bit_position i Hi) as [Hbi Hii].
  unfold bit, alloc. rewrite upd_other.
  2: { intros He. apply (proj2 (proj2 (regions_disjoint _)) Hbi). unfold data_region. lia. }
  unfold upd. destruct (decide _) as [He|He].
  - assert (Hdiv : i / bits_per_block = j / bits_per_block) by lia. rewrite Hdiv.
    rewrite test_set_bit; rewrite ?(Hk _ (bitmap_in_range _ Hb)); fold bits_per_block; unfold bits_per_block in *; [|lia|lia].
    f_equal. pose proof (Z.div_mod i (bs * 8) ltac:(lia)). pose proof (Z.div_mod j (bs * 8) ltac:(lia)).
    destruct (Z.eqb_spec i j); destruct (Z.eqb_spec (i mod (bs * 8)) (j mod (bs * 8))); try done; [congruence|].
    exfalso. rewrite Hdiv in *. lia.
  - destruct (Z.eqb_spec i j) as [->|]; [done|]. done.
Qed.
(** Setting a clear bit leaves one clear bit less. *)
Lemma alloc_free_total j k : sized k -> 0 <= j < data_block_count l -> is_free k j ->
  free_total (alloc j k) = free_total k - 1.
Proof using Hl.
  intros Hk Hj Hf. unfold free_total, free_from. rewrite Z.sub_0_r.
  assert (Hsplit : seqZ 0 (data_block_count l) = seqZ 0 j ++ j :: seqZ (j + 1) (data_block_count l - j - 1)).
  { replace (data_block_count l) with (j + (data_block_count l - j)) at 1 by lia. rewrite seqZ_app by lia. f_equal.
    rewrite Z.add_0_l, seqZ_cons by lia. f_equal; lia. }
  assert (Hsame : forall xs : list Z, (forall i, i ∈ xs -> 0 <= i < data_block_count l /\ i <> j) ->
    filter (is_free (alloc j k)) xs = filter (is_free k) xs).
  { intros xs Hxs. apply filter_same. intros i Hi. apply Hxs in Hi as [Hi Hne]. unfold is_free.
    rewrite alloc_bit by done. by rewrite (proj2 (Z.eqb_neq _ _)) by done. }
  rewrite Hsplit, !filter_app. unfold lenZ. rewrite !length_app.
  rewrite filter_cons_False by (unfold is_free; rewrite alloc_bit, Z.eqb_refl by done; done).
  rewrite (filter_cons_True (is_free k)) by done.
  rewrite !Hsame; [simpl; lia| |]; intros i Hi; apply elem_of_seqZ in Hi; lia.
Qed.
End layout.

(** ** Inode records and allocation on a store *)

Section store.
Context {D : Type} `{FlushStoreLaws D} `{!BlockStoreLaws D}.
Context (l : SimpleFsLayout) (Hl : layout_ok l).
Implicit Types k : Z -> list Z.
Abbreviation run c k r k' := (does (D := D) (block_size_bytes l) (block_count l) c k r k').

Lemma does_validate_inode n k :
  run (validate_inode_number l n) k (if (n =? 0) || (inode_count l <? n) then Throw out_of_range else Ok tt) k.
Proof. apply does_throw_if. Qed.
Lemma validate_valid n : valid_inode l n -> (n =? 0) || (inode_count l <? n) = false.
Proof. unfold valid_inode. intros Hn. apply orb_false_iff. split; [apply Z.eqb_neq|apply Z.ltb_ge]; lia. Qed.
Lemma does_read_inode n k : valid_inode l n -> run (read_inode l n) k (inode_of l k n) k.
Proof using All.
  intros Hn. unfold read_inode. eapply does_bind; [pose proof (does_validate_inode n k) as Hv; by rewrite validate_valid in Hv|].
  destruct (inode_position_spec l Hl n Hn) as [Hp Ha]. destruct (inode_slot l Hl n Hn) as (Ht & _).
  rewrite Hp, Ha. eapply does_bind; [by apply does_read, table_in_range|]. apply does_res.
Qed.
Lemma does_read_inode_invalid n k : 0 <= n -> ~ valid_inode l n -> run (read_inode l n) k (Throw out_of_range) k.
Proof.
  intros Hge Hn. unfold read_inode. apply does_bind_throw. pose proof (does_validate_inode n k) as Hv.
  replace ((n =? 0) || (inode_count l <? n)) with true in Hv; [done|]. symmetry. apply orb_true_iff.
  unfold valid_inode in Hn. destruct (Z.eqb_spec n 0); [by left|right]. apply Z.ltb_lt. lia.
Qed.
(** Writing a record changes that record only. *)
Lemma does_write_inode r k : valid_inode l (number r) -> record_fits l r -> sized l k ->
  exists k', run (write_inode l r) k (Ok tt) k' /\ sized l k' /\ inode_of l k' (number r) = Ok r /\
    (forall n, valid_inode l n -> n <> number r -> inode_of l k' n = inode_of l k n) /\
    (forall a, ~ table_region l a -> k' a = k a).
Proof using All.
  intros Hn Hr Hk. destruct (inode_roundtrip l r Hr) as (record & Hb & Hlen & Hp).
  destruct (inode_slot l Hl _ Hn) as (Ht & Ho1 & Ho2 & _). pose proof (table_in_range l Hl _ Ht) as Hrange.
  pose proof (Hk _ Hrange) as Hsz.
  set (a := inode_block l (number r)) in *. set (o := inode_offset l (number r)) in *.
  exists (upd a (splice o record (k a)) k). assert (Hsp : lenZ (splice o record (k a)) = block_size_bytes l) by (rewrite splice_length; lia).
  split; [|split; [by apply upd_sized|split; [|split]]].
  - unfold write_inode. eapply does_bind; [pose proof (does_validate_inode (number r) k) as Hv; by rewrite validate_valid in Hv|].
    destruct (inode_position_spec l Hl _ Hn) as [Hpos Ha]. rewrite Hpos, Ha.
    eapply does_bind; [by apply does_read|]. eapply does_bind; [apply does_res_eq; exact Hb|]. by apply does_write.
  - unfold inode_of. fold a o. rewrite upd_same. rewrite <- Hlen. rewrite slice_splice_same by lia. done.
  - intros n Hv Hne. unfold inode_of. unfold upd. destruct (decide (inode_block l n = a)) as [He|]; [|done].
    destruct (inode_slot l Hl n Hv) as (_ & Hn1 & Hn2 & _).
    pose proof (inode_slots_disjoint l Hl n (number r) Hv Hn Hne He). rewrite He.
    rewrite slice_splice_disjoint by (unfold o in *; lia). done.
  - intros x Hx. apply upd_other. intros ->. done.
Qed.

(** *** Scanning the bitmap *)

Abbreviation bpb := (bits_per_block l).
Lemma bitmap_bits : bitmap_bits_per_block (block_size_bytes l) = bpb.
Proof using Hl. destruct (layout_bounds l Hl) as (? & ? & ? & ?). unfold bitmap_bits_per_block, mul64. unfold bits_per_block; apply wrap64_small. unfold u64. lia. Qed.
Lemma bitmap_base i : 0 <= i < data_bitmap_block_count l ->
  mul64 i bpb = i * bpb /\ 0 <= i * bpb < W64 /\ bitmap_region l (data_bitmap_start l + i) /\
  add64 (data_bitmap_start l) i = data_bitmap_start l + i.
Proof using Hl.
  intros Hi. destruct (layout_bounds l Hl) as (? & ? & ? & ?). assert (Hr : bitmap_region l (data_bitmap_start l + i)) by (unfold bitmap_region; lia).
  pose proof (bitmap_in_range l Hl _ Hr). pose proof (lo_small l Hl). pose proof (table_not_empty l Hl).
  pose proof (lo_table_start l Hl). pose proof (lo_bitmap l Hl). pose proof (bits_positive l Hl). fold bpb in *.
  assert (i * bpb <= block_count l * bpb) by (apply Z.mul_le_mono_nonneg_r; lia).
  unfold mul64. rewrite wrap64_small by (unfold u64; nia). split; [done|]. split; [nia|]. split; [done|].
  apply add64_small; lia.
Qed.
(** The clear bits of one bitmap block come before those of the next. *)
Lemma free_from_chunk k i : 0 <= i < data_bitmap_block_count l -> i * bpb < data_block_count l ->
  free_from l k (i * bpb) =
  (Z.add (i * bpb) <$> clear_bits (k (data_bitmap_start l + i)) (Z.min bpb (data_block_count l - i * bpb))) ++ free_from l k ((i + 1) * bpb).
Proof using Hl.
  intros Hi Hb. pose proof (bits_positive l Hl). unfold free_from, clear_bits. set (n := Z.min bpb (data_block_count l - i * bpb)).
  replace (data_block_count l - i * bpb) with (n + (data_block_count l - i * bpb - n)) by lia.
  rewrite seqZ_app by lia. rewrite filter_app. f_equal.
  - replace (i * bpb) with (i * bpb + 0) at 1 by lia. rewrite <- fmap_add_seqZ. apply filter_fmap.
    intros x Hx. apply elem_of_seqZ in Hx. unfold is_free, bit. rewrite Z.div_add_l by lia.
    rewrite Z.div_small, Z.add_0_r by lia. rewrite (Z.add_comm (i * bpb) x), Z.mod_add, Z.mod_small by lia. done.
  - destruct (decide (n = bpb)) as [->|].
    + f_equal. f_equal; lia.
    + rewrite !seqZ_nil by lia. done.
Qed.
Lemma free_from_end k base : data_block_count l <= base -> free_from l k base = [].
Proof. intros Hb. unfold free_from. by rewrite seqZ_nil by lia. Qed.

Lemma does_allocate_loop k : sized l k -> forall m i, 0 <= i -> i + Z.of_nat m = data_bitmap_block_count l ->
  match head (free_from l k (i * bpb)) with
  | Some j => run (allocate_data_block_loop l (seqZ i (Z.of_nat m))) k (Ok (data_start l + j)) (alloc l j k)
  | None => run (allocate_data_block_loop l (seqZ i (Z.of_nat m))) k (Throw length_error) k
  end.
Proof using All.
  intros Hk. induction m as [|m IH]; intros i Hi Hm.
  - rewrite free_from_end; [apply does_throw|]. pose proof (lo_capacity l Hl). fold bpb in *. replace i with (data_bitmap_block_count l) by lia. done.
  - destruct (bitmap_base i ltac:(lia)) as (Hmul & Hsmall & Hreg & Hadd). pose proof (bits_positive l Hl).
    rewrite seqZ_cons by lia. replace (Z.pred (Z.of_nat (S m))) with (Z.of_nat m) by lia. change (Z.succ i) with (i + 1).
    cbn [allocate_data_block_loop]. rewrite bitmap_bits, Hmul, Hadd. specialize (IH (i + 1) ltac:(lia) ltac:(lia)).
    pose proof (does_read (block_size_bytes l) (block_count l) _ k (bitmap_in_range l Hl _ Hreg)) as Hread.
    destruct (Z.leb_spec (data_block_count l) (i * bpb)).
    { rewrite free_from_end by done. eapply does_bind; [exact Hread|]. apply does_throw. }
    pose proof (lo_data_count l Hl). pose proof (lo_end l Hl). destruct (layout_bounds l Hl) as (? & ? & ? & ?). pose proof (table_not_empty l Hl).
    pose proof (lo_table_start l Hl). pose proof (lo_bitmap l Hl). pose proof (lo_data l Hl).
    rewrite free_from_chunk by lia. rewrite sub64_small by lia.
    destruct (clear_bits _ _) as [|b rest] eqn:Ef.
    { cbn [fmap list_fmap app head]. destruct (head _) as [j|]; (eapply does_bind; [exact Hread|]; rewrite Ef; exact IH). }
    cbn [fmap list_fmap app head]. assert (Hb : b ∈ (b :: rest)) by (by left). rewrite <- Ef in Hb. unfold clear_bits in Hb. apply list_elem_of_filter in Hb as [_ Hb].
    apply elem_of_seqZ in Hb. set (j := i * bpb + b).
    assert (Hj : j / bpb = i /\ j mod bpb = b).
    { unfold j. rewrite Z.div_add_l, Z.div_small, (Z.add_comm (i * bpb) b), Z.mod_add, Z.mod_small by lia. lia. }
    destruct Hj as [Hjd Hjm]. assert (Hdata : data_region l (data_start l + j)) by (unfold data_region; lia).
    pose proof (data_in_range l Hl _ Hdata). eapply does_bind; [exact Hread|]. cbn beta. rewrite Ef. cbn [head].
    rewrite (add64_small (data_start l) (i * bpb)), add64_small by lia.
    replace (data_start l + i * bpb + b) with (data_start l + j) by lia.
    unfold alloc. rewrite Hjd, Hjm.
    eapply does_bind; [apply does_write; [by apply bitmap_in_range|rewrite set_bit_length; apply Hk; by apply bitmap_in_range]|].
    eapply does_bind; [apply does_write; [done|by rewrite zero_block_length by lia]|]. apply does_ret.
Qed.
(** Allocation takes the first block whose bit is clear. *)
Lemma does_allocate k : sized l k ->
  match head (free_from l k 0) with
  | Some j => run (allocate_data_block l) k (Ok (data_start l + j)) (alloc l j k)
  | None => run (allocate_data_block l) k (Throw length_error) k
  end.
Proof using All.
  intros Hk. pose proof (lo_bitmap_count l Hl).
  pose proof (does_allocate_loop k Hk (Z.to_nat (data_bitmap_block_count l)) 0 ltac:(lia) ltac:(lia)) as Ha.
  rewrite Z2Nat.id in Ha by lia. exact Ha.
Qed.
Lemma does_free_count_loop k : forall m i acc, 0 <= i -> i + Z.of_nat m = data_bitmap_block_count l ->
  run (free_count_loop l (seqZ i (Z.of_nat m)) acc) k (Ok (acc + lenZ (free_from l k (i * bpb)))) k.
Proof using All.
  induction m as [|m IH]; intros i acc Hi Hm.
  - rewrite free_from_end; [rewrite Z.add_0_r; apply does_ret|]. pose proof (lo_capacity l Hl). fold bpb in *.
    replace i with (data_bitmap_block_count l) by lia. done.
  - destruct (bitmap_base i ltac:(lia)) as (Hmul & Hsmall & Hreg & Hadd). pose proof (bits_positive l Hl).
    rewrite seqZ_cons by lia. replace (Z.pred (Z.of_nat (S m))) with (Z.of_nat m) by lia. change (Z.succ i) with (i + 1).
    cbn [free_count_loop]. rewrite bitmap_bits, Hmul, Hadd.
    eapply does_bind; [apply does_read; by apply bitmap_in_range|].
    destruct (Z.leb_spec (data_block_count l) (i * bpb)).
    { rewrite free_from_end by done. rewrite Z.add_0_r. apply does_ret. }
    pose proof (lo_end l Hl). destruct (layout_bounds l Hl) as (? & ? & ? & ?). pose proof (table_not_empty l Hl).
    pose proof (lo_table_start l Hl). pose proof (lo_bitmap l Hl). pose proof (lo_data l Hl).
    rewrite free_from_chunk by lia. rewrite sub64_small by lia. unfold lenZ. rewrite length_app, length_fmap, Nat2Z.inj_add, Z.add_assoc.
    apply IH; lia.
Qed.
Lemma does_free_count k : run (free_data_block_count l) k (Ok (free_total l k)) k.
Proof using All.
  pose proof (lo_bitmap_count l Hl).
  pose proof (does_free_count_loop k (Z.to_nat (data_bitmap_block_count l)) 0 0 ltac:(lia) ltac:(lia)) as Hf.
  rewrite Z2Nat.id in Hf by lia. exact Hf.
Qed.
End store.
