(* ===== verification/FsData.v ===== *)
(** * File contents on the disk

    The loops of [read_inode_bytes] and [write_inode_bytes] of src/os/fs/simple_fs.cpp in terms of the
    bytes a record's direct blocks hold: reading returns them, writing replaces a range of them,
    allocates exactly the blocks the range needs and touches no other block in use. *)

From S2P Require Import Prelude BlockDevice FsFormat SimpleFs FsDisk.

Section data.
Context (l : SimpleFsLayout) (Hl : layout_ok l).
Implicit Types (k : Z -> list Z) (r : InodeRecord).
Abbreviation bs := (block_size_bytes l).

(** Direct block [i] of a record, the byte it holds at offset [j] and the blocks in use. *)
Definition blk r (i : Z) : Z := nthZ (direct_blocks r) i.
Definition byte_in k r (j : Z) : Z := nthZ (k (blk r (j / bs))) (j mod bs).
Definition live k (b : Z) : Prop := data_region l b /\ bit l k (b - data_start l) = true.
Definition blocks_for (n : Z) : Z := (n + bs - 1) / bs.
(** The first [m] direct blocks are distinct blocks in use, the others are empty. *)
Record blocks_ok k r (m : Z) : Prop := {
  bo_length : length (direct_blocks r) = 6%nat;
  bo_range : 0 <= m <= 6;
  bo_live : forall i, 0 <= i < m -> live k (blk r i);
  bo_empty : forall i, m <= i < 6 -> blk r i = 0;
  bo_distinct : forall i i', 0 <= i < m -> 0 <= i' < m -> blk r i = blk r i' -> i = i';
}.

Lemma bs_positive : 0 < bs.
Proof using Hl. by destruct (layout_bounds l Hl). Qed.
Lemma blocks_for_le n m : blocks_for n <= m <-> n <= m * bs.
Proof using Hl.
  pose proof bs_positive. unfold blocks_for. pose proof (Z.div_mod (n + bs - 1) bs ltac:(lia)). pose proof (Z.mod_pos_bound (n + bs - 1) bs ltac:(lia)).
  split; intros; nia.
Qed.
Lemma live_nonzero k b : live k b -> b <> 0.
Proof using Hl.
  intros [Hd _] ->. unfold data_region in Hd. destruct (layout_bounds l Hl). pose proof (table_not_empty l Hl). destruct Hl. lia.
Qed.
Lemma live_in_range k b : live k b -> 0 <= b < block_count l.
Proof using Hl. intros [Hd _]. by apply data_in_range. Qed.

Lemma within_block cur x : 0 <= cur -> 0 <= x -> cur mod bs + x < bs ->
  (cur + x) / bs = cur / bs /\ (cur + x) mod bs = cur mod bs + x.
Proof using Hl.
  intros Hc Hx Hlt. pose proof bs_positive. pose proof (Z.div_mod cur bs ltac:(lia)). pose proof (Z.mod_pos_bound cur bs ltac:(lia)).
  assert (Hd : (cur + x) / bs = cur / bs) by (symmetry; apply (Z.div_unique_pos _ _ _ (cur mod bs + x)); lia).
  split; [done|]. symmetry. apply (Z.mod_unique_pos _ _ (cur / bs)); lia.
Qed.
Lemma slice_block (b : list Z) cur c : 0 <= cur -> 0 <= c -> cur mod bs + c <= bs -> lenZ b = bs ->
  slice (cur mod bs) c b = (fun j => nthZ b (j mod bs)) <$> seqZ cur c.
Proof using Hl.
  intros Hcur Hc Hle Hb. pose proof bs_positive. pose proof (Z.mod_pos_bound cur bs ltac:(lia)). apply list_eq. intros x.
  rewrite list_lookup_fmap. destruct (decide (x < Z.to_nat c)%nat) as [Hx|Hx].
  - rewrite lookup_seqZ_lt by lia. cbn [fmap option_fmap option_map].
    destruct (within_block cur (Z.of_nat x) Hcur ltac:(lia) ltac:(lia)) as [_ ->].
    unfold slice. rewrite lookup_take_lt, lookup_drop by lia. unfold nthZ, lenZ in *. rewrite lookup_nth by lia.
    do 2 f_equal. lia.
  - rewrite lookup_seqZ_ge by lia. apply lookup_ge_None_2. unfold slice. rewrite length_take, length_drop. lia.
Qed.

Section read.
Context {D : Type} `{FlushStoreLaws D} `{!BlockStoreLaws D}.
Abbreviation run c k r k' := (does (D := D) (block_size_bytes l) (block_count l) c k r k').

(** Reading collects the bytes one after the other. *)
Lemma does_read_loop k r m : sized l k -> blocks_ok k r m -> forall fuel cur rem destination,
  0 <= cur -> 0 <= rem <= Z.of_nat fuel -> cur + rem <= m * bs ->
  run (read_loop l fuel r cur rem destination) k (Ok (destination ++ (byte_in k r <$> seqZ cur rem))) k.
Proof using All.
  intros Hk Hb. pose proof bs_positive. pose proof (lo_size l Hl). pose proof (bo_range _ _ _ Hb).
  pose proof (Z.mul_le_mono_nonneg_r m 6 bs ltac:(lia) ltac:(lia)).
  induction fuel as [|fuel IH]; intros cur rem destination Hcur Hrem Hle.
  { rewrite seqZ_nil by lia. rewrite app_nil_r. apply does_ret. }
  cbn [read_loop]. destruct (Z.eqb_spec rem 0) as [->|Hne]; [rewrite app_nil_r; apply does_ret|].
  set (c := Z.min rem (bs - cur mod bs)). pose proof (Z.mod_pos_bound cur bs ltac:(lia)).
  assert (Hi : 0 <= cur / bs < m) by (split; [apply Z.div_pos; lia|apply Z.div_lt_upper_bound; lia]).
  pose proof (bo_live _ _ _ Hb _ Hi) as Hlive. fold (blk r (cur / bs)).
  rewrite (proj2 (Z.eqb_neq _ _)) by (by apply (live_nonzero k)). pose proof (live_in_range _ _ Hlive) as Hr.
  eapply does_bind; [eapply does_bind; [by apply does_read|]; apply does_ret|].
  rewrite add64_small, sub64_small by lia.
  replace (byte_in k r <$> seqZ cur rem) with (slice (cur mod bs) c (k (blk r (cur / bs))) ++ (byte_in k r <$> seqZ (cur + c) (rem - c))).
  { rewrite app_assoc. apply IH; lia. }
  replace rem with (c + (rem - c)) at 2 by lia. rewrite seqZ_app, fmap_app by lia. f_equal.
  rewrite slice_block by (try apply Hk; lia). apply list_fmap_ext. intros x j Hj. apply list_elem_of_lookup_2, elem_of_seqZ in Hj.
  unfold byte_in. do 2 f_equal. replace j with (cur + (j - cur)) by lia.
  by rewrite (proj1 (within_block cur (j - cur) Hcur ltac:(lia) ltac:(lia))).
Qed.
End read.

(** ** Writing *)

(** What a run that writes [src] at offset [cur] of record [r] has done. *)
Record writes k r (m cur : Z) (src : list Z) k' r' (m' : Z) : Prop := {
  w_sized : sized l k';
  w_blocks : blocks_ok k' r' m';
  w_head : number r' = number r /\ kind r' = kind r /\ size_bytes r' = size_bytes r /\ allocated r' = allocated r;
  w_grows : m <= m';
  w_new : forall j, cur <= j < cur + lenZ src -> byte_in k' r' j = nthZ src (j - cur);
  w_old : forall j, 0 <= j < m * bs -> ~ (cur <= j < cur + lenZ src) -> byte_in k' r' j = byte_in k r j;
  w_frame : forall b, live k b -> (forall i, 0 <= i < 6 -> blk r i <> b) ->
    k' b = k b /\ live k' b /\ (forall i, 0 <= i < 6 -> blk r' i <> b);
  w_outside : forall a, ~ bitmap_region l a -> ~ data_region l a -> k' a = k a;
  w_free : free_total l k' = free_total l k - (m' - m);
}.
Lemma writes_nothing k r m cur : sized l k -> blocks_ok k r m -> writes k r m cur [] k r m.
Proof using Hl.
  intros Hk Hb. split; [done|done|done|lia| |done| |done|lia].
  - unfold lenZ. simpl. lia.
  - done.
Qed.
Lemma writes_trans k r m cur src1 k1 r1 m1 src2 k2 r2 m2 : 0 <= cur -> cur + lenZ src1 <= m1 * bs ->
  writes k r m cur src1 k1 r1 m1 -> writes k1 r1 m1 (cur + lenZ src1) src2 k2 r2 m2 ->
  writes k r m cur (src1 ++ src2) k2 r2 m2.
Proof using Hl.
  intros Hcur Hle [Hs1 Hb1 Hh1 Hg1 Hn1 Ho1 Hf1 Hx1 Hc1] [Hs2 Hb2 Hh2 Hg2 Hn2 Ho2 Hf2 Hx2 Hc2].
  assert (Hlen : lenZ (src1 ++ src2) = lenZ src1 + lenZ src2) by (unfold lenZ; rewrite length_app; lia).
  pose proof bs_positive. assert (0 <= lenZ src1 /\ 0 <= lenZ src2) as [? ?] by (unfold lenZ; lia).
  split; [done|done| |lia| | | | |lia].
  - conjuncts. repeat split; congruence.
  - intros j Hj. rewrite nthZ_app by lia. destruct (decide (j - cur < lenZ src1)).
    + rewrite Ho2 by lia. apply Hn1. lia.
    + rewrite Hn2 by lia. f_equal. lia.
  - intros j Hj Hout. rewrite Ho2; [apply Ho1; lia| |lia]. split; [lia|].
    pose proof (Z.mul_le_mono_nonneg_r m m1 bs ltac:(lia) Hg1). lia.
  - intros b Hb Hne. destruct (Hf1 b Hb Hne) as (E1 & Hl1 & Hne1). destruct (Hf2 b Hl1 Hne1) as (E2 & Hl2 & Hne2).
    split; [congruence|done].
  - intros a Ha Hd. rewrite Hx2 by done. by apply Hx1.
Qed.

(** Storing a block that already belongs to the record. *)
Lemma writes_block k r m cur src : sized l k -> blocks_ok k r m -> 0 <= cur -> 0 < lenZ src ->
  cur mod bs + lenZ src <= bs -> cur / bs < m ->
  let b := blk r (cur / bs) in
  writes k r m cur src (upd b (splice (cur mod bs) src (k b)) k) r m.
Proof using Hl.
  intros Hk Hb Hcur Hsrc Hle Him b. pose proof bs_positive. pose proof (Z.mod_pos_bound cur bs ltac:(lia)).
  pose proof (Z.div_mod cur bs ltac:(lia)).
  assert (Hi : 0 <= cur / bs) by (apply Z.div_pos; lia). pose proof (bo_range _ _ _ Hb).
  pose proof (bo_live _ _ _ Hb _ ltac:(split; [exact Hi|exact Him])) as Hlive. fold b in Hlive. pose proof (live_in_range _ _ Hlive) as Hr.
  assert (Hsp : lenZ (splice (cur mod bs) src (k b)) = bs) by (rewrite splice_length; rewrite ?(Hk b Hr); lia).
  assert (Hbit : forall a, bitmap_region l a -> upd b (splice (cur mod bs) src (k b)) k a = k a).
  { intros a Ha. apply upd_other. intros ->. destruct Hlive as [Hd _]. by apply (proj2 (proj2 (regions_disjoint l Hl b))). }
  assert (Hbits : forall j, 0 <= j < data_block_count l -> bit l (upd b (splice (cur mod bs) src (k b)) k) j = bit l k j).
  { intros j Hj. unfold bit. rewrite Hbit; [done|]. by apply bit_position. }
  assert (Hlives : forall a, live k a -> live (upd b (splice (cur mod bs) src (k b)) k) a).
  { intros a [Hd Ha]. split; [done|]. rewrite Hbits; [done|]. unfold data_region in Hd. lia. }
  split; [by apply upd_sized| |done|lia| | | | |].
  - destruct Hb. split; auto.
  - intros j Hj. replace j with (cur + (j - cur)) at 1 by lia.
    unfold byte_in. destruct (within_block cur (j - cur) Hcur ltac:(lia) ltac:(lia)) as [-> ->]. fold b. rewrite upd_same.
    apply nthZ_splice_same; rewrite ?(Hk b Hr); lia.
  - intros j Hj Hout. unfold byte_in. pose proof (Z.mod_pos_bound j bs ltac:(lia)). pose proof (Z.div_mod j bs ltac:(lia)).
    assert (Hjm : 0 <= j / bs < m) by (split; [apply Z.div_pos; lia|apply Z.div_lt_upper_bound; lia]).
    destruct (decide (j / bs = cur / bs)) as [He|He].
    + rewrite He. fold b. rewrite upd_same. apply nthZ_splice_other; rewrite ?(Hk b Hr); try lia.
    + rewrite upd_other; [done|]. intros Hc. apply He. apply (bo_distinct _ _ _ Hb); [done|lia|done].
  - intros a Ha Hne. split; [|split; [by apply Hlives|done]]. apply upd_other. intros ->. by apply (Hne (cur / bs)); [lia|].
  - intros a Ha Hd. apply upd_other. intros ->. by destruct Hlive.
  - unfold free_total, free_from. rewrite (filter_same (is_free l (upd b (splice (cur mod bs) src (k b)) k)) (is_free l k)); [lia|].
    intros j Hj. apply elem_of_seqZ in Hj. unfold is_free. by rewrite Hbits by lia.
Qed.

Lemma blk_set_direct r m b i : length (direct_blocks r) = 6%nat -> 0 <= m < 6 -> 0 <= i ->
  blk (set_direct_block m b r) i = if decide (i = m) then b else blk r i.
Proof. intros Hlen Hm Hi. unfold blk, set_direct_block. cbn [direct_blocks]. apply nthZ_insert; [unfold lenZ|]; lia. Qed.
Lemma alloc_live k j b : sized l k -> 0 <= j < data_block_count l -> is_free l k j -> live k b ->
  b <> data_start l + j /\ alloc l j k b = k b /\ live (alloc l j k) b.
Proof using Hl.
  intros Hk Hj Hf Hb. destruct (Hb) as [Hd Hbit]. assert (Hne : b <> data_start l + j).
  { intros ->. unfold is_free in Hf. replace (data_start l + j - data_start l) with j in Hbit by lia. congruence. }
  split; [done|]. split.
  - apply alloc_other; [done| |done|done]. intros Hm. by apply (proj2 (proj2 (regions_disjoint l Hl b))).
  - split; [done|]. unfold data_region in Hd. rewrite alloc_bit by (try done; lia). rewrite Hbit. by rewrite orb_true_r.
Qed.
(** Giving the record a block of its own. *)
Lemma writes_alloc k r m j cur : sized l k -> blocks_ok k r m -> m < 6 -> 0 <= j < data_block_count l -> is_free l k j ->
  writes k r m cur [] (alloc l j k) (set_direct_block m (data_start l + j) r) (m + 1).
Proof using Hl.
  intros Hk Hb Hm Hj Hf. pose proof (bo_range _ _ _ Hb). pose proof (bo_length _ _ _ Hb) as Hlen. pose proof bs_positive.
  assert (Hnew : forall i, 0 <= i < m -> blk r i <> data_start l + j).
  { intros i Hi. by destruct (alloc_live k j _ Hk Hj Hf (bo_live _ _ _ Hb i Hi)). }
  split; [by apply alloc_sized| |done|lia| | | | |rewrite alloc_free_total by done; lia].
  - split; [cbn; by rewrite length_insert|lia| | |].
    + intros i Hi. rewrite blk_set_direct by lia. destruct (decide (i = m)) as [->|].
      * split; [unfold data_region; lia|]. replace (data_start l + j - data_start l) with j by lia.
        rewrite alloc_bit by done. by rewrite Z.eqb_refl.
      * destruct (alloc_live k j (blk r i) Hk Hj Hf) as (_ & _ & Hlv); [|done]. apply (bo_live _ _ _ Hb). lia.
    + intros i Hi. rewrite blk_set_direct by lia. rewrite decide_False by lia. apply (bo_empty _ _ _ Hb). lia.
    + intros i i' Hi Hi'. rewrite !blk_set_direct by lia.
      destruct (decide (i = m)), (decide (i' = m)); intros He; subst; try done.
      * destruct (Hnew i'); [lia|done].
      * destruct (Hnew i); [lia|done].
      * apply (bo_distinct _ _ _ Hb); [lia..|done].
  - unfold lenZ. simpl. lia.
  - intros x Hx _. unfold byte_in. pose proof (Z.div_mod x bs ltac:(lia)). pose proof (Z.mod_pos_bound x bs ltac:(lia)).
    assert (Hxm : 0 <= x / bs < m) by (split; [apply Z.div_pos; lia|apply Z.div_lt_upper_bound; lia]).
    rewrite blk_set_direct by lia. rewrite decide_False by lia.
    by rewrite (proj1 (proj2 (alloc_live k j _ Hk Hj Hf (bo_live _ _ _ Hb _ Hxm)))).
  - intros b Hbl Hne. destruct (alloc_live k j b Hk Hj Hf Hbl) as (Hn & He & Hlv). split; [done|]. split; [done|].
    intros i Hi. rewrite blk_set_direct by lia. destruct (decide (i = m)); [congruence|]. by apply Hne.
  - intros a Ha Hd. apply alloc_other; [done|done| |done]. intros ->. apply Hd. unfold data_region. lia.
Qed.

Section write.
Context {D : Type} `{FlushStoreLaws D} `{!BlockStoreLaws D}.
Abbreviation run c k r k' := (does (D := D) (block_size_bytes l) (block_count l) c k r k').

(** The part of an iteration that finds the block: allocated, or read. *)
Definition find_block r (cur : Z) : M D (Z * InodeRecord * list Z) :=
  if nthZ (direct_blocks r) (cur / bs) =? SIMPLE_FS_EMPTY_BLOCK then
    allocate_data_block l ≫= fun data_block =>
    mret (data_block, set_direct_block (cur / bs) data_block r, make_zero_block bs)
  else
    bs_read (nthZ (direct_blocks r) (cur / bs)) bs ≫= fun block_bytes =>
    mret (nthZ (direct_blocks r) (cur / bs), r, block_bytes).
Lemma does_find_block k r m cur : sized l k -> blocks_ok k r m -> 0 <= cur <= m * bs -> cur < 6 * bs ->
  cur / bs + 1 - m <= free_total l k ->
  exists k1 r1 m1, run (find_block r cur) k (Ok (blk r1 (cur / bs), r1, k1 (blk r1 (cur / bs)))) k1 /\
    writes k r m cur [] k1 r1 m1 /\ m1 = Z.max m (cur / bs + 1).
Proof using All.
  intros Hk Hb Hcur Hmax Hfree. pose proof bs_positive. pose proof (bo_range _ _ _ Hb). pose proof (Z.div_mod cur bs ltac:(lia)).
  pose proof (Z.mod_pos_bound cur bs ltac:(lia)). assert (Hi : 0 <= cur / bs < 6) by (split; [apply Z.div_pos; lia|apply Z.div_lt_upper_bound; lia]).
  unfold find_block. fold (blk r (cur / bs)). destruct (decide (cur / bs < m)) as [Hlt|Hge].
  - pose proof (bo_live _ _ _ Hb (cur / bs) ltac:(lia)) as Hlive.
    exists k, r, m. rewrite (proj2 (Z.eqb_neq _ _)) by (by apply (live_nonzero k)).
    split; [eapply does_bind; [by apply does_read, (live_in_range k)|]; apply does_ret|]. split; [by apply writes_nothing|lia].
  - assert (Hm : cur / bs = m) by nia. rewrite Hm in *. rewrite (bo_empty _ _ _ Hb m) by lia. cbn [Z.eqb].
    change (0 =? SIMPLE_FS_EMPTY_BLOCK) with true. cbn iota.
    pose proof (does_allocate (D := D) l Hl k Hk) as Ha. destruct (head (free_from l k 0)) as [j|] eqn:Eh.
    2: { unfold free_total, lenZ in Hfree. destruct (free_from l k 0); [simpl in Hfree; lia|done]. }
    assert (Hj : 0 <= j < data_block_count l /\ is_free l k j).
    { assert (Hin : j ∈ free_from l k 0) by (destruct (free_from l k 0); [done|]; simpl in Eh; simplify_eq; by left).
      unfold free_from in Hin. apply list_elem_of_filter in Hin as [Hf Hin]. apply elem_of_seqZ in Hin. split; [lia|done]. }
    destruct Hj as [Hj Hf]. exists (alloc l j k), (set_direct_block m (data_start l + j) r), (m + 1).
    rewrite blk_set_direct by (try apply (bo_length _ _ _ Hb); lia). rewrite decide_True by done. rewrite alloc_data.
    split; [eapply does_bind; [exact Ha|]; apply does_ret|]. split; [apply writes_alloc; try done; lia|lia].
Qed.
Lemma does_write_loop : forall fuel k r m cur src, sized l k -> blocks_ok k r m ->
  (length src <= fuel)%nat -> 0 <= cur <= m * bs -> cur + lenZ src <= 6 * bs ->
  blocks_for (cur + lenZ src) - m <= free_total l k ->
  exists k' r' m', run (write_loop l fuel r cur (lenZ src) src) k (Ok r') k' /\ writes k r m cur src k' r' m' /\
    m' = Z.max m (blocks_for (cur + lenZ src)).
Proof using All.
  pose proof bs_positive. pose proof (lo_size l Hl). assert (Hdone : forall k r m cur fuel, sized l k -> blocks_ok k r m -> 0 <= cur <= m * bs ->
    exists k' r' m', run (write_loop l fuel r cur 0 []) k (Ok r') k' /\ writes k r m cur [] k' r' m' /\
      m' = Z.max m (blocks_for (cur + 0))).
  { intros k r m cur fuel Hk Hb Hcur. exists k, r, m. split; [destruct fuel; apply does_ret|]. split; [by apply writes_nothing|].
    assert (blocks_for (cur + 0) <= m); [|lia]. apply blocks_for_le. lia. }
  induction fuel as [|fuel IH]; intros k r m cur src Hk Hb Hfuel Hcur Hmax Hfree.
  { destruct src; [|simpl in Hfuel; lia]. by apply Hdone. }
  destruct (decide (src = [])) as [->|Hsrc]; [by apply Hdone|].
  assert (Hpos : 0 < lenZ src) by (unfold lenZ; destruct src; [done|simpl; lia]).
  cbn [write_loop]. rewrite (proj2 (Z.eqb_neq _ _)) by lia. fold (find_block r cur).
  set (c := Z.min (lenZ src) (bs - cur mod bs)). pose proof (Z.mod_pos_bound cur bs ltac:(lia)). pose proof (Z.div_mod cur bs ltac:(lia)).
  assert (Hneed : cur / bs + 1 <= blocks_for (cur + lenZ src)).
  { destruct (decide (blocks_for (cur + lenZ src) <= cur / bs)) as [Hle|]; [|lia]. apply blocks_for_le in Hle. lia. }
  destruct (does_find_block k r m cur Hk Hb Hcur ltac:(lia) ltac:(lia)) as (k1 & r1 & m1 & Hrun1 & Hw1 & Hm1).
  set (b := blk r1 (cur / bs)) in *. set (chunk := take (Z.to_nat c) src).
  assert (Hchunk : lenZ chunk = c) by (unfold lenZ, chunk in *; rewrite length_take; lia).
  assert (Hw2 : writes k1 r1 m1 cur chunk (upd b (splice (cur mod bs) chunk (k1 b)) k1) r1 m1).
  { apply writes_block; try lia; [apply (w_sized _ _ _ _ _ _ _ _ Hw1)|apply (w_blocks _ _ _ _ _ _ _ _ Hw1)]. }
  set (k2 := upd b (splice (cur mod bs) chunk (k1 b)) k1) in *.
  pose proof (w_sized _ _ _ _ _ _ _ _ Hw2) as Hs2. pose proof (w_blocks _ _ _ _ _ _ _ _ Hw2) as Hb2.
  pose proof (w_free _ _ _ _ _ _ _ _ Hw1). pose proof (w_free _ _ _ _ _ _ _ _ Hw2).
  assert (Hrest : lenZ (drop (Z.to_nat c) src) = lenZ src - c) by (unfold lenZ in *; rewrite length_drop; lia).
  assert (Hcm : cur + c <= m1 * bs).
  { assert (cur / bs + 1 <= m1) by lia. pose proof (Z.mul_le_mono_nonneg_r (cur / bs + 1) m1 bs ltac:(lia) ltac:(lia)). lia. }
  destruct (IH k2 r1 m1 (cur + c) (drop (Z.to_nat c) src) Hs2 Hb2) as (k3 & r3 & m3 & Hrun3 & Hw3 & Hm3).
  { rewrite length_drop. unfold lenZ in *. lia. }
  { lia. }
  { lia. }
  { rewrite Hrest. replace (cur + c + (lenZ src - c)) with (cur + lenZ src) by lia. lia. }
  exists k3, r3, m3. split; [|split].
  - eapply does_bind; [exact Hrun1|]. cbn beta iota. eapply does_bind.
    + apply does_write; [apply (live_in_range k1), (bo_live _ _ _ (w_blocks _ _ _ _ _ _ _ _ Hw1)); split; [apply Z.div_pos|]; lia|].
      fold chunk. rewrite splice_length; rewrite ?Hchunk; [| lia |].
      * apply (w_sized _ _ _ _ _ _ _ _ Hw1). apply (live_in_range k1), (bo_live _ _ _ (w_blocks _ _ _ _ _ _ _ _ Hw1)). split; [apply Z.div_pos|]; lia.
      * rewrite (w_sized _ _ _ _ _ _ _ _ Hw1); [lia|]. apply (live_in_range k1), (bo_live _ _ _ (w_blocks _ _ _ _ _ _ _ _ Hw1)). split; [apply Z.div_pos|]; lia.
    + rewrite add64_small, sub64_small by lia. rewrite <- Hrest. exact Hrun3.
  - rewrite <- (take_drop (Z.to_nat c) src). fold chunk. eapply writes_trans; [lia| | |].
    3: { rewrite Hchunk. exact Hw3. }
    + lia.
    + apply (writes_trans k r m cur [] k1 r1 m1 chunk k2 r1 m1); [lia| |done|].
      * unfold lenZ at 1. simpl. pose proof (Z.mul_le_mono_nonneg_r (cur / bs + 1) m1 bs ltac:(lia) ltac:(lia)). lia.
      * unfold lenZ at 1. simpl. rewrite Z.add_0_r. exact Hw2.
  - rewrite Hm3, Hrest. replace (cur + c + (lenZ src - c)) with (cur + lenZ src) by lia. lia.
Qed.
End write.
End data.
