(* ===== verification/FsSpec.v ===== *)
(** * What the file system promises

    The file system without its disk: numbered nodes, each a kind and the list of its bytes, and the
    number of blocks not yet given to any node.  The operations are those of src/os/fs/simple_fs.cpp
    as a client sees them, with the exception each rejection raises.  FsRefinement.v shows that the
    block-level operations of SimpleFs.v implement them. *)

From S2P Require Import Prelude BlockDevice FsFormat SimpleFs FsData.

Record FsState : Type := mkFsState {
  nodes : gmap Z (SimpleFsNodeKind * list Z);
  free_blocks : Z;
}.

Section spec.
Variable l : SimpleFsLayout.
Abbreviation F A := (M FsState A).

Definition spec_node (inode : Z) : F (SimpleFsNodeKind * list Z) :=
  throw_if ((inode =? 0) || (inode_count l <? inode)) out_of_range ≫= fun _ =>
  lift (fun s => match nodes s !! inode with Some n => Ok n | None => Throw out_of_range end).
Definition spec_node_of (wanted : SimpleFsNodeKind) (inode : Z) : F (list Z) :=
  spec_node inode ≫= fun '(kind, bytes) =>
  throw_if (negb (bool_decide (kind = wanted))) invalid_argument ≫= fun _ =>
  mret bytes.
Definition spec_metadata (inode : Z) : F SimpleFsInodeMetadata :=
  spec_node inode ≫= fun '(kind, bytes) => mret (mkMetadata inode kind (lenZ bytes)).
Definition spec_read_file (file offset n : Z) : F (list Z) :=
  spec_node_of Node.FILE file ≫= fun bytes => mret (slice offset n bytes).
Definition spec_read_directory (directory : Z) : F (list SimpleFsDirectoryEntry) :=
  spec_node_of Node.DIRECTORY directory ≫= fun bytes =>
  throw_if (negb (lenZ bytes mod 64 =? 0)) runtime_error ≫= fun _ =>
  lift (fun _ => parse_entries (Z.to_nat (lenZ bytes / 64)) bytes).
Definition spec_lookup (directory : Z) (name : list Z) : F (option SimpleFsDirectoryEntry) :=
  lift (fun _ => validate_directory_name name) ≫= fun _ =>
  spec_read_directory directory ≫= fun entries =>
  mret (find (fun e => bool_decide (entry_name e = name)) entries).

(** Blocks a node of [old] bytes is given when it grows to [new] bytes. *)
Definition growth (old new : Z) : Z := Z.max 0 (blocks_for l new - blocks_for l old).
Definition spec_room (old new : Z) : F unit :=
  throw_if (6 * block_size_bytes l <? new) length_error ≫= fun _ =>
  lift (fun s => if free_blocks s <? growth old new then Throw length_error else Ok tt).
Definition put_node (inode : Z) (kind : SimpleFsNodeKind) (bytes : list Z) (taken : Z) (s : FsState) : FsState :=
  mkFsState (<[inode := (kind, bytes)]> (nodes s)) (free_blocks s - taken).
Definition spec_write_file (file offset : Z) (source : list Z) : F Z :=
  spec_node_of Node.FILE file ≫= fun bytes =>
  throw_if (lenZ bytes <? offset) invalid_argument ≫= fun _ =>
  if bool_decide (source = []) then mret 0
  else
    spec_room (lenZ bytes) (offset + lenZ source) ≫= fun _ =>
    modify (put_node file Node.FILE (splice offset source bytes) (growth (lenZ bytes) (offset + lenZ source))) ≫= fun _ =>
    mret (lenZ source).

Definition free_inodes (s : FsState) : list Z := filter (fun n => nodes s !! n = None) (seqZ 1 (inode_count l)).
Definition spec_create (kind : SimpleFsNodeKind) (directory : Z) (name : list Z) : F Z :=
  lift (fun _ => validate_directory_name name) ≫= fun _ =>
  spec_lookup directory name ≫= fun existing =>
  throw_if (bool_decide (is_Some existing)) invalid_argument ≫= fun _ =>
  spec_node_of Node.DIRECTORY directory ≫= fun bytes =>
  spec_room (lenZ bytes) (lenZ bytes + 64) ≫= fun _ =>
  lift (fun s => match head (free_inodes s) with Some n => Ok n | None => Throw length_error end) ≫= fun inode =>
  lift (fun _ => serialize_directory_entry (mkDirent name inode kind)) ≫= fun record =>
  modify (fun s => put_node directory Node.DIRECTORY (bytes ++ record) (growth (lenZ bytes) (lenZ bytes + 64))
    (put_node inode kind [] 0 s)) ≫= fun _ =>
  mret inode.
End spec.

(** ** Requests *)

Inductive fs_request : Set :=
  | Metadata (inode : Z)
  | ReadDirectory (directory : Z)
  | Lookup (directory : Z) (name : list Z)
  | CreateFile (directory : Z) (name : list Z)
  | CreateDirectory (directory : Z) (name : list Z)
  | ReadFile (file offset n : Z)
  | WriteFile (file offset : Z) (source : list Z)
  | Flush.
Inductive fs_reply : Set :=
  | Described (m : SimpleFsInodeMetadata)
  | Entries (es : list SimpleFsDirectoryEntry)
  | Found (e : option SimpleFsDirectoryEntry)
  | Number (n : Z)
  | Bytes (b : list Z)
  | Done.

(** Arguments within their C++ types. *)
Definition request_ok (q : fs_request) : Prop :=
  match q with
  | Metadata n | ReadDirectory n => 0 <= n
  | Lookup d _ => 0 <= d
  | CreateFile d name | CreateDirectory d name => 0 <= d /\ Forall (fun c => 0 <= c < 256) name
  | ReadFile f off n => 0 <= f /\ u64 off /\ u64 n
  | WriteFile f off src => 0 <= f /\ u64 off /\ u64 (lenZ src)
  | Flush => True
  end.

Definition spec_serve (l : SimpleFsLayout) (q : fs_request) : M FsState fs_reply :=
  match q with
  | Metadata n => spec_metadata l n ≫= fun m => mret (Described m)
  | ReadDirectory d => spec_read_directory l d ≫= fun es => mret (Entries es)
  | Lookup d name => spec_lookup l d name ≫= fun e => mret (Found e)
  | CreateFile d name => spec_create l Node.FILE d name ≫= fun n => mret (Number n)
  | CreateDirectory d name => spec_create l Node.DIRECTORY d name ≫= fun n => mret (Number n)
  | ReadFile f off n => spec_read_file l f off n ≫= fun b => mret (Bytes b)
  | WriteFile f off src => spec_write_file l f off src ≫= fun n => mret (Number n)
  | Flush => mret Done
  end.
Section implementation.
Context {D : Type} `{FlushStore D}.
Definition serve (l : SimpleFsLayout) (q : fs_request) : M D fs_reply :=
  match q with
  | Metadata n => metadata l n ≫= fun m => mret (Described m)
  | ReadDirectory d => read_directory l d ≫= fun es => mret (Entries es)
  | Lookup d name => lookup l d name ≫= fun e => mret (Found e)
  | CreateFile d name => create_file l d name ≫= fun n => mret (Number n)
  | CreateDirectory d name => create_directory l d name ≫= fun n => mret (Number n)
  | ReadFile f off n => read_file l f off n ≫= fun b => mret (Bytes b)
  | WriteFile f off src => write_file l f off src ≫= fun n => mret (Number n)
  | Flush => flush ≫= fun _ => mret Done
  end.
End implementation.
