(* ===== verification/FsRefinement.v ===== *)
(** * The file system implements its specification

    [fs_repr d s]: the blocks of the store [d] represent the nodes and the free space [s] of FsSpec.v.
    Every operation of SimpleFs.v answers as the specification does, with the same exception when it
    is refused, and takes represented states to represented states. *)

From S2P Require Import Prelude BlockDevice BufferCache FsFormat SimpleFs FsDisk FsData FsSpec.

Lemma nthZ_splice (off : Z) (src bytes : list Z) j : 0 <= off <= lenZ bytes -> 0 <= j ->
  nthZ (splice off src bytes) j = if decide (off <= j < off + lenZ src) then nthZ src (j - off) else nthZ bytes j.
Proof.
  unfold splice. intros Ho Hj. assert (Ht : lenZ (take (Z.to_nat off) bytes) = off) by (unfold lenZ in *; rewrite length_take; lia).
  rewrite nthZ_app, Ht by done. destruct (decide (j < off)).
  - rewrite decide_False by lia. unfold nthZ. rewrite !nth_lookup, lookup_take_lt by lia. done.
  - rewrite nthZ_app by lia. destruct (decide (j - off < lenZ src)).
    + by rewrite decide_True by lia.
    + rewrite decide_False by lia. unfold nthZ, lenZ in *. rewrite !nth_lookup, lookup_drop. do 2 f_equal. lia.
Qed.
Lemma splice_extends (off : Z) (src bytes : list Z) : 0 <= off <= lenZ bytes ->
  lenZ (splice off src bytes) = Z.max (lenZ bytes) (off + lenZ src).
Proof. unfold splice, lenZ. intros. rewrite !length_app, length_take, length_drop. lia. Qed.
Lemma slice_seqZ (off n : Z) (bytes : list Z) : 0 <= off -> 0 <= n -> off + n <= lenZ bytes ->
  slice off n bytes = nthZ bytes <$> seqZ off n.
Proof.
  intros Ho Hn Hle. apply list_eq. intros i. rewrite list_lookup_fmap. unfold slice, lenZ in *.
  destruct (decide (i < Z.to_nat n)%nat).
  - rewrite lookup_take_lt, lookup_drop, lookup_seqZ_lt by lia. cbn [fmap option_fmap option_map]. unfold nthZ.
    rewrite lookup_nth by lia. do 2 f_equal. lia.
  - rewrite lookup_seqZ_ge by lia. apply lookup_ge_None_2. rewrite length_take. lia.
Qed.

Section refinement.
Context (l : SimpleFsLayout) (Hl : layout_ok l).
Implicit Types (k : Z -> list Z) (r : InodeRecord) (s : FsState) (ρ : Z -> InodeRecord).
Abbreviation bs := (block_size_bytes l).

Definition node_ok k (n : Z) r (x : option (SimpleFsNodeKind * list Z)) : Prop :=
  number r = n /\
  match x with
  | None => r = mkInode n Node.COUNT 0 [0; 0; 0; 0; 0; 0] false
  | Some (knd, bytes) => allocated r = true /\ kind r = knd /\ size_bytes r = lenZ bytes /\
      blocks_ok l k r (blocks_for l (lenZ bytes)) /\ forall j, 0 <= j < lenZ bytes -> byte_in l k r j = nthZ bytes j
  end.
(** The records [ρ] and the blocks [k] are those of the nodes of [s]. *)
Record state_ok k ρ s : Prop := {
  so_sized : sized l k;
  so_inodes : forall n, valid_inode l n -> inode_of l k n = Ok (ρ n);
  so_nodes : forall n, valid_inode l n -> node_ok k n (ρ n) (nodes s !! n);
  so_dom : forall n, is_Some (nodes s !! n) -> valid_inode l n;
  so_distinct : forall n n' i i', valid_inode l n -> valid_inode l n' -> n <> n' -> 0 <= i < 6 -> 0 <= i' < 6 ->
    blk (ρ n) i <> 0 -> blk (ρ n) i <> blk (ρ n') i';
  so_free : free_blocks s = free_total l k;
}.

(** ** Frames *)

Definition table_only k k' : Prop := forall a, ~ table_region l a -> k' a = k a.
Lemma table_only_data k k' a : table_only k k' -> data_region l a -> k' a = k a.
Proof using Hl. intros Ht Hd. apply Ht. intros Hr. by apply (proj1 (proj2 (regions_disjoint l Hl a))). Qed.
Lemma table_only_bit k k' j : table_only k k' -> 0 <= j < data_block_count l -> bit l k' j = bit l k j.
Proof using Hl.
  intros Ht Hj. unfold bit. rewrite Ht; [done|]. intros Hr. destruct (bit_position l Hl j Hj) as [Hb _].
  by apply (proj1 (regions_disjoint l Hl _)) in Hr.
Qed.
Lemma table_only_live k k' b : table_only k k' -> live l k b -> live l k' b.
Proof using Hl. intros Ht [Hd Hb]. split; [done|]. rewrite (table_only_bit k) by (unfold data_region in Hd; try done; lia). done. Qed.
Lemma table_only_free k k' : table_only k k' -> free_total l k' = free_total l k.
Proof using Hl.
  intros Ht. unfold free_total, free_from. f_equal. apply filter_same. intros j Hj. apply elem_of_seqZ in Hj.
  unfold is_free. by rewrite (table_only_bit k) by (try done; lia).
Qed.
(** A node is untouched where its blocks are. *)
Lemma node_ok_frame k k' n r x : (forall i, 0 <= i < 6 -> live l k (blk r i) -> k' (blk r i) = k (blk r i) /\ live l k' (blk r i)) ->
  node_ok k n r x -> node_ok k' n r x.
Proof using Hl.
  intros Hf [Hn Hx]. split; [done|]. destruct x as [[knd bytes]|]; [|done]. destruct Hx as (Ha & Hk & Hs & Hb & Hj).
  split; [done|]. split; [done|]. split; [done|]. pose proof (bo_range _ _ _ _ Hb). split.
  - destruct Hb as [H1 H2 H3 H4 H5]. split; try done. intros i Hi. apply Hf; [lia|]. by apply H3.
  - intros j Hr. rewrite <- Hj by done. unfold byte_in. f_equal. apply Hf; [|apply (bo_live _ _ _ _ Hb)];
      pose proof (bs_positive l Hl); pose proof (Z.mul_div_le j bs ltac:(lia));
      assert (0 <= j / bs < blocks_for l (lenZ bytes)); try lia;
      (split; [apply Z.div_pos; lia|]; apply Z.div_lt_upper_bound; [lia|]; pose proof (proj1 (blocks_for_le l Hl (lenZ bytes) (blocks_for l (lenZ bytes))) ltac:(lia)); lia).
Qed.
Lemma node_ok_table k k' n r x : table_only k k' -> node_ok k n r x -> node_ok k' n r x.
Proof using Hl.
  intros Ht. apply node_ok_frame. intros i _ Hb. split; [|by apply (table_only_live k)]. apply table_only_data; [done|]. apply Hb.
Qed.
Lemma node_block_live k n r x i : node_ok k n r x -> 0 <= i < 6 -> blk r i <> 0 -> live l k (blk r i).
Proof using Hl.
  intros [_ Hx] Hi Hne. destruct x as [[knd bytes]|].
  - destruct Hx as (_ & _ & _ & Hb & _). apply (bo_live _ _ _ _ Hb). split; [lia|].
    destruct (decide (i < blocks_for l (lenZ bytes))); [done|]. destruct Hne. apply (bo_empty _ _ _ _ Hb). lia.
  - subst r. exfalso. apply Hne. unfold blk, nthZ. cbn [direct_blocks].
    assert (Hc : (Z.to_nat i < 6)%nat) by lia. revert Hc. generalize (Z.to_nat i). intros m Hm.
    do 6 (destruct m as [|m]; [done|]). lia.
Qed.

(** ** Sizes *)

Lemma max_size : max_file_size_bytes l = 6 * bs.
Proof using Hl.
  pose proof (lo_size l Hl). unfold max_file_size_bytes, mul64, SIMPLE_FS_DIRECT_BLOCK_COUNT. apply wrap64_small. unfold u64. lia.
Qed.
Lemma node_fits k ρ s n knd bytes : state_ok k ρ s -> nodes s !! n = Some (knd, bytes) ->
  valid_inode l n /\ node_ok k n (ρ n) (Some (knd, bytes)) /\ record_fits l (ρ n) /\ lenZ bytes <= 6 * bs.
Proof using Hl.
  intros Hs Hn. assert (Hv : valid_inode l n) by (apply (so_dom _ _ _ Hs); by eexists). split; [done|].
  pose proof (so_nodes _ _ _ Hs n Hv) as Hnode. rewrite Hn in Hnode. split; [done|].
  destruct Hnode as (_ & Ha & _ & Hsz & _). destruct (parse_inode_fits _ _ _ _ (so_inodes _ _ _ Hs n Hv)) as (_ & Hfit & _).
  specialize (Hfit Ha). split; [done|]. pose proof (rf_size _ _ Hfit). rewrite max_size in *. lia.
Qed.
Lemma blocks_ok_valid k r m : blocks_ok l k r m -> Forall (fun b => 0 <= b < W64 /\ direct_block_is_invalid l b = false) (direct_blocks r).
Proof using Hl.
  intros Hb. apply Forall_forall. intros b Hin. apply elem_nthZ in Hin as (i & Hi & <-). fold (blk r i).
  unfold lenZ in Hi. rewrite (bo_length _ _ _ _ Hb) in Hi. destruct (layout_bounds l Hl) as (? & ? & ? & ?).
  destruct (decide (i < m)) as [Hlt|Hge].
  - pose proof (bo_live _ _ _ _ Hb i ltac:(lia)) as Hlive. pose proof (live_in_range l Hl _ _ Hlive). destruct Hlive as [Hd _].
    split; [lia|]. unfold direct_block_is_invalid, data_region in *. pose proof (lo_end l Hl). pose proof (table_not_empty l Hl).
    pose proof (lo_data_count l Hl). pose proof (lo_data l Hl). pose proof (lo_bitmap l Hl). pose proof (lo_table_start l Hl).
    pose proof (lo_bitmap_count l Hl). rewrite add64_small by lia.
    rewrite (proj2 (Z.ltb_ge _ _)), (proj2 (Z.leb_gt _ _)) by lia. by rewrite andb_false_r.
  - rewrite (bo_empty _ _ _ _ Hb) by lia. split; [lia|done].
Qed.
Lemma blocks_for_max a b : blocks_for l (Z.max a b) = Z.max (blocks_for l a) (blocks_for l b).
Proof using Hl.
  pose proof (blocks_for_le l Hl a) as Ha. pose proof (blocks_for_le l Hl b) as Hb. pose proof (blocks_for_le l Hl (Z.max a b)) as Hm.
  pose proof (bs_positive l Hl). apply Z.le_antisymm.
  - apply Hm. pose proof (proj1 (Ha _) (Z.le_refl _)). pose proof (proj1 (Hb _) (Z.le_refl _)). nia.
  - pose proof (proj1 (Hm _) (Z.le_refl _)). apply Z.max_lub; [apply Ha|apply Hb]; lia.
Qed.

(** ** Storing a node *)

Section ops.
Context {D : Type} `{FlushStoreLaws D} `{!BlockStoreLaws D}.
Abbreviation run c k r k' := (does (D := D) (block_size_bytes l) (block_count l) c k r k').
Definition set_record ρ (n : Z) r : Z -> InodeRecord := fun m => if decide (m = n) then r else ρ m.

(** Writing the record of a node whose blocks are in place gives the state with that node. *)
Lemma state_put k k1 ρ s n r knd bytes taken : state_ok k ρ s -> valid_inode l n -> sized l k1 ->
  record_fits l r -> node_ok k1 n r (Some (knd, bytes)) ->
  (forall m, valid_inode l m -> m <> n -> inode_of l k1 m = Ok (ρ m) /\ node_ok k1 m (ρ m) (nodes s !! m)) ->
  (forall m i i', valid_inode l m -> m <> n -> 0 <= i < 6 -> 0 <= i' < 6 -> blk (ρ m) i <> 0 -> blk (ρ m) i <> blk r i') ->
  free_total l k1 = free_blocks s - taken ->
  exists k2, run (write_inode l r) k1 (Ok tt) k2 /\ state_ok k2 (set_record ρ n r) (put_node n knd bytes taken s).
Proof using All.
  intros Hs Hn Hk1 Hfit Hnode Hother Hdist Hfree. destruct (Hnode) as [Hnum _].
  destruct (does_write_inode (D := D) l Hl r k1) as (k2 & Hrun & Hs2 & Hi2 & Hio & Htab); [by rewrite Hnum|done|done|].
  assert (Ht : table_only k1 k2) by exact Htab. rewrite Hnum in *.
  exists k2. split; [exact Hrun|]. unfold set_record. split; cbn [nodes free_blocks put_node].
  - done.
  - intros m Hm. destruct (decide (m = n)) as [->|Hne]; [done|]. rewrite Hio by done. by apply Hother.
  - intros m Hm. destruct (decide (m = n)) as [->|Hne].
    + rewrite lookup_insert_eq. by apply (node_ok_table k1).
    + rewrite lookup_insert_ne by congruence. apply (node_ok_table k1); [done|]. by apply Hother.
  - intros m. destruct (decide (m = n)) as [->|Hne]; [done|]. rewrite lookup_insert_ne by congruence. apply (so_dom _ _ _ Hs).
  - intros m m' i i' Hm Hm' Hne Hi Hi'.
    destruct (decide (m = n)) as [->|], (decide (m' = n)) as [->|]; [done| | |].
    + intros Hb He. assert (Hb' : blk (ρ m') i' <> 0) by congruence. by apply (Hdist m' i' i Hm' ltac:(done) Hi' Hi Hb').
    + by apply Hdist.
    + by apply (so_distinct _ _ _ Hs).
  - rewrite (table_only_free k1) by done. lia.
Qed.
Lemma others_unchanged k ρ s n : state_ok k ρ s ->
  forall m, valid_inode l m -> m <> n -> inode_of l k m = Ok (ρ m) /\ node_ok k m (ρ m) (nodes s !! m).
Proof using Hl. intros Hs m Hm _. split; [by apply (so_inodes _ _ _ Hs)|by apply (so_nodes _ _ _ Hs)]. Qed.
Lemma blocks_for_zero : blocks_for l 0 = 0.
Proof using Hl.
  pose proof (bs_positive l Hl). apply Z.le_antisymm; [apply (blocks_for_le l Hl); lia|]. unfold blocks_for. apply Z.div_pos; lia.
Qed.
Lemma blocks_for_pos n : 0 <= n -> 0 <= blocks_for l n.
Proof using Hl. intros Hn. pose proof (bs_positive l Hl). apply Z.div_pos; lia. Qed.

(** *** A new node *)

Lemma does_allocate_inode_loop k ρ s knd : state_ok k ρ s -> knd <> Node.COUNT -> forall candidates,
  (forall n, n ∈ candidates -> valid_inode l n) ->
  match head (filter (fun n => nodes s !! n = None) candidates) with
  | Some n => exists k2 ρ2, run (allocate_inode_loop l knd candidates) k (Ok n) k2 /\
      state_ok k2 ρ2 (put_node n knd [] 0 s) /\ (forall m, m <> n -> ρ2 m = ρ m)
  | None => run (allocate_inode_loop l knd candidates) k (Throw length_error) k
  end.
Proof using All.
  intros Hs Hknd. induction candidates as [|n rest IH]; intros Hv; [apply does_throw|].
  pose proof (Hv n ltac:(by left)) as Hn. cbn [allocate_inode_loop]. specialize (IH (fun m Hm => Hv m ltac:(by right))).
  pose proof (does_read_inode (D := D) l Hl n k Hn) as Hread. rewrite (so_inodes _ _ _ Hs n Hn) in Hread.
  pose proof (so_nodes _ _ _ Hs n Hn) as Hnode. rewrite filter_cons. destruct (nodes s !! n) as [[knd' bytes]|] eqn:En.
  - rewrite decide_False by done. destruct Hnode as (_ & Ha & _).
    destruct (head _) as [m|].
    + destruct IH as (k2 & ρ2 & Hrun & Hok). exists k2, ρ2. split; [|done]. eapply does_bind; [exact Hread|]. by rewrite Ha.
    + eapply does_bind; [exact Hread|]. by rewrite Ha.
  - rewrite decide_True by done. cbn [head]. destruct Hnode as [Hnum Hfree].
    set (r := mkInode n knd 0 (replicate 6 SIMPLE_FS_EMPTY_BLOCK) true).
    assert (Hzero : forall i, 0 <= i < 6 -> blk r i = 0) by (intros i Hi; apply (nthZ_replicate 6); lia).
    assert (Hblocks : blocks_ok l k r 0) by (split; try done; lia).
    destruct (state_put k k ρ s n r knd [] 0 Hs Hn) as (k2 & Hrun & Hok).
    + apply (so_sized _ _ _ Hs).
    + split; try done; [|by apply (blocks_ok_valid k r 0)]. cbn [size_bytes]. rewrite max_size. pose proof (bs_positive l Hl). cbn. lia.
    + split; [done|]. split; [done|]. split; [done|]. split; [done|]. change (lenZ []) with 0. rewrite blocks_for_zero.
      split; [done|]. intros j Hj. lia.
    + by apply others_unchanged.
    + intros m i i' _ _ _ Hi' Hne. by rewrite Hzero.
    + rewrite (so_free _ _ _ Hs). lia.
    + exists k2, (set_record ρ n r). split; [|split; [done|intros m Hm; unfold set_record; by rewrite decide_False]].
      eapply does_bind; [exact Hread|]. cbn beta. rewrite Hfree. cbn [allocated negb number].
      eapply does_bind; [exact Hrun|]. apply does_ret.
Qed.
Lemma does_allocate_inode k ρ s knd : state_ok k ρ s -> knd <> Node.COUNT ->
  match head (free_inodes l s) with
  | Some n => exists k2 ρ2, run (allocate_inode l knd) k (Ok n) k2 /\
      state_ok k2 ρ2 (put_node n knd [] 0 s) /\ (forall m, m <> n -> ρ2 m = ρ m)
  | None => run (allocate_inode l knd) k (Throw length_error) k
  end.
Proof using All.
  intros Hs Hk. apply (does_allocate_inode_loop k ρ s knd Hs Hk).
  intros n Hn. apply elem_of_seqZ in Hn. change SIMPLE_FS_ROOT_INODE_VALUE with 1 in Hn. unfold valid_inode. lia.
Qed.

(** *** Contents *)

Lemma does_read_bytes k ρ s n knd bytes off cnt : state_ok k ρ s -> nodes s !! n = Some (knd, bytes) ->
  u64 off -> u64 cnt -> run (read_inode_bytes l (ρ n) off cnt) k (Ok (slice off cnt bytes)) k.
Proof using All.
  intros Hs En Hoff Hcnt. destruct (node_fits _ _ _ _ _ _ Hs En) as (Hn & (_ & _ & _ & Hsz & Hb & Hj) & _ & Hmax).
  unfold u64 in *. unfold read_inode_bytes. rewrite Hsz.
  destruct (Z.leb_spec (lenZ bytes) off) as [Hle|Hlt]; cbn [orb].
  { unfold slice, lenZ in *. rewrite drop_ge by lia. rewrite take_nil. apply does_ret. }
  destruct (Z.eqb_spec cnt 0) as [->|Hne]; [unfold slice; apply does_ret|].
  pose proof (lo_size l Hl). rewrite sub64_small by lia. set (rem := Z.min cnt (lenZ bytes - off)).
  assert (Hsl : slice off cnt bytes = byte_in l k (ρ n) <$> seqZ off rem).
  { transitivity (slice off rem bytes).
    - unfold slice, lenZ in *.
      destruct (decide (cnt <= Z.of_nat (length bytes) - off)).
      + f_equal. lia.
      + rewrite !take_ge by (rewrite length_drop; lia). done.
    - rewrite slice_seqZ by lia. apply list_fmap_ext. intros i j Hij. apply list_elem_of_lookup_2, elem_of_seqZ in Hij.
      symmetry. apply Hj. lia. }
  rewrite Hsl. rewrite <- (app_nil_l (_ <$> _)).
  apply (does_read_loop l Hl k (ρ n) (blocks_for l (lenZ bytes))); [apply (so_sized _ _ _ Hs)|done|lia|lia|].
  pose proof (proj1 (blocks_for_le l Hl (lenZ bytes) _) (Z.le_refl _)). lia.
Qed.
Lemma ceil_div_blocks n : 0 <= n < W64 - bs -> ceil_div_u64 n bs = Ok (blocks_for l n).
Proof using Hl.
  intros Hn. pose proof (bs_positive l Hl). unfold ceil_div_u64. rewrite (proj2 (Z.eqb_neq _ _)) by lia.
  destruct (Z.eqb_spec n 0) as [->|Hne]; [by rewrite blocks_for_zero|]. f_equal. unfold blocks_for.
  replace (n + bs - 1) with (n - 1 + 1 * bs) by lia. rewrite Z.div_add by lia.
  pose proof (Z.div_le_upper_bound (n - 1) bs (n - 1) ltac:(lia) ltac:(nia)). pose proof (Z.div_pos (n - 1) bs ltac:(lia) ltac:(lia)).
  apply add64_small; lia.
Qed.
Lemma count_blocks k r m : blocks_ok l k r m -> count (fun b => b <> SIMPLE_FS_EMPTY_BLOCK) (direct_blocks r) = m.
Proof using Hl.
  intros Hb. pose proof (bo_range _ _ _ _ Hb). pose proof (bo_length _ _ _ _ Hb) as Hlen.
  rewrite <- (take_drop (Z.to_nat m) (direct_blocks r)), count_app, count_all, count_zero.
  - unfold lenZ. rewrite length_take. lia.
  - intros b Hin. apply list_elem_of_lookup in Hin as [i Hi]. rewrite lookup_drop in Hi. pose proof (lookup_lt_Some _ _ _ Hi).
    intros Hne. apply Hne. pose proof (bo_empty _ _ _ _ Hb (m + Z.of_nat i) ltac:(lia)) as He. unfold blk, nthZ in He.
    rewrite <- (nth_lookup_Some _ _ 0 _ Hi). replace (Z.to_nat m + i)%nat with (Z.to_nat (m + Z.of_nat i)) by lia. done.
  - intros b Hin. apply list_elem_of_lookup in Hin as [i Hi]. pose proof (lookup_lt_Some _ _ _ Hi) as Hlt. rewrite length_take in Hlt.
    rewrite lookup_take_lt in Hi by lia. pose proof (live_nonzero l Hl _ _ (bo_live _ _ _ _ Hb (Z.of_nat i) ltac:(lia))) as Hne.
    unfold blk, nthZ in Hne. rewrite Nat2Z.id, (nth_lookup_Some _ _ 0 _ Hi) in Hne. done.
Qed.
(** The checks before a write decide as [spec_room] does. *)
Lemma additional_blocks k ρ s n knd bytes new : state_ok k ρ s -> nodes s !! n = Some (knd, bytes) -> 0 <= new ->
  additional_blocks_needed l (ρ n) new =
  if 6 * bs <? new then Throw length_error else Ok (growth l (lenZ bytes) new).
Proof using Hl.
  intros Hs En Hnew. destruct (node_fits _ _ _ _ _ _ Hs En) as (Hn & (_ & _ & _ & Hsz & Hb & Hj) & _ & Hmax).
  pose proof (lo_size l Hl). unfold additional_blocks_needed. rewrite max_size.
  destruct (Z.ltb_spec (6 * bs) new); [done|]. rewrite ceil_div_blocks by lia. munfold_goal. f_equal.
  rewrite (count_blocks k (ρ n) (blocks_for l (lenZ bytes))) by done. unfold growth.
  by destruct (Z.ltb_spec (blocks_for l (lenZ bytes)) (blocks_for l new)); lia.
Qed.

(** Writing inside a node or at its end, then storing its record. *)
Lemma does_write_node k ρ s n knd bytes off src : state_ok k ρ s -> nodes s !! n = Some (knd, bytes) ->
  0 <= off <= lenZ bytes -> src <> [] -> off + lenZ src <= 6 * bs ->
  growth l (lenZ bytes) (off + lenZ src) <= free_blocks s ->
  exists r k1 k2, run (write_inode_bytes l (ρ n) off src) k (Ok (r, lenZ src)) k1 /\ run (write_inode l r) k1 (Ok tt) k2 /\
    state_ok k2 (set_record ρ n r) (put_node n knd (splice off src bytes) (growth l (lenZ bytes) (off + lenZ src)) s).
Proof using All.
  intros Hs En Hoff Hsrc Hmax Hfree. destruct (node_fits _ _ _ _ _ _ Hs En) as (Hn & (Hnum & Ha & Hk & Hsz & Hb & Hj) & Hfit & Hlen).
  pose proof (bs_positive l Hl). pose proof (lo_size l Hl). assert (Hpos : 0 < lenZ src) by (unfold lenZ; destruct src; [done|simpl; lia]).
  set (m := blocks_for l (lenZ bytes)) in *. pose proof (proj1 (blocks_for_le l Hl (lenZ bytes) m) (Z.le_refl _)) as Hm.
  pose proof (so_free _ _ _ Hs) as Hfr. unfold growth in *. fold m in Hfree |- *.
  destruct (does_write_loop (D := D) l Hl (length src) k (ρ n) m off src) as (k1 & r1 & m1 & Hrun & Hw & Hm1).
  { apply (so_sized _ _ _ Hs). } { done. } { done. } { lia. } { lia. } { lia. }
  destruct Hw as [Ws Wb (Wn & Wk & Wsz & Wa) Wg Wnew Wold Wframe Wout Wfree].
  set (r := set_size (Z.max (lenZ bytes) (off + lenZ src)) r1). exists r, k1.
  destruct (state_put k k1 ρ s n r knd (splice off src bytes) (Z.max 0 (blocks_for l (off + lenZ src) - m)) Hs Hn) as (k2 & Hrun2 & Hok).
  - done.
  - split; cbn [r set_size allocated kind size_bytes direct_blocks]; [congruence|rewrite Wk; apply (rf_kind _ _ Hfit)| |apply (bo_length _ _ _ _ Wb)|].
    + rewrite max_size. lia.
    + by apply (blocks_ok_valid k1 r1 m1).
  - split; [cbn; congruence|]. split; [cbn; congruence|]. split; [cbn; congruence|]. rewrite splice_extends by done. split; [done|].
    rewrite blocks_for_max. fold m. rewrite <- Hm1. split.
    + destruct Wb as [B1 B2 B3 B4 B5]. by split.
    + intros j Hjr. rewrite nthZ_splice by lia. change (byte_in l k1 r j) with (byte_in l k1 r1 j).
      destruct (decide (off <= j < off + lenZ src)); [by apply Wnew|]. rewrite Wold by lia. apply Hj. lia.
  - intros x Hx Hne. split.
    + rewrite <- (so_inodes _ _ _ Hs x Hx). unfold inode_of. rewrite Wout; [done| |];
        destruct (inode_slot l Hl x Hx) as (Ht & _); intros Hc; by destruct (regions_disjoint l Hl (inode_block l x)) as (? & ? & ?); auto.
    + apply (node_ok_frame k); [|by apply (so_nodes _ _ _ Hs)]. intros i Hi Hlive.
      assert (Hd : forall i', 0 <= i' < 6 -> blk (ρ n) i' <> blk (ρ x) i).
      { intros i' Hi' He. apply (so_distinct _ _ _ Hs x n i i' Hx Hn Hne Hi Hi'); [by apply (live_nonzero l Hl k)|done]. }
      destruct (Wframe _ Hlive Hd) as (E & Hlv & _). done.
  - intros x i i' Hx Hne Hi Hi' Hnz He. pose proof (node_block_live _ _ _ _ i (so_nodes _ _ _ Hs x Hx) Hi Hnz) as Hlive.
    assert (Hd : forall i', 0 <= i' < 6 -> blk (ρ n) i' <> blk (ρ x) i).
    { intros i'' Hi'' He'. by apply (so_distinct _ _ _ Hs x n i i'' Hx Hn Hne Hi Hi''). }
    destruct (Wframe _ Hlive Hd) as (_ & _ & Hnot). by apply (Hnot i' Hi').
  - rewrite Wfree, Hm1. lia.
  - exists k2. split; [|done]. unfold write_inode_bytes. rewrite Hsz.
    eapply does_bind; [apply does_pass, Z.ltb_ge; lia|]. rewrite bool_decide_false by done.
    eapply does_bind; [apply does_pass, Z.ltb_ge; rewrite sub64_small; lia|].
    rewrite add64_small by lia. eapply does_bind; [apply does_res_eq; rewrite (additional_blocks k ρ s n knd bytes) by (try done; lia); by rewrite (proj2 (Z.ltb_ge _ _)) by lia|].
    eapply does_bind; [by apply does_free_count|].
    eapply does_bind; [apply does_pass, Z.ltb_ge; unfold growth; fold m; lia|].
    eapply does_bind; [exact Hrun|]. rewrite Wsz, Hsz. apply does_ret.
Qed.

(** ** Operations *)

(** [c] does to the disk what [a] does to the state. *)
Definition served {A} (c : M D A) (a : M FsState A) k ρ s : Prop :=
  exists k' ρ', run c k (a s).2 k' /\ state_ok k' ρ' (a s).1.
Definition refines {A} (c : M D A) (a : M FsState A) : Prop := forall k ρ s, state_ok k ρ s -> served c a k ρ s.

Lemma refines_ret {A} (a : A) : refines (mret a) (mret a).
Proof. intros k ρ s Hs. exists k, ρ. split; [apply does_ret|done]. Qed.
Lemma refines_bind {A B} (c : M D A) (a : M FsState A) (f : A -> M D B) (g : A -> M FsState B) :
  refines c a -> (forall x, refines (f x) (g x)) -> refines (c ≫= f) (a ≫= g).
Proof.
  intros Hc Hf k ρ s Hs. destruct (Hc k ρ s Hs) as (k1 & ρ1 & Hrun & Hs1). unfold served. munfold_goal.
  destruct (a s) as [s1 [x|e]]; cbn [fst snd] in *.
  - destruct (Hf x k1 ρ1 s1 Hs1) as (k2 & ρ2 & Hrun2 & Hs2). exists k2, ρ2. split; [|done]. by eapply does_bind.
  - exists k1, ρ1. split; [by apply does_bind_throw|done].
Qed.
Lemma refines_res {A} (r : res A) : refines (lift (fun _ => r)) (lift (fun _ => r)).
Proof. intros k ρ s Hs. exists k, ρ. split; [apply does_res|done]. Qed.
Lemma refines_throw_if b e : refines (throw_if b e) (throw_if b e).
Proof. intros k ρ s Hs. exists k, ρ. split; [apply does_throw_if|done]. Qed.
Lemma served_throw {A} (c : M D A) (a : M FsState A) e k ρ s : state_ok k ρ s -> run c k (Throw e) k -> a s = (s, Throw e) -> served c a k ρ s.
Proof. intros Hs Hrun Ha. exists k, ρ. by rewrite Ha. Qed.

(** Reading a record of the wanted kind. *)
Definition check_kind (wanted : SimpleFsNodeKind) (r : InodeRecord) : M D unit :=
  throw_if (negb (allocated r)) out_of_range ≫= fun _ =>
  throw_if (negb (bool_decide (kind r = wanted))) invalid_argument.
Lemma read_node_cases k ρ s n : state_ok k ρ s -> 0 <= n ->
  (run (read_inode l n) k (Throw out_of_range) k /\ spec_node l n s = (s, Throw out_of_range)) \/
  (run (read_inode l n) k (Ok (ρ n)) k /\ allocated (ρ n) = false /\ spec_node l n s = (s, Throw out_of_range)) \/
  (exists x, run (read_inode l n) k (Ok (ρ n)) k /\ nodes s !! n = Some x /\ spec_node l n s = (s, Ok x)).
Proof using All.
  intros Hs Hn0. unfold spec_node. munfold_goal. destruct (decide (valid_inode l n)) as [Hv|Hv].
  - pose proof (does_read_inode (D := D) l Hl n k Hv) as Hread. rewrite (so_inodes _ _ _ Hs n Hv) in Hread.
    rewrite validate_valid by done. pose proof (so_nodes _ _ _ Hs n Hv) as [_ Hnode]. right.
    destruct (nodes s !! n) as [x|]; [right; by exists x|]. left. split; [done|]. split; [by rewrite Hnode|done].
  - left. split; [by apply does_read_inode_invalid|]. unfold valid_inode in Hv.
    destruct (Z.eqb_spec n 0); cbn [orb]; [done|]. by rewrite (proj2 (Z.ltb_lt _ _)) by lia.
Qed.
(** A computation that starts with the record of a node of the wanted kind. *)
Lemma served_node_of {A} wanted n (f : InodeRecord -> M D A) (g : list Z -> M FsState A) k ρ s : state_ok k ρ s -> 0 <= n ->
  (forall bytes, nodes s !! n = Some (wanted, bytes) -> served (f (ρ n)) (g bytes) k ρ s) ->
  served (read_inode l n ≫= fun r => check_kind wanted r ≫= fun _ => f r) (spec_node_of l wanted n ≫= g) k ρ s.
Proof using All.
  intros Hs Hn0 Hf. destruct (read_node_cases k ρ s n Hs Hn0) as [[Hr Hsp]|[(Hr & Ha & Hsp)|([knd bytes] & Hr & En & Hsp)]].
  - apply (served_throw _ _ out_of_range); [done|by apply does_bind_throw|]. unfold spec_node_of. munfold_goal. by rewrite Hsp.
  - apply (served_throw _ _ out_of_range); [done| |unfold spec_node_of; munfold_goal; by rewrite Hsp].
    eapply does_bind; [exact Hr|]. apply does_bind_throw, does_bind_throw, does_refuse. by rewrite Ha.
  - destruct (node_fits _ _ _ _ _ _ Hs En) as (_ & (_ & Ha & Hk & _) & _).
    destruct (decide (knd = wanted)) as [->|Hne].
    + destruct (Hf bytes En) as (k' & ρ' & Hrun & Hok). exists k', ρ'.
      assert (Hg : (spec_node_of l wanted n ≫= g) s = g bytes s).
      { unfold spec_node_of. munfold_goal. rewrite Hsp. cbn beta iota. by rewrite bool_decide_true. }
      rewrite Hg. split; [|done]. eapply does_bind; [exact Hr|]. eapply does_bind; [|exact Hrun].
      eapply does_bind; [apply does_pass; by rewrite Ha|]. apply does_pass. by rewrite bool_decide_true.
    + apply (served_throw _ _ invalid_argument); [done| |].
      * eapply does_bind; [exact Hr|]. apply does_bind_throw. eapply does_bind; [apply does_pass; by rewrite Ha|].
        apply does_refuse. rewrite bool_decide_false by congruence. done.
      * unfold spec_node_of. munfold_goal. rewrite Hsp. cbn beta iota. by rewrite bool_decide_false.
Qed.

Lemma metadata_refines n : 0 <= n -> refines (metadata l n) (spec_metadata l n).
Proof using All.
  intros Hn0 k ρ s Hs. unfold metadata. destruct (read_node_cases k ρ s n Hs Hn0) as [[Hr Hsp]|[(Hr & Ha & Hsp)|([knd bytes] & Hr & En & Hsp)]].
  - apply (served_throw _ _ out_of_range); [done|by apply does_bind_throw|]. unfold spec_metadata. munfold_goal. by rewrite Hsp.
  - apply (served_throw _ _ out_of_range); [done| |unfold spec_metadata; munfold_goal; by rewrite Hsp].
    eapply does_bind; [exact Hr|]. apply does_bind_throw, does_refuse. by rewrite Ha.
  - destruct (node_fits _ _ _ _ _ _ Hs En) as (_ & (Hnum & Ha & Hk & Hsz & _) & _). exists k, ρ.
    assert (Hspec : spec_metadata l n s = (s, Ok (mkMetadata n knd (lenZ bytes)))) by (unfold spec_metadata; munfold_goal; by rewrite Hsp).
    rewrite Hspec. split; [|done].
    eapply does_bind; [exact Hr|]. eapply does_bind; [apply does_pass; by rewrite Ha|]. rewrite Hnum, Hk, Hsz. apply does_ret.
Qed.
Lemma read_file_refines n off cnt : 0 <= n -> u64 off -> u64 cnt -> refines (read_file l n off cnt) (spec_read_file l n off cnt).
Proof using All.
  intros Hn0 Hoff Hcnt k ρ s Hs. apply (served_node_of Node.FILE n (fun r => read_inode_bytes l r off cnt) _ k ρ s Hs Hn0).
  intros bytes En. exists k, ρ. split; [|done]. by apply (does_read_bytes k ρ s n Node.FILE).
Qed.
Lemma read_directory_refines n : 0 <= n -> refines (read_directory l n) (spec_read_directory l n).
Proof using All.
  intros Hn0 k ρ s Hs. apply (served_node_of Node.DIRECTORY n (fun r =>
    throw_if (negb (size_bytes r mod SIMPLE_FS_DIRECTORY_ENTRY_SIZE_BYTES =? 0)) runtime_error ≫= fun _ =>
    read_inode_bytes l r 0 (size_bytes r) ≫= fun read =>
    let bytes := read ++ make_zero_block (size_bytes r - lenZ read) in
    lift (fun _ => parse_entries (Z.to_nat (lenZ bytes / SIMPLE_FS_DIRECTORY_ENTRY_SIZE_BYTES)) bytes)) _ k ρ s Hs Hn0).
  intros bytes En. destruct (node_fits _ _ _ _ _ _ Hs En) as (_ & (Hnum & Ha & Hk & Hsz & _) & _ & Hmax). pose proof (lo_size l Hl).
  rewrite Hsz. change SIMPLE_FS_DIRECTORY_ENTRY_SIZE_BYTES with 64. exists k, ρ.
  destruct (negb (lenZ bytes mod 64 =? 0)) eqn:Em; (split; [|done]).
  - apply does_bind_throw. by apply does_refuse.
  - eapply does_bind; [by apply does_pass|].
    eapply does_bind; [apply (does_read_bytes k ρ s n Node.DIRECTORY bytes); [done|done|unfold u64; lia|unfold u64; split; [unfold lenZ; lia|lia]]|].
    rewrite slice_full, Z.sub_diag. change (make_zero_block 0) with (@nil Z). rewrite app_nil_r. apply does_res.
Qed.
Lemma lookup_refines n name : 0 <= n -> refines (lookup l n name) (spec_lookup l n name).
Proof using All.
  intros Hn0. apply refines_bind; [apply refines_res|]. intros _. apply refines_bind; [by apply read_directory_refines|].
  intros es. apply refines_ret.
Qed.

Lemma put_node_same n knd bytes s : nodes s !! n = Some (knd, bytes) -> put_node n knd bytes 0 s = s.
Proof. intros En. unfold put_node. rewrite insert_id by done. rewrite Z.sub_0_r. by destruct s. Qed.
(** Storing a record as it is changes nothing. *)
Lemma does_rewrite_node k ρ s n knd bytes : state_ok k ρ s -> nodes s !! n = Some (knd, bytes) ->
  exists k2 ρ2, run (write_inode l (ρ n)) k (Ok tt) k2 /\ state_ok k2 ρ2 s.
Proof using All.
  intros Hs En. destruct (node_fits _ _ _ _ _ _ Hs En) as (Hn & Hnode & Hfit & _).
  destruct (state_put k k ρ s n (ρ n) knd bytes 0 Hs Hn) as (k2 & Hrun & Hok); try done.
  - apply (so_sized _ _ _ Hs).
  - by apply others_unchanged.
  - intros m i i' Hm Hne Hi Hi'. by apply (so_distinct _ _ _ Hs).
  - rewrite (so_free _ _ _ Hs). lia.
  - rewrite (put_node_same _ _ _ _ En) in Hok. eauto.
Qed.
Lemma write_file_refines n off src : 0 <= n -> u64 off -> u64 (lenZ src) -> refines (write_file l n off src) (spec_write_file l n off src).
Proof using All.
  intros Hn0 Hoff Hsrc k ρ s Hs. apply (served_node_of Node.FILE n (fun r =>
    write_inode_bytes l r off src ≫= fun '(r, byte_count) => write_inode l r ≫= fun _ => mret byte_count) _ k ρ s Hs Hn0).
  intros bytes En. destruct (node_fits _ _ _ _ _ _ Hs En) as (Hn & (Hnum & Ha & Hk & Hsz & _) & _ & Hmax).
  unfold u64 in *. pose proof (lo_size l Hl). assert (0 <= lenZ bytes) by (unfold lenZ; lia).
  assert (Hrefuse : forall e, run (write_inode_bytes l (ρ n) off src) k (Throw e) k ->
    run (write_inode_bytes l (ρ n) off src ≫= fun '(r, byte_count) => write_inode l r ≫= fun _ => mret byte_count) k (Throw e) k).
  { intros e He. by apply does_bind_throw. }
  destruct (Z.ltb_spec (lenZ bytes) off) as [Hgap|Hgap].
  { apply (served_throw _ _ invalid_argument); [done| |done].
    apply Hrefuse. unfold write_inode_bytes. apply does_bind_throw, does_refuse. rewrite Hsz. apply Z.ltb_lt. lia. }
  assert (Hpass : run (throw_if (size_bytes (ρ n) <? off) invalid_argument) k (Ok tt) k) by (apply does_pass, Z.ltb_ge; lia).
  destruct (decide (src = [])) as [->|Hne].
  { destruct (does_rewrite_node k ρ s n Node.FILE bytes Hs En) as (k2 & ρ2 & Hrun & Hok). exists k2, ρ2.
    rewrite bool_decide_true by done. split; [|done].
    eapply does_bind; [unfold write_inode_bytes; eapply does_bind; [exact Hpass|]; rewrite bool_decide_true by done; apply does_ret|].
    cbn beta iota. eapply does_bind; [exact Hrun|]. apply does_ret. }
  assert (Hadd : 6 * bs < off + lenZ src -> run (write_inode_bytes l (ρ n) off src) k (Throw length_error) k).
  { intros Hbig. unfold write_inode_bytes. eapply does_bind; [exact Hpass|]. rewrite bool_decide_false by done.
    rewrite sub64_small by lia. destruct (Z.ltb_spec (W64 - 1 - off) (lenZ src)).
    - apply does_bind_throw. by apply does_refuse.
    - eapply does_bind; [by apply does_pass|]. apply does_bind_throw. apply does_res_eq. rewrite add64_small by lia.
      rewrite (additional_blocks k ρ s n Node.FILE bytes) by (try done; lia). by rewrite (proj2 (Z.ltb_lt _ _)). }
  destruct (Z.ltb_spec (6 * bs) (off + lenZ src)) as [Hbig|Hbig].
  { apply (served_throw _ _ length_error); [done|by apply Hrefuse, Hadd|]. unfold spec_room. munfold_goal.
    rewrite bool_decide_false, (proj2 (Z.ltb_lt _ _)) by (try done; lia). done. }
  clear Hadd. destruct (Z.ltb_spec (free_blocks s) (growth l (lenZ bytes) (off + lenZ src))) as [Hfull|Hfull].
  - apply (served_throw _ _ length_error); [done| |].
    + apply Hrefuse. unfold write_inode_bytes. eapply does_bind; [exact Hpass|]. rewrite bool_decide_false by done.
      eapply does_bind; [apply does_pass, Z.ltb_ge; rewrite sub64_small; lia|]. rewrite add64_small by lia.
      eapply does_bind; [apply does_res_eq; rewrite (additional_blocks k ρ s n Node.FILE bytes) by (try done; lia); by rewrite (proj2 (Z.ltb_ge _ _)) by lia|].
      eapply does_bind; [by apply does_free_count|]. apply does_bind_throw, does_refuse. rewrite <- (so_free _ _ _ Hs). by apply Z.ltb_lt.
    + unfold spec_room. munfold_goal. rewrite bool_decide_false by done.
      rewrite (proj2 (Z.ltb_ge (6 * bs) _)) by lia. cbn beta iota. by rewrite (proj2 (Z.ltb_lt _ _)).
  - destruct (does_write_node k ρ s n Node.FILE bytes off src Hs En) as (r & k1 & k2 & Hrun1 & Hrun2 & Hok); [lia|done|lia|lia|].
    exists k2, (set_record ρ n r). unfold spec_room. munfold_goal. rewrite bool_decide_false by done.
    rewrite (proj2 (Z.ltb_ge (6 * bs) _)) by lia. cbn beta iota. rewrite (proj2 (Z.ltb_ge (free_blocks s) _)) by lia. split; [|done].
    eapply does_bind; [exact Hrun1|]. cbn beta iota. eapply does_bind; [exact Hrun2|]. apply does_ret.
Qed.

Lemma splice_end (record bytes : list Z) : splice (lenZ bytes) record bytes = bytes ++ record.
Proof. unfold splice, lenZ. rewrite Nat2Z.id, firstn_all, drop_ge by lia. by rewrite app_nil_r. Qed.
Lemma validated_name name : validate_directory_name name = Ok tt -> name <> [] /\ lenZ name <= SIMPLE_FS_MAX_NAME_LENGTH.
Proof.
  unfold validate_directory_name. intros Hv. destruct (bool_decide (name = [])) eqn:E1; [done|].
  destruct (Z.ltb_spec SIMPLE_FS_MAX_NAME_LENGTH (lenZ name)); [done|]. apply bool_decide_eq_false in E1. split; [done|lia].
Qed.
Lemma head_filter_elem {A} (P : A -> Prop) `{forall x, Decision (P x)} (xs : list A) x : head (filter P xs) = Some x -> P x /\ x ∈ xs.
Proof.
  intros Hh. assert (Hin : x ∈ filter P xs) by (destruct (filter P xs); [done|]; simpl in Hh; simplify_eq; by left).
  by apply list_elem_of_filter in Hin.
Qed.
(** The part of a creation that changes the disk, on the record of the parent. *)
Lemma append_served k ρ s parent bytes knd inode name record : state_ok k ρ s -> nodes s !! parent = Some (Node.DIRECTORY, bytes) ->
  serialize_directory_entry (mkDirent name inode knd) = Ok record -> lenZ record = 64 -> lenZ bytes + 64 <= 6 * bs ->
  growth l (lenZ bytes) (lenZ bytes + 64) <= free_blocks s ->
  exists k2 ρ2, run (append_directory_entry l (ρ parent) (mkDirent name inode knd)) k (Ok tt) k2 /\
    state_ok k2 ρ2 (put_node parent Node.DIRECTORY (bytes ++ record) (growth l (lenZ bytes) (lenZ bytes + 64)) s).
Proof using All.
  intros Hs En Hser Hlen Hmax Hfree. destruct (node_fits _ _ _ _ _ _ Hs En) as (Hn & (Hnum & Ha & Hk & Hsz & _) & _).
  destruct (does_write_node k ρ s parent Node.DIRECTORY bytes (lenZ bytes) record Hs En) as (r & k1 & k2 & Hrun1 & Hrun2 & Hok);
    rewrite ?Hlen; try done; [unfold lenZ; lia|by intros ->|].
  rewrite splice_end, Hlen in Hok. exists k2, (set_record ρ parent r). split; [|done].
  unfold append_directory_entry. eapply does_bind; [eapply does_bind; [apply does_pass; by rewrite Ha|]; apply does_pass; by rewrite bool_decide_true|].
  eapply does_bind; [by apply does_res_eq|]. rewrite Hsz. eapply does_bind; [exact Hrun1|]. exact Hrun2.
Qed.
Lemma create_refines knd parent name : 0 <= parent -> Forall (fun c => 0 <= c < 256) name -> knd <> Node.COUNT ->
  refines (create_node l knd parent name) (spec_create l knd parent name).
Proof using All.
  intros Hp0 Hbytes Hknd k ρ s Hs. unfold create_node, spec_create.
  destruct (validate_directory_name name) as [[]|e] eqn:Hv.
  2: { apply (served_throw _ _ e); [done| |done]. apply does_bind_throw, does_res. }
  apply validated_name in Hv as [Hne Hlen]. revert k ρ s Hs. apply refines_bind; [apply refines_res|]. intros _.
  apply refines_bind; [by apply lookup_refines|]. intros existing. apply refines_bind; [apply refines_throw_if|]. intros _ k ρ s Hs.
  apply (served_node_of Node.DIRECTORY parent (fun r =>
    lift (fun _ => additional_blocks_needed l r (add64 (size_bytes r) SIMPLE_FS_DIRECTORY_ENTRY_SIZE_BYTES)) ≫= fun needed =>
    free_data_block_count l ≫= fun free =>
    throw_if (free <? needed) length_error ≫= fun _ =>
    allocate_inode l knd ≫= fun inode =>
    append_directory_entry l r (mkDirent name inode knd) ≫= fun _ =>
    mret inode) _ k ρ s Hs Hp0).
  intros bytes En. destruct (node_fits _ _ _ _ _ _ Hs En) as (Hn & (Hnum & Ha & Hk & Hsz & _) & _ & Hmax).
  pose proof (lo_size l Hl). assert (0 <= lenZ bytes) by (unfold lenZ; lia). rewrite Hsz.
  change SIMPLE_FS_DIRECTORY_ENTRY_SIZE_BYTES with 64. rewrite add64_small by lia.
  pose proof (additional_blocks k ρ s parent Node.DIRECTORY bytes (lenZ bytes + 64) Hs En ltac:(lia)) as Hadd.
  rewrite Hadd. unfold spec_room. destruct (Z.ltb_spec (6 * bs) (lenZ bytes + 64)) as [Hbig|Hbig].
  { apply (served_throw _ _ length_error); [done|apply does_bind_throw, does_res|done]. }
  destruct (Z.ltb_spec (free_blocks s) (growth l (lenZ bytes) (lenZ bytes + 64))) as [Hfull|Hfull].
  { apply (served_throw _ _ length_error); [done| |].
    - eapply does_bind; [apply does_res|]. eapply does_bind; [by apply does_free_count|]. apply does_bind_throw, does_refuse.
      rewrite <- (so_free _ _ _ Hs). by apply Z.ltb_lt.
    - munfold_goal. by rewrite (proj2 (Z.ltb_lt _ _)). }
  assert (Hpre : forall A (f : unit -> M D A) (a : res A) k', run (f tt) k a k' ->
    run (lift (fun _ => Ok (growth l (lenZ bytes) (lenZ bytes + 64))) ≫= fun needed =>
      free_data_block_count l ≫= fun free => throw_if (free <? needed) length_error ≫= f) k a k').
  { intros A f a k' Hf. eapply does_bind; [apply does_res|]. eapply does_bind; [by apply does_free_count|].
    eapply does_bind; [|exact Hf]. apply does_pass, Z.ltb_ge. rewrite <- (so_free _ _ _ Hs). lia. }
  pose proof (does_allocate_inode k ρ s knd Hs Hknd) as Halloc. destruct (head (free_inodes l s)) as [inode|] eqn:Ei.
  2: { apply (served_throw _ _ length_error); [done| |].
    - by apply Hpre, does_bind_throw.
    - munfold_goal. rewrite (proj2 (Z.ltb_ge _ _)) by done. cbn beta iota. by rewrite Ei. }
  apply head_filter_elem in Ei as Hi. destruct Hi as [Hnone Hin]. apply elem_of_seqZ in Hin.
  destruct Halloc as (k1 & ρ1 & Hrun1 & Hok1 & Hsame). assert (Hpi : parent <> inode) by congruence.
  assert (En1 : nodes (put_node inode knd [] 0 s) !! parent = Some (Node.DIRECTORY, bytes)) by (cbn; by rewrite lookup_insert_ne).
  destruct (dirent_roundtrip (mkDirent name inode knd)) as (record & Hser & Hrl & _).
  { split; [done|]. split; [done|]. split; [done|]. split; [|done]. cbn. pose proof (lo_inodes l Hl). lia. }
  destruct (append_served k1 ρ1 _ parent bytes knd inode name record Hok1 En1 Hser Hrl Hbig) as (k2 & ρ2 & Hrun2 & Hok2); [cbn; lia|].
  exists k2, ρ2. munfold_goal. rewrite (proj2 (Z.ltb_ge (free_blocks s) _)) by done. cbn beta iota. rewrite Ei. cbn beta iota. rewrite Hser.
  split; [|done]. apply Hpre. eapply does_bind; [exact Hrun1|]. rewrite <- (Hsame parent Hpi). eapply does_bind; [exact Hrun2|]. apply does_ret.
Qed.
End ops.
End refinement.
