(* ===== verification/FsMount.v ===== *)
(** * Formatting and mounting

    Formatting a store gives a disk that mounts to the layout formatted and represents a file system
    with an empty root directory, every data block free.  With the operations of FsRefinement.v: the
    file system, from format on, behaves as its specification. *)

From S2P Require Import Prelude BlockDevice BufferCache FsFormat SimpleFs FsDisk FsData FsSpec FsRefinement.

(** ** Layouts of format *)

(** A geometry whose blocks hold whole inode records and whose bits can be numbered. *)
Definition geometry_ok (size count : Z) : Prop := size mod 64 = 0 /\ 0 < count /\ count * (size * 8) < W64.

Lemma ceil_div_spec v d n : 0 < d -> 0 <= v < W64 - d -> ceil_div_u64 v d = Ok n ->
  0 <= n /\ v <= n * d /\ (0 < v -> 1 <= n) /\ n < W64 /\ (n - 1) * d < Z.max 1 v.
Proof.
  intros Hd Hv. unfold ceil_div_u64. rewrite (proj2 (Z.eqb_neq d 0)) by lia.
  destruct (Z.eqb_spec v 0) as [->|Hne]; [intros [= <-]; lia|]. intros [= <-].
  pose proof (Z.div_mod (v - 1) d ltac:(lia)). pose proof (Z.mod_pos_bound (v - 1) d Hd).
  pose proof (Z.div_pos (v - 1) d ltac:(lia) Hd). assert ((v - 1) / d <= v - 1) by (apply Z.div_le_upper_bound; nia).
  rewrite add64_small by lia. nia.
Qed.
Lemma make_layout_ok size count inodes l : geometry_ok size count -> 1 <= inodes < 2 ^ 32 -> make_layout size count inodes = Ok l ->
  layout_ok l /\ layout_fields_fit l /\ block_size_bytes l = size /\ block_count l = count /\ inode_count l = inodes /\
  root_inode l = 1 /\ inode_table_start l = 1 /\ validate_layout l size count = Ok tt.
Proof.
  intros (Hm & Hc & Hsmall) Hi. unfold make_layout, UINT32_MAX, SIMPLE_FS_MIN_BLOCK_SIZE_BYTES.
  destruct (Z.ltb_spec size 128) as [|Hs1]; [done|]. destruct (Z.ltb_spec (2 ^ 32 - 1) size) as [|Hs2]; [done|].
  unfold checked_inode_table_block_count, UINT32_MAX. change SIMPLE_FS_INODE_RECORD_SIZE_BYTES with 64.
  unfold mul64 at 1. rewrite wrap64_small by (unfold u64; lia). munfold_goal.
  destruct (ceil_div_u64 (inodes * 64) size) as [t|] eqn:Et; [|done]. destruct (Z.ltb_spec (2 ^ 32 - 1) t) as [|Ht]; [done|].
  apply ceil_div_spec in Et as (Ht0 & Ht1 & Ht2 & _ & _); [|lia|lia]. specialize (Ht2 ltac:(lia)).
  assert (count * 1024 <= count * (size * 8)) by (apply Z.mul_le_mono_nonneg_l; lia).
  rewrite add64_small by lia. destruct (Z.leb_spec count (1 + t)) as [|Hlt]; [done|].
  unfold checked_bitmap_block_count, UINT32_MAX. rewrite sub64_small by lia. unfold mul64 at 1. rewrite wrap64_small by (unfold u64; lia). munfold_goal.
  destruct (ceil_div_u64 (count - (1 + t)) (size * 8)) as [b|] eqn:Eb; [|done]. destruct (Z.ltb_spec (2 ^ 32 - 1) b) as [|Hb]; [done|].
  apply ceil_div_spec in Eb as (Hb0 & Hb1 & Hb2 & _ & _); [|lia|lia]. specialize (Hb2 ltac:(lia)).
  rewrite add64_small by lia. destruct (Z.leb_spec count (1 + t + b)) as [|Hd]; [done|]. rewrite sub64_small by lia.
  intros [= <-]. assert (b * (size * 8) <= count * (size * 8)) by (apply Z.mul_le_mono_nonneg_r; lia).
  split; [split; cbn [block_size_bytes block_count inode_count root_inode inode_table_start inode_table_block_count data_bitmap_start data_bitmap_block_count data_start data_block_count]; unfold SIMPLE_FS_ROOT_INODE_VALUE; lia|]. split; [unfold layout_fields_fit, u64; cbn; unfold SIMPLE_FS_ROOT_INODE_VALUE; lia|].
  repeat (split; [done|]). unfold validate_layout.
  cbn [block_size_bytes block_count inode_count root_inode inode_table_start inode_table_block_count data_bitmap_start data_bitmap_block_count data_start data_block_count].
  unfold mul64. rewrite !add64_small by lia.
  assert (b * size <= b * (size * 8)) by (apply Z.mul_le_mono_nonneg_l; lia).
  rewrite (wrap64_small (b * size)) by (unfold u64; nia).
  replace (b * size * 8) with (b * (size * 8)) by lia. rewrite (wrap64_small (b * (size * 8))) by (unfold u64; lia).
  unfold SIMPLE_FS_MIN_BLOCK_SIZE_BYTES, SIMPLE_FS_ROOT_INODE_VALUE, SIMPLE_FS_INVALID_INODE_VALUE.
  rewrite !Z.eqb_refl. repeat match goal with
  | |- context [?x <? ?y] => rewrite (proj2 (Z.ltb_ge x y)) by lia
  | |- context [?x =? ?y] => rewrite (proj2 (Z.eqb_neq x y)) by lia
  end. done.
Qed.

(** ** The formatted disk *)

Section format.
Context {D : Type} `{FlushStoreLaws D} `{!BlockStoreLaws D}.
Context (l : SimpleFsLayout) (Hl : layout_ok l).
Implicit Types k : Z -> list Z.
Abbreviation bs := (block_size_bytes l).
Abbreviation run c k r k' := (does (D := D) (block_size_bytes l) (block_count l) c k r k').

Lemma does_final {A} (c : M D A) k r k1 k2 : run c k r k1 -> (forall a, 0 <= a < block_count l -> k1 a = k2 a) -> run c k r k2.
Proof.
  intros Hc He d Hd. destruct (Hc d Hd) as (d' & E & Hd'). exists d'. split; [done|]. destruct Hd' as [H1' H2' H3' H4'].
  split; [done..|]. intros a Ha. rewrite H4' by done. by apply He.
Qed.
Definition zeroed : Z -> list Z := fun _ => make_zero_block bs.
Lemma does_zero_all k : forall n : nat, Z.of_nat n <= block_count l ->
  run (for_each (seqZ 0 (Z.of_nat n)) (fun a => bs_write a (make_zero_block bs))) k (Ok tt)
    (fun a => if decide (0 <= a < Z.of_nat n) then make_zero_block bs else k a).
Proof using All.
  destruct (layout_bounds l Hl) as (? & _). assert (Hgen : forall (m : nat) i k0, 0 <= i -> i + Z.of_nat m <= block_count l ->
    run (for_each (seqZ i (Z.of_nat m)) (fun a => bs_write a (make_zero_block bs))) k0 (Ok tt)
      (fun a => if decide (i <= a < i + Z.of_nat m) then make_zero_block bs else k0 a)).
  { induction m as [|m IH]; intros i k0 Hi Hm.
    - eapply does_final; [apply does_ret|]. intros a _. simpl. by rewrite decide_False by lia.
    - rewrite seqZ_cons by lia. replace (Z.pred (Z.of_nat (S m))) with (Z.of_nat m) by lia. cbn [for_each].
      eapply does_bind; [apply does_write; [lia|by apply zero_block_length; lia]|].
      eapply does_final; [apply IH; lia|]. intros a _. cbn beta. unfold upd.
      destruct (decide (Z.succ i <= a < Z.succ i + Z.of_nat m)); [by rewrite decide_True by lia|].
      destruct (decide (a = i)) as [->|]; [by rewrite decide_True by lia|]. by rewrite decide_False by lia. }
  intros n Hn. eapply does_final; [apply Hgen; lia|]. intros a _. cbn beta. by rewrite Z.add_0_l.
Qed.

(** The first block of the inode table: the record of the root directory, then zeros. *)
Definition root_record : list Z :=
  [1; 2; 1; 0; 0; 0; 0; 0; 0; 0; 0; 0; 0; 0; 0; 0] ++ replicate 48 0.
Lemma write_le_app n off v (a b : list Z) : 0 <= n -> 0 <= off -> off + n <= lenZ a -> write_le n off v (a ++ b) = write_le n off v a ++ b.
Proof.
  intros Hn Ho Hle. unfold write_le. assert (Hks : Forall (fun j => 0 <= j < n) (seqZ 0 n)) by (apply Forall_seqZ; lia).
  revert Hks a Hle. generalize (seqZ 0 n). intros ks. induction ks as [|j ks IH]; intros Hks a Hle; [done|].
  apply Forall_cons in Hks as [Hk Hks]. cbn [foldl]. unfold lenZ in *. rewrite insert_app_l by lia. apply IH; [done|].
  by rewrite length_insert.
Qed.
Lemma root_block : 128 <= bs ->
  write_u64_le 8 0 (write_u16_le 2 1 (write_u8 1 2 (write_u8 0 1 (make_zero_block bs)))) = root_record ++ replicate (Z.to_nat (bs - 64)) 0.
Proof.
  intros Hb. unfold make_zero_block. replace (Z.to_nat bs) with (64 + Z.to_nat (bs - 64))%nat by lia. rewrite replicate_add.
  unfold write_u8. rewrite !insert_app_l by (rewrite ?length_insert, length_replicate; vm_compute; lia).
  unfold write_u16_le, write_u64_le. rewrite !write_le_app; [|lia|lia|vm_compute; congruence|lia|lia|vm_compute; congruence].
  f_equal.
Qed.
Definition formatted : Z -> list Z :=
  upd 1 (root_record ++ replicate (Z.to_nat (bs - 64)) 0) (upd 0 (superblock_bytes l) zeroed).

Lemma formatted_sized : sized l formatted.
Proof using Hl.
  pose proof (lo_size l Hl). apply upd_sized; [apply upd_sized|].
  - intros a Ha. apply zero_block_length. lia.
  - apply superblock_length. lia.
  - unfold lenZ. rewrite length_app, length_replicate. cbn [length root_record app replicate]. lia.
Qed.
Lemma slice_app_before (a b : list Z) : slice 0 (lenZ a) (a ++ b) = a.
Proof. unfold slice, lenZ. rewrite Nat2Z.id. simpl. by rewrite drop_0, take_app_length. Qed.
Lemma slice_app_after (a b : list Z) off n : lenZ a <= off -> slice off n (a ++ b) = slice (off - lenZ a) n b.
Proof.
  intros Ho. unfold slice, lenZ in *. rewrite drop_app_ge by lia. do 2 f_equal. lia.
Qed.

Hypothesis Htable : inode_table_start l = 1.
Definition root_inode_record : InodeRecord := mkInode 1 Node.DIRECTORY 0 [0; 0; 0; 0; 0; 0] true.
Definition formatted_record (n : Z) : InodeRecord :=
  if decide (n = 1) then root_inode_record else mkInode n Node.COUNT 0 [0; 0; 0; 0; 0; 0] false.

Lemma formatted_inode n : valid_inode l n -> inode_of l formatted n = Ok (formatted_record n).
Proof using All.
  intros Hn. pose proof (lo_size l Hl). destruct (inode_slot l Hl n Hn) as (Ht & Ho1 & Ho2 & Hpos).
  unfold table_region in Ht. rewrite Htable in *. unfold inode_of, formatted_record. destruct (decide (n = 1)) as [->|Hne].
  - assert (Hb : inode_block l 1 = 1 /\ inode_offset l 1 = 0) by (assert ((inode_block l 1 - 1) * bs = 0 \/ bs <= (inode_block l 1 - 1) * bs) by nia; nia).
    destruct Hb as [-> ->]. unfold formatted. rewrite upd_same. change 64 with (lenZ root_record). rewrite slice_app_before.
    unfold parse_inode. change (read_u8 root_record 0) with 1. change (read_u8 root_record 1) with 2. change (read_u64_le root_record 8) with 0.
    cbn [Z.eqb Pos.eqb negb node_kind_from_disk]. destruct (decide (Node.DIRECTORY = Node.COUNT)); [done|].
    rewrite (max_size l Hl). rewrite (proj2 (Z.ltb_ge _ _)) by lia.
    change ((fun i => read_u64_le root_record (16 + i * 8)) <$> [0; 1; 2; 3; 4; 5]) with [0; 0; 0; 0; 0; 0]. done.
  - assert (Hzero : slice (inode_offset l n) 64 (formatted (inode_block l n)) = make_zero_block 64).
    { unfold formatted. destruct (decide (inode_block l n = 1)) as [He|He].
      - rewrite He, upd_same. rewrite slice_app_after by (change (lenZ root_record) with 64; rewrite He in Hpos; unfold valid_inode in Hn; lia).
        change (lenZ root_record) with 64. apply slice_replicate; [|lia|lia]. rewrite He in Hpos. unfold valid_inode in Hn. lia.
      - rewrite !upd_other by lia. unfold zeroed, make_zero_block. apply slice_replicate; lia. }
    rewrite Hzero. apply zero_record_free.
Qed.
Definition initial_state : FsState := mkFsState {[1 := (Node.DIRECTORY, [])]} (data_block_count l).
Lemma formatted_ok : root_inode l = 1 -> state_ok l formatted formatted_record initial_state.
Proof using All.
  intros Hroot. pose proof (lo_root l Hl). assert (Hzero : forall n i, 0 <= i < 6 -> blk (formatted_record n) i = 0).
  { intros n i Hi. unfold formatted_record. destruct (decide (n = 1)); apply (nthZ_replicate 6); lia. }
  split.
  - apply formatted_sized.
  - apply formatted_inode.
  - intros n Hn. unfold formatted_record, initial_state. cbn [nodes]. destruct (decide (n = 1)) as [->|Hne].
    + rewrite lookup_singleton_eq. split; [done|]. split; [done|]. split; [done|]. split; [done|]. change (lenZ []) with 0.
      rewrite (blocks_for_zero l Hl). split; [|intros; lia]. split; [done|lia|lia|intros i Hi; apply (nthZ_replicate 6); lia|lia].
    + by rewrite lookup_singleton_ne by congruence.
  - intros n [x Hx]. cbn in Hx. apply lookup_singleton_Some in Hx as [<- _]. unfold valid_inode. lia.
  - intros n n' i i' _ _ _ Hi Hi' Hne. by rewrite Hzero in Hne.
  - cbn [free_blocks initial_state]. unfold free_total, free_from. rewrite Z.sub_0_r, filter_every.
    + unfold lenZ. rewrite length_seqZ. pose proof (lo_data_count l Hl). lia.
    + intros j Hj. apply elem_of_seqZ in Hj. unfold is_free, bit. destruct (bit_position l Hl j ltac:(lia)) as [Hb Hm].
      unfold bitmap_region in Hb. pose proof (lo_bitmap l Hl). pose proof (table_not_empty l Hl). unfold formatted.
      rewrite !upd_other by lia. apply zero_block_bit. lia.
Qed.
End format.

(** ** Format, mount and serve *)

Section system.
Context {D : Type} `{FlushStoreLaws D} `{!BlockStoreLaws D}.
Implicit Types (d : D) (s : FsState).

(** The store [d] represents the state [s] of a file system of layout [l]. *)
Definition fs_repr (l : SimpleFsLayout) d s : Prop :=
  exists k ρ, holds (block_size_bytes l) (block_count l) d k /\ state_ok l k ρ s.

Lemma refines_repr {A} l (c : M D A) (a : M FsState A) d s : refines l c a -> fs_repr l d s ->
  exists d', c d = (d', (a s).2) /\ fs_repr l d' (a s).1.
Proof.
  intros Hc (k & ρ & Hd & Hs). destruct (Hc k ρ s Hs) as (k' & ρ' & Hrun & Hs').
  destruct (Hrun d Hd) as (d' & E & Hd'). exists d'. split; [exact E|]. by exists k', ρ'.
Qed.
Lemma serve_refines l q : layout_ok l -> request_ok q -> refines (D := D) l (serve l q) (spec_serve l q).
Proof.
  intros Hl Hq. destruct q as [n|n|n name|n name|n name|f off n|f off src|]; cbn [request_ok serve spec_serve] in *; conjuncts;
    try (apply refines_bind; [|intros ?; apply refines_ret]).
  - by refine (metadata_refines l Hl n _).
  - by refine (read_directory_refines l Hl n _).
  - by refine (lookup_refines l Hl n name _).
  - by refine (create_refines l Hl Node.FILE n name _ _ _).
  - by refine (create_refines l Hl Node.DIRECTORY n name _ _ _).
  - by refine (read_file_refines l Hl f off n _ _ _).
  - by refine (write_file_refines l Hl f off src _ _ _).
  - intros k ρ s Hs. exists k, ρ. split; [|done]. eapply does_bind; [apply does_flush|]. apply does_ret.
Qed.

(** C3. The mounted file system refines its specification: whatever requests are made, one after the
    other, each is answered (value or exception) as the abstract file system of nodes and free
    blocks answers it, and the blocks of the store represent the state that file system reaches; a
    refused request leaves that state as it was. *)
Theorem file_system_refines_specification l d s qs : layout_ok l -> fs_repr l d s -> Forall request_ok qs ->
  exists d', serve_all (serve l) qs d = (d', (serve_all (spec_serve l) qs s).2) /\
    fs_repr l d' (serve_all (spec_serve l) qs s).1.
Proof.
  intros Hl Hr Hqs. revert d s Hr. induction Hqs as [|q qs Hq _ IH]; intros d s Hr; [by exists d|].
  destruct (refines_repr l _ _ d s (serve_refines l q Hl Hq) Hr) as (d1 & E1 & Hr1). cbn [serve_all]. rewrite E1.
  destruct (spec_serve l q s) as [s1 r1]. cbn [fst snd] in *. destruct (IH d1 s1 Hr1) as (d2 & E2 & Hr2). rewrite E2.
  destruct (serve_all (spec_serve l) qs s1) as [s2 rs]. by exists d2.
Qed.

Lemma format_runs l inodes k : layout_ok l -> inode_table_start l = 1 ->
  make_layout (block_size_bytes l) (block_count l) inodes = Ok l ->
  does (D := D) (block_size_bytes l) (block_count l) (format inodes) k (Ok tt) (formatted l).
Proof.
  intros Hl Ht Hm. destruct (layout_bounds l Hl) as (? & ? & ? & ?). pose proof (lo_size l Hl). unfold format.
  eapply does_bind; [apply does_lift; intros d [_ Hs Hc _]; rewrite Hs, Hc; exact Hm|].
  eapply does_bind.
  { pose proof (does_zero_all (D := D) l Hl k (Z.to_nat (block_count l)) ltac:(lia)) as Hz. rewrite Z2Nat.id in Hz by lia. exact Hz. }
  eapply does_bind; [apply does_write; [lia|apply superblock_length; lia]|].
  eapply does_bind; [apply does_res|]. rewrite root_block by lia. rewrite Ht.
  eapply does_bind; [apply does_write|].
  - pose proof (lo_table_start l Hl). pose proof (table_not_empty l Hl). pose proof (lo_bitmap l Hl). pose proof (lo_data l Hl).
    pose proof (lo_end l Hl). pose proof (lo_bitmap_count l Hl). pose proof (lo_data_count l Hl). lia.
  - unfold lenZ. rewrite length_app, length_replicate. cbn [length root_record app replicate]. lia.
  - eapply does_final; [apply does_flush|]. intros a Ha. unfold formatted, upd, zeroed.
    destruct (decide (a = 1)); [done|]. destruct (decide (a = 0)); [done|]. by rewrite decide_True by lia.
Qed.
Lemma mount_runs l : layout_ok l -> layout_fields_fit l -> inode_table_start l = 1 -> root_inode l = 1 ->
  validate_layout l (block_size_bytes l) (block_count l) = Ok tt ->
  does (D := D) (block_size_bytes l) (block_count l) mount (formatted l) (Ok l) (formatted l).
Proof.
  intros Hl Hfit Ht Hroot Hval. destruct (layout_bounds l Hl) as (? & ? & ? & ?). unfold mount.
  assert (Hsb : formatted l 0 = superblock_bytes l) by (unfold formatted; rewrite upd_other by lia; apply upd_same).
  eapply does_bind.
  - unfold read_superblock. intros d Hd. pose proof Hd as [_ Hsz _ _]. revert d Hd Hsz.
    assert (Hrun : forall n, n = block_size_bytes l -> does (D := D) (block_size_bytes l) (block_count l)
      (bs_read 0 n ≫= fun block => lift (fun _ => parse_superblock block) ≫= fun l =>
        lift (fun d => validate_layout l (bs_block_size d) (bs_block_count d)) ≫= fun _ => mret l) (formatted l) (Ok l) (formatted l)).
    { intros n ->. eapply does_bind; [apply does_read; lia|]. rewrite Hsb.
      eapply does_bind; [apply does_res_eq; by apply superblock_roundtrip|].
      eapply does_bind; [apply does_lift; intros d [_ Hs Hc _]; rewrite Hs, Hc; exact Hval|]. apply does_ret. }
    intros d Hd Hsz. apply (Hrun _ Hsz d Hd).
  - cbn beta. eapply does_bind; [|apply does_ret]. unfold check_root. pose proof (lo_root l Hl).
    assert (Hv : valid_inode l (root_inode l)) by (unfold valid_inode; lia).
    pose proof (does_read_inode (D := D) l Hl (root_inode l) (formatted l) Hv) as Hread.
    rewrite (formatted_inode l Hl Ht) in Hread by done. eapply does_bind; [exact Hread|].
    unfold formatted_record. rewrite Hroot, decide_True by done. by apply does_pass.
Qed.

Lemma format_mount_run d inodes l : bs_ok d -> geometry_ok (bs_block_size d) (bs_block_count d) -> 1 <= inodes < 2 ^ 32 ->
  make_layout (bs_block_size d) (bs_block_count d) inodes = Ok l ->
  exists d1 d2, format inodes d = (d1, Ok tt) /\ mount d1 = (d2, Ok l) /\ layout_ok l /\
    holds (block_size_bytes l) (block_count l) d2 (formatted l) /\ fs_repr l d2 (initial_state l).
Proof.
  intros Hd Hg Hi Hm. destruct (make_layout_ok _ _ _ _ Hg Hi Hm) as (Hl & Hfit & Hsz & Hc & Hic & Hroot & Ht & Hval).
  rewrite <- Hsz, <- Hc in Hm, Hval.
  assert (Hh : holds (block_size_bytes l) (block_count l) d (bs_content d)) by (by split).
  destruct (format_runs l inodes _ Hl Ht Hm d Hh) as (d1 & E1 & Hh1).
  destruct (mount_runs l Hl Hfit Ht Hroot Hval d1 Hh1) as (d2 & E2 & Hh2).
  exists d1, d2. split_and!; try done. exists (formatted l), formatted_record. split; [done|]. by apply formatted_ok.
Qed.

(** C29. Format, then mount: on any store whose blocks hold whole inode records, formatting succeeds
    whenever a layout exists for its geometry, mounting what was formatted recovers that layout, and
    the disk represents a file system with an empty root directory and every data block free. *)
Theorem format_then_mount d inodes l : bs_ok d -> geometry_ok (bs_block_size d) (bs_block_count d) -> 1 <= inodes < 2 ^ 32 ->
  make_layout (bs_block_size d) (bs_block_count d) inodes = Ok l ->
  exists d1 d2, format inodes d = (d1, Ok tt) /\ mount d1 = (d2, Ok l) /\ layout_ok l /\ fs_repr l d2 (initial_state l).
Proof. intros. destruct (format_mount_run d inodes l) as (d1 & d2 & Hf & Hm & Hl & _ & Hr); eauto 10. Qed.
End system.

(** ** What clients see *)

Lemma find_snoc {A} (p : A -> bool) xs x :
  find p (xs ++ [x]) = match find p xs with Some y => Some y | None => if p x then Some x else None end.
Proof. induction xs as [|y xs IH]; simpl; [done|]. by destruct (p y). Qed.

Section clients.
Context {D : Type} `{FlushStoreLaws D} `{!BlockStoreLaws D}.
Implicit Types (d : D) (s : FsState).

(** A run of the specification read off a run of the file system. *)
Lemma repr_run {A} l (c : M D A) (a : M FsState A) d s d' r : refines l c a -> fs_repr l d s -> c d = (d', r) ->
  exists s', a s = (s', r) /\ fs_repr l d' s'.
Proof.
  intros Hc Hr E. destruct (refines_repr l c a d s Hc Hr) as (d1 & E1 & Hr1). rewrite E in E1. injection E1 as -> ->.
  exists (a s).1. split; [apply surjective_pairing|done].
Qed.
(** What is written to a file is read back: a write that is not refused reports the number of
    bytes it was given, a read of that range then returns them, and reads of ranges before and
    after it, and of other files, return what they returned before. *)
Theorem write_file_then_read l d s file offset source d' n : layout_ok l -> fs_repr l d s ->
  0 <= file -> u64 offset -> u64 (lenZ source) -> write_file l file offset source d = (d', Ok n) ->
  n = lenZ source /\ (read_file l file offset n d').2 = Ok source /\
  (forall off cnt, u64 off -> u64 cnt -> off + cnt <= offset -> (read_file l file off cnt d').2 = (read_file l file off cnt d).2) /\
  (forall other off cnt, 0 <= other -> other <> file -> u64 off -> u64 cnt ->
    (read_file l other off cnt d').2 = (read_file l other off cnt d).2).
Proof.
  intros Hl Hr Hf Ho Hs E. destruct (repr_run l _ _ d s d' _ (write_file_refines l Hl file offset source Hf Ho Hs) Hr E) as (s' & Es & Hr').
  assert (Hread : forall f off cnt d s, fs_repr l d s -> 0 <= f -> u64 off -> u64 cnt ->
    (read_file l f off cnt d).2 = (spec_read_file l f off cnt s).2).
  { intros f off cnt d0 s0 Hr0 Hf0 Ho0 Hc0. destruct (refines_repr l _ _ d0 s0 (read_file_refines l Hl f off cnt Hf0 Ho0 Hc0) Hr0) as (? & E0 & _).
    by rewrite E0. }
  unfold spec_write_file, spec_node_of, spec_node in Es. munfold.
  destruct ((file =? 0) || (inode_count l <? file)) eqn:Ev; [done|]. destruct (nodes s !! file) as [[knd bytes]|] eqn:En; [|done].
  destruct (negb (bool_decide (knd = Node.FILE))) eqn:Ek; [done|]. apply negb_false_iff, bool_decide_eq_true in Ek as ->.
  destruct (Z.ltb_spec (lenZ bytes) offset); [done|]. destruct (bool_decide (source = [])) eqn:Es0.
  { apply bool_decide_eq_true in Es0 as ->. injection Es as <- <-. split; [done|].
    split; [|split; intros; rewrite !Hread with (s := s) by done; done].
    rewrite (Hread file offset 0 d' s) by done. unfold spec_read_file, spec_node_of, spec_node. munfold_goal. by rewrite Ev, En. }
  unfold spec_room in Es. munfold. destruct (6 * block_size_bytes l <? offset + lenZ source); [done|].
  destruct (free_blocks s <? _); [done|]. injection Es as <- <-. unfold u64 in *. split; [done|].
  split; [|split].
  - rewrite (Hread file offset (lenZ source) d' _ Hr') by done. unfold spec_read_file, spec_node_of, spec_node. munfold_goal.
    rewrite Ev. cbn [nodes put_node]. rewrite lookup_insert_eq. rewrite bool_decide_true by done. cbn [negb fst snd]. f_equal. unfold slice, splice, lenZ in *.
    rewrite drop_app_ge by (rewrite length_take; lia). rewrite length_take, Nat.min_l, Nat.sub_diag, drop_0, Nat2Z.id by lia.
    by rewrite take_app_length.
  - intros off cnt Hoff Hcnt Hle. rewrite (Hread file off cnt d' _ Hr'), (Hread file off cnt d _ Hr) by done.
    unfold spec_read_file, spec_node_of, spec_node. munfold_goal. rewrite Ev, En. cbn [nodes put_node]. rewrite lookup_insert_eq. rewrite bool_decide_true by done. cbn [negb fst snd]. f_equal.
    unfold slice, splice, lenZ in *. rewrite drop_app_le by (rewrite length_take; lia). rewrite take_app_le by (rewrite length_drop, length_take; lia).
    apply list_eq. intros i. destruct (decide (i < Z.to_nat cnt)%nat); [|by rewrite !lookup_take_ge by lia].
    rewrite !lookup_take_lt, !lookup_drop by lia. by rewrite lookup_take_lt by lia.
  - intros other off cnt Hother Hne Hoff Hcnt. rewrite (Hread other off cnt d' _ Hr'), (Hread other off cnt d _ Hr) by done.
    unfold spec_read_file, spec_node_of, spec_node. munfold_goal. destruct ((other =? 0) || (inode_count l <? other)); [done|]. cbn [nodes put_node]. rewrite lookup_insert_ne by done.
    destruct (nodes s !! other) as [[knd b]|]; [|done].
    by destruct (negb (bool_decide (knd = Node.FILE))).
Qed.

Lemma parse_entries_snoc record e : lenZ record = 64 -> parse_directory_entry record = Ok (Some e) ->
  forall (n : nat) bytes es, length bytes = (64 * n)%nat -> parse_entries n bytes = Ok es ->
  parse_entries (S n) (bytes ++ record) = Ok (es ++ [e]).
Proof.
  intros Hlen Hp. induction n as [|n IH]; intros bytes es Hb.
  - destruct bytes; [|done]. intros [= <-]. cbn [parse_entries app]. rewrite (take_ge record) by (unfold lenZ in *; lia). by rewrite Hp.
  - change (parse_entries (S (S n)) (bytes ++ record)) with
      (entry ← parse_directory_entry (take 64 (bytes ++ record)); rest ← parse_entries (S n) (drop 64 (bytes ++ record));
       Ok (match entry with Some e => e :: rest | None => rest end)).
    rewrite take_app_le, drop_app_le by lia. intros Hpe. cbn [parse_entries] in Hpe. munfold.
    destruct (parse_directory_entry (take 64 bytes)) as [en|]; [|done].
    destruct (parse_entries n (drop 64 bytes)) as [rest|] eqn:Er; [|done]. injection Hpe as <-.
    rewrite (IH (drop 64 bytes) rest) by (try done; rewrite length_drop; lia). by destruct en.
Qed.
(** Before and after a creation, in the specification. *)
Lemma spec_create_inv l knd dir name s s' inode : knd <> Node.COUNT -> Forall (fun c => 0 <= c < 256) name -> inode_count l < 2 ^ 32 ->
  spec_create l knd dir name s = (s', Ok inode) ->
  exists bytes es, nodes s !! dir = Some (Node.DIRECTORY, bytes) /\ (dir =? 0) || (inode_count l <? dir) = false /\
    spec_read_directory l dir s = (s, Ok es) /\ spec_read_directory l dir s' = (s', Ok (es ++ [mkDirent name inode knd])) /\
    validate_directory_name name = Ok tt /\ find (fun e => bool_decide (entry_name e = name)) es = None /\
    1 <= inode <= inode_count l /\ nodes s !! inode = None /\ nodes s' !! inode = Some (knd, []) /\
    forall n, n <> dir -> n <> inode -> nodes s' !! n = nodes s !! n.
Proof.
  intros Hknd Hname Hic E. unfold spec_create in E. munfold. destruct (validate_directory_name name) as [[]|] eqn:Ev; [|done].
  unfold spec_lookup in E. munfold. rewrite Ev in E. destruct (spec_read_directory l dir s) as [s0 [es|]] eqn:Er; [|done].
  assert (Hr := Er). unfold spec_read_directory, spec_node_of, spec_node in Er. munfold.
  destruct ((dir =? 0) || (inode_count l <? dir)) eqn:Evd; [done|]. destruct (nodes s !! dir) as [[knd' bytes]|] eqn:En; [|done].
  destruct (negb (bool_decide (knd' = Node.DIRECTORY))) eqn:Ek; [done|]. apply negb_false_iff, bool_decide_eq_true in Ek as ->.
  destruct (negb (lenZ bytes mod 64 =? 0)) eqn:Em; [done|]. injection Er as <- Hes.
  destruct (bool_decide (is_Some (find _ es))) eqn:Ef; [done|]. apply bool_decide_eq_false, eq_None_not_Some in Ef.
  unfold spec_node_of, spec_node in E. munfold. rewrite Evd, En in E. rewrite bool_decide_true in E by done. cbn [negb] in E.
  unfold spec_room in E. munfold. destruct (6 * block_size_bytes l <? lenZ bytes + 64); [done|]. destruct (free_blocks s <? _); [done|].
  destruct (head (free_inodes l s)) as [i|] eqn:Eh; [|done].
  apply head_filter_elem in Eh as [Hnone Hin]. apply elem_of_seqZ in Hin.
  apply validated_name in Ev as Hvn. destruct Hvn as [Hne Hlen].
  destruct (dirent_roundtrip (mkDirent name i knd)) as (record & Hser & Hrl & Hparse).
  { split; [done|]. split; [done|]. split; [done|]. split; [cbn; lia|done]. }
  rewrite Hser in E. injection E as <- <-. exists bytes, es. split; [done|]. split; [done|]. split; [done|].
  assert (Hdi : dir <> i) by congruence. apply negb_false_iff, Z.eqb_eq in Em. pose proof (Z.div_mod (lenZ bytes) 64 ltac:(lia)).
  split.
  - unfold spec_read_directory, spec_node_of, spec_node. munfold_goal. rewrite Evd. cbn [nodes put_node]. rewrite lookup_insert_eq.
    rewrite bool_decide_true by done. cbn [negb]. assert (Hl2 : lenZ (bytes ++ record) = lenZ bytes + 1 * 64) by (unfold lenZ in *; rewrite length_app; lia).
    rewrite Hl2, Z.mod_add, Em, Z.div_add by lia. cbn [Z.eqb negb]. f_equal.
    replace (Z.to_nat (lenZ bytes / 64 + 1)) with (S (Z.to_nat (lenZ bytes / 64))) by (unfold lenZ in *; lia).
    apply parse_entries_snoc; [done|done| |done]. unfold lenZ in *. lia.
  - split; [done|]. split; [done|]. split; [lia|]. split; [done|]. cbn [nodes put_node]. split.
    + rewrite lookup_insert_ne by done. by rewrite lookup_insert_eq.
    + intros n Hnd Hni. by rewrite !lookup_insert_ne by congruence.
Qed.
(** Creating a file or a directory: the name was not in the parent directory, its lookup then
    gives the inode number returned, that number was free and is now an empty node of the kind
    asked for, and no other name of the parent directory is looked up differently. *)
Theorem create_then_lookup l d s knd dir name d' inode : layout_ok l -> fs_repr l d s ->
  0 <= dir -> Forall (fun c => 0 <= c < 256) name -> knd <> Node.COUNT -> create_node l knd dir name d = (d', Ok inode) ->
  (lookup l dir name d).2 = Ok None /\ (metadata l inode d).2 = Throw out_of_range /\
  (lookup l dir name d').2 = Ok (Some (mkDirent name inode knd)) /\ (metadata l inode d').2 = Ok (mkMetadata inode knd 0) /\
  (forall other, other <> name -> (lookup l dir other d').2 = (lookup l dir other d).2).
Proof.
  intros Hl Hr Hd Hname Hknd E. destruct (repr_run l _ _ d s d' _ (create_refines l Hl knd dir name Hd Hname Hknd) Hr E) as (s' & Es & Hr').
  pose proof (lo_inodes l Hl). apply spec_create_inv in Es as (bytes & es & En & Ev & Hes & Hes' & Hv & Hf & Hi & Hnone & Hnew & _); [|done|done|lia].
  assert (Hlook : forall nm d s, fs_repr l d s -> (lookup l dir nm d).2 = (spec_lookup l dir nm s).2).
  { intros nm d0 s0 Hr0. by destruct (refines_repr l _ _ d0 s0 (lookup_refines l Hl dir nm Hd) Hr0) as (? & -> & _). }
  assert (Hmeta : forall d s, fs_repr l d s -> (metadata l inode d).2 = (spec_metadata l inode s).2).
  { intros d0 s0 Hr0. by destruct (refines_repr l _ _ d0 s0 (metadata_refines l Hl inode ltac:(lia)) Hr0) as (? & -> & _). }
  assert (Hvi : (inode =? 0) || (inode_count l <? inode) = false) by (apply orb_false_iff; rewrite Z.eqb_neq, Z.ltb_ge; lia).
  assert (Hfind : forall nm s es, spec_read_directory l dir s = (s, Ok es) ->
    (spec_lookup l dir nm s).2 = (_ ← validate_directory_name nm; Ok (find (fun e => bool_decide (entry_name e = nm)) es))).
  { intros nm s0 es0 E0. unfold spec_lookup. munfold_goal. destruct (validate_directory_name nm); [|done]. by rewrite E0. }
  rewrite (Hlook name d s Hr), (Hlook name d' s' Hr'), (Hmeta d s Hr), (Hmeta d' s' Hr'), (Hfind name s es Hes), (Hfind name s' _ Hes'), Hv, find_snoc, Hf.
  munfold_goal. cbn [entry_name]. rewrite bool_decide_true by done. split; [done|].
  unfold spec_metadata, spec_node. munfold_goal. rewrite Hvi, Hnone, Hnew. split; [done|]. split; [done|]. split; [done|].
  intros other Hne. rewrite (Hlook other d s Hr), (Hlook other d' s' Hr'), (Hfind other s es Hes), (Hfind other s' _ Hes').
  munfold_goal. destruct (validate_directory_name other); [|done]. rewrite find_snoc. cbn [entry_name].
  rewrite (bool_decide_false (name = other)) by congruence. by destruct (find (fun e => bool_decide (entry_name e = other)) es).
Qed.
End clients.

(** ** Concrete instances: eight blocks of 128 bytes behind a cache of two *)

Definition demo_disk : MemoryBlockDevice :=
  mkDevice (mkGeometry 128 8 1024) (replicate 1024 0).
Lemma demo_disk_ok : device_ok demo_disk.
Proof. split; try done; vm_compute; congruence. Qed.
Definition demo_store : BufferCache * MemoryBlockDevice :=
  (mkBufferCache [empty_entry; empty_entry] (replicate 256 0) ∅ (mkStats 0 0 0 0 0 0) 0 0, demo_disk).
Lemma demo_store_ok : bs_ok demo_store.
Proof.
  apply (sv_cache _ demo_disk). apply (make_buffer_cache_wf demo_disk 2); [apply demo_disk_ok|lia|reflexivity].
Qed.
Definition demo_layout : SimpleFsLayout := mkLayout 128 8 1 2 4 3 1 4 4 1.
Lemma demo_layout_made : make_layout 128 8 4 = Ok demo_layout.
Proof. reflexivity. Qed.
Lemma demo_geometry : geometry_ok 128 8.
Proof. repeat split. Qed.
Lemma demo_layout_ok : layout_ok demo_layout.
Proof. by destruct (make_layout_ok 128 8 4 demo_layout demo_geometry ltac:(lia) demo_layout_made). Qed.

Lemma format_then_mount_witness : exists d1 d2,
  format 4 demo_store = (d1, Ok tt) /\ mount d1 = (d2, Ok demo_layout) /\ fs_repr demo_layout d2 (initial_state demo_layout).
Proof.
  destruct (format_then_mount demo_store 4 demo_layout demo_store_ok demo_geometry ltac:(lia) demo_layout_made)
    as (d1 & d2 & Hf & Hm & _ & Hr).
  exists d1, d2. split; [exact Hf|]. split; [exact Hm|exact Hr].
Defined.

Definition demo_mounted : BufferCache * MemoryBlockDevice := (mount (format 4 demo_store).1).1.
Lemma demo_mounted_repr : fs_repr demo_layout demo_mounted (initial_state demo_layout).
Proof.
  destruct (make_layout_ok 128 8 4 demo_layout demo_geometry ltac:(lia) demo_layout_made) as (Hl & Hfit & _ & _ & _ & Hroot & Ht & Hval).
  assert (Hh : holds 128 8 demo_store (bs_content demo_store)) by (split; [exact demo_store_ok|reflexivity|reflexivity|intros; reflexivity]).
  destruct (format_runs demo_layout 4 _ Hl Ht demo_layout_made demo_store Hh) as (d1 & E1 & Hh1).
  destruct (mount_runs demo_layout Hl Hfit Ht Hroot Hval d1 Hh1) as (d2 & E2 & Hh2).
  unfold demo_mounted. rewrite E1. cbn [fst]. rewrite E2. exists (formatted demo_layout), formatted_record.
  split; [exact Hh2|]. apply formatted_ok; [exact Hl|exact Ht|exact Hroot].
Qed.
(** "a" and "b". *)
Definition demo_requests : list fs_request :=
  [CreateFile 1 [97]; WriteFile 2 0 [10; 20; 30]; ReadFile 2 1 5; WriteFile 2 9 [1]; CreateFile 1 [97];
   CreateDirectory 1 [98]; Lookup 1 [98]; Metadata 4; ReadFile 3 0 1; WriteFile 2 0 (replicate 600 7)].
Lemma file_system_refines_specification_witness :
  (serve_all (serve demo_layout) demo_requests demo_mounted).2 =
  [Ok (Number 2); Ok (Number 3); Ok (Bytes [20; 30]); Throw invalid_argument; Throw invalid_argument;
   Ok (Number 3); Ok (Found (Some (mkDirent [98] 3 Node.DIRECTORY))); Throw out_of_range; Throw invalid_argument; Throw length_error].
Proof.
  destruct (file_system_refines_specification demo_layout demo_mounted (initial_state demo_layout) demo_requests demo_layout_ok
    demo_mounted_repr) as (d' & E & _).
  - unfold demo_requests. repeat apply Forall_cons_2; try apply Forall_nil; cbn [request_ok]; unfold u64;
      repeat apply conj; try (vm_compute; congruence); repeat (apply Forall_cons_2; [lia|]); try apply Forall_nil; try exact I.
  - rewrite E. vm_compute. reflexivity.
Defined.

Definition demo_with_file : BufferCache * MemoryBlockDevice := (create_node demo_layout Node.FILE 1 [97] demo_mounted).1.
Lemma create_then_lookup_witness :
  (create_node demo_layout Node.FILE 1 [97] demo_mounted).2 = Ok 2 /\
  (lookup demo_layout 1 [97] demo_with_file).2 = Ok (Some (mkDirent [97] 2 Node.FILE)).
Proof.
  assert (E : (create_node demo_layout Node.FILE 1 [97] demo_mounted).2 = Ok 2) by (vm_compute; reflexivity).
  split; [exact E|]. pose proof (outcome_of _ _ E) as Hrun. change (create_node demo_layout Node.FILE 1 [97] demo_mounted).1 with demo_with_file in Hrun.
  destruct (create_then_lookup demo_layout demo_mounted (initial_state demo_layout) Node.FILE 1 [97] demo_with_file 2 demo_layout_ok demo_mounted_repr)
    as (_ & _ & Hl & _); [lia|repeat constructor; lia|discriminate|exact Hrun|exact Hl].
Defined.
Lemma demo_with_file_repr : exists s, fs_repr demo_layout demo_with_file s.
Proof.
  destruct (refines_repr demo_layout (create_node demo_layout Node.FILE 1 [97]) (spec_create demo_layout Node.FILE 1 [97])
    demo_mounted (initial_state demo_layout)) as (d' & E & Hr).
  - refine (create_refines demo_layout demo_layout_ok Node.FILE 1 [97] _ _ _); [lia|repeat constructor; lia|discriminate].
  - exact demo_mounted_repr.
  - unfold demo_with_file. rewrite E. eexists. exact Hr.
Qed.
Lemma write_file_then_read_witness :
  let run := write_file demo_layout 2 0 [10; 20; 30] demo_with_file in
  run.2 = Ok 3 /\ (read_file demo_layout 2 0 3 run.1).2 = Ok [10; 20; 30].
Proof.
  intros run. assert (E : run.2 = Ok 3) by (vm_compute; reflexivity). split; [exact E|].
  pose proof (outcome_of _ _ E) as Hrun. unfold run in Hrun at 1. clearbody run.
  destruct demo_with_file_repr as (s & Hr).
  destruct (write_file_then_read demo_layout demo_with_file s 2 0 [10; 20; 30] run.1 3 demo_layout_ok Hr) as (_ & Hb & _);
    [lia|unfold u64; lia|unfold u64; change (lenZ [10; 20; 30]) with 3; lia|exact Hrun|exact Hb].
Defined.
