(* ===== verification/Vfs.v ===== *)
(** * Virtual file system

    Models src/os/fs/vfs.cpp: absolute paths, resolution through directories, open files with an
    offset.  The class [FileSystem] is what it uses of a file system; the operations of SimpleFs.v on
    a block store are one instance, the specification of FsSpec.v another, and the first refines the
    second at every path (FsRefinement.v). *)

From S2P Require Import Prelude BlockDevice BufferCache FsFormat SimpleFs FsDisk FsData FsSpec FsRefinement FsMount.

(** ** The interface *)

Class FileSystem (S : Type) : Type := {
  fs_root_inode : S -> Z;
  fs_metadata : Z -> M S SimpleFsInodeMetadata;
  fs_lookup : Z -> list Z -> M S (option SimpleFsDirectoryEntry);
  fs_read_directory : Z -> M S (list SimpleFsDirectoryEntry);
  fs_create : SimpleFsNodeKind -> Z -> list Z -> M S Z;
  fs_read_file : Z -> Z -> Z -> M S (list Z);
  fs_write_file : Z -> Z -> list Z -> M S Z;
}.

(** ** Data *)

Module Mode.
(* [include/mnos/os/fs/vfs.hpp] [VfsOpenMode] *)
Inductive VfsOpenMode : Set := READ_ONLY | WRITE_ONLY | READ_WRITE | COUNT.
End Mode.
Abbreviation VfsOpenMode := Mode.VfsOpenMode.
#[export] Instance VfsOpenMode_eq_dec : EqDecision VfsOpenMode.
Proof. solve_decision. Defined.

(* [include/mnos/os/fs/vfs.hpp] [VfsNode] *)
Record VfsNode : Set := mkVfsNode {
  node_inode : Z;
  node_kind : SimpleFsNodeKind;
  node_size_bytes : Z;
}.
(** The pointer to the file system is a flag: whether it is set. *)
(* [include/mnos/os/fs/vfs.hpp] [VfsFile] *)
Record VfsFile : Set := mkVfsFile {
  file_has_system : bool;
  file_inode : Z;
  file_mode : VfsOpenMode;
  file_offset : Z;
}.
(* [src/os/fs/vfs.cpp] [VfsNode::is_file] *)
Definition is_file (n : VfsNode) : bool := bool_decide (node_kind n = Node.FILE).
(* [src/os/fs/vfs.cpp] [VfsNode::is_directory] *)
Definition is_directory (n : VfsNode) : bool := bool_decide (node_kind n = Node.DIRECTORY).
(* [src/os/fs/simple_fs.cpp] [SimpleFsDirectoryEntry::is_directory] *)
Definition entry_is_directory (e : SimpleFsDirectoryEntry) : bool := bool_decide (entry_kind e = Node.DIRECTORY).
(* [src/os/fs/vfs.cpp] [VfsFile::VfsFile] *)
Definition make_file (inode : Z) (mode : VfsOpenMode) : VfsFile := mkVfsFile true inode mode 0.
(* [src/os/fs/vfs.cpp] [VfsFile::readable] *)
Definition readable (f : VfsFile) : bool :=
  bool_decide (file_mode f = Mode.READ_ONLY) || bool_decide (file_mode f = Mode.READ_WRITE).
(* [src/os/fs/vfs.cpp] [VfsFile::writable] *)
Definition writable (f : VfsFile) : bool :=
  bool_decide (file_mode f = Mode.WRITE_ONLY) || bool_decide (file_mode f = Mode.READ_WRITE).
(* [src/os/fs/vfs.cpp] [VfsFile::is_open] *)
Definition is_open (f : VfsFile) : bool :=
  file_has_system f && negb (file_inode f =? SIMPLE_FS_INVALID_INODE_VALUE) && negb (bool_decide (file_mode f = Mode.COUNT)).
Definition set_offset (n : Z) (f : VfsFile) : VfsFile := mkVfsFile (file_has_system f) (file_inode f) (file_mode f) n.

(** ** Paths *)

Abbreviation SEPARATOR := 47.
Abbreviation DOT := 46.
(* [src/os/fs/vfs.cpp] [is_valid_path_segment] [17-21] *)
Definition is_valid_path_segment (segment : list Z) : bool :=
  negb (bool_decide (segment = [])) && (lenZ segment <=? SIMPLE_FS_MAX_NAME_LENGTH) &&
  negb (bool_decide (segment = [DOT])) && negb (bool_decide (segment = [DOT; DOT])).
(** The characters before the first separator and, if there is one, those after it. *)
Fixpoint cut_segment (rest : list Z) : list Z * option (list Z) :=
  match rest with
  | [] => ([], None)
  | c :: rest' =>
      if c =? SEPARATOR then ([], Some rest')
      else let '(segment, after) := cut_segment rest' in (c :: segment, after)
  end.
(** The loop over the segments of what follows the first separator; each iteration but the last
    consumes a separator, so one more iteration than characters is enough. *)
Fixpoint split_segments (fuel : nat) (rest : list Z) : res (list (list Z)) :=
  match fuel with
  | O => Ok []
  | S fuel' =>
      let '(segment, after) := cut_segment rest in
      if negb (bool_decide (segment = [])) && negb (is_valid_path_segment segment) then Throw invalid_argument
      else
        following ← match after with None => Ok [] | Some rest' => split_segments fuel' rest' end;
        Ok (if bool_decide (segment = []) then following else segment :: following)
  end.
(* [src/os/fs/vfs.cpp] [Vfs::split_absolute_path] *)
Definition split_absolute_path (path : list Z) : res (list (list Z)) :=
  match path with
  | [] => Throw invalid_argument
  | c :: rest => if c =? SEPARATOR then split_segments (S (length rest)) rest else Throw invalid_argument
  end.

(** ** Operations *)

Section vfs.
Context {S : Type} `{FileSystem S}.
Abbreviation V A := (M S A).

(* [src/os/fs/vfs.cpp] [Vfs::node_from_inode] *)
Definition node_from_inode (inode : Z) : V VfsNode :=
  fs_metadata inode ≫= fun m => mret (mkVfsNode (meta_number m) (meta_kind m) (meta_size_bytes m)).
(* [src/os/fs/vfs.cpp] [Vfs::root] *)
Definition root : V VfsNode := gets fs_root_inode ≫= fun inode => node_from_inode inode.
(** The loop of [lookup] over the components left. *)
Fixpoint lookup_components (current : Z) (components : list (list Z)) : V (option Z) :=
  match components with
  | [] => mret (Some current)
  | component :: rest =>
      fs_lookup current component ≫= fun entry =>
      match entry with
      | None => mret None
      | Some e =>
          if negb (bool_decide (rest = [])) && negb (entry_is_directory e) then mret None
          else lookup_components (entry_inode e) rest
      end
  end.
(* [src/os/fs/vfs.cpp] [Vfs::lookup] *)
Definition lookup (path : list Z) : V (option VfsNode) :=
  lift (fun _ => split_absolute_path path) ≫= fun components =>
  gets fs_root_inode ≫= fun current =>
  lookup_components current components ≫= fun found =>
  match found with
  | None => mret None
  | Some inode => node_from_inode inode ≫= fun n => mret (Some n)
  end.
Fixpoint resolve_directories (parent : Z) (components : list (list Z)) : V Z :=
  match components with
  | [] => mret parent
  | component :: rest =>
      fs_lookup parent component ≫= fun entry =>
      match entry with
      | None => throw out_of_range
      | Some e =>
          throw_if (negb (entry_is_directory e)) invalid_argument ≫= fun _ =>
          resolve_directories (entry_inode e) rest
      end
  end.
(** The parent directory and the last component. *)
(* [src/os/fs/vfs.cpp] [Vfs::resolve_parent] *)
Definition resolve_parent (path : list Z) : V (Z * list Z) :=
  lift (fun _ => split_absolute_path path) ≫= fun components =>
  match last components with
  | None => throw invalid_argument
  | Some leaf =>
      gets fs_root_inode ≫= fun root =>
      resolve_directories root (removelast components) ≫= fun parent =>
      mret (parent, leaf)
  end.
(** The two creation functions differ in the kind only. *)
Definition create (kind : SimpleFsNodeKind) (path : list Z) : V VfsNode :=
  resolve_parent path ≫= fun '(parent, leaf) =>
  fs_create kind parent leaf ≫= fun inode =>
  node_from_inode inode.
(* [src/os/fs/vfs.cpp] [Vfs::create_file] *)
Definition create_file : list Z -> V VfsNode := create Node.FILE.
(* [src/os/fs/vfs.cpp] [Vfs::create_directory] *)
Definition create_directory : list Z -> V VfsNode := create Node.DIRECTORY.
(* [src/os/fs/vfs.cpp] [Vfs::open_file] *)
Definition open_file (path : list Z) (mode : VfsOpenMode) : V VfsFile :=
  throw_if (bool_decide (mode = Mode.COUNT)) invalid_argument ≫= fun _ =>
  lookup path ≫= fun node =>
  match node with
  | None => throw out_of_range
  | Some n => throw_if (negb (is_file n)) invalid_argument ≫= fun _ => mret (make_file (node_inode n) mode)
  end.
(* [src/os/fs/vfs.cpp] [Vfs::read_directory] *)
Definition read_directory (path : list Z) : V (list SimpleFsDirectoryEntry) :=
  lookup path ≫= fun node =>
  match node with
  | None => throw out_of_range
  | Some n => throw_if (negb (is_directory n)) invalid_argument ≫= fun _ => fs_read_directory (node_inode n)
  end.

(** *** Open files; an operation returns the file it leaves. *)

(* [src/os/fs/vfs.cpp] [VfsFile::size_bytes] *)
Definition file_size_bytes (f : VfsFile) : V Z :=
  throw_if (negb (is_open f)) logic_error ≫= fun _ =>
  fs_metadata (file_inode f) ≫= fun m => mret (meta_size_bytes m).
(* [src/os/fs/vfs.cpp] [VfsFile::seek] *)
Definition seek (f : VfsFile) (offset : Z) : V VfsFile :=
  throw_if (negb (is_open f)) logic_error ≫= fun _ =>
  file_size_bytes f ≫= fun size =>
  throw_if (size <? offset) invalid_argument ≫= fun _ =>
  mret (set_offset offset f).
(** [read] fills a destination of [n] bytes. *)
(* [src/os/fs/vfs.cpp] [VfsFile::read] *)
Definition read (f : VfsFile) (n : Z) : V (VfsFile * list Z) :=
  throw_if (negb (is_open f)) logic_error ≫= fun _ =>
  throw_if (negb (readable f)) invalid_argument ≫= fun _ =>
  fs_read_file (file_inode f) (file_offset f) n ≫= fun bytes =>
  mret (set_offset (add64 (file_offset f) (lenZ bytes)) f, bytes).
(* [src/os/fs/vfs.cpp] [VfsFile::write] *)
Definition write (f : VfsFile) (source : list Z) : V (VfsFile * Z) :=
  throw_if (negb (is_open f)) logic_error ≫= fun _ =>
  throw_if (negb (writable f)) invalid_argument ≫= fun _ =>
  fs_write_file (file_inode f) (file_offset f) source ≫= fun byte_count =>
  mret (set_offset (add64 (file_offset f) byte_count) f, byte_count).
End vfs.

(** ** Paths, against a reference *)

(** The segments between separators, empty ones included. *)
Fixpoint segments (l : list Z) : list (list Z) :=
  match l with
  | [] => [[]]
  | c :: l' =>
      if c =? SEPARATOR then [] :: segments l'
      else match segments l' with segment :: rest => (c :: segment) :: rest | [] => [[c]] end
  end.
Definition components (l : list Z) : list (list Z) := filter (fun segment => segment <> []) (segments l).

Lemma cut_segment_spec l : segments l = (cut_segment l).1 :: match (cut_segment l).2 with None => [] | Some l' => segments l' end.
Proof.
  induction l as [|c l IH]; [done|]. cbn [segments cut_segment]. destruct (c =? SEPARATOR); [done|].
  destruct (cut_segment l) as [segment after]. cbn [fst snd] in *. by rewrite IH.
Qed.
Lemma cut_segment_shorter l l' : (cut_segment l).2 = Some l' -> (length l' < length l)%nat.
Proof.
  revert l'. induction l as [|c l IH]; intros l'; [done|]. cbn [cut_segment]. destruct (c =? SEPARATOR).
  - intros [= <-]. simpl. lia.
  - destruct (cut_segment l) as [segment after]. cbn [snd] in *. intros Ha. apply IH in Ha. simpl. lia.
Qed.
Lemma components_cut l : components l =
  (if bool_decide ((cut_segment l).1 = []) then [] else [(cut_segment l).1]) ++
  match (cut_segment l).2 with None => [] | Some l' => components l' end.
Proof.
  unfold components. rewrite cut_segment_spec, filter_cons. destruct (decide ((cut_segment l).1 <> [])) as [Hne|He].
  - rewrite bool_decide_false by done. by destruct (cut_segment l).2.
  - rewrite bool_decide_true by (by destruct (decide ((cut_segment l).1 = [])); [|destruct He]). by destruct (cut_segment l).2.
Qed.
Lemma split_segments_spec : forall fuel l, (length l < fuel)%nat ->
  split_segments fuel l = if forallb is_valid_path_segment (components l) then Ok (components l) else Throw invalid_argument.
Proof.
  induction fuel as [|fuel IH]; intros l Hl; [lia|]. cbn [split_segments]. rewrite components_cut.
  pose proof (cut_segment_shorter l) as Hshort. destruct (cut_segment l) as [segment after]. cbn [fst snd] in *.
  assert (Hrest : match after with None => Ok [] | Some rest' => split_segments fuel rest' end =
    let rest := match after with None => [] | Some l' => components l' end in
    if forallb is_valid_path_segment rest then Ok rest else Throw invalid_argument).
  { destruct after as [l'|]; [|done]. apply IH. specialize (Hshort l' eq_refl). lia. }
  rewrite Hrest. set (rest := match after with None => [] | Some l' => components l' end). cbn zeta. munfold_goal.
  destruct (bool_decide (segment = [])); cbn [negb andb app forallb]; [by destruct (forallb _ rest)|].
  destruct (is_valid_path_segment segment); cbn [negb andb]; [|done]. by destruct (forallb _ rest).
Qed.
(** Splitting a path is what it should be: the non-empty segments between separators, all of them
    valid names, in order; any other string, and a path with an invalid segment anywhere, is refused. *)
Theorem split_absolute_path_is_components path : split_absolute_path path =
  match path with
  | SEPARATOR :: rest => if forallb is_valid_path_segment (components rest) then Ok (components rest) else Throw invalid_argument
  | _ => Throw invalid_argument
  end.
Proof.
  unfold split_absolute_path. destruct path as [|c rest]; [done|]. destruct (Z.eqb_spec c SEPARATOR) as [->|Hne].
  - apply split_segments_spec. simpl. lia.
  - destruct c as [|c|c]; [done| |done]. do 6 (destruct c as [c|c|]; try done).
Qed.

(** ** Refinement *)

(** The mounted file system of layout [l] on a store, and its specification. *)
Definition mounted_fs {D} `{FlushStore D} (l : SimpleFsLayout) : FileSystem D := {|
  fs_root_inode _ := root_inode l;
  fs_metadata := SimpleFs.metadata l;
  fs_lookup := SimpleFs.lookup l;
  fs_read_directory := SimpleFs.read_directory l;
  fs_create := create_node l;
  fs_read_file := SimpleFs.read_file l;
  fs_write_file := SimpleFs.write_file l;
|}.
Definition spec_fs (l : SimpleFsLayout) : FileSystem FsState := {|
  fs_root_inode _ := root_inode l;
  fs_metadata := spec_metadata l;
  fs_lookup := spec_lookup l;
  fs_read_directory := spec_read_directory l;
  fs_create := spec_create l;
  fs_read_file := spec_read_file l;
  fs_write_file := spec_write_file l;
|}.

(** Requests with paths, and on open files. *)
Inductive vfs_request : Set :=
  | VRoot
  | VLookup (path : list Z)
  | VCreate (kind : SimpleFsNodeKind) (path : list Z)
  | VOpen (path : list Z) (mode : VfsOpenMode)
  | VReadDirectory (path : list Z)
  | VSeek (f : VfsFile) (offset : Z)
  | VRead (f : VfsFile) (n : Z)
  | VWrite (f : VfsFile) (source : list Z).
Inductive vfs_reply : Set :=
  | RNode (n : option VfsNode)
  | RFile (f : VfsFile)
  | REntries (es : list SimpleFsDirectoryEntry)
  | RBytes (f : VfsFile) (b : list Z)
  | RCount (f : VfsFile) (n : Z).
Definition path_ok (path : list Z) : Prop := Forall (fun c => 0 <= c < 256) path.
Definition file_ok (f : VfsFile) : Prop := 0 <= file_inode f /\ u64 (file_offset f).
Definition vfs_request_ok (q : vfs_request) : Prop :=
  match q with
  | VRoot => True
  | VLookup path | VOpen path _ | VReadDirectory path => path_ok path
  | VCreate kind path => kind <> Node.COUNT /\ path_ok path
  | VSeek f n | VRead f n => file_ok f /\ u64 n
  | VWrite f src => file_ok f /\ u64 (lenZ src)
  end.
Definition vfs_serve {S} `{FileSystem S} (q : vfs_request) : M S vfs_reply :=
  match q with
  | VRoot => root ≫= fun n => mret (RNode (Some n))
  | VLookup path => lookup path ≫= fun n => mret (RNode n)
  | VCreate kind path => create kind path ≫= fun n => mret (RNode (Some n))
  | VOpen path mode => open_file path mode ≫= fun f => mret (RFile f)
  | VReadDirectory path => read_directory path ≫= fun es => mret (REntries es)
  | VSeek f n => seek f n ≫= fun f => mret (RFile f)
  | VRead f n => read f n ≫= fun '(f, b) => mret (RBytes f b)
  | VWrite f src => write f src ≫= fun '(f, n) => mret (RCount f n)
  end.

Section specification.
Context (l : SimpleFsLayout).

Lemma parse_entries_inode : forall n bytes es e, parse_entries n bytes = Ok es -> e ∈ es -> 0 <= entry_inode e.
Proof.
  induction n as [|n IH]; intros bytes es e; cbn [parse_entries].
  { intros [= <-] He. by apply elem_of_nil in He. }
  munfold_goal. destruct (parse_directory_entry (take 64 bytes)) as [o|] eqn:Ep; [|done].
  destruct (parse_entries n (drop 64 bytes)) as [rest|] eqn:Er; [|done]. intros [= <-] He.
  destruct o as [e0|]; [|by apply (IH _ _ _ Er)]. apply elem_of_cons in He as [->|He]; [|by apply (IH _ _ _ Er)].
  unfold parse_directory_entry in Ep. destruct (read_u8 _ _ =? 0); [done|]. destruct (_ || _); [done|]. destruct (decide _); [done|].
  injection Ep as <-. cbn [entry_inode]. apply (read_le_range 4). lia.
Qed.
Lemma spec_lookup_result dir name s e : (spec_lookup l dir name s).2 = Ok (Some e) -> 0 <= entry_inode e /\ entry_name e = name.
Proof.
  unfold spec_lookup, spec_read_directory, spec_node_of, spec_node. munfold_goal.
  destruct (validate_directory_name name); [|done]. destruct ((dir =? 0) || _); [done|].
  destruct (nodes s !! dir) as [[knd bytes]|]; [|done]. destruct (negb (bool_decide _)); [done|].
  destruct (negb _); [done|]. cbn [fst snd]. destruct (parse_entries _ bytes) as [es|] eqn:Ep; [|done]. intros [= Hf].
  apply find_some in Hf as [Hin He]. apply bool_decide_eq_true in He. split; [|done]. eapply parse_entries_inode; [exact Ep|].
  by apply list_elem_of_In.
Qed.
Lemma spec_create_result knd dir name s n : (spec_create l knd dir name s).2 = Ok n -> 0 <= n.
Proof.
  unfold spec_create. munfold_goal. destruct (validate_directory_name name); [|done].
  destruct (spec_lookup l dir name s) as [s1 [existing|]]; [|done]. destruct (bool_decide _); [done|].
  destruct (spec_node_of l Node.DIRECTORY dir s1) as [s2 [bytes|]]; [|done]. destruct (spec_room l _ _ s2) as [s3 [|]]; [|done].
  destruct (head (free_inodes l s3)) as [i|] eqn:Eh; [|done]. destruct (serialize_directory_entry _); [|done]. intros [= <-].
  apply head_filter_elem in Eh as [_ Hin]. apply elem_of_seqZ in Hin. lia.
Qed.
End specification.

Section refinement.
Context {D : Type} `{FlushStoreLaws D} `{!BlockStoreLaws D} (l : SimpleFsLayout) (Hl : layout_ok l).
#[local] Instance disk_instance : FileSystem D := mounted_fs l.
#[local] Instance spec_instance : FileSystem FsState := spec_fs l.

Lemma refines_bind_post {A B} (c : M D A) (a : M FsState A) (f : A -> M D B) (g : A -> M FsState B) :
  refines l c a -> (forall x, (exists s, (a s).2 = Ok x) -> refines l (f x) (g x)) -> refines l (c ≫= f) (a ≫= g).
Proof.
  intros Hc Hf k ρ s Hs. destruct (Hc k ρ s Hs) as (k1 & ρ1 & Hrun & Hs1). unfold served. munfold_goal.
  destruct (a s) as [s1 [x|e]] eqn:Ea; cbn [fst snd] in *.
  - destruct (Hf x ltac:(exists s; by rewrite Ea) k1 ρ1 s1 Hs1) as (k2 & ρ2 & Hrun2 & Hs2). exists k2, ρ2. split; [|done]. by eapply does_bind.
  - exists k1, ρ1. split; [by apply does_bind_throw|done].
Qed.
Lemma refines_throw {A} e : refines (D := D) l (@throw D A e) (throw e).
Proof. intros k ρ s Hs. exists k, ρ. split; [apply does_throw|done]. Qed.
Lemma refines_root {B} (f : Z -> M D B) (g : Z -> M FsState B) : refines l (f (root_inode l)) (g (root_inode l)) ->
  refines l (gets fs_root_inode ≫= f) (gets fs_root_inode ≫= g).
Proof. intros Hf k ρ s Hs. apply (Hf k ρ s Hs). Qed.

Lemma node_from_inode_refines n : 0 <= n -> refines (D := D) l (node_from_inode n) (node_from_inode n).
Proof using All.
  intros Hn. apply refines_bind; [by refine (metadata_refines l Hl n _)|]. intros m. apply refines_ret.
Qed.
Lemma fs_lookup_refines {B} dir name (f : option SimpleFsDirectoryEntry -> M D B) (g : option SimpleFsDirectoryEntry -> M FsState B) :
  0 <= dir -> (forall e, (forall x, e = Some x -> 0 <= entry_inode x) -> refines l (f e) (g e)) ->
  refines l (fs_lookup dir name ≫= f) (fs_lookup dir name ≫= g).
Proof using All.
  intros Hd Hf. apply refines_bind_post; [by refine (lookup_refines l Hl dir name _)|].
  intros e [s Hs]. apply Hf. intros x ->. by apply (spec_lookup_result l dir name s x Hs).
Qed.
Lemma lookup_components_refines : forall comps current, 0 <= current ->
  refines (D := D) l (lookup_components current comps) (lookup_components current comps) /\
  forall s n, (lookup_components (S := FsState) current comps s).2 = Ok (Some n) -> 0 <= n.
Proof using All.
  induction comps as [|c rest IH]; intros current Hc; cbn [lookup_components].
  - split; [apply refines_ret|]. intros s n. munfold_goal. cbn [snd]. by intros [= <-].
  - split.
    + apply fs_lookup_refines; [done|]. intros [e|] He; [|apply refines_ret]. destruct (_ && _); [apply refines_ret|].
      apply IH. by apply He.
    + intros s n. munfold_goal. destruct (fs_lookup current c s) as [s1 [[e|]|]] eqn:El; [|done|done].
      destruct (_ && _); [done|]. apply IH. apply (spec_lookup_result l current c s e). cbn in El. by rewrite El.
Qed.
Lemma root_nonneg : 0 <= root_inode l.
Proof using Hl. pose proof (lo_root l Hl). lia. Qed.
Lemma vfs_lookup_refines path : refines (D := D) l (lookup path) (lookup path).
Proof using All.
  apply refines_bind; [apply refines_res|]. intros comps. apply refines_root.
  apply refines_bind_post; [apply lookup_components_refines, root_nonneg|]. intros [n|] [s Hs]; [|apply refines_ret].
  apply refines_bind; [|intros; apply refines_ret]. apply node_from_inode_refines.
  by apply (proj2 (lookup_components_refines comps (root_inode l) root_nonneg) s n).
Qed.
Lemma resolve_directories_refines : forall comps parent, 0 <= parent ->
  refines (D := D) l (resolve_directories parent comps) (resolve_directories parent comps) /\
  forall s n, (resolve_directories (S := FsState) parent comps s).2 = Ok n -> 0 <= n.
Proof using All.
  induction comps as [|c rest IH]; intros parent Hp; cbn [resolve_directories].
  - split; [apply refines_ret|]. intros s n. munfold_goal. cbn [snd]. by intros [= <-].
  - split.
    + apply fs_lookup_refines; [done|]. intros [e|] He; [|apply refines_throw].
      apply refines_bind; [apply refines_throw_if|]. intros _. apply IH. by apply He.
    + intros s n. munfold_goal. destruct (fs_lookup parent c s) as [s1 [[e|]|]] eqn:El; [|done|done].
      destruct (negb _); [done|]. apply IH. apply (spec_lookup_result l parent c s e). cbn in El. by rewrite El.
Qed.
Lemma components_chars path comps : path_ok path -> split_absolute_path path = Ok comps -> Forall path_ok comps.
Proof.
  assert (Hcut : forall m, path_ok m -> Forall path_ok (segments m)).
  { unfold path_ok. induction m as [|c m IH]; intros Hm; cbn [segments]; [by repeat apply Forall_cons_2|].
    apply Forall_cons in Hm as [Hc Hm]. specialize (IH Hm).
    destruct (c =? SEPARATOR); [by apply Forall_cons_2; [apply Forall_nil_2|]|].
    destruct (segments m) as [|x xs]; [by repeat apply Forall_cons_2|].
    apply Forall_cons in IH as [Hx Hxs]. apply Forall_cons_2; [by apply Forall_cons_2|done]. }
  intros Hp Hs. unfold split_absolute_path in Hs. destruct path as [|c rest]; [done|]. apply Forall_cons in Hp as [_ Hrest].
  destruct (c =? SEPARATOR); [|done]. rewrite split_segments_spec in Hs by (simpl; lia).
  destruct (forallb _ _); [|done]. injection Hs as <-. unfold components. apply Forall_forall. intros x Hx.
  apply list_elem_of_filter in Hx as [_ Hx]. specialize (Hcut rest Hrest). rewrite Forall_forall in Hcut. by apply Hcut.
Qed.
Lemma found_node_inode path s n : (lookup (S := FsState) path s).2 = Ok (Some n) -> 0 <= node_inode n.
Proof using All.
  unfold lookup. munfold_goal. destruct (split_absolute_path path) as [comps|]; [|done].
  destruct (lookup_components (fs_root_inode s) comps s) as [s1 [[i|]|]] eqn:El; [|done|done].
  unfold node_from_inode. munfold_goal. cbn. unfold spec_metadata, spec_node. munfold_goal.
  destruct (_ || _); [done|]. destruct (nodes s1 !! i) as [[knd b]|]; [|done]. cbn. intros [= <-]. cbn.
  apply (proj2 (lookup_components_refines comps (root_inode l) root_nonneg) s i). change (fs_root_inode s) with (root_inode l) in El. by rewrite El.
Qed.
Lemma opened_file_ok path mode s f : (open_file (S := FsState) path mode s).2 = Ok f -> file_ok f.
Proof using All.
  unfold open_file. munfold_goal. destruct (bool_decide _); [done|]. destruct (lookup path s) as [s1 [[n|]|]] eqn:El; [|done..].
  pose proof (found_node_inode path s n) as Hn. rewrite El in Hn. destruct (negb _); [done|]. intros [= <-]. split; [by apply Hn|]. cbn. unfold u64. lia.
Qed.
Lemma create_path_refines kind path : kind <> Node.COUNT -> path_ok path -> refines (D := D) l (create kind path) (create kind path).
Proof using All.
  intros Hk Hp. unfold create. apply refines_bind_post.
  - apply refines_bind; [apply refines_res|]. intros comps. destruct (last comps); [|apply refines_throw]. apply refines_root.
    apply refines_bind; [apply resolve_directories_refines, root_nonneg|]. intros n. apply refines_ret.
  - intros [parent leaf] [s Hs]. assert (H0p : 0 <= parent /\ Forall (fun c => 0 <= c < 256) leaf).
    { revert Hs. unfold resolve_parent. munfold_goal. destruct (split_absolute_path path) as [comps|] eqn:Es; [|done].
      destruct (last comps) as [lf|] eqn:El; [|done]. cbn [fst snd].
      destruct (resolve_directories (fs_root_inode s) (removelast comps) s) as [s1 [n|]] eqn:Er; [|done]. intros [= <- <-].
      split.
      - apply (proj2 (resolve_directories_refines (removelast comps) (root_inode l) root_nonneg) s n). change (fs_root_inode s) with (root_inode l) in Er. by rewrite Er.
      - pose proof (components_chars path comps Hp Es) as Hc. rewrite Forall_forall in Hc. apply Hc.
        apply last_Some in El as [x ->]. apply elem_of_app. right. by left. }
    destruct H0p as [Hpar Hleaf]. apply refines_bind_post; [by refine (create_refines l Hl kind parent leaf _ _ _)|].
    intros n [s1 Hn]. apply node_from_inode_refines. by apply (spec_create_result l kind parent leaf s1).
Qed.
Lemma file_size_refines f : 0 <= file_inode f -> refines (D := D) l (file_size_bytes f) (file_size_bytes f).
Proof using All.
  intros Hf. apply refines_bind; [apply refines_throw_if|]. intros _.
  apply refines_bind; [by refine (metadata_refines l Hl _ _)|]. intros m. apply refines_ret.
Qed.
Lemma open_file_refines path mode : refines (D := D) l (open_file path mode) (open_file path mode).
Proof using All.
  apply refines_bind; [apply refines_throw_if|]. intros _. apply refines_bind; [apply vfs_lookup_refines|].
  intros [n|]; [|apply refines_throw]. apply refines_bind; [apply refines_throw_if|]. intros _. apply refines_ret.
Qed.
Lemma read_directory_path_refines path : refines (D := D) l (read_directory path) (read_directory path).
Proof using All.
  apply refines_bind_post; [apply vfs_lookup_refines|]. intros [n|] [s Hs]; [|apply refines_throw].
  apply refines_bind; [apply refines_throw_if|]. intros _. refine (read_directory_refines l Hl _ _).
  by apply (found_node_inode path s).
Qed.
Lemma read_refines f n : file_ok f -> u64 n -> refines (D := D) l (read f n) (read f n).
Proof using All.
  intros [Hi Ho] Hn. apply refines_bind; [apply refines_throw_if|]. intros _. apply refines_bind; [apply refines_throw_if|]. intros _.
  apply refines_bind; [by refine (read_file_refines l Hl _ _ _ _ _ _)|]. intros b. apply refines_ret.
Qed.
Lemma write_refines f src : file_ok f -> u64 (lenZ src) -> refines (D := D) l (write f src) (write f src).
Proof using All.
  intros [Hi Ho] Hn. apply refines_bind; [apply refines_throw_if|]. intros _. apply refines_bind; [apply refines_throw_if|]. intros _.
  apply refines_bind; [by refine (write_file_refines l Hl _ _ _ _ _ _)|]. intros b. apply refines_ret.
Qed.
Lemma vfs_serve_refines q : vfs_request_ok q -> refines (D := D) l (vfs_serve q) (vfs_serve q).
Proof using All.
  intros Hq. destruct q as [|path|kind path|path mode|path|f n|f n|f src]; cbn [vfs_request_ok vfs_serve] in *.
  - apply refines_bind; [|intros; apply refines_ret]. apply refines_root, node_from_inode_refines, root_nonneg.
  - apply refines_bind; [apply vfs_lookup_refines|intros; apply refines_ret].
  - destruct Hq. apply refines_bind; [by apply create_path_refines|intros; apply refines_ret].
  - apply refines_bind; [apply open_file_refines|intros; apply refines_ret].
  - apply refines_bind; [apply read_directory_path_refines|intros; apply refines_ret].
  - destruct Hq as [[Hi Ho] Hn]. apply refines_bind; [|intros; apply refines_ret].
    apply refines_bind; [apply refines_throw_if|]. intros _. apply refines_bind; [by apply file_size_refines|]. intros size.
    apply refines_bind; [apply refines_throw_if|]. intros _. apply refines_ret.
  - destruct Hq. apply refines_bind; [by apply read_refines|intros []; apply refines_ret].
  - destruct Hq. apply refines_bind; [by apply write_refines|intros []; apply refines_ret].
Qed.
End refinement.

Section clients.
Context {D : Type} `{FlushStoreLaws D} `{!BlockStoreLaws D}.


(** *** A created path is found *)

Lemma spec_lookup_state l dir nm s : (spec_lookup l dir nm s).1 = s.
Proof.
  unfold spec_lookup, spec_read_directory, spec_node_of, spec_node. munfold_goal.
  destruct (validate_directory_name nm); [|done]. destruct (_ || _); [done|]. destruct (nodes s !! dir) as [[knd bytes]|]; [|done].
  destruct (negb _); [done|]. destruct (negb _); [done|]. cbn. by destruct (parse_entries _ bytes).
Qed.
(** An entry found before a creation is found after it. *)
Lemma spec_create_keeps l knd dir name s s' inode : knd <> Node.COUNT -> path_ok name -> inode_count l < 2 ^ 32 ->
  spec_create l knd dir name s = (s', Ok inode) ->
  (forall d nm e, (spec_lookup l d nm s).2 = Ok (Some e) -> (spec_lookup l d nm s').2 = Ok (Some e)) /\
  (spec_lookup l dir name s').2 = Ok (Some (mkDirent name inode knd)) /\
  (spec_metadata l inode s').2 = Ok (mkMetadata inode knd 0).
Proof.
  intros Hk Hp Hc E. apply spec_create_inv in E as (bytes & es & En & Ev & Hes & Hes' & Hv & Hf & Hi & Hnone & Hnew & Hsame); [|done..].
  assert (Hfind : forall nm s es, spec_read_directory l dir s = (s, Ok es) ->
    (spec_lookup l dir nm s).2 = (_ ← validate_directory_name nm; Ok (find (fun e => bool_decide (entry_name e = nm)) es))).
  { intros nm s0 es0 E0. unfold spec_lookup. munfold_goal. destruct (validate_directory_name nm); [|done]. by rewrite E0. }
  split; [|split].
  - intros d nm e. destruct (decide (d = dir)) as [->|Hne].
    + rewrite (Hfind nm s es Hes), (Hfind nm s' _ Hes'). munfold_goal. destruct (validate_directory_name nm); [|done].
      rewrite find_snoc. destruct (find (fun e0 => bool_decide (entry_name e0 = nm)) es); [done|by intros].
    + unfold spec_lookup, spec_read_directory, spec_node_of, spec_node. munfold_goal.
      destruct (validate_directory_name nm); [|done]. destruct ((d =? 0) || (inode_count l <? d)); [done|].
      destruct (decide (d = inode)) as [->|Hne']; [by rewrite Hnone|]. rewrite Hsame by done.
      destruct (nodes s !! d) as [[knd' b]|]; [|done]. destruct (negb (bool_decide (knd' = Node.DIRECTORY))); [done|].
      destruct (negb (lenZ b mod 64 =? 0)); [done|]. cbn [fst snd]. by destruct (parse_entries _ b).
  - rewrite (Hfind name s' _ Hes'), Hv, find_snoc, Hf. munfold_goal. cbn [entry_name]. by rewrite bool_decide_true.
  - assert (Hvi : (inode =? 0) || (inode_count l <? inode) = false) by (apply orb_false_iff; rewrite Z.eqb_neq, Z.ltb_ge; lia).
    unfold spec_metadata, spec_node. munfold_goal. by rewrite Hvi, Hnew.
Qed.

Section spec_paths.
Context (l : SimpleFsLayout).
#[local] Instance spec_paths_fs : FileSystem FsState := spec_fs l.
Lemma resolved_components comps leaf e : forall parent p s s',
  (forall d nm e, (spec_lookup l d nm s).2 = Ok (Some e) -> (spec_lookup l d nm s').2 = Ok (Some e)) ->
  resolve_directories (S := FsState) parent comps s = (s, Ok p) -> (spec_lookup l p leaf s').2 = Ok (Some e) ->
  lookup_components (S := FsState) parent (comps ++ [leaf]) s' = (s', Ok (Some (entry_inode e))).
Proof.
  assert (Hlook : forall d nm s0 x, (spec_lookup l d nm s0).2 = Ok x -> fs_lookup d nm s0 = (s0, Ok x)).
  { intros d nm s0 x Hx. rewrite <- Hx. rewrite <- (spec_lookup_state l d nm s0) at 2. apply surjective_pairing. }
  induction comps as [|c comps IH]; intros parent p s s' Hkeep Hres Hleaf.
  - assert (parent = p) as <- by (cbn [resolve_directories] in Hres; munfold; congruence). cbn [app lookup_components]. munfold_goal. rewrite (Hlook _ _ _ _ Hleaf).
    rewrite bool_decide_true by done. done.
  - cbn [app lookup_components resolve_directories] in *. munfold. 
    destruct (fs_lookup parent c s) as [s1 [o|]] eqn:El; [|done].
    assert (s1 = s) as -> by (pose proof (spec_lookup_state l parent c s) as Hst; cbn in El; by rewrite El in Hst).
    destruct o as [e0|]; [|done]. destruct (negb (entry_is_directory e0)) eqn:Ed; [done|].
    assert (Hl0 : (spec_lookup l parent c s).2 = Ok (Some e0)) by (cbn in El; by rewrite El).
    rewrite (Hlook parent c s' _ (Hkeep _ _ _ Hl0)). rewrite Ed, andb_false_r. by apply (IH _ p s).
Qed.
Lemma resolve_directories_state comps : forall parent s, (resolve_directories (S := FsState) parent comps s).1 = s.
Proof.
  induction comps as [|c comps IH]; intros parent s; [done|]. cbn [resolve_directories]. munfold_goal.
  pose proof (spec_lookup_state l parent c s) as Hst. change (fs_lookup parent c s) with (spec_lookup l parent c s).
  destruct (spec_lookup l parent c s) as [s1 [[e|]|]]; cbn [fst] in Hst; subst s1; [|done|done]. by destruct (negb _).
Qed.
Lemma spec_create_path_found knd path s s' n : knd <> Node.COUNT -> path_ok path -> inode_count l < 2 ^ 32 ->
  create (S := FsState) knd path s = (s', Ok n) -> (lookup (S := FsState) path s').2 = Ok (Some n) /\
  node_kind n = knd /\ node_size_bytes n = 0.
Proof.
  intros Hk Hp Hc E. unfold create, resolve_parent in E. munfold. destruct (split_absolute_path path) as [comps|] eqn:Es; [|done].
  destruct (last comps) as [leaf|] eqn:El; [|done].
  pose proof (resolve_directories_state (removelast comps) (fs_root_inode s) s) as Hrs.
  destruct (resolve_directories (fs_root_inode s) (removelast comps) s) as [s1 [parent|]] eqn:Er; [|done].
  cbn [fst] in Hrs. subst s1. destruct (fs_create knd parent leaf s) as [s2 [inode|]] eqn:Ec; [|done].
  assert (Hcomps : comps = removelast comps ++ [leaf]).
  { apply last_Some in El as [x ->]. by rewrite removelast_last. }
  pose proof (components_chars path comps Hp Es) as Hchars. assert (Hleaf : path_ok leaf).
  { rewrite Forall_forall in Hchars. apply Hchars. rewrite Hcomps. apply elem_of_app. right. by left. }
  destruct (spec_create_keeps l knd parent leaf s s2 inode Hk Hleaf Hc Ec) as (Hkeep & Hfound & Hmeta).
  assert (Hst2 : forall i, (spec_metadata l i s2).1 = s2).
  { intros i. unfold spec_metadata, spec_node. munfold_goal. destruct (_ || _); [done|]. by destruct (nodes s2 !! i) as [[]|]. }
  unfold node_from_inode in E. munfold. change (fs_metadata inode s2) with (spec_metadata l inode s2) in E.
  pose proof (Hst2 inode) as Hs2. destruct (spec_metadata l inode s2) as [s3 [m|]] eqn:Em; [|done]. cbn [fst snd] in *. subst s3.
  injection Hmeta as ->. cbn [meta_number meta_kind meta_size_bytes] in E. injection E as <- <-.
  split; [|done]. unfold lookup. munfold_goal. rewrite Es. cbn beta iota.
  pose proof (resolved_components (removelast comps) leaf _ (fs_root_inode s) parent s s2 Hkeep Er Hfound) as Hlc.
  rewrite <- Hcomps in Hlc. cbn [entry_inode] in Hlc. change (fs_root_inode s2) with (fs_root_inode s). rewrite Hlc.
  unfold node_from_inode. munfold_goal. change (fs_metadata inode s2) with (spec_metadata l inode s2). by rewrite Em.
Qed.
End spec_paths.

(** A path created is a path found: after a file or directory has been created at a path, looking
    the path up gives the node that the creation returned, of the kind asked for and empty. *)
Theorem vfs_created_path_is_found l (d d' : D) s knd path n : layout_ok l -> fs_repr l d s -> knd <> Node.COUNT -> path_ok path ->
  create (H := mounted_fs l) knd path d = (d', Ok n) ->
  (lookup (H := mounted_fs l) path d').2 = Ok (Some n) /\ node_kind n = knd /\ node_size_bytes n = 0.
Proof.
  intros Hl Hr Hk Hp E. pose proof (lo_inodes l Hl).
  destruct (repr_run l _ _ d s d' _ (create_path_refines l Hl knd path Hk Hp) Hr E) as (s' & Es & Hr').
  destruct (spec_create_path_found l knd path s s' n Hk Hp ltac:(lia) Es) as (Hf & Hkind & Hsize).
  split; [|done]. destruct (refines_repr l _ _ d' s' (vfs_lookup_refines l Hl path) Hr') as (d2 & E2 & _).
  unfold disk_instance in E2. rewrite E2. exact Hf.
Qed.
End clients.

(** ** Concrete instances *)

(** "/b/c": a directory and a file in it. *)
Definition demo_paths : list vfs_request :=
  [VCreate Node.DIRECTORY [47; 98]; VCreate Node.FILE [47; 98; 47; 99]; VOpen [47; 47; 98; 47; 99; 47] Mode.READ_WRITE;
   VWrite (make_file 3 Mode.READ_WRITE) [1; 2; 3]; VRead (make_file 3 Mode.READ_ONLY) 8; VSeek (make_file 3 Mode.READ_ONLY) 4;
   VLookup [47; 98; 47; 100]; VCreate Node.FILE [47; 97; 47; 99]; VLookup [98]].
Lemma vfs_created_path_is_found_witness :
  let run := create (H := mounted_fs demo_layout) Node.FILE [47; 98] demo_mounted in
  run.2 = Ok (mkVfsNode 2 Node.FILE 0) /\ (lookup (H := mounted_fs demo_layout) [47; 98] run.1).2 = Ok (Some (mkVfsNode 2 Node.FILE 0)).
Proof.
  intros run. assert (E : run.2 = Ok (mkVfsNode 2 Node.FILE 0)) by (vm_compute; reflexivity). split; [exact E|].
  pose proof (outcome_of _ _ E) as Hrun. unfold run in Hrun at 1. clearbody run.
  destruct (vfs_created_path_is_found demo_layout demo_mounted run.1 (initial_state demo_layout) Node.FILE [47; 98] (mkVfsNode 2 Node.FILE 0)
    demo_layout_ok demo_mounted_repr) as (Hf & _); [discriminate|repeat (apply Forall_cons_2; [lia|]); apply Forall_nil_2|exact Hrun|exact Hf].
Defined.
