(* ===== verification/Terminal.v ===== *)
(** * Terminal device

    Models src/os/dev/terminal.cpp: the text display with its cursor and scrolling, the keyboard queue
    and the terminal that joins them with an output stream.  Characters are their codes, 0 to 255.
    The display is one vector of cells that scrolls by copying; it is shown to refine a screen made of
    rows, from which scrolling drops the first and to which it appends a blank one. *)

From S2P Require Import Prelude Logic.

Abbreviation TERMINAL_BLANK_CHARACTER := 32.
Abbreviation TERMINAL_DEFAULT_ATTRIBUTE := 7.
Abbreviation TERMINAL_BACKSPACE_CHARACTER := 8.
Abbreviation TERMINAL_DELETE_CHARACTER := 127.
Abbreviation TERMINAL_NEWLINE_CHARACTER := 10.
Abbreviation TERMINAL_CARRIAGE_RETURN_CHARACTER := 13.
Abbreviation TERMINAL_CLEAR_SCREEN_CHARACTER := 12.
Abbreviation TERMINAL_UNBOUNDED_KEYBOARD_CAPACITY := 0.

(** ** Display *)

(* [include/mnos/os/dev/terminal.hpp] [TextCell] *)
Record TextCell : Set := mkCell { cell_character : Z; cell_attribute : Z }.
#[export] Instance TextCell_eq_dec : EqDecision TextCell.
Proof. solve_decision. Defined.
Definition blank_cell : TextCell := mkCell TERMINAL_BLANK_CHARACTER TERMINAL_DEFAULT_ATTRIBUTE.

(* [include/mnos/os/dev/terminal.hpp] [TextDisplayBuffer] *)
Record TextDisplayBuffer : Set := mkDisplay {
  column_count : Z;
  row_count : Z;
  cursor_column : Z;
  cursor_row : Z;
  scroll_count : Z;
  cells : list TextCell;
}.
Definition set_cells (cs : list TextCell) (d : TextDisplayBuffer) : TextDisplayBuffer :=
  mkDisplay (column_count d) (row_count d) (cursor_column d) (cursor_row d) (scroll_count d) cs.
Definition put_cursor (column row : Z) (d : TextDisplayBuffer) : TextDisplayBuffer :=
  mkDisplay (column_count d) (row_count d) column row (scroll_count d) (cells d).
Definition count_scroll (d : TextDisplayBuffer) : TextDisplayBuffer :=
  mkDisplay (column_count d) (row_count d) (cursor_column d) (cursor_row d) (add64 (scroll_count d) 1) (cells d).

(* [src/os/dev/terminal.cpp] [checked_text_display_cell_count] *)
Definition checked_text_display_cell_count (columns rows : Z) : res Z :=
  if (columns =? 0) || (rows =? 0) then Throw invalid_argument
  else if (W64 - 1) / rows <? columns then Throw overflow_error
  else Ok (mul64 columns rows).
(* [src/os/dev/terminal.cpp] [TextDisplayBuffer::TextDisplayBuffer #2] *)
Definition make_display (columns rows : Z) : res TextDisplayBuffer :=
  n ← checked_text_display_cell_count columns rows;
  Ok (mkDisplay columns rows 0 0 0 (replicate (Z.to_nat n) blank_cell)).
(* [src/os/dev/terminal.cpp] [TextDisplayBuffer::cell_index] *)
Definition cell_index (column row : Z) (d : TextDisplayBuffer) : res Z :=
  if (column_count d <=? column) || (row_count d <=? row) then Throw out_of_range
  else Ok (add64 (mul64 row (column_count d)) column).
(* [src/os/dev/terminal.cpp] [TextDisplayBuffer::empty] *)
Definition display_empty (d : TextDisplayBuffer) : bool :=
  forallb (fun cell => cell_character cell =? TERMINAL_BLANK_CHARACTER) (cells d).
(** The index is within the vector. *)
(* [src/os/dev/terminal.cpp] [TextDisplayBuffer::cell_at] *)
Definition cell_at (column row : Z) (d : TextDisplayBuffer) : res TextCell :=
  index ← cell_index column row d; Ok (nth (Z.to_nat index) (cells d) blank_cell).
(** The characters pushed by a loop over the columns. *)
Fixpoint collect {A B} (f : A -> res B) (xs : list A) : res (list B) :=
  match xs with
  | [] => Ok []
  | x :: xs' => y ← f x; ys ← collect f xs'; Ok (y :: ys)
  end.
(* [src/os/dev/terminal.cpp] [TextDisplayBuffer::line] *)
Definition line (row : Z) (d : TextDisplayBuffer) : res (list Z) :=
  if row_count d <=? row then Throw out_of_range
  else collect (fun column => cell ← cell_at column row d; Ok (cell_character cell)) (seqZ 0 (column_count d)).
(* [src/os/dev/terminal.cpp] [TextDisplayBuffer::lines] *)
Definition lines (d : TextDisplayBuffer) : res (list (list Z)) :=
  collect (fun row => line row d) (seqZ 0 (row_count d)).
(* [src/os/dev/terminal.cpp] [TextDisplayBuffer::render_text] *)
Definition render_text (d : TextDisplayBuffer) : res (list Z) :=
  parts ← collect (fun row =>
    text ← line row d; Ok (if 0 <? row then TERMINAL_NEWLINE_CHARACTER :: text else text)) (seqZ 0 (row_count d));
  Ok (concat parts).

Abbreviation DisplayM A := (M TextDisplayBuffer A).
(** [cells_[index] = cell]. *)
Definition store_cell (index : Z) (cell : TextCell) : DisplayM unit :=
  modify (fun d => set_cells (<[Z.to_nat index := cell]> (cells d)) d).
(* [src/os/dev/terminal.cpp] [TextDisplayBuffer::clear] *)
Definition display_clear : DisplayM unit :=
  modify (fun d => put_cursor 0 0 (set_cells (replicate (length (cells d)) blank_cell) d)).
(* [src/os/dev/terminal.cpp] [TextDisplayBuffer::clear_row] *)
Definition clear_row (row : Z) : DisplayM unit :=
  gets column_count ≫= fun columns =>
  for_each (seqZ 0 columns) (fun column =>
    lift (cell_index column row) ≫= fun index => store_cell index blank_cell).
(* [src/os/dev/terminal.cpp] [TextDisplayBuffer::scroll_up] *)
Definition scroll_up : DisplayM unit :=
  get ≫= fun d =>
  if row_count d <=? 1 then
    clear_row 0 ≫= fun _ => modify (put_cursor 0 0) ≫= fun _ => modify count_scroll
  else
    for_each (seqZ 1 (row_count d - 1)) (fun row =>
      for_each (seqZ 0 (column_count d)) (fun column =>
        lift (cell_at column row) ≫= fun cell =>
        lift (cell_index column (row - 1)) ≫= fun index =>
        store_cell index cell)) ≫= fun _ =>
    clear_row (sub64 (row_count d) 1) ≫= fun _ =>
    modify (put_cursor 0 (sub64 (row_count d) 1)) ≫= fun _ =>
    modify count_scroll.
(* [src/os/dev/terminal.cpp] [TextDisplayBuffer::newline] *)
Definition newline : DisplayM unit :=
  modify (fun d => put_cursor 0 (add64 (cursor_row d) 1) d) ≫= fun _ =>
  get ≫= fun d =>
  if row_count d <=? cursor_row d then scroll_up else mret tt.
(* [src/os/dev/terminal.cpp] [TextDisplayBuffer::carriage_return] *)
Definition carriage_return : DisplayM unit := modify (fun d => put_cursor 0 (cursor_row d) d).
(* [src/os/dev/terminal.cpp] [TextDisplayBuffer::advance_cursor_after_put] *)
Definition advance_cursor_after_put : DisplayM unit :=
  modify (fun d => put_cursor (add64 (cursor_column d) 1) (cursor_row d) d) ≫= fun _ =>
  get ≫= fun d =>
  if column_count d <=? cursor_column d then newline else mret tt.
(* [src/os/dev/terminal.cpp] [TextDisplayBuffer::put_printable] *)
Definition put_printable (character : Z) : DisplayM unit :=
  get ≫= fun d =>
  lift (cell_index (cursor_column d) (cursor_row d)) ≫= fun index =>
  store_cell index (mkCell character TERMINAL_DEFAULT_ATTRIBUTE) ≫= fun _ =>
  advance_cursor_after_put.
(* [src/os/dev/terminal.cpp] [TextDisplayBuffer::erase_previous_cell] *)
Definition erase_previous_cell : DisplayM unit :=
  get ≫= fun d =>
  if (cursor_column d =? 0) && (cursor_row d =? 0) then mret tt
  else
    modify (if cursor_column d =? 0 then put_cursor (sub64 (column_count d) 1) (sub64 (cursor_row d) 1)
            else put_cursor (sub64 (cursor_column d) 1) (cursor_row d)) ≫= fun _ =>
    get ≫= fun d =>
    lift (cell_index (cursor_column d) (cursor_row d)) ≫= fun index =>
    store_cell index blank_cell.
(* [src/os/dev/terminal.cpp] [TextDisplayBuffer::set_cursor] *)
Definition set_cursor (column row : Z) : DisplayM unit :=
  get ≫= fun d =>
  throw_if ((column_count d <=? column) || (row_count d <=? row)) out_of_range ≫= fun _ =>
  modify (put_cursor column row).
(* [src/os/dev/terminal.cpp] [TextDisplayBuffer::write_char] *)
Definition write_char (character : Z) : DisplayM unit :=
  if character =? TERMINAL_NEWLINE_CHARACTER then newline
  else if character =? TERMINAL_CARRIAGE_RETURN_CHARACTER then carriage_return
  else if (character =? TERMINAL_BACKSPACE_CHARACTER) || (character =? TERMINAL_DELETE_CHARACTER) then erase_previous_cell
  else put_printable character.
(* [src/os/dev/terminal.cpp] [TextDisplayBuffer::write_string] *)
Definition write_string (text : list Z) : DisplayM unit := for_each text write_char.

(** ** Keyboard *)

(** A key event is its character. *)
(* [src/os/dev/terminal.cpp] [KeyEvent::is_enter] *)
Definition is_enter (event : Z) : bool :=
  (event =? TERMINAL_NEWLINE_CHARACTER) || (event =? TERMINAL_CARRIAGE_RETURN_CHARACTER).
(* [src/os/dev/terminal.cpp] [KeyEvent::is_backspace] *)
Definition is_backspace (event : Z) : bool :=
  (event =? TERMINAL_BACKSPACE_CHARACTER) || (event =? TERMINAL_DELETE_CHARACTER).
(* [src/os/dev/terminal.cpp] [KeyEvent::is_printable_ascii] *)
Definition is_printable_ascii (event : Z) : bool := (32 <=? event) && (event <=? 126).

(* [include/mnos/os/dev/terminal.hpp] [KeyboardInputQueue] *)
Record KeyboardInputQueue : Set := mkKeyboard { keyboard_capacity : Z; keyboard_events : list Z }.
(* [src/os/dev/terminal.cpp] [KeyboardInputQueue::has_capacity] *)
Definition has_capacity (k : KeyboardInputQueue) : bool :=
  (keyboard_capacity k =? TERMINAL_UNBOUNDED_KEYBOARD_CAPACITY) || (lenZ (keyboard_events k) <? keyboard_capacity k).
(** The loop that pops events while there are more than the capacity. *)
Fixpoint shrink_to (capacity : Z) (events : list Z) : list Z :=
  match events with
  | [] => []
  | _ :: rest =>
      if negb (capacity =? TERMINAL_UNBOUNDED_KEYBOARD_CAPACITY) && (capacity <? lenZ events) then shrink_to capacity rest
      else events
  end.
(* [src/os/dev/terminal.cpp] [KeyboardInputQueue::set_capacity] *)
Definition set_capacity (capacity : Z) (k : KeyboardInputQueue) : KeyboardInputQueue :=
  mkKeyboard capacity (shrink_to capacity (keyboard_events k)).
(* [src/os/dev/terminal.cpp] [KeyboardInputQueue::push] *)
Definition push (event : Z) : M KeyboardInputQueue bool := fun k =>
  if negb (has_capacity k) then (k, Ok false)
  else (mkKeyboard (keyboard_capacity k) (keyboard_events k ++ [event]), Ok true).
(* [src/os/dev/terminal.cpp] [KeyboardInputQueue::pop] *)
Definition pop : M KeyboardInputQueue (option Z) := fun k =>
  match keyboard_events k with
  | [] => (k, Ok None)
  | event :: rest => (mkKeyboard (keyboard_capacity k) rest, Ok (Some event))
  end.
(** The loop of [drain]: one call that finds nothing after as many as there are events. *)
Fixpoint drain_loop (fuel : nat) : M KeyboardInputQueue (list Z) :=
  match fuel with
  | O => mret []
  | S fuel' =>
      pop ≫= fun event =>
      match event with
      | None => mret []
      | Some e => drain_loop fuel' ≫= fun rest => mret (e :: rest)
      end
  end.
(* [src/os/dev/terminal.cpp] [KeyboardInputQueue::drain] *)
Definition drain : M KeyboardInputQueue (list Z) := fun k => drain_loop (S (length (keyboard_events k))) k.
(* [src/os/dev/terminal.cpp] [KeyboardInputQueue::clear] *)
Definition keyboard_clear (k : KeyboardInputQueue) : KeyboardInputQueue := mkKeyboard (keyboard_capacity k) [].

(** ** Terminal *)

(* [include/mnos/os/dev/terminal.hpp] [TerminalDevice] *)
Record TerminalDevice : Set := mkTerminal {
  display : TextDisplayBuffer;
  keyboard : KeyboardInputQueue;
  output_stream : list Z;
}.
Abbreviation TerminalM A := (M TerminalDevice A).
Definition on_display {A} : DisplayM A -> TerminalM A :=
  zoom display (fun d t => mkTerminal d (keyboard t) (output_stream t)).
Definition on_keyboard {A} : M KeyboardInputQueue A -> TerminalM A :=
  zoom keyboard (fun k t => mkTerminal (display t) k (output_stream t)).
Definition on_stream (f : list Z -> list Z) : TerminalM unit :=
  modify (fun t => mkTerminal (display t) (keyboard t) (f (output_stream t))).
(* [src/os/dev/terminal.cpp] [TerminalDevice::TerminalDevice #2] *)
Definition make_terminal (columns rows : Z) : res TerminalDevice :=
  d ← make_display columns rows; Ok (mkTerminal d (mkKeyboard 0 []) []).
(* [src/os/dev/terminal.cpp] [TerminalDevice::output_stream_since] *)
Definition output_stream_since (offset : Z) (t : TerminalDevice) : res (list Z) :=
  if lenZ (output_stream t) <? offset then Throw out_of_range else Ok (drop (Z.to_nat offset) (output_stream t)).
(* [src/os/dev/terminal.cpp] [TerminalDevice::write_output] *)
Definition write_output (text : list Z) : TerminalM unit :=
  on_display (write_string text) ≫= fun _ => on_stream (fun s => s ++ text).
(* [src/os/dev/terminal.cpp] [TerminalDevice::clear_display] *)
Definition clear_display : TerminalM unit :=
  on_display display_clear ≫= fun _ => on_stream (fun s => s ++ [TERMINAL_CLEAR_SCREEN_CHARACTER]).
(* [src/os/dev/terminal.cpp] [TerminalDevice::discard_output_stream_before] *)
Definition discard_output_stream_before (offset : Z) : TerminalM unit :=
  gets output_stream ≫= fun s =>
  throw_if (lenZ s <? offset) out_of_range ≫= fun _ =>
  on_stream (drop (Z.to_nat offset)).
(** The loop of [submit_input]: the characters accepted before the first refusal. *)
Fixpoint submit_loop (accepted_count : Z) (text : list Z) : TerminalM Z :=
  match text with
  | [] => mret accepted_count
  | c :: rest =>
      on_keyboard (push c) ≫= fun accepted =>
      if negb accepted then mret accepted_count else submit_loop (accepted_count + 1) rest
  end.
(* [src/os/dev/terminal.cpp] [TerminalDevice::submit_input] *)
Definition submit_input : list Z -> TerminalM Z := submit_loop 0.
(* [src/os/dev/terminal.cpp] [TerminalDevice::drain_input] *)
Definition drain_input : TerminalM (list Z) := on_keyboard drain.

(** ** The display as a screen of rows *)

Record Screen : Set := mkScreen { rows : list (list TextCell); at_column : Z; at_row : Z; scrolls : Z }.
Definition blank_row (columns : Z) : list TextCell := replicate (Z.to_nat columns) blank_cell.

Section screen.
Context (columns : Z).
Definition blank_screen (n : Z) : Screen := mkScreen (replicate (Z.to_nat n) (blank_row columns)) 0 0 0.
(** To the start of the next row; from the last one the rows move up and a blank one comes in. *)
Definition next_row (s : Screen) : Screen :=
  if at_row s + 1 <? lenZ (rows s) then mkScreen (rows s) 0 (at_row s + 1) (scrolls s)
  else mkScreen (tail (rows s) ++ [blank_row columns]) 0 (at_row s) (add64 (scrolls s) 1).
Definition put_at (column row : Z) (cell : TextCell) (s : Screen) : Screen :=
  mkScreen (alter (<[Z.to_nat column := cell]>) (Z.to_nat row) (rows s)) column row (scrolls s).
Definition type_char (character : Z) (s : Screen) : Screen :=
  let s := put_at (at_column s) (at_row s) (mkCell character TERMINAL_DEFAULT_ATTRIBUTE) s in
  if at_column s + 1 <? columns then mkScreen (rows s) (at_column s + 1) (at_row s) (scrolls s) else next_row s.
(** Back over the end of the row above, to a cell made blank; nowhere from the first cell. *)
Definition rub_out (s : Screen) : Screen :=
  if at_column s =? 0 then
    if at_row s =? 0 then s else put_at (columns - 1) (at_row s - 1) blank_cell s
  else put_at (at_column s - 1) (at_row s) blank_cell s.
Definition show_char (s : Screen) (character : Z) : Screen :=
  if character =? TERMINAL_NEWLINE_CHARACTER then next_row s
  else if character =? TERMINAL_CARRIAGE_RETURN_CHARACTER then mkScreen (rows s) 0 (at_row s) (scrolls s)
  else if is_backspace character then rub_out s
  else type_char character s.
End screen.

(** The cells are the rows one after the other. *)
Record shows (d : TextDisplayBuffer) (s : Screen) : Prop := {
  shows_columns : 0 < column_count d;
  shows_count : column_count d * row_count d < W64;
  shows_cells : cells d = concat (rows s);
  shows_widths : Forall (fun r => lenZ r = column_count d) (rows s);
  shows_rows : lenZ (rows s) = row_count d;
  shows_column : cursor_column d = at_column s;
  shows_row : cursor_row d = at_row s;
  shows_scrolls : scroll_count d = scrolls s;
  shows_at_column : 0 <= at_column s < column_count d;
  shows_at_row : 0 <= at_row s < row_count d;
}.

(** *** Rows of one width *)

Section rows.
Context {A : Type} (n : nat).
Lemma concat_length (rs : list (list A)) : Forall (fun r => length r = n) rs -> length (concat rs) = (length rs * n)%nat.
Proof. induction 1 as [|r rs Hr _ IH]; [done|]. cbn [concat length]. rewrite length_app. lia. Qed.
Lemma concat_lookup (rs : list (list A)) (i j : nat) : Forall (fun r => length r = n) rs -> (j < n)%nat ->
  concat rs !! (i * n + j)%nat = rs !! i ≫= fun r => r !! j.
Proof.
  intros Hrs Hj. revert i. induction Hrs as [|r rs Hr _ IH]; intros i; [done|]. cbn [concat]. destruct i as [|i].
  - rewrite lookup_app_l by lia. done.
  - rewrite lookup_app_r by lia. replace (S i * n + j - length r)%nat with (i * n + j)%nat by lia. apply IH.
Qed.
Lemma concat_insert (rs : list (list A)) (i j : nat) x : Forall (fun r => length r = n) rs -> (j < n)%nat ->
  <[(i * n + j)%nat := x]> (concat rs) = concat (alter (<[j := x]>) i rs).
Proof.
  intros Hrs Hj. revert i. induction Hrs as [|r rs Hr _ IH]; intros i; [done|]. cbn [concat]. destruct i as [|i].
  - rewrite insert_app_l by lia. done.
  - rewrite insert_app_r_alt by lia. replace (S i * n + j - length r)%nat with (i * n + j)%nat by lia. by rewrite IH.
Qed.
(** Writing at the frontier of a left-to-right sweep. *)
Lemma insert_frontier (written cs : list A) x : (length written < length cs)%nat ->
  <[length written := x]> (written ++ drop (length written) cs) = (written ++ [x]) ++ drop (length (written ++ [x])) cs.
Proof.
  intros Hl. rewrite insert_app_r_alt, Nat.sub_diag by lia. rewrite length_app, <- app_assoc. f_equal. cbn [length].
  destruct (lookup_lt_is_Some_2 cs _ Hl) as [y Hy]. rewrite (drop_S cs y _ Hy). cbn [insert list_insert app].
  by rewrite Nat.add_comm.
Qed.
End rows.

Lemma add64_mul64 a b c : 0 <= a -> 0 <= b -> 0 <= c -> a * b + c < W64 -> add64 (mul64 a b) c = a * b + c.
Proof. intros. unfold mul64. rewrite wrap64_small by (unfold u64; nia). apply add64_small; nia. Qed.
Lemma cell_index_ok d column row : 0 <= column < column_count d -> 0 <= row < row_count d ->
  column_count d * row_count d < W64 -> cell_index column row d = Ok (row * column_count d + column).
Proof.
  intros Hc Hr Hn. unfold cell_index. rewrite (proj2 (orb_false_iff _ _)) by (rewrite !Z.leb_gt; lia).
  f_equal. apply add64_mul64; nia.
Qed.

(** *** The loops *)

Lemma store_cell_frontier d written cs x : cells d = written ++ drop (length written) cs -> (length written < length cs)%nat ->
  store_cell (lenZ written) x d = (set_cells ((written ++ [x]) ++ drop (length (written ++ [x])) cs) d, Ok tt).
Proof.
  intros Hd Hl. unfold store_cell. munfold_goal. rewrite Hd. unfold lenZ. rewrite Nat2Z.id.
  by rewrite insert_frontier by done.
Qed.
(** What a sweep has reached when its written part is [f k]. *)
Definition swept (d : TextDisplayBuffer) (f : Z -> list TextCell) (k : Z) : TextDisplayBuffer :=
  set_cells (f k ++ drop (length (f k)) (cells d)) d.
Lemma store_cell_swept d f k x i : lenZ (f k) = i -> i < lenZ (cells d) -> f (k + 1) = f k ++ [x] ->
  store_cell i x (swept d f k) = (swept d f (k + 1), Ok tt).
Proof.
  intros <- Hl E. unfold swept at 1. rewrite (store_cell_frontier _ (f k) (cells d)); [|done|unfold lenZ in Hl; lia].
  unfold swept. rewrite E. done.
Qed.
Lemma swept_start d f k : (exists n, f k = take n (cells d)) -> swept d f k = d.
Proof.
  intros [n E]. unfold swept. rewrite E. replace (drop (length (take n (cells d))) (cells d)) with (drop n (cells d)).
  - rewrite take_drop. by destruct d.
  - rewrite length_take. destruct (Nat.le_ge_cases n (length (cells d))); [by rewrite Nat.min_l|].
    rewrite Nat.min_r by done. by rewrite !drop_ge.
Qed.

Section loops.
Context (d : TextDisplayBuffer) (Hcols : 0 < column_count d) (Hrows : 0 < row_count d)
  (Hcount : column_count d * row_count d < W64) (Hlen : lenZ (cells d) = column_count d * row_count d).
Abbreviation columns := (column_count d).
Abbreviation rows := (row_count d).

Lemma clear_row_run row : 0 <= row < rows -> clear_row row d = (swept d (fun k => take (Z.to_nat (row * columns)) (cells d) ++
  replicate (Z.to_nat k) blank_cell) columns, Ok tt).
Proof using Hcols Hrows Hcount Hlen.
  intros Hr. unfold clear_row. munfold_goal.
  set (f := fun k => take (Z.to_nat (row * columns)) (cells d) ++ replicate (Z.to_nat k) blank_cell).
  assert (Hf : forall k, 0 <= k -> lenZ (f k) = row * columns + k).
  { intros k Hk. unfold f. rewrite lenZ_app, lenZ_replicate, lenZ_take by nia. done. }
  apply (for_each_steps (swept d f)); [|by rewrite Z.add_0_l|lia|].
  - apply swept_start. exists (Z.to_nat (row * columns)). unfold f. by rewrite app_nil_r.
  - intros k Hk. munfold_goal. change (cell_index k row (swept d f k)) with (cell_index k row d). rewrite cell_index_ok by lia.
    apply store_cell_swept; [apply Hf; lia|nia|]. unfold f. by rewrite <- app_assoc, replicate_snoc by lia.
Qed.

Lemma copy_loop_run : for_each (seqZ 1 (rows - 1)) (fun row =>
    for_each (seqZ 0 columns) (fun column =>
      lift (cell_at column row) ≫= fun cell =>
      lift (cell_index column (row - 1)) ≫= fun index =>
      store_cell index cell)) d =
  (swept d (fun k => take (Z.to_nat k) (drop (Z.to_nat columns) (cells d))) ((rows - 1) * columns), Ok tt).
Proof using Hcols Hrows Hcount Hlen.
  set (f := fun k => take (Z.to_nat k) (drop (Z.to_nat columns) (cells d))).
  assert (Hf : forall k, 0 <= k <= (rows - 1) * columns -> lenZ (f k) = k).
  { intros k Hk. unfold f. apply lenZ_take. rewrite lenZ_drop by nia. nia. }
  assert (Hnext : forall k, 0 <= k < (rows - 1) * columns -> f (k + 1) = f k ++ [nth (Z.to_nat (k + columns)) (cells d) blank_cell]).
  { intros k Hk. unfold f. replace (Z.to_nat (k + 1)) with (S (Z.to_nat k)) by lia. apply take_S_r.
    rewrite lookup_drop, <- Z2Nat.inj_add, (Z.add_comm columns) by lia.
    rewrite nth_lookup. destruct (cells d !! Z.to_nat (k + columns)) eqn:E; [done|]. apply lookup_ge_None in E. unfold lenZ in Hlen. nia. }
  apply (for_each_steps (fun row => swept d f ((row - 1) * columns))); [apply swept_start; by exists 0%nat|f_equal; lia|lia|].
  intros row Hr. apply (for_each_steps (fun column => swept d f ((row - 1) * columns + column))); [f_equal; lia..|lia|]. intros column Hc.
  set (k := (row - 1) * columns + column). assert (Hk : 0 <= k < (rows - 1) * columns) by (unfold k; nia).
  munfold_goal. change (cell_index column (row - 1) (swept d f k)) with (cell_index column (row - 1) d).
  unfold cell_at. munfold_goal. change (cell_index column row (swept d f k)) with (cell_index column row d).
  rewrite !cell_index_ok by lia. replace ((row - 1) * columns + (column + 1)) with (k + 1) by (unfold k; lia).
  apply store_cell_swept; [rewrite Hf by lia; done|nia|]. rewrite Hnext by done. do 2 f_equal.
  replace (row * columns + column) with (k + columns) by (unfold k; lia).
  pose proof (Hf k ltac:(lia)) as Hfk. unfold lenZ in Hfk. cbn [swept cells set_cells].
  rewrite app_nth2 by lia. rewrite !nth_lookup, lookup_drop. do 2 f_equal. lia.
Qed.
End loops.

(** Scrolling drops the first row's cells and appends blank ones. *)
Lemma scroll_up_run d : 0 < column_count d -> 0 < row_count d -> column_count d * row_count d < W64 ->
  lenZ (cells d) = column_count d * row_count d -> scroll_up d =
  (mkDisplay (column_count d) (row_count d) 0 (row_count d - 1) (add64 (scroll_count d) 1)
    (drop (Z.to_nat (column_count d)) (cells d) ++ blank_row (column_count d)), Ok tt).
Proof.
  intros Hc Hr Hn Hl. unfold scroll_up. munfold_goal.
  assert (Hswept : forall (e : TextDisplayBuffer) f k, lenZ (f k) = lenZ (cells e) -> swept e f k = set_cells (f k) e).
  { intros e f k Hf. unfold swept. unfold lenZ in Hf. rewrite drop_ge by lia. by rewrite app_nil_r. }
  destruct (Z.leb_spec (row_count d) 1).
  - rewrite clear_row_run by lia. rewrite Hswept by (rewrite lenZ_app, lenZ_replicate, Hl, (lenZ_take 0) by nia; nia).
    unfold put_cursor, count_scroll, set_cells. cbn. rewrite drop_ge by (unfold lenZ in Hl; nia). by replace (row_count d - 1) with 0 by lia.
  - rewrite copy_loop_run by lia. set (e := swept d _ _). rewrite (sub64_small _ 1) by nia.
    assert (He : lenZ (cells e) = column_count d * row_count d /\
      take (Z.to_nat ((row_count d - 1) * column_count d)) (cells e) = drop (Z.to_nat (column_count d)) (cells d)).
    { unfold e. cbn [swept cells set_cells]. rewrite (firstn_all2 (n := Z.to_nat ((row_count d - 1) * column_count d)))
        by (rewrite length_drop; unfold lenZ in Hl; nia). split.
      - unfold lenZ in *. rewrite length_app, !length_drop. nia.
      - rewrite take_app_length'; [done|]. rewrite length_drop. unfold lenZ in Hl. nia. }
    destruct He as [He1 He2]. rewrite (clear_row_run e) by (try done; unfold e; cbn; lia).
    assert (Hq : column_count e = column_count d /\ row_count e = row_count d /\ scroll_count e = scroll_count d) by done.
    clearbody e. destruct Hq as (Hq1 & Hq2 & Hq3). rewrite Hq1, He2. rewrite Hswept.
    + unfold put_cursor, count_scroll, set_cells. cbn. by rewrite Hq1, Hq2, Hq3.
    + rewrite lenZ_app, lenZ_replicate, lenZ_drop, Hl, He1 by nia. lia.
Qed.

(** *** Refinement *)

Lemma shows_lengths d s : shows d s -> Forall (fun r => length r = Z.to_nat (column_count d)) (rows s) /\
  lenZ (cells d) = column_count d * row_count d.
Proof.
  intros Hs. assert (Hw : Forall (fun r => length r = Z.to_nat (column_count d)) (rows s)).
  { eapply Forall_impl; [apply (shows_widths d s Hs)|]. cbn. unfold lenZ. intros. lia. }
  split; [done|]. rewrite (shows_cells d s Hs). unfold lenZ. rewrite (concat_length _ _ Hw).
  pose proof (shows_rows d s Hs) as Hr. unfold lenZ in Hr. pose proof (shows_columns d s Hs). nia.
Qed.
Definition same_size (d d' : TextDisplayBuffer) : Prop := column_count d' = column_count d /\ row_count d' = row_count d.
(** The operation succeeds and what it shows becomes [s']. *)
Definition shown (m : DisplayM unit) (d : TextDisplayBuffer) (s' : Screen) : Prop :=
  exists d', m d = (d', Ok tt) /\ shows d' s' /\ same_size d d'.

Lemma newline_shown d s : shows d s -> shown newline d (next_row (column_count d) s).
Proof.
  intros Hs. pose proof (shows_lengths d s Hs) as [Hw Hl]. destruct Hs as [Hc Hn Hcells Hws Hr Hcc Hcr Hsc Hac Har].
  unfold shown, newline, next_row. munfold_goal. rewrite Hr. rewrite Hcr, add64_small by nia. cbn [put_cursor row_count cursor_row].
  destruct (Z.leb_spec (row_count d) (at_row s + 1)) as [Hge|Hlt].
  - rewrite (proj2 (Z.ltb_ge _ _)) by done. rewrite scroll_up_run by (cbn; try done; lia).
    eexists. split; [reflexivity|]. split; [|done]. cbn. destruct (rows s) as [|r rs] eqn:Ers; [unfold lenZ in Hr; cbn in Hr; lia|].
    apply Forall_cons in Hws as [Hr0 Hws]. split; cbn; try done; try lia.
    + rewrite Hcells, concat_app. cbn. rewrite app_nil_r. f_equal. unfold lenZ in Hr0. by rewrite drop_app_length' by lia.
    + apply Forall_app. split; [done|]. constructor; [|done]. unfold blank_row. apply lenZ_replicate. lia.
    + rewrite lenZ_app. unfold lenZ in *. cbn in *. lia.
    + congruence.
  - rewrite (proj2 (Z.ltb_lt _ _)) by done. eexists. split; [reflexivity|]. split; [|done]. split; cbn; try done; lia.
Qed.
Lemma put_at_shows d s column row cell : shows d s -> 0 <= column < column_count d -> 0 <= row < row_count d ->
  store_cell (row * column_count d + column) cell (put_cursor column row d) =
    (set_cells (<[Z.to_nat (row * column_count d + column) := cell]> (cells d)) (put_cursor column row d), Ok tt) /\
  shows (set_cells (<[Z.to_nat (row * column_count d + column) := cell]> (cells d)) (put_cursor column row d)) (put_at column row cell s).
Proof.
  intros Hs Hcol Hrow. pose proof (shows_lengths d s Hs) as [Hw Hl]. destruct Hs as [Hc Hn Hcells Hws Hr Hcc Hcr Hsc Hac Har].
  split; [done|]. split; cbn; try done.
  - rewrite Hcells. rewrite <- (concat_insert (Z.to_nat (column_count d))) by (done || lia). f_equal. nia.
  - apply Forall_alter; [done|]. intros r _ Hlr. unfold lenZ in *. by rewrite length_insert.
  - unfold lenZ in *. by rewrite length_alter.
Qed.
Lemma put_at_here d s : shows d s -> put_cursor (at_column s) (at_row s) d = d.
Proof. intros Hs. rewrite <- (shows_column d s Hs), <- (shows_row d s Hs). by destruct d. Qed.

Lemma put_printable_shown d s c : shows d s -> shown (put_printable c) d (type_char (column_count d) c s).
Proof.
  intros Hs. pose proof Hs as [Hc Hn Hcells Hws Hr Hcc Hcr Hsc Hac Har]. unfold shown, put_printable, type_char. munfold_goal.
  rewrite cell_index_ok by (rewrite ?Hcc, ?Hcr; done). rewrite Hcc, Hcr.
  destruct (put_at_shows d s (at_column s) (at_row s) (mkCell c TERMINAL_DEFAULT_ATTRIBUTE) Hs Hac Har) as [E Hs'].
  rewrite (put_at_here d s Hs) in E, Hs'. rewrite E. set (d' := set_cells _ d) in *. set (s' := put_at _ _ _ s) in *.
  unfold advance_cursor_after_put. munfold_goal. cbn [put_cursor cursor_column column_count].
  change (cursor_column d') with (cursor_column d). rewrite Hcc, add64_small by nia. change (at_column s') with (at_column s).
  change (column_count d') with (column_count d). destruct (Z.leb_spec (column_count d) (at_column s + 1)).
  - rewrite (proj2 (Z.ltb_ge _ _)) by done.
    change (newline (put_cursor (at_column s + 1) (cursor_row d') d')) with (newline d').
    apply (newline_shown d' s' Hs').
  - rewrite (proj2 (Z.ltb_lt _ _)) by done. eexists. split; [reflexivity|]. split; [|done].
    destruct Hs'. split; cbn in *; try done. lia.
Qed.
Lemma erase_previous_cell_shown d s : shows d s -> shown erase_previous_cell d (rub_out (column_count d) s).
Proof.
  intros Hs. pose proof Hs as [Hc Hn Hcells Hws Hr Hcc Hcr Hsc Hac Har]. unfold shown, erase_previous_cell, rub_out. munfold_goal.
  rewrite Hcc, Hcr. destruct (Z.eqb_spec (at_column s) 0) as [E0|Hne]; cbn [andb].
  - destruct (Z.eqb_spec (at_row s) 0); [by exists d|]. rewrite !sub64_small by nia.
    change (cell_index ?a ?b (put_cursor ?x ?y d)) with (cell_index a b d). cbn [put_cursor cursor_column cursor_row].
    rewrite cell_index_ok by lia.
    destruct (put_at_shows d s (column_count d - 1) (at_row s - 1) blank_cell Hs) as [-> Hs']; [lia..|].
    eexists. split; [reflexivity|]. by split.
  - rewrite !sub64_small by nia. change (cell_index ?a ?b (put_cursor ?x ?y d)) with (cell_index a b d).
    cbn [put_cursor cursor_column cursor_row]. rewrite cell_index_ok by lia.
    destruct (put_at_shows d s (at_column s - 1) (at_row s) blank_cell Hs) as [-> Hs']; [lia..|].
    eexists. split; [reflexivity|]. by split.
Qed.
Lemma write_char_shown d s c : shows d s -> shown (write_char c) d (show_char (column_count d) s c).
Proof.
  intros Hs. unfold write_char, show_char, is_backspace. destruct (c =? _); [by apply newline_shown|].
  destruct (c =? _); [|destruct (_ || _); [by apply erase_previous_cell_shown|by apply put_printable_shown]].
  eexists. split; [reflexivity|]. split; [|done]. destruct Hs. split; cbn; try done; lia.
Qed.
Lemma write_string_shown text : forall d s, shows d s -> shown (write_string text) d (foldl (show_char (column_count d)) s text).
Proof.
  induction text as [|c text IH]; intros d s Hs; [by exists d|]. unfold write_string in *. cbn [for_each foldl].
  destruct (write_char_shown d s c Hs) as (d1 & E1 & Hs1 & Hc1 & Hr1). destruct (IH d1 _ Hs1) as (d2 & E2 & Hs2 & Hc2 & Hr2).
  exists d2. munfold_goal. rewrite E1, E2. rewrite Hc1 in Hs2. split; [done|]. split; [done|]. split; congruence.
Qed.

Lemma make_display_shows columns n d : 0 <= columns -> 0 <= n -> make_display columns n = Ok d -> shows d (blank_screen columns n).
Proof.
  intros Hc Hn. unfold make_display, checked_text_display_cell_count. munfold_goal.
  destruct (Z.eqb_spec columns 0); [done|]. destruct (Z.eqb_spec n 0); [done|]. cbn [orb].
  destruct (Z.ltb_spec ((W64 - 1) / n) columns) as [|Hle]; [done|]. intros [= <-].
  assert (columns * n <= W64 - 1) by (pose proof (Z.mul_div_le (W64 - 1) n ltac:(lia)); nia).
  unfold mul64. rewrite wrap64_small by (unfold u64; nia). split; cbn; try done; try lia.
  - unfold blank_row. rewrite Z2Nat.inj_mul by lia. clear. rewrite Nat.mul_comm. induction (Z.to_nat n) as [|m IH]; [done|].
    cbn. by rewrite replicate_add, IH.
  - apply Forall_replicate. unfold blank_row. apply lenZ_replicate. lia.
  - apply lenZ_replicate. lia.
Qed.

(** Lines read back are the rows' characters. *)
Lemma collect_map {A B} (f : A -> res B) (g : A -> B) xs : (forall x, x ∈ xs -> f x = Ok (g x)) -> collect f xs = Ok (map g xs).
Proof.
  induction xs as [|x xs IH]; intros Hf; [done|]. cbn [collect map]. rewrite (Hf x) by (by left). munfold_goal.
  rewrite IH; [done|]. intros y Hy. apply Hf. by right.
Qed.
Lemma map_seqZ_list {A B} (f : Z -> B) (g : A -> B) (l : list A) : (forall i x, l !! i = Some x -> f (Z.of_nat i) = g x) ->
  map f (seqZ 0 (lenZ l)) = map g l.
Proof.
  intros Hf. apply list_eq. intros i. change (map f) with (fmap f : list Z -> list B). change (map g) with (fmap g : list A -> list B).
  rewrite !list_lookup_fmap. destruct (l !! i) as [x|] eqn:E.
  - pose proof (lookup_lt_Some _ _ _ E). rewrite lookup_seqZ_lt by (unfold lenZ; lia). cbn. f_equal. by apply Hf.
  - apply lookup_ge_None in E. rewrite lookup_seqZ_ge by (unfold lenZ; lia). done.
Qed.
Lemma line_shows d s i r : shows d s -> rows s !! i = Some r -> line (Z.of_nat i) d = Ok (map cell_character r).
Proof.
  intros Hs Hi. pose proof (shows_lengths d s Hs) as [Hw Hl]. destruct Hs as [Hc Hn Hcells Hws Hr Hcc Hcr Hsc Hac Har].
  pose proof (lookup_lt_Some _ _ _ Hi) as Hlt. unfold lenZ in Hr. unfold line.
  rewrite (proj2 (Z.leb_gt _ _)) by lia. pose proof (proj1 (Forall_lookup _ _) Hws i r Hi) as Hlr. cbn in Hlr. rewrite <- Hlr.
  rewrite (collect_map _ (fun c => cell_character (nth (Z.to_nat c) r blank_cell))).
  - f_equal. apply map_seqZ_list. intros j x Hj. by rewrite Nat2Z.id, (nth_lookup_Some _ _ _ _ Hj).
  - intros c Hcin. apply elem_of_seqZ in Hcin. unfold cell_at. munfold_goal. rewrite cell_index_ok by lia. do 2 f_equal.
    rewrite !nth_lookup, Hcells. f_equal.
    replace (Z.to_nat _) with (i * Z.to_nat (column_count d) + Z.to_nat c)%nat by nia.
    rewrite concat_lookup by (done || lia). by rewrite Hi.
Qed.
Lemma lines_shows d s : shows d s -> lines d = Ok (map (map cell_character) (rows s)).
Proof.
  intros Hs. unfold lines. rewrite <- (shows_rows d s Hs).
  rewrite (collect_map _ (fun i => map cell_character (nth (Z.to_nat i) (rows s) []))).
  - f_equal. apply map_seqZ_list. intros i r Hi. by rewrite Nat2Z.id, (nth_lookup_Some _ _ _ _ Hi).
  - intros i Hi. apply elem_of_seqZ in Hi. destruct (lookup_lt_is_Some_2 (rows s) (Z.to_nat i)) as [r Hr]; [unfold lenZ in Hi; lia|].
    rewrite (nth_lookup_Some _ _ _ _ Hr). rewrite <- (Z2Nat.id i) at 1 by lia. by apply (line_shows d s).
Qed.

(** C30. The display refines a screen of rows: whatever text is written to a display made with a valid
    geometry, no cell access is out of range, and the lines read back are those of the screen on
    which the text is typed row by row, a new blank row replacing the first when the last one is left. *)
Theorem display_refines_screen columns n d text : 0 <= columns -> 0 <= n -> make_display columns n = Ok d ->
  exists d', write_string text d = (d', Ok tt) /\ lenZ (cells d') = columns * n /\
    let s := foldl (show_char columns) (blank_screen columns n) text in
    lines d' = Ok (map (map cell_character) (rows s)) /\ cursor_column d' = at_column s /\ cursor_row d' = at_row s /\
    0 <= at_column s < columns /\ 0 <= at_row s < n.
Proof.
  intros Hc Hn E. pose proof (make_display_shows columns n d Hc Hn E) as Hs.
  assert (Hd : column_count d = columns /\ row_count d = n).
  { revert E. unfold make_display. munfold_goal. destruct (checked_text_display_cell_count _ _); [|done]. by intros [= <-]. }
  destruct Hd as [<- <-]. destruct (write_string_shown text d _ Hs) as (d' & Ed & Hs' & Hcols & Hrows). exists d'. split; [done|].
  destruct (shows_lengths d' _ Hs') as [_ Hl]. rewrite Hcols, Hrows in Hl. split; [done|]. split; [by apply lines_shows|].
  destruct Hs'. rewrite Hcols, Hrows in *. done.
Qed.
Lemma display_refines_screen_witness :
  exists d, make_display 3 2 = Ok d /\ exists d', write_string [97; 98; 99; 100; 10; 8; 101; 102; 103] d = (d', Ok tt) /\ lenZ (cells d') = 6 /\
    lines d' = Ok [[100; 32; 101]; [102; 103; 32]].
Proof.
  destruct (make_display 3 2) as [d|] eqn:E; [|discriminate]. exists d. split; [reflexivity|].
  destruct (display_refines_screen 3 2 d [97; 98; 99; 100; 10; 8; 101; 102; 103] ltac:(lia) ltac:(lia) E) as (d' & Ed & Hl & Hr & _).
  exists d'. split; [exact Ed|]. split; [exact Hl|]. rewrite Hr. vm_compute. reflexivity.
Defined.
