(* ===== verification/Console.v ===== *)
(** * Console

    Models src/os/tty/console.cpp: the line discipline between the keyboard of a terminal and the
    threads that read.  Typed characters are echoed and edited in the current line; the key that ends
    it moves the line to the ready input, from which readers take bytes in order; a reader that finds
    none waits in a queue, and each completed line takes one reader out of it.  The readers are threads
    of the store of Thread.v; the kernel makes those a submission returns runnable. *)

From S2P Require Import Prelude Logic Common CpuState Thread WaitQueue Terminal.

(* [include/mnos/os/tty/console.hpp] [ConsoleReadStatus] *)
Inductive ConsoleReadStatus : Set := READY | BLOCKED | COUNT.
(* [include/mnos/os/tty/console.hpp] [ConsoleReadResult] *)
Record ConsoleReadResult : Set := mkConsoleRead { read_status : ConsoleReadStatus; read_byte_count : Z }.
#[export] Instance ConsoleReadStatus_eq_dec : EqDecision ConsoleReadStatus.
Proof. solve_decision. Defined.
(* [src/os/tty/console.cpp] [ConsoleReadResult::ready] *)
Definition read_ready (byte_count : Z) : ConsoleReadResult := mkConsoleRead READY byte_count.
(* [src/os/tty/console.cpp] [ConsoleReadResult::blocked] *)
Definition read_blocked : ConsoleReadResult := mkConsoleRead BLOCKED 0.
(* [src/os/tty/console.cpp] [ConsoleReadResult::is_blocked] *)
Definition read_is_blocked (r : ConsoleReadResult) : bool := bool_decide (read_status r = BLOCKED).

(* [include/mnos/os/tty/console.hpp] [Console] *)
Record Console : Type := mkConsole {
  terminal : TerminalDevice;
  current_line : list Z;
  ready_input : list Z;
  input_waiters : WaitQueue;
}.
Definition set_current_line (l : list Z) (c : Console) : Console := mkConsole (terminal c) l (ready_input c) (input_waiters c).
Definition set_ready_input (l : list Z) (c : Console) : Console := mkConsole (terminal c) (current_line c) l (input_waiters c).
Abbreviation ConsoleM A := (QueueM Console A).
Definition on_terminal {A} : M TerminalDevice A -> ConsoleM A :=
  zoom (fun s => terminal s.2) (fun t s => (s.1, mkConsole t (current_line s.2) (ready_input s.2) (input_waiters s.2))).
Definition on_waiters {A} : QueueM WaitQueue A -> ConsoleM A :=
  zoom (fun s => (s.1, input_waiters s.2))
       (fun q s => (q.1, mkConsole (terminal s.2) (current_line s.2) (ready_input s.2) q.2)).

(** ** Operations *)

(* [src/os/tty/console.cpp] [Console::Console] *)
Definition make_console (t : TerminalDevice) : Console := mkConsole t [] [] (mkWaitQueue []).
(* [src/os/tty/console.cpp] [Console::clear] *)
Definition clear : ConsoleM unit :=
  on_terminal clear_display ≫= fun _ =>
  on_terminal (on_keyboard (modify keyboard_clear)) ≫= fun _ =>
  on_queue (fun c => set_ready_input [] (set_current_line [] c)).
(* [src/os/tty/console.cpp] [Console::write] *)
Definition write (text : list Z) : ConsoleM unit := on_terminal (write_output text).
(** The bytes copied to a destination of [n], front first; what is left stays. *)
(* [src/os/tty/console.cpp] [Console::copy_ready_input] *)
Definition copy_ready_input (n : Z) : ConsoleM (list Z) := fun s =>
  let byte_count := Z.to_nat (Z.min n (lenZ (ready_input s.2))) in
  ((s.1, set_ready_input (drop byte_count (ready_input s.2)) s.2), Ok (take byte_count (ready_input s.2))).
(** A read into a destination of [n] bytes returns the bytes with the result. *)
(* [src/os/tty/console.cpp] [Console::read] *)
Definition read (n : Z) (thread : ThreadRef) : ConsoleM (list Z * ConsoleReadResult) :=
  get ≫= fun s =>
  if negb (bool_decide (ready_input s.2 = [])) || (n =? 0) then
    copy_ready_input n ≫= fun bytes => mret (bytes, read_ready (lenZ bytes))
  else
    (if negb (Wait.contains thread (input_waiters s.2)) then on_waiters (Wait.wait thread) else mret tt) ≫= fun _ =>
    mret ([], read_blocked).
(* [src/os/tty/console.cpp] [Console::handle_printable] *)
Definition handle_printable (event : Z) : ConsoleM unit :=
  on_queue (fun c => set_current_line (current_line c ++ [event]) c) ≫= fun _ =>
  on_terminal (write_output [event]).
(* [src/os/tty/console.cpp] [Console::handle_enter] *)
Definition handle_enter : ConsoleM bool :=
  on_queue (fun c => set_ready_input (ready_input c ++ current_line c) c) ≫= fun _ =>
  on_queue (fun c => set_ready_input (ready_input c ++ [TERMINAL_NEWLINE_CHARACTER]) c) ≫= fun _ =>
  on_queue (set_current_line []) ≫= fun _ =>
  on_terminal (write_output [TERMINAL_NEWLINE_CHARACTER]) ≫= fun _ =>
  mret true.
(* [src/os/tty/console.cpp] [Console::handle_backspace] *)
Definition handle_backspace : ConsoleM unit :=
  get ≫= fun s =>
  if bool_decide (current_line s.2 = []) then mret tt
  else
    on_queue (fun c => set_current_line (removelast (current_line c)) c) ≫= fun _ =>
    on_terminal (write_output [TERMINAL_BACKSPACE_CHARACTER]).
(* [src/os/tty/console.cpp] [Console::handle_key_event] *)
Definition handle_key_event (event : Z) : ConsoleM bool :=
  if is_enter event then handle_enter
  else if is_backspace event then handle_backspace ≫= fun _ => mret false
  else
    (if is_printable_ascii event then handle_printable event else mret tt) ≫= fun _ => mret false.
(** The loop over the lines completed; [readers] are those pushed so far. *)
Fixpoint wake_loop (lines : nat) (readers : list ThreadRef) : ConsoleM (list ThreadRef) :=
  match lines with
  | O => mret readers
  | S lines' =>
      get ≫= fun s =>
      if bool_decide (ready_input s.2 = []) then mret readers
      else
        on_waiters Wait.wake_one ≫= fun reader =>
        match reader with
        | None => mret readers
        | Some p => wake_loop lines' (readers ++ [p])
        end
  end.
(* [src/os/tty/console.cpp] [Console::wake_ready_readers] *)
Definition wake_ready_readers (completed_line_count : Z) : ConsoleM (list ThreadRef) :=
  wake_loop (Z.to_nat completed_line_count) [].
(** The loop over the events, counting the lines they complete. *)
Fixpoint handle_key_events (completed_line_count : Z) (events : list Z) : ConsoleM Z :=
  match events with
  | [] => mret completed_line_count
  | event :: rest =>
      handle_key_event event ≫= fun completed =>
      handle_key_events (if completed : bool then completed_line_count + 1 else completed_line_count) rest
  end.
(* [src/os/tty/console.cpp] [Console::submit_input] *)
Definition submit_input (text : list Z) : ConsoleM (list ThreadRef) :=
  on_terminal (Terminal.submit_input text) ≫= fun _ =>
  on_terminal drain_input ≫= fun events =>
  handle_key_events 0 events ≫= fun completed_line_count =>
  wake_ready_readers completed_line_count.

(** ** What is typed *)

(** A line as it is after the keys that edit it. *)
Definition edit_key (l : list Z) (key : Z) : list Z :=
  if is_backspace key then removelast l else if is_printable_ascii key then l ++ [key] else l.
Definition edited (keys : list Z) : list Z := foldl edit_key [] keys.
(** The keys of each line that was ended, and those of the line that was not. *)
Fixpoint typed_lines (keys : list Z) : list (list Z) * list Z :=
  match keys with
  | [] => ([], [])
  | key :: rest =>
      let '(ended, open) := typed_lines rest in
      if is_enter key then ([] :: ended, open)
      else match ended with
           | [] => ([], key :: open)
           | l :: ended' => ((key :: l) :: ended', open)
           end
  end.
(** The bytes that readers are to receive. *)
Definition input_of (keys : list Z) : list Z :=
  concat (map (fun l => edited l ++ [TERMINAL_NEWLINE_CHARACTER]) (typed_lines keys).1).
(** The characters a keyboard queue that is empty accepts. *)
Definition accepted (capacity : Z) (text : list Z) : list Z :=
  if capacity =? TERMINAL_UNBOUNDED_KEYBOARD_CAPACITY then text else take (Z.to_nat capacity) text.

Lemma typed_lines_snoc keys key : typed_lines (keys ++ [key]) =
  if is_enter key then ((typed_lines keys).1 ++ [(typed_lines keys).2], [])
  else ((typed_lines keys).1, (typed_lines keys).2 ++ [key]).
Proof.
  induction keys as [|k keys IH]; cbn [app typed_lines]; [by destruct (is_enter key)|]. rewrite IH.
  destruct (typed_lines keys) as [ended open]. cbn [fst snd].
  destruct (is_enter key), (is_enter k); cbn [fst snd]; try done; destruct ended; done.
Qed.
Lemma edited_snoc keys key : edited (keys ++ [key]) = edit_key (edited keys) key.
Proof. unfold edited. by rewrite foldl_app. Qed.
Lemma input_of_snoc keys key : input_of (keys ++ [key]) =
  if is_enter key then input_of keys ++ edited (typed_lines keys).2 ++ [TERMINAL_NEWLINE_CHARACTER] else input_of keys.
Proof.
  unfold input_of. rewrite typed_lines_snoc. destruct (is_enter key); [|done]. cbn [fst].
  rewrite map_app, concat_app. cbn. by rewrite app_nil_r.
Qed.

(** ** The keyboard and the display *)

Lemma submit_loop_fills capacity d out : capacity <> 0 -> forall text events n, lenZ events <= capacity ->
  (submit_loop n text (mkTerminal d (mkKeyboard capacity events) out)).1 =
    mkTerminal d (mkKeyboard capacity (events ++ take (Z.to_nat (capacity - lenZ events)) text)) out /\
  is_Ok (submit_loop n text (mkTerminal d (mkKeyboard capacity events) out)).2 = true.
Proof.
  intros Hc text. induction text as [|c text IH]; intros events n Hl.
  - rewrite take_nil, app_nil_r. done.
  - cbn [submit_loop]. unfold on_keyboard, push, has_capacity. munfold_goal. cbn [keyboard keyboard_capacity keyboard_events].
    rewrite (proj2 (Z.eqb_neq _ _)) by done. cbn [orb]. destruct (Z.ltb_spec (lenZ events) capacity); cbn [negb display output_stream].
    + destruct (IH (events ++ [c]) (n + 1)) as [-> ->]; [rewrite lenZ_app; unfold lenZ at 2; cbn; lia|]. split; [|done].
      rewrite <- app_assoc, lenZ_app. change (lenZ [c]) with 1.
      replace (Z.to_nat (capacity - lenZ events)) with (S (Z.to_nat (capacity - (lenZ events + 1)))) by lia. done.
    + replace (capacity - lenZ events) with 0 by lia. cbn. by rewrite app_nil_r.
Qed.
Lemma submit_loop_unbounded d out : forall text events n,
  (submit_loop n text (mkTerminal d (mkKeyboard 0 events) out)).1 = mkTerminal d (mkKeyboard 0 (events ++ text)) out /\
  is_Ok (submit_loop n text (mkTerminal d (mkKeyboard 0 events) out)).2 = true.
Proof.
  intros text. induction text as [|c text IH]; intros events n; [by rewrite app_nil_r|].
  cbn [submit_loop]. unfold on_keyboard, push, has_capacity. munfold_goal. cbn [keyboard keyboard_capacity keyboard_events Z.eqb orb negb display output_stream].
  destruct (IH (events ++ [c]) (n + 1)) as [-> ->]. by rewrite <- app_assoc.
Qed.
Lemma submit_input_accepts capacity text d out : 0 <= capacity -> exists n,
  Terminal.submit_input text (mkTerminal d (mkKeyboard capacity []) out) =
  (mkTerminal d (mkKeyboard capacity (accepted capacity text)) out, Ok n).
Proof.
  intros Hc. unfold Terminal.submit_input, accepted. destruct (Z.eqb_spec capacity 0) as [->|Hne].
  - destruct (submit_loop_unbounded d out text [] 0) as [E Hok]. destruct (submit_loop 0 text _) as [t [n|]]; [|done].
    exists n. cbn in E. by rewrite E.
  - destruct (submit_loop_fills capacity d out Hne text [] 0) as [E Hok]; [done|]. destruct (submit_loop 0 text _) as [t [n|]]; [|done].
    exists n. cbn [fst] in E. rewrite E. cbn [app]. by rewrite Z.sub_0_r.
Qed.
Lemma drain_loop_all capacity : forall events fuel, (length events < fuel)%nat ->
  drain_loop fuel (mkKeyboard capacity events) = (mkKeyboard capacity [], Ok events).
Proof.
  induction events as [|e events IH]; intros fuel Hf; (destruct fuel as [|fuel]; [simpl in Hf; lia|]); [done|].
  cbn [drain_loop]. unfold pop. munfold_goal. cbn [keyboard_events keyboard_capacity]. rewrite IH by (simpl in Hf; lia). done.
Qed.

(** Between calls the keyboard queue is empty and the display is one that shows a screen. *)
Definition quiet (capacity : Z) (c : Console) : Prop :=
  keyboard (terminal c) = mkKeyboard capacity [] /\ exists s, shows (display (terminal c)) s.
(** A console that differs from [c] in its terminal at most, with [echo] more on its output. *)
Definition echoed (echo : list Z) (c c' : Console) : Prop :=
  current_line c' = current_line c /\ ready_input c' = ready_input c /\ input_waiters c' = input_waiters c /\
  output_stream (terminal c') = output_stream (terminal c) ++ echo.

Lemma write_echoes capacity text ts c : quiet capacity c ->
  exists c', on_terminal (write_output text) (ts, c) = ((ts, c'), Ok tt) /\ quiet capacity c' /\ echoed text c c'.
Proof.
  intros [Hk [s Hs]]. destruct (write_string_shown text _ s Hs) as (d' & E & Hs' & _).
  unfold on_terminal, write_output, on_display, on_stream. munfold_goal. cbn [fst snd]. rewrite E. eexists. split; [reflexivity|].
  split; [|done]. split; [done|]. eexists. exact Hs'.
Qed.
(** One key: the line discipline on the current line and the ready input. *)
Lemma handle_key_event_run capacity event ts c : quiet capacity c -> exists c',
  handle_key_event event (ts, c) = ((ts, c'), Ok (is_enter event)) /\ quiet capacity c' /\ input_waiters c' = input_waiters c /\
  current_line c' = (if is_enter event then [] else edit_key (current_line c) event) /\
  ready_input c' = (if is_enter event then ready_input c ++ current_line c ++ [TERMINAL_NEWLINE_CHARACTER] else ready_input c).
Proof.
  intros Hq. unfold handle_key_event, edit_key. destruct (is_enter event) eqn:Ee.
  - unfold handle_enter, on_queue. munfold_goal. cbn [fst snd].
    match goal with |- context [on_terminal ?m (ts, ?c1)] => destruct (write_echoes capacity [10] ts c1 Hq) as (c' & E & Hq' & H1 & H2 & H3 & _) end.
    rewrite E. exists c'. rewrite H1, H2, H3, (app_assoc (ready_input c)). done.
  - destruct (is_backspace event) eqn:Eb.
    + unfold handle_backspace, on_queue. munfold_goal. cbn [fst snd]. case_bool_decide as Hl; [exists c; by rewrite Hl|]. cbn [fst snd].
      match goal with |- context [on_terminal ?m (ts, ?c1)] => destruct (write_echoes capacity [8] ts c1 Hq) as (c' & E & Hq' & H1 & H2 & H3 & _) end.
      rewrite E. exists c'. by rewrite H1, H2, H3.
    + destruct (is_printable_ascii event) eqn:Ep; [|by exists c]. unfold handle_printable, on_queue. munfold_goal. cbn [fst snd].
      match goal with |- context [on_terminal ?m (ts, ?c1)] => destruct (write_echoes capacity [event] ts c1 Hq) as (c' & E & Hq' & H1 & H2 & H3 & _) end.
      rewrite E. exists c'. by rewrite H1, H2, H3.
Qed.

(** ** The console between its two ends *)

(** After [keys] have been typed and [given] has been read. *)
Record reached (capacity : Z) (keys given : list Z) (c : Console) : Prop := {
  reached_quiet : quiet capacity c;
  reached_line : current_line c = edited (typed_lines keys).2;
  reached_input : given ++ ready_input c = input_of keys;
}.

Lemma handle_key_events_run capacity given : forall events keys n ts c, reached capacity keys given c -> exists c',
  handle_key_events n events (ts, c) = ((ts, c'), Ok (n + lenZ (filter (fun e => is_enter e = true) events))) /\
  reached capacity (keys ++ events) given c' /\ input_waiters c' = input_waiters c /\
  (length (ready_input c) + length (filter (fun e => is_enter e = true) events) <= length (ready_input c'))%nat.
Proof.
  induction events as [|e events IH]; intros keys n ts c Hr.
  - exists c. rewrite app_nil_r. cbn. by rewrite Z.add_0_r, Nat.add_0_r.
  - cbn [handle_key_events]. destruct Hr as [Hq Hl Hi]. destruct (handle_key_event_run capacity e ts c Hq) as (c1 & E & Hq1 & Hw1 & Hl1 & Hr1).
    assert (Hr' : reached capacity (keys ++ [e]) given c1).
    { split; [done| |].
      - rewrite Hl1, Hl, typed_lines_snoc. destruct (is_enter e); cbn [snd]; [done|]. by rewrite edited_snoc.
      - rewrite Hr1, input_of_snoc. destruct (is_enter e); [|done]. by rewrite <- Hi, Hl, <- app_assoc. }
    unfold mbind, M_bind. rewrite E. destruct (IH (keys ++ [e]) (if is_enter e then n + 1 else n) ts c1 Hr') as (c2 & E2 & Hr2 & Hw2 & Hlen).
    exists c2. rewrite E2, filter_cons, <- app_assoc in *. split_and!; [|done|congruence|].
    + do 2 f_equal. destruct (is_enter e); case_decide; try done; unfold lenZ; cbn [length]; lia.
    + rewrite Hr1 in Hlen. destruct (is_enter e); case_decide; try done; rewrite ?length_app in Hlen; cbn [length] in *; lia.
Qed.
Lemma on_waiters_state {A} (m : QueueM WaitQueue A) s : (on_waiters m s).1.2 =
  mkConsole (terminal s.2) (current_line s.2) (ready_input s.2) (m (s.1, input_waiters s.2)).1.2.
Proof. unfold on_waiters, zoom. by destruct (m _). Qed.
(** Readers are woken oldest first, one for each completed line while there are any. *)
Lemma wake_loop_run : forall n readers ts c, ready_input c <> [] -> exists q',
  wake_loop n readers (ts, c) = ((ts, mkConsole (terminal c) (current_line c) (ready_input c) q'),
    Ok (readers ++ take n (Wait.live ts (input_waiters c)))) /\ Wait.live ts q' = drop n (Wait.live ts (input_waiters c)).
Proof.
  induction n as [|n IH]; intros readers ts c Hne.
  - exists (input_waiters c). cbn [wake_loop]. rewrite take_0, app_nil_r. by destruct c.
  - cbn [wake_loop]. munfold_goal. cbn [fst snd]. rewrite bool_decide_false by done.
    destruct (Wait.wake_one_live ts (input_waiters c)) as (q1 & E & Hl & _). unfold on_waiters, zoom. cbn [fst snd]. rewrite E. cbn [fst snd].
    destruct (Wait.live ts (input_waiters c)) as [|p ps] eqn:El; cbn [head tail].
    + exists q1. by rewrite app_nil_r.
    + destruct (IH (readers ++ [p]) ts (mkConsole (terminal c) (current_line c) (ready_input c) q1) Hne) as (q2 & E2 & Hl2).
      cbn [head]. unfold head. rewrite E2. exists q2. cbn [input_waiters] in *. rewrite Hl in *. split; [|done]. by rewrite <- app_assoc.
Qed.

(** ** Theorems *)

(** What a client does; a read is into a destination of [n] bytes. *)
Inductive console_request : Set :=
  | Submit (text : list Z)
  | ReadInto (n : Z) (thread : ThreadRef)
  | Print (text : list Z).
(** The bytes it gets. *)
Definition console_serve (q : console_request) : ConsoleM (list Z) :=
  match q with
  | Submit text => submit_input text ≫= fun _ => mret []
  | ReadInto n thread => read n thread ≫= fun r => mret r.1
  | Print text => write text ≫= fun _ => mret []
  end.
Definition keys_of (capacity : Z) (qs : list console_request) : list Z :=
  concat (map (fun q => match q with Submit text => accepted capacity text | _ => [] end) qs).
Definition given_by (replies : list (res (list Z))) : list Z :=
  concat (map (fun r => match r with Ok bytes => bytes | Throw _ => [] end) replies).

Lemma submit_input_run capacity keys given text ts c : 0 <= capacity -> reached capacity keys given c -> exists c',
  submit_input text (ts, c) =
    ((ts, c'), Ok (take (length (typed_lines (accepted capacity text)).1) (Wait.live ts (input_waiters c)))) /\
  reached capacity (keys ++ accepted capacity text) given c' /\
  Wait.live ts (input_waiters c') = drop (length (typed_lines (accepted capacity text)).1) (Wait.live ts (input_waiters c)).
Proof.
  intros Hcap Hr. pose proof Hr as [[Hk [s Hs]] Hl Hi]. unfold submit_input, on_terminal. munfold_goal. cbn [fst snd].
  destruct (terminal c) as [d k out] eqn:Et. cbn [keyboard display] in *. subst k.
  destruct (submit_input_accepts capacity text d out Hcap) as [n E]. rewrite E. cbn [fst snd terminal].
  unfold drain_input, on_keyboard, drain. munfold_goal. cbn [keyboard keyboard_events]. rewrite drain_loop_all by lia.
  cbn [fst snd terminal current_line ready_input input_waiters display output_stream].
  set (c1 := mkConsole _ _ _ _). assert (Hr1 : reached capacity keys given c1) by (split; [split; [done|by exists s]|done..]).
  destruct (handle_key_events_run capacity given (accepted capacity text) keys 0 ts c1 Hr1) as (c2 & E2 & Hr2 & Hw2 & Hlen).
  rewrite E2. unfold wake_ready_readers. rewrite Z.add_0_l.
  assert (Hcount : forall ks, length (filter (fun e => is_enter e = true) ks) = length (typed_lines ks).1).
  { clear. intros ks. induction ks as [|k ks IH]; [done|]. rewrite filter_cons. cbn [typed_lines].
    destruct (typed_lines ks) as [ended open]. cbn [fst] in IH. destruct (is_enter k); case_decide; try done; cbn [length fst].
    - by rewrite IH.
    - rewrite IH. by destruct ended. }
  rewrite Hcount in Hlen. unfold lenZ. rewrite Hcount, Nat2Z.id. destruct (typed_lines (accepted capacity text)).1 as [|l ls] eqn:El.
  - exists c2. cbn. rewrite Hw2. done.
  - destruct (wake_loop_run (length (l :: ls)) [] ts c2) as (q & E3 & Hlive).
    { intros E0. rewrite E0 in Hlen. cbn in Hlen. lia. }
    rewrite E3, Hw2 in *. eexists. split; [reflexivity|]. cbn [input_waiters]. split; [|exact Hlive].
    destruct Hr2 as [Hq2 Hl2 Hi2]. by split.
Qed.
Lemma console_serve_reached capacity keys given q ts c : 0 <= capacity -> reached capacity keys given c ->
  exists c', (console_serve q (ts, c)).1.2 = c' /\
    reached capacity (keys ++ keys_of capacity [q]) (given ++ given_by [(console_serve q (ts, c)).2]) c'.
Proof.
  intros Hcap Hr. eexists. split; [reflexivity|]. unfold keys_of. cbn [map concat]. rewrite app_nil_r. destruct q as [text|n p|text]; cbn [console_serve].
  - destruct (submit_input_run capacity keys given text ts c Hcap Hr) as (c' & E & Hr' & _).
    unfold mbind, M_bind. rewrite E. cbn. by rewrite app_nil_r.
  - rewrite app_nil_r. destruct Hr as [Hq Hl Hi]. unfold read, copy_ready_input. munfold_goal. cbn [fst snd].
    destruct (negb (bool_decide (ready_input c = [])) || (n =? 0)).
    + unfold given_by. cbn. rewrite app_nil_r. split; [done|done|]. cbn. by rewrite <- app_assoc, take_drop.
    + destruct (negb _); [|unfold given_by; cbn; rewrite app_nil_r; by split].
      unfold on_waiters, zoom. rewrite Wait.wait_eq. cbn [fst snd].
      destruct (_ || _); cbn; unfold given_by; cbn; rewrite app_nil_r; by split.
  - rewrite app_nil_r. destruct Hr as [Hq Hl Hi]. unfold write.
    destruct (write_echoes capacity text ts c Hq) as (c' & E & Hq' & H1 & H2 & _). unfold mbind, M_bind. rewrite E.
    unfold given_by. cbn. rewrite app_nil_r. split; congruence.
Qed.
Lemma serve_all_reached capacity : 0 <= capacity -> forall qs keys given s, reached capacity keys given s.2 ->
  reached capacity (keys ++ keys_of capacity qs) (given ++ given_by (serve_all console_serve qs s).2)
    (serve_all console_serve qs s).1.2.
Proof.
  intros Hcap. induction qs as [|q qs IH]; intros keys given [ts c] Hr.
  - unfold keys_of, given_by. cbn. by rewrite !app_nil_r.
  - destruct (console_serve_reached capacity keys given q ts c Hcap Hr) as (c' & <- & Hr'). cbn [serve_all].
    destruct (console_serve q (ts, c)) as [s1 r]. cbn [fst snd] in *. specialize (IH _ _ s1 Hr').
    destruct (serve_all console_serve qs s1) as [s2 rs]. cbn [fst snd] in *.
    unfold keys_of, given_by in *. cbn [map concat] in *. by rewrite !app_nil_r, <- !app_assoc in IH.
Qed.

(** A console made on a new terminal whose keyboard has a given capacity, 0 for none. *)
Definition new_console (d : TextDisplayBuffer) (capacity : Z) : Console :=
  make_console (mkTerminal d (set_capacity capacity (mkKeyboard 0 [])) []).
Lemma new_console_reached columns n d capacity : 0 <= columns -> 0 <= n -> make_display columns n = Ok d ->
  reached capacity [] [] (new_console d capacity).
Proof. intros Hc Hn E. split; [split; [done|]|done..]. eexists. by apply (make_display_shows columns n). Qed.

(** C31. The console is a line discipline: in any sequence of submissions, reads by any threads and
    output, the bytes the reads give, in order, followed by those still ready, are exactly the lines
    ended by what the keyboard accepted, each edited by its backspaces and rid of unprintable keys, with
    a newline after it; and the line not yet ended is held back.  How the keys were batched and how
    large the destinations were does not matter. *)
Theorem console_reads_typed_lines columns n d capacity ts qs : 0 <= columns -> 0 <= n -> make_display columns n = Ok d ->
  0 <= capacity ->
  let '((_, c), replies) := serve_all console_serve qs (ts, new_console d capacity) in
  given_by replies ++ ready_input c = input_of (keys_of capacity qs) /\
  current_line c = edited (typed_lines (keys_of capacity qs)).2.
Proof.
  intros Hc Hn E Hcap. pose proof (serve_all_reached capacity Hcap qs [] [] (ts, new_console d capacity)
    (new_console_reached columns n d capacity Hc Hn E)) as [_ Hl Hi].
  destruct (serve_all console_serve qs _) as [[ts' c] replies]. cbn in *. done.
Qed.

(** A submission completes: after any requests, submitting text returns the threads that waited
    longest and are alive, one for each line the text ends as long as there are any, and leaves the
    others waiting in their order. *)
Theorem console_submission_wakes_readers columns n d capacity ts qs text : 0 <= columns -> 0 <= n ->
  make_display columns n = Ok d -> 0 <= capacity ->
  let s := (serve_all console_serve qs (ts, new_console d capacity)).1 in
  let ended := length (typed_lines (accepted capacity text)).1 in
  let waiting := Wait.live s.1 (input_waiters s.2) in
  exists c', submit_input text s = ((s.1, c'), Ok (take ended waiting)) /\ Wait.live s.1 (input_waiters c') = drop ended waiting.
Proof.
  intros Hc Hn E Hcap. pose proof (serve_all_reached capacity Hcap qs [] [] (ts, new_console d capacity)
    (new_console_reached columns n d capacity Hc Hn E)) as Hr.
  intros s. fold s in Hr. destruct s as [ts' c] eqn:Es. cbn [fst snd] in *.
  destruct (submit_input_run capacity _ _ text ts' c Hcap Hr) as (c' & Ec & _ & Hl). by exists c'.
Qed.

(** ** Concrete instances *)

Definition demo_reader (id : Z) : ThreadContext := mkThread id TState.RUNNING make_cpu_state 0 0 0 None.
Definition demo_threads : Threads := <[10 := demo_reader 1]> (<[20 := demo_reader 2]> ∅).
(** Two readers come before anything is typed; then a line with a backspace in it, and an open one. *)
Definition demo_session : list console_request :=
  [ReadInto 8 10; ReadInto 8 20; Submit [97; 98; 8; 99; 13; 100]; ReadInto 2 10; Print [62]; ReadInto 8 20; Submit [1; 10]].

Lemma console_reads_typed_lines_witness :
  exists d, make_display 4 2 = Ok d /\
    let '((_, c), replies) := serve_all console_serve demo_session (demo_threads, new_console d 16) in
    given_by replies ++ ready_input c = [97; 99; 10; 100; 10] /\ current_line c = [].
Proof.
  destruct (make_display 4 2) as [d|] eqn:E; [|discriminate]. exists d. split; [reflexivity|].
  pose proof (console_reads_typed_lines 4 2 d 16 demo_threads demo_session ltac:(lia) ltac:(lia) E ltac:(lia)) as H.
  destruct (serve_all console_serve demo_session _) as [[ts c] replies]. exact H.
Defined.
Lemma console_submission_wakes_readers_witness :
  exists d, make_display 4 2 = Ok d /\
    let s := (serve_all console_serve (take 2 demo_session) (demo_threads, new_console d 16)).1 in
    exists c', submit_input [97; 10] s = ((s.1, c'), Ok [10]) /\ Wait.live s.1 (input_waiters c') = [20].
Proof.
  destruct (make_display 4 2) as [d|] eqn:E; [|discriminate]. exists d. split; [reflexivity|]. intros s.
  destruct (console_submission_wakes_readers 4 2 d 16 demo_threads (take 2 demo_session) [97; 10] ltac:(lia) ltac:(lia) E ltac:(lia))
    as (c' & Hs & Hl). exists c'.
  assert (Hw : Wait.live s.1 (input_waiters s.2) = [10; 20]) by (injection E as <-; vm_compute; reflexivity).
  fold s in Hs, Hl. rewrite Hw in Hs, Hl. split; [exact Hs|exact Hl].
Defined.
