(* ===== verification/FileDescriptor.v ===== *)
(** * File descriptors

    Models src/os/io/file_descriptor.cpp.  A table entry holds a shared pointer to an open file
    description, and copying a table for a child process copies the pointers, so descriptions live in
    a store, [OpenFiles], indexed by reference, and a table operation works on the store and the table
    together.  A description whose last pointer is gone stays in the store, where nothing reaches it. *)

From S2P Require Import Prelude Logic FsFormat SimpleFs Vfs.

Abbreviation FILE_DESCRIPTOR_INVALID_VALUE := (-1).
Abbreviation FILE_DESCRIPTOR_STDIN_VALUE := 0.
Abbreviation INT32_MAX := 2147483647.

(** ** Data *)

Module Device.
(* [include/mnos/os/io/file_descriptor.hpp] [FileDeviceKind] *)
Inductive FileDeviceKind : Set := TTY | VFS_FILE | COUNT.
End Device.
Abbreviation FileDeviceKind := Device.FileDeviceKind.
Module Access.
(* [include/mnos/os/io/file_descriptor.hpp] [FileAccessMode] *)
Inductive FileAccessMode : Set := READ_ONLY | WRITE_ONLY | READ_WRITE | COUNT.
End Access.
Abbreviation FileAccessMode := Access.FileAccessMode.
#[export] Instance FileDeviceKind_eq_dec : EqDecision FileDeviceKind.
Proof. solve_decision. Defined.
#[export] Instance FileAccessMode_eq_dec : EqDecision FileAccessMode.
Proof. solve_decision. Defined.

Module Io.
(* [include/mnos/os/io/file_descriptor.hpp] [IoStatus] *)
Inductive IoStatus : Set := READY | BLOCKED | BAD_DESCRIPTOR | BAD_ADDRESS | INVALID_ARGUMENT | NO_SPACE | COUNT.
(* [include/mnos/os/io/file_descriptor.hpp] [IoResult] *)
Record IoResult : Set := mkIoResult { status : IoStatus; byte_count : Z }.
(* [src/os/io/file_descriptor.cpp] [IoResult::ready] *)
Definition ready (n : Z) : IoResult := mkIoResult READY n.
(* [src/os/io/file_descriptor.cpp] [IoResult::blocked] *)
Definition blocked : IoResult := mkIoResult BLOCKED 0.
(* [src/os/io/file_descriptor.cpp] [IoResult::bad_descriptor] *)
Definition bad_descriptor : IoResult := mkIoResult BAD_DESCRIPTOR 0.
(* [src/os/io/file_descriptor.cpp] [IoResult::bad_address] *)
Definition bad_address : IoResult := mkIoResult BAD_ADDRESS 0.
(* [src/os/io/file_descriptor.cpp] [IoResult::invalid_argument] *)
Definition invalid_argument : IoResult := mkIoResult INVALID_ARGUMENT 0.
(* [src/os/io/file_descriptor.cpp] [IoResult::no_space] *)
Definition no_space : IoResult := mkIoResult NO_SPACE 0.
End Io.
Abbreviation IoResult := Io.IoResult.

(* [include/mnos/os/io/file_descriptor.hpp] [OpenFileDescription] *)
Record OpenFileDescription : Set := mkDescription {
  device_kind : FileDeviceKind;
  access_mode : FileAccessMode;
  vfs_file : option VfsFile;
}.
(** A descriptor is its number. *)
(* [include/mnos/os/io/file_descriptor.hpp] [FileDescriptorEntry] *)
Record FileDescriptorEntry : Set := mkFdEntry { entry_descriptor : Z; entry_description : option Z }.
(* [include/mnos/os/io/file_descriptor.hpp] [FileDescriptorTable] *)
Record FileDescriptorTable : Set := mkFdTable { fd_entries : list FileDescriptorEntry }.

(** The descriptions made so far. *)
Record OpenFiles : Type := mkOpenFiles { descriptions : gmap Z OpenFileDescription; next_description : Z }.
(** [std::make_shared<OpenFileDescription>(d)]. *)
Definition make_shared (d : OpenFileDescription) (f : OpenFiles) : OpenFiles * Z :=
  (mkOpenFiles (<[next_description f := d]> (descriptions f)) (next_description f + 1), next_description f).

(** ** Descriptions and entries *)

(* [src/os/io/file_descriptor.cpp] [access_mode_from_vfs_mode] *)
Definition access_mode_from_vfs_mode (mode : VfsOpenMode) : FileAccessMode :=
  match mode with
  | Mode.READ_ONLY => Access.READ_ONLY
  | Mode.WRITE_ONLY => Access.WRITE_ONLY
  | Mode.READ_WRITE => Access.READ_WRITE
  | Mode.COUNT => Access.COUNT
  end.
(* [src/os/io/file_descriptor.cpp] [OpenFileDescription::tty] *)
Definition tty_description (mode : FileAccessMode) : OpenFileDescription := mkDescription Device.TTY mode None.
(* [src/os/io/file_descriptor.cpp] [OpenFileDescription::vfs_file] *)
Definition vfs_file_description (f : VfsFile) : OpenFileDescription :=
  mkDescription Device.VFS_FILE (access_mode_from_vfs_mode (file_mode f)) (Some f).
(* [src/os/io/file_descriptor.cpp] [OpenFileDescription::readable] *)
Definition description_readable (d : OpenFileDescription) : bool :=
  bool_decide (access_mode d = Access.READ_ONLY) || bool_decide (access_mode d = Access.READ_WRITE).
(* [src/os/io/file_descriptor.cpp] [OpenFileDescription::writable] *)
Definition description_writable (d : OpenFileDescription) : bool :=
  bool_decide (access_mode d = Access.WRITE_ONLY) || bool_decide (access_mode d = Access.READ_WRITE).

(** What an entry points to. *)
Definition pointee (f : OpenFiles) (e : FileDescriptorEntry) : option OpenFileDescription :=
  r ← entry_description e; descriptions f !! r.
(* [src/os/io/file_descriptor.cpp] [FileDescriptorEntry::device_kind] *)
Definition entry_device_kind (f : OpenFiles) (e : FileDescriptorEntry) : FileDeviceKind :=
  match pointee f e with None => Device.COUNT | Some d => device_kind d end.
(* [src/os/io/file_descriptor.cpp] [FileDescriptorEntry::readable] *)
Definition entry_readable (f : OpenFiles) (e : FileDescriptorEntry) : bool :=
  match pointee f e with None => false | Some d => description_readable d end.
(* [src/os/io/file_descriptor.cpp] [FileDescriptorEntry::writable] *)
Definition entry_writable (f : OpenFiles) (e : FileDescriptorEntry) : bool :=
  match pointee f e with None => false | Some d => description_writable d end.
(** The file of an entry: [entry.description().vfs_file()]. *)
(* [src/os/io/file_descriptor.cpp] [OpenFileDescription::vfs_file #2] *)
Definition entry_vfs_file (f : OpenFiles) (e : FileDescriptorEntry) : res VfsFile :=
  match pointee f e with
  | None => Throw logic_error
  | Some d => match vfs_file d with None => Throw logic_error | Some file => Ok file end
  end.
(** A file operation changes the file in place, for every entry that points to it. *)
Definition store_vfs_file (file : VfsFile) (e : FileDescriptorEntry) (f : OpenFiles) : OpenFiles :=
  match entry_description e with
  | None => f
  | Some r => mkOpenFiles (alter (fun d => mkDescription (device_kind d) (access_mode d) (Some file)) r (descriptions f)) (next_description f)
  end.

(** ** The table *)

Abbreviation TableM A := (M (OpenFiles * FileDescriptorTable) A).
(* [src/os/io/file_descriptor.cpp] [FileDescriptorEntry::FileDescriptorEntry] *)
Definition make_tty_entry (descriptor : Z) (device_kind : FileDeviceKind) (mode : FileAccessMode) (f : OpenFiles) :
    OpenFiles * res FileDescriptorEntry :=
  if negb (bool_decide (device_kind = Device.TTY)) then (f, Throw invalid_argument)
  else let '(f', r) := make_shared (tty_description mode) f in (f', Ok (mkFdEntry descriptor (Some r))).
(* [src/os/io/file_descriptor.cpp] [FileDescriptorTable::FileDescriptorTable] *)
Definition make_table : M OpenFiles FileDescriptorTable :=
  make_tty_entry 0 Device.TTY Access.READ_ONLY ≫= fun e0 =>
  make_tty_entry 1 Device.TTY Access.WRITE_ONLY ≫= fun e1 =>
  make_tty_entry 2 Device.TTY Access.WRITE_ONLY ≫= fun e2 =>
  mret (mkFdTable [e0; e1; e2]).
Fixpoint find_entry (descriptor : Z) (es : list FileDescriptorEntry) : option FileDescriptorEntry :=
  match es with
  | [] => None
  | e :: rest => if entry_descriptor e =? descriptor then Some e else find_entry descriptor rest
  end.
(* [src/os/io/file_descriptor.cpp] [FileDescriptorTable::find] *)
Definition find (descriptor : Z) (t : FileDescriptorTable) : option FileDescriptorEntry := find_entry descriptor (fd_entries t).
(* [src/os/io/file_descriptor.cpp] [FileDescriptorTable::contains] *)
Definition contains (descriptor : Z) (t : FileDescriptorTable) : bool := bool_decide (is_Some (find descriptor t)).
(* [src/os/io/file_descriptor.cpp] [FileDescriptorTable::readable] *)
Definition readable (f : OpenFiles) (descriptor : Z) (t : FileDescriptorTable) : bool :=
  match find descriptor t with None => false | Some e => entry_readable f e end.
(* [src/os/io/file_descriptor.cpp] [FileDescriptorTable::writable] *)
Definition writable (f : OpenFiles) (descriptor : Z) (t : FileDescriptorTable) : bool :=
  match find descriptor t with None => false | Some e => entry_writable f e end.
(** The loop over the values below the largest; among one more of them than there are entries one is
    free, so that many iterations are enough (lemma [first_free_fuel]). *)
Fixpoint first_free (fuel : nat) (value : Z) (t : FileDescriptorTable) : res Z :=
  match fuel with
  | O => Throw length_error
  | S fuel' =>
      if value <? INT32_MAX then
        if contains value t then first_free fuel' (value + 1) t else Ok value
      else Throw length_error
  end.
(* [src/os/io/file_descriptor.cpp] [FileDescriptorTable::next_available_descriptor] *)
Definition next_available_descriptor (t : FileDescriptorTable) : res Z :=
  first_free (S (length (fd_entries t))) FILE_DESCRIPTOR_STDIN_VALUE t.
(* [src/os/io/file_descriptor.cpp] [FileDescriptorTable::open_vfs_file] *)
Definition open_vfs_file (file : VfsFile) : TableM Z := fun s =>
  match next_available_descriptor s.2 with
  | Throw e => (s, Throw e)
  | Ok descriptor =>
      let '(f', r) := make_shared (vfs_file_description file) s.1 in
      ((f', mkFdTable (fd_entries s.2 ++ [mkFdEntry descriptor (Some r)])), Ok descriptor)
  end.
Fixpoint erase_entry (descriptor : Z) (es : list FileDescriptorEntry) : option (list FileDescriptorEntry) :=
  match es with
  | [] => None
  | e :: rest =>
      if entry_descriptor e =? descriptor then Some rest
      else match erase_entry descriptor rest with None => None | Some rest' => Some (e :: rest') end
  end.
(* [src/os/io/file_descriptor.cpp] [FileDescriptorTable::close] *)
Definition close (descriptor : Z) : TableM bool := fun s =>
  match erase_entry descriptor (fd_entries s.2) with
  | None => (s, Ok false)
  | Some es => ((s.1, mkFdTable es), Ok true)
  end.
(* [src/os/io/file_descriptor.cpp] [file_descriptor_from_raw] *)
Definition file_descriptor_from_raw (raw_value : Z) : Z :=
  if INT32_MAX <? raw_value then FILE_DESCRIPTOR_INVALID_VALUE else raw_value.

(** ** The table as a finite map *)

Definition table_map (t : FileDescriptorTable) : gmap Z (option Z) :=
  list_to_map (map (fun e => (entry_descriptor e, entry_description e)) (fd_entries t)).
(** Descriptors are in use once, and the next description is new. *)
Record table_ok (f : OpenFiles) (t : FileDescriptorTable) : Prop := {
  table_unique : NoDup (map entry_descriptor (fd_entries t));
  table_fresh : forall r, next_description f <= r -> descriptions f !! r = None;
  table_known : forall e, e ∈ fd_entries t -> exists r, entry_description e = Some r /\ is_Some (descriptions f !! r);
}.
(** The lowest descriptor not in use. *)
Definition lowest_free (m : gmap Z (option Z)) (d : Z) : Prop :=
  0 <= d /\ m !! d = None /\ forall v, 0 <= v < d -> is_Some (m !! v).

Lemma find_table_map d t : find d t = mkFdEntry d <$> table_map t !! d.
Proof.
  unfold find, table_map. induction (fd_entries t) as [|e es IH]; [done|]. cbn [find_entry map list_to_map foldr].
  destruct (Z.eqb_spec (entry_descriptor e) d) as [<-|Hne].
  - rewrite lookup_insert_eq. by destruct e.
  - by rewrite lookup_insert_ne.
Qed.
Lemma contains_table_map d t : contains d t = bool_decide (is_Some (table_map t !! d)).
Proof. unfold contains. rewrite find_table_map. apply bool_decide_ext. by rewrite fmap_is_Some. Qed.
Lemma table_map_descriptor d t : is_Some (table_map t !! d) <-> d ∈ map entry_descriptor (fd_entries t).
Proof.
  unfold table_map. induction (fd_entries t) as [|e es IH]; cbn; [rewrite lookup_empty; set_solver|].
  rewrite lookup_insert_is_Some, IH, elem_of_cons. destruct (decide (entry_descriptor e = d)); naive_solver.
Qed.
Lemma erase_entry_spec d es : NoDup (map entry_descriptor es) ->
  match erase_entry d es with
  | None => d ∉ map entry_descriptor es
  | Some es' => d ∈ map entry_descriptor es /\ NoDup (map entry_descriptor es') /\ (forall e, e ∈ es' -> e ∈ es) /\
      table_map (mkFdTable es') = delete d (table_map (mkFdTable es))
  end.
Proof.
  induction es as [|e es IH]; cbn [erase_entry map]; intros Hn; [set_solver|]. apply NoDup_cons in Hn as [Hni Hn].
  destruct (Z.eqb_spec (entry_descriptor e) d) as [<-|Hne].
  - split_and!; [set_solver|done|set_solver|]. unfold table_map. cbn. rewrite delete_insert_id; [done|].
    apply eq_None_not_Some. intros Hs. by apply (table_map_descriptor _ (mkFdTable es)) in Hs.
  - specialize (IH Hn). destruct (erase_entry d es) as [es'|].
    + destruct IH as (Hd & Hn' & Hsub & Hm). split_and!; [set_solver| |set_solver|].
      * cbn. apply NoDup_cons. split; [|done]. intros Hin. apply Hni. apply list_elem_of_fmap in Hin as (x & Hx & Hxin).
        apply list_elem_of_fmap. exists x. split; [done|by apply Hsub].
      * unfold table_map in *. cbn. rewrite delete_insert_ne by done. f_equal. exact Hm.
    + set_solver.
Qed.

(** A run of descriptors in use from 0 is no longer than the table. *)
Lemma used_run t v : 0 <= v -> (forall w, 0 <= w < v -> is_Some (table_map t !! w)) -> v <= lenZ (fd_entries t).
Proof.
  intros Hv Hu. assert (Hsub : seqZ 0 v ⊆+ map entry_descriptor (fd_entries t)).
  { apply NoDup_submseteq; [apply NoDup_seqZ|]. intros w Hw. apply elem_of_seqZ in Hw. apply table_map_descriptor, Hu. lia. }
  apply submseteq_length in Hsub. rewrite length_seqZ, length_map in Hsub. unfold lenZ. lia.
Qed.
Lemma first_free_spec t : forall fuel v, 0 <= v -> (forall w, 0 <= w < v -> is_Some (table_map t !! w)) ->
  lenZ (fd_entries t) < v + Z.of_nat fuel ->
  match first_free fuel v t with
  | Ok d => d < INT32_MAX /\ lowest_free (table_map t) d
  | Throw e => e = length_error /\ INT32_MAX <= lenZ (fd_entries t)
  end.
Proof.
  induction fuel as [|fuel IH]; intros v Hv Hu Hf; cbn [first_free]; [pose proof (used_run t v Hv Hu); lia|].
  destruct (Z.ltb_spec v INT32_MAX); [|split; [done|]; pose proof (used_run t v Hv Hu); lia].
  rewrite contains_table_map. case_bool_decide as Hs.
  - apply IH; [lia| |lia]. intros w Hw. destruct (decide (w = v)) as [->|]; [done|]. apply Hu. lia.
  - split; [lia|]. split; [done|]. split; [by apply eq_None_not_Some|done].
Qed.
Lemma next_available_spec t :
  match next_available_descriptor t with
  | Ok d => d < INT32_MAX /\ lowest_free (table_map t) d
  | Throw e => e = length_error /\ INT32_MAX <= lenZ (fd_entries t)
  end.
Proof. apply first_free_spec; [lia|lia|unfold lenZ; lia]. Qed.
Lemma table_map_snoc es d r : d ∉ map entry_descriptor es ->
  table_map (mkFdTable (es ++ [mkFdEntry d r])) = <[d := r]> (table_map (mkFdTable es)).
Proof.
  intros Hd. unfold table_map. cbn [fd_entries]. rewrite map_app, list_to_map_app. cbn.
  symmetry. rewrite insert_empty. apply insert_union_singleton_r. apply eq_None_not_Some. intros Hs. by apply (table_map_descriptor _ (mkFdTable es)) in Hs.
Qed.

Lemma open_vfs_file_run f t file : table_ok f t ->
  match next_available_descriptor t with
  | Throw e => open_vfs_file file (f, t) = ((f, t), Throw e)
  | Ok d => exists f' t' r, open_vfs_file file (f, t) = ((f', t'), Ok d) /\ table_map t' = <[d := Some r]> (table_map t) /\
      descriptions f !! r = None /\ descriptions f' = <[r := vfs_file_description file]> (descriptions f) /\ table_ok f' t'
  end.
Proof.
  intros [Hu Hf Hk]. pose proof (next_available_spec t) as Hspec. unfold open_vfs_file. cbn [fst snd].
  destruct (next_available_descriptor t) as [d|e]; [|done]. destruct Hspec as (_ & _ & Hd & _).
  assert (Hni : d ∉ map entry_descriptor (fd_entries t)).
  { intros Hin. apply table_map_descriptor in Hin. rewrite Hd in Hin. by destruct Hin. }
  do 3 eexists. split; [reflexivity|]. destruct t as [es]. cbn [fd_entries] in *. split; [by apply table_map_snoc|].
  split; [apply Hf; lia|]. split; [reflexivity|]. split; cbn.
  - rewrite map_app. cbn. apply NoDup_app. split; [done|]. split; [|apply NoDup_singleton]. set_solver.
  - intros r Hr. rewrite lookup_insert_ne by lia. apply Hf. lia.
  - intros e Hin. apply elem_of_app in Hin as [Hin|Hin].
    + destruct (Hk e Hin) as (r & Hr & Hs). exists r. split; [done|]. apply lookup_insert_is_Some'. by right.
    + apply list_elem_of_singleton in Hin as ->. eexists. split; [done|]. by rewrite lookup_insert_eq.
Qed.

(** The files a client may open and close through a table, one after the other; opening gives the
    description a number. *)
Inductive fd_request : Type := OpenFile (file : VfsFile) | CloseFd (descriptor : Z).
Definition fd_serve (q : fd_request) : TableM (option Z) :=
  match q with
  | OpenFile file => open_vfs_file file ≫= fun d => mret (Some d)
  | CloseFd d => close d ≫= fun found => mret (if found : bool then Some d else None)
  end.
(** The specification: the map from descriptors in use to open files. *)
Definition fd_spec (q : fd_request) (m : gmap Z OpenFileDescription) (reply : option Z) (m' : gmap Z OpenFileDescription) : Prop :=
  match q with
  | OpenFile file => exists d, reply = Some d /\ 0 <= d < INT32_MAX /\ m !! d = None /\ (forall v, 0 <= v < d -> is_Some (m !! v)) /\
      m' = <[d := vfs_file_description file]> m
  | CloseFd d => reply = (if decide (is_Some (m !! d)) then Some d else None) /\ m' = delete d m
  end.
(** What the descriptors of a table give. *)
Definition open_map (s : OpenFiles * FileDescriptorTable) : gmap Z OpenFileDescription :=
  omap (fun r => r ≫= fun r => descriptions s.1 !! r) (table_map s.2).

Section opened.
Context (f : OpenFiles) (t : FileDescriptorTable) (Hok : table_ok f t).
Lemma table_map_known d x : table_map t !! d = Some x -> exists r, x = Some r /\ is_Some (descriptions f !! r).
Proof using Hok.
  intros Hx. apply elem_of_list_to_map_2 in Hx. apply list_elem_of_fmap in Hx as (e & [= -> ->] & He). by apply (table_known f t Hok).
Qed.
Lemma open_map_is_Some d : is_Some (open_map (f, t) !! d) <-> is_Some (table_map t !! d).
Proof using Hok.
  unfold open_map. rewrite lookup_omap. cbn [fst snd]. destruct (table_map t !! d) as [x|] eqn:E; [|split; intros Hs; inversion Hs; done].
  destruct (table_map_known d x E) as (r & -> & o & Ho). cbn. rewrite Ho. done.
Qed.
Lemma open_map_new f' t' d r o : table_map t' = <[d := Some r]> (table_map t) -> descriptions f !! r = None ->
  descriptions f' = <[r := o]> (descriptions f) -> open_map (f', t') = <[d := o]> (open_map (f, t)).
Proof using Hok.
  intros Ht Hr Hf. apply map_eq. intros d'. unfold open_map. cbn [fst snd]. rewrite lookup_omap, Ht, Hf.
  destruct (decide (d = d')) as [<-|Hne]; [rewrite !lookup_insert_eq; cbn; by rewrite lookup_insert_eq|].
  rewrite !lookup_insert_ne, lookup_omap by done. destruct (table_map t !! d') as [x|] eqn:E; [|done].
  destruct (table_map_known d' x E) as (r' & -> & o' & Ho). cbn. rewrite lookup_insert_ne; [done|]. congruence.
Qed.
Lemma close_run d : exists es, close d (f, t) = ((f, mkFdTable es), Ok (bool_decide (is_Some (table_map t !! d)))) /\
  table_map (mkFdTable es) = delete d (table_map t) /\ table_ok f (mkFdTable es).
Proof using Hok.
  destruct Hok as [Hu Hf Hk]. destruct t as [es]. unfold close. cbn [fst snd fd_entries]. pose proof (erase_entry_spec d es Hu) as Hs.
  destruct (erase_entry d es) as [es'|] eqn:E.
  - destruct Hs as (Hd & Hn & Hsub & Hm). exists es'. rewrite bool_decide_true by (by apply table_map_descriptor).
    split; [done|]. split; [done|]. split; [done|done|]. intros e He. by apply Hk, Hsub.
  - assert (Hnone : table_map (mkFdTable es) !! d = None).
    { apply eq_None_not_Some. by rewrite (table_map_descriptor d (mkFdTable es)). }
    exists es. rewrite bool_decide_false by (by rewrite Hnone; intros []). by rewrite delete_id.
Qed.
Lemma fd_serve_spec q : lenZ (fd_entries t) < INT32_MAX -> exists f' t' reply, fd_serve q (f, t) = ((f', t'), Ok reply) /\
  fd_spec q (open_map (f, t)) reply (open_map (f', t')) /\ table_ok f' t' /\ lenZ (fd_entries t') <= lenZ (fd_entries t) + 1.
Proof using Hok.
  intros Hl. destruct q as [file|d]; cbn [fd_serve fd_spec].
  - pose proof (open_vfs_file_run f t file Hok) as Ho. pose proof (next_available_spec t) as Hn.
    destruct (next_available_descriptor t) as [d|e] eqn:Ed; [|lia].
    destruct Ho as (f' & t' & r & E & Ht & Hr & Hf & Hok'). destruct Hn as (Hd & Hd0 & Hfree & Hused).
    exists f', t', (Some d). unfold mbind, M_bind. rewrite E. split; [done|]. split; [|split; [done|]].
    + exists d. split; [done|]. split; [lia|]. split; [|split; [|by apply (open_map_new f' t' d r)]].
      * unfold open_map. rewrite lookup_omap. cbn. by rewrite Hfree.
      * intros v Hv. by apply open_map_is_Some, Hused.
    + unfold open_vfs_file in E. cbn [snd] in E. rewrite Ed in E. destruct (make_shared _ _) as [f1 r1].
      injection E as <- <-. cbn. rewrite lenZ_app. unfold lenZ. cbn. lia.
  - destruct (close_run d) as (es & E & Hm & Hok'). exists f, (mkFdTable es), (if bool_decide (is_Some (table_map t !! d)) then Some d else None).
    unfold mbind, M_bind. rewrite E. split; [done|]. split; [split|split; [done|]].
    + destruct (decide (is_Some (open_map (f, t) !! d))) as [Hs|Hs]; rewrite open_map_is_Some in Hs.
      * by rewrite bool_decide_true.
      * by rewrite bool_decide_false.
    + apply map_eq. intros d'. unfold open_map. cbn [fst snd]. rewrite lookup_omap, Hm.
      destruct (decide (d = d')) as [<-|Hne]; [by rewrite !lookup_delete_eq|]. by rewrite !lookup_delete_ne, lookup_omap by done.
    + assert (Hsub : map entry_descriptor es ⊆+ map entry_descriptor (fd_entries t)).
      { apply NoDup_submseteq; [apply (table_unique _ _ Hok')|]. intros x Hx.
        apply (table_map_descriptor x (mkFdTable es)) in Hx. rewrite Hm in Hx. apply lookup_delete_is_Some in Hx as [_ Hx].
        by apply table_map_descriptor. }
      apply submseteq_length in Hsub. rewrite !length_map in Hsub. unfold lenZ. cbn. lia.
Qed.
End opened.

(** The replies to a sequence of requests, and the map they leave, as the specification allows. *)
Inductive fd_specs : list fd_request -> gmap Z OpenFileDescription -> list (res (option Z)) -> gmap Z OpenFileDescription -> Prop :=
  | fd_specs_nil m : fd_specs [] m [] m
  | fd_specs_cons q qs m reply m1 rs m2 : fd_spec q m reply m1 -> fd_specs qs m1 rs m2 -> fd_specs (q :: qs) m (Ok reply :: rs) m2.
Definition tty_map : gmap Z OpenFileDescription :=
  <[0 := tty_description Access.READ_ONLY]> (<[1 := tty_description Access.WRITE_ONLY]> (<[2 := tty_description Access.WRITE_ONLY]> ∅)).

(** C32. A descriptor table is a finite map: whatever files are opened and descriptors closed through
    a table that starts with the three standard streams, every request succeeds and does what it does
    on the map from the descriptors in use to open files: opening takes the lowest free descriptor,
    closing frees one descriptor and answers whether it was in use. *)
Theorem descriptor_table_refines_map (f : OpenFiles) f0 t0 qs :
  (forall r, next_description f <= r -> descriptions f !! r = None) -> make_table f = (f0, Ok t0) ->
  Z.of_nat (length qs) + 3 <= INT32_MAX ->
  let '(s, replies) := serve_all fd_serve qs (f0, t0) in fd_specs qs tty_map replies (open_map s).
Proof.
  intros Hf E Hl. assert (H0 : table_ok f0 t0 /\ open_map (f0, t0) = tty_map /\ lenZ (fd_entries t0) = 3).
  { injection E as <- <-. split; [split|split; [|done]]; cbn.
    - by apply (bool_decide_unpack _).
    - intros r Hr. rewrite !lookup_insert_ne by lia. apply Hf. lia.
    - intros e He. repeat (apply elem_of_cons in He as [->|He]; [eexists; split; [reflexivity|rewrite !lookup_insert_is_Some; cbn; naive_solver lia]|]).
      by apply elem_of_nil in He.
    - unfold open_map, tty_map, table_map. cbn. rewrite !omap_insert. cbn. rewrite omap_empty.
      repeat (rewrite lookup_insert_eq || rewrite lookup_insert_ne by lia). done. }
  destruct H0 as (Hok & <- & Hlen). assert (Hb : lenZ (fd_entries t0) + Z.of_nat (length qs) <= INT32_MAX) by lia. clear E Hl Hlen Hf.
  revert f0 t0 Hok Hb. induction qs as [|q qs IH]; intros f0 t0 Hok Hb; [constructor|].
  destruct (fd_serve_spec f0 t0 Hok q) as (f1 & t1 & reply & E & Hs & Hok1 & Hl1); [cbn in Hb; lia|].
  cbn [serve_all]. rewrite E. specialize (IH f1 t1 Hok1). destruct (serve_all fd_serve qs (f1, t1)) as [s rs].
  econstructor; [exact Hs|]. apply IH. cbn in Hb. lia.
Qed.

(** ** A concrete instance *)

Definition demo_file : VfsFile := make_file 2 Mode.READ_WRITE.
Lemma descriptor_table_refines_map_witness :
  let '(f, r) := make_table (mkOpenFiles ∅ 0) in
  exists t, r = Ok t /\
    let '(s, replies) := serve_all fd_serve [OpenFile demo_file; CloseFd 1; OpenFile demo_file; CloseFd 7] (f, t) in
    fd_specs [OpenFile demo_file; CloseFd 1; OpenFile demo_file; CloseFd 7] tty_map replies (open_map s) /\
    replies = [Ok (Some 3); Ok (Some 1); Ok (Some 1); Ok None].
Proof.
  destruct (make_table (mkOpenFiles ∅ 0)) as [f [t|e]] eqn:E; [|discriminate]. exists t. split; [reflexivity|].
  pose proof (descriptor_table_refines_map (mkOpenFiles ∅ 0) f t [OpenFile demo_file; CloseFd 1; OpenFile demo_file; CloseFd 7]
    ltac:(intros; apply lookup_empty) E ltac:(vm_compute; discriminate)) as H.
  injection E as <- <-.
  destruct (serve_all fd_serve _ _) as [s replies] eqn:Es. split; [exact H|]. vm_compute in Es. injection Es as _ <-. reflexivity.
Defined.
