(* ===== verification/AddressSpace.v ===== *)
(** * Address spaces

    Models src/os/mm/address_space.cpp: a root page table with the arena its tables come from, on a
    memory bus shared with everything else, which is threaded next to the space.  Mapping goes through
    the builder of PageTable.v; an address space is shown to refine a finite map from pages to frames
    and permissions. *)

From S2P Require Import Prelude Logic Common PhysicalMemory MemoryBus Paging PageTable Page CpuState.

(** ** Data *)

(* [include/mnos/os/mm/address_space.hpp] [AddressSpace] *)
Record AddressSpace : Set := mkSpace {
  space_root : Z;
  space_initial_next : Z;
  space_next : Z;
  space_end : Z;
}.
Definition set_space_next (next : Z) (s : AddressSpace) : AddressSpace :=
  mkSpace (space_root s) (space_initial_next s) next (space_end s).

(* [src/os/mm/address_space.cpp] [range_exceeds_address_space] *)
Definition range_exceeds_address_space (start_address byte_count : Z) : bool :=
  sub64 (W64 - 1) (sub64 byte_count 1) <? start_address.
(** Both overloads, for virtual and for physical addresses. *)
(* [src/os/mm/address_space.cpp] [AddressSpace::require_page_aligned] *)
Definition require_page_aligned (address : Z) : res unit :=
  if negb (is_page_aligned address) then Throw invalid_argument else Ok tt.
(* [src/os/mm/address_space.cpp] [AddressSpace::require_page_multiple] *)
Definition require_page_multiple (byte_count : Z) : res unit :=
  if byte_count =? 0 then Throw invalid_argument
  else if negb (is_page_aligned byte_count) then Throw invalid_argument
  else Ok tt.
(* [src/os/mm/address_space.cpp] [AddressSpace::has_available_table_pages] *)
Definition has_available_table_pages (s : AddressSpace) : bool := space_next s <? space_end s.

(** ** Operations *)

Section address_space.
Context {B : Type} `{MemoryBus B}.
Abbreviation SM A := (M (AddressSpace * B) A).

(** A builder for the space's tables is made, used, and the tables it took are recorded.  When the
    use throws, the record is not updated. *)
Definition with_builder (use : M (PageTableBuilder * B) unit) : SM PageTableBuilder := fun st =>
  let s := st.1 in
  match make_builder (space_root s) (space_next s) (space_end s) with
  | Throw e => (st, Throw e)
  | Ok builder => let '((builder', b'), r) := use (builder, st.2) in
      ((s, b'), match r with Ok _ => Ok builder' | Throw e => Throw e end)
  end.
(* [src/os/mm/address_space.cpp] [AddressSpace::update_next_free_table_address] *)
Definition update_next_free_table_address (builder : PageTableBuilder) : SM unit :=
  modify (fun st => (set_space_next (next_free_table_address builder) st.1, st.2)).
(* [src/os/mm/address_space.cpp] [AddressSpace::clear_root_table] *)
Definition clear_root : SM unit :=
  modify (fun st => (set_space_next (space_initial_next st.1) st.1, st.2)) ≫= fun _ =>
  with_builder clear_root_table ≫= fun _ => mret tt.
(** The constructor runs on the bus and gives the space. *)
(* [src/os/mm/address_space.cpp] [AddressSpace::AddressSpace] *)
Definition make_space (root next arena_end : Z) : M B AddressSpace := fun b =>
  match
    (_ ← require_page_aligned root;
     _ ← require_page_aligned next;
     _ ← require_page_aligned arena_end;
     if (arena_end <=? root) || (arena_end <? next) || (next <? root) then Throw out_of_range
     else if negb (bus_contains_range b root MM_PAGE_SIZE_BYTES) then Throw out_of_range
     else Ok tt)
  with
  | Throw e => (b, Throw e)
  | Ok _ =>
      let '((s, b'), r) := clear_root (mkSpace root next next arena_end, b) in
      (b', match r with Ok _ => Ok s | Throw e => Throw e end)
  end.
(* [src/os/mm/address_space.cpp] [AddressSpace::map_page] *)
Definition map_page (virtual_address physical_address : Z) (permissions : PagePermissions) : SM unit :=
  lift (fun _ => require_page_aligned virtual_address) ≫= fun _ =>
  lift (fun _ => require_page_aligned physical_address) ≫= fun _ =>
  with_builder (map_4k virtual_address physical_address permissions) ≫= fun builder =>
  update_next_free_table_address builder.
(* [src/os/mm/address_space.cpp] [AddressSpace::map_range] *)
Definition map_range (virtual_address physical_address byte_count : Z) (permissions : PagePermissions) : SM unit :=
  lift (fun _ => require_page_aligned virtual_address) ≫= fun _ =>
  lift (fun _ => require_page_aligned physical_address) ≫= fun _ =>
  lift (fun _ => require_page_multiple byte_count) ≫= fun _ =>
  throw_if (range_exceeds_address_space virtual_address byte_count) overflow_error ≫= fun _ =>
  throw_if (range_exceeds_address_space physical_address byte_count) overflow_error ≫= fun _ =>
  lift (fun _ => page_count_for_bytes byte_count) ≫= fun page_count =>
  for_each (seqZ 0 page_count) (fun page_index =>
    let page_offset := mul64 page_index MM_PAGE_SIZE_BYTES in
    map_page (add64 virtual_address page_offset) (add64 physical_address page_offset) permissions).
(* [src/os/mm/address_space.cpp] [AddressSpace::identity_map_range] *)
Definition identity_map_range (physical_address byte_count : Z) (permissions : PagePermissions) : SM unit :=
  map_range physical_address physical_address byte_count permissions.
(** The paging registers with the space's root loaded and paging on. *)
(* [src/os/mm/address_space.cpp] [AddressSpace::activate] *)
Definition activate (s : AddressSpace) : M CpuState unit :=
  lift (fun cpu => load_cr3 (space_root s) 0 FlushMode.FLUSH_CURRENT_CONTEXT (cpu_paging cpu)) ≫= fun p =>
  modify (set_paging p) ≫= fun _ =>
  modify (fun cpu => set_paging (enable (cpu_paging cpu)) cpu).
(* [src/os/mm/address_space.cpp] [AddressSpace::activate #2] *)
Definition activate_context (s : AddressSpace) (context_id : Z) (flush_mode : Cr3TlbFlushMode) : M CpuState unit :=
  modify (fun cpu => if negb (context_id =? 0) then set_paging (set_process_context_id_enabled true (cpu_paging cpu)) cpu else cpu) ≫= fun _ =>
  lift (fun cpu => load_cr3 (space_root s) context_id flush_mode (cpu_paging cpu)) ≫= fun p =>
  modify (set_paging p) ≫= fun _ =>
  modify (fun cpu => set_paging (enable (cpu_paging cpu)) cpu).
(** The paging state of a walk made by the space itself. *)
Definition own_paging (s : AddressSpace) : res PagingState :=
  p ← load_cr3 (space_root s) 0 FlushMode.FLUSH_CURRENT_CONTEXT make_paging_state; Ok (enable p).
(* [src/os/mm/address_space.cpp] [AddressSpace::page_translation] *)
Definition page_translation (virtual_address : Z) (access_kind : MemoryAccessKind) (privilege_level : PrivilegeLevel) :
    SM PageTranslation :=
  lift (fun st => own_paging st.1) ≫= fun paging_state =>
  zoom snd (fun b st => (st.1, b)) (translate paging_state virtual_address access_kind privilege_level).
(* [src/os/mm/address_space.cpp] [AddressSpace::set_page_permissions] *)
Definition set_page_permissions (virtual_address : Z) (permissions : PagePermissions) : SM unit :=
  lift (fun _ => require_page_aligned virtual_address) ≫= fun _ =>
  page_translation virtual_address AccessKind.READ Ring.RING0 ≫= fun translation =>
  throw_if (negb (Paging.page_size_bytes translation =? PAGE_SIZE_4K_BYTES)) logic_error ≫= fun _ =>
  lift (fun st => read_entry st.2 (leaf_entry_address translation)) ≫= fun entry =>
  zoom snd (fun b st => (st.1, b))
    (bus_write_M (leaf_entry_address translation) Size.QWORD (raw_bits (with_permissions entry permissions))).
End address_space.


(** ** Page entries *)

(** A leaf entry for frame [pa] with permissions [p], whatever its accessed and dirty bits. *)
Record page_entry (pa : Z) (p : PagePermissions) (e : PageTableEntry) : Prop := {
  pe_present : is_present e = true;
  pe_range : u64 (raw_bits e);
  pe_writable : is_writable e = p_writable p;
  pe_user : is_user_accessible e = p_user_accessible p;
  pe_no_execute : is_no_execute e = negb (p_executable p);
  pe_reserved : has_reserved_high_bits e = false;
  pe_frame i : 0 <= i -> Z.testbit (raw_bits e) i && bool_decide (12 <= i < 52) = Z.testbit pa i;
}.
Lemma leaf_page_entry pa p e : leaf_entry Level.PT pa p e -> page_entry pa p e.
Proof. intros []. by split. Qed.
Lemma page_entry_eq_ad pa p e e' : page_entry pa p e -> eq_ad e e' -> u64 (raw_bits e') -> page_entry pa p e'.
Proof.
  intros [E1 E2 E3 E4 E5 E6 E7] He Hu. split; [|done| | | | |].
  - by rewrite (eq_ad_present e e').
  - rewrite is_writable_bit in *. by rewrite (He 1).
  - rewrite is_user_accessible_bit in *. by rewrite (He 2).
  - rewrite is_no_execute_bit in *. by rewrite (He 63).
  - apply has_reserved_high_bits_false. intros i Hi. rewrite (He i) by lia. revert i Hi. by apply has_reserved_high_bits_false.
  - intros i Hi. rewrite <- E7 by done. case_bool_decide; [|by rewrite !andb_false_r]. f_equal. apply He; lia.
Qed.
Lemma with_permissions_testbit e p i : 0 <= i < 64 -> Z.testbit (raw_bits (with_permissions e p)) i =
  if decide (i = 1) then p_writable p else if decide (i = 2) then p_user_accessible p
  else if decide (i = 63) then negb (p_executable p) else Z.testbit (raw_bits e) i.
Proof.
  intros Hi. unfold with_permissions, WRITABLE_BIT, USER_BIT, NO_EXECUTE_BIT. cbn [raw_bits].
  assert (Hb : Z.testbit (let b := 0 in let b := if p_writable p then Z.lor b (Z.shiftl 1 1) else b in
    let b := if p_user_accessible p then Z.lor b (Z.shiftl 1 2) else b in
    if negb (p_executable p) then Z.lor b (Z.shiftl 1 63) else b) i =
    (p_writable p && bool_decide (i = 1)) || (p_user_accessible p && bool_decide (i = 2)) ||
    (negb (p_executable p) && bool_decide (i = 63))).
  { destruct p as [[] [] []]; cbn [p_writable p_user_accessible p_executable negb];
      rewrite ?Z.lor_spec, ?testbit_single, ?Z.bits_0 by lia; cbn [orb andb];
      destruct (bool_decide (i = 1)), (bool_decide (i = 2)), (bool_decide (i = 63)); reflexivity. }
  cbn zeta in *. rewrite Z.lor_spec, Z.land_spec, not64_spec, !Z.lor_spec, !testbit_single, Hb by lia.
  rewrite (proj2 (Z.ltb_lt i 64)) by lia.
  destruct (decide (i = 1)) as [->|]; [by destruct p as [[] [] []], (Z.testbit (raw_bits e) 1)|].
  destruct (decide (i = 2)) as [->|]; [by destruct p as [[] [] []], (Z.testbit (raw_bits e) 2)|].
  destruct (decide (i = 63)) as [->|]; [by destruct p as [[] [] []], (Z.testbit (raw_bits e) 63)|].
  rewrite !bool_decide_false by done. cbn. by rewrite !andb_false_r, andb_true_r, !orb_false_r.
Qed.
Lemma with_permissions_range e p : u64 (raw_bits e) -> u64 (raw_bits (with_permissions e p)).
Proof.
  intros Hu. unfold with_permissions. cbn [raw_bits]. apply u64_lor.
  - apply u64_land; [done|by vm_compute].
  - destruct p as [[] [] []]; by vm_compute.
Qed.
Lemma page_entry_permissions pa p p' e : page_entry pa p e -> page_entry pa p' (with_permissions e p').
Proof.
  intros [E1 E2 E3 E4 E5 E6 E7]. split.
  - rewrite is_present_bit, with_permissions_testbit in * by lia. done.
  - by apply with_permissions_range.
  - by rewrite is_writable_bit, with_permissions_testbit by lia.
  - by rewrite is_user_accessible_bit, with_permissions_testbit by lia.
  - by rewrite is_no_execute_bit, with_permissions_testbit by lia.
  - apply has_reserved_high_bits_false. intros i Hi. rewrite with_permissions_testbit by lia.
    rewrite !decide_False by lia. revert i Hi. by apply has_reserved_high_bits_false.
  - intros i Hi. rewrite <- E7 by done. case_bool_decide; [|by rewrite !andb_false_r].
    rewrite with_permissions_testbit by lia. by rewrite !decide_False by lia.
Qed.
(** The outcome of an access that reaches such an entry. *)
Lemma page_outcome ps a pa p e kind priv ea : page_entry pa p e -> pa `mod` 4096 = 0 -> u64 a ->
  leaf_outcome ps all_permissions e Level.PT a kind priv ea =
  match access_fault ps p kind priv with
  | Some reason => Throw (make_page_fault a kind priv reason)
  | None => Ok (mkTranslation (a - a `mod` 4096) pa 4096 p ea (is_dirty e || bool_decide (kind = AccessKind.WRITE)))
  end.
Proof.
  intros [E1 E2 E3 E4 E5 E6 E7] Ha Hu. destruct (frame_bits pa e 12 E7) as [Hta Hfa]; [lia|done|].
  unfold leaf_outcome, validate_reserved_bits, enforce_permissions, is_user_access,
    is_write_allowed_for_read_only_page, access_fault, apply_entry, is_large_leaf_entry. munfold_goal.
  change (page_size_for_leaf_level Level.PT) with (Ok (Z.shiftl 1 12)). cbn beta iota.
  rewrite E6, E3, E4, E5, Hfa, page_base_spec by (done || lia). change (2 ^ 12) with 4096. change (Z.shiftl 1 12) with 4096.
  destruct p as [w u x]. cbn [p_writable p_user_accessible p_executable].
  destruct (execute_disable_enabled ps), (write_protect_enabled ps), kind, priv, w, u, x; reflexivity.
Qed.

(** ** The page map *)

Abbreviation PageMap := (gmap Z (Z * PagePermissions)).
(** The page of a linear address: its number within the 48-bit space. *)
Definition page_key (a : Z) : Z := entry_key Level.PT a.
Definition builder_of (s : AddressSpace) : PageTableBuilder := mkBuilder (space_root s) (space_next s) (space_end s).

Section representation.
Context {B : Type} `{MemoryBusLaws B}.
Implicit Types (b : B) (T : gmap Z (PageTableLevel * Z)) (m : PageMap).

(** The tables say exactly what the map says. *)
Record represents T (s : AddressSpace) b m : Prop := {
  rep_tables : tables_wf T (space_root s) b;
  rep_arena : arena_wf T (builder_of s);
  rep_end : 0 < space_end s /\ space_next s <= space_end s;
  rep_size : bus_size b <= 2 ^ 52;
  rep_root : space_root s `mod` 4096 = 0;
  rep_pages a :
    match resolve b Level.PML4 (space_root s) a with
    | None => m !! page_key a = None
    | Some (l, ta, i, e) => l = Level.PT /\ exists pa p, m !! page_key a = Some (pa, p) /\ page_entry pa p e /\ pa `mod` 4096 = 0
    end;
}.

(** What the map answers to an access: the page, its frame and the permissions, or a fault. *)
Definition access_outcome (ps : PagingState) m (a : Z) (kind : MemoryAccessKind) (priv : PrivilegeLevel) : res (Z * Z * PagePermissions) :=
  if negb (is_canonical_linear_address a) then Throw out_of_range
  else match m !! page_key a with
       | None => Throw (make_page_fault a kind priv FaultReason.NOT_PRESENT)
       | Some (pa, p) =>
           match access_fault ps p kind priv with
           | Some reason => Throw (make_page_fault a kind priv reason)
           | None => Ok (a - a `mod` 4096, pa, p)
           end
       end.
(** A translation of a 4 KiB page without its leaf entry and dirty bit. *)
Definition seen (r : res PageTranslation) : res (Z * Z * PagePermissions) :=
  match r with
  | Ok t => if Paging.page_size_bytes t =? 4096 then Ok (virtual_page_base t, physical_frame_base t, permissions t) else Throw runtime_error
  | Throw e => Throw e
  end.

Lemma touched_represents T s b b' m : represents T s b m -> touched T b b' -> represents T s b' m.
Proof.
  intros [R1 R2 R3 R4 R5 R6] Ht. pose proof (touched_wf _ _ _ _ R1 Ht) as Hwf'. split; try done.
  - by rewrite (tch_size _ _ _ Ht).
  - intros a. specialize (R6 a). destruct (resolve b Level.PML4 (space_root s) a) as [[[[l ta] i] e]|] eqn:Er.
    + destruct (touched_resolve _ _ _ _ _ _ _ _ _ R1 Ht Er) as (-> & [He _] & _ & Hi & Hta).
      destruct R6 as (-> & pa & p & Hm & Hpe & Hpa). split; [done|]. exists pa, p. split; [done|]. split; [|done].
      destruct (twf_table _ _ _ Hwf' _ _ _ Hta) as [Htok _].
      destruct (ent_read b' ta i (twf_bus _ _ _ Hwf') Htok Hi) as [_ Hu]. by apply (page_entry_eq_ad pa p e).
    + by rewrite (touched_resolve_None _ _ _ _ _ R1 Ht Er).
Qed.

(** An access is answered as by the map, and leaves the tables saying the same. *)
Lemma translate_represents T s b m ps a kind priv : represents T s b m -> cr3 ps = space_root s -> u64 a ->
  represents T s (translate ps a kind priv b).1 m /\ seen (translate ps a kind priv b).2 = access_outcome ps m a kind priv /\
  forall t, (translate ps a kind priv b).2 = Ok t -> exists ta i pa p,
    leaf_entry_address t = entry_address_for_index ta i /\ path (translate ps a kind priv b).1 (space_root s) a Level.PT ta /\ i = level_index a Level.PT /\
    m !! page_key a = Some (pa, p) /\ page_entry pa p (ent (translate ps a kind priv b).1 ta i) /\ Paging.page_size_bytes t = 4096.
Proof.
  intros Hrep Hcr Hu. unfold access_outcome. destruct (is_canonical_linear_address a) eqn:Hc.
  2:{ unfold translate. munfold_goal. rewrite Hc. by split_and!. }
  pose proof Hrep as [R1 R2 R3 R4 R5 R6]. rewrite <- Hcr in R1, R6. destruct (translate_spec ps a kind priv T b R1 Hc) as (b' & Ht & Hr).
  specialize (R6 a). cbn [negb]. pose proof (touched_represents T s b b' m Hrep Ht) as Hrep'.
  destruct (resolve b Level.PML4 (cr3 ps) a) as [[[[l ta] i] e]|] eqn:Er.
  - destruct R6 as (-> & pa & p & Hm & Hpe & Hpa). destruct Hr as [E Hmark]. rewrite E. cbn [fst snd].
    split; [done|]. rewrite Hm. destruct (touched_resolve _ _ _ _ _ _ _ _ _ R1 Ht Er) as (Er' & [He _] & _ & Hi & Hta).
    destruct (resolve_inv b (cr3 ps) a Level.PML4) with (ta0 := cr3 ps) (l := Level.PT) (ta := ta)
      (i := i) (e := e) as (_ & Hpath & Hidx & _); [done|constructor|done|].
    rewrite (page_outcome ps a pa p e kind priv _ Hpe Hpa Hu) in *. destruct (access_fault ps p kind priv); [by split|]. split; [done|].
    intros t [= <-]. exists ta, i, pa, p. split; [done|]. split; [rewrite <- Hcr; by apply (touched_path T (cr3 ps) b)|]. split; [done|]. split; [done|]. split; [|done].
    destruct (twf_table _ _ _ (touched_wf _ _ _ _ R1 Ht) _ _ _ Hta) as [Htok _].
    destruct (ent_read b' ta i (tch_bus _ _ _ Ht) Htok Hi) as [_ Hu']. by apply (page_entry_eq_ad pa p e).
  - rewrite Hr. cbn [fst snd]. rewrite R6. by split_and!.
Qed.

Lemma builder_made T s b m : represents T s b m -> make_builder (space_root s) (space_next s) (space_end s) = Ok (builder_of s).
Proof.
  intros [_ Ha [He Hn] _ Hr _]. destruct (awf_end _ _ Ha) as [[_ _] Hea]. pose proof (awf_aligned _ _ Ha) as Hna. cbn in Hea, Hna.
  unfold make_builder, PAGE_SIZE_4K_BYTES. munfold_goal. rewrite !(require_aligned_ok _ 12) by (done || lia).
  rewrite (proj2 (Z.eqb_neq _ _)), (proj2 (Z.ltb_ge _ _)) by lia. done.
Qed.
Lemma space_require_ok a : require_page_aligned a = if a `mod` 4096 =? 0 then Ok tt else Throw invalid_argument.
Proof.
  unfold require_page_aligned. rewrite is_page_aligned_spec. destruct (Z.eqb_spec (a `mod` 4096) 0).
  - by rewrite bool_decide_true.
  - by rewrite bool_decide_false.
Qed.

(** The tables a step of the space may take, and the bytes it may change. *)
Record space_step T s b T' s' b' : Prop := {
  st_root : space_root s' = space_root s;
  st_end : space_end s' = space_end s;
  st_mono : T ⊆ T';
  st_new ta : is_Some (T' !! ta) -> is_Some (T !! ta) \/ space_next s <= ta /\ ta + 4096 <= space_next s';
  st_next : space_next s <= space_next s';
  st_size : bus_size b' = bus_size b;
  st_bytes x : 0 <= x -> (forall ta, is_Some (T' !! ta) -> ~ (ta <= x < ta + 4096)) -> bus_byte b' x = bus_byte b x;
}.

Lemma map_page_represents T s b m va pa p s' b' : represents T s b m -> u64 va -> u64 pa -> pa < 2 ^ 52 ->
  map_page va pa p (s, b) = ((s', b'), Ok tt) ->
  exists T', represents T' s' b' (<[page_key va := (pa, p)]> m) /\ space_step T s b T' s' b'.
Proof.
  intros Hrep Hva Hpa H52 E. pose proof Hrep as [R1 R2 [R3 R3'] R4 R5 R6].
  unfold map_page in E. munfold. rewrite !space_require_ok in E.
  destruct (Z.eqb_spec (va mod 4096) 0) as [Hval|]; [|done]. destruct (Z.eqb_spec (pa mod 4096) 0) as [Hpal|]; [|done].
  unfold with_builder in E. cbn [fst snd] in E. rewrite (builder_made T s b m Hrep) in E.
  destruct (map_4k va pa p (builder_of s, b)) as [[t' b1] [[]|]] eqn:Em; [|done]. unfold update_next_free_table_address in E. munfold.
  injection E as <- <-. cbn [fst snd].
  destruct (map_4k_spec T (builder_of s) b va pa p t' b1) as (T' & e & ta & [M1 M2 M3 M4 M5 M6 M7 [M8 [M8' M8'']] M9] & Hle); [done..|].
  cbn [builder_of root_table_address next_free_table_address table_arena_end_address] in *.
  assert (Et : builder_of (set_space_next (next_free_table_address t') s) = t').
  { unfold builder_of. cbn. rewrite <- M3, <- M8. by destruct t'. }
  exists T'. split; [split|split]; cbn [set_space_next space_root space_end space_next]; try done.
  - by rewrite Et.
  - split; [done|]. by apply M8''.
  - by rewrite M5.
  - intros a. rewrite M6. unfold page_key. case_decide as Hk.
    + split; [done|]. exists pa, p. rewrite Hk, lookup_insert_eq. split; [done|]. split; [by apply leaf_page_entry|done].
    + specialize (R6 a). unfold page_key in R6. rewrite lookup_insert_ne by congruence. exact R6.
Qed.
Lemma map_page_from_4k T s b m va pa p t' b' : represents T s b m -> va `mod` 4096 = 0 -> pa `mod` 4096 = 0 ->
  map_4k va pa p (builder_of s, b) = ((t', b'), Ok tt) ->
  map_page va pa p (s, b) = ((set_space_next (next_free_table_address t') s, b'), Ok tt).
Proof.
  intros Hrep Hval Hpal E. unfold map_page. munfold_goal. rewrite !space_require_ok, Hval, Hpal. cbn [Z.eqb].
  unfold with_builder. cbn [fst snd]. rewrite (builder_made T s b m Hrep), E. reflexivity.
Qed.
Lemma map_page_total T s b m va pa p k : represents T s b m -> u64 va -> u64 pa -> pa < 2 ^ 52 -> va `mod` 4096 = 0 -> pa `mod` 4096 = 0 ->
  0 <= k -> room (k + 3) (builder_of s) b -> exists s' b', map_page va pa p (s, b) = ((s', b'), Ok tt) /\ room k (builder_of s') b'.
Proof.
  intros Hrep Hva Hpa H52 Hval Hpal Hk Hroom. pose proof Hrep as [R1 R2 _ R4 R5 R6].
  destruct (map_4k_succeeds T (builder_of s) b va pa p k) as (t' & b' & E & Hr); try done.
  { intros l ta i e Er. specialize (R6 va). change (root_table_address (builder_of s)) with (space_root s) in Er. rewrite Er in R6. by destruct R6. }
  do 2 eexists. split; [by apply (map_page_from_4k T s b m)|]. unfold room, builder_of, arena_limit in *. cbn in *.
  destruct (map_4k_spec T (builder_of s) b va pa p t' b') as (T' & e & ta & M & _); [done..|].
  destruct (mp_step _ _ _ _ _ _ _ _ _ _ M) as [Hend _]. cbn in Hend. by rewrite Hend in Hr.
Qed.
(** A page is mapped in the 2 MiB around the address, so that all its tables exist. *)
Definition near m (va : Z) : Prop := exists a, is_Some (m !! page_key a) /\ entry_key Level.PD a = entry_key Level.PD va.
Lemma near_path T s b m va : represents T s b m -> near m va -> exists ta, path b (space_root s) va Level.PT ta.
Proof.
  intros [R1 _ _ _ _ R6] (a & [x Hx] & Hk). specialize (R6 a). destruct (resolve b Level.PML4 (space_root s) a) as [[[[l ta] i] e]|] eqn:Er; [|congruence].
  destruct R6 as [-> _]. destruct (resolve_inv b (space_root s) a Level.PML4) with (ta0 := space_root s) (l := Level.PT) (ta := ta) (i := i) (e := e)
    as (_ & Hp & _); [done|constructor|done|].
  inversion Hp as [|l t Hl Hp' Hpr Hle El]; subst. destruct l; try discriminate.
  destruct (level_index_key Level.PD Level.PD a va) as [Hi _]; [done|lia|done|done|]. rewrite Hi in Hpr, Hle.
  exists (table_address (ent b t (level_index va Level.PD))).
  apply (path_step b (space_root s) va Level.PD t); [done|by apply (path_key b (space_root s) Level.PD a)|done|done].
Qed.
Lemma map_page_near T s b m va pa p k : represents T s b m -> near m va -> u64 pa -> va `mod` 4096 = 0 -> pa `mod` 4096 = 0 ->
  room k (builder_of s) b -> exists s' b', map_page va pa p (s, b) = ((s', b'), Ok tt) /\ room k (builder_of s') b'.
Proof.
  intros Hrep Hnear Hpa Hval Hpal Hroom. destruct (near_path T s b m va Hrep Hnear) as [ta Hp].
  destruct (map_4k_existing T (builder_of s) b va pa p ta) as (b' & E & Hs); [apply Hrep|done..|].
  exists s, b'. apply (map_page_from_4k T s b m) in E; [|done..]. replace (set_space_next _ s) with s in E by by destruct s.
  split; [exact E|]. unfold room in *. by rewrite Hs.
Qed.

Lemma touched_step T s b b' : touched T b b' -> space_step T s b T s b'.
Proof. intros Ht. split; try done; [by left|apply (tch_size _ _ _ Ht)|apply (tch_other _ _ _ Ht)]. Qed.
Lemma translate_step T s b m ps a kind priv : represents T s b m -> cr3 ps = space_root s -> space_step T s b T s (translate ps a kind priv b).1.
Proof.
  intros Hrep Hcr. apply touched_step. destruct (is_canonical_linear_address a) eqn:Hc.
  - pose proof (rep_tables _ _ _ _ Hrep) as R1. rewrite <- Hcr in R1. destruct (translate_spec ps a kind priv T b R1 Hc) as (b' & Ht & Hr).
    destruct (resolve b Level.PML4 (cr3 ps) a) as [[[[l ta] i] e]|]; [destruct Hr as [-> _]|rewrite Hr]; done.
  - unfold translate. munfold_goal. rewrite Hc. apply touched_refl, (twf_bus _ _ _ (rep_tables _ _ _ _ Hrep)).
Qed.
Lemma range_exceeds_spec a n : u64 a -> 0 < n < W64 -> range_exceeds_address_space a n = (W64 <? a + n).
Proof.
  unfold u64, range_exceeds_address_space. intros Ha Hn. rewrite (sub64_small n), sub64_small by lia.
  destruct (Z.ltb_spec W64 (a + n)); [apply Z.ltb_lt|apply Z.ltb_ge]; lia.
Qed.
Lemma page_count_exact n : 0 < n <= 2 ^ 52 -> n `mod` 4096 = 0 -> page_count_for_bytes n = Ok (n / 4096).
Proof.
  intros Hn Hm. unfold page_count_for_bytes. rewrite (proj2 (Z.eqb_neq n 0)), would_overflow_spec, bool_decide_false by lia.
  f_equal. rewrite page_number_spec. change MM_PAGE_OFFSET_MASK with 4095. rewrite add64_small by lia.
  apply Z.mod_divide in Hm as [c ->]; [|lia]. rewrite Z.div_mul by lia. rewrite Z.add_comm, Z.div_add by lia. done.
Qed.
Lemma own_paging_ok s : space_root s `mod` 4096 = 0 -> exists ps, own_paging s = Ok ps /\ cr3 ps = space_root s /\ execute_disable_enabled ps = true.
Proof.
  intros Hr. unfold own_paging, load_cr3. munfold_goal. change PAGE_SIZE_4K_BYTES with (Z.shiftl 1 12). rewrite is_aligned_spec by lia.
  change (2 ^ 12) with 4096. rewrite Hr. eexists. split; [reflexivity|]. done.
Qed.
(** Changing the permissions of a page changes the map at that page; the space itself is not touched. *)
Lemma set_page_permissions_represents T s b m va p : represents T s b m -> u64 va -> va `mod` 4096 = 0 -> is_canonical_linear_address va = true ->
  exists b', represents T s b' (alter (fun x => (x.1, p)) (page_key va) m) /\ space_step T s b T s b' /\
    set_page_permissions va p (s, b) = ((s, b'), if decide (is_Some (m !! page_key va)) then Ok tt
      else Throw (make_page_fault va AccessKind.READ Ring.RING0 FaultReason.NOT_PRESENT)).
Proof.
  intros Hrep Hva Hval Hc. destruct (own_paging_ok s (rep_root T s b m Hrep)) as (ps & Eps & Hcr & Hxd).
  unfold set_page_permissions, page_translation. munfold_goal. rewrite space_require_ok, Hval. cbn [Z.eqb fst snd]. rewrite Eps. cbn beta iota.
  destruct (translate_represents T s b m ps va AccessKind.READ Ring.RING0 Hrep Hcr Hva) as (Hrep1 & Hseen & Hleaf).
  pose proof (translate_step T s b m ps va AccessKind.READ Ring.RING0 Hrep Hcr) as Hst1.
  destruct (translate ps va AccessKind.READ Ring.RING0 b) as [b1 r]. cbn [fst snd] in *.
  unfold access_outcome in Hseen. rewrite Hc in Hseen. cbn [negb] in Hseen. destruct (m !! page_key va) as [[pa p0]|] eqn:Em.
  2:{ exists b1. rewrite decide_False by (intros [? ?]; congruence). destruct r as [t|e]; cbn [seen] in Hseen.
      - by destruct (_ =? 4096).
      - injection Hseen as ->. split; [|split; [apply Hst1|done]]. replace (alter _ _ m) with m; [done|]. apply map_eq. intros k.
        destruct (decide (k = page_key va)) as [->|]; [by rewrite lookup_alter_eq, Em|by rewrite lookup_alter_ne]. }
  rewrite decide_True by by eexists.
  assert (Hna : access_fault ps p0 AccessKind.READ Ring.RING0 = None) by (unfold access_fault; by rewrite Hxd).
  rewrite Hna in Hseen. destruct r as [t|e]; [|done]. destruct (Hleaf t eq_refl) as (ta & i & pa' & p' & Hla & Hpath & -> & Hm & Hpe & Hsz).
  injection Hm as <- <-. rewrite Hla, Hsz. change (negb (4096 =? PAGE_SIZE_4K_BYTES)) with false. cbn beta iota.
  pose proof Hrep1 as [R1 R2 R3 R4 R5 R6]. pose proof (path_table _ _ _ _ _ _ R1 Hpath) as Hta.
  destruct (twf_table _ _ _ R1 _ _ _ Hta) as [Htok _]. pose proof (level_index_range va Level.PT) as Hi.
  destruct (ent_read b1 ta (level_index va Level.PT) (twf_bus _ _ _ R1) Htok Hi) as [Eread _]. rewrite Eread.
  set (e := ent b1 ta (level_index va Level.PT)) in *. pose proof (page_entry_permissions pa p0 p e Hpe) as Hpe'.
  destruct (ent_write b1 ta (level_index va Level.PT) (raw_bits (with_permissions e p)) (twf_bus _ _ _ R1) Htok Hi (pe_range _ _ _ Hpe'))
    as (b2 & Hw & _ & Hs2 & _ & Hby2). rewrite (bus_write_M_Ok _ _ _ _ _ Hw). exists b2.
  enough (represents T s b2 (alter (λ x : Z * PagePermissions, (x.1, p)) (page_key va) m)).
  { split; [done|]. split; [|done]. destruct Hst1 as [A1 A2 A3 A4 A5 A6 A7]. split; try done; [congruence|].
    intros x Hx Ho. rewrite Hby2, A7; [done..|]. apply Ho. by rewrite Hta. }
  destruct (write_leaf_spec T (builder_of s) b1 Level.PT va ta (with_permissions e p) (builder_of s) b2) as (_ & W1 & W2 & W3 & W4); try done.
  { apply (pe_present _ _ _ Hpe'). }
  { apply (pe_range _ _ _ Hpe'). }
  { unfold write_leaf_at, write_leaf_entry, write_entry, on_bus. munfold_goal. rewrite page_table_index_spec by done. cbn [snd].
    rewrite Eread, is_leaf_PT, andb_false_r. by rewrite (bus_write_M_Ok _ _ _ _ _ Hw). }
  cbn [builder_of root_table_address] in *. split; try done; [by rewrite W2|]. intros a. rewrite W4. specialize (R6 a).
  unfold page_key in *. case_decide as Hk.
  - split; [done|]. exists pa, p. rewrite Hk, lookup_alter_eq, Em. split; [done|]. split; [done|].
    specialize (rep_pages _ _ _ _ Hrep va) as Hv. unfold page_key in Hv. destruct (resolve b Level.PML4 (space_root s) va) as [[[[? ?] ?] ?]|]; [|congruence].
    destruct Hv as (_ & ? & ? & Hv & _ & Ha). rewrite Em in Hv. by injection Hv as <- <-.
  - rewrite lookup_alter_ne by congruence. exact R6.
Qed.

(** A new space maps nothing. *)
Lemma make_space_represents b root next arena_end : bus_ok b -> bus_size b <= 2 ^ 52 -> 0 <= root < next -> next <= arena_end -> arena_end < W64 ->
  root + 4096 <= bus_size b -> root `mod` 4096 = 0 -> next `mod` 4096 = 0 -> arena_end `mod` 4096 = 0 ->
  exists b', make_space root next arena_end b = (b', Ok (mkSpace root next next arena_end)) /\ bus_size b' = bus_size b /\
    represents {[root := (Level.PML4, 0)]} (mkSpace root next next arena_end) b' ∅ /\
    forall x, 0 <= x -> ~ (root <= x < root + 4096) -> bus_byte b' x = bus_byte b x.
Proof.
  intros Hok H52 Hr Hn He Hin Hra Hna Hea. assert (Htok : table_ok b root) by (split; [lia|done|lia]).
  destruct (clear_table_spec b root Hok Htok) as (b' & Hcl & Hok' & Hs & Hent & Hby).
  assert (Hrep : represents {[root := (Level.PML4, 0)]} (mkSpace root next next arena_end) b' ∅).
  { split; cbn [space_root space_end space_next]; try done; try lia.
    - apply empty_root_wf; [done|by apply (table_ok_size b)|]. intros i Hi. rewrite Hent by done. by rewrite decide_True.
    - split; cbn; [lia|done|split; [unfold u64; lia|done]|]. intros ta [x Hx]. apply lookup_singleton_Some in Hx as [<- _]. lia.
    - intros a. rewrite resolve_step by done. cbn zeta. rewrite Hent by (done || apply level_index_range). by rewrite decide_True. }
  exists b'. split; [|done]. unfold make_space. rewrite !space_require_ok, Hra, Hna, Hea. munfold_goal. cbn [Z.eqb].
  rewrite (proj2 (Z.leb_gt arena_end root)), (proj2 (Z.ltb_ge arena_end next)), (proj2 (Z.ltb_ge next root)) by lia. cbn [orb].
  assert (Hc : bus_contains_range b root MM_PAGE_SIZE_BYTES = true).
  { rewrite Page.page_size_bytes. apply bus_contains_spec; lia. }
  rewrite Hc. cbn [negb]. unfold clear_root, with_builder. munfold_goal. cbn [fst snd set_space_next space_initial_next space_root space_next space_end].
  change (mkSpace root next next arena_end) with (set_space_next next (mkSpace root next next arena_end)).
  pose proof (builder_made _ _ _ _ Hrep) as Hb. cbn [space_root space_next space_end] in Hb. rewrite Hb.
  unfold clear_root_table, on_bus. munfold_goal. cbn [fst snd builder_of root_table_address space_root]. by rewrite Hcl.
Qed.

Lemma space_step_refl T s b : space_step T s b T s b.
Proof. split; try done; by left. Qed.
Lemma space_step_trans T s b T1 s1 b1 T2 s2 b2 : space_step T s b T1 s1 b1 -> space_step T1 s1 b1 T2 s2 b2 -> space_step T s b T2 s2 b2.
Proof.
  intros [A1 A2 A3 A4 A5 A6 A7] [B1 B2 B3 B4 B5 B6 B7]. split; [congruence|congruence|by transitivity T1| |lia|congruence|].
  - intros ta Hta. apply B4 in Hta as [Hta|?]; [|right; lia]. apply A4 in Hta as [?|?]; [by left|right; lia].
  - intros x Hx Ho. rewrite B7, A7; [done|done| |done|done]. intros ta [v Hta]. apply Ho. exists v. by eapply lookup_weaken.
Qed.

(** The pages of a range, mapped one after the other. *)
Definition map_pages (va pa : Z) (p : PagePermissions) (pages : list Z) m : PageMap :=
  foldl (fun m i => <[page_key (va + i * 4096) := (pa + i * 4096, p)]> m) m pages.
Lemma map_loop_represents va pa p : 0 <= va -> 0 <= pa -> va `mod` 4096 = 0 -> pa `mod` 4096 = 0 -> forall (n : nat) i k T s b m,
  0 <= i -> va + (i + Z.of_nat n) * 4096 <= W64 -> pa + (i + Z.of_nat n) * 4096 <= 2 ^ 52 ->
  represents T s b m -> 0 <= k -> room (k + 3 * Z.of_nat n) (builder_of s) b ->
  exists T' s' b', for_each (seqZ i (Z.of_nat n)) (fun page_index =>
      let page_offset := mul64 page_index MM_PAGE_SIZE_BYTES in
      map_page (add64 va page_offset) (add64 pa page_offset) p) (s, b) = ((s', b'), Ok tt) /\
    represents T' s' b' (map_pages va pa p (seqZ i (Z.of_nat n)) m) /\ room k (builder_of s') b' /\ space_step T s b T' s' b'.
Proof.
  intros Hva Hpa Hval Hpal. induction n as [|n IH]; intros i k T s b m Hi Hvb Hpb Hrep Hk Hroom.
  - exists T, s, b. cbn. split; [done|]. split; [done|]. split; [by replace (k + 3 * Z.of_nat 0) with k in Hroom by lia|apply space_step_refl].
  - rewrite seqZ_cons by lia. replace (Z.pred (Z.of_nat (S n))) with (Z.of_nat n) by lia. cbn [for_each map_pages foldl]. cbn zeta. munfold_goal.
    assert (Eoff : mul64 i MM_PAGE_SIZE_BYTES = i * 4096).
    { unfold mul64. rewrite Page.page_size_bytes. apply wrap64_small. unfold u64. nia. }
    rewrite Eoff, !add64_small by nia.
    assert (Hal : forall x, x `mod` 4096 = 0 -> (x + i * 4096) `mod` 4096 = 0) by (intros x Hx; by rewrite Z.mod_add).
    destruct (map_page_total T s b m (va + i * 4096) (pa + i * 4096) p (k + 3 * Z.of_nat n)) as (s1 & b1 & E1 & Hroom1);
      try done; try (unfold u64; nia); try (by apply Hal); try lia.
    { by replace (k + 3 * Z.of_nat n + 3) with (k + 3 * Z.of_nat (S n)) by lia. }
    rewrite E1. destruct (map_page_represents T s b m (va + i * 4096) (pa + i * 4096) p s1 b1 Hrep) as (T1 & Hrep1 & Hst1); [unfold u64; nia|unfold u64; nia|nia|exact E1|].
    destruct (IH (Z.succ i) k T1 s1 b1 (<[page_key (va + i * 4096) := (pa + i * 4096, p)]> m) ltac:(lia) ltac:(lia) ltac:(lia) Hrep1 Hk Hroom1) as (T2 & s2 & b2 & E2 & Hrep2 & Hroom2 & Hst2).
    exists T2, s2, b2. split; [exact E2|]. split; [exact Hrep2|]. split; [done|]. by apply (space_step_trans T s b T1 s1 b1).
Qed.
End representation.

(** ** The refinement *)

(** What a client asks of a space; an access is the space's own translation. *)
Inductive space_request : Set :=
  | MapPage (va pa : Z) (p : PagePermissions)
  | MapRange (va pa n : Z) (p : PagePermissions)
  | SetPermissions (va : Z) (p : PagePermissions)
  | Translate (a : Z) (kind : MemoryAccessKind) (priv : PrivilegeLevel).
Definition space_serve {B} `{MemoryBus B} (q : space_request) : M (AddressSpace * B) (option (Z * Z * PagePermissions)) :=
  match q with
  | MapPage va pa p => map_page va pa p ≫= fun _ => mret None
  | MapRange va pa n p => map_range va pa n p ≫= fun _ => mret None
  | SetPermissions va p => set_page_permissions va p ≫= fun _ => mret None
  | Translate a kind priv => fun st =>
      let '(st', r) := page_translation a kind priv st in
      (st', match seen r with Ok x => Ok (Some x) | Throw e => Throw e end)
  end.
(** The same on the map. *)
Definition map_serve (q : space_request) : M PageMap (option (Z * Z * PagePermissions)) :=
  match q with
  | MapPage va pa p =>
      throw_if (negb (va `mod` 4096 =? 0) || negb (pa `mod` 4096 =? 0)) invalid_argument ≫= fun _ =>
      modify (fun m => <[page_key va := (pa, p)]> m) ≫= fun _ => mret None
  | MapRange va pa n p =>
      throw_if (negb (va `mod` 4096 =? 0) || negb (pa `mod` 4096 =? 0) || (n =? 0) || negb (n `mod` 4096 =? 0)) invalid_argument ≫= fun _ =>
      throw_if (W64 <? va + n) overflow_error ≫= fun _ =>
      modify (map_pages va pa p (seqZ 0 (n / 4096))) ≫= fun _ => mret None
  | SetPermissions va p =>
      throw_if (negb (va `mod` 4096 =? 0)) invalid_argument ≫= fun _ =>
      get ≫= fun m =>
      throw_if (negb (bool_decide (is_Some (m !! page_key va)))) (make_page_fault va AccessKind.READ Ring.RING0 FaultReason.NOT_PRESENT) ≫= fun _ =>
      modify (alter (fun x => (x.1, p)) (page_key va)) ≫= fun _ => mret None
  | Translate a kind priv => lift (fun m => access_outcome make_paging_state m a kind priv) ≫= fun x => mret (Some x)
  end.
(** Addresses are words, frames are within 52 bits, and a permission change is of a canonical page. *)
Definition request_ok (q : space_request) : Prop :=
  match q with
  | MapPage va pa _ => u64 va /\ 0 <= pa < 2 ^ 52
  | MapRange va pa n _ => u64 va /\ 0 <= pa /\ u64 n /\ pa + n <= 2 ^ 52
  | SetPermissions va _ => u64 va /\ is_canonical_linear_address va = true
  | Translate a _ _ => u64 a
  end.
Definition pages_mapped (q : space_request) : Z :=
  match q with MapPage _ _ _ => 1 | MapRange _ _ n _ => n / 4096 | _ => 0 end.
Definition tables_needed (qs : list space_request) : Z := foldr (fun q n => 3 * pages_mapped q + n) 0 qs.

Section refinement.
Context {B : Type} `{MemoryBusLaws B}.
Implicit Types (b : B) (T : gmap Z (PageTableLevel * Z)) (m : PageMap).

Lemma own_outcome s ps m a kind priv : own_paging s = Ok ps -> access_outcome ps m a kind priv = access_outcome make_paging_state m a kind priv.
Proof.
  unfold own_paging, load_cr3. munfold_goal. destruct (negb (is_aligned_to_page_size _ _)); [done|]. cbn. intros [= <-]. done.
Qed.
Lemma pages_mapped_nonneg q : request_ok q -> 0 <= pages_mapped q.
Proof. destruct q; cbn; try lia. intros (_ & _ & [? _] & _). by apply Z.div_pos. Qed.
Lemma tables_needed_nonneg qs : Forall request_ok qs -> 0 <= tables_needed qs.
Proof. unfold tables_needed. induction 1 as [|q qs Hq _ IH]; cbn [foldr]; [lia|]. pose proof (pages_mapped_nonneg q Hq). lia. Qed.

Lemma room_weaken k k' t b : k' <= k -> room k t b -> room k' t b.
Proof. unfold room. lia. Qed.
(** A request refused: nothing moves. *)
Ltac same_space T s b :=
  exists T, s, b; split; [done|]; split; [done|]; split; [|apply space_step_refl];
  match goal with H : room ?k _ _ |- room _ _ _ => apply (room_weaken k); [|exact H] end.
Lemma space_serve_represents T s b m q k : represents T s b m -> request_ok q -> 0 <= k ->
  room (3 * pages_mapped q + k) (builder_of s) b ->
  exists T' s' b', space_serve q (s, b) = ((s', b'), (map_serve q m).2) /\ represents T' s' b' (map_serve q m).1 /\ room k (builder_of s') b' /\ space_step T s b T' s' b'.
Proof.
  intros Hrep Hq Hk Hroom. pose proof (pages_mapped_nonneg q Hq) as Hpm. destruct q as [va pa p|va pa n p|va p|a kind priv]; cbn [space_serve map_serve request_ok pages_mapped] in *.
  - destruct Hq as [Hva Hpa]. destruct (Z.eqb_spec (va mod 4096) 0) as [Ha|Ha].
    2:{ unfold map_page. munfold_goal. rewrite space_require_ok, (proj2 (Z.eqb_neq _ _)) by done. same_space T s b; lia. }
    destruct (Z.eqb_spec (pa mod 4096) 0) as [Hp|Hp].
    2:{ unfold map_page. munfold_goal. rewrite !space_require_ok, Ha, (proj2 (Z.eqb_neq (pa mod 4096) 0)) by done. same_space T s b; lia. }
    assert (Hpu : u64 pa) by (unfold u64; lia).
    destruct (map_page_total T s b m va pa p k Hrep Hva Hpu ltac:(lia) Ha Hp Hk) as (s' & b' & E & Hr); [by replace (k + 3) with (3 * 1 + k) by lia|].
    destruct (map_page_represents T s b m va pa p s' b' Hrep Hva Hpu ltac:(lia) E) as (T' & Hrep' & Hst).
    exists T', s', b'. munfold_goal. rewrite E. done.
  - destruct Hq as (Hva & Hpa & Hn & Hpn). unfold map_range. munfold_goal. rewrite !space_require_ok.
    destruct (Z.eqb_spec (va mod 4096) 0) as [Ha|Ha]; [|same_space T s b; lia].
    destruct (Z.eqb_spec (pa mod 4096) 0) as [Hp|Hp]; [|same_space T s b; lia].
    unfold require_page_multiple. rewrite is_page_aligned_spec. cbn [negb orb].
    destruct (Z.eqb_spec n 0) as [|Hn0]; [same_space T s b; lia|]. cbn [orb].
    destruct (Z.eqb_spec (n mod 4096) 0) as [Hna|Hna].
    2:{ rewrite bool_decide_false by done. same_space T s b; lia. }
    rewrite bool_decide_true by done. cbn [negb]. unfold u64 in *. rewrite !range_exceeds_spec by (unfold u64; lia).
    destruct (Z.ltb_spec W64 (va + n)) as [|Hvn]; [same_space T s b; lia|].
    rewrite (proj2 (Z.ltb_ge W64 (pa + n))) by lia. rewrite page_count_exact by lia.
    pose proof (Z.div_mod n 4096). assert (0 <= n / 4096) by (apply Z.div_pos; lia).
    assert (Hcount : exists c : nat, n / 4096 = Z.of_nat c) by (exists (Z.to_nat (n / 4096)); lia). destruct Hcount as [c Hcount]. rewrite Hcount in *.
    destruct (map_loop_represents va pa p ltac:(lia) Hpa Ha Hp c 0 k T s b m) as (T' & s' & b' & E & Hrep' & Hr & Hst); try done; try lia.
    { by replace (k + 3 * Z.of_nat c) with (3 * Z.of_nat c + k) by lia. }
    exists T', s', b'. cbn zeta in E. rewrite E. done.
  - destruct Hq as [Hva Hc]. destruct (Z.eqb_spec (va mod 4096) 0) as [Ha|Ha].
    2:{ unfold set_page_permissions. munfold_goal. rewrite space_require_ok, (proj2 (Z.eqb_neq _ _)) by done. same_space T s b; lia. }
    destruct (set_page_permissions_represents T s b m va p Hrep Hva Ha Hc) as (b' & Hrep' & Hst & E). exists T, s, b'.
    munfold_goal. rewrite E. cbn [negb]. replace (room k (builder_of s) b') with (room (3 * 0 + k) (builder_of s) b) by (unfold room; by rewrite (st_size _ _ _ _ _ _ Hst)).
    destruct (decide (is_Some (m !! page_key va))) as [Hs|Hs].
    + by rewrite bool_decide_true.
    + rewrite bool_decide_false by done. split_and!; try done. replace m with (alter (fun x => (x.1, p)) (page_key va) m); [done|]. 
      apply map_eq. intros j. destruct (decide (j = page_key va)) as [->|]; [|by rewrite lookup_alter_ne].
      rewrite lookup_alter_eq. apply eq_None_not_Some in Hs. by rewrite Hs.
  - unfold page_translation. destruct (own_paging_ok s (rep_root T s b m Hrep)) as (ps & Eps & Hcr & _). munfold_goal. cbn [fst snd]. rewrite Eps.
    destruct (translate_represents T s b m ps a kind priv Hrep Hcr Hq) as (Hrep1 & Hseen & _).
    pose proof (translate_step T s b m ps a kind priv Hrep Hcr) as Hst.
    destruct (translate ps a kind priv b) as [b1 r]. cbn [fst snd] in *. exists T, s, b1.
    rewrite Hseen, (own_outcome s ps) by done. replace (room k (builder_of s) b1) with (room (3 * 0 + k) (builder_of s) b) by (unfold room; by rewrite (st_size _ _ _ _ _ _ Hst)).
    destruct (access_outcome make_paging_state m a kind priv); done.
Qed.

(** C11. An address space refines a finite map from pages to frames and permissions: any sequence of
    mappings of pages and ranges, permission changes and translations, when the arena has three
    tables for each page mapped, is answered request by request as on the map, errors and page
    faults included, and the page tables represent the map it reaches. *)
Theorem address_space_refines_page_map T s b m qs : represents T s b m -> Forall request_ok qs ->
  room (tables_needed qs) (builder_of s) b ->
  let '((s', b'), replies) := serve_all space_serve qs (s, b) in
  replies = (serve_all map_serve qs m).2 /\ exists T', represents T' s' b' (serve_all map_serve qs m).1 /\ space_step T s b T' s' b'.
Proof.
  intros Hrep Hqs. revert T s b m Hrep. induction Hqs as [|q qs Hq Hqs IH]; intros T s b m Hrep Hroom.
  - split; [done|]. exists T. split; [done|apply space_step_refl].
  - destruct (space_serve_represents T s b m q (tables_needed qs) Hrep Hq (tables_needed_nonneg qs Hqs) Hroom) as (T1 & s1 & b1 & E & Hrep1 & Hroom1 & Hst1).
    cbn [serve_all]. rewrite E. specialize (IH T1 s1 b1 _ Hrep1 Hroom1). destruct (map_serve q m) as [m1 r]. cbn [fst snd] in *.
    destruct (serve_all space_serve qs (s1, b1)) as [[s2 b2] rs]. destruct (serve_all map_serve qs m1) as [m2 rs']. cbn [fst snd] in *.
    destruct IH as (-> & T2 & Hrep2 & Hst2). split; [done|]. exists T2. split; [done|]. by apply (space_step_trans T s b T1 s1 b1).
Qed.
End refinement.

(** ** A mapping that fails *)

(** [map_page] records the tables taken only when the builder succeeds.  When the arena has one table
    left and the mapping needs more, the last table is linked into the root and the space still hands
    it out: the next mapping of a page elsewhere clears it and links it a second time. *)
Lemma failed_map_page_keeps_table {B} `{MemoryBusLaws B} T s (b : B) m va pa p : represents T s b m ->
  u64 va -> va `mod` 4096 = 0 -> pa `mod` 4096 = 0 -> space_next s + 4096 = space_end s -> space_end s <= bus_size b ->
  is_present (ent b (space_root s) (level_index va Level.PML4)) = false ->
  exists b', map_page va pa p (s, b) = ((s, b'), Throw out_of_range) /\
    let e := ent b' (space_root s) (level_index va Level.PML4) in is_present e = true /\ table_address e = space_next s.
Proof.
  intros Hrep Hva Ha Hp Hend Hsz Hnp. pose proof Hrep as [R1 R2 R3 R4 R5 R6]. pose proof (twf_bus _ _ _ R1) as Hok.
  pose proof (twf_root _ _ _ R1) as Hroot. destruct (twf_table _ _ _ R1 _ _ _ Hroot) as [Htok _].
  pose proof (level_index_range va Level.PML4) as Hi. pose proof (bus_size_range b Hok). pose proof (awf_next _ _ R2) as Hn0. cbn in Hn0.
  set (t := builder_of s). unfold map_page, map_4k. munfold_goal. rewrite !space_require_ok, Ha, Hp. cbn [Z.eqb].
  unfold with_builder. cbn [fst snd]. rewrite (builder_made T s b m Hrep). fold t.
  change PAGE_SIZE_4K_BYTES with (Z.shiftl 1 12). rewrite !(require_aligned_ok _ 12) by (done || lia). cbn [fst snd].
  unfold ensure_child_at, ensure_child_table. munfold_goal. rewrite page_table_index_spec by done. cbn [snd].
  change (root_table_address t) with (space_root s). destruct (ent_read b _ _ Hok Htok Hi) as [-> _]. rewrite Hnp.
  destruct (allocate_table_succeeds T t b 0) as (t1 & b1 & Hal & _); [done|done|lia| |].
  { unfold room, arena_limit. cbn. rewrite (proj2 (Z.eqb_neq (space_end s) 0)) by lia. lia. }
  rewrite Hal. destruct (allocate_table_spec T t b t1 b1 _ R2 Hok Hal) as (Hfresh & Hnok & _ & Hr1 & Hok1 & Hs1 & He1 & _ & _ & Hn1 & Hstep1).
  cbn [t builder_of next_free_table_address] in *. set (n := space_next s) in *.
  assert (Hnu : u64 n /\ n < 2 ^ 52) by (destruct Hnok; unfold u64; lia).
  destruct (table n user_read_write_execute) as [e|] eqn:Ee.
  2:{ exfalso. unfold table, present_entry in Ee. munfold. change PAGE_SIZE_4K_BYTES with (Z.shiftl 1 12) in Ee.
      rewrite (require_aligned_ok _ 12) in Ee by (lia || apply (tok_aligned _ _ Hnok)). done. }
  destruct (table_entry_bits n e) as (Hpe & _ & Hte & Hue); [apply Hnu|apply Hnu|done|].
  destruct (ent_write b1 (space_root s) (level_index va Level.PML4) (raw_bits e) Hok1) as (b2 & Hw & Hok2 & Hs2 & He2 & _);
    [by apply (table_ok_size b)|done|done|].
  replace (Entry (raw_bits e)) with e in He2 by (by destruct e).
  unfold on_bus at 1. munfold_goal. cbn [fst snd]. rewrite (bus_write_M_Ok _ _ _ _ _ Hw). cbn [fst snd].
  rewrite page_table_index_spec by done. pose proof (level_index_range va Level.PDPT) as Hj.
  assert (Hne : n <> space_root s) by (intros E; rewrite E in Hfresh; congruence).
  assert (Hnok2 : table_ok b2 n) by (apply (table_ok_size b); [congruence|done]).
  destruct (ent_read b2 n _ Hok2 Hnok2 Hj) as [-> _]. rewrite He2 by (done || by apply (table_ok_size b)). rewrite decide_False by (by intros [? _]).
  rewrite He1, decide_True by done. change (is_present (Entry 0)) with false. cbn beta iota.
  assert (Hal2 : allocate_table (t1, b2) = ((t1, b2), Throw out_of_range)).
  { unfold allocate_table. munfold_goal. destruct (bus_contains_range b2 _ _); [|done]. cbn [negb].
    destruct Hstep1 as [He _]. cbn in He. rewrite He, Hn1, Hend. rewrite (proj2 (Z.eqb_neq (space_end s) 0)) by lia. cbn [negb andb].
    change PAGE_SIZE_4K_BYTES with 4096. rewrite sub64_small by lia. rewrite (proj2 (Z.ltb_lt _ _)) by lia. done. }
  change PAGE_SIZE_4K_BYTES with (Z.shiftl 1 12) in Hal2. rewrite Hal2. exists b2. split; [done|]. cbn zeta.
  rewrite He2 by (done || by apply (table_ok_size b)). by rewrite decide_True.
Qed.

(** ** A concrete instance *)

Definition demo_space_requests : list space_request :=
  [MapPage 0x400000 0x9000 user_read_write_no_execute; Translate 0x400123 AccessKind.WRITE Ring.RING3;
   SetPermissions 0x400000 user_read_only_execute; Translate 0x400123 AccessKind.WRITE Ring.RING3;
   Translate 0x400123 AccessKind.EXECUTE Ring.RING3; Translate 0x401000 AccessKind.READ Ring.RING0;
   SetPermissions 0x401000 user_read_only_execute; MapRange 0x400000 0x9000 0x123 user_read_write_execute].
Lemma address_space_refines_page_map_witness :
  exists b s, make_space 0 0x1000 0x8000 (make_memory 0x8000) = (b, Ok s) /\
  (serve_all space_serve demo_space_requests (s, b)).2 =
  [Ok None; Ok (Some (0x400000, 0x9000, user_read_write_no_execute));
   Ok None; Throw (make_page_fault 0x400123 AccessKind.WRITE Ring.RING3 FaultReason.WRITE_PROTECTION);
   Ok (Some (0x400000, 0x9000, user_read_only_execute));
   Throw (make_page_fault 0x401000 AccessKind.READ Ring.RING0 FaultReason.NOT_PRESENT);
   Throw (make_page_fault 0x401000 AccessKind.READ Ring.RING0 FaultReason.NOT_PRESENT); Throw invalid_argument].
Proof.
  destruct (make_space_represents (make_memory 0x8000) 0 0x1000 0x8000) as (b & E & Hs & Hrep & _);
    [apply (zero_memory_ok 0x8000); lia|rewrite zero_memory_size by lia; lia|lia|lia|lia|rewrite zero_memory_size by lia; lia|reflexivity|reflexivity|reflexivity|].
  rewrite zero_memory_size in Hs by lia. exists b, (mkSpace 0 0x1000 0x1000 0x8000). split; [exact E|].
  assert (Hroom : room (tables_needed demo_space_requests) (builder_of (mkSpace 0 0x1000 0x1000 0x8000)) b).
  { unfold room. rewrite Hs. vm_compute. split; discriminate. }
  pose proof (address_space_refines_page_map _ _ b ∅ demo_space_requests Hrep) as Hmain.
  destruct (serve_all space_serve demo_space_requests _) as [[s' b'] replies]. destruct Hmain as [Hreplies _].
  - unfold demo_space_requests. repeat apply Forall_cons_2; try apply Forall_nil; cbn [request_ok]; unfold u64; repeat apply conj; (lia || reflexivity).
  - exact Hroom.
  - cbn [snd]. rewrite Hreplies. vm_compute. reflexivity.
Defined.
