(* ===== verification/PageFaultHandler.v ===== *)
(** * Page-fault handler

    Models src/os/mm/page_fault_handler.cpp: demand paging.  A fault on a page that is not present
    takes a physical page from the allocator, clears it and maps it in the faulting address space.
    The handler works on the objects it points to, kept together in [Faulting].  A handled fault is
    shown to let the faulting access succeed, on a page of zeros. *)

From S2P Require Import Prelude Logic Common PhysicalMemory MemoryBus Paging PageTable Page PageAlloc CpuState Trap AddressSpace.

Module Fault.
(* [include/mnos/os/mm/page_fault_handler.hpp] [PageFaultResult] *)
Inductive PageFaultResult : Set := HANDLED | NOT_PAGE_FAULT | PROTECTION_FAULT | OUT_OF_MEMORY | COUNT.
End Fault.
Abbreviation PageFaultResult := Fault.PageFaultResult.

(* [include/mnos/os/mm/page_fault_handler.hpp] [PageFaultHandler] *)
Record Faulting (B : Type) : Type := mkFaulting {
  allocator_ : PhysicalPageAllocator;
  address_space_ : AddressSpace;
  memory_bus_ : B;
  cpu_state_ : CpuState;
}.
Arguments mkFaulting {B}.
Arguments allocator_ {B}.
Arguments address_space_ {B}.
Arguments memory_bus_ {B}.
Arguments cpu_state_ {B}.

(** [try { body } catch] for the exceptions on which [handler] is defined; the state that [body]
    reached is kept. *)
Definition try_catch {S A} (body : M S A) (handler : exn -> option (M S A)) : M S A := fun s =>
  match body s with
  | (s', Ok a) => (s', Ok a)
  | (s', Throw e) => match handler e with Some h => h s' | None => (s', Throw e) end
  end.

(* [src/os/mm/page_fault_handler.cpp] [has_page_fault_error_bit] *)
Definition has_page_fault_error_bit (trap_frame : TrapFrame) (bit : Z) : bool :=
  match tf_error_code trap_frame with Some c => negb (Z.land c bit =? 0) | None => false end.
Definition PAGE_FAULT_ERROR_PRESENT_BIT : Z := Z.shiftl 1 0.
Definition PAGE_FAULT_ERROR_WRITE_BIT : Z := Z.shiftl 1 1.
Definition PAGE_FAULT_ERROR_USER_BIT : Z := Z.shiftl 1 2.
Definition PAGE_FAULT_ERROR_RESERVED_BIT : Z := Z.shiftl 1 3.
Definition PAGE_FAULT_ERROR_INSTRUCTION_FETCH_BIT : Z := Z.shiftl 1 4.
(* [src/os/mm/page_fault_handler.cpp] [PageFaultHandler::is_not_present_fault] *)
Definition is_not_present_fault (trap_frame : TrapFrame) : bool :=
  bool_decide (is_Some (tf_error_code trap_frame)) &&
  negb (has_page_fault_error_bit trap_frame PAGE_FAULT_ERROR_PRESENT_BIT) &&
  negb (has_page_fault_error_bit trap_frame PAGE_FAULT_ERROR_RESERVED_BIT).
(* [src/cpu/memory/paging.cpp] [PagePermissions::kernel_read_only_execute] *)
Definition kernel_read_only_execute : PagePermissions := mkPermissions false false true.
(* [src/cpu/memory/paging.cpp] [PagePermissions::kernel_read_write_no_execute] *)
Definition kernel_read_write_no_execute : PagePermissions := mkPermissions true false false.
(* [src/os/mm/page_fault_handler.cpp] [PageFaultHandler::permissions_for_fault] *)
Definition permissions_for_fault (trap_frame : TrapFrame) : PagePermissions :=
  let user_fault := has_page_fault_error_bit trap_frame PAGE_FAULT_ERROR_USER_BIT in
  let instruction_fetch_fault := has_page_fault_error_bit trap_frame PAGE_FAULT_ERROR_INSTRUCTION_FETCH_BIT in
  if user_fault && instruction_fetch_fault then user_read_only_execute
  else if user_fault then user_read_write_no_execute
  else if instruction_fetch_fault then kernel_read_only_execute
  else kernel_read_write_no_execute.

Section handler.
Context {B : Type} `{MemoryBus B}.
Abbreviation FM A := (M (Faulting B) A).
Definition on_allocator {A} : M PhysicalPageAllocator A -> FM A :=
  zoom allocator_ (fun a f => mkFaulting a (address_space_ f) (memory_bus_ f) (cpu_state_ f)).
Definition on_memory {A} : M B A -> FM A :=
  zoom memory_bus_ (fun b f => mkFaulting (allocator_ f) (address_space_ f) b (cpu_state_ f)).
Definition on_space {A} : M (AddressSpace * B) A -> FM A :=
  zoom (fun f => (address_space_ f, memory_bus_ f)) (fun st f => mkFaulting (allocator_ f) st.1 st.2 (cpu_state_ f)).
Definition on_cpu {A} : M CpuState A -> FM A :=
  zoom cpu_state_ (fun c f => mkFaulting (allocator_ f) (address_space_ f) (memory_bus_ f) c).

(* [src/os/mm/page_fault_handler.cpp] [PageFaultHandler::zero_physical_page] *)
Definition zero_physical_page (physical_address : Z) : M B unit :=
  for_each (seqZ 0 (MM_PAGE_SIZE_BYTES / 8)) (fun k =>
    let offset := mul64 k 8 in
    bus_write_M (add64 physical_address offset) Size.QWORD 0).
(** The page goes back to the allocator when it cannot be mapped. *)
(* [src/os/mm/page_fault_handler.cpp] [PageFaultHandler::handle] [65-74] *)
Definition give_back (physical_page : Z) (e : exn) : option (FM (option PageFaultResult)) :=
  if bool_decide (e = bad_alloc) || bool_decide (e = out_of_range) then
    Some (on_allocator (free_page physical_page) ≫= fun _ => mret (Some Fault.OUT_OF_MEMORY))
  else None.
(* [src/os/mm/page_fault_handler.cpp] [PageFaultHandler::handle] *)
Definition handle (trap_frame : TrapFrame) : FM PageFaultResult :=
  if negb (tf_vector trap_frame =? page_fault_vector) then mret Fault.NOT_PAGE_FAULT
  else if negb (is_not_present_fault trap_frame) then mret Fault.PROTECTION_FAULT
  else
    try_catch (on_allocator allocate_page ≫= fun p => mret (Some p))
      (fun e => if bool_decide (e = bad_alloc) then Some (mret None) else None) ≫= fun page =>
    match page with
    | None => mret Fault.OUT_OF_MEMORY
    | Some physical_page =>
        try_catch
          (on_memory (zero_physical_page physical_page) ≫= fun _ =>
           gets (fun f => align_down (page_fault_linear_address (cpu_paging (cpu_state_ f)))) ≫= fun page_address =>
           on_space (map_page page_address physical_page (permissions_for_fault trap_frame)) ≫= fun _ =>
           mret None)
          (give_back physical_page) ≫= fun failed =>
        match failed with
        | Some result => mret result
        | None =>
            gets address_space_ ≫= fun space =>
            on_cpu (activate space) ≫= fun _ =>
            on_cpu (modify clear_pending_trap) ≫= fun _ =>
            mret Fault.HANDLED
        end
    end.
End handler.

(** ** Memory *)

Section memory.
Context {B : Type} `{MemoryBusLaws B}.
Implicit Types (b : B) (T : gmap Z (PageTableLevel * Z)) (m : PageMap).

Lemma zero_page_spec b pa : bus_ok b -> table_ok b pa -> exists b', zero_physical_page pa b = (b', Ok tt) /\
  bus_ok b' /\ bus_size b' = bus_size b /\ (forall x, pa <= x < pa + 4096 -> bus_byte b' x = 0) /\
  (forall x, 0 <= x -> ~ (pa <= x < pa + 4096) -> bus_byte b' x = bus_byte b x).
Proof.
  intros Hok Ht. destruct (clear_table_spec b pa Hok Ht) as (b' & E & Hok' & Hs & He & Hb). exists b'. split; [exact E|].
  split; [done|]. split; [done|]. split; [|done]. intros x Hx. assert (Ht' : table_ok b' pa) by (by apply (table_ok_size b)).
  pose proof (Z.div_mod (x - pa) 8 ltac:(lia)) as Hdm. pose proof (Z.mod_pos_bound (x - pa) 8 ltac:(lia)) as Hmb.
  set (i := (x - pa) / 8) in *. set (k := (x - pa) mod 8) in *. assert (Hi : 0 <= i < 512) by lia.
  destruct (ent_read b' pa i Hok' Ht' Hi) as [Hr _]. rewrite He, decide_True in Hr by done.
  unfold read_entry in Hr. munfold. rewrite (slot_address b') in Hr by done. destruct (bus_read b' (pa + 8 * i) Size.QWORD) as [v|] eqn:Ev; [|done].
  injection Hr as ->. destruct Ht as [Hn _ _]. apply bus_read_Ok_inv in Ev as (_ & _ & _ & Hby); [|done|lia].
  replace x with (pa + 8 * i + k) by lia. rewrite <- Hby by (cbn; lia). unfold byte_of. by rewrite Z.shiftr_0_l.
Qed.
(** A write outside the tables keeps what they say. *)
Lemma represents_frame T s b b' m : represents T s b m -> bus_ok b' -> bus_size b' = bus_size b ->
  (forall ta x, is_Some (T !! ta) -> ta <= x < ta + 4096 -> bus_byte b' x = bus_byte b x) -> represents T s b' m.
Proof.
  intros [R1 R2 R3 R4 R5 R6] Hok' Hs Hby. pose proof (twf_bus _ _ _ R1) as Hok.
  assert (Hent : forall ta l p i, T !! ta = Some (l, p) -> 0 <= i < 512 -> ent b' ta i = ent b ta i).
  { intros ta l p i Hta Hi. destruct (twf_table _ _ _ R1 _ _ _ Hta) as [Htok _]. pose proof Htok as [Hn _ _].
    unfold ent, read_entry. munfold_goal. rewrite (slot_address b), (bus_read_ext b b'); try done; [lia|].
    intros k Hk. cbn in Hk. apply (Hby ta); [by rewrite Hta|lia]. }
  split; try done; [|by rewrite Hs|].
  - split; [done|apply (twf_root _ _ _ R1)| |].
    + intros ta l p Hta. destruct (twf_table _ _ _ R1 _ _ _ Hta). split; [by apply (table_ok_size b)|done].
    + intros ta l p i Hta Hi. rewrite (Hent ta l p i Hta Hi). by apply (twf_entry _ _ _ R1).
  - intros a. specialize (R6 a). rewrite (resolve_ext T (space_root s) b b' a); [exact R6|done| |done|].
    + intros ta l Hta. apply (Hent ta _ _ _ Hta (level_index_range _ _)).
    + rewrite table_key_root. apply (twf_root _ _ _ R1).
Qed.
End memory.

(** ** Resolving a fault *)

Section resolve.
Context {B : Type} `{MemoryBusLaws B}.
Implicit Types (f : Faulting B) (T : gmap Z (PageTableLevel * Z)) (m : PageMap).

(** The tables represent the map, and neither they nor the arena they come from are free pages. *)
Record faulting_ok T m f : Prop := {
  fo_space : represents T (address_space_ f) (memory_bus_ f) m;
  fo_alloc : alloc_wf (allocator_ f);
  fo_memory : total_page_count (allocator_ f) * 4096 <= bus_size (memory_bus_ f);
  fo_tables ta : is_Some (T !! ta) -> ~ is_free (allocator_ f) (ta / 4096);
  fo_arena i : space_next (address_space_ f) <= i * 4096 < space_end (address_space_ f) -> ~ is_free (allocator_ f) i;
}.

Lemma permissions_allow kind priv frame ps : tf_error_code frame = Some (make_page_fault_error_code kind priv FaultReason.NOT_PRESENT) ->
  execute_disable_enabled ps = true -> access_fault ps (permissions_for_fault frame) kind priv = None /\ is_not_present_fault frame = true.
Proof.
  intros He Hx. unfold access_fault, permissions_for_fault, is_not_present_fault, has_page_fault_error_bit. rewrite He, Hx.
  destruct kind, priv; vm_compute; done.
Qed.
(** The registers after the space has been made current. *)
Lemma activate_spec s cpu : space_root s `mod` 4096 = 0 -> exists p, activate s cpu = (set_paging p cpu, Ok tt) /\
  cr3 p = space_root s /\ paging_enabled p = true /\ execute_disable_enabled p = execute_disable_enabled (cpu_paging cpu) /\
  write_protect_enabled p = write_protect_enabled (cpu_paging cpu).
Proof.
  intros Hr. unfold activate, load_cr3. munfold_goal. change PAGE_SIZE_4K_BYTES with (Z.shiftl 1 12). rewrite is_aligned_spec by lia.
  change (2 ^ 12) with 4096. rewrite Hr. cbn [Z.eqb negb]. change (is_process_context_id_valid 0) with true. cbn [negb]. rewrite andb_false_r.
  eexists. split; [reflexivity|]. done.
Qed.
Lemma align_down_key a : u64 a -> align_down a `mod` 4096 = 0 /\ u64 (align_down a) /\ page_key (align_down a) = page_key a /\ align_down a = a - a `mod` 4096.
Proof.
  intros Ha. rewrite align_down_spec by done. pose proof (Z.div_mod a 4096 ltac:(lia)) as Hd. pose proof (Z.mod_pos_bound a 4096 ltac:(lia)) as Hm.
  unfold u64 in *. assert (0 <= a / 4096) by (apply Z.div_pos; lia). split; [by apply Z.mod_mul|]. split; [lia|]. split; [|lia].
  unfold page_key. replace a with (a / 4096 * 4096 + a mod 4096) at 2 by lia. symmetry. apply (entry_key_offset Level.PT).
  - change (2 ^ level_shift Level.PT) with 4096. by apply Z.mod_mul.
  - change (2 ^ level_shift Level.PT) with 4096. lia.
Qed.

(** A free page is taken when there is one. *)
Lemma take_page a i : alloc_wf a -> is_free a i -> exists a' pa, allocate_page a = (a', Ok pa) /\ alloc_wf a' /\
  total_page_count a' = total_page_count a /\ pa `mod` 4096 = 0 /\ is_free a (pa / 4096) /\
  forall j, is_free a' j <-> is_free a j /\ j <> pa / 4096.
Proof.
  intros Hwf Hi. unfold allocate_page. destruct (allocate_contiguous 1 a) as [a' r] eqn:E.
  destruct (allocate_contiguous_first_fit a 1 a' r Hwf ltac:(lia) E) as (Hwf' & [Ht _] & Hr). destruct r as [pa|e].
  - destruct Hr as (st & -> & _ & Hrun & _ & Hf & _). exists a', (st * 4096). rewrite Z.div_mul, Z.mod_mul by lia.
    split_and!; try done; [apply Hrun; lia|]. intros j. rewrite Hf. split; intros [? ?]; (split; [done|lia]).
  - exfalso. destruct Hr as [_ [[_ ?]|[_ Hb]]]; [done|]. pose proof (is_free_first a i Hwf Hi). destruct Hi as [Hi Hf].
    destruct (Hb i) as (j & Hj & Hn); [done|lia|]. apply Hn. by replace j with i by lia.
Qed.
(** A free page meets no table. *)
Lemma free_page_apart a pa ta x : pa `mod` 4096 = 0 -> ta `mod` 4096 = 0 -> is_free a (pa / 4096) -> ~ is_free a (ta / 4096) ->
  pa <= x < pa + 4096 -> ~ (ta <= x < ta + 4096).
Proof.
  intros Hp Ht Hf Hn Hx Hy. apply Hn. replace (ta / 4096) with (pa / 4096); [done|].
  pose proof (Z.div_mod pa 4096 ltac:(lia)). pose proof (Z.div_mod ta 4096 ltac:(lia)). lia.
Qed.

(** C33. Demand paging: when an access faulted because its page is not present, a physical page is
    free and the arena has three tables, the handler succeeds; it takes one free page, which reads
    as zeros and is mapped at the faulting page, changes no other byte outside the page tables, and
    the same access made again is translated to the new page. *)
Theorem page_fault_is_resolved T m f frame kind priv :
  let a := page_fault_linear_address (cpu_paging (cpu_state_ f)) in
  let p := permissions_for_fault frame in
  faulting_ok T m f -> tf_vector frame = page_fault_vector ->
  tf_error_code frame = Some (make_page_fault_error_code kind priv FaultReason.NOT_PRESENT) ->
  u64 a -> is_canonical_linear_address a = true -> execute_disable_enabled (cpu_paging (cpu_state_ f)) = true ->
  (exists i, is_free (allocator_ f) i) -> room 3 (builder_of (address_space_ f)) (memory_bus_ f) ->
  exists f' T' pa, handle frame f = (f', Ok Fault.HANDLED) /\ pa `mod` 4096 = 0 /\ is_free (allocator_ f) (pa / 4096) /\
    (forall i, is_free (allocator_ f') i <-> is_free (allocator_ f) i /\ i <> pa / 4096) /\
    faulting_ok T' (<[page_key a := (pa, p)]> m) f' /\
    (forall x, pa <= x < pa + 4096 -> bus_byte (memory_bus_ f') x = 0) /\
    (forall x, 0 <= x -> ~ (pa <= x < pa + 4096) -> (forall ta, is_Some (T' !! ta) -> ~ (ta <= x < ta + 4096)) ->
      bus_byte (memory_bus_ f') x = bus_byte (memory_bus_ f) x) /\
    has_pending_trap (cpu_state_ f') = false /\
    seen (translate (cpu_paging (cpu_state_ f')) a kind priv (memory_bus_ f')).2 = Ok (a - a `mod` 4096, pa, p).
Proof.
  intros a p [F1 F2 F3 F4 F5] Hv He Hu Hc Hx [i0 Hi0] Hroom. destruct f as [al s b cpu]. cbn [allocator_ address_space_ memory_bus_ cpu_state_] in *.
  destruct (permissions_allow kind priv frame (cpu_paging cpu) He Hx) as [_ Hnp].
  destruct (take_page al i0 F2 Hi0) as (al' & pa & Eal & Hwf' & Htot & Hpm & Hpf & Hfree).
  pose proof (rep_size _ _ _ _ F1) as H52. pose proof (proj1 Hpf) as Hpr. pose proof (Z.div_mod pa 4096 ltac:(lia)) as Hpd.
  assert (Htok : table_ok b pa) by (split; [lia|done|lia]).
  destruct (zero_page_spec b pa (twf_bus _ _ _ (rep_tables _ _ _ _ F1)) Htok) as (b1 & Ez & Hok1 & Hs1 & Hz1 & Hb1).
  assert (Hta : forall ta, is_Some (T !! ta) -> ta `mod` 4096 = 0 /\ 0 <= ta).
  { intros ta [[l q] Hq]. destruct (twf_table _ _ _ (rep_tables _ _ _ _ F1) _ _ _ Hq) as [[] _]. done. }
  assert (Hrep1 : represents T s b1 m).
  { apply (represents_frame T s b b1 m F1 Hok1 Hs1). intros ta x Hq Hin. destruct (Hta ta Hq). apply Hb1; [lia|].
    intros Hin'. by apply (free_page_apart al pa ta x Hpm ltac:(done) Hpf (F4 ta Hq)). }
  destruct (align_down_key a Hu) as (Ham & Hau & Hak & Hae).
  destruct (map_page_total T s b1 m (align_down a) pa p 0 Hrep1) as (s' & b2 & Em & _); try done; [unfold u64; lia|lia|by unfold room in *; rewrite Hs1|].
  destruct (map_page_represents T s b1 m (align_down a) pa p s' b2 Hrep1) as (T' & Hrep2 & Hst); [done|unfold u64; lia|lia|done|].
  rewrite Hak in Hrep2. destruct (activate_spec s' cpu (rep_root _ _ _ _ Hrep2)) as (ps & Eact & Hcr & _ & Hxd & _).
  pose proof (twf_bus _ _ _ (rep_tables _ _ _ _ Hrep2)) as Hok2. pose proof Hst as [S1 S2 S3 S4 S5 S6 S7].
  assert (Hta' : forall ta, is_Some (T' !! ta) -> ta `mod` 4096 = 0 /\ ~ is_free al (ta / 4096)).
  { intros ta Hq. pose proof Hq as [[l q] Hq']. destruct (twf_table _ _ _ (rep_tables _ _ _ _ Hrep2) _ _ _ Hq') as [[_ Hm _] _]. split; [done|].
    apply S4 in Hq as [Hq|[Hlo Hhi]]; [by apply F4|]. apply F5. pose proof (Z.div_mod ta 4096 ltac:(lia)).
    destruct (rep_end _ _ _ _ Hrep2). lia. }
  exists (mkFaulting al' s' b2 (clear_pending_trap (set_paging ps cpu))), T', pa.
  split_and!; try done.
  - unfold handle. rewrite Hv, Z.eqb_refl, Hnp. cbn [negb]. unfold try_catch, on_allocator, on_memory, on_space, on_cpu, zoom. munfold_goal.
    cbn [allocator_ address_space_ memory_bus_ cpu_state_]. rewrite Eal. cbn beta iota. cbn [allocator_ address_space_ memory_bus_ cpu_state_].
    rewrite Ez. cbn beta iota. cbn [allocator_ address_space_ memory_bus_ cpu_state_]. unfold a, p in Em. rewrite Em. cbn beta iota.
    cbn [fst snd allocator_ address_space_ memory_bus_ cpu_state_]. rewrite Eact. done.
  - split; cbn [allocator_ address_space_ memory_bus_]; try done.
    + rewrite Htot, S6, Hs1. done.
    + intros ta Hq. rewrite Hfree. intros [Hf _]. by apply (Hta' ta Hq).
    + intros i Hin. rewrite Hfree. intros [Hf _]. apply (F5 i); [lia|done].
  - intros x Hxin. cbn [memory_bus_]. rewrite S7; [by apply Hz1|lia|]. intros ta Hq Hin. destruct (Hta' ta Hq).
    by apply (free_page_apart al pa ta x Hpm).
  - intros x Hx0 Hout Hnt. cbn [memory_bus_]. rewrite S7 by done. by apply Hb1.
  - cbn [cpu_state_ memory_bus_]. change (cpu_paging (clear_pending_trap (set_paging ps cpu))) with ps.
    destruct (translate_represents T' s' b2 _ ps a kind priv Hrep2 Hcr Hu) as (_ & -> & _).
    unfold access_outcome. rewrite Hc, lookup_insert_eq. cbn [negb].
    destruct (permissions_allow kind priv frame ps He) as [Hn _]; [by rewrite Hxd|]. unfold p. by rewrite Hn.
Qed.

(** ** A fault that is not resolved *)

(** A mapping that fails has changed memory at most. *)
Lemma map_page_throws va pa p s b st e : map_page va pa p (s, b) = (st, Throw e) -> st.1 = s.
Proof.
  unfold map_page, with_builder, update_next_free_table_address. munfold_goal. cbn [fst snd].
  destruct (require_page_aligned va); [|by intros [= <- _]]. destruct (require_page_aligned pa); [|by intros [= <- _]].
  destruct (make_builder _ _ _); [|by intros [= <- _]]. destruct (map_4k _ _ _ _) as [[t b'] [[]|]]; [done|by intros [= <- _]].
Qed.
Lemma zero_page_on_memory pa (f : Faulting B) : exists b r, on_memory (zero_physical_page pa) f = (mkFaulting (allocator_ f) (address_space_ f) b (cpu_state_ f), r).
Proof. unfold on_memory, zoom. destruct (zero_physical_page pa (memory_bus_ f)) as [b r]. by exists b, r. Qed.
(** Giving the page back restores the allocator. *)
Lemma give_back_spec al al1 pa e s b cpu f2 o : alloc_wf al -> allocate_page al = (al1, Ok pa) ->
  match give_back pa e with Some h => h (mkFaulting al1 s b cpu) | None => (mkFaulting al1 s b cpu, Throw e) end = (f2, Ok o) ->
  f2 = mkFaulting al s b cpu /\ o = Some Fault.OUT_OF_MEMORY.
Proof.
  intros Hwf Ea. unfold give_back. destruct (_ || _); [|done]. unfold on_allocator, zoom. munfold_goal. cbn [allocator_].
  rewrite (allocate_page_free al al1 pa Hwf Ea). by intros [= <- <-].
Qed.

(** A page fault that is not resolved is harmless: when the trap is no page fault, is a protection
    fault, no page is free or the page cannot be mapped, the allocator, the address space and the
    processor are what they were, so a page taken for the mapping is free again. *)
Theorem unresolved_page_fault_is_harmless f frame f' r : alloc_wf (allocator_ f) ->
  handle frame f = (f', Ok r) -> r <> Fault.HANDLED ->
  allocator_ f' = allocator_ f /\ address_space_ f' = address_space_ f /\ cpu_state_ f' = cpu_state_ f.
Proof.
  intros Hwf E Hr. destruct f as [al s b cpu]. cbn [allocator_ address_space_ cpu_state_] in *. unfold handle in E.
  destruct (negb (tf_vector frame =? page_fault_vector)); [by injection E as <- <-|].
  destruct (negb (is_not_present_fault frame)); [by injection E as <- <-|].
  unfold try_catch in E. munfold. unfold on_allocator at 1, zoom at 1 in E. cbn [allocator_ address_space_ memory_bus_ cpu_state_] in E.
  destruct (allocate_page al) as [al1 [pa|e]] eqn:Eal.
  2:{ assert (al1 = al) as ->. { destruct (allocate_contiguous_first_fit al 1 al1 (Throw e) Hwf ltac:(lia) Eal) as (_ & _ & -> & _). done. }
      case_bool_decide; [|done]. by injection E as <- <-. }
  destruct (zero_page_on_memory pa (mkFaulting al1 s b cpu)) as (b1 & rz & Ez). rewrite Ez in E. cbn [allocator_ address_space_ cpu_state_] in E.
  destruct rz as [[]|e].
  2:{ destruct (match give_back pa e with Some h => _ | None => _ end) as [f2 [o|]] eqn:Eg; [|done].
      destruct (give_back_spec al al1 pa e s b1 cpu f2 o Hwf Eal Eg) as [-> ->]. by injection E as <- <-. }
  unfold on_space, zoom in E. cbn [address_space_ memory_bus_ allocator_ cpu_state_] in E.
  destruct (map_page _ pa _ (s, b1)) as [st [[]|e]] eqn:Em.
  - unfold on_cpu, zoom in E. munfold. destruct (activate _ _) as [? [[]|]]; [|done]. by injection E as _ <-.
  - apply map_page_throws in Em as Es. rewrite Es in E. destruct (match give_back pa e with Some h => _ | None => _ end) as [f2 [o|]] eqn:Eg; [|done].
    destruct (give_back_spec al al1 pa e s st.2 cpu f2 o Hwf Eal Eg) as [-> ->]. by injection E as <- <-.
Qed.
End resolve.

(** ** A concrete instance *)

Definition demo_pages : PhysicalPageAllocator := mkAllocator 8 6 2 [1; 1; 1; 1; 1; 1; 0; 0].
Lemma demo_pages_wf : alloc_wf demo_pages.
Proof.
  split; cbn [total_page_count first_allocatable_page allocated_pages demo_pages]; try done; try lia; [set_solver|]. intros i Hi. unfold is_page_index_allocated.
  assert (i = 0 \/ i = 1 \/ i = 2 \/ i = 3 \/ i = 4 \/ i = 5) as [-> | [-> | [-> | [-> | [-> | ->]]]]] by lia; reflexivity.
Qed.
Definition demo_faulting {B} (b : B) : Faulting B :=
  mkFaulting demo_pages (mkSpace 0 0x1000 0x1000 0x6000) b (set_paging (set_page_fault_linear_address 0x400123 make_paging_state) make_cpu_state).
Definition demo_fault_frame : TrapFrame := mkTrapFrame Trap.EXCEPTION page_fault_vector 0 0 0 0 Ring.RING3
  (Some (make_page_fault_error_code AccessKind.WRITE Ring.RING3 FaultReason.NOT_PRESENT)).
Lemma page_fault_is_resolved_witness : exists b s f' pa, make_space 0 0x1000 0x6000 (make_memory 0x8000) = (b, Ok s) /\
  handle demo_fault_frame (demo_faulting b) = (f', Ok Fault.HANDLED) /\ (pa / 4096 = 6 \/ pa / 4096 = 7) /\
  seen (translate (cpu_paging (cpu_state_ f')) 0x400123 AccessKind.WRITE Ring.RING3 (memory_bus_ f')).2 =
    Ok (0x400000, pa, user_read_write_no_execute).
Proof.
  destruct (make_space_represents (make_memory 0x8000) 0 0x1000 0x6000) as (b & E & Hs & Hrep & _);
    [apply (zero_memory_ok 0x8000); lia|rewrite zero_memory_size by lia; lia|lia|lia|lia|rewrite zero_memory_size by lia; lia|reflexivity|reflexivity|reflexivity|].
  rewrite zero_memory_size in Hs by lia. exists b, (mkSpace 0 0x1000 0x1000 0x6000).
  destruct (page_fault_is_resolved {[0 := (Level.PML4, 0)]} ∅ (demo_faulting b) demo_fault_frame AccessKind.WRITE Ring.RING3)
    as (f' & T' & pa & Eh & Hpm & [Hpr Hpf] & _ & _ & _ & _ & _ & Hsee).
  - split; [exact Hrep|exact demo_pages_wf|cbn [demo_faulting memory_bus_ allocator_]; rewrite Hs; vm_compute; discriminate| |].
    + intros ta [x Hx]. apply lookup_singleton_Some in Hx as [<- _]. intros [_ Hf]. discriminate Hf.
    + intros i Hi [Hi2 Hf]. cbn [demo_faulting address_space_ space_next space_end allocator_ demo_pages total_page_count] in Hi, Hi2.
      assert (i = 1 \/ i = 2 \/ i = 3 \/ i = 4 \/ i = 5) as [-> | [-> | [-> | [-> | ->]]]] by lia; discriminate Hf.
  - reflexivity.
  - reflexivity.
  - split; [discriminate|reflexivity].
  - reflexivity.
  - reflexivity.
  - exists 6. split; [split; [discriminate|reflexivity]|reflexivity].
  - unfold room. cbn [demo_faulting memory_bus_]. rewrite Hs. vm_compute. split; discriminate.
  - exists f', pa. split; [exact E|]. split; [exact Eh|]. split; [|exact Hsee].
    cbn [demo_faulting allocator_ demo_pages total_page_count] in Hpr. unfold is_page_index_allocated in Hpf. cbn [demo_faulting allocator_ demo_pages allocated_pages] in Hpf.
    assert (pa / 4096 = 0 \/ pa / 4096 = 1 \/ pa / 4096 = 2 \/ pa / 4096 = 3 \/ pa / 4096 = 4 \/ pa / 4096 = 5 \/ pa / 4096 = 6 \/ pa / 4096 = 7)
      as [h | [h | [h | [h | [h | [h | h]]]]]] by lia; [rewrite h in Hpf; discriminate Hpf .. |]. exact h.
Defined.

(** The page taken lies outside the memory: it is given back. *)
Definition demo_refused : Faulting PhysicalMemory :=
  mkFaulting (mkAllocator 3 1 1 [1; 1; 0]) (mkSpace 0 0x1000 0x1000 0x1000) (make_memory 0x2000) make_cpu_state.
Lemma demo_refused_wf : alloc_wf (allocator_ demo_refused).
Proof.
  split; cbn [total_page_count first_allocatable_page allocated_pages allocator_ demo_refused]; try done; try lia; [set_solver|].
  intros i Hi. assert (i = 0) as -> by lia. reflexivity.
Qed.
Lemma unresolved_page_fault_is_harmless_witness : exists f',
  handle demo_fault_frame demo_refused = (f', Ok Fault.OUT_OF_MEMORY) /\ allocator_ f' = allocator_ demo_refused /\
  space_next (address_space_ f') = 0x1000.
Proof.
  pose proof (surjective_pairing (handle demo_fault_frame demo_refused)) as E.
  assert (R : (handle demo_fault_frame demo_refused).2 = Ok Fault.OUT_OF_MEMORY) by (vm_compute; reflexivity).
  rewrite R in E. exists (handle demo_fault_frame demo_refused).1. split; [exact E|].
  destruct (unresolved_page_fault_is_harmless demo_refused demo_fault_frame _ Fault.OUT_OF_MEMORY demo_refused_wf E ltac:(discriminate))
    as (E1 & E2 & _). split; [exact E1|]. rewrite E2. reflexivity.
Defined.
