(* ===== verification/Apic.v ===== *)
(** * Interrupt controllers

    Models src/cpu/system/apic.cpp: a timer and a queue of pending interrupts per core (the local
    APIC), the routes of external interrupt lines (the I/O APIC), and the system that delivers
    between them. *)

From S2P Require Import Prelude Logic Common Trap.

(* [include/mnos/cpu/system/interrupt_vector.hpp] [InterruptVector::timer] [55-58] *)
Definition timer_vector : Z := 32.
(* [include/mnos/cpu/system/interrupt_vector.hpp] [InterruptVector::tlb_shootdown] [65-68] *)
Definition tlb_shootdown_vector : Z := 240.
(* [include/mnos/cpu/system/interrupt_vector.hpp] [InterruptVector::reschedule] [70-73] *)
Definition reschedule_vector : Z := 241.
Abbreviation IO_APIC_IRQ_LINE_COUNT := 24.

(** ** Data *)

Module Irq.
(* [include/mnos/cpu/system/apic.hpp] [ApicInterruptKind] *)
Inductive ApicInterruptKind : Set := TIMER | IPI | EXTERNAL_IRQ.
End Irq.
Abbreviation ApicInterruptKind := Irq.ApicInterruptKind.
Module TimerMode.
(* [include/mnos/cpu/system/apic.hpp] [ApicTimerMode] *)
Inductive ApicTimerMode : Set := ONE_SHOT | PERIODIC.
End TimerMode.
Abbreviation ApicTimerMode := TimerMode.ApicTimerMode.
#[export] Instance ApicTimerMode_eq_dec : EqDecision ApicTimerMode.
Proof. solve_decision. Defined.

(* [include/mnos/cpu/system/apic.hpp] [ApicInterrupt] *)
Record ApicInterrupt : Set := mkInterrupt {
  interrupt_kind : ApicInterruptKind;
  interrupt_vector : Z;
  interrupt_target : Z;
  interrupt_source : option Z;
  interrupt_irq_line : option Z;
}.
(* [include/mnos/cpu/system/apic.hpp] [LocalApicTimer] *)
Record LocalApicTimer : Set := mkTimer {
  timer_enabled : bool;
  timer_mode : ApicTimerMode;
  timer_fires : Z;
  initial_count : Z;
  remaining_count : Z;
  elapsed_ticks : Z;
}.
(* [include/mnos/cpu/system/apic.hpp] [LocalApic] *)
Record LocalApic : Set := mkLocalApic {
  apic_core_id : Z;
  apic_enabled : bool;
  apic_timer : LocalApicTimer;
  pending_interrupts : list ApicInterrupt;
}.
(** A slot of the route table. *)
(* [include/mnos/cpu/system/apic.hpp] [IoApic] *)
Record RouteSlot : Set := mkRoute { route_vector : Z; route_target : Z; route_masked : bool; route_present : bool }.
(* [include/mnos/cpu/system/apic.hpp] [ApicSystem] *)
Record ApicSystem : Set := mkApicSystem {
  apic_topology : CoreTopology;
  local_apics : list LocalApic;
  io_apic : list RouteSlot;
}.

(* [src/cpu/system/apic.cpp] [ApicInterrupt::timer] *)
Definition timer_interrupt (target_core vector : Z) : ApicInterrupt :=
  mkInterrupt Irq.TIMER vector target_core (Some target_core) None.
(* [src/cpu/system/apic.cpp] [ApicInterrupt::ipi] *)
Definition ipi (source_core target_core vector : Z) : ApicInterrupt :=
  mkInterrupt Irq.IPI vector target_core (Some source_core) None.
(* [src/cpu/system/apic.cpp] [ApicInterrupt::external_irq] *)
Definition external_irq (irq_line target_core vector : Z) : ApicInterrupt :=
  mkInterrupt Irq.EXTERNAL_IRQ vector target_core None (Some irq_line).

(** ** The timer *)

Definition make_timer : LocalApicTimer := mkTimer false TimerMode.ONE_SHOT timer_vector 1 1 0.
(* [src/cpu/system/apic.cpp] [LocalApicTimer::configure] *)
Definition configure (vector interval_ticks : Z) (mode : ApicTimerMode) : M LocalApicTimer unit :=
  throw_if (interval_ticks <? 1) invalid_argument ≫= fun _ =>
  modify (fun t => mkTimer true mode vector interval_ticks interval_ticks (elapsed_ticks t)).
(* [src/cpu/system/apic.cpp] [LocalApicTimer::disable] *)
Definition timer_disable (t : LocalApicTimer) : LocalApicTimer :=
  mkTimer false (timer_mode t) (timer_fires t) (initial_count t) (remaining_count t) (elapsed_ticks t).
(* [src/cpu/system/apic.cpp] [LocalApicTimer::tick] *)
Definition timer_tick : M LocalApicTimer (option Z) := fun t =>
  if negb (timer_enabled t) then (t, Ok None)
  else
    let t := mkTimer (timer_enabled t) (timer_mode t) (timer_fires t) (initial_count t)
      (sub64 (remaining_count t) 1) (add64 (elapsed_ticks t) 1) in
    if negb (remaining_count t =? 0) then (t, Ok None)
    else if bool_decide (timer_mode t = TimerMode.PERIODIC) then
      (mkTimer (timer_enabled t) (timer_mode t) (timer_fires t) (initial_count t) (initial_count t) (elapsed_ticks t), Ok (Some (timer_fires t)))
    else (timer_disable t, Ok (Some (timer_fires t))).

(** ** The local APIC *)

Definition set_apic_enabled (e : bool) (a : LocalApic) : LocalApic := mkLocalApic (apic_core_id a) e (apic_timer a) (pending_interrupts a).
Definition set_pending_interrupts (l : list ApicInterrupt) (a : LocalApic) : LocalApic :=
  mkLocalApic (apic_core_id a) (apic_enabled a) (apic_timer a) l.
(* [src/cpu/system/apic.cpp] [LocalApic::LocalApic] *)
Definition make_local_apic (core_id : Z) : LocalApic := mkLocalApic core_id false make_timer [].
(* [src/cpu/system/apic.cpp] [LocalApic::enable] *)
Definition apic_enable : LocalApic -> LocalApic := set_apic_enabled true.
(* [src/cpu/system/apic.cpp] [LocalApic::disable] *)
Definition apic_disable : LocalApic -> LocalApic := set_apic_enabled false.
Definition on_timer {A} : M LocalApicTimer A -> M LocalApic A :=
  zoom apic_timer (fun t a => mkLocalApic (apic_core_id a) (apic_enabled a) t (pending_interrupts a)).
(* [src/cpu/system/apic.cpp] [LocalApic::configure_periodic_timer] *)
Definition configure_periodic_timer (vector interval_ticks : Z) : M LocalApic unit :=
  on_timer (configure vector interval_ticks TimerMode.PERIODIC).
(* [src/cpu/system/apic.cpp] [LocalApic::configure_one_shot_timer] *)
Definition configure_one_shot_timer (vector interval_ticks : Z) : M LocalApic unit :=
  on_timer (configure vector interval_ticks TimerMode.ONE_SHOT).
(* [src/cpu/system/apic.cpp] [LocalApic::tick] *)
Definition apic_tick : M LocalApic (option ApicInterrupt) :=
  get ≫= fun a =>
  if negb (apic_enabled a) then mret None
  else
    on_timer timer_tick ≫= fun fired_vector =>
    match fired_vector with
    | None => mret None
    | Some vector =>
        let interrupt := timer_interrupt (apic_core_id a) vector in
        modify (fun a => set_pending_interrupts (pending_interrupts a ++ [interrupt]) a) ≫= fun _ =>
        mret (Some interrupt)
    end.
(* [src/cpu/system/apic.cpp] [LocalApic::receive_interrupt] *)
Definition receive_interrupt (interrupt : ApicInterrupt) : M LocalApic bool :=
  get ≫= fun a =>
  throw_if (negb (interrupt_target interrupt =? apic_core_id a)) logic_error ≫= fun _ =>
  if negb (apic_enabled a) then mret false
  else
    modify (fun a => set_pending_interrupts (pending_interrupts a ++ [interrupt]) a) ≫= fun _ =>
    mret true.
(* [src/cpu/system/apic.cpp] [LocalApic::take_pending_interrupt] *)
Definition local_take_pending : M LocalApic (option ApicInterrupt) := fun a =>
  match pending_interrupts a with
  | [] => (a, Ok None)
  | interrupt :: rest => if negb (apic_enabled a) then (a, Ok None) else (set_pending_interrupts rest a, Ok (Some interrupt))
  end.

(** ** The I/O APIC *)

Definition make_io_apic : list RouteSlot := replicate 24 (mkRoute timer_vector 0 false false).
(* [src/cpu/system/apic.cpp] [IoApic::irq_index] *)
Definition irq_index (irq_line : Z) : res nat :=
  if IO_APIC_IRQ_LINE_COUNT <=? irq_line then Throw out_of_range else Ok (Z.to_nat irq_line).
(** The slot of a line; a checked index is within the array. *)
Definition slot_at (irq_line : Z) (io : list RouteSlot) : res RouteSlot :=
  i ← irq_index irq_line; match io !! i with Some slot => Ok slot | None => Throw logic_error end.
Definition change_slot (irq_line : Z) (change : RouteSlot -> res RouteSlot) : M (list RouteSlot) unit := fun io =>
  match (slot ← slot_at irq_line io; change slot) with
  | Ok slot => (<[Z.to_nat irq_line := slot]> io, Ok tt)
  | Throw e => (io, Throw e)
  end.
(* [src/cpu/system/apic.cpp] [IoApic::has_route] *)
Definition has_route (irq_line : Z) (io : list RouteSlot) : res bool := slot ← slot_at irq_line io; Ok (route_present slot).
(* [src/cpu/system/apic.cpp] [IoApic::route_at] *)
Definition route_at (irq_line : Z) (io : list RouteSlot) : res RouteSlot :=
  slot ← slot_at irq_line io; if negb (route_present slot) then Throw out_of_range else Ok slot.
(* [src/cpu/system/apic.cpp] [IoApic::set_route] *)
Definition set_route (irq_line vector target_core : Z) : M (list RouteSlot) unit :=
  change_slot irq_line (fun _ => Ok (mkRoute vector target_core false true)).
(* [src/cpu/system/apic.cpp] [IoApic::clear_route] *)
Definition clear_route (irq_line : Z) : M (list RouteSlot) unit :=
  change_slot irq_line (fun slot => Ok (mkRoute (route_vector slot) (route_target slot) (route_masked slot) false)).
(* [src/cpu/system/apic.cpp] [IoApicRoute::with_masked] *)
Definition with_masked (masked : bool) (slot : RouteSlot) : RouteSlot :=
  mkRoute (route_vector slot) (route_target slot) masked (route_present slot).
(* [src/cpu/system/apic.cpp] [IoApic::mask_irq] *)
Definition mask_irq (irq_line : Z) : M (list RouteSlot) unit :=
  change_slot irq_line (fun slot => if negb (route_present slot) then Throw out_of_range else Ok (with_masked true slot)).
(* [src/cpu/system/apic.cpp] [IoApic::unmask_irq] *)
Definition unmask_irq (irq_line : Z) : M (list RouteSlot) unit :=
  change_slot irq_line (fun slot => if negb (route_present slot) then Throw out_of_range else Ok (with_masked false slot)).
(* [src/cpu/system/apic.cpp] [IoApic::raise_irq] *)
Definition io_raise_irq (irq_line : Z) (io : list RouteSlot) : res (option ApicInterrupt) :=
  slot ← slot_at irq_line io;
  if negb (route_present slot) || route_masked slot then Ok None
  else Ok (Some (external_irq irq_line (route_target slot) (route_vector slot))).

(** ** The system *)

Abbreviation AM A := (M ApicSystem A).
(* [src/cpu/system/apic.cpp] [ApicSystem::ApicSystem] *)
Definition make_apic_system (t : CoreTopology) : ApicSystem :=
  mkApicSystem t (make_local_apic <$> seqZ 0 (core_count t)) make_io_apic.
(* [src/cpu/system/apic.cpp] [ApicSystem::local_apic_index] *)
Definition local_apic_index (core_id : Z) (s : ApicSystem) : res nat :=
  if negb (topology_contains (apic_topology s) core_id) then Throw out_of_range else Ok (Z.to_nat core_id).
(** A call on a local APIC; there is one for every core of the topology. *)
(* [src/cpu/system/apic.cpp] [ApicSystem::local_apic] *)
Definition on_local {A} (core_id : Z) (call : M LocalApic A) : AM A := fun s =>
  match local_apic_index core_id s with
  | Throw e => (s, Throw e)
  | Ok i =>
      match local_apics s !! i with
      | None => (s, Throw logic_error)
      | Some a => let '(a', r) := call a in (mkApicSystem (apic_topology s) (<[i := a']> (local_apics s)) (io_apic s), r)
      end
  end.
(* [src/cpu/system/apic.cpp] [ApicSystem::enable_local_apics] *)
Definition enable_local_apics : AM unit :=
  modify (fun s => mkApicSystem (apic_topology s) (map apic_enable (local_apics s)) (io_apic s)).
(* [src/cpu/system/apic.cpp] [ApicSystem::tick] *)
Definition system_tick (core_id : Z) : AM (option ApicInterrupt) := on_local core_id apic_tick.
(* [src/cpu/system/apic.cpp] [ApicSystem::send_ipi] *)
Definition send_ipi (source_core target_core vector : Z) : AM bool :=
  lift (local_apic_index source_core) ≫= fun _ =>
  on_local target_core (receive_interrupt (ipi source_core target_core vector)).
(** The loop over the local APICs. *)
Fixpoint broadcast_loop (source_core vector : Z) (cores : list Z) (delivered_count : Z) : AM Z :=
  match cores with
  | [] => mret delivered_count
  | core :: rest =>
      if core =? source_core then broadcast_loop source_core vector rest delivered_count
      else
        on_local core (receive_interrupt (ipi source_core core vector)) ≫= fun delivered =>
        broadcast_loop source_core vector rest (if delivered : bool then delivered_count + 1 else delivered_count)
  end.
(* [src/cpu/system/apic.cpp] [ApicSystem::broadcast_ipi] *)
Definition broadcast_ipi (source_core vector : Z) : AM Z :=
  lift (local_apic_index source_core) ≫= fun _ =>
  get ≫= fun s =>
  broadcast_loop source_core vector (apic_core_id <$> local_apics s) 0.
(* [src/cpu/system/apic.cpp] [ApicSystem::raise_irq] *)
Definition raise_irq (irq_line : Z) : AM (option ApicInterrupt) :=
  lift (fun s => io_raise_irq irq_line (io_apic s)) ≫= fun interrupt =>
  match interrupt with
  | None => mret None
  | Some i =>
      on_local (interrupt_target i) (receive_interrupt i) ≫= fun delivered =>
      if negb delivered then mret None else mret (Some i)
  end.
(* [src/cpu/system/apic.cpp] [ApicSystem::take_pending_interrupt] *)
Definition take_pending_interrupt (core_id : Z) : AM (option ApicInterrupt) := on_local core_id local_take_pending.

(** ** The periodic timer *)

(** The replies of so many ticks. *)
Fixpoint ticks (n : nat) : M LocalApicTimer (list (option Z)) :=
  match n with
  | O => mret []
  | S n' => timer_tick ≫= fun fired => ticks n' ≫= fun rest => mret (fired :: rest)
  end.
(** The timer after [k] ticks of a period that started with [interval]. *)
Definition counting (vector interval elapsed k : Z) : LocalApicTimer :=
  mkTimer true TimerMode.PERIODIC vector interval (interval - k `mod` interval) (wrap64 (elapsed + k)).
Lemma counting_step vector interval elapsed k : 0 < interval < W64 -> 0 <= k ->
  timer_tick (counting vector interval elapsed k) =
  (counting vector interval elapsed (k + 1), Ok (if (k + 1) `mod` interval =? 0 then Some vector else None)).
Proof.
  intros Hi Hk. unfold timer_tick, counting. cbn [timer_enabled negb remaining_count timer_mode timer_fires initial_count elapsed_ticks].
  pose proof (Z.mod_pos_bound k interval ltac:(lia)) as Hm. rewrite sub64_small by lia.
  assert (Ee : add64 (wrap64 (elapsed + k)) 1 = wrap64 (elapsed + (k + 1))).
  { unfold add64, wrap64. rewrite Zplus_mod_idemp_l. f_equal. lia. }
  rewrite Ee. pose proof (Z.add_mod k 1 interval ltac:(lia)) as Hs.
  destruct (Z.eqb_spec (interval - k mod interval - 1) 0) as [Hz|Hz]; cbn [negb].
  - assert (Hn : (k + 1) mod interval = 0).
    { rewrite <- (Z.mod_unique (k + 1) interval (k / interval + 1) 0); [done|lia|]. pose proof (Z.div_mod k interval ltac:(lia)). nia. }
    rewrite Hn, bool_decide_true by done. by replace (interval - 0) with interval by lia.
  - assert (Hn : (k + 1) mod interval = k mod interval + 1).
    { symmetry. apply (Z.mod_unique _ _ (k / interval)); [lia|]. pose proof (Z.div_mod k interval ltac:(lia)). lia. }
    rewrite Hn, (proj2 (Z.eqb_neq _ _)) by lia. do 2 f_equal. lia.
Qed.
(** Once configured with an interval, a periodic timer fires on the ticks whose number is a multiple
    of the interval and on no other. *)
Theorem periodic_timer_fires vector interval t n : 0 < interval < W64 -> 0 <= elapsed_ticks t < W64 ->
  exists t', (configure vector interval TimerMode.PERIODIC ≫= fun _ => ticks n) t =
    (t', Ok ((fun k => if (k + 1) `mod` interval =? 0 then Some vector else None) <$> seqZ 0 (Z.of_nat n))).
Proof.
  intros Hi He. unfold configure. munfold_goal. rewrite (proj2 (Z.ltb_ge interval 1)) by lia.
  replace (mkTimer true TimerMode.PERIODIC vector interval interval (elapsed_ticks t)) with (counting vector interval (elapsed_ticks t) 0).
  2:{ unfold counting. rewrite Z.mod_0_l by lia. f_equal; [lia|]. rewrite Z.add_0_r. by apply wrap64_small. }
  assert (H : forall k, 0 <= k -> ticks n (counting vector interval (elapsed_ticks t) k) = (counting vector interval (elapsed_ticks t) (k + Z.of_nat n),
    Ok ((fun k => if (k + 1) `mod` interval =? 0 then Some vector else None) <$> seqZ k (Z.of_nat n)))).
  { induction n as [|n IH]; intros k Hk; [by rewrite Z.add_0_r|]. cbn [ticks]. munfold_goal. rewrite counting_step by done.
    rewrite IH by lia. rewrite (seqZ_cons k) by lia. replace (Z.pred (Z.of_nat (S n))) with (Z.of_nat n) by lia. cbn [fmap list_fmap].
    replace (k + 1 + Z.of_nat n) with (k + Z.of_nat (S n)) by lia. by replace (Z.succ k) with (k + 1) by lia. }
  eexists. by apply H.
Qed.

(** ** Delivery *)

Inductive apic_request : Set :=
  | SendIpi (source target vector : Z)
  | BroadcastIpi (source vector : Z)
  | RaiseIrq (line : Z)
  | SetRoute (line vector target : Z)
  | MaskIrq (line : Z) (masked : bool)
  | Tick (core : Z)
  | SetEnabled (core : Z) (enabled : bool)
  | SetTimer (core vector interval : Z) (mode : ApicTimerMode)
  | TakePending (core : Z).
Definition apic_serve (q : apic_request) : AM (option ApicInterrupt) :=
  match q with
  | SendIpi s t v => send_ipi s t v ≫= fun _ => mret None
  | BroadcastIpi s v => broadcast_ipi s v ≫= fun _ => mret None
  | RaiseIrq l => raise_irq l ≫= fun _ => mret None
  | SetRoute l v t => zoom io_apic (fun io s => mkApicSystem (apic_topology s) (local_apics s) io) (set_route l v t) ≫= fun _ => mret None
  | MaskIrq l m => zoom io_apic (fun io s => mkApicSystem (apic_topology s) (local_apics s) io) (if m then mask_irq l else unmask_irq l) ≫= fun _ => mret None
  | Tick c => system_tick c ≫= fun _ => mret None
  | SetEnabled c e => on_local c (modify (set_apic_enabled e)) ≫= fun _ => mret None
  | SetTimer c v n m => on_local c (on_timer (configure v n m)) ≫= fun _ => mret None
  | TakePending c => take_pending_interrupt c
  end.
Definition request_cores (q : apic_request) : list Z :=
  match q with
  | SendIpi s t _ => [s; t] | BroadcastIpi s _ => [s] | SetRoute _ _ t => [t] | Tick c | SetEnabled c _ | SetTimer c _ _ _ | TakePending c => [c]
  | RaiseIrq _ | MaskIrq _ _ => []
  end.

Definition local_of (s : ApicSystem) (core : Z) : option LocalApic := local_apics s !! Z.to_nat core.
Definition pending_of (s : ApicSystem) (core : Z) : list ApicInterrupt := from_option pending_interrupts [] (local_of s core).
Definition listening (s : ApicSystem) (core : Z) : bool := from_option apic_enabled false (local_of s core).
Definition in_topology (s : ApicSystem) (core : Z) : bool := core <? core_count (apic_topology s).
(** What a request sends, whether or not the target listens. *)
Definition sent (q : apic_request) (s : ApicSystem) : list ApicInterrupt :=
  match q with
  | SendIpi src t v => if in_topology s src && in_topology s t then [ipi src t v] else []
  | BroadcastIpi src v =>
      if in_topology s src then (fun c => ipi src c v) <$> filter (fun c => c <> src) (seqZ 0 (core_count (apic_topology s))) else []
  | RaiseIrq l => match io_raise_irq l (io_apic s) with Ok (Some i) => if in_topology s (interrupt_target i) then [i] else [] | _ => [] end
  | Tick c => match local_of s c with
              | Some a => match (timer_tick (apic_timer a)).2 with Ok (Some v) => [timer_interrupt c v] | _ => [] end
              | None => []
              end
  | _ => []
  end.
(** What a core gets. *)
Definition delivered (q : apic_request) (s : ApicSystem) (core : Z) : list ApicInterrupt :=
  if listening s core then filter (fun i => interrupt_target i = core) (sent q s) else [].
(** What a request takes from a core, by its reply. *)
Definition taken (q : apic_request) (reply : res (option ApicInterrupt)) (core : Z) : list ApicInterrupt :=
  match q, reply with TakePending c, Ok (Some i) => if decide (c = core) then [i] else [] | _, _ => [] end.
(** The same over a sequence of requests. *)
Fixpoint all_delivered (qs : list apic_request) (s : ApicSystem) (core : Z) : list ApicInterrupt :=
  match qs with [] => [] | q :: qs => delivered q s core ++ all_delivered qs (apic_serve q s).1 core end.
Fixpoint all_taken (qs : list apic_request) (s : ApicSystem) (core : Z) : list ApicInterrupt :=
  match qs with [] => [] | q :: qs => taken q (apic_serve q s).2 core ++ all_taken qs (apic_serve q s).1 core end.

(** One local APIC for each core, in order; routes lead to cores. *)
Record apic_wf (s : ApicSystem) : Prop := {
  aw_locals : length (local_apics s) = Z.to_nat (core_count (apic_topology s));
  aw_count : 0 <= core_count (apic_topology s);
  aw_ids i a : local_apics s !! i = Some a -> apic_core_id a = Z.of_nat i;
  aw_routes i slot : io_apic s !! i = Some slot -> 0 <= route_target slot;
}.
Lemma local_of_some s c : apic_wf s -> 0 <= c -> is_Some (local_of s c) <-> in_topology s c = true.
Proof. intros [Hl Hc _ _] H0. unfold local_of, in_topology. rewrite lookup_lt_is_Some, Hl, Z.ltb_lt. lia. Qed.
Lemma local_of_id s c a : apic_wf s -> 0 <= c -> local_of s c = Some a -> apic_core_id a = c.
Proof. intros Hwf H0 E. rewrite (aw_ids s Hwf _ _ E). lia. Qed.

(** A call on the local APIC of a core changes that core only. *)
Definition put_local (c : Z) (a : LocalApic) (s : ApicSystem) : ApicSystem := mkApicSystem (apic_topology s) (<[Z.to_nat c := a]> (local_apics s)) (io_apic s).
Lemma on_local_run {A} c (call : M LocalApic A) s : apic_wf s -> 0 <= c ->
  on_local c call s = match local_of s c with Some a => (put_local c (call a).1 s, (call a).2) | None => (s, Throw out_of_range) end.
Proof.
  intros Hwf H0. pose proof (local_of_some s c Hwf H0) as Hs. unfold on_local, local_apic_index, topology_contains. fold (in_topology s c).
  destruct (in_topology s c); cbn [negb].
  - unfold local_of in *. destruct (local_apics s !! Z.to_nat c) as [a|]; [by destruct (call a)|]. by destruct (proj2 Hs eq_refl).
  - destruct (local_of s c); [|done]. assert (false = true) by (apply Hs; by eexists). done.
Qed.
Lemma put_local_wf c a0 a s : apic_wf s -> 0 <= c -> local_of s c = Some a0 -> apic_core_id a = apic_core_id a0 -> apic_wf (put_local c a s).
Proof.
  intros Hwf H0 E Hid. pose proof Hwf as [Hl Hc Hi Hr]. split; cbn [put_local local_apics apic_topology io_apic]; try done; [by rewrite length_insert|].
  intros i x Hx. apply list_lookup_insert_Some in Hx as [(<- & -> & _)|[_ Hx]]; [|by apply Hi]. rewrite Hid. by apply Hi.
Qed.
Lemma local_of_put c a0 a s c' : 0 <= c -> 0 <= c' -> local_of s c = Some a0 -> local_of (put_local c a s) c' = if decide (c' = c) then Some a else local_of s c'.
Proof.
  intros H0 H0' E. unfold local_of, put_local in *. cbn [local_apics]. case_decide as Hc.
  - subst. rewrite list_lookup_insert_eq; [done|]. by eapply lookup_lt_Some.
  - by rewrite list_lookup_insert_ne by lia.
Qed.

Lemma put_local_pending c a0 a s c' : 0 <= c -> 0 <= c' -> local_of s c = Some a0 ->
  pending_of (put_local c a s) c' = if decide (c' = c) then pending_interrupts a else pending_of s c'.
Proof. intros H0 H0' E. unfold pending_of. rewrite (local_of_put c a0) by done. by case_decide. Qed.

(** What a request does: the invariant is kept, a core's queue gains what it is delivered and loses
    what is taken, and the topology stays. *)
Definition serves (q : apic_request) (s : ApicSystem) (s' : ApicSystem) (reply : res (option ApicInterrupt)) : Prop :=
  apic_wf s' /\ apic_topology s' = apic_topology s /\
  forall c, 0 <= c -> taken q reply c ++ pending_of s' c = pending_of s c ++ delivered q s c.
Lemma receive_eq i a : interrupt_target i = apic_core_id a ->
  receive_interrupt i a = if apic_enabled a then (set_pending_interrupts (pending_interrupts a ++ [i]) a, Ok true) else (a, Ok false).
Proof. intros Ht. unfold receive_interrupt. munfold_goal. rewrite Ht, Z.eqb_refl. cbn [negb]. by destruct (apic_enabled a). Qed.
(** An interrupt sent to one core. *)
Lemma receive_serves i s : apic_wf s -> 0 <= interrupt_target i ->
  let '(s', r) := on_local (interrupt_target i) (receive_interrupt i) s in
  apic_wf s' /\ apic_topology s' = apic_topology s /\ io_apic s' = io_apic s /\ (forall c, 0 <= c -> listening s' c = listening s c) /\
  (if in_topology s (interrupt_target i) then exists b, r = Ok b else exists e, r = Throw e) /\
  forall c, 0 <= c -> pending_of s' c = pending_of s c ++
    (if listening s c then filter (fun i => interrupt_target i = c) (if in_topology s (interrupt_target i) then [i] else []) else []).
Proof.
  intros Hwf H0. rewrite on_local_run by done. pose proof (local_of_some s _ Hwf H0) as Hs. set (t := interrupt_target i) in *.
  destruct (local_of s t) as [a|] eqn:Ea.
  - rewrite (proj1 Hs) by done. pose proof (local_of_id s t a Hwf H0 Ea) as Hid. rewrite receive_eq by done.
    assert (Hlis : listening s t = apic_enabled a) by (unfold listening; by rewrite Ea).
    assert (Hne : forall c, c <> t -> (if listening s c then filter (fun j => interrupt_target j = c) [i] else []) = []).
    { intros c Hc. destruct (listening s c); [|done]. rewrite filter_cons, decide_False; [done|]. fold t. congruence. }
    assert (Heq : filter (fun j => interrupt_target j = t) [i] = [i]) by (rewrite filter_cons; by rewrite decide_True).
    destruct (apic_enabled a) eqn:Een; cbn [fst snd].
    all: split; [by apply (put_local_wf t a)|]; split; [done|]; split; [done|]; split; [|split; [by eexists|]].
    1,3: intros c Hc; unfold listening; rewrite (local_of_put t a) by done; case_decide; [subst; by rewrite Ea|done].
    all: intros c Hc; rewrite (put_local_pending t a) by done; case_decide as Hct; [subst c|by rewrite Hne, app_nil_r].
    all: rewrite Hlis, ?Heq; unfold pending_of; by rewrite Ea, ?app_nil_r.
  - destruct (in_topology s t) eqn:Et; [by destruct (proj2 Hs eq_refl)|].
    split_and!; try done; [by eexists|]. intros c Hc. destruct (listening s c); by rewrite app_nil_r.
Qed.

Lemma broadcast_serves src v cores : forall n s, apic_wf s -> Forall (fun c => 0 <= c /\ in_topology s c = true) cores ->
  exists s' n', broadcast_loop src v cores n s = (s', Ok n') /\ apic_wf s' /\ apic_topology s' = apic_topology s /\
  (forall c, 0 <= c -> listening s' c = listening s c) /\
  forall c, 0 <= c -> pending_of s' c = pending_of s c ++
    (if listening s c then filter (fun i => interrupt_target i = c) ((fun c => ipi src c v) <$> filter (fun c => c <> src) cores) else []).
Proof.
  induction cores as [|t cores IH]; intros n s Hwf Hc.
  - exists s, n. split_and!; try done. intros c _. destruct (listening s c); by rewrite app_nil_r.
  - apply Forall_cons in Hc as [[H0 Ht] Hc]. cbn [broadcast_loop]. destruct (Z.eqb_spec t src) as [->|Hne].
    { rewrite filter_cons, decide_False by tauto. by apply IH. }
    pose proof (receive_serves (ipi src t v) s Hwf H0) as Hr. cbn [interrupt_target ipi] in Hr. rewrite Ht in Hr. munfold_goal.
    destruct (on_local t (receive_interrupt (ipi src t v)) s) as [s1 r]. destruct Hr as (Hwf1 & Ht1 & _ & Hl1 & [b ->] & Hp1).
    destruct (IH (if b then n + 1 else n) s1 Hwf1) as (s' & n' & E & Hwf' & Ht' & Hl' & Hp').
    { unfold in_topology in *. by rewrite Ht1. }
    exists s', n'. split; [exact E|]. split; [done|]. split; [congruence|]. split; [intros c H; by rewrite Hl', Hl1|].
    intros c H. rewrite Hp', Hp1, Hl1, <- app_assoc by done. f_equal. destruct (listening s c); [|done].
    rewrite (filter_cons _ t cores), decide_True by done. rewrite fmap_cons, !filter_cons. cbn [interrupt_target ipi].
    by destruct (decide (t = c)).
Qed.
Lemma local_ids s : apic_wf s -> apic_core_id <$> local_apics s = seqZ 0 (core_count (apic_topology s)).
Proof.
  intros [Hl Hc Hi _]. apply list_eq. intros i. rewrite list_lookup_fmap. destruct (local_apics s !! i) as [a|] eqn:E; cbn [fmap option_fmap option_map].
  - symmetry. apply lookup_seqZ. rewrite (Hi _ _ E). apply lookup_lt_Some in E. lia.
  - symmetry. apply lookup_seqZ_ge. apply lookup_ge_None in E. lia.
Qed.
Lemma slot_at_found l io i : io_raise_irq l io = Ok (Some i) -> exists slot, io !! Z.to_nat l = Some slot /\ interrupt_target i = route_target slot.
Proof.
  unfold io_raise_irq, slot_at, irq_index. munfold_goal. destruct (24 <=? l); [done|]. destruct (io !! Z.to_nat l) as [slot|]; [|done].
  destruct (_ || _); [done|]. intros [= <-]. by exists slot.
Qed.

(** Changes of one local APIC that leave its queue alone. *)
Lemma on_local_quiet {A} c (call : M LocalApic A) s : apic_wf s -> 0 <= c ->
  (forall a, apic_core_id (call a).1 = apic_core_id a /\ pending_interrupts (call a).1 = pending_interrupts a) ->
  let s' := (on_local c call s).1 in apic_wf s' /\ apic_topology s' = apic_topology s /\ forall c, 0 <= c -> pending_of s' c = pending_of s c.
Proof.
  intros Hwf H0 Hq. rewrite on_local_run by done. destruct (local_of s c) as [a|] eqn:Ea; cbn [fst]; [|done].
  destruct (Hq a) as [Hid Hp]. split; [by apply (put_local_wf c a)|]. split; [done|]. intros c' Hc'.
  rewrite (put_local_pending c a) by done. case_decide as Hd; [|done]. subst. rewrite Hp. unfold pending_of. by rewrite Ea.
Qed.
Lemma change_slot_wf s l change : apic_wf s -> (forall slot slot', change slot = Ok slot' -> 0 <= route_target slot -> 0 <= route_target slot') ->
  let io := (change_slot l change (io_apic s)).1 in apic_wf (mkApicSystem (apic_topology s) (local_apics s) io).
Proof.
  intros [Hl Hc Hi Hr] Hch. unfold change_slot, slot_at. munfold_goal. split; cbn [local_apics apic_topology io_apic]; try done.
  destruct (irq_index l) as [i|] eqn:Ei; [|done]. destruct (io_apic s !! i) as [slot|] eqn:Es; [|done]. destruct (change slot) as [slot'|] eqn:Ech; [|done].
  unfold irq_index in Ei. destruct (24 <=? l); [done|]. injection Ei as <-. cbn [fst]. intros j x Hx.
  apply list_lookup_insert_Some in Hx as [(_ & <- & _)|[_ Hx]]; [|by eapply Hr]. apply (Hch slot); [done|]. by eapply Hr.
Qed.

(** A request that sends and takes nothing. *)
Lemma serves_quiet q s s' reply : (forall c, taken q reply c = []) -> sent q s = [] -> apic_wf s' -> apic_topology s' = apic_topology s ->
  (forall c, 0 <= c -> pending_of s' c = pending_of s c) -> serves q s s' reply.
Proof.
  intros Ht Hs Hwf Htop Hp. split; [done|]. split; [done|]. intros c Hc. rewrite Ht, Hp by done. unfold delivered. rewrite Hs.
  destruct (listening s c); by rewrite app_nil_r.
Qed.
Lemma taken_none q c : taken q (Ok None) c = [].
Proof. by destruct q. Qed.
Lemma taken_throw q e c : taken q (Throw e) c = [].
Proof. by destruct q. Qed.
Lemma taken_other q r c : (forall c', q <> TakePending c') -> taken q r c = [].
Proof. intros Hq. destruct q as [| | | | | | | |c0]; try done. by destruct (Hq c0). Qed.
(** A call without a result, as a request. *)
Lemma ignored_fst {A} (m : AM A) s : ((m ≫= fun _ => mret (M := M ApicSystem) (@None ApicInterrupt)) s).1 = (m s).1.
Proof. munfold_goal. by destruct (m s) as [s' [a|e]]. Qed.

Lemma send_serves src t v s : apic_wf s -> 0 <= t -> let p := apic_serve (SendIpi src t v) s in serves (SendIpi src t v) s p.1 p.2.
Proof.
  intros Hwf H0. cbn zeta. pose proof (receive_serves (ipi src t v) s Hwf H0) as Hr. cbn [interrupt_target ipi] in Hr.
  unfold apic_serve, send_ipi, local_apic_index, topology_contains. munfold_goal. fold (in_topology s src).
  destruct (in_topology s src) eqn:Es; cbn [negb].
  2:{ split; [done|]. split; [done|]. intros c Hc. unfold delivered, sent. rewrite Es. cbn. destruct (listening s c); by rewrite app_nil_r. }
  destruct (on_local t _ s) as [s1 [b|e]]; cbn [fst snd]; destruct Hr as (Hwf1 & Ht1 & _ & _ & _ & Hp).
  all: split; [done|]; split; [done|]; intros c Hc; rewrite Hp by done; unfold delivered, sent; by rewrite Es.
Qed.
Lemma broadcast_request src v s : apic_wf s -> let p := apic_serve (BroadcastIpi src v) s in serves (BroadcastIpi src v) s p.1 p.2.
Proof.
  intros Hwf. cbn zeta. unfold apic_serve, broadcast_ipi, local_apic_index, topology_contains. munfold_goal. fold (in_topology s src).
  destruct (in_topology s src) eqn:Es; cbn [negb].
  2:{ split; [done|]. split; [done|]. intros c Hc. unfold delivered, sent. rewrite Es. cbn. destruct (listening s c); by rewrite app_nil_r. }
  rewrite local_ids by done. destruct (broadcast_serves src v (seqZ 0 (core_count (apic_topology s))) 0 s Hwf) as (s' & n & -> & Hwf' & Ht' & _ & Hp).
  { apply Forall_forall. intros c Hc. apply elem_of_seqZ in Hc. unfold in_topology. rewrite Z.ltb_lt. lia. }
  split; [done|]. split; [done|]. intros c Hc. cbn [fst snd]. rewrite Hp by done. unfold delivered, sent. by rewrite Es.
Qed.
Lemma raise_serves l s : apic_wf s -> let p := apic_serve (RaiseIrq l) s in serves (RaiseIrq l) s p.1 p.2.
Proof.
  intros Hwf. cbn zeta. unfold apic_serve, raise_irq. munfold_goal. destruct (io_raise_irq l (io_apic s)) as [[i|]|e] eqn:Er; cbn [fst snd].
  2,3: apply serves_quiet; try done; cbn [sent]; by rewrite Er.
  destruct (slot_at_found _ _ _ Er) as (slot & Hslot & Htgt). assert (H0 : 0 <= interrupt_target i) by (rewrite Htgt; by apply (aw_routes s Hwf _ _ Hslot)).
  pose proof (receive_serves i s Hwf H0) as Hr. destruct (on_local (interrupt_target i) _ s) as [s1 r]. destruct Hr as (Hwf1 & Ht1 & _ & _ & _ & Hp).
  assert (Hser : forall o, serves (RaiseIrq l) s s1 o).
  { intros o. split; [done|]. split; [done|]. intros c Hc. rewrite Hp by done. unfold delivered, sent. by rewrite Er. }
  destruct r as [b|e]; cbn [fst snd]; [|apply Hser]. destruct (negb b); cbn [fst snd]; apply Hser.
Qed.
Lemma tick_eq a : apic_tick a = if negb (apic_enabled a) then (a, Ok None) else
  match (timer_tick (apic_timer a)).2 with
  | Ok (Some v) => (mkLocalApic (apic_core_id a) (apic_enabled a) (timer_tick (apic_timer a)).1 (pending_interrupts a ++ [timer_interrupt (apic_core_id a) v]), Ok (Some (timer_interrupt (apic_core_id a) v)))
  | Ok None => (mkLocalApic (apic_core_id a) (apic_enabled a) (timer_tick (apic_timer a)).1 (pending_interrupts a), Ok None)
  | Throw e => (mkLocalApic (apic_core_id a) (apic_enabled a) (timer_tick (apic_timer a)).1 (pending_interrupts a), Throw e)
  end.
Proof.
  unfold apic_tick. munfold_goal. destruct (negb (apic_enabled a)); [done|]. unfold on_timer, zoom.
  by destruct (timer_tick (apic_timer a)) as [t [[v|]|e]].
Qed.
Lemma tick_serves core s : apic_wf s -> 0 <= core -> let p := apic_serve (Tick core) s in serves (Tick core) s p.1 p.2.
Proof.
  intros Hwf H0. cbn zeta. unfold apic_serve, system_tick. munfold_goal. rewrite on_local_run by done.
  destruct (local_of s core) as [a|] eqn:Ea; cbn [fst snd].
  2:{ apply serves_quiet; try done. cbn [sent]. by rewrite Ea. }
  pose proof (local_of_id s core a Hwf H0 Ea) as Hid. assert (Hlis : listening s core = apic_enabled a) by (unfold listening; by rewrite Ea).
  assert (Hser : forall a' o l, apic_core_id a' = apic_core_id a -> pending_interrupts a' = pending_interrupts a ++ l ->
    l = (if apic_enabled a then sent (Tick core) s else []) -> serves (Tick core) s (put_local core a' s) o).
  { intros a' o l Hid' Hp' Hl. split; [by apply (put_local_wf core a)|]. split; [done|]. intros c Hc. cbn [taken app].
    rewrite (put_local_pending core a) by done. unfold delivered. case_decide as Hcc.
    - subst c. rewrite Hp', Hlis. unfold pending_of. rewrite Ea. cbn [from_option]. f_equal. rewrite Hl. destruct (apic_enabled a); [|done].
      cbn [sent]. rewrite Ea. destruct (timer_tick (apic_timer a)).2 as [[v|]|]; try done. rewrite filter_cons. by rewrite decide_True.
    - assert (Hnone : filter (fun i => interrupt_target i = c) (sent (Tick core) s) = []).
      { cbn [sent]. rewrite Ea. destruct (timer_tick (apic_timer a)).2 as [[v|]|]; try done. rewrite filter_cons. rewrite decide_False; [done|]. cbn. congruence. }
      rewrite Hnone. destruct (listening s c); by rewrite app_nil_r. }
  rewrite tick_eq, Hid. cbn [sent] in Hser. rewrite Ea in Hser. destruct (apic_enabled a) eqn:Een; cbn [negb].
  - destruct (timer_tick (apic_timer a)).2 as [[v|]|e]; cbn [fst snd].
    + by apply (Hser _ _ [timer_interrupt core v]).
    + apply (Hser _ _ []); cbn; try done. by rewrite app_nil_r.
    + apply (Hser _ _ []); cbn; try done. by rewrite app_nil_r.
  - cbn [fst snd]. apply (Hser _ _ []); try done. by rewrite app_nil_r.
Qed.
Lemma take_serves core s : apic_wf s -> 0 <= core -> let p := apic_serve (TakePending core) s in serves (TakePending core) s p.1 p.2.
Proof.
  intros Hwf H0. cbn zeta. unfold apic_serve, take_pending_interrupt. rewrite on_local_run by done.
  assert (Hnone : forall c, delivered (TakePending core) s c = []) by (intros c; unfold delivered; by destruct (listening s c)).
  destruct (local_of s core) as [a|] eqn:Ea; cbn [fst snd].
  2:{ split; [done|]. split; [done|]. intros c Hc. by rewrite Hnone, app_nil_r. }
  assert (Hpa : pending_of s core = pending_interrupts a) by (unfold pending_of; by rewrite Ea).
  assert (Hid : apic_core_id (local_take_pending a).1 = apic_core_id a).
  { unfold local_take_pending. destruct (pending_interrupts a); [done|]. by destruct (negb _). }
  split; [by apply (put_local_wf core a)|]. split; [done|]. intros c Hc. rewrite Hnone, app_nil_r, (put_local_pending core a) by done.
  unfold local_take_pending. destruct (pending_interrupts a) as [|i l] eqn:Ep; [|destruct (negb (apic_enabled a)) eqn:Een]; cbn [fst snd taken app].
  all: destruct (decide (c = core)) as [->|Hn]; cbn [app]; rewrite ?decide_True, ?decide_False by done; cbn [app pending_interrupts set_pending_interrupts]; congruence.
Qed.
Lemma apic_serve_serves q s : apic_wf s -> Forall (fun c => 0 <= c) (request_cores q) -> let p := apic_serve q s in serves q s p.1 p.2.
Proof.
  intros Hwf Hq. destruct q as [src t v|src v|l|l v t|l m|c|c e|c v n m|c]; cbn [request_cores] in Hq; rewrite ?Forall_cons in Hq.
  - apply send_serves; tauto.
  - by apply broadcast_request.
  - by apply raise_serves.
  - assert (Hwf' : apic_wf (apic_serve (SetRoute l v t) s).1).
    { cbn [apic_serve]. rewrite ignored_fst. unfold zoom. pose proof (change_slot_wf s l (fun _ => Ok (mkRoute v t false true)) Hwf) as Hc.
      unfold set_route. destruct (change_slot l _ (io_apic s)) as [io r]. apply Hc. intros ? ? [= <-] _. cbn. tauto. }
    apply serves_quiet; try done.
    all: cbn [apic_serve]; rewrite ignored_fst; unfold zoom; by destruct (set_route l v t (io_apic s)).
  - assert (Hwf' : apic_wf (apic_serve (MaskIrq l m) s).1).
    { cbn [apic_serve]. rewrite ignored_fst. unfold zoom.
      pose proof (change_slot_wf s l (fun slot => if negb (route_present slot) then Throw out_of_range else Ok (with_masked m slot)) Hwf) as Hc.
      replace (if m then mask_irq l else unmask_irq l) with (change_slot l (fun slot => if negb (route_present slot) then Throw out_of_range else Ok (with_masked m slot))) by by destruct m.
      destruct (change_slot l _ (io_apic s)) as [io r]. apply Hc. intros slot slot'. destruct (negb (route_present slot)); [done|]. by intros [= <-]. }
    apply serves_quiet; try done.
    all: cbn [apic_serve]; rewrite ignored_fst; unfold zoom; by destruct ((if m then mask_irq l else unmask_irq l) (io_apic s)).
  - apply tick_serves; tauto.
  - destruct (on_local_quiet c (modify (set_apic_enabled e)) s Hwf) as (H1 & H2 & H3); [tauto|done|].
    apply serves_quiet; try done; cbn [apic_serve]; by rewrite ignored_fst.
  - destruct (on_local_quiet c (on_timer (configure v n m)) s Hwf) as (H1 & H2 & H3); [tauto| |].
    { intros a. unfold on_timer, zoom. by destruct (configure v n m (apic_timer a)). }
    apply serves_quiet; try done; cbn [apic_serve]; by rewrite ignored_fst.
  - apply take_serves; tauto.
Qed.
Lemma make_apic_wf t : 0 <= core_count t -> apic_wf (make_apic_system t).
Proof.
  intros Ht. split; cbn [make_apic_system apic_topology local_apics io_apic]; [by rewrite length_fmap, length_seqZ|done| |].
  - intros i a Ha. rewrite list_lookup_fmap in Ha. destruct (seqZ 0 (core_count t) !! i) as [c|] eqn:E; [|done]. injection Ha as <-. apply lookup_seqZ in E. cbn. lia.
  - intros i slot Hs. unfold make_io_apic in Hs. apply lookup_replicate in Hs as [-> _]. done.
Qed.

(** C34. Interrupts are delivered exactly once and in order: whatever inter-processor interrupts,
    broadcasts, external interrupts, timer ticks and changes of routes, timers and controllers are made,
    what a core has taken followed by what it has pending is exactly what was sent to it, in order,
    while its controller was enabled. *)
Theorem interrupts_delivered_once_in_order t qs core : 0 <= core_count t -> 0 <= core ->
  Forall (fun q => Forall (fun c => 0 <= c) (request_cores q)) qs ->
  let s := make_apic_system t in
  all_taken qs s core ++ pending_of (serve_all apic_serve qs s).1 core = all_delivered qs s core.
Proof.
  intros Ht Hc Hqs. cbn zeta. assert (H : forall s, apic_wf s ->
    all_taken qs s core ++ pending_of (serve_all apic_serve qs s).1 core = pending_of s core ++ all_delivered qs s core).
  { induction Hqs as [|q qs Hq _ IH]; intros s Hwf; [by rewrite app_nil_r|]. cbn [all_taken all_delivered serve_all].
    destruct (apic_serve_serves q s Hwf Hq) as (Hwf' & _ & Hp). specialize (IH _ Hwf'). destruct (apic_serve q s) as [s1 r]. cbn [fst snd] in *.
    destruct (serve_all apic_serve qs s1) as [s2 rs]. cbn [fst snd] in *. by rewrite <- app_assoc, IH, app_assoc, Hp, app_assoc. }
  rewrite H by by apply make_apic_wf. unfold pending_of. destruct (local_of (make_apic_system t) core) as [a|] eqn:E; [|done].
  unfold local_of, make_apic_system in E. cbn [local_apics] in E. rewrite list_lookup_fmap in E. destruct (seqZ _ _ !! _); [|done]. by injection E as <-.
Qed.
Lemma interrupts_delivered_once_in_order_witness :
  let qs := [SetEnabled 0 true; SetEnabled 1 true; SendIpi 0 1 240; SendIpi 1 2 241; BroadcastIpi 1 241; TakePending 1;
    SetTimer 1 32 2 TimerMode.PERIODIC; Tick 1; Tick 1; SetRoute 4 33 1; RaiseIrq 4; MaskIrq 4 true; RaiseIrq 4] in
  let s := make_apic_system (mkTopology 3) in
  all_taken qs s 1 ++ pending_of (serve_all apic_serve qs s).1 1 = [ipi 0 1 240; timer_interrupt 1 32; external_irq 4 1 33] /\ all_taken qs s 1 = [ipi 0 1 240].
Proof.
  intros qs s. split; [|vm_compute; reflexivity]. etransitivity.
  - apply (interrupts_delivered_once_in_order (mkTopology 3) qs 1); [discriminate|discriminate|]. unfold qs. repeat apply Forall_cons_2; cbn [request_cores]; repeat apply Forall_cons_2; try apply Forall_nil; done.
  - vm_compute. reflexivity.
Defined.
