(* ===== verification/CopyOnWrite.v ===== *)
(** * Copy on write

    Models src/os/proc/copy_on_write.cpp: the manager that shares the writable pages of a process with
    its child and gives a process a private copy when it writes to one.  The manager works on objects
    it does not own: the address spaces of two distinct processes on one bus for sharing, and the
    allocator, space, bus and processor of a fault (the [Faulting] of PageFaultHandler.v). *)

From S2P Require Import Prelude Logic Common PhysicalMemory MemoryBus Paging PageTable Page PageAlloc CpuState Trap AddressSpace PageFaultHandler.

(** ** Data *)

Module Cow.
(* [include/mnos/os/proc/copy_on_write.hpp] [CowFaultResult] *)
Inductive CowFaultResult : Set := COPIED | RESTORED | NOT_COW | OUT_OF_MEMORY | INVALID_FAULT | COUNT.
End Cow.
Abbreviation CowFaultResult := Cow.CowFaultResult.

(* [include/mnos/os/proc/copy_on_write.hpp] [CowMapping] [43-63] *)
Record CowMapping : Set := mkCowMapping {
  cow_process : Z;
  cow_page : Z;
  cow_frame : Z;
  cow_restored : PagePermissions;
}.
(* [include/mnos/os/proc/copy_on_write.hpp] [CowFrameRef] [65-78] *)
Record CowFrameRef : Set := mkFrameRef { ref_frame : Z; ref_count : Z }.
(* [include/mnos/os/proc/copy_on_write.hpp] [CopyOnWriteManager] *)
Record CopyOnWriteManager : Set := mkCowManager { cow_mappings : list CowMapping; cow_frame_refs : list CowFrameRef }.
Definition make_cow_manager : CopyOnWriteManager := mkCowManager [] [].
(** The address spaces of parent and child, and the bus under them. *)
Record Sharing (B : Type) : Type := mkSharing {
  sharing_manager : CopyOnWriteManager;
  parent_space : AddressSpace;
  child_space : AddressSpace;
  shared_bus : B;
}.
Arguments mkSharing {B}.
Arguments sharing_manager {B}.
Arguments parent_space {B}.
Arguments child_space {B}.
Arguments shared_bus {B}.

(** ** The books *)

Definition is_mapping (process_id virtual_page : Z) (m : CowMapping) : bool := (cow_process m =? process_id) && (cow_page m =? virtual_page).
(** Both overloads. *)
(* [src/os/proc/copy_on_write.cpp] [CopyOnWriteManager::find_mapping] *)
Definition find_mapping (process_id virtual_page : Z) (c : CopyOnWriteManager) : option CowMapping :=
  List.find (is_mapping process_id virtual_page) (cow_mappings c).
(* [src/os/proc/copy_on_write.cpp] [CopyOnWriteManager::find_frame_ref] *)
Definition find_frame_ref (physical_frame : Z) (c : CopyOnWriteManager) : option CowFrameRef :=
  List.find (fun r => ref_frame r =? physical_frame) (cow_frame_refs c).
(* [src/os/proc/copy_on_write.cpp] [CopyOnWriteManager::frame_ref_count] *)
Definition frame_ref_count (physical_frame : Z) (c : CopyOnWriteManager) : Z :=
  match find_frame_ref physical_frame c with None => 0 | Some r => ref_count r end.
(* [src/os/proc/copy_on_write.cpp] [CopyOnWriteManager::contains] *)
Definition cow_contains (process_id virtual_page : Z) (c : CopyOnWriteManager) : bool :=
  bool_decide (is_Some (find_mapping process_id virtual_page c)).
(** The first reference of a frame is changed in place, and dropped when the change gives none. *)
Fixpoint change_ref (physical_frame : Z) (change : CowFrameRef -> option CowFrameRef) (refs : list CowFrameRef) : list CowFrameRef :=
  match refs with
  | [] => []
  | r :: rest => if ref_frame r =? physical_frame then option_list (change r) ++ rest else r :: change_ref physical_frame change rest
  end.
(* [src/os/proc/copy_on_write.cpp] [CopyOnWriteManager::add_frame_ref] *)
Definition add_frame_ref (physical_frame : Z) (c : CopyOnWriteManager) : CopyOnWriteManager :=
  mkCowManager (cow_mappings c)
    match find_frame_ref physical_frame c with
    | None => cow_frame_refs c ++ [mkFrameRef physical_frame 1]
    | Some _ => change_ref physical_frame (fun r => Some (mkFrameRef (ref_frame r) (add64 (ref_count r) 1))) (cow_frame_refs c)
    end.
(* [src/os/proc/copy_on_write.cpp] [CopyOnWriteManager::release_frame_ref] *)
Definition release_frame_ref (physical_frame : Z) (c : CopyOnWriteManager) : CopyOnWriteManager :=
  mkCowManager (cow_mappings c)
    (change_ref physical_frame (fun r =>
      let count := sub64 (ref_count r) 1 in if count =? 0 then None else Some (mkFrameRef (ref_frame r) count)) (cow_frame_refs c)).
Fixpoint erase_mapping (process_id virtual_page : Z) (ms : list CowMapping) : list CowMapping :=
  match ms with
  | [] => []
  | m :: rest => if is_mapping process_id virtual_page m then rest else m :: erase_mapping process_id virtual_page rest
  end.
(* [src/os/proc/copy_on_write.cpp] [CopyOnWriteManager::remove_mapping] *)
Definition remove_mapping (process_id virtual_page : Z) (c : CopyOnWriteManager) : CopyOnWriteManager :=
  mkCowManager (erase_mapping process_id virtual_page (cow_mappings c)) (cow_frame_refs c).
(** [mappings_.emplace_back(...)] followed by [add_frame_ref]. *)
Definition add_mapping (m : CowMapping) (c : CopyOnWriteManager) : CopyOnWriteManager :=
  add_frame_ref (cow_frame m) (mkCowManager (cow_mappings c ++ [m]) (cow_frame_refs c)).

(* [src/os/proc/copy_on_write.cpp] [read_only_permissions] *)
Definition read_only_permissions (p : PagePermissions) : PagePermissions := mkPermissions false (p_user_accessible p) (p_executable p).
(* [src/os/proc/copy_on_write.cpp] [is_write_protection_fault] *)
Definition is_write_protection_fault (trap_frame : TrapFrame) : bool :=
  (tf_vector trap_frame =? page_fault_vector) &&
  has_page_fault_error_bit trap_frame PAGE_FAULT_ERROR_PRESENT_BIT &&
  has_page_fault_error_bit trap_frame PAGE_FAULT_ERROR_WRITE_BIT.

(** ** Sharing *)

Section sharing.
Context {B : Type} `{MemoryBus B}.
Abbreviation ShM A := (M (Sharing B) A).
Definition on_manager (f : CopyOnWriteManager -> CopyOnWriteManager) : ShM unit :=
  modify (fun s => mkSharing (f (sharing_manager s)) (parent_space s) (child_space s) (shared_bus s)).
Definition on_parent {A} : M (AddressSpace * B) A -> ShM A :=
  zoom (fun s => (parent_space s, shared_bus s)) (fun st s => mkSharing (sharing_manager s) st.1 (child_space s) st.2).
Definition on_child {A} : M (AddressSpace * B) A -> ShM A :=
  zoom (fun s => (child_space s, shared_bus s)) (fun st s => mkSharing (sharing_manager s) (parent_space s) st.1 st.2).

(** The body of the loop over the pages; says whether the page is counted. *)
(* [src/os/proc/copy_on_write.cpp] [CopyOnWriteManager::share_pages] [128-174] *)
Definition share_page (parent_id child_id requested_page : Z) : ShM bool :=
  throw_if (negb (is_page_aligned requested_page)) invalid_argument ≫= fun _ =>
  on_parent (page_translation requested_page AccessKind.READ Ring.RING0) ≫= fun translation =>
  throw_if (negb (Paging.page_size_bytes translation =? PAGE_SIZE_4K_BYTES)) logic_error ≫= fun _ =>
  let physical_frame := physical_frame_base translation in
  gets (fun s => find_mapping parent_id requested_page (sharing_manager s)) ≫= fun parent_mapping =>
  let restored_permissions := match parent_mapping with None => permissions translation | Some m => cow_restored m end in
  let writable := p_writable restored_permissions in
  let child_permissions := if writable then read_only_permissions restored_permissions else restored_permissions in
  gets (fun s => cow_contains child_id requested_page (sharing_manager s)) ≫= fun child_contains =>
  throw_if (writable && child_contains) logic_error ≫= fun _ =>
  on_child (map_page requested_page physical_frame child_permissions) ≫= fun _ =>
  if writable then
    (if bool_decide (parent_mapping = None) then
       on_parent (set_page_permissions requested_page (read_only_permissions restored_permissions)) ≫= fun _ =>
       on_manager (add_mapping (mkCowMapping parent_id requested_page physical_frame restored_permissions))
     else mret tt) ≫= fun _ =>
    on_manager (add_mapping (mkCowMapping child_id requested_page physical_frame restored_permissions)) ≫= fun _ =>
    mret true
  else mret false.
Fixpoint share_loop (parent_id child_id : Z) (virtual_pages : list Z) (shared_page_count : Z) : ShM Z :=
  match virtual_pages with
  | [] => mret shared_page_count
  | page :: rest =>
      share_page parent_id child_id page ≫= fun shared =>
      share_loop parent_id child_id rest (if shared : bool then shared_page_count + 1 else shared_page_count)
  end.
(* [src/os/proc/copy_on_write.cpp] [CopyOnWriteManager::share_pages] *)
Definition share_pages (parent_id child_id : Z) (virtual_pages : list Z) : ShM Z := share_loop parent_id child_id virtual_pages 0.

(** ** Write faults *)

Abbreviation CFM A := (M (CopyOnWriteManager * Faulting B) A).
Definition on_books (f : CopyOnWriteManager -> CopyOnWriteManager) : CFM unit := modify (fun s => (f s.1, s.2)).
Definition on_fault {A} : M (Faulting B) A -> CFM A := zoom snd (fun f s => (s.1, f)).
(** [try { body } catch (...) { cleanup; throw; }] *)
Definition on_failure {S A} (body : M S A) (cleanup : M S unit) : M S A := fun s =>
  match body s with
  | (s', Ok a) => (s', Ok a)
  | (s', Throw e) => match cleanup s' with (s2, Ok _) => (s2, Throw e) | (s2, Throw e2) => (s2, Throw e2) end
  end.
(* [src/os/proc/copy_on_write.cpp] [CopyOnWriteManager::copy_physical_page] *)
Definition copy_physical_page (source_frame target_frame : Z) : M B unit :=
  for_each (seqZ 0 (MM_PAGE_SIZE_BYTES / 8)) (fun k =>
    let offset := mul64 k 8 in
    lift (fun b => bus_read b (add64 source_frame offset) Size.QWORD) ≫= fun value =>
    bus_write_M (add64 target_frame offset) Size.QWORD value).
(** [process.address_space().activate(cpu_state, cpu_state.paging().process_context_id(), ...)] *)
Definition reactivate : M (Faulting B) unit :=
  get ≫= fun f =>
  on_cpu (activate_context (address_space_ f) (process_context_id (cpu_paging (cpu_state_ f))) FlushMode.FLUSH_CURRENT_CONTEXT).
(* [src/os/proc/copy_on_write.cpp] [CopyOnWriteManager::resolve_write_fault] *)
Definition resolve_write_fault (process_id : Z) : CFM CowFaultResult :=
  gets (fun s => cpu_state_ s.2) ≫= fun cpu =>
  lift (fun _ => if negb (has_pending_trap cpu) then Ok false else f ← get_pending_trap cpu; Ok (is_write_protection_fault f)) ≫= fun valid =>
  if negb valid then mret Cow.INVALID_FAULT
  else
    let virtual_page := align_down (page_fault_linear_address (cpu_paging cpu)) in
    gets (fun s => find_mapping process_id virtual_page s.1) ≫= fun mapping =>
    match mapping with
    | None => mret Cow.NOT_COW
    | Some m =>
        let original_frame := cow_frame m in
        let restored_permissions := cow_restored m in
        gets (fun s => frame_ref_count original_frame s.1) ≫= fun count =>
        if count <=? 1 then
          on_fault (on_space (set_page_permissions virtual_page restored_permissions)) ≫= fun _ =>
          on_fault reactivate ≫= fun _ =>
          on_books (release_frame_ref original_frame) ≫= fun _ =>
          on_books (remove_mapping process_id virtual_page) ≫= fun _ =>
          on_fault (on_cpu (modify clear_pending_trap)) ≫= fun _ =>
          mret Cow.RESTORED
        else
          try_catch (on_fault (on_allocator allocate_page) ≫= fun p => mret (Some p))
            (fun e => if bool_decide (e = bad_alloc) then Some (mret None) else None) ≫= fun page =>
          match page with
          | None => mret Cow.OUT_OF_MEMORY
          | Some copied_page =>
              on_failure
                (on_fault (on_memory (copy_physical_page original_frame copied_page)) ≫= fun _ =>
                 on_fault (on_space (map_page virtual_page copied_page restored_permissions)) ≫= fun _ =>
                 on_fault reactivate)
                (on_fault (on_allocator (free_page copied_page))) ≫= fun _ =>
              on_books (release_frame_ref original_frame) ≫= fun _ =>
              on_books (remove_mapping process_id virtual_page) ≫= fun _ =>
              on_fault (on_cpu (modify clear_pending_trap)) ≫= fun _ =>
              mret Cow.COPIED
          end
    end.
End sharing.

(** ** The books balance *)

(** Every page of a process is shared once, every frame has one reference, which counts its mappings. *)
Record cow_wf (c : CopyOnWriteManager) : Prop := {
  cw_keys : NoDup ((fun m => (cow_process m, cow_page m)) <$> cow_mappings c);
  cw_frames : NoDup (ref_frame <$> cow_frame_refs c);
  cw_counts frame : frame_ref_count frame c = count (fun m => cow_frame m = frame) (cow_mappings c);
  cw_positive r : r ∈ cow_frame_refs c -> 0 < ref_count r;
  cw_writable m : m ∈ cow_mappings c -> p_writable (cow_restored m) = true;
}.

Lemma find_ref_some f refs r : List.find (fun r => ref_frame r =? f) refs = Some r -> r ∈ refs /\ ref_frame r = f.
Proof. intros E. apply List.find_some in E as [Hin Hf]. split; [by apply list_elem_of_In|]. by apply Z.eqb_eq. Qed.
Lemma find_ref_none f refs : List.find (fun r => ref_frame r =? f) refs = None -> f ∉ ref_frame <$> refs.
Proof.
  intros E Hin. apply list_elem_of_fmap in Hin as (r & -> & Hr). apply list_elem_of_In in Hr. pose proof (List.find_none _ _ E r Hr) as Hn. cbn beta in Hn. by rewrite Z.eqb_refl in Hn.
Qed.
Lemma find_mapping_some p v c m : find_mapping p v c = Some m -> m ∈ cow_mappings c /\ cow_process m = p /\ cow_page m = v.
Proof.
  intros E. apply List.find_some in E as [Hin Hf]. split; [by apply list_elem_of_In|]. unfold is_mapping in Hf. lia.
Qed.
Lemma find_mapping_none p v c : find_mapping p v c = None -> (p, v) ∉ (fun m => (cow_process m, cow_page m)) <$> cow_mappings c.
Proof.
  intros E Hin. apply list_elem_of_fmap in Hin as (m & [= -> ->] & Hm). apply list_elem_of_In in Hm. pose proof (List.find_none _ _ E m Hm) as Hn.
  unfold is_mapping in Hn. cbn beta in Hn. by rewrite !Z.eqb_refl in Hn.
Qed.
Lemma change_ref_elem f ch refs r : r ∈ change_ref f ch refs -> r ∈ refs \/ exists r0, r0 ∈ refs /\ ref_frame r0 = f /\ ch r0 = Some r.
Proof.
  induction refs as [|x refs IH]; cbn [change_ref]; [set_solver|]. destruct (Z.eqb_spec (ref_frame x) f) as [Hx|Hx].
  - rewrite elem_of_app. intros [Hin|]; [|left; set_solver]. right. exists x. split; [set_solver|]. split; [done|]. destruct (ch x); set_solver.
  - rewrite elem_of_cons. intros [->|Hin]; [left; set_solver|]. destruct (IH Hin) as [|(r0 & ? & ? & ?)]; [left; set_solver|right; exists r0; set_solver].
Qed.
Lemma change_ref_spec f ch refs : NoDup (ref_frame <$> refs) -> (forall r r', ch r = Some r' -> ref_frame r' = ref_frame r) ->
  NoDup (ref_frame <$> change_ref f ch refs) /\ sublist (ref_frame <$> change_ref f ch refs) (ref_frame <$> refs) /\
  forall g, List.find (fun r => ref_frame r =? g) (change_ref f ch refs) =
    if decide (g = f) then List.find (fun r => ref_frame r =? f) refs ≫= ch else List.find (fun r => ref_frame r =? g) refs.
Proof.
  intros Hnd Hch. assert (Hsub : sublist (ref_frame <$> change_ref f ch refs) (ref_frame <$> refs)).
  { clear Hnd. induction refs as [|x refs IH]; [done|]. cbn [change_ref]. destruct (ref_frame x =? f).
    - destruct (ch x) as [x'|] eqn:Ex; cbn [option_list option_rect app fmap list_fmap]; [rewrite (Hch x x' Ex); by constructor|by constructor].
    - cbn [fmap list_fmap]. by constructor. }
  split; [by eapply sublist_NoDup|]. split; [done|]. clear Hsub. intros g. induction refs as [|x refs IH]; cbn [change_ref List.find]; [by case_decide|].
  cbn [fmap list_fmap] in Hnd. apply NoDup_cons in Hnd as [Hx Hnd]. specialize (IH Hnd). destruct (Z.eqb_spec (ref_frame x) f) as [Hf|Hf].
  - assert (Hrest : List.find (fun r => ref_frame r =? f) refs = None).
    { destruct (List.find _ refs) as [r|] eqn:E; [|done]. apply find_ref_some in E as [Hin Hr]. destruct Hx. rewrite Hf, <- Hr. by apply list_elem_of_fmap_2. }
    cbn [mbind option_bind]. destruct (ch x) as [x'|] eqn:Ex; cbn [option_list option_rect app List.find].
    + rewrite (Hch x x' Ex), Hf. destruct (Z.eqb_spec f g) as [->|Hg]; [by rewrite decide_True|]. by rewrite decide_False by congruence.
    + case_decide as Hg; [by subst g|]. rewrite Hf, (proj2 (Z.eqb_neq f g)) by congruence. done.
  - cbn [List.find]. destruct (Z.eqb_spec (ref_frame x) g) as [Hg|Hg]; [by rewrite decide_False by congruence|]. by rewrite IH.
Qed.
Lemma add_mapping_wf m c : cow_wf c -> find_mapping (cow_process m) (cow_page m) c = None -> p_writable (cow_restored m) = true ->
  lenZ (cow_mappings c) + 1 < W64 -> cow_wf (add_mapping m c).
Proof.
  intros [K F C P W] Hnew Hw Hlen. assert (Hkeys : NoDup ((fun m => (cow_process m, cow_page m)) <$> cow_mappings c ++ [m])).
  { rewrite fmap_app. apply NoDup_app. split; [done|]. split; [|apply NoDup_singleton]. intros x Hx Hx'. apply list_elem_of_singleton in Hx' as ->. by apply find_mapping_none in Hnew. }
  pose proof (C (cow_frame m)) as Cm. pose proof (count_bound (fun x => cow_frame x = cow_frame m) (cow_mappings c)) as Hcb. unfold frame_ref_count, find_frame_ref in *.
  unfold add_mapping, add_frame_ref, find_frame_ref. cbn [cow_mappings cow_frame_refs].
  destruct (List.find (fun r => ref_frame r =? cow_frame m) (cow_frame_refs c)) as [r|] eqn:Er.
  - destruct (find_ref_some _ _ _ Er) as [Hin Hf].
    destruct (change_ref_spec (cow_frame m) (fun r => Some (mkFrameRef (ref_frame r) (add64 (ref_count r) 1))) (cow_frame_refs c) F) as (F' & _ & Hfind); [by intros ? ? [= <-]|].
    split; cbn [cow_mappings cow_frame_refs]; try done.
    + intros frame. unfold frame_ref_count, find_frame_ref. cbn [cow_frame_refs]. rewrite Hfind, Er, count_snoc. cbn [mbind option_bind].
      destruct (decide (frame = cow_frame m)) as [->|Hne]; [rewrite decide_True by done; cbn [ref_count]; rewrite add64_small; lia|].
      rewrite decide_False by congruence. unfold frame_ref_count, find_frame_ref in C. rewrite C. lia.
    + intros r' Hr'. apply change_ref_elem in Hr' as [|(r0 & Hr0 & Hf0 & [= <-])]; [by apply P|]. cbn.
      pose proof (P r0 Hr0). assert (ref_count r0 = ref_count r) as E.
      { f_equal. apply (NoDup_fmap_unique ref_frame (cow_frame_refs c)); try done. congruence. } rewrite add64_small; lia.
    + intros x Hx. apply elem_of_app in Hx as [| ->%list_elem_of_singleton]; [by apply W|done].
  - split; cbn [cow_mappings cow_frame_refs]; try done.
    + rewrite fmap_app. apply NoDup_app. split; [done|]. split; [|apply NoDup_singleton]. intros x Hx Hx'. apply list_elem_of_singleton in Hx' as ->. by apply find_ref_none in Er.
    + intros frame. unfold frame_ref_count, find_frame_ref. cbn [cow_frame_refs]. rewrite count_snoc. specialize (C frame). unfold frame_ref_count, find_frame_ref in C.
      rewrite list_find_snoc. destruct (List.find (fun r => ref_frame r =? frame) (cow_frame_refs c)) as [r|] eqn:E.
      * destruct (decide (cow_frame m = frame)) as [<-|]; [congruence|]. lia.
      * cbn [ref_frame]. destruct (Z.eqb_spec (cow_frame m) frame); [rewrite decide_True by done|rewrite decide_False by done]; cbn [ref_count]; lia.
    + intros r Hr. apply elem_of_app in Hr as [| ->%list_elem_of_singleton]; [by apply P|done].
    + intros x Hx. apply elem_of_app in Hx as [| ->%list_elem_of_singleton]; [by apply W|done].
Qed.
Lemma erase_mapping_spec p v c m : find_mapping p v c = Some m ->
  sublist ((fun m => (cow_process m, cow_page m)) <$> erase_mapping p v (cow_mappings c)) ((fun m => (cow_process m, cow_page m)) <$> cow_mappings c) /\
  (forall x, x ∈ erase_mapping p v (cow_mappings c) -> x ∈ cow_mappings c) /\
  forall frame, count (fun x => cow_frame x = frame) (cow_mappings c) =
    count (fun x => cow_frame x = frame) (erase_mapping p v (cow_mappings c)) + (if decide (cow_frame m = frame) then 1 else 0).
Proof.
  unfold find_mapping. induction (cow_mappings c) as [|x l IH]; cbn [List.find erase_mapping]; [done|]. destruct (is_mapping p v x) eqn:Ex.
  - intros [= ->]. split; [by constructor|]. split; [set_solver|]. intros frame. rewrite count_cons. lia.
  - intros E. destruct (IH E) as (H1 & H2 & H3). split; [by constructor|]. split; [set_solver|]. intros frame. rewrite !count_cons, H3. lia.
Qed.
Lemma count_elem {A} (P : A -> Prop) `{forall x, Decision (P x)} l x : x ∈ l -> P x -> 0 < count P l.
Proof.
  intros Hin Hp. apply list_elem_of_split in Hin as (l1 & l2 & ->). rewrite count_app, count_cons, decide_True by done.
  pose proof (count_bound P l1). pose proof (count_bound P l2). lia.
Qed.
Lemma count_two {A} (P : A -> Prop) `{forall x, Decision (P x)} l x y : x ∈ l -> y ∈ l -> x <> y -> P x -> P y -> 1 < count P l.
Proof.
  intros Hx Hy Hne Hpx Hpy. apply list_elem_of_split in Hx as (l1 & l2 & ->). rewrite count_app, count_cons, decide_True by done.
  pose proof (count_bound P l1). pose proof (count_bound P l2). rewrite elem_of_app, elem_of_cons in Hy. destruct Hy as [Hy|[->|Hy]]; [|done|].
  - pose proof (count_elem P l1 y Hy Hpy). lia.
  - pose proof (count_elem P l2 y Hy Hpy). lia.
Qed.
Lemma drop_mapping_wf p v m c : cow_wf c -> lenZ (cow_mappings c) < W64 -> find_mapping p v c = Some m ->
  let c' := remove_mapping p v (release_frame_ref (cow_frame m) c) in
  cow_wf c' /\ forall x, x ∈ cow_mappings c' -> x ∈ cow_mappings c.
Proof.
  intros [K F C P W] Hlen Em c'. destruct (erase_mapping_spec p v c m Em) as (S1 & S2 & S3). split; [|exact S2].
  destruct (find_mapping_some _ _ _ _ Em) as (Hin & _ & _). pose proof (count_elem (fun x => cow_frame x = cow_frame m) _ _ Hin eq_refl) as Hpos.
  pose proof (count_bound (fun x => cow_frame x = cow_frame m) (cow_mappings c)) as Hcb.
  set (ch := fun r => let count := sub64 (ref_count r) 1 in if count =? 0 then None else Some (mkFrameRef (ref_frame r) count)).
  destruct (change_ref_spec (cow_frame m) ch (cow_frame_refs c) F) as (F' & _ & Hfind).
  { unfold ch. intros r r'. cbn zeta. destruct (_ =? 0); [done|]. by intros [= <-]. }
  pose proof (C (cow_frame m)) as Cm. unfold frame_ref_count, find_frame_ref in *.
  destruct (List.find (fun r => ref_frame r =? cow_frame m) (cow_frame_refs c)) as [r|] eqn:Er; [|lia].
  destruct (find_ref_some _ _ _ Er) as [Hr Hf]. assert (Hsub : sub64 (ref_count r) 1 = ref_count r - 1) by (apply sub64_small; lia).
  split; cbn [c' remove_mapping release_frame_ref cow_mappings cow_frame_refs]; try done.
  - by eapply sublist_NoDup.
  - intros frame. unfold frame_ref_count, find_frame_ref. cbn [c' remove_mapping release_frame_ref cow_mappings cow_frame_refs]. fold ch. rewrite Hfind. specialize (S3 frame).
    destruct (decide (frame = cow_frame m)) as [->|Hne].
    + cbn [mbind option_bind]. unfold ch. cbn zeta. rewrite Hsub. rewrite decide_True in S3 by done. destruct (Z.eqb_spec (ref_count r - 1) 0); cbn [ref_count]; lia.
    + rewrite decide_False in S3 by congruence. rewrite C. lia.
  - intros r' Hr'. apply change_ref_elem in Hr' as [|(r0 & Hr0 & Hf0 & Hch)]; [by apply P|].
    assert (r0 = r) as -> by (apply (NoDup_fmap_unique ref_frame (cow_frame_refs c)); [done..|congruence]).
    cbn zeta in Hch. rewrite Hsub in Hch. destruct (Z.eqb_spec (ref_count r - 1) 0) as [|Hz]; [done|]. injection Hch as <-. cbn. pose proof (P r Hr). lia.
  - intros x Hx. by apply W, S2.
Qed.

Section books.
Context {B : Type} `{MemoryBus B}.
Implicit Types (s : Sharing B).

Lemma on_parent_books {A} (call : M (AddressSpace * B) A) s s' r : on_parent call s = (s', r) -> sharing_manager s' = sharing_manager s.
Proof. unfold on_parent, zoom. destruct (call _). by intros [= <- _]. Qed.
Lemma on_child_books {A} (call : M (AddressSpace * B) A) s s' r : on_child call s = (s', r) -> sharing_manager s' = sharing_manager s.
Proof. unfold on_child, zoom. destruct (call _). by intros [= <- _]. Qed.
Lemma add_mapping_find m c p v : (cow_process m, cow_page m) <> (p, v) -> find_mapping p v (add_mapping m c) = find_mapping p v c.
Proof.
  intros Hne. unfold find_mapping, add_mapping, add_frame_ref. cbn [cow_mappings]. rewrite list_find_snoc.
  destruct (List.find _ _); [done|]. unfold is_mapping. destruct (Z.eqb_spec (cow_process m) p), (Z.eqb_spec (cow_page m) v); subst; cbn; congruence.
Qed.
Lemma add_mapping_length m c : lenZ (cow_mappings (add_mapping m c)) = lenZ (cow_mappings c) + 1.
Proof. unfold add_mapping, add_frame_ref, lenZ. cbn [cow_mappings]. rewrite length_app. cbn. lia. Qed.

(** Sharing a page keeps the books, whatever fails. *)
Definition books_kept (extra : Z) (c c' : CopyOnWriteManager) : Prop := cow_wf c' /\ lenZ (cow_mappings c') <= lenZ (cow_mappings c) + extra.
Lemma share_page_books parent child page s s' r : parent <> child -> cow_wf (sharing_manager s) -> lenZ (cow_mappings (sharing_manager s)) + 2 < W64 ->
  share_page parent child page s = (s', r) -> books_kept 2 (sharing_manager s) (sharing_manager s').
Proof.
  intros Hne Hwf Hlen E. set (c := sharing_manager s) in *. assert (Hsame : forall s2, sharing_manager s2 = c -> books_kept 2 c (sharing_manager s2)).
  { intros s2 ->. split; [done|lia]. }
  unfold share_page in E. munfold. destruct (negb (is_page_aligned page)); [injection E as <- _; by apply Hsame|].
  destruct (on_parent _ s) as [s1 [t|e]] eqn:E1; apply on_parent_books in E1; [|injection E as <- _; by apply Hsame].
  destruct (negb _); [injection E as <- _; by apply Hsame|]. rewrite E1 in E. fold c in E. set (pm := find_mapping parent page c) in *.
  set (restored := match pm with None => permissions t | Some m => cow_restored m end) in *.
  destruct (p_writable restored && cow_contains child page c) eqn:Eg; [injection E as <- _; by apply Hsame|].
  destruct (on_child _ s1) as [s2 [[]|e]] eqn:E2; apply on_child_books in E2; [|injection E as <- _; apply Hsame; unfold c; congruence].
  assert (Hs2 : sharing_manager s2 = c) by (unfold c; congruence). destruct (p_writable restored) eqn:Ew; [|injection E as <- _; by apply Hsame].
  cbn [andb] in Eg. unfold cow_contains in Eg. apply bool_decide_eq_false in Eg. rewrite <- eq_None_not_Some in Eg.
  set (frame := physical_frame_base t) in *. set (mc := mkCowMapping child page frame restored). case_bool_decide as Hpm.
  - destruct (on_parent _ s2) as [s3 [[]|e]] eqn:E3; apply on_parent_books in E3; [|injection E as <- _; apply Hsame; unfold c; congruence].
    unfold on_manager in E. munfold. injection E as <- _. cbn [sharing_manager]. rewrite E3, Hs2. set (mp := mkCowMapping parent page frame restored).
    assert (Hwf1 : cow_wf (add_mapping mp c)) by (apply add_mapping_wf; [done..|lia]).
    split; [|rewrite !add_mapping_length; lia]. apply add_mapping_wf; [done| |done|rewrite add_mapping_length; lia].
    rewrite add_mapping_find; [done|]. cbn. congruence.
  - unfold on_manager in E. munfold. injection E as <- _. cbn [sharing_manager]. rewrite Hs2.
    split; [apply add_mapping_wf; [done..|lia]|rewrite add_mapping_length; lia].
Qed.
Lemma share_pages_books parent child pages s s' r : parent <> child -> cow_wf (sharing_manager s) -> lenZ (cow_mappings (sharing_manager s)) + 2 * lenZ pages < W64 ->
  share_pages parent child pages s = (s', r) -> books_kept (2 * lenZ pages) (sharing_manager s) (sharing_manager s').
Proof.
  intros Hne. unfold share_pages. generalize 0 at 1. revert s. induction pages as [|page pages IH]; intros s n Hwf Hlen E; cbn [share_loop] in E.
  - munfold. injection E as <- _. split; [done|unfold lenZ; cbn [length]; lia].
  - munfold. unfold lenZ in *. cbn [length] in *. destruct (share_page parent child page s) as [s1 [b|e]] eqn:E1; apply share_page_books in E1 as [Hwf1 Hl1]; try done; unfold lenZ in *; try lia.
    + destruct (IH s1 _ Hwf1 ltac:(lia) E) as [Hwf2 Hl2]. split; [done|]. unfold lenZ in *. lia.
    + injection E as <- _. split; [done|]. unfold lenZ. lia.
Qed.
Lemma on_fault_books {A} (call : M (Faulting B) A) (st st' : CopyOnWriteManager * Faulting B) r : on_fault call st = (st', r) -> st'.1 = st.1.
Proof. unfold on_fault, zoom. destruct (call _). by intros [= <- _]. Qed.
(** So does resolving a fault. *)
Lemma resolve_books pid (st st' : CopyOnWriteManager * Faulting B) r : cow_wf st.1 -> lenZ (cow_mappings st.1) < W64 ->
  resolve_write_fault pid st = (st', r) -> books_kept 0 st.1 st'.1.
Proof.
  intros Hwf Hlen E. set (c := st.1) in *. assert (Hsame : forall s2 : CopyOnWriteManager, s2 = c -> books_kept 0 c s2) by (intros s2 ->; split; [done|lia]).
  unfold resolve_write_fault in E. munfold. destruct (if negb (has_pending_trap _) then _ else _) as [[]|e]; cbn [negb] in E; [|injection E as <- _; by apply Hsame..].
  set (page := align_down _) in *. fold c in E. destruct (find_mapping pid page c) as [m|] eqn:Em; [|injection E as <- _; by apply Hsame].
  assert (Hdrop : books_kept 0 c (remove_mapping pid page (release_frame_ref (cow_frame m) c))).
  { destruct (drop_mapping_wf pid page m c Hwf Hlen Em) as [Hw _]. split; [done|]. unfold remove_mapping, release_frame_ref, lenZ. cbn [cow_mappings].
    destruct (erase_mapping_spec pid page c m Em) as [Hs _]. apply sublist_length in Hs. rewrite !length_fmap in Hs. lia. }
  destruct (_ <=? 1).
  - destruct (on_fault (on_space _) st) as [st1 [[]|e]] eqn:E1; apply on_fault_books in E1; [|injection E as <- _; by apply Hsame].
    destruct (on_fault reactivate st1) as [st2 [[]|e]] eqn:E2; apply on_fault_books in E2; [|injection E as <- _; apply Hsame; unfold c; congruence].
    unfold on_books in E. munfold. destruct (on_fault (on_cpu _) _) as [st3 [[]|e]] eqn:E3; apply on_fault_books in E3; injection E as <- _; rewrite E3; cbn [fst]; by rewrite E2, E1.
  - unfold try_catch in E. munfold. destruct (on_fault (on_allocator allocate_page) st) as [st1 [pa|e]] eqn:E1; apply on_fault_books in E1.
    2:{ case_bool_decide; injection E as <- _; by apply Hsame. }
    unfold on_failure in E. munfold. destruct (on_fault (on_memory _) st1) as [st2 [[]|e]] eqn:E2; apply on_fault_books in E2.
    2:{ destruct (on_fault (on_allocator _) st2) as [st3 [[]|e2]] eqn:E3; apply on_fault_books in E3; injection E as <- _; apply Hsame; unfold c; congruence. }
    destruct (on_fault (on_space _) st2) as [st3 [[]|e]] eqn:E3; apply on_fault_books in E3.
    2:{ destruct (on_fault (on_allocator _) st3) as [st4 [[]|e2]] eqn:E4; apply on_fault_books in E4; injection E as <- _; apply Hsame; unfold c; congruence. }
    destruct (on_fault reactivate st3) as [st4 [[]|e]] eqn:E4; apply on_fault_books in E4.
    2:{ destruct (on_fault (on_allocator _) st4) as [st5 [[]|e2]] eqn:E5; apply on_fault_books in E5; injection E as <- _; apply Hsame; unfold c; congruence. }
    unfold on_books in E. munfold. destruct (on_fault (on_cpu _) _) as [st5 [[]|e]] eqn:E5; apply on_fault_books in E5; injection E as <- _; rewrite E5; cbn [fst]; by rewrite E4, E3, E2, E1.
Qed.
End books.

(** ** Two address spaces on one bus *)

Section sharing_pages.
Context {B : Type} `{MemoryBusLaws B}.
Implicit Types (b : B) (s : Sharing B) (T Tp Tc : gmap Z (PageTableLevel * Z)) (m mp mc mo : PageMap).

Lemma table_aligned T sp b m ta : represents T sp b m -> is_Some (T !! ta) -> ta `mod` 4096 = 0 /\ 0 <= ta.
Proof. intros Hr [[l q] Hq]. by destruct (twf_table _ _ _ (rep_tables _ _ _ _ Hr) _ _ _ Hq) as [[] _]. Qed.
(** A step of one space leaves another one alone when they share no table. *)
Lemma other_space_frame T sp b T' sp' b' m' To so mo : represents T' sp' b' m' -> space_step T sp b T' sp' b' ->
  represents To so b mo -> T' ##ₘ To -> represents To so b' mo.
Proof.
  intros Hr' Hst Ho Hd. apply (represents_frame To so b b' mo Ho); [apply (twf_bus _ _ _ (rep_tables _ _ _ _ Hr'))|apply (st_size _ _ _ _ _ _ Hst)|].
  intros ta x Hta Hx. destruct (table_aligned _ _ _ _ _ Ho Hta) as [Ha Ha0]. apply (st_bytes _ _ _ _ _ _ Hst); [lia|]. intros tp Htp Hx'.
  destruct (table_aligned _ _ _ _ _ Hr' Htp) as [Hb Hb0]. assert (tp = ta) as -> by (pose proof (Z.div_mod tp 4096 ltac:(lia)); pose proof (Z.div_mod ta 4096 ltac:(lia)); lia).
  destruct Htp as [v1 Hv1], Hta as [v2 Hv2]. by apply (map_disjoint_spec T' To) with ta v1 v2.
Qed.

(** Parent and child have tables of their own, and neither takes tables of the other. *)
Record sharing_ok Tp mp Tc mc s : Prop := {
  so_parent : represents Tp (parent_space s) (shared_bus s) mp;
  so_child : represents Tc (child_space s) (shared_bus s) mc;
  so_tables : Tp ##ₘ Tc;
  so_arena ta : is_Some (Tp !! ta) -> ~ (space_next (child_space s) <= ta < space_end (child_space s));
}.
(** The books say how the pages of a process are mapped. *)
Definition books_match (c : CopyOnWriteManager) (pid : Z) m : Prop := forall x, x ∈ cow_mappings c -> cow_process x = pid ->
  m !! page_key (cow_page x) = Some (cow_frame x, read_only_permissions (cow_restored x)).
Lemma read_only_idem p : read_only_permissions (read_only_permissions p) = read_only_permissions p.
Proof. done. Qed.
Lemma read_only_same p : p_writable p = false -> read_only_permissions p = p.
Proof. destruct p; cbn. by intros ->. Qed.
Lemma add_mapping_elem x y c : x ∈ cow_mappings (add_mapping y c) <-> x ∈ cow_mappings c \/ x = y.
Proof. unfold add_mapping, add_frame_ref. cbn [cow_mappings]. rewrite elem_of_app, list_elem_of_singleton. done. Qed.

(** The translation of a mapped page by its own space. *)
Lemma translation_of_page T sp b m page pa p : represents T sp b m -> u64 page -> is_canonical_linear_address page = true ->
  m !! page_key page = Some (pa, p) -> exists b' t, page_translation page AccessKind.READ Ring.RING0 (sp, b) = ((sp, b'), Ok t) /\
  represents T sp b' m /\ space_step T sp b T sp b' /\ Paging.page_size_bytes t = 4096 /\ physical_frame_base t = pa /\ permissions t = p.
Proof.
  intros Hr Hu Hc Hm. destruct (own_paging_ok sp (rep_root T sp b m Hr)) as (ps & Eps & Hcr & Hxd).
  destruct (translate_represents T sp b m ps page AccessKind.READ Ring.RING0 Hr Hcr Hu) as (Hr1 & Hseen & Hleaf).
  pose proof (translate_step T sp b m ps page AccessKind.READ Ring.RING0 Hr Hcr) as Hst.
  unfold page_translation. munfold_goal. cbn [fst snd]. rewrite Eps. unfold zoom. cbn [snd].
  destruct (translate ps page AccessKind.READ Ring.RING0 b) as [b' r]. cbn [fst snd] in *. exists b'.
  unfold access_outcome in Hseen. rewrite Hc, Hm in Hseen. cbn [negb] in Hseen.
  assert (Hna : access_fault ps p AccessKind.READ Ring.RING0 = None) by (unfold access_fault; by rewrite Hxd).
  rewrite Hna in Hseen. destruct r as [t|e]; [|done]. exists t. cbn [seen] in Hseen. destruct (Z.eqb_spec (Paging.page_size_bytes t) 4096); [|done].
  injection Hseen as H1 H2 H3. by split_and!.
Qed.
(** A page is fit to be shared: mapped by the parent, not yet shared by the child. *)
Definition shareable (c : CopyOnWriteManager) (child : Z) mp (page : Z) : Prop :=
  u64 page /\ is_canonical_linear_address page = true /\ page `mod` 4096 = 0 /\ is_Some (mp !! page_key page) /\
  (forall x, x ∈ cow_mappings c -> cow_process x = child -> page_key (cow_page x) <> page_key page).
Definition protect (key : Z) m : PageMap := alter (fun x => (x.1, read_only_permissions x.2)) key m.
Definition share_entry (key : Z) mp mc : PageMap :=
  match mp !! key with Some (pa, p) => <[key := (pa, read_only_permissions p)]> mc | None => mc end.

Lemma mapped_frame T sp b m a pa p : represents T sp b m -> m !! page_key a = Some (pa, p) -> pa `mod` 4096 = 0 /\ 0 <= pa < 2 ^ 52.
Proof.
  intros Hr Hm. pose proof (rep_pages _ _ _ _ Hr a) as Hp. destruct (resolve _ _ _ _) as [[[[l ta] i] e]|]; [|congruence].
  destruct Hp as (_ & pa' & p' & Hm' & Hpe & Ha). rewrite Hm in Hm'. injection Hm' as <- <-. split; [done|].
  assert (Hb : forall j, 52 <= j -> Z.testbit pa j = false).
  { intros j Hj. rewrite <- (pe_frame _ _ _ Hpe) by lia. rewrite bool_decide_false by lia. apply andb_false_r. }
  assert (0 <= pa) by (apply Z.bits_iff_nonneg_ex; exists 51; intros j Hj; apply Hb; lia). split; [done|]. by apply testbit_bound.
Qed.

(** The books after a page has been shared. *)
Lemma books_after c c' parent child mp mc page pa p restored : let key := page_key page in
  books_match c parent mp -> books_match c child mc -> parent <> child -> mp !! key = Some (pa, p) ->
  read_only_permissions p = read_only_permissions restored ->
  (forall x, x ∈ cow_mappings c -> cow_process x = child -> page_key (cow_page x) <> key) ->
  (forall x, x ∈ cow_mappings c' -> x ∈ cow_mappings c \/ x = mkCowMapping parent page pa restored \/ x = mkCowMapping child page pa restored) ->
  books_match c' parent (protect key mp) /\ books_match c' child (<[key := (pa, read_only_permissions p)]> mc).
Proof.
  intros key Bp Bc Hne Hm Hro Hnew Hel. split; intros x Hx Hp.
  - destruct (Hel x Hx) as [Hx'|[-> | ->]]; [|cbn [cow_page cow_frame cow_restored]|by destruct Hne].
    + unfold protect. destruct (decide (page_key (cow_page x) = key)) as [Hk|Hk]; [|rewrite lookup_alter_ne by congruence; by apply Bp].
      specialize (Bp x Hx' Hp). rewrite Hk in *. rewrite Hm in Bp. injection Bp as -> ->. by rewrite lookup_alter_eq, Hm.
    + unfold protect. fold key. rewrite lookup_alter_eq, Hm. cbn [fmap option_fmap option_map fst snd]. by rewrite Hro.
  - destruct (Hel x Hx) as [Hx'|[-> | ->]]; [|by destruct Hne|cbn [cow_page cow_frame cow_restored]].
    + rewrite lookup_insert_ne by (apply not_eq_sym; by apply Hnew). by apply Bc.
    + fold key. by rewrite lookup_insert_eq, Hro.
Qed.

Lemma share_page_spec Tp mp Tc mc s parent child page k : sharing_ok Tp mp Tc mc s -> books_match (sharing_manager s) parent mp ->
  books_match (sharing_manager s) child mc -> parent <> child -> shareable (sharing_manager s) child mp page -> 0 <= k ->
  room (k + 3) (builder_of (child_space s)) (shared_bus s) ->
  exists s' Tc' n, share_page parent child page s = (s', Ok n) /\ sharing_ok Tp (protect (page_key page) mp) Tc' (share_entry (page_key page) mp mc) s' /\
    books_match (sharing_manager s') parent (protect (page_key page) mp) /\ books_match (sharing_manager s') child (share_entry (page_key page) mp mc) /\
    room k (builder_of (child_space s')) (shared_bus s') /\ Tc ⊆ Tc' /\
    (forall x, x ∈ cow_mappings (sharing_manager s') -> x ∈ cow_mappings (sharing_manager s) \/ cow_page x = page) /\
    (forall x, 0 <= x -> (forall ta, is_Some (Tp !! ta) \/ is_Some (Tc' !! ta) -> ~ (ta <= x < ta + 4096)) -> bus_byte (shared_bus s') x = bus_byte (shared_bus s) x).
Proof.
  intros [S1 S2 S3 S4] Bp Bc Hne (Hu & Hcan & Hal & [[pa p] Hm] & Hnew) Hk Hroom. set (c := sharing_manager s) in *. set (key := page_key page) in *.
  destruct (mapped_frame _ _ _ _ _ _ _ S1 Hm) as [Hpm Hpr]. unfold protect, share_entry. rewrite Hm.
  destruct (translation_of_page _ _ _ _ _ _ _ S1 Hu Hcan Hm) as (b1 & t & Et & Hr1 & Hst1 & Hsz & Hfr & Hpe).
  pose proof (other_space_frame _ _ _ _ _ _ _ _ _ _ Hr1 Hst1 S2 S3) as Hc1.
  set (pm := find_mapping parent page c). set (restored := match pm with None => p | Some x => cow_restored x end).
  assert (Hro : read_only_permissions p = read_only_permissions restored /\ (forall x, pm = Some x -> read_only_permissions p = p /\ x ∈ cow_mappings c)).
  { unfold restored. destruct pm as [x|] eqn:Epm; [|done]. destruct (find_mapping_some _ _ _ _ Epm) as (Hx & Hxp & Hxv). specialize (Bp x Hx Hxp). rewrite Hxv in Bp.
    fold key in Bp. rewrite Hm in Bp. injection Bp as -> ->. split; [done|]. by intros y [= <-]. }
  destruct Hro as [Hro Hpro].
  destruct (map_page_total Tc (child_space s) b1 mc page pa (read_only_permissions restored) k Hc1 Hu) as (sc2 & b2 & Em & Hroom2); try done; [unfold u64; lia|lia|by unfold room in *; rewrite (st_size _ _ _ _ _ _ Hst1)|].
  destruct (map_page_represents Tc (child_space s) b1 mc page pa (read_only_permissions restored) sc2 b2 Hc1 Hu) as (Tc2 & Hc2 & Hst2); [unfold u64; lia|lia|done|].
  fold key in Hc2. assert (Htp2 : Tc2 ##ₘ Tp).
  { apply map_disjoint_spec. intros ta v1 v2 H1 H2. destruct (st_new _ _ _ _ _ _ Hst2 ta ltac:(by eexists)) as [[v3 H3]|Hin].
    - by apply (map_disjoint_spec Tp Tc) with ta v2 v3.
    - apply (S4 ta); [by eexists|]. pose proof (st_end _ _ _ _ _ _ Hst2). pose proof (rep_end _ _ _ _ Hc2). lia. }
  pose proof (other_space_frame _ _ _ _ _ _ _ _ _ _ Hc2 Hst2 Hr1 Htp2) as Hr2.
  rewrite Hro in *. set (ro := read_only_permissions restored) in *.
  assert (Hb2 : forall x, 0 <= x -> (forall ta, is_Some (Tp !! ta) \/ is_Some (Tc2 !! ta) -> ~ (ta <= x < ta + 4096)) -> bus_byte b2 x = bus_byte (shared_bus s) x).
  { intros x Hx Hout. rewrite (st_bytes _ _ _ _ _ _ Hst2 x Hx), (st_bytes _ _ _ _ _ _ Hst1 x Hx); [done|intros ta Hta; apply Hout; by left|intros ta Hta; apply Hout; by right]. }
  assert (Hprot : p = ro -> protect key mp = mp).
  { intros Hp. apply map_eq. intros k'. unfold protect. destruct (decide (k' = key)) as [->|]; [|by rewrite lookup_alter_ne].
    rewrite lookup_alter_eq, Hm. cbn. by rewrite Hro, Hp. }
  assert (Hmgr : exists c' b3 n, share_page parent child page s = (mkSharing c' (parent_space s) sc2 b3, Ok n) /\
    represents Tp (parent_space s) b3 (protect key mp) /\ represents Tc2 sc2 b3 (<[key := (pa, ro)]> mc) /\ bus_size b3 = bus_size b2 /\
    (forall x, x ∈ cow_mappings c' -> x ∈ cow_mappings c \/ x = mkCowMapping parent page pa restored \/ x = mkCowMapping child page pa restored) /\
    (forall x, 0 <= x -> (forall ta, is_Some (Tp !! ta) -> ~ (ta <= x < ta + 4096)) -> bus_byte b3 x = bus_byte b2 x)).
  { assert (Hcont : cow_contains child page c = false).
    { apply bool_decide_eq_false. intros [x Hx]. destruct (find_mapping_some _ _ _ _ Hx) as (Hin & Hxp & Hxv). apply (Hnew x Hin Hxp). by rewrite Hxv. }
    assert (Hcp : (if p_writable restored then read_only_permissions restored else restored) = ro).
    { destruct (p_writable restored) eqn:Ew; [done|]. symmetry. by apply read_only_same. }
    unfold share_page. munfold_goal. rewrite is_page_aligned_spec, bool_decide_true by done. cbn [negb]. unfold on_parent at 1, zoom at 1. rewrite Et.
    cbn [fst snd sharing_manager child_space parent_space shared_bus]. rewrite Hsz, Hpe, Hfr. change (negb (4096 =? PAGE_SIZE_4K_BYTES)) with false. cbn iota. fold c.
    fold pm. fold restored. rewrite Hcont, andb_false_r. unfold on_child at 1, zoom at 1. cbn [fst snd sharing_manager child_space parent_space shared_bus].
    rewrite Hcp, Em. cbn [fst snd]. destruct (p_writable restored) eqn:Ew.
    2:{ exists c, b2, false. rewrite Hprot; [split_and!; auto|]. destruct pm as [x|] eqn:Epm; [symmetry; by apply (Hpro x)|]. symmetry. by apply read_only_same. }
    destruct pm as [x|] eqn:Epm; [rewrite bool_decide_false by done|rewrite bool_decide_true by done].
    - exists (add_mapping (mkCowMapping child page pa restored) c), b2, true. split; [done|].
      rewrite Hprot by (symmetry; by apply (Hpro x)). split_and!; auto. intros y Hy. apply add_mapping_elem in Hy as [Hy|Hy]; auto.
    - fold ro. unfold on_parent, zoom. cbn [fst snd sharing_manager child_space parent_space shared_bus].
      destruct (set_page_permissions_represents Tp (parent_space s) b2 mp page ro Hr2 Hu Hal Hcan) as (b3 & Hr3 & Hst3 & Eset). fold key in Hr3, Eset.
      rewrite Eset, decide_True by by eexists. cbn [fst snd]. unfold on_manager. munfold_goal. cbn [fst snd sharing_manager child_space parent_space shared_bus].
      exists (add_mapping (mkCowMapping child page pa restored) (add_mapping (mkCowMapping parent page pa restored) c)), b3, true. split; [done|].
      split; [|split; [|split; [apply (st_size _ _ _ _ _ _ Hst3)|split]]].
      + replace (protect key mp) with (alter (fun x => (x.1, ro)) key mp); [done|]. apply map_eq. intros k'. unfold protect.
        destruct (decide (k' = key)) as [->|]; [rewrite !lookup_alter_eq, Hm; cbn; by rewrite Hro|by rewrite !lookup_alter_ne].
      + by apply (other_space_frame _ _ _ _ _ _ _ _ _ _ Hr3 Hst3 Hc2).
      + intros y Hy. apply add_mapping_elem in Hy as [Hy|Hy]; [|auto]. apply add_mapping_elem in Hy as [Hy|Hy]; auto.
      + apply (st_bytes _ _ _ _ _ _ Hst3). }
  destruct Hmgr as (c' & b3 & n & E & Hr3 & Hc3 & Hs3 & Hel & Hb3). exists (mkSharing c' (parent_space s) sc2 b3), Tc2, n. split; [exact E|].
  destruct (books_after c c' parent child mp mc page pa p restored Bp Bc Hne Hm Hro Hnew Hel) as [Bp' Bc']. rewrite Hro in Bc'. fold ro key in Bc'.
  cbn [sharing_manager child_space shared_bus parent_space]. split.
  { split; cbn [child_space shared_bus parent_space]; [done|done|by apply map_disjoint_sym|].
    intros ta Hta Hin. apply (S4 ta Hta). pose proof (st_end _ _ _ _ _ _ Hst2). pose proof (st_next _ _ _ _ _ _ Hst2). lia. }
  split; [done|]. split; [done|]. split; [by unfold room in *; rewrite Hs3|]. split; [apply (st_mono _ _ _ _ _ _ Hst2)|]. split.
  - intros x Hx. destruct (Hel x Hx) as [|[-> | ->]]; auto.
  - intros x Hx Hout. rewrite Hb3, Hb2; [done|done|exact Hout|done|intros ta Hta; apply Hout; by left].
Qed.

Lemma protect_lookup key mp k : protect key mp !! k = if decide (k = key) then (fun x => (x.1, read_only_permissions x.2)) <$> mp !! k else mp !! k.
Proof. unfold protect. case_decide as Hk; [subst; by rewrite lookup_alter_eq|by rewrite lookup_alter_ne]. Qed.
Lemma share_entry_lookup key mp mc k : is_Some (mp !! key) ->
  share_entry key mp mc !! k = if decide (k = key) then protect key mp !! k else mc !! k.
Proof.
  intros [[pa p] Hm]. unfold share_entry. rewrite Hm. case_decide as Hk.
  - subst. by rewrite lookup_insert_eq, protect_lookup, decide_True, Hm.
  - by rewrite lookup_insert_ne.
Qed.
Lemma share_loop_spec parent child pages : parent <> child -> forall n Tp mp Tc mc s, sharing_ok Tp mp Tc mc s ->
  books_match (sharing_manager s) parent mp -> books_match (sharing_manager s) child mc ->
  Forall (shareable (sharing_manager s) child mp) pages -> NoDup (page_key <$> pages) ->
  room (3 * lenZ pages) (builder_of (child_space s)) (shared_bus s) ->
  exists s' Tc' mp' mc' n', share_loop parent child pages n s = (s', Ok n') /\ sharing_ok Tp mp' Tc' mc' s' /\
    (forall k, mp' !! k = if decide (k ∈ page_key <$> pages) then (fun x => (x.1, read_only_permissions x.2)) <$> mp !! k else mp !! k) /\
    (forall k, mc' !! k = if decide (k ∈ page_key <$> pages) then mp' !! k else mc !! k) /\
    books_match (sharing_manager s') parent mp' /\ books_match (sharing_manager s') child mc' /\ Tc ⊆ Tc' /\
    (forall x, 0 <= x -> (forall ta, is_Some (Tp !! ta) \/ is_Some (Tc' !! ta) -> ~ (ta <= x < ta + 4096)) -> bus_byte (shared_bus s') x = bus_byte (shared_bus s) x).
Proof.
  intros Hne. induction pages as [|page pages IH]; intros n Tp mp Tc mc s Hok Bp Bc Hsh Hnd Hroom; cbn [share_loop].
  - exists s, Tc, mp, mc, n. split_and!; try done.
  - apply Forall_cons in Hsh as [Hpage Hsh]. cbn [fmap list_fmap] in Hnd. apply NoDup_cons in Hnd as [Hfresh Hnd].
    assert (Hlen : lenZ (page :: pages) = lenZ pages + 1) by (unfold lenZ; cbn [length]; lia). rewrite Hlen in Hroom.
    destruct (share_page_spec Tp mp Tc mc s parent child page (3 * lenZ pages) Hok Bp Bc Hne Hpage) as (s1 & Tc1 & b & E1 & Hok1 & Bp1 & Bc1 & Hroom1 & Hsub1 & Hel1 & Hby1);
      [unfold lenZ; lia|by replace (3 * lenZ pages + 3) with (3 * (lenZ pages + 1)) by lia|].
    pose proof Hpage as (_ & _ & _ & Hpm & _).
    destruct (IH (if b then n + 1 else n) Tp (protect (page_key page) mp) Tc1 (share_entry (page_key page) mp mc) s1 Hok1 Bp1 Bc1) as (s' & Tc' & mp' & mc' & n' & E & Hok' & Hmp' & Hmc' & Bp' & Bc' & Hsub' & Hby'); [|done|done|].
    { apply Forall_forall. intros q Hq. rewrite Forall_forall in Hsh. destruct (Hsh q Hq) as (Q1 & Q2 & Q3 & Q4 & Q5). split_and!; try done.
      - rewrite protect_lookup. case_decide; [by apply fmap_is_Some|done].
      - intros x Hx Hxp. destruct (Hel1 x Hx) as [Hx'| ->]; [by apply Q5|]. intros Heq. apply Hfresh. rewrite Heq. by apply list_elem_of_fmap_2. }
    exists s', Tc', mp', mc', n'. munfold_goal. rewrite E1. split; [exact E|]. split; [done|]. cbn [fmap list_fmap]. split; [|split; [|split; [done|split; [done|split; [by transitivity Tc1|]]]]].
    + intros k. rewrite Hmp', protect_lookup. destruct (decide (k = page_key page)) as [->|Hk].
      * rewrite (decide_False (P := page_key page ∈ page_key <$> pages)) by done. rewrite decide_True by (apply elem_of_cons; by left). done.
      * destruct (decide (k ∈ page_key <$> pages)); [rewrite decide_True by (apply elem_of_cons; by right)|rewrite decide_False by (rewrite elem_of_cons; tauto)]; done.
    + intros k. rewrite Hmc'. destruct (decide (k = page_key page)) as [->|Hk].
      * rewrite (decide_False (P := page_key page ∈ page_key <$> pages)) by done. rewrite decide_True by (apply elem_of_cons; by left).
        rewrite share_entry_lookup, decide_True by done. rewrite Hmp'. by rewrite decide_False.
      * destruct (decide (k ∈ page_key <$> pages)); [rewrite decide_True by (apply elem_of_cons; by right)|rewrite decide_False by (rewrite elem_of_cons; tauto)]; [done|].
        rewrite share_entry_lookup by done. by rewrite decide_False.
    + intros x Hx Hout. rewrite Hby', Hby1; [done|done| |done|done]. intros ta [Hta|Hta]; apply Hout; [by left|right]. destruct Hta as [v Hv]. exists v. by eapply lookup_weaken.
Qed.

(** Sharing pages copies nothing and protects everything: after a child without shared pages has
    been given pages of its parent, parent and child map each of them to the frame the parent had
    mapped, neither may write to it, all other pages of both are as before, and no byte outside page
    tables has changed. *)
Theorem shared_pages_are_read_only parent child pages Tp mp Tc mc s : parent <> child -> sharing_ok Tp mp Tc mc s ->
  books_match (sharing_manager s) parent mp -> books_match (sharing_manager s) child mc ->
  Forall (shareable (sharing_manager s) child mp) pages -> NoDup (page_key <$> pages) ->
  room (3 * lenZ pages) (builder_of (child_space s)) (shared_bus s) ->
  exists s' Tc' mp' mc' n', share_pages parent child pages s = (s', Ok n') /\ sharing_ok Tp mp' Tc' mc' s' /\
    (forall page, page ∈ pages -> exists frame p, mp !! page_key page = Some (frame, p) /\
      mp' !! page_key page = Some (frame, read_only_permissions p) /\ mc' !! page_key page = Some (frame, read_only_permissions p)) /\
    (forall k, k ∉ page_key <$> pages -> mp' !! k = mp !! k /\ mc' !! k = mc !! k) /\
    books_match (sharing_manager s') parent mp' /\ books_match (sharing_manager s') child mc' /\
    (forall x, 0 <= x -> (forall ta, is_Some (Tp !! ta) \/ is_Some (Tc' !! ta) -> ~ (ta <= x < ta + 4096)) -> bus_byte (shared_bus s') x = bus_byte (shared_bus s) x).
Proof.
  intros Hne Hok Bp Bc Hsh Hnd Hroom. destruct (share_loop_spec parent child pages Hne 0 Tp mp Tc mc s Hok Bp Bc Hsh Hnd Hroom) as (s' & Tc' & mp' & mc' & n' & E & Hok' & Hmp & Hmc & Bp' & Bc' & _ & Hby).
  exists s', Tc', mp', mc', n'. split_and!; try done.
  - intros page Hin. rewrite Forall_forall in Hsh. destruct (Hsh page Hin) as (_ & _ & _ & [[frame p] Hm] & _). exists frame, p.
    assert (Hk : page_key page ∈ page_key <$> pages) by by apply list_elem_of_fmap_2. rewrite Hmc, !Hmp, !decide_True, Hm by done. done.
  - intros k Hk. by rewrite Hmc, !Hmp, !decide_False.
Qed.
End sharing_pages.

(** ** Resolving a write fault *)

Section write_fault.
Context {B : Type} `{MemoryBusLaws B}.
Implicit Types (b : B) (T : gmap Z (PageTableLevel * Z)) (m : PageMap) (f : Faulting B).

Lemma copy_loop_spec src dst : forall (n : nat) k b, bus_ok b -> table_ok b src -> table_ok b dst -> src <> dst -> 0 <= k -> k + Z.of_nat n <= 512 ->
  exists b', for_each (seqZ k (Z.of_nat n)) (fun k =>
    let offset := mul64 k 8 in
    lift (fun b => bus_read b (add64 src offset) Size.QWORD) ≫= fun value =>
    bus_write_M (add64 dst offset) Size.QWORD value) b = (b', Ok tt) /\ bus_ok b' /\ bus_size b' = bus_size b /\
  forall x, 0 <= x -> bus_byte b' x = if decide (dst + 8 * k <= x < dst + 8 * (k + Z.of_nat n)) then bus_byte b (src + (x - dst)) else bus_byte b x.
Proof.
  induction n as [|n IH]; intros k b Hok Hs Hd Hne Hk Hn.
  - exists b. split; [done|]. split; [done|]. split; [done|]. intros x Hx. rewrite decide_False by lia. done.
  - rewrite seqZ_cons by lia. replace (Z.pred (Z.of_nat (S n))) with (Z.of_nat n) by lia. cbn [for_each]. cbn zeta. munfold_goal.
    pose proof Hs as [Hs0 Hsa Hsi]. pose proof Hd as [Hd0 Hda Hdi]. pose proof (bus_size_range b Hok) as Hbr.
    assert (Em : mul64 k 8 = 8 * k) by (unfold mul64; rewrite wrap64_small; unfold u64; lia). rewrite Em, !add64_small by lia.
    destruct (bus_read_in b (src + 8 * k) Size.QWORD) as (v & Hv & Hvr & Hvb); [done|lia|done|cbn; lia|]. rewrite Hv. cbn in Hvb.
    destruct (bus_write_in b (dst + 8 * k) Size.QWORD v) as (b1 & Hw & Hok1 & Hs1 & Hb1); [done|lia|done|cbn; lia|]. rewrite (bus_write_M_Ok _ _ _ _ _ Hw). cbn in Hb1.
    destruct (IH (Z.succ k) b1) as (b' & E & Hok' & Hs' & Hb'); [done|by apply (table_ok_size b)|by apply (table_ok_size b)|done|lia|lia|].
    exists b'. split; [exact E|]. split; [done|]. split; [congruence|]. intros x Hx. rewrite Hb' by done.
    pose proof (Z.div_mod src 4096 ltac:(lia)). pose proof (Z.div_mod dst 4096 ltac:(lia)).
    destruct (decide (dst + 8 * Z.succ k <= x < dst + 8 * (Z.succ k + Z.of_nat n))).
    + rewrite decide_True by lia. rewrite Hb1, decide_False by lia. done.
    + rewrite Hb1 by done. destruct (decide (dst + 8 * k <= x < dst + 8 * k + 8)).
      * rewrite decide_True by lia. rewrite Hvb by lia. f_equal. lia.
      * rewrite decide_False by lia. done.
Qed.
(** A page copied to another one. *)
Lemma copy_page_spec src dst b : bus_ok b -> table_ok b src -> table_ok b dst -> src <> dst ->
  exists b', copy_physical_page src dst b = (b', Ok tt) /\ bus_ok b' /\ bus_size b' = bus_size b /\
  (forall i, 0 <= i < 4096 -> bus_byte b' (dst + i) = bus_byte b (src + i)) /\
  (forall x, 0 <= x -> ~ (dst <= x < dst + 4096) -> bus_byte b' x = bus_byte b x).
Proof.
  intros Hok Hs Hd Hne. destruct (copy_loop_spec src dst 512 0 b Hok Hs Hd Hne) as (b' & E & Hok' & Hsz & Hb); [lia|lia|].
  exists b'. split; [exact E|]. split; [done|]. split; [done|]. destruct Hd as [Hd0 _ _]. split.
  - intros i Hi. rewrite Hb, decide_True by lia. f_equal. lia.
  - intros x Hx Hout. rewrite Hb, decide_False by lia. done.
Qed.

Lemma reactivate_spec f : space_root (address_space_ f) `mod` 4096 = 0 -> is_process_context_id_valid (process_context_id (cpu_paging (cpu_state_ f))) = true ->
  exists ps, reactivate f = (mkFaulting (allocator_ f) (address_space_ f) (memory_bus_ f) (set_paging ps (cpu_state_ f)), Ok tt) /\
  cr3 ps = space_root (address_space_ f) /\ execute_disable_enabled ps = execute_disable_enabled (cpu_paging (cpu_state_ f)) /\
  process_context_id ps = process_context_id (cpu_paging (cpu_state_ f)) /\ paging_enabled ps = true.
Proof.
  intros Hr Hv. destruct f as [al sp b cpu]. cbn [address_space_ cpu_state_ allocator_ memory_bus_] in *. set (id := process_context_id (cpu_paging cpu)) in *.
  unfold reactivate, on_cpu, activate_context, zoom, load_cr3. munfold_goal. cbn [address_space_ cpu_state_ allocator_ memory_bus_]. fold id.
  change PAGE_SIZE_4K_BYTES with (Z.shiftl 1 12). rewrite is_aligned_spec by lia. change (2 ^ 12) with 4096. rewrite Hr, Hv. cbn [Z.eqb negb].
  assert (Hex : forall p cpu', cpu_paging cpu' = p -> set_paging (enable (cpu_paging (set_paging p cpu'))) (set_paging p cpu') = set_paging (enable p) cpu') by done.
  destruct (Z.eqb_spec id 0) as [Hz|Hz]; cbn [negb].
  - rewrite andb_false_r. eexists. split; [reflexivity|]. done.
  - assert (Hen : process_context_id_enabled (cpu_paging (set_paging (set_process_context_id_enabled true (cpu_paging cpu)) cpu)) = true).
    { cbn. unfold set_process_context_id_enabled. destruct (Bool.eqb_spec (process_context_id_enabled (cpu_paging cpu)) true); [done|done]. }
    rewrite Hen. cbn [negb andb]. eexists. split; [reflexivity|]. cbn. split; [done|]. split; [|done].
    unfold set_process_context_id_enabled. by destruct (Bool.eqb _ _).
Qed.
(** The frames the books speak of are in memory, taken, and no page tables. *)
Record frames_ok (c : CopyOnWriteManager) T f : Prop := {
  fr_taken y : y ∈ cow_mappings c -> ~ is_free (allocator_ f) (cow_frame y / 4096);
  fr_table y : y ∈ cow_mappings c -> T !! cow_frame y = None;
  fr_arena y : y ∈ cow_mappings c -> ~ (space_next (address_space_ f) <= cow_frame y < space_end (address_space_ f));
  fr_inside y : y ∈ cow_mappings c -> cow_frame y + 4096 <= bus_size (memory_bus_ f);
}.
(** What is left of the books once a mapping is dropped. *)
Lemma drop_mapping_others p v x c : cow_wf c -> find_mapping p v c = Some x ->
  forall y, y ∈ cow_mappings (remove_mapping p v (release_frame_ref (cow_frame x) c)) <-> y ∈ cow_mappings c /\ y <> x.
Proof.
  intros Hwf. pose proof (cw_keys c Hwf) as Hnd. unfold remove_mapping, release_frame_ref, find_mapping. cbn [cow_mappings].
  induction (cow_mappings c) as [|z l IH]; cbn [List.find erase_mapping]; [done|]. cbn [fmap list_fmap] in Hnd. apply NoDup_cons in Hnd as [Hz Hnd].
  destruct (is_mapping p v z) eqn:Ez; intros E y.
  - injection E as ->. split; [|set_solver]. intros Hy. split; [set_solver|]. intros ->. by destruct Hz; apply (list_elem_of_fmap_2 (fun m : CowMapping => (cow_process m, cow_page m))).
  - rewrite !elem_of_cons, IH by done. split; [|tauto]. intros [->|]; [|tauto]. split; [by left|]. intros ->.
    apply List.find_some in E as [_ E]. congruence.
Qed.

(** A write to a shared page has faulted: the trap is pending, and the books have the page. *)
Record cow_fault (pid : Z) (c : CopyOnWriteManager) (x : CowMapping) T m f : Prop := {
  cf_ok : faulting_ok T m f;
  cf_books : cow_wf c;
  cf_length : lenZ (cow_mappings c) < W64;
  cf_match : books_match c pid m;
  cf_frames : frames_ok c T f;
  cf_trap : exists frame, get_pending_trap (cpu_state_ f) = Ok frame /\ is_write_protection_fault frame = true;
  cf_pcid : is_process_context_id_valid (process_context_id (cpu_paging (cpu_state_ f))) = true;
  cf_address : u64 (page_fault_linear_address (cpu_paging (cpu_state_ f))) /\
    is_canonical_linear_address (align_down (page_fault_linear_address (cpu_paging (cpu_state_ f)))) = true;
  cf_found : find_mapping pid (align_down (page_fault_linear_address (cpu_paging (cpu_state_ f)))) c = Some x;
}.
(** What resolving it must give: the page in the frame [frame'], private and as it was. *)
Record cow_resolved (c c' : CopyOnWriteManager) (x : CowMapping) T m f T' f' (frame' : Z) : Prop := {
  cr_space : represents T' (address_space_ f') (memory_bus_ f') (<[page_key (cow_page x) := (frame', cow_restored x)]> m);
  cr_books : cow_wf c' /\ (forall y, y ∈ cow_mappings c' <-> y ∈ cow_mappings c /\ y <> x);
  cr_private y : y ∈ cow_mappings c' -> cow_frame y <> frame';
  cr_content i : 0 <= i < 4096 -> bus_byte (memory_bus_ f') (frame' + i) = bus_byte (memory_bus_ f) (cow_frame x + i);
  cr_bytes a : 0 <= a -> ~ (frame' <= a < frame' + 4096) -> (forall ta, is_Some (T' !! ta) -> ~ (ta <= a < ta + 4096)) ->
    bus_byte (memory_bus_ f') a = bus_byte (memory_bus_ f) a;
  cr_trap : has_pending_trap (cpu_state_ f') = false;
  cr_current : cr3 (cpu_paging (cpu_state_ f')) = space_root (address_space_ f') /\
    process_context_id (cpu_paging (cpu_state_ f')) = process_context_id (cpu_paging (cpu_state_ f)) /\
    execute_disable_enabled (cpu_paging (cpu_state_ f')) = execute_disable_enabled (cpu_paging (cpu_state_ f));
}.
Lemma cow_fault_page pid c x T m f : cow_fault pid c x T m f ->
  cow_page x = align_down (page_fault_linear_address (cpu_paging (cpu_state_ f))) /\ x ∈ cow_mappings c /\
  m !! page_key (cow_page x) = Some (cow_frame x, read_only_permissions (cow_restored x)) /\ cow_frame x `mod` 4096 = 0 /\ 0 <= cow_frame x < 2 ^ 52 /\
  cow_page x `mod` 4096 = 0 /\ u64 (cow_page x) /\ 0 < frame_ref_count (cow_frame x) c.
Proof.
  intros [C1 C2 C3 C4 C5 C6 C7 [C8 C9] C10]. destruct (find_mapping_some _ _ _ _ C10) as (Hin & Hp & Hv). pose proof (C4 x Hin Hp) as Hm.
  destruct (mapped_frame _ _ _ _ _ _ _ (fo_space _ _ _ C1) Hm) as [Ha Hr]. destruct (align_down_key _ C8) as (Hal & Hau & _ & _).
  rewrite Hv. split_and!; try done; [by rewrite <- Hv|lia|lia|]. rewrite (cw_counts c C2). by apply (count_elem (fun y => cow_frame y = cow_frame x) _ x).
Qed.
(** The steps before the choice. *)
Lemma resolve_start pid c x T m f : cow_fault pid c x T m f -> exists rest, resolve_write_fault pid (c, f) = rest (c, f) /\
  rest = (if frame_ref_count (cow_frame x) c <=? 1 then
      on_fault (on_space (set_page_permissions (cow_page x) (cow_restored x))) ≫= fun _ =>
      on_fault reactivate ≫= fun _ =>
      on_books (release_frame_ref (cow_frame x)) ≫= fun _ =>
      on_books (remove_mapping pid (cow_page x)) ≫= fun _ =>
      on_fault (on_cpu (modify clear_pending_trap)) ≫= fun _ =>
      mret Cow.RESTORED
    else
      try_catch (on_fault (on_allocator allocate_page) ≫= fun p => mret (Some p))
        (fun e => if bool_decide (e = bad_alloc) then Some (mret None) else None) ≫= fun page =>
      match page with
      | None => mret Cow.OUT_OF_MEMORY
      | Some copied_page =>
          on_failure
            (on_fault (on_memory (copy_physical_page (cow_frame x) copied_page)) ≫= fun _ =>
             on_fault (on_space (map_page (cow_page x) copied_page (cow_restored x))) ≫= fun _ =>
             on_fault reactivate)
            (on_fault (on_allocator (free_page copied_page))) ≫= fun _ =>
          on_books (release_frame_ref (cow_frame x)) ≫= fun _ =>
          on_books (remove_mapping pid (cow_page x)) ≫= fun _ =>
          on_fault (on_cpu (modify clear_pending_trap)) ≫= fun _ =>
          mret Cow.COPIED
      end).
Proof.
  intros Hcf. destruct (cow_fault_page _ _ _ _ _ _ Hcf) as (Hpage & _). destruct Hcf as [C1 C2 C3 C4 C5 [fr [C6 C6']] C7 [C8 C9] C10].
  eexists. split; [|reflexivity]. unfold resolve_write_fault. munfold_goal. cbn [fst snd].
  assert (Hpt : has_pending_trap (cpu_state_ f) = true).
  { unfold get_pending_trap in C6. unfold has_pending_trap. by destruct (pending_trap (cpu_state_ f)). }
  rewrite Hpt. cbn [negb]. rewrite C6. cbn beta iota. rewrite C6'. cbn [negb fst snd]. rewrite C10, Hpage. by destruct (_ <=? 1).
Qed.
Lemma resolve_restored pid c x T m f : cow_fault pid c x T m f -> frame_ref_count (cow_frame x) c <= 1 ->
  exists c' f', resolve_write_fault pid (c, f) = ((c', f'), Ok Cow.RESTORED) /\ cow_resolved c c' x T m f T f' (cow_frame x) /\ allocator_ f' = allocator_ f.
Proof.
  intros Hcf Hcount. destruct (resolve_start _ _ _ _ _ _ Hcf) as (rest & -> & ->). rewrite (proj2 (Z.leb_le _ _)) by done.
  destruct (cow_fault_page _ _ _ _ _ _ Hcf) as (Hpage & Hin & Hm & Hal & Hfr & Hpal & Hpu & Hpos).
  pose proof Hcf as [C1 C2 C3 C4 C5 _ C7 [C8 C9] C10]. rewrite <- Hpage in C9, C10. destruct f as [al sp b cpu]. cbn [allocator_ address_space_ memory_bus_ cpu_state_] in *.
  destruct (set_page_permissions_represents T sp b m (cow_page x) (cow_restored x) (fo_space _ _ _ C1) Hpu Hpal C9) as (b1 & Hr1 & Hst & Es).
  rewrite decide_True in Es by by eexists.
  destruct (reactivate_spec (mkFaulting al sp b1 cpu)) as (ps & Er & Hcr & Hxd & Hid & _); [apply (rep_root _ _ _ _ Hr1)|done|]. cbn [allocator_ address_space_ memory_bus_ cpu_state_] in *.
  set (c' := remove_mapping pid (cow_page x) (release_frame_ref (cow_frame x) c)). exists c', (mkFaulting al sp b1 (clear_pending_trap (set_paging ps cpu))).
  split.
  { munfold_goal. unfold on_fault at 1, on_space, zoom. cbn [fst snd allocator_ address_space_ memory_bus_ cpu_state_]. rewrite Es. cbn [fst snd].
    unfold on_fault at 1, zoom. cbn [fst snd]. rewrite Er. reflexivity. }
  split; [|done]. destruct (drop_mapping_wf pid (cow_page x) x c C2 C3 C10) as [Hwf' _]. pose proof (drop_mapping_others pid (cow_page x) x c C2 C10) as Hothers. fold c' in Hwf', Hothers.
  split; cbn [allocator_ address_space_ memory_bus_ cpu_state_]; try done.
  - replace (<[page_key (cow_page x) := (cow_frame x, cow_restored x)]> m) with (alter (fun y => (y.1, cow_restored x)) (page_key (cow_page x)) m); [done|].
    apply map_eq. intros k. destruct (decide (k = page_key (cow_page x))) as [->|]; [by rewrite lookup_alter_eq, lookup_insert_eq, Hm|by rewrite lookup_alter_ne, lookup_insert_ne].
  - intros y Hy Hf. apply Hothers in Hy as [Hy Hyx]. pose proof (cw_counts c C2 (cow_frame x)) as Hc.
    assert (Htwo : 1 < count (fun z => cow_frame z = cow_frame x) (cow_mappings c)) by by apply (count_two _ _ x y).
    lia.
  - intros i Hi. apply (st_bytes _ _ _ _ _ _ Hst); [lia|]. intros ta Hta Hx. destruct (table_aligned _ _ _ _ _ (fo_space _ _ _ C1) Hta) as [Ha Ha0]. cbn [memory_bus_] in *.
    assert (ta = cow_frame x) as -> by (pose proof (Z.div_mod ta 4096 ltac:(lia)); pose proof (Z.div_mod (cow_frame x) 4096 ltac:(lia)); lia).
    pose proof (fr_table _ _ _ C5 x Hin) as Hn. rewrite Hn in Hta. by destruct Hta.
  - intros a Ha _ Hout. by apply (st_bytes _ _ _ _ _ _ Hst).
Qed.
Lemma resolve_copied pid c x T m f : cow_fault pid c x T m f -> 1 < frame_ref_count (cow_frame x) c ->
  (exists i, is_free (allocator_ f) i) -> room 3 (builder_of (address_space_ f)) (memory_bus_ f) ->
  exists c' f' T' pa, resolve_write_fault pid (c, f) = ((c', f'), Ok Cow.COPIED) /\ cow_resolved c c' x T m f T' f' pa /\ pa <> cow_frame x /\
    is_free (allocator_ f) (pa / 4096) /\ forall j, is_free (allocator_ f') j <-> is_free (allocator_ f) j /\ j <> pa / 4096.
Proof.
  intros Hcf Hcount [i0 Hi0] Hroom. destruct (resolve_start _ _ _ _ _ _ Hcf) as (rest & -> & ->). rewrite (proj2 (Z.leb_gt _ _)) by done.
  destruct (cow_fault_page _ _ _ _ _ _ Hcf) as (Hpage & Hin & Hm & Hal & Hfr & Hpal & Hpu & Hpos).
  pose proof Hcf as [[F1 F2 F3 F4 F5] C2 C3 C4 C5 _ C7 [C8 C9] C10]. rewrite <- Hpage in C9, C10. destruct f as [al sp b cpu]. cbn [allocator_ address_space_ memory_bus_ cpu_state_] in *.
  destruct (take_page al i0 F2 Hi0) as (al1 & pa & Eal & Hwf1 & Htot & Hpm & Hpf & Hfree). pose proof (rep_size _ _ _ _ F1) as H52. pose proof (proj1 Hpf) as Hpr.
  pose proof (Z.div_mod pa 4096 ltac:(lia)) as Hpd. pose proof (twf_bus _ _ _ (rep_tables _ _ _ _ F1)) as Hok.
  assert (Hne : cow_frame x <> pa). { intros E. apply (fr_taken _ _ _ C5 x Hin). cbn [allocator_]. by rewrite E. }
  pose proof (fr_inside _ _ _ C5 x Hin) as Hins. cbn [memory_bus_] in Hins.
  destruct (copy_page_spec (cow_frame x) pa b Hok) as (b1 & Ec & Hok1 & Hs1 & Hcp & Hoth); [split; [lia|done|lia]|split; [lia|done|lia]|done|].
  assert (Hrep1 : represents T sp b1 m).
  { apply (represents_frame T sp b b1 m F1 Hok1 Hs1). intros ta y Hq Hiny. destruct (table_aligned _ _ _ _ _ F1 Hq). apply Hoth; [lia|].
    intros Hin'. by apply (free_page_apart al pa ta y Hpm ltac:(done) Hpf (F4 ta Hq)). }
  assert (Hpu' : u64 pa) by (unfold u64; lia).
  destruct (map_page_total T sp b1 m (cow_page x) pa (cow_restored x) 0 Hrep1) as (sp' & b2 & Em & _); try done; [lia|by unfold room in *; rewrite Hs1|].
  destruct (map_page_represents T sp b1 m (cow_page x) pa (cow_restored x) sp' b2 Hrep1) as (T' & Hrep2 & Hst); [done|done|lia|done|].
  destruct (reactivate_spec (mkFaulting al1 sp' b2 cpu)) as (ps & Er & Hcr & Hxd & Hid & _); [apply (rep_root _ _ _ _ Hrep2)|done|]. cbn [allocator_ address_space_ memory_bus_ cpu_state_] in *.
  assert (Hta' : forall ta, is_Some (T' !! ta) -> ta `mod` 4096 = 0 /\ ~ is_free al (ta / 4096)).
  { intros ta Hq. destruct (table_aligned _ _ _ _ _ Hrep2 Hq) as [Ha Ha0]. split; [done|].
    apply (st_new _ _ _ _ _ _ Hst) in Hq as [Hq|[Hlo Hhi]]; [by apply F4|]. apply F5. pose proof (Z.div_mod ta 4096 ltac:(lia)).
    pose proof (st_end _ _ _ _ _ _ Hst). destruct (rep_end _ _ _ _ Hrep2). lia. }
  set (c' := remove_mapping pid (cow_page x) (release_frame_ref (cow_frame x) c)).
  exists c', (mkFaulting al1 sp' b2 (clear_pending_trap (set_paging ps cpu))), T', pa. split.
  { unfold try_catch, on_failure. munfold_goal. unfold on_fault at 1, on_allocator at 1, zoom. cbn [fst snd allocator_ address_space_ memory_bus_ cpu_state_]. rewrite Eal.
    unfold on_fault at 1, on_memory, zoom. cbn [fst snd allocator_ address_space_ memory_bus_ cpu_state_]. rewrite Ec. cbn [fst snd allocator_ address_space_ memory_bus_ cpu_state_].
    unfold on_fault at 1, on_space, zoom. cbn [fst snd allocator_ address_space_ memory_bus_ cpu_state_]. rewrite Em. cbn [fst snd].
    unfold on_fault at 1, zoom. cbn [fst snd]. rewrite Er. reflexivity. }
  split; [|split; [done|split; [done|exact Hfree]]].
  destruct (drop_mapping_wf pid (cow_page x) x c C2 C3 C10) as [Hwf' _]. pose proof (drop_mapping_others pid (cow_page x) x c C2 C10) as Hothers. fold c' in Hwf', Hothers.
  split; cbn [allocator_ address_space_ memory_bus_ cpu_state_]; try done.
  - intros y Hy Hf. apply Hothers in Hy as [Hy _]. apply (fr_taken _ _ _ C5 y Hy). by rewrite Hf.
  - intros i Hi. rewrite (st_bytes _ _ _ _ _ _ Hst); [by apply Hcp|lia|]. intros ta Hq Hx. destruct (Hta' ta Hq).
    by apply (free_page_apart al pa ta (pa + i) Hpm ltac:(done) Hpf ltac:(done) ltac:(lia)).
  - intros a Ha Hout Hnt. rewrite (st_bytes _ _ _ _ _ _ Hst) by done. by apply Hoth.
Qed.

(** C16. Copy on write isolates: resolving a write to a shared page gives the process a frame that the
    books know from no other mapping -- its own frame when it is the last to share it, a free page
    otherwise -- which holds the same bytes, is mapped with the permissions from before the sharing, and
    which the same write then reaches; no other byte outside page tables has changed, and all other
    mappings in the books stay. *)
Theorem write_fault_gives_private_copy pid c x T m f priv : cow_fault pid c x T m f ->
  (exists i, is_free (allocator_ f) i) -> room 3 (builder_of (address_space_ f)) (memory_bus_ f) ->
  execute_disable_enabled (cpu_paging (cpu_state_ f)) = true -> (priv = Ring.RING3 -> p_user_accessible (cow_restored x) = true) ->
  is_canonical_linear_address (page_fault_linear_address (cpu_paging (cpu_state_ f))) = true ->
  exists c' f' T' frame', resolve_write_fault pid (c, f) = ((c', f'), Ok (if decide (frame' = cow_frame x) then Cow.RESTORED else Cow.COPIED)) /\
    cow_resolved c c' x T m f T' f' frame' /\
    (frame' = cow_frame x \/ is_free (allocator_ f) (frame' / 4096)) /\
    let a := page_fault_linear_address (cpu_paging (cpu_state_ f)) in
    seen (translate (cpu_paging (cpu_state_ f')) a AccessKind.WRITE priv (memory_bus_ f')).2 = Ok (a - a `mod` 4096, frame', cow_restored x).
Proof.
  intros Hcf Hfree Hroom Hxd Hpriv Hcan. destruct (cow_fault_page _ _ _ _ _ _ Hcf) as (Hpage & Hin & _). pose proof (cw_writable _ (cf_books _ _ _ _ _ _ Hcf) x Hin) as Hw.
  assert (Hseen : forall c' T' f' frame', cow_resolved c c' x T m f T' f' frame' ->
    let a := page_fault_linear_address (cpu_paging (cpu_state_ f)) in
    seen (translate (cpu_paging (cpu_state_ f')) a AccessKind.WRITE priv (memory_bus_ f')).2 = Ok (a - a `mod` 4096, frame', cow_restored x)).
  { intros c' T' f' frame' Hres. cbn zeta. destruct (cr_current _ _ _ _ _ _ _ _ _ Hres) as (Hcr & _ & Hx'). destruct (cf_address _ _ _ _ _ _ Hcf) as [Hu _].
    destruct (translate_represents T' _ _ _ (cpu_paging (cpu_state_ f')) (page_fault_linear_address (cpu_paging (cpu_state_ f))) AccessKind.WRITE priv (cr_space _ _ _ _ _ _ _ _ _ Hres) Hcr Hu) as (_ & -> & _).
    unfold access_outcome. rewrite Hcan, Hpage. cbn [negb]. destruct (align_down_key _ Hu) as (_ & _ & -> & _). rewrite lookup_insert_eq.
    assert (Hna : access_fault (cpu_paging (cpu_state_ f')) (cow_restored x) AccessKind.WRITE priv = None).
    { unfold access_fault. rewrite Hx', Hxd. destruct (cow_restored x) as [[] u e]; [|done]. destruct priv; try rewrite (Hpriv eq_refl); cbn in *; try done. }
    by rewrite Hna. }
  destruct (Z_le_dec (frame_ref_count (cow_frame x) c) 1) as [Hc|Hc].
  - destruct (resolve_restored _ _ _ _ _ _ Hcf Hc) as (c' & f' & E & Hres & _). exists c', f', T, (cow_frame x). rewrite decide_True by done.
    split; [done|]. split; [done|]. split; [by left|]. by apply (Hseen c' T).
  - destruct (resolve_copied _ _ _ _ _ _ Hcf ltac:(lia) Hfree Hroom) as (c' & f' & T' & pa & E & Hres & Hne & Hpf & _). exists c', f', T', pa. rewrite decide_False by done.
    split; [done|]. split; [done|]. split; [by right|]. by apply (Hseen c' T').
Qed.
End write_fault.

(** ** Every state the books can reach *)

(** Whatever the processes, spaces, memory and processors a manager is used with, and whether its
    calls succeed or fail. *)
Inductive cow_reachable {B} `{MemoryBus B} : CopyOnWriteManager -> Prop :=
  | cow_new : cow_reachable make_cow_manager
  | cow_shared parent child pages (s s' : Sharing B) r : cow_reachable (sharing_manager s) -> parent <> child ->
      lenZ (cow_mappings (sharing_manager s)) + 2 * lenZ pages < W64 -> share_pages parent child pages s = (s', r) ->
      cow_reachable (sharing_manager s')
  | cow_faulted pid (st st' : CopyOnWriteManager * Faulting B) r : cow_reachable st.1 -> lenZ (cow_mappings st.1) < W64 ->
      resolve_write_fault pid st = (st', r) -> cow_reachable st'.1.
(** C17. The books of shared frames balance: whatever is shared between processes and whatever write
    faults are resolved, successfully or not, no page of a process is entered twice, and the count of a
    frame is the number of pages mapped to it, with no entry for a frame nobody maps. *)
Theorem cow_books_balance {B} `{MemoryBus B} (c : CopyOnWriteManager) : cow_reachable (B := B) c ->
  NoDup ((fun m => (cow_process m, cow_page m)) <$> cow_mappings c) /\
  (forall frame, frame_ref_count frame c = count (fun m => cow_frame m = frame) (cow_mappings c)) /\
  (forall r, r ∈ cow_frame_refs c -> exists m, m ∈ cow_mappings c /\ cow_frame m = ref_frame r).
Proof.
  intros Hr. assert (Hwf : cow_wf c).
  { induction Hr as [|parent child pages s s' r _ IH Hne Hlen E|pid st st' r _ IH Hlen E].
    - split; cbn; try done; try apply NoDup_nil_2; set_solver.
    - by destruct (share_pages_books _ _ _ _ _ _ Hne IH Hlen E).
    - by destruct (resolve_books _ _ _ _ IH Hlen E). }
  destruct Hwf as [K F C P W]. split; [done|]. split; [done|]. intros r Hin. pose proof (P r Hin) as Hp. specialize (C (ref_frame r)).
  unfold frame_ref_count, find_frame_ref in C. destruct (List.find _ _) as [r'|] eqn:E.
  - destruct (find_ref_some _ _ _ E) as [Hin' Hf]. assert (r' = r) as -> by by apply (NoDup_fmap_unique ref_frame (cow_frame_refs c)).
    destruct (filter (fun m => cow_frame m = ref_frame r) (cow_mappings c)) as [|m l] eqn:Ef; [unfold count, lenZ in C; rewrite Ef in C; cbn in C; lia|].
    exists m. assert (Hm : m ∈ filter (fun m => cow_frame m = ref_frame r) (cow_mappings c)) by (rewrite Ef; set_solver). apply list_elem_of_filter in Hm. tauto.
  - exfalso. apply find_ref_none in E. apply E. by apply list_elem_of_fmap_2.
Qed.

(** ** Concrete instances *)

(** A parent with one writable page and a new child, on 16 pages of memory. *)
Lemma demo_sharing : exists Tp Tc (s : Sharing PhysicalMemory),
  sharing_ok Tp (<[page_key 0x400000 := (0xA000, user_read_write_no_execute)]> ∅) Tc ∅ s /\
  sharing_manager s = make_cow_manager /\ child_space s = mkSpace 0x5000 0x6000 0x6000 0xA000 /\ bus_size (shared_bus s) = 0x10000.
Proof.
  destruct (make_space_represents (make_memory 0x10000) 0 0x1000 0x5000) as (b1 & _ & Hs1 & Hp1 & _);
    [apply (zero_memory_ok 0x10000); lia|rewrite zero_memory_size by lia; lia|lia|lia|lia|rewrite zero_memory_size by lia; lia|reflexivity..|].
  rewrite zero_memory_size in Hs1 by lia.
  destruct (make_space_represents b1 0x5000 0x6000 0xA000) as (b2 & _ & Hs2 & Hc2 & Hby2);
    [apply (twf_bus _ _ _ (rep_tables _ _ _ _ Hp1))|lia|lia|lia|lia|lia|reflexivity..|].
  assert (Hp2 : represents {[0 := (Level.PML4, 0)]} (mkSpace 0 0x1000 0x1000 0x5000) b2 ∅).
  { apply (represents_frame _ _ b1); [done|apply (twf_bus _ _ _ (rep_tables _ _ _ _ Hc2))|lia|].
    intros ta x [v Hv] Hx. apply lookup_singleton_Some in Hv as [<- _]. apply Hby2; lia. }
  destruct (map_page_total _ _ b2 _ 0x400000 0xA000 user_read_write_no_execute 0 Hp2) as (sp & b3 & Em & _);
    [unfold u64; lia|unfold u64; lia|lia|reflexivity|reflexivity|lia|unfold room; rewrite Hs2, Hs1; split; vm_compute; discriminate|].
  destruct (map_page_represents _ _ b2 _ 0x400000 0xA000 user_read_write_no_execute sp b3 Hp2) as (Tp & Hp3 & Hst);
    [unfold u64; lia|unfold u64; lia|lia|exact Em|].
  pose proof (st_end _ _ _ _ _ _ Hst) as He. destruct (rep_end _ _ _ _ Hp3) as [Hend0 Hend]. cbn in He.
  assert (Htp : forall ta, is_Some (Tp !! ta) -> ta < 0x5000).
  { intros ta Hta. apply (st_new _ _ _ _ _ _ Hst) in Hta as [[v Hv]|Hin]; [apply lookup_singleton_Some in Hv as [<- _]; lia|lia]. }
  assert (Hd : Tp ##ₘ ({[0x5000 := (Level.PML4, 0)]} : gmap Z (PageTableLevel * Z))).
  { apply map_disjoint_singleton_r_2. destruct (Tp !! 0x5000) eqn:E; [|done]. specialize (Htp 0x5000 ltac:(by eexists)). lia. }
  exists Tp, {[0x5000 := (Level.PML4, 0)]}, (mkSharing make_cow_manager sp (mkSpace 0x5000 0x6000 0x6000 0xA000) b3).
  split; [|split; [reflexivity|split; [reflexivity|]]].
  - split; cbn [parent_space child_space shared_bus]; [exact Hp3|by apply (other_space_frame _ _ _ _ _ _ _ _ _ _ Hp3 Hst Hc2)|exact Hd|].
    intros ta Hta. specialize (Htp ta Hta). cbn. lia.
  - cbn [shared_bus]. rewrite (st_size _ _ _ _ _ _ Hst). lia.
Qed.
Lemma demo_shareable : Forall (shareable make_cow_manager 2 (<[page_key 0x400000 := (0xA000, user_read_write_no_execute)]> ∅)) [0x400000].
Proof.
  apply Forall_cons_2; [|apply Forall_nil; done]. split; [unfold u64; lia|]. split; [reflexivity|]. split; [reflexivity|].
  split; [rewrite lookup_insert_eq; by eexists|]. intros x Hx. by apply elem_of_nil in Hx.
Qed.
Lemma shared_pages_are_read_only_witness : exists (s s' : Sharing PhysicalMemory) n (mp mc : PageMap),
  share_pages 1 2 [0x400000] s = (s', Ok n) /\
  mp !! page_key 0x400000 = Some (0xA000, mkPermissions false true false) /\ mc !! page_key 0x400000 = Some (0xA000, mkPermissions false true false).
Proof.
  destruct demo_sharing as (Tp & Tc & s & Hok & Hm & Hc & Hs).
  destruct (shared_pages_are_read_only 1 2 [0x400000] Tp _ Tc ∅ s ltac:(discriminate) Hok) as (s' & Tc' & mp' & mc' & n & E & _ & Hpages & _).
  - rewrite Hm. intros x Hx. by apply elem_of_nil in Hx.
  - rewrite Hm. intros x Hx. by apply elem_of_nil in Hx.
  - rewrite Hm. exact demo_shareable.
  - apply NoDup_singleton.
  - rewrite Hc. unfold room. rewrite Hs. vm_compute. split; discriminate.
  - exists s, s', n, mp', mc'. split; [exact E|]. destruct (Hpages 0x400000 ltac:(apply list_elem_of_singleton; reflexivity)) as (frame & p & H1 & H2 & H3).
    rewrite lookup_insert_eq in H1. injection H1 as <- <-. split; [exact H2|exact H3].
Defined.
Lemma cow_books_balance_witness : exists (s s' : Sharing PhysicalMemory) n, share_pages 1 2 [0x400000] s = (s', Ok n) /\
  frame_ref_count 0xA000 (sharing_manager s') = count (fun m => cow_frame m = 0xA000) (cow_mappings (sharing_manager s')).
Proof.
  destruct demo_sharing as (Tp & Tc & s & Hok & Hm & Hc & Hs).
  destruct (share_loop_spec 1 2 [0x400000] ltac:(discriminate) 0 Tp _ Tc ∅ s Hok) as (s' & Tc' & mp' & mc' & n & E & _).
  - rewrite Hm. intros x Hx. by apply elem_of_nil in Hx.
  - rewrite Hm. intros x Hx. by apply elem_of_nil in Hx.
  - rewrite Hm. exact demo_shareable.
  - apply NoDup_singleton.
  - rewrite Hc. unfold room. rewrite Hs. vm_compute. split; discriminate.
  - exists s, s', n. split; [exact E|]. destruct (cow_books_balance (B := PhysicalMemory) (sharing_manager s')) as (_ & Hcount & _); [|apply Hcount].
    apply (cow_shared 1 2 [0x400000] s s' (Ok n)); [rewrite Hm; constructor|discriminate|rewrite Hm; vm_compute; reflexivity|exact E].
Defined.

(** Two processes share the frame 0x7000; one of them writes. *)
Definition demo_books : CopyOnWriteManager :=
  mkCowManager [mkCowMapping 1 0x400000 0x7000 user_read_write_no_execute; mkCowMapping 2 0x400000 0x7000 user_read_write_no_execute] [mkFrameRef 0x7000 2].
Definition demo_cow_pages : PhysicalPageAllocator := mkAllocator 10 8 2 [1; 1; 1; 1; 1; 1; 1; 1; 0; 0].
Definition demo_cow_cpu : CpuState := set_pending (Some (mkTrapFrame Trap.EXCEPTION page_fault_vector 0 0 0 0 Ring.RING3
    (Some (make_page_fault_error_code AccessKind.WRITE Ring.RING3 FaultReason.WRITE_PROTECTION))))
  (set_paging (set_page_fault_linear_address 0x400123 make_paging_state) make_cpu_state).
Lemma demo_books_wf : cow_wf demo_books.
Proof.
  split; cbn; try apply NoDup_singleton.
  - apply NoDup_cons. split; [|apply NoDup_singleton]. rewrite list_elem_of_singleton. discriminate.
  - intros frame. unfold frame_ref_count, find_frame_ref, demo_books. cbn [cow_frame_refs cow_mappings List.find ref_frame ref_count].
    rewrite !count_cons. cbn [cow_frame]. destruct (Z.eqb_spec 0x7000 frame) as [<-|Hn]; [reflexivity|]. by rewrite decide_False.
  - intros r Hr. apply list_elem_of_singleton in Hr as ->. reflexivity.
  - intros x Hx. rewrite !elem_of_cons in Hx. destruct Hx as [-> | [-> | Hx]]; [done..|]. by apply elem_of_nil in Hx.
Qed.
Lemma demo_cow_pages_wf : alloc_wf demo_cow_pages.
Proof.
  split; cbn [total_page_count first_allocatable_page allocated_pages demo_cow_pages]; try done; try lia; [set_solver|]. intros i Hi. unfold is_page_index_allocated.
  assert (i = 0 \/ i = 1 \/ i = 2 \/ i = 3 \/ i = 4 \/ i = 5 \/ i = 6 \/ i = 7) as [-> | [-> | [-> | [-> | [-> | [-> | [-> | ->]]]]]]] by lia; reflexivity.
Qed.
Lemma demo_cow_fault : exists T m (f : Faulting PhysicalMemory), cow_fault 2 demo_books (mkCowMapping 2 0x400000 0x7000 user_read_write_no_execute) T m f /\
  allocator_ f = demo_cow_pages /\ cpu_state_ f = demo_cow_cpu /\ room 3 (builder_of (address_space_ f)) (memory_bus_ f).
Proof.
  destruct (make_space_represents (make_memory 0xA000) 0 0x1000 0x7000) as (b1 & _ & Hs1 & Hp1 & _);
    [apply (zero_memory_ok 0xA000); lia|rewrite zero_memory_size by lia; lia|lia|lia|lia|rewrite zero_memory_size by lia; lia|reflexivity..|].
  rewrite zero_memory_size in Hs1 by lia.
  destruct (map_page_total _ _ b1 _ 0x400000 0x7000 (mkPermissions false true false) 3 Hp1) as (sp & b2 & Em & Hroom);
    [unfold u64; lia|unfold u64; lia|lia|reflexivity|reflexivity|lia|unfold room; rewrite Hs1; split; vm_compute; discriminate|].
  destruct (map_page_represents _ _ b1 _ 0x400000 0x7000 (mkPermissions false true false) sp b2 Hp1) as (T & Hp2 & Hst);
    [unfold u64; lia|unfold u64; lia|lia|exact Em|].
  pose proof (st_end _ _ _ _ _ _ Hst) as He. destruct (rep_end _ _ _ _ Hp2) as [Hend0 Hend]. pose proof (st_next _ _ _ _ _ _ Hst) as Hn. cbn in He, Hn.
  assert (Hta : forall ta, is_Some (T !! ta) -> ta < 0x7000).
  { intros ta Hta. apply (st_new _ _ _ _ _ _ Hst) in Hta as [[v Hv]|Hin]; [apply lookup_singleton_Some in Hv as [<- _]; lia|lia]. }
  assert (Hfree : forall i, is_free demo_cow_pages i -> 8 <= i) by (intros i Hi; by apply (is_free_first _ _ demo_cow_pages_wf) in Hi).
  exists T, (<[page_key 0x400000 := (0x7000, mkPermissions false true false)]> ∅), (mkFaulting demo_cow_pages sp b2 demo_cow_cpu). split; [|split; [reflexivity|split; [reflexivity|exact Hroom]]].
  split; cbn [allocator_ address_space_ memory_bus_ cpu_state_].
  - split; cbn [allocator_ address_space_ memory_bus_ cpu_state_]; [exact Hp2|exact demo_cow_pages_wf|rewrite (st_size _ _ _ _ _ _ Hst), Hs1; vm_compute; discriminate| |].
    + intros ta Hq Hf. specialize (Hta ta Hq). specialize (Hfree _ Hf). pose proof (Z.div_mod ta 4096 ltac:(lia)). pose proof (Z.mod_pos_bound ta 4096 ltac:(lia)). lia.
    + intros i Hi Hf. specialize (Hfree _ Hf). lia.
  - exact demo_books_wf.
  - reflexivity.
  - intros x Hx Hp. unfold demo_books in Hx; cbn [cow_mappings] in Hx; rewrite !elem_of_cons in Hx. destruct Hx as [-> | [-> | Hx]]; [done| |by apply elem_of_nil in Hx]. cbn [cow_page cow_frame cow_restored]. by rewrite lookup_insert_eq.
  - assert (Hy : forall y, y ∈ cow_mappings demo_books -> cow_frame y = 0x7000).
    { intros y Hy. unfold demo_books in Hy; cbn [cow_mappings] in Hy; rewrite !elem_of_cons in Hy. destruct Hy as [-> | [-> | Hy]]; [done..|]. by apply elem_of_nil in Hy. }
    split; cbn [allocator_ address_space_ memory_bus_]; intros y Hin; rewrite (Hy y Hin).
    + intros Hf. apply Hfree in Hf. exact (Hf eq_refl).
    + destruct (T !! 0x7000) eqn:E; [|done]. specialize (Hta 0x7000 ltac:(by eexists)). lia.
    + lia.
    + rewrite (st_size _ _ _ _ _ _ Hst), Hs1. lia.
  - eexists. split; reflexivity.
  - reflexivity.
  - split; [split; [discriminate|reflexivity]|reflexivity].
  - reflexivity.
Qed.
Lemma write_fault_gives_private_copy_witness : exists (f : Faulting PhysicalMemory) c' f' frame',
  resolve_write_fault 2 (demo_books, f) = ((c', f'), Ok (if decide (frame' = 0x7000) then Cow.RESTORED else Cow.COPIED)) /\
  seen (translate (cpu_paging (cpu_state_ f')) 0x400123 AccessKind.WRITE Ring.RING3 (memory_bus_ f')).2 = Ok (0x400000, frame', user_read_write_no_execute).
Proof.
  destruct demo_cow_fault as (T & m & f & Hcf & Ha & Hc & Hroom).
  destruct (write_fault_gives_private_copy 2 demo_books _ T m f Ring.RING3 Hcf) as (c' & f' & T' & frame' & E & _ & _ & Hseen).
  - exists 8. rewrite Ha. split; [split; [discriminate|reflexivity]|reflexivity].
  - exact Hroom.
  - rewrite Hc. reflexivity.
  - reflexivity.
  - rewrite Hc. reflexivity.
  - exists f, c', f', frame'. split; [exact E|]. cbn zeta in Hseen. rewrite Hc in Hseen. exact Hseen.
Defined.
