(* ===== verification/UserProgram.v ===== *)
(** * User programs: segments, programs and their arguments

    The descriptions the loaders work on (src/os/proc/user_loader.cpp): [UserSegment], a run of
    pages with permissions whose first bytes are given; [UserProgram], an entry point, a stack size and
    segments that may not overlap; [UserProgramArguments], argument and environment strings without
    null bytes.  A [std::span] or [std::vector] of bytes is a list of [Z]; a string is the list of its
    bytes. *)
From S2P Require Import Prelude Paging Page AddressSpace.

(** ** Segments *)

(* [include/mnos/os/proc/user_loader.hpp] [UserSegment] [23-53] *)
Record UserSegment : Set := mkSegment {
  segment_address : Z; segment_bytes : list Z; segment_memory_size : Z; segment_permissions : PagePermissions }.

(* [src/os/proc/user_loader.cpp] [rounded_segment_size_for_bytes] *)
Definition rounded_segment_size_for_bytes (byte_count : Z) : res Z :=
  if byte_count =? 0 then Ok MM_PAGE_SIZE_BYTES else align_up byte_count.
(* [src/os/proc/user_loader.cpp] [UserSegment::UserSegment] *)
Definition make_segment (virtual_address : Z) (bytes : list Z) (memory_size_bytes : Z) (permissions : PagePermissions) : res UserSegment :=
  throw_when (negb (is_page_aligned virtual_address)) invalid_argument ≫= fun _ =>
  throw_when (memory_size_bytes =? 0) invalid_argument ≫= fun _ =>
  throw_when (negb (is_page_aligned memory_size_bytes)) invalid_argument ≫= fun _ =>
  throw_when (memory_size_bytes <? lenZ bytes) invalid_argument ≫= fun _ =>
  throw_when (negb (p_user_accessible permissions)) invalid_argument ≫= fun _ =>
  throw_when (negb (is_user_range virtual_address memory_size_bytes)) out_of_range ≫= fun _ =>
  Ok (mkSegment virtual_address bytes memory_size_bytes permissions).
(** The clauses of a braced initializer are evaluated from left to right: [bytes] has been moved into
    the constructor's parameter, and is empty, when [bytes.size()] is evaluated. *)
(* [src/os/proc/user_loader.cpp] [UserSegment::text] *)
Definition text (virtual_address : Z) (bytes : list Z) : res UserSegment :=
  let parameter := bytes in
  let bytes := @nil Z in
  rounded_segment_size_for_bytes (lenZ bytes) ≫= fun size =>
  make_segment virtual_address parameter size user_read_only_execute.
(* [src/os/proc/user_loader.cpp] [UserSegment::data] *)
Definition data (virtual_address : Z) (bytes : list Z) : res UserSegment :=
  let parameter := bytes in
  let bytes := @nil Z in
  rounded_segment_size_for_bytes (lenZ bytes) ≫= fun size =>
  make_segment virtual_address parameter size user_read_write_no_execute.
(* [src/os/proc/user_loader.cpp] [UserSegment::bss] *)
Definition bss (virtual_address memory_size_bytes : Z) (permissions : PagePermissions) : res UserSegment :=
  make_segment virtual_address [] memory_size_bytes permissions.
(* [src/os/proc/user_loader.cpp] [UserSegment::end_address] *)
Definition end_address (s : UserSegment) : Z := add64 (segment_address s) (segment_memory_size s).
(* [src/os/proc/user_loader.cpp] [UserSegment::contains] *)
Definition segment_contains (s : UserSegment) (address : Z) : bool := (segment_address s <=? address) && (address <? end_address s).

(** ** Programs *)

(* [include/mnos/os/proc/user_loader.hpp] [UserProgram] [55-75] *)
Record UserProgram : Set := mkProgram { entry_point : Z; initial_stack_size_bytes : Z; segments : list UserSegment }.

(* [src/os/proc/user_loader.cpp] [ranges_overlap] *)
Definition ranges_overlap (left_start left_end right_start right_end : Z) : bool := (left_start <? right_end) && (right_start <? left_end).
(* [src/os/proc/user_loader.cpp] [UserProgram::UserProgram] *)
Definition make_program (entry : Z) : res UserProgram :=
  throw_when (negb (is_user_address entry)) out_of_range ≫= fun _ =>
  Ok (mkProgram entry ADDRESS_LAYOUT_USER_STACK_DEFAULT_SIZE_BYTES []).
(* [src/os/proc/user_loader.cpp] [UserProgram::set_initial_stack_size_bytes] *)
Definition set_initial_stack_size_bytes (stack_size_bytes : Z) : M UserProgram unit :=
  throw_if ((stack_size_bytes =? 0) || negb (is_page_aligned stack_size_bytes)) invalid_argument ≫= fun _ =>
  lift (fun _ => user_stack_bottom stack_size_bytes) ≫= fun _ =>
  modify (fun p => mkProgram (entry_point p) stack_size_bytes (segments p)).
(* [src/os/proc/user_loader.cpp] [UserProgram::ensure_segment_does_not_overlap] *)
Definition ensure_segment_does_not_overlap (segment : UserSegment) (p : UserProgram) : res unit :=
  throw_when (existsb (fun existing_segment =>
    ranges_overlap (segment_address existing_segment) (end_address existing_segment) (segment_address segment) (end_address segment))
    (segments p)) logic_error.
(* [src/os/proc/user_loader.cpp] [UserProgram::add_segment] *)
Definition add_segment (segment : UserSegment) : M UserProgram unit :=
  lift (ensure_segment_does_not_overlap segment) ≫= fun _ =>
  modify (fun p => mkProgram (entry_point p) (initial_stack_size_bytes p) (segments p ++ [segment])).
(* [src/os/proc/user_loader.cpp] [UserProgram::entry_point_is_executable] *)
Definition entry_point_is_executable (p : UserProgram) : bool :=
  existsb (fun segment => p_executable (segment_permissions segment) && segment_contains segment (entry_point p)) (segments p).

(** ** Arguments *)

(* [include/mnos/os/proc/user_loader.hpp] [UserProgramArguments] [77-97] *)
Record UserProgramArguments : Set := mkArguments { arguments : list (list Z); environment : list (list Z) }.
(* [src/os/proc/user_loader.cpp] [UserProgramArguments::validate_entries] *)
Definition validate_entries (entries : list (list Z)) : res unit :=
  throw_when (existsb (existsb (fun byte => byte =? 0)) entries) invalid_argument.
(* [src/os/proc/user_loader.cpp] [UserProgramArguments::UserProgramArguments] *)
Definition make_arguments (arguments environment : list (list Z)) : res UserProgramArguments :=
  validate_entries arguments ≫= fun _ =>
  validate_entries environment ≫= fun _ =>
  Ok (mkArguments arguments environment).
(* [src/os/proc/user_loader.cpp] [UserProgramArguments::argument_count] *)
Definition argument_count (a : UserProgramArguments) : Z := lenZ (arguments a).
(* [src/os/proc/user_loader.cpp] [UserProgramArguments::environment_count] *)
Definition environment_count (a : UserProgramArguments) : Z := lenZ (environment a).
(* [src/os/proc/user_loader.cpp] [UserProgramArguments::empty] *)
Definition arguments_empty (a : UserProgramArguments) : bool := bool_decide (arguments a = []) && bool_decide (environment a = []).

(** ** Well-formed segments and programs *)

Record segment_wf (s : UserSegment) : Prop := {
  seg_start : 4096 <= segment_address s /\ segment_address s `mod` 4096 = 0;
  seg_size : 0 < segment_memory_size s /\ segment_memory_size s `mod` 4096 = 0;
  seg_end : segment_address s + segment_memory_size s <= 0x700000000000;
  seg_bytes : lenZ (segment_bytes s) <= segment_memory_size s;
  seg_user : p_user_accessible (segment_permissions s) = true;
}.
Definition disjoint_segments (s t : UserSegment) : Prop :=
  segment_address s + segment_memory_size s <= segment_address t \/ segment_address t + segment_memory_size t <= segment_address s.
Record program_wf (p : UserProgram) : Prop := {
  pw_entry : is_user_address (entry_point p) = true;
  pw_stack : is_Ok (user_stack_bottom (initial_stack_size_bytes p)) = true;
  pw_segments : Forall segment_wf (segments p);
  pw_disjoint : ForallOrdPairs disjoint_segments (segments p);
}.

Lemma make_segment_spec va bytes size perms : u64 va -> u64 size ->
  match make_segment va bytes size perms with
  | Ok s => s = mkSegment va bytes size perms /\ segment_wf s
  | Throw e => (e = invalid_argument \/ e = out_of_range) /\ ~ segment_wf (mkSegment va bytes size perms)
  end.
Proof.
  intros Ha Hs. pose proof (proj1 (user_and_kernel_ranges va size Ha Hs)) as Hr. unfold make_segment, throw_when. munfold.
  rewrite !is_page_aligned_spec. unfold u64 in *.
  case_bool_decide as Hal; cbn [negb]; [|split; [by left|intros [[]]; cbn in *; lia]].
  destruct (Z.eqb_spec size 0); [split; [by left|intros [? []]; cbn in *; lia]|].
  case_bool_decide as Hsz; cbn [negb]; [|split; [by left|intros [? []]; cbn in *; lia]].
  destruct (Z.ltb_spec size (lenZ bytes)); [split; [by left|intros []; cbn in *; lia]|].
  destruct (p_user_accessible perms) eqn:Hu; cbn [negb]; [|split; [by left|intros []; cbn in *; congruence]].
  destruct (is_user_range va size); cbn [negb].
  - split; [done|]. destruct (proj1 Hr eq_refl) as (? & ? & ?). split; cbn; done || lia.
  - split; [by right|]. intros [[] [] ? ? ?]; cbn in *. assert (false = true) by (apply Hr; lia). done.
Qed.
Lemma segment_end s : segment_wf s -> end_address s = segment_address s + segment_memory_size s.
Proof. intros [[] [] ? ? ?]. unfold end_address. apply add64_small; lia. Qed.
Lemma segment_contains_spec s a : segment_wf s ->
  segment_contains s a = bool_decide (segment_address s <= a < segment_address s + segment_memory_size s).
Proof.
  intros Hs. unfold segment_contains. rewrite (segment_end s Hs). apply eq_true_iff_eq.
  rewrite andb_true_iff, bool_decide_eq_true, Z.leb_le, Z.ltb_lt. lia.
Qed.

Lemma ForallOrdPairs_snoc {A} (R : A -> A -> Prop) l x : ForallOrdPairs R (l ++ [x]) <-> ForallOrdPairs R l /\ Forall (fun y => R y x) l.
Proof.
  induction l as [|y l IH]; cbn.
  - split; [by repeat constructor|]. intros _. by repeat constructor.
  - split.
    + intros H. inversion H as [|? ? Hy Hl]; subst. apply IH in Hl as [Hl Hx]. rewrite Forall_app, Forall_singleton in Hy. destruct Hy.
      split; by constructor.
    + intros [H Hx]. inversion H; subst. apply Forall_cons in Hx as [Hx Hl]. constructor; [by rewrite Forall_app, Forall_singleton|by apply IH].
Qed.
Lemma overlap_spec s p : Forall segment_wf (segments p) -> segment_wf s ->
  ensure_segment_does_not_overlap s p =
    (if decide (Forall (fun t => segment_address t + segment_memory_size t <= segment_address s \/
        segment_address s + segment_memory_size s <= segment_address t) (segments p)) then Ok tt else Throw logic_error).
Proof.
  intros Hp Hs. unfold ensure_segment_does_not_overlap, throw_when, ranges_overlap. rewrite (segment_end s Hs).
  induction Hp as [|t l Ht Hl IH]; [by rewrite decide_True|]. cbn [existsb]. rewrite (segment_end t Ht).
  destruct (Z.ltb_spec (segment_address t) (segment_address s + segment_memory_size s)), (Z.ltb_spec (segment_address s) (segment_address t + segment_memory_size t)); cbn [andb orb].
  - rewrite decide_False; [done|]. intros Hf. apply Forall_cons in Hf as [Hf _]. lia.
  - rewrite IH. apply decide_ext. rewrite Forall_cons. intuition lia.
  - rewrite IH. apply decide_ext. rewrite Forall_cons. intuition lia.
  - rewrite IH. apply decide_ext. rewrite Forall_cons. intuition lia.
Qed.
(** A segment is added exactly when it is apart from those already there. *)
Lemma add_segment_spec s p : program_wf p -> segment_wf s ->
  (add_segment s p = (p, Throw logic_error) /\ exists t, t ∈ segments p /\ ~ disjoint_segments t s) \/
  (add_segment s p = (mkProgram (entry_point p) (initial_stack_size_bytes p) (segments p ++ [s]), Ok tt) /\
   program_wf (mkProgram (entry_point p) (initial_stack_size_bytes p) (segments p ++ [s]))).
Proof.
  intros [E K S D] Hs. unfold add_segment. munfold_goal. rewrite overlap_spec by done. case_decide as Hd.
  - right. split; [done|]. split; cbn [entry_point initial_stack_size_bytes segments]; [done|done| |].
    + by rewrite Forall_app, Forall_singleton.
    + apply ForallOrdPairs_snoc. by split.
  - left. split; [done|]. apply not_Forall_Exists in Hd; [|intros ?; apply _]. apply Exists_exists in Hd as (t & Ht & Hn). by exists t.
Qed.
Lemma make_program_wf e : is_user_address e = true -> program_wf (mkProgram e ADDRESS_LAYOUT_USER_STACK_DEFAULT_SIZE_BYTES []).
Proof. intros He. split; cbn; [done|reflexivity|constructor|constructor]. Qed.
Lemma entry_executable_spec p : program_wf p ->
  entry_point_is_executable p = true <-> exists s, s ∈ segments p /\ p_executable (segment_permissions s) = true /\
    segment_address s <= entry_point p < segment_address s + segment_memory_size s.
Proof.
  intros [_ _ Hs _]. unfold entry_point_is_executable. rewrite existsb_exists. rewrite Forall_forall in Hs.
  split; intros (s & Hin & Hx); exists s.
  - apply list_elem_of_In in Hin. rewrite andb_true_iff, segment_contains_spec, bool_decide_eq_true in Hx by by apply Hs. tauto.
  - split; [by apply list_elem_of_In|]. rewrite andb_true_iff, segment_contains_spec, bool_decide_eq_true by by apply Hs. tauto.
Qed.

(** The stack of a well-formed program is a run of user pages below the top of the user space. *)
Lemma user_stack_bottom_spec size bottom : u64 size -> user_stack_bottom size = Ok bottom ->
  bottom = 0x700000000000 - size /\ 4096 <= bottom /\ 0 < size /\ size `mod` 4096 = 0 /\ bottom `mod` 4096 = 0.
Proof.
  intros [Hs Hs'] E. unfold user_stack_bottom in E. rewrite is_page_aligned_spec in E.
  change (sub64 ADDRESS_LAYOUT_USER_STACK_TOP ADDRESS_LAYOUT_USER_LOW_BASE) with 0x6FFFFFFFF000 in E.
  destruct (Z.eqb_spec size 0); [done|]. case_bool_decide as Hal; cbn [negb orb] in E; [|done].
  destruct (Z.ltb_spec 0x6FFFFFFFF000 size); [done|]. injection E as <-. unfold ADDRESS_LAYOUT_USER_STACK_TOP. rewrite sub64_small by lia.
  split_and!; try lia. rewrite Zminus_mod, Hal. reflexivity.
Qed.

(** [text] and [data] never accept more than one page of bytes, although their size is meant to be
    rounded up to whole pages. *)
Lemma text_is_one_page va bytes : text va bytes = make_segment va bytes 4096 user_read_only_execute /\
  data va bytes = make_segment va bytes 4096 user_read_write_no_execute.
Proof. split; reflexivity. Qed.
Theorem long_text_refused va bytes : is_page_aligned va = true -> 4096 < lenZ bytes ->
  text va bytes = Throw invalid_argument /\ data va bytes = Throw invalid_argument.
Proof.
  intros Ha Hb. rewrite (proj1 (text_is_one_page _ _)), (proj2 (text_is_one_page _ _)). unfold make_segment, throw_when. munfold.
  rewrite Ha. cbn [negb]. change (4096 =? 0) with false. change (is_page_aligned 4096) with true. cbn [negb].
  destruct (Z.ltb_spec 4096 (lenZ bytes)); [done|lia].
Qed.
Lemma long_text_refused_witness : text 0x400000 (replicate 4097 0x90) = Throw invalid_argument.
Proof. apply (long_text_refused 0x400000 (replicate 4097 0x90)); [reflexivity|reflexivity]. Defined.
