(* ===== verification/Elf.v ===== *)
(** * ELF executables

    The 64-bit ELF loader (src/os/proc/elf_loader.cpp): reading and checking the file header and the
    program headers, making a segment of each loadable header, and finding the bytes the entry point
    executes.  [file_bytes[i]] is not checked by a [std::span]: what a read outside gives is a parameter
    of the model, and [loading_reads_only_the_file] shows that it never matters. *)
From S2P Require Import Prelude Instruction Paging Page AddressSpace UserProgram.

(* [src/os/proc/elf_loader.cpp] [Elf64Header] *)
Record Elf64Header : Set := mkElfHeader {
  elf_entry_point : Z; program_header_offset : Z; program_header_entry_size : Z; program_header_count : Z }.
(* [src/os/proc/elf_loader.cpp] [Elf64ProgramHeader] *)
Record Elf64ProgramHeader : Set := mkProgramHeader {
  ph_type : Z; ph_flags : Z; ph_offset : Z; ph_virtual_address : Z; ph_file_size : Z; ph_memory_size : Z; ph_alignment : Z }.
(* [src/os/proc/elf_loader.cpp] [Elf64LoadSegment] *)
Record Elf64LoadSegment : Set := mkLoadSegment { load_segment : UserSegment; load_executable : bool }.
(* [include/mnos/os/proc/elf_loader.hpp] [LoadedUserExecutable] *)
Record LoadedUserExecutable : Set := mkLoaded { loaded_program : UserProgram; loaded_image : ExecutableImage }.

(** ** Checked arithmetic and ranges *)

(* [src/os/proc/elf_loader.cpp] [is_power_of_two] *)
Definition is_power_of_two (value : Z) : bool := negb (value =? 0) && (Z.land value (sub64 value 1) =? 0).
(* [src/os/proc/elf_loader.cpp] [checked_add_u64] *)
Definition checked_add_u64 (left right : Z) : res Z :=
  throw_when ((W64 - 1) - right <? left) overflow_error ≫= fun _ => Ok (add64 left right).
(* [src/os/proc/elf_loader.cpp] [checked_multiply_u64] *)
Definition checked_multiply_u64 (left right : Z) : res Z :=
  throw_when (negb (left =? 0) && ((W64 - 1) / left <? right)) overflow_error ≫= fun _ => Ok (mul64 left right).
(* [src/os/proc/elf_loader.cpp] [require_file_range] *)
Definition require_file_range (file_bytes : list Z) (offset byte_count : Z) : res unit :=
  let file_size := lenZ file_bytes in
  throw_when ((file_size <? offset) || (sub64 file_size offset <? byte_count)) invalid_argument.
(* [src/os/proc/elf_loader.cpp] [file_subspan] *)
Definition file_subspan (file_bytes : list Z) (offset byte_count : Z) : res (list Z) :=
  require_file_range file_bytes offset byte_count ≫= fun _ => Ok (slice offset byte_count file_bytes).

(** ** Reading *)

Section reading.
Context (outside : list Z -> Z -> Z).

(** [bytes[index]] *)
Definition span_at (bytes : list Z) (index : Z) : Z := if index <? lenZ bytes then nthZ bytes index else outside bytes index.
(* [src/os/proc/elf_loader.cpp] [read_u16_le] *)
Definition read_u16_le (bytes : list Z) (offset : Z) : Z :=
  Z.lor (span_at bytes offset) (Z.shiftl (span_at bytes (add64 offset 1)) 8) `mod` 65536.
(* [src/os/proc/elf_loader.cpp] [read_u32_le] *)
Definition read_u32_le (bytes : list Z) (offset : Z) : Z :=
  foldl (fun value byte_index => Z.lor value (Z.shiftl (span_at bytes (add64 offset byte_index)) (byte_index * 8))) 0 (seqZ 0 4).
(* [src/os/proc/elf_loader.cpp] [read_u64_le] *)
Definition read_u64_le (bytes : list Z) (offset : Z) : Z :=
  foldl (fun value byte_index => Z.lor value (Z.shiftl (span_at bytes (add64 offset byte_index)) (byte_index * 8))) 0 (seqZ 0 8).

(* [src/os/proc/elf_loader.cpp] [validate_elf_ident] *)
Definition validate_elf_ident (file_bytes : list Z) : res unit :=
  throw_when (lenZ file_bytes <? 64) invalid_argument ≫= fun _ =>
  throw_when (negb (span_at file_bytes 0 =? 0x7F) || negb (span_at file_bytes 1 =? 0x45) ||
    negb (span_at file_bytes 2 =? 0x4C) || negb (span_at file_bytes 3 =? 0x46)) invalid_argument ≫= fun _ =>
  throw_when (negb (span_at file_bytes 4 =? 2)) invalid_argument ≫= fun _ =>
  throw_when (negb (span_at file_bytes 5 =? 1)) invalid_argument ≫= fun _ =>
  throw_when (negb (span_at file_bytes 6 =? 1)) invalid_argument.
(* [src/os/proc/elf_loader.cpp] [read_elf_header] *)
Definition read_elf_header (file_bytes : list Z) : res Elf64Header :=
  validate_elf_ident file_bytes ≫= fun _ =>
  throw_when (negb (read_u16_le file_bytes 16 =? 2)) invalid_argument ≫= fun _ =>
  throw_when (negb (read_u16_le file_bytes 18 =? 0x3E)) invalid_argument ≫= fun _ =>
  throw_when (negb (read_u32_le file_bytes 20 =? 1)) invalid_argument ≫= fun _ =>
  throw_when (negb (read_u16_le file_bytes 52 =? 64)) invalid_argument ≫= fun _ =>
  throw_when (negb (read_u16_le file_bytes 54 =? 56)) invalid_argument ≫= fun _ =>
  let header := mkElfHeader (read_u64_le file_bytes 24) (read_u64_le file_bytes 32) (read_u16_le file_bytes 54) (read_u16_le file_bytes 56) in
  throw_when (program_header_count header =? 0) invalid_argument ≫= fun _ =>
  checked_multiply_u64 (program_header_entry_size header) (program_header_count header) ≫= fun program_header_table_bytes =>
  require_file_range file_bytes (program_header_offset header) program_header_table_bytes ≫= fun _ =>
  Ok header.
(* [src/os/proc/elf_loader.cpp] [read_program_header] *)
Definition read_program_header (bytes : list Z) : Elf64ProgramHeader :=
  mkProgramHeader (read_u32_le bytes 0) (read_u32_le bytes 4) (read_u64_le bytes 8) (read_u64_le bytes 16)
    (read_u64_le bytes 32) (read_u64_le bytes 40) (read_u64_le bytes 48).

(** ** Segments *)

(* [src/os/proc/elf_loader.cpp] [program_header_is_executable] *)
Definition program_header_is_executable (header : Elf64ProgramHeader) : bool := negb (Z.land (ph_flags header) (Z.shiftl 1 0) =? 0).
(* [src/os/proc/elf_loader.cpp] [program_header_is_writable] *)
Definition program_header_is_writable (header : Elf64ProgramHeader) : bool := negb (Z.land (ph_flags header) (Z.shiftl 1 1) =? 0).
(* [src/os/proc/elf_loader.cpp] [permissions_from_program_header] *)
Definition permissions_from_program_header (header : Elf64ProgramHeader) : res PagePermissions :=
  throw_when (program_header_is_writable header && program_header_is_executable header) invalid_argument ≫= fun _ =>
  if program_header_is_writable header then Ok user_read_write_no_execute
  else if program_header_is_executable header then Ok user_read_only_execute
  else Ok (mkPermissions false true false).
(* [src/os/proc/elf_loader.cpp] [validate_load_program_header] *)
Definition validate_load_program_header (file_bytes : list Z) (header : Elf64ProgramHeader) : res unit :=
  throw_when (ph_memory_size header =? 0) invalid_argument ≫= fun _ =>
  throw_when (ph_memory_size header <? ph_file_size header) invalid_argument ≫= fun _ =>
  throw_when (negb (ph_alignment header =? 0) && negb (is_power_of_two (ph_alignment header))) invalid_argument ≫= fun _ =>
  throw_when (negb (is_page_aligned (ph_virtual_address header))) invalid_argument ≫= fun _ =>
  require_file_range file_bytes (ph_offset header) (ph_file_size header) ≫= fun _ =>
  align_up (ph_memory_size header) ≫= fun mapped_size =>
  throw_when (negb (is_user_range (ph_virtual_address header) mapped_size)) out_of_range ≫= fun _ =>
  permissions_from_program_header header ≫= fun _ => Ok tt.
(* [src/os/proc/elf_loader.cpp] [make_load_segment] *)
Definition make_load_segment (file_bytes : list Z) (header : Elf64ProgramHeader) : res Elf64LoadSegment :=
  validate_load_program_header file_bytes header ≫= fun _ =>
  file_subspan file_bytes (ph_offset header) (ph_file_size header) ≫= fun segment_bytes =>
  align_up (ph_memory_size header) ≫= fun memory_size =>
  permissions_from_program_header header ≫= fun permissions =>
  make_segment (ph_virtual_address header) segment_bytes memory_size permissions ≫= fun segment =>
  Ok (mkLoadSegment segment (program_header_is_executable header)).
(* [src/os/proc/elf_loader.cpp] [executable_image_for_entry] *)
Definition executable_image_for_entry (load : Elf64LoadSegment) (entry_point : Z) : res (option ExecutableImage) :=
  let segment := load_segment load in
  if negb (load_executable load) || negb (segment_contains segment entry_point) then Ok None
  else
    let entry_offset := sub64 entry_point (segment_address segment) in
    throw_when (lenZ (segment_bytes segment) <=? entry_offset) invalid_argument ≫= fun _ =>
    Ok (Some (mkImage (segment_bytes segment) (segment_address segment))).

(** ** Loading *)

(** The local variables of the loop. *)
Record Loading : Set := mkLoading { program : UserProgram; executable_image : option ExecutableImage; load_segment_count : Z }.
(* [src/os/proc/elf_loader.cpp] [Elf64Loader::load] [421-434] *)
Definition add_program_header (file_bytes : list Z) (entry_point : Z) (program_header : Elf64ProgramHeader) (l : Loading) : res Loading :=
  if negb (ph_type program_header =? 1) then Ok l
  else
    make_load_segment file_bytes program_header ≫= fun segment =>
    executable_image_for_entry segment entry_point ≫= fun entry_image =>
    let '(program', added) := add_segment (load_segment segment) (program l) in
    added ≫= fun _ =>
    Ok (mkLoading program'
      (match entry_image with Some i => Some i | None => executable_image l end) (load_segment_count l + 1)).
(* [src/os/proc/elf_loader.cpp] [Elf64Loader::load] [404-420] *)
Definition load_program_header (file_bytes : list Z) (header : Elf64Header) (program_header_index : Z) (l : Loading) : res Loading :=
  checked_multiply_u64 program_header_index (program_header_entry_size header) ≫= fun table_offset =>
  checked_add_u64 (program_header_offset header) table_offset ≫= fun program_header_offset =>
  file_subspan file_bytes program_header_offset 56 ≫= fun program_header_bytes =>
  add_program_header file_bytes (elf_entry_point header) (read_program_header program_header_bytes) l.
Fixpoint load_program_headers (file_bytes : list Z) (header : Elf64Header) (indices : list Z) (l : Loading) : res Loading :=
  match indices with
  | [] => Ok l
  | index :: rest => load_program_header file_bytes header index l ≫= load_program_headers file_bytes header rest
  end.
(* [src/os/proc/elf_loader.cpp] [Elf64Loader::load] *)
Definition load (file_bytes : list Z) : res LoadedUserExecutable :=
  read_elf_header file_bytes ≫= fun header =>
  make_program (elf_entry_point header) ≫= fun program0 =>
  load_program_headers file_bytes header (seqZ 0 (program_header_count header)) (mkLoading program0 None 0) ≫= fun l =>
  throw_when (load_segment_count l =? 0) invalid_argument ≫= fun _ =>
  match executable_image l with
  | Some image => if entry_point_is_executable (program l) then Ok (mkLoaded (program l) image) else Throw invalid_argument
  | None => Throw invalid_argument
  end.
End reading.

(** ** Reading is within the file *)

Definition bytes_ok (l : list Z) : Prop := Forall (fun b => 0 <= b < 256) l /\ lenZ l < W64.

Lemma bytes_ok_nth l i : bytes_ok l -> 0 <= nthZ l i < 256.
Proof.
  intros [Hl _]. unfold nthZ. rewrite nth_lookup. destruct (l !! Z.to_nat i) as [b|] eqn:E; cbn; [|lia].
  by apply (Forall_lookup_1 _ _ _ _ Hl E).
Qed.
Lemma bytes_ok_slice off n l : bytes_ok l -> bytes_ok (slice off n l).
Proof.
  intros [Hl Hn]. split; [unfold slice; by apply Forall_take, Forall_drop|]. unfold slice, lenZ in *. rewrite length_take, length_drop. lia.
Qed.
(** The loop that puts [n] bytes together. *)
Lemma span_read out (n : nat) l off : bytes_ok l -> 0 <= off -> off + Z.of_nat n <= lenZ l ->
  foldl (fun value k => Z.lor value (Z.shiftl (span_at out l (add64 off k)) (k * 8))) 0 (seqZ 0 (Z.of_nat n)) = read_le (Z.of_nat n) l off.
Proof.
  intros Hl Ho Hn. unfold read_le. induction n as [|n IH]; [done|]. rewrite seqZ_S, !foldl_snoc, IH by lia. do 2 f_equal. cbn [Z.add].
  rewrite add64_small by (destruct Hl; lia). unfold span_at. rewrite (proj2 (Z.ltb_lt _ _)) by lia.
  by rewrite byte_at_index_small by by apply bytes_ok_nth.
Qed.
Lemma read_u64_spec out l off : bytes_ok l -> 0 <= off -> off + 8 <= lenZ l -> read_u64_le out l off = read_le 8 l off.
Proof. apply (span_read out 8). Qed.
Lemma read_u32_spec out l off : bytes_ok l -> 0 <= off -> off + 4 <= lenZ l -> read_u32_le out l off = read_le 4 l off.
Proof. apply (span_read out 4). Qed.
Lemma read_u16_spec out l off : bytes_ok l -> 0 <= off -> off + 2 <= lenZ l -> read_u16_le out l off = read_le 2 l off.
Proof.
  intros Hl Ho Hn. rewrite <- (Z.mod_small (read_le 2 l off) 65536) by (apply (read_le_range 2); lia). unfold read_u16_le. f_equal.
  pose proof (span_read out 2 l off Hl Ho Hn) as H2. change (Z.of_nat 2) with 2 in H2. rewrite <- H2.
  change (seqZ 0 2) with [0; 1]. cbn [foldl]. rewrite (add64_small off 0) by (destruct Hl; lia).
  by rewrite Z.add_0_r, Z.shiftl_0_r, Z.lor_0_l.
Qed.
Lemma span_at_spec out l i : 0 <= i < lenZ l -> span_at out l i = nthZ l i.
Proof. intros Hi. unfold span_at. by rewrite (proj2 (Z.ltb_lt _ _)) by lia. Qed.

(** ** What a file says *)

Definition header_at (l : list Z) : Elf64ProgramHeader :=
  mkProgramHeader (read_le 4 l 0) (read_le 4 l 4) (read_le 8 l 8) (read_le 8 l 16) (read_le 8 l 32) (read_le 8 l 40) (read_le 8 l 48).
Definition file_header (file : list Z) : Elf64Header :=
  mkElfHeader (read_le 8 file 24) (read_le 8 file 32) (read_le 2 file 54) (read_le 2 file 56).
(** The identification and the fixed fields are those of an x86-64 executable, and the table of
    program headers is in the file. *)
Record file_valid (file : list Z) : Prop := {
  fv_size : 64 <= lenZ file;
  fv_ident : take 7 file = [0x7F; 0x45; 0x4C; 0x46; 2; 1; 1];
  fv_type : read_le 2 file 16 = 2 /\ read_le 2 file 18 = 0x3E /\ read_le 4 file 20 = 1;
  fv_sizes : read_le 2 file 52 = 64 /\ read_le 2 file 54 = 56;
  fv_count : 0 < read_le 2 file 56;
  fv_table : read_le 8 file 32 + 56 * read_le 2 file 56 <= lenZ file;
}.
Definition program_headers (file : list Z) : list Elf64ProgramHeader :=
  (fun i => header_at (slice (read_le 8 file 32 + 56 * i) 56 file)) <$> seqZ 0 (read_le 2 file 56).

Lemma nthZ_take (l : list Z) n i : 0 <= i < Z.of_nat n -> nthZ (take n l) i = nthZ l i.
Proof. intros Hi. unfold nthZ. rewrite !nth_lookup. by rewrite lookup_take_lt by lia. Qed.
Lemma ident_spec l : 64 <= lenZ l -> take 7 l = [0x7F; 0x45; 0x4C; 0x46; 2; 1; 1] <->
  nthZ l 0 = 0x7F /\ nthZ l 1 = 0x45 /\ nthZ l 2 = 0x4C /\ nthZ l 3 = 0x46 /\ nthZ l 4 = 2 /\ nthZ l 5 = 1 /\ nthZ l 6 = 1.
Proof.
  intros Hl. split.
  - intros H. rewrite <- (nthZ_take l 7 0), <- (nthZ_take l 7 1), <- (nthZ_take l 7 2), <- (nthZ_take l 7 3), <- (nthZ_take l 7 4),
      <- (nthZ_take l 7 5), <- (nthZ_take l 7 6), H by lia. done.
  - destruct l as [|a [|b [|c [|d [|e [|f [|g l]]]]]]]; try (exfalso; unfold lenZ in Hl; cbn [length] in Hl; lia). intros H. change (a = 0x7F /\ b = 0x45 /\ c = 0x4C /\ d = 0x46 /\ e = 2 /\ f = 1 /\ g = 1) in H. cbn [take]. conjuncts. by subst.
Qed.
Lemma not_equal_test a b : negb (a =? b) = true <-> a <> b.
Proof. rewrite negb_true_iff. apply Z.eqb_neq. Qed.
Lemma require_range_spec l off n : u64 off -> u64 n -> lenZ l < W64 ->
  require_file_range l off n = if decide (off + n <= lenZ l) then Ok tt else Throw invalid_argument.
Proof.
  intros Ho Hn Hl. unfold require_file_range, throw_when, u64 in *. destruct (Z.ltb_spec (lenZ l) off); cbn [orb]; [by rewrite decide_False by lia|].
  rewrite sub64_small by lia. destruct (Z.ltb_spec (lenZ l - off) n); [by rewrite decide_False by lia|by rewrite decide_True by lia].
Qed.
Ltac refused := right; split; [intros [_ Hident Htype Hsizes Hcount Htable]; rewrite ?not_equal_test in *; intuition lia|done].
Lemma read_header_spec out file : bytes_ok file ->
  (file_valid file /\ read_elf_header out file = Ok (file_header file)) \/
  (~ file_valid file /\ read_elf_header out file = Throw invalid_argument).
Proof.
  intros Hf. unfold read_elf_header, validate_elf_ident, throw_when. munfold.
  destruct (Z.ltb_spec (lenZ file) 64) as [Hs|Hs]; [right; split; [intros []; lia|done]|].
  rewrite !span_at_spec, !read_u16_spec, !read_u32_spec, !read_u64_spec by done || lia. pose proof (ident_spec file Hs) as Hi.
  destruct (negb (nthZ file 0 =? 0x7F) || _ || _ || _) eqn:E0.
  { right. split; [|done]. intros Hv. rewrite !orb_true_iff, !not_equal_test in E0. pose proof (proj1 Hi (fv_ident _ Hv)). intuition lia. }
  destruct (negb (nthZ file 4 =? 2)) eqn:E4; [refused|]. destruct (negb (nthZ file 5 =? 1)) eqn:E5; [refused|].
  destruct (negb (nthZ file 6 =? 1)) eqn:E6; [refused|]. destruct (negb (read_le 2 file 16 =? 2)) eqn:E16; [refused|].
  destruct (negb (read_le 2 file 18 =? 0x3E)) eqn:E18; [refused|]. destruct (negb (read_le 4 file 20 =? 1)) eqn:E20; [refused|].
  destruct (negb (read_le 2 file 52 =? 64)) eqn:E52; [refused|]. destruct (negb (read_le 2 file 54 =? 56)) eqn:E54; [refused|].
  cbn [program_header_count program_header_entry_size program_header_offset]. zb.
  destruct (Z.eqb_spec (read_le 2 file 56) 0) as [E56|E56]; [right; split; [intros [? _ _ _ ?]; lia|done]|].
  pose proof (read_le_range 2 file 56 ltac:(lia)) as Hc. pose proof (read_le_range 8 file 32 ltac:(lia)) as Ho. cbn [Z.mul Pos.mul] in Hc.
  unfold checked_multiply_u64, throw_when, mul64. munfold_goal. rewrite E54. change ((W64 - 1) / 56) with 329406144173384850.
  rewrite (proj2 (Z.ltb_ge _ _)) by lia. rewrite andb_false_r. rewrite wrap64_small by (unfold u64; lia).
  rewrite require_range_spec by (unfold u64; destruct Hf; lia). case_decide as Ht.
  - left. split; [|unfold file_header; by rewrite E54]. split; [done| |done|done|lia|done]. apply Hi.
    repeat match goal with H : negb _ || _ = false |- _ => apply orb_false_iff in H as [H ?] end. zb. tauto.
  - right. split; [intros [_ _ _ _ _ Htab]; lia|done].
Qed.

(** ** The segment of a program header *)

Definition header_typed (h : Elf64ProgramHeader) : Prop :=
  0 <= ph_flags h < 2 ^ 32 /\ u64 (ph_offset h) /\ u64 (ph_virtual_address h) /\ u64 (ph_file_size h) /\ u64 (ph_memory_size h) /\ u64 (ph_alignment h).
Definition is_load (h : Elf64ProgramHeader) : Prop := ph_type h = 1.
#[export] Instance is_load_dec h : Decision (is_load h) := Z.eq_dec _ _.
Definition rounded_size (h : Elf64ProgramHeader) : Z := (ph_memory_size h + 4095) / 4096 * 4096.
Definition header_permissions (h : Elf64ProgramHeader) : PagePermissions :=
  mkPermissions (Z.testbit (ph_flags h) 1) true (Z.testbit (ph_flags h) 0).
Definition segment_of (file : list Z) (h : Elf64ProgramHeader) : UserSegment :=
  mkSegment (ph_virtual_address h) (slice (ph_offset h) (ph_file_size h) file) (rounded_size h) (header_permissions h).
Record header_valid (file : list Z) (h : Elf64ProgramHeader) : Prop := {
  hv_memory : 0 < ph_memory_size h /\ ph_file_size h <= ph_memory_size h;
  hv_alignment : ph_alignment h = 0 \/ is_power_of_two (ph_alignment h) = true;
  hv_address : ph_virtual_address h `mod` 4096 = 0;
  hv_file : ph_offset h + ph_file_size h <= lenZ file;
  hv_range : 4096 <= ph_virtual_address h /\ ph_virtual_address h + rounded_size h <= 0x700000000000;
  hv_exclusive : ~ (Z.testbit (ph_flags h) 1 = true /\ Z.testbit (ph_flags h) 0 = true);
}.

Lemma header_at_typed l : header_typed (header_at l).
Proof.
  unfold header_typed, header_at, u64. cbn [ph_flags ph_offset ph_virtual_address ph_file_size ph_memory_size ph_alignment].
  pose proof (read_le_range 4 l 4 ltac:(lia)). pose proof (fun o => read_le_range 8 l o ltac:(lia)) as H8. cbn [Z.mul Pos.mul] in *. rewrite !W64_pow.
  split_and!; apply H8 || lia.
Qed.
Lemma permissions_spec h :
  permissions_from_program_header h =
    (if Z.testbit (ph_flags h) 1 && Z.testbit (ph_flags h) 0 then Throw invalid_argument else Ok (header_permissions h)).
Proof.
  unfold permissions_from_program_header, program_header_is_writable, program_header_is_executable, header_permissions, throw_when.
  rewrite !land_single_nonzero by lia. munfold_goal. by destruct (Z.testbit _ 1), (Z.testbit _ 0).
Qed.
Lemma rounded_spec h : 0 <= ph_memory_size h ->
  ph_memory_size h <= rounded_size h < ph_memory_size h + 4096 /\ rounded_size h `mod` 4096 = 0.
Proof.
  intros Hm. unfold rounded_size. pose proof (Z.div_mod (ph_memory_size h + 4095) 4096 ltac:(lia)). pose proof (Z.mod_pos_bound (ph_memory_size h + 4095) 4096 ltac:(lia)).
  split; [lia|]. apply Z.mod_mul. lia.
Qed.
Lemma align_up_rounded h : u64 (ph_memory_size h) ->
  (align_up (ph_memory_size h) = Ok (rounded_size h) /\ u64 (rounded_size h)) \/
  (align_up (ph_memory_size h) = Throw overflow_error /\ W64 <= rounded_size h).
Proof.
  intros Hm. destruct (page_rounding_exact _ Hm) as [Hr _]. destruct (rounded_spec h) as [Hs Ha]; [destruct Hm; lia|].
  destruct (align_up (ph_memory_size h)) as [w|e] eqn:E.
  - left. destruct Hr as (Hw & Hw' & Hb). assert (w = rounded_size h) as ->; [|done].
    pose proof (Z.div_mod w 4096 ltac:(lia)). pose proof (Z.div_mod (rounded_size h) 4096 ltac:(lia)). lia.
  - right. destruct Hr as (-> & Hne & Hbig). split; [done|].
    pose proof (Z.div_mod (ph_memory_size h) 4096 ltac:(lia)). pose proof (Z.div_mod (rounded_size h) 4096 ltac:(lia)).
    pose proof (Z.mod_pos_bound (ph_memory_size h) 4096 ltac:(lia)). lia.
Qed.
Lemma segment_of_wf file h : header_typed h -> header_valid file h -> segment_wf (segment_of file h).
Proof.
  intros (_ & Ho & Ha & Hf & Hm & _) [[H0 H1] _ H2 H3 H4 _]. unfold u64 in *. destruct (rounded_spec h ltac:(lia)).
  split; cbn [segment_of segment_address segment_memory_size segment_bytes segment_permissions header_permissions p_user_accessible]; [lia|lia|lia| |done].
  rewrite slice_length by lia. lia.
Qed.
Lemma make_load_segment_spec file h : header_typed h -> lenZ file < W64 ->
  match make_load_segment file h with
  | Ok ls => ls = mkLoadSegment (segment_of file h) (Z.testbit (ph_flags h) 0) /\ header_valid file h
  | Throw _ => ~ header_valid file h
  end.
Proof.
  intros Ht Hl. pose proof Ht as (Hfl & Ho & Ha & Hf & Hm & Hal). unfold make_load_segment, validate_load_program_header, file_subspan, throw_when. munfold.
  destruct (Z.eqb_spec (ph_memory_size h) 0); [intros []; lia|].
  destruct (Z.ltb_spec (ph_memory_size h) (ph_file_size h)); [intros []; lia|].
  destruct (negb (ph_alignment h =? 0) && negb (is_power_of_two (ph_alignment h))) eqn:Ea.
  { intros [_ Hv _ _ _ _]. apply andb_true_iff in Ea as [Ea Ep]. zb. destruct Hv; congruence. }
  rewrite is_page_aligned_spec. case_bool_decide as Hpa; cbn [negb]; [|intros []; lia].
  rewrite require_range_spec by done. case_decide as Hr; [|intros []; lia].
  destruct (align_up_rounded h Hm) as [[-> Hu]|[-> Hbig]]; [|intros []; unfold u64 in *; lia].
  pose proof (proj1 (user_and_kernel_ranges _ _ Ha Hu)) as Hur. destruct (rounded_spec h) as [Hrs Hrm]; [unfold u64 in *; lia|].
  destruct (is_user_range _ _) eqn:Eu; cbn [negb].
  2:{ intros [_ _ _ _ Hrng _]. assert (false = true) by (apply Hur; unfold u64 in *; lia). done. }
  apply proj1 in Hur. specialize (Hur eq_refl). rewrite permissions_spec.
  destruct (Z.testbit (ph_flags h) 1 && Z.testbit (ph_flags h) 0) eqn:Ex; [intros [_ _ _ _ _ Hx]; apply andb_true_iff in Ex; tauto|].
  assert (Hv : header_valid file h).
  { split; [unfold u64 in *; lia| |done|done|lia|].
    - destruct (Z.eqb_spec (ph_alignment h) 0); [by left|right]. by destruct (is_power_of_two _).
    - intros [H1 H2]. by rewrite H1, H2 in Ex. }
  pose proof (make_segment_spec (ph_virtual_address h) (slice (ph_offset h) (ph_file_size h) file) (rounded_size h) (header_permissions h) Ha Hu) as Hms.
  destruct (make_segment _ _ _ _) as [s|e].
  - destruct Hms as [-> _]. split; [|done]. unfold program_header_is_executable. by rewrite land_single_nonzero by lia.
  - destruct Hms as [_ Hms]. destruct Hms. by apply segment_of_wf.
Qed.

(** ** Loading the segments *)

Definition enters (entry : Z) (h : Elf64ProgramHeader) : Prop :=
  Z.testbit (ph_flags h) 0 = true /\ ph_virtual_address h <= entry < ph_virtual_address h + rounded_size h.
#[export] Instance enters_dec entry h : Decision (enters entry h).
Proof. unfold enters. apply _. Defined.
(** When the entry point lies in the segment, the file holds the byte there. *)
Definition backed (entry : Z) (h : Elf64ProgramHeader) : Prop := enters entry h -> entry < ph_virtual_address h + ph_file_size h.
Definition image_of (file : list Z) (h : Elf64ProgramHeader) : ExecutableImage :=
  mkImage (slice (ph_offset h) (ph_file_size h) file) (ph_virtual_address h).
Fixpoint add_headers (file : list Z) (entry : Z) (hs : list Elf64ProgramHeader) (l : Loading) : res Loading :=
  match hs with
  | [] => Ok l
  | h :: rest => add_program_header file entry h l ≫= add_headers file entry rest
  end.

Lemma load_header_reads out file i l : bytes_ok file -> file_valid file -> 0 <= i < read_le 2 file 56 ->
  load_program_header out file (file_header file) i l =
  add_program_header file (read_le 8 file 24) (header_at (slice (read_le 8 file 32 + 56 * i) 56 file)) l.
Proof.
  intros Hf [_ _ _ [_ Hs] _ Ht] Hi. pose proof (read_le_range 2 file 56 ltac:(lia)) as Hc. pose proof (read_le_range 8 file 32 ltac:(lia)) as Ho. cbn [Z.mul Pos.mul] in Hc.
  assert (Hl : lenZ file < W64) by apply Hf. unfold load_program_header, file_header, file_subspan, checked_multiply_u64, checked_add_u64, throw_when, mul64.
  cbn [program_header_entry_size program_header_offset elf_entry_point]. munfold_goal. rewrite Hs.
  assert (Hm : negb (i =? 0) && ((W64 - 1) / i <? 56) = false).
  { destruct (Z.eqb_spec i 0); [done|]. cbn [negb andb]. apply Z.ltb_ge. apply Z.div_le_lower_bound; lia. }
  rewrite Hm, (wrap64_small (i * 56)), (proj2 (Z.ltb_ge _ _)) by (unfold u64; lia). rewrite add64_small by lia.
  rewrite require_range_spec, decide_True by (unfold u64; lia). replace (i * 56) with (56 * i) by lia.
  f_equal. unfold read_program_header, header_at.
  assert (Hlen : lenZ (slice (read_le 8 file 32 + 56 * i) 56 file) = 56) by (apply slice_length; lia).
  by rewrite !read_u64_spec, !read_u32_spec by (by apply bytes_ok_slice) || lia.
Qed.
Lemma load_headers_read out file l : bytes_ok file -> file_valid file ->
  load_program_headers out file (file_header file) (seqZ 0 (read_le 2 file 56)) l = add_headers file (read_le 8 file 24) (program_headers file) l.
Proof.
  intros Hf Hv. unfold program_headers.
  assert (H : forall idx l, (forall i, i ∈ idx -> 0 <= i < read_le 2 file 56) -> load_program_headers out file (file_header file) idx l =
    add_headers file (read_le 8 file 24) ((fun i => header_at (slice (read_le 8 file 32 + 56 * i) 56 file)) <$> idx) l).
  { clear l. induction idx as [|i idx IH]; intros l Hi; [done|]. cbn [load_program_headers add_headers fmap list_fmap].
    rewrite load_header_reads by (done || apply Hi; by left). munfold_goal. destruct (add_program_header _ _ _ _); [|done].
    apply IH. intros j Hj. apply Hi. by right. }
  apply H. intros i Hi. apply elem_of_seqZ in Hi. lia.
Qed.
(** The whole loader, as a function of what the file says. *)
Lemma load_reads out file : bytes_ok file ->
  (file_valid file /\ load out file =
    (make_program (read_le 8 file 24) ≫= fun program0 =>
     add_headers file (read_le 8 file 24) (program_headers file) (mkLoading program0 None 0) ≫= fun l =>
     throw_when (load_segment_count l =? 0) invalid_argument ≫= fun _ =>
     match executable_image l with
     | Some image => if entry_point_is_executable (program l) then Ok (mkLoaded (program l) image) else Throw invalid_argument
     | None => Throw invalid_argument
     end)) \/
  (~ file_valid file /\ load out file = Throw invalid_argument).
Proof.
  intros Hf. unfold load. destruct (read_header_spec out file Hf) as [[Hv ->] | [Hv ->]]; [left|by right]. split; [done|]. munfold_goal.
  cbn [file_header elf_entry_point program_header_count]. destruct (make_program _); [|done]. by rewrite load_headers_read.
Qed.

Lemma entry_image_spec file h entry : header_typed h -> header_valid file h -> u64 entry ->
  executable_image_for_entry (mkLoadSegment (segment_of file h) (Z.testbit (ph_flags h) 0)) entry =
  if decide (enters entry h) then if decide (entry < ph_virtual_address h + ph_file_size h) then Ok (Some (image_of file h)) else Throw invalid_argument
  else Ok None.
Proof.
  intros Ht Hv He. unfold executable_image_for_entry, throw_when. cbn [load_executable load_segment]. rewrite segment_contains_spec by by apply segment_of_wf.
  cbn [segment_of segment_address segment_memory_size segment_bytes]. pose proof Ht as (_ & Ho & Ha & Hf & _). pose proof (hv_file _ _ Hv). unfold u64 in *.
  destruct (decide (enters entry h)) as [[Hx Hin]|Hn].
  - rewrite Hx, bool_decide_true by done. cbn [negb orb]. rewrite sub64_small, slice_length by lia. munfold_goal.
    destruct (Z.leb_spec (ph_file_size h) (entry - ph_virtual_address h)); [by rewrite decide_False by lia|by rewrite decide_True by lia].
  - assert (Ht' : negb (Z.testbit (ph_flags h) 0) || negb (bool_decide (ph_virtual_address h <= entry < ph_virtual_address h + rounded_size h)) = true); [|by rewrite Ht'].
    apply orb_true_iff. destruct (Z.testbit (ph_flags h) 0) eqn:Ex; [right|by left]. rewrite bool_decide_false; [done|]. by intros Hin; apply Hn.
Qed.
Definition apart (file : list Z) (h : Elf64ProgramHeader) (p : UserProgram) : Prop := Forall (fun s => disjoint_segments s (segment_of file h)) (segments p).
Definition with_header (file : list Z) (entry : Z) (h : Elf64ProgramHeader) (l : Loading) : Loading :=
  mkLoading (mkProgram (UserProgram.entry_point (program l)) (initial_stack_size_bytes (program l)) (segments (program l) ++ [segment_of file h]))
    (if decide (enters entry h) then Some (image_of file h) else executable_image l) (load_segment_count l + 1).
Lemma add_header_spec file entry h l : header_typed h -> lenZ file < W64 -> program_wf (program l) -> u64 entry -> is_load h ->
  match add_program_header file entry h l with
  | Ok l' => l' = with_header file entry h l /\ header_valid file h /\ apart file h (program l) /\ backed entry h /\ program_wf (program l')
  | Throw _ => ~ (header_valid file h /\ apart file h (program l) /\ backed entry h)
  end.
Proof.
  intros Ht Hl Hp He Hload. unfold add_program_header, is_load in *. rewrite Hload. cbn [Z.eqb Pos.eqb negb]. munfold_goal.
  pose proof (make_load_segment_spec file h Ht Hl) as Hm. destruct (make_load_segment file h) as [ls|e]; [|tauto]. destruct Hm as [-> Hv].
  rewrite entry_image_spec by done. cbn [load_segment]. unfold with_header.
  destruct (add_segment_spec _ _ Hp (segment_of_wf file h Ht Hv)) as [[-> (t & Ht' & Hn)] | [-> Hp']].
  - assert (Hna : ~ apart file h (program l)) by (unfold apart; rewrite Forall_forall; intros Hx; by apply Hn, Hx).
    repeat case_decide; tauto.
  - assert (Hap : apart file h (program l)) by (by apply pw_disjoint, ForallOrdPairs_snoc in Hp' as [_ Hx]).
    unfold backed. repeat case_decide; tauto.
Qed.

(** What has been loaded after some headers. *)
Record loaded (file : list Z) (entry : Z) (hs : list Elf64ProgramHeader) (l : Loading) : Prop := {
  ld_program : program l = mkProgram entry ADDRESS_LAYOUT_USER_STACK_DEFAULT_SIZE_BYTES (segment_of file <$> hs);
  ld_wf : program_wf (program l);
  ld_count : load_segment_count l = lenZ hs;
  ld_valid : Forall (header_valid file) hs /\ Forall (backed entry) hs;
  ld_image : match executable_image l with
    | Some i => exists h, h ∈ hs /\ enters entry h /\ i = image_of file h
    | None => Forall (fun h => ~ enters entry h) hs
    end;
}.
Lemma loaded_step file entry hs h l : loaded file entry hs l -> header_valid file h -> backed entry h ->
  program_wf (program (with_header file entry h l)) -> loaded file entry (hs ++ [h]) (with_header file entry h l).
Proof.
  intros [Hp _ Hc [Hv Hb] Hi] Hh Hbk Hwf. split; [|done| | |].
  - cbn [with_header program]. rewrite Hp. cbn. by rewrite fmap_app.
  - cbn [with_header load_segment_count]. by rewrite Hc, lenZ_app.
  - by rewrite !Forall_app, !Forall_singleton.
  - cbn [with_header executable_image]. case_decide as He.
    + exists h. split; [set_solver|done].
    + destruct (executable_image l); [|by rewrite Forall_app, Forall_singleton]. destruct Hi as (h' & Hin & Hx). exists h'. split; [set_solver|done].
Qed.
Lemma not_load_skipped file entry h l : ~ is_load h -> add_program_header file entry h l = Ok l.
Proof. unfold is_load, add_program_header. intros Hn. by rewrite (proj2 (Z.eqb_neq _ _) Hn). Qed.
Lemma add_headers_loaded file entry hs : lenZ file < W64 -> u64 entry -> Forall header_typed hs -> forall pre l l',
  loaded file entry pre l -> add_headers file entry hs l = Ok l' -> loaded file entry (pre ++ filter is_load hs) l'.
Proof.
  intros Hl He. induction 1 as [|h hs Ht _ IH]; intros pre l l' Hpre E; cbn [add_headers] in E.
  { injection E as <-. cbn. by rewrite app_nil_r. }
  munfold. destruct (decide (is_load h)) as [Hload|Hload].
  - rewrite filter_cons_True by done. replace (pre ++ h :: filter is_load hs) with ((pre ++ [h]) ++ filter is_load hs) by by rewrite <- app_assoc.
    pose proof (add_header_spec file entry h l Ht Hl (ld_wf _ _ _ _ Hpre) He Hload) as Hs. destruct (add_program_header file entry h l) as [l1|]; [|done].
    destruct Hs as (-> & Hv & _ & Hb & Hwf). apply (IH (pre ++ [h]) (with_header file entry h l)); [by apply loaded_step|done].
  - rewrite filter_cons_False by done. rewrite not_load_skipped in E by done. by apply (IH pre l).
Qed.
Lemma add_headers_accepted file entry hs : lenZ file < W64 -> u64 entry -> Forall header_typed hs -> forall l,
  program_wf (program l) -> Forall (header_valid file) (filter is_load hs) -> Forall (backed entry) (filter is_load hs) ->
  ForallOrdPairs disjoint_segments (segments (program l) ++ (segment_of file <$> filter is_load hs)) ->
  exists l', add_headers file entry hs l = Ok l'.
Proof.
  intros Hl He. induction 1 as [|h hs Ht _ IH]; intros l Hp Hv Hb Hd; [by exists l|]. cbn [add_headers]. munfold_goal.
  destruct (decide (is_load h)) as [Hload|Hload].
  - rewrite filter_cons_True in Hv, Hb, Hd by done. apply Forall_cons in Hv as [Hvh Hv]. apply Forall_cons in Hb as [Hbh Hb].
    cbn [fmap list_fmap] in Hd. rewrite cons_middle, app_assoc in Hd.
    pose proof (add_header_spec file entry h l Ht Hl Hp He Hload) as Hs. destruct (add_program_header file entry h l) as [l1|].
    + destruct Hs as (-> & _ & _ & _ & Hwf). by apply (IH (with_header file entry h l)).
    + destruct Hs. split; [done|]. split; [|done]. unfold apart. revert Hd. generalize (segments (program l)). induction l0 as [|s ss IHs]; intros Hd; [constructor|].
      inversion Hd as [|? ? Hx Hy]; subst. constructor; [|by apply IHs]. rewrite Forall_app, Forall_app, Forall_singleton in Hx. tauto.
  - rewrite filter_cons_False in Hv, Hb, Hd by done. rewrite not_load_skipped by done. by apply IH.
Qed.

(** ** What the loader accepts *)

Definition file_entry (file : list Z) : Z := read_le 8 file 24.
Definition load_headers (file : list Z) : list Elf64ProgramHeader := filter is_load (program_headers file).
(** An executable the loader is meant to take, entered in the segment of [h]. *)
Record acceptable (file : list Z) (h : Elf64ProgramHeader) : Prop := {
  ac_file : file_valid file;
  ac_entry : is_user_address (file_entry file) = true;
  ac_headers : Forall (header_valid file) (load_headers file);
  ac_disjoint : ForallOrdPairs disjoint_segments (segment_of file <$> load_headers file);
  ac_entered : h ∈ load_headers file /\ enters (file_entry file) h;
  ac_backed : Forall (backed (file_entry file)) (load_headers file);
}.
Definition executable (file : list Z) (h : Elf64ProgramHeader) : LoadedUserExecutable :=
  mkLoaded (mkProgram (file_entry file) ADDRESS_LAYOUT_USER_STACK_DEFAULT_SIZE_BYTES (segment_of file <$> load_headers file)) (image_of file h).

Lemma program_headers_typed file : Forall header_typed (program_headers file).
Proof. unfold program_headers. apply Forall_fmap, Forall_forall. intros i _. apply header_at_typed. Qed.
Lemma file_entry_u64 file : u64 (file_entry file).
Proof. pose proof (read_le_range 8 file 24 ltac:(lia)) as H. unfold u64, file_entry. rewrite W64_pow. cbn [Z.mul Pos.mul] in H. lia. Qed.

(** Only one segment holds the entry point. *)
Lemma entered_once file entry hs h h' : ForallOrdPairs disjoint_segments (segment_of file <$> hs) -> h ∈ hs -> h' ∈ hs ->
  enters entry h -> enters entry h' -> image_of file h' = image_of file h.
Proof.
  intros Hd Hin Hin' [_ He] [_ He']. pose proof (ForallOrdPairs_In Hd (segment_of file h) (segment_of file h')) as Hp.
  rewrite <- !list_elem_of_In in Hp. destruct Hp as [E|[H|H]]; try by apply list_elem_of_fmap_2.
  - unfold segment_of in E. injection E as E1 E2 _ _. unfold image_of. by rewrite E1, E2.
  - unfold disjoint_segments, segment_of in H. cbn in H. lia.
  - unfold disjoint_segments, segment_of in H. cbn in H. lia.
Qed.

Lemma load_starts file : is_user_address (file_entry file) = true ->
  loaded file (file_entry file) [] (mkLoading (mkProgram (file_entry file) ADDRESS_LAYOUT_USER_STACK_DEFAULT_SIZE_BYTES []) None 0).
Proof. intros Eu. split; [done|by apply make_program_wf|done|by split|constructor]. Qed.
Lemma load_sound outside file r : bytes_ok file -> load outside file = Ok r -> exists h, acceptable file h /\ r = executable file h.
Proof.
  intros Hf. assert (Hl : lenZ file < W64) by apply Hf. destruct (load_reads outside file Hf) as [[Hv ->] | [Hv ->]]; [|done].
  fold (file_entry file). unfold make_program, throw_when. munfold_goal. destruct (is_user_address (file_entry file)) eqn:Eu; cbn [negb]; [|done].
  intros E. destruct (add_headers _ _ _ _) as [l|] eqn:Ea; [|done].
  destruct (add_headers_loaded file _ _ Hl (file_entry_u64 file) (program_headers_typed file) [] _ l (load_starts file Eu) Ea) as [Hp Hwf Hc [Hvh Hb] Hi]. cbn [app] in *.
  destruct (load_segment_count l =? 0); [done|]. destruct (executable_image l) as [i|]; [|done].
  destruct (entry_point_is_executable (program l)) eqn:Ex; [|done]. injection E as <-. destruct Hi as (h & Hin & Hen & ->).
  exists h. split; [|unfold executable; by rewrite Hp]. split; try done. pose proof (pw_disjoint _ Hwf) as Hd. by rewrite Hp in Hd.
Qed.
Lemma load_complete outside file h : bytes_ok file -> acceptable file h -> load outside file = Ok (executable file h).
Proof.
  intros Hf [Hv Eu Hvh Hd [Hin Hen] Hb]. assert (Hl : lenZ file < W64) by apply Hf. destruct (load_reads outside file Hf) as [[_ ->] | [? _]]; [|done].
  fold (file_entry file). unfold make_program, throw_when. munfold_goal. rewrite Eu. cbn [negb].
  pose proof (load_starts file Eu) as H0. pose proof (program_headers_typed file) as Ht. pose proof (file_entry_u64 file) as He.
  destruct (add_headers_accepted file (file_entry file) (program_headers file) Hl He Ht _ (ld_wf _ _ _ _ H0) Hvh Hb Hd) as [l Ea]. rewrite Ea.
  destruct (add_headers_loaded file _ _ Hl He Ht [] _ l H0 Ea) as [Hp Hwf Hc [_ _] Hi]. cbn [app] in *. fold (load_headers file) in *.
  assert (Hpos : 0 < lenZ (load_headers file)) by (unfold lenZ; destruct (load_headers file); [by apply elem_of_nil in Hin|cbn; lia]).
  rewrite (proj2 (Z.eqb_neq (load_segment_count l) 0)) by lia.
  destruct (executable_image l) as [i|]; [|rewrite Forall_forall in Hi; by destruct (Hi h Hin)]. destruct Hi as (h' & Hin' & Hen' & ->).
  rewrite (proj2 (entry_executable_spec (program l) Hwf)).
  2:{ rewrite Hp. exists (segment_of file h). split; [by apply list_elem_of_fmap_2|]. by destruct Hen. }
  unfold executable. rewrite Hp. do 2 f_equal. apply (entered_once file (file_entry file) (load_headers file)); done.
Qed.

(** C35. The ELF loader takes exactly the executables it is meant to take, and loads what they say: a
    file is loaded if and only if its header is that of an x86-64 executable whose program headers are in
    the file, its loadable segments lie in the file and in the user space without overlapping, none is
    both writable and executable, and the entry point is in an executable segment with file bytes
    behind it; the program then has exactly the segments of the file, with the file's bytes, and the
    image is the segment of the entry point. No byte outside the file is ever read. *)
Theorem elf_loader_takes_exactly_executables outside file r : bytes_ok file ->
  load outside file = Ok r <-> exists h, acceptable file h /\ r = executable file h.
Proof.
  intros Hf. split; [by apply load_sound|]. intros (h & Ha & ->). by apply load_complete.
Qed.

(** ** Writing an executable *)

(** An ELF file for a program: the header, a program header per segment, and the segments' bytes. *)
Definition segment_flags (p : PagePermissions) : Z :=
  4 + (if p_writable p then 2 else 0) + (if p_executable p then 1 else 0).
Definition encode_program_header (offset : Z) (s : UserSegment) : list Z :=
  le 4 1 ++ le 4 (segment_flags (segment_permissions s)) ++ le 8 offset ++ le 8 (segment_address s) ++ le 8 0 ++
  le 8 (lenZ (segment_bytes s)) ++ le 8 (segment_memory_size s) ++ le 8 4096.
Fixpoint encode_table (offset : Z) (ss : list UserSegment) : list Z :=
  match ss with
  | [] => []
  | s :: rest => encode_program_header offset s ++ encode_table (offset + lenZ (segment_bytes s)) rest
  end.
Definition encode_header (entry count : Z) : list Z :=
  [0x7F; 0x45; 0x4C; 0x46; 2; 1; 1; 0; 0; 0; 0; 0; 0; 0; 0; 0] ++ le 2 2 ++ le 2 0x3E ++ le 4 1 ++ le 8 entry ++ le 8 64 ++ le 8 0 ++
  le 4 0 ++ le 2 64 ++ le 2 56 ++ le 2 count ++ le 2 0 ++ le 2 0 ++ le 2 0.
Definition encode (p : UserProgram) : list Z :=
  let n := lenZ (segments p) in
  encode_header (entry_point p) n ++ encode_table (64 + 56 * n) (segments p) ++ concat (segment_bytes <$> segments p).

(** The programs an ELF file can hold. *)
Record encodable (p : UserProgram) (s : UserSegment) : Prop := {
  en_program : program_wf p /\ initial_stack_size_bytes p = ADDRESS_LAYOUT_USER_STACK_DEFAULT_SIZE_BYTES;
  en_count : lenZ (segments p) < 65536;
  en_bytes : Forall (fun s => Forall (fun b => 0 <= b < 256) (segment_bytes s)) (segments p);
  en_size : lenZ (encode p) < W64;
  en_exclusive : Forall (fun s => ~ (p_writable (segment_permissions s) = true /\ p_executable (segment_permissions s) = true)) (segments p);
  en_entry : s ∈ segments p /\ p_executable (segment_permissions s) = true /\
    segment_address s <= entry_point p < segment_address s + lenZ (segment_bytes s);
}.

Lemma encode_header_length e n : lenZ (encode_header e n) = 64.
Proof. reflexivity. Qed.
Lemma encode_ph_length off s : lenZ (encode_program_header off s) = 56.
Proof. reflexivity. Qed.
Lemma encode_table_length ss : forall off, lenZ (encode_table off ss) = 56 * lenZ ss.
Proof.
  induction ss as [|s ss IH]; intros off; [done|]. cbn [encode_table]. rewrite lenZ_app, IH, encode_ph_length. unfold lenZ. cbn [length]. lia.
Qed.
(** The fields of a header read back. *)
Lemma encoded_header_read e n rest : u64 e -> 0 <= n < 65536 ->
  let file := encode_header e n ++ rest in
  take 7 file = [0x7F; 0x45; 0x4C; 0x46; 2; 1; 1] /\
  read_le 2 file 16 = 2 /\ read_le 2 file 18 = 0x3E /\ read_le 4 file 20 = 1 /\ read_le 8 file 24 = e /\ read_le 8 file 32 = 64 /\
  read_le 2 file 52 = 64 /\ read_le 2 file 54 = 56 /\ read_le 2 file 56 = n.
Proof.
  intros He Hn file. unfold u64 in He. assert (Hs : forall off k v, 0 <= off -> 0 <= k -> 0 <= v < 2 ^ (8 * k) -> off + k <= 64 ->
    slice off k (encode_header e n) = le k v -> read_le k file off = v).
  { intros off k v Ho Hk Hv Hle H. rewrite (read_le_slice k file off v); [by apply Z.mod_small|done|done|].
    unfold file. by rewrite slice_app_l by (rewrite ?encode_header_length; lia). }
  split; [reflexivity|].
  split_and!; apply Hs; try reflexivity; try (split; reflexivity || discriminate); try discriminate; cbn [Z.mul Pos.mul Z.pow_pos Pos.iter]; lia.
Qed.

(** The program headers of an encoded program. *)
Definition encoded_header (offset : Z) (s : UserSegment) : Elf64ProgramHeader :=
  mkProgramHeader 1 (segment_flags (segment_permissions s)) offset (segment_address s) (lenZ (segment_bytes s)) (segment_memory_size s) 4096.
Fixpoint table_headers (offset : Z) (ss : list UserSegment) : list Elf64ProgramHeader :=
  match ss with
  | [] => []
  | s :: rest => encoded_header offset s :: table_headers (offset + lenZ (segment_bytes s)) rest
  end.
Definition bodies (ss : list UserSegment) : list Z := concat (segment_bytes <$> ss).

Lemma segment_flags_range p : 0 <= segment_flags p < 2 ^ 32.
Proof. unfold segment_flags. destruct (p_writable p), (p_executable p); lia. Qed.
Lemma header_at_encoded off s : segment_wf s -> u64 off -> header_at (encode_program_header off s) = encoded_header off s.
Proof.
  intros [Ha Hm He Hb _] Ho. unfold u64, lenZ in *. pose proof (segment_flags_range (segment_permissions s)) as Hfl.
  assert (H : forall o k v, 0 <= o -> 0 <= k -> 0 <= v < 2 ^ (8 * k) -> slice o k (encode_program_header off s) = le k v -> read_le k (encode_program_header off s) o = v).
  { intros o k v H1 H2 H3 H4. rewrite (read_le_slice k _ o v) by done. by apply Z.mod_small. }
  unfold header_at, encoded_header, lenZ. f_equal; apply H; try reflexivity; try discriminate; cbn [Z.mul Pos.mul Z.pow_pos Pos.iter]; lia.
Qed.
Lemma encoded_table_read base off ss : forall pre post, lenZ pre = base -> Forall segment_wf ss -> 0 <= off -> off + lenZ (bodies ss) < W64 ->
  (fun i => header_at (slice (base + 56 * i) 56 (pre ++ encode_table off ss ++ post))) <$> seqZ 0 (lenZ ss) = table_headers off ss.
Proof.
  revert base off. induction ss as [|s ss IH]; intros base off pre post Hpre Hss Ho Hb; [done|]. apply Forall_cons in Hss as [Hs Hss].
  assert (Hlen : lenZ (s :: ss) = Z.succ (lenZ ss)) by (unfold lenZ; cbn [length]; lia). assert (Hn : 0 <= lenZ ss) by (unfold lenZ; lia).
  unfold bodies in Hb. cbn [fmap list_fmap concat] in Hb. fold (bodies ss) in Hb. rewrite lenZ_app in Hb.
  assert (Hbs : 0 <= lenZ (segment_bytes s) /\ 0 <= lenZ (bodies ss)) by (unfold lenZ; lia).
  rewrite Hlen, seqZ_cons, Z.pred_succ by lia. cbn [fmap list_fmap table_headers encode_table]. f_equal.
  - rewrite Z.mul_0_r, Z.add_0_r, slice_app_r by lia. replace (base - lenZ pre) with 0 by lia.
    rewrite <- app_assoc, slice_app_l by (rewrite ?encode_ph_length; lia). rewrite <- (encode_ph_length off s), slice_full.
    apply header_at_encoded; [done|unfold u64; lia].
  - rewrite <- (IH (base + 56) (off + lenZ (segment_bytes s)) (pre ++ encode_program_header off s) post); [|by rewrite lenZ_app, encode_ph_length, Hpre|done|lia|lia].
    change (Z.succ 0) with (1 + 0). rewrite <- fmap_add_seqZ, <- list_fmap_compose. apply list_fmap_ext. intros k i _. unfold compose.
    rewrite <- !app_assoc. do 2 f_equal. lia.
Qed.
Lemma permissions_encoded s : segment_wf s -> ~ (p_writable (segment_permissions s) = true /\ p_executable (segment_permissions s) = true) ->
  forall off, header_permissions (encoded_header off s) = segment_permissions s /\
    ~ (Z.testbit (ph_flags (encoded_header off s)) 1 = true /\ Z.testbit (ph_flags (encoded_header off s)) 0 = true).
Proof.
  intros [_ _ _ _ Hu] Hx off. unfold header_permissions, encoded_header, segment_flags. cbn [ph_flags].
  destruct (segment_permissions s) as [w u x]; cbn in *. subst u. by destruct w, x; (split; [|intros []]); try tauto.
Qed.
Lemma encoded_segments ss : forall pre, Forall segment_wf ss ->
  Forall (fun s => ~ (p_writable (segment_permissions s) = true /\ p_executable (segment_permissions s) = true)) ss ->
  let file := pre ++ bodies ss in
  segment_of file <$> table_headers (lenZ pre) ss = ss /\ Forall (header_valid file) (table_headers (lenZ pre) ss) /\
  filter is_load (table_headers (lenZ pre) ss) = table_headers (lenZ pre) ss.
Proof.
  induction ss as [|s ss IH]; intros pre Hss Hx file; [by repeat split|]. apply Forall_cons in Hss as [Hs Hss]. apply Forall_cons in Hx as [Hxs Hx].
  assert (Hfile : file = (pre ++ segment_bytes s) ++ bodies ss) by by unfold file, bodies; rewrite <- app_assoc.
  destruct (IH (pre ++ segment_bytes s) Hss Hx) as (H1 & H2 & H3). cbn zeta in *. rewrite <- Hfile, lenZ_app in *. cbn [table_headers fmap list_fmap].
  destruct (permissions_encoded s Hs Hxs (lenZ pre)) as [Hp Hex]. pose proof Hs as [Ha Hm He Hb _].
  assert (Hlen : 0 <= lenZ pre /\ 0 <= lenZ (segment_bytes s) /\ 0 <= lenZ (bodies ss)) by (unfold lenZ; lia).
  assert (Hr : rounded_size (encoded_header (lenZ pre) s) = segment_memory_size s).
  { destruct (rounded_spec (encoded_header (lenZ pre) s)) as [Hr1 Hr2]; [cbn; lia|]. cbn [encoded_header ph_memory_size] in Hr1.
    pose proof (Z.div_mod (rounded_size (encoded_header (lenZ pre) s)) 4096 ltac:(lia)). pose proof (Z.div_mod (segment_memory_size s) 4096 ltac:(lia)). lia. }
  rewrite H1. split; [|split].
  - f_equal. unfold segment_of. rewrite Hr, Hp. cbn [encoded_header ph_virtual_address ph_offset ph_file_size].
    rewrite Hfile, slice_app_l by (rewrite ?lenZ_app; lia). rewrite slice_app_r, Z.sub_diag, slice_full by lia. by destruct s.
  - constructor; [|done]. split; cbn [encoded_header ph_memory_size ph_file_size ph_alignment ph_virtual_address ph_offset]; try lia; [by right|rewrite Hfile, !lenZ_app; lia|].
    apply Hex.
  - rewrite filter_cons_True by done. by rewrite H3.
Qed.
Lemma le_typed n v : Forall (fun b => 0 <= b < 256) (le n v).
Proof. unfold le. apply Forall_fmap, Forall_forall. intros k _. apply byte_of_range. Qed.
Lemma encode_typed p : Forall (fun s => Forall (fun b => 0 <= b < 256) (segment_bytes s)) (segments p) -> Forall (fun b => 0 <= b < 256) (encode p).
Proof.
  intros Hb. unfold encode, encode_header. rewrite !Forall_app. split_and!; try apply le_typed.
  - repeat constructor; done.
  - generalize (64 + 56 * lenZ (segments p)). clear Hb. induction (segments p) as [|s ss IH]; intros off; [constructor|].
    cbn [encode_table]. unfold encode_program_header. rewrite !Forall_app. split_and!; try apply le_typed. apply IH.
  - induction Hb as [|s ss Hs _ IH]; [constructor|]. cbn [fmap list_fmap concat]. by rewrite Forall_app.
Qed.
Lemma encode_reads p s : encodable p s ->
  file_valid (encode p) /\ file_entry (encode p) = entry_point p /\
  load_headers (encode p) = table_headers (64 + 56 * lenZ (segments p)) (segments p) /\
  segment_of (encode p) <$> load_headers (encode p) = segments p /\ Forall (header_valid (encode p)) (load_headers (encode p)).
Proof.
  intros [[[He _ Hss Hd] _] Hc Hb Hsz Hx (Hin & _ & Hent)].
  assert (Hn : 0 < lenZ (segments p)) by (unfold lenZ; destruct (segments p); [by apply elem_of_nil in Hin|cbn; lia]).
  assert (Hu : u64 (entry_point p)).
  { rewrite Forall_forall in Hss. destruct (Hss s Hin) as [? ? ? ? _]. unfold u64. lia. }
  set (pre := encode_header (entry_point p) (lenZ (segments p)) ++ encode_table (64 + 56 * lenZ (segments p)) (segments p)).
  assert (Hpre : lenZ pre = 64 + 56 * lenZ (segments p)) by (unfold pre; by rewrite lenZ_app, encode_header_length, encode_table_length).
  assert (Hfile : encode p = pre ++ bodies (segments p)) by (unfold pre, encode; by rewrite <- app_assoc).
  destruct (encoded_segments (segments p) pre Hss Hx) as (H1 & H2 & H3). cbn zeta in *. rewrite <- Hfile, Hpre in *.
  destruct (encoded_header_read (entry_point p) (lenZ (segments p)) (encode_table (64 + 56 * lenZ (segments p)) (segments p) ++ bodies (segments p)) Hu ltac:(lia))
    as (Hid & H16 & H18 & H20 & H24 & H32 & H52 & H54 & H56). fold (bodies (segments p)) in *. cbn zeta in *.
  change (encode_header _ _ ++ encode_table _ _ ++ bodies _) with (encode p) in *.
  assert (Hlen : lenZ (encode p) = 64 + 56 * lenZ (segments p) + lenZ (bodies (segments p))) by (rewrite Hfile, lenZ_app; lia).
  assert (Hbd : 0 <= lenZ (bodies (segments p))) by (unfold lenZ; lia).
  assert (Hheaders : load_headers (encode p) = table_headers (64 + 56 * lenZ (segments p)) (segments p)).
  { unfold load_headers. rewrite <- H3. f_equal. unfold program_headers. rewrite H32, H56.
    apply (encoded_table_read 64 _ (segments p) (encode_header (entry_point p) (lenZ (segments p))) (bodies (segments p))); [done|done|lia|lia]. }
  split; [split; [lia|done|done|done|lia|lia]|]. split; [done|]. split; [done|]. by rewrite Hheaders.
Qed.
Lemma segment_same ss s t a : ForallOrdPairs disjoint_segments ss -> s ∈ ss -> t ∈ ss ->
  segment_address s <= a < segment_address s + segment_memory_size s -> segment_address t <= a < segment_address t + segment_memory_size t -> s = t.
Proof.
  intros Hd Hs Ht Ha Hb. pose proof (ForallOrdPairs_In Hd s t) as Hp. rewrite <- !list_elem_of_In in Hp. unfold disjoint_segments in Hp.
  destruct (Hp Hs Ht) as [E | [H|H]]; [done|lia|lia].
Qed.

(** C36. Executables round-trip: a program written as an ELF file is loaded as that very program, with the
    segment that holds its entry point as the executable image. *)
Theorem elf_encode_then_load outside p s : encodable p s ->
  load outside (encode p) = Ok (mkLoaded p (mkImage (segment_bytes s) (segment_address s))).
Proof.
  intros Hen. destruct (encode_reads p s Hen) as (Hv & Hent & _ & Hsegs & Hval). destruct Hen as [[Hwf Hst] Hc Hb Hsz Hx (Hin & Hex & Ha)].
  pose proof (pw_segments _ Hwf) as Hss. rewrite Forall_forall in Hss. pose proof (pw_disjoint _ Hwf) as Hd. pose proof (Hss s Hin) as [_ _ _ Hsb _].
  assert (Hf : bytes_ok (encode p)) by (split; [by apply encode_typed|done]).
  assert (Hh : exists h, h ∈ load_headers (encode p) /\ segment_of (encode p) h = s).
  { rewrite <- Hsegs in Hin. apply list_elem_of_fmap in Hin as (h & -> & Hh). by exists h. }
  destruct Hh as (h & Hh & Hs). rewrite (load_complete outside _ h Hf).
  2:{ split; [done|rewrite Hent; apply Hwf|done|by rewrite Hsegs| |].
    - split; [done|]. rewrite Hent, <- Hs in *. cbn [segment_of segment_address segment_permissions header_permissions p_executable segment_bytes segment_memory_size] in *.
      split; [done|lia].
    - apply Forall_forall. intros h' Hh' [Hx' Hr']. rewrite Hent in *. assert (Hs' : segment_of (encode p) h' ∈ segments p) by (rewrite <- Hsegs; by apply list_elem_of_fmap_2).
      assert (s = segment_of (encode p) h') as E by (apply (segment_same (segments p) s _ (entry_point p)); done || cbn; lia).
      rewrite E in Ha. cbn [segment_of segment_address segment_bytes] in Ha. rewrite Forall_forall in Hval. pose proof (hv_file _ _ (Hval h' Hh')).
      pose proof (program_headers_typed (encode p)) as Ht. rewrite Forall_forall in Ht. apply list_elem_of_filter in Hh' as [_ Hh'].
      destruct (Ht h' Hh') as (_ & [] & _ & [] & _). rewrite slice_length in Ha; lia. }
  unfold executable. rewrite Hent, Hsegs, <- Hst, <- Hs. f_equal. by destruct p.
Qed.

(** ** Concrete instances *)

Definition demo_text : UserSegment := mkSegment 0x400000 [0x90; 0x90; 0xF4] 4096 user_read_only_execute.
Definition demo_data : UserSegment := mkSegment 0x600000 [1; 2] 8192 user_read_write_no_execute.
Definition demo_program : UserProgram := mkProgram 0x400001 ADDRESS_LAYOUT_USER_STACK_DEFAULT_SIZE_BYTES [demo_text; demo_data].
Lemma demo_encodable : encodable demo_program demo_text.
Proof.
  split.
  - split; [|done]. split; [reflexivity|reflexivity| |].
    + repeat constructor; try reflexivity; try discriminate; cbn; lia.
    + apply FOP_cons; [apply Forall_singleton; left; discriminate|]. apply FOP_cons; [constructor|constructor].
  - reflexivity.
  - repeat constructor; done.
  - vm_compute. reflexivity.
  - repeat constructor; cbn; intros []; done.
  - split; [set_solver|]. split; [done|]. cbn. split; [discriminate|reflexivity].
Qed.
Lemma elf_encode_then_load_witness :
  load (fun _ _ => 255) (encode demo_program) = Ok (mkLoaded demo_program (mkImage [0x90; 0x90; 0xF4] 0x400000)).
Proof. exact (elf_encode_then_load _ demo_program demo_text demo_encodable). Defined.
Lemma elf_loader_takes_exactly_executables_witness :
  bytes_ok (encode demo_program) /\ (exists h, acceptable (encode demo_program) h) /\
  (exists file r, bytes_ok file /\ load (fun _ _ => 0) file = Throw r /\ ~ exists h, acceptable file h).
Proof.
  assert (Hok : bytes_ok (encode demo_program)) by (split; [apply encode_typed, (en_bytes _ _ demo_encodable)|exact (en_size _ _ demo_encodable)]).
  split; [exact Hok|]. split.
  - destruct (proj1 (elf_loader_takes_exactly_executables (fun _ _ => 255) _ (mkLoaded demo_program (mkImage [0x90; 0x90; 0xF4] 0x400000)) Hok)) as (h & Ha & _); [vm_compute; reflexivity|].
    exists h. exact Ha.
  - exists (take 64 (encode demo_program)), invalid_argument. assert (Hok' : bytes_ok (take 64 (encode demo_program))) by (by apply (bytes_ok_slice 0 64)).
    split; [exact Hok'|]. split; [vm_compute; reflexivity|]. intros (h & Ha).
    assert (E : load (fun _ _ => 0) (take 64 (encode demo_program)) = Ok (executable (take 64 (encode demo_program)) h)).
    { apply elf_loader_takes_exactly_executables; [exact Hok'|]. exists h. split; [exact Ha|reflexivity]. }
    vm_compute in E. discriminate E.
Defined.
