(* ===== verification/UserLoader.v ===== *)
(** * User loader

    Models [UserLoader] of src/os/proc/user_loader.cpp: the pages of a program's segments and of
    its stack are allocated, cleared, filled and mapped, and the initial stack with the arguments and
    the environment is written through the address space of the process.  The objects the loader points
    to are kept together in [Loader].  The user memory of a loaded program is shown to be exactly the
    segments' bytes, zeros, and the stack image [stack_image]. *)
From S2P Require Import Prelude Logic Common PhysicalMemory MemoryBus Paging PageTable Page PageAlloc Instruction CpuState Thread AddressSpace PageFaultHandler UserProgram.

(* [include/mnos/os/proc/user_loader.hpp] [UserLoader] *)
Record Loader (B : Type) : Type := mkLoader { ld_allocator : PhysicalPageAllocator; ld_space : AddressSpace; ld_bus : B }.
Arguments mkLoader {B}.
Arguments ld_allocator {B}.
Arguments ld_space {B}.
Arguments ld_bus {B}.
(* [include/mnos/os/proc/user_loader.hpp] [UserProcessImage] *)
Record UserProcessImage : Set := mkProcessImage {
  image_entry_point : Z; stack_bottom : Z; initial_stack_pointer : Z; mapped_page_count : Z }.

(* [src/os/proc/user_loader.cpp] [align_down_to_user_stack_alignment] *)
Definition align_down_to_user_stack_alignment (value : Z) : Z := sub64 value (value `mod` 16).
(** The output parameter is the payload of the option. *)
(* [src/os/proc/user_loader.cpp] [stack_subtract] *)
Definition stack_subtract (stack_bottom cursor byte_count : Z) : option Z :=
  if (cursor <? stack_bottom) || (sub64 cursor stack_bottom <? byte_count) then None else Some (sub64 cursor byte_count).
(* [src/os/proc/user_loader.cpp] [pointer_table_byte_count] *)
Definition pointer_table_byte_count (argument_count environment_count : Z) : res Z :=
  throw_when (sub64 (W64 - 1) environment_count <? argument_count) length_error ≫= fun _ =>
  let dynamic_pointer_slot_count := add64 argument_count environment_count in
  throw_when ((W64 - 1) - 3 <? dynamic_pointer_slot_count) length_error ≫= fun _ =>
  let pointer_slot_count := add64 dynamic_pointer_slot_count 3 in
  throw_when ((W64 - 1) / 8 <? pointer_slot_count) length_error ≫= fun _ =>
  Ok (mul64 pointer_slot_count 8).

(** A loop that counts its iterations. *)
Fixpoint count_each {S X} (xs : list X) (body : X -> M S unit) (n : Z) : M S Z :=
  match xs with
  | [] => mret n
  | x :: rest => body x ≫= fun _ => count_each rest body (n + 1)
  end.

Section loader_operations.
Context {B : Type} `{MemoryBus B}.
Abbreviation LM A := (M (Loader B) A).
Definition on_ld_allocator {A} : M PhysicalPageAllocator A -> LM A :=
  zoom ld_allocator (fun a l => mkLoader a (ld_space l) (ld_bus l)).
Definition on_ld_bus {A} : M B A -> LM A := zoom ld_bus (fun b l => mkLoader (ld_allocator l) (ld_space l) b).
Definition on_ld_space {A} : M (AddressSpace * B) A -> LM A :=
  zoom (fun l => (ld_space l, ld_bus l)) (fun st l => mkLoader (ld_allocator l) st.1 st.2).

(** ** The stack *)

(* [src/os/proc/user_loader.cpp] [write_user_byte] *)
Definition write_user_byte (virtual_address value : Z) : LM unit :=
  on_ld_space (page_translation virtual_address AccessKind.WRITE Ring.RING3) ≫= fun translation =>
  on_ld_bus (bus_write_M (translation_translate translation virtual_address) Size.BYTE value).
(* [src/os/proc/user_loader.cpp] [write_user_qword] *)
Definition write_user_qword (virtual_address value : Z) : LM unit :=
  for_each (seqZ 0 8) (fun byte_index =>
    let byte_value := Z.land (Z.shiftr value (byte_index * 8)) 255 in
    write_user_byte (add64 virtual_address byte_index) byte_value).
(* [src/os/proc/user_loader.cpp] [write_user_c_string] *)
Definition write_user_c_string (virtual_address : Z) (string : list Z) : LM unit :=
  for_each (seqZ 0 (lenZ string)) (fun byte_index =>
    write_user_byte (add64 virtual_address byte_index) (nthZ string byte_index)) ≫= fun _ =>
  write_user_byte (add64 virtual_address (lenZ string)) 0.
(** The loop from the last entry down; [cursor] is returned with the pointers. *)
(* [src/os/proc/user_loader.cpp] [write_user_strings] [167-187] *)
Fixpoint write_strings_loop (entries : list (list Z)) (stack_bottom : Z) (reverse_index : nat) (cursor : Z) (pointers : list Z) : LM (list Z * Z) :=
  match reverse_index with
  | O => mret (pointers, cursor)
  | S entry_index =>
      let entry := nth entry_index entries [] in
      throw_if (lenZ entry =? W64 - 1) length_error ≫= fun _ =>
      let byte_count := add64 (lenZ entry) 1 in
      match stack_subtract stack_bottom cursor byte_count with
      | None => throw length_error
      | Some string_address =>
          write_user_c_string string_address entry ≫= fun _ =>
          write_strings_loop entries stack_bottom entry_index string_address (<[entry_index := string_address]> pointers)
      end
  end.
(* [src/os/proc/user_loader.cpp] [write_user_strings] *)
Definition write_user_strings (entries : list (list Z)) (stack_bottom cursor : Z) : LM (list Z * Z) :=
  write_strings_loop entries stack_bottom (length entries) cursor (replicate (length entries) 0).
(** The cursor after the entry is returned. *)
(* [src/os/proc/user_loader.cpp] [write_pointer_table_entry] *)
Definition write_pointer_table_entry (cursor value : Z) : LM Z :=
  write_user_qword cursor value ≫= fun _ => mret (add64 cursor 8).
(* [src/os/proc/user_loader.cpp] [write_pointer_array] *)
Fixpoint write_pointer_array (cursor : Z) (pointers : list Z) : LM Z :=
  match pointers with
  | [] => mret cursor
  | pointer :: rest => write_pointer_table_entry cursor pointer ≫= fun cursor => write_pointer_array cursor rest
  end.
(* [src/os/proc/user_loader.cpp] [write_initial_user_stack] *)
Definition write_initial_user_stack (stack_bottom : Z) (a : UserProgramArguments) : LM Z :=
  write_user_strings (environment a) stack_bottom ADDRESS_LAYOUT_USER_STACK_TOP ≫= fun '(environment_pointers, string_cursor) =>
  write_user_strings (arguments a) stack_bottom string_cursor ≫= fun '(argument_pointers, string_cursor) =>
  lift (fun _ => pointer_table_byte_count (argument_count a) (environment_count a)) ≫= fun table_byte_count =>
  match stack_subtract stack_bottom string_cursor table_byte_count with
  | None => throw length_error
  | Some raw_frame_start =>
      let frame_start := align_down_to_user_stack_alignment raw_frame_start in
      throw_if (frame_start <? stack_bottom) length_error ≫= fun _ =>
      write_pointer_table_entry frame_start (argument_count a) ≫= fun table_cursor =>
      write_pointer_array table_cursor argument_pointers ≫= fun table_cursor =>
      write_pointer_table_entry table_cursor 0 ≫= fun table_cursor =>
      write_pointer_array table_cursor environment_pointers ≫= fun table_cursor =>
      write_pointer_table_entry table_cursor 0 ≫= fun _ =>
      mret frame_start
  end.

(** ** The pages *)

(* [src/os/proc/user_loader.cpp] [UserLoader::zero_physical_page] *)
Definition zero_user_page (physical_address : Z) : LM unit :=
  for_each (seqZ 0 (MM_PAGE_SIZE_BYTES / 8)) (fun k =>
    let offset := mul64 k 8 in
    on_ld_bus (bus_write_M (add64 physical_address offset) Size.QWORD 0)).
(* [src/os/proc/user_loader.cpp] [UserLoader::copy_segment_page] *)
Definition copy_segment_page (segment : UserSegment) (segment_page_offset physical_address : Z) : LM unit :=
  let bytes := segment_bytes segment in
  if lenZ bytes <=? segment_page_offset then mret tt
  else
    let copy_count := Z.min MM_PAGE_SIZE_BYTES (sub64 (lenZ bytes) segment_page_offset) in
    for_each (seqZ 0 copy_count) (fun byte_index =>
      on_ld_bus (bus_write_M (add64 physical_address byte_index) Size.BYTE (nthZ bytes (segment_page_offset + byte_index)))).
(* [src/os/proc/user_loader.cpp] [UserLoader::allocate_zeroed_page] *)
Definition allocate_zeroed_page : LM Z :=
  on_ld_allocator allocate_page ≫= fun page =>
  zero_user_page page ≫= fun _ =>
  mret page.
(** [for (offset = 0; offset < byte_count; offset += MM_PAGE_SIZE_BYTES)]: the offsets. *)
Definition page_offsets (byte_count : Z) : list Z :=
  (fun k => k * MM_PAGE_SIZE_BYTES) <$> seqZ 0 ((byte_count + (MM_PAGE_SIZE_BYTES - 1)) / MM_PAGE_SIZE_BYTES).
(* [src/os/proc/user_loader.cpp] [UserLoader::load #2] [529-539] *)
Definition load_segment_page (segment : UserSegment) (offset : Z) : LM unit :=
  allocate_zeroed_page ≫= fun page =>
  copy_segment_page segment offset page ≫= fun _ =>
  on_ld_space (map_page (add64 (segment_address segment) offset) page (segment_permissions segment)).
Fixpoint load_segments (ss : list UserSegment) (n : Z) : LM Z :=
  match ss with
  | [] => mret n
  | segment :: rest =>
      count_each (page_offsets (segment_memory_size segment)) (load_segment_page segment) n ≫= fun n => load_segments rest n
  end.
(* [src/os/proc/user_loader.cpp] [UserLoader::load #2] [542-552] *)
Definition load_stack_page (stack_bottom offset : Z) : LM unit :=
  allocate_zeroed_page ≫= fun page =>
  on_ld_space (map_page (add64 stack_bottom offset) page user_read_write_no_execute).
(* [src/os/proc/user_loader.cpp] [UserLoader::load #2] *)
Definition load_with_arguments (program : UserProgram) (a : UserProgramArguments) : LM UserProcessImage :=
  throw_if (negb (entry_point_is_executable program)) logic_error ≫= fun _ =>
  load_segments (segments program) 0 ≫= fun mapped_page_count =>
  lift (fun _ => user_stack_bottom (initial_stack_size_bytes program)) ≫= fun stack_bottom =>
  count_each (page_offsets (initial_stack_size_bytes program)) (load_stack_page stack_bottom) mapped_page_count ≫= fun mapped_page_count =>
  write_initial_user_stack stack_bottom a ≫= fun initial_stack_pointer =>
  mret (mkProcessImage (entry_point program) stack_bottom initial_stack_pointer mapped_page_count).
(* [src/os/proc/user_loader.cpp] [UserLoader::load] *)
Definition load (program : UserProgram) : LM UserProcessImage := load_with_arguments program (mkArguments [] []).
End loader_operations.

(** ** The thread *)

(* [src/os/proc/process.cpp] [process_context_id_for] *)
Definition process_context_id_for (process_id : Z) : res Z :=
  if PROCESS_CONTEXT_ID_MAX_VALUE <? process_id then Throw out_of_range else Ok process_id.
(* [src/os/proc/user_loader.cpp] [UserLoader::initialize_user_thread] *)
Definition initialize_user_thread (image : UserProcessImage) (process_id : Z) (space : AddressSpace) : M ThreadContext unit :=
  let on_thread_cpu {A} : M CpuState A -> M ThreadContext A := zoom thread_cpu_state set_thread_cpu in
  modify reset_cpu_state ≫= fun _ =>
  on_thread_cpu (set_privilege_level Ring.RING3) ≫= fun _ =>
  on_thread_cpu (modify (set_rip (image_entry_point image))) ≫= fun _ =>
  on_thread_cpu (write_register Reg.RSP (initial_stack_pointer image)) ≫= fun _ =>
  lift (fun _ => process_context_id_for process_id) ≫= fun context_id =>
  on_thread_cpu (activate_context space context_id FlushMode.FLUSH_CURRENT_CONTEXT).

(** ** User memory *)

(** What a process sees of its user addresses: the byte and the permissions of its page. *)
Definition UserMemory : Type := Z -> option (Z * PagePermissions).

Section user_memory.
Context {B : Type} `{MemoryBusLaws B}.
Implicit Types (b : B) (T : gmap Z (PageTableLevel * Z)) (m : PageMap) (l : Loader B).

Definition user_page m b (a : Z) : option (Z * PagePermissions) :=
  (fun x => (bus_byte b (x.1 + a `mod` 4096), x.2)) <$> m !! page_key a.
(** The frames of the mapped pages are taken, apart from each other and from the page tables. *)
Record loader_ok T m l : Prop := {
  lo_space : represents T (ld_space l) (ld_bus l) m;
  lo_alloc : alloc_wf (ld_allocator l);
  lo_memory : total_page_count (ld_allocator l) * 4096 <= bus_size (ld_bus l);
  lo_tables ta : is_Some (T !! ta) -> ~ is_free (ld_allocator l) (ta / 4096);
  lo_arena i : space_next (ld_space l) <= i * 4096 < space_end (ld_space l) -> ~ is_free (ld_allocator l) i;
  lo_frames k pa p : m !! k = Some (pa, p) -> pa `mod` 4096 = 0 /\ 0 <= pa /\ pa + 4096 <= bus_size (ld_bus l) /\
    ~ is_free (ld_allocator l) (pa / 4096) /\ T !! pa = None /\ ~ (space_next (ld_space l) <= pa < space_end (ld_space l));
  lo_private k k' pa p p' : m !! k = Some (pa, p) -> m !! k' = Some (pa, p') -> k = k';
}.
(** The process sees [v] at its user addresses. *)
Definition shows T m l (v : UserMemory) : Prop := loader_ok T m l /\ forall a, 0 <= a < 2 ^ 47 -> user_page m (ld_bus l) a = v a.

Lemma page_key_user a : 0 <= a < 2 ^ 47 -> page_key a = a / 4096.
Proof. intros Ha. unfold page_key, entry_key. rewrite Z.mod_small by lia. done. Qed.
Lemma page_key_eq a a' : 0 <= a < 2 ^ 47 -> 0 <= a' < 2 ^ 47 -> page_key a = page_key a' <-> a - a `mod` 4096 <= a' < a - a `mod` 4096 + 4096.
Proof.
  intros Ha Ha'. rewrite !page_key_user by done. pose proof (Z.div_mod a 4096 ltac:(lia)). pose proof (Z.mod_pos_bound a 4096 ltac:(lia)).
  pose proof (Z.div_mod a' 4096 ltac:(lia)). pose proof (Z.mod_pos_bound a' 4096 ltac:(lia)). lia.
Qed.
(** A frame's bytes are no table's. *)
Lemma frame_apart T m l k pa p ta x : loader_ok T m l -> m !! k = Some (pa, p) -> is_Some (T !! ta) -> pa <= x < pa + 4096 -> ~ (ta <= x < ta + 4096).
Proof.
  intros Hl Hm [[lv q] Hta] Hx Hy. destruct (lo_frames _ _ _ Hl k pa p Hm) as (Hpa & _ & _ & _ & Hno & _).
  destruct (twf_table _ _ _ (rep_tables _ _ _ _ (lo_space _ _ _ Hl)) _ _ _ Hta) as [[_ Hma _] _].
  assert (pa = ta) as ->; [|congruence]. pose proof (Z.div_mod pa 4096 ltac:(lia)). pose proof (Z.div_mod ta 4096 ltac:(lia)). lia.
Qed.
Lemma frames_apart T m l k k' pa pa' p p' x : loader_ok T m l -> m !! k = Some (pa, p) -> m !! k' = Some (pa', p') -> k <> k' ->
  pa <= x < pa + 4096 -> ~ (pa' <= x < pa' + 4096).
Proof.
  intros Hl Hm Hm' Hk Hx Hy. destruct (lo_frames _ _ _ Hl k pa p Hm) as (Hpa & _). destruct (lo_frames _ _ _ Hl k' pa' p' Hm') as (Hpa' & _).
  apply Hk, (lo_private _ _ _ Hl k k' pa p p'); [done|]. replace pa with pa'; [done|].
  pose proof (Z.div_mod pa 4096 ltac:(lia)). pose proof (Z.div_mod pa' 4096 ltac:(lia)). lia.
Qed.

(** ** Writing a user byte *)

Definition user_rw : PagePermissions := user_read_write_no_execute.
Definition store_byte (a v : Z) (u : UserMemory) : UserMemory := fun x => if decide (x = a) then (fun y => (v, y.2)) <$> u x else u x.

(** A bus that differs in page tables at most shows the same. *)
Lemma shows_tables T m al s b b' u : shows T m (mkLoader al s b) u -> represents T s b' m -> bus_size b' = bus_size b ->
  (forall x, 0 <= x -> (forall ta, is_Some (T !! ta) -> ~ (ta <= x < ta + 4096)) -> bus_byte b' x = bus_byte b x) -> shows T m (mkLoader al s b') u.
Proof.
  intros [Hl Hu] Hrep Hs Hb. pose proof Hl as [L1 L2 L3 L4 L5 L6 L7]. cbn [ld_allocator ld_space ld_bus] in *. split.
  - split; cbn [ld_allocator ld_space ld_bus]; [done|done|by rewrite Hs|done|done|intros k pa1 p1 Hk; rewrite Hs; by apply (L6 k pa1 p1)|done].
  - intros a Ha. rewrite <- Hu by done. cbn [ld_bus]. unfold user_page. destruct (m !! page_key a) as [[pa p]|] eqn:Em; [|done]. cbn [fmap option_fmap option_map fst snd].
    destruct (L6 _ _ _ Em) as (_ & Hp & _). pose proof (Z.mod_pos_bound a 4096 ltac:(lia)). rewrite Hb; [done|lia|].
    intros ta Hta. apply (frame_apart T m (mkLoader al s b) (page_key a) pa p ta); done || lia.
Qed.
(** A byte of a mapped frame changed. *)
Lemma shows_poke T m al s b b' u a pa w p v : shows T m (mkLoader al s b) u -> 0 <= a < 2 ^ 47 -> m !! page_key a = Some (pa, p) -> u a = Some (w, p) ->
  bus_ok b' -> bus_size b' = bus_size b ->
  (forall x, 0 <= x -> bus_byte b' x = if decide (x = pa + a `mod` 4096) then v else bus_byte b x) -> shows T m (mkLoader al s b') (store_byte a v u).
Proof.
  intros [Hl Hu] Ha Em Hw Hok Hs Hb. pose proof Hl as [L1 L2 L3 L4 L5 L6 L7]. cbn [ld_allocator ld_space ld_bus] in *.
  destruct (L6 _ _ _ Em) as (Hpm & Hp & _). pose proof (Z.mod_pos_bound a 4096 ltac:(lia)) as Hoff.
  assert (Hrep : represents T s b' m).
  { apply (represents_frame T s b b' m L1 Hok Hs). intros ta x Hta Hx. destruct Hta as [[lv q] Hta].
    destruct (twf_table _ _ _ (rep_tables _ _ _ _ L1) _ _ _ Hta) as [[Hta0 _ _] _]. rewrite Hb, decide_False; [done| |lia].
    intros ->. apply (frame_apart T m (mkLoader al s b) (page_key a) pa p ta (pa + a mod 4096)); first [done|by eexists|lia]. }
  split.
  - split; cbn [ld_allocator ld_space ld_bus]; [done|done|by rewrite Hs|done|done|intros k pa1 p1 Hk; rewrite Hs; by apply (L6 k pa1 p1)|done].
  - intros x Hx. unfold store_byte, user_page. cbn [ld_bus]. rewrite <- Hu by done. unfold user_page. destruct (decide (x = a)) as [->|Hne].
    + rewrite Em. cbn. by rewrite Hb, decide_True by lia.
    + destruct (m !! page_key x) as [[pa' p']|] eqn:Ex; [|done]. cbn [fmap option_fmap option_map fst snd]. destruct (L6 _ _ _ Ex) as (_ & Hp' & _).
      pose proof (Z.mod_pos_bound x 4096 ltac:(lia)). rewrite Hb by lia. rewrite decide_False; [done|]. intros E. destruct (decide (page_key x = page_key a)) as [Hk|Hk].
      * rewrite Hk, Em in Ex. injection Ex as <- <-. rewrite !page_key_user in Hk by done.
        pose proof (Z.div_mod x 4096 ltac:(lia)). pose proof (Z.div_mod a 4096 ltac:(lia)). lia.
      * apply (frames_apart T m (mkLoader al s b) (page_key x) (page_key a) pa' pa p' p (pa' + x mod 4096)); done || lia.
Qed.
Lemma write_user_byte_spec T m l u a v : shows T m l u -> 0 <= a < 2 ^ 47 -> 0 <= v < 256 -> (exists w, u a = Some (w, user_rw)) ->
  exists l', write_user_byte a v l = (l', Ok tt) /\ shows T m l' (store_byte a v u) /\ ld_allocator l' = ld_allocator l /\ ld_space l' = ld_space l.
Proof.
  intros [Hl Hu] Ha Hv [w Hw]. destruct l as [al s b]. pose proof Hl as [L1 L2 L3 L4 L5 L6 L7]. cbn [ld_allocator ld_space ld_bus] in *.
  rewrite <- Hu in Hw by done. unfold user_page in Hw. destruct (m !! page_key a) as [[pa p]|] eqn:Em; [|done]. injection Hw as Hw ->.
  destruct (L6 _ _ _ Em) as (Hpm & Hp0 & Hpb & Hpf & Hpt & _). assert (Hau : u64 a) by (unfold u64; lia).
  destruct (own_paging_ok s (rep_root _ _ _ _ L1)) as (ps & Eps & Hcr & Hxd).
  destruct (translate_represents T s b m ps a AccessKind.WRITE Ring.RING3 L1 Hcr Hau) as (Hrep1 & Hseen & Hleaf).
  pose proof (translate_step T s b m ps a AccessKind.WRITE Ring.RING3 L1 Hcr) as Hst.
  unfold write_user_byte, on_ld_space, on_ld_bus, page_translation, zoom. munfold_goal. cbn [fst snd ld_allocator ld_space ld_bus]. rewrite Eps.
  destruct (translate ps a AccessKind.WRITE Ring.RING3 b) as [b1 r]. cbn [fst snd] in *.
  assert (Hcan : is_canonical_linear_address a = true) by (rewrite is_canonical_spec by done; apply bool_decide_true; lia).
  unfold access_outcome in Hseen. rewrite Hcan, Em in Hseen. cbn [negb] in Hseen.
  assert (Hna : access_fault ps user_rw AccessKind.WRITE Ring.RING3 = None) by (unfold access_fault; by rewrite Hxd).
  rewrite Hna in Hseen. destruct r as [t|e]; [|done]. cbn [seen] in Hseen. destruct (_ =? 4096); [|done]. injection Hseen as Evb Epf Epp.
  assert (Eadr : translation_translate t a = pa + a `mod` 4096).
  { unfold translation_translate. rewrite Evb, Epf. pose proof (Z.mod_pos_bound a 4096 ltac:(lia)). pose proof (rep_size _ _ _ _ L1). pose proof (Z.mod_le a 4096).
    rewrite sub64_small by lia. rewrite add64_small by lia. lia. }
  rewrite Eadr. pose proof (Z.mod_pos_bound a 4096 ltac:(lia)) as Hoff. pose proof (twf_bus _ _ _ (rep_tables _ _ _ _ Hrep1)) as Hok1.
  pose proof (st_size _ _ _ _ _ _ Hst) as Hs1.
  assert (Hshow1 : shows T m (mkLoader al s b1) u) by (apply (shows_tables T m al s b); [by split|done|done|apply (st_bytes _ _ _ _ _ _ Hst)]).
  destruct (bus_write_in b1 (pa + a mod 4096) Size.BYTE v Hok1) as (b2 & Ew & Hok2 & Hs2 & Hb2); [lia|done|cbn [size_bytes]; lia|].
  cbn [fst snd ld_allocator ld_space ld_bus]. rewrite (bus_write_M_Ok _ _ _ _ _ Ew). eexists. split; [reflexivity|]. split; [|done]. cbn [ld_allocator ld_space fst snd].
  apply (shows_poke T m al s b1 b2 u a pa w user_rw); try done.
  - rewrite <- Hu by done. unfold user_page. rewrite Em. cbn. by rewrite Hw.
  - intros x Hx. rewrite Hb2 by done. cbn [size_bytes]. case_decide as Hd; [rewrite decide_True by lia|by rewrite decide_False by lia].
    replace (x - (pa + a mod 4096)) with 0 by lia. by apply byte_of_small.
Qed.

(** ** The stack region *)

(** The bytes [R] from [bottom] on. *)
Definition stack_view (bottom : Z) (R : list Z) (u : UserMemory) : UserMemory := fun a =>
  if decide (bottom <= a < bottom + lenZ R) then Some (nthZ R (a - bottom), user_rw) else u a.
Definition same_objects l l' : Prop := ld_allocator l' = ld_allocator l /\ ld_space l' = ld_space l.

Lemma shows_ext T m l u u' : shows T m l u -> (forall a, 0 <= a < 2 ^ 47 -> u a = u' a) -> shows T m l u'.
Proof. intros [Hl Hu] He. split; [done|]. intros a Ha. by rewrite Hu, He. Qed.
Lemma store_stack bottom R u a v : bottom <= a < bottom + lenZ R ->
  forall x, store_byte a v (stack_view bottom R u) x = stack_view bottom (<[Z.to_nat (a - bottom) := v]> R) u x.
Proof.
  intros Ha x. unfold store_byte, stack_view. assert (El : lenZ (<[Z.to_nat (a - bottom) := v]> R) = lenZ R) by (unfold lenZ; by rewrite length_insert).
  rewrite El. destruct (decide (x = a)) as [->|Hne].
  - rewrite !decide_True by done. cbn. do 2 f_equal. rewrite nthZ_insert by lia. by rewrite decide_True.
  - destruct (decide (bottom <= x < bottom + lenZ R)); [|done]. do 2 f_equal. rewrite nthZ_insert by lia. by rewrite decide_False by lia.
Qed.
Lemma write_stack_byte T m l u bottom R a v : shows T m l (stack_view bottom R u) -> 0 <= bottom -> bottom + lenZ R <= 2 ^ 47 ->
  bottom <= a < bottom + lenZ R -> 0 <= v < 256 ->
  exists l', write_user_byte a v l = (l', Ok tt) /\ shows T m l' (stack_view bottom (<[Z.to_nat (a - bottom) := v]> R) u) /\ same_objects l l'.
Proof.
  intros Hs Hb Ht Ha Hv. destruct (write_user_byte_spec T m l _ a v Hs ltac:(lia) Hv) as (l' & E & Hs' & Hsame).
  { unfold stack_view. rewrite decide_True by done. by eexists. }
  exists l'. split; [done|]. split; [|done]. eapply shows_ext; [exact Hs'|]. intros x _. by apply store_stack.
Qed.
Lemma same_objects_trans l l1 l2 : same_objects l l1 -> same_objects l1 l2 -> same_objects l l2.
Proof. intros [] []. split; congruence. Qed.

Lemma splice_step off (w R : list Z) (i : nat) : 0 <= off -> off + lenZ w <= lenZ R -> (i < length w)%nat ->
  <[Z.to_nat (off + Z.of_nat i) := nthZ w (Z.of_nat i)]> (splice off (take i w) R) = splice off (take (S i) w) R.
Proof.
  intros Ho Hl Hi. unfold lenZ in *. rewrite (take_S_r w i (nthZ w (Z.of_nat i))).
  - rewrite splice_snoc; unfold lenZ; rewrite ?length_take; [|lia|lia]. by rewrite Nat.min_l by lia.
  - unfold nthZ. rewrite Nat2Z.id. by apply lookup_nth.
Qed.
Lemma write_loop_spec T m u bottom R va w : 0 <= bottom -> bottom + lenZ R <= 2 ^ 47 -> bottom <= va -> va + lenZ w <= bottom + lenZ R ->
  Forall (fun v => 0 <= v < 256) w -> forall (n i : nat) l, (i + n <= length w)%nat ->
  shows T m l (stack_view bottom (splice (va - bottom) (take i w) R) u) ->
  exists l', for_each (seqZ (Z.of_nat i) (Z.of_nat n)) (fun k => write_user_byte (add64 va k) (nthZ w k)) l = (l', Ok tt) /\
    shows T m l' (stack_view bottom (splice (va - bottom) (take (i + n) w) R) u) /\ same_objects l l'.
Proof.
  intros Hb Ht Hva Hw Hty. induction n as [|n IH]; intros i l Hi Hs.
  { exists l. rewrite Nat.add_0_r. by split. }
  rewrite seqZ_cons by lia. cbn [for_each]. munfold_goal.
  assert (Hlen : lenZ (splice (va - bottom) (take i w) R) = lenZ R).
  { apply splice_length; [lia|]. unfold lenZ in *. rewrite length_take. lia. }
  assert (Hin : (i < length w)%nat) by lia. assert (Hbyte : 0 <= nthZ w (Z.of_nat i) < 256).
  { rewrite Forall_forall in Hty. apply Hty. unfold nthZ. rewrite Nat2Z.id. apply list_elem_of_lookup. exists i. by apply lookup_nth. }
  assert (Hva64 : va + Z.of_nat i < W64) by (unfold lenZ in *; lia). rewrite add64_small by lia.
  destruct (write_stack_byte T m l u bottom _ (va + Z.of_nat i) (nthZ w (Z.of_nat i)) Hs Hb) as (l1 & E1 & Hs1 & Hsame1); [by rewrite Hlen|rewrite Hlen; unfold lenZ in *; lia|done|].
  rewrite E1. replace (va + Z.of_nat i - bottom) with (va - bottom + Z.of_nat i) in Hs1 by lia. rewrite splice_step in Hs1 by (unfold lenZ in *; lia).
  destruct (IH (S i) l1 ltac:(lia) Hs1) as (l2 & E2 & Hs2 & Hsame2). exists l2.
  replace (Z.pred (Z.of_nat (S n))) with (Z.of_nat n) by lia. replace (Z.succ (Z.of_nat i)) with (Z.of_nat (S i)) by lia.
  split; [exact E2|]. split; [by replace (i + S n)%nat with (S i + n)%nat by lia|]. by apply (same_objects_trans l l1).
Qed.
(** A run of bytes written in the region. *)
Lemma write_run_spec T m l u bottom R va w : shows T m l (stack_view bottom R u) -> 0 <= bottom -> bottom + lenZ R <= 2 ^ 47 ->
  bottom <= va -> va + lenZ w <= bottom + lenZ R -> Forall (fun v => 0 <= v < 256) w ->
  exists l', for_each (seqZ 0 (lenZ w)) (fun k => write_user_byte (add64 va k) (nthZ w k)) l = (l', Ok tt) /\
    shows T m l' (stack_view bottom (splice (va - bottom) w R) u) /\ same_objects l l'.
Proof.
  intros Hs Hb Ht Hva Hw Hty. destruct (write_loop_spec T m u bottom R va w Hb Ht Hva Hw Hty (length w) 0 l ltac:(lia)) as (l' & E & Hs' & Hsame).
  - replace (splice (va - bottom) (take 0 w) R) with R; [done|]. unfold splice. rewrite take_0. cbn [length app]. by rewrite Nat.add_0_r, take_drop.
  - exists l'. rewrite Nat.add_0_l, firstn_all in Hs'. done.
Qed.
Lemma splice_middle (A w Z0 C : list Z) : lenZ w <= lenZ Z0 -> splice (lenZ A) w (A ++ Z0 ++ C) = A ++ w ++ drop (length w) Z0 ++ C.
Proof.
  intros Hl. unfold splice, lenZ in *. rewrite Nat2Z.id, take_app_length. do 2 f_equal.
  rewrite drop_app_ge by lia. replace (length A + length w - length A)%nat with (length w) by lia. by rewrite drop_app_le by lia.
Qed.
Definition zeros (n : Z) : list Z := replicate (Z.to_nat n) 0.
Lemma zeros_length n : 0 <= n -> lenZ (zeros n) = n.
Proof. apply lenZ_replicate. Qed.
Lemma zeros_split n k : 0 <= k <= n -> zeros n = zeros k ++ zeros (n - k).
Proof. intros Hk. unfold zeros. rewrite <- replicate_add. f_equal. lia. Qed.
Lemma splice_zeros (A w C : list Z) n : lenZ w <= n -> splice (lenZ A) w (A ++ zeros n ++ C) = A ++ w ++ zeros (n - lenZ w) ++ C.
Proof.
  intros Hl. assert (Hw : 0 <= lenZ w) by (unfold lenZ; lia). rewrite splice_middle by (rewrite zeros_length; lia). do 2 f_equal.
  rewrite (zeros_split n (lenZ w)) by lia. replace (length w) with (length (zeros (lenZ w))); [by rewrite drop_app_length|].
  unfold zeros, lenZ. rewrite length_replicate. lia.
Qed.

(** ** The initial stack *)

Definition string_bytes (e : list Z) : list Z := e ++ [0].
Definition strings (es : list (list Z)) : list Z := concat (string_bytes <$> es).
(** The addresses of strings that lie one after the other from [a] on. *)
Fixpoint pointers_from (a : Z) (es : list (list Z)) : list Z :=
  match es with [] => [] | e :: rest => a :: pointers_from (a + lenZ e + 1) rest end.
Definition qwords (vs : list Z) : list Z := concat (le 8 <$> vs).
(** [cursor - bottom] zeros and then [C]: the region while the strings are written downwards. *)
Definition from_cursor (bottom cursor : Z) (C : list Z) : list Z := zeros (cursor - bottom) ++ C.

Lemma strings_app es fs : strings (es ++ fs) = strings es ++ strings fs.
Proof. unfold strings. by rewrite fmap_app, concat_app. Qed.
Lemma strings_one e : strings [e] = string_bytes e.
Proof. apply app_nil_r. Qed.
Lemma string_bytes_length e : lenZ (string_bytes e) = lenZ e + 1.
Proof. unfold string_bytes. by rewrite lenZ_app. Qed.
Lemma strings_snoc_length es e : lenZ (strings (es ++ [e])) = lenZ (strings es) + lenZ e + 1.
Proof. rewrite strings_app, lenZ_app, strings_one, string_bytes_length. lia. Qed.
Lemma pointers_from_snoc es e : forall a, pointers_from a (es ++ [e]) = pointers_from a es ++ [a + lenZ (strings es)].
Proof.
  induction es as [|f es IH]; intros a; cbn [pointers_from app]; [by rewrite Z.add_0_r|]. rewrite IH. f_equal. f_equal. f_equal.
  unfold strings. cbn [fmap list_fmap concat]. rewrite lenZ_app, string_bytes_length. lia.
Qed.
Lemma pointers_from_length es : forall a, length (pointers_from a es) = length es.
Proof. induction es as [|e es IH]; intros a; cbn; [done|by rewrite IH]. Qed.
Lemma stack_subtract_spec bottom cursor n : 0 <= bottom <= cursor -> cursor < W64 -> 0 <= n ->
  stack_subtract bottom cursor n = if decide (bottom <= cursor - n) then Some (cursor - n) else None.
Proof.
  intros Hb Hc Hn. unfold stack_subtract. rewrite (proj2 (Z.ltb_ge cursor bottom)) by lia. cbn [orb]. rewrite (sub64_small cursor bottom) by lia.
  destruct (Z.ltb_spec (cursor - bottom) n); [by rewrite decide_False by lia|]. rewrite decide_True by lia. by rewrite sub64_small by lia.
Qed.

Context (bottom : Z) (C : list Z) (u : UserMemory) (T : gmap Z (PageTableLevel * Z)) (m : PageMap).
Context (Hbottom : 0 <= bottom <= ADDRESS_LAYOUT_USER_STACK_TOP).
Implicit Types (cursor : Z).

(** A string is put below what is there. *)
Lemma write_c_string_spec l cursor e C' : shows T m l (stack_view bottom (from_cursor bottom cursor C') u) ->
  cursor + lenZ C' = ADDRESS_LAYOUT_USER_STACK_TOP -> bottom <= cursor - (lenZ e + 1) -> Forall (fun v => 0 <= v < 256) e ->
  exists l', write_user_c_string (cursor - (lenZ e + 1)) e l = (l', Ok tt) /\
    shows T m l' (stack_view bottom (from_cursor bottom (cursor - (lenZ e + 1)) (string_bytes e ++ C')) u) /\ same_objects l l'.
Proof.
  intros Hs Hc Hfit He. unfold ADDRESS_LAYOUT_USER_STACK_TOP in *. assert (Hlen : 0 <= lenZ e /\ 0 <= lenZ C') by (unfold lenZ; lia).
  set (va := cursor - (lenZ e + 1)) in *. set (A := zeros (va - bottom)). assert (HA : lenZ A = va - bottom) by (unfold A; rewrite zeros_length; lia).
  assert (HR : from_cursor bottom cursor C' = A ++ zeros (lenZ e + 1) ++ C').
  { unfold from_cursor, A. rewrite app_assoc. f_equal. rewrite (zeros_split (cursor - bottom) (va - bottom)) by lia. do 2 f_equal. unfold va. lia. }
  assert (HRl : lenZ (from_cursor bottom cursor C') = 0x700000000000 - bottom) by (rewrite HR, !lenZ_app, zeros_length, HA by lia; unfold va; lia).
  unfold write_user_c_string. munfold_goal.
  destruct (write_run_spec T m l u bottom _ va e Hs) as (l1 & E1 & Hs1 & Hsame1); [lia|lia|lia|lia|done|]. rewrite E1.
  replace (va - bottom) with (lenZ A) in Hs1 by lia. rewrite HR, splice_zeros in Hs1 by lia. replace (lenZ e + 1 - lenZ e) with 1 in Hs1 by lia. change (zeros 1) with [0] in Hs1.
  assert (Hl1 : lenZ (A ++ e ++ [0] ++ C') = 0x700000000000 - bottom) by (rewrite !lenZ_app, HA; change (lenZ [0]) with 1; unfold va; lia).
  rewrite add64_small by lia. destruct (write_stack_byte T m l1 u bottom _ (va + lenZ e) 0 Hs1) as (l2 & E2 & Hs2 & Hsame2); [lia|rewrite Hl1; lia|rewrite Hl1; lia|lia|].
  exists l2. split; [exact E2|]. split; [|by apply (same_objects_trans l l1)].
  enough (E : <[Z.to_nat (va + lenZ e - bottom) := 0]> (A ++ e ++ [0] ++ C') = from_cursor bottom va (string_bytes e ++ C')) by by rewrite E in Hs2.
  unfold from_cursor, string_bytes. fold A. rewrite <- !app_assoc. apply list_insert_id. unfold lenZ in *.
  rewrite lookup_app_r by lia. rewrite lookup_app_r by lia. by replace (Z.to_nat (va + Z.of_nat (length e) - bottom) - length A - length e)%nat with 0%nat by lia.
Qed.

(** All strings, the last one first. *)
Lemma write_strings_loop_spec entries : Forall (fun e => lenZ e < W64) entries -> Forall (Forall (fun v => 0 <= v < 256)) entries ->
  forall (i : nat) l cursor C' pointers, (i <= length entries)%nat -> length pointers = length entries ->
  shows T m l (stack_view bottom (from_cursor bottom cursor C') u) -> bottom <= cursor -> cursor + lenZ C' = ADDRESS_LAYOUT_USER_STACK_TOP ->
  let cursor' := cursor - lenZ (strings (take i entries)) in
  exists l' r, write_strings_loop entries bottom i cursor pointers l = (l', r) /\ same_objects l l' /\
    if decide (bottom <= cursor') then
      r = Ok (pointers_from cursor' (take i entries) ++ drop i pointers, cursor') /\
      shows T m l' (stack_view bottom (from_cursor bottom cursor' (strings (take i entries) ++ C')) u)
    else r = Throw length_error.
Proof.
  intros Hsz Hty. induction i as [|i IH]; intros l cursor C' pointers Hi Hp Hs Hb Hc cursor'.
  { exists l, (Ok (pointers, cursor)). unfold cursor'. change (strings (take 0 entries)) with (@nil Z). change (lenZ []) with 0. rewrite Z.sub_0_r, decide_True by done. done. }
  unfold ADDRESS_LAYOUT_USER_STACK_TOP in *. assert (HC : 0 <= lenZ C') by (unfold lenZ; lia).
  destruct (lookup_lt_is_Some_2 entries i ltac:(lia)) as [e He]. assert (Hnth : nth i entries [] = e) by by apply nth_lookup_Some.
  rewrite Forall_forall in Hsz, Hty. assert (Hin : e ∈ entries) by by eapply list_elem_of_lookup_2.
  assert (Hle : 0 <= lenZ e) by (unfold lenZ; lia). specialize (Hsz e Hin). specialize (Hty e Hin).
  unfold cursor'. rewrite (take_S_r entries i e He), strings_snoc_length, pointers_from_snoc.
  assert (Hst : 0 <= lenZ (strings (take i entries))) by (unfold lenZ; lia).
  cbn [write_strings_loop]. munfold_goal. rewrite Hnth. destruct (Z.eqb_spec (lenZ e) (W64 - 1)) as [Hmax|Hmax].
  { exists l, (Throw length_error). split; [done|]. split; [done|]. by rewrite decide_False by lia. }
  rewrite add64_small, stack_subtract_spec by lia. destruct (decide (bottom <= cursor - (lenZ e + 1))) as [Hfit|Hfit].
  2:{ exists l, (Throw length_error). split; [done|]. split; [done|]. by rewrite decide_False by lia. }
  destruct (write_c_string_spec l cursor e C' Hs Hc Hfit Hty) as (l1 & E1 & Hs1 & Hsame1). munfold_goal. rewrite E1.
  destruct (IH l1 (cursor - (lenZ e + 1)) (string_bytes e ++ C') (<[i := cursor - (lenZ e + 1)]> pointers)) as (l2 & r & E2 & Hsame2 & Hr);
    [lia|by rewrite length_insert|done|done|rewrite lenZ_app, string_bytes_length; lia|].
  exists l2, r. split; [exact E2|]. split; [by apply (same_objects_trans l l1)|].
  replace (cursor - (lenZ (strings (take i entries)) + lenZ e + 1)) with (cursor - (lenZ e + 1) - lenZ (strings (take i entries))) by lia.
  case_decide; [|done]. destruct Hr as [-> Hs2]. split.
  - do 2 f_equal. rewrite <- app_assoc. f_equal. rewrite (drop_S (<[i:=cursor - (lenZ e + 1)]> pointers) (cursor - (lenZ e + 1)) i) by (apply list_lookup_insert_eq; lia).
    rewrite drop_insert_lt by lia. cbn [app]. do 2 f_equal. lia.
  - rewrite strings_app, strings_one, <- app_assoc. exact Hs2.
Qed.

(** The table grows upwards into the zeros below the strings. *)
Lemma write_entry_spec l A n D cursor v : shows T m l (stack_view bottom (A ++ zeros n ++ D) u) -> cursor = bottom + lenZ A -> 8 <= n ->
  bottom + lenZ A + n + lenZ D = ADDRESS_LAYOUT_USER_STACK_TOP ->
  exists l', write_pointer_table_entry cursor v l = (l', Ok (cursor + 8)) /\ shows T m l' (stack_view bottom ((A ++ le 8 v) ++ zeros (n - 8) ++ D) u) /\ same_objects l l'.
Proof.
  intros Hs -> Hn Htop. unfold ADDRESS_LAYOUT_USER_STACK_TOP in *. assert (Hlen : 0 <= lenZ A /\ 0 <= lenZ D) by (unfold lenZ; lia).
  unfold write_pointer_table_entry, write_user_qword. munfold_goal. rewrite add64_small by lia.
  rewrite (for_each_ext _ _ (fun k => write_user_byte (add64 (bottom + lenZ A) k) (nthZ (le 8 v) k))).
  2:{ intros k s Hk%elem_of_seqZ. unfold le. by rewrite nthZ_fmap_seqZ by lia. }
  destruct (write_run_spec T m l u bottom _ (bottom + lenZ A) (le 8 v) Hs) as (l' & E & Hs' & Hsame);
    [lia|rewrite !lenZ_app, zeros_length by lia; lia|lia|rewrite !lenZ_app, zeros_length, le_length by lia; lia| |].
  { unfold le. apply Forall_fmap, Forall_forall. intros k _. apply byte_of_range. }
  rewrite le_length in E by lia. rewrite E. exists l'. split; [done|]. split; [|done].
  replace (bottom + lenZ A - bottom) with (lenZ A) in Hs' by lia. rewrite splice_zeros, le_length in Hs' by (rewrite ?le_length; lia). by rewrite <- app_assoc.
Qed.
Lemma write_array_spec ps : forall l A n D cursor, shows T m l (stack_view bottom (A ++ zeros n ++ D) u) -> cursor = bottom + lenZ A -> 8 * lenZ ps <= n ->
  bottom + lenZ A + n + lenZ D = ADDRESS_LAYOUT_USER_STACK_TOP ->
  exists l', write_pointer_array cursor ps l = (l', Ok (cursor + 8 * lenZ ps)) /\
    shows T m l' (stack_view bottom ((A ++ qwords ps) ++ zeros (n - 8 * lenZ ps) ++ D) u) /\ same_objects l l'.
Proof.
  induction ps as [|p ps IH]; intros l A n D cursor Hs Hc Hn Htop.
  - exists l. change (lenZ []) with 0. change (qwords []) with (@nil Z). rewrite app_nil_r, Z.mul_0_r, Z.add_0_r, Z.sub_0_r. done.
  - assert (Hl : lenZ (p :: ps) = lenZ ps + 1) by (unfold lenZ; cbn [length]; lia). assert (Hl0 : 0 <= lenZ ps) by (unfold lenZ; lia). rewrite Hl in *.
    cbn [write_pointer_array]. munfold_goal. destruct (write_entry_spec l A n D cursor p Hs Hc ltac:(lia) Htop) as (l1 & E1 & Hs1 & Hsame1). rewrite E1.
    assert (H8 : lenZ (A ++ le 8 p) = lenZ A + 8) by by rewrite lenZ_app, le_length.
    destruct (IH l1 (A ++ le 8 p) (n - 8) D (cursor + 8) Hs1) as (l2 & E2 & Hs2 & Hsame2); [lia|lia|lia|]. exists l2.
    replace (cursor + 8 * (lenZ ps + 1)) with (cursor + 8 + 8 * lenZ ps) by lia. split; [exact E2|]. split; [|by apply (same_objects_trans l l1)].
    replace (n - 8 * (lenZ ps + 1)) with (n - 8 - 8 * lenZ ps) by lia. change (qwords (p :: ps)) with (le 8 p ++ qwords ps). rewrite (app_assoc A). exact Hs2.
Qed.
End user_memory.

(** What the stack holds from the initial stack pointer up to the top of the user space: the number of
    arguments, the pointers to the arguments and a null pointer, the pointers to the environment and a
    null pointer, padding, and the strings. *)
Definition argument_strings (a : UserProgramArguments) : list Z := strings (arguments a) ++ strings (environment a).
Definition raw_frame_start (a : UserProgramArguments) : Z :=
  ADDRESS_LAYOUT_USER_STACK_TOP - lenZ (argument_strings a) - 8 * (argument_count a + environment_count a + 3).
Definition frame_start_of (a : UserProgramArguments) : Z := raw_frame_start a - raw_frame_start a `mod` 16.
Definition argument_pointers (a : UserProgramArguments) : list Z :=
  pointers_from (ADDRESS_LAYOUT_USER_STACK_TOP - lenZ (argument_strings a)) (arguments a).
Definition environment_pointers (a : UserProgramArguments) : list Z :=
  pointers_from (ADDRESS_LAYOUT_USER_STACK_TOP - lenZ (strings (environment a))) (environment a).
Definition stack_image (a : UserProgramArguments) : list Z :=
  le 8 (argument_count a) ++ qwords (argument_pointers a) ++ le 8 0 ++ qwords (environment_pointers a) ++ le 8 0 ++
  zeros (raw_frame_start a `mod` 16) ++ argument_strings a.

Lemma strings_count es : lenZ es <= lenZ (strings es).
Proof.
  induction es as [|e es IH]; [done|]. change (strings (e :: es)) with (string_bytes e ++ strings es). rewrite lenZ_app, string_bytes_length.
  unfold lenZ in *. cbn [length]. lia.
Qed.
Lemma qwords_length ps : lenZ (qwords ps) = 8 * lenZ ps.
Proof.
  induction ps as [|p ps IH]; [done|]. change (qwords (p :: ps)) with (le 8 p ++ qwords ps). rewrite lenZ_app, le_length, IH by lia. unfold lenZ. cbn [length]. lia.
Qed.
Lemma pointer_lengths a : lenZ (argument_pointers a) = argument_count a /\ lenZ (environment_pointers a) = environment_count a.
Proof. unfold argument_pointers, environment_pointers, argument_count, environment_count, lenZ. by rewrite !pointers_from_length. Qed.
Lemma table_bytes_spec n k : 0 <= n < 2 ^ 47 -> 0 <= k < 2 ^ 47 -> pointer_table_byte_count n k = Ok (8 * (n + k + 3)).
Proof.
  intros Hn Hk. unfold pointer_table_byte_count, throw_when. munfold_goal. rewrite sub64_small, (proj2 (Z.ltb_ge _ _)) by lia.
  rewrite (add64_small n k), (proj2 (Z.ltb_ge _ _)) by lia. rewrite add64_small by lia. change ((W64 - 1) / 8) with 2305843009213693951.
  rewrite (proj2 (Z.ltb_ge _ _)) by lia. unfold mul64. rewrite wrap64_small by (unfold u64; lia). f_equal. lia.
Qed.
Definition strings_ok (es : list (list Z)) : Prop := Forall (fun e => lenZ e < W64) es /\ Forall (Forall (fun v => 0 <= v < 256)) es.

Section initial_stack.
Context {B : Type} `{MemoryBusLaws B}.

Ltac lengths := rewrite ?lenZ_app, ?qwords_length, ?le_length; try lia.
Lemma write_table_spec T m (l : Loader B) u bottom a :
  shows T m l (stack_view bottom (zeros (frame_start_of a - bottom) ++ zeros (ADDRESS_LAYOUT_USER_STACK_TOP - lenZ (argument_strings a) - frame_start_of a) ++ argument_strings a) u) ->
  0 <= bottom -> bottom <= frame_start_of a ->
  exists l', (write_pointer_table_entry (frame_start_of a) (argument_count a) ≫= fun table_cursor =>
      write_pointer_array table_cursor (argument_pointers a) ≫= fun table_cursor =>
      write_pointer_table_entry table_cursor 0 ≫= fun table_cursor =>
      write_pointer_array table_cursor (environment_pointers a) ≫= fun table_cursor =>
      write_pointer_table_entry table_cursor 0 ≫= fun _ =>
      mret (frame_start_of a)) l = (l', Ok (frame_start_of a)) /\
    shows T m l' (stack_view bottom (zeros (frame_start_of a - bottom) ++ stack_image a) u) /\ same_objects l l'.
Proof.
  intros Hs Hb Hf. unfold ADDRESS_LAYOUT_USER_STACK_TOP in *. destruct (pointer_lengths a) as [Hpa Hpe].
  assert (Hnn : 0 <= argument_count a /\ 0 <= environment_count a /\ 0 <= lenZ (argument_strings a)) by (unfold argument_count, environment_count, lenZ; lia).
  pose proof (Z.mod_pos_bound (raw_frame_start a) 16 ltac:(lia)) as Hpad. set (pad := raw_frame_start a `mod` 16) in *.
  set (n := 0x700000000000 - lenZ (argument_strings a) - frame_start_of a) in *. set (D := argument_strings a) in *.
  assert (Hn : n = 8 * (argument_count a + environment_count a + 3) + pad).
  { unfold n, frame_start_of, pad. fold pad. unfold raw_frame_start, ADDRESS_LAYOUT_USER_STACK_TOP. fold D. lia. }
  set (A0 := zeros (frame_start_of a - bottom)) in *. assert (HA0 : lenZ A0 = frame_start_of a - bottom) by (apply zeros_length; lia). munfold_goal.
  destruct (write_entry_spec bottom u T m ltac:(unfold ADDRESS_LAYOUT_USER_STACK_TOP; lia) l A0 n D (frame_start_of a) (argument_count a) Hs) as (l1 & E1 & Hs1 & Hsame1);
    [lia|lia|unfold ADDRESS_LAYOUT_USER_STACK_TOP; lia|]. rewrite E1.
  destruct (write_array_spec bottom u T m ltac:(unfold ADDRESS_LAYOUT_USER_STACK_TOP; lia) (argument_pointers a) l1 _ (n - 8) D (frame_start_of a + 8) Hs1) as (l2 & E2 & Hs2 & Hsame2);
    [lengths|lia|unfold ADDRESS_LAYOUT_USER_STACK_TOP; lengths|]. rewrite E2.
  destruct (write_entry_spec bottom u T m ltac:(unfold ADDRESS_LAYOUT_USER_STACK_TOP; lia) l2 _ (n - 8 - 8 * lenZ (argument_pointers a)) D (frame_start_of a + 8 + 8 * lenZ (argument_pointers a)) 0 Hs2) as (l3 & E3 & Hs3 & Hsame3);
    [lengths|lia|unfold ADDRESS_LAYOUT_USER_STACK_TOP; lengths|]. rewrite E3.
  destruct (write_array_spec bottom u T m ltac:(unfold ADDRESS_LAYOUT_USER_STACK_TOP; lia) (environment_pointers a) l3 _ (n - 8 - 8 * lenZ (argument_pointers a) - 8) D
    (frame_start_of a + 8 + 8 * lenZ (argument_pointers a) + 8) Hs3) as (l4 & E4 & Hs4 & Hsame4); [lengths|lia|unfold ADDRESS_LAYOUT_USER_STACK_TOP; lengths|]. rewrite E4.
  destruct (write_entry_spec bottom u T m ltac:(unfold ADDRESS_LAYOUT_USER_STACK_TOP; lia) l4 _ (n - 8 - 8 * lenZ (argument_pointers a) - 8 - 8 * lenZ (environment_pointers a)) D
    (frame_start_of a + 8 + 8 * lenZ (argument_pointers a) + 8 + 8 * lenZ (environment_pointers a)) 0 Hs4) as (l5 & E5 & Hs5 & Hsame5); [lengths|lia|unfold ADDRESS_LAYOUT_USER_STACK_TOP; lengths|]. rewrite E5.
  exists l5. split; [done|]. split; [|by repeat (eapply same_objects_trans; [eassumption|])].
  replace (n - 8 - 8 * lenZ (argument_pointers a) - 8 - 8 * lenZ (environment_pointers a) - 8) with pad in Hs5 by lia.
  unfold stack_image. rewrite <- !app_assoc in Hs5. exact Hs5.
Qed.
Lemma write_stack_spec T m (l : Loader B) u bottom a : 0 <= bottom <= ADDRESS_LAYOUT_USER_STACK_TOP -> strings_ok (arguments a) -> strings_ok (environment a) ->
  shows T m l (stack_view bottom (zeros (ADDRESS_LAYOUT_USER_STACK_TOP - bottom)) u) ->
  exists l' r, write_initial_user_stack bottom a l = (l', r) /\ same_objects l l' /\
    if decide (bottom <= frame_start_of a) then
      r = Ok (frame_start_of a) /\ shows T m l' (stack_view bottom (zeros (frame_start_of a - bottom) ++ stack_image a) u)
    else r = Throw length_error.
Proof.
  intros Hb [Ha1 Ha2] [He1 He2] Hs. pose proof (strings_count (arguments a)) as Hca. pose proof (strings_count (environment a)) as Hce.
  assert (Hnn : 0 <= lenZ (arguments a) /\ 0 <= lenZ (environment a)) by (unfold lenZ; lia). unfold ADDRESS_LAYOUT_USER_STACK_TOP in *.
  assert (Hfr : frame_start_of a <= raw_frame_start a /\ raw_frame_start a - frame_start_of a = raw_frame_start a `mod` 16 /\ 0 <= raw_frame_start a `mod` 16 < 16).
  { unfold frame_start_of. pose proof (Z.mod_pos_bound (raw_frame_start a) 16 ltac:(lia)). lia. }
  assert (Hraw : raw_frame_start a = 0x700000000000 - lenZ (strings (environment a)) - lenZ (strings (arguments a)) - 8 * (argument_count a + environment_count a + 3)).
  { unfold raw_frame_start, argument_strings, ADDRESS_LAYOUT_USER_STACK_TOP. rewrite lenZ_app. lia. }
  unfold argument_count, environment_count in Hraw. unfold write_initial_user_stack, write_user_strings, ADDRESS_LAYOUT_USER_STACK_TOP. munfold_goal.
  destruct (write_strings_loop_spec bottom u T m Hb (environment a) He1 He2 (length (environment a)) l 0x700000000000 [] (replicate (length (environment a)) 0))
    as (l1 & r1 & E1 & Hsame1 & Hr1); [lia|by rewrite length_replicate|by unfold from_cursor; rewrite app_nil_r|lia|done|]. rewrite E1. rewrite firstn_all in Hr1.
  destruct (decide (bottom <= 0x700000000000 - lenZ (strings (environment a)))) as [Hf1|Hf1].
  2:{ rewrite Hr1. exists l1, (Throw length_error). split; [done|]. split; [done|]. by rewrite decide_False by lia. }
  destruct Hr1 as [-> Hs1]. rewrite drop_replicate, Nat.sub_diag, !app_nil_r in *.
  destruct (write_strings_loop_spec bottom u T m Hb (arguments a) Ha1 Ha2 (length (arguments a)) l1 _ _ (replicate (length (arguments a)) 0) ltac:(lia) ltac:(by rewrite length_replicate) Hs1 Hf1)
    as (l2 & r2 & E2 & Hsame2 & Hr2); [unfold ADDRESS_LAYOUT_USER_STACK_TOP; lia|]. rewrite E2. rewrite firstn_all in Hr2.
  destruct (decide (bottom <= 0x700000000000 - lenZ (strings (environment a)) - lenZ (strings (arguments a)))) as [Hf2|Hf2].
  2:{ rewrite Hr2. exists l2, (Throw length_error). split; [done|]. split; [by apply (same_objects_trans l l1)|]. by rewrite decide_False by lia. }
  destruct Hr2 as [-> Hs2]. rewrite drop_replicate, Nat.sub_diag, !app_nil_r in *. unfold argument_count, environment_count. rewrite table_bytes_spec by lia.
  assert (Hsame12 : same_objects l l2) by by apply (same_objects_trans l l1). rewrite stack_subtract_spec by lia.
  rewrite <- Hraw. destruct (decide (bottom <= raw_frame_start a)) as [Hf3|Hf3].
  2:{ exists l2, (Throw length_error). split; [done|]. split; [done|]. by rewrite decide_False by lia. }
  unfold align_down_to_user_stack_alignment. pose proof (Z.mod_le (raw_frame_start a) 16 ltac:(lia) ltac:(lia)). rewrite sub64_small by lia. fold (frame_start_of a).
  destruct (Z.ltb_spec (frame_start_of a) bottom) as [Hf4|Hf4].
  { exists l2, (Throw length_error). split; [done|]. split; [done|]. by rewrite decide_False by lia. }
  set (strs := strings (arguments a) ++ strings (environment a)) in *. assert (Hstrs : lenZ strs = lenZ (strings (arguments a)) + lenZ (strings (environment a))) by (unfold strs; by rewrite lenZ_app).
  assert (Hs3 : shows T m l2 (stack_view bottom (zeros (frame_start_of a - bottom) ++ zeros (0x700000000000 - lenZ strs - frame_start_of a) ++ strs) u)).
  { unfold from_cursor in Hs2. rewrite (zeros_split _ (frame_start_of a - bottom)), <- app_assoc in Hs2 by lia.
    replace (0x700000000000 - lenZ strs - frame_start_of a) with (0x700000000000 - lenZ (strings (environment a)) - lenZ (strings (arguments a)) - bottom - (frame_start_of a - bottom)) by lia. exact Hs2. }
  destruct (write_table_spec T m l2 u bottom a Hs3) as (l3 & E3 & Hs4 & Hsame3); [lia|lia|]. unfold ADDRESS_LAYOUT_USER_STACK_TOP in E3.
  exists l3, (Ok (frame_start_of a)). rewrite decide_True by lia. split; [|split; [by apply (same_objects_trans l l2)|done]].
  rewrite <- E3. unfold argument_pointers, environment_pointers, argument_strings, ADDRESS_LAYOUT_USER_STACK_TOP. fold strs. rewrite Hstrs.
  replace (0x700000000000 - lenZ (strings (environment a)) - lenZ (strings (arguments a))) with (0x700000000000 - (lenZ (strings (arguments a)) + lenZ (strings (environment a)))) by lia.
  reflexivity.
Qed.
End initial_stack.

(** ** Loading pages *)

Section loading_pages.
Context {B : Type} `{MemoryBusLaws B}.

(** A loop on the bus alone. *)
Lemma on_bus_loop al s (xs : list Z) (body : Z -> M B unit) (b b' : B) r : for_each xs body b = (b', r) ->
  for_each xs (fun k => on_ld_bus (body k)) (mkLoader al s b) = (mkLoader al s b', r).
Proof.
  revert b. induction xs as [|x xs IH]; intros b E; cbn [for_each] in *; munfold; [by injection E as <- <-|].
  unfold on_ld_bus at 1, zoom. cbn [ld_bus ld_allocator ld_space]. destruct (body x b) as [b1 [[]|e]]; [by apply IH|by injection E as <- <-].
Qed.
Implicit Types (b : B) (T : gmap Z (PageTableLevel * Z)) (m : PageMap) (l : Loader B).

(** A page of the loader's own that is not mapped yet. *)
Record fresh_page T m l (pa : Z) : Prop := {
  fp_range : pa `mod` 4096 = 0 /\ 0 <= pa /\ pa + 4096 <= bus_size (ld_bus l);
  fp_taken : ~ is_free (ld_allocator l) (pa / 4096);
  fp_table : T !! pa = None;
  fp_arena : ~ (space_next (ld_space l) <= pa < space_end (ld_space l));
  fp_unmapped k p : m !! k <> Some (pa, p);
}.
Definition range_view (base size : Z) (f : Z -> Z) (p : PagePermissions) (u : UserMemory) : UserMemory := fun a =>
  if decide (base <= a < base + size) then Some (f (a - base), p) else u a.

Lemma free_index a : alloc_wf a -> 0 < free_page_count a -> exists i, is_free a i.
Proof.
  intros Hwf Hc. rewrite (aw_count a Hwf) in Hc. destruct (decide (Exists (fun x => x = 0) (allocated_pages a))) as [He|Hn].
  - apply Exists_exists in He as (x & Hx & ->). destruct (elem_nthZ _ _ Hx) as (i & Hi & Hz). rewrite (aw_length a Hwf) in Hi.
    exists i. split; [done|]. unfold is_page_index_allocated. by rewrite Hz.
  - rewrite count_zero in Hc; [lia|]. intros x Hx Hz. apply Hn, Exists_exists. by exists x.
Qed.
Lemma take_counted_page a : alloc_wf a -> 0 < free_page_count a -> exists a' pa, allocate_page a = (a', Ok pa) /\ alloc_wf a' /\
  total_page_count a' = total_page_count a /\ free_page_count a' = free_page_count a - 1 /\ pa `mod` 4096 = 0 /\ is_free a (pa / 4096) /\
  forall j, is_free a' j <-> is_free a j /\ j <> pa / 4096.
Proof.
  intros Hwf Hc. destruct (free_index a Hwf Hc) as [i Hi]. destruct (take_page a i Hwf Hi) as (a' & pa & E & Hwf' & Ht & Hm & Hf & Hj).
  exists a', pa. split_and!; try done. unfold allocate_page in E. destruct (allocate_contiguous_first_fit a 1 a' _ Hwf ltac:(lia) E) as (_ & _ & st & _ & _ & _ & _ & _ & Hn). done.
Qed.
(** Bytes of a page of the loader's own may change. *)
Lemma poke_fresh T m al s b b' u pa : shows T m (mkLoader al s b) u -> fresh_page T m (mkLoader al s b) pa -> bus_ok b' -> bus_size b' = bus_size b ->
  (forall x, 0 <= x -> ~ (pa <= x < pa + 4096) -> bus_byte b' x = bus_byte b x) ->
  shows T m (mkLoader al s b') u /\ fresh_page T m (mkLoader al s b') pa.
Proof.
  intros [Hl Hu] [(F1 & F1' & F1'') F2 F3 F4 F5] Hok Hs Hb. pose proof Hl as [L1 L2 L3 L4 L5 L6 L7]. cbn [ld_allocator ld_space ld_bus] in *.
  assert (Hrep : represents T s b' m).
  { apply (represents_frame T s b b' m L1 Hok Hs). intros ta x [[lv q] Hta] Hx.
    destruct (twf_table _ _ _ (rep_tables _ _ _ _ L1) _ _ _ Hta) as [[Hta0 Hta1 _] _]. apply Hb; [lia|]. intros Hin.
    assert (pa = ta) as ->; [|congruence]. pose proof (Z.div_mod pa 4096 ltac:(lia)). pose proof (Z.div_mod ta 4096 ltac:(lia)). lia. }
  split; [split|].
  - split; cbn [ld_allocator ld_space ld_bus]; [done|done|by rewrite Hs|done|done|intros k pa1 p1 Hk; rewrite Hs; by apply (L6 k pa1 p1)|done].
  - intros a Ha. rewrite <- Hu by done. cbn [ld_bus]. unfold user_page. destruct (m !! page_key a) as [[pa1 p1]|] eqn:Em; [|done]. cbn [fmap option_fmap option_map fst snd].
    destruct (L6 _ _ _ Em) as (Hm1 & Hp1 & _). pose proof (Z.mod_pos_bound a 4096 ltac:(lia)). rewrite Hb; [done|lia|].
    intros Hin. apply (F5 (page_key a) p1). assert (pa1 = pa) as <-; [|done]. pose proof (Z.div_mod pa 4096 ltac:(lia)). pose proof (Z.div_mod pa1 4096 ltac:(lia)). lia.
  - split; cbn [ld_allocator ld_space ld_bus]; try done. by rewrite Hs.
Qed.
Lemma allocate_zeroed_spec T m l u : shows T m l u -> 0 < free_page_count (ld_allocator l) -> exists l' pa, allocate_zeroed_page l = (l', Ok pa) /\
  shows T m l' u /\ fresh_page T m l' pa /\ (forall x, pa <= x < pa + 4096 -> bus_byte (ld_bus l') x = 0) /\ ld_space l' = ld_space l /\
  free_page_count (ld_allocator l') = free_page_count (ld_allocator l) - 1 /\ bus_size (ld_bus l') = bus_size (ld_bus l).
Proof.
  intros [Hl Hu] Hc. destruct l as [al s b]. pose proof Hl as [L1 L2 L3 L4 L5 L6 L7]. cbn [ld_allocator ld_space ld_bus] in *.
  destruct (take_counted_page al L2 Hc) as (al' & pa & Ea & Hwf & Ht & Hn & Hm & Hf & Hj). pose proof (proj1 Hf) as Hpr. pose proof (Z.div_mod pa 4096 ltac:(lia)).
  assert (Hl' : shows T m (mkLoader al' s b) u).
  { split; [|done]. split; cbn [ld_allocator ld_space ld_bus]; [done|done|by rewrite Ht| | | |done].
    - intros ta Hta. rewrite Hj. intros [Hx _]. by apply (L4 ta).
    - intros i Hi. rewrite Hj. intros [Hx _]. by apply (L5 i).
    - intros k pa1 p1 Hk. destruct (L6 k pa1 p1 Hk) as (? & ? & ? & Hnf & ? & ?). split_and!; try done. rewrite Hj. tauto. }
  assert (Hfp : fresh_page T m (mkLoader al' s b) pa).
  { split; cbn [ld_allocator ld_space ld_bus]; [lia|rewrite Hj; tauto| | |].
    - destruct (T !! pa) eqn:Et; [|done]. exfalso. apply (L4 pa); [by eexists|done].
    - intros Hin. apply (L5 (pa / 4096)); [lia|done].
    - intros k p Hk. destruct (L6 k pa p Hk) as (_ & _ & _ & Hnf & _). done. }
  pose proof (zero_page_spec b pa (twf_bus _ _ _ (rep_tables _ _ _ _ L1))) as (b' & Ez & Hok & Hs & Hz & Hb); [split; lia|].
  destruct (poke_fresh T m al' s b b' u pa Hl' Hfp Hok Hs Hb) as [Hl2 Hf2]. exists (mkLoader al' s b'), pa. split_and!; try done.
  unfold allocate_zeroed_page, on_ld_allocator, zoom. munfold_goal. cbn [ld_allocator ld_space ld_bus]. rewrite Ea.
  assert (Ez' : zero_user_page pa (mkLoader al' s b) = (mkLoader al' s b', Ok tt)).
  { apply (on_bus_loop al' s). exact Ez. }
  by rewrite Ez'.
Qed.

(** The bytes of the page at [pa] are [f]. *)
Definition page_holds b (pa : Z) (f : Z -> Z) : Prop := forall i, 0 <= i < 4096 -> bus_byte b (pa + i) = f i.
Lemma copy_loop_bytes pa (g : Z -> Z) (n : nat) : forall b, bus_ok b -> 0 <= pa -> pa + Z.of_nat n <= bus_size b -> bus_size b <= 2 ^ 52 ->
  (forall i, 0 <= i < Z.of_nat n -> 0 <= g i < 256) ->
  exists b', for_each (seqZ 0 (Z.of_nat n)) (fun k => bus_write_M (add64 pa k) Size.BYTE (g k)) b = (b', Ok tt) /\ bus_ok b' /\ bus_size b' = bus_size b /\
    forall x, 0 <= x -> bus_byte b' x = if decide (pa <= x < pa + Z.of_nat n) then g (x - pa) else bus_byte b x.
Proof.
  induction n as [|n IH]; intros b Hok Hpa Hn Hsz Hg.
  { exists b. split; [done|]. split; [done|]. split; [done|]. intros x Hx. by rewrite decide_False by lia. }
  destruct (IH b Hok Hpa ltac:(lia) Hsz ltac:(intros; apply Hg; lia)) as (b1 & E1 & Hok1 & Hs1 & Hb1).
  rewrite seqZ_S, for_each_app. munfold_goal. rewrite E1. cbn [for_each]. munfold_goal. rewrite add64_small by lia. rewrite Z.add_0_l.
  destruct (bus_write_in b1 (pa + Z.of_nat n) Size.BYTE (g (Z.of_nat n)) Hok1) as (b2 & Ew & Hok2 & Hs2 & Hb2); [lia|done|cbn [size_bytes]; lia|].
  rewrite (bus_write_M_Ok _ _ _ _ _ Ew). exists b2. split; [done|]. split; [done|]. split; [congruence|]. intros x Hx. rewrite Hb2 by done. cbn [size_bytes].
  destruct (decide (pa + Z.of_nat n <= x < pa + Z.of_nat n + 1)) as [Hin|Hin].
  - rewrite decide_True by lia. assert (x = pa + Z.of_nat n) as -> by lia. rewrite Z.sub_diag, byte_of_small by (apply Hg; lia). f_equal. lia.
  - rewrite Hb1 by done. destruct (decide (pa <= x < pa + Z.of_nat n)); [by rewrite decide_True by lia|by rewrite decide_False by lia].
Qed.
Lemma copy_segment_spec T m l u pa seg offset : shows T m l u -> fresh_page T m l pa -> page_holds (ld_bus l) pa (fun _ => 0) -> 0 <= offset ->
  Forall (fun v => 0 <= v < 256) (segment_bytes seg) -> lenZ (segment_bytes seg) < W64 ->
  exists l', copy_segment_page seg offset pa l = (l', Ok tt) /\ shows T m l' u /\ fresh_page T m l' pa /\
    page_holds (ld_bus l') pa (fun i => nthZ (segment_bytes seg) (offset + i)) /\ same_objects l l' /\ bus_size (ld_bus l') = bus_size (ld_bus l).
Proof.
  intros Hs Hf Hz Ho Hty Hlen. assert (Hout : forall i, lenZ (segment_bytes seg) <= i -> nthZ (segment_bytes seg) i = 0) by (intros i Hi; apply nth_overflow; unfold lenZ in Hi; lia).
  unfold copy_segment_page. destruct (Z.leb_spec (lenZ (segment_bytes seg)) offset) as [Hle|Hgt].
  { exists l. split; [done|]. split; [done|]. split; [done|]. split; [|done]. intros i Hi. rewrite Hz, Hout by lia. done. }
  rewrite sub64_small by lia. change MM_PAGE_SIZE_BYTES with 4096. set (n := Z.min 4096 (lenZ (segment_bytes seg) - offset)). assert (Hn : 0 <= n <= 4096) by lia.
  destruct l as [al s b]. pose proof Hs as [Hl _]. pose proof (rep_size _ _ _ _ (lo_space _ _ _ Hl)) as H52. pose proof (twf_bus _ _ _ (rep_tables _ _ _ _ (lo_space _ _ _ Hl))) as Hok.
  destruct (fp_range _ _ _ _ Hf) as (Hpm & Hp0 & Hpin). cbn [ld_bus] in *. destruct (copy_loop_bytes pa (fun k => nthZ (segment_bytes seg) (offset + k)) (Z.to_nat n) b Hok Hp0) as (b' & E & Hok' & Hs' & Hb'); [lia|done| |].
  { intros i Hi. rewrite Forall_forall in Hty. apply Hty. unfold nthZ. apply list_elem_of_lookup. exists (Z.to_nat (offset + i)). apply lookup_nth. unfold lenZ in *. lia. }
  rewrite Z2Nat.id in E, Hb' by lia. destruct (poke_fresh T m al s b b' u pa Hs Hf Hok' Hs') as [Hs2 Hf2].
  { intros x Hx Hxo. rewrite Hb' by done. by rewrite decide_False by lia. }
  exists (mkLoader al s b'). split; [by apply (on_bus_loop al s)|]. split; [done|]. split; [done|]. split; [|done]. intros i Hi. cbn [ld_bus]. rewrite Hb' by lia. case_decide as Hd.
  - f_equal. lia.
  - rewrite Hz, Hout by lia. done.
Qed.
(** The tables a page at [va] takes: none when the process already sees something in the 2 MiB around it. *)
Definition near_user (u : UserMemory) (va : Z) : Prop := exists a, 0 <= a < 2 ^ 47 /\ u a <> None /\ a / 2 ^ 21 = va / 2 ^ 21.
Definition tables_for (u : UserMemory) (va c : Z) : Prop := c = 3 \/ c = 0 /\ near_user u va.
Lemma near_user_near T m l u va : shows T m l u -> 0 <= va < 2 ^ 47 -> near_user u va -> near m va.
Proof.
  intros [_ Hu] Hva (a & Ha & Hn & Hk). exists a. rewrite <- Hu in Hn by done. unfold user_page in Hn. split.
  - destruct (m !! page_key a); [by eexists|done].
  - unfold entry_key. rewrite !Z.mod_small by lia. exact Hk.
Qed.
(** A filled page is mapped. *)
Lemma map_fresh_spec T m l u pa va p f k c : shows T m l u -> fresh_page T m l pa -> page_holds (ld_bus l) pa f -> 0 <= va -> va + 4096 <= 2 ^ 47 -> va `mod` 4096 = 0 ->
  0 <= k -> tables_for u va c -> room (k + c) (builder_of (ld_space l)) (ld_bus l) ->
  exists T' m' l', on_ld_space (map_page va pa p) l = (l', Ok tt) /\ shows T' m' l' (range_view va 4096 f p u) /\ ld_allocator l' = ld_allocator l /\
    room k (builder_of (ld_space l')) (ld_bus l').
Proof.
  intros Hsh [(Hpm & Hp0 & Hpin) F2 F3 F4 F5] Hh Hva0 Hva Hvm Hk Hc Hroom. pose proof Hsh as [Hl Hu]. destruct l as [al s b]. pose proof Hl as [L1 L2 L3 L4 L5 L6 L7]. cbn [ld_allocator ld_space ld_bus] in *.
  pose proof (rep_size _ _ _ _ L1) as H52. assert (Hpu : u64 pa) by (unfold u64; lia). assert (Hvu : u64 va) by (unfold u64; lia).
  assert (Hmap : exists s' b', map_page va pa p (s, b) = ((s', b'), Ok tt) /\ room k (builder_of s') b').
  { destruct Hc as [->|[-> Hn]]; [exact (map_page_total T s b m va pa p k L1 Hvu Hpu ltac:(lia) Hvm Hpm Hk Hroom)|]. rewrite Z.add_0_r in Hroom.
    apply (map_page_near T s b m); try done. apply (near_user_near T m (mkLoader al s b) u); [done|lia|done]. }
  destruct Hmap as (s' & b' & E & Hroom').
  destruct (map_page_represents T s b m va pa p s' b' L1 Hvu Hpu ltac:(lia) E) as (T' & L1' & Hst). pose proof Hst as [S1 S2 S3 S4 S5 S6 S7].
  assert (Hbytes : forall q x, q `mod` 4096 = 0 -> T !! q = None -> ~ (space_next s <= q < space_end s) -> 0 <= q -> q <= x < q + 4096 -> bus_byte b' x = bus_byte b x).
  { intros q x Hq Hn Ha Hq0 Hx. apply S7; [lia|]. intros ta Hta Hin. pose proof Hta as [[lv k0] Hk0]. destruct (twf_table _ _ _ (rep_tables _ _ _ _ L1') _ _ _ Hk0) as [[_ Htm _] _].
    assert (q = ta) as -> by (pose proof (Z.div_mod q 4096 ltac:(lia)); pose proof (Z.div_mod ta 4096 ltac:(lia)); lia).
    apply S4 in Hta as [[v Hv]|Hin2]; [congruence|]. pose proof (proj2 (rep_end _ _ _ _ L1')). lia. }
  assert (Hnew : forall q, T !! q = None -> ~ (space_next s <= q < space_end s) -> T' !! q = None).
  { intros q Hq Hqa. destruct (T' !! q) eqn:Eq; [|done]. exfalso. pose proof (proj2 (rep_end _ _ _ _ L1')). destruct (S4 q ltac:(by eexists)) as [[v Hv]|Hin]; [congruence|lia]. }
  exists T', (<[page_key va := (pa, p)]> m), (mkLoader al s' b'). split; [unfold on_ld_space, zoom; cbn [ld_allocator ld_space ld_bus]; by rewrite E|]. split; [|done].
  assert (Hfr : forall k0 pa1 p1, <[page_key va := (pa, p)]> m !! k0 = Some (pa1, p1) -> pa1 `mod` 4096 = 0 /\ 0 <= pa1 /\ pa1 + 4096 <= bus_size b /\
    ~ is_free al (pa1 / 4096) /\ T !! pa1 = None /\ ~ (space_next s <= pa1 < space_end s)).
  { intros k0 pa1 p1 Hk0. apply lookup_insert_Some in Hk0 as [[_ [= <- <-]]|[_ Hk0]]; [done|by apply (L6 k0 pa1 p1)]. }
  split.
  - split; cbn [ld_allocator ld_space ld_bus]; [done|done|by rewrite S6| | | |].
    + intros ta Hta. apply S4 in Hta as [Hta|Hta]; [by apply L4|]. pose proof (proj2 (rep_end _ _ _ _ L1')). intros Hfree.
      pose proof (Z.div_mod ta 4096 ltac:(lia)). pose proof (Z.mod_pos_bound ta 4096 ltac:(lia)). pose proof (awf_aligned _ _ (rep_arena _ _ _ _ L1)) as Hna. cbn [builder_of next_free_table_address] in Hna.
      pose proof (Z.div_mod (space_next s) 4096 ltac:(lia)). apply (L5 (ta / 4096)); [lia|done].
    + intros i Hi. apply L5. lia.
    + intros k0 pa1 p1 Hk0. destruct (Hfr k0 pa1 p1 Hk0) as (? & ? & ? & ? & Hnt & Hna). split_and!; try done; [by rewrite S6|by apply Hnew|lia].
    + intros k1 k2 pa1 p1 p2 Hk1 Hk2. rewrite !lookup_insert_Some in Hk1, Hk2. destruct Hk1 as [[E1 Ep1]|[Hn1 Hk1]], Hk2 as [[E2 Ep2]|[Hn2 Hk2]].
      * congruence.
      * injection Ep1 as <- _. by destruct (F5 k2 p2).
      * injection Ep2 as <- _. by destruct (F5 k1 p1).
      * by apply (L7 k1 k2 pa1 p1 p2).
  - intros a Ha. cbn [ld_bus]. unfold user_page, range_view. pose proof (Z.mod_pos_bound a 4096 ltac:(lia)) as Hoff. pose proof (Z.div_mod a 4096 ltac:(lia)) as Hdm.
    pose proof (page_key_eq va a ltac:(lia) Ha) as Hkey. rewrite Hvm, Z.sub_0_r in Hkey. destruct (decide (va <= a < va + 4096)) as [Hin|Hout].
    + apply Hkey in Hin as Hk'. rewrite <- Hk', lookup_insert_eq. cbn. rewrite (Hbytes pa) by (done || lia). rewrite Hh by lia. do 3 f_equal.
      rewrite page_key_user in Hk' by lia. rewrite (page_key_user a) in Hk' by lia. pose proof (Z.div_mod va 4096 ltac:(lia)). lia.
    + rewrite lookup_insert_ne by (intros Hk'; by apply Hout, Hkey). rewrite <- Hu by done. unfold user_page. destruct (m !! page_key a) as [[pa1 p1]|] eqn:Em; [|done].
      destruct (L6 _ _ _ Em) as (? & ? & _ & _ & ? & ?). cbn. by rewrite (Hbytes pa1) by (done || lia).
Qed.

(** A page of a segment or of the stack is allocated, filled and mapped. *)
Definition loads_page (body : Z -> M (Loader B) unit) (base : Z) (f : Z -> Z) (p : PagePermissions) : Prop :=
  forall offset T m l u k c, shows T m l u -> 0 <= offset -> offset `mod` 4096 = 0 -> base + offset + 4096 <= 2 ^ 47 ->
    0 < free_page_count (ld_allocator l) -> 0 <= k -> tables_for u (base + offset) c -> room (k + c) (builder_of (ld_space l)) (ld_bus l) ->
    exists T' m' l', body offset l = (l', Ok tt) /\ shows T' m' l' (range_view (base + offset) 4096 (fun i => f (offset + i)) p u) /\
      free_page_count (ld_allocator l') = free_page_count (ld_allocator l) - 1 /\ room k (builder_of (ld_space l')) (ld_bus l').

Lemma base_aligned base offset : base `mod` 4096 = 0 -> offset `mod` 4096 = 0 -> (base + offset) `mod` 4096 = 0.
Proof. intros Hb Ho. by rewrite Z.add_mod, Hb, Ho by lia. Qed.
Lemma load_segment_page_spec s : segment_wf s -> Forall (fun v => 0 <= v < 256) (segment_bytes s) ->
  loads_page (load_segment_page s) (segment_address s) (nthZ (segment_bytes s)) (segment_permissions s).
Proof.
  intros [Ha Hm He Hb _] Hty offset T m l u k c Hs Ho Hom Htop Hfree Hk Hc Hroom. unfold load_segment_page. munfold_goal.
  destruct (allocate_zeroed_spec T m l u Hs Hfree) as (l1 & pa & E1 & Hs1 & Hf1 & Hz1 & Hsp1 & Hc1 & Hsz1). rewrite E1.
  destruct (copy_segment_spec T m l1 u pa s offset Hs1 Hf1) as (l2 & E2 & Hs2 & Hf2 & Hh2 & [Ha2 Hsp2] & Hsz2); [intros i Hi; apply Hz1; lia|done|done|lia|]. rewrite E2.
  rewrite add64_small by lia.
  destruct (map_fresh_spec T m l2 u pa (segment_address s + offset) (segment_permissions s) _ k c Hs2 Hf2 Hh2) as (T' & m' & l3 & E3 & Hs3 & Ha3 & Hr3);
    [lia|lia|apply base_aligned; [apply Ha|done]|done|done|by unfold room in *; rewrite Hsp2, Hsp1, Hsz2, Hsz1|].
  exists T', m', l3. rewrite E3, Ha3, Ha2, Hc1. done.
Qed.
Lemma load_stack_page_spec bottom : 0 <= bottom -> bottom `mod` 4096 = 0 -> loads_page (load_stack_page bottom) bottom (fun _ => 0) user_rw.
Proof.
  intros Hb Hbm offset T m l u k c Hs Ho Hom Htop Hfree Hk Hc Hroom. unfold load_stack_page. munfold_goal.
  destruct (allocate_zeroed_spec T m l u Hs Hfree) as (l1 & pa & E1 & Hs1 & Hf1 & Hz1 & Hsp1 & Hc1 & Hsz1). rewrite E1. rewrite add64_small by lia.
  destruct (map_fresh_spec T m l1 u pa (bottom + offset) user_rw (fun _ => 0) k c Hs1 Hf1) as (T' & m' & l3 & E3 & Hs3 & Ha3 & Hr3);
    [intros i Hi; apply Hz1; lia|lia|lia|by apply base_aligned|done|done|by unfold room in *; rewrite Hsp1, Hsz1|].
  exists T', m', l3. unfold user_rw in E3. rewrite E3, Ha3, Hc1. done.
Qed.
(** The loop over the pages of a range, from one that takes [d] tables on: only a page at the start of
    another 2 MiB takes more. *)
Lemma count_pages_loop body base f p : loads_page body base f p -> 0 <= base -> base `mod` 4096 = 0 ->
  forall (n : nat) i c d T m l u k, 0 <= i -> base + (i + Z.of_nat (S n)) * 4096 <= 2 ^ 47 ->
  shows T m l u -> Z.of_nat (S n) <= free_page_count (ld_allocator l) -> 0 <= k -> tables_for u (base + i * 4096) d ->
  room (k + d + 3 * ((base + (i + Z.of_nat n) * 4096) / 2 ^ 21 - (base + i * 4096) / 2 ^ 21)) (builder_of (ld_space l)) (ld_bus l) ->
  exists T' m' l', count_each ((fun k => k * MM_PAGE_SIZE_BYTES) <$> seqZ i (Z.of_nat (S n))) body c l = (l', Ok (c + Z.of_nat (S n))) /\
    shows T' m' l' (range_view (base + i * 4096) (Z.of_nat (S n) * 4096) (fun j => f (i * 4096 + j)) p u) /\
    free_page_count (ld_allocator l') = free_page_count (ld_allocator l) - Z.of_nat (S n) /\ room k (builder_of (ld_space l')) (ld_bus l').
Proof.
  intros Hbody Hbase Hbm. induction n as [|n IH]; intros i c d T m l u k Hi Htop Hs Hfree Hk Hd Hroom;
    rewrite seqZ_cons by lia; rewrite fmap_cons; cbn [count_each]; munfold_goal; change (i * MM_PAGE_SIZE_BYTES) with (i * 4096).
  - replace (base + (i + Z.of_nat 0) * 4096) with (base + i * 4096) in Hroom by lia. rewrite Z.sub_diag, Z.mul_0_r, Z.add_0_r in Hroom.
    destruct (Hbody (i * 4096) T m l u k d Hs) as (T1 & m1 & l1 & E1 & Hs1 & Hc1 & Hr1); [lia|apply Z.mod_mul; lia|lia|lia|lia|done|done|].
    exists T1, m1, l1. rewrite E1. split; [reflexivity|]. split; [|split; [lia|done]]. eapply shows_ext; [exact Hs1|].
    intros a Ha. unfold range_view. by replace (Z.of_nat 1 * 4096) with 4096 by lia.
  - replace (Z.pred (Z.of_nat (S (S n)))) with (Z.of_nat (S n)) by lia. set (va := base + i * 4096) in *.
    pose proof (Z.div_mod va (2 ^ 21) ltac:(lia)) as Hdv. pose proof (Z.mod_pos_bound va (2 ^ 21) ltac:(lia)).
    set (last := base + (i + Z.of_nat (S n)) * 4096) in *. set (next := base + (Z.succ i) * 4096) in *.
    pose proof (Z.div_mod next (2 ^ 21) ltac:(lia)) as Hdn. pose proof (Z.mod_pos_bound next (2 ^ 21) ltac:(lia)).
    assert (Hln : next / 2 ^ 21 <= last / 2 ^ 21) by (apply Z.div_le_mono; lia). assert (next = va + 4096) as Hnv by lia.
    set (d' := if decide (next / 2 ^ 21 = va / 2 ^ 21) then 0 else 3).
    destruct (Hbody (i * 4096) T m l u (k + d' + 3 * (last / 2 ^ 21 - next / 2 ^ 21)) d Hs) as (T1 & m1 & l1 & E1 & Hs1 & Hc1 & Hr1);
      [lia|apply Z.mod_mul; lia|lia|lia|unfold d'; case_decide; lia|done| |].
    { assert (k + d' + 3 * (last / 2 ^ 21 - next / 2 ^ 21) + d <= k + d + 3 * (last / 2 ^ 21 - va / 2 ^ 21)) by (unfold d'; case_decide; lia).
      unfold room in *. lia. }
    rewrite E1. destruct (IH (Z.succ i) (c + 1) d' T1 m1 l1 _ k ltac:(lia) ltac:(lia) Hs1) as (T2 & m2 & l2 & E2 & Hs2 & Hc2 & Hr2); [lia|done| | |].
    { unfold d'. case_decide as Hsame; [right|by left]. split; [done|]. exists va. split; [lia|]. split; [|by rewrite <- Hsame].
      unfold range_view. fold va. by rewrite decide_True by lia. }
    { by replace (base + (Z.succ i + Z.of_nat n) * 4096) with last by lia. }
    exists T2, m2, l2. unfold fmap in E2 |- *. rewrite E2. split; [do 2 f_equal; lia|]. split; [|split; [lia|done]]. eapply shows_ext; [exact Hs2|].
    intros a Ha. unfold range_view. fold va next. destruct (decide (next <= a < next + Z.of_nat (S n) * 4096)).
    + rewrite decide_True by lia. do 3 f_equal. lia.
    + destruct (decide (va <= a < va + 4096)); [rewrite decide_True by lia; do 3 f_equal; lia|by rewrite decide_False by lia].
Qed.
(** The stretches of 2 MiB a range of pages touches: each takes three tables at most. *)
Definition regions (base size : Z) : Z := (base + size - 4096) / 2 ^ 21 - base / 2 ^ 21 + 1.
Lemma regions_nonneg base size : 0 < size -> size `mod` 4096 = 0 -> 0 <= regions base size.
Proof.
  intros Hs Hm. unfold regions. pose proof (Z.div_mod size 4096 ltac:(lia)). assert (base / 2 ^ 21 <= (base + size - 4096) / 2 ^ 21) by (apply Z.div_le_mono; lia). lia.
Qed.
Lemma count_pages body base f p size c T m l u k : loads_page body base f p -> 0 <= base -> base `mod` 4096 = 0 -> 0 < size -> size `mod` 4096 = 0 ->
  base + size <= 2 ^ 47 -> shows T m l u -> size / 4096 <= free_page_count (ld_allocator l) -> 0 <= k ->
  room (k + 3 * regions base size) (builder_of (ld_space l)) (ld_bus l) ->
  exists T' m' l', count_each (page_offsets size) body c l = (l', Ok (c + size / 4096)) /\ shows T' m' l' (range_view base size f p u) /\
    free_page_count (ld_allocator l') = free_page_count (ld_allocator l) - size / 4096 /\ room k (builder_of (ld_space l')) (ld_bus l').
Proof.
  intros Hbody Hbase Hbm Hsize Hm Htop Hs Hfree Hk Hroom. pose proof (Z.div_mod size 4096 ltac:(lia)) as Hd. assert (Hnn : 0 < size / 4096) by lia.
  unfold page_offsets. change MM_PAGE_SIZE_BYTES with 4096 at 2 3. assert (En : (size + (4096 - 1)) / 4096 = size / 4096).
  { rewrite Hd, Hm, Z.add_0_r, Z.mul_comm. rewrite Z.add_comm, Z.div_add by lia. rewrite Z.div_mul by lia. done. }
  rewrite En. set (n := Z.to_nat (size / 4096 - 1)). assert (Hn : Z.of_nat (S n) = size / 4096) by lia. rewrite <- Hn.
  destruct (count_pages_loop body base f p Hbody Hbase Hbm n 0 c 3 T m l u k) as (T' & m' & l' & E & Hs' & Hc' & Hr'); try done; try lia; [by left| |].
  { unfold regions in Hroom. replace (base + (0 + Z.of_nat n) * 4096) with (base + size - 4096) by lia. replace (base + 0 * 4096) with base by lia.
    by replace (k + 3 + 3 * ((base + size - 4096) / 2 ^ 21 - base / 2 ^ 21)) with (k + 3 * ((base + size - 4096) / 2 ^ 21 - base / 2 ^ 21 + 1)) by lia. }
  exists T', m', l'. split; [done|]. split; [|done]. eapply shows_ext; [exact Hs'|].
  intros a Ha. unfold range_view. replace (base + 0 * 4096) with base by lia. replace (Z.of_nat (S n) * 4096) with size by lia. by replace (0 * 4096) with 0 by lia.
Qed.
End loading_pages.

(** ** A loaded program *)

Definition program_memory (ss : list UserSegment) (u : UserMemory) : UserMemory :=
  foldl (fun u s => range_view (segment_address s) (segment_memory_size s) (nthZ (segment_bytes s)) (segment_permissions s) u) u ss.
Definition segment_pages (ss : list UserSegment) : Z := foldr (fun s n => segment_memory_size s / 4096 + n) 0 ss.
(** The pages a program takes, those of its stack included. *)
Definition pages_needed (p : UserProgram) : Z := segment_pages (segments p) + initial_stack_size_bytes p / 4096.
(** The page tables it takes at most. *)
Definition segment_regions (ss : list UserSegment) : Z := foldr (fun s n => regions (segment_address s) (segment_memory_size s) + n) 0 ss.
Definition tables_needed (p : UserProgram) : Z :=
  3 * (segment_regions (segments p) + regions (ADDRESS_LAYOUT_USER_STACK_TOP - initial_stack_size_bytes p) (initial_stack_size_bytes p)).
(** The memory of a process that has been loaded with arguments, where [u] is what it had. *)
Definition loaded_memory (p : UserProgram) (a : UserProgramArguments) (u : UserMemory) : UserMemory :=
  let bottom := ADDRESS_LAYOUT_USER_STACK_TOP - initial_stack_size_bytes p in
  stack_view bottom (zeros (frame_start_of a - bottom) ++ stack_image a) (program_memory (segments p) u).

Section loaded_program.
Context {B : Type} `{MemoryBusLaws B}.

Lemma segment_pages_nonneg ss : Forall segment_wf ss -> 0 <= segment_pages ss.
Proof.
  unfold segment_pages. induction 1 as [|s ss [_ [] _ _ _] _ IH]; cbn [foldr]; [lia|]. pose proof (Z.div_pos (segment_memory_size s) 4096). lia.
Qed.
Lemma segment_regions_nonneg ss : Forall segment_wf ss -> 0 <= segment_regions ss.
Proof.
  unfold segment_regions. induction 1 as [|s ss [_ [] _ _ _] _ IH]; cbn [foldr]; [lia|]. pose proof (regions_nonneg (segment_address s) (segment_memory_size s)). lia.
Qed.
Lemma load_segments_spec ss : Forall segment_wf ss -> Forall (fun s => Forall (fun v => 0 <= v < 256) (segment_bytes s)) ss ->
  forall c T m (l : Loader B) u k, shows T m l u -> segment_pages ss <= free_page_count (ld_allocator l) -> 0 <= k ->
  room (k + 3 * segment_regions ss) (builder_of (ld_space l)) (ld_bus l) ->
  exists T' m' l', load_segments ss c l = (l', Ok (c + segment_pages ss)) /\ shows T' m' l' (program_memory ss u) /\
    free_page_count (ld_allocator l') = free_page_count (ld_allocator l) - segment_pages ss /\ room k (builder_of (ld_space l')) (ld_bus l').
Proof.
  intros Hss. induction Hss as [|s ss Hs Hss IH]; intros Hty c T m l u k Hsh Hfree Hk Hroom.
  - exists T, m, l. cbn in *. rewrite Z.add_0_r, Z.sub_0_r in *. done.
  - apply Forall_cons in Hty as [Hts Hty]. pose proof (segment_pages_nonneg ss Hss) as Hnn. pose proof Hs as [[? ?] [? ?] ? ? ?].
    change (segment_pages (s :: ss)) with (segment_memory_size s / 4096 + segment_pages ss) in *.
    change (segment_regions (s :: ss)) with (regions (segment_address s) (segment_memory_size s) + segment_regions ss) in *.
    pose proof (segment_regions_nonneg ss Hss) as Hrn. pose proof (Z.div_pos (segment_memory_size s) 4096).
    cbn [load_segments]. munfold_goal.
    destruct (count_pages (load_segment_page s) (segment_address s) _ _ (segment_memory_size s) c T m l u (k + 3 * segment_regions ss) (load_segment_page_spec s Hs Hts))
      as (T1 & m1 & l1 & E1 & Hs1 & Hc1 & Hr1); try done; try lia;
      [by replace (k + 3 * segment_regions ss + 3 * regions (segment_address s) (segment_memory_size s)) with (k + 3 * (regions (segment_address s) (segment_memory_size s) + segment_regions ss)) by lia|].
    rewrite E1. destruct (IH Hty (c + segment_memory_size s / 4096) T1 m1 l1 _ k Hs1 ltac:(lia) Hk Hr1) as (T2 & m2 & l2 & E2 & Hs2 & Hc2 & Hr2).
    exists T2, m2, l2. rewrite E2. split; [do 2 f_equal; lia|]. split; [exact Hs2|]. split; [lia|done].
Qed.
Lemma stack_bottom_of p : program_wf p -> u64 (initial_stack_size_bytes p) ->
  let size := initial_stack_size_bytes p in let bottom := ADDRESS_LAYOUT_USER_STACK_TOP - size in
  user_stack_bottom size = Ok bottom /\ 4096 <= bottom /\ 0 < size /\ size `mod` 4096 = 0 /\ bottom `mod` 4096 = 0.
Proof.
  intros [_ Hst _ _] Hu size bottom. unfold size, bottom in *. destruct (user_stack_bottom (initial_stack_size_bytes p)) as [b|] eqn:E; [|done].
  destruct (user_stack_bottom_spec _ _ Hu E) as (-> & ? & ? & ? & ?). done.
Qed.

(** Loading: with enough pages and page tables, a program whose arguments fit its stack is
    loaded, and the process then sees at its user addresses exactly the bytes and permissions of the
    segments, padded with zeros, and the stack with the arguments and the environment; nothing else
    it sees has changed, no frame is shared, and the pages taken are those counted. When the
    arguments do not fit, a length error is raised. *)
Lemma load_spec T m (l : Loader B) u p a : program_wf p -> u64 (initial_stack_size_bytes p) -> entry_point_is_executable p = true ->
  Forall (fun s => Forall (fun v => 0 <= v < 256) (segment_bytes s)) (segments p) -> strings_ok (arguments a) -> strings_ok (environment a) ->
  shows T m l u -> pages_needed p <= free_page_count (ld_allocator l) -> room (tables_needed p) (builder_of (ld_space l)) (ld_bus l) ->
  exists T' m' l' r, load_with_arguments p a l = (l', r) /\
    free_page_count (ld_allocator l') = free_page_count (ld_allocator l) - pages_needed p /\
    let bottom := ADDRESS_LAYOUT_USER_STACK_TOP - initial_stack_size_bytes p in
    if decide (bottom <= frame_start_of a) then
      r = Ok (mkProcessImage (entry_point p) bottom (frame_start_of a) (pages_needed p)) /\ shows T' m' l' (loaded_memory p a u)
    else r = Throw length_error.
Proof.
  intros Hp Hu Hex Hty Ha He Hs Hfree Hroom. destruct (stack_bottom_of p Hp Hu) as (Eb & Hb & Hsz & Hszm & Hbm). unfold pages_needed, tables_needed in *.
  pose proof (segment_pages_nonneg _ (pw_segments _ Hp)) as Hnn. pose proof (Z.div_pos (initial_stack_size_bytes p) 4096 ltac:(lia) ltac:(lia)).
  set (size := initial_stack_size_bytes p) in *. set (bottom := ADDRESS_LAYOUT_USER_STACK_TOP - size) in *. cbn zeta in *.
  unfold load_with_arguments. munfold_goal. rewrite Hex. cbn [negb]. fold size.
  destruct (load_segments_spec (segments p) (pw_segments _ Hp) Hty 0 T m l u (3 * regions bottom size) Hs) as (T1 & m1 & l1 & E1 & Hs1 & Hc1 & Hr1);
    [lia|pose proof (regions_nonneg bottom size Hsz Hszm); lia|by replace (3 * regions bottom size + 3 * segment_regions (segments p)) with (3 * (segment_regions (segments p) + regions bottom size)) by lia|].
  rewrite E1, Eb. fold size. destruct (count_pages (load_stack_page bottom) bottom _ _ size (0 + segment_pages (segments p)) T1 m1 l1 (program_memory (segments p) u) 0 (load_stack_page_spec bottom ltac:(lia) Hbm))
    as (T2 & m2 & l2 & E2 & Hs2 & Hc2 & Hr2); try done; try lia; [unfold bottom, ADDRESS_LAYOUT_USER_STACK_TOP; lia|]. rewrite E2.
  assert (Hs3 : shows T2 m2 l2 (stack_view bottom (zeros (ADDRESS_LAYOUT_USER_STACK_TOP - bottom)) (program_memory (segments p) u))).
  { eapply shows_ext; [exact Hs2|]. intros x _. unfold range_view, stack_view. replace (ADDRESS_LAYOUT_USER_STACK_TOP - bottom) with size by (unfold bottom; lia).
    rewrite zeros_length by lia. case_decide; [|done]. do 2 f_equal. unfold zeros. by rewrite nthZ_replicate by lia. }
  destruct (write_stack_spec T2 m2 l2 (program_memory (segments p) u) bottom a ltac:(unfold bottom; lia) Ha He Hs3) as (l3 & r & E3 & [Hal _] & Hr).
  rewrite E3. destruct (decide (bottom <= frame_start_of a)).
  - destruct Hr as [-> Hs4]. exists T2, m2, l3. eexists. split; [reflexivity|]. rewrite Hal. split; [lia|]. split; [by rewrite Z.add_0_l|exact Hs4].
  - subst r. exists T2, m2, l3, (Throw length_error). rewrite Hal. split; [done|]. split; [lia|done].
Qed.
End loaded_program.

(** ** Reading the arguments back *)

Lemma slice_concat (vs ws : list (list Z)) (w A C : list Z) n : lenZ w = n ->
  slice (lenZ (A ++ concat vs)) n (A ++ concat (vs ++ w :: ws) ++ C) = w.
Proof.
  intros <-. rewrite concat_app. cbn [concat]. rewrite <- !app_assoc, (app_assoc A). rewrite slice_app_r, Z.sub_diag by lia.
  rewrite slice_app_l by (unfold lenZ; lia). apply slice_full.
Qed.
Lemma pointers_lookup es : forall base (i : nat) e, es !! i = Some e -> pointers_from base es !! i = Some (base + lenZ (strings (take i es))).
Proof.
  induction es as [|x es IH]; intros base i e Hi; [done|]. destruct i as [|i]; cbn [pointers_from take]; [by rewrite Z.add_0_r|].
  cbn [lookup list_lookup] in *. rewrite (IH _ _ _ Hi). f_equal. change (strings (x :: take i es)) with (string_bytes x ++ strings (take i es)).
  rewrite lenZ_app, string_bytes_length. lia.
Qed.

Lemma string_slice es (i : nat) e (A C : list Z) : es !! i = Some e ->
  slice (lenZ A + lenZ (strings (take i es))) (lenZ e + 1) (A ++ strings es ++ C) = e ++ [0].
Proof.
  intros Hi. rewrite <- (take_drop_middle es i e Hi) at 2. unfold strings. rewrite fmap_app, fmap_cons, <- lenZ_app.
  apply slice_concat, string_bytes_length.
Qed.
Lemma qword_slice ps (i : nat) v (A C : list Z) : ps !! i = Some v -> slice (lenZ A + 8 * Z.of_nat i) 8 (A ++ qwords ps ++ C) = le 8 v.
Proof.
  intros Hi. pose proof (lookup_lt_Some _ _ _ Hi). replace (8 * Z.of_nat i) with (lenZ (qwords (take i ps))) by (rewrite qwords_length; unfold lenZ; rewrite length_take; lia).
  rewrite <- (take_drop_middle ps i v Hi) at 2. unfold qwords. rewrite fmap_app, fmap_cons, <- lenZ_app. apply slice_concat. by apply le_length.
Qed.
Lemma slice_at {A} (l k r : list A) off n : lenZ l = off -> lenZ k = n -> slice off n (l ++ k ++ r) = k.
Proof. intros <- <-. rewrite slice_app_r, Z.sub_diag by lia. rewrite slice_app_l by (unfold lenZ; lia). apply slice_full. Qed.
Lemma raw_frame_split a : ADDRESS_LAYOUT_USER_STACK_TOP - frame_start_of a =
  8 * (argument_count a + environment_count a + 3) + raw_frame_start a `mod` 16 + lenZ (argument_strings a).
Proof. unfold frame_start_of, raw_frame_start. lia. Qed.

(** The arguments in the image of the stack: the initial stack pointer is a multiple of 16; there
    lies the number of arguments, followed by a pointer to each of them, a null pointer, a pointer to
    each environment entry and a null pointer; and each pointer leads to the bytes of its string with a
    null byte after them. *)
Lemma arguments_found_on_stack a :
  let at_address x n := slice (x - frame_start_of a) n (stack_image a) in
  let table := frame_start_of a + 8 in
  let environment_table := table + 8 * argument_count a + 8 in
  frame_start_of a `mod` 16 = 0 /\ frame_start_of a + lenZ (stack_image a) = ADDRESS_LAYOUT_USER_STACK_TOP /\
  at_address (frame_start_of a) 8 = le 8 (argument_count a) /\
  (forall (i : nat) e, arguments a !! i = Some e -> exists ptr, frame_start_of a <= ptr /\ at_address (table + 8 * Z.of_nat i) 8 = le 8 ptr /\ at_address ptr (lenZ e + 1) = e ++ [0]) /\
  at_address (table + 8 * argument_count a) 8 = le 8 0 /\
  (forall (i : nat) e, environment a !! i = Some e -> exists ptr, frame_start_of a <= ptr /\ at_address (environment_table + 8 * Z.of_nat i) 8 = le 8 ptr /\ at_address ptr (lenZ e + 1) = e ++ [0]) /\
  at_address (environment_table + 8 * environment_count a) 8 = le 8 0.
Proof.
  intros at_address table environment_table. unfold environment_table, table, at_address. clear environment_table table at_address. pose proof (raw_frame_split a) as Hsplit.
  destruct (pointer_lengths a) as [Hpa Hpe]. pose proof (Z.mod_pos_bound (raw_frame_start a) 16 ltac:(lia)) as Hpad.
  set (pad := zeros (raw_frame_start a `mod` 16)) in *. assert (Hpl : lenZ pad = raw_frame_start a `mod` 16) by (apply zeros_length; lia).
  set (T1 := le 8 (argument_count a)). set (T2 := qwords (argument_pointers a)). set (T3 := qwords (environment_pointers a)). set (Z8 := le 8 0).
  assert (H1 : lenZ T1 = 8) by by apply le_length. assert (H2 : lenZ T2 = 8 * argument_count a) by (unfold T2; by rewrite qwords_length, Hpa).
  assert (H3 : lenZ T3 = 8 * environment_count a) by (unfold T3; by rewrite qwords_length, Hpe). assert (H8 : lenZ Z8 = 8) by by apply le_length.
  assert (Himg : stack_image a = T1 ++ T2 ++ Z8 ++ T3 ++ Z8 ++ pad ++ argument_strings a) by done.
  assert (Hcounts : 0 <= argument_count a /\ 0 <= environment_count a /\ 0 <= lenZ (strings (arguments a))) by (unfold argument_count, environment_count, lenZ; lia).
  assert (Hargs : lenZ (argument_strings a) = lenZ (strings (arguments a)) + lenZ (strings (environment a))) by (unfold argument_strings; by rewrite lenZ_app).
  rewrite Himg. split_and!.
  - unfold frame_start_of. rewrite Zminus_mod_idemp_r, Z.sub_diag. done.
  - rewrite !lenZ_app. lia.
  - rewrite Z.sub_diag. apply (slice_at [] T1); done.
  - intros i e Hi. pose proof (pointers_lookup _ (ADDRESS_LAYOUT_USER_STACK_TOP - lenZ (argument_strings a)) i e Hi) as Hp. exists (ADDRESS_LAYOUT_USER_STACK_TOP - lenZ (argument_strings a) + lenZ (strings (take i (arguments a)))). split; [|split].
    + assert (0 <= lenZ (strings (take i (arguments a)))) by (unfold lenZ; lia). lia.
    + replace (frame_start_of a + 8 + 8 * Z.of_nat i - frame_start_of a) with (lenZ T1 + 8 * Z.of_nat i) by lia. by apply qword_slice.
    + unfold argument_strings. rewrite !app_assoc. rewrite <- (app_assoc _ (strings (arguments a))). rewrite <- (string_slice (arguments a) i e ((((((T1 ++ T2) ++ Z8) ++ T3) ++ Z8) ++ pad)) (strings (environment a)) Hi).
      f_equal. rewrite !lenZ_app. lia.
  - replace (frame_start_of a + 8 + 8 * argument_count a - frame_start_of a) with (lenZ (T1 ++ T2)) by (rewrite lenZ_app; lia). rewrite app_assoc. by apply slice_at.
  - intros i e Hi. pose proof (pointers_lookup _ (ADDRESS_LAYOUT_USER_STACK_TOP - lenZ (strings (environment a))) i e Hi) as Hp. exists (ADDRESS_LAYOUT_USER_STACK_TOP - lenZ (strings (environment a)) + lenZ (strings (take i (environment a)))). split; [|split].
    + assert (0 <= lenZ (strings (take i (environment a)))) by (unfold lenZ; lia). lia.
    + replace (frame_start_of a + 8 + 8 * argument_count a + 8 + 8 * Z.of_nat i - frame_start_of a) with (lenZ ((T1 ++ T2) ++ Z8) + 8 * Z.of_nat i) by (rewrite !lenZ_app; lia).
      rewrite (app_assoc T1 T2 (Z8 ++ _)), (app_assoc (T1 ++ T2)). by apply qword_slice.
    + unfold argument_strings. rewrite !app_assoc. rewrite <- (app_nil_r (_ ++ strings (environment a))), <- app_assoc.
      rewrite <- (string_slice (environment a) i e (((((((T1 ++ T2) ++ Z8) ++ T3) ++ Z8) ++ pad) ++ strings (arguments a))) [] Hi).
      f_equal. rewrite !lenZ_app. lia.
  - replace (frame_start_of a + 8 + 8 * argument_count a + 8 + 8 * environment_count a - frame_start_of a) with (lenZ (T1 ++ T2 ++ Z8 ++ T3)) by (rewrite !lenZ_app; lia).
    assert (T1 ++ T2 ++ Z8 ++ T3 ++ Z8 ++ pad ++ argument_strings a = (T1 ++ T2 ++ Z8 ++ T3) ++ Z8 ++ pad ++ argument_strings a) as -> by by rewrite <- !app_assoc.
    by apply slice_at.
Qed.

Section started_program.
Context {B : Type} `{MemoryBusLaws B}.

(** The process reads [bytes], which it may also write, from the user address [x] on. *)
Definition user_reads (m : PageMap) (b : B) (x : Z) (bytes : list Z) : Prop :=
  forall k, 0 <= k < lenZ bytes -> user_page m b (x + k) = Some (nthZ bytes k, user_rw).
(** A null-terminated table of pointers to null-terminated strings. *)
Definition reads_strings (m : PageMap) (b : B) (table : Z) (es : list (list Z)) : Prop :=
  (forall (i : nat) e, es !! i = Some e -> exists ptr, user_reads m b (table + 8 * Z.of_nat i) (le 8 ptr) /\ user_reads m b ptr (e ++ [0])) /\
  user_reads m b (table + 8 * lenZ es) (le 8 0).

Lemma user_reads_slice T m (l : Loader B) u p a x bytes : let bottom := ADDRESS_LAYOUT_USER_STACK_TOP - initial_stack_size_bytes p in
  shows T m l (loaded_memory p a u) -> 0 <= bottom -> bottom <= frame_start_of a ->
  frame_start_of a <= x -> x + lenZ bytes <= ADDRESS_LAYOUT_USER_STACK_TOP ->
  slice (x - frame_start_of a) (lenZ bytes) (stack_image a) = bytes -> user_reads m (ld_bus l) x bytes.
Proof.
  intros bottom [_ Hu] Hb0 Hb Hx Htop Hs k Hk. destruct (arguments_found_on_stack a) as (_ & Hend & _). unfold ADDRESS_LAYOUT_USER_STACK_TOP in *.
  rewrite Hu by lia. unfold loaded_memory, ADDRESS_LAYOUT_USER_STACK_TOP, stack_view. fold bottom. rewrite lenZ_app, zeros_length by lia.
  rewrite decide_True by lia. do 2 f_equal. rewrite nthZ_app, zeros_length by lia. rewrite decide_False by lia.
  rewrite <- Hs at 1. rewrite nthZ_slice by lia. f_equal. lia.
Qed.

(** C18. A loaded program can start: with enough pages and page tables, a program whose arguments fit its
    stack is loaded, and its process then sees at its user addresses exactly the bytes and permissions
    of the segments, padded with zeros, and its stack; nothing else it sees has changed and the pages
    taken are those counted.  At the initial stack pointer, a multiple of 16, it reads the number of
    arguments, then the null-terminated tables of pointers to the arguments and to the environment, and
    through them the strings.  When the arguments do not fit, a length error is raised. *)
Theorem loaded_program_can_start T m (l : Loader B) u p a : program_wf p -> u64 (initial_stack_size_bytes p) -> entry_point_is_executable p = true ->
  Forall (fun s => Forall (fun v => 0 <= v < 256) (segment_bytes s)) (segments p) -> strings_ok (arguments a) -> strings_ok (environment a) ->
  shows T m l u -> pages_needed p <= free_page_count (ld_allocator l) -> room (tables_needed p) (builder_of (ld_space l)) (ld_bus l) ->
  exists T' m' l' r, load_with_arguments p a l = (l', r) /\
    free_page_count (ld_allocator l') = free_page_count (ld_allocator l) - pages_needed p /\
    let bottom := ADDRESS_LAYOUT_USER_STACK_TOP - initial_stack_size_bytes p in
    let rsp := frame_start_of a in
    if decide (bottom <= rsp) then
      r = Ok (mkProcessImage (entry_point p) bottom rsp (pages_needed p)) /\ shows T' m' l' (loaded_memory p a u) /\ rsp `mod` 16 = 0 /\
      user_reads m' (ld_bus l') rsp (le 8 (argument_count a)) /\ reads_strings m' (ld_bus l') (rsp + 8) (arguments a) /\
      reads_strings m' (ld_bus l') (rsp + 8 + 8 * argument_count a + 8) (environment a)
    else r = Throw length_error.
Proof.
  intros Hp Hu Hex Hty Ha He Hs Hfree Hroom. destruct (load_spec T m l u p a Hp Hu Hex Hty Ha He Hs Hfree Hroom) as (T' & m' & l' & r & E & Hc & Hr).
  destruct (stack_bottom_of p Hp Hu) as (_ & Hb & _). exists T', m', l', r. split; [done|]. split; [done|]. cbn zeta in *. case_decide as Hfit; [|done].
  destruct Hr as [-> Hv]. split; [done|]. split; [done|]. destruct (arguments_found_on_stack a) as (H16 & Hend & Hargc & Hargs & Hnull & Henv & Hnull').
  assert (Hread : forall x bytes, slice (x - frame_start_of a) (lenZ bytes) (stack_image a) = bytes -> frame_start_of a <= x -> x + lenZ bytes <= ADDRESS_LAYOUT_USER_STACK_TOP -> user_reads m' (ld_bus l') x bytes).
  { intros x bytes Hsl Hx1 Hx2. by apply (user_reads_slice T' m' l' u p a x bytes Hv ltac:(lia) Hfit). }
  assert (Hfits : forall x n bytes, lenZ bytes = n -> 0 < n -> slice (x - frame_start_of a) n (stack_image a) = bytes -> frame_start_of a <= x -> user_reads m' (ld_bus l') x bytes).
  { intros x n bytes <- Hn Hsl Hx. apply Hread; [done|done|]. apply (f_equal lenZ) in Hsl. unfold slice, lenZ in *. rewrite length_take, length_drop in Hsl. lia. }
  assert (Hpos : forall A (es : list A), 0 <= lenZ es) by (intros; unfold lenZ; lia). pose proof (Hpos _ (arguments a)). pose proof (Hpos _ (environment a)).
  unfold argument_count, environment_count in *.
  assert (Hentry : forall x v, slice (x - frame_start_of a) 8 (stack_image a) = le 8 v -> frame_start_of a <= x -> user_reads m' (ld_bus l') x (le 8 v)) by (intros x v; by apply Hfits).
  assert (Hstr : forall ptr (e : list Z), slice (ptr - frame_start_of a) (lenZ e + 1) (stack_image a) = e ++ [0] -> frame_start_of a <= ptr -> user_reads m' (ld_bus l') ptr (e ++ [0])).
  { intros ptr e. apply Hfits; [by rewrite lenZ_app|pose proof (Hpos _ e); lia]. }
  split; [done|]. split; [apply Hentry; [exact Hargc|lia]|]. split; split.
  - intros i e Hi. destruct (Hargs i e Hi) as (ptr & Hp1 & Hp2 & Hp3). exists ptr. split; [apply Hentry; [exact Hp2|lia]|by apply Hstr].
  - apply Hentry; [exact Hnull|lia].
  - intros i e Hi. destruct (Henv i e Hi) as (ptr & Hp1 & Hp2 & Hp3). exists ptr. split; [apply Hentry; [exact Hp2|lia]|by apply Hstr].
  - apply Hentry; [exact Hnull'|lia].
Qed.
End started_program.

(** ** A concrete instance *)

Definition demo_load_program : UserProgram :=
  mkProgram 0x400000 4096 [mkSegment 0x400000 [0x90; 0xF4] 4096 user_read_only_execute].
(** The program name and one variable. *)
Definition demo_load_arguments : UserProgramArguments := mkArguments [[115; 104]; [45; 108]] [[65; 61; 49]].
Definition demo_load_pages : PhysicalPageAllocator := mkAllocator 12 8 4 [1; 1; 1; 1; 1; 1; 1; 1; 0; 0; 0; 0].
Lemma demo_load_pages_wf : alloc_wf demo_load_pages.
Proof.
  split; cbn [total_page_count first_allocatable_page allocated_pages demo_load_pages]; try done; try lia; [set_solver|]. intros i Hi. unfold is_page_index_allocated.
  assert (i = 0 \/ i = 1 \/ i = 2 \/ i = 3 \/ i = 4 \/ i = 5 \/ i = 6 \/ i = 7) as [-> | [-> | [-> | [-> | [-> | [-> | [-> | ->]]]]]]] by lia; reflexivity.
Qed.
Lemma demo_load_program_wf : program_wf demo_load_program.
Proof.
  split; [reflexivity|reflexivity| |].
  - apply Forall_singleton. split; cbn; try reflexivity; repeat split; try reflexivity; discriminate.
  - apply FOP_cons; constructor.
Qed.
Lemma demo_loader : exists (l : Loader PhysicalMemory) T m, shows T m l (fun _ => None) /\ ld_allocator l = demo_load_pages /\ room 6 (builder_of (ld_space l)) (ld_bus l).
Proof.
  destruct (make_space_represents (make_memory 0xC000) 0 0x1000 0x8000) as (b & _ & Hs & Hrep & _);
    [apply (zero_memory_ok 0xC000); lia|rewrite zero_memory_size by lia; lia|lia|lia|lia|rewrite zero_memory_size by lia; lia|reflexivity..|].
  rewrite zero_memory_size in Hs by lia. assert (Hfree : forall i, is_free demo_load_pages i -> 8 <= i) by (intros i Hi; by apply (is_free_first _ _ demo_load_pages_wf) in Hi).
  exists (mkLoader demo_load_pages (mkSpace 0 0x1000 0x1000 0x8000) b), {[0 := (Level.PML4, 0)]}, ∅. split; [|split; [done|]].
  - split; [split; cbn [ld_allocator ld_space ld_bus]|].
    + exact Hrep.
    + exact demo_load_pages_wf.
    + rewrite Hs. vm_compute. discriminate.
    + intros ta [x Hx] Hf. apply lookup_singleton_Some in Hx as [<- _]. apply Hfree in Hf. vm_compute in Hf. by apply Hf.
    + intros i Hi Hf. apply Hfree in Hf. cbn in Hi. lia.
    + intros k pa p Hk. by rewrite lookup_empty in Hk.
    + intros k k' pa p p' Hk. by rewrite lookup_empty in Hk.
    + intros a Ha. unfold user_page. by rewrite lookup_empty.
  - unfold room. cbn [ld_bus ld_space]. rewrite Hs. vm_compute. split; discriminate.
Qed.
Lemma loaded_program_can_start_witness : exists (l l' : Loader PhysicalMemory) m,
  load_with_arguments demo_load_program demo_load_arguments l = (l', Ok (mkProcessImage 0x400000 (0x700000000000 - 4096) (frame_start_of demo_load_arguments) 2)) /\
  user_page m (ld_bus l') 0x400001 = Some (0xF4, user_read_only_execute) /\ user_page m (ld_bus l') (frame_start_of demo_load_arguments) = Some (2, user_rw).
Proof.
  destruct demo_loader as (l & T & m & Hs & Ha & Hr).
  destruct (loaded_program_can_start T m l (fun _ => None) demo_load_program demo_load_arguments demo_load_program_wf) as (T' & m' & l' & r & E & _ & Hres).
  - split; [discriminate|reflexivity].
  - reflexivity.
  - repeat constructor; discriminate.
  - split; repeat constructor; discriminate.
  - split; repeat constructor; discriminate.
  - exact Hs.
  - rewrite Ha. vm_compute. discriminate.
  - exact Hr.
  - cbn zeta in Hres. rewrite decide_True in Hres by (vm_compute; discriminate). destruct Hres as (-> & [_ Hview] & _).
    exists l, l', m'. split; [exact E|]. split; (rewrite Hview; [vm_compute; reflexivity|vm_compute; split; [discriminate|reflexivity]]).
Defined.
