(* ===== verification/Process.v ===== *)
(** * Processes

    Models src/os/proc/process.cpp: the life of a process from running to exited to reaped, and the
    threads it owns.  The threads of a process live in the store of Thread.v, and a process holds the
    references to them in the order in which they were created.  A process is constructed in the store
    of open file descriptions, where the descriptions of its standard descriptors are made. *)

From S2P Require Import Prelude Logic CpuState Thread Futex AddressSpace FileDescriptor.

(** ** Data *)

Module PState.
(* [include/mnos/os/proc/process.hpp] [ProcessState] *)
Inductive ProcessState : Set := RUNNING | EXITED | REAPED | COUNT.
End PState.
Abbreviation ProcessState := PState.ProcessState.
#[export] Instance ProcessState_eq_dec : EqDecision ProcessState.
Proof. solve_decision. Defined.

(* [src/os/proc/process.cpp] [is_process_state_valid] *)
Definition is_process_state_valid (s : ProcessState) : bool := match s with PState.COUNT => false | _ => true end.

Definition PROCESS_ID_FIRST_USER_VALUE : Z := 1.
(* [include/mnos/os/proc/process_id.hpp] [ProcessId::is_valid] [37-40] *)
Definition process_id_is_valid (id : Z) : bool := negb (id =? PROCESS_ID_INVALID_VALUE).

(* [include/mnos/os/proc/process.hpp] [Process] *)
Record Process : Type := mkProcess {
  pr_id : Z;
  pr_parent : Z;
  pr_state : ProcessState;
  pr_exit_code : Z;
  pr_space : AddressSpace;
  pr_files : FileDescriptorTable;
  pr_threads : list ThreadRef;
}.
Definition set_pr_state (s : ProcessState) (p : Process) : Process :=
  mkProcess (pr_id p) (pr_parent p) s (pr_exit_code p) (pr_space p) (pr_files p) (pr_threads p).
Definition set_pr_exit (code : Z) (p : Process) : Process :=
  mkProcess (pr_id p) (pr_parent p) PState.EXITED code (pr_space p) (pr_files p) (pr_threads p).
Definition set_pr_space (s : AddressSpace) (p : Process) : Process :=
  mkProcess (pr_id p) (pr_parent p) (pr_state p) (pr_exit_code p) s (pr_files p) (pr_threads p).
Definition set_pr_files (f : FileDescriptorTable) (p : Process) : Process :=
  mkProcess (pr_id p) (pr_parent p) (pr_state p) (pr_exit_code p) (pr_space p) f (pr_threads p).
Definition set_pr_threads (l : list ThreadRef) (p : Process) : Process :=
  mkProcess (pr_id p) (pr_parent p) (pr_state p) (pr_exit_code p) (pr_space p) (pr_files p) l.

(** ** Operations *)

(** The members are made first, among them the standard descriptors, and the id is checked last. *)
(* [src/os/proc/process.cpp] [Process::Process #2] *)
Definition make_process (id parent_id : Z) (space : AddressSpace) : M OpenFiles Process :=
  make_table ≫= fun files =>
  throw_if (negb (process_id_is_valid id)) invalid_argument ≫= fun _ =>
  mret (mkProcess id parent_id PState.RUNNING 0 space files []).
(* [src/os/proc/process.cpp] [Process::has_parent] *)
Definition has_parent (p : Process) : bool := process_id_is_valid (pr_parent p).
(* [src/os/proc/process.cpp] [Process::is_running] *)
Definition is_running (p : Process) : bool := bool_decide (pr_state p = PState.RUNNING).
(* [src/os/proc/process.cpp] [Process::is_exited] *)
Definition is_exited (p : Process) : bool := bool_decide (pr_state p = PState.EXITED).
(* [src/os/proc/process.cpp] [Process::is_reaped] *)
Definition is_reaped (p : Process) : bool := bool_decide (pr_state p = PState.REAPED).

(** A reference nothing in the store has: the place of an element put at the end of a deque. *)
Definition new_ref (ts : Threads) : ThreadRef := foldr (fun kv n => Z.max (kv.1 + 1) n) 1 (map_to_list ts).
(* [src/os/proc/process.cpp] [Process::contains_thread_id] *)
Definition contains_thread_id (id : Z) (ts : Threads) (p : Process) : bool :=
  existsb (fun r => match ts !! r with Some t => thread_id t =? id | None => false end) (pr_threads p).
(** [threads_.emplace_back(...)] builds the thread in place; when its constructor throws nothing is added. *)
(* [src/os/proc/process.cpp] [Process::create_thread] *)
Definition create_thread (id stack_bottom stack_size : Z) : M (Threads * Process) ThreadRef :=
  get ≫= fun s =>
  throw_if (negb (is_running s.2)) logic_error ≫= fun _ =>
  throw_if (contains_thread_id id s.1 s.2) logic_error ≫= fun _ =>
  lift (fun _ => make_thread id stack_bottom stack_size) ≫= fun thread =>
  let r := new_ref s.1 in
  put (<[r := thread]> s.1, set_pr_threads (pr_threads s.2 ++ [r]) s.2) ≫= fun _ =>
  mret r.
(* [src/os/proc/process.cpp] [Process::thread_count] *)
Definition thread_count (p : Process) : Z := lenZ (pr_threads p).
(* [src/os/proc/process.cpp] [Process::empty] *)
Definition empty (p : Process) : bool := bool_decide (pr_threads p = []).
(* [src/os/proc/process.cpp] [Process::thread_at] *)
Definition thread_at (index : Z) (p : Process) : res ThreadRef :=
  match pr_threads p !! Z.to_nat index with Some r => Ok r | None => Throw out_of_range end.
(* [src/os/proc/process.cpp] [Process::mark_exited] *)
Definition mark_exited (code : Z) : M Process unit :=
  get ≫= fun p =>
  throw_if (is_reaped p) logic_error ≫= fun _ =>
  throw_if (negb (is_running p)) logic_error ≫= fun _ =>
  put (set_pr_exit code p).
(* [src/os/proc/process.cpp] [Process::mark_reaped] *)
Definition mark_reaped : M Process unit :=
  get ≫= fun p =>
  throw_if (negb (is_exited p)) logic_error ≫= fun _ =>
  put (set_pr_state PState.REAPED p).

(** ** Behaviour *)

Lemma new_ref_fresh ts : ts !! new_ref ts = None.
Proof.
  assert (Hb : forall (l : list (Z * ThreadContext)) kv, kv ∈ l -> kv.1 < foldr (fun kv n => Z.max (kv.1 + 1) n) 1 l).
  { intros l. induction l as [|x l IH]; intros kv Hkv; [by apply not_elem_of_nil in Hkv|]. cbn [foldr].
    apply elem_of_cons in Hkv as [->|Hkv]; [lia|]. specialize (IH _ Hkv). lia. }
  destruct (ts !! new_ref ts) as [t|] eqn:E; [|done]. apply elem_of_map_to_list in E. specialize (Hb _ _ E).
  unfold new_ref in Hb. cbn [fst] in Hb. lia.
Qed.
Lemma new_ref_positive ts : 1 <= new_ref ts.
Proof. unfold new_ref. induction (map_to_list ts) as [|x l IH]; cbn [foldr]; lia. Qed.

(** What creating a thread does: all or nothing. *)
Lemma create_thread_spec id bottom size ts p :
  match make_thread id bottom size with
  | Ok thread =>
      if is_running p && negb (contains_thread_id id ts p)
      then create_thread id bottom size (ts, p) =
             ((<[new_ref ts := thread]> ts, set_pr_threads (pr_threads p ++ [new_ref ts]) p), Ok (new_ref ts))
      else create_thread id bottom size (ts, p) = ((ts, p), Throw logic_error)
  | Throw e =>
      create_thread id bottom size (ts, p) =
        ((ts, p), Throw (if is_running p && negb (contains_thread_id id ts p) then e else logic_error))
  end.
Proof.
  unfold create_thread. munfold_goal. cbn [fst snd].
  destruct (is_running p), (contains_thread_id id ts p), (make_thread id bottom size); done.
Qed.
Lemma mark_exited_eq code p : mark_exited code p = if is_running p then (set_pr_exit code p, Ok tt) else (p, Throw logic_error).
Proof. unfold mark_exited, is_running, is_reaped. munfold_goal. by destruct (pr_state p). Qed.
Lemma mark_reaped_eq p : mark_reaped p = if is_exited p then (set_pr_state PState.REAPED p, Ok tt) else (p, Throw logic_error).
Proof. unfold mark_reaped, is_exited. munfold_goal. by destruct (pr_state p). Qed.
