(* ===== verification/Kernel.v ===== *)
(** * Kernel

    Models src/os/kernel/kernel.cpp and boot_context.cpp: the object that owns every service of the
    operating system and composes them: booting, processes and threads, exit and wait, console and
    files, timer ticks, sleeping and futexes, inter-processor interrupts, shootdowns and handoffs.
    Each service is the state of its own file; a member function of a service is lifted to the kernel
    by zooming on it.  A service held in an [std::optional] is an [option], and reading an absent one
    throws, as [value()] does.  References to processes are their positions in the deque, which
    only grows; references to threads are keys of the store of Thread.v. *)

From S2P Require Import Prelude Logic Common PhysicalMemory MemoryBus Paging PageTable Tlb Page PageAlloc BlockDevice BufferCache Instruction CpuState Trap Decoder Executor Thread RoundRobin WaitQueue SleepQueue Futex Smp FsFormat SimpleFs Vfs Terminal Console FileDescriptor AddressSpace PageFaultHandler Apic CopyOnWrite UserProgram Elf UserLoader Process.

(** ** Data *)

Definition KERNEL_RESERVED_LOW_PAGE_COUNT : Z := 1.
Definition KERNEL_MIN_BOOTABLE_PAGE_COUNT : Z := KERNEL_RESERVED_LOW_PAGE_COUNT + 1.
Definition KERNEL_DEFAULT_TABLE_ARENA_PAGE_COUNT : Z := 16.
Definition KERNEL_DEFAULT_THREAD_STACK_BASE : Z := 0x70000000.
Definition KERNEL_THREAD_STACK_STRIDE : Z := MM_PAGE_SIZE_BYTES * 16.
Definition THREAD_CONTEXT_DEFAULT_KERNEL_STACK_SIZE_BYTES : Z := 4 * MM_PAGE_SIZE_BYTES.
Definition KERNEL_STAGE7_DEFAULT_TIMER_INTERVAL_TICKS : Z := 1.
Definition KERNEL_STAGE15_ROOT_BLOCK_COUNT : Z := 4096.
Definition KERNEL_STAGE15_BUFFER_CACHE_BLOCKS : Z := 64.
Definition KERNEL_STAGE15_ROOT_INODE_COUNT : Z := 128.

Module WaitStatus.
(* [include/mnos/os/kernel/kernel.hpp] [ProcessWaitStatus] *)
Inductive ProcessWaitStatus : Set := EXITED | BLOCKED | NO_CHILD | COUNT.
End WaitStatus.
Abbreviation ProcessWaitStatus := WaitStatus.ProcessWaitStatus.
#[export] Instance ProcessWaitStatus_eq_dec : EqDecision ProcessWaitStatus.
Proof. solve_decision. Defined.
(* [include/mnos/os/kernel/kernel.hpp] [ProcessWaitResult] *)
Record ProcessWaitResult : Set := mkWaitResult {
  wait_status : ProcessWaitStatus; wait_child : Z; wait_exit_code : Z; wait_has_exit_code : bool }.
(* [src/os/kernel/kernel.cpp] [ProcessWaitResult::exited] *)
Definition wait_exited (child_id exit_code : Z) : ProcessWaitResult := mkWaitResult WaitStatus.EXITED child_id exit_code true.
(* [src/os/kernel/kernel.cpp] [ProcessWaitResult::blocked] *)
Definition wait_blocked (child_id : Z) : ProcessWaitResult := mkWaitResult WaitStatus.BLOCKED child_id 0 false.
(* [src/os/kernel/kernel.cpp] [ProcessWaitResult::no_child] *)
Definition wait_no_child (child_id : Z) : ProcessWaitResult := mkWaitResult WaitStatus.NO_CHILD child_id 0 false.

(* [include/mnos/os/kernel/kernel.hpp] [SchedulerHandoff] *)
Record SchedulerHandoff : Set := mkHandoff {
  handoff_sequence : Z; handoff_source : Z; handoff_target : Z; handoff_thread : Z }.
(* [include/mnos/os/kernel/kernel.hpp] [ProcessWaitEntry] [371-376] *)
Record ProcessWaitEntry : Type := mkWaitEntry { entry_parent : Z; entry_child : Z; entry_queue : WaitQueue }.

(** The boot context is kept in the kernel: the bus of the machine, the size of its memory and its
    topology; its terminal is in the console. *)
(* [include/mnos/os/kernel/kernel.hpp] [Kernel] *)
Record Kernel (B D : Type) : Type := mkKernel {
  k_booted : bool;
  k_bus : B;
  k_memory_size : Z;
  k_topology : CoreTopology;
  k_allocator : option PhysicalPageAllocator;
  k_kernel_space : option AddressSpace;
  k_apic : option ApicSystem;
  k_smp : option SmpScheduler;
  k_threads : gmap Z ThreadContext;
  k_scheduler : RoundRobinScheduler;
  k_sleep : SleepQueue;
  k_shootdown : TlbShootdownController;
  k_cow : CopyOnWriteManager;
  k_futex : FutexTable;
  k_console : Console;
  k_store : option D;
  k_file_system : option SimpleFsLayout;
  k_open_files : OpenFiles;
  k_processes : list Process;
  k_wait_entries : list ProcessWaitEntry;
  k_handoffs : list SchedulerHandoff;
  k_last_trace : option (list ExecutionTraceEntry);
  k_next_pid : Z;
  k_next_tid : Z;
  k_next_sequence : Z;
  k_next_stack : Z;
  k_ticks : Z;
}.
Arguments mkKernel {B D}.
Arguments k_booted {B D}.
Arguments k_bus {B D}.
Arguments k_memory_size {B D}.
Arguments k_topology {B D}.
Arguments k_allocator {B D}.
Arguments k_kernel_space {B D}.
Arguments k_apic {B D}.
Arguments k_smp {B D}.
Arguments k_threads {B D}.
Arguments k_scheduler {B D}.
Arguments k_sleep {B D}.
Arguments k_shootdown {B D}.
Arguments k_cow {B D}.
Arguments k_futex {B D}.
Arguments k_console {B D}.
Arguments k_store {B D}.
Arguments k_file_system {B D}.
Arguments k_open_files {B D}.
Arguments k_processes {B D}.
Arguments k_wait_entries {B D}.
Arguments k_handoffs {B D}.
Arguments k_last_trace {B D}.
Arguments k_next_pid {B D}.
Arguments k_next_tid {B D}.
Arguments k_next_sequence {B D}.
Arguments k_next_stack {B D}.
Arguments k_ticks {B D}.
Section setters.
Context {B D : Type}.
Implicit Types k : Kernel B D.
Definition set_k_booted (v : bool) k : Kernel B D :=
  mkKernel v (k_bus k) (k_memory_size k) (k_topology k) (k_allocator k) (k_kernel_space k) (k_apic k) (k_smp k)
    (k_threads k) (k_scheduler k) (k_sleep k) (k_shootdown k) (k_cow k) (k_futex k) (k_console k) (k_store k)
    (k_file_system k) (k_open_files k) (k_processes k) (k_wait_entries k) (k_handoffs k) (k_last_trace k)
    (k_next_pid k) (k_next_tid k) (k_next_sequence k) (k_next_stack k) (k_ticks k).
Definition set_k_bus (v : B) k : Kernel B D :=
  mkKernel (k_booted k) v (k_memory_size k) (k_topology k) (k_allocator k) (k_kernel_space k) (k_apic k) (k_smp k)
    (k_threads k) (k_scheduler k) (k_sleep k) (k_shootdown k) (k_cow k) (k_futex k) (k_console k) (k_store k)
    (k_file_system k) (k_open_files k) (k_processes k) (k_wait_entries k) (k_handoffs k) (k_last_trace k)
    (k_next_pid k) (k_next_tid k) (k_next_sequence k) (k_next_stack k) (k_ticks k).
Definition set_k_allocator (v : option PhysicalPageAllocator) k : Kernel B D :=
  mkKernel (k_booted k) (k_bus k) (k_memory_size k) (k_topology k) v (k_kernel_space k) (k_apic k) (k_smp k)
    (k_threads k) (k_scheduler k) (k_sleep k) (k_shootdown k) (k_cow k) (k_futex k) (k_console k) (k_store k)
    (k_file_system k) (k_open_files k) (k_processes k) (k_wait_entries k) (k_handoffs k) (k_last_trace k)
    (k_next_pid k) (k_next_tid k) (k_next_sequence k) (k_next_stack k) (k_ticks k).
Definition set_k_kernel_space (v : option AddressSpace) k : Kernel B D :=
  mkKernel (k_booted k) (k_bus k) (k_memory_size k) (k_topology k) (k_allocator k) v (k_apic k) (k_smp k)
    (k_threads k) (k_scheduler k) (k_sleep k) (k_shootdown k) (k_cow k) (k_futex k) (k_console k) (k_store k)
    (k_file_system k) (k_open_files k) (k_processes k) (k_wait_entries k) (k_handoffs k) (k_last_trace k)
    (k_next_pid k) (k_next_tid k) (k_next_sequence k) (k_next_stack k) (k_ticks k).
Definition set_k_apic (v : option ApicSystem) k : Kernel B D :=
  mkKernel (k_booted k) (k_bus k) (k_memory_size k) (k_topology k) (k_allocator k) (k_kernel_space k) v (k_smp k)
    (k_threads k) (k_scheduler k) (k_sleep k) (k_shootdown k) (k_cow k) (k_futex k) (k_console k) (k_store k)
    (k_file_system k) (k_open_files k) (k_processes k) (k_wait_entries k) (k_handoffs k) (k_last_trace k)
    (k_next_pid k) (k_next_tid k) (k_next_sequence k) (k_next_stack k) (k_ticks k).
Definition set_k_smp (v : option SmpScheduler) k : Kernel B D :=
  mkKernel (k_booted k) (k_bus k) (k_memory_size k) (k_topology k) (k_allocator k) (k_kernel_space k) (k_apic k) v
    (k_threads k) (k_scheduler k) (k_sleep k) (k_shootdown k) (k_cow k) (k_futex k) (k_console k) (k_store k)
    (k_file_system k) (k_open_files k) (k_processes k) (k_wait_entries k) (k_handoffs k) (k_last_trace k)
    (k_next_pid k) (k_next_tid k) (k_next_sequence k) (k_next_stack k) (k_ticks k).
Definition set_k_threads (v : gmap Z ThreadContext) k : Kernel B D :=
  mkKernel (k_booted k) (k_bus k) (k_memory_size k) (k_topology k) (k_allocator k) (k_kernel_space k) (k_apic k)
    (k_smp k) v (k_scheduler k) (k_sleep k) (k_shootdown k) (k_cow k) (k_futex k) (k_console k) (k_store k)
    (k_file_system k) (k_open_files k) (k_processes k) (k_wait_entries k) (k_handoffs k) (k_last_trace k)
    (k_next_pid k) (k_next_tid k) (k_next_sequence k) (k_next_stack k) (k_ticks k).
Definition set_k_scheduler (v : RoundRobinScheduler) k : Kernel B D :=
  mkKernel (k_booted k) (k_bus k) (k_memory_size k) (k_topology k) (k_allocator k) (k_kernel_space k) (k_apic k)
    (k_smp k) (k_threads k) v (k_sleep k) (k_shootdown k) (k_cow k) (k_futex k) (k_console k) (k_store k)
    (k_file_system k) (k_open_files k) (k_processes k) (k_wait_entries k) (k_handoffs k) (k_last_trace k)
    (k_next_pid k) (k_next_tid k) (k_next_sequence k) (k_next_stack k) (k_ticks k).
Definition set_k_sleep (v : SleepQueue) k : Kernel B D :=
  mkKernel (k_booted k) (k_bus k) (k_memory_size k) (k_topology k) (k_allocator k) (k_kernel_space k) (k_apic k)
    (k_smp k) (k_threads k) (k_scheduler k) v (k_shootdown k) (k_cow k) (k_futex k) (k_console k) (k_store k)
    (k_file_system k) (k_open_files k) (k_processes k) (k_wait_entries k) (k_handoffs k) (k_last_trace k)
    (k_next_pid k) (k_next_tid k) (k_next_sequence k) (k_next_stack k) (k_ticks k).
Definition set_k_shootdown (v : TlbShootdownController) k : Kernel B D :=
  mkKernel (k_booted k) (k_bus k) (k_memory_size k) (k_topology k) (k_allocator k) (k_kernel_space k) (k_apic k)
    (k_smp k) (k_threads k) (k_scheduler k) (k_sleep k) v (k_cow k) (k_futex k) (k_console k) (k_store k)
    (k_file_system k) (k_open_files k) (k_processes k) (k_wait_entries k) (k_handoffs k) (k_last_trace k)
    (k_next_pid k) (k_next_tid k) (k_next_sequence k) (k_next_stack k) (k_ticks k).
Definition set_k_cow (v : CopyOnWriteManager) k : Kernel B D :=
  mkKernel (k_booted k) (k_bus k) (k_memory_size k) (k_topology k) (k_allocator k) (k_kernel_space k) (k_apic k)
    (k_smp k) (k_threads k) (k_scheduler k) (k_sleep k) (k_shootdown k) v (k_futex k) (k_console k) (k_store k)
    (k_file_system k) (k_open_files k) (k_processes k) (k_wait_entries k) (k_handoffs k) (k_last_trace k)
    (k_next_pid k) (k_next_tid k) (k_next_sequence k) (k_next_stack k) (k_ticks k).
Definition set_k_futex (v : FutexTable) k : Kernel B D :=
  mkKernel (k_booted k) (k_bus k) (k_memory_size k) (k_topology k) (k_allocator k) (k_kernel_space k) (k_apic k)
    (k_smp k) (k_threads k) (k_scheduler k) (k_sleep k) (k_shootdown k) (k_cow k) v (k_console k) (k_store k)
    (k_file_system k) (k_open_files k) (k_processes k) (k_wait_entries k) (k_handoffs k) (k_last_trace k)
    (k_next_pid k) (k_next_tid k) (k_next_sequence k) (k_next_stack k) (k_ticks k).
Definition set_k_console (v : Console) k : Kernel B D :=
  mkKernel (k_booted k) (k_bus k) (k_memory_size k) (k_topology k) (k_allocator k) (k_kernel_space k) (k_apic k)
    (k_smp k) (k_threads k) (k_scheduler k) (k_sleep k) (k_shootdown k) (k_cow k) (k_futex k) v (k_store k)
    (k_file_system k) (k_open_files k) (k_processes k) (k_wait_entries k) (k_handoffs k) (k_last_trace k)
    (k_next_pid k) (k_next_tid k) (k_next_sequence k) (k_next_stack k) (k_ticks k).
Definition set_k_store (v : option D) k : Kernel B D :=
  mkKernel (k_booted k) (k_bus k) (k_memory_size k) (k_topology k) (k_allocator k) (k_kernel_space k) (k_apic k)
    (k_smp k) (k_threads k) (k_scheduler k) (k_sleep k) (k_shootdown k) (k_cow k) (k_futex k) (k_console k) v
    (k_file_system k) (k_open_files k) (k_processes k) (k_wait_entries k) (k_handoffs k) (k_last_trace k)
    (k_next_pid k) (k_next_tid k) (k_next_sequence k) (k_next_stack k) (k_ticks k).
Definition set_k_file_system (v : option SimpleFsLayout) k : Kernel B D :=
  mkKernel (k_booted k) (k_bus k) (k_memory_size k) (k_topology k) (k_allocator k) (k_kernel_space k) (k_apic k)
    (k_smp k) (k_threads k) (k_scheduler k) (k_sleep k) (k_shootdown k) (k_cow k) (k_futex k) (k_console k)
    (k_store k) v (k_open_files k) (k_processes k) (k_wait_entries k) (k_handoffs k) (k_last_trace k) (k_next_pid k)
    (k_next_tid k) (k_next_sequence k) (k_next_stack k) (k_ticks k).
Definition set_k_open_files (v : OpenFiles) k : Kernel B D :=
  mkKernel (k_booted k) (k_bus k) (k_memory_size k) (k_topology k) (k_allocator k) (k_kernel_space k) (k_apic k)
    (k_smp k) (k_threads k) (k_scheduler k) (k_sleep k) (k_shootdown k) (k_cow k) (k_futex k) (k_console k)
    (k_store k) (k_file_system k) v (k_processes k) (k_wait_entries k) (k_handoffs k) (k_last_trace k) (k_next_pid k)
    (k_next_tid k) (k_next_sequence k) (k_next_stack k) (k_ticks k).
Definition set_k_processes (v : list Process) k : Kernel B D :=
  mkKernel (k_booted k) (k_bus k) (k_memory_size k) (k_topology k) (k_allocator k) (k_kernel_space k) (k_apic k)
    (k_smp k) (k_threads k) (k_scheduler k) (k_sleep k) (k_shootdown k) (k_cow k) (k_futex k) (k_console k)
    (k_store k) (k_file_system k) (k_open_files k) v (k_wait_entries k) (k_handoffs k) (k_last_trace k) (k_next_pid k)
    (k_next_tid k) (k_next_sequence k) (k_next_stack k) (k_ticks k).
Definition set_k_wait_entries (v : list ProcessWaitEntry) k : Kernel B D :=
  mkKernel (k_booted k) (k_bus k) (k_memory_size k) (k_topology k) (k_allocator k) (k_kernel_space k) (k_apic k)
    (k_smp k) (k_threads k) (k_scheduler k) (k_sleep k) (k_shootdown k) (k_cow k) (k_futex k) (k_console k)
    (k_store k) (k_file_system k) (k_open_files k) (k_processes k) v (k_handoffs k) (k_last_trace k) (k_next_pid k)
    (k_next_tid k) (k_next_sequence k) (k_next_stack k) (k_ticks k).
Definition set_k_handoffs (v : list SchedulerHandoff) k : Kernel B D :=
  mkKernel (k_booted k) (k_bus k) (k_memory_size k) (k_topology k) (k_allocator k) (k_kernel_space k) (k_apic k)
    (k_smp k) (k_threads k) (k_scheduler k) (k_sleep k) (k_shootdown k) (k_cow k) (k_futex k) (k_console k)
    (k_store k) (k_file_system k) (k_open_files k) (k_processes k) (k_wait_entries k) v (k_last_trace k)
    (k_next_pid k) (k_next_tid k) (k_next_sequence k) (k_next_stack k) (k_ticks k).
Definition set_k_last_trace (v : option (list ExecutionTraceEntry)) k : Kernel B D :=
  mkKernel (k_booted k) (k_bus k) (k_memory_size k) (k_topology k) (k_allocator k) (k_kernel_space k) (k_apic k)
    (k_smp k) (k_threads k) (k_scheduler k) (k_sleep k) (k_shootdown k) (k_cow k) (k_futex k) (k_console k)
    (k_store k) (k_file_system k) (k_open_files k) (k_processes k) (k_wait_entries k) (k_handoffs k) v (k_next_pid k)
    (k_next_tid k) (k_next_sequence k) (k_next_stack k) (k_ticks k).
Definition set_k_next_pid (v : Z) k : Kernel B D :=
  mkKernel (k_booted k) (k_bus k) (k_memory_size k) (k_topology k) (k_allocator k) (k_kernel_space k) (k_apic k)
    (k_smp k) (k_threads k) (k_scheduler k) (k_sleep k) (k_shootdown k) (k_cow k) (k_futex k) (k_console k)
    (k_store k) (k_file_system k) (k_open_files k) (k_processes k) (k_wait_entries k) (k_handoffs k) (k_last_trace k)
    v (k_next_tid k) (k_next_sequence k) (k_next_stack k) (k_ticks k).
Definition set_k_next_tid (v : Z) k : Kernel B D :=
  mkKernel (k_booted k) (k_bus k) (k_memory_size k) (k_topology k) (k_allocator k) (k_kernel_space k) (k_apic k)
    (k_smp k) (k_threads k) (k_scheduler k) (k_sleep k) (k_shootdown k) (k_cow k) (k_futex k) (k_console k)
    (k_store k) (k_file_system k) (k_open_files k) (k_processes k) (k_wait_entries k) (k_handoffs k) (k_last_trace k)
    (k_next_pid k) v (k_next_sequence k) (k_next_stack k) (k_ticks k).
Definition set_k_next_sequence (v : Z) k : Kernel B D :=
  mkKernel (k_booted k) (k_bus k) (k_memory_size k) (k_topology k) (k_allocator k) (k_kernel_space k) (k_apic k)
    (k_smp k) (k_threads k) (k_scheduler k) (k_sleep k) (k_shootdown k) (k_cow k) (k_futex k) (k_console k)
    (k_store k) (k_file_system k) (k_open_files k) (k_processes k) (k_wait_entries k) (k_handoffs k) (k_last_trace k)
    (k_next_pid k) (k_next_tid k) v (k_next_stack k) (k_ticks k).
Definition set_k_next_stack (v : Z) k : Kernel B D :=
  mkKernel (k_booted k) (k_bus k) (k_memory_size k) (k_topology k) (k_allocator k) (k_kernel_space k) (k_apic k)
    (k_smp k) (k_threads k) (k_scheduler k) (k_sleep k) (k_shootdown k) (k_cow k) (k_futex k) (k_console k)
    (k_store k) (k_file_system k) (k_open_files k) (k_processes k) (k_wait_entries k) (k_handoffs k) (k_last_trace k)
    (k_next_pid k) (k_next_tid k) (k_next_sequence k) v (k_ticks k).
Definition set_k_ticks (v : Z) k : Kernel B D :=
  mkKernel (k_booted k) (k_bus k) (k_memory_size k) (k_topology k) (k_allocator k) (k_kernel_space k) (k_apic k)
    (k_smp k) (k_threads k) (k_scheduler k) (k_sleep k) (k_shootdown k) (k_cow k) (k_futex k) (k_console k)
    (k_store k) (k_file_system k) (k_open_files k) (k_processes k) (k_wait_entries k) (k_handoffs k) (k_last_trace k)
    (k_next_pid k) (k_next_tid k) (k_next_sequence k) (k_next_stack k) v.
End setters.

(** What the boot context takes from the machine. *)
(* [include/mnos/os/platform/machine.hpp] [Machine] *)
Record Machine (B : Type) : Type := mkPlatform {
  machine_bus : B; machine_memory_size : Z; machine_topology : CoreTopology; machine_terminal : TerminalDevice }.
Arguments mkPlatform {B}.
Arguments machine_bus {B}.
Arguments machine_memory_size {B}.
Arguments machine_topology {B}.
Arguments machine_terminal {B}.
(* [src/os/kernel/boot_context.cpp] [BootContext::BootContext #2] *)
Definition check_boot_context {B} (m : Machine B) (bootstrap_processor_count : Z) : res unit :=
  throw_when (machine_memory_size m =? 0) invalid_argument ≫= fun _ =>
  throw_when (bootstrap_processor_count =? 0) invalid_argument ≫= fun _ =>
  throw_when (core_count (machine_topology m) <? bootstrap_processor_count) invalid_argument.
(* [src/os/kernel/boot_context.cpp] [BootContext::physical_page_count] *)
Definition physical_page_count {B D} (k : Kernel B D) : Z := k_memory_size k / MM_PAGE_SIZE_BYTES.
(* [src/os/kernel/kernel.cpp] [Kernel::Kernel] *)
Definition make_kernel {B D} (m : Machine B) : Kernel B D := {|
  k_booted := false; k_bus := machine_bus m; k_memory_size := machine_memory_size m; k_topology := machine_topology m;
  k_allocator := None; k_kernel_space := None; k_apic := None; k_smp := None;
  k_threads := ∅; k_scheduler := mkRoundRobin [] None; k_sleep := mkSleepQueue []; k_shootdown := make_controller;
  k_cow := make_cow_manager; k_futex := mkFutexTable []; k_console := make_console (machine_terminal m);
  k_store := None; k_file_system := None; k_open_files := mkOpenFiles ∅ 0;
  k_processes := []; k_wait_entries := []; k_handoffs := []; k_last_trace := None;
  k_next_pid := PROCESS_ID_FIRST_USER_VALUE; k_next_tid := 1; k_next_sequence := 1;
  k_next_stack := KERNEL_DEFAULT_THREAD_STACK_BASE; k_ticks := 0 |}.

(** ** Member functions of the services, lifted *)

Section kernel.
Context {B D : Type} `{MemoryBus B} `{FlushStore D}.
Abbreviation K := (Kernel B D).
Abbreviation KM A := (M (Kernel B D) A).
Abbreviation ProcessRef := nat (only parsing).

(** [optional.value()] and a call on it. *)
Definition value {T} (get : K -> option T) : KM T :=
  lift (fun k => match get k with Some t => Ok t | None => Throw bad_optional_access end).
Definition on_optional {T A} (get : K -> option T) (set : option T -> K -> K) (call : M T A) : KM A := fun k =>
  match get k with
  | Some t => let '(t', r) := call t in (set (Some t') k, r)
  | None => (k, Throw bad_optional_access)
  end.
Definition on_pages {A} : M PhysicalPageAllocator A -> KM A := on_optional k_allocator set_k_allocator.
Definition on_apic {A} : M ApicSystem A -> KM A := on_optional k_apic set_k_apic.
Definition on_vfs_store {A} : M D A -> KM A := on_optional k_store set_k_store.
Definition on_bus {A} : M B A -> KM A := zoom k_bus set_k_bus.
Definition on_threads_and {Q A} (get : K -> Q) (set : Q -> K -> K) (call : QueueM Q A) : KM A :=
  zoom (fun k => (k_threads k, get k)) (fun s k => set s.2 (set_k_threads s.1 k)) call.
Definition on_scheduler {A} : QueueM RoundRobinScheduler A -> KM A := on_threads_and k_scheduler set_k_scheduler.
Definition on_sleepers {A} : QueueM SleepQueue A -> KM A := on_threads_and k_sleep set_k_sleep.
Definition on_futexes {A} : QueueM FutexTable A -> KM A := on_threads_and k_futex set_k_futex.
Definition on_console {A} : QueueM Console A -> KM A := on_threads_and k_console set_k_console.
Definition on_smp {A} (call : QueueM SmpScheduler A) : KM A := fun k =>
  match k_smp k with
  | Some s => let '((ts, s'), r) := call (k_threads k, s) in (set_k_smp (Some s') (set_k_threads ts k), r)
  | None => (k, Throw bad_optional_access)
  end.
(** A member function of a thread or of a process; the code follows no dangling reference. *)
Definition on_thread {A} (t : ThreadRef) (call : M ThreadContext A) : KM A := fun k =>
  match k_threads k !! t with
  | Some c => let '(c', r) := call c in (set_k_threads (<[t := c']> (k_threads k)) k, r)
  | None => (k, Throw logic_error)
  end.
Definition on_thread_cpu {A} (t : ThreadRef) (call : M CpuState A) : KM A :=
  on_thread t (zoom thread_cpu_state set_thread_cpu call).
Definition process_of (p : ProcessRef) (k : K) : res Process :=
  match k_processes k !! p with Some pr => Ok pr | None => Throw logic_error end.
Definition thread_of (t : ThreadRef) (k : K) : res ThreadContext :=
  match k_threads k !! t with Some c => Ok c | None => Throw logic_error end.
Definition on_process {A} (p : ProcessRef) (call : M Process A) : KM A := fun k =>
  match k_processes k !! p with
  | Some pr => let '(pr', r) := call pr in (set_k_processes (<[p := pr']> (k_processes k)) k, r)
  | None => (k, Throw logic_error)
  end.
(** [process.address_space()] on the bus of the machine. *)
Definition on_process_space {A} (p : ProcessRef) (call : M (AddressSpace * B) A) : KM A := fun k =>
  match k_processes k !! p with
  | Some pr =>
      let '((s, b), r) := call (pr_space pr, k_bus k) in
      (set_k_bus b (set_k_processes (<[p := set_pr_space s pr]> (k_processes k)) k), r)
  | None => (k, Throw logic_error)
  end.
(** [process.file_descriptors()] over the store of descriptions. *)
Definition on_process_files {A} (p : ProcessRef) (call : M (OpenFiles * FileDescriptorTable) A) : KM A := fun k =>
  match k_processes k !! p with
  | Some pr =>
      let '((o, f), r) := call (k_open_files k, pr_files pr) in
      (set_k_open_files o (set_k_processes (<[p := set_pr_files f pr]> (k_processes k)) k), r)
  | None => (k, Throw logic_error)
  end.
(** [UserLoader{physical_page_allocator, memory_bus}] working on a process. *)
Definition on_loader {A} (p : ProcessRef) (call : M (Loader B) A) : KM A := fun k =>
  match k_allocator k, k_processes k !! p with
  | Some a, Some pr =>
      let '(l, r) := call (mkLoader a (pr_space pr) (k_bus k)) in
      (set_k_bus (ld_bus l) (set_k_allocator (Some (ld_allocator l))
        (set_k_processes (<[p := set_pr_space (ld_space l) pr]> (k_processes k)) k)), r)
  | None, _ => (k, Throw bad_optional_access)
  | _, None => (k, Throw logic_error)
  end.
(** The objects of a page fault of thread [t]: the space is the kernel's or that of a process. *)
Definition on_faulting {A} (p : option ProcessRef) (t : ThreadRef) (call : M (CopyOnWriteManager * Faulting B) A) : KM A := fun k =>
  match k_allocator k,
        match p with Some i => pr_space <$> k_processes k !! i | None => k_kernel_space k end,
        k_threads k !! t
  with
  | Some a, Some s, Some c =>
      let '((w, f), r) := call (k_cow k, mkFaulting a s (k_bus k) (thread_cpu_state c)) in
      let k1 := set_k_threads (<[t := set_thread_cpu (cpu_state_ f) c]> (k_threads k))
        (set_k_bus (memory_bus_ f) (set_k_allocator (Some (allocator_ f)) (set_k_cow w k))) in
      (match p with
       | Some i => set_k_processes (alter (set_pr_space (address_space_ f)) i (k_processes k1)) k1
       | None => set_k_kernel_space (Some (address_space_ f)) k1
       end, r)
  | None, _, _ => (k, Throw bad_optional_access)
  | _, _, _ => (k, Throw logic_error)
  end.

(** ** Readiness *)

Definition present {T} (o : option T) : bool := match o with Some _ => true | None => false end.
(* [src/os/kernel/kernel.cpp] [Kernel::has_stage5_services] *)
Definition has_stage5_services (k : K) : bool := present (k_allocator k) && present (k_kernel_space k).
(* [src/os/kernel/kernel.cpp] [Kernel::has_stage7_services] *)
Definition has_stage7_services (k : K) : bool := has_stage5_services k && present (k_apic k).
(** Stages 10 to 13 add no service of their own. *)
(* [src/os/kernel/kernel.cpp] [Kernel::has_stage9_services] [389-412] *)
Definition has_stage9_services (k : K) : bool := has_stage7_services k && present (k_smp k).
(* [src/os/kernel/kernel.cpp] [Kernel::has_stage15_services] *)
Definition has_stage15_services (k : K) : bool := has_stage9_services k && present (k_store k) && present (k_file_system k).
(* [src/os/kernel/kernel.cpp] [Kernel::require_booted] *)
Definition require_booted : KM unit := lift (fun k => throw_when (negb (k_booted k)) logic_error).
Definition require (ready : K -> bool) : KM unit :=
  require_booted ≫= fun _ => lift (fun k => throw_when (negb (ready k)) logic_error).
(* [src/os/kernel/kernel.cpp] [Kernel::require_stage5_services] *)
Definition require_stage5_services : KM unit := require has_stage5_services.
(* [src/os/kernel/kernel.cpp] [Kernel::require_stage7_services] *)
Definition require_stage7_services : KM unit := require has_stage7_services.
(** Also the checks for the stages 10 to 13, whose services are these. *)
(* [src/os/kernel/kernel.cpp] [Kernel::require_stage9_services] [1501-1535] *)
Definition require_stage9_services : KM unit := require has_stage9_services.
(* [src/os/kernel/kernel.cpp] [Kernel::require_stage15_services] *)
Definition require_stage15_services : KM unit := require has_stage15_services.

(** ** Processes and threads *)

(* [src/os/kernel/kernel.cpp] [Kernel::create_address_space] *)
Definition create_address_space (table_arena_page_count : Z) : KM AddressSpace :=
  value k_allocator ≫= fun allocator =>
  let free := free_page_count allocator in
  let actual := if table_arena_page_count <? free then table_arena_page_count else free in
  throw_if (actual =? 0) bad_alloc ≫= fun _ =>
  on_pages (allocate_contiguous actual) ≫= fun start =>
  on_bus (make_space start (add64 start MM_PAGE_SIZE_BYTES) (add64 start (mul64 actual MM_PAGE_SIZE_BYTES))).
(* [src/os/kernel/kernel.cpp] [Kernel::next_kernel_stack_bottom] *)
Definition next_kernel_stack_bottom : KM Z :=
  gets k_next_stack ≫= fun bottom =>
  modify (set_k_next_stack (add64 bottom KERNEL_THREAD_STACK_STRIDE)) ≫= fun _ =>
  mret bottom.
Definition take_process_id : KM Z :=
  gets k_next_pid ≫= fun id => modify (set_k_next_pid (wrap64 (id + 1))) ≫= fun _ => mret id.
Definition take_thread_id : KM Z :=
  gets k_next_tid ≫= fun id => modify (set_k_next_tid (wrap64 (id + 1))) ≫= fun _ => mret id.
(* [src/os/kernel/kernel.cpp] [Kernel::create_process_with_parent] *)
Definition create_process_with_parent (parent_id : Z) : KM ProcessRef :=
  require_stage5_services ≫= fun _ =>
  take_process_id ≫= fun id =>
  create_address_space KERNEL_DEFAULT_TABLE_ARENA_PAGE_COUNT ≫= fun space =>
  zoom k_open_files set_k_open_files (make_process id parent_id space) ≫= fun process =>
  gets (fun k => length (k_processes k)) ≫= fun p =>
  modify (fun k => set_k_processes (k_processes k ++ [process]) k) ≫= fun _ =>
  mret p.
(** The constructor without a parent is the one with the invalid id. *)
(* [src/os/kernel/kernel.cpp] [Kernel::create_process] *)
Definition create_process : KM ProcessRef := create_process_with_parent PROCESS_ID_INVALID_VALUE.
(** [process.create_thread(...)] on the store of threads. *)
Definition create_process_thread (p : ProcessRef) (id bottom size : Z) : KM ThreadRef := fun k =>
  match k_processes k !! p with
  | Some pr =>
      let '((ts, pr'), r) := Process.create_thread id bottom size (k_threads k, pr) in
      (set_k_threads ts (set_k_processes (<[p := pr']> (k_processes k)) k), r)
  | None => (k, Throw logic_error)
  end.
(* [src/os/kernel/kernel.cpp] [Kernel::create_thread #2] *)
Definition create_thread_with_stack (p : ProcessRef) (bottom size : Z) : KM ThreadRef :=
  require_stage5_services ≫= fun _ =>
  take_thread_id ≫= fun id =>
  create_process_thread p id bottom size ≫= fun t =>
  on_scheduler (RoundRobin.enqueue t) ≫= fun _ =>
  mret t.
(* [src/os/kernel/kernel.cpp] [Kernel::create_thread] *)
Definition create_thread (p : ProcessRef) : KM ThreadRef :=
  next_kernel_stack_bottom ≫= fun bottom => create_thread_with_stack p bottom THREAD_CONTEXT_DEFAULT_KERNEL_STACK_SIZE_BYTES.
(* [src/os/kernel/kernel.cpp] [Kernel::create_thread_on_core #2] *)
Definition create_thread_on_core_with_stack (p : ProcessRef) (target_core bottom size : Z) : KM ThreadRef :=
  require_stage9_services ≫= fun _ =>
  on_smp (Smp.queue_for_core target_core) ≫= fun _ =>
  take_thread_id ≫= fun id =>
  create_process_thread p id bottom size ≫= fun t =>
  on_smp (Smp.enqueue_on t target_core) ≫= fun _ =>
  mret t.
(* [src/os/kernel/kernel.cpp] [Kernel::create_thread_on_core] *)
Definition create_thread_on_core (p : ProcessRef) (target_core : Z) : KM ThreadRef :=
  next_kernel_stack_bottom ≫= fun bottom =>
  create_thread_on_core_with_stack p target_core bottom THREAD_CONTEXT_DEFAULT_KERNEL_STACK_SIZE_BYTES.
(* [src/os/kernel/kernel.cpp] [Kernel::load_user_program #2] *)
Definition load_user_program (p : ProcessRef) (program : UserProgram) (a : UserProgramArguments) : KM UserProcessImage :=
  require_stage9_services ≫= fun _ =>
  on_loader p (load_with_arguments program a).
(* [src/os/kernel/kernel.cpp] [Kernel::create_user_thread] *)
Definition create_user_thread (p : ProcessRef) (image : UserProcessImage) : KM ThreadRef :=
  require_stage9_services ≫= fun _ =>
  take_thread_id ≫= fun id =>
  next_kernel_stack_bottom ≫= fun bottom =>
  create_process_thread p id bottom THREAD_CONTEXT_DEFAULT_KERNEL_STACK_SIZE_BYTES ≫= fun t =>
  lift (process_of p) ≫= fun process =>
  on_thread t (initialize_user_thread image (pr_id process) (pr_space process)) ≫= fun _ =>
  on_scheduler (RoundRobin.enqueue t) ≫= fun _ =>
  mret t.
(* [src/os/kernel/kernel.cpp] [Kernel::create_user_process #4] *)
Definition create_user_process_with_parent (program : UserProgram) (parent_id : Z) (a : UserProgramArguments) : KM ProcessRef :=
  create_process_with_parent parent_id ≫= fun p =>
  load_user_program p program a ≫= fun image =>
  create_user_thread p image ≫= fun _ =>
  mret p.
(* [src/os/kernel/kernel.cpp] [Kernel::create_user_process #2] *)
Definition create_user_process (program : UserProgram) (a : UserProgramArguments) : KM ProcessRef :=
  create_process ≫= fun p =>
  load_user_program p program a ≫= fun image =>
  create_user_thread p image ≫= fun _ =>
  mret p.
(* [src/os/kernel/kernel.cpp] [Kernel::find_process_by_id] *)
Definition find_process_by_id (id : Z) (k : K) : option ProcessRef :=
  fst <$> list_find (fun pr => pr_id pr = id) (k_processes k).
(** [this->scheduler_.has_current() && &this->scheduler_.current() == &thread]. *)
Definition is_current (t : ThreadRef) (k : K) : bool := bool_decide (current_thread (k_scheduler k) = Some t).

(** ** Exit and wait *)

(** The wait queue of the entry at [i]. *)
Definition on_wait_entry {A} (i : nat) (call : QueueM WaitQueue A) : KM A := fun k =>
  match k_wait_entries k !! i with
  | Some e =>
      let '((ts, q), r) := call (k_threads k, entry_queue e) in
      (set_k_threads ts (set_k_wait_entries (<[i := mkWaitEntry (entry_parent e) (entry_child e) q]> (k_wait_entries k)) k), r)
  | None => (k, Throw logic_error)
  end.
(** The reference to the entry, as its position. *)
(* [src/os/kernel/kernel.cpp] [Kernel::process_wait_entry] *)
Definition process_wait_entry (parent_id child_id : Z) : KM nat :=
  get ≫= fun k =>
  match list_find (fun e => entry_parent e = parent_id /\ entry_child e = child_id) (k_wait_entries k) with
  | Some (i, _) => mret i
  | None =>
      put (set_k_wait_entries (k_wait_entries k ++ [mkWaitEntry parent_id child_id (mkWaitQueue [])]) k) ≫= fun _ =>
      mret (length (k_wait_entries k))
  end.
(* [src/os/kernel/kernel.cpp] [Kernel::remove_process_wait_entries_for_child] *)
Definition remove_process_wait_entries_for_child (child_id : Z) : KM unit :=
  modify (fun k => set_k_wait_entries (filter (fun e => entry_child e <> child_id) (k_wait_entries k)) k).
Definition wake_each (ts : list ThreadRef) : KM unit := for_each ts (fun t => on_scheduler (RoundRobin.wake t)).
(* [src/os/kernel/kernel.cpp] [Kernel::wake_process_waiters] *)
Definition wake_process_waiters (child_id : Z) : KM unit :=
  gets (fun k => length (k_wait_entries k)) ≫= fun n =>
  for_each (seq 0 n) (fun i =>
    gets (fun k => entry_child <$> k_wait_entries k !! i) ≫= fun child =>
    if negb (bool_decide (child = Some child_id)) then mret tt
    else on_wait_entry i Wait.wake_all ≫= fun waiters => wake_each waiters) ≫= fun _ =>
  remove_process_wait_entries_for_child child_id.
(** The body of the loop over the threads of an exiting process. *)
(* [src/os/kernel/kernel.cpp] [Kernel::exit_process] [824-836] *)
Definition exit_thread (t : ThreadRef) : KM unit :=
  get ≫= fun k =>
  if negb (alive (k_threads k) t) then mret tt
  else if is_current t k then on_scheduler RoundRobin.exit_current ≫= fun _ => mret tt
  else modify (fun k => set_k_threads (store_state t TState.DEAD (k_threads k)) k).
(* [src/os/kernel/kernel.cpp] [Kernel::exit_process] *)
Definition exit_process (p : ProcessRef) (exit_code : Z) : KM unit :=
  require_stage9_services ≫= fun _ =>
  lift (process_of p) ≫= fun process =>
  if negb (is_running process) then mret tt
  else
    on_process p (mark_exited exit_code) ≫= fun _ =>
    for_each (pr_threads process) exit_thread ≫= fun _ =>
    wake_process_waiters (pr_id process).
(* [src/os/kernel/kernel.cpp] [Kernel::wait_process] *)
Definition wait_process (parent : ProcessRef) (waiter : ThreadRef) (child_id : Z) : KM ProcessWaitResult :=
  require_stage9_services ≫= fun _ =>
  lift (process_of parent) ≫= fun parent_process =>
  gets (find_process_by_id child_id) ≫= fun found =>
  match found with
  | None => mret (wait_no_child child_id)
  | Some child =>
      lift (process_of child) ≫= fun child_process =>
      if negb (pr_parent child_process =? pr_id parent_process) || is_reaped child_process then mret (wait_no_child child_id)
      else if is_exited child_process then
        on_process child mark_reaped ≫= fun _ =>
        remove_process_wait_entries_for_child child_id ≫= fun _ =>
        mret (wait_exited child_id (pr_exit_code child_process))
      else
        process_wait_entry (pr_id parent_process) child_id ≫= fun i =>
        on_wait_entry i (Wait.wait waiter) ≫= fun _ =>
        gets (is_current waiter) ≫= fun current =>
        (if current : bool then on_scheduler RoundRobin.block_current ≫= fun _ => mret tt else mret tt) ≫= fun _ =>
        mret (wait_blocked child_id)
  end.

(** ** Copy on write and page faults *)

(** The spaces of two processes, the manager and the bus. *)
Definition on_sharing {A} (parent child : ProcessRef) (call : M (Sharing B) A) : KM A := fun k =>
  match k_processes k !! parent, k_processes k !! child with
  | Some pp, Some pc =>
      let '(s, r) := call (mkSharing (k_cow k) (pr_space pp) (pr_space pc) (k_bus k)) in
      (set_k_bus (shared_bus s) (set_k_cow (sharing_manager s) (set_k_processes
        (alter (set_pr_space (child_space s)) child (alter (set_pr_space (parent_space s)) parent (k_processes k))) k)), r)
  | _, _ => (k, Throw logic_error)
  end.
(* [src/os/kernel/kernel.cpp] [Kernel::fork_process_cow] *)
Definition fork_process_cow (parent : ProcessRef) (cow_pages : list Z) : KM ProcessRef :=
  require_stage9_services ≫= fun _ =>
  lift (process_of parent) ≫= fun parent_process =>
  create_process_with_parent (pr_id parent_process) ≫= fun child =>
  on_process child (modify (set_pr_files (pr_files parent_process))) ≫= fun _ =>
  lift (process_of child) ≫= fun child_process =>
  on_sharing parent child (share_pages (pr_id parent_process) (pr_id child_process) cow_pages) ≫= fun _ =>
  mret child.
(** Both overloads; without a process the fault is one of the kernel's space. *)
(* [src/os/kernel/kernel.cpp] [Kernel::handle_page_fault #2] *)
Definition handle_page_fault (p : option ProcessRef) (t : ThreadRef) : KM PageFaultResult :=
  require_stage5_services ≫= fun _ =>
  lift (thread_of t) ≫= fun thread =>
  lift (fun _ => get_pending_trap (thread_cpu_state thread)) ≫= fun frame =>
  on_faulting p t (on_fault (PageFaultHandler.handle frame)).
(* [src/os/kernel/kernel.cpp] [Kernel::handle_cow_write_fault] *)
Definition handle_cow_write_fault (p : ProcessRef) (t : ThreadRef) : KM CowFaultResult :=
  require_stage9_services ≫= fun _ =>
  lift (process_of p) ≫= fun process =>
  on_faulting (Some p) t (resolve_write_fault (pr_id process)).

(** ** Console and files *)

(* [src/os/kernel/kernel.cpp] [Kernel::console_write] *)
Definition console_write (text : list Z) : KM unit :=
  require_stage9_services ≫= fun _ => on_console (Console.write text).
(* [src/os/kernel/kernel.cpp] [Kernel::console_read] *)
Definition console_read (t : ThreadRef) (n : Z) : KM (list Z * ConsoleReadResult) :=
  require_stage9_services ≫= fun _ =>
  on_console (Console.read n t) ≫= fun result =>
  gets (is_current t) ≫= fun current =>
  (if read_is_blocked result.2 && current then on_scheduler RoundRobin.block_current ≫= fun _ => mret tt else mret tt) ≫= fun _ =>
  mret result.
(* [src/os/kernel/kernel.cpp] [Kernel::submit_terminal_input] *)
Definition submit_terminal_input (text : list Z) : KM (list ThreadRef) :=
  require_stage9_services ≫= fun _ =>
  on_console (Console.submit_input text) ≫= fun readers =>
  wake_each readers ≫= fun _ =>
  mret readers.
(** A call on the mounted file system. *)
Definition on_vfs {A} (call : FileSystem D -> M D A) : KM A :=
  value k_file_system ≫= fun l => on_vfs_store (call (mounted_fs l)).
Definition find_entry_of (p : ProcessRef) (descriptor : Z) : KM (option FileDescriptorEntry) :=
  lift (process_of p) ≫= fun process => mret (FileDescriptor.find descriptor (pr_files process)).
(** The exceptions a file operation may throw, as results. *)
(* [src/os/kernel/kernel.cpp] [Kernel::read_fd] [1004-1015] *)
Definition io_failure (e : exn) : option IoResult :=
  if bool_decide (e = invalid_argument) then Some Io.invalid_argument
  else if is_logic_error e then Some Io.bad_descriptor else None.
(* [src/os/kernel/kernel.cpp] [Kernel::write_fd] [1052-1067] *)
Definition write_failure (e : exn) : option IoResult :=
  if bool_decide (e = length_error) then Some Io.no_space else io_failure e.
(** The bytes read are returned with the result. *)
(* [src/os/kernel/kernel.cpp] [Kernel::read_fd] *)
Definition read_fd (p : ProcessRef) (t : ThreadRef) (descriptor n : Z) : KM (list Z * IoResult) :=
  require_stage9_services ≫= fun _ =>
  find_entry_of p descriptor ≫= fun entry =>
  gets k_open_files ≫= fun files =>
  match entry with
  | None => mret ([], Io.bad_descriptor)
  | Some e =>
      if negb (entry_readable files e) then mret ([], Io.bad_descriptor)
      else match entry_device_kind files e with
      | Device.TTY =>
          console_read t n ≫= fun '(bytes, result) =>
          mret (if read_is_blocked result then ([], Io.blocked) else (bytes, Io.ready (read_byte_count result)))
      | Device.VFS_FILE =>
          try_catch
            (lift (fun _ => entry_vfs_file files e) ≫= fun file =>
             on_vfs (fun fs => @Vfs.read D fs file n) ≫= fun '(file', bytes) =>
             modify (fun k => set_k_open_files (store_vfs_file file' e (k_open_files k)) k) ≫= fun _ =>
             mret (bytes, Io.ready (lenZ bytes)))
            (fun x => (fun r => mret ([], r)) <$> io_failure x)
      | Device.COUNT => mret ([], Io.bad_descriptor)
      end
  end.
(* [src/os/kernel/kernel.cpp] [Kernel::write_fd] *)
Definition write_fd (p : ProcessRef) (descriptor : Z) (text : list Z) : KM IoResult :=
  require_stage9_services ≫= fun _ =>
  find_entry_of p descriptor ≫= fun entry =>
  gets k_open_files ≫= fun files =>
  match entry with
  | None => mret Io.bad_descriptor
  | Some e =>
      if negb (entry_writable files e) then mret Io.bad_descriptor
      else match entry_device_kind files e with
      | Device.TTY => console_write text ≫= fun _ => mret (Io.ready (lenZ text))
      | Device.VFS_FILE =>
          try_catch
            (lift (fun _ => entry_vfs_file files e) ≫= fun file =>
             on_vfs (fun fs => @Vfs.write D fs file text) ≫= fun '(file', byte_count) =>
             modify (fun k => set_k_open_files (store_vfs_file file' e (k_open_files k)) k) ≫= fun _ =>
             mret (Io.ready byte_count))
            (fun x => mret <$> write_failure x)
      | Device.COUNT => mret Io.bad_descriptor
      end
  end.
(* [src/os/kernel/kernel.cpp] [kernel_vfs_mode_from_access_mode] *)
Definition kernel_vfs_mode_from_access_mode (mode : FileAccessMode) : VfsOpenMode :=
  match mode with
  | Access.READ_ONLY => Mode.READ_ONLY
  | Access.WRITE_ONLY => Mode.WRITE_ONLY
  | Access.READ_WRITE => Mode.READ_WRITE
  | Access.COUNT => Mode.COUNT
  end.
(* [src/os/kernel/kernel.cpp] [Kernel::open_file] *)
Definition open_file (p : ProcessRef) (path : list Z) (access_mode : FileAccessMode) (create_if_missing : bool) : KM Z :=
  require_stage15_services ≫= fun _ =>
  let mode := kernel_vfs_mode_from_access_mode access_mode in
  throw_if (bool_decide (mode = Mode.COUNT)) invalid_argument ≫= fun _ =>
  on_vfs (fun fs => @Vfs.lookup D fs path) ≫= fun node =>
  (if negb (present node) && create_if_missing
   then on_vfs (fun fs => @Vfs.create_file D fs path) ≫= fun _ => mret tt else mret tt) ≫= fun _ =>
  on_vfs (fun fs => @Vfs.open_file D fs path mode) ≫= fun file =>
  on_process_files p (open_vfs_file file).
(* [src/os/kernel/kernel.cpp] [Kernel::close_fd] *)
Definition close_fd (p : ProcessRef) (descriptor : Z) : KM bool :=
  require_stage9_services ≫= fun _ => on_process_files p (FileDescriptor.close descriptor).

(** ** Time *)

(* [src/os/kernel/kernel.cpp] [Kernel::wake_sleepers] *)
Definition wake_sleepers : KM Z :=
  require_stage7_services ≫= fun _ =>
  gets k_ticks ≫= fun now =>
  on_sleepers (Sleep.take_ready now) ≫= fun ready =>
  wake_each ready ≫= fun _ =>
  mret (lenZ ready).
Definition count_tick : KM unit := modify (fun k => set_k_ticks (wrap64 (k_ticks k + 1)) k).
(** [static_cast<void>(apic_system.local_apic(core_id))]. *)
Definition check_core (core_id : Z) : KM unit :=
  on_apic (lift (local_apic_index core_id)) ≫= fun _ => mret tt.
(* [src/os/kernel/kernel.cpp] [Kernel::handle_smp_timer_interrupt] *)
Definition handle_smp_timer_interrupt (core_id : Z) : KM (option ThreadRef) :=
  require_stage9_services ≫= fun _ =>
  check_core core_id ≫= fun _ =>
  count_tick ≫= fun _ =>
  wake_sleepers ≫= fun _ =>
  on_smp (Smp.queue_for_core core_id ≫= fun i =>
          gets (fun s => match core_queues s.2 !! i with Some q => present (core_current q) | None => false end)) ≫= fun preempted =>
  on_smp (Smp.record_timer_tick core_id preempted) ≫= fun _ =>
  if preempted : bool then on_smp (Smp.yield_current core_id) else on_smp (Smp.schedule_next core_id).
(* [src/os/kernel/kernel.cpp] [Kernel::handle_timer_interrupt] *)
Definition handle_timer_interrupt (core_id : Z) : KM (option ThreadRef) :=
  require_stage7_services ≫= fun _ =>
  check_core core_id ≫= fun _ =>
  gets (fun k => present (k_smp k)) ≫= fun has_smp =>
  (if has_smp : bool then
     on_smp (Smp.queue_for_core core_id ≫= fun i =>
             gets (fun s => match core_queues s.2 !! i with Some q => Smp.has_work q | None => false end))
   else mret false) ≫= fun smp_work =>
  if smp_work : bool then handle_smp_timer_interrupt core_id
  else
    count_tick ≫= fun _ =>
    wake_sleepers ≫= fun _ =>
    gets (fun k => present (current_thread (k_scheduler k))) ≫= fun has_current =>
    if has_current : bool then on_scheduler RoundRobin.yield_current else on_scheduler RoundRobin.schedule_next.
(* [src/os/kernel/kernel.cpp] [Kernel::tick_core_timer] *)
Definition tick_core_timer (core_id : Z) : KM (option ApicInterrupt) :=
  require_stage7_services ≫= fun _ =>
  on_apic (system_tick core_id) ≫= fun interrupt =>
  (match interrupt with
   | Some i => if interrupt_vector i =? timer_vector then handle_timer_interrupt core_id ≫= fun _ => mret tt else mret tt
   | None => mret tt
   end) ≫= fun _ =>
  mret interrupt.
(* [src/os/kernel/kernel.cpp] [Kernel::sleep_current_until] *)
Definition sleep_current_until (tick : Z) : KM (option ThreadRef) :=
  require_stage7_services ≫= fun _ =>
  gets (fun k => current_thread (k_scheduler k)) ≫= fun current =>
  match current with
  | None => mret None
  | Some t =>
      gets k_ticks ≫= fun now =>
      if tick <=? now then on_scheduler RoundRobin.yield_current
      else on_sleepers (Sleep.sleep_until t tick) ≫= fun _ => on_scheduler RoundRobin.block_current
  end.
(* [src/os/kernel/kernel.cpp] [Kernel::sleep_current_for] *)
Definition sleep_current_for (duration_ticks : Z) : KM (option ThreadRef) :=
  require_stage7_services ≫= fun _ =>
  gets k_ticks ≫= fun now =>
  throw_if (sub64 (W64 - 1) now <? duration_ticks) overflow_error ≫= fun _ =>
  sleep_current_until (add64 now duration_ticks).

(** ** Futexes *)

Definition futex_key (p : ProcessRef) (address : Z) : KM FutexKey :=
  lift (process_of p) ≫= fun process => lift (fun _ => Futex.make_key (pr_id process) address).
(* [src/os/kernel/kernel.cpp] [Kernel::wait_on_futex] *)
Definition wait_on_futex (p : ProcessRef) (address : Z) (t : ThreadRef) : KM (option ThreadRef) :=
  require_stage9_services ≫= fun _ =>
  futex_key p address ≫= fun key =>
  on_futexes (Futex.wait key t) ≫= fun _ =>
  gets (is_current t) ≫= fun current =>
  if current : bool then on_scheduler RoundRobin.block_current else mret None.
(* [src/os/kernel/kernel.cpp] [Kernel::wake_one_futex] *)
Definition wake_one_futex (p : ProcessRef) (address : Z) : KM (option ThreadRef) :=
  require_stage9_services ≫= fun _ =>
  futex_key p address ≫= fun key =>
  on_futexes (Futex.wake_one key) ≫= fun thread =>
  wake_each (option_list thread) ≫= fun _ =>
  mret thread.
(* [src/os/kernel/kernel.cpp] [Kernel::wake_all_futex] *)
Definition wake_all_futex (p : ProcessRef) (address : Z) : KM (list ThreadRef) :=
  require_stage9_services ≫= fun _ =>
  futex_key p address ≫= fun key =>
  on_futexes (Futex.wake_all key) ≫= fun threads =>
  wake_each threads ≫= fun _ =>
  mret threads.

(** ** Between cores *)

(* [src/os/kernel/kernel.cpp] [Kernel::validate_ipi_route] *)
Definition validate_ipi_route (source_core target_core : Z) : KM unit :=
  check_core source_core ≫= fun _ => check_core target_core.
(* [src/os/kernel/kernel.cpp] [Kernel::request_tlb_shootdown_page] *)
Definition request_tlb_shootdown_page (source_core target_core address : Z) (context_id : option Z) : KM TlbShootdownRequest :=
  require_stage7_services ≫= fun _ =>
  validate_ipi_route source_core target_core ≫= fun _ =>
  zoom k_shootdown set_k_shootdown (request_page source_core target_core address context_id) ≫= fun request =>
  on_apic (send_ipi source_core target_core tlb_shootdown_vector) ≫= fun _ =>
  mret request.
(* [src/os/kernel/kernel.cpp] [Kernel::request_tlb_shootdown_all] *)
Definition request_tlb_shootdown_all (source_core target_core : Z) (context_id : option Z) : KM TlbShootdownRequest :=
  require_stage7_services ≫= fun _ =>
  validate_ipi_route source_core target_core ≫= fun _ =>
  zoom k_shootdown set_k_shootdown (request_all source_core target_core context_id) ≫= fun request =>
  on_apic (send_ipi source_core target_core tlb_shootdown_vector) ≫= fun _ =>
  mret request.
(* [src/os/kernel/kernel.cpp] [Kernel::next_scheduler_handoff_sequence] *)
Definition next_scheduler_handoff_sequence : KM Z :=
  gets k_next_sequence ≫= fun sequence =>
  modify (set_k_next_sequence (wrap64 (sequence + 1))) ≫= fun _ =>
  mret sequence.
Definition push_handoff (source_core target_core thread_id : Z) : KM SchedulerHandoff :=
  next_scheduler_handoff_sequence ≫= fun sequence =>
  let handoff := mkHandoff sequence source_core target_core thread_id in
  modify (fun k => set_k_handoffs (k_handoffs k ++ [handoff]) k) ≫= fun _ =>
  mret handoff.
(* [src/os/kernel/kernel.cpp] [Kernel::record_scheduler_handoff] *)
Definition record_scheduler_handoff (source_core target_core : Z) (t : ThreadRef) : KM SchedulerHandoff :=
  modify (fun k => set_k_threads (store_core t target_core (k_threads k)) k) ≫= fun _ =>
  gets (fun k => Smp.id_of (k_threads k) t) ≫= fun id =>
  push_handoff source_core target_core id.
(* [src/os/kernel/kernel.cpp] [Kernel::send_reschedule_ipi] *)
Definition send_reschedule_ipi (source_core target_core : Z) : KM bool :=
  on_apic (send_ipi source_core target_core reschedule_vector).
(* [src/os/kernel/kernel.cpp] [Kernel::request_scheduler_handoff] *)
Definition request_scheduler_handoff (source_core target_core : Z) (t : ThreadRef) : KM SchedulerHandoff :=
  require_stage7_services ≫= fun _ =>
  gets (fun k => alive (k_threads k) t) ≫= fun is_alive =>
  throw_if (negb is_alive) logic_error ≫= fun _ =>
  validate_ipi_route source_core target_core ≫= fun _ =>
  record_scheduler_handoff source_core target_core t ≫= fun handoff =>
  send_reschedule_ipi source_core target_core ≫= fun _ =>
  mret handoff.
(* [src/os/kernel/kernel.cpp] [Kernel::wake_thread_on_core] *)
Definition wake_thread_on_core (source_core target_core : Z) (t : ThreadRef) : KM bool :=
  require_stage9_services ≫= fun _ =>
  validate_ipi_route source_core target_core ≫= fun _ =>
  on_smp (Smp.wake_on t target_core) ≫= fun _ =>
  send_reschedule_ipi source_core target_core.
(* [src/os/kernel/kernel.cpp] [Kernel::request_smp_migration] *)
Definition request_smp_migration (source_core target_core : Z) (t : ThreadRef) : KM SchedulerHandoff :=
  require_stage9_services ≫= fun _ =>
  validate_ipi_route source_core target_core ≫= fun _ =>
  on_smp (gets (fun s => Smp.current_core_of t s.2)) ≫= fun owning_core =>
  throw_if (match owning_core with Some c => negb (c =? source_core) | None => false end) logic_error ≫= fun _ =>
  on_smp (Smp.migrate_ready t target_core) ≫= fun migration =>
  record_scheduler_handoff (Smp.source_core migration) (Smp.target_core migration) t ≫= fun handoff =>
  send_reschedule_ipi (Smp.source_core migration) (Smp.target_core migration) ≫= fun _ =>
  mret handoff.
(* [src/os/kernel/kernel.cpp] [Kernel::rebalance_smp_once] *)
Definition rebalance_smp_once : KM (option ThreadMigration) :=
  require_stage9_services ≫= fun _ =>
  on_smp Smp.rebalance_once ≫= fun migration =>
  match migration with
  | None => mret None
  | Some m =>
      validate_ipi_route (Smp.source_core m) (Smp.target_core m) ≫= fun _ =>
      push_handoff (Smp.source_core m) (Smp.target_core m) (migrated_thread_id m) ≫= fun _ =>
      send_reschedule_ipi (Smp.source_core m) (Smp.target_core m) ≫= fun _ =>
      mret (Some m)
  end.
(** On the buffer of the core's memory-management unit, which is returned. *)
(* [src/os/kernel/kernel.cpp] [Kernel::apply_next_tlb_shootdown_for_core] *)
Definition apply_next_tlb_shootdown_for_core (core_id : Z) (tlb : TranslationLookasideBuffer) : KM (bool * TranslationLookasideBuffer) :=
  require_stage9_services ≫= fun _ =>
  check_core core_id ≫= fun _ =>
  zoom k_shootdown set_k_shootdown (take_next_for core_id) ≫= fun request =>
  match request with
  | None => mret (false, tlb)
  | Some r =>
      gets k_shootdown ≫= fun controller =>
      let '((controller', tlb'), result) := apply_request r (controller, tlb) in
      modify (set_k_shootdown controller') ≫= fun _ =>
      lift (fun _ => result) ≫= fun _ =>
      mret (true, tlb')
  end.
(* [src/os/kernel/kernel.cpp] [Kernel::scheduler_handoff_at] *)
Definition scheduler_handoff_at (index : Z) (k : K) : res SchedulerHandoff :=
  match k_handoffs k !! Z.to_nat index with Some h => Ok h | None => Throw out_of_range end.
(* [src/os/kernel/kernel.cpp] [Kernel::process_at] *)
Definition process_at (index : Z) (k : K) : res Process :=
  match k_processes k !! Z.to_nat index with Some p => Ok p | None => Throw out_of_range end.
(* [src/os/kernel/kernel.cpp] [Kernel::take_last_user_execution_trace] *)
Definition take_last_user_execution_trace : KM (list ExecutionTraceEntry) :=
  gets k_last_trace ≫= fun trace =>
  match trace with
  | None => mret []
  | Some t => modify (set_k_last_trace None) ≫= fun _ => mret t
  end.

(** ** Booting *)

(* [src/os/kernel/kernel.cpp] [Kernel::configure_stage7_services] *)
Definition configure_stage7_services : KM unit :=
  modify (fun k => set_k_apic (Some (make_apic_system (k_topology k))) k) ≫= fun _ =>
  on_apic enable_local_apics ≫= fun _ =>
  value k_apic ≫= fun apic =>
  for_each (seqZ 0 (core_count (apic_topology apic))) (fun core_index =>
    on_apic (on_local core_index (configure_periodic_timer timer_vector KERNEL_STAGE7_DEFAULT_TIMER_INTERVAL_TICKS))).
(* [src/os/kernel/kernel.cpp] [Kernel::configure_stage9_services] *)
Definition configure_stage9_services : KM unit :=
  modify (fun k => set_k_smp (Some (Smp.make_scheduler (k_topology k))) k).
End kernel.
Abbreviation ProcessRef := nat (only parsing).

(** Booting makes the root store: a buffer cache over a memory device. *)
Section booting.
Context {B : Type} `{MemoryBus B}.
Abbreviation RootStore := (BufferCache * MemoryBlockDevice)%type.
Abbreviation BootM A := (M (Kernel B RootStore) A).
(* [src/os/kernel/kernel.cpp] [Kernel::configure_stage15_services] *)
Definition configure_stage15_services : BootM unit :=
  lift (fun _ => make_block_geometry 512 KERNEL_STAGE15_ROOT_BLOCK_COUNT) ≫= fun geometry =>
  lift (fun _ => make_device geometry) ≫= fun device =>
  lift (fun _ => make_buffer_cache device KERNEL_STAGE15_BUFFER_CACHE_BLOCKS) ≫= fun cache =>
  modify (set_k_store (Some (cache, device))) ≫= fun _ =>
  on_vfs_store (SimpleFs.format KERNEL_STAGE15_ROOT_INODE_COUNT) ≫= fun _ =>
  on_vfs_store SimpleFs.mount ≫= fun l =>
  modify (set_k_file_system (Some l)).
(* [src/os/kernel/kernel.cpp] [Kernel::boot] *)
Definition boot : BootM unit :=
  get ≫= fun k =>
  throw_if (k_booted k) logic_error ≫= fun _ =>
  throw_if (physical_page_count k <? KERNEL_MIN_BOOTABLE_PAGE_COUNT) runtime_error ≫= fun _ =>
  lift (fun _ => make_allocator (physical_page_count k) KERNEL_RESERVED_LOW_PAGE_COUNT) ≫= fun allocator =>
  modify (set_k_allocator (Some allocator)) ≫= fun _ =>
  create_address_space KERNEL_DEFAULT_TABLE_ARENA_PAGE_COUNT ≫= fun space =>
  modify (set_k_kernel_space (Some space)) ≫= fun _ =>
  configure_stage7_services ≫= fun _ =>
  configure_stage9_services ≫= fun _ =>
  configure_stage15_services ≫= fun _ =>
  modify (set_k_booted true).
End booting.
