(* ===== verification/Syscall.v ===== *)
(** * System-call interface

    Models src/os/kernel/syscall.cpp and its header: the numbers, results, error codes and argument
    registers of system calls, and the frame that reads and writes them in the registers of the
    calling thread. *)

From S2P Require Import Prelude Logic Common CpuState Instruction.

Module Sys.
(* [include/mnos/os/kernel/syscall.hpp] [SyscallNumber] *)
Inductive SyscallNumber : Set :=
  | YIELD | EXIT | GETPID | MAP_ANON_PAGE | FORK_COW | FUTEX_WAIT | FUTEX_WAKE_ONE | FUTEX_WAKE_ALL
  | READ | WRITE | OPEN | CLOSE | STAT | READDIR | WAIT | COUNT.
End Sys.
Abbreviation SyscallNumber := Sys.SyscallNumber.
Module SysResult.
(* [include/mnos/os/kernel/syscall.hpp] [SyscallResult] *)
Inductive SyscallResult : Set :=
  | HANDLED | BLOCKED | UNSUPPORTED | INVALID_CONTEXT | INVALID_ARGUMENT | BAD_DESCRIPTOR | BAD_ADDRESS
  | OUT_OF_MEMORY | NOT_FOUND | NO_SPACE | COUNT.
End SysResult.
Abbreviation SyscallResult := SysResult.SyscallResult.
Module SysError.
(* [include/mnos/os/kernel/syscall.hpp] [SyscallError] *)
Inductive SyscallError : Set :=
  | SUCCESS | NO_ENTRY | BAD_FILE_DESCRIPTOR | AGAIN | NO_MEMORY | BAD_ADDRESS | ALREADY_EXISTS
  | NOT_DIRECTORY | IS_DIRECTORY | INVALID_ARGUMENT | NO_SPACE | NO_SYS | OPERATION_NOT_SUPPORTED.
End SysError.
Abbreviation SyscallError := SysError.SyscallError.
Module SysArg.
(* [include/mnos/os/kernel/syscall.hpp] [SyscallArgument] *)
Inductive SyscallArgument : Set := ARG0 | ARG1 | ARG2 | ARG3 | ARG4 | ARG5 | COUNT.
End SysArg.
Abbreviation SyscallArgument := SysArg.SyscallArgument.
#[export] Instance SyscallNumber_eq_dec : EqDecision SyscallNumber.
Proof. solve_decision. Defined.
#[export] Instance SyscallResult_eq_dec : EqDecision SyscallResult.
Proof. solve_decision. Defined.
#[export] Instance SyscallError_eq_dec : EqDecision SyscallError.
Proof. solve_decision. Defined.

Definition SYSCALL_NUMBER_COUNT : Z := 15.
Definition SYSCALL_SUCCESS_RESULT : Z := 0.
Definition SYSCALL_FORK_MAX_COW_PAGE_COUNT : Z := 256.
Definition SYSCALL_IO_MAX_TRANSFER_BYTES : Z := 4096.
Definition SYSCALL_PATH_MAX_BYTES : Z := 256.
Definition SYSCALL_FUTEX_WORD_MASK : Z := 0xFFFFFFFF.
Definition SYSCALL_OPEN_FLAG_READ : Z := 1.
Definition SYSCALL_OPEN_FLAG_WRITE : Z := 2.
Definition SYSCALL_OPEN_FLAG_CREATE : Z := 4.
Definition SYSCALL_OPEN_FLAG_VALID_MASK : Z :=
  Z.lor (Z.lor SYSCALL_OPEN_FLAG_READ SYSCALL_OPEN_FLAG_WRITE) SYSCALL_OPEN_FLAG_CREATE.
Definition SYSCALL_FILE_KIND_FILE : Z := 1.
Definition SYSCALL_FILE_KIND_DIRECTORY : Z := 2.
Definition SYSCALL_STAT_RECORD_SIZE_BYTES : Z := 24.
Definition SYSCALL_DIRENT_RECORD_SIZE_BYTES : Z := 80.

(** The numbers in the order of their values. *)
Definition numbers : list SyscallNumber :=
  [Sys.YIELD; Sys.EXIT; Sys.GETPID; Sys.MAP_ANON_PAGE; Sys.FORK_COW; Sys.FUTEX_WAIT; Sys.FUTEX_WAKE_ONE;
   Sys.FUTEX_WAKE_ALL; Sys.READ; Sys.WRITE; Sys.OPEN; Sys.CLOSE; Sys.STAT; Sys.READDIR; Sys.WAIT].
(* [src/os/kernel/syscall.cpp] [syscall_number_from_raw] *)
Definition syscall_number_from_raw (raw_number : Z) : SyscallNumber :=
  if SYSCALL_NUMBER_COUNT <=? raw_number then Sys.COUNT else nth (Z.to_nat raw_number) numbers Sys.COUNT.
Definition syscall_error_value (error : SyscallError) : Z :=
  match error with
  | SysError.SUCCESS => 0 | SysError.NO_ENTRY => 2 | SysError.BAD_FILE_DESCRIPTOR => 9 | SysError.AGAIN => 11
  | SysError.NO_MEMORY => 12 | SysError.BAD_ADDRESS => 14 | SysError.ALREADY_EXISTS => 17
  | SysError.NOT_DIRECTORY => 20 | SysError.IS_DIRECTORY => 21 | SysError.INVALID_ARGUMENT => 22
  | SysError.NO_SPACE => 28 | SysError.NO_SYS => 38 | SysError.OPERATION_NOT_SUPPORTED => 95
  end.
(* [include/mnos/os/kernel/syscall.hpp] [syscall_error_result] [99-104] *)
Definition syscall_error_result (error : SyscallError) : Z :=
  if bool_decide (error = SysError.SUCCESS) then SYSCALL_SUCCESS_RESULT else wrap64 (- syscall_error_value error).
(* [src/os/kernel/syscall.cpp] [syscall_argument_register] *)
Definition syscall_argument_register (argument : SyscallArgument) : res RegisterId :=
  match argument with
  | SysArg.ARG0 => Ok Reg.RDI
  | SysArg.ARG1 => Ok Reg.RSI
  | SysArg.ARG2 => Ok Reg.RDX
  | SysArg.ARG3 => Ok Reg.R10
  | SysArg.ARG4 => Ok Reg.R8
  | SysArg.ARG5 => Ok Reg.R9
  | SysArg.COUNT => Throw out_of_range
  end.

(** ** The frame: the registers of the caller *)

(* [src/os/kernel/syscall.cpp] [SyscallFrame::raw_number] *)
Definition frame_raw_number : M CpuState Z := read_register Reg.RAX.
(* [src/os/kernel/syscall.cpp] [SyscallFrame::number] *)
Definition frame_number : M CpuState SyscallNumber :=
  frame_raw_number ≫= fun raw => mret (syscall_number_from_raw raw).
(* [src/os/kernel/syscall.cpp] [SyscallFrame::argument] *)
Definition frame_argument (argument : SyscallArgument) : M CpuState Z :=
  lift (fun _ => syscall_argument_register argument) ≫= fun r => read_register r.
(* [src/os/kernel/syscall.cpp] [SyscallFrame::set_result] *)
Definition frame_set_result (value : Z) : M CpuState unit := write_register Reg.RAX value.
(* [src/os/kernel/syscall.cpp] [SyscallFrame::set_error] *)
Definition frame_set_error (error : SyscallError) : M CpuState unit := frame_set_result (syscall_error_result error).

Lemma syscall_error_small e : e <> SysError.SUCCESS -> W64 - 4096 <= syscall_error_result e < W64.
Proof. destruct e; try done; intros _; vm_compute; split; congruence. Qed.
