(* ===== verification/KernelProcesses.v ===== *)
(** * The process table of the kernel

    Theorems on src/os/kernel/kernel.cpp: what its member functions do to the table of processes,
    seen as a list of ids, parents and fates.  The table refines a small specification in which only
    creation, exit and wait change it; from that specification alone, the exit code of a process is
    handed to its parent exactly once.  Every other member function leaves the table alone. *)

From S2P Require Import Prelude Logic Common PhysicalMemory MemoryBus Paging Tlb Page PageAlloc BlockDevice BufferCache Instruction CpuState Thread RoundRobin WaitQueue SleepQueue Futex Smp FsFormat SimpleFs Vfs Terminal Console FileDescriptor AddressSpace PageFaultHandler Apic CopyOnWrite UserProgram UserLoader Process Kernel.

(** ** The table *)

(** A process that has ended keeps its exit code, taken by the parent or not.  [Unset] is the
    sentinel [COUNT] of the enumeration of states, which no process gets. *)
Inductive fate : Set := Alive | Exited (code : Z) | Reaped (code : Z) | Unset.
#[export] Instance fate_eq_dec : EqDecision fate.
Proof. solve_decision. Defined.
Definition fate_of (pr : Process) : fate :=
  match pr_state pr with
  | PState.RUNNING => Alive
  | PState.EXITED => Exited (pr_exit_code pr)
  | PState.REAPED => Reaped (pr_exit_code pr)
  | PState.COUNT => Unset
  end.
Record life : Set := mkLife { life_id : Z; life_parent : Z; life_fate : fate }.
#[export] Instance life_eq_dec : EqDecision life.
Proof. solve_decision. Defined.
Definition life_of (pr : Process) : life := mkLife (pr_id pr) (pr_parent pr) (fate_of pr).
Definition set_fate (f : fate) (l : life) : life := mkLife (life_id l) (life_parent l) f.

Lemma life_of_fields pr s fs ts : life_of (mkProcess (pr_id pr) (pr_parent pr) (pr_state pr) (pr_exit_code pr) s fs ts) = life_of pr.
Proof. done. Qed.

Section table.
Context {B D : Type} `{MemoryBus B} `{FlushStore D}.
Abbreviation K := (Kernel B D).
Abbreviation KM A := (M (Kernel B D) A).
Implicit Types k : K.

Definition table k : list life := life_of <$> k_processes k.
Definition ready k : bool := k_booted k && has_stage9_services k.

(** [same_table k k']: no process is created, ends or is waited for, and no service goes away. *)
Record same_table k k' : Prop := {
  st_table : table k' = table k;
  st_next : k_next_pid k' = k_next_pid k;
  st_ready : ready k = true -> ready k' = true;
}.
#[export] Instance same_table_pre : PreOrder same_table.
Proof.
  split; [by split|]. intros k1 k2 k3 [Ht1 Hn1 Hr1] [Ht2 Hn2 Hr2]. split; [congruence..|auto].
Qed.

Lemma table_insert k p pr pr' : k_processes k !! p = Some pr -> life_of pr' = life_of pr ->
  life_of <$> <[p := pr']> (k_processes k) = table k.
Proof.
  intros Hp Hl. unfold table. rewrite list_fmap_insert, Hl. apply list_insert_id. by rewrite list_lookup_fmap, Hp.
Qed.
Lemma table_alter (f : Process -> Process) (ps : list Process) p : (forall pr, life_of (f pr) = life_of pr) ->
  life_of <$> alter f p ps = life_of <$> ps.
Proof.
  intros Hf. apply list_eq. intros i. rewrite !list_lookup_fmap. destruct (decide (i = p)) as [->|Hne].
  - rewrite list_lookup_alter_eq. destruct (ps !! p); cbn; [by rewrite Hf|done].
  - by rewrite list_lookup_alter_ne.
Qed.

(** *** Lifted calls leave the table alone, whatever is called *)

Ltac lifted := intros k; constructor; try reflexivity.
Lemma same_optional {T A} (get : K -> option T) set (c : M T A) :
  (forall k t t', get k = Some t -> same_table k (set (Some t') k)) -> within same_table (on_optional get set c).
Proof.
  intros Hs k. unfold on_optional. destruct (get k) as [t|] eqn:E; [|by cbn].
  destruct (c t) as [t' r]. by apply (Hs k t).
Qed.
Lemma same_pages {A} (c : M PhysicalPageAllocator A) : within same_table (on_pages c).
Proof.
  apply same_optional. intros k t t' E. split; [done..|]. unfold ready, has_stage9_services, has_stage7_services, has_stage5_services.
  cbn. by rewrite E.
Qed.
Lemma same_apic {A} (c : M ApicSystem A) : within same_table (on_apic c).
Proof.
  apply same_optional. intros k t t' E. split; [done..|]. unfold ready, has_stage9_services, has_stage7_services, has_stage5_services.
  cbn. by rewrite E.
Qed.
Lemma same_store {A} (c : M D A) : within same_table (on_vfs_store c).
Proof. apply same_optional. intros k t t' E. by split. Qed.
Lemma same_smp {A} (c : QueueM SmpScheduler A) : within same_table (on_smp c).
Proof.
  intros k. unfold on_smp. destruct (k_smp k) as [s|] eqn:E; [|by cbn]. destruct (c _) as [[ts s'] r]. split; [done..|].
  unfold ready, has_stage9_services, has_stage7_services, has_stage5_services. cbn. by rewrite E.
Qed.
Lemma same_bus {A} (c : M B A) : within same_table (on_bus c).
Proof. intros k. unfold on_bus, zoom. by destruct (c _). Qed.
Lemma same_threads_and {Q A} (get : K -> Q) set (c : QueueM Q A) :
  (forall k q, same_table k (set q k)) -> within same_table (on_threads_and get set c).
Proof.
  intros Hs k. unfold on_threads_and, zoom. destruct (c _) as [[ts q] r]. etransitivity; [|apply Hs]. by split.
Qed.
Lemma same_scheduler {A} (c : QueueM RoundRobinScheduler A) : within same_table (on_scheduler c).
Proof. apply same_threads_and. by split. Qed.
Lemma same_sleepers {A} (c : QueueM SleepQueue A) : within same_table (on_sleepers c).
Proof. apply same_threads_and. by split. Qed.
Lemma same_futexes {A} (c : QueueM FutexTable A) : within same_table (on_futexes c).
Proof. apply same_threads_and. by split. Qed.
Lemma same_console {A} (c : QueueM Console A) : within same_table (on_console c).
Proof. apply same_threads_and. by split. Qed.
Lemma same_thread {A} t (c : M ThreadContext A) : within same_table (on_thread t c).
Proof. intros k. unfold on_thread. destruct (k_threads k !! t); [|by cbn]. by destruct (c _). Qed.
Lemma same_process_space {A} p (c : M (AddressSpace * B) A) : within same_table (on_process_space p c).
Proof.
  intros k. unfold on_process_space. destruct (k_processes k !! p) as [pr|] eqn:E; [|by cbn]. destruct (c _) as [[s b] r].
  split; [|done..]. by apply (table_insert k p pr).
Qed.
Lemma same_process {A} p (c : M Process A) : (forall pr, life_of (fst (c pr)) = life_of pr) -> within same_table (on_process p c).
Proof.
  intros Hc k. unfold on_process. destruct (k_processes k !! p) as [pr|] eqn:E; [|by cbn]. specialize (Hc pr).
  destruct (c pr) as [pr' r]. split; [by apply (table_insert k p pr)|done..].
Qed.
Lemma same_process_files {A} p (c : M (OpenFiles * FileDescriptorTable) A) : within same_table (on_process_files p c).
Proof.
  intros k. unfold on_process_files. destruct (k_processes k !! p) as [pr|] eqn:E; [|by cbn]. destruct (c _) as [[s b] r].
  split; [|done..]. by apply (table_insert k p pr).
Qed.
Lemma same_loader {A} p (c : M (Loader B) A) : within same_table (on_loader p c).
Proof.
  intros k. unfold on_loader. destruct (k_allocator k) as [a|] eqn:Ea; [|by cbn].
  destruct (k_processes k !! p) as [pr|] eqn:E; [|by cbn]. destruct (c _) as [l r].
  split; [by apply (table_insert k p pr)|done|].
  unfold ready, has_stage9_services, has_stage7_services, has_stage5_services. cbn. by rewrite Ea.
Qed.
Lemma same_faulting {A} p t (c : M (CopyOnWriteManager * Faulting B) A) : within same_table (on_faulting p t c).
Proof.
  intros k. unfold on_faulting. destruct (k_allocator k) as [a|] eqn:Ea; [|by cbn].
  destruct (match p with Some _ => _ | None => _ end) as [s|] eqn:Es; [|by cbn].
  destruct (k_threads k !! t) as [th|]; [|by cbn]. destruct (c _) as [[w f] r].
  destruct p as [i|]; split; try done; unfold ready, has_stage9_services, has_stage7_services, has_stage5_services; cbn;
    rewrite ?Ea, ?Es; try done. by apply table_alter.
Qed.
Lemma same_sharing {A} p q (c : M (Sharing B) A) : within same_table (on_sharing p q c).
Proof.
  intros k. unfold on_sharing. destruct (k_processes k !! p) as [pp|]; [|by cbn].
  destruct (k_processes k !! q) as [pq|]; [|by cbn]. destruct (c _) as [s r]. split; [|done..].
  unfold table. cbn. by rewrite !table_alter.
Qed.
Lemma same_process_thread p id bottom size : within same_table (create_process_thread p id bottom size).
Proof.
  intros k. unfold create_process_thread. destruct (k_processes k !! p) as [pr|] eqn:E; [|by cbn].
  destruct (Process.create_thread id bottom size (k_threads k, pr)) as [[ts pr'] r] eqn:Ec.
  assert (Hl : life_of pr' = life_of pr).
  { pose proof (create_thread_spec id bottom size (k_threads k) pr) as Hs. rewrite Ec in Hs.
    destruct (make_thread id bottom size); [destruct (is_running pr && _)|]; by simplify_eq. }
  split; [by apply (table_insert k p pr)|done..].
Qed.
Lemma same_wait_entry {A} i (c : QueueM WaitQueue A) : within same_table (on_wait_entry i c).
Proof. intros k. unfold on_wait_entry. destruct (k_wait_entries k !! i); [|by cbn]. by destruct (c _) as [[ts q] r]. Qed.
Lemma same_modify f : (forall k, same_table k (f k)) -> within same_table (modify f).
Proof. apply within_modify. Qed.
Lemma same_zoom {T A} (get : K -> T) set (c : M T A) : (forall k t, same_table k (set t k)) -> within same_table (zoom get set c).
Proof. intros Hs k. unfold zoom. destruct (c _) as [t r]. apply Hs. Qed.
Lemma within_try {S A} (R : relation S) `{!PreOrder R} (c : M S A) h : within R c -> (forall e c', h e = Some c' -> within R c') ->
  within R (try_catch c h).
Proof.
  intros Hc Hh s. unfold try_catch. specialize (Hc s). destruct (c s) as [s1 [a|e]]; cbn [fst] in *; [done|].
  destruct (h e) as [c'|] eqn:E; [|done]. etransitivity; [exact Hc|]. by apply (Hh e).
Qed.
Lemma within_each {S X} (R : relation S) `{!PreOrder R} (xs : list X) f : (forall x, within R (f x)) -> within R (for_each xs f).
Proof. intros Hf. induction xs as [|x xs IH]; [by apply within_ret|]. apply within_bind; [done|apply Hf|auto]. Qed.

(** *** Guards *)

Lemma require9_ready k : ready k = true -> require_stage9_services k = (k, Ok tt).
Proof.
  unfold ready, require_stage9_services, require, require_booted. intros [Hb Hr]%andb_true_iff. munfold_goal.
  by rewrite Hb, Hr.
Qed.
Lemma require5_ready k : ready k = true -> require_stage5_services k = (k, Ok tt).
Proof.
  unfold ready, has_stage9_services, has_stage7_services, require_stage5_services, require, require_booted.
  intros [Hb [[Hr _]%andb_true_iff _]%andb_true_iff]%andb_true_iff. munfold_goal. by rewrite Hb, Hr.
Qed.
Lemma same_require f : within same_table (require (B := B) (D := D) f).
Proof. intros k. unfold require, require_booted. munfold_goal. destruct (k_booted k); [|by cbn]. by destruct (f k). Qed.
Lemma same_value {T} (get : K -> option T) : within same_table (value get).
Proof. apply within_lift. exact _. Qed.
End table.

Create HintDb kernel.
#[export] Hint Extern 0 (PreOrder _) => exact _ : kernel.
#[export] Hint Resolve same_pages same_apic same_store same_smp same_bus same_scheduler same_sleepers same_futexes same_console
  same_thread same_process_space same_process_files same_loader same_faulting same_sharing same_process_thread same_wait_entry
  same_require same_value within_ret within_throw within_throw_if within_lift within_gets : kernel.
(** Walks down a composed computation to the parts the hint database knows. *)
Ltac walk :=
  repeat first
    [ solve [eauto with kernel]
    | apply within_bind; [exact _| |intros ?]
    | apply within_try; [exact _| |intros ? ? ?; simplify_option_eq]
    | apply within_each; [exact _|intros ?]
    | match goal with |- within _ (modify _) => apply within_modify; intros ? end
    | match goal with |- within _ (match ?x with _ => _ end) => destruct x end
    | match goal with |- within _ (let '(_, _) := ?x in _) => destruct x end ].

Section operations.
Context {B D : Type} `{MemoryBus B} `{FlushStore D}.
Abbreviation K := (Kernel B D).
Implicit Types k : K.
Abbreviation same := (within (same_table (B := B) (D := D))).

(** *** The members that leave the table alone *)

Lemma same_address_space n : same (create_address_space n).
Proof. unfold create_address_space. walk. Qed.
Lemma same_next_stack : same next_kernel_stack_bottom.
Proof. unfold next_kernel_stack_bottom. walk. by split. Qed.
Lemma same_take_thread : same take_thread_id.
Proof. unfold take_thread_id. walk. by split. Qed.
Lemma same_wake_each ts : same (wake_each ts).
Proof. unfold wake_each. walk. Qed.
Lemma same_check_core c : same (check_core c).
Proof. unfold check_core. walk. Qed.
#[local] Hint Resolve same_address_space same_next_stack same_take_thread same_wake_each same_check_core : kernel.
Lemma same_create_thread_with_stack p bottom size : same (create_thread_with_stack p bottom size).
Proof. unfold create_thread_with_stack, require_stage5_services. walk. Qed.
Lemma same_create_thread_on_core_with_stack p c bottom size : same (create_thread_on_core_with_stack p c bottom size).
Proof. unfold create_thread_on_core_with_stack, require_stage9_services. walk. Qed.
Lemma same_load_user_program p program a : same (load_user_program p program a).
Proof. unfold load_user_program, require_stage9_services. walk. Qed.
Lemma same_create_user_thread p image : same (create_user_thread p image).
Proof. unfold create_user_thread, require_stage9_services. walk. Qed.
Lemma same_remove_entries c : same (remove_process_wait_entries_for_child c).
Proof. unfold remove_process_wait_entries_for_child. walk. by split. Qed.
#[local] Hint Resolve same_remove_entries same_create_thread_with_stack same_create_thread_on_core_with_stack : kernel.
Lemma same_wake_waiters c : same (wake_process_waiters c).
Proof. unfold wake_process_waiters. walk. Qed.
Lemma same_exit_thread t : same (exit_thread t).
Proof. unfold exit_thread. apply within_bind; [exact _|by intros k|]. intros k. walk. by split. Qed.
Lemma same_wait_entry_of p c : same (process_wait_entry p c).
Proof. intros k. unfold process_wait_entry. munfold_goal. destruct (list_find _ _) as [[i e]|]; by cbn. Qed.
Lemma same_console_read t n : same (console_read t n).
Proof. unfold console_read, require_stage9_services. walk. Qed.
Lemma same_console_write text : same (console_write text).
Proof. unfold console_write, require_stage9_services. walk. Qed.
Lemma same_vfs {A} (c : FileSystem D -> M D A) : same (on_vfs c).
Proof. unfold on_vfs. walk. Qed.
#[local] Hint Resolve same_wake_waiters same_exit_thread same_wait_entry_of same_console_read same_console_write same_vfs : kernel.
Lemma same_read_fd p t fd n : same (read_fd p t fd n).
Proof. unfold read_fd, find_entry_of, require_stage9_services. walk. all: by split. Qed.
Lemma same_write_fd p fd text : same (write_fd p fd text).
Proof. unfold write_fd, find_entry_of, require_stage9_services. walk. all: by split. Qed.
Lemma same_open_file p path mode create : same (Kernel.open_file p path mode create).
Proof. unfold Kernel.open_file, require_stage15_services. walk. Qed.
Lemma same_close_fd p fd : same (close_fd p fd).
Proof. unfold close_fd, require_stage9_services. walk. Qed.
Lemma same_submit text : same (submit_terminal_input text).
Proof. unfold submit_terminal_input, require_stage9_services. walk. Qed.
Lemma same_wake_sleepers : same wake_sleepers.
Proof. unfold wake_sleepers, require_stage7_services. walk. Qed.
#[local] Hint Resolve same_wake_sleepers : kernel.
Lemma same_count_tick : same count_tick.
Proof. unfold count_tick. walk. by split. Qed.
#[local] Hint Resolve same_count_tick : kernel.
Lemma same_smp_timer c : same (handle_smp_timer_interrupt c).
Proof. unfold handle_smp_timer_interrupt, require_stage9_services. walk. Qed.
#[local] Hint Resolve same_smp_timer : kernel.
Lemma same_timer c : same (handle_timer_interrupt c).
Proof. unfold handle_timer_interrupt, require_stage7_services. walk. Qed.
Lemma same_sleep_until tick : same (sleep_current_until tick).
Proof. unfold sleep_current_until, require_stage7_services. walk. Qed.
#[local] Hint Resolve same_timer same_sleep_until : kernel.
Lemma same_tick_core_timer c : same (tick_core_timer c).
Proof. unfold tick_core_timer, require_stage7_services. walk. Qed.
Lemma same_sleep_for n : same (sleep_current_for n).
Proof. unfold sleep_current_for, require_stage7_services. walk. Qed.
Lemma same_futex_wait p a t : same (wait_on_futex p a t).
Proof. unfold wait_on_futex, futex_key, require_stage9_services. walk. Qed.
Lemma same_futex_wake_one p a : same (wake_one_futex p a).
Proof. unfold wake_one_futex, futex_key, require_stage9_services. walk. Qed.
Lemma same_futex_wake_all p a : same (wake_all_futex p a).
Proof. unfold wake_all_futex, futex_key, require_stage9_services. walk. Qed.
Lemma same_page_fault p t : same (handle_page_fault p t).
Proof. unfold handle_page_fault, require_stage5_services. walk. Qed.
Lemma same_cow_fault p t : same (handle_cow_write_fault p t).
Proof. unfold handle_cow_write_fault, require_stage9_services. walk. Qed.
End operations.

(** ** The specification: a family of processes *)

Inductive kernel_request : Type :=
  | QCreate
  | QCreateUser (program : UserProgram) (parent_id : Z) (a : UserProgramArguments)
  | QFork (parent : ProcessRef) (pages : list Z)
  | QExit (p : ProcessRef) (code : Z)
  | QWait (parent : ProcessRef) (waiter : ThreadRef) (child : Z)
  | QThread (p : ProcessRef)
  | QThreadOnCore (p : ProcessRef) (core : Z)
  | QSubmit (text : list Z)
  | QRead (p : ProcessRef) (t : ThreadRef) (fd n : Z)
  | QWrite (p : ProcessRef) (fd : Z) (text : list Z)
  | QOpen (p : ProcessRef) (path : list Z) (mode : FileAccessMode) (create_if_missing : bool)
  | QClose (p : ProcessRef) (fd : Z)
  | QTick (core : Z)
  | QSleep (duration : Z)
  | QFutexWait (p : ProcessRef) (address : Z) (t : ThreadRef)
  | QFutexWakeOne (p : ProcessRef) (address : Z)
  | QFutexWakeAll (p : ProcessRef) (address : Z)
  | QPageFault (p : option ProcessRef) (t : ThreadRef)
  | QCowFault (p : ProcessRef) (t : ThreadRef).
Inductive kernel_reply : Type := RDone | RProcess (p : ProcessRef) | RWait (w : ProcessWaitResult).

Definition done_after {S A} (c : M S A) : M S kernel_reply := c ≫= fun _ => mret RDone.
Definition kernel_serve {B D} `{MemoryBus B} `{FlushStore D} (q : kernel_request) : M (Kernel B D) kernel_reply :=
  match q with
  | QCreate => create_process ≫= fun p => mret (RProcess p)
  | QCreateUser program parent_id a => create_user_process_with_parent program parent_id a ≫= fun p => mret (RProcess p)
  | QFork parent pages => fork_process_cow parent pages ≫= fun p => mret (RProcess p)
  | QExit p code => done_after (exit_process p code)
  | QWait parent waiter child => wait_process parent waiter child ≫= fun w => mret (RWait w)
  | QThread p => done_after (Kernel.create_thread p)
  | QThreadOnCore p core => done_after (create_thread_on_core p core)
  | QSubmit text => done_after (submit_terminal_input text)
  | QRead p t fd n => done_after (read_fd p t fd n)
  | QWrite p fd text => done_after (write_fd p fd text)
  | QOpen p path mode create => done_after (Kernel.open_file p path mode create)
  | QClose p fd => done_after (close_fd p fd)
  | QTick core => done_after (tick_core_timer core)
  | QSleep duration => done_after (sleep_current_for duration)
  | QFutexWait p a t => done_after (wait_on_futex p a t)
  | QFutexWakeOne p a => done_after (wake_one_futex p a)
  | QFutexWakeAll p a => done_after (wake_all_futex p a)
  | QPageFault p t => done_after (handle_page_fault p t)
  | QCowFault p t => done_after (handle_cow_write_fault p t)
  end.

(** The lives in the order of creation, and the next id. *)
Definition family : Type := list life * Z.
(** A creation takes an id; when it fails there is no process, unless it failed on one already made. *)
Definition creates (parent : Z) (half_made : bool) (f : family) (r : res kernel_reply) (f' : family) : Prop :=
  f'.2 = f.2 + 1 /\
  (f'.1 = f.1 ++ [mkLife f.2 parent Alive] /\
     (r = Ok (RProcess (length f.1)) \/ half_made = true /\ exists e, r = Throw e) \/
   f'.1 = f.1 /\ exists e, r = Throw e).
Definition family_step (q : kernel_request) (f : family) (r : res kernel_reply) (f' : family) : Prop :=
  match q with
  | QCreate => creates PROCESS_ID_INVALID_VALUE false f r f'
  | QCreateUser _ parent _ => creates parent true f r f'
  | QFork p _ =>
      match f.1 !! p with
      | Some l => creates (life_id l) true f r f'
      | None => f' = f /\ r = Throw logic_error
      end
  | QExit p code =>
      match f.1 !! p with
      | Some l =>
          if decide (life_fate l = Alive) then f' = (<[p := set_fate (Exited code) l]> f.1, f.2)
          else f' = f /\ r = Ok RDone
      | None => f' = f /\ r = Throw logic_error
      end
  | QWait p _ child =>
      match f.1 !! p with
      | None => f' = f /\ r = Throw logic_error
      | Some parent =>
          match list_find (fun l => life_id l = child) f.1 with
          | Some (i, l) =>
              if decide (life_parent l = life_id parent) then
                match life_fate l with
                | Alive | Unset => f' = f /\ (r = Ok (RWait (wait_blocked child)) \/ exists e, r = Throw e)
                | Exited code => f' = (<[i := set_fate (Reaped code) l]> f.1, f.2) /\ r = Ok (RWait (wait_exited child code))
                | Reaped _ => f' = f /\ r = Ok (RWait (wait_no_child child))
                end
              else f' = f /\ r = Ok (RWait (wait_no_child child))
          | None => f' = f /\ r = Ok (RWait (wait_no_child child))
          end
      end
  | _ => f' = f
  end.
Inductive family_run : list kernel_request -> family -> list (res kernel_reply) -> family -> Prop :=
  | family_run_nil f : family_run [] f [] f
  | family_run_cons q qs f r f1 rs f' : family_step q f r f1 -> family_run qs f1 rs f' -> family_run (q :: qs) f (r :: rs) f'.

(** *** The kernel takes the steps of the specification *)

#[export] Hint Resolve same_next_stack same_create_thread_with_stack same_create_thread_on_core_with_stack : kernel.

Section steps.
Context {B D : Type} `{MemoryBus B} `{FlushStore D}.
Abbreviation K := (Kernel B D).
Implicit Types k : K.
Definition family_of k : family := (table k, k_next_pid k).

Lemma table_lookup k p : table k !! p = life_of <$> k_processes k !! p.
Proof. apply list_lookup_fmap. Qed.
Lemma running_fate pr : is_running pr = bool_decide (fate_of pr = Alive).
Proof. unfold is_running, fate_of. by destruct (pr_state pr). Qed.

Lemma create_step parent k : ready k = true -> 1 <= k_next_pid k -> k_next_pid k + 1 < W64 ->
  let '(k', r) := create_process_with_parent parent k in
  ready k' = true /\ k_next_pid k' = k_next_pid k + 1 /\
  match r with
  | Ok p => p = length (table k) /\ table k' = table k ++ [mkLife (k_next_pid k) parent Alive]
  | Throw _ => table k' = table k
  end.
Proof.
  intros Hr Hlo Hhi. unfold create_process_with_parent, take_process_id. munfold_goal. rewrite require5_ready by done.
  set (k1 := set_k_next_pid _ k). assert (Hk1 : table k1 = table k /\ k_next_pid k1 = k_next_pid k + 1 /\ ready k1 = true).
  { split_and!; [done| |done]. subst k1. cbn. apply wrap64_small. unfold u64. lia. }
  destruct Hk1 as (Ht1 & Hn1 & Hr1). destruct (same_address_space KERNEL_DEFAULT_TABLE_ARENA_PAGE_COUNT k1) as [Ht2 Hn2 Hr2].
  destruct (create_address_space _ k1) as [k2 [space|e]]; cbn [fst] in *; [|split_and!; [auto|congruence|congruence]].
  unfold make_process. munfold_goal. destruct (make_table (k_open_files k2)) as [o [files|e]];
    [|split_and!; [by apply Hr2|cbn; congruence|by rewrite <- Ht1, <- Ht2]].
  unfold process_id_is_valid. rewrite (proj2 (Z.eqb_neq _ _)) by (unfold PROCESS_ID_INVALID_VALUE; lia). cbn [negb].
  split; [by apply Hr2|]. split; [cbn; congruence|]. cbn [k_processes set_k_open_files set_k_processes].
  rewrite <- Ht1, <- Ht2. unfold table. cbn [k_processes set_k_open_files set_k_processes]. rewrite length_fmap, fmap_app. done.
Qed.
(** What follows a creation keeps the table and returns the new process when it returns. *)
Lemma creates_after parent k (c : ProcessRef -> M K kernel_reply) :
  ready k = true -> 1 <= k_next_pid k -> k_next_pid k + 1 < W64 ->
  (forall p, within same_table (c p)) -> (forall p s a, snd (c p s) = Ok a -> a = RProcess p) ->
  let '(k', r) := (create_process_with_parent parent ≫= c) k in
  ready k' = true /\ creates parent true (family_of k) r (family_of k').
Proof.
  intros Hr Hlo Hhi Hc Hreply. munfold_goal. pose proof (create_step parent k Hr Hlo Hhi) as Hs.
  destruct (create_process_with_parent parent k) as [k1 [p|e]]; destruct Hs as (Hr1 & Hn1 & Ht1).
  - destruct Ht1 as [-> Ht1]. destruct (Hc (length (table k)) k1) as [Ht2 Hn2 Hr2].
    pose proof (Hreply (length (table k)) k1) as Ha. destruct (c _ k1) as [k2 [a|e]]; cbn [fst snd] in *;
      (split; [by apply Hr2|]); (split; [cbn; congruence|]); left; cbn; (split; [congruence|]).
    + left. by rewrite (Ha a).
    + right. split; [done|by eexists].
  - split; [done|]. split; [done|]. right. split; [done|by eexists].
Qed.
Lemma exit_step p code k : ready k = true ->
  let '(k', r) := exit_process p code k in
  ready k' = true /\ k_next_pid k' = k_next_pid k /\
  match table k !! p with
  | Some l => if decide (life_fate l = Alive) then table k' = <[p := set_fate (Exited code) l]> (table k)
              else k' = k /\ r = Ok tt
  | None => k' = k /\ r = Throw logic_error
  end.
Proof.
  intros Hr. unfold exit_process. munfold_goal. rewrite require9_ready by done. unfold process_of.
  rewrite table_lookup. destruct (k_processes k !! p) as [pr|] eqn:Ep; cbn [fmap option_fmap option_map]; [|done].
  rewrite running_fate. destruct (decide (life_fate (life_of pr) = Alive)) as [Ha|Ha]; cbn [life_of life_fate] in Ha.
  - rewrite bool_decide_true by done. cbn [negb]. unfold on_process. rewrite Ep, mark_exited_eq, running_fate, bool_decide_true by done.
    set (k1 := set_k_processes _ k).
    assert (Ht : table k1 = <[p := set_fate (Exited code) (life_of pr)]> (table k)).
    { subst k1. unfold table. cbn. by rewrite list_fmap_insert. }
    assert (Hw : within same_table (for_each (pr_threads pr) exit_thread ≫= fun _ => wake_process_waiters (B := B) (D := D) (pr_id pr))).
    { apply within_bind; [exact _| |intros _; apply same_wake_waiters]. apply within_each; [exact _|]. intros t. apply same_exit_thread. }
    specialize (Hw k1). destruct Hw as [Hw1 Hw2 Hw3]. revert Hw1 Hw2 Hw3. munfold_goal.
    destruct (for_each (pr_threads pr) exit_thread k1) as [k2 [[]|e]]; [destruct (wake_process_waiters (pr_id pr) k2) as [k3 r]|];
      cbn [fst]; intros Hw1 Hw2 Hw3; (split; [by apply Hw3|]); (split; [by rewrite Hw2|]); by rewrite Hw1.
  - by rewrite bool_decide_false.
Qed.
Lemma find_table child k : list_find (fun l => life_id l = child) (table k) =
  (fun x => (x.1, life_of x.2)) <$> list_find (fun pr => pr_id pr = child) (k_processes k).
Proof.
  unfold table. rewrite list_find_fmap. cbn. reflexivity.
Qed.
(** The part of a wait that blocks. *)
Definition block_on (parent child : Z) (waiter : ThreadRef) : M K ProcessWaitResult :=
  process_wait_entry parent child ≫= fun i => on_wait_entry i (Wait.wait waiter) ≫= fun _ =>
  gets (is_current waiter) ≫= fun current =>
  (if current : bool then on_scheduler RoundRobin.block_current ≫= fun _ => mret tt else mret tt) ≫= fun _ =>
  mret (wait_blocked child).
Lemma wait_blocks parent child waiter : within same_table (block_on parent child waiter) /\
  preserves (fun _ => True) (block_on parent child waiter) (fun w => w = wait_blocked child).
Proof.
  split.
  - pose proof (same_wait_entry_of (B := B) (D := D)). unfold block_on. walk.
  - unfold block_on. repeat (apply preserves_seq; [by split|intros ?]). by apply preserves_ret.
Qed.
Lemma block_step parent waiter child k : ready k = true ->
  let '(k', r) := block_on parent child waiter k in
  ready k' = true /\ family_of k' = family_of k /\ (r = Ok (wait_blocked child) \/ exists e, r = Throw e).
Proof.
  intros Hr. destruct (wait_blocks parent child waiter) as [Hw Ha]. specialize (Hw k). specialize (Ha k I).
  destruct (block_on parent child waiter k) as [k' r]. destruct Hw as [Ht Hn Hrd], Ha as [_ Ha]. cbn [fst snd] in *.
  split_and!; [by apply Hrd|unfold family_of; congruence|].
  destruct r as [w|e]; [left; by rewrite (Ha w)|right; by eexists].
Qed.
Lemma wait_step parent waiter child k : ready k = true ->
  let '(k', r) := wait_process parent waiter child k in
  ready k' = true /\ family_step (QWait parent waiter child) (family_of k) (match r with Ok w => Ok (RWait w) | Throw e => Throw e end) (family_of k').
Proof.
  intros Hr. unfold wait_process. munfold_goal. rewrite require9_ready by done. unfold process_of.
  unfold family_step, family_of. cbn [fst snd]. rewrite table_lookup, find_table.
  destruct (k_processes k !! parent) as [pp|] eqn:Epp; cbn [fmap option_fmap option_map]; [|by split_and!].
  unfold find_process_by_id. destruct (list_find _ (k_processes k)) as [[i pr]|] eqn:Ef; cbn [fmap option_fmap option_map fst snd]; [|by split_and!].
  apply list_find_Some in Ef as (Ei & Hid & _). rewrite Ei. cbn [life_of life_parent life_id life_fate].
  destruct (decide (pr_parent pr = pr_id pp)) as [Hpar|Hpar];
    [rewrite (proj2 (Z.eqb_eq _ _) Hpar)|rewrite (proj2 (Z.eqb_neq _ _) Hpar); by split_and!]; cbn [negb orb].
  unfold is_reaped, is_exited, fate_of. destruct (pr_state pr) eqn:Es; try by split_and!.
  1,3: rewrite !(bool_decide_false (_ = _)) by done; cbv beta iota; pose proof (block_step (pr_id pp) waiter child k Hr) as Hb; revert Hb; unfold block_on; munfold_goal;
    match goal with |- context [let '(_, _) := ?c in _] => destruct c as [k' r] end;
    intros (Hrd & Hf & Hres); (split; [done|]); (split; [done|]); destruct Hres as [->|[e ->]]; [by left|right; by eexists].
  - change (bool_decide (PState.EXITED = PState.REAPED)) with false. change (bool_decide (PState.EXITED = PState.EXITED)) with true.
    cbv beta iota. unfold on_process. rewrite Ei, mark_reaped_eq. unfold is_exited. rewrite Es.
    change (bool_decide (PState.EXITED = PState.EXITED)) with true. unfold remove_process_wait_entries_for_child. munfold_goal. split; [done|]. split; [|done]. f_equal. unfold table.
    cbn [k_processes set_k_wait_entries set_k_processes]. by rewrite list_fmap_insert.
Qed.

Lemma same_step {A} (c : M K A) k : within same_table c -> ready k = true ->
  let '(k', r) := done_after c k in ready k' = true /\ family_of k' = family_of k.
Proof.
  intros Hc Hr. unfold done_after. munfold_goal. destruct (Hc k) as [Ht Hn Hrd]. unfold family_of.
  destruct (c k) as [k' [a|e]]; cbn [fst] in *; (split; [by apply Hrd|congruence]).
Qed.
Lemma bind_assoc {S A C E} (c : M S A) (f : A -> M S C) (g : C -> M S E) s :
  ((c ≫= f) ≫= g) s = (c ≫= fun a => f a ≫= g) s.
Proof. munfold_goal. by destruct (c s) as [s1 [a|e]]. Qed.
Lemma create_user_step program parent a k : ready k = true -> 1 <= k_next_pid k -> k_next_pid k + 1 < W64 ->
  let '(k', r) := kernel_serve (QCreateUser program parent a) k in
  ready k' = true /\ creates parent true (family_of k) r (family_of k').
Proof.
  intros Hr Hlo Hhi. cbn [kernel_serve]. unfold create_user_process_with_parent. rewrite bind_assoc.
  apply creates_after; [done..| |].
  - intros p. pose proof (same_load_user_program (B := B) (D := D)). pose proof (same_create_user_thread (B := B) (D := D)). walk.
  - intros p s r. munfold_goal. destruct (load_user_program p program a s) as [k1 [image|e]]; [|done].
    destruct (create_user_thread p image k1) as [k2 [t|e]]; cbn; congruence.
Qed.
(** What a fork does to the new process. *)
Definition fork_into (parent : ProcessRef) (pp : Process) (pages : list Z) (child : ProcessRef) : M K kernel_reply :=
  on_process child (modify (set_pr_files (pr_files pp))) ≫= fun _ =>
  lift (process_of child) ≫= fun child_process =>
  on_sharing parent child (share_pages (pr_id pp) (pr_id child_process) pages) ≫= fun _ =>
  mret (RProcess child).
Lemma same_fork_into parent pp pages child : within same_table (fork_into parent pp pages child).
Proof.
  unfold fork_into. pose proof (@same_process B D unit child (modify (set_pr_files (pr_files pp)))) as Hp. walk.
Qed.
Lemma fork_eq parent pages k : ready k = true ->
  kernel_serve (QFork parent pages) k =
    match k_processes k !! parent with
    | Some pp => (create_process_with_parent (pr_id pp) ≫= fork_into parent pp pages) k
    | None => (k, Throw logic_error)
    end.
Proof.
  intros Hr. cbn [kernel_serve]. unfold fork_process_cow, fork_into, process_of. munfold_goal. rewrite require9_ready by done.
  destruct (k_processes k !! parent) as [pp|]; [|done].
  destruct (create_process_with_parent (pr_id pp) k) as [k1 [p|e]]; [|done]. destruct (on_process p _ k1) as [k2 [[]|e]]; [|done].
  destruct (k_processes k2 !! p) as [pc|]; [|done]. by destruct (on_sharing parent p _ k2) as [k3 [[]|e]].
Qed.
Lemma fork_step parent pages k : ready k = true -> 1 <= k_next_pid k -> k_next_pid k + 1 < W64 ->
  let '(k', r) := kernel_serve (QFork parent pages) k in
  ready k' = true /\ family_step (QFork parent pages) (family_of k) r (family_of k').
Proof.
  intros Hr Hlo Hhi. rewrite fork_eq by done. cbn [family_step]. unfold family_of at 1. cbn [fst]. rewrite table_lookup.
  destruct (k_processes k !! parent) as [pp|]; cbn [fmap option_fmap option_map]; [|done].
  apply (creates_after (pr_id pp) k); [done..| |].
  - apply same_fork_into.
  - intros p s r. unfold fork_into. munfold_goal. destruct (on_process p _ s) as [k2 [[]|e]]; [|done].
    destruct (process_of p k2) as [pc|e]; [|done]. destruct (on_sharing parent p _ k2) as [k3 [[]|e]]; cbn; congruence.
Qed.
Lemma create_only_step k : ready k = true -> 1 <= k_next_pid k -> k_next_pid k + 1 < W64 ->
  let '(k', r) := kernel_serve QCreate k in
  ready k' = true /\ family_step QCreate (family_of k) r (family_of k').
Proof.
  intros Hr Hlo Hhi. cbn [kernel_serve family_step]. unfold create_process. munfold_goal.
  pose proof (create_step PROCESS_ID_INVALID_VALUE k Hr Hlo Hhi) as Hs.
  destruct (create_process_with_parent _ k) as [k1 [p|e]]; destruct Hs as (Hr1 & Hn1 & Ht1); (split; [done|]); (split; [done|]).
  - destruct Ht1 as [-> Ht1]. left. split; [done|by left].
  - right. split; [done|by eexists].
Qed.
(** One call of a member function is a step of the specification. *)
Lemma serve_step q k : ready k = true -> 1 <= k_next_pid k -> k_next_pid k + 1 < W64 ->
  let '(k', r) := kernel_serve q k in
  ready k' = true /\ family_step q (family_of k) r (family_of k').
Proof.
  intros Hr Hlo Hhi. destruct q.
  - by apply create_only_step.
  - by apply create_user_step.
  - by apply fork_step.
  - pose proof (exit_step p code k Hr) as Hs. cbn [kernel_serve family_step]. unfold done_after, family_of. munfold_goal. cbn [fst snd].
    destruct (exit_process p code k) as [k' r]. destruct Hs as (Hr' & Hn & Hs).
    destruct (table k !! p) as [l|]; [destruct (decide (life_fate l = Alive))|].
    + destruct r; (split; [done|]); by rewrite Hs, Hn.
    + by destruct Hs as [-> ->].
    + by destruct Hs as [-> ->].
  - pose proof (wait_step parent waiter child k Hr) as Hs. cbn [kernel_serve]. munfold_goal.
    by destruct (wait_process parent waiter child k) as [k' [w|e]].
  - apply same_step; [|done]. unfold Kernel.create_thread. walk.
  - apply same_step; [|done]. unfold create_thread_on_core. walk.
  - by apply same_step; [apply same_submit|].
  - by apply same_step; [apply same_read_fd|].
  - by apply same_step; [apply same_write_fd|].
  - by apply same_step; [apply same_open_file|].
  - by apply same_step; [apply same_close_fd|].
  - by apply same_step; [apply same_tick_core_timer|].
  - by apply same_step; [apply same_sleep_for|].
  - by apply same_step; [apply same_futex_wait|].
  - by apply same_step; [apply same_futex_wake_one|].
  - by apply same_step; [apply same_futex_wake_all|].
  - by apply same_step; [apply same_page_fault|].
  - by apply same_step; [apply same_cow_fault|].
Qed.
Lemma step_next q f r f' : family_step q f r f' -> f.2 <= f'.2 <= f.2 + 1.
Proof.
  assert (Hc : forall parent b, creates parent b f r f' -> f.2 <= f'.2 <= f.2 + 1) by (intros ? ? [-> _]; lia).
  destruct q; cbn [family_step]; eauto; try (intros ->; lia); repeat case_match; eauto; intros; destruct_and?; subst; cbn; try lia.
Qed.
Lemma kernel_run qs : forall k, ready k = true -> 1 <= k_next_pid k -> k_next_pid k + lenZ qs < W64 ->
  let '(k', rs) := serve_all kernel_serve qs k in
  ready k' = true /\ family_run qs (family_of k) rs (family_of k').
Proof.
  induction qs as [|q qs IH]; intros k Hr Hlo Hhi; [by split; [|constructor]|].
  unfold lenZ in *. cbn [length] in Hhi. cbn [serve_all]. pose proof (serve_step q k Hr Hlo ltac:(lia)) as Hs.
  destruct (kernel_serve q k) as [k1 r]. destruct Hs as [Hr1 Hs]. pose proof (step_next _ _ _ _ Hs) as Hn. cbn [family_of snd] in Hn.
  specialize (IH k1 Hr1 ltac:(lia) ltac:(lia)). destruct (serve_all kernel_serve qs k1) as [k' rs]. destruct IH as [Hr' IH].
  split; [done|]. by econstructor.
Qed.
End steps.

(** ** What a family remembers of a process *)

(** The exit codes of [child] that were handed out, and to whom. *)
Definition delivery (child : Z) (q : kernel_request) (r : res kernel_reply) : option (ProcessRef * Z) :=
  match q, r with
  | QWait p _ _, Ok (RWait w) => if wait_has_exit_code w && (wait_child w =? child) then Some (p, wait_exit_code w) else None
  | _, _ => None
  end.
Definition delivered (child : Z) (qs : list kernel_request) (rs : list (res kernel_reply)) : list (ProcessRef * Z) :=
  omap (fun '(q, r) => delivery child q r) (zip qs rs).
(** From one fate to another, with the exits asked for and the exit codes handed out meanwhile. *)
Definition history (i : ProcessRef) (qs : list kernel_request) (parents : ProcessRef -> Prop)
    (before after : fate) (ds : list (ProcessRef * Z)) : Prop :=
  match before, after with
  | Alive, Alive | Unset, Unset => ds = []
  | Alive, Exited code => ds = [] /\ QExit i code ∈ qs
  | Alive, Reaped code => (exists p, parents p /\ ds = [(p, code)]) /\ QExit i code ∈ qs
  | Exited code, Exited code' => code' = code /\ ds = []
  | Exited code, Reaped code' => code' = code /\ exists p, parents p /\ ds = [(p, code)]
  | Reaped code, Reaped code' => code' = code /\ ds = []
  | _, _ => False
  end.
Record family_ok (f : family) : Prop := {
  fo_ids : NoDup (life_id <$> f.1);
  fo_bound : Forall (fun l => life_id l < f.2) f.1;
}.
(** The process at [i], or one not yet made. *)
Definition fate_at (i : ProcessRef) (f : family) : fate := match f.1 !! i with Some l => life_fate l | None => Alive end.

Lemma insert_ok (ls : list life) n i l f : ls !! i = Some l -> family_ok (ls, n) -> family_ok (<[i := set_fate f l]> ls, n).
Proof.
  intros Hi [Hid Hb]. cbn [fst snd] in *. split; cbn [fst snd].
  - rewrite list_fmap_insert, list_insert_id; [done|]. by rewrite list_lookup_fmap, Hi.
  - apply Forall_insert; [done|]. cbn. by apply (Forall_lookup_1 _ _ _ _ Hb Hi).
Qed.

(** *** One step *)

Definition parent_in (f : family) (l : life) (p : ProcessRef) : Prop := exists lp, f.1 !! p = Some lp /\ life_id lp = life_parent l.
Lemma history_refl i qs P a : history i qs P a a [].
Proof. by destruct a. Qed.
Lemma history_app i q qs P a b c ds ds' : history i [q] P a b ds -> history i qs P b c ds' -> history i (q :: qs) P a c (ds ++ ds').
Proof.
  assert (Hq : forall code, QExit i code ∈ [q] -> QExit i code ∈ q :: qs) by (intros code ->%list_elem_of_singleton; by left).
  assert (Hqs : forall code, QExit i code ∈ qs -> QExit i code ∈ q :: qs) by (intros code Hc; by right).
  destruct a, b; try done; destruct c; try done; cbn; intros; destruct_and?; subst; auto; rewrite ?app_nil_r; auto.
Qed.
Lemma history_mono i qs P (Q : ProcessRef -> Prop) a b ds : (forall p, P p -> Q p) -> history i qs P a b ds -> history i qs Q a b ds.
Proof. destruct a, b; cbn; naive_solver. Qed.

Lemma find_id (ls : list life) c i l : NoDup (life_id <$> ls) -> ls !! i = Some l -> life_id l = c ->
  list_find (fun l => life_id l = c) ls = Some (i, l).
Proof.
  intros Hn Hi Hc. apply list_find_Some. split_and!; [done|done|]. intros j y Hj Hlt Hy.
  assert (i = j); [|lia]. eapply (NoDup_lookup _ i j c); [exact Hn|..]; rewrite list_lookup_fmap.
  - rewrite Hi. cbn. by rewrite Hc.
  - rewrite Hj. cbn. by rewrite Hy.
Qed.
(** The five ways a family changes. *)
Inductive change (q : kernel_request) (r : res kernel_reply) : family -> family -> Prop :=
  | change_none f : (forall c, delivery c q r = None) -> change q r f f
  | change_skip ls n : (forall c, delivery c q r = None) -> change q r (ls, n) (ls, n + 1)
  | change_create ls n parent : (forall c, delivery c q r = None) -> change q r (ls, n) (ls ++ [mkLife n parent Alive], n + 1)
  | change_exit ls n p code l : q = QExit p code -> ls !! p = Some l -> life_fate l = Alive ->
      change q r (ls, n) (<[p := set_fate (Exited code) l]> ls, n)
  | change_reap ls n p waiter i l lp code : q = QWait p waiter (life_id l) -> r = Ok (RWait (wait_exited (life_id l) code)) ->
      ls !! p = Some lp -> ls !! i = Some l -> life_parent l = life_id lp -> life_fate l = Exited code ->
      change q r (ls, n) (<[i := set_fate (Reaped code) l]> ls, n).
Lemma creates_change q parent b f r f' : (forall c, delivery c q r = None) -> creates parent b f r f' -> change q r f f'.
Proof.
  destruct f as [ls n], f' as [ls' n']. intros Hd [Hn [[Hl _]|[Hl _]]]; cbn [fst snd] in *; subst; by constructor.
Qed.
Lemma wait_change p waiter child f r f' : family_step (QWait p waiter child) f r f' -> change (QWait p waiter child) r f f'.
Proof.
  destruct f as [ls n]. cbn [family_step fst snd]. destruct (ls !! p) as [lp|] eqn:Ep; [|intros [-> ->]; by constructor].
  destruct (list_find _ ls) as [[i l]|] eqn:Ef; [|intros [-> ->]; by constructor]. apply list_find_Some in Ef as (Ei & <- & _).
  destruct (decide (life_parent l = life_id lp)) as [Hp|]; [|intros [-> ->]; by constructor].
  destruct (life_fate l) eqn:El.
  1,4: intros [-> [->|[e ->]]]; by constructor.
  - intros [-> ->]. by eapply change_reap.
  - intros [-> ->]. by constructor.
Qed.
Lemma step_change q f r f' : family_step q f r f' -> change q r f f'.
Proof.
  destruct q; try apply wait_change; cbn [family_step]; try (intros ->; by constructor); try (by apply creates_change).
  - destruct (f.1 !! parent); [by apply creates_change|]. intros [-> ->]. by constructor.
  - destruct f as [ls n]. cbn [fst snd]. destruct (ls !! p) as [l|] eqn:Ep; [|intros [-> ->]; by constructor].
    destruct (decide (life_fate l = Alive)) as [Ha|]; [|intros [-> ->]; by constructor]. intros ->. by apply change_exit.
Qed.

Section change.
Context (q : kernel_request) (r : res kernel_reply).
Implicit Types f : family.
Lemma change_ok f f' : change q r f f' -> family_ok f -> family_ok f'.
Proof.
  intros Hc [Hid Hb]. assert (Hb' : Forall (fun l => life_id l < f.2 + 1) f.1) by (eapply Forall_impl; [exact Hb|]; cbn; lia).
  destruct Hc; try done; cbn [fst snd] in *; try (eapply insert_ok; [done|by split]); split; cbn [fst snd]; try done.
  - rewrite fmap_app. apply NoDup_app. split_and!; [done| |apply NoDup_singleton].
    intros x [l [-> Hl]]%list_elem_of_fmap Hx. apply list_elem_of_singleton in Hx. cbn in Hx. rewrite Forall_forall in Hb. specialize (Hb l Hl). lia.
  - apply Forall_app. split; [done|]. constructor; [cbn; lia|done].
Qed.
(** A process keeps its place, its id and its parent. *)
Lemma change_keeps f f' i l : change q r f f' -> f.1 !! i = Some l ->
  exists l', f'.1 !! i = Some l' /\ life_id l' = life_id l /\ life_parent l' = life_parent l.
Proof.
  assert (Hins : forall (ls : list life) j lj g, ls !! j = Some lj -> ls !! i = Some l ->
    exists l', <[j := set_fate g lj]> ls !! i = Some l' /\ life_id l' = life_id l /\ life_parent l' = life_parent l).
  { intros ls j lj g Hj Hi. destruct (decide (i = j)) as [->|Hne].
    - rewrite list_lookup_insert_eq by (by eapply lookup_lt_Some). simplify_eq. by eexists.
    - rewrite list_lookup_insert_ne by done. eauto. }
  intros Hc Hi. destruct Hc; cbn [fst snd] in *; eauto.
  exists l. split; [|done]. by apply lookup_app_l_Some.
Qed.
(** A new one takes an id that none had. *)
Lemma change_new f f' i l : change q r f f' -> f.1 !! i = None -> f'.1 !! i = Some l -> f.2 <= life_id l /\ life_fate l = Alive.
Proof.
  intros Hc Hn Hi. destruct Hc; cbn [fst snd] in *; try congruence.
  - apply lookup_app_Some in Hi as [Hi|[_ Hi]]; [congruence|]. apply list_lookup_singleton_Some in Hi as [_ <-]. by split.
  - rewrite list_lookup_insert_ne in Hi; congruence.
  - rewrite list_lookup_insert_ne in Hi; congruence.
Qed.
Lemma change_next f f' : change q r f f' -> f.2 <= f'.2.
Proof. destruct 1; cbn; lia. Qed.
Lemma change_history f f' i l l' : family_ok f -> change q r f f' -> f.1 !! i = Some l -> f'.1 !! i = Some l' ->
  history i [q] (parent_in f l) (life_fate l) (life_fate l') (option_list (delivery (life_id l) q r)).
Proof.
  intros Hok Hc Hi Hi'. destruct Hc as [f Hd|ls n Hd|ls n parent Hd|ls n p code lx -> Hp Ha|ls n p w j lx lp code -> -> Hp Hj Hpar Hx];
    cbn [fst snd] in *.
  - rewrite Hd. simplify_eq. apply history_refl.
  - rewrite Hd. simplify_eq. apply history_refl.
  - rewrite Hd. rewrite lookup_app_l in Hi' by (by eapply lookup_lt_Some). simplify_eq. apply history_refl.
  - cbn [delivery option_list]. destruct (decide (i = p)) as [->|Hne].
    + rewrite list_lookup_insert_eq in Hi' by (by eapply lookup_lt_Some). simplify_eq. rewrite Ha. cbn. by split; [|left].
    + rewrite list_lookup_insert_ne in Hi' by done. simplify_eq. apply history_refl.
  - cbn [delivery wait_exited wait_has_exit_code wait_child wait_exit_code andb]. destruct (decide (i = j)) as [->|Hne].
    + rewrite list_lookup_insert_eq in Hi' by (by eapply lookup_lt_Some). simplify_eq. rewrite Z.eqb_refl. rewrite Hx. cbn. split; [done|].
      exists p. split; [|done]. by exists lp.
    + rewrite list_lookup_insert_ne in Hi' by done. simplify_eq. rewrite (proj2 (Z.eqb_neq _ _)); [apply history_refl|].
      intros He. apply Hne. destruct Hok as [Hid _]. eapply (NoDup_lookup _ i j (life_id l)); [exact Hid|..]; rewrite list_lookup_fmap; cbn.
      * by rewrite Hi.
      * rewrite Hj. cbn. by rewrite He.
Qed.
(** Nothing is handed out of a process that does not exist. *)
Lemma change_silent f f' c : family_ok f -> change q r f f' -> f.2 <= c -> delivery c q r = None.
Proof.
  intros Hok Hc Hlt. destruct Hc as [f Hd|ls n Hd|ls n parent Hd|ls n p code lx -> Hp Ha|ls n p w j lx lp code -> -> Hp Hj Hpar Hx]; try done.
  cbn in *. rewrite (proj2 (Z.eqb_neq _ _)); [done|]. destruct Hok as [_ Hb]. pose proof (Forall_lookup_1 _ _ _ _ Hb Hj). cbn in *. lia.
Qed.
End change.

(** *** A run *)

Lemma run_keeps qs f rs f' i l : family_run qs f rs f' -> f.1 !! i = Some l ->
  exists l', f'.1 !! i = Some l' /\ life_id l' = life_id l /\ life_parent l' = life_parent l.
Proof.
  intros Hr. revert l. induction Hr as [f|q qs f r f1 rs f' Hs Hr IH]; intros l Hi; [eauto|].
  destruct (change_keeps q r f f1 i l (step_change _ _ _ _ Hs) Hi) as (l1 & Hi1 & <- & <-). auto.
Qed.
Lemma run_new qs f rs f' i l : family_run qs f rs f' -> f.1 !! i = None -> f'.1 !! i = Some l -> f.2 <= life_id l.
Proof.
  intros Hr. induction Hr as [f|q qs f r f1 rs f' Hs Hr IH]; intros Hn Hi; [congruence|].
  apply step_change in Hs. pose proof (change_next _ _ _ _ Hs) as Hle. destruct (f1.1 !! i) as [l1|] eqn:Hi1.
  - destruct (change_new _ _ _ _ _ _ Hs Hn Hi1) as [Hlt _]. destruct (run_keeps _ _ _ _ _ _ Hr Hi1) as (l2 & Hi2 & Hid & _).
    simplify_eq. by rewrite Hid.
  - specialize (IH eq_refl Hi). lia.
Qed.
Lemma run_history qs f rs f' i l : family_run qs f rs f' -> family_ok f -> f'.1 !! i = Some l ->
  history i qs (parent_in f' l) (fate_at i f) (life_fate l) (delivered (life_id l) qs rs).
Proof.
  intros Hr. induction Hr as [f|q qs f r f1 rs f' Hs Hr IH]; intros Hok Hi.
  { unfold fate_at. rewrite Hi. apply history_refl. }
  assert (Hnew : f.1 !! i = None -> f.2 <= life_id l) by (intros Hn; by apply (run_new (q :: qs) f (r :: rs) f' i); [econstructor|..]).
  apply step_change in Hs. specialize (IH (change_ok _ _ _ _ Hs Hok) Hi).
  replace (delivered (life_id l) (q :: qs) (r :: rs)) with (option_list (delivery (life_id l) q r) ++ delivered (life_id l) qs rs)
    by (unfold delivered; cbn; by destruct (delivery (life_id l) q r)).
  apply (history_app _ _ _ _ _ (fate_at i f1)); [|exact IH]. unfold fate_at.
  destruct (f.1 !! i) as [l0|] eqn:E0.
  - destruct (change_keeps _ _ _ _ _ _ Hs E0) as (l1 & E1 & Hid1 & Hpar1). rewrite E1.
    destruct (run_keeps _ _ _ _ _ _ Hr E1) as (l2 & E2 & Hid2 & Hpar2). simplify_eq.
    rewrite Hid2, Hid1. eapply history_mono; [|by eapply change_history]. intros p (lp & Hp & Hpid).
    destruct (change_keeps _ _ _ _ _ _ Hs Hp) as (lp1 & Hp1 & Hi1 & _). destruct (run_keeps _ _ _ _ _ _ Hr Hp1) as (lp2 & Hp2 & Hi2 & _).
    exists lp2. split; [done|congruence].
  - rewrite (change_silent q r f f1) by auto. destruct (f1.1 !! i) as [l1|] eqn:E1; [|apply history_refl].
    destruct (change_new _ _ _ _ _ _ Hs E0 E1) as [_ ->]. apply history_refl.
Qed.

(** ** Theorems *)

Section properties.
Context {B D : Type} `{MemoryBus B} `{FlushStore D}.
Implicit Types k : Kernel B D.


(** C5. Whatever is called, the exit code of a process is handed out at most once, only after an
    exit of that process with that code, and only to a wait of its parent; a process whose code was
    handed out is reaped, and one that has ended keeps its code until then. *)
Theorem exit_code_delivered_once (qs : list kernel_request) k k' rs i l : ready k = true -> family_ok (family_of k) ->
  1 <= k_next_pid k -> k_next_pid k + lenZ qs < W64 -> serve_all kernel_serve qs k = (k', rs) ->
  table k' !! i = Some l ->
  history i qs (parent_in (family_of k') l) (fate_at i (family_of k)) (life_fate l) (delivered (life_id l) qs rs).
Proof.
  intros Hr Hok Hlo Hhi Hk Hi. pose proof (kernel_run qs k Hr Hlo Hhi) as Hrun. rewrite Hk in Hrun.
  destruct Hrun as [_ Hrun]. by apply run_history.
Qed.
End properties.

(** *** A kernel with a process and its child *)

Definition sample_process (id parent : Z) : Process := mkProcess id parent PState.RUNNING 0 (mkSpace 0 0 0 0) (mkFdTable []) [].
Definition sample_kernel : Kernel PhysicalMemory (BufferCache * MemoryBlockDevice) :=
  set_k_booted true (set_k_allocator (Some (mkAllocator 0 0 0 [])) (set_k_kernel_space (Some (mkSpace 0 0 0 0))
    (set_k_apic (Some (make_apic_system (mkTopology 1))) (set_k_smp (Some (Smp.make_scheduler (mkTopology 1)))
      (set_k_processes [sample_process 1 0; sample_process 2 1] (set_k_next_pid 3
        (make_kernel (mkPlatform (mkMemory []) 4096 (mkTopology 1) (mkTerminal (mkDisplay 1 1 0 0 0 []) (mkKeyboard 0 []) []))))))))).
Definition sample_requests : list kernel_request := [QExit 1 7; QSubmit []; QWait 0 5 2; QWait 0 5 2].
Lemma sample_ok : ready sample_kernel = true /\ family_ok (family_of sample_kernel).
Proof.
  split; [reflexivity|]. split.
  - change (NoDup [1; 2]). apply (bool_decide_unpack _). vm_compute. exact I.
  - change (Forall (fun l => life_id l < 3) [mkLife 1 0 Alive; mkLife 2 1 Alive]). repeat constructor; cbn; lia.
Qed.
Lemma exit_code_delivered_once_witness : exists k' : Kernel PhysicalMemory (BufferCache * MemoryBlockDevice),
  history 1 sample_requests (parent_in (family_of k') (mkLife 2 1 (Reaped 7))) Alive (Reaped 7)
    (delivered 2 sample_requests [Ok RDone; Ok RDone; Ok (RWait (wait_exited 2 7)); Ok (RWait (wait_no_child 2))]).
Proof.
  exists (fst (serve_all kernel_serve sample_requests sample_kernel)).
  apply (exit_code_delivered_once sample_requests sample_kernel _ _ 1%nat (mkLife 2 1 (Reaped 7)));
    [apply sample_ok|apply sample_ok|done|done|vm_compute; reflexivity|vm_compute; reflexivity].
Defined.

(** ** A wait by a thread that is not current *)

(** [Kernel::wait_process] takes the waiter out of the scheduler only when it is current.  A thread
    that waits while it stands in the ready queue, as the thread of [exec_user_program] does, is
    blocked and still queued; when its child exits, waking it is refused, and the exception leaves
    [Kernel::exit_process] with the child marked as exited and its waiters lost. *)
Definition queued_waiter : Kernel PhysicalMemory (BufferCache * MemoryBlockDevice) :=
  set_k_threads {[5 := mkThread 1 TState.READY CpuState.make_cpu_state 0x1000 0x2000 0x1000 None]}
    (set_k_scheduler (mkRoundRobin [5] None) sample_kernel).
Lemma queued_waiter_breaks_exit :
  let '(k, rs) := serve_all kernel_serve [QWait 0 5 2; QExit 1 7] queued_waiter in
  rs = [Ok (RWait (wait_blocked 2)); Throw logic_error] /\
  table k = [mkLife 1 0 Alive; mkLife 2 1 (Exited 7)] /\ waiters (entry_queue (default (mkWaitEntry 0 0 (mkWaitQueue [])) (head (k_wait_entries k)))) = [].
Proof. vm_compute. by repeat split. Qed.
