(* ===== verification/KernelBoot.v ===== *)
(** * Booting

    Theorems on src/os/kernel/kernel.cpp: what [Kernel::boot] leaves behind on any machine with memory
    enough, and that it refuses a machine with too little and a second boot. *)

From S2P Require Import Prelude Logic Common PhysicalMemory MemoryBus Paging PageTable Page PageAlloc BlockDevice BufferCache Instruction CpuState Thread RoundRobin Smp FsFormat SimpleFs FsDisk FsData FsSpec FsRefinement FsMount Terminal AddressSpace Apic Process Kernel KernelProcesses.

(** ** The services, one by one *)

Section pages.
Lemma fresh_run total n a : 2 <= total <= 2 ^ 52 -> 1 <= n <= total - 1 -> make_allocator total 1 = Ok a ->
  exists a', allocate_contiguous n a = (a', Ok 4096) /\ alloc_wf a' /\ free_page_count a' = total - 1 - n /\
  total_page_count a' = total /\ forall i, PageAlloc.is_free a' i <-> 1 + n <= i < total.
Proof.
  intros Ht Hn Ha. destruct (make_allocator_wf total 1 a ltac:(lia) ltac:(lia) Ha) as (Hwf & Htot & Hfirst & Hfree).
  destruct (allocate_contiguous n a) as [a' r] eqn:E. destruct (allocate_contiguous_first_fit a n a' r Hwf ltac:(lia) E) as (Hwf' & [Htot' _] & Hr).
  assert (Hrun : free_run a 1 n) by (intros i Hi; apply Hfree; lia).
  assert (Hc : free_page_count a = total - 1).
  { unfold make_allocator in Ha. destruct (total =? 0); [done|]. destruct (total <? 1); [done|]. injection Ha as <-. cbn.
    by rewrite (proj2 (Z.ltb_lt 1 total)) by lia. }
  destruct r as [addr|e].
  - destruct Hr as (start & -> & _ & Hs & Hlow & Hleft & Hcount). exists a'.
    assert (start = 1) as ->; [|split_and!; [done|done|lia|lia|intros i; rewrite Hleft, Hfree; lia]].
    assert (1 <= start) by (apply (Hfree start), Hs; lia).
    destruct (Z_lt_le_dec 1 start) as [Hlt|]; [|lia]. destruct (Hlow 1) as (i & Hi & Hni); [lia|]. by destruct (Hni (Hrun i Hi)).
  - destruct Hr as [_ [[_ ->]|[_ Hb]]]; [lia|]. destruct (Hb 1) as (i & Hi & Hni); [lia|lia|]. by destruct (Hni (Hrun i Hi)).
Qed.
End pages.

(** The root device, behind its cache, and the layout of the root file system. *)
Definition root_geometry : BlockDeviceGeometry := mkGeometry 512 4096 2097152.
Definition root_layout : SimpleFsLayout := mkLayout 512 4096 1 16 128 17 1 18 4078 1.
Lemma root_store_made : exists c d, make_block_geometry 512 KERNEL_STAGE15_ROOT_BLOCK_COUNT = Ok root_geometry /\
  make_device root_geometry = Ok d /\ make_buffer_cache d KERNEL_STAGE15_BUFFER_CACHE_BLOCKS = Ok c /\
  bs_ok (c, d) /\ bs_block_size (c, d) = 512 /\ bs_block_count (c, d) = 4096.
Proof.
  assert (Hg : make_block_geometry 512 4096 = Ok root_geometry) by reflexivity.
  set (d := mkDevice root_geometry (replicate (Z.to_nat 2097152) 0)). assert (Hd : make_device root_geometry = Ok d) by reflexivity.
  assert (Hok : device_ok d).
  { split; cbn [geometry d BlockDevice.block_size_bytes BlockDevice.block_count capacity_bytes storage root_geometry]; try lia.
    unfold lenZ. rewrite length_replicate. lia. }
  assert (Hs : bs_block_size d = 512) by reflexivity. assert (Hn : bs_block_count d = 4096) by reflexivity.
  clearbody d.
  destruct (make_buffer_cache d KERNEL_STAGE15_BUFFER_CACHE_BLOCKS) as [c|e] eqn:Ec.
  - exists c, d. pose proof (make_buffer_cache_wf d KERNEL_STAGE15_BUFFER_CACHE_BLOCKS c Hok ltac:(done) Ec) as Hv. split_and!; try done. by destruct Hv.
  - exfalso. unfold make_buffer_cache, checked_cache_storage_size in Ec. rewrite Hs in Ec. done.
Qed.
Lemma root_formatted d : bs_ok d -> bs_block_size d = 512 -> bs_block_count d = 4096 ->
  exists d1 d2 : BufferCache * MemoryBlockDevice,
    SimpleFs.format KERNEL_STAGE15_ROOT_INODE_COUNT d = (d1, Ok tt) /\ SimpleFs.mount d1 = (d2, Ok root_layout) /\
    layout_ok root_layout /\ fs_repr root_layout d2 (initial_state root_layout).
Proof.
  intros Hd Hs Hn. destruct (format_mount_run d KERNEL_STAGE15_ROOT_INODE_COUNT root_layout) as (d1 & d2 & ? & ? & ? & _ & ?); [done| | | |eauto 10].
  - rewrite Hs, Hn. by repeat split.
  - done.
  - rewrite Hs, Hn. reflexivity.
Qed.

(** The timers: after configuring the cores of a list, each of them ticks periodically. *)
Definition ticking (core : Z) (s : ApicSystem) : Prop :=
  exists a, local_of s core = Some a /\ apic_enabled a = true /\
    timer_enabled (apic_timer a) = true /\ timer_mode (apic_timer a) = TimerMode.PERIODIC /\
    timer_fires (apic_timer a) = timer_vector /\ initial_count (apic_timer a) = 1.
Definition all_enabled (s : ApicSystem) : Prop := forall a, a ∈ local_apics s -> apic_enabled a = true.
Lemma configure_timers (cores : list Z) : forall s, apic_wf s -> all_enabled s ->
  Forall (fun c => 0 <= c < core_count (apic_topology s)) cores ->
  exists s', for_each cores (fun c => on_local c (configure_periodic_timer timer_vector 1)) s = (s', Ok tt) /\ apic_wf s' /\
    apic_topology s' = apic_topology s /\ forall c, 0 <= c -> (c ∈ cores \/ ticking c s) -> ticking c s'.
Proof.
  induction cores as [|c cores IH]; intros s Hwf Hen Hc.
  { exists s. split_and!; try done. intros c _ [Hx|?]; [by apply not_elem_of_nil in Hx|done]. }
  apply Forall_cons_1 in Hc as [Hc Hcs]. cbn [for_each]. munfold_goal. rewrite on_local_run by (done || lia).
  destruct (proj2 (local_of_some s c Hwf ltac:(lia))) as [a Ea]; [unfold in_topology; lia|]. rewrite Ea.
  set (a' := fst (configure_periodic_timer timer_vector 1 a)).
  assert (Hr : snd (configure_periodic_timer timer_vector 1 a) = Ok tt) by reflexivity. rewrite Hr. cbv beta iota.
  assert (Hae : apic_enabled a = true) by (apply Hen; by eapply list_elem_of_lookup_2).
  assert (Hae' : apic_enabled a' = true) by exact Hae.
  assert (Hwf' : apic_wf (put_local c a' s)) by (eapply put_local_wf; [done|lia|exact Ea|done]).
  destruct (IH (put_local c a' s)) as (s' & Hs' & Hw' & Ht' & Htick); [done| |done|].
  { intros x Hx. apply list_elem_of_lookup in Hx as [i Hi]. cbn in Hi. apply list_lookup_insert_Some in Hi as [(_ & -> & _)|[_ Hi]];
      [exact Hae'|]. apply Hen. by eapply list_elem_of_lookup_2. }
  exists s'. split; [exact Hs'|]. split; [done|]. split; [done|]. intros d Hd0 Hd. apply Htick; [done|].
  destruct (decide (d = c)) as [->|Hne].
  - right. exists a'. rewrite (local_of_put c a) by (lia || done). rewrite decide_True by done. by split_and!.
  - destruct Hd as [Hd|(x & Hx & Hrest)]; [apply elem_of_cons in Hd as [?|?]; [done|by left]|]. right.
    exists x. rewrite (local_of_put c a) by (lia || done). by rewrite decide_False.
Qed.

(** ** The kernel *)

Section booted.
Context {B : Type} `{MemoryBusLaws B}.
Abbreviation RootStore := (BufferCache * MemoryBlockDevice)%type.
Abbreviation K := (Kernel B RootStore).
Implicit Types k : K.

Lemma set_apic_same k s : k_apic k = Some s -> set_k_apic (Some s) k = k.
Proof. destruct k. cbn. by intros ->. Qed.
Lemma on_apic_run {A} (c : M ApicSystem A) k s : k_apic k = Some s ->
  on_apic c k = (set_k_apic (Some (fst (c s))) k, snd (c s)).
Proof. intros E. unfold on_apic, on_optional. rewrite E. by destruct (c s). Qed.
Lemma for_each_apic {X} (xs : list X) f : forall k s, k_apic k = Some s ->
  for_each xs (fun x => on_apic (f x)) k = (set_k_apic (Some (fst (for_each xs f s))) k, snd (for_each xs f s)).
Proof.
  induction xs as [|x xs IH]; intros k s E; cbn [for_each].
  { munfold_goal. cbn. by rewrite set_apic_same. }
  munfold_goal. rewrite (on_apic_run _ _ s) by done. destruct (f x s) as [s1 [[]|e]]; cbn [fst snd]; [|done].
  rewrite (IH _ s1) by done. by destruct (for_each xs f s1).
Qed.
Lemma stage7_run k : 0 <= core_count (k_topology k) -> exists s,
  configure_stage7_services k = (set_k_apic (Some s) k, Ok tt) /\ apic_wf s /\ apic_topology s = k_topology k /\
  forall c, 0 <= c < core_count (k_topology k) -> ticking c s.
Proof.
  intros Hn. set (s0 := make_apic_system (k_topology k)). set (s1 := fst (enable_local_apics s0)).
  assert (Hwf0 : apic_wf s0) by by apply make_apic_wf.
  assert (Hwf1 : apic_wf s1).
  { destruct Hwf0 as [Hl Hc Hi Hr]. split; cbn; [by rewrite length_map|done| |done]. intros i a Ha.
    change ((apic_enable <$> local_apics s0) !! i = Some a) in Ha. rewrite list_lookup_fmap in Ha.
    destruct (local_apics s0 !! i) as [a0|] eqn:E0; [|done]. injection Ha as <-. by apply (Hi i a0). }
  assert (Hen : all_enabled s1) by (intros a Ha; change (a ∈ apic_enable <$> local_apics s0) in Ha; by apply list_elem_of_fmap in Ha as (a0 & -> & _)).
  destruct (configure_timers (seqZ 0 (core_count (k_topology k))) s1) as (s2 & Hrun & Hwf2 & Ht2 & Htick); [done|done| |].
  { apply Forall_forall. intros c Hc%elem_of_seqZ. cbn. lia. }
  exists s2. split_and!; [|done|done|].
  - unfold configure_stage7_services, value. munfold_goal. rewrite (on_apic_run _ _ s0) by done. cbn [fst snd].
    change (snd (enable_local_apics s0)) with (@Ok unit tt). cbv beta iota. cbn [k_apic set_k_apic].
    rewrite (for_each_apic _ _ _ s1) by done. change (core_count (apic_topology (fst (enable_local_apics s0)))) with (core_count (k_topology k)).
    change KERNEL_STAGE7_DEFAULT_TIMER_INTERVAL_TICKS with 1. by rewrite Hrun.
  - intros c Hc. apply Htick; [lia|]. left. apply elem_of_seqZ. lia.
Qed.
Lemma stage15_run k : exists d,
  configure_stage15_services k = (set_k_file_system (Some root_layout) (set_k_store (Some d) k), Ok tt) /\
  layout_ok root_layout /\ fs_repr root_layout d (initial_state root_layout).
Proof.
  destruct root_store_made as (c & d0 & Hg & Hd & Hc & Hok & Hs & Hn). destruct (root_formatted (c, d0) Hok Hs Hn) as (d1 & d2 & Hf & Hm & Hl & Hr).
  exists d2. split_and!; [|done|done]. unfold configure_stage15_services, on_vfs_store, on_optional. munfold_goal.
  rewrite Hg, Hd, Hc. cbn [k_store set_k_store]. rewrite Hf. cbn [k_store set_k_store]. by rewrite Hm.
Qed.

Definition arena_pages (m : Machine B) : Z := Z.min KERNEL_DEFAULT_TABLE_ARENA_PAGE_COUNT (machine_memory_size m / 4096 - 1).
(** The table arena of the kernel's space: the pages after the reserved one. *)
Lemma arena_run k a : bus_ok (k_bus k) -> bus_size (k_bus k) <= 2 ^ 52 -> k_memory_size k <= bus_size (k_bus k) ->
  8192 <= k_memory_size k -> make_allocator (physical_page_count k) 1 = Ok a ->
  let n := Z.min 16 (physical_page_count k - 1) in
  exists a' b T, alloc_wf a' /\ free_page_count a' = physical_page_count k - 1 - n /\ bus_size b = bus_size (k_bus k) /\
    total_page_count a' = physical_page_count k /\ (forall i, PageAlloc.is_free a' i <-> 1 + n <= i < physical_page_count k) /\
    create_address_space KERNEL_DEFAULT_TABLE_ARENA_PAGE_COUNT (set_k_allocator (Some a) k) =
      (set_k_bus b (set_k_allocator (Some a') k), Ok (mkSpace 4096 8192 8192 (4096 + n * 4096))) /\
    represents T (mkSpace 4096 8192 8192 (4096 + n * 4096)) b ∅.
Proof.
  intros Hb H52 Hsz Hmem Ha n. unfold physical_page_count in *. rewrite Page.page_size_bytes in *.
  pose proof (Z.div_mod (k_memory_size k) 4096 ltac:(lia)). pose proof (Z.mod_pos_bound (k_memory_size k) 4096 ltac:(lia)).
  set (total := k_memory_size k / 4096) in *. assert (Hn : n = Z.min 16 (total - 1)) by reflexivity. clearbody n.
  destruct (fresh_run total n a ltac:(lia) ltac:(lia) Ha) as (a' & Hrun & Hwf & Hcount & Htot & Hfree).
  assert (Hc : free_page_count a = total - 1).
  { unfold make_allocator in Ha. destruct (total =? 0); [done|]. destruct (total <? 1); [done|]. injection Ha as <-. cbn.
    by rewrite (proj2 (Z.ltb_lt 1 total)) by lia. }
  destruct (make_space_represents (k_bus k) 4096 8192 (4096 + n * 4096)) as (b & Hs & Hbs & Hrep & _); try done; try lia.
  { replace (4096 + n * 4096) with ((1 + n) * 4096) by lia. by apply Z.mod_mul. }
  exists a', b, {[4096 := (Level.PML4, 0)]}. split; [exact Hwf|]. split; [lia|]. split; [exact Hbs|]. split; [exact Htot|]. split; [exact Hfree|]. split; [|exact Hrep].
  unfold create_address_space, value, on_pages, on_optional, on_bus, zoom. munfold_goal. cbn [k_allocator set_k_allocator].
  rewrite Hc. change KERNEL_DEFAULT_TABLE_ARENA_PAGE_COUNT with 16.
  replace (if 16 <? total - 1 then 16 else total - 1) with n by (destruct (Z.ltb_spec 16 (total - 1)); lia).
  rewrite (proj2 (Z.eqb_neq n 0)) by lia. cbv beta iota. rewrite Hrun. rewrite Page.page_size_bytes.
  unfold mul64. rewrite (wrap64_small (n * 4096)) by (unfold u64; lia). rewrite !add64_small by lia.
  cbn [k_bus set_k_allocator]. change (4096 + 4096) with 8192. by rewrite Hs.
Qed.
(** The kernel after booting: the services, and nothing else. *)
Definition booted_kernel (m : Machine B) (a : PhysicalPageAllocator) (b : B) (s : AddressSpace) (ap : ApicSystem) (d : RootStore) : K :=
  set_k_booted true (set_k_file_system (Some root_layout) (set_k_store (Some d)
    (set_k_smp (Some (Smp.make_scheduler (machine_topology m))) (set_k_apic (Some ap)
      (set_k_kernel_space (Some s) (set_k_bus b (set_k_allocator (Some a) (make_kernel m)))))))).
Lemma boot_run (m : Machine B) : bus_ok (machine_bus m) -> bus_size (machine_bus m) <= 2 ^ 52 ->
  2 * 4096 <= machine_memory_size m <= bus_size (machine_bus m) -> 0 <= core_count (machine_topology m) ->
  exists a b s ap d T, boot (make_kernel m) = (booted_kernel m a b s ap d, Ok tt) /\ alloc_wf a /\
    total_page_count a = machine_memory_size m / 4096 /\ free_page_count a = machine_memory_size m / 4096 - 1 - arena_pages m /\
    (forall i, PageAlloc.is_free a i <-> 1 + arena_pages m <= i < machine_memory_size m / 4096) /\ bus_size b = bus_size (machine_bus m) /\
    represents T s b ∅ /\ (forall c, 0 <= c < core_count (machine_topology m) -> ticking c ap) /\
    layout_ok root_layout /\ fs_repr root_layout d (initial_state root_layout).
Proof.
  intros Hb H52 Hm Hcores. set (k0 := make_kernel m). pose proof (Z.div_mod (machine_memory_size m) 4096 ltac:(lia)).
  pose proof (Z.mod_pos_bound (machine_memory_size m) 4096 ltac:(lia)).
  assert (Hcount : physical_page_count k0 = machine_memory_size m / 4096) by (unfold physical_page_count; by rewrite Page.page_size_bytes).
  destruct (make_allocator (physical_page_count k0) 1) as [a|e] eqn:Ea.
  2: { exfalso. unfold make_allocator in Ea. rewrite Hcount in Ea. rewrite (proj2 (Z.eqb_neq _ _)), (proj2 (Z.ltb_ge _ _)) in Ea by lia. done. }
  destruct (arena_run k0 a) as (a' & b & T & Hwf & Hfree & Hbs & Htot & Hleft & Hspace & Hrep); try done; [apply Hm..|].
  rewrite Hcount in Hfree, Htot, Hleft, Hspace, Hrep. change (Z.min 16 _) with (arena_pages m) in *. set (s := mkSpace 4096 8192 8192 _) in *.
  set (k1 := set_k_kernel_space (Some s) (set_k_bus b (set_k_allocator (Some a') k0))).
  destruct (stage7_run k1 Hcores) as (ap & H7 & Hapwf & Htop & Htick).
  set (k2 := set_k_smp (Some (Smp.make_scheduler (k_topology k1))) (set_k_apic (Some ap) k1)).
  destruct (stage15_run k2) as (d & H15 & Hl & Hfs).
  exists a', b, s, ap, d, T. split; [|by split_and!].
  unfold boot. munfold_goal. change (k_booted k0) with false. cbv beta iota. rewrite (proj2 (Z.ltb_ge _ _))
    by (rewrite Hcount; unfold KERNEL_MIN_BOOTABLE_PAGE_COUNT, KERNEL_RESERVED_LOW_PAGE_COUNT; lia).
  change KERNEL_RESERVED_LOW_PAGE_COUNT with 1. rewrite Ea. rewrite Hspace. fold s k1. rewrite H7. unfold configure_stage9_services.
  munfold_goal. change (set_k_smp _ _) with k2. by rewrite H15.
Qed.
End booted.

(** C7. Booting: on any machine whose memory covers two pages the boot succeeds, whatever the memory
    held and however many cores there are.  It leaves a kernel with every service, no process, the
    page allocator, a kernel address space that maps nothing, every local interrupt controller
    enabled and ticking, and a root file system that is mounted and empty; a second boot is refused,
    and so is a machine with less memory, unchanged. *)
Theorem boot_makes_kernel {B} `{MemoryBusLaws B} (m : Machine B) : bus_ok (machine_bus m) -> bus_size (machine_bus m) <= 2 ^ 52 ->
  0 <= machine_memory_size m <= bus_size (machine_bus m) -> 0 <= core_count (machine_topology m) ->
  if machine_memory_size m <? 2 * 4096 then boot (make_kernel m) = (make_kernel m, Throw runtime_error)
  else exists k, boot (make_kernel m) = (k, Ok tt) /\ boot k = (k, Throw logic_error) /\
    ready k = true /\ has_stage15_services k = true /\ table k = [] /\ k_next_pid k = 1 /\
    (exists a, k_allocator k = Some a /\ alloc_wf a /\ free_page_count a = machine_memory_size m / 4096 - 1 - arena_pages m) /\
    (exists s T, k_kernel_space k = Some s /\ represents T s (k_bus k) ∅) /\
    (exists s, k_apic k = Some s /\ forall c, 0 <= c < core_count (machine_topology m) -> ticking c s) /\
    (exists d l, k_store k = Some d /\ k_file_system k = Some l /\ layout_ok l /\ fs_repr l d (initial_state l)).
Proof.
  intros Hb H52 Hm Hcores. set (k0 := make_kernel m). pose proof (Z.div_mod (machine_memory_size m) 4096 ltac:(lia)).
  pose proof (Z.mod_pos_bound (machine_memory_size m) 4096 ltac:(lia)).
  assert (Hcount : physical_page_count k0 = machine_memory_size m / 4096) by (unfold physical_page_count; by rewrite Page.page_size_bytes).
  destruct (Z.ltb_spec (machine_memory_size m) (2 * 4096)) as [Hlow|Hmem].
  { unfold boot. munfold_goal. change (k_booted k0) with false. cbv beta iota.
    rewrite Hcount, (proj2 (Z.ltb_lt _ _)); [done|]. unfold KERNEL_MIN_BOOTABLE_PAGE_COUNT, KERNEL_RESERVED_LOW_PAGE_COUNT. lia. }
  destruct (boot_run m Hb H52 ltac:(lia) Hcores) as (a & b & s & ap & d & T & Hrun & Hwf & _ & Hfree & _ & _ & Hrep & Htick & Hl & Hfs).
  exists (booted_kernel m a b s ap d). split; [exact Hrun|].
  do 5 (split; [reflexivity|]). split; [by exists a|].
  split; [exists s, T; by split|]. split; [exists ap; by split|]. exists d, root_layout. by split_and!.
Qed.
(** Eight pages of memory and one core. *)
Definition sample_machine : Machine PhysicalMemory :=
  mkPlatform (make_memory 32768) 32768 (mkTopology 1) (mkTerminal (mkDisplay 1 1 0 0 0 []) (mkKeyboard 0 []) []).
Lemma boot_makes_kernel_witness : exists k, boot (make_kernel sample_machine) = (k, Ok tt) /\ table k = [] /\
  exists a, k_allocator k = Some a /\ free_page_count a = 0.
Proof.
  destruct (boot_makes_kernel sample_machine) as (k & Hk & _ & _ & _ & Ht & _ & (a & Ha & _ & Hf) & _).
  - apply zero_memory_ok. lia.
  - vm_compute. congruence.
  - vm_compute. split; congruence.
  - vm_compute. congruence.
  - exists k. split; [exact Hk|]. split; [exact Ht|]. exists a. split; [exact Ha|]. rewrite Hf. reflexivity.
Defined.
