(* ===== verification/UserTrap.v ===== *)
(** * System calls and user traps

    Models src/os/kernel/user_trap.cpp, and the execution of user programs in src/os/kernel/kernel.cpp:
    the dispatch of a system call made by a thread, one handler per number; user memory accessed
    through the paging of the thread; page faults of user code; and the loop that runs a program until
    it exits, blocks, is killed or has used its steps. *)

From S2P Require Import Prelude Logic Common PhysicalMemory MemoryBus Paging PageTable Tlb Mmu Page PageAlloc BlockDevice Instruction CpuState Trap Decoder Executor Thread RoundRobin Futex FsFormat SimpleFs Vfs Console FileDescriptor AddressSpace PageFaultHandler CopyOnWrite UserProgram Elf UserLoader Process Kernel Syscall.

Module TrapResult.
(* [include/mnos/os/kernel/kernel.hpp] [UserTrapResult] *)
Inductive UserTrapResult : Set := HANDLED | NOT_USER_TRAP | KILLED | OUT_OF_MEMORY | COUNT.
End TrapResult.
Abbreviation UserTrapResult := TrapResult.UserTrapResult.
Module MapResult.
(* [include/mnos/os/kernel/kernel.hpp] [UserMapResult] *)
Inductive UserMapResult : Set := MAPPED | INVALID_ADDRESS | ALREADY_MAPPED | OUT_OF_MEMORY | COUNT.
End MapResult.
Abbreviation UserMapResult := MapResult.UserMapResult.
Module RunStatus.
(* [include/mnos/os/kernel/kernel.hpp] [UserProcessRunStatus] *)
Inductive UserProcessRunStatus : Set := EXITED | BLOCKED | KILLED | OUT_OF_MEMORY | MAX_STEPS | COUNT.
End RunStatus.
Abbreviation UserProcessRunStatus := RunStatus.UserProcessRunStatus.
(* [include/mnos/os/kernel/kernel.hpp] [UserProcessRunResult] *)
Record UserProcessRunResult : Set := mkRunResult {
  run_process_id : Z; run_status : UserProcessRunStatus; executed_step_count : Z;
  run_exit_code : Z; run_has_exit_code : bool; run_trace : list ExecutionTraceEntry }.
Definition KERNEL_USER_TRAP_KILLED_EXIT_CODE : Z := -1.

(** ** Conditions and encodings *)

(* [src/os/kernel/user_trap.cpp] [is_pending_user_syscall] *)
Definition is_pending_user_syscall (c : CpuState) : bool :=
  match pending_trap c with
  | Some f => bool_decide (tf_kind f = Trap.SYSCALL) && bool_decide (tf_privilege_level f = Ring.RING3)
  | None => false
  end.
(* [src/os/kernel/user_trap.cpp] [is_pending_user_page_fault] *)
Definition is_pending_user_page_fault (c : CpuState) : bool :=
  match pending_trap c with
  | Some f => (tf_vector f =? page_fault_vector) && bool_decide (tf_privilege_level f = Ring.RING3)
  | None => false
  end.
(* [src/os/kernel/user_trap.cpp] [is_valid_user_page] *)
Definition is_valid_user_page (page : Z) : bool := is_page_aligned page && is_user_range page MM_PAGE_SIZE_BYTES.
(* [src/os/kernel/user_trap.cpp] [is_valid_user_futex_word] *)
Definition is_valid_user_futex_word (address : Z) : bool := is_user_range address 4.
(* [src/os/kernel/user_trap.cpp] [syscall_transfer_size_is_valid] *)
Definition syscall_transfer_size_is_valid (raw_byte_count : Z) : bool := raw_byte_count <=? SYSCALL_IO_MAX_TRANSFER_BYTES.
(* [src/os/kernel/user_trap.cpp] [syscall_path_size_is_valid] *)
Definition syscall_path_size_is_valid (raw_byte_count : Z) : bool :=
  (0 <? raw_byte_count) && (raw_byte_count <=? SYSCALL_PATH_MAX_BYTES).
Definition has_flag (flags flag : Z) : bool := negb (Z.land flags flag =? 0).
(* [src/os/kernel/user_trap.cpp] [syscall_open_flags_are_valid] *)
Definition syscall_open_flags_are_valid (flags : Z) : bool :=
  let has_unknown_flags := negb (Z.land flags (not64 SYSCALL_OPEN_FLAG_VALID_MASK) =? 0) in
  negb has_unknown_flags && (has_flag flags SYSCALL_OPEN_FLAG_READ || has_flag flags SYSCALL_OPEN_FLAG_WRITE).
(* [src/os/kernel/user_trap.cpp] [syscall_open_access_mode] *)
Definition syscall_open_access_mode (flags : Z) : FileAccessMode :=
  let requests_read := has_flag flags SYSCALL_OPEN_FLAG_READ in
  let requests_write := has_flag flags SYSCALL_OPEN_FLAG_WRITE in
  if requests_read && requests_write then Access.READ_WRITE
  else if requests_read then Access.READ_ONLY
  else if requests_write then Access.WRITE_ONLY
  else Access.COUNT.
(* [src/os/kernel/user_trap.cpp] [syscall_open_create_requested] *)
Definition syscall_open_create_requested (flags : Z) : bool := has_flag flags SYSCALL_OPEN_FLAG_CREATE.
(* [src/os/kernel/user_trap.cpp] [syscall_file_kind_value] *)
Definition syscall_file_kind_value (kind : SimpleFsNodeKind) : Z :=
  match kind with
  | Node.FILE => SYSCALL_FILE_KIND_FILE
  | Node.DIRECTORY => SYSCALL_FILE_KIND_DIRECTORY
  | Node.COUNT => 0
  end.
(* [src/os/kernel/user_trap.cpp] [is_valid_user_io_range] *)
Definition is_valid_user_io_range (address byte_count : Z) : bool := (byte_count =? 0) || is_user_range address byte_count.
(* [src/os/kernel/user_trap.cpp] [write_u64_le] *)
Definition write_u64_le (offset value : Z) (bytes : list Z) : list Z := splice offset (le 8 value) bytes.
(* [src/os/kernel/user_trap.cpp] [serialize_stat_record] *)
Definition serialize_stat_record (node : VfsNode) : list Z :=
  let record := replicate (Z.to_nat SYSCALL_STAT_RECORD_SIZE_BYTES) 0 in
  let record := write_u64_le 0 (syscall_file_kind_value (node_kind node)) record in
  let record := write_u64_le 8 (node_size_bytes node) record in
  write_u64_le 16 (node_inode node) record.
(* [src/os/kernel/user_trap.cpp] [serialize_dirent_record] *)
Definition serialize_dirent_record (entry : SimpleFsDirectoryEntry) : list Z :=
  let record := replicate (Z.to_nat SYSCALL_DIRENT_RECORD_SIZE_BYTES) 0 in
  let record := write_u64_le 0 (syscall_file_kind_value (entry_kind entry)) record in
  let record := write_u64_le 8 (entry_inode entry) record in
  let record := write_u64_le 16 (lenZ (entry_name entry)) record in
  splice 24 (entry_name entry) record.

Section user_trap.
Context {B D : Type} `{MemoryBus B} `{FlushStore D}.
Abbreviation KM A := (M (Kernel B D) A).

(** ** User memory *)

(** A call on a memory-management unit of its own, with the paging of the thread. *)
Definition with_user_mmu {A} (t : ThreadRef) (call : PagingState -> M (MemoryManagementUnit * B) A) : KM A :=
  lift (thread_of t) ≫= fun thread =>
  zoom (fun k => (make_mmu, k_bus k)) (fun st k => set_k_bus st.2 k) (call (cpu_paging (thread_cpu_state thread))).
(* [src/os/kernel/user_trap.cpp] [check_user_io_access] *)
Definition check_user_io_access (t : ThreadRef) (address byte_count : Z) (kind : MemoryAccessKind) : KM unit :=
  with_user_mmu t (fun ps => check_access_range ps Ring.RING3 address byte_count kind).
Fixpoint read_each (ps : PagingState) (addresses : list Z) : M (MemoryManagementUnit * B) (list Z) :=
  match addresses with
  | [] => mret []
  | a :: rest =>
      mmu_read ps Ring.RING3 a Size.BYTE ≫= fun byte =>
      read_each ps rest ≫= fun bytes =>
      mret (byte :: bytes)
  end.
Definition user_addresses (address byte_count : Z) : list Z := (fun i => add64 address i) <$> seqZ 0 byte_count.
(* [src/os/kernel/user_trap.cpp] [read_user_bytes] *)
Definition read_user_bytes (t : ThreadRef) (address byte_count : Z) : KM (list Z) :=
  with_user_mmu t (fun ps => read_each ps (user_addresses address byte_count)).
(* [src/os/kernel/user_trap.cpp] [write_user_bytes] *)
Definition write_user_bytes (t : ThreadRef) (address : Z) (bytes : list Z) : KM unit :=
  with_user_mmu t (fun ps => for_each (seqZ 0 (lenZ bytes)) (fun i =>
    mmu_write ps Ring.RING3 (add64 address i) Size.BYTE (nthZ bytes i))).
(* [src/os/kernel/user_trap.cpp] [user_page_is_mapped] *)
Definition user_page_is_mapped (p : ProcessRef) (page : Z) : KM bool :=
  try_catch (on_process_space p (page_translation page AccessKind.READ Ring.RING3) ≫= fun _ => mret true)
    (fun e => match e with page_fault _ => Some (mret false) | _ => None end).

(** ** Results *)

Definition argument (t : ThreadRef) (a : SyscallArgument) : KM Z := on_thread_cpu t (frame_argument a).
(* [src/os/kernel/user_trap.cpp] [finish_syscall_success] *)
Definition finish_syscall_success (t : ThreadRef) (v : Z) : KM unit := on_thread_cpu t (frame_set_result v).
(* [src/os/kernel/user_trap.cpp] [finish_syscall_error] *)
Definition finish_syscall_error (t : ThreadRef) (error : SyscallError) (result : SyscallResult) : KM SyscallResult :=
  on_thread_cpu t (frame_set_error error) ≫= fun _ => mret result.
Definition finish_handled (t : ThreadRef) (v : Z) : KM SyscallResult :=
  finish_syscall_success t v ≫= fun _ => mret SysResult.HANDLED.
(** The errors that several handlers end with. *)
Definition invalid_context (t : ThreadRef) : KM SyscallResult :=
  finish_syscall_error t SysError.OPERATION_NOT_SUPPORTED SysResult.INVALID_CONTEXT.
Definition bad_address (t : ThreadRef) : KM SyscallResult := finish_syscall_error t SysError.BAD_ADDRESS SysResult.BAD_ADDRESS.
Definition bad_argument (t : ThreadRef) : KM SyscallResult :=
  finish_syscall_error t SysError.INVALID_ARGUMENT SysResult.INVALID_ARGUMENT.
Definition no_memory (t : ThreadRef) : KM SyscallResult := finish_syscall_error t SysError.NO_MEMORY SysResult.OUT_OF_MEMORY.
(* [src/os/kernel/user_trap.cpp] [finish_io_status_error] *)
Definition finish_io_status_error (t : ThreadRef) (status : Io.IoStatus) : KM SyscallResult :=
  match status with
  | Io.BAD_DESCRIPTOR => finish_syscall_error t SysError.BAD_FILE_DESCRIPTOR SysResult.BAD_DESCRIPTOR
  | Io.BAD_ADDRESS => bad_address t
  | Io.INVALID_ARGUMENT => bad_argument t
  | Io.NO_SPACE => finish_syscall_error t SysError.NO_SPACE SysResult.NO_SPACE
  | Io.READY | Io.BLOCKED | Io.COUNT => bad_argument t
  end.
(** What a failure of user memory becomes: the handlers' [catch] clauses for [bad_alloc],
    [PageFault] and [out_of_range]. *)
Definition user_memory_failure (t : ThreadRef) (e : exn) : option (KM SyscallResult) :=
  match e with
  | bad_alloc => Some (no_memory t)
  | page_fault _ | out_of_range => Some (bad_address t)
  | _ => None
  end.

(** ** Paths and buffers of the caller *)

(** The path is the output parameter, present when the result is [HANDLED]. *)
(* [src/os/kernel/user_trap.cpp] [read_syscall_path] *)
Definition read_syscall_path (t : ThreadRef) (address byte_count : Z) : KM (SyscallResult * list Z) :=
  let failed (c : KM SyscallResult) : KM (SyscallResult * list Z) := c ≫= fun r => mret (r, []) in
  if negb (is_valid_user_io_range address byte_count) then failed (bad_address t)
  else
    try_catch
      (check_user_io_access t address byte_count AccessKind.READ ≫= fun _ =>
       read_user_bytes t address byte_count ≫= fun bytes =>
       let bytes := if bool_decide (last bytes = Some 0) then removelast bytes else bytes in
       if bool_decide (bytes = []) || bool_decide (0 ∈ bytes) then failed (bad_argument t)
       else mret (SysResult.HANDLED, bytes))
      (fun e => failed <$> user_memory_failure t e).
(* [src/os/kernel/user_trap.cpp] [read_syscall_path_argument] *)
Definition read_syscall_path_argument (t : ThreadRef) (address_argument size_argument : SyscallArgument) : KM (SyscallResult * list Z) :=
  argument t size_argument ≫= fun raw_path_size =>
  if negb (syscall_path_size_is_valid raw_path_size) then bad_argument t ≫= fun r => mret (r, [])
  else argument t address_argument ≫= fun address => read_syscall_path t address raw_path_size.
(* [src/os/kernel/user_trap.cpp] [check_user_output_buffer] *)
Definition check_user_output_buffer (t : ThreadRef) (address byte_count : Z) : KM SyscallResult :=
  if byte_count =? 0 then mret SysResult.HANDLED
  else if negb (is_valid_user_io_range address byte_count) then bad_address t
  else
    try_catch (check_user_io_access t address byte_count AccessKind.WRITE ≫= fun _ => mret SysResult.HANDLED)
      (fun e => match e with page_fault _ | out_of_range => Some (bad_address t) | _ => None end).

(** ** Handlers *)

(* [src/os/kernel/user_trap.cpp] [Kernel::dispatch_getpid] *)
Definition dispatch_getpid (p : option ProcessRef) (t : ThreadRef) : KM SyscallResult :=
  match p with
  | None => invalid_context t
  | Some p => lift (process_of p) ≫= fun process => finish_handled t (pr_id process)
  end.
(** The page goes back to the allocator when it cannot be mapped. *)
(* [src/os/kernel/user_trap.cpp] [Kernel::map_user_zero_page] *)
Definition map_user_zero_page (p : ProcessRef) (t : ThreadRef) (page : Z) : KM UserMapResult :=
  require_stage9_services ≫= fun _ =>
  if negb (is_valid_user_page page) then mret MapResult.INVALID_ADDRESS
  else
    user_page_is_mapped p page ≫= fun mapped =>
    if mapped : bool then mret MapResult.ALREADY_MAPPED
    else
      try_catch (on_pages allocate_page ≫= fun a => mret (Some a))
        (fun e => match e with bad_alloc => Some (mret None) | _ => None end) ≫= fun physical_page =>
      match physical_page with
      | None => mret MapResult.OUT_OF_MEMORY
      | Some a =>
          try_catch
            (on_bus (zero_physical_page a) ≫= fun _ =>
             on_process_space p (map_page page a user_read_write_no_execute) ≫= fun _ =>
             lift (process_of p) ≫= fun process =>
             lift (fun _ => process_context_id_for (pr_id process)) ≫= fun context_id =>
             on_thread_cpu t (activate_context (pr_space process) context_id FlushMode.FLUSH_CURRENT_CONTEXT) ≫= fun _ =>
             mret MapResult.MAPPED)
            (fun e => match e with
             | bad_alloc | out_of_range => Some (on_pages (free_page a) ≫= fun _ => mret MapResult.OUT_OF_MEMORY)
             | _ => None
             end)
      end.
(* [src/os/kernel/user_trap.cpp] [Kernel::dispatch_map_anon_page] *)
Definition dispatch_map_anon_page (p : option ProcessRef) (t : ThreadRef) : KM SyscallResult :=
  match p with
  | None => invalid_context t
  | Some p =>
      argument t SysArg.ARG0 ≫= fun page =>
      map_user_zero_page p t page ≫= fun result =>
      match result with
      | MapResult.MAPPED => finish_handled t SYSCALL_SUCCESS_RESULT
      | MapResult.INVALID_ADDRESS => bad_address t
      | MapResult.ALREADY_MAPPED => finish_syscall_error t SysError.ALREADY_EXISTS SysResult.INVALID_ARGUMENT
      | MapResult.OUT_OF_MEMORY => no_memory t
      | MapResult.COUNT => bad_argument t
      end
  end.
(** The loop that collects the pages: the pages, or the result of the call when one is refused. *)
(* [src/os/kernel/user_trap.cpp] [Kernel::dispatch_fork_cow] [711-727] *)
Fixpoint collect_cow_pages (p : ProcessRef) (t : ThreadRef) (pages : list Z) : KM (option SyscallResult) :=
  match pages with
  | [] => mret None
  | page :: rest =>
      if negb (is_valid_user_page page) then bad_address t ≫= fun r => mret (Some r)
      else
        on_process_space p (page_translation page AccessKind.READ Ring.RING3) ≫= fun translation =>
        if negb (Paging.page_size_bytes translation =? PAGE_SIZE_4K_BYTES) then bad_argument t ≫= fun r => mret (Some r)
        else collect_cow_pages p t rest
  end.
(* [src/os/kernel/user_trap.cpp] [Kernel::dispatch_fork_cow] *)
Definition dispatch_fork_cow (p : option ProcessRef) (t : ThreadRef) : KM SyscallResult :=
  match p with
  | None => invalid_context t
  | Some p =>
      argument t SysArg.ARG0 ≫= fun first_page =>
      argument t SysArg.ARG1 ≫= fun page_count =>
      if (page_count =? 0) || (SYSCALL_FORK_MAX_COW_PAGE_COUNT <? page_count) || negb (is_valid_user_page first_page)
      then bad_argument t
      else if sub64 (W64 - 1) first_page / MM_PAGE_SIZE_BYTES <? page_count then bad_address t
      else
        let cow_pages := (fun i => add64 first_page (mul64 i MM_PAGE_SIZE_BYTES)) <$> seqZ 0 page_count in
        try_catch
          (collect_cow_pages p t cow_pages ≫= fun refused =>
           match refused with
           | Some r => mret r
           | None =>
               fork_process_cow p cow_pages ≫= fun child =>
               lift (process_of child) ≫= fun child_process =>
               finish_handled t (pr_id child_process)
           end)
          (fun e => match e with
           | bad_alloc => Some (no_memory t)
           | page_fault _ | out_of_range => Some (bad_address t)
           | invalid_argument | logic_error | length_error => Some (bad_argument t)
           | _ => None
           end)
  end.
Definition is_bad_futex_address (address : Z) : bool :=
  negb (is_valid_user_futex_word address) || negb (address `mod` FUTEX_WORD_ALIGNMENT_BYTES =? 0).
(** The word, or nothing when the page is not mapped for reading. *)
(* [src/os/kernel/user_trap.cpp] [Kernel::dispatch_futex_wait] [771-785] *)
Definition read_futex_word (p : ProcessRef) (address : Z) : KM (option Z) :=
  try_catch
    (on_process_space p (page_translation address AccessKind.READ Ring.RING3) ≫= fun translation =>
     lift (fun k => bus_read (k_bus k) (translation_translate translation address) Size.DWORD) ≫= fun word =>
     mret (Some (Z.land word SYSCALL_FUTEX_WORD_MASK)))
    (fun e => match e with page_fault _ => Some (mret None) | _ => None end).
(* [src/os/kernel/user_trap.cpp] [Kernel::dispatch_futex_wait] *)
Definition dispatch_futex_wait (p : option ProcessRef) (t : ThreadRef) : KM SyscallResult :=
  match p with
  | None => invalid_context t
  | Some p =>
      argument t SysArg.ARG0 ≫= fun address =>
      if is_bad_futex_address address then bad_address t
      else
        read_futex_word p address ≫= fun current_word =>
        match current_word with
        | None => bad_address t
        | Some current =>
            argument t SysArg.ARG1 ≫= fun expected =>
            if negb (current =? Z.land expected SYSCALL_FUTEX_WORD_MASK)
            then finish_syscall_error t SysError.AGAIN SysResult.HANDLED
            else
              wait_on_futex p address t ≫= fun _ =>
              finish_syscall_success t SYSCALL_SUCCESS_RESULT ≫= fun _ =>
              mret SysResult.BLOCKED
        end
  end.
(* [src/os/kernel/user_trap.cpp] [Kernel::dispatch_futex_wake_one] *)
Definition dispatch_futex_wake_one (p : option ProcessRef) (t : ThreadRef) : KM SyscallResult :=
  match p with
  | None => invalid_context t
  | Some p =>
      argument t SysArg.ARG0 ≫= fun address =>
      if is_bad_futex_address address then bad_address t
      else wake_one_futex p address ≫= fun thread => finish_handled t (if present thread then 1 else 0)
  end.
(* [src/os/kernel/user_trap.cpp] [Kernel::dispatch_futex_wake_all] *)
Definition dispatch_futex_wake_all (p : option ProcessRef) (t : ThreadRef) : KM SyscallResult :=
  match p with
  | None => invalid_context t
  | Some p =>
      argument t SysArg.ARG0 ≫= fun address =>
      if is_bad_futex_address address then bad_address t
      else wake_all_futex p address ≫= fun threads => finish_handled t (lenZ threads)
  end.
(* [src/os/kernel/user_trap.cpp] [Kernel::dispatch_read] *)
Definition dispatch_read (p : option ProcessRef) (t : ThreadRef) : KM SyscallResult :=
  match p with
  | None => invalid_context t
  | Some p =>
      argument t SysArg.ARG0 ≫= fun raw_descriptor =>
      let descriptor := file_descriptor_from_raw raw_descriptor in
      lift (process_of p) ≫= fun process =>
      gets k_open_files ≫= fun files =>
      if negb (FileDescriptor.readable files descriptor (pr_files process)) then finish_io_status_error t Io.BAD_DESCRIPTOR
      else
        argument t SysArg.ARG2 ≫= fun byte_count =>
        if negb (syscall_transfer_size_is_valid byte_count) then bad_argument t
        else if byte_count =? 0 then finish_handled t SYSCALL_SUCCESS_RESULT
        else
          argument t SysArg.ARG1 ≫= fun buffer =>
          if negb (is_valid_user_io_range buffer byte_count) then finish_io_status_error t Io.BAD_ADDRESS
          else
            try_catch
              (check_user_io_access t buffer byte_count AccessKind.WRITE ≫= fun _ =>
               read_fd p t descriptor byte_count ≫= fun '(bytes, result) =>
               match Io.status result with
               | Io.BLOCKED =>
                   finish_syscall_success t SYSCALL_SUCCESS_RESULT ≫= fun _ => mret SysResult.BLOCKED
               | Io.READY =>
                   write_user_bytes t buffer bytes ≫= fun _ => finish_handled t (Io.byte_count result)
               | status => finish_io_status_error t status
               end)
              (user_memory_failure t)
  end.
(* [src/os/kernel/user_trap.cpp] [Kernel::dispatch_write] *)
Definition dispatch_write (p : option ProcessRef) (t : ThreadRef) : KM SyscallResult :=
  match p with
  | None => invalid_context t
  | Some p =>
      argument t SysArg.ARG0 ≫= fun raw_descriptor =>
      let descriptor := file_descriptor_from_raw raw_descriptor in
      lift (process_of p) ≫= fun process =>
      gets k_open_files ≫= fun files =>
      if negb (FileDescriptor.writable files descriptor (pr_files process)) then finish_io_status_error t Io.BAD_DESCRIPTOR
      else
        argument t SysArg.ARG2 ≫= fun byte_count =>
        if negb (syscall_transfer_size_is_valid byte_count) then bad_argument t
        else if byte_count =? 0 then finish_handled t SYSCALL_SUCCESS_RESULT
        else
          argument t SysArg.ARG1 ≫= fun buffer =>
          if negb (is_valid_user_io_range buffer byte_count) then finish_io_status_error t Io.BAD_ADDRESS
          else
            try_catch
              (check_user_io_access t buffer byte_count AccessKind.READ ≫= fun _ =>
               read_user_bytes t buffer byte_count ≫= fun bytes =>
               write_fd p descriptor bytes ≫= fun result =>
               match Io.status result with
               | Io.READY => finish_handled t (Io.byte_count result)
               | status => finish_io_status_error t status
               end)
              (user_memory_failure t)
  end.
(* [src/os/kernel/user_trap.cpp] [Kernel::dispatch_open] *)
Definition dispatch_open (p : option ProcessRef) (t : ThreadRef) : KM SyscallResult :=
  match p with
  | None => invalid_context t
  | Some p =>
      argument t SysArg.ARG2 ≫= fun flags =>
      if negb (syscall_open_flags_are_valid flags) then bad_argument t
      else
        read_syscall_path_argument t SysArg.ARG0 SysArg.ARG1 ≫= fun '(path_result, path) =>
        if negb (bool_decide (path_result = SysResult.HANDLED)) then mret path_result
        else
          try_catch
            (require_stage15_services ≫= fun _ =>
             on_vfs (fun fs => @Vfs.lookup D fs path) ≫= fun node =>
             if match node with Some n => is_directory n | None => false end
             then finish_syscall_error t SysError.IS_DIRECTORY SysResult.INVALID_ARGUMENT
             else
               open_file p path (syscall_open_access_mode flags) (syscall_open_create_requested flags) ≫= fun descriptor =>
               finish_handled t (wrap64 descriptor))
            (fun e => match e with
             | bad_alloc => Some (no_memory t)
             | length_error => Some (finish_syscall_error t SysError.NO_SPACE SysResult.NO_SPACE)
             | out_of_range => Some (finish_syscall_error t SysError.NO_ENTRY SysResult.NOT_FOUND)
             | invalid_argument => Some (bad_argument t)
             | _ => None
             end)
  end.
(* [src/os/kernel/user_trap.cpp] [Kernel::dispatch_close] *)
Definition dispatch_close (p : option ProcessRef) (t : ThreadRef) : KM SyscallResult :=
  match p with
  | None => invalid_context t
  | Some p =>
      argument t SysArg.ARG0 ≫= fun raw_descriptor =>
      close_fd p (file_descriptor_from_raw raw_descriptor) ≫= fun closed =>
      if negb closed then finish_syscall_error t SysError.BAD_FILE_DESCRIPTOR SysResult.BAD_DESCRIPTOR
      else finish_handled t SYSCALL_SUCCESS_RESULT
  end.
Definition stat_failure (t : ThreadRef) (e : exn) : option (KM SyscallResult) :=
  match e with invalid_argument => Some (bad_argument t) | _ => user_memory_failure t e end.
(* [src/os/kernel/user_trap.cpp] [Kernel::dispatch_stat] *)
Definition dispatch_stat (p : option ProcessRef) (t : ThreadRef) : KM SyscallResult :=
  match p with
  | None => invalid_context t
  | Some _ =>
      read_syscall_path_argument t SysArg.ARG0 SysArg.ARG1 ≫= fun '(path_result, path) =>
      if negb (bool_decide (path_result = SysResult.HANDLED)) then mret path_result
      else
        argument t SysArg.ARG2 ≫= fun out =>
        check_user_output_buffer t out SYSCALL_STAT_RECORD_SIZE_BYTES ≫= fun output_result =>
        if negb (bool_decide (output_result = SysResult.HANDLED)) then mret output_result
        else
          try_catch
            (require_stage15_services ≫= fun _ =>
             on_vfs (fun fs => @Vfs.lookup D fs path) ≫= fun node =>
             match node with
             | None => finish_syscall_error t SysError.NO_ENTRY SysResult.NOT_FOUND
             | Some n =>
                 write_user_bytes t out (serialize_stat_record n) ≫= fun _ =>
                 finish_handled t SYSCALL_SUCCESS_RESULT
             end)
            (stat_failure t)
  end.
(* [src/os/kernel/user_trap.cpp] [Kernel::dispatch_readdir] *)
Definition dispatch_readdir (p : option ProcessRef) (t : ThreadRef) : KM SyscallResult :=
  match p with
  | None => invalid_context t
  | Some _ =>
      argument t SysArg.ARG3 ≫= fun output_size =>
      if negb (syscall_transfer_size_is_valid output_size) then bad_argument t
      else
        read_syscall_path_argument t SysArg.ARG0 SysArg.ARG1 ≫= fun '(path_result, path) =>
        if negb (bool_decide (path_result = SysResult.HANDLED)) then mret path_result
        else
          argument t SysArg.ARG2 ≫= fun out =>
          try_catch
            (require_stage15_services ≫= fun _ =>
             on_vfs (fun fs => @Vfs.lookup D fs path) ≫= fun node =>
             match node with
             | None => finish_syscall_error t SysError.NO_ENTRY SysResult.NOT_FOUND
             | Some n =>
                 if negb (is_directory n) then finish_syscall_error t SysError.NOT_DIRECTORY SysResult.INVALID_ARGUMENT
                 else
                   on_vfs (fun fs => @Vfs.read_directory D fs path) ≫= fun entries =>
                   let capacity := output_size / SYSCALL_DIRENT_RECORD_SIZE_BYTES in
                   let record_count := Z.min capacity (lenZ entries) in
                   let byte_count := record_count * SYSCALL_DIRENT_RECORD_SIZE_BYTES in
                   check_user_output_buffer t out byte_count ≫= fun output_result =>
                   if negb (bool_decide (output_result = SysResult.HANDLED)) then mret output_result
                   else
                     let output := concat (serialize_dirent_record <$> take (Z.to_nat record_count) entries) in
                     write_user_bytes t out output ≫= fun _ =>
                     finish_handled t byte_count
             end)
            (stat_failure t)
  end.
(* [src/os/kernel/user_trap.cpp] [Kernel::dispatch_wait] *)
Definition dispatch_wait (p : option ProcessRef) (t : ThreadRef) : KM SyscallResult :=
  match p with
  | None => invalid_context t
  | Some p =>
      argument t SysArg.ARG0 ≫= fun child_id =>
      if negb (process_id_is_valid child_id) then bad_argument t
      else
        wait_process p t child_id ≫= fun result =>
        match wait_status result with
        | WaitStatus.EXITED => finish_handled t (wrap64 (wait_exit_code result))
        | WaitStatus.BLOCKED => finish_syscall_success t SYSCALL_SUCCESS_RESULT ≫= fun _ => mret SysResult.BLOCKED
        | WaitStatus.NO_CHILD => finish_syscall_error t SysError.NO_ENTRY SysResult.NOT_FOUND
        | WaitStatus.COUNT => bad_argument t
        end
  end.
(** A 64-bit word read as a signed one. *)
Definition to_int64 (v : Z) : Z := if v <? 2 ^ 63 then v else v - W64.
(* [src/os/kernel/user_trap.cpp] [Kernel::dispatch_syscall_for_process] [601-615] *)
Definition dispatch_exit (p : option ProcessRef) (t : ThreadRef) : KM SyscallResult :=
  finish_syscall_success t SYSCALL_SUCCESS_RESULT ≫= fun _ =>
  match p with
  | Some p => argument t SysArg.ARG0 ≫= fun code => exit_process p (to_int64 code)
  | None =>
      gets (is_current t) ≫= fun current =>
      if current : bool then on_scheduler RoundRobin.exit_current ≫= fun _ => mret tt
      else modify (fun k => set_k_threads (store_state t TState.DEAD (k_threads k)) k)
  end ≫= fun _ =>
  mret SysResult.HANDLED.
(** Both overloads of [dispatch_syscall]: with and without a process. *)
(* [src/os/kernel/user_trap.cpp] [Kernel::dispatch_syscall_for_process] *)
Definition dispatch_syscall (p : option ProcessRef) (t : ThreadRef) : KM SyscallResult :=
  require_stage9_services ≫= fun _ =>
  on_thread_cpu t frame_number ≫= fun number =>
  match number with
  | Sys.YIELD =>
      gets (is_current t) ≫= fun current =>
      (if current : bool then on_scheduler RoundRobin.yield_current ≫= fun _ => mret tt else mret tt) ≫= fun _ =>
      finish_handled t SYSCALL_SUCCESS_RESULT
  | Sys.EXIT => dispatch_exit p t
  | Sys.GETPID => dispatch_getpid p t
  | Sys.MAP_ANON_PAGE => dispatch_map_anon_page p t
  | Sys.FORK_COW => dispatch_fork_cow p t
  | Sys.FUTEX_WAIT => dispatch_futex_wait p t
  | Sys.FUTEX_WAKE_ONE => dispatch_futex_wake_one p t
  | Sys.FUTEX_WAKE_ALL => dispatch_futex_wake_all p t
  | Sys.READ => dispatch_read p t
  | Sys.WRITE => dispatch_write p t
  | Sys.OPEN => dispatch_open p t
  | Sys.CLOSE => dispatch_close p t
  | Sys.STAT => dispatch_stat p t
  | Sys.READDIR => dispatch_readdir p t
  | Sys.WAIT => dispatch_wait p t
  | Sys.COUNT => finish_syscall_error t SysError.NO_SYS SysResult.UNSUPPORTED
  end.

(** ** Traps *)

Section traps.
Context (tc : TrapController).
(* [src/os/kernel/user_trap.cpp] [Kernel::handle_user_syscall] *)
Definition handle_user_syscall (p : ProcessRef) (t : ThreadRef) : KM SyscallResult :=
  require_stage9_services ≫= fun _ =>
  lift (thread_of t) ≫= fun thread =>
  if negb (is_pending_user_syscall (thread_cpu_state thread)) then mret SysResult.INVALID_CONTEXT
  else
    on_thread t snapshot_pending_trap_frame ≫= fun _ =>
    dispatch_syscall (Some p) t ≫= fun result =>
    lift (thread_of t) ≫= fun thread =>
    if negb (is_alive thread) then on_thread_cpu t (modify clear_pending_trap) ≫= fun _ => mret result
    else
      (if has_pending_trap (thread_cpu_state thread) then on_thread_cpu t (return_from_syscall) else mret tt) ≫= fun _ =>
      mret result.
(* [src/os/kernel/user_trap.cpp] [Kernel::kill_user_trap_thread] *)
Definition kill_user_trap_thread (p : ProcessRef) (t : ThreadRef) : KM UserTrapResult :=
  lift (thread_of t) ≫= fun thread =>
  (if has_pending_trap (thread_cpu_state thread) then on_thread_cpu t (modify clear_pending_trap) else mret tt) ≫= fun _ =>
  exit_process p KERNEL_USER_TRAP_KILLED_EXIT_CODE ≫= fun _ =>
  mret TrapResult.KILLED.
(* [src/os/kernel/user_trap.cpp] [Kernel::handle_user_page_fault] *)
Definition handle_user_page_fault (p : ProcessRef) (t : ThreadRef) : KM UserTrapResult :=
  require_stage9_services ≫= fun _ =>
  lift (thread_of t) ≫= fun thread =>
  if negb (is_pending_user_page_fault (thread_cpu_state thread)) then mret TrapResult.NOT_USER_TRAP
  else
    on_thread t snapshot_pending_trap_frame ≫= fun _ =>
    lift (fun _ => get_pending_trap (thread_cpu_state thread)) ≫= fun frame =>
    let fault_address := page_fault_linear_address (cpu_paging (thread_cpu_state thread)) in
    if negb (is_user_address fault_address) then kill_user_trap_thread p t
    else
      handle_cow_write_fault p t ≫= fun cow_result =>
      match cow_result with
      | Cow.COPIED | Cow.RESTORED =>
          on_thread_cpu t (restore_trap_frame frame) ≫= fun _ => mret TrapResult.HANDLED
      | Cow.OUT_OF_MEMORY => mret TrapResult.OUT_OF_MEMORY
      | _ =>
          handle_page_fault (Some p) t ≫= fun result =>
          match result with
          | Fault.HANDLED =>
              lift (process_of p) ≫= fun process =>
              lift (fun _ => process_context_id_for (pr_id process)) ≫= fun context_id =>
              on_thread_cpu t (activate_context (pr_space process) context_id FlushMode.FLUSH_CURRENT_CONTEXT) ≫= fun _ =>
              on_thread_cpu t (restore_trap_frame frame) ≫= fun _ =>
              mret TrapResult.HANDLED
          | Fault.OUT_OF_MEMORY => mret TrapResult.OUT_OF_MEMORY
          | Fault.PROTECTION_FAULT => kill_user_trap_thread p t
          | _ => mret TrapResult.NOT_USER_TRAP
          end
      end.
End traps.

(** ** Running programs *)

Definition KERNEL_USER_SYSCALL_ENTRY_RIP : Z := 0xFFFF800000001000.
Definition KERNEL_USER_PAGE_FAULT_ENTRY_RIP : Z := 0xFFFF800000002000.
Definition KERNEL_USER_SYSCALL_STACK_TOP : Z := 0xFFFF800000010000.
Definition SYSCALL_DEFAULT_RFLAGS_MASK : Z := Z.shiftl 1 9.
(* [src/os/kernel/kernel.cpp] [make_user_trap_controller] *)
Definition make_user_trap_controller : res TrapController :=
  gate ← interrupt_gate KERNEL_USER_PAGE_FAULT_ENTRY_RIP Ring.RING0;
  let controller := configure_syscall (make_syscall_descriptor KERNEL_USER_SYSCALL_ENTRY_RIP SYSCALL_DEFAULT_RFLAGS_MASK) make_trap_controller in
  let controller := load_idt (set_gate page_fault_vector gate (idt controller)) controller in
  match set_privilege_stack Ring.RING0 KERNEL_USER_SYSCALL_STACK_TOP (tss controller) with
  | (stacks, Ok _) => Ok (load_task_state_segment stacks controller)
  | (_, Throw e) => Throw e
  end.
(** One step of the executor on the processor of the thread and the bus of the machine. *)
Definition step_thread (t : ThreadRef) (image : ExecutableImage) (e : Executor) (trace : list ExecutionTraceEntry) :
    KM (Executor * list ExecutionTraceEntry) := fun k =>
  match k_threads k !! t with
  | None => (k, Throw logic_error)
  | Some thread =>
      let '(m, r) := step_image_with_memory image (mkMachine (thread_cpu_state thread) e (Some (k_bus k)) (Some trace)) in
      (set_k_bus (default (k_bus k) (memory_bus m)) (set_k_threads (<[t := set_thread_cpu (cpu m) thread]> (k_threads k)) k),
       match r with Ok _ => Ok (executor m, default trace (Executor.trace m)) | Throw x => Throw x end)
  end.
(** The part of an iteration after the step: a status when the loop is left. *)
(* [src/os/kernel/kernel.cpp] [Kernel::exec_user_program #2] [716-760] *)
Definition serve_pending_trap (tc : TrapController) (p : ProcessRef) (t : ThreadRef) : KM (option UserProcessRunStatus) :=
  lift (thread_of t) ≫= fun thread =>
  match pending_trap (thread_cpu_state thread) with
  | None => mret None
  | Some f =>
      if bool_decide (tf_kind f = Trap.SYSCALL) then
        handle_user_syscall p t ≫= fun result =>
        mret (if bool_decide (result = SysResult.BLOCKED) then Some RunStatus.BLOCKED else None)
      else if tf_vector f =? page_fault_vector then
        handle_user_page_fault p t ≫= fun result =>
        mret (match result with
              | TrapResult.OUT_OF_MEMORY => Some RunStatus.OUT_OF_MEMORY
              | TrapResult.KILLED => Some RunStatus.KILLED
              | _ => None
              end)
      else mret None
  end.
(** The condition [executed_step_count < max_steps] bounds the iterations, which are the fuel. *)
(* [src/os/kernel/kernel.cpp] [Kernel::exec_user_program #2] [711-766] *)
Fixpoint exec_loop (tc : TrapController) (p : ProcessRef) (t : ThreadRef) (image : ExecutableImage)
    (remaining : nat) (executed : Z) (e : Executor) (trace : list ExecutionTraceEntry) :
    KM (option UserProcessRunStatus * Z * list ExecutionTraceEntry) :=
  lift (thread_of t) ≫= fun thread =>
  match remaining with
  | O => mret (None, executed, trace)
  | S remaining' =>
      if negb (is_alive thread) then mret (None, executed, trace)
      else
        step_thread t image e trace ≫= fun '(e, trace) =>
        let executed := executed + 1 in
        serve_pending_trap tc p t ≫= fun stopped =>
        match stopped with
        | Some status => mret (Some status, executed, trace)
        | None =>
            lift (thread_of t) ≫= fun thread =>
            lift (process_of p) ≫= fun process =>
            (if is_halted (thread_cpu_state thread) && is_running process then exit_process p 0 else mret tt) ≫= fun _ =>
            exec_loop tc p t image remaining' executed e trace
        end
  end.
(* [src/os/kernel/kernel.cpp] [Kernel::exec_user_program #2] *)
Definition exec_user_program (parent_id : Z) (program : UserProgram) (image : ExecutableImage) (a : UserProgramArguments)
    (max_steps : nat) : KM UserProcessRunResult :=
  require_stage9_services ≫= fun _ =>
  throw_if (bool_decide (image_bytes image = [])) invalid_argument ≫= fun _ =>
  throw_if (negb (image_contains_rip image (entry_point program))) invalid_argument ≫= fun _ =>
  create_user_process_with_parent program parent_id a ≫= fun p =>
  lift (fun k => process ← process_of p k; thread_at 0 process) ≫= fun t =>
  lift (fun _ => make_user_trap_controller) ≫= fun tc =>
  exec_loop tc p t image max_steps 0 (attach_trap_controller tc make_executor) [] ≫= fun '(stopped, executed, trace) =>
  modify (set_k_last_trace (Some trace)) ≫= fun _ =>
  lift (process_of p) ≫= fun process =>
  mret (match stopped with
        | Some RunStatus.KILLED => mkRunResult (pr_id process) RunStatus.KILLED executed (pr_exit_code process) true trace
        | Some status => mkRunResult (pr_id process) status executed 0 false trace
        | None =>
            if is_exited process || is_reaped process
            then mkRunResult (pr_id process) RunStatus.EXITED executed (pr_exit_code process) true trace
            else mkRunResult (pr_id process) RunStatus.MAX_STEPS executed 0 false trace
        end).
(* [src/os/kernel/kernel.cpp] [read_all_vfs_file_bytes] *)
Definition read_all_vfs_file_bytes (path : list Z) : KM (list Z) :=
  on_vfs (fun fs => @Vfs.open_file D fs path Mode.READ_ONLY) ≫= fun file =>
  on_vfs (fun fs => @file_size_bytes D fs file) ≫= fun size =>
  on_vfs (fun fs => @Vfs.read D fs file size) ≫= fun '(_, bytes) =>
  throw_if (negb (lenZ bytes =? size)) runtime_error ≫= fun _ =>
  mret bytes.
(** [outside] is what the ELF reader would read outside the file, which it never does. *)
(* [src/os/kernel/kernel.cpp] [Kernel::exec_user_file #2] *)
Definition exec_user_file (outside : list Z -> Z -> Z) (parent_id : Z) (path : list Z) (a : UserProgramArguments) (max_steps : nat) : KM UserProcessRunResult :=
  require_stage15_services ≫= fun _ =>
  read_all_vfs_file_bytes path ≫= fun file_bytes =>
  lift (fun _ => Elf.load outside file_bytes) ≫= fun e =>
  exec_user_program parent_id (loaded_program e) (loaded_image e) a max_steps.
(* [src/os/kernel/kernel.cpp] [make_default_user_file_arguments] *)
Definition make_default_user_file_arguments (path : list Z) : UserProgramArguments := mkArguments [path] [].
End user_trap.
