(* ===== verification/SyscallContract.v ===== *)
(** * What a system call does to the threads

    Theorems on src/os/kernel/user_trap.cpp: a system call writes its result in RAX of the calling
    thread and touches no other register of any thread, whatever its number and however it ends; and
    a call that fails leaves there the negated number of an error. *)

From S2P Require Import Prelude Logic Common PhysicalMemory MemoryBus Paging Tlb Mmu Page PageAlloc BlockDevice BufferCache Instruction CpuState Trap Executor Thread RoundRobin WaitQueue SleepQueue Futex Smp FsFormat SimpleFs Vfs Terminal Console FileDescriptor AddressSpace PageFaultHandler Apic CopyOnWrite UserProgram UserLoader Process Kernel Syscall KernelProcesses UserTrap.

(** ** Queues leave the processors of threads alone *)

Definition cpus (ts : gmap Z ThreadContext) (u : ThreadRef) : option CpuState := thread_cpu_state <$> ts !! u.
Definition same_cpus {Q} (s s' : gmap Z ThreadContext * Q) : Prop := forall u, cpus s'.1 u = cpus s.1 u.
#[export] Instance same_cpus_pre {Q} : PreOrder (same_cpus (Q := Q)).
Proof. split; [by intros s u|]. intros s1 s2 s3 H12 H23 u. by rewrite H23, H12. Qed.
Lemma cpus_store_state p st ts u : cpus (store_state p st ts) u = cpus ts u.
Proof.
  unfold cpus, store_state. destruct (decide (p = u)) as [->|Hne]; [|by rewrite lookup_alter_ne].
  rewrite lookup_alter_eq. by destruct (ts !! u).
Qed.
Create HintDb cpus.
#[export] Hint Extern 0 (PreOrder _) => exact _ : cpus.
#[export] Hint Resolve within_ret within_throw within_throw_if within_lift within_gets : cpus.

Section queues.
Context {Q : Type}.
Abbreviation quiet := (within (same_cpus (Q := Q))).
Lemma quiet_queue f : quiet (on_queue f).
Proof. by apply within_modify; [..|intros s u]. Qed.
Lemma quiet_store p st : quiet (on_threads (store_state p st)).
Proof. apply within_modify. intros s u. apply cpus_store_state. Qed.
Lemma quiet_get : quiet get.
Proof. by intros s u. Qed.
Lemma quiet_zoom {T A} (get : gmap Z ThreadContext * Q -> T) (set : T -> gmap Z ThreadContext * Q -> gmap Z ThreadContext * Q) (c : M T A) :
  (forall t s, (set t s).1 = s.1) -> quiet (zoom get set c).
Proof. intros Hs s u. unfold zoom. destruct (c (get s)) as [t r]. cbn. by rewrite Hs. Qed.
End queues.
#[export] Hint Resolve quiet_queue quiet_store quiet_get : cpus.
Ltac tread :=
  repeat first
    [ solve [eauto with cpus]
    | apply within_bind; [exact _| |intros ?]
    | match goal with |- within _ (match ?x with _ => _ end) => destruct x end
    | match goal with |- within _ (let '(_, _) := ?x in _) => destruct x end ].
Lemma quiet_schedule : within same_cpus RoundRobin.schedule_next.
Proof. unfold RoundRobin.schedule_next, RoundRobin.enqueue_ready. tread. Qed.
#[export] Hint Resolve quiet_schedule : cpus.
Lemma quiet_yield : within same_cpus RoundRobin.yield_current.
Proof. apply quiet_schedule. Qed.
Lemma quiet_leave st : within same_cpus (RoundRobin.leave_current st).
Proof. unfold RoundRobin.leave_current. tread. Qed.
Lemma quiet_wake p : within same_cpus (RoundRobin.wake p).
Proof. unfold RoundRobin.wake, RoundRobin.enqueue_ready. tread. Qed.
Lemma quiet_wait p : within same_cpus (Wait.wait p).
Proof. unfold Wait.wait. tread. Qed.
Lemma quiet_wake_one : within same_cpus Wait.wake_one.
Proof. intros s u. unfold Wait.wake_one. by destruct (take_first _ _). Qed.
#[export] Hint Resolve quiet_yield quiet_leave quiet_wake quiet_wait quiet_wake_one : cpus.
Lemma quiet_wake_loop fuel ready : within same_cpus (Wait.wake_loop fuel ready).
Proof. revert ready. induction fuel as [|fuel IH]; intros ready; cbn [Wait.wake_loop]; tread. Qed.
Lemma quiet_wake_all : within same_cpus Wait.wake_all.
Proof. intros s. apply quiet_wake_loop. Qed.
Lemma quiet_bucket {A} i (c : QueueM WaitQueue A) : within same_cpus c -> within same_cpus (Futex.on_bucket i c).
Proof.
  intros Hc s u. unfold Futex.on_bucket. destruct (buckets s.2 !! i) as [b|]; [|done].
  specialize (Hc (s.1, bucket_queue b) u). by destruct (c _) as [[ts q] r].
Qed.
Lemma quiet_bucket_for key : within same_cpus (Futex.bucket_for key).
Proof. intros s u. unfold Futex.bucket_for. by destruct (Futex.find_bucket _ _). Qed.
#[export] Hint Resolve quiet_wake_all quiet_bucket quiet_bucket_for : cpus.
Lemma quiet_futex_wait key p : within same_cpus (Futex.wait key p).
Proof. unfold Futex.wait. tread. Qed.
Lemma quiet_futex_wake_one key : within same_cpus (Futex.wake_one key).
Proof. unfold Futex.wake_one, Futex.erase_empty_bucket. tread. Qed.
Lemma quiet_futex_wake_all key : within same_cpus (Futex.wake_all key).
Proof. unfold Futex.wake_all, Futex.erase_empty_bucket. tread. Qed.
Lemma quiet_terminal {A} (c : M TerminalDevice A) : within same_cpus (on_terminal c).
Proof. by apply quiet_zoom. Qed.
Lemma quiet_waiters {A} (c : QueueM WaitQueue A) : within same_cpus c -> within same_cpus (on_waiters c).
Proof.
  intros Hc s u. unfold on_waiters, zoom. specialize (Hc (s.1, input_waiters s.2) u). by destruct (c _) as [[ts q] r].
Qed.
#[export] Hint Resolve quiet_futex_wait quiet_futex_wake_one quiet_futex_wake_all quiet_terminal quiet_waiters : cpus.
Lemma quiet_console_write text : within same_cpus (Console.write text).
Proof. unfold Console.write. tread. Qed.
Lemma quiet_copy n : within same_cpus (copy_ready_input n).
Proof. by intros s u. Qed.
#[export] Hint Resolve quiet_console_write quiet_copy : cpus.
Lemma quiet_console_read n p : within same_cpus (Console.read n p).
Proof. unfold Console.read. tread. Qed.
#[export] Hint Resolve quiet_console_read : cpus.

(** ** The kernel writes only the result of the caller *)

(** A processor with the result register, and the paging of the caller, masked. *)
Definition masked (t u : ThreadRef) (c : CpuState) : CpuState :=
  if decide (u = t) then put_reg Reg.RAX 0 (set_paging make_paging_state c) else c.
(** [clobbers t k k']: no thread comes or goes, and of all the processors of threads only RAX and
    the address space of thread [t] may have changed. *)
Definition clobbers {B D} (t : ThreadRef) (k k' : Kernel B D) : Prop :=
  forall u, masked t u <$> cpus (k_threads k') u = masked t u <$> cpus (k_threads k) u.
#[export] Instance clobbers_pre {B D} t : PreOrder (clobbers (B := B) (D := D) t).
Proof. split; [by intros k u|]. intros k1 k2 k3 H12 H23 u. by rewrite H23, H12. Qed.

Section clobbers.
Context {B D : Type} `{MemoryBus B} `{FlushStore D} (t : ThreadRef).
Abbreviation K := (Kernel B D).
Implicit Types k : K.
Abbreviation kept := (within (clobbers (B := B) (D := D) t)).

Lemma kept_optional {T A} (get : K -> option T) set (c : M T A) :
  (forall x k, k_threads (set x k) = k_threads k) -> kept (on_optional get set c).
Proof.
  intros Hs k u. unfold on_optional. destruct (get k) as [x|]; [|done]. destruct (c x) as [x' r]. cbn [fst]. by rewrite Hs.
Qed.
Lemma kept_pages {A} (c : M PhysicalPageAllocator A) : kept (on_pages c).
Proof. by apply kept_optional. Qed.
Lemma kept_store {A} (c : M D A) : kept (on_vfs_store c).
Proof. by apply kept_optional. Qed.
Lemma kept_zoom {T A} (get : K -> T) set (c : M T A) : (forall x k, k_threads (set x k) = k_threads k) -> kept (zoom get set c).
Proof. intros Hs k u. unfold zoom. destruct (c (get k)) as [x r]. cbn [fst]. by rewrite Hs. Qed.
Lemma kept_bus {A} (c : M B A) : kept (on_bus c).
Proof. by apply kept_zoom. Qed.
Lemma kept_modify f : (forall k, k_threads (f k) = k_threads k) -> kept (modify f).
Proof. intros Hf. apply within_modify. intros k u. by rewrite Hf. Qed.
Lemma kept_threads_and {Q A} (get : K -> Q) set (c : QueueM Q A) : (forall x k, k_threads (set x k) = k_threads k) ->
  within same_cpus c -> kept (on_threads_and get set c).
Proof.
  intros Hs Hc k u. unfold on_threads_and, zoom. specialize (Hc (k_threads k, get k) u).
  destruct (c _) as [[ts q] r]. cbn [fst snd] in *. rewrite Hs. cbn. by rewrite Hc.
Qed.
Lemma kept_scheduler {A} (c : QueueM RoundRobinScheduler A) : within same_cpus c -> kept (on_scheduler c).
Proof. by apply kept_threads_and. Qed.
Lemma kept_futexes {A} (c : QueueM FutexTable A) : within same_cpus c -> kept (on_futexes c).
Proof. by apply kept_threads_and. Qed.
Lemma kept_console {A} (c : QueueM Console A) : within same_cpus c -> kept (on_console c).
Proof. by apply kept_threads_and. Qed.
Lemma kept_wait_entry {A} i (c : QueueM WaitQueue A) : within same_cpus c -> kept (on_wait_entry i c).
Proof.
  intros Hc k u. unfold on_wait_entry. destruct (k_wait_entries k !! i) as [e|]; [|done].
  specialize (Hc (k_threads k, entry_queue e) u). destruct (c _) as [[ts q] r]. cbn [fst snd] in *. cbn. by rewrite Hc.
Qed.
Lemma kept_process {A} p (c : M Process A) : kept (on_process p c).
Proof. intros k u. unfold on_process. destruct (k_processes k !! p); [|done]. by destruct (c _). Qed.
Lemma kept_space {A} p (c : M (AddressSpace * B) A) : kept (on_process_space p c).
Proof. intros k u. unfold on_process_space. destruct (k_processes k !! p); [|done]. by destruct (c _) as [[s b] r]. Qed.
Lemma kept_files {A} p (c : M (OpenFiles * FileDescriptorTable) A) : kept (on_process_files p c).
Proof. intros k u. unfold on_process_files. destruct (k_processes k !! p); [|done]. by destruct (c _) as [[s b] r]. Qed.
Lemma kept_sharing {A} p q (c : M (Sharing B) A) : kept (on_sharing p q c).
Proof.
  intros k u. unfold on_sharing. destruct (k_processes k !! p); [|done]. destruct (k_processes k !! q); [|done].
  by destruct (c _) as [s r].
Qed.
(** The processor of the caller itself. *)
Lemma kept_cpu {A} (c : M CpuState A) : (forall s, masked t t (fst (c s)) = masked t t s) -> kept (on_thread_cpu t c).
Proof.
  intros Hc k u. unfold on_thread_cpu, on_thread, zoom, cpus. destruct (k_threads k !! t) as [th|] eqn:E; [|done].
  specialize (Hc (thread_cpu_state th)). destruct (c _) as [s r]. cbn [fst] in *. cbn [k_threads set_k_threads].
  destruct (decide (u = t)) as [->|Hne]; [|by rewrite lookup_insert_ne]. rewrite lookup_insert_eq, E. cbn. by rewrite Hc.
Qed.
End clobbers.
Create HintDb kept.
#[export] Hint Extern 0 (PreOrder _) => exact _ : kept.
#[export] Hint Resolve within_ret within_throw within_throw_if within_lift within_gets kept_pages kept_store kept_bus kept_scheduler
  kept_futexes kept_console kept_wait_entry kept_process kept_space kept_files kept_sharing : kept.
#[export] Hint Extern 2 (within same_cpus _) => solve [eauto with cpus] : kept.
Ltac keep :=
  repeat first
    [ solve [eauto with kept]
    | apply within_bind; [exact _| |intros ?]
    | apply within_try; [exact _| |intros ? ? ?; simplify_option_eq]
    | apply within_each; [exact _|intros ?]
    | match goal with H : match ?e with _ => _ end = Some _ |- _ => destruct e; simplify_option_eq end
    | apply kept_modify; reflexivity
    | match goal with |- within _ (match ?x with _ => _ end) => destruct x end
    | match goal with |- within _ (let '(_, _) := ?x in _) => destruct x end ].

Section members.
Context {B D : Type} `{MemoryBus B} `{FlushStore D} (t : ThreadRef).
Abbreviation kept := (within (clobbers (B := B) (D := D) t)).

Lemma kept_require f : kept (require f).
Proof. intros k u. unfold require, require_booted. munfold_goal. destruct (k_booted k); [|done]. by destruct (f k). Qed.
Lemma kept_value {T} (get : Kernel B D -> option T) : kept (value get).
Proof. apply within_lift. exact _. Qed.
Lemma kept_wake_each ts : kept (wake_each ts).
Proof. unfold wake_each. keep. Qed.
#[local] Hint Resolve kept_require kept_value kept_wake_each : kept.
Lemma kept_address_space n : kept (create_address_space n).
Proof. unfold create_address_space. keep. Qed.
#[local] Hint Resolve kept_address_space : kept.
Lemma kept_create parent : kept (create_process_with_parent parent).
Proof.
  unfold create_process_with_parent, require_stage5_services, take_process_id. keep. by apply kept_zoom.
Qed.
Lemma kept_wait_entry_of p c : kept (process_wait_entry p c).
Proof. intros k u. unfold process_wait_entry. munfold_goal. by destruct (list_find _ _) as [[i e]|]. Qed.
Lemma kept_exit_thread u : kept (exit_thread u).
Proof.
  unfold exit_thread. apply within_bind; [exact _|by intros k|]. intros k. destruct (negb _); [keep|]. destruct (is_current u k).
  - unfold RoundRobin.exit_current. keep.
  - apply within_modify. intros k' v. cbn. by rewrite cpus_store_state.
Qed.
#[local] Hint Resolve kept_create kept_wait_entry_of kept_exit_thread : kept.
Lemma kept_exit p code : kept (exit_process p code).
Proof. unfold exit_process, wake_process_waiters, remove_process_wait_entries_for_child, require_stage9_services. keep. Qed.
Lemma kept_wait p w child : kept (wait_process p w child).
Proof. unfold wait_process, remove_process_wait_entries_for_child, require_stage9_services, RoundRobin.block_current. keep. Qed.
Lemma kept_fork p pages : kept (fork_process_cow p pages).
Proof. unfold fork_process_cow, require_stage9_services. keep. Qed.
Lemma kept_vfs {A} (c : FileSystem D -> M D A) : kept (on_vfs c).
Proof. unfold on_vfs. keep. Qed.
#[local] Hint Resolve kept_vfs : kept.
Lemma kept_console_read u n : kept (console_read u n).
Proof. unfold console_read, require_stage9_services, RoundRobin.block_current. keep. Qed.
Lemma kept_console_write text : kept (console_write text).
Proof. unfold console_write, require_stage9_services. keep. Qed.
#[local] Hint Resolve kept_console_read kept_console_write : kept.
Lemma kept_read_fd p u fd n : kept (read_fd p u fd n).
Proof. unfold read_fd, find_entry_of, require_stage9_services. keep. Qed.
Lemma kept_write_fd p fd text : kept (write_fd p fd text).
Proof. unfold write_fd, find_entry_of, require_stage9_services. keep. Qed.
Lemma kept_open p path mode create : kept (Kernel.open_file p path mode create).
Proof. unfold Kernel.open_file, require_stage15_services. keep. Qed.
Lemma kept_close p fd : kept (close_fd p fd).
Proof. unfold close_fd, require_stage9_services. keep. Qed.
Lemma kept_futex_wait p a u : kept (wait_on_futex p a u).
Proof. unfold wait_on_futex, futex_key, require_stage9_services, RoundRobin.block_current. keep. Qed.
Lemma kept_futex_wake_one p a : kept (wake_one_futex p a).
Proof. unfold wake_one_futex, futex_key, require_stage9_services. keep. Qed.
Lemma kept_futex_wake_all p a : kept (wake_all_futex p a).
Proof. unfold wake_all_futex, futex_key, require_stage9_services. keep. Qed.
Lemma kept_mmu {A} u (c : PagingState -> M (MemoryManagementUnit * B) A) : kept (with_user_mmu u c).
Proof. unfold with_user_mmu. keep. by apply kept_zoom. Qed.
End members.
#[export] Hint Resolve kept_require kept_value kept_exit kept_wait kept_fork kept_vfs kept_read_fd kept_write_fd kept_open kept_close
  kept_futex_wait kept_futex_wake_one kept_futex_wake_all kept_mmu : kept.

(** ** The answers *)

(** The bank of the caller has its sixteen registers. *)
Definition whole {B D} (t : ThreadRef) (k : Kernel B D) : Prop :=
  forall c, cpus (k_threads k) t = Some c -> length (registers (cpu_registers c)) = 16%nat.
(** RAX of the caller holds the negated number of an error, as an unsigned word. *)
Definition failed {B D} (t : ThreadRef) (k : Kernel B D) : Prop :=
  exists c, cpus (k_threads k) t = Some c /\ W64 - 4096 <= reg_of Reg.RAX c < W64.
Definition succeeded (r : SyscallResult) : bool := match r with SysResult.HANDLED | SysResult.BLOCKED => true | _ => false end.

Section answers.
Context {B D : Type} `{MemoryBus B} `{FlushStore D} (t : ThreadRef).
Abbreviation K := (Kernel B D).
Implicit Types k : K.

(** A computation that may clobber the caller and that, when it returns a failure, has reported it. *)
Definition answers {A} (result : A -> SyscallResult) (c : M K A) : Prop :=
  forall k, whole t k -> clobbers t k (fst (c k)) /\
    forall a, snd (c k) = Ok a -> succeeded (result a) = false -> failed t (fst (c k)).

Lemma masked_length u c c' : masked t u c = masked t u c' -> length (registers (cpu_registers c)) = length (registers (cpu_registers c')).
Proof.
  unfold masked. destruct (decide (u = t)); [|by intros ->]. destruct c as [[l] ? ? ? ? ? ? ?], c' as [[l'] ? ? ? ? ? ? ?].
  unfold put_reg, set_registers, set_paging. cbn. intros [= He _ _ _ _ _ _].
  apply (f_equal length) in He. by rewrite !length_insert in He.
Qed.
Lemma whole_clobbers k k' : clobbers t k k' -> whole t k -> whole t k'.
Proof.
  intros Hc Hw c' E'. specialize (Hc t). rewrite E' in Hc. destruct (cpus (k_threads k) t) as [c|] eqn:E; [|done].
  injection Hc as Hc. rewrite <- (Hw c E). by apply (masked_length t).
Qed.
Lemma answers_ret {A} (result : A -> SyscallResult) a : succeeded (result a) = true -> answers result (mret a).
Proof. intros Ha k Hw. split; [done|]. cbn. intros a' [= <-]. congruence. Qed.
Lemma answers_bind {A C} (result : C -> SyscallResult) (c : M K A) (f : A -> M K C) :
  within (clobbers t) c -> (forall a, answers result (f a)) -> answers result (c ≫= f).
Proof.
  intros Hc Hf k Hw. munfold_goal. specialize (Hc k). destruct (c k) as [k1 [a|e]]; cbn [fst snd] in *; [|done].
  destruct (Hf a k1 (whole_clobbers _ _ Hc Hw)) as [H12 Ha]. split; [by etransitivity|done].
Qed.
(** After an answer, a failure is returned at once. *)
Lemma answers_then {A C} (result : A -> SyscallResult) (result' : C -> SyscallResult) (c : M K A) (f : A -> M K C) :
  answers result c ->
  (forall a, succeeded (result a) = false -> exists b, f a = mret b) ->
  (forall a, succeeded (result a) = true -> answers result' (f a)) -> answers result' (c ≫= f).
Proof.
  intros Hc Hbad Hgood k Hw. munfold_goal. destruct (Hc k Hw) as [Hk Ha]. destruct (c k) as [k1 [a|e]]; cbn [fst snd] in *; [|done].
  destruct (succeeded (result a)) eqn:Es.
  - destruct (Hgood a Es k1 (whole_clobbers _ _ Hk Hw)) as [H12 Hf]. split; [by etransitivity|done].
  - destruct (Hbad a Es) as [b ->]. split; [done|]. intros b' _ _. by apply (Ha a).
Qed.
Lemma answers_try {A} (result : A -> SyscallResult) (c : M K A) h : answers result c ->
  (forall e c', h e = Some c' -> answers result c') -> answers result (try_catch c h).
Proof.
  intros Hc Hh k Hw. unfold try_catch. destruct (Hc k Hw) as [Hk Ha]. destruct (c k) as [k1 [a|e]]; cbn [fst snd] in *; [done|].
  destruct (h e) as [c'|] eqn:E; [|done]. destruct (Hh e c' E k1 (whole_clobbers _ _ Hk Hw)) as [H12 Hf].
  split; [by etransitivity|done].
Qed.
Lemma answers_throw {A} (result : A -> SyscallResult) e : answers result (throw e).
Proof. by intros k Hw. Qed.

(** *** The two ends of a call *)

Lemma set_result_masked v c : masked t t (fst (frame_set_result v c)) = masked t t c.
Proof.
  unfold frame_set_result, masked. rewrite write_register_eq by done. rewrite !decide_True by done.
  unfold put_reg, set_registers, set_paging. cbn -[register_id_to_index insert].
  by rewrite list_insert_insert_eq.
Qed.
Lemma kept_result v : within (clobbers t) (finish_syscall_success (B := B) (D := D) t v).
Proof. apply kept_cpu. intros c. apply set_result_masked. Qed.
Lemma kept_argument a : within (clobbers t) (argument (B := B) (D := D) t a).
Proof. apply kept_cpu. intros c. unfold frame_argument, read_register. munfold_goal. by destruct (syscall_argument_register a). Qed.
Lemma kept_number : within (clobbers t) (on_thread_cpu (B := B) (D := D) t frame_number).
Proof. apply kept_cpu. intros c. unfold frame_number, frame_raw_number, read_register. munfold_goal. by destruct (RegisterBank_read _ _). Qed.
Lemma answers_error e r : e <> SysError.SUCCESS -> answers id (finish_syscall_error t e r).
Proof.
  intros He k Hw. unfold finish_syscall_error. split.
  { apply within_bind; [exact _| |intros _; apply within_ret; exact _]. apply kept_cpu. intros c. unfold frame_set_error. apply set_result_masked. }
  intros r' Hr _. revert Hr. munfold_goal. unfold on_thread_cpu, on_thread, zoom, frame_set_error, frame_set_result.
  destruct (k_threads k !! t) as [th|] eqn:E; [|done]. rewrite write_register_eq by done. intros _.
  exists (put_reg Reg.RAX (syscall_error_result e) (thread_cpu_state th)). split; [unfold cpus; cbn; by rewrite lookup_insert_eq|].
  unfold reg_of, put_reg. cbn [cpu_registers set_registers registers]. rewrite nth_insert_eq; [pose proof (syscall_error_small e He); lia|].
  rewrite (Hw (thread_cpu_state th)); [cbn; lia|]. unfold cpus. by rewrite E.
Qed.
End answers.
#[export] Hint Resolve kept_result kept_argument kept_number : kept.

(** ** The handlers *)

Section handlers.
Context {B D : Type} `{MemoryBus B} `{FlushStore D} (t : ThreadRef).
Abbreviation K := (Kernel B D).
Abbreviation answers := (answers (B := B) (D := D) t).

(** A failure passed on in another shape. *)
Lemma answers_map {A C} (result : A -> SyscallResult) (result' : C -> SyscallResult) (c : M K A) g :
  answers result c -> (forall a, succeeded (result a) = true -> succeeded (result' (g a)) = true) ->
  answers result' (c ≫= fun a => mret (g a)).
Proof. intros Hc Hg. apply (answers_then t result); [exact Hc|intros a _; by exists (g a)|]. intros a Ha. apply answers_ret. auto. Qed.
(** The rest of a handler after a part of it that may have failed. *)
Lemma answers_unless {A} (result : A -> SyscallResult) (c : M K A) (f : A -> M K SyscallResult) :
  answers result c -> (forall a, answers id (f a)) ->
  answers id (c ≫= fun a => if negb (bool_decide (result a = SysResult.HANDLED)) then mret (result a) else f a).
Proof.
  intros Hc Hf. apply (answers_then t result); [exact Hc|..]; intros a Ha.
  - exists (result a). destruct (result a); done.
  - destruct (negb _); [by apply answers_ret|done].
Qed.
Lemma kept_activate s id mode : within (clobbers (B := B) (D := D) t) (on_thread_cpu t (activate_context s id mode)).
Proof.
  apply kept_cpu. intros c. unfold activate_context. munfold_goal.
  assert (Hp : forall p c, masked t t (set_paging p c) = masked t t c) by (intros p c'; unfold masked; by rewrite !decide_True).
  destruct (negb _); cbn -[masked]; destruct (load_cr3 _ _ _ _); cbn -[masked]; by rewrite ?Hp.
Qed.
End handlers.
#[export] Hint Resolve kept_activate : kept.

Ltac answer :=
  repeat first
    [ progress unfold finish_handled, invalid_context, bad_address, bad_argument, no_memory
    | apply answers_ret; reflexivity
    | apply answers_throw
    | apply answers_error; discriminate
    | match goal with |- answers _ _ (try_catch _ _) => apply answers_try; [|intros ? ? ?] end
    | match goal with |- answers _ _ (_ ≫= _) => apply answers_bind; [solve [keep]|intros ?] end
    | match goal with |- answers _ _ (match ?x with _ => _ end) => destruct x end
    | match goal with |- answers _ _ (let '(_, _) := ?x in _) => destruct x end
    | match goal with H : ?h = Some _ |- _ => progress unfold user_memory_failure, stat_failure in H end
    | match goal with H : match ?e with _ => _ end = Some _ |- _ => destruct e; simplify_option_eq end ].

Section dispatch.
Context {B D : Type} `{MemoryBus B} `{FlushStore D} (t : ThreadRef).
Abbreviation K := (Kernel B D).
Abbreviation answers := (answers (B := B) (D := D) t).

Lemma answers_getpid p : answers id (dispatch_getpid p t).
Proof. unfold dispatch_getpid. answer. Qed.
Lemma kept_map_page p page : within (clobbers (B := B) (D := D) t) (map_user_zero_page p t page).
Proof. unfold map_user_zero_page, user_page_is_mapped, require_stage9_services. keep. Qed.
#[local] Hint Resolve kept_map_page : kept.
Lemma answers_map_anon p : answers id (dispatch_map_anon_page p t).
Proof. unfold dispatch_map_anon_page. answer. Qed.
Lemma answers_collect p pages : answers (default SysResult.HANDLED) (collect_cow_pages p t pages).
Proof.
  induction pages as [|page pages IH]; cbn [collect_cow_pages]; [by apply answers_ret|]. destruct (negb _).
  - apply (answers_map t id); [|done]. answer.
  - apply answers_bind; [keep|]. intros translation. destruct (negb _); [|done]. apply (answers_map t id); [|done]. answer.
Qed.
Lemma answers_fork p : answers id (dispatch_fork_cow p t).
Proof.
  unfold dispatch_fork_cow. answer.
  apply (answers_then t (default SysResult.HANDLED)); [apply answers_collect|..]; intros [r|] Hr; try done.
  - by exists r.
  - by apply answers_ret.
  - answer.
Qed.
Lemma answers_futex_wait p : answers id (dispatch_futex_wait p t).
Proof. unfold dispatch_futex_wait, read_futex_word. answer. Qed.
Lemma answers_futex_wake_one p : answers id (dispatch_futex_wake_one p t).
Proof. unfold dispatch_futex_wake_one. answer. Qed.
Lemma answers_futex_wake_all p : answers id (dispatch_futex_wake_all p t).
Proof. unfold dispatch_futex_wake_all. answer. Qed.
Lemma answers_io_status status : answers id (finish_io_status_error t status).
Proof. unfold finish_io_status_error. answer. Qed.
Lemma answers_failed c : answers id c -> answers fst (c ≫= fun r => mret (r, [] : list Z)).
Proof. intros Hc. by apply (answers_map t id). Qed.
Lemma answers_path a n : answers fst (read_syscall_path t a n).
Proof.
  unfold read_syscall_path, check_user_io_access, read_user_bytes. destruct (negb _); [apply answers_failed; answer|].
  apply answers_try.
  - do 2 (apply answers_bind; [keep|]; intros ?). cbv zeta.
    match goal with |- answers _ (if ?b then _ else _) => destruct b end; [apply answers_failed; answer|by apply answers_ret].
  - intros e c' He. destruct e; cbn [user_memory_failure fmap option_fmap option_map] in He; simplify_eq; apply answers_failed; answer.
Qed.
Lemma answers_path_argument a n : answers fst (read_syscall_path_argument t a n).
Proof.
  unfold read_syscall_path_argument. apply answers_bind; [keep|]. intros size. destruct (negb _); [apply answers_failed; answer|].
  apply answers_bind; [keep|]. intros address. apply answers_path.
Qed.
Lemma answers_output_buffer a n : answers id (check_user_output_buffer t a n).
Proof. unfold check_user_output_buffer, check_user_io_access. answer. Qed.
(** A handler that begins by reading a path. *)
Lemma answers_with_path a n f : (forall path, answers id (f path)) ->
  answers id (read_syscall_path_argument t a n ≫= fun '(r, path) =>
    if negb (bool_decide (r = SysResult.HANDLED)) then mret r else f path).
Proof.
  intros Hf. apply (answers_then t fst); [apply answers_path_argument|..]; intros [r path] Hr; cbn [fst] in *.
  - exists r. destruct r; done.
  - destruct (negb _); [by apply answers_ret|apply Hf].
Qed.
Lemma answers_with_buffer a n (f : M K SyscallResult) : answers id f ->
  answers id (check_user_output_buffer t a n ≫= fun r => if negb (bool_decide (r = SysResult.HANDLED)) then mret r else f).
Proof. intros Hf. apply (answers_unless t id); [apply answers_output_buffer|done]. Qed.

Lemma answers_read p : answers id (dispatch_read p t).
Proof.
  unfold dispatch_read, check_user_io_access, write_user_bytes. pose proof answers_io_status. answer; auto.
Qed.
Lemma answers_write p : answers id (dispatch_write p t).
Proof.
  unfold dispatch_write, check_user_io_access, read_user_bytes. pose proof answers_io_status. answer; auto.
Qed.
Lemma answers_open p : answers id (dispatch_open p t).
Proof.
  unfold dispatch_open, require_stage15_services. destruct p as [p|]; [|answer].
  apply answers_bind; [keep|]. intros flags. destruct (negb _); [answer|]. apply answers_with_path. intros path. answer.
Qed.
Lemma answers_close p : answers id (dispatch_close p t).
Proof. unfold dispatch_close. answer. Qed.
Lemma answers_stat p : answers id (dispatch_stat p t).
Proof.
  unfold dispatch_stat, require_stage15_services, write_user_bytes. destruct p as [p|]; [|answer]. apply answers_with_path.
  intros path. apply answers_bind; [keep|]. intros out. apply answers_with_buffer. answer.
Qed.
Lemma answers_readdir p : answers id (dispatch_readdir p t).
Proof.
  unfold dispatch_readdir, require_stage15_services, write_user_bytes. destruct p as [p|]; [|answer].
  apply answers_bind; [keep|]. intros size. destruct (negb _); [answer|]. apply answers_with_path.
  intros path. apply answers_bind; [keep|]. intros out. apply answers_try; [|intros e c' He; answer].
  do 2 (apply answers_bind; [keep|]; intros ?). case_match; [|answer]. case_match; [answer|].
  apply answers_bind; [keep|]. intros entries. apply answers_with_buffer. answer.
Qed.
Lemma answers_wait p : answers id (dispatch_wait p t).
Proof. unfold dispatch_wait. answer. Qed.
Lemma answers_exit p : answers id (dispatch_exit p t).
Proof.
  unfold dispatch_exit, RoundRobin.exit_current. apply answers_bind; [keep|]. intros _. apply answers_bind; [|intros _; by apply answers_ret].
  destruct p as [p|]; [keep|]. apply within_bind; [exact _|apply within_gets; exact _|]. intros current. destruct current; [keep|].
  apply within_modify. intros k u. cbn. by rewrite cpus_store_state.
Qed.
Lemma answers_dispatch p : answers id (dispatch_syscall p t).
Proof.
  unfold dispatch_syscall, require_stage9_services. apply answers_bind; [keep|]. intros _. apply answers_bind; [keep|]. intros number.
  destruct number; [|apply answers_exit|apply answers_getpid|apply answers_map_anon|apply answers_fork|apply answers_futex_wait
    |apply answers_futex_wake_one|apply answers_futex_wake_all|apply answers_read|apply answers_write|apply answers_open|apply answers_close
    |apply answers_stat|apply answers_readdir|apply answers_wait|]; answer.
Qed.
End dispatch.

(** ** Theorems *)

(** The processor of a thread after a system call of thread [t]. *)
Record untouched (t u : ThreadRef) (c c' : CpuState) : Prop := {
  ut_other : u <> t -> c' = c;
  ut_registers r : r <> Reg.RAX -> reg_of r c' = reg_of r c;
  ut_flags : cpu_flags c' = cpu_flags c;
  ut_rip : rip c' = rip c;
  ut_level : privilege_level c' = privilege_level c;
  ut_core : core_id c' = core_id c;
  ut_trap : pending_trap c' = pending_trap c;
  ut_halted : is_halted c' = is_halted c;
}.
Lemma masked_untouched t u c c' : masked t u c' = masked t u c -> untouched t u c c'.
Proof.
  unfold masked. destruct (decide (u = t)) as [->|Hne]; [|by intros ->]. intros He.
  split; try done; [|by apply (f_equal cpu_flags) in He|by apply (f_equal rip) in He|by apply (f_equal privilege_level) in He
    |by apply (f_equal core_id) in He|by apply (f_equal pending_trap) in He|by apply (f_equal is_halted) in He].
  intros r Hr. apply (f_equal (reg_of r)) in He. by rewrite !reg_of_put_ne in He.
Qed.


Definition sample_caller (number : Z) : ThreadContext :=
  mkThread 1 TState.RUNNING (put_reg Reg.RAX number make_cpu_state) 0 0 0 None.
