(* ===== verification/Shell.v ===== *)
(** * Shell

    Models src/os/shell/shell.cpp and session.cpp: the parser of command lines, the catalog of builtin
    commands with a handler for each, the shell that executes a line, and the session that reads lines
    from the standard input of its process.  Text is a list of character codes.  A message of an
    exception is a parameter, [what]; so is the number of bootstrap processors. *)

From Stdlib Require Import String Ascii.
From stdpp Require Import pretty.
From S2P Require Import Prelude Logic Common MemoryBus PageAlloc BlockDevice Thread RoundRobin FsFormat SimpleFs Vfs Terminal Console FileDescriptor PageFaultHandler UserProgram UserLoader Process Kernel UserTrap.

(** ** Text *)

Definition text (s : string) : list Z := (fun c => Z.of_N (N_of_ascii c)) <$> list_ascii_of_string s.
(** [std::to_string]. *)
Definition to_string (n : Z) : list Z := text (pretty n).
Definition SPACE : list Z := [32].
Definition NEWLINE : list Z := [10].
Definition is_digit (c : Z) : bool := (48 <=? c) && (c <=? 57).
Definition digits_value (ds : list Z) : Z := foldl (fun v d => v * 10 + (d - 48)) 0 ds.
(** [std::from_chars] into a 64-bit unsigned: the value of the longest prefix of digits and what
    follows it, or nothing when there is no digit or the value does not fit. *)
Fixpoint take_digits (s : list Z) : list Z * list Z :=
  match s with
  | c :: rest => if is_digit c then let '(ds, r) := take_digits rest in (c :: ds, r) else ([], s)
  | [] => ([], [])
  end.
Definition from_chars (s : list Z) : option (Z * list Z) :=
  let '(ds, rest) := take_digits s in
  if bool_decide (ds = []) || (W64 - 1 <? digits_value ds) then None else Some (digits_value ds, rest).
Fixpoint starts_with (prefix s : list Z) : bool :=
  match prefix, s with
  | [], _ => true
  | c :: prefix, d :: s => (c =? d) && starts_with prefix s
  | _ :: _, [] => false
  end.
Fixpoint join (separator : list Z) (ws : list (list Z)) : list Z :=
  match ws with
  | [] => []
  | [w] => w
  | w :: ws => w ++ separator ++ join separator ws
  end.

(** ** Commands and their parser *)

Module Command.
(* [include/mnos/os/shell/shell.hpp] [ShellCommandStatus] *)
Inductive ShellCommandStatus : Set := HANDLED | EMPTY | UNKNOWN_COMMAND | PARSE_ERROR | EXIT_REQUESTED | COUNT.
End Command.
Abbreviation ShellCommandStatus := Command.ShellCommandStatus.
#[export] Instance ShellCommandStatus_eq_dec : EqDecision ShellCommandStatus.
Proof. solve_decision. Defined.
(* [include/mnos/os/shell/shell.hpp] [ShellCommand] *)
Record ShellCommand : Set := mkCommand { command_name : list Z; command_arguments : list (list Z) }.
#[export] Instance ShellCommand_eq_dec : EqDecision ShellCommand.
Proof. solve_decision. Defined.
(** The status and the command that goes with it. *)
(* [include/mnos/os/shell/shell.hpp] [ShellParseResult] *)
Inductive ShellParseResult : Set := COMMAND (c : ShellCommand) | EMPTY | UNTERMINATED_QUOTE.
(* [src/os/shell/shell.cpp] [ShellCommand::argument_count] *)
Definition argument_count (c : ShellCommand) : Z := lenZ (command_arguments c).
(* [src/os/shell/shell.cpp] [ShellCommand::argument_at] *)
Definition argument_at (index : Z) (c : ShellCommand) : res (list Z) :=
  match command_arguments c !! Z.to_nat index with Some a => Ok a | None => Throw out_of_range end.
(* [src/os/shell/shell.cpp] [shell_character_is_whitespace] *)
Definition shell_character_is_whitespace (c : Z) : bool := (c =? 32) || (c =? 9) || (c =? 10) || (c =? 13).
(* [src/os/shell/shell.cpp] [shell_character_is_quote] *)
Definition shell_character_is_quote (c : Z) : bool := (c =? 39) || (c =? 34).
Definition BACKSLASH : Z := 92.

(** The local variables of the parser's loop. *)
Record Scan : Set := mkScan {
  scan_tokens : list (list Z); scan_token : list Z; token_started : bool; escaped : bool; quoted : bool; quote_character : Z }.
Definition push (c : Z) (s : Scan) : Scan :=
  mkScan (scan_tokens s) (scan_token s ++ [c]) true (escaped s) (quoted s) (quote_character s).
(** One iteration. *)
(* [src/os/shell/shell.cpp] [ShellParser::parse] [1041-1092] *)
Definition scan_character (s : Scan) (c : Z) : Scan :=
  if escaped s then mkScan (scan_tokens s) (scan_token s ++ [c]) true false (quoted s) (quote_character s)
  else if c =? BACKSLASH then mkScan (scan_tokens s) (scan_token s) true true (quoted s) (quote_character s)
  else if quoted s then
    if c =? quote_character s then mkScan (scan_tokens s) (scan_token s) (token_started s) (escaped s) false (quote_character s)
    else push c s
  else if shell_character_is_quote c then mkScan (scan_tokens s) (scan_token s) true (escaped s) true c
  else if shell_character_is_whitespace c then
    if token_started s then mkScan (scan_tokens s ++ [scan_token s]) [] false (escaped s) (quoted s) (quote_character s) else s
  else push c s.
(* [src/os/shell/shell.cpp] [ShellParser::parse] *)
Definition parse (line : list Z) : ShellParseResult :=
  let s := foldl scan_character (mkScan [] [] false false false 0) line in
  if quoted s then UNTERMINATED_QUOTE
  else
    let token := if escaped s then scan_token s ++ [BACKSLASH] else scan_token s in
    let tokens := if token_started s then scan_tokens s ++ [token] else scan_tokens s in
    match tokens with
    | [] => EMPTY
    | name :: arguments => COMMAND (mkCommand name arguments)
    end.

(** ** The request of [run] *)

Definition KERNEL_USER_EXEC_DEFAULT_MAX_STEPS : Z := 256.
Definition MAX_STEPS_OPTION : list Z := text "--max-steps".
Definition OPTION_TERMINATOR : list Z := text "--".
Definition OPTION_VALUE_SEPARATOR : Z := 61.
(* [src/os/shell/shell.cpp] [ShellRunRequest] [113-118] *)
Record ShellRunRequest : Set := mkRunRequest { run_path : list Z; run_arguments : list (list Z); max_steps : Z }.
(** The status [READY] carries the request. *)
(* [src/os/shell/shell.cpp] [ShellRunParseStatus] [106-111] *)
Inductive ShellRunParse : Set := READY (r : ShellRunRequest) | USAGE | INVALID_MAX_STEPS.
(* [src/os/shell/shell.cpp] [shell_parse_max_steps] *)
Definition shell_parse_max_steps (s : list Z) : option Z :=
  match from_chars s with
  | Some (v, rest) => if negb (bool_decide (rest = [])) || (v =? 0) then None else Some v
  | None => None
  end.
(* [src/os/shell/shell.cpp] [shell_text_is_unsigned_decimal] *)
Definition shell_text_is_unsigned_decimal (s : list Z) : bool := negb (bool_decide (s = [])) && forallb is_digit s.
(* [src/os/shell/shell.cpp] [shell_token_is_max_steps_option] *)
Definition shell_token_is_max_steps_option (token : list Z) : bool :=
  bool_decide (token = MAX_STEPS_OPTION) || starts_with (MAX_STEPS_OPTION ++ [OPTION_VALUE_SEPARATOR]) token.
(** The option at the head of [token :: rest]: the number of steps and the arguments after it. *)
(* [src/os/shell/shell.cpp] [shell_parse_max_steps_option] *)
Definition shell_parse_max_steps_option (token : list Z) (rest : list (list Z)) : option (Z * list (list Z)) :=
  if bool_decide (token = MAX_STEPS_OPTION) then
    match rest with
    | value :: rest' => v ← shell_parse_max_steps value; Some (v, rest')
    | [] => None
    end
  else if starts_with (MAX_STEPS_OPTION ++ [OPTION_VALUE_SEPARATOR]) token then
    v ← shell_parse_max_steps (drop (length MAX_STEPS_OPTION + 1) token); Some (v, rest)
  else None.
(** The loop over the arguments; each iteration takes at least one, so their number is fuel enough. *)
(* [src/os/shell/shell.cpp] [shell_parse_run_request] [321-346] *)
Fixpoint parse_run_arguments (fuel : nat) (options : bool) (args : list (list Z)) (r : ShellRunRequest) : ShellRunParse :=
  match fuel, args with
  | _, [] => READY r
  | O, _ :: _ => READY r
  | S fuel', token :: rest =>
      if options && bool_decide (token = OPTION_TERMINATOR) then parse_run_arguments fuel' false rest r
      else if options && shell_token_is_max_steps_option token then
        match shell_parse_max_steps_option token rest with
        | Some (v, rest') => parse_run_arguments fuel' options rest' (mkRunRequest (run_path r) (run_arguments r) v)
        | None => INVALID_MAX_STEPS
        end
      else parse_run_arguments fuel' options rest (mkRunRequest (run_path r) (run_arguments r ++ [token]) (max_steps r))
  end.
(* [src/os/shell/shell.cpp] [shell_parse_run_request] *)
Definition shell_parse_run_request (c : ShellCommand) : ShellRunParse :=
  match command_arguments c with
  | [] => USAGE
  | path :: rest =>
      let request := mkRunRequest path [path] KERNEL_USER_EXEC_DEFAULT_MAX_STEPS in
      match rest with
      | [steps] =>
          if shell_text_is_unsigned_decimal steps then
            match shell_parse_max_steps steps with Some v => READY (mkRunRequest path [path] v) | None => INVALID_MAX_STEPS end
          else parse_run_arguments (length rest) true rest request
      | _ => parse_run_arguments (length rest) true rest request
      end
  end.

(** ** Names *)

(* [src/os/proc/process.cpp] [process_state_to_name] *)
Definition process_state_to_name (s : ProcessState) : list Z :=
  match s with
  | PState.RUNNING => text "RUNNING" | PState.EXITED => text "EXITED" | PState.REAPED => text "REAPED"
  | PState.COUNT => text "<invalid>"
  end.
(* [src/os/sched/thread_state.cpp] [thread_state_to_name] *)
Definition thread_state_to_name (s : ThreadState) : list Z :=
  match s with
  | TState.READY => text "READY" | TState.RUNNING => text "RUNNING" | TState.BLOCKED => text "BLOCKED"
  | TState.DEAD => text "DEAD" | TState.COUNT => text "<invalid>"
  end.
(* [src/os/kernel/kernel.cpp] [user_process_run_status_to_name] *)
Definition user_process_run_status_to_name (s : UserProcessRunStatus) : list Z :=
  match s with
  | RunStatus.EXITED => text "EXITED" | RunStatus.BLOCKED => text "BLOCKED" | RunStatus.KILLED => text "KILLED"
  | RunStatus.OUT_OF_MEMORY => text "OUT_OF_MEMORY" | RunStatus.MAX_STEPS => text "MAX_STEPS"
  | RunStatus.COUNT => text "<invalid>"
  end.
(* [src/os/kernel/kernel.cpp] [process_wait_status_to_name] *)
Definition process_wait_status_to_name (s : ProcessWaitStatus) : list Z :=
  match s with
  | WaitStatus.EXITED => text "EXITED" | WaitStatus.BLOCKED => text "BLOCKED" | WaitStatus.NO_CHILD => text "NO_CHILD"
  | WaitStatus.COUNT => text "<invalid>"
  end.
(* [src/os/shell/shell.cpp] [shell_node_kind_name] *)
Definition shell_node_kind_name (kind : SimpleFsNodeKind) : list Z :=
  match kind with
  | Node.FILE => text "file"
  | Node.DIRECTORY => text "directory"
  | Node.COUNT => text "unknown"
  end.
(* [src/os/shell/shell.cpp] [shell_join_arguments] *)
Definition shell_join_arguments (c : ShellCommand) : list Z := join SPACE (command_arguments c) ++ NEWLINE.
(* [src/os/shell/shell.cpp] [shell_join_arguments_from] *)
Definition shell_join_arguments_from (c : ShellCommand) (first_argument : Z) : list Z :=
  join SPACE (drop (Z.to_nat first_argument) (command_arguments c)).
(* [src/os/shell/shell.cpp] [shell_run_status_should_wait] *)
Definition shell_run_status_should_wait (s : UserProcessRunStatus) : bool :=
  match s with RunStatus.EXITED | RunStatus.KILLED => true | _ => false end.
(* [src/os/shell/shell.cpp] [shell_run_result_text] *)
Definition shell_run_result_text (path : list Z) (r : UserProcessRunResult) (w : option ProcessWaitResult) : list Z :=
  text "run " ++ path ++ text " pid=" ++ to_string (run_process_id r) ++
  text " status=" ++ user_process_run_status_to_name (run_status r) ++
  match w with Some w => text " wait=" ++ process_wait_status_to_name (wait_status w) | None => [] end ++
  (if run_has_exit_code r then text " exit=" ++ to_string (run_exit_code r) else []) ++
  text " steps=" ++ to_string (executed_step_count r) ++
  text " trace=" ++ to_string (lenZ (run_trace r)) ++ NEWLINE.

(** ** The catalog *)

Module Builtin.
Inductive Builtin : Set :=
  | help | clear | echo | ps | mem | cpu | ticks | ls | cat | touch | write | stat | run | exit.
End Builtin.
(* [include/mnos/os/shell/shell.hpp] [ShellBuiltinInfo] *)
Record ShellBuiltinInfo : Set := mkInfo { info_name : list Z; info_syntax : list Z; info_description : list Z }.
(** The entries in the order of the catalog; the handler is named by the builtin. *)
(* [src/os/shell/shell.cpp] [shell_builtin_catalog] *)
Definition shell_builtin_catalog : list (ShellBuiltinInfo * Builtin.Builtin) := [
  (mkInfo (text "help") (text "help [command]") (text "show all commands or details for one command"), Builtin.help);
  (mkInfo (text "clear") (text "clear") (text "clear the terminal display"), Builtin.clear);
  (mkInfo (text "echo") (text "echo [text...]") (text "print arguments to the terminal"), Builtin.echo);
  (mkInfo (text "ps") (text "ps") (text "list processes and thread states"), Builtin.ps);
  (mkInfo (text "mem") (text "mem") (text "show physical page allocator counters"), Builtin.mem);
  (mkInfo (text "cpu") (text "cpu") (text "show current shell CPU state"), Builtin.cpu);
  (mkInfo (text "ticks") (text "ticks") (text "show kernel scheduler tick counters"), Builtin.ticks);
  (mkInfo (text "ls") (text "ls [path]") (text "list directory entries"), Builtin.ls);
  (mkInfo (text "cat") (text "cat path") (text "print file contents"), Builtin.cat);
  (mkInfo (text "touch") (text "touch path") (text "create an empty file"), Builtin.touch);
  (mkInfo (text "write") (text "write path text...") (text "replace file contents with text"), Builtin.write);
  (mkInfo (text "stat") (text "stat path") (text "show file kind and size"), Builtin.stat);
  (mkInfo (text "run") (text "run path [args...] [--max-steps=N|--max-steps N]") (text "load and execute an ELF64 user program"), Builtin.run);
  (mkInfo (text "exit") (text "exit") (text "stop the interactive shell session"), Builtin.exit)].
(* [src/os/shell/shell.cpp] [shell_find_builtin] *)
Definition shell_find_builtin (name : list Z) : option (ShellBuiltinInfo * Builtin.Builtin) :=
  List.find (fun b => bool_decide (info_name b.1 = name)) shell_builtin_catalog.
Definition usage_line (syntax : list Z) : list Z := text "usage: " ++ syntax ++ NEWLINE.
(* [src/os/shell/shell.cpp] [shell_help_detail_text] *)
Definition shell_help_detail_text (i : ShellBuiltinInfo) : list Z :=
  usage_line (info_syntax i) ++ text "description: " ++ info_description i ++ NEWLINE.
(* [src/os/shell/shell.cpp] [shell_help_catalog_text] *)
Definition shell_help_catalog_text : list Z :=
  text "builtins:" ++ concat ((fun b => SPACE ++ info_name b.1) <$> shell_builtin_catalog) ++ NEWLINE ++
  text "commands:" ++ NEWLINE ++
  concat ((fun b => text "  " ++ text "usage: " ++ info_syntax b.1 ++ text " - " ++ info_description b.1 ++ NEWLINE) <$> shell_builtin_catalog).
(* [src/os/shell/shell.cpp] [ShellBuiltinRegistry::info_at] *)
Definition info_at (index : Z) : res ShellBuiltinInfo :=
  match shell_builtin_catalog !! Z.to_nat index with Some b => Ok b.1 | None => Throw out_of_range end.

(** ** Handlers *)

Section shell.
Context {B D : Type} `{MemoryBus B} `{FlushStore D}.
Abbreviation K := (Kernel B D).
Abbreviation KM A := (M (Kernel B D) A).
(** The texts of exceptions, the processors of the boot context and, for the ELF reader, what lies
    outside a file. *)
Context (what : exn -> list Z) (bootstrap_processor_count : Z) (outside : list Z -> Z -> Z).

(** The process and the thread, or neither. *)
(* [include/mnos/os/shell/shell.hpp] [ShellContext] *)
Definition ShellContext : Type := option (ProcessRef * ThreadRef).
(* [src/os/shell/shell.cpp] [shell_write] *)
Definition shell_write (s : list Z) : KM unit := console_write s.
(* [src/os/shell/shell.cpp] [shell_write_usage] *)
Definition shell_write_usage (syntax : list Z) : KM unit := shell_write (usage_line syntax).
(* [src/os/shell/shell.cpp] [shell_write_unknown_command] *)
Definition shell_write_unknown_command (name : list Z) : KM unit := shell_write (text "unknown command: " ++ name ++ NEWLINE).
(* [src/os/shell/shell.cpp] [shell_write_path_error] *)
Definition shell_write_path_error (prefix path : list Z) : KM unit := shell_write (prefix ++ path ++ NEWLINE).
(* [src/os/shell/shell.cpp] [shell_write_run_error] *)
Definition shell_write_run_error (prefix detail : list Z) : KM unit := shell_write (text "run error: " ++ prefix ++ detail ++ NEWLINE).
(** A handler that has written and is done. *)
Definition and_handled (c : KM unit) : KM ShellCommandStatus := c ≫= fun _ => mret Command.HANDLED.
Definition usage (syntax : list Z) : KM ShellCommandStatus := and_handled (shell_write_usage syntax).
Definition not_found (path : list Z) : KM ShellCommandStatus := and_handled (shell_write_path_error (text "not found: ") path).
Definition invalid_path (path : list Z) : KM ShellCommandStatus := and_handled (shell_write_path_error (text "invalid path: ") path).
Definition not_a_directory (path : list Z) : KM ShellCommandStatus := and_handled (shell_write_path_error (text "not a directory: ") path).
Definition a_directory (path : list Z) : KM ShellCommandStatus := and_handled (shell_write_path_error (text "is a directory: ") path).
Definition no_space (path : list Z) : KM ShellCommandStatus := and_handled (shell_write_path_error (text "no space: ") path).
(** [os_kernel.vfs()] and a call on it. *)
Definition vfs {A} (call : FileSystem D -> M D A) : KM A := require_stage15_services ≫= fun _ => on_vfs call.
(** The [catch] clauses of the commands that read and of those that also write. *)
Definition path_failure (path : list Z) (e : exn) : option (KM ShellCommandStatus) :=
  match e with invalid_argument => Some (invalid_path path) | _ => None end.
Definition write_failure (path : list Z) (e : exn) : option (KM ShellCommandStatus) :=
  match e with
  | length_error => Some (no_space path)
  | out_of_range => Some (not_found path)
  | invalid_argument => Some (invalid_path path)
  | _ => None
  end.

(* [src/os/shell/shell.cpp] [handle_help] *)
Definition handle_help (c : ShellCommand) : KM ShellCommandStatus :=
  if argument_count c =? 0 then and_handled (shell_write shell_help_catalog_text)
  else if negb (argument_count c =? 1) then usage (text "help [command]")
  else
    lift (fun _ => argument_at 0 c) ≫= fun name =>
    match shell_find_builtin name with
    | None => shell_write_unknown_command name ≫= fun _ => mret Command.UNKNOWN_COMMAND
    | Some (info, _) => and_handled (shell_write (shell_help_detail_text info))
    end.
(* [src/os/shell/shell.cpp] [handle_clear] *)
Definition handle_clear : KM ShellCommandStatus := and_handled (on_console Console.clear).
(* [src/os/shell/shell.cpp] [handle_echo] *)
Definition handle_echo (c : ShellCommand) : KM ShellCommandStatus := and_handled (shell_write (shell_join_arguments c)).
(** A line of the listing. *)
(* [src/os/shell/shell.cpp] [handle_ps] [558-593] *)
Definition process_line (ts : gmap Z ThreadContext) (pr : Process) : list Z :=
  to_string (pr_id pr) ++ SPACE ++
  (if has_parent pr then to_string (pr_parent pr) else text "0") ++ SPACE ++
  process_state_to_name (pr_state pr) ++ SPACE ++
  (if is_exited pr || is_reaped pr then to_string (pr_exit_code pr) else text "-") ++ SPACE ++
  to_string (lenZ (pr_threads pr)) ++ SPACE ++
  join (text ",") ((fun t => thread_state_to_name (state_of ts t)) <$> pr_threads pr) ++ NEWLINE.
(* [src/os/shell/shell.cpp] [handle_ps] *)
Definition handle_ps : KM ShellCommandStatus :=
  get ≫= fun k =>
  and_handled (shell_write (text "pid ppid state exit threads states" ++ NEWLINE ++
    concat (process_line (k_threads k) <$> k_processes k))).
(* [src/os/shell/shell.cpp] [handle_mem] *)
Definition handle_mem : KM ShellCommandStatus :=
  require_stage5_services ≫= fun _ =>
  value k_allocator ≫= fun a =>
  and_handled (shell_write (text "memory_pages total=" ++ to_string (total_page_count a) ++
    text " free=" ++ to_string (free_page_count a) ++ text " allocated=" ++ to_string (allocated_page_count a) ++ NEWLINE)).
(* [src/os/shell/shell.cpp] [handle_cpu] *)
Definition handle_cpu : KM ShellCommandStatus :=
  get ≫= fun k =>
  and_handled (shell_write (text "cores=" ++ to_string bootstrap_processor_count ++
    text " ready_threads=" ++ to_string (lenZ (ready_queue (k_scheduler k))) ++
    text " running=" ++ (if present (current_thread (k_scheduler k)) then text "1" else text "0") ++ NEWLINE)).
(* [src/os/shell/shell.cpp] [handle_ticks] *)
Definition handle_ticks : KM ShellCommandStatus :=
  gets k_ticks ≫= fun n => and_handled (shell_write (text "ticks=" ++ to_string n ++ NEWLINE)).
(* [src/os/shell/shell.cpp] [handle_ls] *)
Definition handle_ls (c : ShellCommand) : KM ShellCommandStatus :=
  if 1 <? argument_count c then usage (text "ls [path]")
  else
    (if argument_count c =? 0 then mret (text "/") else lift (fun _ => argument_at 0 c)) ≫= fun path =>
    try_catch
      (vfs (fun fs => @Vfs.lookup D fs path) ≫= fun node =>
       match node with
       | None => not_found path
       | Some n =>
           if negb (is_directory n) then not_a_directory path
           else
             vfs (fun fs => @Vfs.read_directory D fs path) ≫= fun entries =>
             and_handled (shell_write (concat ((fun e =>
               entry_name e ++ (if entry_is_directory e then text "/" else []) ++ NEWLINE) <$> entries)))
       end)
      (path_failure path).
(* [src/os/shell/shell.cpp] [handle_cat] *)
Definition handle_cat (c : ShellCommand) : KM ShellCommandStatus :=
  if negb (argument_count c =? 1) then usage (text "cat path")
  else
    lift (fun _ => argument_at 0 c) ≫= fun path =>
    try_catch
      (vfs (fun fs => @Vfs.lookup D fs path) ≫= fun node =>
       match node with
       | None => not_found path
       | Some n =>
           if is_directory n then a_directory path
           else
             vfs (fun fs => @Vfs.open_file D fs path Mode.READ_ONLY) ≫= fun file =>
             on_vfs (fun fs => @file_size_bytes D fs file) ≫= fun size =>
             on_vfs (fun fs => @Vfs.read D fs file size) ≫= fun '(_, bytes) =>
             and_handled (shell_write bytes)
       end)
      (path_failure path).
(** The file of a command that writes: refused when it is a directory, made when it is missing. *)
Definition with_file (path : list Z) (rest : KM ShellCommandStatus) : KM ShellCommandStatus :=
  vfs (fun fs => @Vfs.lookup D fs path) ≫= fun node =>
  if match node with Some n => is_directory n | None => false end then a_directory path
  else
    (if present node then mret tt else vfs (fun fs => @Vfs.create_file D fs path) ≫= fun _ => mret tt) ≫= fun _ =>
    rest.
(* [src/os/shell/shell.cpp] [handle_touch] *)
Definition handle_touch (c : ShellCommand) : KM ShellCommandStatus :=
  if negb (argument_count c =? 1) then usage (text "touch path")
  else
    lift (fun _ => argument_at 0 c) ≫= fun path =>
    try_catch (with_file path (mret Command.HANDLED)) (write_failure path).
(* [src/os/shell/shell.cpp] [handle_write] *)
Definition handle_write (c : ShellCommand) : KM ShellCommandStatus :=
  if argument_count c <? 2 then usage (text "write path text...")
  else
    lift (fun _ => argument_at 0 c) ≫= fun path =>
    try_catch
      (with_file path
        (let bytes := shell_join_arguments_from c 1 ++ NEWLINE in
         vfs (fun fs => @Vfs.open_file D fs path Mode.READ_WRITE) ≫= fun file =>
         on_vfs (fun fs => @file_size_bytes D fs file) ≫= fun size =>
         on_vfs (fun fs => @Vfs.seek D fs file size) ≫= fun file =>
         on_vfs (fun fs => @Vfs.write D fs file bytes) ≫= fun _ =>
         mret Command.HANDLED))
      (write_failure path).
(* [src/os/shell/shell.cpp] [handle_stat] *)
Definition handle_stat (c : ShellCommand) : KM ShellCommandStatus :=
  if negb (argument_count c =? 1) then usage (text "stat path")
  else
    lift (fun _ => argument_at 0 c) ≫= fun path =>
    try_catch
      (vfs (fun fs => @Vfs.lookup D fs path) ≫= fun node =>
       match node with
       | None => not_found path
       | Some n =>
           and_handled (shell_write (text "path=" ++ path ++ text " kind=" ++ shell_node_kind_name (node_kind n) ++
             text " inode=" ++ to_string (node_inode n) ++ text " size=" ++ to_string (node_size_bytes n) ++ NEWLINE))
       end)
      (path_failure path).
(** The exceptions a run reports; [runtime_error] is the base of [overflow_error], of a decoding error
    and of a page fault. *)
Definition run_failure (e : exn) : option (KM ShellCommandStatus) :=
  match e with
  | invalid_argument | out_of_range | overflow_error | length_error | runtime_error | decode_error | page_fault _ =>
      Some (and_handled (shell_write_run_error (text "invalid executable: ") (what e)))
  | logic_error | bad_alloc | bad_optional_access => None
  end.
(* [src/os/shell/shell.cpp] [handle_run] *)
Definition handle_run (context : ShellContext) (c : ShellCommand) : KM ShellCommandStatus :=
  match shell_parse_run_request c with
  | USAGE => usage (text "run path [args...] [--max-steps=N|--max-steps N]")
  | INVALID_MAX_STEPS => and_handled (shell_write (text "run error: invalid max_steps" ++ NEWLINE))
  | READY request =>
      match context with
      | None => and_handled (shell_write (text "run unavailable: shell has no process context" ++ NEWLINE))
      | Some (p, t) =>
          let path := run_path request in
          try_catch
            (vfs (fun fs => @Vfs.lookup D fs path) ≫= fun node =>
             match node with
             | None => not_found path ≫= fun r => mret (Some r)
             | Some n => if is_directory n then a_directory path ≫= fun r => mret (Some r) else mret None
             end)
            (fun e => match e with invalid_argument => Some (invalid_path path ≫= fun r => mret (Some r)) | _ => None end) ≫= fun refused =>
          match refused with
          | Some r => mret r
          | None =>
              try_catch
                (lift (process_of p) ≫= fun process =>
                 exec_user_file outside (pr_id process) path (mkArguments (run_arguments request) []) (Z.to_nat (max_steps request)) ≫= fun result =>
                 (if shell_run_status_should_wait (run_status result)
                  then wait_process p t (run_process_id result) ≫= fun w => mret (Some w)
                  else mret None) ≫= fun waited =>
                 and_handled (shell_write (shell_run_result_text path result waited)))
                run_failure
          end
      end
  end.
(* [src/os/shell/shell.cpp] [handle_exit] *)
Definition handle_exit : KM ShellCommandStatus := mret Command.EXIT_REQUESTED.
(** The functions the catalog points to. *)
(* [src/os/shell/shell.cpp] [shell_builtin_catalog] *)
Definition handler (b : Builtin.Builtin) (context : ShellContext) (c : ShellCommand) : KM ShellCommandStatus :=
  match b with
  | Builtin.help => handle_help c
  | Builtin.clear => handle_clear
  | Builtin.echo => handle_echo c
  | Builtin.ps => handle_ps
  | Builtin.mem => handle_mem
  | Builtin.cpu => handle_cpu
  | Builtin.ticks => handle_ticks
  | Builtin.ls => handle_ls c
  | Builtin.cat => handle_cat c
  | Builtin.touch => handle_touch c
  | Builtin.write => handle_write c
  | Builtin.stat => handle_stat c
  | Builtin.run => handle_run context c
  | Builtin.exit => handle_exit
  end.
(* [src/os/shell/shell.cpp] [ShellBuiltinRegistry::execute] *)
Definition execute (c : ShellCommand) (context : ShellContext) : KM ShellCommandStatus :=
  match shell_find_builtin (command_name c) with
  | None => shell_write_unknown_command (command_name c) ≫= fun _ => mret Command.UNKNOWN_COMMAND
  | Some (_, b) => handler b context c
  end.

(** ** The shell and its session *)

(** The kernel it works on is beside it in the state. *)
(* [include/mnos/os/shell/shell.hpp] [Shell] *)
Record Shell : Type := mkShell { shell_context : ShellContext; shell_running : bool }.
Abbreviation ShellM A := (M (Shell * Kernel B D) A).
Definition on_kernel {S A} : KM A -> M (S * K) A := zoom snd (fun k s => (s.1, k)).
(* [src/os/shell/shell.cpp] [Shell::execute_line] *)
Definition execute_line (line : list Z) : ShellM ShellCommandStatus :=
  match parse line with
  | EMPTY => mret Command.EMPTY
  | UNTERMINATED_QUOTE =>
      on_kernel (shell_write (text "parse error: unterminated quote" ++ NEWLINE)) ≫= fun _ => mret Command.PARSE_ERROR
  | COMMAND c =>
      gets fst ≫= fun shell =>
      on_kernel (execute c (shell_context shell)) ≫= fun result =>
      (if bool_decide (result = Command.EXIT_REQUESTED)
       then modify (fun s => (mkShell (shell_context s.1) false, s.2)) else mret tt) ≫= fun _ =>
      mret result
  end.

(** The status of a step, with the command status or the I/O status that some carry. *)
(* [include/mnos/os/shell/session.hpp] [ShellSessionStepResult] *)
Inductive StepResult : Type :=
  | StepBlocked | StepPendingInput | StepCommand (r : ShellCommandStatus) | StepExited (r : option ShellCommandStatus)
  | StepIoError (e : Io.IoStatus).
(* [include/mnos/os/shell/session.hpp] [ShellSession] *)
Record ShellSession : Type := mkSession {
  session_process : ProcessRef; session_thread : ThreadRef; session_shell : Shell; pending_line : list Z; prompt_pending : bool }.
Abbreviation SessionM A := (M (ShellSession * Kernel B D) A).
Definition set_pending_line (l : list Z) (s : ShellSession) : ShellSession :=
  mkSession (session_process s) (session_thread s) (session_shell s) l (prompt_pending s).
Definition set_prompt_pending (b : bool) (s : ShellSession) : ShellSession :=
  mkSession (session_process s) (session_thread s) (session_shell s) (pending_line s) b.
Definition on_shell {A} : ShellM A -> SessionM A :=
  zoom (fun s => (session_shell s.1, s.2))
       (fun t s => (mkSession (session_process s.1) (session_thread s.1) t.1 (pending_line s.1) (prompt_pending s.1), t.2)).
Definition on_session (f : ShellSession -> ShellSession) : SessionM unit := modify (fun s => (f s.1, s.2)).
(* [src/os/shell/session.cpp] [ShellSession::ShellSession] *)
Definition make_session (p : ProcessRef) (t : ThreadRef) : ShellSession := mkSession p t (mkShell (Some (p, t)) true) [] true.
Definition SHELL_SESSION_READ_BUFFER_SIZE : Z := 128.
Definition SHELL_SESSION_DEFAULT_PROMPT : list Z := text "mnos> ".
Definition is_ready (r : Io.IoResult) : bool := match Io.status r with Io.READY => true | _ => false end.
Definition is_blocked (r : Io.IoResult) : bool := match Io.status r with Io.BLOCKED => true | _ => false end.
(* [src/os/shell/session.cpp] [ShellSession::write_prompt_if_needed] *)
Definition write_prompt_if_needed : SessionM (option Io.IoStatus) :=
  gets fst ≫= fun s =>
  if negb (prompt_pending s) then mret None
  else
    on_kernel (write_fd (session_process s) 1 SHELL_SESSION_DEFAULT_PROMPT) ≫= fun written =>
    if negb (is_ready written) then mret (Some (Io.status written))
    else on_session (set_prompt_pending false) ≫= fun _ => mret None.
(* [src/os/shell/session.cpp] [ShellSession::next_line_break_index] *)
Definition next_line_break_index (s : ShellSession) : option nat := fst <$> list_find (fun c => c = 10) (pending_line s).
(* [src/os/shell/session.cpp] [ShellSession::has_complete_line] *)
Definition has_complete_line (s : ShellSession) : bool := present (next_line_break_index s).
(** The line before a break, without a carriage return at its end. *)
Definition strip_return (line : list Z) : list Z := if bool_decide (last line = Some 13) then removelast line else line.
(* [src/os/shell/session.cpp] [ShellSession::execute_next_ready_line] *)
Definition execute_next_ready_line : SessionM StepResult :=
  gets fst ≫= fun s =>
  match next_line_break_index s with
  | None => mret StepPendingInput
  | Some i =>
      on_shell (execute_line (strip_return (take i (pending_line s)))) ≫= fun result =>
      on_session (fun s => set_pending_line (drop (S i) (pending_line s)) s) ≫= fun _ =>
      gets (fun s => shell_running (session_shell s.1)) ≫= fun running =>
      if negb running then on_session (set_prompt_pending false) ≫= fun _ => mret (StepExited (Some result))
      else on_session (set_prompt_pending true) ≫= fun _ => mret (StepCommand result)
  end.
(* [src/os/shell/session.cpp] [ShellSession::poll] *)
Definition poll : SessionM StepResult :=
  gets (fun s => shell_running (session_shell s.1)) ≫= fun running =>
  if negb running then mret (StepExited None)
  else
    write_prompt_if_needed ≫= fun prompt_error =>
    match prompt_error with
    | Some e => mret (StepIoError e)
    | None =>
        gets (fun s => has_complete_line s.1) ≫= fun complete =>
        if complete : bool then execute_next_ready_line
        else
          gets fst ≫= fun s =>
          on_kernel (read_fd (session_process s) (session_thread s) 0 SHELL_SESSION_READ_BUFFER_SIZE) ≫= fun '(bytes, result) =>
          if is_blocked result then mret StepBlocked
          else if negb (is_ready result) then mret (StepIoError (Io.status result))
          else
            on_session (fun s => set_pending_line (pending_line s ++ bytes) s) ≫= fun _ =>
            gets (fun s => has_complete_line s.1) ≫= fun complete =>
            if complete : bool then execute_next_ready_line else mret StepPendingInput
    end.
End shell.
