(* ===== verification/ShellCorrect.v ===== *)
(** * The shell, proved

    Theorems on src/os/shell/shell.cpp and session.cpp: the parser reads back what a quoting printer
    writes; the options of [run]; the session executes its input line by line; and only [run] touches
    the process table. *)

From Stdlib Require Import String Ascii.
From stdpp Require Import pretty.
From S2P Require Import Prelude Logic Common PhysicalMemory MemoryBus Paging PageAlloc BlockDevice BufferCache Instruction CpuState Thread RoundRobin WaitQueue Smp FsFormat SimpleFs FsDisk FsData FsSpec FsRefinement FsMount Vfs Terminal Console FileDescriptor AddressSpace PageFaultHandler Apic CopyOnWrite UserProgram UserLoader Process Kernel UserTrap KernelProcesses Shell.

(** ** Printing a command line *)

(** A token written in a pair of quotes, or with every character escaped. *)
Inductive Style : Set := SingleQuotes | DoubleQuotes | Escapes.
Definition quote_of (st : Style) : Z := match st with SingleQuotes => 39 | _ => 34 end.
Definition escape (q c : Z) : list Z := if (c =? q) || (c =? BACKSLASH) then [BACKSLASH; c] else [c].
Definition print_token (st : Style) (w : list Z) : list Z :=
  match st with
  | Escapes => concat ((fun c => [BACKSLASH; c]) <$> w)
  | _ => quote_of st :: concat (escape (quote_of st) <$> w) ++ [quote_of st]
  end.
Definition printable_token (st : Style) (w : list Z) : Prop := st = Escapes -> w <> [].
(** Whitespace before each token and at the end. *)
Fixpoint print_line (ws : list (list Z * Style * list Z)) (trail : list Z) : list Z :=
  match ws with
  | [] => trail
  | (gap, st, w) :: ws => gap ++ print_token st w ++ print_line ws trail
  end.
Definition blank (gap : list Z) : Prop := Forall (fun c => shell_character_is_whitespace c = true) gap.
(** Gaps are blank, and not empty but before the first token. *)
Fixpoint gaps_ok (first : bool) (ws : list (list Z * Style * list Z)) : Prop :=
  match ws with
  | [] => True
  | (gap, st, w) :: ws => blank gap /\ (first = false -> gap <> []) /\ printable_token st w /\ gaps_ok false ws
  end.

Abbreviation scan := (foldl scan_character).
Lemma scan_pair ts tok st qd q c more :
  scan (mkScan ts tok st false qd q) (BACKSLASH :: c :: more) = scan (mkScan ts (tok ++ [c]) true false qd q) more.
Proof. done. Qed.
Lemma scan_plain ts tok st q c more : c <> q -> c <> BACKSLASH ->
  scan (mkScan ts tok st false true q) (c :: more) = scan (mkScan ts (tok ++ [c]) true false true q) more.
Proof.
  intros Hq Hb. cbn [foldl]. f_equal. unfold scan_character. cbn [escaped quoted quote_character].
  by rewrite (proj2 (Z.eqb_neq c BACKSLASH)), (proj2 (Z.eqb_neq c q)).
Qed.
Lemma scan_quoted q w ts tok : q <> BACKSLASH -> forall more,
  scan (mkScan ts tok true false true q) (concat (escape q <$> w) ++ more) = scan (mkScan ts (tok ++ w) true false true q) more.
Proof.
  intros Hq. revert tok. induction w as [|c w IH]; intros tok more; [by rewrite app_nil_r|]. cbn [fmap list_fmap concat].
  rewrite <- (app_assoc (escape q c)). replace (tok ++ c :: w) with ((tok ++ [c]) ++ w) by by rewrite <- app_assoc.
  rewrite <- IH. unfold escape. destruct (Z.eqb_spec c q) as [->|Hc]; cbn [orb app]; [apply scan_pair|].
  destruct (Z.eqb_spec c BACKSLASH) as [->|Hb]; cbn [app]; [apply scan_pair|by apply scan_plain].
Qed.
Lemma scan_escaped w ts tok st : forall more q, w <> [] ->
  scan (mkScan ts tok st false false q) (concat ((fun c => [BACKSLASH; c]) <$> w) ++ more) = scan (mkScan ts (tok ++ w) true false false q) more.
Proof.
  revert tok st. induction w as [|c w IH]; intros tok st more q Hw; [done|]. cbn [fmap list_fmap concat].
  rewrite <- (app_assoc [BACKSLASH; c]). cbn [app]. rewrite scan_pair. destruct w as [|d w]; [done|].
  rewrite IH by done. by rewrite <- app_assoc.
Qed.
Lemma scan_token_ok st w ts q more : printable_token st w -> exists q',
  scan (mkScan ts [] false false false q) (print_token st w ++ more) = scan (mkScan ts w true false false q') more.
Proof.
  intros Hp. destruct st.
  3: { exists q. unfold print_token. rewrite scan_escaped by by apply Hp. done. }
  - exists 39. unfold print_token. cbn [app quote_of]. rewrite <- app_assoc.
    change (scan (mkScan ts [] true false true 39) (concat (escape 39 <$> w) ++ [39] ++ more) = scan (mkScan ts w true false false 39) more).
    by rewrite scan_quoted.
  - exists 34. unfold print_token. cbn [app quote_of]. rewrite <- app_assoc.
    change (scan (mkScan ts [] true false true 34) (concat (escape 34 <$> w) ++ [34] ++ more) = scan (mkScan ts w true false false 34) more).
    by rewrite scan_quoted.
Qed.
Lemma scan_blank gap ts q more : blank gap -> scan (mkScan ts [] false false false q) (gap ++ more) = scan (mkScan ts [] false false false q) more.
Proof.
  induction gap as [|c gap IH]; intros Hb; [done|]. apply Forall_cons_1 in Hb as [Hc Hb]. cbn [app foldl].
  rewrite <- (IH Hb). f_equal. unfold scan_character. cbn [escaped quoted token_started].
  unfold shell_character_is_whitespace in Hc. destruct (Z.eqb_spec c BACKSLASH) as [->|]; [done|].
  destruct (shell_character_is_quote c) eqn:Hq; [|unfold shell_character_is_whitespace; by rewrite Hc].
  unfold shell_character_is_quote in Hq. lia.
Qed.
(** A blank after a token ends it. *)
Lemma scan_gap gap ts w q more : blank gap -> gap <> [] ->
  scan (mkScan ts w true false false q) (gap ++ more) = scan (mkScan (ts ++ [w]) [] false false false q) more.
Proof.
  destruct gap as [|c gap]; intros Hb Hne; [done|]. apply Forall_cons_1 in Hb as [Hc Hb]. cbn [app foldl].
  rewrite <- (scan_blank gap (ts ++ [w]) q more Hb). f_equal. unfold scan_character. cbn [escaped quoted token_started scan_tokens scan_token quote_character].
  unfold shell_character_is_whitespace in Hc. destruct (Z.eqb_spec c BACKSLASH) as [->|]; [done|].
  destruct (shell_character_is_quote c) eqn:Hq; [|unfold shell_character_is_whitespace; by rewrite Hc].
  unfold shell_character_is_quote in Hq. lia.
Qed.
Lemma scan_line ws trail : blank trail -> forall ts w q, gaps_ok false ws -> exists s,
  scan (mkScan ts w true false false q) (print_line ws trail) = s /\
  quoted s = false /\ escaped s = false /\
  (if token_started s then scan_tokens s ++ [scan_token s] else scan_tokens s) = ts ++ w :: (snd <$> ws).
Proof.
  intros Ht. induction ws as [|[[gap st] w'] ws IH]; intros ts w q Hg; eexists; (split; [reflexivity|]).
  - cbn [print_line]. destruct trail as [|c trail]; [by cbn|]. rewrite <- (app_nil_r (c :: trail)), scan_gap by done. by cbn.
  - cbn [print_line gaps_ok] in *. destruct Hg as (Hb & Hne & Hp & Hg). rewrite scan_gap by auto.
    destruct (scan_token_ok st w' (ts ++ [w]) q (print_line ws trail) Hp) as [q' ->].
    destruct (IH (ts ++ [w]) w' q' Hg) as (s & -> & Hs). destruct Hs as (? & ? & Hs). split_and!; try done. by rewrite Hs, <- app_assoc.
Qed.

(** C38. The parser inverts the printer: a command line written with each token in quotes of either
    kind or with escapes, whatever characters the tokens hold, separated by any whitespace, is parsed
    as the command with exactly those tokens. *)
Theorem parse_printed_line gap st name ws trail : gaps_ok true ((gap, st, name) :: ws) -> blank trail ->
  parse (print_line ((gap, st, name) :: ws) trail) = COMMAND (mkCommand name (snd <$> ws)).
Proof.
  intros (Hb & _ & Hp & Hg) Ht. unfold parse. cbn [print_line]. rewrite scan_blank by done.
  destruct (scan_token_ok st name [] 0 (print_line ws trail) Hp) as [q ->].
  destruct (scan_line ws trail Ht [] name q Hg) as (s & -> & Hq & He & Hs). rewrite Hq, He. cbv zeta. by rewrite Hs.
Qed.
(** A token with a space and a double quote, an empty token, and a dash with a backslash. *)
Lemma parse_printed_line_witness :
  parse (print_line [([32; 32], DoubleQuotes, [97; 32; 34]); ([32], SingleQuotes, []); ([9], Escapes, [45; 92])] [13]) =
  COMMAND (mkCommand [97; 32; 34] [[]; [45; 92]]).
Proof.
  apply (parse_printed_line [32; 32] DoubleQuotes [97; 32; 34] [([32], SingleQuotes, []); ([9], Escapes, [45; 92])] [13]).
  - repeat split; try done; repeat (apply Forall_cons_2; [reflexivity|]); apply Forall_nil; exact I.
  - apply Forall_cons_2; [reflexivity|apply Forall_nil; exact I].
Defined.

(** ** Numbers and the options of [run] *)

Lemma text_cons c s : text (String c s) = Z.of_N (N_of_ascii c) :: text s.
Proof. done. Qed.
Lemma digit_char d : (d < 10)%N -> Z.of_N (N_of_ascii (pretty_N_char d)) = Z.of_N d + 48.
Proof. intros Hd. assert (d = 0 \/ d = 1 \/ d = 2 \/ d = 3 \/ d = 4 \/ d = 5 \/ d = 6 \/ d = 7 \/ d = 8 \/ d = 9)%N as Hc by lia.
  destruct_or! Hc; by subst.
Qed.
Abbreviation digits_from := (foldl (fun v d => v * 10 + (d - 48))).
Lemma pretty_go_digits x : forall s, forallb is_digit (text s) = true ->
  forallb is_digit (text (pretty_N_go x s)) = true /\ digits_from 0 (text (pretty_N_go x s)) = digits_from (Z.of_N x) (text s).
Proof.
  induction x as [x IH] using (well_founded_induction N.lt_wf_0); intros s Hs. destruct (decide (0 < x)%N) as [Hx|Hx].
  - rewrite pretty_N_go_step by done. assert (Hlt : (x / 10 < x)%N) by (apply N.div_lt; lia). pose proof (N.mod_lt x 10 ltac:(lia)).
    assert (Hc : Z.of_N (N_of_ascii (pretty_N_char (x `mod` 10))) = Z.of_N (x `mod` 10) + 48) by by apply digit_char.
    destruct (IH (x / 10)%N Hlt (String (pretty_N_char (x `mod` 10)) s)) as [Hd Hv].
    { rewrite text_cons, Hc. cbn [forallb]. rewrite Hs. unfold is_digit. rewrite !andb_true_iff, !Z.leb_le. set (m := (x `mod` 10)%N) in *. lia. }
    assert (He : Z.of_N (x / 10) * 10 + (Z.of_N (x `mod` 10) + 48 - 48) = Z.of_N x).
    { rewrite N2Z.inj_div, N2Z.inj_mod. pose proof (Z.div_mod (Z.of_N x) 10 ltac:(lia)). lia. }
    split; [done|]. rewrite Hv, text_cons, Hc. cbn [foldl]. by rewrite He.
  - assert (x = 0%N) as -> by lia. by rewrite pretty_N_go_0.
Qed.
Lemma take_digits_all s : forallb is_digit s = true -> take_digits s = (s, []).
Proof. induction s as [|c s IH]; [done|]. cbn. intros [Hc Hs]%andb_true_iff. by rewrite Hc, IH. Qed.
Lemma to_string_digits n : 0 < n -> forallb is_digit (to_string n) = true /\ digits_value (to_string n) = n /\ to_string n <> [].
Proof.
  intros Hn. assert (Hs : to_string n = text (pretty_N_go (Z.to_N n) EmptyString)).
  { unfold to_string. by destruct n as [|p|p]. }
  destruct (pretty_go_digits (Z.to_N n) EmptyString eq_refl) as [Hd Hv]. rewrite Hs. unfold digits_value. rewrite Hv.
  split; [exact Hd|]. split; [apply Z2N.id; lia|]. intros He. rewrite He in Hv. cbn [foldl text] in Hv.
  change (0 = Z.of_N (Z.to_N n)) in Hv. lia.
Qed.
Lemma parse_max_steps_printed n : 0 < n < W64 -> shell_parse_max_steps (to_string n) = Some n.
Proof.
  intros Hn. destruct (to_string_digits n) as (Hd & Hv & Hne); [lia|]. unfold shell_parse_max_steps, from_chars.
  rewrite take_digits_all, Hv by done. rewrite bool_decide_false by done. cbn [orb]. rewrite (proj2 (Z.ltb_ge _ _)) by lia.
  cbn [negb]. rewrite bool_decide_true by done. cbn [negb orb]. by rewrite (proj2 (Z.eqb_neq n 0)) by lia.
Qed.
(** Arguments after the terminator are taken as they are. *)
Lemma parse_plain_arguments args : forall fuel r, (length args <= fuel)%nat ->
  parse_run_arguments fuel false args r = READY (mkRunRequest (run_path r) (run_arguments r ++ args) (max_steps r)).
Proof.
  induction args as [|a args IH]; intros fuel r Hf; destruct fuel as [|fuel]; cbn [length] in *; try lia; cbn [parse_run_arguments andb].
  1,2: rewrite app_nil_r; by destruct r.
  rewrite IH by lia. cbn [run_path run_arguments max_steps]. by rewrite <- app_assoc.
Qed.

(** The two ways of writing the option. *)
Definition steps_option (glued : bool) (n : Z) : list (list Z) :=
  if glued then [MAX_STEPS_OPTION ++ [OPTION_VALUE_SEPARATOR] ++ to_string n] else [MAX_STEPS_OPTION; to_string n].
Lemma starts_with_app a b : starts_with a (a ++ b) = true.
Proof. induction a as [|c a IH]; [done|]. cbn. by rewrite Z.eqb_refl, IH. Qed.
Lemma parse_steps_option glued n rest fuel r : 0 < n < W64 ->
  parse_run_arguments (S fuel) true (steps_option glued n ++ rest) r =
  parse_run_arguments fuel true rest (mkRunRequest (run_path r) (run_arguments r) n).
Proof.
  intros Hn. destruct glued; cbn [steps_option app parse_run_arguments andb].
  - set (token := MAX_STEPS_OPTION ++ _). assert (Ht : token = (MAX_STEPS_OPTION ++ [OPTION_VALUE_SEPARATOR]) ++ to_string n) by by rewrite <- app_assoc.
    assert (H61 : token !! 11%nat = Some 61) by done.
    rewrite !bool_decide_false by (intros E; rewrite E in H61; done).
    unfold shell_token_is_max_steps_option, shell_parse_max_steps_option. rewrite bool_decide_false by (intros E; rewrite E in H61; done).
    rewrite Ht, starts_with_app. cbn [orb]. change (length MAX_STEPS_OPTION + 1)%nat with (length (MAX_STEPS_OPTION ++ [OPTION_VALUE_SEPARATOR])).
    rewrite drop_app_length, parse_max_steps_printed by done. done.
  - rewrite bool_decide_false by done. unfold shell_token_is_max_steps_option, shell_parse_max_steps_option.
    rewrite !bool_decide_true by done. cbn [orb]. by rewrite parse_max_steps_printed.
Qed.

(** A request to run a program is read back as it was written: a path, the limit of steps in
    either form, and after the terminator the arguments of the program, which may look like options;
    the path is the first argument of the program. *)
Theorem run_request_read_back name path glued n args : 0 < n < W64 ->
  shell_parse_run_request (mkCommand name (path :: steps_option glued n ++ OPTION_TERMINATOR :: args)) =
  READY (mkRunRequest path (path :: args) n).
Proof.
  intros Hn. unfold shell_parse_run_request. cbn [command_arguments]. set (rest := steps_option glued n ++ _).
  assert (Hp : parse_run_arguments (length rest) true rest (mkRunRequest path [path] KERNEL_USER_EXEC_DEFAULT_MAX_STEPS) =
    READY (mkRunRequest path (path :: args) n)).
  { assert (Hl : exists m, length rest = S (S m) /\ (length args <= m)%nat).
    { unfold rest. destruct glued; cbn [steps_option app length]; eexists; split; try reflexivity; lia. }
    destruct Hl as (m & -> & Hm). unfold rest. rewrite parse_steps_option by done. cbn [parse_run_arguments andb].
    rewrite bool_decide_true by done. rewrite parse_plain_arguments by done. done. }
  assert (H2 : (2 <= length rest)%nat) by (unfold rest; destruct glued; cbn [steps_option app length]; lia).
  destruct rest as [|a [|b rest]]; cbn [length] in H2; [lia|lia|exact Hp].
Qed.
Lemma run_request_read_back_witness :
  shell_parse_run_request (mkCommand (text "run") ([text "/bin/a"; text "--max-steps"; text "300"; text "--"; text "--max-steps=x"])) =
  READY (mkRunRequest (text "/bin/a") [text "/bin/a"; text "--max-steps=x"] 300).
Proof.
  apply (run_request_read_back (text "run") (text "/bin/a") false 300 [text "--max-steps=x"]). lia.
Defined.

(** ** The session *)

Section session.
Context {B D : Type} `{MemoryBus B} `{FlushStore D}.
Context (what : exn -> list Z) (processors : Z) (outside : list Z -> Z -> Z).
Implicit Types (k : Kernel B D) (s : ShellSession).
Abbreviation exec := (execute_line (B := B) (D := D) what processors outside).
Abbreviation step := (poll (B := B) (D := D) what processors outside).

Lemma line_break s : match next_line_break_index s with
  | Some i => pending_line s = take i (pending_line s) ++ [10] ++ drop (S i) (pending_line s) /\ 10 ∉ take i (pending_line s)
  | None => 10 ∉ pending_line s
  end.
Proof.
  unfold next_line_break_index. destruct (list_find _ (pending_line s)) as [[i c]|] eqn:E; cbn.
  - apply list_find_Some in E as (Hi & -> & Hbefore). split; [by rewrite take_drop_middle|].
    intros [j Hj]%list_elem_of_lookup. apply lookup_take_Some in Hj as [Hj Hlt]. by apply (Hbefore j 10).
  - apply list_find_None in E. rewrite Forall_forall in E. intros Hin. by apply (E 10).
Qed.
(** The line executed by a step, with its result. *)
Definition executes (line : list Z) s (s' : ShellSession) (k' : Kernel B D) (result : ShellCommandStatus) : Prop :=
  exists k, exec (strip_return line) (session_shell s, k) = ((session_shell s', k'), Ok result).
(** The bytes added by a step: none when a line is pending, else what a read returned. *)
Definition reads s (bytes : list Z) : Prop :=
  if decide (10 ∈ pending_line s) then bytes = []
  else bytes = [] \/ exists k k' result, read_fd (session_process s) (session_thread s) 0 SHELL_SESSION_READ_BUFFER_SIZE k = ((k' : Kernel B D), Ok (bytes, result)).
Definition same_owner s s' : Prop := session_process s' = session_process s /\ session_thread s' = session_thread s.

Lemma execute_ready s k s' k' r : execute_next_ready_line what processors outside (s, k) = ((s', k'), Ok r) ->
  same_owner s s' /\
  match r with
  | StepCommand result | StepExited (Some result) => exists line, pending_line s = line ++ [10] ++ pending_line s' /\ 10 ∉ line /\
      executes line s s' k' result /\ prompt_pending s' = shell_running (session_shell s') /\
      shell_running (session_shell s') = match r with StepCommand _ => true | _ => false end
  | StepPendingInput => s' = s /\ 10 ∉ pending_line s
  | _ => False
  end.
Proof.
  pose proof (line_break s) as Hl. unfold execute_next_ready_line, on_shell, on_session, zoom. munfold_goal. cbn [fst snd].
  destruct (next_line_break_index s) as [i|]; [|by intros [= <- <- <-]]. destruct Hl as [Hl Hn].
  cbn [fst snd]. destruct (exec (strip_return (take i (pending_line s))) (session_shell s, k)) as [[sh k1] [result|e]] eqn:E; [|done].
  cbn [fst snd session_shell session_process session_thread pending_line prompt_pending set_pending_line].
  destruct (shell_running sh) eqn:Er; cbn [negb]; intros [= <- <- <-]; (split; [done|]);
    exists (take i (pending_line s)); cbn [pending_line session_shell prompt_pending set_prompt_pending];
    (split; [exact Hl|]); (split; [exact Hn|]); (split; [by exists k|]); split; cbn; by rewrite ?Er.
Qed.
Lemma prompt_keeps s k s' k' e : write_prompt_if_needed (s, k) = ((s', k'), Ok e) ->
  same_owner s s' /\ pending_line s' = pending_line s /\ session_shell s' = session_shell s.
Proof.
  unfold write_prompt_if_needed, on_kernel, on_session, zoom. munfold_goal. cbn [fst snd].
  destruct (negb (prompt_pending s)); [by intros [= <- <- <-]|]. destruct (write_fd _ _ _ _) as [k1 [w|x]]; [|done].
  destruct (is_ready w); cbn [negb]; by intros [= <- <- <-].
Qed.

End session.

(** ** The process table *)

Section processes.
Context {B D : Type} `{MemoryBus B} `{FlushStore D}.
Context (what : exn -> list Z) (processors : Z) (outside : list Z -> Z -> Z).
Abbreviation same := (within (same_table (B := B) (D := D))).
#[local] Hint Resolve same_console_write same_vfs same_console : kernel.
Lemma same_handled (c : M (Kernel B D) unit) : same c -> same (and_handled c).
Proof. intros Hc. unfold and_handled. walk. Qed.
Lemma same_write t : same (shell_write t).
Proof. apply same_console_write. Qed.
Lemma same_shell_vfs {A} (c : FileSystem D -> M D A) : same (vfs c).
Proof. unfold vfs, require_stage15_services. walk. Qed.
#[local] Hint Resolve same_handled same_write same_shell_vfs : kernel.
Lemma same_path_failure path e c : path_failure path e = Some c -> same c.
Proof. destruct e; cbn; intros; simplify_eq; unfold invalid_path, shell_write_path_error; eauto with kernel. Qed.
Lemma same_write_failure path e c : Shell.write_failure path e = Some c -> same c.
Proof. destruct e; cbn; intros; simplify_eq; unfold invalid_path, no_space, not_found, shell_write_path_error; eauto with kernel. Qed.
#[local] Hint Resolve same_path_failure same_write_failure : kernel.
Ltac handlers :=
  unfold usage, not_found, invalid_path, not_a_directory, a_directory, no_space, shell_write_usage, shell_write_path_error,
    shell_write_unknown_command; walk.
Lemma same_with_file path rest : same rest -> same (with_file path rest).
Proof. intros Hr. unfold with_file. handlers. Qed.
#[local] Hint Resolve same_with_file : kernel.
Lemma same_get : same get.
Proof. intros k. reflexivity. Qed.
#[local] Hint Resolve same_get : kernel.
Lemma same_handler b context c : b <> Builtin.run -> same (handler what processors outside b context c).
Proof.
  destruct b; intros Hb; cbn [handler];
    first [done|unfold handle_help, handle_clear, handle_echo, handle_ps, handle_mem, require_stage5_services, handle_cpu, handle_ticks,
      handle_ls, handle_cat, handle_touch, handle_write, handle_stat, handle_exit; handlers].
Qed.
Lemma find_run name i : shell_find_builtin name = Some (i, Builtin.run) -> name = text "run".
Proof.
  unfold shell_find_builtin. intros [Hin Hn]%List.find_some. apply bool_decide_eq_true in Hn. subst name. revert Hin.
  unfold shell_builtin_catalog. cbn [In]. intros Hin. destruct_or? Hin; by simplify_eq.
Qed.

(** C40. The only shell command that can create, end or reap a process is [run]: any other line, well
    formed or not, and whatever happens while it is executed, leaves the process table as it was. *)
Theorem only_run_touches_processes line sh k sh' k' r :
  (forall c, parse line = COMMAND c -> command_name c <> text "run") ->
  execute_line what processors outside line (sh, k) = ((sh', k'), r) -> same_table (B := B) (D := D) k k'.
Proof.
  intros Hrun. unfold execute_line. assert (Hk : forall A (c : M (Kernel B D) A), same c -> same_table k (fst (c k))) by (intros A c Hc; apply Hc).
  destruct (parse line) as [c| |] eqn:Ep.
  - specialize (Hrun c eq_refl). unfold on_kernel, zoom. munfold_goal. cbn [fst snd].
    assert (He : same (execute what processors outside c (shell_context sh))).
    { unfold execute. destruct (shell_find_builtin (command_name c)) as [[i b]|] eqn:Ef; [|handlers].
      apply same_handler. intros ->. by apply Hrun, (find_run _ i). }
    specialize (Hk _ _ He). destruct (execute _ _ _ c (shell_context sh) k) as [k1 [st|e]]; cbn [fst] in Hk; [|by intros [= <- <- <-]].
    destruct (bool_decide _); by intros [= <- <- <-].
  - by intros [= <- <- <-].
  - unfold on_kernel, zoom. munfold_goal. cbn [fst snd]. specialize (Hk _ _ (same_write (text "parse error: unterminated quote" ++ NEWLINE))).
    destruct (shell_write _ k) as [k1 [[]|e]]; by intros [= <- <- <-].
Qed.
End processes.

(** ** A kernel with a terminal and a small file system *)

Definition sample_console : Console :=
  make_console (mkTerminal (mkDisplay 8 2 0 0 0 (replicate 16 (mkCell 32 7))) (mkKeyboard 8 []) []).
Definition shell_kernel : Kernel PhysicalMemory (BufferCache * MemoryBlockDevice) :=
  set_k_console sample_console (set_k_store (Some demo_mounted) (set_k_file_system (Some demo_layout) sample_kernel)).
Definition run_lines (lines : list (list Z)) : list (res ShellCommandStatus) * list Z :=
  let '((_, k), rs) := serve_all (execute_line (fun _ => []) 1 (fun _ _ => 0)) lines (mkShell None true, shell_kernel) in
  (rs, output_stream (terminal (k_console k))).
(** The help text and the usage say that [write] replaces the contents of a file; it appends. *)
Lemma write_appends :
  run_lines [text "write /a x"; text "write /a y"; text "cat /a"] =
  ([Ok Command.HANDLED; Ok Command.HANDLED; Ok Command.HANDLED], [120; 10; 121; 10]).
Proof. vm_compute. reflexivity. Qed.

Lemma only_run_touches_processes_witness : exists s' k',
  execute_line (fun _ => []) 1 (fun _ _ => 0) (text "mem 'x") (mkShell None true, shell_kernel) = ((s', k'), Ok Command.PARSE_ERROR) /\
  same_table shell_kernel k'.
Proof.
  assert (E : snd (execute_line (fun _ => []) 1 (fun _ _ => 0) (text "mem 'x") (mkShell None true, shell_kernel)) = Ok Command.PARSE_ERROR)
    by (vm_compute; reflexivity).
  destruct (execute_line _ _ _ _ _) as [[s' k'] r] eqn:Er. cbn [snd] in E. subst r. exists s', k'. split; [reflexivity|].
  refine (only_run_touches_processes (fun _ => []) 1 (fun _ _ => 0) (text "mem 'x") (mkShell None true) shell_kernel s' k' _ _ Er).
  intros c. vm_compute. discriminate.
Defined.
Definition sample_session : ShellSession := mkSession 0%nat 5 (mkShell None true) (text "echo hi" ++ [13; 10; 112]) false.
