(* ===== verification/Launch.v ===== *)
(** * Starting a user process

    Theorems on [Kernel::create_user_process] of src/os/kernel/kernel.cpp: the page-table arena, the
    process, its memory and its first thread, made one after the other from a kernel with resources
    enough. *)

From S2P Require Import Prelude Logic Common PhysicalMemory MemoryBus Paging PageTable Page PageAlloc BlockDevice BufferCache Terminal Instruction CpuState Thread RoundRobin Apic AddressSpace Futex FileDescriptor PageFaultHandler UserProgram UserLoader Process Kernel KernelProcesses KernelBoot.

Section launch.
Context {B D : Type} `{MemoryBusLaws B} `{FlushStore D}.
Abbreviation K := (Kernel B D).
Implicit Types (k : K) (m : PageMap) (T : gmap Z (PageTableLevel * Z)) (al : PhysicalPageAllocator).

(** The arena of a process: sixteen pages from page [start] on, the first of them the root table. *)
Definition arena_space (start : Z) : AddressSpace := mkSpace (start * 4096) (start * 4096 + 4096) (start * 4096 + 4096) ((start + 16) * 4096).
(** There is a free run for an arena in the memory of the machine. *)
Record arena_available k al : Prop := {
  av_bus : bus_ok (k_bus k);
  av_size : bus_size (k_bus k) <= 2 ^ 52;
  av_allocator : k_allocator k = Some al;
  av_pages : alloc_wf al;
  av_memory : total_page_count al * 4096 <= bus_size (k_bus k);
  av_run : exists start, free_run al start 16;
}.
(** What a kernel needs to start a process, its memory apart: ids, a stack and known threads. *)
Record launchable k al : Prop := {
  lc_ready : ready k = true;
  lc_process_id : 1 <= k_next_pid k <= PROCESS_CONTEXT_ID_MAX_VALUE;
  lc_thread_id : 1 <= k_next_tid k < W64;
  lc_stack : exists top, checked_stack_top (k_next_stack k) THREAD_CONTEXT_DEFAULT_KERNEL_STACK_SIZE_BYTES = Ok top;
  lc_arena : arena_available k al;
  lc_queue t : t ∈ ready_queue (k_scheduler k) -> is_Some (k_threads k !! t);
  lc_current t : current_thread (k_scheduler k) = Some t -> is_Some (k_threads k !! t);
}.

Lemma space_created k al : arena_available k al -> exists al' b start,
  create_address_space KERNEL_DEFAULT_TABLE_ARENA_PAGE_COUNT k = (set_k_bus b (set_k_allocator (Some al') k), Ok (arena_space start)) /\
  bus_size b = bus_size (k_bus k) /\ free_page_count al' = free_page_count al - 16 /\
  shows {[start * 4096 := (Level.PML4, 0)]} ∅ (mkLoader al' (arena_space start) b) (fun _ => None) /\
  room 15 (builder_of (arena_space start)) b.
Proof.
  intros [Hok H52 Hal Hwf Hmem [s0 Hrun0]]. pose proof (aw_total al Hwf).
  assert (Hs0 : 0 <= s0 /\ s0 + 16 <= total_page_count al) by (pose proof (proj1 (Hrun0 s0 ltac:(lia))); pose proof (proj1 (Hrun0 (s0 + 15) ltac:(lia))); lia).
  pose proof (free_run_count al s0 16 Hwf ltac:(lia) ltac:(lia) ltac:(lia) Hrun0) as Hcount.
  destruct (allocate_contiguous 16 al) as [al' r] eqn:E. destruct (allocate_contiguous_first_fit al 16 al' r Hwf ltac:(lia) E) as (Hwf' & [Htot _] & Hr).
  destruct r as [addr|e].
  2: { exfalso. destruct Hr as [_ [[_ ?]|[_ Hb]]]; [done|]. destruct (Hb s0) as (i & Hi & Hn); [by apply (is_free_first _ _ Hwf), Hrun0; lia|lia|]. by destruct (Hn (Hrun0 i Hi)). }
  destruct Hr as (start & -> & _ & Hrun & _ & Hfree & Hcnt).
  assert (Hst : 0 <= start /\ start + 16 <= total_page_count al) by (pose proof (proj1 (Hrun start ltac:(lia))); pose proof (proj1 (Hrun (start + 15) ltac:(lia))); lia).
  destruct (make_space_represents (k_bus k) (start * 4096) (start * 4096 + 4096) ((start + 16) * 4096)) as (b & Hs & Hbs & Hrep & _);
    try done; try lia; try (by apply Z.mod_mul); [by replace (start * 4096 + 4096) with ((start + 1) * 4096) by lia; apply Z.mod_mul|].
  exists al', b, start. unfold arena_space. split_and!; [|done|done| |].
  - unfold create_address_space, value, on_pages, on_optional, on_bus, zoom. munfold_goal. rewrite Hal.
    change KERNEL_DEFAULT_TABLE_ARENA_PAGE_COUNT with 16. replace (if 16 <? free_page_count al then 16 else free_page_count al) with 16
      by (destruct (Z.ltb_spec 16 (free_page_count al)); lia). cbn [Z.eqb]. cbv beta iota. rewrite E. rewrite Page.page_size_bytes.
    unfold mul64. change (wrap64 (16 * 4096)) with 65536. rewrite !add64_small by (unfold u64; lia). cbn [k_bus set_k_allocator].
    replace (start * 4096 + 65536) with ((start + 16) * 4096) by lia. by rewrite Hs.
  - split; [split; cbn [ld_allocator ld_space ld_bus arena_space space_next space_end]|].
    + exact Hrep.
    + exact Hwf'.
    + by rewrite Htot, Hbs.
    + intros ta [x Hx] Hf. apply lookup_singleton_Some in Hx as [<- _]. rewrite Z.div_mul in Hf by lia. apply Hfree in Hf as [_ Hf]. apply Hf. lia.
    + intros i Hi Hf. apply Hfree in Hf as [_ Hf]. apply Hf. lia.
    + intros x pa p Hx. by rewrite lookup_empty in Hx.
    + intros x x' pa p p' Hx. by rewrite lookup_empty in Hx.
    + intros x Hx. unfold user_page. by rewrite lookup_empty.
  - unfold room, arena_limit, arena_space. cbn. destruct (Z.eqb_spec ((start + 16) * 4096) 0); lia.
Qed.
Lemma process_made id parent space o : 1 <= id -> exists o' files,
  make_process id parent space o = (o', Ok (mkProcess id parent PState.RUNNING 0 space files [])).
Proof.
  intros Hid. unfold make_process, make_table, make_tty_entry. munfold_goal. cbn [negb]. unfold process_id_is_valid.
  rewrite (proj2 (Z.eqb_neq id _)) by (unfold PROCESS_ID_INVALID_VALUE; lia). by do 2 eexists.
Qed.
Lemma process_created k al parent : launchable k al -> exists k' al' start files, let pr := mkProcess (k_next_pid k) parent PState.RUNNING 0 (arena_space start) files [] in
  create_process_with_parent parent k = (k', Ok (length (k_processes k))) /\ ready k' = true /\
  k_processes k' = k_processes k ++ [pr] /\ k_allocator k' = Some al' /\ bus_size (k_bus k') = bus_size (k_bus k) /\
  free_page_count al' = free_page_count al - 16 /\ shows {[start * 4096 := (Level.PML4, 0)]} ∅ (mkLoader al' (arena_space start) (k_bus k')) (fun _ => None) /\
  room 15 (builder_of (arena_space start)) (k_bus k') /\ k_threads k' = k_threads k /\ k_scheduler k' = k_scheduler k /\
  k_wait_entries k' = k_wait_entries k /\ k_next_tid k' = k_next_tid k /\ k_next_stack k' = k_next_stack k /\
  k_store k' = k_store k /\ k_file_system k' = k_file_system k.
Proof.
  intros Hl. set (k1 := set_k_next_pid (wrap64 (k_next_pid k + 1)) k).
  destruct Hl as [Hr Hpid _ _ Hav _ _]. assert (Hav1 : arena_available k1 al) by by destruct Hav.
  destruct (space_created k1 al Hav1) as (al' & b & start & E1 & Hbs & Hfree & Hsh & Hroom).
  destruct (process_made (k_next_pid k) parent (arena_space start) (k_open_files (set_k_bus b (set_k_allocator (Some al') k1))) ltac:(lia)) as (o & files & Em).
  eexists _, al', start, files. cbn zeta. split.
  { unfold create_process_with_parent, take_process_id, zoom. munfold_goal. rewrite require5_ready by done. fold k1. rewrite E1.
    rewrite Em. reflexivity. }
  split_and!; try done. unfold ready, has_stage9_services, has_stage7_services, has_stage5_services in *. rewrite (av_allocator _ _ Hav) in Hr. exact Hr.
Qed.

(** The core of a thread before its first instruction. *)
Definition entry_cpu (entry sp : Z) (ps : PagingState) : CpuState := set_rip entry (set_level Ring.RING3 (set_paging ps (put_reg Reg.RSP sp make_cpu_state))).
Lemma user_thread_initialised image id s th : 1 <= id <= PROCESS_CONTEXT_ID_MAX_VALUE -> space_root s `mod` 4096 = 0 -> exists ps,
  initialize_user_thread image id s th =
    (set_last_trap_frame None (set_thread_cpu (entry_cpu (image_entry_point image) (initial_stack_pointer image) ps) th), Ok tt) /\
  cr3 ps = space_root s /\ process_context_id ps = id /\ paging_enabled ps = true /\ execute_disable_enabled ps = true.
Proof.
  intros Hid Hroot. unfold initialize_user_thread, activate_context, process_context_id_for, load_cr3, set_privilege_level, on_threads, zoom. munfold_goal.
  rewrite (proj2 (Z.ltb_ge _ _)) by lia. rewrite (proj2 (Z.eqb_neq id 0)) by lia. cbn [negb is_privilege_level_valid].
  change PAGE_SIZE_4K_BYTES with (Z.shiftl 1 12). rewrite is_aligned_spec by lia. change (2 ^ 12) with 4096. rewrite Hroot.
  unfold is_process_context_id_valid. rewrite (proj2 (Z.leb_le _ _)) by lia. cbn.
  eexists. split; [reflexivity|]. done.
Qed.
Lemma user_thread_created k p pr image : ready k = true -> k_processes k !! p = Some pr -> is_running pr = true -> pr_threads pr = [] ->
  1 <= pr_id pr <= PROCESS_CONTEXT_ID_MAX_VALUE -> 1 <= k_next_tid k < W64 ->
  (exists top, checked_stack_top (k_next_stack k) THREAD_CONTEXT_DEFAULT_KERNEL_STACK_SIZE_BYTES = Ok top) ->
  space_root (pr_space pr) `mod` 4096 = 0 -> (forall t, t ∈ ready_queue (k_scheduler k) -> is_Some (k_threads k !! t)) ->
  (forall t, current_thread (k_scheduler k) = Some t -> is_Some (k_threads k !! t)) ->
  exists k' th ps, let t := new_ref (k_threads k) in
  create_user_thread p image k = (k', Ok t) /\ ready k' = true /\ k_processes k' = <[p := set_pr_threads [t] pr]> (k_processes k) /\
  k_threads k' = <[t := th]> (k_threads k) /\ thread_id th = k_next_tid k /\ thread_state th = TState.READY /\
  thread_cpu_state th = entry_cpu (image_entry_point image) (initial_stack_pointer image) ps /\
  cr3 ps = space_root (pr_space pr) /\ process_context_id ps = pr_id pr /\ paging_enabled ps = true /\ execute_disable_enabled ps = true /\
  k_scheduler k' = mkRoundRobin (ready_queue (k_scheduler k) ++ [t]) (current_thread (k_scheduler k)) /\
  k_bus k' = k_bus k /\ k_allocator k' = k_allocator k /\ k_wait_entries k' = k_wait_entries k /\
  k_store k' = k_store k /\ k_file_system k' = k_file_system k.
Proof.
  intros Hr Hp Hrun Hts Hid Htid [top Htop] Hroot Hq Hc. set (t := new_ref (k_threads k)).
  assert (Hfresh : k_threads k !! t = None) by apply new_ref_fresh.
  assert (Hth : make_thread (k_next_tid k) (k_next_stack k) THREAD_CONTEXT_DEFAULT_KERNEL_STACK_SIZE_BYTES =
    Ok (initialize_cpu_stack_pointer (mkThread (k_next_tid k) TState.READY make_cpu_state (k_next_stack k) top THREAD_CONTEXT_DEFAULT_KERNEL_STACK_SIZE_BYTES None))).
  { unfold make_thread. rewrite Htop. cbn. unfold thread_id_is_valid. by rewrite (proj2 (Z.eqb_neq _ _)) by (unfold THREAD_ID_INVALID_VALUE; lia). }
  set (th0 := initialize_cpu_stack_pointer _) in Hth.
  destruct (user_thread_initialised image (pr_id pr) (pr_space pr) th0 Hid Hroot) as (ps & Ei & Hcr & Hpcid & Hpg & Hnx).
  set (th := set_last_trap_frame None (set_thread_cpu (entry_cpu (image_entry_point image) (initial_stack_pointer image) ps) th0)) in Ei.
  eexists _, th, ps. cbn zeta. split.
  { unfold create_user_thread, take_thread_id, next_kernel_stack_bottom, create_process_thread, on_thread, on_scheduler, on_threads_and, zoom. munfold_goal.
    rewrite require9_ready by done. cbn [k_processes set_k_next_tid set_k_next_stack]. rewrite Hp. cbn [k_next_stack set_k_next_tid k_threads set_k_next_stack].
    pose proof (create_thread_spec (k_next_tid k) (k_next_stack k) THREAD_CONTEXT_DEFAULT_KERNEL_STACK_SIZE_BYTES (k_threads k) pr) as Hct.
    rewrite Hth, Hrun in Hct. unfold contains_thread_id in Hct. rewrite Hts in Hct. cbn [existsb andb negb app] in Hct. rewrite Hct. fold t.
    unfold process_of. cbn [k_processes set_k_threads set_k_processes]. rewrite list_lookup_insert_eq by by eapply lookup_lt_Some.
    cbn [k_threads set_k_threads]. rewrite lookup_insert_eq. cbn [pr_id pr_space set_pr_threads]. rewrite Ei. rewrite insert_insert_eq.
    cbn [k_threads set_k_threads k_scheduler set_k_processes set_k_next_stack set_k_next_tid]. rewrite RoundRobin.enqueue_eq.
    unfold alive, state_of. rewrite lookup_insert_eq. cbn [thread_state th set_last_trap_frame set_thread_cpu th0 initialize_cpu_stack_pointer].
    rewrite bool_decide_false by done. cbn [negb orb]. unfold RoundRobin.contains. rewrite bool_decide_false, bool_decide_false.
    2: { intros Hin%Hq. rewrite Hfresh in Hin. by destruct Hin. } 2: { intros Hcur%Hc. rewrite Hfresh in Hcur. by destruct Hcur. }
    cbn [orb]. unfold store_state. rewrite alter_insert_eq. reflexivity. }
  split_and!; done.
Qed.

(** ** The whole of it *)

(** What a program and its arguments have to be, and the memory they take. *)
Record startable (program : UserProgram) (a : UserProgramArguments) al : Prop := {
  sb_wf : program_wf program;
  sb_stack : u64 (initial_stack_size_bytes program);
  sb_entry : entry_point_is_executable program = true;
  sb_bytes : Forall (fun s => Forall (fun v => 0 <= v < 256) (segment_bytes s)) (segments program);
  sb_arguments : strings_ok (arguments a);
  sb_environment : strings_ok (environment a);
  sb_pages : 16 + pages_needed program <= free_page_count al;
  sb_tables : tables_needed program <= 15;
}.
(** The kernel [k'] after [k] has loaded a program into a new process [pr], which has no thread yet. *)
Record loaded_into k k' (parent : Z) (pr : Process) : Prop := {
  li_ready : ready k' = true;
  li_table : k_processes k' = k_processes k ++ [pr];
  li_id : pr_id pr = k_next_pid k;
  li_parent : pr_parent pr = parent;
  li_running : is_running pr = true;
  li_threads : pr_threads pr = [];
  li_store : k_threads k' = k_threads k;
  li_scheduler : k_scheduler k' = k_scheduler k;
  li_waiting : k_wait_entries k' = k_wait_entries k;
  li_next_thread : k_next_tid k' = k_next_tid k;
  li_next_stack : k_next_stack k' = k_next_stack k;
  li_disk : k_store k' = k_store k /\ k_file_system k' = k_file_system k;
}.
Lemma process_loaded program parent a k al : launchable k al -> startable program a al ->
  exists k1 k2 al' pr r, create_process_with_parent parent k = (k1, Ok (length (k_processes k))) /\
    load_user_program (length (k_processes k)) program a k1 = (k2, r) /\ loaded_into k k2 parent pr /\
    k_allocator k2 = Some al' /\ free_page_count al' = free_page_count al - 16 - pages_needed program /\
    let bottom := ADDRESS_LAYOUT_USER_STACK_TOP - initial_stack_size_bytes program in
    if decide (bottom <= frame_start_of a) then
      r = Ok (mkProcessImage (entry_point program) bottom (frame_start_of a) (pages_needed program)) /\
      exists T m, shows T m (mkLoader al' (pr_space pr) (k_bus k2)) (loaded_memory program a (fun _ => None))
    else r = Throw length_error.
Proof.
  intros Hl [Hwf Hst Hen Hby Ha He Hpg Htb].
  destruct (process_created k al parent Hl) as (k1 & al1 & start & files & E1 & Hr1 & Hp1 & Hal1 & Hbs1 & Hf1 & Hsh1 & Hroom1 & Hts1 & Hsc1 & Hw1 & Ht1 & Hs1 & Hd1 & Hfs1).
  set (pr1 := mkProcess _ _ _ _ _ _ _) in Hp1. set (p := length (k_processes k)) in *.
  assert (Hlook : k_processes k1 !! p = Some pr1) by (rewrite Hp1; by apply list_lookup_middle).
  assert (Hroom : room (tables_needed program) (builder_of (arena_space start)) (k_bus k1)) by (unfold room in *; lia).
  destruct (load_spec _ ∅ (mkLoader al1 (arena_space start) (k_bus k1)) (fun _ => None) program a Hwf Hst Hen Hby Ha He Hsh1) as (T & m & l & r & E & Hc & Hr);
    [cbn [ld_allocator]; lia|exact Hroom|]. cbn [ld_allocator] in Hc.
  exists k1. eexists _, (ld_allocator l), (set_pr_space (ld_space l) pr1), r. split; [exact E1|]. split.
  { unfold load_user_program, on_loader. munfold_goal. rewrite require9_ready by done. rewrite Hal1, Hlook. cbn [pr_space pr1]. rewrite E. reflexivity. }
  split.
  { split; try done.
    - unfold ready, has_stage9_services, has_stage7_services, has_stage5_services in *. cbn in *. by rewrite Hal1 in Hr1.
    - cbn [k_processes set_k_bus set_k_allocator set_k_processes]. rewrite Hp1. unfold p. by rewrite insert_app_r_alt, Nat.sub_diag by lia. }
  split; [done|]. split; [lia|]. cbn zeta in *. case_decide; [|exact Hr]. destruct Hr as [-> Hv]. split; [done|]. exists T, m. by destruct l.
Qed.

(** The kernel [k'] after [k] has started a program in the process [pr] with the thread [t]. *)
Record started_in k k' al' (program : UserProgram) (a : UserProgramArguments) (parent : Z) (pr : Process) (t : ThreadRef) (th : ThreadContext) (ps : PagingState) T m : Prop := {
  st_ready : ready k' = true;
  st_table : k_processes k' = k_processes k ++ [pr];
  st_id : pr_id pr = k_next_pid k;
  st_parent : pr_parent pr = parent;
  st_running : is_running pr = true;
  st_threads : pr_threads pr = [t];
  st_fresh : k_threads k !! t = None;
  st_store : k_threads k' = <[t := th]> (k_threads k);
  st_state : thread_state th = TState.READY;
  st_cpu : thread_cpu_state th = entry_cpu (entry_point program) (frame_start_of a) ps;
  st_paging : cr3 ps = space_root (pr_space pr) /\ process_context_id ps = pr_id pr /\ paging_enabled ps = true /\ execute_disable_enabled ps = true;
  st_scheduler : k_scheduler k' = mkRoundRobin (ready_queue (k_scheduler k) ++ [t]) (current_thread (k_scheduler k));
  st_waiting : k_wait_entries k' = k_wait_entries k;
  st_disk : k_store k' = k_store k /\ k_file_system k' = k_file_system k;
  st_allocator : k_allocator k' = Some al';
  st_memory : shows T m (mkLoader al' (pr_space pr) (k_bus k')) (loaded_memory program a (fun _ => None));
}.
Lemma process_started program parent a k al : launchable k al -> startable program a al ->
  ADDRESS_LAYOUT_USER_STACK_TOP - initial_stack_size_bytes program <= frame_start_of a ->
  exists k' al' pr t th ps T m, create_user_process_with_parent program parent a k = (k', Ok (length (k_processes k))) /\
    started_in k k' al' program a parent pr t th ps T m /\ free_page_count al' = free_page_count al - 16 - pages_needed program.
Proof.
  intros Hl Hs Hfit. destruct (process_loaded program parent a k al Hl Hs) as (k1 & k2 & al' & pr & r & E1 & E2 & Hli & Hal & Hc & Hr).
  cbn zeta in Hr. rewrite decide_True in Hr by done. destruct Hr as [-> (T & m & Hv)]. destruct Hl as [_ Hpid Htid Hstk _ Hq Hcur].
  destruct Hli as [Hr2 Hp2 Hid2 Hpar2 Hrun2 Hth2 Hts2 Hsc2 Hw2 Hnt2 Hns2 Hd2]. set (p := length (k_processes k)) in *.
  assert (Hlook : k_processes k2 !! p = Some pr) by (rewrite Hp2; by apply list_lookup_middle).
  destruct (user_thread_created k2 p pr (mkProcessImage (entry_point program) (ADDRESS_LAYOUT_USER_STACK_TOP - initial_stack_size_bytes program) (frame_start_of a) (pages_needed program)))
    as (k3 & th & ps & E3 & Hr3 & Hp3 & Hts3 & Htid3 & Hst3 & Hcpu3 & Hcr & Hpc & Hpg & Hnx & Hsc3 & Hb3 & Hal3 & Hw3 & Hd3 & Hf3); try done.
  { by rewrite Hid2. } { by rewrite Hnt2. } { by rewrite Hns2. } { destruct Hv as [[Hrep _ _ _ _ _ _] _]. apply (rep_root _ _ _ _ Hrep). }
  { rewrite Hsc2, Hts2. exact Hq. } { rewrite Hsc2, Hts2. exact Hcur. }
  set (t := new_ref (k_threads k2)) in *. cbn [image_entry_point initial_stack_pointer] in Hcpu3.
  exists k3, al', (set_pr_threads [t] pr), t, th, ps, T, m. split.
  { unfold create_user_process_with_parent. munfold_goal. rewrite E1, E2, E3. reflexivity. }
  split; [|done]. split; try done.
  - rewrite Hp3, Hp2. unfold p. by rewrite insert_app_r_alt, Nat.sub_diag by lia.
  - unfold t. rewrite Hts2. apply new_ref_fresh.
  - by rewrite Hts3, Hts2.
  - by rewrite Hsc3, Hsc2.
  - by rewrite Hw3.
  - by rewrite Hd3, Hf3.
  - by rewrite Hal3.
  - by rewrite Hb3.
Qed.
End launch.

(** A machine that has just booted can start a process, when its memory has the pages for an arena more. *)
Lemma booted_launchable {B} `{MemoryBusLaws B} (m : Machine B) al b s ap d : bus_ok b -> bus_size b = bus_size (machine_bus m) -> bus_size (machine_bus m) <= 2 ^ 52 ->
  0 <= machine_memory_size m <= bus_size (machine_bus m) -> alloc_wf al -> total_page_count al = machine_memory_size m / 4096 ->
  (forall i, PageAlloc.is_free al i <-> 1 + arena_pages m <= i < machine_memory_size m / 4096) -> 33 * 4096 <= machine_memory_size m ->
  launchable (booted_kernel m al b s ap d) al.
Proof.
  intros Hok Hbs H52 Hms Hwf Htot Hfree Hmem. pose proof (Z.div_mod (machine_memory_size m) 4096 ltac:(lia)). pose proof (Z.mod_pos_bound (machine_memory_size m) 4096 ltac:(lia)).
  assert (Ha : arena_pages m = 16) by (unfold arena_pages; change KERNEL_DEFAULT_TABLE_ARENA_PAGE_COUNT with 16; lia).
  split; [reflexivity|done|done|by eexists| | |].
  - split; [exact Hok|cbn; lia|reflexivity|exact Hwf|cbn [booted_kernel k_bus set_k_booted set_k_file_system set_k_store set_k_smp set_k_apic set_k_kernel_space set_k_bus]; lia|].
    exists 17. intros i Hi. apply Hfree. lia.
  - intros t Ht. by apply not_elem_of_nil in Ht.
  - intros t Ht. done.
Qed.

(** C?. Starting a user process: a kernel that has a free run of pages for the page tables, pages
    enough for the program and ids left appends one process to its table, with a space of its own in
    which it sees exactly the bytes and permissions of the loaded program, arguments and zeros, and
    one thread, new to the store of threads, at the end of the ready queue, in ring 3 at the entry
    point with the stack pointer at the arguments and paging on under the root of that space and the
    process' context id; the other threads and the file system are untouched and the pages taken are
    counted.  When the arguments do not fit the stack it raises a length error, and the new process
    stays in the table without a thread. *)
Theorem user_process_starts {B D} `{MemoryBusLaws B} `{FlushStore D} program parent a (k : Kernel B D) al : launchable k al -> startable program a al ->
  exists k' al' pr r, create_user_process_with_parent program parent a k = (k', r) /\ k_allocator k' = Some al' /\
    free_page_count al' = free_page_count al - 16 - pages_needed program /\ k_processes k' = k_processes k ++ [pr] /\
    if decide (ADDRESS_LAYOUT_USER_STACK_TOP - initial_stack_size_bytes program <= frame_start_of a) then
      r = Ok (length (k_processes k)) /\ exists t th ps T m, started_in k k' al' program a parent pr t th ps T m
    else r = Throw length_error /\ is_running pr = true /\ pr_threads pr = [] /\ k_threads k' = k_threads k.
Proof.
  intros Hl Hs. case_decide as Hfit.
  - destruct (process_started program parent a k al Hl Hs Hfit) as (k' & al' & pr & t & th & ps & T & m & E & Hst & Hc).
    exists k', al', pr, (Ok (length (k_processes k))). pose proof Hst as []. split_and!; try done. by exists t, th, ps, T, m.
  - destruct (process_loaded program parent a k al Hl Hs) as (k1 & k2 & al' & pr & r & E1 & E2 & [] & Hal & Hc & Hr).
    cbn zeta in Hr. rewrite decide_False in Hr by done. subst r. exists k2, al', pr, (Throw length_error). split_and!; try done.
    unfold create_user_process_with_parent. munfold_goal. by rewrite E1, E2.
Qed.
(** Sixty-four pages of memory. *)
Definition launch_machine : Machine PhysicalMemory :=
  mkPlatform (make_memory 0x40000) 0x40000 (mkTopology 1) (mkTerminal (mkDisplay 1 1 0 0 0 []) (mkKeyboard 0 []) []).
Lemma user_process_starts_witness : exists (k k' : Kernel PhysicalMemory _) al', boot (make_kernel launch_machine) = (k, Ok tt) /\
  create_user_process_with_parent demo_load_program 0 demo_load_arguments k = (k', Ok 0%nat) /\ k_allocator k' = Some al' /\ free_page_count al' = 29.
Proof.
  pose proof (zero_memory_size 0x40000 ltac:(lia)) as Hz.
  destruct (boot_run launch_machine) as (al & b & s & ap & d & T & Hrun & Hwf & Htot & Hfree & Hleft & Hbs & Hrep & _);
    [apply (zero_memory_ok 0x40000); lia|change (bus_size (make_memory 0x40000) <= 2 ^ 52); lia|change (2 * 4096 <= 0x40000 <= bus_size (make_memory 0x40000)); lia|done|].
  destruct (user_process_starts demo_load_program 0 demo_load_arguments (booted_kernel launch_machine al b s ap d) al) as (k' & al' & pr & r & E & Hal & Hc & _ & Hr).
  - apply booted_launchable; [by destruct Hrep as [[] _ _ _ _ _]|done|change (bus_size (make_memory 0x40000) <= 2 ^ 52); lia|
      change (0 <= 0x40000 <= bus_size (make_memory 0x40000)); lia|done|done|done|done].
  - split; [exact demo_load_program_wf|split; [discriminate|reflexivity]|reflexivity|repeat constructor; discriminate|
      split; repeat constructor; discriminate|split; repeat constructor; discriminate| |vm_compute; discriminate].
    rewrite Hfree. vm_compute. discriminate.
  - rewrite decide_True in Hr by (vm_compute; discriminate). destruct Hr as [-> _].
    exists (booted_kernel launch_machine al b s ap d), k', al'. split_and!; [exact Hrun|exact E|exact Hal|]. rewrite Hc, Hfree. reflexivity.
Defined.
