(* ===== verification/DemoProgram.v ===== *)
(** * The demo program

    Models src/host/demo_user_program.cpp: the bytes of an ELF file whose program exits with the code 42,
    and its installation in the file system of a kernel. *)

From Stdlib Require Import String.
From S2P Require Import Prelude Logic Common MemoryBus Paging Page BlockDevice FsFormat SimpleFs Vfs Instruction UserProgram Elf Kernel Syscall UserTrap Shell.

(** ** The bytes *)

Definition HOST_DEMO_BIN_DIRECTORY : list Z := text "/bin".
Definition HOST_DEMO_EXIT42_PATH : list Z := text "/bin/exit42".
Definition HOST_DEMO_EXIT42_CODE : Z := 42.
(** [SyscallNumber::EXIT] as an integer. *)
Definition SYSCALL_EXIT_NUMBER : Z := 1.
Definition HOST_DEMO_ELF64_HEADER_SIZE_BYTES : Z := 64.
Definition HOST_DEMO_ELF64_PROGRAM_HEADER_SIZE_BYTES : Z := 56.
Definition HOST_DEMO_ELF64_CODE_OFFSET : Z := HOST_DEMO_ELF64_HEADER_SIZE_BYTES + HOST_DEMO_ELF64_PROGRAM_HEADER_SIZE_BYTES.
Definition HOST_DEMO_ELF64_TEXT_BASE : Z := ADDRESS_LAYOUT_USER_TEXT_BASE.
(** [bytes[offset] = value]. *)
Definition put_byte (offset value : Z) (bytes : list Z) : list Z := <[Z.to_nat offset := Z.land value 0xFF]> bytes.
Definition write_le (byte_count : Z) (offset value : Z) (bytes : list Z) : list Z :=
  foldl (fun bytes byte_index => put_byte (offset + byte_index) (Z.shiftr value (byte_index * 8)) bytes) bytes
    (seqZ 0 byte_count).
(* [src/host/demo_user_program.cpp] [write_u16_le] *)
Definition write_u16_le (offset value : Z) (bytes : list Z) : list Z :=
  put_byte (offset + 1) (Z.shiftr value 8) (put_byte offset value bytes).
(* [src/host/demo_user_program.cpp] [write_u32_le] *)
Definition write_u32_le : Z -> Z -> list Z -> list Z := write_le 4.
(* [src/host/demo_user_program.cpp] [write_u64_le] *)
Definition write_u64_le : Z -> Z -> list Z -> list Z := write_le 8.
(* [src/host/demo_user_program.cpp] [append_u64_le] *)
Definition append_u64_le (bytes : list Z) (value : Z) : list Z :=
  bytes ++ ((fun byte_index => Z.land (Z.shiftr value (byte_index * 8)) 0xFF) <$> seqZ 0 8).
(** REX.W MOV RAX, EXIT; REX.W MOV RDI, 42; SYSCALL; HLT. *)
(* [src/host/demo_user_program.cpp] [make_exit42_code] *)
Definition make_exit42_code : list Z :=
  append_u64_le (append_u64_le [0x48; 0xB8] SYSCALL_EXIT_NUMBER ++ [0x48; 0xBF]) HOST_DEMO_EXIT42_CODE ++ [0x0F; 0x05; 0xF4].
(* [src/host/demo_user_program.cpp] [write_elf64_header] *)
Definition write_elf64_header (bytes : list Z) : list Z :=
  let bytes := put_byte 0 0x7F bytes in
  let bytes := put_byte 1 69 bytes in
  let bytes := put_byte 2 76 bytes in
  let bytes := put_byte 3 70 bytes in
  let bytes := put_byte 4 2 bytes in
  let bytes := put_byte 5 1 bytes in
  let bytes := put_byte 6 1 bytes in
  let bytes := write_u16_le 16 2 bytes in
  let bytes := write_u16_le 18 0x3E bytes in
  let bytes := write_u32_le 20 1 bytes in
  let bytes := write_u64_le 24 (HOST_DEMO_ELF64_TEXT_BASE + HOST_DEMO_ELF64_CODE_OFFSET) bytes in
  let bytes := write_u64_le 32 HOST_DEMO_ELF64_HEADER_SIZE_BYTES bytes in
  let bytes := write_u16_le 52 HOST_DEMO_ELF64_HEADER_SIZE_BYTES bytes in
  let bytes := write_u16_le 54 HOST_DEMO_ELF64_PROGRAM_HEADER_SIZE_BYTES bytes in
  write_u16_le 56 1 bytes.
(** The flags are read and execute. *)
(* [src/host/demo_user_program.cpp] [write_elf64_load_program_header] *)
Definition write_elf64_load_program_header (bytes : list Z) : list Z :=
  let base := HOST_DEMO_ELF64_HEADER_SIZE_BYTES in
  let size := lenZ bytes in
  let bytes := write_u32_le (base + 0) 1 bytes in
  let bytes := write_u32_le (base + 4) (Z.lor (Z.shiftl 1 2) (Z.shiftl 1 0)) bytes in
  let bytes := write_u64_le (base + 8) 0 bytes in
  let bytes := write_u64_le (base + 16) HOST_DEMO_ELF64_TEXT_BASE bytes in
  let bytes := write_u64_le (base + 32) size bytes in
  let bytes := write_u64_le (base + 40) size bytes in
  write_u64_le (base + 48) MM_PAGE_SIZE_BYTES bytes.
(* [src/host/demo_user_program.cpp] [make_host_demo_exit42_elf64] *)
Definition make_host_demo_exit42_elf64 : list Z :=
  write_elf64_load_program_header (write_elf64_header (replicate (Z.to_nat HOST_DEMO_ELF64_CODE_OFFSET) 0 ++ make_exit42_code)).

(** ** Installation *)

Section install.
Context {B D : Type} `{MemoryBus B} `{FlushStore D}.
Abbreviation KM A := (M (Kernel B D) A).
(* [src/host/demo_user_program.cpp] [ensure_demo_bin_directory] *)
Definition ensure_demo_bin_directory : KM unit :=
  on_vfs (fun fs => @Vfs.lookup D fs HOST_DEMO_BIN_DIRECTORY) ≫= fun bin_node =>
  match bin_node with
  | None => on_vfs (fun fs => @Vfs.create_directory D fs HOST_DEMO_BIN_DIRECTORY) ≫= fun _ => mret tt
  | Some n => throw_if (negb (is_directory n)) invalid_argument
  end.
(* [src/host/demo_user_program.cpp] [install_file_if_missing] *)
Definition install_file_if_missing (path bytes : list Z) : KM unit :=
  on_vfs (fun fs => @Vfs.lookup D fs path) ≫= fun node =>
  match node with
  | Some n => throw_if (negb (is_file n)) invalid_argument
  | None => on_vfs (fun fs => @Vfs.create_file D fs path) ≫= fun _ => mret tt
  end ≫= fun _ =>
  on_vfs (fun fs => @Vfs.open_file D fs path Mode.READ_WRITE) ≫= fun file =>
  on_vfs (fun fs => @Vfs.write D fs file bytes) ≫= fun '(_, written_byte_count) =>
  throw_if (negb (written_byte_count =? lenZ bytes)) runtime_error.
(** [os_kernel.vfs()] checks that the file system is there. *)
(* [src/host/demo_user_program.cpp] [install_host_demo_user_programs] *)
Definition install_host_demo_user_programs : KM unit :=
  require_stage15_services ≫= fun _ =>
  ensure_demo_bin_directory ≫= fun _ =>
  install_file_if_missing HOST_DEMO_EXIT42_PATH make_host_demo_exit42_elf64.
End install.

