(* ===== verification/DemoRun.v ===== *)
(** * The demo program, run

    Theorems on src/host/demo_user_program.cpp and what it rests on: loading the ELF file, three
    instructions under paging, the system call that ends the process, and all of it after booting. *)

From S2P Require Import Prelude Logic Common PhysicalMemory MemoryBus Paging PageTable Tlb Mmu Page PageAlloc BlockDevice Instruction CpuState Trap Decoder Executor Thread RoundRobin WaitQueue FsFormat SimpleFs Vfs FileDescriptor AddressSpace PageFaultHandler UserProgram Elf UserLoader Process Kernel Syscall KernelProcesses KernelBoot UserTrap DemoProgram.

(** ** Instructions of a user program under paging *)

Section stepping.
Context {B : Type} `{MemoryBusLaws B}.
Implicit Types (b : B) (T : gmap Z (PageTableLevel * Z)) (m : PageMap).

Lemma fresh_mmu_wf T ps b : tables_wf T (cr3 ps) b -> mmu_wf T ps make_mmu b.
Proof.
  intros Ht. split; [done|]. change (tlb make_mmu) with make_tlb. split; [apply make_tlb_wf|]. intros a tr _ Hl. exfalso. apply lookup_Some in Hl as [He _].
  pose proof (entry_at_lookup make_tlb a make_tlb_wf) as Hat. rewrite He in Hat. by apply lookup_replicate in Hat as [? _].
Qed.
(** The user may execute every byte of a range. *)
Definition executable_range m (a n : Z) : Prop :=
  0 <= a /\ a + n <= 2 ^ 47 /\ forall x, a <= x < a + n -> exists pa p, m !! page_key x = Some (pa, p) /\ p_user_accessible p = true /\ p_executable p = true.
Lemma user_canonical x : 0 <= x < 2 ^ 47 -> is_canonical_linear_address x = true.
Proof. intros Hx. rewrite is_canonical_spec by (unfold u64; lia). apply bool_decide_true. lia. Qed.
Lemma user_fetch T s b m ps u a n : represents T s b m -> mmu_wf T ps u b -> cr3 ps = space_root s -> paging_enabled ps = true ->
  execute_disable_enabled ps = true -> 0 <= n -> executable_range m a n ->
  exists u' b', check_access_range ps Ring.RING3 a n AccessKind.EXECUTE (u, b) = ((u', b'), Ok tt) /\ touched T b b' /\ mmu_wf T ps u' b'.
Proof.
  intros Hrep Hwf Hcr Hpg Hnx Hn (Ha & Han & Hx). destruct (check_access_range _ _ _ _ _ _) as [[u' b'] r] eqn:E.
  destruct (check_access_range_covers_every_byte T ps Ring.RING3 a n AccessKind.EXECUTE u b u' b' r Hwf) as (Ht & Hwf' & Hr);
    [unfold u64; lia|unfold u64; lia|lia|done|exact E|].
  exists u', b'. destruct r as [[]|e]; [done|]. exfalso. destruct Hr as (x & Hin & Hw). destruct (Hx x Hin) as (pa & p & Hm & Hu & Hp).
  destruct (translate_represents T s b m ps x AccessKind.EXECUTE Ring.RING3 Hrep Hcr ltac:(unfold u64; lia)) as (_ & Hs & _).
  unfold access_outcome, access_fault in Hs. rewrite user_canonical, Hm, Hu, Hp, Hnx in Hs by lia. cbn in Hs. unfold walk_address in Hw.
  destruct (translate ps x AccessKind.EXECUTE Ring.RING3 b) as [b2 [tr|e2]]; cbn in *; [|done]. done.
Qed.

(** One instruction that changes nothing but the core: its fetch is checked and marks the tables. *)
Lemma user_step T s m image d c (mc : Executor.Machine B) b : let ps := cpu_paging (cpu mc) in let tc := trap_controller (executor mc) in
  memory_bus mc = Some b -> represents T s b m -> mmu_wf T ps (mmu (executor mc)) b -> cr3 ps = space_root s -> paging_enabled ps = true ->
  execute_disable_enabled ps = true -> privilege_level (cpu mc) = Ring.RING3 -> is_halted (cpu mc) = false -> decode image (rip (cpu mc)) = Ok d ->
  0 <= sub64 (decoded_next_rip d) (start_rip d) -> executable_range m (start_rip d) (sub64 (decoded_next_rip d) (start_rip d)) ->
  (forall mc' : Executor.Machine B, cpu mc' = cpu mc -> trap_controller (executor mc') = tc ->
    execute_instruction (mkContext None (Some image) (decoded_next_rip d)) (instruction d) mc' = (set_cpu c mc', Ok tt)) ->
  exists u b' r, step_image_with_memory image mc =
    (mkMachine c (mkExecutor u tc (wrap64 (cycle_count (executor mc) + 1))) (Some b')
      (trace_push_back (mkTraceEntry (wrap64 (cycle_count (executor mc) + 1)) (start_rip d) (rip c) (opcode (instruction d)) (is_halted c)
        (has_pending_trap c)) <$> trace mc), Ok r) /\
    touched T b b' /\ mmu_wf T ps u b'.
Proof.
  intros ps tc Hb Hrep Hwf Hcr Hpg Hnx Hpl Hh Hd Hn Hx He. destruct (user_fetch T s b m ps _ _ _ Hrep Hwf Hcr Hpg Hnx Hn Hx) as (u & b' & Hf & Ht & Hwf').
  unfold step_image_with_memory, execute_fetched, catch_page_fault, attempt, check_instruction_fetch, with_memory_bus, record_stage8_instruction_fetch,
    record_stage8_retired_instruction, on_model_M. munfold_goal. rewrite Hh, Hd. cbn [cpu]. fold ps. rewrite Hpg, Hpl. cbn [negb]. cbn [next_rip]. rewrite Hb, Hf.
  rewrite He by done. cbn [set_cpu set_executor set_bus set_trace cpu executor memory_bus trace on_executor_mmu trap_controller cycle_count mmu].
  do 3 eexists. split; [reflexivity|]. split; [done|]. by destruct Hwf'.
Qed.
End stepping.

(** ** The program *)

Definition exit42_program : UserProgram :=
  mkProgram 0x400078 ADDRESS_LAYOUT_USER_STACK_DEFAULT_SIZE_BYTES [mkSegment 0x400000 make_host_demo_exit42_elf64 4096 user_read_only_execute].
Definition exit42_image : ExecutableImage := mkImage make_host_demo_exit42_elf64 0x400000.
(** The loader takes the file for what it was written as. *)
Lemma exit42_loads outside : Elf.load outside make_host_demo_exit42_elf64 = Ok (mkLoaded exit42_program exit42_image).
Proof. vm_compute. reflexivity. Qed.
Definition mov (r : RegisterId) (v : Z) : Instruction := mkInstruction Op.MOV Cond.COUNT (OpRegister r Size.QWORD) (OpImmediate v) false.
Definition syscall : Instruction := mkInstruction Op.SYSCALL Cond.COUNT OpNone OpNone false.
Lemma exit42_decoded :
  decode exit42_image 0x400078 = Ok (mkDecoded (mov Reg.RAX 1) 0x400078 0x400082) /\
  decode exit42_image 0x400082 = Ok (mkDecoded (mov Reg.RDI 42) 0x400082 0x40008C) /\
  decode exit42_image 0x40008C = Ok (mkDecoded syscall 0x40008C 0x40008E).
Proof. split_and!; vm_compute; reflexivity. Qed.

Definition user_trap_controller : TrapController :=
  match make_user_trap_controller with Ok tc => tc | Throw _ => make_trap_controller end.
Lemma user_trap_controller_made : make_user_trap_controller = Ok user_trap_controller.
Proof. vm_compute. reflexivity. Qed.
(** The core before each instruction. *)
Definition user_cpu (rax rdi sp a : Z) (ps : PagingState) : CpuState :=
  set_rip a (set_level Ring.RING3 (set_paging ps (put_reg Reg.RDI rdi (put_reg Reg.RAX rax (put_reg Reg.RSP sp make_cpu_state))))).

Section effects.
Context {B : Type} `{MemoryBus B}.
Lemma mov_rax im rdi sp a ps next (mc : Executor.Machine B) : cpu mc = user_cpu 0 rdi sp a ps ->
  execute_instruction (mkContext None im next) (mov Reg.RAX 1) mc = (set_cpu (user_cpu 1 rdi sp next ps) mc, Ok tt).
Proof. destruct mc. cbn [Executor.cpu]. intros ->. reflexivity. Qed.
Lemma mov_rdi im rax sp a ps next (mc : Executor.Machine B) : cpu mc = user_cpu rax 0 sp a ps ->
  execute_instruction (mkContext None im next) (mov Reg.RDI 42) mc = (set_cpu (user_cpu rax 42 sp next ps) mc, Ok tt).
Proof. destruct mc. cbn [Executor.cpu]. intros ->. reflexivity. Qed.
(** The core after the system call has been entered. *)
Definition syscall_cpu (sp a : Z) (ps : PagingState) (next : Z) : CpuState := fst (enter_syscall user_trap_controller next (user_cpu 1 42 sp a ps)).
Lemma syscall_entered im sp a ps next (mc : Executor.Machine B) : cpu mc = user_cpu 1 42 sp a ps ->
  trap_controller (executor mc) = Some user_trap_controller ->
  execute_instruction (mkContext None im next) syscall mc = (set_cpu (syscall_cpu sp a ps next) mc, Ok tt).
Proof.
  destruct mc as [c e b tr]. cbn [Executor.cpu executor]. intros -> Htc. unfold execute_instruction, syscall. cbn [opcode]. unfold execute_syscall, require_trap_controller.
  munfold_goal. cbn [executor]. rewrite Htc. reflexivity.
Qed.
End effects.
(** What the kernel reads of it: the number and the argument of the call. *)
Lemma syscall_frame sp a ps next : let c := syscall_cpu sp a ps next in
  is_pending_user_syscall c = true /\ is_halted c = false /\ cpu_paging c = ps /\ frame_number c = (c, Ok Sys.EXIT) /\
  exists c', frame_set_result SYSCALL_SUCCESS_RESULT c = (c', Ok tt) /\ frame_argument SysArg.ARG0 c' = (c', Ok 42) /\ is_halted c' = false.
Proof.
  split_and!; [vm_compute; reflexivity..|]. exists (fst (frame_set_result SYSCALL_SUCCESS_RESULT (syscall_cpu sp a ps next))).
  split_and!; vm_compute; reflexivity.
Qed.

(** ** The run *)

Section run.
Context {B D : Type} `{MemoryBusLaws B} `{FlushStore D}.
Abbreviation K := (Kernel B D).
Implicit Types (k : K) (m : PageMap).

(** The kernel after thread [t] has moved on. *)
Definition moved k (t : ThreadRef) (b : B) (th : ThreadContext) : K := set_k_bus b (set_k_threads (<[t := th]> (k_threads k)) k).
Lemma moved_moved k t b th b' th' : moved (moved k t b th) t b' th' = moved k t b' th'.
Proof. unfold moved. destruct k. cbn. by rewrite insert_insert_eq. Qed.
Lemma moved_processes ps k t b th b' th' : moved (set_k_processes ps (moved k t b th)) t b' th' = moved (set_k_processes ps k) t b' th'.
Proof. unfold moved. destruct k. cbn. by rewrite insert_insert_eq. Qed.
Lemma moved_thread k t b th : k_threads (moved k t b th) !! t = Some th.
Proof. apply lookup_insert_eq. Qed.
Lemma step_thread_moves k t image th e tr c e' b' tr' r : k_threads k !! t = Some th ->
  step_image_with_memory image (mkMachine (thread_cpu_state th) e (Some (k_bus k)) (Some tr)) = (mkMachine c e' (Some b') (Some tr'), Ok r) ->
  step_thread t image e tr k = (moved k t b' (set_thread_cpu c th), Ok (e', tr')).
Proof. intros Ht E. unfold step_thread. by rewrite Ht, E. Qed.
(** An iteration whose instruction neither traps nor halts. *)
Lemma loop_quiet tc p t image n ex e tr k th c e' tr' b' pr : k_threads k !! t = Some th -> is_alive th = true ->
  step_thread t image e tr k = (moved k t b' (set_thread_cpu c th), Ok (e', tr')) -> pending_trap c = None -> is_halted c = false ->
  k_processes k !! p = Some pr ->
  exec_loop tc p t image (S n) ex e tr k = exec_loop tc p t image n (ex + 1) e' tr' (moved k t b' (set_thread_cpu c th)).
Proof.
  intros Ht Ha Es Hp Hh Hpr. cbn [exec_loop]. unfold serve_pending_trap, thread_of, process_of. munfold_goal. rewrite Ht, Ha. cbn [negb]. rewrite Es.
  rewrite !moved_thread. cbn [thread_cpu_state set_thread_cpu]. rewrite Hp, !moved_thread. cbn [k_processes moved set_k_bus set_k_threads]. rewrite Hpr.
  cbn [thread_cpu_state set_thread_cpu]. by rewrite Hh.
Qed.
Lemma wake_nobody id k : Forall (fun e => entry_child e <> id) (k_wait_entries k) -> wake_process_waiters id k = (k, Ok tt).
Proof.
  intros Hn. unfold wake_process_waiters. munfold_goal.
  assert (Hl : forall xs, for_each xs (fun i => gets (fun k => entry_child <$> k_wait_entries k !! i) ≫= fun child =>
      if negb (bool_decide (child = Some id)) then mret tt else on_wait_entry i Wait.wake_all ≫= fun waiters => wake_each waiters) k = (k, Ok tt)).
  { induction xs as [|i xs IH]; [done|]. cbn [for_each]. munfold_goal. rewrite bool_decide_false.
    - cbn [negb]. exact IH.
    - intros Hc. apply fmap_Some in Hc as (e & He & Hid). rewrite Forall_lookup in Hn. by apply (Hn i e). }
  unfold gets in Hl. rewrite Hl. unfold remove_process_wait_entries_for_child. munfold_goal.
  assert (filter (fun e => entry_child e <> id) (k_wait_entries k) = k_wait_entries k) as Hf.
  { clear Hl. induction Hn as [|e es He _ IH]; [done|]. rewrite filter_cons_True by done. by rewrite IH. }
  rewrite Hf. by destruct k.
Qed.
Lemma on_thread_moved {A} k t b th (call : M ThreadContext A) :
  on_thread t call (moved k t b th) = let '(th', r) := call th in (moved k t b th', r).
Proof. unfold on_thread. rewrite moved_thread. destruct (call th) as [th' r]. unfold moved. destruct k. cbn. by rewrite insert_insert_eq. Qed.
Lemma on_thread_cpu_moved {A} k t b th (call : M CpuState A) :
  on_thread_cpu t call (moved k t b th) = let '(c, r) := call (thread_cpu_state th) in (moved k t b (set_thread_cpu c th), r).
Proof. unfold on_thread_cpu. rewrite on_thread_moved. unfold zoom. by destruct (call (thread_cpu_state th)). Qed.
Lemma thread_of_moved k t b th : thread_of t (moved k t b th) = Ok th.
Proof. unfold thread_of. by rewrite moved_thread. Qed.
Lemma moved_ready k t b th : ready (moved k t b th) = ready k.
Proof. done. Qed.

(** The end of a process whose only thread is not the current one of the scheduler, and for which nobody waits. *)
Lemma lone_process_exits p t k b pr th code : ready k = true -> k_processes k !! p = Some pr -> is_running pr = true -> pr_threads pr = [t] ->
  is_alive th = true -> current_thread (k_scheduler k) <> Some t -> Forall (fun e => entry_child e <> pr_id pr) (k_wait_entries k) ->
  exit_process p code (moved k t b th) =
  (moved (set_k_processes (<[p := set_pr_exit code pr]> (k_processes k)) k) t b (set_thread_state TState.DEAD th), Ok tt).
Proof.
  intros Hr Hp Hrun Hts Ha Hc Hw. set (k1 := set_k_processes _ k).
  assert (Hmark : on_process p (mark_exited code) (moved k t b th) = (moved k1 t b th, Ok tt)).
  { unfold on_process. change (k_processes (moved k t b th)) with (k_processes k). by rewrite Hp, mark_exited_eq, Hrun. }
  unfold exit_process. munfold_goal. rewrite require9_ready by done. unfold process_of. change (k_processes (moved k t b th)) with (k_processes k).
  rewrite Hp, Hrun. cbn [negb]. rewrite Hmark, Hts. cbn [for_each]. unfold exit_thread. munfold_goal.
  unfold alive, state_of. rewrite moved_thread. change (negb (bool_decide (thread_state th = TState.DEAD))) with (is_alive th). rewrite Ha. cbn [negb].
  unfold is_current. rewrite bool_decide_false by done. unfold store_state. cbv iota.
  assert (Hk : set_k_threads (alter (set_thread_state TState.DEAD) t (k_threads (moved k1 t b th))) (moved k1 t b th) = moved k1 t b (set_thread_state TState.DEAD th)).
  { unfold moved. cbn [k_threads set_k_bus set_k_threads]. rewrite alter_insert_eq. destruct k1. reflexivity. }
  rewrite Hk. rewrite wake_nobody; [done|]. exact Hw.
Qed.
(** The system call [exit] of such a process. *)
Lemma user_exit_served tc p t k b pr th c c' code : ready k = true ->
  k_processes k !! p = Some pr -> is_running pr = true -> pr_threads pr = [t] -> is_alive th = true ->
  current_thread (k_scheduler k) <> Some t -> Forall (fun e => entry_child e <> pr_id pr) (k_wait_entries k) ->
  is_pending_user_syscall c = true -> frame_number c = (c, Ok Sys.EXIT) -> frame_set_result SYSCALL_SUCCESS_RESULT c = (c', Ok tt) ->
  frame_argument SysArg.ARG0 c' = (c', Ok code) ->
  exists th', is_alive th' = false /\ is_halted (thread_cpu_state th') = is_halted c' /\
    serve_pending_trap tc p t (moved k t b (set_thread_cpu c th)) =
    (moved (set_k_processes (<[p := set_pr_exit (to_int64 code) pr]> (k_processes k)) k) t b th', Ok None).
Proof.
  intros Hr Hp Hrun Hts Ha Hc Hw Hpend Hnum Hres Harg.
  assert (Hf : exists f, pending_trap c = Some f /\ tf_kind f = Trap.SYSCALL).
  { unfold is_pending_user_syscall in Hpend. destruct (pending_trap c) as [f|]; [|done]. exists f. split; [done|].
    apply andb_true_iff in Hpend as [Hk _]. by apply bool_decide_eq_true in Hk. }
  destruct Hf as (f & Hf & Hk). set (th1 := set_thread_cpu c th). set (th2 := set_last_trap_frame (Some f) th1).
  set (th3 := set_thread_cpu c' (set_thread_cpu c' (set_thread_cpu c th2))). set (th4 := set_thread_state TState.DEAD th3).
  exists (set_thread_cpu (clear_pending_trap c') th4). split; [done|]. split; [done|].
  unfold serve_pending_trap. munfold_goal. rewrite thread_of_moved. cbn [thread_cpu_state th1 set_thread_cpu]. rewrite Hf, Hk, bool_decide_true by done.
  unfold handle_user_syscall. munfold_goal. rewrite require9_ready by done. rewrite thread_of_moved. cbn [thread_cpu_state th1 set_thread_cpu].
  rewrite Hpend. cbn [negb]. rewrite on_thread_moved. unfold snapshot_pending_trap_frame, has_pending_trap, get_pending_trap.
  cbn [thread_cpu_state th1 set_thread_cpu]. rewrite Hf. rewrite bool_decide_true by by eexists. cbn [negb]. fold th1 th2.
  unfold dispatch_syscall. munfold_goal. rewrite require9_ready by done. rewrite on_thread_cpu_moved. change (thread_cpu_state th2) with c. rewrite Hnum.
  unfold dispatch_exit, finish_syscall_success, argument. munfold_goal. rewrite on_thread_cpu_moved. cbn [thread_cpu_state set_thread_cpu]. rewrite Hres.
  rewrite on_thread_cpu_moved. cbn [thread_cpu_state set_thread_cpu]. rewrite Harg. fold th3.
  rewrite (lone_process_exits p t k b pr th3 (to_int64 code)) by done. fold th4. rewrite thread_of_moved. change (is_alive th4) with false. cbn [negb].
  rewrite on_thread_cpu_moved. change (thread_cpu_state th4) with c'. reflexivity.
Qed.

(** An iteration that ends the process, and with it the loop. *)
Lemma loop_exit tc p t image n ex e tr k th c e' tr' b' pr c' code : ready k = true -> k_threads k !! t = Some th -> is_alive th = true ->
  step_thread t image e tr k = (moved k t b' (set_thread_cpu c th), Ok (e', tr')) ->
  k_processes k !! p = Some pr -> is_running pr = true -> pr_threads pr = [t] ->
  current_thread (k_scheduler k) <> Some t -> Forall (fun e => entry_child e <> pr_id pr) (k_wait_entries k) ->
  is_pending_user_syscall c = true -> frame_number c = (c, Ok Sys.EXIT) -> frame_set_result SYSCALL_SUCCESS_RESULT c = (c', Ok tt) ->
  frame_argument SysArg.ARG0 c' = (c', Ok code) -> is_halted c' = false ->
  exists th', exec_loop tc p t image (S n) ex e tr k =
    (moved (set_k_processes (<[p := set_pr_exit (to_int64 code) pr]> (k_processes k)) k) t b' th', Ok (None, ex + 1, tr')).
Proof.
  intros Hr Ht Ha Es Hp Hrun Hts Hc Hw Hpend Hnum Hres Harg Hh.
  destruct (user_exit_served tc p t k b' pr th c c' code) as (th' & Hdead & Hh' & E); try done. rewrite Hh in Hh'. exists th'.
  cbn [exec_loop]. munfold_goal. unfold thread_of at 1. rewrite Ht, Ha. cbn [negb]. rewrite Es, E. rewrite thread_of_moved. unfold process_of.
  cbn [k_processes moved set_k_bus set_k_threads set_k_processes]. rewrite list_lookup_insert_eq by by eapply lookup_lt_Some.
  rewrite Hh'. cbn [andb]. destruct n; cbn [exec_loop]; munfold_goal; rewrite thread_of_moved; [done|]. by rewrite Hdead.
Qed.

Lemma exit42_step T s m rax rdi sp a next ps i c e (b : B) tr : represents T s b m -> mmu_wf T ps (mmu e) b -> cr3 ps = space_root s ->
  paging_enabled ps = true -> execute_disable_enabled ps = true -> decode exit42_image a = Ok (mkDecoded i a next) ->
  0 <= sub64 next a -> executable_range m a (sub64 next a) ->
  (forall mc : Executor.Machine B, cpu mc = user_cpu rax rdi sp a ps -> trap_controller (executor mc) = trap_controller e ->
    execute_instruction (mkContext None (Some exit42_image) next) i mc = (set_cpu c mc, Ok tt)) ->
  exists u b' r, step_image_with_memory exit42_image (mkMachine (user_cpu rax rdi sp a ps) e (Some b) (Some tr)) =
    (mkMachine c (mkExecutor u (trap_controller e) (wrap64 (cycle_count e + 1))) (Some b')
      (Some (trace_push_back (mkTraceEntry (wrap64 (cycle_count e + 1)) a (rip c) (opcode i) (is_halted c) (has_pending_trap c)) tr)), Ok r) /\
    represents T s b' m /\ mmu_wf T ps u b'.
Proof.
  intros Hrep Hwf Hcr Hpg Hnx Hd Hn Hx He.
  destruct (user_step T s m exit42_image (mkDecoded i a next) c (mkMachine (user_cpu rax rdi sp a ps) e (Some b) (Some tr)) b
    eq_refl Hrep Hwf Hcr Hpg Hnx eq_refl eq_refl Hd Hn Hx He) as (u & b' & r & E & Ht & Hwf').
  exists u, b', r. split; [exact E|]. split; [by apply (touched_represents T s b)|exact Hwf'].
Qed.
Lemma exit42_runs n k p t pr th T m ps sp : ready k = true -> k_processes k !! p = Some pr -> is_running pr = true -> pr_threads pr = [t] ->
  k_threads k !! t = Some th -> is_alive th = true -> thread_cpu_state th = user_cpu 0 0 sp 0x400078 ps ->
  current_thread (k_scheduler k) <> Some t -> Forall (fun e => entry_child e <> pr_id pr) (k_wait_entries k) ->
  represents T (pr_space pr) (k_bus k) m -> cr3 ps = space_root (pr_space pr) -> paging_enabled ps = true -> execute_disable_enabled ps = true ->
  executable_range m 0x400078 22 ->
  exists b th' tr, exec_loop user_trap_controller p t exit42_image (S (S (S n))) 0 (attach_trap_controller user_trap_controller make_executor) [] k =
    (moved (set_k_processes (<[p := set_pr_exit 42 pr]> (k_processes k)) k) t b th', Ok (None, 3, tr)) /\
    (te_opcode <$> tr) = [Op.MOV; Op.MOV; Op.SYSCALL].
Proof.
  intros Hr Hp Hrun Hts Ht Ha Hcpu Hc Hw Hrep Hcr Hpg Hnx Hx. destruct exit42_decoded as (D1 & D2 & D3). set (s := pr_space pr) in *.
  assert (Hsub : forall a n, 0x400078 <= a -> a + n <= 0x400078 + 22 -> executable_range m a n).
  { intros a l Hal Han. destruct Hx as (? & ? & Hx). split; [lia|]. split; [lia|]. intros x Hin. apply Hx. lia. }
  set (e0 := attach_trap_controller user_trap_controller make_executor).
  assert (Hwf0 : mmu_wf T ps (mmu e0) (k_bus k)) by (apply fresh_mmu_wf; rewrite Hcr; apply Hrep).
  destruct (exit42_step T s m 0 0 sp 0x400078 0x400082 ps (mov Reg.RAX 1) (user_cpu 1 0 sp 0x400082 ps) e0 (k_bus k) [] Hrep Hwf0 Hcr Hpg Hnx D1)
    as (u1 & b1 & r1 & E1 & Hrep1 & Hwf1); [done|by apply Hsub|intros mc Hmc _; by apply (mov_rax _ 0 sp 0x400078 ps)|].
  rewrite <- Hcpu in E1. apply (step_thread_moves k t exit42_image th e0 []) in E1; [|done].
  rewrite (loop_quiet _ p t exit42_image _ 0 e0 [] k th _ _ _ _ pr Ht Ha E1 eq_refl eq_refl Hp).
  set (th1 := set_thread_cpu (user_cpu 1 0 sp 0x400082 ps) th) in *. set (k1 := moved k t b1 th1) in *.
  match type of E1 with _ = (_, Ok (?e, ?tr)) => set (e1 := e) in *; set (tr1 := tr) in * end.
  destruct (exit42_step T s m 1 0 sp 0x400082 0x40008C ps (mov Reg.RDI 42) (user_cpu 1 42 sp 0x40008C ps) e1 b1 tr1 Hrep1 Hwf1 Hcr Hpg Hnx D2)
    as (u2 & b2 & r2 & E2 & Hrep2 & Hwf2); [done|by apply Hsub|intros mc Hmc _; by apply (mov_rdi _ 1 sp 0x400082 ps)|].
  apply (step_thread_moves k1 t exit42_image th1 e1 tr1) in E2; [|apply moved_thread].
  rewrite (loop_quiet _ p t exit42_image _ _ e1 tr1 k1 th1 _ _ _ _ pr (moved_thread _ _ _ _) Ha E2 eq_refl eq_refl Hp).
  set (th2 := set_thread_cpu (user_cpu 1 42 sp 0x40008C ps) th1) in *. unfold k1 in E2 |- *. rewrite moved_moved in E2 |- *. set (k2 := moved k t b2 th2) in *.
  match type of E2 with _ = (_, Ok (?e, ?tr)) => set (e2 := e) in *; set (tr2 := tr) in * end.
  destruct (exit42_step T s m 1 42 sp 0x40008C 0x40008E ps syscall (syscall_cpu sp 0x40008C ps 0x40008E) e2 b2 tr2 Hrep2 Hwf2 Hcr Hpg Hnx D3)
    as (u3 & b3 & r3 & E3 & Hrep3 & Hwf3); [done|by apply Hsub|intros mc Hmc Htc; by apply syscall_entered|].
  apply (step_thread_moves k2 t exit42_image th2 e2 tr2) in E3; [|apply moved_thread].
  destruct (syscall_frame sp 0x40008C ps 0x40008E) as (F1 & F2 & F3 & F4 & c' & F5 & F6 & F7).
  destruct (loop_exit user_trap_controller p t exit42_image n (0 + 1 + 1) e2 tr2 k2 th2 _ _ _ _ pr c' 42 Hr (moved_thread _ _ _ _) Ha E3 Hp Hrun Hts Hc Hw F1 F4 F5 F6 F7)
    as (th' & E4).
  rewrite E4. unfold k2. rewrite moved_processes. do 3 eexists. split; reflexivity.
Qed.
End run.
