(* ===== verification/DemoBoot.v ===== *)
(** * From booting to an exit code

    Theorems that put the components together: a machine is booted, the demo program of
    src/host/demo_user_program.cpp is installed in its root file system, read back, loaded and run to
    its end. *)

From S2P Require Import Prelude Logic Common PhysicalMemory MemoryBus Paging PageTable Tlb Mmu Page PageAlloc BlockDevice BufferCache Terminal Apic Instruction CpuState Trap Decoder Executor Thread RoundRobin WaitQueue FsFormat SimpleFs FsDisk FsData FsSpec FsRefinement FsMount Vfs FileDescriptor AddressSpace PageFaultHandler UserProgram Elf UserLoader Process Kernel Syscall KernelProcesses KernelBoot UserTrap Launch DemoProgram DemoRun.

(** ** Running the program *)

Lemma exit42_startable a al : strings_ok (arguments a) -> strings_ok (environment a) -> 33 <= free_page_count al -> startable exit42_program a al.
Proof.
  intros Ha He Hf. split; [|split; [discriminate|reflexivity]|reflexivity| |exact Ha|exact He|exact Hf|vm_compute; discriminate].
  - split; [reflexivity|reflexivity| |by apply FOP_cons; constructor].
    apply Forall_singleton. split; vm_compute; repeat split; (reflexivity || discriminate).
  - apply Forall_singleton. by apply (bool_decide_unpack _); vm_compute.
Qed.
(** Below the stack there are the segments only. *)
Lemma loaded_text p a u x : x < ADDRESS_LAYOUT_USER_STACK_TOP - initial_stack_size_bytes p -> loaded_memory p a u x = program_memory (segments p) u x.
Proof. intros Hx. unfold loaded_memory, stack_view. by rewrite decide_False by lia. Qed.
Lemma one_segment s u x : segment_address s <= x < segment_address s + segment_memory_size s ->
  program_memory [s] u x = Some (nthZ (segment_bytes s) (x - segment_address s), segment_permissions s).
Proof. intros Hx. cbn [program_memory foldl]. unfold range_view. by rewrite decide_True by done. Qed.
Lemma exit42_executable {B} `{MemoryBusLaws B} T m (l : Loader B) a : shows T m l (loaded_memory exit42_program a (fun _ => None)) ->
  executable_range m 0x400078 22.
Proof.
  intros [_ Hv]. split; [lia|]. split; [lia|]. intros x Hx. specialize (Hv x ltac:(lia)). unfold user_page in Hv.
  rewrite loaded_text in Hv by (change (x < 0x700000000000 - 65536); lia). unfold exit42_program in Hv. cbn [segments] in Hv.
  rewrite one_segment in Hv by (cbn [segment_address segment_memory_size]; lia). cbn [segment_permissions] in Hv.
  destruct (m !! page_key x) as [[pa p]|]; [|done]. injection Hv as _ ->. by exists pa, user_read_only_execute.
Qed.
Section running.
Context {B D : Type} `{MemoryBusLaws B} `{FlushStore D}.
Lemma exit42_executed parent a n (k : Kernel B D) al : launchable k al -> strings_ok (arguments a) -> strings_ok (environment a) -> 33 <= free_page_count al ->
  ADDRESS_LAYOUT_USER_STACK_TOP - ADDRESS_LAYOUT_USER_STACK_DEFAULT_SIZE_BYTES <= frame_start_of a ->
  Forall (fun e => entry_child e <> k_next_pid k) (k_wait_entries k) ->
  exists k' tr, exec_user_program parent exit42_program exit42_image a (S (S (S n))) k =
    (k', Ok (mkRunResult (k_next_pid k) RunStatus.EXITED 3 42 true tr)) /\ (te_opcode <$> tr) = [Op.MOV; Op.MOV; Op.SYSCALL] /\
    table k' = table k ++ [mkLife (k_next_pid k) parent (Exited 42)] /\ k_store k' = k_store k /\ k_file_system k' = k_file_system k.
Proof.
  intros Hl Ha He Hf Hfit Hw. pose proof (exit42_startable a al Ha He Hf) as Hs.
  destruct (process_started exit42_program parent a k al Hl Hs Hfit) as (k1 & al' & pr & t & th & ps & T & m & E & Hst & _).
  pose proof Hst as [Hr Hp Hid Hpar Hrun Hts Hfr Hth Hstate Hcpu (Hcr & _ & Hpg & Hnx) Hsc Hwait Hdisk _ Hsh].
  assert (Hlook : k_processes k1 !! length (k_processes k) = Some pr) by (rewrite Hp; by apply list_lookup_middle).
  destruct (exit42_runs n k1 (length (k_processes k)) t pr th T m ps (frame_start_of a)) as (b & th' & tr & El & Htr); try done.
  - by rewrite Hth, lookup_insert_eq.
  - unfold is_alive. by rewrite Hstate.
  - rewrite Hsc. cbn. intros Hc. apply (lc_current k al Hl) in Hc. rewrite Hfr in Hc. by destruct Hc.
  - by rewrite Hwait, Hid.
  - by destruct Hsh as [[] _].
  - by apply (exit42_executable T m _ a Hsh).
  - eexists _, tr. split.
    { unfold exec_user_program. munfold_goal. rewrite require9_ready by apply Hl. cbn [image_bytes exit42_image].
      change (bool_decide (make_host_demo_exit42_elf64 = [])) with false. change (image_contains_rip exit42_image (entry_point exit42_program)) with true.
      cbn [negb]. rewrite E. unfold process_of. rewrite Hlook. unfold thread_at. rewrite Hts. change ([t] !! Z.to_nat 0) with (Some t). cbv iota beta.
      rewrite user_trap_controller_made.
      rewrite El. cbn [k_processes moved set_k_last_trace set_k_bus set_k_threads set_k_processes].
      rewrite list_lookup_insert_eq by by eapply lookup_lt_Some. cbn. rewrite Hid. reflexivity. }
    split; [exact Htr|]. split; [|exact Hdisk].
    unfold table. cbn [k_processes moved set_k_last_trace set_k_bus set_k_threads set_k_processes]. rewrite Hp, insert_app_r_alt, Nat.sub_diag by lia.
    rewrite fmap_app. cbn. do 3 f_equal. unfold life_of. cbn. by rewrite Hid, Hpar.
Qed.
End running.

(** ** The file system behind the kernel *)

Section disk.
Context {B D : Type} `{MemoryBusLaws B} `{FlushStoreLaws D} `{!BlockStoreLaws D} (l : SimpleFsLayout) (Hl : layout_ok l).
Abbreviation K := (Kernel B D).
Implicit Types (k : K) (s : FsState).

(** The root file system of the kernel is mounted, and represents [s]. *)
Definition on_disk k s : Prop := k_file_system k = Some l /\ exists d, k_store k = Some d /\ fs_repr l d s.
(** [c] does to the disk what [a] does to the abstract file system, and nothing to the rest of the kernel. *)
Definition disk_refines {A} (c : M K A) (a : M FsState A) : Prop := forall k s, on_disk k s ->
  exists d, c k = (set_k_store (Some d) k, (a s).2) /\ on_disk (set_k_store (Some d) k) (a s).1.
Lemma disk_ret {A} (x : A) : disk_refines (mret x) (mret x).
Proof. intros k s [Hf (d & Hd & Hr)]. exists d. split; [|split; [done|by exists d]]. destruct k. cbn in *. by rewrite Hd. Qed.
Lemma disk_throw {A} e : disk_refines (A := A) (throw e) (throw e).
Proof. intros k s [Hf (d & Hd & Hr)]. exists d. split; [|split; [done|by exists d]]. destruct k. cbn in *. by rewrite Hd. Qed.
Lemma disk_throw_if b e : disk_refines (throw_if b e) (throw_if b e).
Proof. destruct b; [apply disk_throw|apply disk_ret]. Qed.
Lemma disk_bind {A C} (c : M K A) (a : M FsState A) (f : A -> M K C) (g : A -> M FsState C) :
  disk_refines c a -> (forall x, (exists k s, on_disk k s /\ (a s).2 = Ok x) -> disk_refines (f x) (g x)) -> disk_refines (c ≫= f) (a ≫= g).
Proof.
  intros Hc Hf k s Hs. destruct (Hc k s Hs) as (d & E & Hs1). munfold_goal. rewrite E. destruct (a s) as [s1 [x|e]] eqn:Ea; cbn [fst snd] in *.
  - destruct (Hf x ltac:(exists k, s; by rewrite Ea) _ _ Hs1) as (d2 & E2 & Hs2). exists d2. by destruct k.
  - by exists d.
Qed.
Lemma disk_vfs {A} (c : FileSystem D -> M D A) a : refines l (c (mounted_fs l)) a -> disk_refines (on_vfs c) a.
Proof.
  intros Hc k s [Hf (d & Hd & Hr)]. destruct (refines_repr l _ _ d s Hc Hr) as (d' & E & Hr'). exists d'.
  unfold on_vfs, value, on_vfs_store, on_optional. munfold_goal. rewrite Hf, Hd, E. split; [done|]. split; [done|]. by exists d'.
Qed.
Lemma disk_require c : (forall k s, on_disk k s -> c k = (k, Ok tt)) -> disk_refines c (mret tt).
Proof. intros Hc k s Hs. rewrite (Hc k s Hs). by apply disk_ret. Qed.

#[local] Instance spec_here : FileSystem FsState := spec_fs l.
(** What the installation does to the abstract file system. *)
Definition spec_ensure_bin_directory : M FsState unit :=
  Vfs.lookup HOST_DEMO_BIN_DIRECTORY ≫= fun bin_node =>
  match bin_node with
  | None => Vfs.create_directory HOST_DEMO_BIN_DIRECTORY ≫= fun _ => mret tt
  | Some n => throw_if (negb (is_directory n)) invalid_argument
  end.
Definition spec_install_file (path bytes : list Z) : M FsState unit :=
  Vfs.lookup path ≫= fun node =>
  match node with
  | Some n => throw_if (negb (is_file n)) invalid_argument
  | None => Vfs.create_file path ≫= fun _ => mret tt
  end ≫= fun _ =>
  Vfs.open_file path Mode.READ_WRITE ≫= fun file =>
  Vfs.write file bytes ≫= fun '(_, written_byte_count) =>
  throw_if (negb (written_byte_count =? lenZ bytes)) runtime_error.
Definition spec_read_all (path : list Z) : M FsState (list Z) :=
  Vfs.open_file path Mode.READ_ONLY ≫= fun file =>
  file_size_bytes file ≫= fun size =>
  Vfs.read file size ≫= fun '(_, bytes) =>
  throw_if (negb (lenZ bytes =? size)) runtime_error ≫= fun _ =>
  mret bytes.
Lemma file_size_fits (d : D) f s size : fs_repr l d s -> (file_size_bytes f s).2 = Ok size -> u64 size.
Proof using Hl.
  intros (kk & ρ & _ & Hs). unfold file_size_bytes. munfold_goal. destruct (negb _); [done|]. cbn. unfold spec_metadata, spec_node. munfold_goal.
  destruct (_ || _); [done|]. destruct (nodes s !! file_inode f) as [[knd b]|] eqn:En; [|done]. intros [= <-]. cbn.
  destruct (node_fits l Hl kk ρ s _ _ _ Hs En) as (_ & _ & _ & Hsz). pose proof (lo_size l Hl). unfold u64, lenZ in *. lia.
Qed.
Lemma ensure_bin_refines : disk_refines ensure_demo_bin_directory spec_ensure_bin_directory.
Proof.
  apply disk_bind; [apply disk_vfs, vfs_lookup_refines, Hl|]. intros [n|] _; [apply disk_throw_if|].
  apply disk_bind; [|intros; apply disk_ret]. apply disk_vfs. apply create_path_refines; [exact Hl|done|].
  by apply (bool_decide_unpack _); vm_compute.
Qed.
Lemma install_file_refines path bytes : path_ok path -> u64 (lenZ bytes) -> disk_refines (install_file_if_missing path bytes) (spec_install_file path bytes).
Proof.
  intros Hp Hb. apply disk_bind; [apply disk_vfs, vfs_lookup_refines, Hl|]. intros node _. apply disk_bind.
  { destruct node as [n|]; [apply disk_throw_if|]. apply disk_bind; [|intros; apply disk_ret]. apply disk_vfs. by apply create_path_refines. }
  intros [] _. apply disk_bind; [apply disk_vfs, open_file_refines, Hl|]. intros f (k & s & _ & Hf%(opened_file_ok l Hl)).
  apply disk_bind; [apply disk_vfs; by apply write_refines|]. intros [f' n] _. apply disk_throw_if.
Qed.
Lemma read_all_refines path : disk_refines (read_all_vfs_file_bytes path) (spec_read_all path).
Proof.
  apply disk_bind; [apply disk_vfs, open_file_refines, Hl|]. intros f (k & s & _ & Hf%(opened_file_ok l Hl)).
  apply disk_bind; [apply disk_vfs, file_size_refines; [exact Hl|apply Hf]|]. intros size (k' & s' & [_ (d & _ & Hr)] & Hsize).
  apply disk_bind; [apply disk_vfs, read_refines; [exact Hl|exact Hf|by apply (file_size_fits d f s')]|].
  intros [f' b] _. apply disk_bind; [apply disk_throw_if|]. intros; apply disk_ret.
Qed.
End disk.

(** ** From booting to an exit code *)

Section booted.
Context {B : Type} `{MemoryBusLaws B}.
Abbreviation RootStore := (BufferCache * MemoryBlockDevice)%type.
Implicit Types k : Kernel B RootStore.

Lemma launchable_store d k al : launchable k al -> launchable (set_k_store (Some d) k) al.
Proof. intros [? ? ? ? [] ? ?]. by split. Qed.
(** What the file system holds once the program is installed in an empty one. *)
Definition demo_installed : FsState :=
  ((spec_ensure_bin_directory root_layout ≫= fun _ => spec_install_file root_layout HOST_DEMO_EXIT42_PATH make_host_demo_exit42_elf64)
    (initial_state root_layout)).1.
Lemma demo_installed_ok :
  (spec_ensure_bin_directory root_layout ≫= fun _ => spec_install_file root_layout HOST_DEMO_EXIT42_PATH make_host_demo_exit42_elf64)
    (initial_state root_layout) = (demo_installed, Ok tt).
Proof. vm_compute. reflexivity. Qed.
Lemma demo_read_back : spec_read_all root_layout HOST_DEMO_EXIT42_PATH demo_installed = (demo_installed, Ok make_host_demo_exit42_elf64).
Proof. vm_compute. reflexivity. Qed.
Lemma path_is_ok : path_ok HOST_DEMO_EXIT42_PATH /\ u64 (lenZ make_host_demo_exit42_elf64).
Proof. split; [by apply (bool_decide_unpack _); vm_compute|vm_compute; split; [discriminate|reflexivity]]. Qed.
Lemma demo_install_run k : has_stage15_services k = true -> k_booted k = true -> layout_ok root_layout -> on_disk root_layout k (initial_state root_layout) ->
  exists d, install_host_demo_user_programs k = (set_k_store (Some d) k, Ok tt) /\ on_disk root_layout (set_k_store (Some d) k) demo_installed.
Proof.
  intros H15 Hb Hl Hd. destruct path_is_ok as [Hp Hn].
  assert (Href : disk_refines (B := B) root_layout (ensure_demo_bin_directory ≫= fun _ => install_file_if_missing HOST_DEMO_EXIT42_PATH make_host_demo_exit42_elf64)
    (spec_ensure_bin_directory root_layout ≫= fun _ => spec_install_file root_layout HOST_DEMO_EXIT42_PATH make_host_demo_exit42_elf64)).
  { apply disk_bind; [by apply ensure_bin_refines|]. intros [] _. by apply install_file_refines. }
  destruct (Href k _ Hd) as (d & E & Hd'). rewrite demo_installed_ok in E, Hd'. exists d. split; [|exact Hd'].
  unfold install_host_demo_user_programs, require_stage15_services, require, require_booted. munfold_goal. rewrite Hb, H15. cbn [negb]. exact E.
Qed.
Lemma exit42_file_executed outside parent a n k al : launchable k al -> has_stage15_services k = true -> layout_ok root_layout -> on_disk root_layout k demo_installed ->
  strings_ok (arguments a) -> strings_ok (environment a) -> 33 <= free_page_count al ->
  ADDRESS_LAYOUT_USER_STACK_TOP - ADDRESS_LAYOUT_USER_STACK_DEFAULT_SIZE_BYTES <= frame_start_of a ->
  Forall (fun e => entry_child e <> k_next_pid k) (k_wait_entries k) ->
  exists k' tr, exec_user_file outside parent HOST_DEMO_EXIT42_PATH a (S (S (S n))) k =
    (k', Ok (mkRunResult (k_next_pid k) RunStatus.EXITED 3 42 true tr)) /\ (te_opcode <$> tr) = [Op.MOV; Op.MOV; Op.SYSCALL] /\
    table k' = table k ++ [mkLife (k_next_pid k) parent (Exited 42)] /\ on_disk root_layout k' demo_installed.
Proof.
  intros Hl H15 Hlay Hd Ha He Hf Hfit Hw. assert (Hr := lc_ready k al Hl). apply andb_true_iff in Hr as [Hb _].
  destruct (read_all_refines root_layout Hlay HOST_DEMO_EXIT42_PATH k _ Hd) as (d & E & Hd'). rewrite demo_read_back in E, Hd'. cbn [fst snd] in E, Hd'.
  destruct (exit42_executed parent a n (set_k_store (Some d) k) al) as (k' & tr & Ex & Htr & Ht & Hs & Hfs); try done; [by apply launchable_store|].
  exists k', tr. split.
  { unfold exec_user_file, require_stage15_services, require, require_booted. munfold_goal. rewrite Hb, H15. cbn [negb]. rewrite E, exit42_loads. exact Ex. }
  split; [exact Htr|]. split; [exact Ht|]. destruct Hd' as [Hd1 Hd2]. split; [by rewrite Hfs|]. by rewrite Hs.
Qed.
End booted.

(** C?. The whole machine: any machine with fifty pages of memory, whatever its memory holds and
    however many cores it has, boots; the demo program is then installed in its root file system;
    and executing [/bin/exit42] with any arguments that fit the stack and three steps or more reads
    the ELF file back, loads it, runs two moves and a system call, and ends the process with exit code
    42.  The process table then holds that process and nothing else, and the file system holds what was
    installed. *)
Theorem booted_machine_runs_demo {B} `{MemoryBusLaws B} (m : Machine B) outside parent a n : bus_ok (machine_bus m) -> bus_size (machine_bus m) <= 2 ^ 52 ->
  50 * 4096 <= machine_memory_size m <= bus_size (machine_bus m) -> 0 <= core_count (machine_topology m) ->
  strings_ok (arguments a) -> strings_ok (environment a) ->
  ADDRESS_LAYOUT_USER_STACK_TOP - ADDRESS_LAYOUT_USER_STACK_DEFAULT_SIZE_BYTES <= frame_start_of a -> (3 <= n)%nat ->
  exists k1 k2 k3 tr, boot (make_kernel m) = (k1, Ok tt) /\ install_host_demo_user_programs k1 = (k2, Ok tt) /\
    exec_user_file outside parent HOST_DEMO_EXIT42_PATH a n k2 = (k3, Ok (mkRunResult 1 RunStatus.EXITED 3 42 true tr)) /\
    (te_opcode <$> tr) = [Op.MOV; Op.MOV; Op.SYSCALL] /\ table k3 = [mkLife 1 parent (Exited 42)] /\ on_disk root_layout k3 demo_installed.
Proof.
  intros Hb H52 Hm Hc Ha He Hfit Hn. destruct (boot_run m Hb H52 ltac:(lia) Hc) as (al & b & s & ap & d & T & Hrun & Hwf & Htot & Hfree & Hleft & Hbs & Hrep & _ & Hl & Hfs).
  set (k1 := booted_kernel m al b s ap d) in *. pose proof (Z.div_mod (machine_memory_size m) 4096 ltac:(lia)). pose proof (Z.mod_pos_bound (machine_memory_size m) 4096 ltac:(lia)).
  assert (Hbok : bus_ok b) by by destruct Hrep as [[] _ _ _ _ _]. assert (Hla : launchable k1 al) by (apply booted_launchable; try done; lia).
  assert (Hcnt : 33 <= free_page_count al) by (rewrite Hfree; unfold arena_pages; change KERNEL_DEFAULT_TABLE_ARENA_PAGE_COUNT with 16; lia).
  destruct (demo_install_run k1 eq_refl eq_refl Hl) as (d2 & E2 & Hd2); [split; [done|by exists d]|].
  destruct n as [|[|[|n]]]; [lia..|].
  destruct (exit42_file_executed outside parent a n (set_k_store (Some d2) k1) al) as (k3 & tr & E3 & Htr & Ht & Hd3); try done;
    [by apply launchable_store|].
  by exists k1, (set_k_store (Some d2) k1), k3, tr.
Qed.
Lemma booted_machine_runs_demo_witness : exists k1 k2 k3 tr, boot (make_kernel launch_machine) = (k1, Ok tt) /\ install_host_demo_user_programs k1 = (k2, Ok tt) /\
  exec_user_file (fun _ _ => 0) 0 HOST_DEMO_EXIT42_PATH (make_default_user_file_arguments HOST_DEMO_EXIT42_PATH) 100 k2 =
    (k3, Ok (mkRunResult 1 RunStatus.EXITED 3 42 true tr)).
Proof.
  pose proof (zero_memory_size 0x40000 ltac:(lia)) as Hz.
  destruct (booted_machine_runs_demo launch_machine (fun _ _ => 0) 0 (make_default_user_file_arguments HOST_DEMO_EXIT42_PATH) 100) as (k1 & k2 & k3 & tr & E1 & E2 & E3 & _).
  - apply (zero_memory_ok 0x40000). lia.
  - change (bus_size (make_memory 0x40000) <= 2 ^ 52). lia.
  - change (50 * 4096 <= 0x40000 <= bus_size (make_memory 0x40000)). lia.
  - done.
  - split; repeat constructor; discriminate.
  - split; constructor.
  - vm_compute. discriminate.
  - lia.
  - exists k1, k2, k3, tr. split; [exact E1|]. split; [exact E2|exact E3].
Defined.
